(* ===== verification/_CoqProject ===== *)
-Q . S2P
Prelude.v
BigComps.v
BigCell.v
BigHeap.v
BigInt.v
BigDiv.v
BigNum.v
BigRoot.v
BigText.v
LowPrimes.v
BigPrime.v
BigFactor.v
BigStart.v
BigSpec.v
BigClient.v
BigClaims.v
BigMain.v
FastLZ.v
FastLZStream.v
SixFile.v
SixPack.v
SixUnpack.v
SixSpec.v
SixArchive.v
SixExtract.v
SixTotal.v
SixClaims.v
Blake2.v
Blake2p.v
Pcg.v
Atto.v
AttoGap.v
AttoLines.v
AttoEdit.v
AttoSpec.v
AttoSearch.v
AttoDisplay.v
AttoBuffers.v
AttoFiles.v
AttoKeys.v
AttoWorld.v
AttoLists.v
AttoInv.v
AttoReach.v
AttoReplace.v
AttoStore.v
AttoClaims.v
Game2048.v
Game2048Spec.v
Game2048Board.v
Game2048Play.v
Game2048Claims.v
Sudoku.v
SudokuSpec.v
SudokuDeduce.v
SudokuSolve.v
SudokuClaims.v
SokGame.v
SokRule.v
SokShow.v
SokPlay.v
SokAnswers.v
SokText.v
SokTurn.v
SokWorld.v
SokLevel.v
SokSession.v
SokFill.v
SokImprove.v
SokSeries.v
SokLoad.v
SokClaims.v
NineCall.v
NineWire.v
NineSend.v
NineReceive.v
NineRune.v
NineEncode.v
NineClean.v
NineClaims.v
