(* ===== verification/Prelude.v ===== *)
(** * Verification of programs of the LiteBSD ports tree

    The ports tree (src/) is a collection of separate C programs.  This
    development verifies several of them, each from its C source:

    - the arbitrary-precision integers of src/math/bigint (bigint_int.c,
      bigint_ext.c, low_primes.h) with the factoring program bi_factor.c;
    - the FastLZ compressor, src/archivers/fastlz/fastlz.c, and the archiver 6pack and 6unpack around
      it (6pack.c, 6unpack.c);
    - the BLAKE2 hash functions, src/math/blake2 (blake2b-ref.c, blake2s-ref.c,
      blake2bp-ref.c, blake2sp-ref.c, blake2-impl.h);
    - the PCG random numbers, src/math/pcg-c-basic/pcg_basic.c;
    - the editor Atto, src/editors/atto (all of its files);
    - the game 2048, src/games/2048/2048.c;
    - the sudoku solver, src/games/sudoku/sudoku.c;
    - the game Csokoban, src/games/cgames/csokoban (csokoban.c, play.c, movelist.c, fileread.c, answers.c);
    - parts of lib9, the library of 9cc, src/devel/9cc/lib9: the messages of 9P (fcall.h, convS2M.c, convM2S.c), UTF-8 (rune.c and the
      utf functions), text encodings (u64.c, u32.c, u16.c), path names (cleanname.c).

    ** How the code is modelled

    A C integer is a [Z] with the wrap-around of its width written out ([add64],
    [wrap32], [u32], [w32], [wadd], ...); bytes are [Z]s from 0 to 255 in lists.  A function
    with effects is a [prog] (this file): from the fuel of its loops and a state to a value
    and a state, or a fault.  A fault is a raised signal with its message, a division
    by zero, a bad access or a signed overflow ([Overflow]: the opposite of the most negative int) in the code itself, an exit with a
    message, or the end of the fuel.  The code after
    [kill( getpid(), SIGFPE )] is not run: the signal's default action ends the process.
    malloc does not fail in the model, Atto's and 6unpack's excepted.

    Fuel: a loop whose recursion is not structural gets fuel, and nothing is claimed about a
    run that ends in [Out_of_fuel].  [wp p s Q] says that for all large enough fuel [p] returns,
    always with the same result, and that result satisfies [Q]; [faults p s f] says that for all large
    enough fuel it ends in [f]; [halts p s Q] that it ends, in a result or a fault.  So every [wp] theorem includes termination.  The fixed
    fuels are bounds: [cbits] shifts a 64-bit word at most 64 times, [carry_top] spreads a 64-bit
    component over at most three, BLAKE2's [update] turns at most twice per input byte.

    ** The bigint package

    A bigint is the address of an object with a reference count; every function
    consumes (frees) its arguments.  The files, from the inside out:

    - [BigComps]: the loops over the component array (base 2^31 in 64-bit words), on lists;
      their value ([val]) and the ranges within which no 64-bit operation wraps.
    - [BigCell]: one object ([real_bigint]), [normalize] and the bodies of the operations that change
      one; [normal_form] is the representation invariant, [cell_val] the integer.
    - [BigHeap]: the heap, [alloc], [clone], [bi_copy], [bi_free], [check] and its levels.  [well_formed] is the
      invariant of the heap, free list, active list and counters; [owns E s G X] says who
      holds what: the permanent numbers and libc ([E]), the caller's handles with their values ([G]), the objects under
      construction ([X]).  Reference counts equal the number of handles.  The tactics [step] and [own] run
      a program by the specifications of what it calls.
    - [BigInt]: the arithmetic on handles (add, subtract, schoolbook and Karatsuba products and
      squares, int operations, predicates), and [bi_initialize], [bi_terminate].
    - [BigDiv]: [bi_divide] and the residues; [BigRoot]: square root, binary division, [bi_random];
      [BigNum]: the rest of bigint_ext.c but text ([BigText]) and primes ([LowPrimes], [BigPrime]).
    - [BigFactor], [BigMain]: bi_factor.c, the factoring and the command line.
    - [BigStart]: what holds from [bi_initialize] to [bi_terminate].
    - [BigSpec]: the contracts ([total1], [total2], [raises2], ...) and sessions from [bi_initialize] on.
    - [BigClient]: the abstract machine on integers that the package implements.
    - [BigClaims]: the properties.

    The properties show: exactness of sum, difference, product, square, residues, powers,
    binary division, gcd, Jacobi symbol; what [bi_divide], [bi_rem], [bi_egcd], [bi_mod_inverse] and [bi_sqrt] do guarantee and the inputs on which they miss
    what their comments say; the errors they raise; printing and scanning in every base;
    the primality test and the factoring program; that calls in any order are
    simulated by the abstract machine, that nothing leaks, and that use after free is caught.

    Outside code: random(), getc and putc are the [world] of the state; theorems on
    random numbers assume its documented range ([random_range]).  The content of fresh memory is arbitrary ([garbage]).
    Reference counts are ints in C and integers here; a count that reaches the mark [PERMANENT] by
    copying is excluded only where it matters ([unsaturated]).

    ** FastLZ

    [FastLZ] follows fastlz.c for both levels ([level] is FASTLZ_LEVEL), with the output as a list that must not outgrow
    its buffer and the hash table as a list of positions.  An access outside a buffer is a fault, so that
    a theorem that a call returns is also a theorem of memory safety.  A block is the code of a list of
    tokens; the compressor writes one for the input, the decompressor expands it.

    ** 6pack and 6unpack

    [SixFile] has what the two share: stdio streams over a disk (a map from paths to bytes), the Adler-32 checksum, the magic, chunk headers.
    The class [data_model] is the width of long, the class [host] what is outside: files that can be created, allocations, memory that was never
    written.  [SixPack] and [SixUnpack] follow the programs, the local variables of the main loop in a record; [FastLZStream] is fastlz.c on buffers
    longer than the block.  [SixSpec] specifies the parts, [SixArchive] the format ([archive_of]) and what the packer writes, [SixExtract] what
    the unpacker makes of it, [SixTotal] whether it ends, [SixClaims] has the properties: the round trip, that damage is noticed and a cut is
    not, the checksum, the command lines, and termination, which fails with 32-bit longs.

    ** BLAKE2

    [Blake2] and [Blake2p] are over classes of the variants (64 or 32-bit words; four or eight
    leaves).  The specification is the hash of a whole message, defined from the compression function; the incremental
    code is proved to compute it for any chunks.

    ** PCG

    [Pcg] has the generator, its seeding and the bounded draw; the theorems are the invariant, termination of the rejection
    loop, which draw it gives and that it is unbiased, and the full period.

    ** Atto

    Atto keeps buffers (gap buffers) and windows in two linked lists; a key is looked up in a table and
    runs a command on the current buffer.  [Atto] has the records of header.h and the globals of data.c: a buffer or
    a window is a record in a store by its address, a pointer into a block is its offset from [b_buf], and the
    keyboard is a stream of keys.  The class [machine] is what comes from outside: the size of the screen, which
    allocations succeed, what fresh memory contains, which files open, and [behind], the byte behind
    a block, which several functions read: where it matters theorems assume that reading it is no fault. The other files follow the C files:

    - [AttoGap] (gap.c): [text] of a buffer, its invariant [buffer_ok], [ptr], [pos], [movegap], [growgap], undo.
    - [AttoLines] (display.c, the scans; gap.c, line numbers): [seg_start] says where the rows of the screen start in a text.
    - [AttoEdit] (command.c): the commands; [AttoSpec]: an editor on lists and the proof that the commands refine it. Its state is
      a text with point, mark and scrap ([doc]) and where the gap is and how long ([held]), which decides whether a command needs
      memory and what copying a region that the gap cuts finds; [astep] are its steps; [shows] and [holds] relate the two.
    - [AttoSearch] (search.c), [AttoReplace] (replace.c), [AttoDisplay] (display.c), [AttoBuffers] (buffer.c, window.c),
      [AttoFiles] and [AttoStore] (files), [AttoKeys] (key.c, main.c).
    - [AttoWorld], [AttoLists], [AttoInv], [AttoReach]: the invariant [world] of the lists, that each command keeps it, and the states
      the main loop reaches ([reaches]).  These use [wlp], which says nothing of runs that fail.
    - [AttoClaims]: the properties, and an editor on which each is applied.

    The properties show that editing is correct on the gap buffer, that undo, cut and paste, save and load are inverse, that
    searching, replacing, motion by lines and line numbers are what they should be, that reading a key ends, and that the lists stay
    linked and the window counts right; and where the code fails: a region that the gap cuts in two, a mark behind the text,
    [killbuffer] of a buffer that is shown twice, and the others among the lemmas at the end of [AttoClaims].

    Not in the model of Atto: the characters on the screen, the formatting of messages and [w_name], [flushinp] and the debug functions; fread gives the
    whole file; int and char fields of windows and buffers other than line numbers are integers.

    ** 2048

    [Game2048] is the program: four columns of exponents, the score, the keys to come, how often rand() was called.  [Game2048Spec] states the rule for a
    line ([merge], [points]) and that slideArray follows it; [Game2048Board] does the turns of the board, the four moves ([moved]) and the end of the
    game ([over]); [Game2048Play] has the invariant of a game ([playing]: the sum of the tiles, the ledger of the score, the largest tile), one turn of the main loop
    ([turn_result]) and how runs end; [Game2048Claims] the properties.

    ** Sudoku

    [Sudoku] is the program, its table a list of 81 numbers.  A completion of a table ([completes], in [SudokuSpec]) is a solved grid with its numbers.
    [SudokuDeduce] shows what the two ways of deducing find, [SudokuSolve] that the state machine ends and what it promises ([solved]),
    [SudokuClaims] has the properties and the runs in which the code fails.

    ** Csokoban

    A puzzle is a map of 32 by 32 cells; the game keeps the map, an undo list and a redo list of moves, macros and saved states, and writes solutions to a
    file.  The [world] of [SokGame] has the static variables of play.c and csokoban.c, the puzzles that were read (a pointer to one is its index), the keys
    to come and what was shown.

    - [SokGame] follows movelist.c and play.c.  [SokRule] has the rules: a position is the player's cell and the set of boxes, [legal], [moved] and [plays]
      say which moves lead where.  [SokShow] relates lists ([list_ok], [used]) and maps ([shows_map]) to positions, [setup_ok] says when a puzzle can be
      played; [SokPlay] shows that domove, undomove, redomove and newmove follow the rules ([played] is the invariant).
    - [SokTurn] follows the keys of csokoban.c; [SokWorld] and [SokSession] have the invariant of the whole state ([world_ok]) and the sessions.
    - [SokAnswers] follows answers.c, [SokText] shows that what is written is read back.
    - [SokLevel] reads a puzzle (fileread.c); [SokFill] is the flood fill and the lines of the file, [SokImprove] improvemap and the counts.
    - [SokSeries] reads a file of puzzles and its solutions as far as they are needed (readlevelinseries); [SokLoad] shows that this ends and what was read.
    - [SokClaims]: the properties, a small puzzle, and runs in which the code fails.

    The loops of the game that need fuel end: the runs of steps in one direction at the wall, the flood fill because every cell is filled once, the lines
    of a file because the file ends, readlevelinseries because each puzzle takes something from the file or meets its end ([went]).  A solution read from a file is not checked by the code, so sessions start from puzzles whose solutions can be played ([puzzle_ok]).  The sizes of lists of moves are taken not to outgrow an int.
    The terminal (cursesio.c, linuxio.c), the listing of directories (dirio.c) and the command line are not modelled; the class [terminal] says how many puzzles
    the files have, the class [disk] what opening the files gives.

    ** lib9

    A 9P message is its size, its type (one of 27), its tag and the fields of the type; numbers are written from the low byte on, strings and data with
    their length before them.  [NineCall] follows fcall.h, convS2M.c and convM2S.c: the state is the buffer, a pointer into it an offset.  The class
    [addresses] says where the buffer lies and how wide addresses are, because the decoder compares pointers that may wrap.

    - [NineWire] has the format, as a [format] record of a writer, a reader and the laws that make them inverse: numbers, strings, lists, pairs;
      [message] is the type of messages, [layout] says how each is laid out, [wire] is its bytes and [parse_body] the parser that accepts just them.
    - [NineSend] shows that the encoder writes [wire] of the message the struct means ([message_of]), step by step ([writes]).
    - [NineReceive] shows that the decoder does what the parser does ([good]): it stays inside its bytes and the struct then [holds] the message.
    - [NineRune] follows rune.c and the utf functions and shows that chartorune is the inverse of runetochar ([decode]) and what the functions do on strings
      of runes ([string_of], [whole]).
    - [NineEncode] follows u64.c, u32.c and u16.c and shows what is decoded again, for base 32 only [left32].
    - [NineClean] follows cleanname.c; the places names lead to ([place], [go], [clean]) are the specification.
    - [NineClaims]: the properties, a message with names, what the code does with sizes that do not fit, and the inputs on which the text functions fail.

    The loops over names, qids, bytes and digits are structural; those over characters and path elements get as many turns as the string has bytes, each of which takes one at least.  The theorems on the decoder of messages assume that no
    pointer it computes leaves the address space, as with 64 bits; with 32 bits this fails ([count_wraps_pointer]).

    ** Not modelled

    The functions of bigint under notdef or DUMP and the parser of its calculator; the parameter setters blake2 never calls; the programs around
    these libraries that are mostly file and terminal I/O (b2sum, genkat, the
    demonstrations); and the other
    ports: interactive programs, network programs and compilers, whose effects are the terminal, sockets and files, and whose size is
    beyond this development. *)

From Stdlib Require Import ZArith Lia.
From stdpp Require Import base numbers list option strings.

Open Scope Z_scope.

(** * Machine integers

    A C [int64_t] is a [Z] in [-2^63, 2^63); an operation on it is the
    operation on [Z] followed by the wrap-around.  Every theorem about signed
    code also shows that the wrap-around is the identity there, or that the code ends
    in the fault [Overflow]: no signed overflow (undefined in C) is relied on. *)

Definition wrap64 (z : Z) : Z := (z + 9223372036854775808) mod 18446744073709551616 - 9223372036854775808.
Definition wrap32 (z : Z) : Z := (z + 2147483648) mod 4294967296 - 2147483648.

Definition add64 (a b : Z) : Z := wrap64 (a + b).
Definition sub64 (a b : Z) : Z := wrap64 (a - b).
Definition mul64 (a b : Z) : Z := wrap64 (a * b).
Definition neg64 (a : Z) : Z := wrap64 (- a).

Definition int64 (z : Z) : Prop := -9223372036854775808 <= z < 9223372036854775808.
Definition int32 (z : Z) : Prop := -2147483648 <= z < 2147483648.

Lemma wrap64_id z : int64 z -> wrap64 z = z.
Proof. unfold int64, wrap64. intros H. rewrite Z.mod_small; lia. Qed.

Lemma wrap32_id z : int32 z -> wrap32 z = z.
Proof. unfold int32, wrap32. intros H. rewrite Z.mod_small; lia. Qed.

(** Bits that do not meet are added. *)
Lemma lor_shiftl n a b : 0 <= n -> 0 <= a < 2 ^ n -> Z.lor a (Z.shiftl b n) = a + 2 ^ n * b.
Proof.
  intros Hn Ha. rewrite <- (Z.add_0_r (Z.lor _ _)).
  assert (Z.land a (Z.shiftl b n) = 0) as E.
  { apply Z.bits_inj'. intros m Hm. rewrite Z.land_spec, Z.shiftl_spec, Z.bits_0 by lia.
    destruct (Z.ltb_spec m n).
    - rewrite (Z.testbit_neg_r b) by lia. apply andb_false_r.
    - replace a with (a mod 2 ^ n) by (apply Z.mod_small; lia). by rewrite Z.mod_pow2_bits_high by lia. }
  rewrite <- E, Z.add_lor_land, Z.shiftl_mul_pow2 by lia. lia.
Qed.

Lemma lor_byte a b : 0 <= a < 256 -> Z.lor a (Z.shiftl b 8) = a + 256 * b.
Proof. intros Ha. by rewrite lor_shiftl by lia. Qed.

Lemma add64_id a b : int64 (a + b) -> add64 a b = a + b.
Proof. apply wrap64_id. Qed.
Lemma sub64_id a b : int64 (a - b) -> sub64 a b = a - b.
Proof. apply wrap64_id. Qed.
Lemma mul64_id a b : int64 (a * b) -> mul64 a b = a * b.
Proof. apply wrap64_id. Qed.
Lemma neg64_id a : int64 (- a) -> neg64 a = - a.
Proof. apply wrap64_id. Qed.

(** [nowrap_by tac] removes the wrap-arounds whose operands [tac] can bound,
    innermost first (the match backtracks until the bound is provable). *)
Ltac nowrap_by tac :=
  repeat match goal with
    | |- context [add64 ?a ?b] => rewrite (add64_id a b) by (unfold int64; tac)
    | |- context [sub64 ?a ?b] => rewrite (sub64_id a b) by (unfold int64; tac)
    | |- context [mul64 ?a ?b] => rewrite (mul64_id a b) by (unfold int64; tac)
    | |- context [neg64 ?a] => rewrite (neg64_id a) by (unfold int64; tac)
    | |- context [wrap64 ?a] => rewrite (wrap64_id a) by (unfold int64; tac)
    | |- context [wrap32 ?a] => rewrite (wrap32_id a) by (unfold int32; tac)
    end.

(** * Programs

    A C function that reads and writes the heap, raises a signal or loops is a
    [prog]: given the fuel of the loops and the state before, it yields the
    value returned and the state after, or the fault that ends the process. *)

Inductive fault : Type :=
  | Sigfpe (msg : string)   (** [fprintf(stderr, msg); kill(getpid(), SIGFPE)] *)
  | Div_by_zero             (** an integer division by zero in the C code itself *)
  | Bad_pointer             (** a NULL or dangling pointer was dereferenced *)
  | Overflow                (** a signed operation left its type: undefined in C *)
  | Exit (status : Z) (msg : string)   (** [fprintf(stderr, msg); exit(status)] *)
  | Assert_failed           (** an assertion of the code does not hold: the process aborts *)
  | Out_of_fuel.            (** the fuel of the model ran out: not an outcome of the code *)

Inductive outcome (S A : Type) : Type :=
  | Ok (a : A) (s : S)
  | Fault (f : fault).
Arguments Ok {S A} a s.
Arguments Fault {S A} f.

Definition prog (S A : Type) : Type := nat -> S -> outcome S A.

#[export] Instance prog_ret S : MRet (prog S) := fun A a _ s => Ok a s.
#[export] Instance prog_bind S : MBind (prog S) := fun A B k m fuel s =>
  match m fuel s with
  | Ok a s' => k a fuel s'
  | Fault f => Fault f
  end.

Definition fail {S A} (f : fault) : prog S A := fun _ _ => Fault f.
Definition sigfpe {S A} (msg : string) : prog S A := fail (Sigfpe msg).
Definition get_state {S} : prog S S := fun _ s => Ok s s.
Definition set_state {S} (s : S) : prog S unit := fun _ _ => Ok tt s.
Definition gets {S A} (f : S -> A) : prog S A := fun _ s => Ok (f s) s.
Definition modify {S} (f : S -> S) : prog S unit := fun _ s => Ok tt (f s).
Definition assert_that {S} (b : bool) : prog S unit := if b then mret tt else fail Assert_failed.
(** [when b msg]: the code's [if (b) { fprintf(stderr, msg); kill(...); }]. *)
Definition signal_if {S} (b : bool) (msg : string) : prog S unit :=
  if b then sigfpe msg else mret tt.
(** A loop is a Fixpoint on its own fuel; [with_fuel] starts it with all of it. *)
Definition with_fuel {S A} (loop : nat -> prog S A) : prog S A :=
  fun fuel s => loop fuel fuel s.

(** ** Total correctness

    [wp p s Q]: for all large enough fuel the program returns, always with the
    same value and state, and these satisfy [Q].  It is stated for a family
    [p] indexed by the fuel a loop has left, so that loops and the code around
    them share one set of rules; straight-line code is a constant family. *)

Definition wp {S A} (p : nat -> prog S A) (s : S) (Q : A -> S -> Prop) : Prop :=
  exists N a s', (forall n fuel, (N <= n)%nat -> (N <= fuel)%nat -> p n fuel s = Ok a s') /\ Q a s'.

(** [faults p s f]: for all large enough fuel the program ends with fault [f]. *)
Definition faults {S A} (p : nat -> prog S A) (s : S) (f : fault) : Prop :=
  exists N, forall n fuel, (N <= n)%nat -> (N <= fuel)%nat -> p n fuel s = Fault f.

Section wp_rules.
Context {S : Type}.

Lemma wp_ret {A} (a : A) (s : S) (Q : A -> S -> Prop) : Q a s -> wp (fun _ => mret a) s Q.
Proof. intros H. exists 0%nat, a, s. split; [|done]. intros; reflexivity. Qed.

Lemma wp_mono {A} (p : nat -> prog S A) (s : S) (P Q : A -> S -> Prop) :
  wp p s P -> (forall a s', P a s' -> Q a s') -> wp p s Q.
Proof. intros (N & a & s' & H & HP) HPQ. exists N, a, s'. auto. Qed.

(** A run has one result. *)
Lemma wp_and {A} (p : nat -> prog S A) (s : S) (P Q : A -> S -> Prop) :
  wp p s P -> wp p s Q -> wp p s (fun a s' => P a s' /\ Q a s').
Proof.
  intros (N & a & s1 & H1 & HP) (N' & a' & s1' & H2 & HQ). exists N, a, s1. split; [done|]. split; [done|].
  specialize (H1 (N `max` N')%nat (N `max` N')%nat ltac:(lia) ltac:(lia)).
  rewrite H2 in H1 by lia. by injection H1 as <- <-.
Qed.

Lemma wp_bind {A B} (p : nat -> prog S A) (k : nat -> A -> prog S B) (s : S) Q :
  wp p s (fun a s' => wp (fun n => k n a) s' Q) -> wp (fun n => p n ≫= k n) s Q.
Proof.
  intros (N1 & a & s1 & H1 & N2 & b & s2 & H2 & HQ).
  exists (N1 `max` N2)%nat, b, s2. split; [|done]. intros n fuel Hn Hf.
  unfold mbind, prog_bind. rewrite H1 by lia. apply H2; lia.
Qed.

(** A call whose specification is [wp _ s P]; the rest starts from [P]. *)
Lemma wp_call {A B} (p : nat -> prog S A) (k : nat -> A -> prog S B) (s : S) P Q :
  wp p s P -> (forall a s', P a s' -> wp (fun n => k n a) s' Q) ->
  wp (fun n => p n ≫= k n) s Q.
Proof. intros H HPQ. apply wp_bind. by eapply wp_mono. Qed.

Lemma wp_get_state (s : S) (Q : S -> S -> Prop) : Q s s -> wp (fun _ => get_state) s Q.
Proof. intros H. by exists 0%nat, s, s. Qed.

Lemma wp_set_state (s s' : S) (Q : unit -> S -> Prop) : Q tt s' -> wp (fun _ => set_state s') s Q.
Proof. intros H. by exists 0%nat, tt, s'. Qed.

Lemma wp_gets {A} (f : S -> A) (s : S) (Q : A -> S -> Prop) : Q (f s) s -> wp (fun _ => gets f) s Q.
Proof. intros H. by exists 0%nat, (f s), s. Qed.

Lemma wp_modify (f : S -> S) (s : S) (Q : unit -> S -> Prop) : Q tt (f s) -> wp (fun _ => modify f) s Q.
Proof. intros H. by exists 0%nat, tt, (f s). Qed.

Lemma wp_assert (b : bool) (s : S) (Q : unit -> S -> Prop) : b = true -> Q tt s -> wp (fun _ => assert_that b) s Q.
Proof. intros -> H. by apply wp_ret. Qed.

Lemma wp_signal_if (b : bool) msg (s : S) (Q : unit -> S -> Prop) :
  b = false -> Q tt s -> wp (fun _ => signal_if b msg) s Q.
Proof. intros -> H. by apply wp_ret. Qed.

Lemma wp_with_fuel {A} (loop : nat -> prog S A) (s : S) Q :
  wp loop s Q -> wp (fun _ => with_fuel loop) s Q.
Proof.
  intros (N & a & s' & H & HQ). exists N, a, s'. split; [|done].
  intros n fuel _ Hf. by apply H.
Qed.

(** One turn of a loop: the Fixpoint unfolds at the successor. *)
Lemma wp_unfold {A} (p q : nat -> prog S A) (s : S) Q :
  (forall n, p (Datatypes.S n) = q n) -> wp q s Q -> wp p s Q.
Proof.
  intros E (N & a & s' & H & HQ). exists (Datatypes.S N), a, s'. split; [|done].
  intros n fuel Hn Hf. destruct n as [|n]; [lia|]. rewrite E. apply H; lia.
Qed.

Lemma wp_ext {A} (p q : nat -> prog S A) (s : S) Q :
  (forall n fuel, p n fuel s = q n fuel s) -> wp q s Q -> wp p s Q.
Proof.
  intros E (N & a & s' & H & HQ). exists N, a, s'. split; [|done].
  intros n fuel Hn Hf. rewrite E. by apply H.
Qed.

Lemma faults_fail {A} f (s : S) : faults (A := A) (fun _ => fail f) s f.
Proof. exists 0%nat. reflexivity. Qed.

Lemma faults_bind {A B} (p : nat -> prog S A) (k : nat -> A -> prog S B) (s : S) f :
  faults p s f -> faults (fun n => p n ≫= k n) s f.
Proof.
  intros (N & H). exists N. intros n fuel Hn Hf.
  unfold mbind, prog_bind. by rewrite H by lia.
Qed.

Lemma faults_after {A B} (p : nat -> prog S A) (k : nat -> A -> prog S B) (s : S) P f :
  wp p s P -> (forall a s', P a s' -> faults (fun n => k n a) s' f) ->
  faults (fun n => p n ≫= k n) s f.
Proof.
  intros (N1 & a & s1 & H1 & HP) Hk. destruct (Hk _ _ HP) as (N2 & H2).
  exists (N1 `max` N2)%nat. intros n fuel Hn Hf.
  unfold mbind, prog_bind. rewrite H1 by lia. apply H2; lia.
Qed.

Lemma faults_with_fuel {A} (loop : nat -> prog S A) (s : S) f :
  faults loop s f -> faults (fun _ => with_fuel loop) s f.
Proof. intros (N & H). exists N. intros n fuel _ Hf. by apply H. Qed.

Lemma faults_unfold {A} (p q : nat -> prog S A) (s : S) f :
  (forall n, p (Datatypes.S n) = q n) -> faults q s f -> faults p s f.
Proof.
  intros E (N & H). exists (Datatypes.S N). intros n fuel Hn Hf. destruct n as [|n]; [lia|].
  rewrite E. apply H; lia.
Qed.
End wp_rules.

(** ** Termination

    [halts p s Q]: for all large enough fuel the program ends in the same way, either with a result that
    satisfies [Q] or with a fault of the code.  Faults are allowed, running on for ever is not. *)

Definition halts {S A} (p : nat -> prog S A) (s : S) (Q : A -> S -> Prop) : Prop :=
  exists N o, (forall n fuel, (N <= n)%nat -> (N <= fuel)%nat -> p n fuel s = o) /\
    match o with Ok a s' => Q a s' | Fault f => f <> Out_of_fuel end.

Section halts_rules.
Context {S : Type}.

Lemma wp_halts {A} (p : nat -> prog S A) (s : S) (Q : A -> S -> Prop) : wp p s Q -> halts p s Q.
Proof. intros (N & a & s' & H & HQ). by exists N, (Ok a s'). Qed.

Lemma halts_ret {A} (a : A) (s : S) (Q : A -> S -> Prop) : Q a s -> halts (fun _ => mret a) s Q.
Proof. intros H. by exists 0%nat, (Ok a s). Qed.

Lemma halts_fail {A} f (s : S) (Q : A -> S -> Prop) : f <> Out_of_fuel -> halts (fun _ => fail f) s Q.
Proof. intros H. by exists 0%nat, (Fault f). Qed.

Lemma halts_mono {A} (p : nat -> prog S A) (s : S) (P Q : A -> S -> Prop) :
  halts p s P -> (forall a s', P a s' -> Q a s') -> halts p s Q.
Proof. intros (N & o & H & HP) HPQ. exists N, o. split; [done|]. destruct o; auto. Qed.

Lemma halts_bind {A B} (p : nat -> prog S A) (k : nat -> A -> prog S B) (s : S) Q :
  halts p s (fun a s' => halts (fun n => k n a) s' Q) -> halts (fun n => p n ≫= k n) s Q.
Proof.
  intros (N1 & o & H1 & Ho). destruct o as [a s1|f].
  - destruct Ho as (N2 & o & H2 & HQ). exists (N1 `max` N2)%nat, o. split; [|done]. intros n fuel Hn Hf.
    unfold mbind, prog_bind. rewrite H1 by lia. apply H2; lia.
  - exists N1, (Fault f). split; [|done]. intros n fuel Hn Hf. unfold mbind, prog_bind. by rewrite H1 by lia.
Qed.

Lemma halts_call {A B} (p : nat -> prog S A) (k : nat -> A -> prog S B) (s : S) P Q :
  halts p s P -> (forall a s', P a s' -> halts (fun n => k n a) s' Q) -> halts (fun n => p n ≫= k n) s Q.
Proof. intros H HPQ. apply halts_bind. by eapply halts_mono. Qed.

Lemma halts_get_state (s : S) (Q : S -> S -> Prop) : Q s s -> halts (fun _ => get_state) s Q.
Proof. intros H. by exists 0%nat, (Ok s s). Qed.

Lemma halts_set_state (s s' : S) (Q : unit -> S -> Prop) : Q tt s' -> halts (fun _ => set_state s') s Q.
Proof. intros H. by exists 0%nat, (Ok tt s'). Qed.

Lemma halts_modify (f : S -> S) (s : S) (Q : unit -> S -> Prop) : Q tt (f s) -> halts (fun _ => modify f) s Q.
Proof. intros H. by exists 0%nat, (Ok tt (f s)). Qed.

Lemma halts_with_fuel {A} (loop : nat -> prog S A) (s : S) Q : halts loop s Q -> halts (fun _ => with_fuel loop) s Q.
Proof. intros (N & o & H & HQ). exists N, o. split; [|done]. intros n fuel _ Hf. by apply H. Qed.

Lemma halts_unfold {A} (p q : nat -> prog S A) (s : S) Q :
  (forall n, p (Datatypes.S n) = q n) -> halts q s Q -> halts p s Q.
Proof.
  intros E (N & o & H & HQ). exists (Datatypes.S N), o. split; [|done].
  intros n fuel Hn Hf. destruct n as [|n]; [lia|]. rewrite E. apply H; lia.
Qed.

End halts_rules.

(** ** Partial correctness

    [wlp p s Q]: if the program returns, with whatever fuel, the result satisfies [Q].
    It is used for invariants, where a fault or a loop without end is no matter. *)

Definition wlp {S A} (p : prog S A) (s : S) (Q : A -> S -> Prop) : Prop :=
  forall fuel a s', p fuel s = Ok a s' -> Q a s'.

Section wlp_rules.
Context {S : Type}.

Lemma wlp_ret {A} (a : A) (s : S) (Q : A -> S -> Prop) : Q a s -> wlp (mret a) s Q.
Proof. intros HQ fuel b s' E. by injection E as <- <-. Qed.

Lemma wlp_mono {A} (p : prog S A) (s : S) (P Q : A -> S -> Prop) :
  wlp p s P -> (forall a s', P a s' -> Q a s') -> wlp p s Q.
Proof. intros H HPQ fuel a s' E. by eapply HPQ, H. Qed.

Lemma wlp_bind {A B} (p : prog S A) (k : A -> prog S B) (s : S) Q :
  wlp p s (fun a s' => wlp (k a) s' Q) -> wlp (p ≫= k) s Q.
Proof.
  intros H fuel b s' E. unfold mbind, prog_bind in E.
  destruct (p fuel s) as [a s1|f] eqn:Ep; [|done]. by eapply H.
Qed.

Lemma wlp_get_state (s : S) (Q : S -> S -> Prop) : Q s s -> wlp get_state s Q.
Proof. intros H fuel a s' E. by injection E as <- <-. Qed.

Lemma wlp_gets {A} (f : S -> A) (s : S) (Q : A -> S -> Prop) : Q (f s) s -> wlp (gets f) s Q.
Proof. intros H fuel a s' E. by injection E as <- <-. Qed.

Lemma wlp_modify (f : S -> S) (s : S) (Q : unit -> S -> Prop) : Q tt (f s) -> wlp (modify f) s Q.
Proof. intros H fuel a s' E. by injection E as <- <-. Qed.

Lemma wlp_set_state (t s : S) (Q : unit -> S -> Prop) : Q tt t -> wlp (set_state t) s Q.
Proof. intros H fuel a s' E. by injection E as <- <-. Qed.

Lemma wlp_fail {A} f (s : S) (Q : A -> S -> Prop) : wlp (fail f) s Q.
Proof. intros fuel a s' E. discriminate E. Qed.

Lemma wlp_assert (b : bool) (s : S) (Q : unit -> S -> Prop) : (b = true -> Q tt s) -> wlp (assert_that b) s Q.
Proof. intros H. destruct b; [by apply wlp_ret, H | apply wlp_fail]. Qed.

(** A loop keeps what it keeps with any fuel. *)
Lemma wlp_with_fuel {A} (loop : nat -> prog S A) (s : S) Q :
  (forall n, wlp (loop n) s Q) -> wlp (with_fuel loop) s Q.
Proof. intros H fuel a s' E. by eapply H. Qed.

(** *** What a program leaves as it is *)

Definition preserves {T A} (f : S -> T) (p : prog S A) : Prop := forall s, wlp p s (fun _ s' => f s' = f s).

Context {T : Type} (f : S -> T).

Lemma pres_ret {A} (a : A) : preserves f (mret a).
Proof. intros s. by apply wlp_ret. Qed.
Lemma pres_bind {A B} (p : prog S A) (k : A -> prog S B) :
  preserves f p -> (forall a, preserves f (k a)) -> preserves f (p ≫= k).
Proof.
  intros Hp Hk s. apply wlp_bind. eapply wlp_mono; [apply Hp|]. cbn beta. intros a s1 E1.
  eapply wlp_mono; [apply Hk|]. cbn beta. intros b s2 E2. congruence.
Qed.
Lemma pres_get_state : preserves f get_state.
Proof. intros s. by apply wlp_get_state. Qed.
Lemma pres_gets {A} (g : S -> A) : preserves f (gets g).
Proof. intros s. by apply wlp_gets. Qed.
Lemma pres_modify (g : S -> S) : (forall s, f (g s) = f s) -> preserves f (modify g).
Proof. intros H s. by apply wlp_modify. Qed.
Lemma pres_fail {A} e : preserves f (fail (A := A) e).
Proof. intros s. apply wlp_fail. Qed.
Lemma pres_assert b : preserves f (assert_that b).
Proof. intros s. by apply wlp_assert. Qed.
Lemma pres_with_fuel {A} (loop : nat -> prog S A) : (forall n, preserves f (loop n)) -> preserves f (with_fuel loop).
Proof. intros H s. apply wlp_with_fuel. intros n. apply H. Qed.
End wlp_rules.

Create HintDb preserve.
#[export] Hint Resolve pres_ret pres_get_state pres_gets pres_fail pres_assert : preserve.

(** Walks through a program; what it cannot resolve by [preserve] it leaves. *)
Ltac preserve :=
  repeat match goal with
  | |- preserves _ _ => solve [auto with preserve nocore]
  | |- forall _, preserves _ _ => intros ?
  | |- preserves _ (_ ≫= _) => apply pres_bind
  | |- preserves _ (with_fuel _) => apply pres_with_fuel
  | |- preserves _ (modify _) => apply pres_modify; intros ?; reflexivity
  | |- preserves _ (match ?x with _ => _ end) => destruct x
  | |- preserves _ (let '_ := ?x in _) => destruct x
  end.
