(* ===== verification/BigComps.v ===== *)
(** * Component vectors (src/math/bigint/bigint_int.c)

    The arithmetic on the [comps] array of a bigint: the loops of
    [bigint_int.c] over [bi->comps[0 .. num_comps-1]], as functions on the list
    of those components, low-order first, with every [int64_t] operation
    wrapped.  The theorems give each loop's meaning through [val], and show
    that no intermediate component leaves the range of [comp].  *)

From Stdlib Require Import ZArith Lia.
From stdpp Require Import base numbers list.
From S2P Require Import Prelude.

Open Scope Z_scope.

(** [bi_initialize] computes these: [bi_radix = 1 << (BITS(comp)/2 - 1)],
    [bi_radix_o2 = bi_radix >> 1], [bi_comp_bits = cbits(bi_radix - 1)]. *)
Definition bi_radix : Z := Eval vm_compute in Z.shiftl 1 (64 / 2 - 1).
Definition bi_radix_o2 : Z := Eval vm_compute in Z.shiftr bi_radix 1.
Definition bi_comp_bits : Z := 31.

Ltac radix_lia := unfold bi_radix, bi_radix_o2, bi_comp_bits in *; lia.
Ltac radix_nia := unfold bi_radix, bi_radix_o2, bi_comp_bits in *; nia.

(** ** Definitions *)

(** The number a component vector stands for (the comment at the top of bigint_int.c). *)
Fixpoint val (l : list Z) : Z :=
  match l with
  | [] => 0
  | x :: l => x + bi_radix * val l
  end.

(** [normalize], first loop: borrow for negative components.  [x] is
    [bi->comps[c]] and [t] the components above it. *)
Fixpoint borrow (x : Z) (t : list Z) : list Z :=
  match t with
  | [] => [x]
  | y :: t =>
      if x <? 0 then
        let y1 := add64 y (sub64 (Z.quot x bi_radix) 1) in
        let x1 := Z.rem x bi_radix in
        if negb (x1 =? 0) then add64 x1 bi_radix :: borrow y1 t
        else x1 :: borrow (add64 y1 1) t
      else x :: borrow y t
  end.

(** [normalize], "Switch the sign of the number, and fix up the components". *)
Fixpoint flip (x : Z) (t : list Z) : list Z :=
  match t with
  | [] => [neg64 x]
  | y :: t => sub64 bi_radix x :: flip (add64 y 1) t
  end.

(** [normalize], carry loop past the top component: [more_comps] appends a zero
    component, which takes the carry.  A 64-bit value spans three components. *)
Fixpoint carry_top (n : nat) (x : Z) : list Z :=
  if bi_radix <=? x then
    Z.rem x bi_radix ::
      match n with
      | O => [add64 0 (Z.quot x bi_radix)]
      | S n => carry_top n (add64 0 (Z.quot x bi_radix))
      end
  else [x].

(** [normalize], "Carry for components larger than the radix". *)
Fixpoint carry (x : Z) (t : list Z) : list Z :=
  match t with
  | [] => carry_top 2 x
  | y :: t =>
      if bi_radix <=? x
      then Z.rem x bi_radix :: carry (add64 y (Z.quot x bi_radix)) t
      else x :: carry y t
  end.

(** [normalize], "Trim off any leading zero components": all of them, then
    all but the lowest component. *)
Fixpoint trim_zeros (l : list Z) : list Z :=
  match l with
  | [] => []
  | x :: l =>
      match trim_zeros l with
      | [] => if x =? 0 then [] else [x]
      | l' => x :: l'
      end
  end.
Definition trim (l : list Z) : list Z :=
  match l with
  | [] => []
  | x :: l => x :: trim_zeros l
  end.

Definition top (l : list Z) : Z := List.last l 0.

(** [for (c = 0; c < bib->num_comps; ++c) biR->comps[c] op= bib->comps[c];] *)
Fixpoint zip_comps (op : Z -> Z -> Z) (l m : list Z) : list Z :=
  match l, m with
  | x :: l, y :: m => op x y :: zip_comps op l m
  | _, _ => l
  end.

(** The same loop writing to [comps[c + off]] (the two loops of [karatsuba_multiply]). *)
Definition zip_comps_at (op : Z -> Z -> Z) (off : nat) (l m : list Z) : list Z :=
  take off l ++ zip_comps op (drop off l) m.

(** The inner loop of [regular_multiply]: [biR->comps[c1+c2] += x * bib->comps[c2]]. *)
Definition mul_row (x : Z) (r b : list Z) : list Z :=
  zip_comps (fun z y => add64 z (mul64 x y)) r b.

(** The body of [regular_square] for one [c1]: [comps[c1+c2] += 2*x*comps[c2]]
    for the [c2 < c1], then [comps[2*c1] += x*x]. *)
Fixpoint square_row (x : Z) (r b : list Z) : list Z :=
  match r, b with
  | z :: r, y :: b => add64 z (mul64 (mul64 2 x) y) :: square_row x r b
  | z :: r, [] => add64 z (mul64 x x) :: r
  | [], _ => []
  end.

(** [bi_int_divide]: from the top component down, [r = r * bi_radix + comps[c];
    comps[c] = r / denom; r = r % denom].  Yields the quotients and [r]. *)
Fixpoint div_loop (denom : Z) (l : list Z) : list Z * Z :=
  match l with
  | [] => ([], 0)
  | x :: l =>
      let '(q, r) := div_loop denom l in
      let r := add64 (mul64 r bi_radix) x in
      (Z.quot r denom :: q, Z.rem r denom)
  end.

(** [bi_int_rem]: from the low component up. *)
Fixpoint rem_loop (m rad_r r : Z) (l : list Z) : Z :=
  match l with
  | [] => r
  | x :: l =>
      rem_loop m (Z.rem (mul64 rad_r bi_radix) m) (Z.rem (add64 r (mul64 x rad_r)) m) l
  end.

(** [bi_to_int]: [v += comps[c] * m; m *= bi_radix]. *)
Fixpoint to_int_loop (v m : Z) (l : list Z) : Z :=
  match l with
  | [] => v
  | x :: l => to_int_loop (add64 v (mul64 x m)) (mul64 m bi_radix) l
  end.

(** [bi_half]: an odd component adds half a radix to the one below it. *)
Fixpoint half_loop (l : list Z) : list Z :=
  match l with
  | [] => []
  | x :: l =>
      match l with
      | y :: _ =>
          if negb (Z.land y 1 =? 0) then add64 (Z.shiftr x 1) bi_radix_o2
          else Z.shiftr x 1
      | [] => Z.shiftr x 1
      end :: half_loop l
  end.

(** [bi_double]: from the top component down; the component above the top one
    is the zero [more_comps] appends. *)
Fixpoint double_loop (l : list Z) : list Z :=
  match l with
  | [] => []
  | x :: l =>
      let l' := double_loop l in
      let x := wrap64 (Z.shiftl x 1) in
      if bi_radix <=? x then
        sub64 x bi_radix ::
          match l' with
          | [] => [add64 0 1]
          | y :: l' => add64 y 1 :: l'
          end
      else x :: l'
  end.

(** [bi_compare], the loop: compare starting from the high end. *)
Fixpoint compare_loop (sign : Z) (l m : list Z) : Z :=
  match l, m with
  | x :: l, y :: m =>
      let r := compare_loop sign l m in
      if negb (r =? 0) then r
      else if y <? x then sign
      else if x <? y then - sign
      else 0
  | _, _ => 0
  end.

(** [cbits]: [for (b = 0; c != 0; ++b) c >>= 1;].  64 turns empty a [comp] that is not negative. *)
Fixpoint cbits_loop (n : nat) (b c : Z) : Z :=
  match n with
  | O => b
  | S n => if c =? 0 then b else cbits_loop n (b + 1) (Z.shiftr c 1)
  end.
Definition cbits (c : Z) : Z := cbits_loop 64 0 c.

(** [cbit]: [(c & (1 << bitnum)) != 0], the mask being an [int]. *)
Definition cbit (c bitnum : Z) : bool := negb (Z.land c (wrap32 (Z.shiftl 1 bitnum)) =? 0).

(** ** Digits *)

Definition digit (x : Z) : Prop := 0 <= x < bi_radix.
Definition digits (l : list Z) : Prop := Forall digit l.

Lemma bi_comp_bits_radix : bi_radix = 2 ^ bi_comp_bits /\ bi_comp_bits = cbits (bi_radix - 1).
Proof. split; reflexivity. Qed.

Lemma val_app l m : val (l ++ m) = val l + bi_radix ^ Z.of_nat (length l) * val m.
Proof.
  induction l as [|x l IH]; simpl length.
  - simpl app. change (Z.of_nat 0) with 0. rewrite Z.pow_0_r. cbn [val]. ring.
  - rewrite Nat2Z.inj_succ, Z.pow_succ_r by lia. simpl app. cbn [val]. rewrite IH. ring.
Qed.

Lemma val_replicate_0 n : val (replicate n 0) = 0.
Proof. induction n as [|n IH]; [done|]. cbn [replicate val]. rewrite IH. lia. Qed.

Lemma val_pad l n : val (l ++ replicate n 0) = val l.
Proof. rewrite val_app, val_replicate_0. ring. Qed.

Lemma digits_nonneg l : digits l -> 0 <= val l.
Proof.
  induction 1 as [|x l Hx _ IH]; cbn [val]; [lia|]. unfold digit in Hx. radix_nia.
Qed.

Lemma pow_radix_pos n : 0 < bi_radix ^ Z.of_nat n.
Proof. apply Z.pow_pos_nonneg; [radix_lia | lia]. Qed.

Lemma digits_bound l : digits l -> 0 <= val l < bi_radix ^ Z.of_nat (length l).
Proof.
  induction 1 as [|x l Hx _ IH].
  - simpl. lia.
  - simpl length. rewrite Nat2Z.inj_succ, Z.pow_succ_r by lia. cbn [val].
    unfold digit in Hx. radix_nia.
Qed.

Lemma digits_replicate n : digits (replicate n 0).
Proof. apply Forall_replicate. unfold digit. radix_lia. Qed.

Lemma digits_snoc l x : digits l -> digit x -> digits (l ++ [x]).
Proof. intros Hl Hx. apply Forall_app. split; [done|]. constructor; [done | constructor]. Qed.

Lemma digits_val_inj l m :
  digits l -> digits m -> length l = length m -> val l = val m -> l = m.
Proof.
  intros Hl. revert m. induction Hl as [|x l Hx _ IH]; intros [|y m] Hm Hlen Hv; try done.
  inversion Hm as [|? ? Hy Hm']; subst. cbn [val] in Hv. unfold digit in *.
  assert (val l = val m) as E by radix_lia.
  assert (x = y) as -> by radix_lia.
  f_equal. apply IH; auto.
Qed.

(** The top component of a vector of at least one component. *)
Lemma top_app l x : top (l ++ [x]) = x.
Proof. unfold top. apply List.last_last. Qed.

Lemma top_cons x y l : top (x :: y :: l) = top (y :: l).
Proof. reflexivity. Qed.

Lemma split_top l : l <> [] -> l = removelast l ++ [top l].
Proof. intros H. unfold top. by apply List.app_removelast_last. Qed.

Lemma length_removelast (l : list Z) : l <> [] -> (length (removelast l) + 1 = length l)%nat.
Proof. intros H. rewrite (split_top l H) at 2. rewrite length_app. simpl. lia. Qed.

Lemma digits_removelast l : digits l -> digits (removelast l).
Proof.
  destruct l as [|x l]; [done|]. intros H. rewrite (split_top (x :: l)) in H by done.
  by apply Forall_app in H as [H _].
Qed.

Lemma digits_top l : digits l -> digit (top l).
Proof.
  destruct l as [|x l]; [unfold digit, top; simpl; radix_lia|].
  intros H. rewrite (split_top (x :: l)) in H by done.
  apply Forall_app in H as [_ H]. by inversion H.
Qed.

(** A vector with a nonzero top component is at least the power of the radix it stands at. *)
Lemma digits_lower l : l <> [] -> digits l -> top l <> 0 ->
  top l * bi_radix ^ (Z.of_nat (length l) - 1) <= val l.
Proof.
  intros Hne Hd Ht. pose proof (digits_top l Hd) as Htd.
  pose proof (digits_bound _ (digits_removelast l Hd)) as Hb.
  pose proof (length_removelast l Hne) as Hlen.
  rewrite (split_top l Hne) at 3. rewrite val_app. cbn [val].
  replace (Z.of_nat (length l) - 1) with (Z.of_nat (length (removelast l))) by lia. nia.
Qed.

(** ** The loops of [normalize] *)

(** Bounds within which [normalize] cannot overflow: components that are all
    nonnegative may reach [comp_max], negative ones may go down to [comp_min]. *)
Definition comp_max : Z := 9223372036854775808 - 5 * 1073741824.
Definition comp_min : Z := - 4611686018427387904.

Definition carriable (l : list Z) : Prop := Forall (fun x => 0 <= x <= comp_max) l.
Definition borrowable (l : list Z) : Prop := Forall (fun x => comp_min <= x < bi_radix) l.

Ltac comp_lia := unfold comp_max, comp_min, digit in *; radix_lia.

Lemma carriable_digits l : digits l -> carriable l.
Proof. intros H. eapply Forall_impl; [exact H|]. intros x Hx. comp_lia. Qed.

Lemma bi_radix_pos : 0 < bi_radix.
Proof. radix_lia. Qed.

Lemma borrow_carriable x t : carriable (x :: t) -> borrow x t = x :: t.
Proof.
  revert x. induction t as [|y t IH]; intros x H; [done|].
  inversion H as [|? ? Hx Ht]; subst. simpl.
  rewrite (proj2 (Z.ltb_ge x 0)) by lia. by rewrite IH.
Qed.

Lemma quot_radix_bounds x : x < 0 ->
  bi_radix * Z.quot x bi_radix + Z.rem x bi_radix = x /\
  - bi_radix < Z.rem x bi_radix <= 0 /\ x <= bi_radix * Z.quot x bi_radix.
Proof.
  intros H. pose proof (Z.quot_rem' x bi_radix) as E.
  pose proof (Z.rem_bound_pos_neg x bi_radix bi_radix_pos ltac:(lia)). lia.
Qed.

Definition borrow_head (x : Z) : Prop := comp_min - 8589934592 <= x < bi_radix.

Lemma borrow_ok x t : borrow_head x -> borrowable t ->
  val (borrow x t) = val (x :: t) /\ length (borrow x t) = S (length t) /\
  digits (removelast (borrow x t)) /\ borrow_head (top (borrow x t)).
Proof.
  unfold borrow_head. revert x. induction t as [|y t IH]; intros x Hx Ht.
  { unfold top. simpl. repeat split; try lia. constructor. }
  inversion Ht as [|? ? Hy Ht']; subst.
  assert (forall x' y', digit x' -> comp_min - 8589934592 <= y' < bi_radix ->
            x' + bi_radix * y' = x + bi_radix * y ->
            val (x' :: borrow y' t) = val (x :: y :: t) /\
            length (x' :: borrow y' t) = S (length (y :: t)) /\
            digits (removelast (x' :: borrow y' t)) /\
            comp_min - 8589934592 <= top (x' :: borrow y' t) < bi_radix) as Hstep.
  { intros x' y' Hx' Hy' E. destruct (IH y' Hy' Ht') as (Hv & Hl & Hd & Htop).
    destruct (borrow y' t) as [|z u] eqn:Eb; [simpl in Hl; lia|].
    rewrite top_cons. repeat split; try lia.
    - cbn [val] in *. lia.
    - simpl length in *. lia.
    - change (removelast (x' :: z :: u)) with (x' :: removelast (z :: u)). by constructor. }
  simpl borrow. destruct (Z.ltb_spec x 0) as [Hneg|Hpos].
  - destruct (quot_radix_bounds x Hneg) as (E & Hr & Hq).
    assert (-4294967296 <= Z.quot x bi_radix <= 0) as Hq' by comp_lia.
    destruct (Z.eqb_spec (Z.rem x bi_radix) 0) as [E0|Hn0]; simpl negb; cbn match.
    + rewrite E0 in *. replace (add64 (add64 y (sub64 (Z.quot x bi_radix) 1)) 1)
        with (y + Z.quot x bi_radix).
      * apply Hstep; unfold digit; comp_lia.
      * nowrap_by comp_lia. lia.
    + nowrap_by comp_lia.
      apply Hstep; unfold digit; comp_lia.
  - apply Hstep; unfold digit; comp_lia.
Qed.

Definition flip_top (x : Z) : Prop := comp_min - 17179869184 <= x <= 0.

Lemma flip_ok x t :
  match t with [] => flip_top x | _ => 0 <= x <= bi_radix end ->
  match t with [] => True | _ => digits (removelast t) /\ flip_top (top t + 1) end ->
  val (flip x t) = - val (x :: t) /\ length (flip x t) = S (length t) /\ carriable (flip x t).
Proof.
  unfold flip_top. revert x. induction t as [|y t IH]; intros x Hx Ht.
  { simpl. rewrite neg64_id by (unfold int64; comp_lia). repeat split; try lia.
    repeat constructor; comp_lia. }
  destruct Ht as [Hd Htop]. simpl flip.
  destruct (IH (add64 y 1)) as (Hv & Hl & Hc).
  - destruct t as [|z t]; [unfold top in Htop; simpl in Htop|].
    + rewrite add64_id by (unfold int64; comp_lia). lia.
    + change (removelast (y :: z :: t)) with (y :: removelast (z :: t)) in Hd.
      inversion Hd as [|? ? Hy Hd']; subst.
      rewrite add64_id by (unfold int64; comp_lia). comp_lia.
  - destruct t as [|z t]; [done|]. rewrite top_cons in Htop.
    change (removelast (y :: z :: t)) with (y :: removelast (z :: t)) in Hd.
    inversion Hd; subst. auto.
  - assert (add64 y 1 = y + 1) as Ey.
    { apply add64_id. unfold int64. destruct t as [|z t].
      - unfold top in Htop. simpl in Htop. comp_lia.
      - change (removelast (y :: z :: t)) with (y :: removelast (z :: t)) in Hd.
        inversion Hd as [|? ? Hy _]; subst. comp_lia. }
    rewrite Ey in *. rewrite sub64_id by (unfold int64; radix_lia).
    cbn [val] in *. repeat split.
    + radix_lia.
    + simpl. lia.
    + constructor; [comp_lia | done].
Qed.

Lemma quot_rem_radix x : 0 <= x ->
  bi_radix * Z.quot x bi_radix + Z.rem x bi_radix = x /\ digit (Z.rem x bi_radix) /\
  0 <= Z.quot x bi_radix /\ (bi_radix <= x -> 1 <= Z.quot x bi_radix).
Proof.
  intros H. pose proof (Z.quot_rem' x bi_radix) as E.
  pose proof (Z.rem_bound_pos x bi_radix H bi_radix_pos).
  unfold digit. radix_lia.
Qed.

Lemma carry_top_ok n x : 0 <= x -> int64 x -> x < bi_radix ^ (Z.of_nat n + 1) ->
  digits (carry_top n x) /\ val (carry_top n x) = x /\ carry_top n x <> [] /\
  ((1 < length (carry_top n x))%nat -> top (carry_top n x) <> 0).
Proof.
  unfold int64. revert x. induction n as [|n IH]; intros x H0 H64 Hx; simpl carry_top.
  - destruct (Z.leb_spec bi_radix x) as [Hge|Hlt]; [radix_lia|].
    cbn [val length]. repeat split; try lia; try done.
    by repeat constructor.
  - destruct (Z.leb_spec bi_radix x) as [Hge|Hlt].
    2:{ cbn [val length]. repeat split; try lia; try done. by repeat constructor. }
    destruct (quot_rem_radix x H0) as (E & Hr & Hq & Hq1).
    assert (add64 0 (Z.quot x bi_radix) = Z.quot x bi_radix) as ->.
    { nowrap_by comp_lia. lia. }
    destruct (IH (Z.quot x bi_radix)) as (Hd & Hv & Hne & Ht); try comp_lia.
    { replace (Z.of_nat (S n) + 1) with (Z.succ (Z.of_nat n + 1)) in Hx by lia.
      rewrite Z.pow_succ_r in Hx by lia. unfold digit in Hr. radix_nia. }
    destruct (carry_top n (Z.quot x bi_radix)) as [|y u] eqn:Ec; [done|].
    rewrite top_cons. repeat split; try done.
    + by constructor.
    + cbn [val] in *. lia.
    + intros _. destruct u as [|z u]; [|apply Ht; simpl; lia].
      unfold top. simpl. cbn [val] in Hv. radix_lia.
Qed.

Lemma carry_ok x t : 0 <= x <= comp_max + 4294967296 -> carriable t ->
  digits (carry x t) /\ val (carry x t) = val (x :: t) /\
  (S (length t) <= length (carry x t))%nat /\
  ((S (length t) < length (carry x t))%nat -> top (carry x t) <> 0).
Proof.
  revert x. induction t as [|y t IH]; intros x Hx Ht.
  - destruct (carry_top_ok 2 x) as (Hd & Hv & Hne & Htop); try (unfold int64; comp_lia).
    change (carry x []) with (carry_top 2 x). cbn [val length]. repeat split; auto; try lia.
    destruct (carry_top 2 x); simpl; [done | lia].
  - inversion Ht as [|? ? Hy Ht']; subst. simpl carry.
    destruct (quot_rem_radix x ltac:(lia)) as (E & Hr & Hq & _).
    assert (forall x' y', digit x' -> 0 <= y' <= comp_max + 4294967296 ->
      x' + bi_radix * y' = x + bi_radix * y ->
      digits (x' :: carry y' t) /\ val (x' :: carry y' t) = val (x :: y :: t) /\
      (S (length (y :: t)) <= length (x' :: carry y' t))%nat /\
      ((S (length (y :: t)) < length (x' :: carry y' t))%nat -> top (x' :: carry y' t) <> 0)) as Hstep.
    { intros x' y' Hx' Hy' E'. destruct (IH y' Hy' Ht') as (Hd & Hv & Hl & Htop).
      cbn [val] in *. repeat split.
      - by constructor.
      - lia.
      - simpl in *. lia.
      - destruct (carry y' t) as [|z u]; [simpl in Hl; lia|].
        rewrite top_cons. intros Hlt. apply Htop. simpl in *. lia. }
    destruct (Z.leb_spec bi_radix x) as [Hge|Hlt].
    + rewrite add64_id by (unfold int64; comp_lia). apply Hstep; comp_lia.
    + apply Hstep; unfold digit; comp_lia.
Qed.

(** ** Trimming *)

Lemma trim_zeros_ok l : exists k, l = trim_zeros l ++ replicate k 0 /\
  (trim_zeros l <> [] -> top (trim_zeros l) <> 0).
Proof.
  induction l as [|x l (k & E & Ht)]; [by exists 0%nat|].
  simpl trim_zeros. destruct (trim_zeros l) as [|y u] eqn:Et.
  - simpl in E. subst l. destruct (Z.eqb_spec x 0) as [->|Hx].
    + exists (S k). split; done.
    + exists k. split; [done|]. intros _. by unfold top.
  - exists k. rewrite E at 1. split; [done|]. intros _. rewrite top_cons. by apply Ht.
Qed.

Lemma trim_ok l : l <> [] -> exists k, l = trim l ++ replicate k 0 /\ trim l <> [] /\
  ((1 < length (trim l))%nat -> top (trim l) <> 0).
Proof.
  destruct l as [|x l]; [done|]. intros _. destruct (trim_zeros_ok l) as (k & E & Ht).
  exists k. simpl trim. split; [by rewrite E at 1|]. split; [done|].
  simpl length. destruct (trim_zeros l) as [|y u]; simpl; [lia|]. intros _. by apply Ht.
Qed.

(** ** The loops that add one vector to another *)

Section zip_comps.
Context (op : Z -> Z -> Z) (P Q R : Z -> Prop) (k : Z).

Lemma length_zip_comps l m : length (zip_comps op l m) = length l.
Proof. revert m. induction l as [|x l IH]; intros [|y m]; simpl; auto. Qed.

Lemma zip_comps_val l m :
  (forall x y, P x -> Q y -> op x y = x + k * y) ->
  Forall P l -> Forall Q m -> (length m <= length l)%nat ->
  val (zip_comps op l m) = val l + k * val m.
Proof.
  intros Hop Hl. revert m. induction Hl as [|x l Hx Hl IH]; intros m Hm Hlen.
  - destruct m; simpl in *; lia.
  - destruct Hm as [|y m Hy Hm]; cbn [zip_comps val]; [lia|].
    rewrite IH, Hop by (simpl in *; auto with lia). ring.
Qed.

Lemma zip_comps_Forall l m :
  (forall x y, P x -> Q y -> R (op x y)) -> (forall x, P x -> R x) ->
  Forall P l -> Forall Q m -> Forall R (zip_comps op l m).
Proof.
  intros Hop HP Hl. revert m. induction Hl as [|x l Hx Hl IH]; intros m Hm; [constructor|].
  destruct Hm as [|y m Hy Hm]; cbn [zip_comps]; constructor; auto.
  eapply Forall_impl; eauto.
Qed.

Lemma zip_comps_at_val off l m :
  (forall x y, P x -> Q y -> op x y = x + k * y) ->
  Forall P l -> Forall Q m -> (off + length m <= length l)%nat ->
  val (zip_comps_at op off l m) = val l + bi_radix ^ Z.of_nat off * (k * val m).
Proof.
  intros Hop Hl Hm Hlen. unfold zip_comps_at. rewrite val_app.
  rewrite zip_comps_val by (auto using Forall_drop; rewrite length_drop; lia).
  assert (val l = val (take off l) + bi_radix ^ Z.of_nat off * val (drop off l)) as ->.
  { rewrite <- (take_drop off l) at 1. rewrite val_app, length_take, Nat.min_l by lia. done. }
  rewrite length_take, Nat.min_l by lia. ring.
Qed.

Lemma zip_comps_at_Forall off l m :
  (forall x y, P x -> Q y -> R (op x y)) -> (forall x, P x -> R x) ->
  Forall P l -> Forall Q m -> Forall R (zip_comps_at op off l m).
Proof.
  intros Hop HP Hl Hm. unfold zip_comps_at. apply Forall_app. split.
  - apply Forall_take. eapply Forall_impl; eauto.
  - apply zip_comps_Forall; auto using Forall_drop.
Qed.

Lemma length_zip_comps_at off l m : length (zip_comps_at op off l m) = length l.
Proof.
  unfold zip_comps_at. rewrite length_app, length_zip_comps, <- length_app.
  by rewrite take_drop.
Qed.
End zip_comps.

Lemma mul_digit_bounds x y : digit x -> digit y -> 0 <= x * y <= (bi_radix - 1) * (bi_radix - 1).
Proof. unfold digit. radix_nia. Qed.

Lemma mul_row_ok x r b : digit x -> digits r -> digits b -> (length b <= length r)%nat ->
  val (mul_row x r b) = val r + x * val b /\ carriable (mul_row x r b) /\
  length (mul_row x r b) = length r.
Proof.
  intros Hx Hr Hb Hlen.
  assert (forall z y, digit z -> digit y ->
    add64 z (mul64 x y) = z + x * y /\ 0 <= z + x * y <= comp_max) as Hop.
  { intros z y Hz Hy. pose proof (mul_digit_bounds x y Hx Hy) as Hm.
    rewrite mul64_id by (unfold int64; comp_lia).
    rewrite add64_id by (unfold int64; comp_lia). comp_lia. }
  unfold mul_row. repeat split.
  - apply zip_comps_val with (P := digit) (Q := digit); auto. intros z y Hz Hy. by apply Hop.
  - apply zip_comps_Forall with (P := digit) (Q := digit); auto.
    + intros z y Hz Hy. destruct (Hop z y Hz Hy) as [-> ?]. done.
    + intros z Hz. comp_lia.
  - apply length_zip_comps.
Qed.

Lemma square_row_ok x r b : digit x -> digits r -> digits b -> (length b < length r)%nat ->
  val (square_row x r b) =
    val r + 2 * x * val b + bi_radix ^ Z.of_nat (length b) * (x * x) /\
  carriable (square_row x r b) /\ length (square_row x r b) = length r.
Proof.
  intros Hx Hr. revert b. induction Hr as [|z r Hz Hr IH]; intros b Hb Hlen; [simpl in Hlen; lia|].
  destruct Hb as [|y b Hy Hb].
  - pose proof (mul_digit_bounds x x Hx Hx) as Hm. cbn [square_row val length].
    rewrite mul64_id by (unfold int64; comp_lia).
    rewrite add64_id by (unfold int64; comp_lia).
    change (Z.of_nat 0) with 0. rewrite Z.pow_0_r. split; [ring|]. split; [|done].
    constructor; [comp_lia | by apply carriable_digits].
  - pose proof (mul_digit_bounds x y Hx Hy) as Hm.
    destruct (IH b Hb ltac:(simpl in *; lia)) as (Hv & Hc & Hl).
    cbn [square_row val length]. rewrite Hv, Nat2Z.inj_succ, Z.pow_succ_r by lia.
    assert (mul64 (mul64 2 x) y = 2 * (x * y)) as ->.
    { rewrite (mul64_id 2 x) by (unfold int64; comp_lia).
      rewrite mul64_id by (unfold int64; replace (2 * x * y) with (2 * (x * y)) by ring; comp_lia).
      ring. }
    rewrite add64_id by (unfold int64; comp_lia). split; [ring|]. split; [|lia].
    constructor; [comp_lia | done].
Qed.

(** ** Division by an [int] *)

Lemma div_loop_ok d l : 0 < d <= bi_radix -> digits l ->
  let '(q, r) := div_loop d l in
  digits q /\ length q = length l /\ val l = d * val q + r /\ 0 <= r < d.
Proof.
  intros Hd. induction 1 as [|x l Hx Hl IH]; cbn [div_loop].
  { repeat split; simpl; try lia. constructor. }
  destruct (div_loop d l) as [q r]. destruct IH as (Hq & Hlen & Hv & Hr).
  assert (0 <= r * bi_radix + x < d * bi_radix) as Hb by (unfold digit in Hx; radix_nia).
  assert (add64 (mul64 r bi_radix) x = r * bi_radix + x) as ->.
  { rewrite mul64_id by (unfold int64; comp_lia). rewrite add64_id by (unfold int64; comp_lia). done. }
  rewrite Z.quot_div_nonneg, Z.rem_mod_nonneg by lia.
  pose proof (Z.div_mod (r * bi_radix + x) d ltac:(lia)) as E.
  pose proof (Z.mod_pos_bound (r * bi_radix + x) d ltac:(lia)) as Hm.
  repeat split; cbn [val length]; try lia.
  - constructor; [|done]. split; [apply Z.div_pos; lia | apply Z.div_lt_upper_bound; lia].
Qed.

Lemma rem_loop_ok m l : 0 < Z.abs m <= bi_radix -> digits l ->
  forall rad_r r, 0 <= rad_r <= bi_radix -> 0 <= r < Z.abs m ->
  rem_loop m rad_r r l = (r + rad_r * val l) mod Z.abs m.
Proof.
  intros Hm Hl.
  assert (forall a, 0 <= a -> Z.rem a m = a mod Z.abs m) as Hrem.
  { intros a Ha. rewrite <- Z.rem_abs_r by lia. apply Z.rem_mod_nonneg; lia. }
  induction Hl as [|x l Hx Hl IH]; intros rad_r r Hrad Hr; cbn [rem_loop val].
  { rewrite Z.mul_0_r, Z.add_0_r. symmetry. by apply Z.mod_small. }
  assert (mul64 rad_r bi_radix = rad_r * bi_radix) as -> by (apply mul64_id; unfold int64; radix_nia).
  assert (0 <= x * rad_r <= 4611686018427387904) as Hxr by (unfold digit in Hx; radix_nia).
  assert (add64 r (mul64 x rad_r) = r + x * rad_r) as ->.
  { rewrite mul64_id by (unfold int64; lia). apply add64_id. unfold int64. radix_lia. }
  rewrite !Hrem by radix_nia.
  pose proof (Z.mod_pos_bound (rad_r * bi_radix) (Z.abs m) ltac:(lia)).
  pose proof (Z.mod_pos_bound (r + x * rad_r) (Z.abs m) ltac:(lia)).
  rewrite IH by lia.
  rewrite Z.add_mod_idemp_l by lia.
  rewrite (Z.add_mod (r + x * rad_r) (_ * val l)) by lia.
  rewrite Z.mul_mod_idemp_l by lia. rewrite <- Z.add_mod by lia. f_equal. ring.
Qed.

Lemma to_int_loop_ok l : digits l -> (length l <= 2)%nat -> to_int_loop 0 1 l = val l.
Proof.
  intros H Hlen. destruct H as [|x l Hx H]; [done|].
  destruct H as [|y l Hy H]; [|destruct l; [|simpl in Hlen; lia]]; simpl to_int_loop; cbn [val].
  - nowrap_by comp_lia. ring.
  - unfold digit in *. rewrite (mul64_id x 1) by (unfold int64; radix_lia).
    rewrite (mul64_id 1 bi_radix) by (unfold int64; radix_lia).
    rewrite (add64_id 0) by (unfold int64; radix_lia).
    rewrite (mul64_id y) by (unfold int64; radix_lia).
    rewrite add64_id by (unfold int64; radix_lia). ring.
Qed.

(** ** Halving and doubling *)

Lemma land_1 y : Z.land y 1 = y mod 2.
Proof. change 1 with (Z.ones 1) at 1. by rewrite Z.land_ones. Qed.

Lemma half_loop_ok l : digits l ->
  val (half_loop l) = val l / 2 /\ digits (half_loop l) /\ length (half_loop l) = length l /\
  top (half_loop l) = top l / 2.
Proof.
  induction 1 as [|x l Hx Hl IH]; [by repeat split; try constructor|].
  destruct IH as (Hv & Hd & Hlen & Ht).
  assert (Z.shiftr x 1 = x / 2) as Es by (rewrite Z.shiftr_div_pow2 by lia; done).
  assert (val l / 2 * 2 + val l mod 2 = val l) as Edm by (rewrite (Z.div_mod (val l) 2) at 3; lia).
  destruct l as [|y l].
  - cbn [half_loop val length]. rewrite Es. unfold top. simpl List.last.
    rewrite Z.mul_0_r, !Z.add_0_r. repeat split; try done.
    constructor; [unfold digit in *; Z.div_mod_to_equations; radix_lia | constructor].
  - inversion Hl as [|? ? Hy Hl']; subst.
    set (u := y :: l) in *. change (half_loop (x :: u)) with
      ((if negb (Z.land y 1 =? 0) then add64 (Z.shiftr x 1) bi_radix_o2 else Z.shiftr x 1) :: half_loop u).
    assert (val u mod 2 = y mod 2) as Em.
    { unfold u. cbn [val]. rewrite Z.add_mod by lia.
      replace (bi_radix * val l) with (2 * (1073741824 * val l)) by radix_lia.
      rewrite (Z.mul_comm 2), Z.mod_mul, Z.add_0_r by lia. apply Z.mod_mod. lia. }
    assert ((if negb (Z.land y 1 =? 0) then add64 (Z.shiftr x 1) bi_radix_o2 else Z.shiftr x 1)
            = x / 2 + bi_radix_o2 * (val u mod 2)) as ->.
    { rewrite Em, Es, land_1. pose proof (Z.mod_pos_bound y 2 ltac:(lia)).
      destruct (Z.eqb_spec (y mod 2) 0); cbn [negb];
        [|rewrite add64_id by (unfold int64, digit in *; Z.div_mod_to_equations; radix_lia)]; radix_lia. }
    pose proof (Z.mod_pos_bound (val u) 2 ltac:(lia)) as Hm.
    cbn [val length]. rewrite Hv. repeat split.
    + apply Z.div_unique with (r := x mod 2); [left; apply Z.mod_pos_bound; lia|].
      rewrite (Z.div_mod x 2) at 1 by lia. radix_lia.
    + constructor; [|done]. unfold digit in *. Z.div_mod_to_equations; radix_lia.
    + by rewrite Hlen.
    + destruct (half_loop u) as [|z w] eqn:Eh; [done|]. rewrite top_cons, Ht. done.
Qed.

Lemma double_loop_ok l : digits l ->
  digits (double_loop l) /\ val (double_loop l) = 2 * val l /\
  (length l <= length (double_loop l))%nat /\
  (top l <> 0 -> top (double_loop l) <> 0) /\ Z.even (hd 0 (double_loop l)) = true.
Proof.
  induction 1 as [|x l Hx Hl IH]; [by repeat split; try constructor|].
  destruct IH as (Hd & Hv & Hlen & Ht & He).
  cbn [double_loop].
  assert (wrap64 (Z.shiftl x 1) = 2 * x) as ->.
  { rewrite Z.shiftl_mul_pow2 by lia. rewrite wrap64_id; [|unfold int64; comp_lia]. lia. }
  destruct (Z.leb_spec bi_radix (2 * x)) as [Hge|Hlt].
  - rewrite sub64_id by (unfold int64; comp_lia).
    assert (digit (2 * x - bi_radix)) as Hx' by comp_lia.
    destruct (double_loop l) as [|y u] eqn:Ed.
    + cbn [val length] in *. change (add64 0 1) with 1. repeat split.
      * constructor; [done|]. constructor; [comp_lia | constructor].
      * lia.
      * lia.
      * intros _. unfold top. simpl. lia.
      * simpl hd. rewrite Z.even_sub. replace (2 * x) with (0 + 2 * x) by lia.
        rewrite Z.even_add_mul_2. reflexivity.
    + inversion Hd as [|? ? Hy Hu]; subst. simpl hd in He.
      assert (y + 1 < bi_radix) as Hy1.
      { apply Z.even_spec in He as (k & ->). unfold digit in Hy. radix_lia. }
      rewrite add64_id by (unfold int64; comp_lia). cbn [val length] in *. repeat split.
      * constructor; [done|]. constructor; [comp_lia | done].
      * lia.
      * lia.
      * destruct l as [|z l]; [simpl in *; discriminate|]. rewrite top_cons. intros H.
        rewrite top_cons. destruct u as [|w u]; [unfold top; simpl; unfold digit in Hy; lia|].
        rewrite !top_cons in *. by apply Ht.
      * simpl hd. rewrite Z.even_sub. replace (2 * x) with (0 + 2 * x) by lia.
        rewrite Z.even_add_mul_2. reflexivity.
  - cbn [val length] in *. repeat split.
    + constructor; [comp_lia | done].
    + lia.
    + lia.
    + destruct l as [|z l]; [unfold top; simpl; lia|]. rewrite top_cons. intros H.
      destruct (double_loop (z :: l)) as [|y u] eqn:Ed; [simpl in Hlen; lia|].
      rewrite top_cons. by apply Ht.
    + simpl hd. replace (2 * x) with (0 + 2 * x) by lia. by rewrite Z.even_add_mul_2.
Qed.

(** ** Comparison *)

Lemma compare_loop_ok s l m : digits l -> digits m -> length l = length m ->
  compare_loop s l m = s * Z.sgn (val l - val m).
Proof.
  intros Hl. revert m. induction Hl as [|x l Hx Hl IH]; intros m Hm Hlen.
  { destruct m; [simpl; lia | done]. }
  destruct Hm as [|y m Hy Hm]; [done|]. cbn [compare_loop val].
  rewrite IH by (simpl in *; auto with lia). unfold digit in *.
  destruct (Z.lt_trichotomy (val l) (val m)) as [H|[H|H]].
  - rewrite (Z.sgn_neg (val l - val m)), (Z.sgn_neg (x + _ - _)) by radix_lia.
    destruct (Z.eqb_spec (s * -1) 0); simpl; [|done].
    replace s with 0 by lia. destruct (y <? x), (x <? y); lia.
  - rewrite H, Z.sub_diag, Z.mul_0_r. simpl.
    replace (x + bi_radix * val m - (y + bi_radix * val m)) with (x - y) by lia.
    destruct (Z.ltb_spec y x); [rewrite Z.sgn_pos; lia|].
    destruct (Z.ltb_spec x y); [rewrite Z.sgn_neg; lia|]. replace (x - y) with 0 by lia. simpl. lia.
  - rewrite (Z.sgn_pos (val l - val m)), (Z.sgn_pos (x + _ - _)) by radix_lia.
    destruct (Z.eqb_spec (s * 1) 0); simpl; [|done].
    replace s with 0 by lia. destruct (y <? x), (x <? y); lia.
Qed.

(** ** Bits *)

Lemma cbits_loop_ok n b c : 0 <= c < 2 ^ Z.of_nat n ->
  cbits_loop n b c = b + (if c =? 0 then 0 else Z.log2 c + 1).
Proof.
  revert b c. induction n as [|n IH]; intros b c Hc; simpl cbits_loop.
  { change (2 ^ Z.of_nat 0) with 1 in Hc. replace c with 0 by lia. simpl. lia. }
  destruct (Z.eqb_spec c 0) as [|Hnz]; [lia|].
  rewrite Z.shiftr_div_pow2 by lia. change (2 ^ 1) with 2.
  rewrite Nat2Z.inj_succ, Z.pow_succ_r in Hc by lia.
  assert (0 <= c / 2) by (apply Z.div_pos; lia).
  assert (c / 2 < 2 ^ Z.of_nat n) by (apply Z.div_lt_upper_bound; lia).
  rewrite IH by lia. destruct (Z.eqb_spec (c / 2) 0) as [E|E].
  - assert (c = 1) as -> by (pose proof (Z.div_mod c 2 ltac:(lia)) as Edm;
      pose proof (Z.mod_pos_bound c 2 ltac:(lia)); lia).
    change (Z.log2 1) with 0. lia.
  - replace (c / 2) with (Z.shiftr c 1) by (by rewrite Z.shiftr_div_pow2).
    rewrite Z.log2_shiftr by lia.
    assert (1 <= Z.log2 c); [|lia]. change 1 with (Z.log2 2) at 1. apply Z.log2_le_mono.
    destruct (Z.eq_dec c 1) as [->|]; [done|]. lia.
Qed.

Lemma cbits_ok c : 0 <= c < 18446744073709551616 ->
  cbits c = if c =? 0 then 0 else Z.log2 c + 1.
Proof. intros H. unfold cbits. rewrite cbits_loop_ok; [lia | exact H]. Qed.

Lemma cbit_ok c n : 0 <= n < 31 -> cbit c n = Z.testbit c n.
Proof.
  intros Hn. unfold cbit. rewrite Z.shiftl_1_l.
  assert (0 < 2 ^ n <= 2 ^ 30) as Hp.
  { split; [apply Z.pow_pos_nonneg; lia | apply Z.pow_le_mono_r; lia]. }
  rewrite wrap32_id by (unfold int32; change (2 ^ 30) with 1073741824 in Hp; lia).
  destruct (Z.testbit c n) eqn:E.
  - destruct (Z.eqb_spec (Z.land c (2 ^ n)) 0) as [E0|]; [|done].
    apply (f_equal (fun z => Z.testbit z n)) in E0.
    rewrite Z.land_spec, E, Z.pow2_bits_true, Z.bits_0 in E0 by lia. done.
  - replace (Z.land c (2 ^ n)) with 0; [done|]. symmetry. apply Z.bits_inj'. intros i Hi.
    rewrite Z.land_spec, Z.pow2_bits_eqb, Z.bits_0 by lia.
    destruct (Z.eqb_spec n i) as [->|]; [by rewrite E | apply andb_false_r].
Qed.

(** The bit [bitnum] of the value is the bit of the component it falls in. *)
Lemma val_testbit l i n : digits l -> 0 <= n < bi_comp_bits ->
  Z.testbit (val l) (Z.of_nat i * bi_comp_bits + n) = Z.testbit (nth i l 0) n.
Proof.
  intros Hl. revert i. induction Hl as [|x l Hx Hl IH]; intros i Hn.
  { cbn [val]. destruct i; simpl; by rewrite !Z.bits_0. }
  assert (forall k, 0 <= k < bi_comp_bits -> Z.testbit (val (x :: l)) k = Z.testbit x k) as Hlow.
  { intros k Hk. rewrite <- (Z.mod_pow2_bits_low (val (x :: l)) bi_comp_bits k) by lia. f_equal.
    cbn [val]. change (2 ^ bi_comp_bits) with bi_radix.
    rewrite Z.mul_comm, Z.mod_add by radix_lia. by apply Z.mod_small. }
  destruct i as [|i]; [simpl nth; by rewrite <- Hlow; [f_equal; lia|]|].
  simpl nth. rewrite <- IH by done.
  replace (Z.of_nat (S i) * bi_comp_bits + n) with ((Z.of_nat i * bi_comp_bits + n) + bi_comp_bits) by lia.
  rewrite <- Z.div_pow2_bits by (unfold bi_comp_bits in *; lia). f_equal.
  cbn [val]. change (2 ^ bi_comp_bits) with bi_radix.
  rewrite Z.mul_comm, Z.div_add by radix_lia. rewrite Z.div_small by done. lia.
Qed.
