(* ===== verification/BigCell.v ===== *)
(** * One bigint (src/math/bigint/bigint_int.c)

    [struct _real_bigint] and the routines that work on one such object without
    touching the lists of the allocator: [more_comps], [normalize] and the
    bodies of the arithmetic loops.  [normal_form] is the representation
    invariant, [cell_val] the integer represented; the representation of an
    integer in normal form is unique ([normal_form_unique]). *)

From Stdlib Require Import ZArith Lia.
From stdpp Require Import base numbers list.
From S2P Require Import Prelude BigComps.

Open Scope Z_scope.

(** [struct _real_bigint].  The array [bi->comps] of [max_comps] components is
    [comps ++ slack], [num_comps] being the length of [comps]; the [next] field
    is the successor in [active_list] or [free_list] (file BigHeap). *)
Record real_bigint : Type := Bigint {
  refs : Z;
  sign : Z;
  comps : list Z;
  slack : list Z
}.

Definition num_comps (bi : real_bigint) : nat := length (comps bi).
Definition max_comps (bi : real_bigint) : nat := (length (comps bi) + length (slack bi))%nat.
Definition array (bi : real_bigint) : list Z := comps bi ++ slack bi.

Definition set_refs (r : Z) (bi : real_bigint) : real_bigint :=
  {| refs := r; sign := sign bi; comps := comps bi; slack := slack bi |}.
Definition set_sign (s : Z) (bi : real_bigint) : real_bigint :=
  {| refs := refs bi; sign := s; comps := comps bi; slack := slack bi |}.
Definition set_comps (l : list Z) (bi : real_bigint) : real_bigint :=
  {| refs := refs bi; sign := sign bi; comps := l; slack := slack bi |}.
(** Assign the whole array and [num_comps]. *)
Definition set_array (num : nat) (a : list Z) (bi : real_bigint) : real_bigint :=
  {| refs := refs bi; sign := sign bi; comps := take num a; slack := drop num a |}.

(** [more_comps]: realloc when [n > max_comps] (to at least twice the size), then
    zero the components from [num_comps] to [n].  [g] is the content of fresh
    memory, about which nothing is assumed. *)
Definition more_comps (g : Z) (n : nat) (bi : real_bigint) : real_bigint :=
  let slack' :=
    if (max_comps bi <? n)%nat
    then slack bi ++ replicate (Nat.max (max_comps bi * 2) n - max_comps bi) g
    else slack bi in
  {| refs := refs bi; sign := sign bi;
     comps := comps bi ++ replicate (n - num_comps bi) 0;
     slack := drop (n - num_comps bi) slack' |}.

(** [normalize]. *)
Definition normalize (g : Z) (bi : real_bigint) : real_bigint :=
  match comps bi with
  | [] => bi
  | x :: t =>
      let l1 := borrow x t in
      let neg := top l1 <? 0 in
      let s1 := if neg then - sign bi else sign bi in
      let l2 := if neg then match l1 with [] => [] | y :: u => flip y u end else l1 in
      let l3 := match l2 with [] => [] | y :: u => carry y u end in
      let grown := Nat.iter (length l3 - length l2)
                     (fun b => more_comps g (S (num_comps b)) b) (set_comps l2 bi) in
      let l4 := trim l3 in
      {| refs := refs bi;
         sign := if (length l4 =? 1)%nat && (top l4 =? 0) && (s1 =? -1) then 1 else s1;
         comps := l4;
         slack := replicate (length l3 - length l4) 0 ++ slack grown |}
  end.

(** [bi_compare] on two distinct objects. *)
Definition compare_bigints (bia bib : real_bigint) : Z :=
  if sign bib <? sign bia then 1
  else if sign bia <? sign bib then -1
  else if (num_comps bib <? num_comps bia)%nat then sign bia
  else if (num_comps bia <? num_comps bib)%nat then - sign bia
  else compare_loop (sign bia) (comps bia) (comps bib).

(** One turn of the outer loop of [regular_multiply]: the inner loop at [c1], then
    [biR->num_comps = new_comps; normalize( biR );]. *)
Definition multiply_step (g : Z) (new_comps c1 : nat) (x : Z) (b : list Z) (biR : real_bigint)
  : real_bigint :=
  normalize g
    (set_array new_comps (take c1 (array biR) ++ mul_row x (drop c1 (array biR)) b) biR).

Fixpoint multiply_loop (g : Z) (new_comps c1 : nat) (a b : list Z) (biR : real_bigint)
  : real_bigint :=
  match a with
  | [] => biR
  | x :: a => multiply_loop g new_comps (S c1) a b (multiply_step g new_comps c1 x b biR)
  end.

(** One turn of the outer loop of [regular_square]; [b] is [comps[0 .. c1-1]]. *)
Definition square_step (g : Z) (new_comps c1 : nat) (x : Z) (b : list Z) (biR : real_bigint)
  : real_bigint :=
  normalize g
    (set_array new_comps (take c1 (array biR) ++ square_row x (drop c1 (array biR)) b) biR).

Fixpoint square_loop (g : Z) (new_comps : nat) (done todo : list Z) (biR : real_bigint)
  : real_bigint :=
  match todo with
  | [] => biR
  | x :: todo =>
      square_loop g new_comps (done ++ [x]) todo
        (square_step g new_comps (length done) x done biR)
  end.

(** The components [off .. off+n-1] of [l], zero past its end (the splitting loops
    of [karatsuba_multiply] and [karatsuba_square]). *)
Definition split_comps (off n : nat) (l : list Z) : list Z :=
  let part := take n (drop off l) in part ++ replicate (n - length part) 0.

(** [bi_half], after the loop: "Avoid normalization". *)
Definition drop_top_zero (bi : real_bigint) : real_bigint :=
  if (1 <? num_comps bi)%nat && (top (comps bi) =? 0)
  then set_array (num_comps bi - 1) (array bi) bi
  else bi.

(** [bi_bit] and [bi_bits]. *)
Definition bit_of (bi : real_bigint) (bitnum : Z) : bool :=
  let ci := Z.quot bitnum bi_comp_bits in
  if Z.of_nat (num_comps bi) <=? ci then false
  else cbit (nth (Z.to_nat ci) (comps bi) 0) (bitnum - ci * bi_comp_bits).
Definition bits_of (bi : real_bigint) : Z :=
  bi_comp_bits * (Z.of_nat (num_comps bi) - 1) + cbits (top (comps bi)).

(** ** The representation invariant *)

Definition is_sign (s : Z) : Prop := s = 1 \/ s = -1.

Record normal_form (bi : real_bigint) : Prop := NormalForm {
  nf_sign : is_sign (sign bi);
  nf_nonempty : comps bi <> [];
  nf_digits : digits (comps bi);
  nf_top : (1 < num_comps bi)%nat -> top (comps bi) <> 0;
  nf_zero : val (comps bi) = 0 -> sign bi = 1
}.

Definition cell_val (bi : real_bigint) : Z := sign bi * val (comps bi).

Lemma nf_val_pos bi : normal_form bi -> (1 < num_comps bi)%nat ->
  bi_radix ^ (Z.of_nat (num_comps bi) - 1) <= val (comps bi).
Proof.
  intros [Hs Hne Hd Ht _] Hlen. pose proof (digits_lower _ Hne Hd (Ht Hlen)) as H.
  pose proof (digits_top _ Hd) as Htd. specialize (Ht Hlen). unfold digit in Htd.
  pose proof (Z.pow_pos_nonneg bi_radix (Z.of_nat (num_comps bi) - 1) bi_radix_pos ltac:(lia)).
  unfold num_comps in *. nia.
Qed.

Lemma nf_length_le a b : normal_form a -> normal_form b ->
  val (comps a) <= val (comps b) -> (num_comps a <= num_comps b)%nat.
Proof.
  intros Ha Hb Hv. destruct (Nat.le_gt_cases (num_comps a) (num_comps b)) as [|Hlt]; [done|].
  exfalso. pose proof (nf_nonempty _ Hb) as Hne.
  assert (0 < num_comps b)%nat by (unfold num_comps; destruct (comps b); simpl; [done|lia]).
  pose proof (nf_val_pos a Ha ltac:(lia)) as H1.
  pose proof (digits_bound _ (nf_digits _ Hb)) as H2. fold (num_comps b) in H2.
  pose proof (Z.pow_le_mono_r bi_radix (Z.of_nat (num_comps b)) (Z.of_nat (num_comps a) - 1)
                bi_radix_pos ltac:(lia)). lia.
Qed.

Lemma nf_abs bi : normal_form bi -> Z.abs (cell_val bi) = val (comps bi).
Proof.
  intros [[E|E] _ Hd _ _]; unfold cell_val; rewrite E; pose proof (digits_nonneg _ Hd); lia.
Qed.

Lemma nf_neg bi : normal_form bi -> (cell_val bi < 0 <-> sign bi = -1).
Proof.
  intros [Hs _ Hd _ Hz]. unfold cell_val. pose proof (digits_nonneg _ Hd).
  destruct Hs as [E|E]; rewrite E in *; [lia|]. split; [done|]. intros _.
  destruct (Z.eq_dec (val (comps bi)) 0) as [E0|]; [specialize (Hz E0)|]; lia.
Qed.

(** The representation of an integer in normal form is unique. *)
Lemma normal_form_unique a b : normal_form a -> normal_form b -> cell_val a = cell_val b ->
  sign a = sign b /\ comps a = comps b.
Proof.
  intros Ha Hb E.
  assert (val (comps a) = val (comps b)) as Ev by (rewrite <- !nf_abs by done; congruence).
  split.
  - pose proof (nf_neg _ Ha) as H1. pose proof (nf_neg _ Hb) as H2. rewrite E in H1.
    destruct (nf_sign _ Ha), (nf_sign _ Hb); lia.
  - apply digits_val_inj; try apply nf_digits; auto.
    apply Nat.le_antisymm; [apply (nf_length_le a b) | apply (nf_length_le b a)]; auto; lia.
Qed.

(** ** [normalize] *)

Lemma normalize_refs g bi : refs (normalize g bi) = refs bi.
Proof. unfold normalize. by destruct (comps bi). Qed.

(** What the loops of [normalize] leave after trimming is a normal form. *)
Lemma trim_normal_form s l r sl :
  is_sign s -> l <> [] -> digits l ->
  let l4 := trim l in
  let bi := {| refs := r; comps := l4; slack := sl;
               sign := if (length l4 =? 1)%nat && (top l4 =? 0) && (s =? -1) then 1 else s |} in
  normal_form bi /\ cell_val bi = s * val l.
Proof.
  intros Hs Hne Hd. cbn zeta.
  destruct (trim_ok l Hne) as (k & E & Hne' & Htop).
  assert (val (trim l) = val l) as Hv by (rewrite E at 2; by rewrite val_pad).
  assert (digits (trim l)) as Hd' by (rewrite E in Hd; by apply Forall_app in Hd as [Hd _]).
  assert (val (trim l) = 0 <-> (length (trim l) =? 1)%nat && (top (trim l) =? 0) = true) as Hz.
  { rewrite andb_true_iff, Nat.eqb_eq, Z.eqb_eq. split.
    - intros H0. destruct (Nat.le_gt_cases (length (trim l)) 1) as [Hle|Hgt].
      + destruct (trim l) as [|x [|y u]]; [done | | simpl in Hle; lia].
        unfold top. cbn [val] in H0. simpl. lia.
      + specialize (Htop Hgt). pose proof (digits_lower _ Hne' Hd' Htop) as Hlow.
        pose proof (digits_top _ Hd') as Htd. unfold digit in Htd.
        pose proof (Z.pow_pos_nonneg bi_radix (Z.of_nat (length (trim l)) - 1)
                      bi_radix_pos ltac:(lia)). nia.
    - destruct (trim l) as [|x [|y u]]; unfold top; simpl; lia. }
  unfold cell_val. cbn [sign comps].
  destruct ((length (trim l) =? 1)%nat && (top (trim l) =? 0)) eqn:Eb.
  - rewrite (proj2 Hz eq_refl) in *. simpl andb. destruct Hs as [-> | ->]; simpl.
    + split; [|lia]. split; simpl; auto; by left.
    + split; [|lia]. split; simpl; auto; by left.
  - simpl andb. split; [|by rewrite Hv]. split; simpl; auto.
    intros H0. apply Hz in H0. congruence.
Qed.

(** The vector the carry loop yields, and what [normalize] makes of it. *)
Lemma normalize_carry g bi l2 s1 x t y u :
  comps bi = x :: t ->
  l2 = y :: u -> carriable l2 -> is_sign s1 ->
  (if top (borrow x t) <? 0 then - sign bi else sign bi) = s1 ->
  (if top (borrow x t) <? 0 then match borrow x t with [] => [] | y :: u => flip y u end
   else borrow x t) = l2 ->
  normal_form (normalize g bi) /\ cell_val (normalize g bi) = s1 * val l2 /\
  (val l2 < bi_radix ^ Z.of_nat (length l2) ->
   exists ds, length ds = length l2 /\ digits ds /\ val ds = val l2 /\
     array (normalize g bi) = ds ++ slack bi).
Proof.
  intros Ec El2 Hc Hs Es1 El.
  unfold normalize. rewrite Ec. cbn zeta. rewrite Es1, El. clear Es1 El.
  subst l2. inversion Hc as [|? ? Hy Hu]; subst.
  destruct (carry_ok y u) as (Hd & Hv & Hl & Ht); [comp_lia | done |].
  assert (carry y u <> []) as Hne by (destruct (carry y u); [simpl in Hl; lia | done]).
  destruct (trim_normal_form s1 (carry y u) (refs bi)
    (replicate (length (carry y u) - length (trim (carry y u))) 0 ++
      slack (Nat.iter (length (carry y u) - length (y :: u))
               (fun b => more_comps g (S (num_comps b)) b) (set_comps (y :: u) bi))) Hs Hne Hd)
    as [Hnf Hval].
  split; [done|]. split; [by rewrite Hval, Hv|]. intros Hbound.
  exists (carry y u).
  assert (length (carry y u) = length (y :: u)) as Hlen.
  { destruct (Nat.eq_dec (length (carry y u)) (length (y :: u))) as [|Hneq]; [done|].
    exfalso. assert (S (length u) < length (carry y u))%nat as Hlt by (simpl in *; lia).
    pose proof (digits_lower _ Hne Hd (Ht Hlt)) as Hlow.
    pose proof (digits_top _ Hd) as Htd. unfold digit in Htd. specialize (Ht Hlt).
    pose proof (Z.pow_le_mono_r bi_radix (Z.of_nat (length (y :: u)))
      (Z.of_nat (length (carry y u)) - 1) bi_radix_pos ltac:(simpl length; lia)) as Hp.
    pose proof (pow_radix_pos (length (y :: u))). rewrite Hv in Hlow. nia. }
  repeat split; [done|done|done|].
  unfold array. cbn [comps slack]. rewrite Hlen, Nat.sub_diag. simpl Nat.iter. cbn [slack set_comps].
  destruct (trim_ok (carry y u) Hne) as (k & E & _ & _).
  pose proof (f_equal length E) as Ek. rewrite length_app, length_replicate in Ek.
  rewrite app_assoc. f_equal. etransitivity; [|symmetry; exact E]. do 2 f_equal. lia.
Qed.

(** [normalize] puts a bigint into normal form and keeps its value, when its
    components are all nonnegative, or all below the radix. *)
Lemma normalize_ok g bi :
  is_sign (sign bi) -> comps bi <> [] -> carriable (comps bi) \/ borrowable (comps bi) ->
  normal_form (normalize g bi) /\ cell_val (normalize g bi) = cell_val bi.
Proof.
  intros Hs Hne H. destruct (comps bi) as [|x t] eqn:Ec; [done|].
  assert (is_sign (- sign bi)) as Hs' by (unfold is_sign in *; lia).
  destruct H as [Hc|Hb].
  - assert (0 <= top (x :: t)) as Htop.
    { rewrite (split_top (x :: t)) in Hc by done. apply Forall_app in Hc as [_ Hc].
      inversion Hc; lia. }
    destruct (normalize_carry g bi (x :: t) (sign bi) x t x t) as (Hnf & Hv & _); auto.
    + rewrite borrow_carriable by done. by rewrite (proj2 (Z.ltb_ge _ _) Htop).
    + rewrite borrow_carriable by done. by rewrite (proj2 (Z.ltb_ge _ _) Htop).
    + split; [done|]. rewrite Hv. unfold cell_val. by rewrite Ec.
  - inversion Hb as [|? ? Hx Ht]; subst.
    destruct (borrow_ok x t) as (Hv & Hl & Hd & Htop); [unfold borrow_head; comp_lia|done|].
    destruct (borrow x t) as [|z u] eqn:Eb; [simpl in Hl; lia|].
    assert (is_sign (if top (z :: u) <? 0 then - sign bi else sign bi)) as Hs1
      by (by destruct (top (z :: u) <? 0)).
    unfold borrow_head in Htop.
    destruct (Z.ltb_spec (top (z :: u)) 0) as [Hneg|Hpos].
    + destruct (flip_ok z u) as (Hfv & Hfl & Hfc).
      { destruct u as [|w u]; [unfold top in *; simpl in *; unfold flip_top; comp_lia|].
        change (removelast (z :: w :: u)) with (z :: removelast (w :: u)) in Hd.
        inversion Hd as [|? ? Hz _]; subst. comp_lia. }
      { destruct u as [|w u]; [done|].
        change (removelast (z :: w :: u)) with (z :: removelast (w :: u)) in Hd.
        inversion Hd as [|? ? _ Hw]; subst. split; [done|].
        rewrite top_cons in *. unfold flip_top. comp_lia. }
      destruct (flip z u) as [|y w] eqn:Ef; [simpl in Hfl; lia|].
      destruct (normalize_carry g bi (y :: w) (- sign bi) x t y w) as (Hnf & Hv' & _); auto.
      * rewrite Eb. by rewrite (proj2 (Z.ltb_lt _ _) Hneg).
      * rewrite Eb. rewrite (proj2 (Z.ltb_lt _ _) Hneg). done.
      * split; [done|]. rewrite Hv', Hfv, Hv. unfold cell_val. rewrite Ec. ring.
    + assert (digits (z :: u)) as Hdz.
      { rewrite (split_top (z :: u)) by done. apply Forall_app. split; [done|].
        constructor; [comp_lia | done]. }
      destruct (normalize_carry g bi (z :: u) (sign bi) x t z u) as (Hnf & Hv' & _); auto.
      * by apply carriable_digits.
      * rewrite Eb. by rewrite (proj2 (Z.ltb_ge _ _) Hpos).
      * rewrite Eb. by rewrite (proj2 (Z.ltb_ge _ _) Hpos).
      * split; [done|]. rewrite Hv', Hv. unfold cell_val. by rewrite Ec.
Qed.

(** Nonnegative components whose value fits the vector: the array keeps the
    digits of the value where the components were, trimmed zeros included. *)
Lemma normalize_fits g bi :
  is_sign (sign bi) -> comps bi <> [] -> carriable (comps bi) ->
  val (comps bi) < bi_radix ^ Z.of_nat (num_comps bi) ->
  exists ds, length ds = num_comps bi /\ digits ds /\ val ds = val (comps bi) /\
    array (normalize g bi) = ds ++ slack bi.
Proof.
  intros Hs Hne Hc Hb. unfold num_comps in *. destruct (comps bi) as [|x t] eqn:Ec; [done|].
  assert (0 <= top (x :: t)) as Htop.
  { rewrite (split_top (x :: t)) in Hc by done. apply Forall_app in Hc as [_ Hc'].
    inversion Hc'; lia. }
  destruct (normalize_carry g bi (x :: t) (sign bi) x t x t) as (_ & _ & H); auto.
  + rewrite borrow_carriable by done. by rewrite (proj2 (Z.ltb_ge _ _) Htop).
  + rewrite borrow_carriable by done. by rewrite (proj2 (Z.ltb_ge _ _) Htop).
Qed.

(** Outside that contract [normalize] does not reach normal form: with a
    component above the radix under a negative top component, the sign switch
    leaves a negative component behind.  No caller passes such a vector. *)
Example normalize_mixed :
  comps (normalize 0 {| refs := 1; sign := 1; comps := [bi_radix + 5; -1]; slack := [] |}) = [-5].
Proof. reflexivity. Qed.

(** ** The bodies of the operations

    Each function is what the operation of that name does to the object [biR] it
    returns, between [clone] (or [alloc]) and the final [check]. *)

Definition on_low (f : Z -> Z) (l : list Z) : list Z :=
  match l with
  | [] => []
  | x :: t => f x :: t
  end.

(** [int_to_bi] on the freshly allocated object. *)
Definition int_to_bi_body (g i : Z) (biR : real_bigint) : real_bigint :=
  normalize g (set_comps (on_low (fun _ => i) (comps biR)) (set_sign 1 biR)).

Definition int_add_body (g i : Z) (biR : real_bigint) : real_bigint :=
  normalize g (set_comps (on_low (fun x => if sign biR =? 1 then add64 x i else sub64 x i) (comps biR)) biR).

Definition int_subtract_body (g i : Z) (biR : real_bigint) : real_bigint :=
  normalize g (set_comps (on_low (fun x => if sign biR =? 1 then sub64 x i else add64 x i) (comps biR)) biR).

(** [flip] is whether the int was negative; [i], [denom] and [m] are without the sign. *)
Definition int_multiply_body (flip : bool) (g i : Z) (biR : real_bigint) : real_bigint :=
  normalize g (set_comps (map (fun x => mul64 x i) (comps biR)) (set_sign (if flip then - sign biR else sign biR) biR)).

Definition int_divide_body (flip : bool) (g denom : Z) (biR : real_bigint) : real_bigint :=
  normalize g (set_comps (fst (div_loop denom (comps biR))) (set_sign (if flip then - sign biR else sign biR) biR)).

(** The [for] loop of [bi_int_rem] and the sign of the result. *)
Definition int_rem_body (m : Z) (bi : real_bigint) : Z :=
  let r := rem_loop m 1 0 (comps bi) in
  wrap32 (if sign bi <? 1 then - r else r).

(** [bi_add] and [bi_subtract]: [more_comps( biR, max( biR->num_comps,
    bib->num_comps ) )] and the loop; [normalize] follows. *)
Definition add_loop (g : Z) (bib biR : real_bigint) : real_bigint :=
  let biR := more_comps g (Nat.max (num_comps biR) (num_comps bib)) biR in
  set_comps (zip_comps (if sign biR =? sign bib then add64 else sub64) (comps biR) (comps bib)) biR.

Definition subtract_loop (g : Z) (bib biR : real_bigint) : real_bigint :=
  let biR := more_comps g (Nat.max (num_comps biR) (num_comps bib)) biR in
  set_comps (zip_comps (if sign biR =? sign bib then sub64 else add64) (comps biR) (comps bib)) biR.

(** [regular_multiply] on the clone of [bi_0]. *)
Definition regular_multiply_body (g : Z) (bia bib biR : real_bigint) : real_bigint :=
  let new_comps := (num_comps bia + num_comps bib)%nat in
  multiply_loop g new_comps 0 (comps bia) (comps bib) (more_comps g new_comps biR).

(** [regular_square] on the clone of [bi_0]. *)
Definition regular_square_body (g : Z) (bi biR : real_bigint) : real_bigint :=
  let new_comps := (num_comps bi * 2)%nat in
  square_loop g new_comps [] (comps bi) (more_comps g new_comps biR).

(** The recombination in [karatsuba_multiply] and [karatsuba_square]:
    [more_comps], [bi_jl += bi_mid << n], [bi_jl += bi_ik << 2n]; [normalize] follows. *)
Definition karatsuba_loops (g : Z) (n : nat) (bi_mid bi_ik bi_jl : real_bigint) : real_bigint :=
  let bi_jl := more_comps g (Nat.max (num_comps bi_mid + n) (num_comps bi_ik + n * 2)) bi_jl in
  let l := zip_comps_at add64 n (comps bi_jl) (comps bi_mid) in
  let l := zip_comps_at add64 (n * 2) l (comps bi_ik) in
  set_comps l bi_jl.

Definition half_body (biR : real_bigint) : real_bigint :=
  drop_top_zero (set_comps (half_loop (comps biR)) biR).

(** [more_comps] is called when the top component overflows. *)
Definition double_body (g : Z) (biR : real_bigint) : real_bigint :=
  let l := double_loop (comps biR) in
  set_comps l (more_comps g (length l) biR).

(** ** Their meaning *)

Lemma on_low_val f l : l <> [] -> val (on_low f l) = val l - hd 0 l + f (hd 0 l).
Proof. destruct l; [done|]. intros _. cbn [on_low val hd]. ring. Qed.

Lemma on_low_borrowable f l :
  digits l -> (forall x, digit x -> comp_min <= f x < bi_radix) -> borrowable (on_low f l).
Proof.
  intros Hd Hf. destruct Hd as [|x l Hx Hl]; [constructor|]. constructor; [by apply Hf|].
  eapply Forall_impl; [exact Hl|]. intros y Hy. comp_lia.
Qed.

Lemma on_low_carriable f l :
  digits l -> (forall x, digit x -> 0 <= f x <= comp_max) -> carriable (on_low f l).
Proof.
  intros Hd Hf. destruct Hd as [|x l Hx Hl]; [constructor|]. constructor; [by apply Hf|].
  by apply carriable_digits.
Qed.

Lemma digits_hd l : digits l -> l <> [] -> digit (hd 0 l).
Proof. by destruct 1. Qed.

(** Adding a signed 32-bit amount to the lowest component. *)
Lemma low_shift_ok g bi f d :
  normal_form bi -> -4294967296 <= d <= 4294967296 ->
  (forall x, digit x -> f x = x + d) ->
  let bi' := normalize g (set_comps (on_low f (comps bi)) bi) in
  normal_form bi' /\ cell_val bi' = cell_val bi + sign bi * d.
Proof.
  intros [Hs Hne Hd _ _] Hdb Hf. cbn zeta.
  destruct (normalize_ok g (set_comps (on_low f (comps bi)) bi)) as [Hnf Hv].
  - exact Hs.
  - simpl. by destruct (comps bi).
  - cbn [comps set_comps]. destruct (Z.le_gt_cases 0 d).
    + left. apply on_low_carriable; [done|]. intros x Hx. rewrite Hf by done. comp_lia.
    + right. apply on_low_borrowable; [done|]. intros x Hx. rewrite Hf by done. comp_lia.
  - split; [done|]. rewrite Hv. unfold cell_val. cbn [sign comps set_comps].
    rewrite on_low_val, Hf by auto using digits_hd. ring.
Qed.

Lemma int_add_body_ok g i bi : normal_form bi -> int32 i ->
  normal_form (int_add_body g i bi) /\ cell_val (int_add_body g i bi) = cell_val bi + i.
Proof.
  unfold int32. intros Hnf Hi. unfold int_add_body.
  destruct (nf_sign _ Hnf) as [E|E]; rewrite E; cbn [Z.eqb Pos.eqb].
  - destruct (low_shift_ok g bi (fun x => add64 x i) i) as [H1 H2]; auto; [lia| |].
    + intros x Hx. apply add64_id. unfold int64. comp_lia.
    + split; [done|]. rewrite H2, E. ring.
  - destruct (low_shift_ok g bi (fun x => sub64 x i) (- i)) as [H1 H2]; auto; [lia| |].
    + intros x Hx. apply sub64_id. unfold int64. comp_lia.
    + split; [done|]. rewrite H2, E. ring.
Qed.

Lemma int_subtract_body_ok g i bi : normal_form bi -> int32 i ->
  normal_form (int_subtract_body g i bi) /\ cell_val (int_subtract_body g i bi) = cell_val bi - i.
Proof.
  unfold int32. intros Hnf Hi. unfold int_subtract_body.
  destruct (nf_sign _ Hnf) as [E|E]; rewrite E; cbn [Z.eqb Pos.eqb].
  - destruct (low_shift_ok g bi (fun x => sub64 x i) (- i)) as [H1 H2]; auto; [lia| |].
    + intros x Hx. apply sub64_id. unfold int64. comp_lia.
    + split; [done|]. rewrite H2, E. ring.
  - destruct (low_shift_ok g bi (fun x => add64 x i) i) as [H1 H2]; auto; [lia| |].
    + intros x Hx. apply add64_id. unfold int64. comp_lia.
    + split; [done|]. rewrite H2, E. ring.
Qed.

Lemma int_to_bi_body_ok g i bi : num_comps bi = 1%nat -> int32 i ->
  normal_form (int_to_bi_body g i bi) /\ cell_val (int_to_bi_body g i bi) = i.
Proof.
  unfold int32, num_comps. intros Hlen Hi.
  destruct (comps bi) as [|x [|]] eqn:E; try (simpl in Hlen; lia).
  unfold int_to_bi_body. rewrite E. cbn [on_low].
  destruct (normalize_ok g (set_comps [i] (set_sign 1 bi))) as [H1 H2].
  - by left.
  - done.
  - destruct (Z.le_gt_cases 0 i); [left | right]; repeat constructor; comp_lia.
  - split; [done|]. rewrite H2. unfold cell_val. cbn [sign comps set_comps set_sign val]. ring.
Qed.

Lemma map_mul64_ok i l : 0 <= i <= 2147483648 -> digits l ->
  val (map (fun x => mul64 x i) l) = val l * i /\ carriable (map (fun x => mul64 x i) l).
Proof.
  intros Hi. induction 1 as [|x l Hx Hl [IHv IHc]]; [split; [done|constructor]|].
  assert (0 <= x * i <= 4611686018427387904) as Hb by (unfold digit in Hx; radix_nia).
  cbn [map val]. rewrite mul64_id by (unfold int64; lia). split.
  - rewrite IHv. ring.
  - constructor; [comp_lia | done].
Qed.

(** [i] is any [int] but [MININT], whose negation overflows. *)
Lemma int_multiply_body_ok g i bi : normal_form bi -> int32 i ->
  normal_form (int_multiply_body (i <? 0) g (Z.abs i) bi) /\ cell_val (int_multiply_body (i <? 0) g (Z.abs i) bi) = cell_val bi * i.
Proof.
  unfold int32. intros [Hs Hne Hd _ _] Hi. unfold int_multiply_body.
  set (s := if i <? 0 then - sign bi else sign bi). set (j := Z.abs i).
  assert (0 <= j <= 2147483648 /\ is_sign s /\ s * j = sign bi * i) as (H1 & H2 & H3).
  { unfold s, j, is_sign in *. destruct (Z.ltb_spec i 0); lia. }
  destruct (map_mul64_ok j (comps bi)) as [Hv Hc]; [lia|done|].
  destruct (normalize_ok g (set_comps (map (fun x => mul64 x j) (comps bi)) (set_sign s bi))) as [Ha Hb].
  - exact H2.
  - simpl. by destruct (comps bi).
  - by left.
  - split; [done|]. rewrite Hb. unfold cell_val. cbn [sign comps set_comps set_sign].
    rewrite Hv. replace (s * (val (comps bi) * j)) with (val (comps bi) * (s * j)) by ring.
    rewrite H3. ring.
Qed.

(** C division: truncation toward zero. *)
Lemma quot_of_abs s v d q r :
  is_sign s -> 0 < d -> 0 <= v -> v = d * q + r -> 0 <= r < d -> s * q = Z.quot (s * v) d.
Proof.
  intros [-> | ->] Hd Hv E Hr.
  - rewrite !Z.mul_1_l. rewrite Z.quot_div_nonneg by lia. apply Z.div_unique with r; lia.
  - replace (-1 * v) with (- v) by ring. rewrite Z.quot_opp_l by lia.
    rewrite Z.quot_div_nonneg by lia. rewrite <- (Z.div_unique v d q r); lia.
Qed.

Lemma int_divide_body_ok g d bi : normal_form bi -> int32 d -> d <> -2147483648 -> d <> 0 ->
  normal_form (int_divide_body (d <? 0) g (Z.abs d) bi) /\
  cell_val (int_divide_body (d <? 0) g (Z.abs d) bi) = Z.quot (cell_val bi) d.
Proof.
  unfold int32. intros [Hs Hne Hd _ _] Hi Hm H0. unfold int_divide_body.
  set (s := if d <? 0 then - sign bi else sign bi). set (e := Z.abs d).
  assert (0 < e <= bi_radix /\ is_sign s /\
    forall x, Z.quot (s * x) e = Z.quot (sign bi * x) d) as (H1 & H2 & H3).
  { unfold s, e, is_sign in *. destruct (Z.ltb_spec d 0).
    - repeat split; [lia|radix_lia|lia|].
      intros x. rewrite Z.abs_neq by lia. rewrite Z.mul_opp_l, Z.quot_opp_opp by lia. done.
    - rewrite Z.abs_eq by lia. repeat split; try radix_lia. }
  pose proof (div_loop_ok e (comps bi) H1 Hd) as Hdiv.
  destruct (div_loop e (comps bi)) as [q r]. destruct Hdiv as (Hq & Hlen & Hv & Hr). cbn [fst].
  destruct (normalize_ok g (set_comps q (set_sign s bi))) as [Ha Hb].
  - exact H2.
  - simpl. destruct q; [|done]. by destruct (comps bi).
  - left. by apply carriable_digits.
  - split; [done|]. rewrite Hb. unfold cell_val. cbn [sign comps set_comps set_sign].
    rewrite <- H3. apply quot_of_abs with r; auto; [lia|]. by apply digits_nonneg.
Qed.

Lemma int_rem_body_ok m bi : normal_form bi -> int32 m -> m <> 0 ->
  int_rem_body (Z.abs m) bi = Z.rem (cell_val bi) m.
Proof.
  unfold int32. intros [Hs Hne Hd _ _] Hm H0. unfold int_rem_body.
  rewrite rem_loop_ok by (rewrite ?Z.abs_idemp; radix_lia || done).
  rewrite Z.abs_idemp, Z.add_0_l, Z.mul_1_l. unfold cell_val.
  pose proof (digits_nonneg _ Hd). pose proof (Z.mod_pos_bound (val (comps bi)) (Z.abs m) ltac:(lia)).
  rewrite <- (Z.rem_abs_r (_ * _) m) by lia.
  destruct Hs as [E|E]; rewrite E; cbn [Z.ltb Z.compare Pos.compare Pos.compare_cont].
  - rewrite wrap32_id by (unfold int32; lia).
    rewrite Z.mul_1_l, Z.rem_mod_nonneg by lia. done.
  - rewrite wrap32_id by (unfold int32; lia).
    replace (-1 * val (comps bi)) with (- val (comps bi)) by ring.
    rewrite Z.rem_opp_l, Z.rem_mod_nonneg by lia. done.
Qed.

(** ** Addition and subtraction *)

Lemma more_comps_ok g n bi :
  sign (more_comps g n bi) = sign bi /\ refs (more_comps g n bi) = refs bi /\
  comps (more_comps g n bi) = comps bi ++ replicate (n - num_comps bi) 0.
Proof. done. Qed.

Lemma digits_pad l n : digits l -> digits (l ++ replicate n 0).
Proof. intros H. apply Forall_app. split; [done | apply digits_replicate]. Qed.

(** Both operations add [k * bib] componentwise; [k] is 1 or -1. *)
Lemma combine_ok g g' op k bib biR :
  normal_form biR -> digits (comps bib) ->
  (k = 1 \/ k = -1) ->
  (forall x y, digit x -> digit y -> op x y = x + k * y) ->
  let b := more_comps g (Nat.max (num_comps biR) (num_comps bib)) biR in
  let bi' := normalize g' (set_comps (zip_comps op (comps b) (comps bib)) b) in
  normal_form bi' /\ cell_val bi' = cell_val biR + sign biR * (k * val (comps bib)).
Proof.
  intros [Hs Hne Hd _ _] Hdb Hk Hop. cbn zeta.
  set (n := (Nat.max (num_comps biR) (num_comps bib) - num_comps biR)%nat).
  assert (length (comps bib) <= length (comps biR ++ replicate n 0%Z))%nat as Hlen.
  { rewrite length_app, length_replicate. unfold n, num_comps. lia. }
  pose proof (digits_pad (comps biR) n Hd) as Hp.
  destruct (normalize_ok g' (set_comps (zip_comps op (comps biR ++ replicate n 0) (comps bib))
    (more_comps g (Nat.max (num_comps biR) (num_comps bib)) biR))) as [Ha Hb].
  - exact Hs.
  - cbn [comps set_comps]. destruct (comps biR); [done|]. simpl app. by destruct (comps bib).
  - cbn [comps set_comps]. destruct Hk as [-> | ->]; [left | right].
    + apply zip_comps_Forall with (P := digit) (Q := digit); auto;
        [intros x y Hx Hy; rewrite Hop by done | intros x Hx]; comp_lia.
    + apply zip_comps_Forall with (P := digit) (Q := digit); auto;
        [intros x y Hx Hy; rewrite Hop by done | intros x Hx]; comp_lia.
  - split; [exact Ha|]. etransitivity; [exact Hb|]. unfold cell_val.
    cbn [sign comps set_comps more_comps].
    rewrite zip_comps_val with (P := digit) (Q := digit) (k := k) by auto.
    rewrite val_pad. ring.
Qed.

Lemma add64_digits x y : digit x -> digit y -> add64 x y = x + 1 * y.
Proof. intros Hx Hy. rewrite add64_id by (unfold int64; comp_lia). ring. Qed.
Lemma sub64_digits x y : digit x -> digit y -> sub64 x y = x + -1 * y.
Proof. intros Hx Hy. rewrite sub64_id by (unfold int64; comp_lia). ring. Qed.

Lemma add_loop_ok g g' bib biR : normal_form biR -> normal_form bib ->
  normal_form (normalize g' (add_loop g bib biR)) /\
  cell_val (normalize g' (add_loop g bib biR)) = cell_val biR + cell_val bib.
Proof.
  intros Ha Hb. unfold add_loop. cbn zeta. cbn [sign more_comps].
  pose proof (nf_sign _ Ha) as Hsa. pose proof (nf_sign _ Hb) as Hsb.
  destruct (Z.eqb_spec (sign biR) (sign bib)) as [E|E].
  - destruct (combine_ok g g' add64 1 bib biR) as [H1 H2]; auto using add64_digits, nf_digits.
    split; [exact H1|]. etransitivity; [exact H2|]. unfold cell_val. rewrite E. ring.
  - destruct (combine_ok g g' sub64 (-1) bib biR) as [H1 H2]; auto using sub64_digits, nf_digits.
    split; [exact H1|]. etransitivity; [exact H2|]. unfold cell_val, is_sign in *.
    replace (sign bib) with (- sign biR) by lia. ring.
Qed.

Lemma subtract_loop_ok g g' bib biR : normal_form biR -> normal_form bib ->
  normal_form (normalize g' (subtract_loop g bib biR)) /\
  cell_val (normalize g' (subtract_loop g bib biR)) = cell_val biR - cell_val bib.
Proof.
  intros Ha Hb. unfold subtract_loop. cbn zeta. cbn [sign more_comps].
  pose proof (nf_sign _ Ha) as Hsa. pose proof (nf_sign _ Hb) as Hsb.
  destruct (Z.eqb_spec (sign biR) (sign bib)) as [E|E].
  - destruct (combine_ok g g' sub64 (-1) bib biR) as [H1 H2]; auto using sub64_digits, nf_digits.
    split; [exact H1|]. etransitivity; [exact H2|]. unfold cell_val. rewrite E. ring.
  - destruct (combine_ok g g' add64 1 bib biR) as [H1 H2]; auto using add64_digits, nf_digits.
    split; [exact H1|]. etransitivity; [exact H2|]. unfold cell_val, is_sign in *.
    replace (sign bib) with (- sign biR) by lia. ring.
Qed.

(** ** Multiplication *)

(** The first [n] components of the array hold the digits of [v]. *)
Record holds (n : nat) (v : Z) (bi : real_bigint) : Prop := Holds {
  h_sign : sign bi = 1;
  h_length : (n <= length (array bi))%nat;
  h_digits : digits (take n (array bi));
  h_val : val (take n (array bi)) = v
}.

Lemma set_array_array n a bi : array (set_array n a bi) = a.
Proof. unfold array. apply take_drop. Qed.

(** Writing carriable components into the first [new] slots, then normalizing. *)
Lemma holds_step g new w bi l :
  (0 < new)%nat -> sign bi = 1 -> length l = length (array bi) -> (new <= length l)%nat ->
  carriable (take new l) -> val (take new l) = w -> w < bi_radix ^ Z.of_nat new ->
  let bi' := normalize g (set_array new l bi) in
  holds new w bi' /\ normal_form bi' /\ cell_val bi' = w.
Proof.
  intros Hnew Hs Hlen Hnl Hc Hv Hw. cbn zeta.
  assert (comps (set_array new l bi) <> []) as Hne.
  { cbn [comps set_array]. intros E. apply (f_equal length) in E.
    rewrite length_take in E. simpl in E. lia. }
  assert (is_sign (sign (set_array new l bi))) as Hs' by (left; exact Hs).
  assert (num_comps (set_array new l bi) = new) as Hnum.
  { unfold num_comps. cbn [comps set_array]. rewrite length_take. lia. }
  destruct (normalize_ok g _ Hs' Hne (or_introl Hc)) as [Hnf Hval].
  destruct (normalize_fits g _ Hs' Hne Hc) as (ds & Hl & Hd & Hdv & Harr).
  { rewrite Hnum. cbn [comps set_array]. lia. }
  rewrite Hnum in Hl.
  assert (cell_val (normalize g (set_array new l bi)) = w) as Hcv.
  { rewrite Hval. unfold cell_val. cbn [sign comps set_array]. rewrite Hs, Hv. ring. }
  split; [|done]. split.
  - pose proof (nf_neg _ Hnf) as Hneg. rewrite Hcv in Hneg.
    assert (0 <= w). { rewrite <- Hv. cbn [comps set_array] in Hdv. rewrite <- Hdv. by apply digits_nonneg. }
    destruct (nf_sign _ Hnf) as [E|E]; [done | lia].
  - rewrite Harr, length_app. lia.
  - rewrite Harr, take_app_le by lia. rewrite <- Hl, take_ge by lia. done.
  - rewrite Harr, take_app_le by lia. rewrite <- Hl, take_ge by lia. rewrite Hdv. exact Hv.
Qed.

Lemma take_zip_comps op k (u v : list Z) : (length v <= k)%nat ->
  take k (zip_comps op u v) = zip_comps op (take k u) v.
Proof.
  revert k v. induction u as [|x u IH]; intros [|k] v Hk; [done | by destruct v | |].
  - destruct v; [done | simpl in Hk; lia].
  - destruct v as [|y v]; [done|]. simpl. rewrite IH; [done | simpl in Hk; lia].
Qed.

Lemma take_square_row x k (u v : list Z) : (length v < k)%nat ->
  take k (square_row x u v) = square_row x (take k u) v.
Proof.
  revert k v. induction u as [|z u IH]; intros [|k] v Hk; [done | by destruct v | |].
  - lia.
  - destruct v as [|y v]; [done|]. simpl. rewrite IH; [done | simpl in Hk; lia].
Qed.

Lemma length_square_row x u v : length (square_row x u v) = length u.
Proof. revert v. induction u as [|z u IH]; intros [|y v]; simpl; auto. Qed.

(** One turn of an outer loop that adds [d] at component [c1], whatever the row. *)
Lemma row_step_ok g new c1 row d biR v :
  (c1 < new)%nat ->
  (forall u, length (row u) = length u) ->
  (forall u, take (new - c1) (row u) = row (take (new - c1) u)) ->
  (forall u, digits u -> length u = (new - c1)%nat -> val (row u) = val u + d /\ carriable (row u)) ->
  holds new v biR -> v + bi_radix ^ Z.of_nat c1 * d < bi_radix ^ Z.of_nat new ->
  let biR' := normalize g
    (set_array new (take c1 (array biR) ++ row (drop c1 (array biR))) biR) in
  holds new (v + bi_radix ^ Z.of_nat c1 * d) biR' /\
  normal_form biR' /\ cell_val biR' = v + bi_radix ^ Z.of_nat c1 * d.
Proof.
  intros Hc1 Hrl Hrt Hrv [Hs Hl Hd Hv] Hbound. cbn zeta.
  set (T := take new (array biR)) in *.
  assert (length T = new) as HT by (unfold T; rewrite length_take; lia).
  assert (length (take c1 (array biR) ++ row (drop c1 (array biR))) = length (array biR)) as Hlen
    by (rewrite length_app, Hrl, <- length_app, take_drop; done).
  destruct (Hrv (drop c1 T)) as [Hdv Hdc]; [by apply Forall_drop | rewrite length_drop; lia |].
  assert (take new (take c1 (array biR) ++ row (drop c1 (array biR))) = take c1 T ++ row (drop c1 T)) as E.
  { rewrite take_app_ge by (rewrite length_take; lia). rewrite length_take, Nat.min_l by lia.
    rewrite Hrt, take_drop_commute. replace (c1 + (new - c1))%nat with new by lia.
    f_equal. unfold T. rewrite take_take. f_equal. lia. }
  apply holds_step; auto; try lia; rewrite E.
  - apply Forall_app. split; [|done]. apply Forall_take. by apply carriable_digits.
  - rewrite val_app, Hdv, length_take, Nat.min_l by lia.
    assert (val T = val (take c1 T) + bi_radix ^ Z.of_nat c1 * val (drop c1 T)) as ET.
    { rewrite <- (take_drop c1 T) at 1. rewrite val_app, length_take, Nat.min_l by lia. done. }
    rewrite <- Hv, ET. ring.
Qed.

Lemma multiply_step_ok g new c1 x b biR v :
  digit x -> digits b -> (c1 + length b < new)%nat -> holds new v biR ->
  v + bi_radix ^ Z.of_nat c1 * (x * val b) < bi_radix ^ Z.of_nat new ->
  let biR' := multiply_step g new c1 x b biR in
  holds new (v + bi_radix ^ Z.of_nat c1 * (x * val b)) biR' /\
  normal_form biR' /\ cell_val biR' = v + bi_radix ^ Z.of_nat c1 * (x * val b).
Proof.
  intros Hx Hb Hlen Hh Hbound.
  apply (row_step_ok g new c1 (fun u => mul_row x u b)); auto; [lia | | |].
  - intros u. apply length_zip_comps.
  - intros u. apply take_zip_comps. lia.
  - intros u Hu Hul. destruct (mul_row_ok x u b) as (H1 & H2 & _); auto. lia.
Qed.

(** The square of [done] grows by the products with the next component [x]. *)
Lemma square_step_ok g new x b biR :
  digit x -> digits b -> (2 * length b + 1 < new)%nat -> holds new (val b * val b) biR ->
  let w := val (b ++ [x]) * val (b ++ [x]) in
  let biR' := square_step g new (length b) x b biR in
  holds new w biR' /\ normal_form biR' /\ cell_val biR' = w.
Proof.
  intros Hx Hb Hlen Hh. cbn zeta. set (c1 := length b) in *.
  assert (val (b ++ [x]) * val (b ++ [x]) =
    val b * val b + bi_radix ^ Z.of_nat c1 * (2 * x * val b + bi_radix ^ Z.of_nat c1 * (x * x))) as E.
  { rewrite val_app. cbn [val]. fold c1. ring. }
  rewrite E. apply (row_step_ok g new c1 (fun u => square_row x u b)); auto; [lia | | | |].
  - intros u. apply length_square_row.
  - intros u. apply take_square_row. lia.
  - intros u Hu Hul. destruct (square_row_ok x u b) as (H1 & H2 & _); auto; [lia|].
    split; [rewrite H1; fold c1; ring | done].
  - rewrite <- E. pose proof (digits_bound (b ++ [x])) as Hbd.
    rewrite length_app in Hbd. change (length [x]) with 1%nat in Hbd. fold c1 in Hbd.
    specialize (Hbd (digits_snoc b x Hb Hx)). eapply Z.lt_le_trans.
    + apply Z.square_lt_mono_nonneg; [lia | apply Hbd].
    + rewrite <- Z.pow_add_r by lia. apply Z.pow_le_mono_r; [apply bi_radix_pos | lia].
Qed.

Lemma multiply_loop_refs g new c1 a b biR : refs (multiply_loop g new c1 a b biR) = refs biR.
Proof.
  revert c1 biR. induction a as [|x a IH]; intros c1 biR; [done|]. simpl.
  rewrite IH. unfold multiply_step. by rewrite normalize_refs.
Qed.

Lemma multiply_loop_ok g new b a : digits a -> digits b -> forall c1 biR v,
  (c1 + length a + length b <= new)%nat -> holds new v biR ->
  0 <= v < bi_radix ^ Z.of_nat (c1 + length b) ->
  (a = [] -> normal_form biR /\ cell_val biR = v) ->
  let biR' := multiply_loop g new c1 a b biR in
  normal_form biR' /\ cell_val biR' = v + bi_radix ^ Z.of_nat c1 * (val a * val b).
Proof.
  intros Ha Hb. induction Ha as [|x a Hx Ha IH]; intros c1 biR v Hlen Hh Hv Hnil; cbn zeta.
  { simpl. destruct (Hnil eq_refl) as [? ->]. split; [done | ring]. }
  cbn [multiply_loop val]. simpl length in Hlen.
  pose proof (digits_bound b Hb) as Hbb. pose proof (pow_radix_pos c1) as Hp.
  assert (0 <= v + bi_radix ^ Z.of_nat c1 * (x * val b) < bi_radix ^ Z.of_nat (S c1 + length b)) as Hw.
  { replace (Z.of_nat (S c1 + length b)) with (1 + (Z.of_nat c1 + Z.of_nat (length b))) by lia.
    rewrite Nat2Z.inj_add, Z.pow_add_r in Hv by lia.
    rewrite !Z.pow_add_r, Z.pow_1_r by lia. unfold digit in Hx.
    set (P := bi_radix ^ Z.of_nat c1) in *. set (Q := bi_radix ^ Z.of_nat (length b)) in *.
    assert (x * val b <= (bi_radix - 1) * val b) by (apply Z.mul_le_mono_nonneg_r; lia).
    assert (P * (x * val b) <= P * ((bi_radix - 1) * Q)) by (apply Z.mul_le_mono_nonneg_l; [lia|]; radix_nia).
    assert (0 <= P * (x * val b)) by (apply Z.mul_nonneg_nonneg; nia). nia. }
  destruct (multiply_step_ok g new c1 x b biR v) as (H1 & H2 & H3); auto; [lia| |].
  { eapply Z.lt_le_trans; [apply Hw|]. apply Z.pow_le_mono_r; [apply bi_radix_pos | lia]. }
  destruct (IH (S c1) (multiply_step g new c1 x b biR)
              (v + bi_radix ^ Z.of_nat c1 * (x * val b))) as [Hn Hcv]; auto; [lia|].
  split; [done|]. rewrite Hcv, Nat2Z.inj_succ, Z.pow_succ_r by lia. ring.
Qed.

(** The object [more_comps] has just filled with zeros. *)
Lemma holds_zero g n bi : sign bi = 1 -> comps bi = [0] -> (1 <= n)%nat ->
  holds n 0 (more_comps g n bi).
Proof.
  intros Hs Hc Hn. assert (take n (array (more_comps g n bi)) = replicate n 0) as E.
  { unfold array, more_comps. cbn [comps slack]. unfold num_comps. rewrite Hc.
    change ([0] ++ replicate (n - length [0]) 0) with (replicate (S (n - 1)) 0).
    replace (S (n - 1)) with n by lia. rewrite take_app_le by (rewrite length_replicate; lia).
    apply take_ge. rewrite length_replicate. lia. }
  split; [done| | |].
  - pose proof (f_equal length E) as El. rewrite length_take, length_replicate in El. lia.
  - rewrite E. apply digits_replicate.
  - rewrite E. apply val_replicate_0.
Qed.

Lemma regular_multiply_body_ok g bia bib biR :
  normal_form bia -> normal_form bib -> sign biR = 1 -> comps biR = [0] ->
  let biR' := regular_multiply_body g bia bib biR in
  normal_form biR' /\ cell_val biR' = val (comps bia) * val (comps bib).
Proof.
  intros Ha Hb Hs Hc. cbn zeta. unfold regular_multiply_body. cbn zeta.
  assert (0 < num_comps bia)%nat as Hn
    by (pose proof (nf_nonempty _ Ha); unfold num_comps; destruct (comps bia); simpl; [done|lia]).
  destruct (multiply_loop_ok g (num_comps bia + num_comps bib) (comps bib) (comps bia))
    with (c1 := 0%nat) (v := 0) (biR := more_comps g (num_comps bia + num_comps bib) biR) as [H1 H2];
    auto using nf_digits.
  - apply holds_zero; auto. lia.
  - pose proof (pow_radix_pos (0 + length (comps bib))). lia.
  - intros E. unfold num_comps in Hn. rewrite E in Hn. simpl in Hn. lia.
  - split; [done|]. rewrite H2. change (Z.of_nat 0) with 0. rewrite Z.pow_0_r. ring.
Qed.

Lemma square_loop_ok g new todo : digits todo -> forall don biR,
  digits don -> (length (don ++ todo) * 2 = new)%nat -> holds new (val don * val don) biR ->
  (todo = [] -> normal_form biR /\ cell_val biR = val don * val don) ->
  let biR' := square_loop g new don todo biR in
  normal_form biR' /\ cell_val biR' = val (don ++ todo) * val (don ++ todo).
Proof.
  induction 1 as [|x todo Hx Htd IH]; intros don biR Hdon Hlen Hh Hnil; cbn zeta.
  { rewrite app_nil_r. by apply Hnil. }
  cbn [square_loop]. rewrite length_app in Hlen. simpl length in Hlen.
  destruct (square_step_ok g new x don biR) as (H1 & H2 & H3); auto; [lia|].
  replace (don ++ x :: todo) with ((don ++ [x]) ++ todo) by (by rewrite <- app_assoc).
  apply IH; auto.
  - by apply digits_snoc.
  - rewrite !length_app. simpl. lia.
Qed.

Lemma square_loop_refs g new don todo biR : refs (square_loop g new don todo biR) = refs biR.
Proof.
  revert don biR. induction todo as [|x todo IH]; intros don biR; [done|]. simpl.
  rewrite IH. unfold square_step. by rewrite normalize_refs.
Qed.

Lemma regular_square_body_ok g bi biR :
  normal_form bi -> sign biR = 1 -> comps biR = [0] ->
  let biR' := regular_square_body g bi biR in
  normal_form biR' /\ cell_val biR' = val (comps bi) * val (comps bi).
Proof.
  intros Ha Hs Hc. cbn zeta. unfold regular_square_body. cbn zeta.
  assert (0 < num_comps bi)%nat as Hn
    by (pose proof (nf_nonempty _ Ha); unfold num_comps; destruct (comps bi); simpl; [done|lia]).
  apply (square_loop_ok g (num_comps bi * 2) (comps bi)) with (don := []); auto using nf_digits.
  - constructor.
  - change (val [] * val []) with 0. apply holds_zero; auto. lia.
  - intros E. unfold num_comps in Hn. rewrite E in Hn. simpl in Hn. lia.
Qed.

(** ** Karatsuba *)

Lemma split_comps_ok off n l : digits l ->
  digits (split_comps off n l) /\ length (split_comps off n l) = n /\
  val (split_comps off n l) = val (take n (drop off l)).
Proof.
  intros Hd. unfold split_comps. repeat split.
  - apply digits_pad. by apply Forall_take, Forall_drop.
  - rewrite length_app, length_replicate, length_take. lia.
  - apply val_pad.
Qed.

(** The high and low halves: [l = i * r^n + j]. *)
Lemma split_comps_val n l : digits l -> (length l <= 2 * n)%nat ->
  val l = val (split_comps 0 n l) + bi_radix ^ Z.of_nat n * val (split_comps n n l).
Proof.
  intros Hd Hl. destruct (split_comps_ok 0 n l Hd) as (_ & _ & ->).
  destruct (split_comps_ok n n l Hd) as (_ & _ & ->). rewrite drop_0.
  rewrite (take_ge (drop n l)) by (rewrite length_drop; lia).
  rewrite <- (take_drop n l) at 1. rewrite val_app.
  destruct (Nat.le_gt_cases n (length l)) as [Hle|Hgt].
  - by rewrite length_take, Nat.min_l by lia.
  - rewrite (drop_ge l n) by lia. cbn [val]. ring.
Qed.

Lemma karatsuba_loops_ok g g' n s mid ik jl :
  is_sign s -> normal_form mid -> normal_form ik -> normal_form jl ->
  normal_form (normalize g' (set_sign s (karatsuba_loops g n mid ik jl))) /\
  cell_val (normalize g' (set_sign s (karatsuba_loops g n mid ik jl))) =
    s * (val (comps jl) + bi_radix ^ Z.of_nat n * val (comps mid) +
         bi_radix ^ Z.of_nat (n * 2) * val (comps ik)).
Proof.
  intros Hs Hm Hi Hj. unfold karatsuba_loops. cbn zeta.
  set (m := Nat.max (num_comps mid + n) (num_comps ik + n * 2)).
  set (l0 := comps (more_comps g m jl)).
  assert (digits l0) as Hd0 by (apply digits_pad; by apply nf_digits).
  assert (m <= length l0)%nat as Hlen.
  { unfold l0. cbn [comps more_comps]. rewrite length_app, length_replicate. unfold num_comps. lia. }
  assert (val l0 = val (comps jl)) as Ev0 by (unfold l0; cbn [comps more_comps]; by rewrite val_pad).
  set (small := fun x => 0 <= x <= 2 * bi_radix).
  assert (Forall small (zip_comps_at add64 n l0 (comps mid))) as Hsm.
  { apply zip_comps_at_Forall with (P := digit) (Q := digit); [| |exact Hd0|by apply nf_digits].
    - intros x y Hx Hy. rewrite add64_digits by done. unfold small. comp_lia.
    - intros x Hx. unfold small. comp_lia. }
  assert (forall x y, small x -> digit y -> add64 x y = x + 1 * y) as Hadd.
  { unfold small. intros x y Hx Hy. rewrite add64_id by (unfold int64; comp_lia). ring. }
  destruct (normalize_ok g' (set_sign s (set_comps (zip_comps_at add64 (n * 2)
      (zip_comps_at add64 n l0 (comps mid)) (comps ik)) (more_comps g m jl)))) as [H1 H2].
  - exact Hs.
  - cbn [comps set_comps set_sign]. intros E. apply (f_equal length) in E.
    rewrite !length_zip_comps_at in E. unfold l0 in E. cbn [comps more_comps] in E.
    rewrite length_app in E. pose proof (nf_nonempty _ Hj). destruct (comps jl); simpl in E; [done|lia].
  - left. cbn [comps set_comps set_sign].
    apply zip_comps_at_Forall with (P := small) (Q := digit); [| |exact Hsm|by apply nf_digits].
    + intros x y Hx Hy. rewrite Hadd by done. unfold small in *. comp_lia.
    + unfold small. intros x Hx. comp_lia.
  - split; [exact H1|]. etransitivity; [exact H2|]. unfold cell_val.
    cbn [sign comps set_comps set_sign].
    rewrite (zip_comps_at_val add64 small digit 1)
      by (first [exact Hadd | exact Hsm | by apply nf_digits
                | rewrite length_zip_comps_at; unfold m, num_comps in *; lia]).
    rewrite (zip_comps_at_val add64 digit digit 1)
      by (first [exact add64_digits | exact Hd0 | by apply nf_digits
                | unfold m, num_comps in *; lia]).
    rewrite Ev0. ring.
Qed.

(** ** Halving, doubling, comparing, bits *)

(** [bi_half] skips [normalize]; the result is in normal form unless it is the
    half of -1, which it leaves as a zero with a negative sign. *)
Lemma half_body_ok bi : normal_form bi -> cell_val bi <> -1 ->
  normal_form (half_body bi) /\ cell_val (half_body bi) = Z.quot (cell_val bi) 2.
Proof.
  intros [Hs Hne Hd Ht Hz] Hv. destruct (half_loop_ok (comps bi) Hd) as (Hv2 & Hd2 & Hl2 & Ht2).
  assert (half_loop (comps bi) <> []) as Hne2 by (destruct (comps bi); [done|]; simpl; congruence).
  pose proof (digits_nonneg _ Hd) as Hpos.
  assert (forall c, sign c = sign bi -> val (comps c) = val (comps bi) / 2 ->
    cell_val c = Z.quot (cell_val bi) 2) as Hquot.
  { intros c Es Ev. unfold cell_val. rewrite Es, Ev.
    apply quot_of_abs with (r := val (comps bi) mod 2); auto; [lia| |apply Z.mod_pos_bound; lia].
    apply Z.div_mod. lia. }
  assert (val (comps bi) / 2 = 0 -> sign bi = 1) as Hz2.
  { intros E. assert (val (comps bi) = 0 \/ val (comps bi) = 1) as [E'|E'] by
      (Z.div_mod_to_equations; lia); [auto|].
    destruct Hs as [?|Es]; [done|]. exfalso. apply Hv. unfold cell_val. rewrite Es, E'. done. }
  unfold half_body, drop_top_zero. cbn [comps set_comps]. unfold num_comps. cbn [comps set_comps].
  rewrite Hl2. destruct (Nat.ltb_spec 1 (length (comps bi))) as [Hlt|Hle]; cbn [andb].
  2:{ split; [|by apply Hquot]. split; simpl; auto.
      - unfold num_comps. cbn [comps set_comps]. lia.
      - rewrite Hv2. done. }
  destruct (Z.eqb_spec (top (half_loop (comps bi))) 0) as [E0|Hn0].
  - unfold array. cbn [comps slack set_comps set_array].
    set (h := half_loop (comps bi)) in *.
    assert (take (length (comps bi) - 1) (h ++ slack bi) = removelast h) as Etk.
    { rewrite take_app_le by lia. rewrite (split_top h Hne2) at 1.
      pose proof (length_removelast h Hne2). rewrite take_app_le by lia. apply take_ge. lia. }
    assert (val (removelast h) = val (comps bi) / 2) as Ev.
    { rewrite <- Hv2. rewrite (split_top h Hne2) at 2. rewrite E0, val_app. cbn [val]. ring. }
    split; [|apply Hquot; cbn [sign comps set_array]; [done | by rewrite Etk]].
    split; cbn [sign comps set_array]; rewrite ?Etk; auto.
    + intros E. apply (f_equal length) in E. pose proof (length_removelast h Hne2). simpl in E. lia.
    + by apply digits_removelast.
    + unfold num_comps. cbn [comps set_array]. rewrite Etk. intros Hlt2 Etop.
      (* half of a vector whose top component is nonzero is at least half a radix power *)
      assert (top (comps bi) <> 0) as Htop by (apply Ht; exact Hlt).
      pose proof (digits_lower _ Hne Hd Htop) as Hlow. pose proof (digits_top _ Hd) as Htd.
      assert (removelast h <> []) as Hrne by (intros E; rewrite E in Hlt2; simpl in Hlt2; lia).
      pose proof (length_removelast h Hne2) as Hl1.
      pose proof (length_removelast (removelast h) Hrne) as Hl0.
      pose proof (digits_bound _ (digits_removelast _ (digits_removelast _ Hd2))) as Hb. fold h in Hb.
      rewrite (split_top (removelast h) Hrne), Etop, val_app in Ev. cbn [val] in Ev.
      set (k := Z.of_nat (length (removelast (removelast h)))) in *.
      replace (Z.of_nat (length (comps bi)) - 1) with (Z.succ k) in Hlow by lia.
      rewrite Z.pow_succ_r in Hlow by lia. unfold digit in Htd.
      pose proof (Z.pow_pos_nonneg bi_radix k bi_radix_pos ltac:(lia)) as Hp.
      assert (bi_radix * bi_radix ^ k <= val (comps bi)) as Hlow2 by nia.
      clear - Ev Hb Hlow2 Hp. set (P := bi_radix ^ k) in *. Z.div_mod_to_equations. radix_lia.
    + rewrite Ev. done.
  - split; [|by apply Hquot]. split; simpl; auto. rewrite Hv2. done.
Qed.

(** Halving -1 leaves a zero with a negative sign. *)
Lemma half_body_minus_one bi : normal_form bi -> cell_val bi = -1 ->
  sign (half_body bi) = -1 /\ comps (half_body bi) = [0].
Proof.
  intros Hnf Hv. pose proof (nf_abs _ Hnf) as Ha. rewrite Hv in Ha.
  pose proof (proj1 (nf_neg _ Hnf) ltac:(lia)) as Es.
  assert (num_comps bi = 1%nat) as Hn.
  { pose proof (nf_nonempty _ Hnf). destruct (Nat.le_gt_cases (num_comps bi) 1) as [|Hgt].
    - unfold num_comps in *. destruct (comps bi); simpl in *; [done | lia].
    - pose proof (nf_val_pos _ Hnf Hgt) as Hp.
      pose proof (Z.pow_le_mono_r bi_radix 1 (Z.of_nat (num_comps bi) - 1) bi_radix_pos ltac:(lia)).
      rewrite Z.pow_1_r in *. radix_lia. }
  unfold num_comps in Hn. destruct (comps bi) as [|x [|]] eqn:E; try (simpl in Hn; lia).
  cbn [val] in Ha. assert (x = 1) as -> by lia.
  unfold half_body, drop_top_zero, num_comps. rewrite E. simpl. done.
Qed.

Lemma double_body_ok g bi : normal_form bi ->
  normal_form (double_body g bi) /\ cell_val (double_body g bi) = cell_val bi * 2.
Proof.
  intros [Hs Hne Hd Ht Hz]. destruct (double_loop_ok (comps bi) Hd) as (Hd2 & Hv2 & Hl2 & Ht2 & _).
  unfold double_body. cbn zeta. split; [split|]; cbn [sign comps set_comps more_comps]; auto.
  - intros E. rewrite E in Hl2. destruct (comps bi); [done | simpl in Hl2; lia].
  - unfold num_comps. cbn [comps set_comps]. intros Hlen.
    destruct (Nat.le_gt_cases (num_comps bi) 1) as [Hle|Hgt]; [|auto].
    unfold num_comps in Hle. destruct (comps bi) as [|x [|]] eqn:E; [done| |simpl in Hle; lia].
    revert Hlen. cbn [double_loop].
    destruct (bi_radix <=? wrap64 (Z.shiftl x 1)); simpl; [done | lia].
  - rewrite Hv2. intros H. apply Hz. lia.
  - unfold cell_val. cbn [sign comps set_comps more_comps]. rewrite Hv2. ring.
Qed.

Lemma sgn_of_lt a b : a < b -> Z.sgn (a - b) = -1.
Proof. intros H. apply Z.sgn_neg. lia. Qed.
Lemma sgn_of_gt a b : b < a -> Z.sgn (a - b) = 1.
Proof. intros H. apply Z.sgn_pos. lia. Qed.

Lemma compare_bigints_ok a b : normal_form a -> normal_form b ->
  compare_bigints a b = Z.sgn (cell_val a - cell_val b).
Proof.
  intros Ha Hb. unfold compare_bigints.
  pose proof (nf_neg a Ha) as Hna. pose proof (nf_neg b Hb) as Hnb.
  assert (forall c d, normal_form c -> normal_form d -> (num_comps c < num_comps d)%nat ->
            val (comps c) < val (comps d)) as Hlen.
  { intros c d Hc Hd Hlt. destruct (Z.lt_ge_cases (val (comps c)) (val (comps d))) as [|Hge]; [done|].
    pose proof (nf_length_le d c Hd Hc Hge). lia. }
  unfold cell_val in *.
  destruct (nf_sign _ Ha) as [Ea|Ea], (nf_sign _ Hb) as [Eb|Eb]; rewrite Ea, Eb in *; simpl.
  - destruct (Nat.ltb_spec (num_comps b) (num_comps a)) as [H|H].
    { specialize (Hlen b a Hb Ha H). rewrite sgn_of_gt; lia. }
    destruct (Nat.ltb_spec (num_comps a) (num_comps b)) as [H'|H'].
    { specialize (Hlen a b Ha Hb H'). rewrite sgn_of_lt; lia. }
    rewrite compare_loop_ok by (auto using nf_digits; unfold num_comps in *; lia).
    rewrite Z.mul_1_l. f_equal. ring.
  - rewrite sgn_of_gt; lia.
  - rewrite sgn_of_lt; lia.
  - destruct (Nat.ltb_spec (num_comps b) (num_comps a)) as [H|H].
    { specialize (Hlen b a Hb Ha H). rewrite sgn_of_lt; lia. }
    destruct (Nat.ltb_spec (num_comps a) (num_comps b)) as [H'|H'].
    { specialize (Hlen a b Ha Hb H'). rewrite sgn_of_gt; lia. }
    rewrite compare_loop_ok by (auto using nf_digits; unfold num_comps in *; lia).
    replace (-1 * val (comps a) - -1 * val (comps b)) with (- (val (comps a) - val (comps b))) by ring.
    rewrite Z.sgn_opp. ring.
Qed.

Lemma bit_of_ok bi n : normal_form bi -> 0 <= n -> bit_of bi n = Z.testbit (Z.abs (cell_val bi)) n.
Proof.
  intros Hnf Hn. rewrite nf_abs by done. unfold bit_of, bi_comp_bits.
  rewrite Z.quot_div_nonneg by lia.
  pose proof (Z.div_mod n 31 ltac:(lia)) as E. pose proof (Z.mod_pos_bound n 31 ltac:(lia)) as Hm.
  assert (0 <= n / 31) as Hq by (apply Z.div_pos; lia).
  replace (n - n / 31 * 31) with (n mod 31) by lia.
  pose proof (val_testbit (comps bi) (Z.to_nat (n / 31)) (n mod 31) (nf_digits _ Hnf)) as Hb.
  unfold bi_comp_bits in Hb. rewrite Z2Nat.id in Hb by lia.
  replace (n / 31 * 31 + n mod 31) with n in Hb by lia. rewrite Hb by lia.
  destruct (Z.leb_spec (Z.of_nat (num_comps bi)) (n / 31)) as [Hge|Hlt].
  - rewrite nth_overflow by (unfold num_comps in *; lia). by rewrite Z.bits_0.
  - by rewrite cbit_ok.
Qed.

(** The number of bits of the absolute value. *)
Definition bit_length (v : Z) : Z := if v =? 0 then 0 else Z.log2 (Z.abs v) + 1.

Lemma bits_of_ok bi : normal_form bi -> bits_of bi = bit_length (cell_val bi).
Proof.
  intros Hnf. unfold bits_of, bit_length. rewrite nf_abs by done.
  pose proof (digits_top _ (nf_digits _ Hnf)) as Htd. pose proof (nf_nonempty _ Hnf) as Hne.
  rewrite cbits_ok by comp_lia.
  assert (cell_val bi = 0 <-> val (comps bi) = 0) as Hz.
  { unfold cell_val. destruct (nf_sign _ Hnf) as [E|E]; rewrite E; lia. }
  pose proof (digits_nonneg _ (nf_digits _ Hnf)) as Hpos.
  pose proof (split_top (comps bi) Hne) as Es.
  assert (val (comps bi) = val (removelast (comps bi)) +
    2 ^ (bi_comp_bits * (Z.of_nat (num_comps bi) - 1)) * top (comps bi)) as Ev.
  { rewrite Es at 1. rewrite val_app. cbn [val].
    pose proof (length_removelast (comps bi) Hne) as Hl.
    replace (Z.of_nat (length (removelast (comps bi)))) with (Z.of_nat (num_comps bi) - 1)
      by (unfold num_comps; lia).
    rewrite Z.pow_mul_r by (unfold bi_comp_bits, num_comps; lia).
    change (2 ^ bi_comp_bits) with bi_radix. ring. }
  destruct (Z.eqb_spec (top (comps bi)) 0) as [E0|Hn0].
  - assert (num_comps bi = 1%nat) as Hn.
    { destruct (Nat.le_gt_cases (num_comps bi) 1) as [|Hgt].
      - unfold num_comps in *. destruct (comps bi); simpl in *; [done | lia].
      - by destruct (nf_top _ Hnf Hgt). }
    assert (val (comps bi) = 0) as Ev0.
    { unfold num_comps in Hn. destruct (comps bi) as [|x [|]]; try (simpl in Hn; lia).
      unfold top in E0. simpl in E0. subst x. done. }
    rewrite Hn. destruct (Z.eqb_spec (cell_val bi) 0); [unfold bi_comp_bits; lia | tauto].
  - pose proof (digits_removelast _ (nf_digits _ Hnf)) as Hrd.
    pose proof (digits_bound _ Hrd) as Hb.
    set (k := bi_comp_bits * (Z.of_nat (num_comps bi) - 1)) in *.
    assert (0 <= k) as Hk by (unfold k, bi_comp_bits, num_comps; destruct (comps bi); simpl in *; [done|lia]).
    assert (bi_radix ^ Z.of_nat (length (removelast (comps bi))) = 2 ^ k) as Ek.
    { pose proof (length_removelast (comps bi) Hne) as Hl.
      replace (Z.of_nat (length (removelast (comps bi)))) with (Z.of_nat (num_comps bi) - 1)
        by (unfold num_comps; lia).
      unfold k. by rewrite Z.pow_mul_r by (unfold bi_comp_bits, num_comps; lia). }
    rewrite Ek in Hb. unfold digit in Htd.
    pose proof (Z.log2_spec (top (comps bi)) ltac:(lia)) as [Hlo Hhi].
    pose proof (Z.log2_nonneg (top (comps bi))) as Hln.
    assert (Z.log2 (val (comps bi)) = k + Z.log2 (top (comps bi))) as El.
    { apply Z.log2_unique; [lia|]. rewrite <- Z.add_succ_r, !Z.pow_add_r by lia.
      rewrite Ev. set (P := 2 ^ k) in *. nia. }
    destruct (Z.eqb_spec (cell_val bi) 0) as [E0|].
    + apply Hz in E0. pose proof (Z.pow_pos_nonneg 2 k ltac:(lia) Hk). nia.
    + lia.
Qed.

(** ** What the predicates look at *)

Lemma low_bit_ok bi : normal_form bi -> negb (Z.land (hd 0 (comps bi)) 1 =? 0) = Z.odd (cell_val bi).
Proof.
  intros [Hs Hne Hd _ _]. unfold cell_val. destruct Hd as [|x l Hx Hl]; [done|]. cbn [hd val].
  rewrite !Z.odd_mul, Z.odd_add, Z.odd_mul.
  replace (Z.odd (sign bi)) with true by (by destruct Hs as [-> | ->]).
  replace (Z.odd bi_radix) with false by done. rewrite xorb_false_r. simpl.
  pose proof (Z.mod_pos_bound x 2 ltac:(lia)). rewrite land_1, Zodd_mod. destruct (Z.eqb_spec (x mod 2) 0), (Z.eqb_spec (x mod 2) 1); try done; exfalso; lia.
Qed.

Lemma single_comp_ok n bi : 0 <= n <= 1 -> normal_form bi ->
  (sign bi =? 1) && (num_comps bi =? 1)%nat && (hd 0 (comps bi) =? n) = (cell_val bi =? n).
Proof.
  intros Hn Hnf. pose proof (nf_nonempty _ Hnf) as Hne. pose proof (nf_zero _ Hnf) as Hz.
  pose proof (nf_sign _ Hnf) as Hs. pose proof (digits_nonneg _ (nf_digits _ Hnf)) as Hpos.
  destruct (Nat.eqb_spec (num_comps bi) 1) as [E1|E1].
  - unfold num_comps in E1. destruct (comps bi) as [|x [|]] eqn:Ec; simpl in E1; try lia.
    unfold cell_val. rewrite Ec in *. cbn [val hd] in *.
    destruct Hs as [E|E]; rewrite E in *; cbn [Z.eqb Pos.eqb andb].
    + f_equal. lia.
    + destruct (Z.eqb_spec (-1 * (x + bi_radix * 0)) n) as [E2|]; [|done]. rewrite Z.mul_0_r in *. lia.
  - rewrite andb_false_r. cbn [andb]. symmetry. apply Z.eqb_neq. intros E2.
    assert (1 < num_comps bi)%nat as Hlen.
    { unfold num_comps in *. destruct (comps bi) as [|? [|]]; simpl in *; [done|lia|lia]. }
    pose proof (nf_val_pos bi Hnf Hlen) as H. pose proof (nf_abs bi Hnf) as Ha.
    pose proof (Z.pow_le_mono_r bi_radix 1 (Z.of_nat (num_comps bi) - 1) bi_radix_pos ltac:(lia)) as Hm.
    rewrite Z.pow_1_r in Hm. unfold bi_radix in *. lia.
Qed.

Lemma low_mask_ok m bi : 0 <= m < 2147483648 -> normal_form bi ->
  wrap32 (Z.land (hd 0 (comps bi)) m) = Z.land (Z.abs (cell_val bi)) m.
Proof.
  intros Hm Hnf. rewrite nf_abs by done. destruct Hnf as [_ Hne Hd _ _].
  destruct Hd as [|x l Hx Hl]; [done|]. cbn [hd val].
  assert (Z.land m (Z.ones 31) = m) as Em.
  { rewrite Z.land_ones by lia. apply Z.mod_small. change (2 ^ 31) with 2147483648. lia. }
  assert (Z.land x m = Z.land (x + bi_radix * val l) m) as <-.
  { rewrite <- Em, (Z.land_comm m), !Z.land_assoc. f_equal. rewrite !Z.land_ones by lia.
    change (2 ^ 31) with bi_radix. rewrite Z.mul_comm. symmetry. apply Z.mod_add. by unfold bi_radix. }
  assert (0 <= Z.land x m < 2147483648) as H.
  { rewrite <- Em, Z.land_assoc, Z.land_ones by lia. change (2 ^ 31) with 2147483648. apply Z.mod_pos_bound. lia. }
  apply wrap32_id. unfold int32. lia.
Qed.

Lemma to_int_ok bi : normal_form bi -> int32 (cell_val bi) ->
  wrap32 (mul64 (sign bi) (to_int_loop 0 1 (comps bi))) = cell_val bi.
Proof.
  intros Hnf Hi. pose proof (nf_abs bi Hnf) as Ha. unfold int32 in Hi.
  rewrite to_int_loop_ok; [| apply Hnf |].
  - rewrite mul64_id by (fold (cell_val bi); unfold int64; lia). by apply wrap32_id.
  - destruct (Nat.le_gt_cases (num_comps bi) 2) as [|Hgt]; [done|].
    pose proof (nf_val_pos bi Hnf ltac:(lia)) as H.
    pose proof (Z.pow_le_mono_r bi_radix 2 (Z.of_nat (num_comps bi) - 1) bi_radix_pos ltac:(lia)) as Hm.
    change (bi_radix ^ 2) with 4611686018427387904 in Hm. lia.
Qed.

Lemma zero_form bi : normal_form bi -> cell_val bi = 0 -> sign bi = 1 /\ comps bi = [0].
Proof.
  intros Hn Hv. pose proof (single_comp_ok 0 bi ltac:(lia) Hn) as H. rewrite Hv in H. cbn in H.
  apply andb_true_iff in H as [[H1%Z.eqb_eq H2%Nat.eqb_eq]%andb_true_iff H3%Z.eqb_eq].
  split; [done|]. unfold num_comps in H2.
  destruct (comps bi) as [|x [|]]; simpl in *; [done | by subst | done].
Qed.

(** Setting the sign of a product of magnitudes. *)
Lemma signed_product a b p : normal_form a -> normal_form b -> normal_form p ->
  cell_val p = val (comps a) * val (comps b) ->
  let p' := if cell_val p =? 0 then p else set_sign (sign a * sign b) p in
  normal_form p' /\ cell_val p' = cell_val a * cell_val b.
Proof.
  intros Ha Hb Hp Hv. cbn zeta.
  pose proof (digits_nonneg _ (nf_digits _ Ha)). pose proof (digits_nonneg _ (nf_digits _ Hb)).
  assert (cell_val p = val (comps p)) as Ep by (rewrite <- (nf_abs p Hp), Hv, Z.abs_eq; [done | by apply Z.mul_nonneg_nonneg]).
  destruct (Z.eqb_spec (cell_val p) 0) as [E0|E0].
  - split; [done|]. rewrite E0 in *. unfold cell_val.
    transitivity (sign a * sign b * (val (comps a) * val (comps b))); [rewrite <- Hv|]; ring.
  - split.
    + destruct Hp as [Hs Hne Hd Ht Hz]. split; cbn [sign set_sign comps]; auto; [|lia].
      destruct (nf_sign _ Ha) as [-> | ->], (nf_sign _ Hb) as [-> | ->]; unfold is_sign; lia.
    + unfold cell_val in *. cbn [sign set_sign comps]. rewrite <- Ep, Hv. ring.
Qed.

(** A half of the operand of a Karatsuba product, before and after [normalize]. *)
Definition half_cell (off n : nat) (l : list Z) (c : real_bigint) : real_bigint :=
  set_sign 1 (set_comps (split_comps off n l) c).

Lemma half_cell_ok g off n l c : (0 < n)%nat -> digits l ->
  let v := val (split_comps off n l) in
  normal_form (normalize g (half_cell off n l c)) /\ cell_val (normalize g (half_cell off n l c)) = v /\
  0 <= v < bi_radix ^ Z.of_nat n.
Proof.
  intros Hn Hl. cbn zeta. destruct (split_comps_ok off n l Hl) as (Hd & Hlen & _).
  destruct (normalize_ok g (half_cell off n l c)) as [H1 H2].
  - by left.
  - cbn [comps half_cell set_sign set_comps]. intros E. rewrite E in Hlen. simpl in Hlen. lia.
  - left. cbn [comps half_cell set_sign set_comps]. by apply carriable_digits.
  - split; [done|]. split; [rewrite H2; unfold cell_val; cbn [comps sign half_cell set_sign set_comps]; lia|].
    pose proof (digits_bound _ Hd) as Hb. rewrite Hlen in Hb. pose proof (digits_nonneg _ Hd). lia.
Qed.

Lemma nf_num_comps_le k bi : normal_form bi -> (0 < k)%nat ->
  Z.abs (cell_val bi) < bi_radix ^ Z.of_nat k -> (num_comps bi <= k)%nat.
Proof.
  intros Hn Hk Hv. destruct (Nat.le_gt_cases (num_comps bi) k) as [|Hgt]; [done|]. exfalso.
  pose proof (nf_val_pos bi Hn ltac:(lia)) as H. rewrite nf_abs in Hv by done.
  pose proof (Z.pow_le_mono_r bi_radix (Z.of_nat k) (Z.of_nat (num_comps bi) - 1) bi_radix_pos ltac:(lia)).
  lia.
Qed.

Lemma nf_abs_bound bi : normal_form bi -> Z.abs (cell_val bi) < bi_radix ^ Z.of_nat (num_comps bi).
Proof. intros Hn. rewrite nf_abs by done. apply (digits_bound (comps bi)). apply Hn. Qed.

(** The sums of halves still fit the next recursion. *)
Lemma half_sum_bound k n x y : 0 <= x < bi_radix ^ Z.of_nat n -> 0 <= y < bi_radix ^ Z.of_nat n ->
  (n + 1 <= k)%nat ->
  Z.abs x < bi_radix ^ Z.of_nat k /\ Z.abs y < bi_radix ^ Z.of_nat k /\
  Z.abs (x + y) < bi_radix ^ Z.of_nat k.
Proof.
  intros Hx Hy Hk.
  pose proof (Z.pow_le_mono_r bi_radix (Z.of_nat n + 1) (Z.of_nat k) bi_radix_pos ltac:(lia)) as H.
  rewrite Z.pow_add_r, Z.pow_1_r in H by lia. unfold bi_radix in *.
  set (R := 2147483648 ^ Z.of_nat n) in *. lia.
Qed.

(** [(i R^n + j) (k R^n + l)] from three products. *)
Lemma karatsuba_value g g' n ca cb cm ci cj i j k l :
  normal_form ca -> normal_form cb -> normal_form cm -> normal_form ci -> normal_form cj ->
  val (comps ca) = j + bi_radix ^ Z.of_nat n * i -> val (comps cb) = l + bi_radix ^ Z.of_nat n * k ->
  0 <= i -> 0 <= j -> 0 <= k -> 0 <= l ->
  cell_val ci = i * k -> cell_val cj = j * l ->
  cell_val cm = (i + j) * (k + l) - i * k - j * l ->
  let c := normalize g' (set_sign (sign ca * sign cb) (karatsuba_loops g n cm ci cj)) in
  normal_form c /\ cell_val c = cell_val ca * cell_val cb.
Proof.
  intros Ha Hb Hm Hi Hj Ea Eb Pi Pj Pk Pl Ei Ej Em. cbn zeta.
  assert (is_sign (sign ca * sign cb)) as Hs
    by (destruct (nf_sign _ Ha) as [-> | ->], (nf_sign _ Hb) as [-> | ->]; unfold is_sign; lia).
  destruct (karatsuba_loops_ok g g' n (sign ca * sign cb) cm ci cj Hs Hm Hi Hj) as [H1 H2].
  split; [done|]. rewrite H2, <- !nf_abs by done. rewrite Ei, Ej, Em.
  rewrite !Z.abs_eq by nia. unfold cell_val. rewrite Ea, Eb, Nat2Z.inj_mul, Z.pow_mul_r by lia.
  change (Z.of_nat 2) with 2. rewrite Z.pow_2_r. ring.
Qed.

Lemma set_sign_id bi : set_sign (sign bi) bi = bi.
Proof. by destruct bi. Qed.

(** [(i R^n + j)^2] from three squares. *)
Lemma karatsuba_square_value g g' n c cm ci cj i j :
  normal_form c -> normal_form cm -> normal_form ci -> normal_form cj ->
  val (comps c) = j + bi_radix ^ Z.of_nat n * i -> 0 <= i -> 0 <= j ->
  cell_val ci = i * i -> cell_val cj = j * j ->
  cell_val cm = (i + j) * (i + j) - i * i - j * j ->
  let c' := normalize g' (karatsuba_loops g n cm ci cj) in
  normal_form c' /\ cell_val c' = cell_val c * cell_val c.
Proof.
  intros Hc Hm Hi Hj Ec Pi Pj Ei Ej Em. cbn zeta.
  assert (sign cj = 1) as Hs.
  { destruct (nf_sign _ Hj) as [|Es]; [done|]. apply (nf_neg _ Hj) in Es. nia. }
  assert (set_sign 1 (karatsuba_loops g n cm ci cj) = karatsuba_loops g n cm ci cj) as <-
    by (rewrite <- Hs; apply (set_sign_id (karatsuba_loops g n cm ci cj))).
  destruct (karatsuba_loops_ok g g' n 1 cm ci cj (or_introl eq_refl) Hm Hi Hj) as [H1 H2].
  split; [done|]. rewrite H2, <- !nf_abs by done. rewrite Ei, Ej, Em, !Z.abs_eq by nia.
  transitivity (val (comps c) * val (comps c)); [|rewrite <- (nf_abs c Hc); lia].
  rewrite Ec, Nat2Z.inj_mul, Z.pow_mul_r by lia. change (Z.of_nat 2) with 2. rewrite Z.pow_2_r. ring.
Qed.
