(* ===== verification/BigHeap.v ===== *)
(** * The bigint allocator (src/math/bigint/bigint_int.c)

    Reference counts, the active and free lists, the consistency checks, and
    [alloc], [clone], [bi_copy], [bi_permanent], [bi_depermanent], [bi_free].

    [owns E s G X] is the ownership invariant of the package's calling
    convention ("each number can be used precisely once, after which it is
    automatically de-allocated"): the caller holds exactly the references [G],
    each with the integer it stands for, and the objects [X] under
    construction; every live object that is not permanent has as many
    references as it has entries in [G] and [X].  All specifications have the
    form "consume the arguments' entries, produce the result's", with the rest
    of [G] as an arbitrary frame; so composing them proves memory safety, the
    absence of leaks and functional correctness at once. *)

From Stdlib Require Import ZArith Lia.
From stdpp Require Import base numbers list gmap strings.
From S2P Require Import Prelude BigComps BigCell.

Open Scope Z_scope.

(** ** State *)

(** A [bigint] is the address of a [struct _real_bigint]; 0 is NULL. *)
Abbreviation bigint := N (only parsing).

Definition PERMANENT : Z := 123456789.

(** The pre-initialized numbers. *)
Record constants : Type := Constants {
  bi_0 : bigint; bi_1 : bigint; bi_2 : bigint; bi_3 : bigint;
  bi_m1 : bigint; bi_maxint : bigint; bi_minint : bigint
}.

(** The part of libc the package uses: the values [random()] will return, the
    characters [getc] will read, those [putc] has written (latest first). *)
Record world : Type := World {
  random_values : nat -> Z;
  random_next : nat;
  input : list Z;
  output : list Z
}.

(** The static variables of bigint_int.c and the objects malloc has returned.
    [garbage] is the content of fresh memory: theorems hold for any. *)
Record state : Type := State {
  heap : gmap N real_bigint;
  next_addr : N;
  active_list : list bigint;
  free_list : list bigint;
  active_count : Z;
  free_count : Z;
  check_level : Z;
  garbage : Z;
  globals : constants;
  the_world : world
}.

Abbreviation M := (prog state).

Definition with_heap (h : gmap N real_bigint) (s : state) : state :=
  State h (next_addr s) (active_list s) (free_list s) (active_count s) (free_count s)
    (check_level s) (garbage s) (globals s) (the_world s).
Definition with_lists (al fl : list bigint) (ac fc : Z) (s : state) : state :=
  State (heap s) (next_addr s) al fl ac fc (check_level s) (garbage s) (globals s) (the_world s).
Definition with_new (h : gmap N real_bigint) (s : state) : state :=
  State h (next_addr s + 1) (active_list s) (free_list s) (active_count s) (free_count s)
    (check_level s) (garbage s) (globals s) (the_world s).
Definition with_check_level (l : Z) (s : state) : state :=
  State (heap s) (next_addr s) (active_list s) (free_list s) (active_count s) (free_count s)
    l (garbage s) (globals s) (the_world s).
Definition with_globals (g : constants) (s : state) : state :=
  State (heap s) (next_addr s) (active_list s) (free_list s) (active_count s) (free_count s)
    (check_level s) (garbage s) g (the_world s).
Definition with_world (w : world) (s : state) : state :=
  State (heap s) (next_addr s) (active_list s) (free_list s) (active_count s) (free_count s)
    (check_level s) (garbage s) (globals s) w.

(** ** Code *)

(** [*bi] and the assignment [*bi = c]. *)
Definition deref (bi : bigint) : M real_bigint :=
  s ← get_state;
  match heap s !! bi with
  | Some c => mret c
  | None => fail Bad_pointer
  end.
Definition store (bi : bigint) (c : real_bigint) : M unit :=
  s ← get_state;
  match heap s !! bi with
  | Some _ => set_state (with_heap (<[bi := c]> (heap s)) s)
  | None => fail Bad_pointer
  end.

(** [bi->next != 0]: [bi] has a successor on the list it is on. *)
Fixpoint has_next (bi : bigint) (l : list bigint) : bool :=
  match l with
  | p :: ((_ :: _) as l') => (p =? bi)%N || has_next bi l'
  | _ => false
  end.

Fixpoint mem_list (bi : bigint) (l : list bigint) : bool :=
  match l with
  | [] => false
  | p :: l => (p =? bi)%N || mem_list bi l
  end.

(** The removal loop of [bi_free]. *)
Fixpoint unlink (bi : bigint) (l : list bigint) : list bigint :=
  match l with
  | [] => []
  | p :: l => if (p =? bi)%N then l else p :: unlink bi l
  end.

Fixpoint walk (bad : real_bigint -> bool) (msg : string) (l : list bigint) : M unit :=
  match l with
  | [] => mret tt
  | p :: l => c ← deref p; signal_if (bad c) msg;; walk bad msg l
  end.

Definition double_check : M unit :=
  s ← get_state;
  walk (fun p => negb (refs p =? 0)) "double_check: found a non-zero ref on the free list" (free_list s);;
  signal_if (negb (Z.of_nat (length (free_list s)) =? free_count s))
    "double_check: free_count is %d but the free list has %d items".

Definition triple_check : M unit :=
  s ← get_state;
  walk (fun p => refs p =? 0) "triple_check: found a zero ref on the active list" (active_list s);;
  signal_if (negb (Z.of_nat (length (active_list s)) =? active_count s))
    "triple_check: active_count is %d but active_list has %d items".

Definition check (bi : bigint) : M unit :=
  s ← get_state;
  if check_level s =? 0 then mret tt else
  c ← deref bi;
  signal_if (refs c =? 0) "check: zero refs in bigint";;
  signal_if (refs c <? 0) "check: negative refs in bigint";;
  (if check_level s <? 3
   then signal_if (has_next bi (free_list s) || has_next bi (active_list s))
          "check: attempt to use a bigint from the free list"
   else signal_if (negb (mem_list bi (active_list s)))
          "check: attempt to use a bigint not on the active list");;
  (if 2 <=? check_level s then double_check else mret tt);;
  (if 3 <=? check_level s then triple_check else mret tt).

(** [alloc]: recycle the head of the free list, or malloc. *)
Definition alloc (num : nat) : M bigint :=
  s ← get_state;
  biR ← match free_list s with
    | biR :: rest =>
        set_state (with_lists (active_list s) rest (active_count s) (free_count s - 1) s);;
        c ← deref biR;
        signal_if ((1 <=? check_level s) && negb (refs c =? 0)) "alloc: refs was not 0";;
        store biR (more_comps (garbage s) num c);;
        mret biR
    | [] =>
        let biR := next_addr s in
        set_state (with_new (<[biR := {| refs := garbage s; sign := garbage s;
          comps := replicate num (garbage s); slack := [] |}]> (heap s)) s);;
        mret biR
    end;
  c ← deref biR;
  store biR (set_refs 1 (set_array num (array c) c));;
  s ← get_state;
  set_state (with_lists
    (if 3 <=? check_level s then biR :: active_list s else active_list s)
    (free_list s) (active_count s + 1) (free_count s) s);;
  mret biR.

Definition bi_copy (bi : bigint) : M bigint :=
  check bi;;
  c ← deref bi;
  (if negb (refs c =? PERMANENT) then store bi (set_refs (refs c + 1) c) else mret tt);;
  mret bi.

Definition bi_permanent (bi : bigint) : M unit :=
  check bi;;
  s ← get_state;
  c ← deref bi;
  signal_if ((1 <=? check_level s) && negb (refs c =? 1)) "bi_permanent: refs was not 1";;
  store bi (set_refs PERMANENT c).

Definition bi_depermanent (bi : bigint) : M unit :=
  check bi;;
  s ← get_state;
  c ← deref bi;
  signal_if ((1 <=? check_level s) && negb (refs c =? PERMANENT))
    "bi_depermanent: bigint was not permanent";;
  store bi (set_refs 1 c).

Definition bi_free (bi : bigint) : M unit :=
  check bi;;
  c ← deref bi;
  if refs c =? PERMANENT then mret tt else
  store bi (set_refs (refs c - 1) c);;
  if 0 <? refs c - 1 then mret tt else
  s ← get_state;
  set_state (with_lists
    (if 3 <=? check_level s then unlink bi (active_list s) else active_list s)
    (bi :: free_list s) (active_count s - 1) (free_count s + 1) s);;
  signal_if ((1 <=? check_level s) && (active_count s - 1 <? 0))
    "bi_free: active_count went negative - double-freed bigint?".

(** [clone]: "Make a modifiable copy of bi.  DOES consume bi." *)
Definition clone (bi : bigint) : M bigint :=
  c ← deref bi;
  if negb (refs c =? PERMANENT) && (refs c =? 1) then mret bi else
  biR ← alloc (num_comps c);
  c ← deref bi;
  r ← deref biR;
  store biR (set_comps (comps c) (set_sign (sign c) r));;
  bi_free bi;;
  mret biR.

(** The object pointed to is changed in place by [f], given the fresh-memory content. *)
Definition update (bi : bigint) (f : Z -> real_bigint -> real_bigint) : M unit :=
  s ← get_state;
  c ← deref bi;
  store bi (f (garbage s) c).

Definition bi_no_check : M unit :=
  s ← get_state; set_state (with_check_level 0 s).

(** ** The ownership invariant *)

Definition refs_in (p : bigint) (l : list bigint) : Z := Z.of_nat (count_occ N.eq_dec l p).

Definition live (s : state) (p : bigint) (c : real_bigint) : Prop :=
  heap s !! p = Some c /\ p ∉ free_list s.

Record well_formed (s : state) : Prop := WellFormed {
  wf_level : check_level s = 0 \/ check_level s = 3;
  wf_addr : forall p c, heap s !! p = Some c -> (0 < p < next_addr s)%N;
  wf_null : (0 < next_addr s)%N;
  wf_free_nodup : NoDup (free_list s);
  wf_free : forall p, p ∈ free_list s -> exists c, heap s !! p = Some c /\ refs c = 0;
  wf_live : forall p c, live s p c -> 1 <= refs c;
  wf_free_count : free_count s = Z.of_nat (length (free_list s));
  wf_active_count : active_count s = Z.of_nat (size (heap s)) - Z.of_nat (length (free_list s));
  wf_active : check_level s = 3 ->
    NoDup (active_list s) /\ Z.of_nat (length (active_list s)) = active_count s /\
    forall p, p ∈ active_list s <-> exists c, live s p c
}.

(** What stays fixed while the package computes: the permanent bigints with their
    values, the constants, the check level and the outside world. *)
Record env : Type := Env {
  e_permanent : list (bigint * Z);
  e_globals : constants;
  e_level : Z;
  e_world : world
}.

Definition handles (G : list (bigint * Z)) (X : list (bigint * real_bigint)) : list bigint :=
  map fst G ++ map fst X.

Record owns (E : env) (s : state) (G : list (bigint * Z)) (X : list (bigint * real_bigint)) : Prop := Owns {
  o_wf : well_formed s;
  o_permanent : forall p v, (p, v) ∈ e_permanent E ->
    exists c, live s p c /\ refs c = PERMANENT /\ normal_form c /\ cell_val c = v;
  o_own : forall p v, (p, v) ∈ G -> exists c, live s p c /\ normal_form c /\ cell_val c = v;
  o_raw : forall p c, (p, c) ∈ X ->
    live s p c /\ refs_in p (handles G X) = 1 /\ forall v, (p, v) ∉ e_permanent E;
  o_refs : forall p c, live s p c -> refs c = PERMANENT \/ refs c = refs_in p (handles G X);
  o_globals : globals s = e_globals E;
  o_level : check_level s = e_level E;
  o_world : the_world s = e_world E
}.

(** ** Lists of handles *)

Lemma refs_in_cons p q l : refs_in p (q :: l) = refs_in p l + (if N.eq_dec q p then 1 else 0).
Proof. unfold refs_in. simpl. destruct (N.eq_dec q p); lia. Qed.

Lemma refs_in_nonneg p l : 0 <= refs_in p l.
Proof. unfold refs_in. lia. Qed.

Lemma refs_in_app p l m : refs_in p (l ++ m) = refs_in p l + refs_in p m.
Proof. unfold refs_in. rewrite count_occ_app. lia. Qed.

Lemma refs_in_pos p l : 1 <= refs_in p l <-> p ∈ l.
Proof.
  unfold refs_in. rewrite list_elem_of_In, (count_occ_In N.eq_dec). lia.
Qed.

Lemma refs_in_perm p l m : l ≡ₚ m -> refs_in p l = refs_in p m.
Proof. intros H. unfold refs_in. f_equal. by apply (Permutation_count_occ N.eq_dec). Qed.

Lemma handle_own p v G X : (p, v) ∈ G -> 1 <= refs_in p (handles G X).
Proof.
  intros H. apply refs_in_pos. apply elem_of_app. left.
  apply list_elem_of_In, in_map_iff. exists (p, v). split; [done | by apply list_elem_of_In].
Qed.

Lemma handle_raw p c G X : (p, c) ∈ X -> 1 <= refs_in p (handles G X).
Proof.
  intros H. apply refs_in_pos. apply elem_of_app. right.
  apply list_elem_of_In, in_map_iff. exists (p, c). split; [done | by apply list_elem_of_In].
Qed.

Lemma refs_in_handles_cons q p v G X :
  refs_in q (handles ((p, v) :: G) X) = refs_in q (handles G X) + (if N.eq_dec p q then 1 else 0).
Proof. unfold handles. simpl app. apply refs_in_cons. Qed.

Lemma refs_in_handles_raw q p c G X :
  refs_in q (handles G ((p, c) :: X)) = refs_in q (handles G X) + (if N.eq_dec p q then 1 else 0).
Proof. unfold handles. rewrite !refs_in_app. simpl map. rewrite refs_in_cons. lia. Qed.

(** The handles are a multiset: their order does not matter. *)
Lemma owns_perm E s G G' X : owns E s G X -> G ≡ₚ G' -> owns E s G' X.
Proof.
  intros [H1 H2 H3 H4 H5 H6 H7 H8] HP. split; auto.
  - intros p v Hp. apply H3. by rewrite HP.
  - intros p c Hp. destruct (H4 p c Hp) as (? & Hr & ?). split; [done|]. split; [|done].
    rewrite <- Hr. apply refs_in_perm. unfold handles. by rewrite HP.
  - intros p c Hp. destruct (H5 p c Hp) as [?|E0]; [by left|right]. rewrite E0.
    apply refs_in_perm. unfold handles. by rewrite HP.
Qed.

#[export] Instance owns_proper E s :
  Proper ((≡ₚ) ==> eq ==> iff) (owns E s).
Proof. intros G G' HG X X' <-. split; intros H; eapply owns_perm; eauto. by symmetry. Qed.

Lemma owns_raw_perm E s G X X' : owns E s G X -> X ≡ₚ X' -> owns E s G X'.
Proof.
  intros [H1 H2 H3 H4 H5 H6 H7 H8] HP. split; auto.
  - intros p c Hp. rewrite <- HP in Hp. destruct (H4 p c Hp) as (? & Hr & ?).
    split; [done|]. split; [|done].
    rewrite <- Hr. apply refs_in_perm. unfold handles. by rewrite HP.
  - intros p c Hp. destruct (H5 p c Hp) as [?|E0]; [by left|right]. rewrite E0.
    apply refs_in_perm. unfold handles. by rewrite HP.
Qed.

(** A permanent bigint may be used as often as one likes. *)
Lemma owns_use E s G X p v : owns E s G X -> (p, v) ∈ e_permanent E -> owns E s ((p, v) :: G) X.
Proof.
  intros [H1 H2 H3 H4 H5 H6 H7 H8] Hp. destruct (H2 p v Hp) as (c & Hl & Hr & Hn & Hv).
  split; auto.
  - intros q w [[= -> ->]|Hq]%elem_of_cons; [by exists c | auto].
  - intros q d Hq. destruct (H4 q d Hq) as (? & Hr1 & Hnp). split; [done|]. split; [|done].
    rewrite refs_in_handles_cons. destruct (N.eq_dec p q) as [->|]; [by destruct (Hnp v) | lia].
  - intros q d Hd. rewrite refs_in_handles_cons.
    destruct (N.eq_dec p q) as [<-|]; [|rewrite Z.add_0_r; auto].
    left. destruct Hl as [Hl _], Hd as [Hd _]. congruence.
Qed.

(** ** List facts *)

Lemma mem_list_true p l : mem_list p l = true <-> p ∈ l.
Proof.
  induction l as [|q l IH]; simpl; [split; [done | by intros ?%elem_of_nil]|].
  rewrite orb_true_iff, N.eqb_eq, IH, elem_of_cons. intuition auto.
Qed.

Lemma unlink_elem p q l : NoDup l -> (q ∈ unlink p l <-> q ∈ l /\ q <> p).
Proof.
  induction 1 as [|x l Hx Hl IH]; simpl; [rewrite elem_of_nil; tauto|].
  destruct (N.eqb_spec x p) as [->|Hne].
  - rewrite elem_of_cons. split; [|intuition auto]. intros Hq. split; [auto|]. by intros ->.
  - rewrite !elem_of_cons, IH. intuition congruence.
Qed.

Lemma unlink_nodup p l : NoDup l -> NoDup (unlink p l).
Proof.
  induction 1 as [|x l Hx Hl IH]; simpl; [constructor|].
  destruct (N.eqb_spec x p) as [->|Hne]; [done|]. constructor; [|done].
  rewrite unlink_elem by done. tauto.
Qed.

Lemma unlink_length p l : p ∈ l -> S (length (unlink p l)) = length l.
Proof.
  induction l as [|x l IH]; simpl; [by intros ?%elem_of_nil|].
  intros [->|H]%elem_of_cons; [by rewrite N.eqb_refl|].
  destruct (N.eqb_spec x p); [done|]. simpl. by rewrite IH.
Qed.

(** ** Programs on the heap *)

Lemma wp_deref s p c (Q : real_bigint -> state -> Prop) :
  heap s !! p = Some c -> Q c s -> wp (fun _ => deref p) s Q.
Proof.
  intros H HQ. unfold deref. apply wp_bind, wp_get_state. rewrite H. by apply wp_ret.
Qed.

Lemma wp_store s p c c0 (Q : unit -> state -> Prop) :
  heap s !! p = Some c0 -> Q tt (with_heap (<[p := c]> (heap s)) s) ->
  wp (fun _ => store p c) s Q.
Proof.
  intros H HQ. unfold store. apply wp_bind, wp_get_state. rewrite H. by apply wp_set_state.
Qed.

Lemma wp_walk bad msg l s (Q : unit -> state -> Prop) :
  (forall p, p ∈ l -> exists c, heap s !! p = Some c /\ bad c = false) -> Q tt s ->
  wp (fun _ => walk bad msg l) s Q.
Proof.
  intros H HQ. induction l as [|p l IH]; [by apply wp_ret|]. cbn [walk].
  destruct (H p) as (c & Hc & Hb); [by left|].
  apply wp_bind, (wp_deref s p c); [done|]. apply wp_bind, wp_signal_if; [done|].
  apply IH. intros q Hq. apply H. by right.
Qed.

Lemma wp_double_check s (Q : unit -> state -> Prop) :
  well_formed s -> Q tt s -> wp (fun _ => double_check) s Q.
Proof.
  intros Hwf HQ. unfold double_check. apply wp_bind, wp_get_state. apply wp_bind, wp_walk.
  { intros q Hq. destruct (wf_free _ Hwf q Hq) as (d & Hd & Hd0). exists d. by rewrite Hd0. }
  apply wp_signal_if; [|done]. rewrite (wf_free_count _ Hwf). by rewrite Z.eqb_refl.
Qed.

Lemma wp_triple_check s (Q : unit -> state -> Prop) :
  well_formed s -> check_level s = 3 -> Q tt s -> wp (fun _ => triple_check) s Q.
Proof.
  intros Hwf E HQ. destruct (wf_active _ Hwf E) as (Hnd & Hlen & Ha).
  unfold triple_check. apply wp_bind, wp_get_state. apply wp_bind, wp_walk.
  { intros q Hq. apply Ha in Hq as (d & Hd). pose proof (wf_live _ Hwf q d Hd) as Hd1.
    destruct Hd as [Hd _]. exists d. split; [done|]. apply Z.eqb_neq. lia. }
  apply wp_signal_if; [|done]. rewrite Hlen. by rewrite Z.eqb_refl.
Qed.

Lemma wp_check s p c (Q : unit -> state -> Prop) :
  well_formed s -> live s p c -> Q tt s -> wp (fun _ => check p) s Q.
Proof.
  intros Hwf Hl HQ. unfold check. apply wp_bind, wp_get_state.
  destruct (wf_level _ Hwf) as [E|E]; rewrite E; simpl; [by apply wp_ret|].
  pose proof (wf_live _ Hwf p c Hl) as Hr.
  apply wp_bind, (wp_deref s p c); [apply Hl|].
  apply wp_bind, wp_signal_if; [by apply Z.eqb_neq; lia|].
  apply wp_bind, wp_signal_if; [by apply Z.ltb_ge; lia|].
  apply wp_bind, wp_signal_if.
  { apply negb_false_iff, mem_list_true. apply (wf_active _ Hwf E). by exists c. }
  apply wp_bind, wp_double_check; [done|]. by apply wp_triple_check.
Qed.

(** ** Writing to a live object *)

Lemma live_store s p q c d :
  live (with_heap (<[p := c]> (heap s)) s) q d <->
  (q = p /\ d = c /\ p ∉ free_list s) \/ (q <> p /\ live s q d).
Proof.
  unfold live. cbn [heap with_heap free_list]. destruct (N.eq_dec q p) as [->|Hne].
  - rewrite lookup_insert_eq. split; [intros [[= ->] ?]; auto|]. intros [(_ & -> & ?)|[? _]]; done.
  - rewrite lookup_insert_ne by done. split; [auto|]. by intros [(-> & _)|[_ ?]].
Qed.

Lemma wf_store s p c0 c :
  well_formed s -> live s p c0 -> 1 <= refs c -> well_formed (with_heap (<[p := c]> (heap s)) s).
Proof.
  intros [H1 H2 H3 H4 H5 H6 H7 H8 H9] [Hp Hpf] Hr. split; auto.
  - cbn [heap with_heap next_addr]. intros q d Hq. destruct (N.eq_dec q p) as [->|].
    + eauto.
    + rewrite lookup_insert_ne in Hq by done. eauto.
  - cbn [heap with_heap free_list]. intros q Hq. rewrite lookup_insert_ne; [auto|]. by intros ->.
  - intros q d [(-> & -> & _)|[_ Hq]]%live_store; eauto.
  - cbn [heap with_heap active_count free_list]. rewrite map_size_insert_Some; [done|by eexists].
  - intros E. destruct (H9 E) as (Ha & Hb & Hc). split; [done|]. split; [done|].
    cbn [active_list with_heap]. intros q. rewrite Hc. split; intros (d & Hd).
    + destruct (N.eq_dec q p) as [->|]; [exists c|exists d]; apply live_store; auto.
    + apply live_store in Hd as [(-> & -> & _)|[_ Hd]]; [exists c0; done | by exists d].
Qed.

Definition own_value (s : state) (p : bigint) (v : Z) : Prop :=
  exists c, live s p c /\ normal_form c /\ cell_val c = v.

Lemma live_fun s p c d : live s p c -> live s p d -> c = d.
Proof. intros [H1 _] [H2 _]. congruence. Qed.

(** The object under construction is referenced from nowhere else. *)
Lemma owns_raw_unique E s G p c X : owns E s G ((p, c) :: X) ->
  live s p c /\ refs_in p (handles G X) = 0 /\ (forall v, (p, v) ∉ e_permanent E) /\
  (refs c = PERMANENT \/ refs c = 1).
Proof.
  intros HO. destruct (o_raw _ _ _ _ HO p c) as (Hl & Hr & Hnp); [by left|].
  split; [done|]. destruct (o_refs _ _ _ _ HO p c Hl) as [E1|E1].
  - split; [|auto]. rewrite refs_in_handles_raw in Hr. destruct (N.eq_dec p p); [lia | done].
  - split; [|split; [done | right; lia]].
    rewrite refs_in_handles_raw in Hr. destruct (N.eq_dec p p); [lia | done].
Qed.

Lemma own_not_raw E s G X p v q d :
  owns E s ((p, v) :: G) X -> (q, d) ∈ X -> q <> p.
Proof.
  intros HO Hq ->. destruct (o_raw _ _ _ _ HO p d Hq) as (_ & Hr & _).
  rewrite refs_in_handles_cons in Hr. pose proof (handle_raw _ _ G _ Hq).
  destruct (N.eq_dec p p); [lia | done].
Qed.

Lemma owns_write E s G p c0 c X :
  owns E s G ((p, c0) :: X) -> refs c = refs c0 ->
  owns E (with_heap (<[p := c]> (heap s)) s) G ((p, c) :: X).
Proof.
  intros HO Hr. destruct (owns_raw_unique _ _ _ _ _ _ HO) as (Hl & H0 & Hnp & Hr0).
  pose proof (wf_live _ (o_wf _ _ _ _ HO) _ _ Hl) as Hr1.
  destruct HO as [H1 H2 H3 H4 H5 H6 H7 H8].
  split; auto.
  - eapply wf_store; eauto. lia.
  - intros q v Hq. destruct (H2 q v Hq) as (d & Hd & Hdr & ?). exists d. split; [|done].
    apply live_store. right. split; [|done]. intros ->. by apply (Hnp v).
  - intros q v Hq. destruct (H3 q v Hq) as (d & Hd & ?). exists d. split; [|done].
    apply live_store. right. split; [|done]. intros ->. pose proof (handle_own _ _ _ X Hq). lia.
  - intros q d [[= -> ->]|Hq]%elem_of_cons.
    + split; [|split; [|done]].
      * apply live_store. left. split; [done|]. split; [done|]. apply Hl.
      * rewrite refs_in_handles_raw, H0. destruct (N.eq_dec p p); [lia | done].
    + destruct (H4 q d) as (Hd & Hdr & ?); [by right|]. split; [|split; [|done]].
      * apply live_store. right. split; [|done]. intros ->. pose proof (handle_raw _ _ G _ Hq). lia.
      * rewrite <- Hdr. by rewrite !refs_in_handles_raw.
  - intros q d [(-> & -> & _)|[Hne Hd]]%live_store.
    + rewrite refs_in_handles_raw, H0, Hr. destruct (N.eq_dec p p); [tauto | done].
    + destruct (H5 q d Hd) as [?|E1]; [by left|right]. rewrite E1. by rewrite !refs_in_handles_raw.
Qed.

(** A finished object becomes an owned reference. *)
Lemma owns_finish E s G p c X :
  owns E s G ((p, c) :: X) -> normal_form c -> owns E s ((p, cell_val c) :: G) X.
Proof.
  intros HO Hn. destruct (owns_raw_unique _ _ _ _ _ _ HO) as (Hl & _).
  destruct HO as [H1 H2 H3 H4 H5 H6 H7 H8].
  assert (forall q, refs_in q (handles ((p, cell_val c) :: G) X) = refs_in q (handles G ((p, c) :: X))) as Eh
    by (intros q; by rewrite refs_in_handles_raw, refs_in_handles_cons).
  split; auto.
  - intros q v [[= -> ->]|Hq]%elem_of_cons; [by exists c | auto].
  - intros q d Hq. rewrite Eh. apply H4. by right.
  - intros q d Hd. rewrite Eh. auto.
Qed.

(** An owned reference that is the only one may be modified in place. *)
Lemma owns_open E s G p v X c :
  owns E s ((p, v) :: G) X -> live s p c ->
  refs_in p (handles G X) = 0 -> (forall w, (p, w) ∉ e_permanent E) ->
  owns E s G ((p, c) :: X).
Proof.
  intros [H1 H2 H3 H4 H5 H6 H7 H8] Hl Hr Hnp.
  assert (forall q, refs_in q (handles G ((p, c) :: X)) = refs_in q (handles ((p, v) :: G) X)) as Eh
    by (intros q; by rewrite refs_in_handles_raw, refs_in_handles_cons).
  split; auto.
  - intros q w Hq. apply H3. by right.
  - intros q d [[= -> ->]|Hq]%elem_of_cons; [|rewrite Eh; auto]. split; [done|]. split; [|done].
    rewrite refs_in_handles_raw, Hr. destruct (N.eq_dec p p); [lia | done].
  - intros q d Hd. rewrite Eh. auto.
Qed.

Lemma wp_update E s G p c X f (Q : unit -> state -> Prop) :
  owns E s G ((p, c) :: X) -> refs (f (garbage s) c) = refs c ->
  (forall s', owns E s' G ((p, f (garbage s) c) :: X) -> Q tt s') ->
  wp (fun _ => update p f) s Q.
Proof.
  intros HO Hr HQ. destruct (owns_raw_unique _ _ _ _ _ _ HO) as ([Hl _] & _).
  unfold update. apply wp_bind, wp_get_state. apply wp_bind, (wp_deref s p c); [done|].
  eapply wp_store; [done|]. apply HQ. by eapply owns_write.
Qed.

Lemma wp_check_own E s G p v X (Q : unit -> state -> Prop) :
  owns E s G X -> (p, v) ∈ G -> Q tt s -> wp (fun _ => check p) s Q.
Proof.
  intros HO Hp HQ. destruct (o_own _ _ _ _ HO p v Hp) as (c & Hl & _).
  eapply wp_check; eauto. by apply HO.
Qed.

Lemma wp_check_raw E s G p c X (Q : unit -> state -> Prop) :
  owns E s G X -> (p, c) ∈ X -> Q tt s -> wp (fun _ => check p) s Q.
Proof.
  intros HO Hp HQ. destruct (o_raw _ _ _ _ HO p c Hp) as (Hl & _).
  eapply wp_check; eauto. by apply HO.
Qed.

Lemma wp_deref_own E s G p v X (Q : real_bigint -> state -> Prop) :
  owns E s G X -> (p, v) ∈ G ->
  (forall c, live s p c -> normal_form c -> cell_val c = v -> Q c s) ->
  wp (fun _ => deref p) s Q.
Proof.
  intros HO Hp HQ. destruct (o_own _ _ _ _ HO p v Hp) as (c & Hl & Hn & Hv).
  apply (wp_deref s p c); [apply Hl | by apply HQ].
Qed.

(** ** [bi_copy] and [bi_free] *)

Lemma bi_copy_spec E s p v G X :
  owns E s ((p, v) :: G) X ->
  wp (fun _ => bi_copy p) s (fun r s' => r = p /\ owns E s' ((p, v) :: (p, v) :: G) X).
Proof.
  intros HO. destruct (o_own _ _ _ _ HO p v) as (c & Hl & Hn & Hv); [by left|].
  assert (forall q d, (q, d) ∈ X -> q <> p) as Hnx by (intros q d Hq; by eapply own_not_raw).
  unfold bi_copy. apply wp_bind. eapply wp_check; [apply HO | exact Hl |].
  apply wp_bind, (wp_deref s p c); [apply Hl|].
  destruct (Z.eqb_spec (refs c) PERMANENT) as [Ep|Ep]; cbn [negb].
  - apply wp_bind, wp_ret, wp_ret. split; [done|].
    destruct HO as [H1 H2 H3 H4 H5 H6 H7 H8]. split; auto.
    + intros q w [Hq|Hq]%elem_of_cons; [apply H3; rewrite Hq; by left | auto].
    + intros q d Hq. destruct (H4 q d Hq) as (? & Hr & ?). split; [done|]. split; [|done].
      rewrite refs_in_handles_cons. destruct (N.eq_dec p q) as [<-|]; [|lia]. by destruct (Hnx p d).
    + intros q d Hd. rewrite refs_in_handles_cons. destruct (N.eq_dec p q) as [<-|].
      * left. by rewrite (live_fun _ _ _ _ Hd Hl).
      * rewrite Z.add_0_r. auto.
  - apply wp_bind. eapply wp_store; [apply Hl|]. apply wp_ret. split; [done|].
    destruct HO as [H1 H2 H3 H4 H5 H6 H7 H8].
    assert (refs c = refs_in p (handles ((p, v) :: G) X)) as Er by (by destruct (H5 p c Hl)).
    pose proof (wf_live _ H1 _ _ Hl) as Hr1.
    assert (forall q w, (q, w) ∈ (p, v) :: G ->
      exists d, live (with_heap (<[p := set_refs (refs c + 1) c]> (heap s)) s) q d /\
                normal_form d /\ cell_val d = w) as Hown.
    { intros q w Hq. destruct (H3 q w Hq) as (d & Hd & Hdn & Hdv).
      destruct (N.eq_dec q p) as [->|Hne].
      - rewrite (live_fun _ _ _ _ Hd Hl) in *. exists (set_refs (refs c + 1) c).
        split; [|by destruct Hdn; split]. apply live_store. left. split; [done|]. split; [done|]. apply Hl.
      - exists d. split; [|done]. apply live_store. by right. }
    split; auto.
    + eapply wf_store; eauto. simpl. lia.
    + intros q w Hq. destruct (H2 q w Hq) as (d & Hd & Hdr & ?). exists d. split; [|done].
      apply live_store. right. split; [|done]. intros ->. by rewrite (live_fun _ _ _ _ Hd Hl) in Hdr.
    + intros q w [Hq|Hq]%elem_of_cons; [apply Hown; rewrite Hq; by left | by apply Hown].
    + intros q d Hq. destruct (H4 q d Hq) as (Hd & Hdr & ?). pose proof (Hnx q d Hq).
      split; [|split; [|done]].
      * apply live_store. by right.
      * rewrite refs_in_handles_cons. destruct (N.eq_dec p q); [congruence | lia].
    + intros q d [(-> & -> & _)|[Hne Hd]]%live_store.
      * right. cbn [refs set_refs]. rewrite Er, !refs_in_handles_cons. destruct (N.eq_dec p p); [lia | done].
      * destruct (H5 q d Hd) as [?|E1]; [by left|right]. rewrite E1, !refs_in_handles_cons.
        destruct (N.eq_dec p q); [congruence | lia].
Qed.

Lemma live_count s p c : well_formed s -> live s p c -> 1 <= active_count s.
Proof.
  intros Hwf [Hp Hf]. rewrite (wf_active_count _ Hwf).
  assert (length (p :: free_list s) <= size (heap s))%nat; [|simpl in *; lia].
  rewrite <- size_dom. rewrite <- (size_list_to_set (C := gset N) (p :: free_list s)).
  - apply subseteq_size. intros q. rewrite elem_of_list_to_set, elem_of_dom.
    intros [->|Hq]%elem_of_cons; [by eexists|].
    destruct (wf_free _ Hwf q Hq) as (d & Hd & _). by eexists.
  - constructor; [done | apply Hwf].
Qed.

(** Dropping one of several references. *)
Lemma owns_release E s p v G X c :
  owns E s ((p, v) :: G) X -> live s p c -> refs c <> PERMANENT -> 1 < refs c ->
  owns E (with_heap (<[p := set_refs (refs c - 1) c]> (heap s)) s) G X.
Proof.
  intros HO Hl Hnp Hr.
  assert (forall q d, (q, d) ∈ X -> q <> p) as Hnx by (intros q d Hq; by eapply own_not_raw).
  destruct HO as [H1 H2 H3 H4 H5 H6 H7 H8].
  assert (refs c = refs_in p (handles G X) + 1) as Er.
  { destruct (H5 p c Hl) as [?|E1]; [done|]. rewrite E1, refs_in_handles_cons.
    destruct (N.eq_dec p p); [lia | done]. }
  split; auto.
  - eapply wf_store; eauto. simpl. lia.
  - intros q w Hq. destruct (H2 q w Hq) as (d & Hd & Hdr & ?). exists d. split; [|done].
    apply live_store. right. split; [|done]. intros ->. by rewrite (live_fun _ _ _ _ Hd Hl) in Hdr.
  - intros q w Hq. destruct (H3 q w) as (d & Hd & Hdn & Hdv); [by right|].
    destruct (N.eq_dec q p) as [->|Hne].
    + rewrite (live_fun _ _ _ _ Hd Hl) in *. exists (set_refs (refs c - 1) c).
      split; [|by destruct Hdn; split]. apply live_store. left. split; [done|]. split; [done|]. apply Hl.
    + exists d. split; [|done]. apply live_store. by right.
  - intros q d Hq. destruct (H4 q d Hq) as (Hd & Hdr & ?). pose proof (Hnx q d Hq).
    split; [|split; [|done]].
    + apply live_store. by right.
    + rewrite refs_in_handles_cons in Hdr. destruct (N.eq_dec p q); [congruence | lia].
  - intros q d [(-> & -> & _)|[Hne Hd]]%live_store.
    + right. cbn [refs set_refs]. lia.
    + destruct (H5 q d Hd) as [?|E1]; [by left|right]. rewrite E1, refs_in_handles_cons.
      destruct (N.eq_dec p q); [congruence | lia].
Qed.

(** The state after the last reference to [p] was dropped. *)
Definition freed (s : state) (p : bigint) (c : real_bigint) : state :=
  let s1 := with_heap (<[p := set_refs (refs c - 1) c]> (heap s)) s in
  with_lists (if 3 <=? check_level s then unlink p (active_list s) else active_list s)
    (p :: free_list s) (active_count s - 1) (free_count s + 1) s1.

Lemma live_freed s p c q d : live (freed s p c) q d <-> q <> p /\ live s q d.
Proof.
  unfold live, freed. cbn [heap with_heap with_lists free_list]. rewrite not_elem_of_cons.
  destruct (N.eq_dec q p) as [->|Hne]; [tauto|]. rewrite lookup_insert_ne by done. tauto.
Qed.

Lemma wf_freed s p c : well_formed s -> live s p c -> refs c = 1 -> well_formed (freed s p c).
Proof.
  intros Hwf Hl Hr. pose proof Hwf as [H1 H2 H3 H4 H5 H6 H7 H8 H9]. split; auto.
  - unfold freed. cbn [heap with_heap with_lists next_addr]. intros q d Hq.
    destruct (N.eq_dec q p) as [->|]; [|rewrite lookup_insert_ne in Hq by done; eauto].
    destruct Hl as [Hl _]. eauto.
  - constructor; [apply Hl | done].
  - unfold freed. cbn [heap with_heap with_lists free_list].
    intros q [->|Hq]%elem_of_cons.
    + rewrite lookup_insert_eq. eexists. split; [done|]. simpl. lia.
    + rewrite lookup_insert_ne; [auto|]. intros ->. by destruct Hl.
  - intros q d [_ Hd]%live_freed. eauto.
  - unfold freed. cbn [free_count free_list with_lists]. simpl length. lia.
  - unfold freed. cbn [active_count heap with_heap free_list with_lists].
    rewrite map_size_insert_Some by (eexists; apply Hl). simpl length. lia.
  - unfold freed. cbn [check_level with_lists with_heap active_list active_count]. intros E.
    destruct (H9 E) as (Ha & Hb & Hc). rewrite E. simpl.
    assert (p ∈ active_list s) as Hpa by (apply Hc; by exists c).
    split; [by apply unlink_nodup|]. split; [pose proof (unlink_length p _ Hpa); lia|].
    intros q. rewrite unlink_elem, Hc by done. setoid_rewrite live_freed.
    split; [intros [(d & Hd) Hne]; by exists d|]. intros (d & Hne & Hd). split; [by exists d | done].
Qed.

Lemma owns_freed E s p v G X c :
  owns E s ((p, v) :: G) X -> live s p c -> refs c = 1 -> owns E (freed s p c) G X.
Proof.
  intros HO Hl Hr.
  assert (forall q d, (q, d) ∈ X -> q <> p) as Hnx by (intros q d Hq; by eapply own_not_raw).
  destruct HO as [H1 H2 H3 H4 H5 H6 H7 H8].
  assert (refs_in p (handles G X) = 0) as E0.
  { destruct (H5 p c Hl) as [E1|E1]; [unfold PERMANENT in E1; lia|].
    rewrite refs_in_handles_cons in E1. destruct (N.eq_dec p p); [lia | done]. }
  split; auto.
  - by apply wf_freed.
  - intros q w Hq. destruct (H2 q w Hq) as (d & Hd & Hdr & ?). exists d. split; [|done].
    apply live_freed. split; [|done]. intros ->. rewrite (live_fun _ _ _ _ Hd Hl) in Hdr.
    unfold PERMANENT in Hdr. lia.
  - intros q w Hq. destruct (H3 q w) as (d & Hd & Hdn); [by right|]. exists d. split; [|done].
    apply live_freed. split; [|done]. intros ->. pose proof (handle_own _ _ _ X Hq). lia.
  - intros q d Hq. destruct (H4 q d Hq) as (Hd & Hdr & ?). pose proof (Hnx q d Hq).
    split; [|split; [|done]].
    + by apply live_freed.
    + rewrite refs_in_handles_cons in Hdr. destruct (N.eq_dec p q); [congruence | lia].
  - intros q d [Hne Hd]%live_freed.
    destruct (H5 q d Hd) as [?|E1]; [by left|right]. rewrite E1, refs_in_handles_cons.
    destruct (N.eq_dec p q); [congruence | lia].
Qed.

Lemma bi_free_spec E s p v G X :
  owns E s ((p, v) :: G) X -> wp (fun _ => bi_free p) s (fun _ s' => owns E s' G X).
Proof.
  intros HO. destruct (o_own _ _ _ _ HO p v) as (c & Hl & Hn & Hv); [by left|].
  unfold bi_free. apply wp_bind. eapply wp_check; [apply HO | exact Hl |].
  apply wp_bind, (wp_deref s p c); [apply Hl|].
  destruct (Z.eqb_spec (refs c) PERMANENT) as [Ep|Ep].
  - assert (forall q d, (q, d) ∈ X -> q <> p) as Hnx by (intros q d Hq; by eapply own_not_raw).
    apply wp_ret. destruct HO as [H1 H2 H3 H4 H5 H6 H7 H8]. split; auto.
    + intros q w Hq. apply H3. by right.
    + intros q d Hq. destruct (H4 q d Hq) as (Hd & Hdr & ?). pose proof (Hnx q d Hq).
      split; [done|]. split; [|done].
      rewrite refs_in_handles_cons in Hdr. destruct (N.eq_dec p q); [congruence | lia].
    + intros q d Hd. destruct (H5 q d Hd) as [?|E1]; [by left|]. rewrite refs_in_handles_cons in E1.
      destruct (N.eq_dec p q) as [<-|]; [left; by rewrite (live_fun _ _ _ _ Hd Hl)|].
      right. lia.
  - pose proof (wf_live _ (o_wf _ _ _ _ HO) _ _ Hl) as Hr1.
    apply wp_bind. eapply wp_store; [apply Hl|].
    destruct (Z.ltb_spec 0 (refs c - 1)) as [Hgt|Hle].
    + apply wp_ret. eapply owns_release; eauto. lia.
    + assert (refs c = 1) as Hr by lia.
      apply wp_bind, wp_get_state. apply wp_bind, wp_set_state. apply wp_signal_if.
      { cbn [active_count with_heap check_level]. apply andb_false_iff. right. apply Z.ltb_ge.
        pose proof (live_count s p c (o_wf _ _ _ _ HO) Hl). lia. }
      exact (owns_freed E s p v G X c HO Hl Hr).
Qed.

(** ** [alloc] *)

(** Bringing an unused address [p] (from the free list, or fresh) to life. *)
Definition allocated (s : state) (p : bigint) (fl : list bigint) (fc : Z) (na : N) (c : real_bigint)
  : state :=
  State (<[p := c]> (heap s)) na
    (if 3 <=? check_level s then p :: active_list s else active_list s)
    fl (active_count s + 1) fc (check_level s) (garbage s) (globals s) (the_world s).

Section allocated.
Context (s : state) (p : bigint) (fl : list bigint) (fc : Z) (na : N) (c : real_bigint).
Context (Hwf : well_formed s) (Hr : refs c = 1).
Context (Hcase : (free_list s = p :: fl /\ fc = free_count s - 1 /\ na = next_addr s) \/
                 (free_list s = [] /\ fl = [] /\ fc = free_count s /\
                  p = next_addr s /\ na = (next_addr s + 1)%N)).

Lemma allocated_not_live d : ~ live s p d.
Proof.
  intros [Hp Hf]. destruct Hcase as [(E & _)|(E & _ & _ & -> & _)].
  - apply Hf. rewrite E. by left.
  - pose proof (wf_addr _ Hwf _ _ Hp). lia.
Qed.

Lemma allocated_not_free : p ∉ fl.
Proof.
  destruct Hcase as [(E & _)|(_ & -> & _)]; [|by intros ?%elem_of_nil].
  pose proof (wf_free_nodup _ Hwf) as Hnd. rewrite E in Hnd. by inversion Hnd.
Qed.

Lemma live_allocated q d :
  live (allocated s p fl fc na c) q d <-> (q = p /\ d = c) \/ (q <> p /\ live s q d).
Proof.
  pose proof allocated_not_free as Hnf.
  unfold live, allocated. cbn [heap free_list]. destruct (N.eq_dec q p) as [->|Hne].
  - rewrite lookup_insert_eq. split; [intros [[= ->] _]; by left|].
    intros [[_ ->]|[Hne _]]; done.
  - rewrite lookup_insert_ne by done.
    assert (q ∉ fl <-> q ∉ free_list s) as ->.
    { destruct Hcase as [(-> & _)|(-> & -> & _)]; [|done]. rewrite not_elem_of_cons. tauto. }
    split; [auto|]. by intros [[-> _]|[_ H]].
Qed.

Lemma wf_allocated : well_formed (allocated s p fl fc na c).
Proof.
  pose proof allocated_not_live as Hnl. pose proof Hwf as [H1 H2 H3 H4 H5 H6 H7 H8 H9].
  assert (size (<[p := c]> (heap s)) + length (free_list s) = size (heap s) + length fl + 1)%nat as Hsz.
  { destruct Hcase as [(E & _)|(E & -> & _ & -> & _)]; rewrite E; simpl length.
    - destruct (H5 p) as (d & Hd & _); [rewrite E; by left|].
      rewrite map_size_insert_Some by (by eexists). lia.
    - rewrite map_size_insert_None; [lia|].
      destruct (heap s !! next_addr s) as [d|] eqn:Ed; [|done]. pose proof (H2 _ _ Ed). lia. }
  split; try done.
  - unfold allocated. cbn [heap next_addr]. intros q d Hq.
    destruct (N.eq_dec q p) as [->|]; [|rewrite lookup_insert_ne in Hq by done].
    + destruct Hcase as [(E & _ & ->)|(_ & _ & _ & -> & ->)]; [|lia].
      destruct (H5 p) as (e & He & _); [rewrite E; by left|]. eauto.
    + pose proof (H2 _ _ Hq). destruct Hcase as [(_ & _ & ->)|(_ & _ & _ & _ & ->)]; lia.
  - cbn [next_addr allocated]. destruct Hcase as [(_ & _ & ->)|(_ & _ & _ & _ & ->)]; lia.
  - cbn [free_list allocated]. destruct Hcase as [(E & _)|(_ & -> & _)]; [|constructor].
    rewrite E in H4. by inversion H4.
  - cbn [free_list allocated heap]. intros q Hq. pose proof allocated_not_free.
    rewrite lookup_insert_ne by (by intros ->). apply H5.
    destruct Hcase as [(-> & _)|(_ & -> & _)]; [by right | by apply elem_of_nil in Hq].
  - intros q d [(-> & ->)|[_ Hd]]%live_allocated; [lia | eauto].
  - cbn [free_count free_list allocated].
    destruct Hcase as [(E & -> & _)|(E & -> & -> & _)]; rewrite H7, E; simpl length; lia.
  - cbn [active_count heap free_list allocated]. lia.
  - cbn [check_level allocated active_list active_count]. intros E.
    destruct (H9 E) as (Ha & Hb & Hc). rewrite E. simpl. split; [|split; [lia|]].
    + constructor; [|done]. intros Hp. apply Hc in Hp as (d & Hd). by apply Hnl in Hd.
    + intros q. rewrite elem_of_cons, Hc. setoid_rewrite live_allocated. split.
      * intros [->|(d & Hd)]; [exists c; by left|]. exists d. right. split; [|done].
        intros ->. by apply Hnl in Hd.
      * intros (d & [[-> _]|[_ Hd]]); [by left | right; by exists d].
Qed.

Lemma owns_allocated E G X : owns E s G X -> owns E (allocated s p fl fc na c) G ((p, c) :: X).
Proof.
  intros [_ H2 H3 H4 H5 H6 H7 H8]. pose proof allocated_not_live as Hnl.
  assert (refs_in p (handles G X) = 0) as E0.
  { pose proof (refs_in_nonneg p (handles G X)).
    destruct (Z.le_gt_cases 1 (refs_in p (handles G X))) as [Hp|]; [|lia]. exfalso.
    apply refs_in_pos, elem_of_app in Hp as [Hp|Hp].
    - apply list_elem_of_In, in_map_iff in Hp as ((q & v) & <- & Hq).
      apply list_elem_of_In in Hq. destruct (H3 _ _ Hq) as (d & Hd & _). by apply Hnl in Hd.
    - apply list_elem_of_In, in_map_iff in Hp as ((q & d) & <- & Hq).
      apply list_elem_of_In in Hq. destruct (H4 _ _ Hq) as (Hd & _). by apply Hnl in Hd. }
  assert (forall q d, live s q d -> live (allocated s p fl fc na c) q d) as Hlive.
  { intros q d Hd. apply live_allocated. right. split; [|done]. intros ->. by apply Hnl in Hd. }
  split; auto.
  - apply wf_allocated.
  - intros q v Hq. destruct (H2 q v Hq) as (d & Hd & ?). exists d. split; [by apply Hlive | done].
  - intros q v Hq. destruct (H3 q v Hq) as (d & Hd & ?). exists d. split; [by apply Hlive | done].
  - intros q d [[= -> ->]|Hq]%elem_of_cons.
    + split; [apply live_allocated; by left|]. split.
      * rewrite refs_in_handles_raw, E0. destruct (N.eq_dec p p); [lia | done].
      * intros v Hv. destruct (H2 _ _ Hv) as (d & Hd & _). by apply Hnl in Hd.
    + destruct (H4 q d Hq) as (Hd & Hdr & ?). split; [by apply Hlive|]. split; [|done].
      rewrite refs_in_handles_raw. destruct (N.eq_dec p q) as [<-|]; [|lia]. by apply Hnl in Hd.
  - intros q d [(-> & ->)|[Hne Hd]]%live_allocated.
    + right. rewrite refs_in_handles_raw, E0, Hr. destruct (N.eq_dec p p); [lia | done].
    + destruct (H5 q d Hd) as [?|E1]; [by left|right]. rewrite E1, refs_in_handles_raw.
      destruct (N.eq_dec p q); [congruence | lia].
Qed.
End allocated.

Lemma length_array_more g n c : (n <= length (array (more_comps g n c)))%nat.
Proof.
  unfold array. cbn [comps slack more_comps]. rewrite !length_app, length_replicate. unfold num_comps. lia.
Qed.

Lemma alloc_spec E s n G X :
  owns E s G X ->
  wp (fun _ => alloc n) s (fun r s' =>
    exists c, num_comps c = n /\ refs c = 1 /\ owns E s' G ((r, c) :: X) /\
      forall q d, live s q d -> live s' q d).
Proof.
  intros HO. pose proof (o_wf _ _ _ _ HO) as Hwf. unfold alloc.
  apply wp_bind, wp_get_state.
  destruct (free_list s) as [|p rest] eqn:Ef; apply wp_bind.
  - apply wp_bind, wp_set_state, wp_ret.
    apply wp_bind. eapply wp_deref; [cbn [heap with_new]; apply lookup_insert_eq|].
    apply wp_bind. eapply wp_store; [cbn [heap with_new]; apply lookup_insert_eq|].
    apply wp_bind, wp_get_state. apply wp_bind, wp_set_state, wp_ret.
    cbn [heap with_new with_heap next_addr active_list free_list active_count free_count
         check_level garbage globals the_world].
    rewrite insert_insert_eq.
    set (c := set_refs 1 _).
    assert (num_comps c = n) as Hn.
    { unfold c, num_comps. cbn [comps set_refs set_array].
      rewrite length_take. unfold array. cbn [comps slack].
      rewrite length_app, length_replicate. simpl. lia. }
    pose proof (owns_allocated s (next_addr s) [] (free_count s) (next_addr s + 1)%N c Hwf eq_refl) as Ha.
    specialize (Ha ltac:(right; auto) E G X HO).
    exists c. split; [done|]. split; [done|]. unfold allocated in Ha. rewrite Ef. split; [exact Ha|].
    intros q d [Hd Hq]. split; cbn [heap free_list with_lists with_heap with_new].
    + rewrite lookup_insert_ne; [done|]. intros <-. pose proof (wf_addr _ Hwf _ _ Hd). lia.
    + by rewrite Ef in Hq.
  - destruct (wf_free _ Hwf p) as (c0 & Hp & Hr0); [rewrite Ef; by left|].
    apply wp_bind, wp_set_state.
    apply wp_bind. eapply wp_deref; [cbn [heap with_lists]; exact Hp|].
    apply wp_bind, wp_signal_if; [rewrite Hr0; simpl; apply andb_false_r|].
    apply wp_bind. eapply wp_store; [cbn [heap with_lists]; exact Hp|]. apply wp_ret.
    apply wp_bind. eapply wp_deref; [cbn [heap with_lists with_heap]; apply lookup_insert_eq|].
    apply wp_bind. eapply wp_store; [cbn [heap with_lists with_heap]; apply lookup_insert_eq|].
    apply wp_bind, wp_get_state. apply wp_bind, wp_set_state, wp_ret.
    cbn [heap with_lists with_heap next_addr active_list free_list active_count free_count
         check_level garbage globals the_world].
    rewrite insert_insert_eq.
    set (c := set_refs 1 _).
    assert (num_comps c = n) as Hn.
    { unfold c, num_comps. cbn [comps set_refs set_array]. rewrite length_take.
      pose proof (length_array_more (garbage s) n c0). lia. }
    pose proof (owns_allocated s p rest (free_count s - 1) (next_addr s) c Hwf eq_refl) as Ha.
    specialize (Ha ltac:(left; auto) E G X HO).
    exists c. split; [done|]. split; [done|]. split; [exact Ha|].
    intros q d [Hd Hq]. rewrite Ef, not_elem_of_cons in Hq.
    split; cbn [heap free_list with_lists with_heap with_new].
    + rewrite lookup_insert_ne; [done|]. intros <-. tauto.
    + tauto.
Qed.

(** ** [clone] *)

Lemma clone_spec E s p v G X :
  owns E s ((p, v) :: G) X ->
  wp (fun _ => clone p) s (fun r s' =>
    exists c, normal_form c /\ cell_val c = v /\ owns E s' G ((r, c) :: X)).
Proof.
  intros HO. destruct (o_own _ _ _ _ HO p v) as (c & Hl & Hn & Hv); [by left|].
  unfold clone. apply wp_bind, (wp_deref s p c); [apply Hl|].
  destruct (negb (refs c =? PERMANENT) && (refs c =? 1)) eqn:Eb.
  - apply andb_true_iff in Eb as [Enp%negb_true_iff%Z.eqb_neq Er%Z.eqb_eq]. apply wp_ret.
    exists c. split; [done|]. split; [done|]. eapply owns_open; eauto.
    + destruct (o_refs _ _ _ _ HO p c Hl) as [?|E1]; [done|]. rewrite refs_in_handles_cons in E1.
      destruct (N.eq_dec p p); [lia | done].
    + intros w Hw. destruct (o_permanent _ _ _ _ HO p w Hw) as (d & Hd & Hdr & _).
      by rewrite (live_fun _ _ _ _ Hd Hl) in Hdr.
  - eapply wp_call; [by apply alloc_spec|]. cbn beta.
    intros r s1 (r0 & Hrn & _ & HO1 & Hlive). specialize (Hlive p c Hl).
    apply wp_bind, (wp_deref s1 p c); [apply Hlive|].
    destruct (owns_raw_unique _ _ _ _ _ _ HO1) as (Hlr & _).
    apply wp_bind, (wp_deref s1 r r0); [apply Hlr|].
    apply wp_bind. eapply wp_store; [apply Hlr|].
    set (c1 := set_comps (comps c) (set_sign (sign c) r0)).
    pose proof (owns_write E s1 ((p, v) :: G) r r0 c1 X HO1 eq_refl) as HO2.
    eapply wp_call; [eapply bi_free_spec, HO2|]. cbn beta. intros _ s3 HO3.
    apply wp_ret. exists c1.
    split; [destruct Hn; by split|]. split; [exact Hv | exact HO3].
Qed.

(** The common shape of the operations: [biR = clone( bi ); ... biR ...; check( biR ); return biR;]. *)
Definition on_clone (bi : bigint) (f : Z -> real_bigint -> real_bigint) : M bigint :=
  biR ← clone bi;
  update biR f;;
  check biR;;
  mret biR.

Definition body_ok (f : Z -> real_bigint -> real_bigint) (v w : Z) : Prop :=
  forall g c, normal_form c -> cell_val c = v ->
    normal_form (f g c) /\ cell_val (f g c) = w /\ refs (f g c) = refs c.

Lemma on_clone_raw E s p v w f G X :
  owns E s ((p, v) :: G) X -> body_ok f v w ->
  wp (fun _ => on_clone p f) s (fun r s' =>
    exists c, normal_form c /\ cell_val c = w /\ owns E s' G ((r, c) :: X)).
Proof.
  intros HO Hf. unfold on_clone.
  eapply wp_call; [by apply clone_spec|]. cbn beta. intros r s1 (c & Hn & Hv & HO1).
  destruct (Hf (garbage s1) c Hn Hv) as (Hn' & Hv' & Hr').
  apply wp_bind. eapply wp_update; [exact HO1 | exact Hr' |]. intros s2 HO2.
  apply wp_bind. eapply wp_check_raw; [exact HO2 | by left|].
  apply wp_ret. by exists (f (garbage s1) c).
Qed.

Lemma wp_finish E s (m : M bigint) w G X :
  wp (fun _ => m) s (fun r s' =>
    exists c, normal_form c /\ cell_val c = w /\ owns E s' G ((r, c) :: X)) ->
  wp (fun _ => m) s (fun r s' => owns E s' ((r, w) :: G) X).
Proof.
  intros H. eapply wp_mono; [exact H|]. cbn beta.
  intros r s' (c & Hn & <- & HO'). by apply owns_finish.
Qed.

(** The environment of an initialized package. *)
Record env_ok (E : env) : Prop := EnvOk {
  env_0 : (bi_0 (e_globals E), 0) ∈ e_permanent E;
  env_1 : (bi_1 (e_globals E), 1) ∈ e_permanent E;
  env_2 : (bi_2 (e_globals E), 2) ∈ e_permanent E;
  env_3 : (bi_3 (e_globals E), 3) ∈ e_permanent E;
  env_m1 : (bi_m1 (e_globals E), -1) ∈ e_permanent E;
  env_maxint : (bi_maxint (e_globals E), 2147483647) ∈ e_permanent E;
  env_minint : (bi_minint (e_globals E), -2147483648) ∈ e_permanent E
}.

(** ** Proof automation

    [own] proves an [owns] goal from the hypothesis about the same state, with
    the handles in another order; [step lem] runs the next call of a program by
    its specification [lem]. *)

Lemma perm_pull {A} (x : A) l l' m : l ≡ₚ x :: l' -> l' ≡ₚ m -> l ≡ₚ x :: m.
Proof. by intros -> ->. Qed.
Lemma pull_here {A} (x : A) l : x :: l ≡ₚ x :: l.
Proof. done. Qed.
Lemma pull_there {A} (x y : A) l l' : l ≡ₚ x :: l' -> y :: l ≡ₚ x :: y :: l'.
Proof. intros ->. apply perm_swap. Qed.

Ltac pull := first [apply pull_here | eapply pull_there; pull].
Ltac find_perm :=
  lazymatch goal with
  | |- _ ≡ₚ ?m => tryif is_evar m then reflexivity else
      lazymatch m with
      | _ :: _ => eapply perm_pull; [pull | find_perm]
      | _ => reflexivity
      end
  end.
Ltac in_handles := first [apply list_elem_of_here | apply list_elem_of_further; in_handles].

Ltac own :=
  lazymatch goal with
  | HO : owns _ ?s _ _ |- owns _ ?s _ _ =>
      eapply owns_perm; [eapply owns_raw_perm; [exact HO | find_perm] | find_perm]
  end.

Lemma owns_value E s G X p v w : owns E s ((p, v) :: G) X -> v = w -> owns E s ((p, w) :: G) X.
Proof. by intros ? <-. Qed.

Ltac step lem := eapply wp_call; [eapply lem; try own; try assumption | cbn beta].
(** The last call of a program. *)
Ltac step_last lem := eapply wp_mono; [eapply lem; try own; try assumption | cbn beta].
(** The same on the way to a fault. *)
Ltac fstep lem := eapply faults_after; [eapply lem; try own; try assumption | cbn beta].
Ltac step_check :=
  eapply wp_bind;
  lazymatch goal with
  | HO : owns _ ?s _ _ |- wp _ ?s _ =>
      first [eapply wp_check_own; [exact HO | in_handles |] | eapply wp_check_raw; [exact HO | in_handles |]]
  end.

Lemma update_raw E s G p c X f :
  owns E s G ((p, c) :: X) -> refs (f (garbage s) c) = refs c ->
  wp (fun _ => update p f) s (fun _ s' => owns E s' G ((p, f (garbage s) c) :: X)).
Proof. intros HO Hr. eapply wp_update; eauto. Qed.

Lemma deref_raw E s G p c X :
  owns E s G ((p, c) :: X) -> wp (fun _ => deref p) s (fun d s' => d = c /\ s' = s).
Proof.
  intros HO. destruct (owns_raw_unique _ _ _ _ _ _ HO) as ([Hl _] & _).
  by apply (wp_deref s p c).
Qed.

Lemma deref_own E s G p v X :
  owns E s ((p, v) :: G) X -> wp (fun _ => deref p) s (fun c s' =>
    s' = s /\ live s p c /\ normal_form c /\ cell_val c = v).
Proof. intros HO. eapply wp_deref_own; [exact HO | by left | done]. Qed.

(** An object under construction, finished, used, and opened again: nobody else
    got hold of it in between. *)
Lemma owns_reopen E s G p v X :
  owns E s ((p, v) :: G) X -> refs_in p (handles G X) = 0 -> (forall w, (p, w) ∉ e_permanent E) ->
  exists c, normal_form c /\ cell_val c = v /\ owns E s G ((p, c) :: X).
Proof.
  intros HO Hr Hnp. destruct (o_own _ _ _ _ HO p v) as (c & Hl & Hn & Hv); [by left|].
  exists c. split; [done|]. split; [done|]. by eapply owns_open.
Qed.
