(* ===== verification/BigInt.v ===== *)
(** * The operations of bigint_int.c

    Conversion, comparison, addition, subtraction, multiplication (schoolbook
    and Karatsuba), squaring, the predicates and the bit operations, as
    programs on the heap of file BigHeap.  The specification of an operation
    consumes one reference to each argument and yields one to the result. *)

From Stdlib Require Import ZArith Lia.
From stdpp Require Import base numbers list gmap strings.
From S2P Require Import Prelude BigComps BigCell BigHeap.

Open Scope Z_scope.

(** ** Code *)

(** A use of one of the global variables [bi_0], ..., [bi_minint]. *)
Definition constant (f : constants -> bigint) : M bigint :=
  s ← get_state; mret (f (globals s)).

Definition bi_compare (bia bib : bigint) : M Z :=
  check bia;;
  check bib;;
  r ← (if (bia =? bib)%N then mret 0
       else ca ← deref bia; cb ← deref bib; mret (compare_bigints ca cb));
  bi_free bia;;
  bi_free bib;;
  mret r.

Definition int_to_bi (i : Z) : M bigint :=
  biR ← alloc 1;
  update biR (fun g => int_to_bi_body g i);;
  check biR;;
  mret biR.

Definition bi_to_int (bi : bigint) : M Z :=
  check bi;;
  x ← bi_copy bi;
  y ← constant bi_maxint;
  r ← bi_compare x y;
  (if 0 <? r then sigfpe "bi_to_int: overflow"
   else x ← bi_copy bi;
        y ← constant bi_minint;
        r ← bi_compare x y;
        signal_if (r <? 0) "bi_to_int: overflow");;
  c ← deref bi;
  let r := wrap32 (mul64 (sign c) (to_int_loop 0 1 (comps c))) in
  bi_free bi;;
  mret r.

Definition bi_int_add (bi : bigint) (i : Z) : M bigint :=
  check bi;; on_clone bi (fun g => int_add_body g i).

Definition bi_int_subtract (bi : bigint) (i : Z) : M bigint :=
  check bi;; on_clone bi (fun g => int_subtract_body g i).

(** [if ( i < 0 ) i = -i;]: the most negative int has no opposite. *)
Definition drop_sign (i : Z) : M Z :=
  if i =? -2147483648 then fail Overflow else mret (if i <? 0 then - i else i).

(** The sign is dropped behind [clone], which changes nothing that it looks at. *)
Definition bi_int_multiply (bi : bigint) (i : Z) : M bigint :=
  check bi;;
  n ← drop_sign i;
  on_clone bi (fun g => int_multiply_body (i <? 0) g n).

Definition bi_int_divide (binumer : bigint) (denom : Z) : M bigint :=
  check binumer;;
  signal_if (denom =? 0) "bi_int_divide: divide by zero";;
  n ← drop_sign denom;
  on_clone binumer (fun g => int_divide_body (denom <? 0) g n).

Definition bi_int_rem (bi : bigint) (m : Z) : M Z :=
  check bi;;
  signal_if (m =? 0) "bi_int_rem: divide by zero";;
  m ← drop_sign m;
  c ← deref bi;
  let r := int_rem_body m c in
  bi_free bi;;
  mret r.

Definition bi_add (bia bib : bigint) : M bigint :=
  check bia;;
  check bib;;
  biR ← clone bia;
  cb ← deref bib;
  update biR (fun g => add_loop g cb);;
  bi_free bib;;
  update biR normalize;;
  check biR;;
  mret biR.

Definition bi_subtract (bia bib : bigint) : M bigint :=
  check bia;;
  check bib;;
  biR ← clone bia;
  cb ← deref bib;
  update biR (fun g => subtract_loop g cb);;
  bi_free bib;;
  update biR normalize;;
  check biR;;
  mret biR.

(** The functions that look at a bigint and free it. *)
Definition inspect {A} (bi : bigint) (f : real_bigint -> A) : M A :=
  c ← deref bi; bi_free bi;; mret (f c).

Definition bi_is_odd (bi : bigint) : M bool :=
  check bi;; inspect bi (fun c => negb (Z.land (hd 0 (comps c)) 1 =? 0)).

Definition bi_is_zero (bi : bigint) : M bool :=
  check bi;;
  inspect bi (fun c => (sign c =? 1) && (num_comps c =? 1)%nat && (hd 0 (comps c) =? 0)).

Definition bi_is_one (bi : bigint) : M bool :=
  check bi;;
  inspect bi (fun c => (sign c =? 1) && (num_comps c =? 1)%nat && (hd 0 (comps c) =? 1)).

Definition bi_is_negative (bi : bigint) : M bool :=
  check bi;; inspect bi (fun c => sign c =? -1).

Definition bi_bit (bi : bigint) (bitnum : Z) : M bool :=
  check bi;; inspect bi (fun c => bit_of c bitnum).

Definition bi_bits (bi : bigint) : M Z := inspect bi bits_of.

Definition bi_int_and (bi : bigint) (mask : Z) : M Z :=
  inspect bi (fun c => wrap32 (Z.land (hd 0 (comps c)) mask)).

Definition bi_negate (bi : bigint) : M bigint :=
  check bi;; on_clone bi (fun _ c => set_sign (- sign c) c).

Definition bi_abs (bi : bigint) : M bigint :=
  check bi;; on_clone bi (fun _ c => set_sign 1 c).

Definition bi_half (bi : bigint) : M bigint :=
  check bi;; on_clone bi (fun _ => half_body).

Definition bi_double (bi : bigint) : M bigint :=
  check bi;; on_clone bi double_body.

(** [f( bi_copy( bi ) )] and the two forms of comparison that keep the operands:
    [bi_compare( bi_copy( bi ), bi_0 )], [bi_compare( bi_copy( bia ), bi_copy( bib ) )]. *)
Definition copied {A} (f : bigint -> M A) (bi : bigint) : M A := x ← bi_copy bi; f x.
Definition compare_const (bi : bigint) (k : constants -> bigint) : M Z :=
  x ← bi_copy bi; y ← constant k; bi_compare x y.
Definition compare_copies (bia bib : bigint) : M Z :=
  x ← bi_copy bia; y ← bi_copy bib; bi_compare x y.

(** *** Multiplication *)

Definition regular_multiply (bia bib : bigint) : M bigint :=
  z ← constant bi_0;
  biR ← clone z;
  ca ← deref bia;
  cb ← deref bib;
  update biR (fun g => regular_multiply_body g ca cb);;
  check biR;;
  x ← bi_copy biR;
  zero ← bi_is_zero x;
  (if negb zero then update biR (fun _ => set_sign (sign ca * sign cb)) else mret tt);;
  bi_free bia;;
  bi_free bib;;
  mret biR.

(** Fill the freshly allocated half [biR] with [n] components of [l] from [off] on. *)
Definition fill_half (biR : bigint) (off n : nat) (l : list Z) : M unit :=
  update biR (fun _ c => set_sign 1 (set_comps (split_comps off n l) c)).

Definition karatsuba_multiply (bi_multiply : bigint -> bigint -> M bigint) (bia bib : bigint)
  : M bigint :=
  ca ← deref bia;
  cb ← deref bib;
  let n := Nat.div (Nat.max (num_comps ca) (num_comps cb) + 1) 2 in
  bi_i ← alloc n;
  bi_j ← alloc n;
  bi_k ← alloc n;
  bi_l ← alloc n;
  fill_half bi_i n n (comps ca);;
  fill_half bi_j 0 n (comps ca);;
  fill_half bi_k n n (comps cb);;
  fill_half bi_l 0 n (comps cb);;
  update bi_i normalize;;
  update bi_j normalize;;
  update bi_k normalize;;
  update bi_l normalize;;
  x ← bi_copy bi_i;
  y ← bi_copy bi_k;
  bi_ik ← bi_multiply x y;
  x ← bi_copy bi_j;
  y ← bi_copy bi_l;
  bi_jl ← bi_multiply x y;
  x ← bi_add bi_i bi_j;
  y ← bi_add bi_k bi_l;
  x ← bi_multiply x y;
  y ← bi_copy bi_ik;
  x ← bi_subtract x y;
  y ← bi_copy bi_jl;
  bi_mid ← bi_subtract x y;
  cm ← deref bi_mid;
  ci ← deref bi_ik;
  update bi_jl (fun g => karatsuba_loops g n cm ci);;
  bi_free bi_ik;;
  bi_free bi_mid;;
  update bi_jl (fun _ => set_sign (sign ca * sign cb));;
  bi_free bia;;
  bi_free bib;;
  update bi_jl normalize;;
  check bi_jl;;
  mret bi_jl.

Definition KARATSUBA_MULT_THRESH : nat := 16.

Fixpoint bi_multiply_rec (n : nat) (bia bib : bigint) : M bigint :=
  match n with
  | O => fail Out_of_fuel
  | S n =>
      check bia;;
      check bib;;
      ca ← deref bia;
      cb ← deref bib;
      if (Nat.min (num_comps ca) (num_comps cb) <? KARATSUBA_MULT_THRESH)%nat
      then regular_multiply bia bib
      else karatsuba_multiply (bi_multiply_rec n) bia bib
  end.
Definition bi_multiply (bia bib : bigint) : M bigint :=
  with_fuel (fun n => bi_multiply_rec n bia bib).

Definition regular_square (bi : bigint) : M bigint :=
  z ← constant bi_0;
  biR ← clone z;
  c ← deref bi;
  update biR (fun g => regular_square_body g c);;
  check biR;;
  bi_free bi;;
  mret biR.

Definition karatsuba_square (bi_square : bigint -> M bigint) (bi : bigint) : M bigint :=
  c ← deref bi;
  let n := Nat.div (num_comps c + 1) 2 in
  bi_i ← alloc n;
  bi_j ← alloc n;
  fill_half bi_i n n (comps c);;
  fill_half bi_j 0 n (comps c);;
  update bi_i normalize;;
  update bi_j normalize;;
  x ← bi_copy bi_i;
  bi_ii ← bi_square x;
  x ← bi_copy bi_j;
  bi_jj ← bi_square x;
  x ← bi_add bi_i bi_j;
  x ← bi_square x;
  y ← bi_copy bi_ii;
  x ← bi_subtract x y;
  y ← bi_copy bi_jj;
  bi_mid ← bi_subtract x y;
  cm ← deref bi_mid;
  ci ← deref bi_ii;
  update bi_jj (fun g => karatsuba_loops g n cm ci);;
  bi_free bi_ii;;
  bi_free bi_mid;;
  bi_free bi;;
  update bi_jj normalize;;
  check bi_jj;;
  mret bi_jj.

Definition KARATSUBA_SQUARE_THRESH : nat := 20.

Fixpoint bi_square_rec (n : nat) (bi : bigint) : M bigint :=
  match n with
  | O => fail Out_of_fuel
  | S n =>
      check bi;;
      c ← deref bi;
      if (num_comps c <? KARATSUBA_SQUARE_THRESH)%nat
      then regular_square bi
      else karatsuba_square (bi_square_rec n) bi
  end.
Definition bi_square (bi : bigint) : M bigint := with_fuel (fun n => bi_square_rec n bi).

(** *** Start and end *)

Definition set_constant (f : constants -> constants) : M unit :=
  s ← get_state; set_state (with_globals (f (globals s)) s).

Definition null_constants : constants := Constants 0 0 0 0 0 0 0.
Definition initial_state (g : Z) (w : world) : state :=
  State ∅ 1 [] [] 0 0 0 g null_constants w.

(** The assignments to the constants [bi_radix], ... are the definitions of file BigComps. *)
Definition bi_initialize : M unit :=
  s ← get_state;
  set_state (with_check_level 3 (with_lists [] [] 0 0 s));;
  p0 ← int_to_bi 0;
  set_constant (fun g => Constants p0 (bi_1 g) (bi_2 g) (bi_3 g) (bi_m1 g) (bi_maxint g) (bi_minint g));;
  bi_permanent p0;;
  p1 ← int_to_bi 1;
  set_constant (fun g => Constants (bi_0 g) p1 (bi_2 g) (bi_3 g) (bi_m1 g) (bi_maxint g) (bi_minint g));;
  bi_permanent p1;;
  p2 ← int_to_bi 2;
  set_constant (fun g => Constants (bi_0 g) (bi_1 g) p2 (bi_3 g) (bi_m1 g) (bi_maxint g) (bi_minint g));;
  bi_permanent p2;;
  p3 ← int_to_bi 3;
  set_constant (fun g => Constants (bi_0 g) (bi_1 g) (bi_2 g) p3 (bi_m1 g) (bi_maxint g) (bi_minint g));;
  bi_permanent p3;;
  pm ← int_to_bi (-1);
  set_constant (fun g => Constants (bi_0 g) (bi_1 g) (bi_2 g) (bi_3 g) pm (bi_maxint g) (bi_minint g));;
  bi_permanent pm;;
  pM ← int_to_bi 2147483647;
  set_constant (fun g => Constants (bi_0 g) (bi_1 g) (bi_2 g) (bi_3 g) (bi_m1 g) pM (bi_minint g));;
  bi_permanent pM;;
  pN ← int_to_bi (-2147483648);
  set_constant (fun g => Constants (bi_0 g) (bi_1 g) (bi_2 g) (bi_3 g) (bi_m1 g) (bi_maxint g) pN);;
  bi_permanent pN.

(** The objects on a list are given back to malloc. *)
Definition free_all (l : list bigint) : M unit :=
  s ← get_state; set_state (with_heap (foldr delete (heap s) l) s).

(** [bi_terminate]; the result tells whether it printed "there were %d un-freed bigints". *)
Definition bi_terminate : M bool :=
  p ← constant bi_0; bi_depermanent p;; p ← constant bi_0; bi_free p;;
  p ← constant bi_1; bi_depermanent p;; p ← constant bi_1; bi_free p;;
  p ← constant bi_2; bi_depermanent p;; p ← constant bi_2; bi_free p;;
  p ← constant bi_3; bi_depermanent p;; p ← constant bi_3; bi_free p;;
  p ← constant bi_m1; bi_depermanent p;; p ← constant bi_m1; bi_free p;;
  p ← constant bi_maxint; bi_depermanent p;; p ← constant bi_maxint; bi_free p;;
  p ← constant bi_minint; bi_depermanent p;; p ← constant bi_minint; bi_free p;;
  s ← get_state;
  (if 2 <=? check_level s then double_check else mret tt);;
  (if 3 <=? check_level s then triple_check;; free_all (active_list s) else mret tt);;
  free_all (free_list s);;
  mret (negb (active_count s =? 0)).

Definition run_int (p : M Z) : outcome state Z :=
  (bi_initialize;; p) 200%nat (initial_state 77 (World (fun _ => 0) 0 [] [])).
Definition value_of (r : outcome state Z) : option Z :=
  match r with Ok v _ => Some v | Fault _ => None end.

(** ** Specifications *)

(** No operation on the components touches the reference count. *)
Ltac refs_tac :=
  cbv beta delta [int_to_bi_body int_add_body int_subtract_body int_multiply_body int_divide_body
    regular_multiply_body regular_square_body];
  repeat case_match; simplify_eq;
  rewrite ?normalize_refs, ?multiply_loop_refs, ?square_loop_refs; reflexivity.

Section specs.
Context (E : env) (HE : env_ok E).

(** One of the global constants, ready to be consumed. *)
Lemma constant_spec s G X f v :
  (f (e_globals E), v) ∈ e_permanent E -> owns E s G X ->
  wp (fun _ => constant f) s (fun r s' => owns E s' ((r, v) :: G) X).
Proof.
  intros Hf HO. unfold constant. apply wp_bind, wp_get_state, wp_ret.
  rewrite (o_globals _ _ _ _ HO). by apply owns_use.
Qed.

Definition zero_spec s G X := constant_spec s G X bi_0 0 (env_0 E HE).
Definition one_spec s G X := constant_spec s G X bi_1 1 (env_1 E HE).
Definition two_spec s G X := constant_spec s G X bi_2 2 (env_2 E HE).
Definition three_spec s G X := constant_spec s G X bi_3 3 (env_3 E HE).
Definition m1_spec s G X := constant_spec s G X bi_m1 (-1) (env_m1 E HE).
Definition maxint_spec s G X := constant_spec s G X bi_maxint 2147483647 (env_maxint E HE).
Definition minint_spec s G X := constant_spec s G X bi_minint (-2147483648) (env_minint E HE).

Lemma bi_compare_spec s a va b vb G X :
  owns E s ((a, va) :: (b, vb) :: G) X ->
  wp (fun _ => bi_compare a b) s (fun r s' => r = Z.sgn (va - vb) /\ owns E s' G X).
Proof.
  intros HO. unfold bi_compare. step_check. step_check.
  destruct (o_own _ _ _ _ HO a va) as (ca & Hla & Hna & Hva); [in_handles|].
  destruct (o_own _ _ _ _ HO b vb) as (cb & Hlb & Hnb & Hvb); [in_handles|].
  eapply (wp_call _ _ _ (fun r s' => r = Z.sgn (va - vb) /\ s' = s)).
  { destruct (N.eqb_spec a b) as [->|Hne].
    - apply wp_ret. rewrite (live_fun _ _ _ _ Hla Hlb) in Hva. split; [|done].
      replace (va - vb) with 0 by lia. done.
    - apply wp_bind, (wp_deref s a ca); [apply Hla|].
      apply wp_bind, (wp_deref s b cb); [apply Hlb|]. apply wp_ret. split; [|done].
      rewrite compare_bigints_ok by done. congruence. }
  intros r s' [-> ->].
  step bi_free_spec. intros _ s1 HO1. step bi_free_spec. intros _ s2 HO2.
  apply wp_ret. by split.
Qed.

Lemma int_to_bi_raw s i G X :
  int32 i -> owns E s G X ->
  wp (fun _ => int_to_bi i) s (fun r s' =>
    exists c, normal_form c /\ cell_val c = i /\ refs c = 1 /\ owns E s' G ((r, c) :: X)).
Proof.
  intros Hi HO. unfold int_to_bi. step alloc_spec. intros r s1 (c & Hc & Hr & HO1 & _).
  destruct (int_to_bi_body_ok (garbage s1) i c Hc Hi) as (Hn & Hv).
  step update_raw; [by refs_tac|]. intros _ s2 HO2.
  step_check. apply wp_ret. eexists. split; [exact Hn|]. split; [exact Hv|]. split; [|exact HO2].
  unfold int_to_bi_body. by rewrite normalize_refs.
Qed.

Lemma int_to_bi_spec s i G X :
  int32 i -> owns E s G X -> wp (fun _ => int_to_bi i) s (fun r s' => owns E s' ((r, i) :: G) X).
Proof.
  intros Hi HO. step_last int_to_bi_raw. intros r s' (c & Hn & <- & _ & HO'). by apply owns_finish.
Qed.

(** The operations of the shape [check( bi ); biR = clone( bi ); ...]. *)
Lemma on_clone_spec s p v w f G X :
  body_ok f v w -> owns E s ((p, v) :: G) X ->
  wp (fun _ => check p;; on_clone p f) s (fun r s' => owns E s' ((r, w) :: G) X).
Proof. intros Hf HO. step_check. by eapply wp_finish, on_clone_raw. Qed.

Lemma bi_int_add_spec s p v i G X :
  int32 i -> owns E s ((p, v) :: G) X ->
  wp (fun _ => bi_int_add p i) s (fun r s' => owns E s' ((r, v + i) :: G) X).
Proof.
  intros Hi. apply on_clone_spec. intros g c Hn <-.
  destruct (int_add_body_ok g i c Hn Hi). split; [done|]. split; [done | by refs_tac].
Qed.

Lemma bi_int_subtract_spec s p v i G X :
  int32 i -> owns E s ((p, v) :: G) X ->
  wp (fun _ => bi_int_subtract p i) s (fun r s' => owns E s' ((r, v - i) :: G) X).
Proof.
  intros Hi. apply on_clone_spec. intros g c Hn <-.
  destruct (int_subtract_body_ok g i c Hn Hi). split; [done|]. split; [done | by refs_tac].
Qed.

Lemma wp_drop_sign s i (Q : Z -> state -> Prop) : i <> -2147483648 -> Q (Z.abs i) s -> wp (fun _ => drop_sign i) s Q.
Proof.
  intros Hi HQ. unfold drop_sign. rewrite (proj2 (Z.eqb_neq _ _)) by done. apply wp_ret.
  by replace (if i <? 0 then - i else i) with (Z.abs i) by (destruct (Z.ltb_spec i 0); lia).
Qed.

(** A function of a bigint that looks at it ([check]) and goes on with what faults. *)
Lemma faults_checked {A} (k : M A) s p v G X f : owns E s ((p, v) :: G) X -> faults (fun _ => k) s f ->
  faults (fun _ => check p;; k) s f.
Proof.
  intros HO Hk. eapply faults_after; [eapply (wp_check_own E s _ p v X (fun _ s' => s' = s)); [exact HO | in_handles | done]|].
  by intros _ s' ->.
Qed.

Lemma bi_int_multiply_overflow s p v G X : owns E s ((p, v) :: G) X ->
  faults (fun _ => bi_int_multiply p (-2147483648)) s Overflow.
Proof. intros HO. eapply faults_checked; [exact HO|]. apply faults_bind, faults_fail. Qed.

Lemma bi_int_multiply_spec s p v i G X :
  int32 i -> i <> -2147483648 -> owns E s ((p, v) :: G) X ->
  wp (fun _ => bi_int_multiply p i) s (fun r s' => owns E s' ((r, v * i) :: G) X).
Proof.
  intros Hi Hm HO. unfold bi_int_multiply. step_check. apply wp_bind, wp_drop_sign; [done|]. apply wp_finish.
  eapply on_clone_raw; [exact HO|]. intros g c Hn <-.
  destruct (int_multiply_body_ok g i c Hn Hi). split; [done|]. split; [done | by refs_tac].
Qed.

Lemma int_divide_body_spec v d :
  int32 d -> d <> -2147483648 -> d <> 0 -> body_ok (fun g => int_divide_body (d <? 0) g (Z.abs d)) v (Z.quot v d).
Proof.
  intros Hi Hm H0 g c Hn <-. destruct (int_divide_body_ok g d c Hn Hi Hm H0).
  split; [done|]. split; [done | by refs_tac].
Qed.

Lemma bi_int_divide_raw s p v d G X :
  int32 d -> d <> -2147483648 -> d <> 0 -> owns E s ((p, v) :: G) X ->
  wp (fun _ => bi_int_divide p d) s (fun r s' =>
    exists c, normal_form c /\ cell_val c = Z.quot v d /\ owns E s' G ((r, c) :: X)).
Proof.
  intros Hi Hm H0 HO. unfold bi_int_divide. step_check.
  apply wp_bind, wp_signal_if; [by apply Z.eqb_neq|]. apply wp_bind, wp_drop_sign; [done|].
  eapply on_clone_raw; [exact HO | by apply int_divide_body_spec].
Qed.

Lemma bi_int_divide_spec s p v d G X :
  int32 d -> d <> -2147483648 -> d <> 0 -> owns E s ((p, v) :: G) X ->
  wp (fun _ => bi_int_divide p d) s (fun r s' => owns E s' ((r, Z.quot v d) :: G) X).
Proof. intros. by apply wp_finish, bi_int_divide_raw. Qed.

Lemma bi_int_divide_by_zero s p v G X :
  owns E s ((p, v) :: G) X ->
  faults (fun _ => bi_int_divide p 0) s (Sigfpe "bi_int_divide: divide by zero").
Proof.
  intros HO. eapply faults_checked; [exact HO|]. apply faults_bind, faults_fail.
Qed.

Lemma bi_int_divide_overflow s p v G X : owns E s ((p, v) :: G) X ->
  faults (fun _ => bi_int_divide p (-2147483648)) s Overflow.
Proof. intros HO. eapply faults_checked; [exact HO|]. by exists 0%nat. Qed.

Lemma bi_int_rem_by_zero s p v G X : owns E s ((p, v) :: G) X ->
  faults (fun _ => bi_int_rem p 0) s (Sigfpe "bi_int_rem: divide by zero").
Proof. intros HO. eapply faults_checked; [exact HO|]. apply faults_bind, faults_fail. Qed.

Lemma bi_int_rem_overflow s p v G X : owns E s ((p, v) :: G) X ->
  faults (fun _ => bi_int_rem p (-2147483648)) s Overflow.
Proof. intros HO. eapply faults_checked; [exact HO|]. by exists 0%nat. Qed.

Lemma bi_int_rem_spec s p v m G X :
  int32 m -> m <> -2147483648 -> m <> 0 -> owns E s ((p, v) :: G) X ->
  wp (fun _ => bi_int_rem p m) s (fun r s' => r = Z.rem v m /\ owns E s' G X).
Proof.
  intros Hm Hmin H0 HO. unfold bi_int_rem. step_check.
  apply wp_bind, wp_signal_if; [by apply Z.eqb_neq|]. apply wp_bind, wp_drop_sign; [done|].
  step deref_own. intros c s1 (-> & _ & Hn & <-). cbn zeta.
  step bi_free_spec. intros _ s2 HO2. apply wp_ret. split; [|done]. by apply int_rem_body_ok.
Qed.

Lemma combine_raw s a va b vb (loop : Z -> real_bigint -> real_bigint -> real_bigint) w G X :
  (forall g g' ca cb, normal_form ca -> normal_form cb -> cell_val ca = va -> cell_val cb = vb ->
    normal_form (normalize g' (loop g cb ca)) /\ cell_val (normalize g' (loop g cb ca)) = w) ->
  (forall g ca cb, refs (loop g cb ca) = refs ca) ->
  owns E s ((a, va) :: (b, vb) :: G) X ->
  wp (fun _ => check a;; check b;; biR ← clone a; cb ← deref b; update biR (fun g => loop g cb);;
               bi_free b;; update biR normalize;; check biR;; mret biR) s (fun r s' =>
    exists c, normal_form c /\ cell_val c = w /\ owns E s' G ((r, c) :: X)).
Proof.
  intros Hop Hrefs HO. step_check. step_check.
  step clone_spec. intros r s1 (ca & Hna & Hva & HO1).
  step deref_own. intros cb s2 (-> & _ & Hnb & Hvb).
  step update_raw; [apply Hrefs|]. intros _ s3 HO3.
  step bi_free_spec. intros _ s4 HO4.
  step update_raw; [by refs_tac|]. intros _ s5 HO5.
  step_check. apply wp_ret.
  destruct (Hop (garbage s1) (garbage s4) ca cb) as [Hn Hv]; auto. eauto.
Qed.

Lemma bi_add_raw s a va b vb G X :
  owns E s ((a, va) :: (b, vb) :: G) X ->
  wp (fun _ => bi_add a b) s (fun r s' =>
    exists c, normal_form c /\ cell_val c = va + vb /\ owns E s' G ((r, c) :: X)).
Proof.
  apply (combine_raw s a va b vb add_loop); [|done].
  intros g g' ca cb Ha Hb <- <-. by apply add_loop_ok.
Qed.
Lemma bi_subtract_raw s a va b vb G X :
  owns E s ((a, va) :: (b, vb) :: G) X ->
  wp (fun _ => bi_subtract a b) s (fun r s' =>
    exists c, normal_form c /\ cell_val c = va - vb /\ owns E s' G ((r, c) :: X)).
Proof.
  apply (combine_raw s a va b vb subtract_loop); [|done].
  intros g g' ca cb Ha Hb <- <-. by apply subtract_loop_ok.
Qed.
Lemma bi_add_spec s a va b vb G X :
  owns E s ((a, va) :: (b, vb) :: G) X ->
  wp (fun _ => bi_add a b) s (fun r s' => owns E s' ((r, va + vb) :: G) X).
Proof. intros. by apply wp_finish, bi_add_raw. Qed.
Lemma bi_subtract_spec s a va b vb G X :
  owns E s ((a, va) :: (b, vb) :: G) X ->
  wp (fun _ => bi_subtract a b) s (fun r s' => owns E s' ((r, va - vb) :: G) X).
Proof. intros. by apply wp_finish, bi_subtract_raw. Qed.

(** *** Looking at a bigint *)

Lemma inspect_spec {A} s p v G X (f : real_bigint -> A) (w : A) :
  (forall c, normal_form c -> cell_val c = v -> f c = w) -> owns E s ((p, v) :: G) X ->
  wp (fun _ => inspect p f) s (fun r s' => r = w /\ owns E s' G X).
Proof.
  intros Hf HO. unfold inspect. step deref_own. intros c s1 (-> & _ & Hn & Hv).
  step bi_free_spec. intros _ s2 HO2. apply wp_ret. split; [by apply Hf | done].
Qed.

Lemma check_inspect_spec {A} s p v G X (f : real_bigint -> A) (w : A) :
  (forall c, normal_form c -> cell_val c = v -> f c = w) -> owns E s ((p, v) :: G) X ->
  wp (fun _ => check p;; inspect p f) s (fun r s' => r = w /\ owns E s' G X).
Proof. intros Hf HO. step_check. by eapply inspect_spec. Qed.

Lemma bi_is_odd_spec s p v G X : owns E s ((p, v) :: G) X ->
  wp (fun _ => bi_is_odd p) s (fun r s' => r = Z.odd v /\ owns E s' G X).
Proof.
  apply (check_inspect_spec s p v G X). intros c Hn <-. by apply low_bit_ok.
Qed.

Lemma bi_is_zero_spec s p v G X : owns E s ((p, v) :: G) X ->
  wp (fun _ => bi_is_zero p) s (fun r s' => r = (v =? 0) /\ owns E s' G X).
Proof. apply (check_inspect_spec s p v G X). intros c Hn <-. apply single_comp_ok; [lia | done]. Qed.

Lemma bi_is_one_spec s p v G X : owns E s ((p, v) :: G) X ->
  wp (fun _ => bi_is_one p) s (fun r s' => r = (v =? 1) /\ owns E s' G X).
Proof. apply (check_inspect_spec s p v G X). intros c Hn <-. apply single_comp_ok; [lia | done]. Qed.

Lemma bi_is_negative_spec s p v G X : owns E s ((p, v) :: G) X ->
  wp (fun _ => bi_is_negative p) s (fun r s' => r = (v <? 0) /\ owns E s' G X).
Proof.
  apply (check_inspect_spec s p v G X). intros c Hn <-. pose proof (nf_neg c Hn) as H.
  destruct (Z.eqb_spec (sign c) (-1)), (Z.ltb_spec (cell_val c) 0); tauto || lia.
Qed.

Lemma bi_bit_spec s p v n G X : 0 <= n -> owns E s ((p, v) :: G) X ->
  wp (fun _ => bi_bit p n) s (fun r s' => r = Z.testbit (Z.abs v) n /\ owns E s' G X).
Proof. intros Hn. apply (check_inspect_spec s p v G X). intros c Hc <-. by apply bit_of_ok. Qed.

Lemma bi_bits_spec s p v G X : owns E s ((p, v) :: G) X ->
  wp (fun _ => bi_bits p) s (fun r s' => r = bit_length v /\ owns E s' G X).
Proof. apply (inspect_spec s p v G X). intros c Hc <-. by apply bits_of_ok. Qed.

Lemma bi_int_and_spec s p v m G X : 0 <= m < 2147483648 -> owns E s ((p, v) :: G) X ->
  wp (fun _ => bi_int_and p m) s (fun r s' => r = Z.land (Z.abs v) m /\ owns E s' G X).
Proof. intros Hm. apply (inspect_spec s p v G X). intros c Hc <-. by apply low_mask_ok. Qed.

Lemma bi_to_int_spec s p v G X : int32 v -> owns E s ((p, v) :: G) X ->
  wp (fun _ => bi_to_int p) s (fun r s' => r = v /\ owns E s' G X).
Proof.
  intros Hv HO. unfold bi_to_int. step_check.
  step bi_copy_spec. intros x s1 (-> & HO1). step maxint_spec. intros m s2 HO2.
  step bi_compare_spec. intros r s3 (-> & HO3).
  apply wp_bind. unfold int32 in Hv.
  destruct (Z.ltb_spec 0 (Z.sgn (v - 2147483647))) as [|_]; [lia|].
  step bi_copy_spec. intros x s4 (-> & HO4). step minint_spec. intros m' s5 HO5.
  step bi_compare_spec. intros r s6 (-> & HO6).
  apply wp_signal_if; [apply Z.ltb_ge; lia|].
  step deref_own. intros c s7 (-> & _ & Hn & Hc). cbn zeta.
  step bi_free_spec. intros _ s8 HO8. apply wp_ret. split; [|done].
  rewrite <- Hc in *. by apply to_int_ok.
Qed.

Lemma bi_to_int_overflow s p v G X : ~ int32 v -> owns E s ((p, v) :: G) X ->
  faults (fun _ => bi_to_int p) s (Sigfpe "bi_to_int: overflow").
Proof.
  intros Hv HO. unfold bi_to_int, int32 in *.
  eapply faults_after. { eapply (wp_check_own E s _ p v X (fun _ s' => s' = s)); [exact HO | in_handles | done]. }
  intros _ s0 ->. fstep bi_copy_spec. intros x s1 (-> & HO1).
  fstep maxint_spec. intros m s2 HO2.
  fstep bi_compare_spec. intros r s3 (-> & HO3).
  apply faults_bind.
  destruct (Z.ltb_spec 0 (Z.sgn (v - 2147483647))) as [|Hle]; [apply faults_fail|].
  fstep bi_copy_spec. intros x s4 (-> & HO4).
  fstep minint_spec. intros m' s5 HO5.
  fstep bi_compare_spec. intros r s6 (-> & HO6).
  destruct (Z.ltb_spec (Z.sgn (v - -2147483648)) 0) as [|Hge]; [apply faults_fail | lia].
Qed.

(** *** Sign, half, double *)

Lemma bi_negate_spec s p v G X : v <> 0 -> owns E s ((p, v) :: G) X ->
  wp (fun _ => bi_negate p) s (fun r s' => owns E s' ((r, - v) :: G) X).
Proof.
  intros Hv. apply on_clone_spec. intros g c [Hs Hne Hd Ht Hz] Hc. split; [|split; [|done]].
  - split; auto; cbn [sign set_sign comps] in *; [unfold is_sign in *; lia|].
    intros E0. unfold cell_val in Hc. rewrite E0 in Hc. lia.
  - unfold cell_val in *. cbn [sign set_sign comps]. lia.
Qed.

Lemma bi_abs_spec s p v G X : owns E s ((p, v) :: G) X ->
  wp (fun _ => bi_abs p) s (fun r s' => owns E s' ((r, Z.abs v) :: G) X).
Proof.
  apply on_clone_spec. intros g c Hn <-. split; [|split; [|done]].
  - destruct Hn. by split; [left|..].
  - rewrite nf_abs by done. unfold cell_val. cbn [sign set_sign comps]. lia.
Qed.

Lemma bi_half_spec s p v G X : v <> -1 -> owns E s ((p, v) :: G) X ->
  wp (fun _ => bi_half p) s (fun r s' => owns E s' ((r, Z.quot v 2) :: G) X).
Proof.
  intros Hv. apply on_clone_spec. intros g c Hn <-. destruct (half_body_ok c Hn Hv).
  split; [done|]. split; [done|]. unfold half_body, drop_top_zero. by case_match.
Qed.

Lemma bi_double_spec s p v G X : owns E s ((p, v) :: G) X ->
  wp (fun _ => bi_double p) s (fun r s' => owns E s' ((r, v * 2) :: G) X).
Proof.
  apply on_clone_spec. intros g c Hn <-. by destruct (double_body_ok g c Hn).
Qed.

(** *** Multiplication *)


(** A clone of [bi_0] is 0 in one component. *)
Lemma clone_zero s z G X : owns E s ((z, 0) :: G) X ->
  wp (fun _ => clone z) s (fun r s' =>
    exists c, sign c = 1 /\ comps c = [0] /\ owns E s' G ((r, c) :: X)).
Proof.
  intros HO. step_last clone_spec. intros r s' (c & Hn & Hv & HO').
  exists c. destruct (zero_form c Hn Hv). auto.
Qed.

Lemma regular_multiply_raw s a va b vb G X :
  owns E s ((a, va) :: (b, vb) :: G) X ->
  wp (fun _ => regular_multiply a b) s (fun r s' =>
    exists c, normal_form c /\ cell_val c = va * vb /\ owns E s' G ((r, c) :: X)).
Proof.
  intros HO. unfold regular_multiply.
  step zero_spec. intros z s1 HO1. step clone_zero. intros r s2 (c0 & Hs0 & Hc0 & HO2).
  step deref_own. intros ca s3 (-> & _ & Hna & Hva).
  step deref_own. intros cb s4 (-> & _ & Hnb & Hvb).
  destruct (regular_multiply_body_ok (garbage s2) ca cb c0 Hna Hnb Hs0 Hc0) as (Hn & Hv).
  step update_raw; [by refs_tac|]. intros _ s3 HO3.
  set (c1 := regular_multiply_body _ _ _ _) in *. step_check.
  destruct (owns_raw_unique _ _ _ _ _ _ HO3) as (_ & Hr & Hnp & _).
  pose proof (owns_finish _ _ _ _ _ _ HO3 Hn) as HO4. clear HO3.
  step bi_copy_spec. intros x s4 (-> & HO5). step bi_is_zero_spec. intros b0 s5 (-> & HO6).
  destruct (owns_reopen _ _ _ _ _ _ HO6 Hr Hnp) as (c2 & Hn2 & Hv2 & HO7). clear HO6.
  pose proof (signed_product ca cb c2 Hna Hnb Hn2 ltac:(congruence)) as (Hn3 & Hv3).
  eapply (wp_call _ _ _ (fun _ s' => exists c, normal_form c /\ cell_val c = va * vb /\
    owns E s' ((a, va) :: (b, vb) :: G) ((r, c) :: X))).
  { rewrite <- Hva, <- Hvb, <- Hv2. destruct (cell_val c2 =? 0); cbn [negb].
    - apply wp_ret. exists c2. split; [done|]. split; [done|]. rewrite Hva, Hvb. exact HO7.
    - step_last update_raw; [done|]. intros _ s6 HO8. eexists. split; [done|]. split; [done|].
      rewrite Hva, Hvb. exact HO8. }
  intros _ s6 (c3 & Hn4 & Hv4 & HO8).
  step bi_free_spec. intros _ s7 HO9. step bi_free_spec. intros _ s8 HO10.
  apply wp_ret. eauto.
Qed.

(** What a multiplication of numbers of at most [k] components does. *)
Definition multiplies (k : nat) (mul : nat -> bigint -> bigint -> M bigint) : Prop :=
  forall s x vx y vy G X,
    Z.abs vx < bi_radix ^ Z.of_nat k -> Z.abs vy < bi_radix ^ Z.of_nat k ->
    owns E s ((x, vx) :: (y, vy) :: G) X ->
    wp (fun n => mul n x y) s (fun r s' =>
      exists c, normal_form c /\ cell_val c = vx * vy /\ owns E s' G ((r, c) :: X)).

Lemma multiplies_spec k mul s x vx y vy G X :
  multiplies k mul ->
  Z.abs vx < bi_radix ^ Z.of_nat k -> Z.abs vy < bi_radix ^ Z.of_nat k ->
  owns E s ((x, vx) :: (y, vy) :: G) X ->
  wp (fun n => mul n x y) s (fun r s' => owns E s' ((r, vx * vy) :: G) X).
Proof.
  intros H Hx Hy HO. eapply wp_mono; [exact (H _ _ _ _ _ _ _ Hx Hy HO)|]. cbn beta.
  intros r s' (c & Hn & <- & HO'). by apply owns_finish.
Qed.

(** Allocate a half, later fill it, then normalize it. *)
Lemma alloc_raw s n G X : owns E s G X ->
  wp (fun _ => alloc n) s (fun r s' => exists c, owns E s' G ((r, c) :: X)).
Proof. intros HO. step_last alloc_spec. intros r s' (c & _ & _ & HO' & _). eauto. Qed.

Lemma fill_half_raw s r off n l c G X : owns E s G ((r, c) :: X) ->
  wp (fun _ => fill_half r off n l) s (fun _ s' => owns E s' G ((r, half_cell off n l c) :: X)).
Proof. intros HO. unfold fill_half. by step_last update_raw. Qed.

Lemma normalize_half s r off n l c G X : (0 < n)%nat -> digits l ->
  owns E s G ((r, half_cell off n l c) :: X) ->
  wp (fun _ => update r normalize) s (fun _ s' => owns E s' ((r, val (split_comps off n l)) :: G) X).
Proof.
  intros Hn Hl HO. step_last update_raw; [by refs_tac|]. intros _ s' HO'.
  destruct (half_cell_ok (garbage s) off n l c Hn Hl) as (H1 & <- & _). by apply owns_finish.
Qed.

Lemma karatsuba_multiply_raw s a va b vb G X k ca cb mul :
  multiplies k mul ->
  live s a ca -> normal_form ca -> cell_val ca = va ->
  live s b cb -> normal_form cb -> cell_val cb = vb ->
  (Nat.div (Nat.max (num_comps ca) (num_comps cb) + 1) 2 + 1 <= k)%nat ->
  owns E s ((a, va) :: (b, vb) :: G) X ->
  wp (fun m => karatsuba_multiply (mul m) a b) s (fun r s' =>
    exists c, normal_form c /\ cell_val c = va * vb /\ owns E s' G ((r, c) :: X)).
Proof.
  intros Hmul Hla Hna Hva Hlb Hnb Hvb Hk HO. unfold karatsuba_multiply.
  apply wp_bind, (wp_deref s a ca); [apply Hla|]. apply wp_bind, (wp_deref s b cb); [apply Hlb|].
  cbn zeta. set (n := Nat.div _ 2) in *.
  assert (0 < num_comps ca)%nat as Hpa
    by (pose proof (nf_nonempty _ Hna); unfold num_comps; destruct (comps ca); [done | simpl; lia]).
  assert (0 < n /\ num_comps ca <= 2 * n /\ num_comps cb <= 2 * n)%nat as (Hn & Hn1 & Hn2)
    by (unfold n; pose proof (Nat.div_mod (Nat.max (num_comps ca) (num_comps cb) + 1) 2);
        pose proof (Nat.mod_upper_bound (Nat.max (num_comps ca) (num_comps cb) + 1) 2); lia).
  pose proof (nf_digits _ Hna) as Hda. pose proof (nf_digits _ Hnb) as Hdb.
  clearbody n.
  step alloc_raw. intros i s1 (i0 & HO1). step alloc_raw. intros j s2 (j0 & HO2).
  step alloc_raw. intros p s3 (p0 & HO3). step alloc_raw. intros q s4 (q0 & HO4).
  step fill_half_raw. intros _ s5 HO5. step fill_half_raw. intros _ s6 HO6.
  step fill_half_raw. intros _ s7 HO7. step fill_half_raw. intros _ s8 HO8.
  step normalize_half; [done..|]. intros _ s9 HO9. step normalize_half; [done..|]. intros _ s10 HO10.
  step normalize_half; [done..|]. intros _ s11 HO11. step normalize_half; [done..|]. intros _ s12 HO12.
  clear HO HO1 HO2 HO3 HO4 HO5 HO6 HO7 HO8 HO9 HO10 HO11.
  destruct (half_cell_ok 0 n n (comps ca) i0 Hn Hda) as (_ & _ & Hi).
  destruct (half_cell_ok 0 0 n (comps ca) i0 Hn Hda) as (_ & _ & Hj).
  destruct (half_cell_ok 0 n n (comps cb) i0 Hn Hdb) as (_ & _ & Hp).
  destruct (half_cell_ok 0 0 n (comps cb) i0 Hn Hdb) as (_ & _ & Hq).
  pose proof (split_comps_val n _ Hda Hn1) as Ea. pose proof (split_comps_val n _ Hdb Hn2) as Eb.
  set (vi := val (split_comps n n (comps ca))) in *. set (vj := val (split_comps 0 n (comps ca))) in *.
  set (vp := val (split_comps n n (comps cb))) in *. set (vq := val (split_comps 0 n (comps cb))) in *.
  destruct (half_sum_bound k n vi vj Hi Hj Hk) as (Bi & Bj & Bij).
  destruct (half_sum_bound k n vp vq Hp Hq Hk) as (Bp & Bq & Bpq).
  step bi_copy_spec. intros x s13 (-> & HO13). step bi_copy_spec. intros y s14 (-> & HO14).
  step (multiplies_spec k mul); [done..|]. intros ik s15 HO15.
  step bi_copy_spec. intros x s16 (-> & HO16). step bi_copy_spec. intros y s17 (-> & HO17).
  clear HO12 HO13 HO14 HO15 HO16.
  eapply wp_call; [eapply (Hmul s17 j vj q vq); [done..|]; own|]. cbn beta.
  intros jl s18 (cj0 & Hnj0 & Hvj0 & HO18).
  destruct (owns_raw_unique _ _ _ _ _ _ HO18) as (_ & Hr & Hnp & _).
  apply owns_finish in HO18; [|done]. rewrite Hvj0 in HO18.
  step bi_add_spec. intros x s19 HO19. step bi_add_spec. intros y s20 HO20.
  step (multiplies_spec k mul); [done..|]. intros z s21 HO21.
  step bi_copy_spec. intros y' s22 (-> & HO22). step bi_subtract_spec. intros x' s23 HO23.
  clear HO17 HO18 HO19 HO20 HO21 HO22.
  step bi_copy_spec. intros y'' s24 (-> & HO24). step bi_subtract_raw.
  intros mid s25 (cm & Hnm & Hvm & HO25).
  assert (owns E s25 ((jl, vj * vq) :: (ik, vi * vp) :: (a, va) :: (b, vb) :: G) ((mid, cm) :: X)) as HO26 by own.
  assert (mid <> jl) as Hne by (eapply (own_not_raw _ _ _ _ _ _ mid cm HO26); by left).
  apply owns_reopen in HO26 as (cj & Hnj & Hvj & HO26); [|clear -Hr Hne|done].
  2: { revert Hr. rewrite refs_in_handles_raw, !refs_in_handles_cons. pose proof (refs_in_nonneg jl (handles G X)).
       destruct (N.eq_dec mid jl); [done|].
       repeat match goal with |- context [N.eq_dec ?x ?y] => destruct (N.eq_dec x y) end; lia. }
  apply (owns_raw_perm _ _ _ _ ((mid, cm) :: (jl, cj) :: X)) in HO26; [|apply perm_swap].
  apply owns_finish in HO26; [|done]. rewrite Hvm in HO26. clear HO23 HO24 HO25.
  step deref_own. intros cm' s26 (-> & _ & Hnm' & Hvm').
  step deref_own. intros ci s27 (-> & _ & Hni & Hvi).
  step update_raw; [done|]. intros _ s28 HO28.
  step bi_free_spec. intros _ s29 HO29. step bi_free_spec. intros _ s30 HO30.
  step update_raw; [done|]. intros _ s31 HO31.
  step bi_free_spec. intros _ s32 HO32. step bi_free_spec. intros _ s33 HO33.
  step update_raw; [by refs_tac|]. intros _ s34 HO34.
  step_check. apply wp_ret. subst va vb.
  destruct (karatsuba_value (garbage s25) (garbage s33) n ca cb cm' ci cj vi vj vp vq) as [Hres Hval];
    try done; try lia.
  eexists. split; [exact Hres|]. split; [exact Hval | exact HO34].
Qed.

Lemma bi_multiply_rec_raw k : multiplies k bi_multiply_rec.
Proof.
  induction k as [k IH] using lt_wf_ind. intros s a va b vb G X Ha Hb HO.
  eapply wp_unfold; [intros n; reflexivity|]. cbn beta.
  step_check. step_check. step deref_own. intros ca s1 (-> & Hla & Hna & Hva).
  step deref_own. intros cb s2 (-> & Hlb & Hnb & Hvb).
  destruct (Nat.ltb_spec (Nat.min (num_comps ca) (num_comps cb)) KARATSUBA_MULT_THRESH) as [Hlt|Hge].
  - by apply regular_multiply_raw.
  - unfold KARATSUBA_MULT_THRESH in Hge.
    assert (0 < k)%nat as Hk.
    { destruct k; [|lia]. exfalso. change (bi_radix ^ Z.of_nat 0) with 1 in Ha. assert (va = 0) as -> by lia.
      destruct (zero_form ca Hna Hva) as [_ E0]. unfold num_comps in Hge. rewrite E0 in Hge. cbn [length] in Hge. lia. }
    subst va vb. pose proof (nf_num_comps_le k ca Hna Hk Ha). pose proof (nf_num_comps_le k cb Hnb Hk Hb).
    apply (karatsuba_multiply_raw s a _ b _ G X (k - 1) ca cb); auto; [apply IH; lia|].
    pose proof (Nat.div_mod (Nat.max (num_comps ca) (num_comps cb) + 1) 2). lia.
Qed.

Lemma bi_multiply_raw s a va b vb G X :
  owns E s ((a, va) :: (b, vb) :: G) X ->
  wp (fun _ => bi_multiply a b) s (fun r s' =>
    exists c, normal_form c /\ cell_val c = va * vb /\ owns E s' G ((r, c) :: X)).
Proof.
  intros HO. apply wp_with_fuel.
  destruct (o_own _ _ _ _ HO a va) as (ca & _ & Hna & <-); [in_handles|].
  destruct (o_own _ _ _ _ HO b vb) as (cb & _ & Hnb & <-); [in_handles|].
  apply (bi_multiply_rec_raw (num_comps ca + num_comps cb)); [| |done].
  - eapply Z.lt_le_trans; [by apply nf_abs_bound|]. apply Z.pow_le_mono_r; [done | lia].
  - eapply Z.lt_le_trans; [by apply nf_abs_bound|]. apply Z.pow_le_mono_r; [done | lia].
Qed.

Lemma bi_multiply_spec s a va b vb G X :
  owns E s ((a, va) :: (b, vb) :: G) X ->
  wp (fun _ => bi_multiply a b) s (fun r s' => owns E s' ((r, va * vb) :: G) X).
Proof. intros. by apply wp_finish, bi_multiply_raw. Qed.

(** *** Squaring *)

Lemma regular_square_raw s a va G X :
  owns E s ((a, va) :: G) X ->
  wp (fun _ => regular_square a) s (fun r s' =>
    exists c, normal_form c /\ cell_val c = va * va /\ owns E s' G ((r, c) :: X)).
Proof.
  intros HO. unfold regular_square.
  step zero_spec. intros z s1 HO1. step clone_zero. intros r s2 (c0 & Hs0 & Hc0 & HO2).
  step deref_own. intros ca s3 (-> & _ & Hna & <-).
  destruct (regular_square_body_ok (garbage s2) ca c0 Hna Hs0 Hc0) as (Hn & Hv).
  step update_raw; [by refs_tac|]. intros _ s3 HO3. step_check.
  step bi_free_spec. intros _ s4 HO4. apply wp_ret.
  eexists. split; [exact Hn|]. split; [|exact HO4].
  etransitivity; [exact Hv|]. rewrite <- (nf_abs ca Hna). lia.
Qed.

Definition squares (k : nat) (sq : nat -> bigint -> M bigint) : Prop :=
  forall s x vx G X, Z.abs vx < bi_radix ^ Z.of_nat k -> owns E s ((x, vx) :: G) X ->
    wp (fun n => sq n x) s (fun r s' =>
      exists c, normal_form c /\ cell_val c = vx * vx /\ owns E s' G ((r, c) :: X)).

Lemma squares_spec k sq s x vx G X :
  squares k sq -> Z.abs vx < bi_radix ^ Z.of_nat k -> owns E s ((x, vx) :: G) X ->
  wp (fun n => sq n x) s (fun r s' => owns E s' ((r, vx * vx) :: G) X).
Proof.
  intros H Hx HO. eapply wp_mono; [exact (H _ _ _ _ _ Hx HO)|]. cbn beta.
  intros r s' (c & Hn & <- & HO'). by apply owns_finish.
Qed.

Lemma karatsuba_square_raw s a va G X k ca sq :
  squares k sq -> live s a ca -> normal_form ca -> cell_val ca = va ->
  (Nat.div (num_comps ca + 1) 2 + 1 <= k)%nat -> owns E s ((a, va) :: G) X ->
  wp (fun m => karatsuba_square (sq m) a) s (fun r s' =>
    exists c, normal_form c /\ cell_val c = va * va /\ owns E s' G ((r, c) :: X)).
Proof.
  intros Hsq Hla Hna Hva Hk HO. unfold karatsuba_square.
  apply wp_bind, (wp_deref s a ca); [apply Hla|]. cbn zeta. set (n := Nat.div _ 2) in *.
  assert (0 < num_comps ca)%nat as Hpa
    by (pose proof (nf_nonempty _ Hna); unfold num_comps; destruct (comps ca); [done | simpl; lia]).
  assert (0 < n /\ num_comps ca <= 2 * n)%nat as (Hn & Hn1)
    by (unfold n; pose proof (Nat.div_mod (num_comps ca + 1) 2);
        pose proof (Nat.mod_upper_bound (num_comps ca + 1) 2); lia).
  pose proof (nf_digits _ Hna) as Hda. clearbody n.
  step alloc_raw. intros i s1 (i0 & HO1). step alloc_raw. intros j s2 (j0 & HO2).
  step fill_half_raw. intros _ s5 HO5. step fill_half_raw. intros _ s6 HO6.
  step normalize_half; [done..|]. intros _ s9 HO9. step normalize_half; [done..|]. intros _ s12 HO12.
  clear HO HO1 HO2 HO5 HO6 HO9.
  destruct (half_cell_ok 0 n n (comps ca) i0 Hn Hda) as (_ & _ & Hi).
  destruct (half_cell_ok 0 0 n (comps ca) i0 Hn Hda) as (_ & _ & Hj).
  pose proof (split_comps_val n _ Hda Hn1) as Ea.
  set (vi := val (split_comps n n (comps ca))) in *. set (vj := val (split_comps 0 n (comps ca))) in *.
  destruct (half_sum_bound k n vi vj Hi Hj Hk) as (Bi & Bj & Bij).
  step bi_copy_spec. intros x s13 (-> & HO13).
  step (squares_spec k sq); [done..|]. intros ii s15 HO15.
  step bi_copy_spec. intros x s16 (-> & HO16).
  eapply wp_call; [eapply (Hsq s16 j vj); [done..|]; own|]. cbn beta.
  intros jj s18 (cj0 & Hnj0 & Hvj0 & HO18).
  destruct (owns_raw_unique _ _ _ _ _ _ HO18) as (_ & Hr & Hnp & _).
  apply owns_finish in HO18; [|done]. rewrite Hvj0 in HO18.
  step bi_add_spec. intros x s19 HO19. step (squares_spec k sq); [done..|]. intros z s21 HO21.
  step bi_copy_spec. intros y' s22 (-> & HO22). step bi_subtract_spec. intros x' s23 HO23.
  step bi_copy_spec. intros y'' s24 (-> & HO24). step bi_subtract_raw.
  intros mid s25 (cm & Hnm & Hvm & HO25).
  clear HO12 HO13 HO15 HO16 HO18 HO19 HO21 HO22 HO23 HO24.
  assert (owns E s25 ((jj, vj * vj) :: (ii, vi * vi) :: (a, va) :: G) ((mid, cm) :: X)) as HO26 by own.
  assert (mid <> jj) as Hne by (eapply (own_not_raw _ _ _ _ _ _ mid cm HO26); by left).
  apply owns_reopen in HO26 as (cj & Hnj & Hvj & HO26); [|clear -Hr Hne|done].
  2: { revert Hr. rewrite refs_in_handles_raw, !refs_in_handles_cons. pose proof (refs_in_nonneg jj (handles G X)).
       destruct (N.eq_dec mid jj); [done|].
       repeat match goal with |- context [N.eq_dec ?x ?y] => destruct (N.eq_dec x y) end; lia. }
  apply (owns_raw_perm _ _ _ _ ((mid, cm) :: (jj, cj) :: X)) in HO26; [|apply perm_swap].
  apply owns_finish in HO26; [|done]. rewrite Hvm in HO26. clear HO25.
  step deref_own. intros cm' s26 (-> & _ & Hnm' & Hvm').
  step deref_own. intros ci s27 (-> & _ & Hni & Hvi).
  step update_raw; [done|]. intros _ s28 HO28.
  step bi_free_spec. intros _ s29 HO29. step bi_free_spec. intros _ s30 HO30.
  step bi_free_spec. intros _ s32 HO32.
  step update_raw; [by refs_tac|]. intros _ s34 HO34.
  step_check. apply wp_ret. subst va.
  destruct (karatsuba_square_value (garbage s25) (garbage s32) n ca cm' ci cj vi vj) as [Hres Hval];
    try done; try lia.
  eexists. split; [exact Hres|]. split; [exact Hval | exact HO34].
Qed.

Lemma bi_square_rec_raw k : squares k bi_square_rec.
Proof.
  induction k as [k IH] using lt_wf_ind. intros s a va G X Ha HO.
  eapply wp_unfold; [intros n; reflexivity|]. cbn beta.
  step_check. step deref_own. intros ca s1 (-> & Hla & Hna & Hva).
  destruct (Nat.ltb_spec (num_comps ca) KARATSUBA_SQUARE_THRESH) as [Hlt|Hge].
  - by apply regular_square_raw.
  - unfold KARATSUBA_SQUARE_THRESH in Hge.
    assert (0 < k)%nat as Hk.
    { destruct k; [|lia]. exfalso. change (bi_radix ^ Z.of_nat 0) with 1 in Ha. assert (va = 0) as -> by lia.
      destruct (zero_form ca Hna Hva) as [_ E0]. unfold num_comps in Hge. rewrite E0 in Hge.
      cbn [length] in Hge. lia. }
    subst va. pose proof (nf_num_comps_le k ca Hna Hk Ha).
    apply (karatsuba_square_raw s a _ G X (k - 1) ca); auto; [apply IH; lia|].
    pose proof (Nat.div_mod (num_comps ca + 1) 2). lia.
Qed.

Lemma bi_square_raw s a va G X :
  owns E s ((a, va) :: G) X ->
  wp (fun _ => bi_square a) s (fun r s' =>
    exists c, normal_form c /\ cell_val c = va * va /\ owns E s' G ((r, c) :: X)).
Proof.
  intros HO. apply wp_with_fuel.
  destruct (o_own _ _ _ _ HO a va) as (ca & _ & Hna & <-); [in_handles|].
  apply (bi_square_rec_raw (num_comps ca)); [by apply nf_abs_bound | done].
Qed.

Lemma bi_square_spec s a va G X :
  owns E s ((a, va) :: G) X ->
  wp (fun _ => bi_square a) s (fun r s' => owns E s' ((r, va * va) :: G) X).
Proof. intros. by apply wp_finish, bi_square_raw. Qed.

(** *** Uses that keep the operand *)

Lemma copied_spec {A} (f : bigint -> M A) (w : A) s p v G X :
  (forall s', owns E s' ((p, v) :: (p, v) :: G) X ->
    wp (fun _ => f p) s' (fun r s'' => r = w /\ owns E s'' ((p, v) :: G) X)) ->
  owns E s ((p, v) :: G) X ->
  wp (fun _ => copied f p) s (fun r s' => r = w /\ owns E s' ((p, v) :: G) X).
Proof.
  intros Hf HO. unfold copied. step bi_copy_spec. intros x s1 (-> & HO1). by apply Hf.
Qed.

Definition is_odd_spec s p v G X := copied_spec bi_is_odd (Z.odd v) s p v G X
  (fun s' => bi_is_odd_spec s' p v ((p, v) :: G) X).
Definition is_zero_spec s p v G X := copied_spec bi_is_zero (v =? 0) s p v G X
  (fun s' => bi_is_zero_spec s' p v ((p, v) :: G) X).
Definition is_one_spec s p v G X := copied_spec bi_is_one (v =? 1) s p v G X
  (fun s' => bi_is_one_spec s' p v ((p, v) :: G) X).
Definition is_negative_spec s p v G X := copied_spec bi_is_negative (v <? 0) s p v G X
  (fun s' => bi_is_negative_spec s' p v ((p, v) :: G) X).
Definition bits_spec s p v G X := copied_spec bi_bits (bit_length v) s p v G X
  (fun s' => bi_bits_spec s' p v ((p, v) :: G) X).

Lemma bit_spec s p v n G X : 0 <= n -> owns E s ((p, v) :: G) X ->
  wp (fun _ => copied (fun x => bi_bit x n) p) s (fun r s' =>
    r = Z.testbit (Z.abs v) n /\ owns E s' ((p, v) :: G) X).
Proof. intros Hn. apply (copied_spec (fun x => bi_bit x n)). intros s' HO. by apply bi_bit_spec. Qed.

Lemma int_and_spec s p v m G X : 0 <= m < 2147483648 -> owns E s ((p, v) :: G) X ->
  wp (fun _ => copied (fun x => bi_int_and x m) p) s (fun r s' =>
    r = Z.land (Z.abs v) m /\ owns E s' ((p, v) :: G) X).
Proof. intros Hn. apply (copied_spec (fun x => bi_int_and x m)). intros s' HO. by apply bi_int_and_spec. Qed.

Lemma compare_const_spec k w s p v G X :
  (k (e_globals E), w) ∈ e_permanent E -> owns E s ((p, v) :: G) X ->
  wp (fun _ => compare_const p k) s (fun r s' => r = Z.sgn (v - w) /\ owns E s' ((p, v) :: G) X).
Proof.
  intros Hk HO. unfold compare_const. step bi_copy_spec. intros x s1 (-> & HO1).
  step constant_spec; [exact Hk|]. intros y s2 HO2. step_last bi_compare_spec. done.
Qed.

Definition compare_0_spec s p v G X := compare_const_spec bi_0 0 s p v G X (env_0 E HE).
Definition compare_1_spec s p v G X := compare_const_spec bi_1 1 s p v G X (env_1 E HE).
Definition compare_2_spec s p v G X := compare_const_spec bi_2 2 s p v G X (env_2 E HE).
Definition compare_m1_spec s p v G X := compare_const_spec bi_m1 (-1) s p v G X (env_m1 E HE).

Lemma compare_copies_spec s p v q w G X :
  owns E s ((p, v) :: (q, w) :: G) X ->
  wp (fun _ => compare_copies p q) s (fun r s' =>
    r = Z.sgn (v - w) /\ owns E s' ((p, v) :: (q, w) :: G) X).
Proof.
  intros HO. unfold compare_copies. step bi_copy_spec. intros x s1 (-> & HO1).
  step bi_copy_spec. intros y s2 (-> & HO2). step_last bi_compare_spec.
  intros r s3 (-> & HO3). split; [done | own].
Qed.
End specs.
