(* ===== verification/BigDiv.v ===== *)
(** * Division (bigint_int.c) and the operations that reduce modulo a bigint

    [bi_divide] with the successive approximation of [multi_divide] and
    [multi_divide2]; [bi_rem], [bi_mod], [bi_int_mod] and the modular
    arithmetic that needs nothing else.  The quotient [bi_divide] returns is the
    floor or the ceiling of the exact one ([near_quotient]); which of the two
    depends on the depth of the recursion, and [bi_mod] is correct with either. *)

From Stdlib Require Import ZArith Lia.
From stdpp Require Import base numbers list gmap strings.
From S2P Require Import Prelude BigComps BigCell BigHeap BigInt.

Open Scope Z_scope.

(** ** Code *)

(** [ecsqrt]: the integer square root of a component. *)
Fixpoint ecsqrt_loop (n : nat) (c r : Z) : M Z :=
  match n with
  | O => fail Out_of_fuel
  | S n =>
      if r =? 0 then fail Div_by_zero else
      let r2 := Z.quot c r in
      let diff := sub64 r r2 in
      if (diff =? 0) || (diff =? -1) then mret (wrap32 r)
      else if diff =? 1 then mret (wrap32 r2)
      else ecsqrt_loop n c (Z.quot (add64 r r2) 2)
  end.
Definition ecsqrt (c : Z) : M Z :=
  signal_if (c <? 0) "csqrt: imaginary result";;
  with_fuel (fun n => ecsqrt_loop n c (Z.quot c 2)).

(** [bi_initialize] sets it to [ecsqrt( bi_radix )]. *)
Definition bi_radix_sqrt : Z := 46340.

(** The loop that "downshifts" [biapprox] by [o] components. *)
Definition downshift (o : nat) (bi : real_bigint) : real_bigint :=
  set_array (num_comps bi - o) (drop o (comps bi) ++ drop (num_comps bi - o) (array bi)) bi.

Fixpoint multi_divide2 (n : nat) (binumer bidenom : bigint) : M bigint :=
  match n with
  | O => fail Out_of_fuel
  | S n =>
      cd ← deref bidenom;
      let o := (num_comps cd - 1)%nat in
      x ← bi_copy binumer;
      biapprox ← bi_int_divide x (wrap32 (nth o (comps cd) 0));
      update biapprox (fun _ => downshift o);;
      x ← bi_copy biapprox;
      y ← bi_copy bidenom;
      x ← bi_multiply x y;
      birem ← bi_subtract x binumer;
      neg ← copied bi_is_negative birem;
      zero ← (if neg : bool then mret true else copied bi_is_zero birem);
      if zero : bool then
        bi_free birem;;
        bi_free bidenom;;
        mret biapprox
      else
        r ← compare_copies birem bidenom;
        if r <? 0 then
          biquotient ← bi_int_subtract biapprox 1;
          bi_free birem;;
          bi_free bidenom;;
          mret biquotient
        else
          x ← multi_divide2 n birem bidenom;
          bi_subtract biapprox x
  end.

Definition multi_divide (binumer bidenom : bigint) : M bigint :=
  cd ← deref bidenom;
  '(binumer, bidenom) ←
    (if nth (num_comps cd - 1) (comps cd) 0 <? bi_radix_sqrt then
       x ← bi_int_multiply binumer bi_radix_sqrt;
       y ← bi_int_multiply bidenom bi_radix_sqrt;
       mret (x, y)
     else mret (binumer, bidenom));
  with_fuel (fun n => multi_divide2 n binumer bidenom).

(** The body [bi_divide] shares with [bi_binary_divide]: signs, trivial cases and
    small denominators; [full] is "a full multi-by-multi divide". *)
Definition divide_by (full : bigint -> bigint -> M bigint) (binumer bidenom : bigint) : M bigint :=
  r ← compare_const bidenom bi_0;
  '(sign, bidenom) ←
    (if r =? 0 then sigfpe "bi_divide: divide by zero"
     else if r =? -1 then x ← bi_negate bidenom; mret (-1, x)
     else mret (1, bidenom));
  r ← compare_const binumer bi_0;
  if r =? 0 then
    bi_free binumer;; bi_free bidenom;; constant bi_0
  else
  '(sign, binumer) ←
    (if r =? -1 then x ← bi_negate binumer; mret (sign * -1, x)
     else mret (sign, binumer));
  r ← compare_copies binumer bidenom;
  if r =? -1 then
    bi_free binumer;; bi_free bidenom;; constant bi_0
  else if r =? 0 then
    bi_free binumer;; bi_free bidenom;; (if sign =? 1 then constant bi_1 else constant bi_m1)
  else
  cd ← deref bidenom;
  biquotient ←
    (if (num_comps cd =? 1)%nat then
       x ← bi_int_divide binumer (wrap32 (hd 0 (comps cd)));
       bi_free bidenom;;
       mret x
     else full binumer bidenom);
  if sign =? -1 then bi_negate biquotient else mret biquotient.

Definition bi_divide : bigint -> bigint -> M bigint := divide_by multi_divide.

(** *** bigint_ext.c *)

Definition bi_int_mod (bi : bigint) (m : Z) : M Z :=
  signal_if (m <=? 0) "bi_int_mod: zero or negative modulus";;
  r ← bi_int_rem bi m;
  mret (if r <? 0 then wrap32 (r + m) else r).

Definition bi_rem (bia bim : bigint) : M bigint :=
  x ← bi_copy bia;
  y ← bi_copy bim;
  x ← bi_divide x y;
  x ← bi_multiply x bim;
  bi_subtract bia x.

Definition bi_mod (bia bim : bigint) : M bigint :=
  r ← compare_const bim bi_0;
  signal_if (r <=? 0) "bi_mod: zero or negative modulus";;
  x ← bi_copy bim;
  biR ← bi_rem bia x;
  neg ← copied bi_is_negative biR;
  if neg : bool then bi_add biR bim else bi_free bim;; mret biR.

(** "Take a mod before doing the multiply." *)
Definition pre_mod (bia bim : bigint) : M bigint :=
  neg ← copied bi_is_negative bia;
  out ← (if neg : bool then mret true else r ← compare_copies bia bim; mret (0 <=? r));
  if out : bool then x ← bi_copy bim; bi_mod bia x else mret bia.

Definition bi_mod_multiply (bia bib bim : bigint) : M bigint :=
  bia ← pre_mod bia bim;
  bib ← pre_mod bib bim;
  x ← bi_multiply bia bib;
  bi_mod x bim.

Definition bi_mod_square (bi bim : bigint) : M bigint :=
  x ← bi_copy bi;
  y ← bi_copy bi;
  biR ← bi_mod_multiply x y bim;
  bi_free bi;;
  mret biR.

(** Is an operand outside of [0..bim)? *)
Definition out_of_range (bia bib bim : bigint) : M bool :=
  neg ← copied bi_is_negative bia;
  if neg : bool then mret true else
  neg ← copied bi_is_negative bib;
  if neg : bool then mret true else
  r ← compare_copies bia bim;
  if 0 <=? r then mret true else
  r ← compare_copies bib bim;
  mret (0 <=? r).

Definition bi_mod_add (bia bib bim : bigint) : M bigint :=
  r ← compare_const bim bi_0;
  signal_if (r <=? 0) "bi_mod: zero or negative modulus";;
  out ← out_of_range bia bib bim;
  if out : bool then x ← bi_add bia bib; bi_mod x bim else
  biR ← bi_add bia bib;
  r ← compare_copies biR bim;
  if 0 <=? r then bi_subtract biR bim else bi_free bim;; mret biR.

Definition bi_mod_subtract (bia bib bim : bigint) : M bigint :=
  r ← compare_const bim bi_0;
  signal_if (r <=? 0) "bi_mod: zero or negative modulus";;
  out ← out_of_range bia bib bim;
  if out : bool then x ← bi_subtract bia bib; bi_mod x bim else
  biR ← bi_subtract bia bib;
  neg ← copied bi_is_negative biR;
  if neg : bool then bi_add biR bim else bi_free bim;; mret biR.

(** ** The meaning of the pieces *)

(** The floor or the ceiling of the exact quotient. *)
Definition near_quotient (n d q : Z) : Prop := Z.abs (n - q * d) < Z.abs d.

Lemma near_quotient_exact d k q : d <> 0 -> near_quotient (k * d) d q -> q = k.
Proof.
  unfold near_quotient. intros Hd H. replace (k * d - q * d) with ((k - q) * d) in H by ring.
  rewrite Z.abs_mul in H. destruct (Z.eq_dec q k); [done|]. assert (1 <= Z.abs (k - q)) by lia. nia.
Qed.

Lemma near_quotient_quot n d : d <> 0 -> near_quotient n d (Z.quot n d).
Proof.
  intros Hd. unfold near_quotient. pose proof (Z.quot_rem n d Hd) as E.
  replace (n - Z.quot n d * d) with (Z.rem n d) by lia. by apply Z.rem_bound_abs.
Qed.

Lemma near_quotient_floor_ceil n d q : 0 < d ->
  (near_quotient n d q <-> q = n / d \/ q = - ((- n) / d)).
Proof.
  intros Hd. unfold near_quotient. rewrite (Z.abs_eq d) by lia.
  pose proof (Z.div_mod n d ltac:(lia)) as E1. pose proof (Z.mod_pos_bound n d Hd).
  pose proof (Z.div_mod (- n) d ltac:(lia)) as E2. pose proof (Z.mod_pos_bound (- n) d Hd).
  set (a := n / d) in *. set (b := (- n) / d) in *. clearbody a b.
  assert (a <= - b <= a + 1) as Hab by nia. split.
  - intros Hq. assert (a <= q <= a + 1) by nia.
    destruct (Z.eq_dec q a); [by left|]. right. assert (q = a + 1) by lia. nia.
  - intros [-> | ->]; apply Z.abs_lt; nia.
Qed.

Lemma near_quotient_opp_num n d q : near_quotient n d q <-> near_quotient (- n) d (- q).
Proof. unfold near_quotient. replace (- n - - q * d) with (- (n - q * d)) by ring. by rewrite Z.abs_opp. Qed.

Lemma near_quotient_opp_den n d q : near_quotient n d q <-> near_quotient n (- d) (- q).
Proof. unfold near_quotient. rewrite Z.abs_opp. by replace (n - - q * - d) with (n - q * d) by ring. Qed.

Lemma near_quotient_pos n d q : 0 < d -> d <= n -> near_quotient n d q -> 0 < q.
Proof. unfold near_quotient. intros Hd Hn H. apply Z.abs_lt in H. rewrite Z.abs_eq in H by lia. nia. Qed.

Lemma near_quotient_scale k n d q : 0 < k -> near_quotient (n * k) (d * k) q <-> near_quotient n d q.
Proof.
  intros Hk. unfold near_quotient. replace (n * k - q * (d * k)) with ((n - q * d) * k) by ring.
  rewrite !Z.abs_mul, (Z.abs_eq k) by lia. symmetry. by apply Z.mul_lt_mono_pos_r.
Qed.

(** The size of a number and its top component. *)
Lemma nf_num_comps_eq o bi : normal_form bi ->
  bi_radix ^ Z.of_nat o <= val (comps bi) < bi_radix ^ Z.of_nat (o + 1) -> num_comps bi = (o + 1)%nat.
Proof.
  intros Hn [Hl Hu].
  assert (num_comps bi <= o + 1)%nat by (apply nf_num_comps_le; [done | lia | by rewrite nf_abs]).
  destruct (Nat.eq_dec (num_comps bi) (o + 1)%nat) as [|Hne]; [done|]. exfalso.
  pose proof (nf_abs_bound bi Hn) as Hb. rewrite nf_abs in Hb by done.
  pose proof (Z.pow_le_mono_r bi_radix (Z.of_nat (num_comps bi)) (Z.of_nat o) bi_radix_pos ltac:(lia)). lia.
Qed.

Lemma nf_top_val bi : normal_form bi ->
  let t := nth (num_comps bi - 1) (comps bi) 0 in
  let B := bi_radix ^ Z.of_nat (num_comps bi - 1) in
  t * B <= val (comps bi) < (t + 1) * B /\ 0 <= t < bi_radix.
Proof.
  intros Hn. cbn zeta. pose proof (nf_nonempty _ Hn) as Hne. pose proof (nf_digits _ Hn) as Hd.
  assert (nth (num_comps bi - 1) (comps bi) 0 = top (comps bi)) as ->.
  { unfold num_comps. rewrite (split_top (comps bi) Hne) at 2.
    pose proof (length_removelast (comps bi) Hne).
    rewrite app_nth2 by lia. replace (_ - _)%nat with 0%nat by lia. done. }
  pose proof (digits_top _ Hd) as Ht. unfold digit in Ht. split; [|done].
  rewrite (split_top (comps bi) Hne), val_app.
  pose proof (length_removelast (comps bi) Hne) as Hlen.
  pose proof (digits_bound _ (digits_removelast _ Hd)) as Hb.
  replace (num_comps bi - 1)%nat with (length (removelast (comps bi))) by (unfold num_comps; lia).
  rewrite <- (split_top (comps bi) Hne). cbn [val]. nia.
Qed.

Lemma val_drop o l : digits l -> val (drop o l) = val l / bi_radix ^ Z.of_nat o.
Proof.
  intros Hd. pose proof (Z.pow_pos_nonneg bi_radix (Z.of_nat o) bi_radix_pos ltac:(lia)) as Hp.
  destruct (Nat.le_gt_cases o (length l)) as [Hle|Hgt].
  - rewrite <- (take_drop o l) at 2. rewrite val_app, length_take_le by done.
    pose proof (digits_bound (take o l)) as Hb. rewrite length_take_le in Hb by done.
    specialize (Hb (Forall_take _ _ _ Hd)).
    rewrite Z.mul_comm, Z.div_add by lia. rewrite Z.div_small by lia. done.
  - rewrite drop_ge by lia. pose proof (digits_bound _ Hd) as Hb.
    pose proof (Z.pow_le_mono_r bi_radix (Z.of_nat (length l)) (Z.of_nat o) bi_radix_pos ltac:(lia)).
    rewrite Z.div_small by lia. done.
Qed.

Lemma top_drop o l : (o < length l)%nat -> top (drop o l) = top l.
Proof.
  revert l. induction o as [|o IH]; intros [|x [|y l]] Ho; simpl in Ho; try lia; try done.
  rewrite skipn_cons, IH by (simpl; lia). done.
Qed.

Lemma downshift_ok o bi : normal_form bi -> sign bi = 1 -> (o < num_comps bi)%nat ->
  normal_form (downshift o bi) /\ cell_val (downshift o bi) = cell_val bi / bi_radix ^ Z.of_nat o /\
  refs (downshift o bi) = refs bi.
Proof.
  intros [Hs Hne Hd Ht Hz] E Ho.
  assert (comps (downshift o bi) = drop o (comps bi)) as Ec.
  { unfold downshift, set_array. cbn [comps]. rewrite take_app_le by (rewrite length_drop; unfold num_comps; lia).
    apply take_ge. rewrite length_drop. unfold num_comps. lia. }
  assert (drop o (comps bi) <> []) as Hne'
    by (intros En; apply (f_equal length) in En; rewrite length_drop in En; unfold num_comps in Ho; simpl in En; lia).
  split; [split|split; [|done]]; rewrite ?Ec.
  - by left.
  - done.
  - by apply Forall_drop.
  - unfold num_comps. rewrite Ec. intros Hlen. rewrite length_drop in Hlen.
    rewrite top_drop by done. apply Ht. unfold num_comps. lia.
  - intros _. exact E.
  - unfold cell_val. rewrite Ec. cbn [sign downshift set_array]. rewrite E, !Z.mul_1_l. by apply val_drop.
Qed.

(** One level of [multi_divide2]: the approximation is not below the quotient,
    and what is left to divide is smaller. *)
Lemma approximate n d t B : 0 < B -> 2 <= t -> t * B <= d < (t + 1) * B -> d <= n ->
  let q := n / t / B in
  1 <= q /\ q * d - n < n /\ (q * d - n <= 0 -> near_quotient n d q) /\
  (0 < q * d - n < d -> near_quotient n d (q - 1)) /\
  (forall q', near_quotient (q * d - n) d q' -> near_quotient n d (q - q')).
Proof.
  intros HB Ht Hd Hn. cbn zeta. rewrite Z.div_div by lia. set (q := n / (t * B)).
  assert (0 < t * B) as HtB by nia.
  pose proof (Z.div_mod n (t * B) ltac:(lia)) as E. pose proof (Z.mod_pos_bound n (t * B) HtB) as Hr.
  fold q in E. clearbody q. assert (1 <= q) as Hq by nia.
  split; [done|]. unfold near_quotient. rewrite (Z.abs_eq d) by nia. split; [|split; [|split]].
  - assert (q * d < q * ((t + 1) * B)) by nia. assert (2 * (q * B) <= n) by nia. nia.
  - intros H. apply Z.abs_lt. nia.
  - intros H. apply Z.abs_lt. nia.
  - intros q' H. replace (n - (q - q') * d) with (- (q * d - n - q' * d)) by ring. by rewrite Z.abs_opp.
Qed.

(** ** Specifications *)

(** [d] has top component [t >= 2] at position [o]. *)
Definition conditioned (o : nat) (t d : Z) : Prop :=
  let B := bi_radix ^ Z.of_nat o in 2 <= t < bi_radix /\ t * B <= d < (t + 1) * B.

Lemma conditioned_cell o t d c : conditioned o t d -> normal_form c -> cell_val c = d ->
  num_comps c = (o + 1)%nat /\ nth o (comps c) 0 = t.
Proof.
  intros (Ht & Hd) Hn Hv. pose proof (Z.pow_pos_nonneg bi_radix (Z.of_nat o) bi_radix_pos ltac:(lia)) as HB.
  set (B := bi_radix ^ Z.of_nat o) in *.
  assert (val (comps c) = d) as Ev by (rewrite <- nf_abs by done; nia).
  assert (num_comps c = (o + 1)%nat) as En.
  { apply nf_num_comps_eq; [done|]. rewrite Nat2Z.inj_add, Z.pow_add_r, Z.pow_1_r by lia. fold B. nia. }
  split; [done|]. destruct (nf_top_val c Hn) as [H1 H2]. rewrite En in H1, H2.
  replace (o + 1 - 1)%nat with o in * by lia. fold B in H1. rewrite Ev in H1. nia.
Qed.

(** The approximation before the shift has more than [o] components. *)
Lemma approx_comps n o t d c : conditioned o t d -> d <= n -> normal_form c -> cell_val c = n / t ->
  sign c = 1 /\ (o < num_comps c)%nat.
Proof.
  intros (Ht & Hd) Hn Hc Hv. cbn zeta in Hd.
  pose proof (Z.pow_pos_nonneg bi_radix (Z.of_nat o) bi_radix_pos ltac:(lia)) as HB.
  assert (bi_radix ^ Z.of_nat o <= n / t) as Hlow by (apply Z.div_le_lower_bound; lia).
  split.
  - destruct (nf_sign _ Hc) as [|Es]; [done|]. apply (nf_neg _ Hc) in Es. lia.
  - pose proof (nf_abs_bound c Hc) as Hb. rewrite Hv, Z.abs_eq in Hb by lia.
    destruct (Nat.le_gt_cases (num_comps c) o) as [Hle|]; [|done]. exfalso.
    pose proof (Z.pow_le_mono_r bi_radix (Z.of_nat (num_comps c)) (Z.of_nat o) bi_radix_pos ltac:(lia)). lia.
Qed.

(** Multiplying both sides by [bi_radix_sqrt] when the top component is small. *)
Lemma condition_small c : normal_form c -> (1 < num_comps c)%nat -> 0 < cell_val c ->
  let o := (num_comps c - 1)%nat in
  let t := nth o (comps c) 0 in
  if t <? bi_radix_sqrt
  then exists t', conditioned o t' (cell_val c * bi_radix_sqrt)
  else conditioned o t (cell_val c).
Proof.
  intros Hn Hlen Hpos. cbn zeta. destruct (nf_top_val c Hn) as [Hv Ht].
  rewrite <- (nf_abs c Hn), Z.abs_eq in Hv by lia. set (o := (num_comps c - 1)%nat) in *.
  set (t := nth o (comps c) 0) in *. set (d := cell_val c) in *.
  unfold conditioned. cbn zeta.
  pose proof (Z.pow_pos_nonneg bi_radix (Z.of_nat o) bi_radix_pos ltac:(lia)) as HB.
  set (B := bi_radix ^ Z.of_nat o) in *.
  assert (B <= d) as HBd.
  { pose proof (nf_val_pos c Hn Hlen) as H. rewrite <- (nf_abs c Hn), Z.abs_eq in H by (unfold d in *; lia).
    unfold B, o. rewrite Nat2Z.inj_sub by lia. exact H. }
  clearbody B d t. unfold bi_radix_sqrt, bi_radix in *.
  destruct (Z.ltb_spec t 46340) as [Hlt|Hge]; [|lia].
  exists (d * 46340 / B).
  pose proof (Z.div_mod (d * 46340) B ltac:(lia)) as E.
  pose proof (Z.mod_pos_bound (d * 46340) B ltac:(lia)). set (q := d * 46340 / B) in *. clearbody q.
  nia.
Qed.

Lemma one_comp c : normal_form c -> num_comps c = 1%nat ->
  hd 0 (comps c) = Z.abs (cell_val c) /\ 0 <= hd 0 (comps c) < bi_radix.
Proof.
  intros Hn H1. rewrite nf_abs by done. pose proof (nf_digits _ Hn) as Hd. unfold num_comps in H1.
  destruct (comps c) as [|x [|]]; simpl in H1; try lia. inversion Hd; subst. cbn [hd val].
  split; [ring | done].
Qed.

Lemma several_val c : normal_form c -> num_comps c <> 1%nat -> bi_radix <= val (comps c).
Proof.
  intros Hn H1. assert (1 < num_comps c)%nat as Hlen.
  { pose proof (nf_nonempty _ Hn). unfold num_comps in *. destruct (comps c); simpl in *; [done | lia]. }
  pose proof (nf_val_pos c Hn Hlen) as H.
  pose proof (Z.pow_le_mono_r bi_radix 1 (Z.of_nat (num_comps c) - 1) bi_radix_pos ltac:(lia)) as Hp.
  rewrite Z.pow_1_r in Hp. lia.
Qed.

(** What the shared body of the divisions returns for magnitudes [n] and [d],
    given what [full] returns. *)
Definition magnitude_quotient (full : Z -> Z -> Z -> Prop) (n d u : Z) : Prop :=
  if (n <=? d) || (d <? bi_radix) then u = n / d else full n d u.

Lemma magnitude_near n d u : d <> 0 -> magnitude_quotient near_quotient (Z.abs n) (Z.abs d) u ->
  near_quotient n d (Z.sgn n * Z.sgn d * u).
Proof.
  intros Hd H. assert (near_quotient (Z.abs n) (Z.abs d) u) as Hq.
  { unfold magnitude_quotient in H. destruct (_ || _); [|done]. subst u.
    rewrite <- Z.quot_div_nonneg by lia. apply near_quotient_quot. lia. }
  unfold near_quotient in *. rewrite Z.abs_idemp in Hq.
  replace (n - Z.sgn n * Z.sgn d * u * d) with (Z.sgn n * (Z.abs n - u * Z.abs d)).
  2: { transitivity (Z.abs n * Z.sgn n - Z.sgn n * u * (d * Z.sgn d)); [rewrite Z.sgn_abs | rewrite Z.abs_sgn]; ring. }
  destruct (Z.eq_dec n 0) as [->|]; [simpl; lia|]. rewrite Z.abs_mul. nia.
Qed.

Lemma magnitude_small full n d u : d <> 0 -> Z.abs d < bi_radix ->
  magnitude_quotient full (Z.abs n) (Z.abs d) u -> Z.sgn n * Z.sgn d * u = Z.quot n d.
Proof.
  intros Hd Hs H. unfold magnitude_quotient in H.
  apply Z.ltb_lt in Hs. rewrite Hs, orb_true_r in H. subst u. symmetry. by apply Z.quot_div.
Qed.

Section specs.
Context (E : env) (HE : env_ok E).

Lemma multi_divide2_spec o t d k : conditioned o t d -> forall s a b G X,
  d <= Z.of_nat k -> owns E s ((a, Z.of_nat k) :: (b, d) :: G) X ->
  wp (fun m => multi_divide2 m a b) s (fun r s' =>
    exists q, near_quotient (Z.of_nat k) d q /\ owns E s' ((r, q) :: G) X).
Proof.
  intros Hc. pose proof Hc as (Ht & Hd). cbn zeta in Hd.
  pose proof (Z.pow_pos_nonneg bi_radix (Z.of_nat o) bi_radix_pos ltac:(lia)) as HB.
  induction k as [k IH] using lt_wf_ind. intros s a b G X Hk HO.
  destruct (approximate (Z.of_nat k) d t _ HB ltac:(lia) Hd Hk) as (Hq1 & Hless & Hle & Hmid & Hrec).
  set (n := Z.of_nat k) in *. set (q := n / t / bi_radix ^ Z.of_nat o) in *.
  eapply wp_unfold; [intros m; reflexivity|]. cbn beta.
  step deref_own. intros cd s1 (-> & _ & Hnd & Hvd).
  destruct (conditioned_cell o t d cd Hc Hnd Hvd) as [En Et]. rewrite En. cbn zeta.
  replace (o + 1 - 1)%nat with o by lia. rewrite Et, wrap32_id by (unfold int32, bi_radix in *; lia).
  step bi_copy_spec. intros x s2 (-> & HO2).
  step bi_int_divide_raw; [unfold int32, bi_radix in *; lia..|].
  intros p s3 (cp & Hnp & Hvp & HO3). rewrite Z.quot_div_nonneg in Hvp by lia.
  destruct (approx_comps n o t d cp Hc Hk Hnp Hvp) as [Hsp Hop].
  destruct (downshift_ok o cp Hnp Hsp Hop) as (Hn2 & Hv2 & Hr2). rewrite Hvp in Hv2. fold q in Hv2.
  step update_raw. intros _ s4 HO4. apply owns_finish in HO4; [|done]. rewrite Hv2 in HO4.
  step bi_copy_spec. intros x s5 (-> & HO5). step bi_copy_spec. intros y s6 (-> & HO6).
  step bi_multiply_spec. intros x s7 HO7. step bi_subtract_spec. intros rem s8 HO8.
  step is_negative_spec. intros neg s9 (-> & HO9).
  eapply (wp_call _ _ _ (fun z s' => z = (q * d - n <=? 0) /\
    owns E s' ((rem, q * d - n) :: (p, q) :: (b, d) :: G) X)).
  { destruct (Z.ltb_spec (q * d - n) 0).
    - apply wp_ret. split; [symmetry; apply Z.leb_le; lia | own].
    - step_last is_zero_spec. intros z s' (-> & HO'). split; [|own].
      destruct (Z.eqb_spec (q * d - n) 0), (Z.leb_spec (q * d - n) 0); lia. }
  intros z s10 (-> & HO10). clear HO HO2 HO3 HO4 HO5 HO6 HO7 HO8 HO9.
  destruct (Z.leb_spec (q * d - n) 0) as [Hneg|Hpos].
  { step bi_free_spec. intros _ s11 HO11. step bi_free_spec. intros _ s12 HO12.
    apply wp_ret. eauto. }
  step compare_copies_spec. intros r s11 (-> & HO11).
  destruct (Z.ltb_spec (Z.sgn (q * d - n - d)) 0) as [Hlt|Hge].
  { step bi_int_subtract_spec; [unfold int32; lia|]. intros q' s12 HO12.
    step bi_free_spec. intros _ s13 HO13. step bi_free_spec. intros _ s14 HO14.
    apply wp_ret. exists (q - 1). split; [apply Hmid; lia | done]. }
  eapply wp_call.
  { eapply (IH (Z.to_nat (q * d - n))); [lia | | rewrite Z2Nat.id by lia; own]. lia. }
  cbn beta. intros x' s12 (q' & Hq' & HO12). rewrite Z2Nat.id in Hq' by lia.
  step_last bi_subtract_spec. intros r s13 HO13. exists (q - q'). split; [by apply Hrec | done].
Qed.

(** A division of positive numbers, the denominator of several components. *)
Definition full_divides (P : Z -> Z -> Prop) (F : Z -> Z -> Z -> Prop)
  (full : bigint -> bigint -> M bigint) : Prop :=
  forall s a n b d G X, P n d -> bi_radix <= d < n -> owns E s ((a, n) :: (b, d) :: G) X ->
    wp (fun _ => full a b) s (fun r s' => exists q, F n d q /\ owns E s' ((r, q) :: G) X).

Lemma several_comps d c : bi_radix <= d -> normal_form c -> cell_val c = d -> (1 < num_comps c)%nat.
Proof.
  intros Hd Hn Hv. destruct (Nat.le_gt_cases (num_comps c) 1) as [Hle|]; [|done]. exfalso.
  pose proof (nf_abs_bound c Hn) as Hb. rewrite Hv in Hb.
  pose proof (Z.pow_le_mono_r bi_radix (Z.of_nat (num_comps c)) 1 bi_radix_pos ltac:(lia)) as Hp.
  rewrite Z.pow_1_r in Hp. unfold bi_radix in *. lia.
Qed.

Lemma multi_divide_full : full_divides (fun _ _ => True) near_quotient multi_divide.
Proof.
  intros s a n b d G X _ Hd HO. assert (0 < d) as Hpos by (unfold bi_radix in Hd; lia).
  unfold multi_divide. step deref_own. intros cd s1 (-> & _ & Hn & Hv).
  pose proof (several_comps d cd ltac:(lia) Hn Hv) as Hlen.
  pose proof (condition_small cd Hn Hlen ltac:(lia)) as Hc. cbn zeta in Hc. rewrite Hv in Hc.
  set (o := (num_comps cd - 1)%nat) in *.
  eapply (wp_call _ _ _ (fun '(x, y) s' => exists k t, 0 < k /\ conditioned o t (d * k) /\
    owns E s' ((x, n * k) :: (y, d * k) :: G) X)).
  { destruct (_ <? _).
    - destruct Hc as (t & Hc). step bi_int_multiply_spec; [by unfold int32, bi_radix_sqrt.. |].
      intros x s2 HO2. step bi_int_multiply_spec; [by unfold int32, bi_radix_sqrt.. |].
      intros y s3 HO3. apply wp_ret. exists bi_radix_sqrt, t. split; [done|]. split; [done | own].
    - apply wp_ret. exists 1, (nth o (comps cd) 0). rewrite !Z.mul_1_r. auto with lia. }
  intros [x y] s2 (k & t & Hk & Hct & HO2). apply wp_with_fuel.
  eapply wp_mono.
  { eapply (multi_divide2_spec o t (d * k) (Z.to_nat (n * k)) Hct); rewrite Z2Nat.id by nia; [nia | exact HO2]. }
  cbn beta. intros r s' (q & Hq & HO3). rewrite Z2Nat.id in Hq by nia. exists q.
  split; [|done]. by apply (near_quotient_scale k).
Qed.

Lemma divide_by_spec P F full s a n b d G X :
  full_divides P F full -> P (Z.abs n) (Z.abs d) -> (forall n d u, 0 < d < n -> F n d u -> 0 < u) ->
  d <> 0 -> owns E s ((a, n) :: (b, d) :: G) X ->
  wp (fun _ => divide_by full a b) s (fun r s' => exists u,
    magnitude_quotient F (Z.abs n) (Z.abs d) u /\
    owns E s' ((r, Z.sgn n * Z.sgn d * u) :: G) X).
Proof.
  intros Hfull HP HF Hd HO. unfold divide_by.
  step compare_0_spec. intros r s1 (-> & HO1). rewrite Z.sub_0_r.
  eapply (wp_call _ _ _ (fun '(sg, p) s' => sg = Z.sgn d /\
    owns E s' ((p, Z.abs d) :: (a, n) :: G) X)).
  { destruct (Z.eqb_spec (Z.sgn d) 0) as [|_]; [lia|]. destruct (Z.eqb_spec (Z.sgn d) (-1)).
    - step bi_negate_spec. intros x s2 HO2. apply wp_ret. split; [done|].
      replace (Z.abs d) with (- d) by lia. own.
    - apply wp_ret. split; [lia|]. replace (Z.abs d) with d by lia. own. }
  intros [sg b'] s2 (-> & HO2). clear HO HO1.
  step compare_0_spec. intros r s3 (-> & HO3). rewrite Z.sub_0_r.
  destruct (Z.eqb_spec (Z.sgn n) 0) as [E0|E0].
  { step bi_free_spec. intros _ s4 HO4. step bi_free_spec. intros _ s5 HO5.
    step_last zero_spec. intros z s6 HO6. exists 0. assert (n = 0) as -> by lia.
    split; [|exact HO6]. unfold magnitude_quotient. rewrite (proj2 (Z.leb_le _ _)) by lia. cbn [orb].
    symmetry. apply Z.div_0_l. lia. }
  eapply (wp_call _ _ _ (fun '(sg, p) s' => sg = Z.sgn n * Z.sgn d /\
    owns E s' ((p, Z.abs n) :: (b', Z.abs d) :: G) X)).
  { destruct (Z.eqb_spec (Z.sgn n) (-1)).
    - step bi_negate_spec; [lia|]. intros x s4 HO4. apply wp_ret. split; [lia|].
      replace (Z.abs n) with (- n) by lia. own.
    - apply wp_ret. split; [lia|]. replace (Z.abs n) with n by lia. own. }
  intros [sg a'] s4 (-> & HO4). clear HO2 HO3.
  step compare_copies_spec. intros r s5 (-> & HO5).
  destruct (Z.eqb_spec (Z.sgn (Z.abs n - Z.abs d)) (-1)) as [Hlt|Hnlt].
  { step bi_free_spec. intros _ s6 HO6. step bi_free_spec. intros _ s7 HO7.
    step_last zero_spec. intros z s8 HO8. exists 0. rewrite Z.mul_0_r. split; [|exact HO8].
    unfold magnitude_quotient. rewrite (proj2 (Z.leb_le _ _)) by lia. simpl.
    rewrite Z.div_small; lia. }
  destruct (Z.eqb_spec (Z.sgn (Z.abs n - Z.abs d)) 0) as [Heq|Hneq].
  { step bi_free_spec. intros _ s6 HO6. step bi_free_spec. intros _ s7 HO7.
    assert (magnitude_quotient F (Z.abs n) (Z.abs d) 1) as Hm.
    { unfold magnitude_quotient. rewrite (proj2 (Z.leb_le _ _)) by lia. simpl.
      replace (Z.abs n) with (Z.abs d) by lia. symmetry. apply Z.div_same. lia. }
    destruct (Z.eqb_spec (Z.sgn n * Z.sgn d) 1) as [E1|E1].
    - step_last one_spec. intros z s8 HO8. exists 1. rewrite E1. auto.
    - step_last m1_spec. intros z s8 HO8. exists 1.
      replace (Z.sgn n * Z.sgn d) with (-1) by lia. auto. }
  step deref_own. intros cd s6 (-> & _ & Hnd & Hvd).
  eapply (wp_call _ _ _ (fun r s' => exists u, 0 < u /\ magnitude_quotient F (Z.abs n) (Z.abs d) u /\
    owns E s' ((r, u) :: G) X)).
  { unfold magnitude_quotient. rewrite (proj2 (Z.leb_gt _ _)) by lia. cbn [orb].
    destruct (Nat.eqb_spec (num_comps cd) 1) as [E1|E1].
    - destruct (one_comp cd Hnd E1) as [Hx Hx2]. rewrite Hvd in Hx. rewrite Z.abs_idemp in Hx.
      rewrite <- Hx in *. rewrite (proj2 (Z.ltb_lt _ _)) by lia. unfold bi_radix in Hx2.
      rewrite wrap32_id by (unfold int32; lia).
      step bi_int_divide_spec; [unfold int32; lia.. |]. intros x s7 HO7.
      step bi_free_spec. intros _ s8 HO8. apply wp_ret. rewrite Z.quot_div_nonneg in HO8 by lia.
      eexists. split; [|split; [done | exact HO8]]. apply Z.div_str_pos. lia.
    - pose proof (several_val cd Hnd E1) as Hbig.
      rewrite <- nf_abs, Hvd, Z.abs_idemp in Hbig by done.
      rewrite (proj2 (Z.ltb_ge _ _)) by lia.
      eapply wp_mono; [apply (Hfull _ a' (Z.abs n) b' (Z.abs d) G X); [done | lia | own]|].
      cbn beta. intros r s7 (u & Hu & HO7). exists u. split; [|done]. apply (HF (Z.abs n) (Z.abs d)); [lia | done]. }
  intros r s7 (u & Hu & Hm & HO7).
  destruct (Z.eqb_spec (Z.sgn n * Z.sgn d) (-1)) as [E1|E1].
  - step_last bi_negate_spec; [lia|]. intros r' s8 HO8. exists u. rewrite E1. split; [done|].
    by replace (-1 * u) with (- u) by lia.
  - apply wp_ret. exists u. replace (Z.sgn n * Z.sgn d) with 1 by lia. by rewrite Z.mul_1_l.
Qed.

Lemma divide_spec s a n b d G X : d <> 0 -> owns E s ((a, n) :: (b, d) :: G) X ->
  wp (fun _ => bi_divide a b) s (fun r s' => exists q, near_quotient n d q /\
    (Z.abs d < bi_radix -> q = Z.quot n d) /\ owns E s' ((r, q) :: G) X).
Proof.
  intros Hd HO. eapply wp_mono.
  { apply (divide_by_spec _ near_quotient multi_divide s a n b d G X multi_divide_full I); [|done..].
    intros n' d' u Hnd Hu. eapply near_quotient_pos; [| |exact Hu]; lia. }
  cbn beta. intros r s' (u & Hu & HO'). exists (Z.sgn n * Z.sgn d * u).
  split; [by apply magnitude_near|]. split; [|done]. intros Hs. by eapply magnitude_small.
Qed.

Lemma divide_by_zero full s a n b G X : owns E s ((a, n) :: (b, 0) :: G) X ->
  faults (fun _ => divide_by full a b) s (Sigfpe "bi_divide: divide by zero").
Proof.
  intros HO. unfold divide_by. fstep compare_0_spec. intros r s1 (-> & HO1).
  apply faults_bind, faults_fail.
Qed.

(** *** Remainders *)

Lemma bi_rem_by_zero s a n b G X : owns E s ((a, n) :: (b, 0) :: G) X ->
  faults (fun _ => bi_rem a b) s (Sigfpe "bi_divide: divide by zero").
Proof.
  intros HO. unfold bi_rem. fstep bi_copy_spec. intros x s1 (-> & HO1). fstep bi_copy_spec. intros y s2 (-> & HO2).
  apply faults_bind. eapply (divide_by_zero multi_divide s2 a n b). own.
Qed.

Lemma bi_int_mod_spec s p v m G X : 0 < m < 2147483648 -> owns E s ((p, v) :: G) X ->
  wp (fun _ => bi_int_mod p m) s (fun r s' => r = v mod m /\ owns E s' G X).
Proof.
  intros Hm HO. unfold bi_int_mod. apply wp_bind, wp_signal_if; [apply Z.leb_gt; lia|].
  step bi_int_rem_spec; [unfold int32; lia..|]. intros r s1 (-> & HO1). apply wp_ret.
  split; [|done].
  pose proof (Z.quot_rem v m ltac:(lia)) as Eq. pose proof (Z.rem_bound_abs v m ltac:(lia)) as Hb.
  destruct (Z.ltb_spec (Z.rem v m) 0).
  - rewrite wrap32_id by (unfold int32; lia). apply (Z.mod_unique v m (Z.quot v m - 1)); lia.
  - apply (Z.mod_unique v m (Z.quot v m)); lia.
Qed.

Lemma bi_rem_spec s a n b d G X : d <> 0 -> owns E s ((a, n) :: (b, d) :: G) X ->
  wp (fun _ => bi_rem a b) s (fun r s' => exists v, Z.abs v < Z.abs d /\ (d | n - v) /\
    (Z.abs d < bi_radix -> v = Z.rem n d) /\ owns E s' ((r, v) :: G) X).
Proof.
  intros Hd HO. unfold bi_rem. step bi_copy_spec. intros x s1 (-> & HO1).
  step bi_copy_spec. intros y s2 (-> & HO2).
  eapply wp_call; [eapply (divide_spec s2 a n b d); [done | own]|]. cbn beta.
  intros x s3 (q & Hq & Hs & HO3). step bi_multiply_spec. intros x' s4 HO4.
  step_last bi_subtract_spec. intros r s5 HO5. exists (n - q * d). split; [done|].
  split; [exists q; ring|]. split; [|done]. intros Hd1. rewrite Hs by done.
  pose proof (Z.quot_rem n d Hd). lia.
Qed.

Lemma bi_mod_spec s a n b m G X : 0 < m -> owns E s ((a, n) :: (b, m) :: G) X ->
  wp (fun _ => bi_mod a b) s (fun r s' => owns E s' ((r, n mod m) :: G) X).
Proof.
  intros Hm HO. unfold bi_mod. step compare_0_spec. intros r s1 (-> & HO1).
  apply wp_bind, wp_signal_if; [apply Z.leb_gt; lia|].
  step bi_copy_spec. intros x s2 (-> & HO2).
  eapply wp_call; [eapply (bi_rem_spec s2 a n b m); [lia | own]|]. cbn beta.
  intros r s3 (v & Hv & [k Hk] & _ & HO3). step is_negative_spec. intros neg s4 (-> & HO4).
  destruct (Z.ltb_spec v 0) as [Hneg|Hpos].
  - step_last bi_add_spec. intros r' s5 HO5.
    replace (n mod m) with (v + m); [done|]. apply (Z.mod_unique n m (k - 1)); lia.
  - step bi_free_spec. intros _ s5 HO5. apply wp_ret.
    replace (n mod m) with v; [done|]. apply (Z.mod_unique n m k); lia.
Qed.

Lemma bi_mod_fault s a n b m G X : m <= 0 -> owns E s ((a, n) :: (b, m) :: G) X ->
  faults (fun _ => bi_mod a b) s (Sigfpe "bi_mod: zero or negative modulus").
Proof.
  intros Hm HO. unfold bi_mod. fstep compare_0_spec. intros r s1 (-> & HO1).
  rewrite (proj2 (Z.leb_le _ _)) by lia. apply faults_bind, faults_fail.
Qed.

Lemma pre_mod_spec s a n b m G X : 0 < m -> owns E s ((a, n) :: (b, m) :: G) X ->
  wp (fun _ => pre_mod a b) s (fun r s' => owns E s' ((r, n mod m) :: (b, m) :: G) X).
Proof.
  intros Hm HO. unfold pre_mod. step is_negative_spec. intros neg s1 (-> & HO1).
  eapply (wp_call _ _ _ (fun out s' => out = negb ((0 <=? n) && (n <? m)) /\
    owns E s' ((a, n) :: (b, m) :: G) X)).
  { destruct (Z.ltb_spec n 0).
    - apply wp_ret. split; [|own]. by rewrite (proj2 (Z.leb_gt _ _)) by lia.
    - step compare_copies_spec. intros r s2 (-> & HO2). apply wp_ret. split; [|own].
      rewrite (proj2 (Z.leb_le 0 n)) by lia. cbn [andb].
      destruct (Z.leb_spec 0 (Z.sgn (n - m))), (Z.ltb_spec n m); lia || done. }
  intros out s2 (-> & HO2). destruct (Z.leb_spec 0 n), (Z.ltb_spec n m); cbn [andb negb].
  2-4: step bi_copy_spec; intros x s3 (-> & HO3); step_last bi_mod_spec; intros r s4 HO4; own.
  apply wp_ret. by rewrite Z.mod_small by lia.
Qed.

Lemma bi_mod_multiply_spec s a va b vb p m G X : 0 < m ->
  owns E s ((a, va) :: (b, vb) :: (p, m) :: G) X ->
  wp (fun _ => bi_mod_multiply a b p) s (fun r s' => owns E s' ((r, (va * vb) mod m) :: G) X).
Proof.
  intros Hm HO. unfold bi_mod_multiply. step pre_mod_spec. intros a' s1 HO1.
  step pre_mod_spec. intros b' s2 HO2. step bi_multiply_spec. intros x s3 HO3.
  step_last bi_mod_spec. intros r s4 HO4. by rewrite <- Z.mul_mod in HO4 by lia.
Qed.

Lemma bi_mod_square_spec s a va p m G X : 0 < m -> owns E s ((a, va) :: (p, m) :: G) X ->
  wp (fun _ => bi_mod_square a p) s (fun r s' => owns E s' ((r, (va * va) mod m) :: G) X).
Proof.
  intros Hm HO. unfold bi_mod_square. step bi_copy_spec. intros x s1 (-> & HO1).
  step bi_copy_spec. intros y s2 (-> & HO2). step bi_mod_multiply_spec. intros r s3 HO3.
  step bi_free_spec. intros _ s4 HO4. by apply wp_ret.
Qed.

Lemma out_of_range_spec s a va b vb p m G X :
  owns E s ((a, va) :: (b, vb) :: (p, m) :: G) X ->
  wp (fun _ => out_of_range a b p) s (fun r s' =>
    (r = false -> 0 <= va < m /\ 0 <= vb < m) /\
    owns E s' ((a, va) :: (b, vb) :: (p, m) :: G) X).
Proof.
  intros HO. unfold out_of_range. step is_negative_spec. intros r1 s1 (-> & HO1).
  destruct (Z.ltb_spec va 0); [apply wp_ret; split; [done | own]|].
  step is_negative_spec. intros r2 s2 (-> & HO2).
  destruct (Z.ltb_spec vb 0); [apply wp_ret; split; [done | own]|].
  step compare_copies_spec. intros r3 s3 (-> & HO3).
  destruct (Z.leb_spec 0 (Z.sgn (va - m))); [apply wp_ret; split; [done | own]|].
  step compare_copies_spec. intros r4 s4 (-> & HO4). apply wp_ret. split; [|own].
  intros Hr%Z.leb_gt. lia.
Qed.

Lemma bi_mod_add_spec s a va b vb p m G X : 0 < m ->
  owns E s ((a, va) :: (b, vb) :: (p, m) :: G) X ->
  wp (fun _ => bi_mod_add a b p) s (fun r s' => owns E s' ((r, (va + vb) mod m) :: G) X).
Proof.
  intros Hm HO. unfold bi_mod_add. step compare_0_spec. intros r s1 (-> & HO1).
  apply wp_bind, wp_signal_if; [apply Z.leb_gt; lia|].
  step out_of_range_spec. intros out s2 (Hout & HO2). destruct out.
  { step bi_add_spec. intros x s3 HO3. by step_last bi_mod_spec. }
  destruct (Hout eq_refl) as [Ha Hb]. step bi_add_spec. intros x s3 HO3.
  step compare_copies_spec. intros r s4 (-> & HO4).
  destruct (Z.leb_spec 0 (Z.sgn (va + vb - m))).
  - step_last bi_subtract_spec. intros r s5 HO5.
    replace ((va + vb) mod m) with (va + vb - m); [done|]. apply (Z.mod_unique _ _ 1); lia.
  - step bi_free_spec. intros _ s5 HO5. apply wp_ret. by rewrite Z.mod_small by lia.
Qed.

Lemma bi_mod_subtract_spec s a va b vb p m G X : 0 < m ->
  owns E s ((a, va) :: (b, vb) :: (p, m) :: G) X ->
  wp (fun _ => bi_mod_subtract a b p) s (fun r s' => owns E s' ((r, (va - vb) mod m) :: G) X).
Proof.
  intros Hm HO. unfold bi_mod_subtract. step compare_0_spec. intros r s1 (-> & HO1).
  apply wp_bind, wp_signal_if; [apply Z.leb_gt; lia|].
  step out_of_range_spec. intros out s2 (Hout & HO2). destruct out.
  { step bi_subtract_spec. intros x s3 HO3. by step_last bi_mod_spec. }
  destruct (Hout eq_refl) as [Ha Hb]. step bi_subtract_spec. intros x s3 HO3.
  step is_negative_spec. intros r s4 (-> & HO4).
  destruct (Z.ltb_spec (va - vb) 0).
  - step_last bi_add_spec. intros r s5 HO5.
    replace ((va - vb) mod m) with (va - vb + m); [done|]. apply (Z.mod_unique _ _ (-1)); lia.
  - step bi_free_spec. intros _ s5 HO5. apply wp_ret. by rewrite Z.mod_small by lia.
Qed.
End specs.
