(* ===== verification/BigNum.v ===== *)
(** * Number theory (bigint_ext.c)

    Powers, factorials, modular powers, greatest common divisors, modular
    inverses, least common multiples, the Jacobi symbol, and of bigint_int.c
    the functions that use them: [bi_binary_divide], [bi_sqrt], [bi_random]. *)

From Stdlib Require Import ZArith Lia Znumtheory.
From stdpp Require Import base numbers list gmap strings.
From S2P Require Import Prelude BigComps BigCell BigHeap BigInt BigDiv.

Open Scope Z_scope.

(** ** Code *)

Definition bi_is_even (bi : bigint) : M bool := r ← bi_is_odd bi; mret (negb r).

(** The [for] loops run [k] more times; [bitnum] counts up. *)
Fixpoint power_loop (k : nat) (bitnum : Z) (bi biR biexp : bigint) : M (bigint * bigint) :=
  match k with
  | O => mret (bi, biR)
  | S k =>
      bi ← bi_square bi;
      bit ← copied (fun x => bi_bit x bitnum) biexp;
      biR ← (if bit : bool then x ← bi_copy bi; bi_multiply biR x else mret biR);
      power_loop k (bitnum + 1) bi biR biexp
  end.

Definition bi_power (bi biexp : bigint) : M bigint :=
  neg ← copied bi_is_negative biexp;
  signal_if neg "bi_power: negative exponent";;
  bits ← copied bi_bits biexp;
  bit ← copied (fun x => bi_bit x 0) biexp;
  biR ← (if bit : bool then bi_copy bi else constant bi_1);
  '(bi, biR) ← power_loop (Z.to_nat (bits - 1)) 1 bi biR biexp;
  bi_free bi;;
  bi_free biexp;;
  mret biR.

Fixpoint factorial_loop (n : nat) (biR bi : bigint) : M (bigint * bigint) :=
  match n with
  | O => fail Out_of_fuel
  | S n =>
      r ← compare_const bi bi_1;
      if r <=? 0 then mret (biR, bi) else
      x ← bi_copy bi;
      biR ← bi_multiply biR x;
      bi ← bi_int_subtract bi 1;
      factorial_loop n biR bi
  end.

Definition bi_factorial (bi : bigint) : M bigint :=
  biR ← constant bi_1;
  '(biR, bi) ← with_fuel (fun n => factorial_loop n biR bi);
  bi_free bi;;
  mret biR.

Definition bi_digits (bi : bigint) : M Z :=
  b ← bi_bits bi;
  mret (wrap32 (Z.quot (add64 (mul64 b 1000001) 3321928) 3321929)).

(** *** Greatest common divisors *)

(** Halve [bi] while it is even. *)
Fixpoint halve_loop (n : nat) (bi : bigint) : M bigint :=
  match n with
  | O => fail Out_of_fuel
  | S n =>
      even ← copied bi_is_even bi;
      if even : bool then bi ← bi_half bi; halve_loop n bi else mret bi
  end.

Fixpoint gcd_common_loop (n : nat) (bix biy big : bigint) : M (bigint * bigint * bigint) :=
  match n with
  | O => fail Out_of_fuel
  | S n =>
      even ← copied bi_is_even bix;
      even ← (if even : bool then copied bi_is_even biy else mret false);
      if even : bool then
        bix ← bi_half bix;
        biy ← bi_half biy;
        big ← bi_double big;
        gcd_common_loop n bix biy big
      else mret (bix, biy, big)
  end.

Fixpoint gcd_loop (n : nat) (bix biy : bigint) : M (bigint * bigint) :=
  match n with
  | O => fail Out_of_fuel
  | S n =>
      zero ← copied bi_is_zero bix;
      if zero : bool then mret (bix, biy) else
      bix ← with_fuel (fun m => halve_loop m bix);
      biy ← with_fuel (fun m => halve_loop m biy);
      x ← bi_copy bix;
      y ← bi_copy biy;
      d ← bi_subtract x y;
      d ← bi_abs d;
      bit ← bi_half d;
      r ← compare_copies bix biy;
      if 0 <=? r then bi_free bix;; gcd_loop n bit biy
      else bi_free biy;; gcd_loop n bix bit
  end.

Definition bi_gcd (bix biy : bigint) : M bigint :=
  bix ← bi_abs bix;
  biy ← bi_abs biy;
  r ← compare_copies bix biy;
  let '(bix, biy) := if r <? 0 then (biy, bix) else (bix, biy) in
  big ← constant bi_1;
  '(bix, biy, big) ← with_fuel (fun n => gcd_common_loop n bix biy big);
  '(bix, biy) ← with_fuel (fun n => gcd_loop n bix biy);
  bi_free bix;;
  bi_multiply big biy.

(** One row of the extended algorithm: [t = p0; p0 = bi_copy( p1 );
    p1 = bi_subtract( t, bi_multiply( bi_copy( q ), p1 ) );]. *)
Definition egcd_row (q p0 p1 : bigint) : M (bigint * bigint) :=
  p0' ← bi_copy p1;
  x ← bi_copy q;
  x ← bi_multiply x p1;
  p1' ← bi_subtract p0 x;
  mret (p0', p1').

Fixpoint egcd_loop (n : nat) (a0 b0 c0 a1 b1 c1 : bigint)
  : M (bigint * bigint * bigint * (bigint * bigint * bigint)) :=
  match n with
  | O => fail Out_of_fuel
  | S n =>
      zero ← copied bi_is_zero c1;
      if zero : bool then mret (a0, b0, c0, (a1, b1, c1)) else
      x ← bi_copy c0;
      y ← bi_copy c1;
      q ← bi_divide x y;
      '(a0, a1) ← egcd_row q a0 a1;
      '(b0, b1) ← egcd_row q b0 b1;
      '(c0, c1) ← egcd_row q c0 c1;
      bi_free q;;
      egcd_loop n a0 b0 c0 a1 b1 c1
  end.

(** Returns the gcd and what the C function stores through [bix_mul] and [biy_mul]. *)
Fixpoint egcd_rec (n : nat) (bix biy : bigint) : M (bigint * (bigint * bigint)) :=
  match n with
  | O => fail Out_of_fuel
  | S n =>
      neg ← copied bi_is_negative bix;
      if neg : bool then
        x ← bi_negate bix;
        '(biR, (t, biy_mul)) ← egcd_rec n x biy;
        bix_mul ← bi_negate t;
        mret (biR, (bix_mul, biy_mul))
      else
      neg ← copied bi_is_negative biy;
      if neg : bool then
        y ← bi_negate biy;
        '(biR, (bix_mul, t)) ← egcd_rec n bix y;
        biy_mul ← bi_negate t;
        mret (biR, (bix_mul, biy_mul))
      else
      r ← compare_copies bix biy;
      if r <? 0 then
        '(biR, (biy_mul, bix_mul)) ← egcd_rec n biy bix;
        mret (biR, (bix_mul, biy_mul))
      else
        a0 ← constant bi_1;
        b0 ← constant bi_0;
        a1 ← constant bi_0;
        b1 ← constant bi_1;
        '(a0, b0, c0, (a1, b1, c1)) ← with_fuel (fun m => egcd_loop m a0 b0 bix a1 b1 biy);
        bi_free a1;;
        bi_free b1;;
        bi_free c1;;
        mret (c0, (a0, b0))
  end.
Definition bi_egcd (bix biy : bigint) : M (bigint * (bigint * bigint)) :=
  with_fuel (fun n => egcd_rec n bix biy).

Definition bi_mod_inverse (bi bim : bigint) : M bigint :=
  x ← bi_copy bim;
  '(gcd, (mul0, mul1)) ← bi_egcd x bi;
  one ← bi_is_one gcd;
  signal_if (negb one) "bi_mod_inverse: not relatively prime";;
  bi_free mul0;;
  bi_mod mul1 bim.

Fixpoint mod_power_loop (k : nat) (bitnum : Z) (bi biR biexp bim : bigint) : M (bigint * bigint) :=
  match k with
  | O => mret (bi, biR)
  | S k =>
      x ← bi_copy bim;
      bi ← bi_mod_square bi x;
      bit ← copied (fun x => bi_bit x bitnum) biexp;
      biR ← (if bit : bool then
               x ← bi_copy bi;
               y ← bi_copy bim;
               bi_mod_multiply biR x y
             else mret biR);
      mod_power_loop k (bitnum + 1) bi biR biexp bim
  end.

Definition bi_mod_power (bi biexp bim : bigint) : M bigint :=
  neg ← copied bi_is_negative biexp;
  '(biexp, invert) ←
    (if neg : bool then x ← bi_negate biexp; mret (x, true) else mret (biexp, false));
  bit ← copied (fun x => bi_bit x 0) biexp;
  biR ← (if bit : bool then x ← bi_copy bi; y ← bi_copy bim; bi_mod x y else constant bi_1);
  bits ← copied bi_bits biexp;
  '(bi, biR) ← mod_power_loop (Z.to_nat (bits - 1)) 1 bi biR biexp bim;
  bi_free bi;;
  bi_free biexp;;
  if invert : bool then bi_mod_inverse biR bim else bi_free bim;; mret biR.

Definition bi_lcm (bia bib : bigint) : M bigint :=
  x ← bi_copy bia;
  y ← bi_copy bib;
  x ← bi_multiply x y;
  x' ← bi_copy bia;
  y' ← bi_copy bib;
  g ← bi_gcd x' y';
  biR ← bi_divide x g;
  bi_free bia;;
  bi_free bib;;
  mret biR.

(** *** The Jacobi symbol *)

(** "Peel off as many factors of 2 as we can." *)
Fixpoint peel_loop (n : nat) (j2 c : Z) (bia : bigint) : M (bigint * Z) :=
  match n with
  | O => fail Out_of_fuel
  | S n =>
      even ← copied bi_is_even bia;
      if even : bool then bia ← bi_half bia; peel_loop n j2 (wrap32 (c * j2)) bia
      else mret (bia, c)
  end.

Fixpoint jacobi_rec (n : nat) (bia bib : bigint) : M bigint :=
  match n with
  | O => fail Out_of_fuel
  | S n =>
      even ← copied bi_is_even bib;
      signal_if even "bi_jacobi: don't know how to compute Jacobi(n, even)";;
      r ← compare_copies bia bib;
      if 0 <=? r then
        x ← bi_copy bib;
        x ← bi_mod bia x;
        jacobi_rec n x bib
      else
      zero ← copied bi_is_zero bia;
      triv ← (if zero : bool then mret true else copied bi_is_one bia);
      if triv : bool then bi_free bib;; mret bia
      else
      r ← compare_const bia bi_2;
      if r =? 0 then
        bi_free bia;;
        m ← bi_int_and bib 7;
        if (m =? 1) || (m =? 7) then constant bi_1 else constant bi_m1
      else
      even ← copied bi_is_even bia;
      if even : bool then
        x ← constant bi_2;
        y ← bi_copy bib;
        j ← jacobi_rec n x y;
        j2 ← bi_to_int j;
        bia ← bi_half bia;
        '(bia, c) ← with_fuel (fun m => peel_loop m j2 j2 bia);
        x ← jacobi_rec n bia bib;
        if c =? -1 then bi_negate x else mret x
      else
      m ← copied (fun x => bi_int_and x 3) bia;
      flip ← (if m =? 3 then m ← copied (fun x => bi_int_and x 3) bib; mret (m =? 3) else mret false);
      x ← jacobi_rec n bib bia;
      if flip : bool then bi_negate x else mret x
  end.
Definition bi_jacobi (bia bib : bigint) : M bigint := with_fuel (fun n => jacobi_rec n bia bib).

(** ** Specifications *)

(** The bits of an exponent below [k]. *)
Definition low_bits (e k : Z) : Z := e mod 2 ^ k.

Lemma low_bits_0 e : low_bits e 1 = if Z.testbit e 0 then 1 else 0.
Proof.
  unfold low_bits. rewrite Z.bit0_odd, Zmod_odd. by destruct (Z.odd e).
Qed.

Lemma low_bits_succ e k : 0 <= k ->
  low_bits e (k + 1) = low_bits e k + (if Z.testbit e k then 2 ^ k else 0).
Proof.
  intros Hk. unfold low_bits. rewrite Z.pow_add_r, Z.pow_1_r by lia.
  rewrite Z.rem_mul_r by (try apply Z.pow_nonzero; lia).
  rewrite <- Z.testbit_spec' by done. destruct (Z.testbit e k); simpl Z.b2z; lia.
Qed.

Lemma low_bits_all e k : 0 <= e -> bit_length e <= k -> low_bits e k = e.
Proof.
  intros He Hk. unfold low_bits. apply Z.mod_small. unfold bit_length in Hk.
  destruct (Z.eqb_spec e 0) as [->|Hne].
  - split; [lia|]. apply Z.pow_pos_nonneg; lia.
  - rewrite Z.abs_eq in Hk by lia. split; [done|]. apply Z.log2_lt_pow2; lia.
Qed.

Lemma bit_length_nonneg v : 0 <= bit_length v.
Proof. unfold bit_length. destruct (v =? 0); [done|]. pose proof (Z.log2_nonneg (Z.abs v)). lia. Qed.

Lemma low_bits_nonneg e k : 0 <= k -> 0 <= low_bits e k.
Proof. intros Hk. apply Z.mod_pos_bound. by apply Z.pow_pos_nonneg. Qed.

Lemma pow_double v b : 1 <= b -> v ^ 2 ^ (b - 1) * v ^ 2 ^ (b - 1) = v ^ 2 ^ b.
Proof.
  intros Hb. rewrite <- Z.pow_add_r by (apply Z.pow_nonneg; lia). f_equal.
  replace b with (b - 1 + 1) at 3 by lia. rewrite Z.pow_add_r by lia. lia.
Qed.

(** [4004/13301] lies between the logarithm of 2 to base 10 and the code's
    [1000001/3321929]; so the code never gives too few digits. *)
Lemma digits_enough v d : 0 <= d -> bit_length v * 1000001 <= 3321929 * d -> Z.abs v < 10 ^ d.
Proof.
  intros Hd H. set (b := bit_length v) in *.
  assert (0 <= b) as Hb by apply bit_length_nonneg.
  assert (Z.abs v < 2 ^ b) as Hv.
  { unfold b, bit_length. destruct (Z.eqb_spec v 0) as [->|Hne]; [done|].
    pose proof (Z.log2_spec (Z.abs v) ltac:(lia)) as [_ Hl]. by rewrite Z.add_1_r. }
  assert (4004 * b <= 13301 * d) as H1 by lia.
  eapply Z.lt_le_trans; [exact Hv|].
  apply (Z.pow_le_mono_l_iff _ _ 13301); [apply Z.pow_nonneg; lia.. | lia |].
  rewrite <- !Z.pow_mul_r by lia.
  transitivity (10 ^ (4004 * b)); [|apply Z.pow_le_mono_r; lia].
  rewrite (Z.mul_comm b), !(Z.pow_mul_r _ _ b) by lia. apply Z.pow_le_mono_l.
  split; [apply Z.pow_nonneg; lia|]. by vm_compute.
Qed.

(** ** Greatest common divisors: the arithmetic *)

Lemma gcd_2_odd g b : (g | b) -> Z.odd b = true -> Z.gcd g 2 = 1.
Proof.
  intros Hg Hb. pose proof (Z.gcd_nonneg g 2) as Hn.
  pose proof (Z.gcd_divide_l g 2) as H1. pose proof (Z.gcd_divide_r g 2) as H2.
  pose proof (Z.divide_pos_le _ 2 ltac:(lia) H2) as Hle.
  destruct (Z.eq_dec (Z.gcd g 2) 2) as [E|]; [|destruct (Z.eq_dec (Z.gcd g 2) 0) as [E|]; [|lia]].
  - rewrite E in H1. destruct (Z.divide_trans _ _ _ H1 Hg) as [k Hk].
    rewrite Hk, Z.odd_mul in Hb. simpl in Hb. by rewrite andb_false_r in Hb.
  - rewrite E in H2. by apply Z.divide_0_l in H2.
Qed.

Lemma gcd_double a b : Z.odd b = true -> Z.gcd (2 * a) b = Z.gcd a b.
Proof.
  intros Hb. apply Z.divide_antisym_nonneg; [apply Z.gcd_nonneg.. | |].
  - apply Z.gcd_greatest; [|apply Z.gcd_divide_r]. apply (Z.gauss _ 2).
    + apply Z.gcd_divide_l.
    + eapply gcd_2_odd; [apply Z.gcd_divide_r | done].
  - apply Z.gcd_greatest; [|apply Z.gcd_divide_r].
    eapply Z.divide_trans; [apply Z.gcd_divide_l | by exists 2].
Qed.

Lemma gcd_pow2 k a b : 0 <= k -> Z.odd b = true -> Z.gcd (2 ^ k * a) b = Z.gcd a b.
Proof.
  intros Hk Hb. revert k Hk. apply natlike_ind; [by rewrite Z.mul_1_l|].
  intros k Hk IH. rewrite Z.pow_succ_r, <- Z.mul_assoc, gcd_double by done. done.
Qed.

(** [u] is [v] without its factors of 2. *)
Definition odd_part (v u : Z) : Prop :=
  Z.odd u = true /\ 0 < u <= v /\ exists k, 0 <= k /\ v = 2 ^ k * u.

Lemma odd_part_gcd v u b : odd_part v u -> Z.odd b = true -> Z.gcd v b = Z.gcd u b.
Proof. intros (_ & _ & k & Hk & ->) Hb. by apply gcd_pow2. Qed.

Lemma odd_part_self v u : odd_part v u -> Z.odd v = true -> u = v.
Proof.
  intros (_ & Hu & k & Hk & ->) Hv. destruct (Z.eq_dec k 0) as [->|]; [simpl; lia|].
  replace k with (Z.succ (k - 1)) in Hv by lia.
  rewrite Z.pow_succ_r, !Z.odd_mul in Hv by lia. simpl in Hv. done.
Qed.

Lemma odd_parts_gcd vx ux vy uy : odd_part vx ux -> odd_part vy uy ->
  Z.odd vx = true \/ Z.odd vy = true -> Z.gcd vx vy = Z.gcd ux uy.
Proof.
  intros Hx Hy [Ho|Ho].
  - rewrite (odd_part_self _ _ Hx Ho), Z.gcd_comm, (Z.gcd_comm vx). by apply odd_part_gcd.
  - rewrite (odd_part_self _ _ Hy Ho). by apply odd_part_gcd.
Qed.

(** [gcd x y = gcd (|x - y| / 2) y] for odd [x] and [y]. *)
Lemma gcd_half_difference x y : Z.odd x = true -> Z.odd y = true ->
  Z.gcd x y = Z.gcd (Z.abs (x - y) / 2) y.
Proof.
  intros Hx Hy. assert (Z.abs (x - y) = 2 * (Z.abs (x - y) / 2)) as Ed.
  { apply Z_div_exact_full_2; [done|]. rewrite Zmod_odd.
    assert (Z.odd (Z.abs (x - y)) = Z.odd (x - y)) as ->
      by (destruct (Z.abs_spec (x - y)) as [[_ ->]|[_ ->]]; [done | apply Z.odd_opp]).
    by rewrite Z.odd_sub, Hx, Hy. }
  rewrite <- (gcd_double (Z.abs (x - y) / 2) y), <- Ed, Z.gcd_abs_l by done.
  rewrite Z.gcd_comm, (Z.gcd_comm (x - y)).
  replace (x - y) with (x + -1 * y) by ring. by rewrite Z.gcd_add_mult_diag_r.
Qed.

Lemma gcd_near x y q : Z.gcd y (x - q * y) = Z.gcd x y.
Proof. replace (x - q * y) with (x + (- q) * y) by ring. rewrite Z.gcd_add_mult_diag_r. apply Z.gcd_comm. Qed.

(** [v^l mod m] as [bi_mod_power] leaves it: [v^0] is 1 even modulo 1. *)
Definition reduced_power (v m l : Z) : Z := if l =? 0 then 1 else v ^ l mod m.

(** The laws by which a Jacobi symbol is computed: periodicity, the values at 0
    and 1, the two laws of the even numerator, reciprocity. *)
Definition two_symbol (b : Z) : Z := if (b mod 8 =? 1) || (b mod 8 =? 7) then 1 else -1.

Inductive jacobi : Z -> Z -> Z -> Prop :=
  | jacobi_zero b : 1 < b -> jacobi 0 b 0
  | jacobi_one b : jacobi 1 b 1
  | jacobi_two b : jacobi 2 b (two_symbol b)
  | jacobi_mod a b j : jacobi (a mod b) b j -> jacobi a b j
  | jacobi_even a b j : jacobi a b j -> jacobi (2 * a) b (two_symbol b * j)
  | jacobi_flip a b j : Z.odd a = true -> Z.odd b = true -> Z.gcd a b = 1 -> jacobi b a j ->
      jacobi a b (if (a mod 4 =? 3) && (b mod 4 =? 3) then - j else j).

Definition is_unit_sign (j : Z) : Prop := j = 1 \/ j = -1.

Lemma two_symbol_unit b : is_unit_sign (two_symbol b).
Proof. unfold two_symbol, is_unit_sign. destruct (_ || _); auto. Qed.

Lemma unit_sign_mul i j : is_unit_sign i -> is_unit_sign j -> is_unit_sign (i * j).
Proof. unfold is_unit_sign. lia. Qed.

Lemma jacobi_pow2 k u b j : 0 <= k -> jacobi u b j -> jacobi (2 ^ k * u) b (two_symbol b ^ k * j).
Proof.
  intros Hk Hj. revert k Hk. apply natlike_ind; [by rewrite !Z.mul_1_l|].
  intros k Hk IH. rewrite !Z.pow_succ_r, <- !Z.mul_assoc by done. by apply jacobi_even.
Qed.

Lemma land_mod v k : 0 <= v -> 0 <= k -> Z.land (Z.abs v) (Z.ones k) = v mod 2 ^ k.
Proof. intros Hv Hk. by rewrite Z.abs_eq, Z.land_ones. Qed.

(** The recursion goes down in this measure. *)
Definition jacobi_measure (a b : Z) : nat := Z.to_nat (2 * (a + b) + if a <? b then 1 else 0).

Section specs.
Context (E : env) (HE : env_ok E).

Lemma bi_is_even_spec s p v G X : owns E s ((p, v) :: G) X ->
  wp (fun _ => bi_is_even p) s (fun r s' => r = Z.even v /\ owns E s' G X).
Proof.
  intros HO. unfold bi_is_even. step bi_is_odd_spec. intros r s1 (-> & HO1).
  apply wp_ret. split; [by rewrite Z.negb_odd | done].
Qed.

Definition is_even_spec s p v G X := copied_spec E bi_is_even (Z.even v) s p v G X
  (fun s' => bi_is_even_spec s' p v ((p, v) :: G) X).

(** The invariant of the loop: [bi = v^(2^(bitnum-1))], [biR = v^(low bits of the exponent)]. *)
Lemma power_loop_spec v e x k : 0 <= e -> forall bitnum s p r G X,
  1 <= bitnum ->
  owns E s ((p, v ^ 2 ^ (bitnum - 1)) :: (r, v ^ low_bits e bitnum) :: (x, e) :: G) X ->
  wp (fun _ => power_loop k bitnum p r x) s (fun '(p', r') s' => exists w,
    owns E s' ((r', v ^ low_bits e (bitnum + Z.of_nat k)) :: (p', w) :: (x, e) :: G) X).
Proof.
  intros He. induction k as [|k IH]; intros bitnum s p r G X Hb HO.
  - apply wp_ret. rewrite Z.add_0_r. eexists. own.
  - cbn [power_loop]. step bi_square_spec. intros p1 s1 HO1. rewrite pow_double in HO1 by done.
    step bit_spec; [lia|]. intros b s2 (-> & HO2). rewrite Z.abs_eq by done.
    eapply (wp_call _ _ _ (fun r' s' => owns E s'
      ((p1, v ^ 2 ^ bitnum) :: (r', v ^ low_bits e (bitnum + 1)) :: (x, e) :: G) X)).
    { rewrite low_bits_succ by lia. destruct (Z.testbit e bitnum).
      - step bi_copy_spec. intros y s3 (-> & HO3). step_last bi_multiply_spec. intros r' s4 HO4.
        rewrite Z.pow_add_r by (try apply low_bits_nonneg; try apply Z.pow_nonneg; lia). own.
      - apply wp_ret. rewrite Z.add_0_r. own. }
    intros r' s3 HO3. replace (bitnum + Z.of_nat (S k)) with (bitnum + 1 + Z.of_nat k) by lia.
    apply IH; [lia|]. by replace (bitnum + 1 - 1) with bitnum by lia.
Qed.

Lemma power_start s p v x e G X : owns E s ((p, v) :: (x, e) :: G) X ->
  wp (fun _ => if Z.testbit e 0 then bi_copy p else constant bi_1) s (fun r s' =>
    owns E s' ((p, v) :: (r, v ^ low_bits e 1) :: (x, e) :: G) X).
Proof.
  intros HO. rewrite low_bits_0. destruct (Z.testbit e 0).
  - step_last bi_copy_spec. intros r s1 (-> & HO1). rewrite Z.pow_1_r. own.
  - step_last one_spec. intros r s1 HO1. rewrite Z.pow_0_r. own.
Qed.

Lemma bi_power_spec s p v x e G X : 0 <= e -> owns E s ((p, v) :: (x, e) :: G) X ->
  wp (fun _ => bi_power p x) s (fun r s' => owns E s' ((r, v ^ e) :: G) X).
Proof.
  intros He HO. unfold bi_power. step is_negative_spec. intros neg s1 (-> & HO1).
  apply wp_bind, wp_signal_if; [apply Z.ltb_ge; lia|].
  step bits_spec. intros b s2 (-> & HO2). step bit_spec; [done|]. intros bit s3 (-> & HO3).
  rewrite Z.abs_eq by done.
  eapply wp_call; [eapply (power_start s3 p v x e); own|]. cbn beta. intros r s4 HO4.
  eapply wp_call; [eapply (power_loop_spec v e x (Z.to_nat (bit_length e - 1)) He 1); [lia|];
    change (2 ^ (1 - 1)) with 1; rewrite Z.pow_1_r; own|]. cbn beta.
  intros [p' r'] s5 (w & HO5). rewrite low_bits_all in HO5 by lia.
  step bi_free_spec. intros _ s6 HO6. step bi_free_spec. intros _ s7 HO7. by apply wp_ret.
Qed.

Lemma bi_power_fault s p v x e G X : e < 0 -> owns E s ((p, v) :: (x, e) :: G) X ->
  faults (fun _ => bi_power p x) s (Sigfpe "bi_power: negative exponent").
Proof.
  intros He HO. unfold bi_power. fstep is_negative_spec. intros neg s1 (-> & HO1).
  rewrite (proj2 (Z.ltb_lt _ _)) by lia. apply faults_bind, faults_fail.
Qed.

(** *** Factorial, digits *)

Lemma factorial_loop_spec n : forall s r w p v G X,
  Z.to_nat v = n -> owns E s ((r, w) :: (p, v) :: G) X ->
  wp (fun m => factorial_loop m r p) s (fun '(r', p') s' => exists v',
    owns E s' ((r', w * Z.of_nat (fact n)) :: (p', v') :: G) X).
Proof.
  induction n as [|n IH]; intros s r w p v G X Hv HO;
    (eapply wp_unfold; [intros m; reflexivity|]; cbn beta);
    step compare_1_spec; intros c s1 (-> & HO1).
  - rewrite (proj2 (Z.leb_le _ _)) by lia. apply wp_ret. exists v. rewrite Z.mul_1_r. own.
  - destruct n as [|n].
    { rewrite (proj2 (Z.leb_le _ _)) by lia. apply wp_ret. exists v. rewrite Z.mul_1_r. own. }
    rewrite (proj2 (Z.leb_gt _ _)) by lia. step bi_copy_spec. intros x s2 (-> & HO2).
    step bi_multiply_spec. intros r' s3 HO3. step bi_int_subtract_spec; [by unfold int32|].
    intros p' s4 HO4. eapply wp_mono; [eapply (IH s4 r' (w * v) p' (v - 1)); [lia | own]|].
    cbn beta. intros [r'' p''] s5 (v' & HO5). exists v'.
    change (fact (S (S n))) with (S (S n) * fact (S n))%nat.
    rewrite Nat2Z.inj_mul, Z.mul_assoc. replace (Z.of_nat (S (S n))) with v by lia. exact HO5.
Qed.

Lemma bi_factorial_spec s p v G X : owns E s ((p, v) :: G) X ->
  wp (fun _ => bi_factorial p) s (fun r s' => owns E s' ((r, Z.of_nat (fact (Z.to_nat v))) :: G) X).
Proof.
  intros HO. unfold bi_factorial. step one_spec. intros r s1 HO1.
  eapply wp_call; [apply wp_with_fuel; eapply (factorial_loop_spec _ s1 r 1 p v); [done | own]|].
  cbn beta. intros [r' p'] s2 (v' & HO2). rewrite Z.mul_1_l in HO2.
  step bi_free_spec. intros _ s3 HO3. by apply wp_ret.
Qed.

(** The number of digits to allocate for the decimal representation. *)
Lemma bi_digits_spec s p v G X : bit_length v < 7000000000 -> owns E s ((p, v) :: G) X ->
  wp (fun _ => bi_digits p) s (fun r s' =>
    r = (bit_length v * 1000001 + 3321928) / 3321929 /\ Z.abs v < 10 ^ r /\ owns E s' G X).
Proof.
  intros Hb HO. unfold bi_digits. step bi_bits_spec. intros b s1 (-> & HO1). apply wp_ret.
  pose proof (bit_length_nonneg v) as H0. rewrite mul64_id by (unfold int64; lia).
  rewrite add64_id by (unfold int64; lia). rewrite Z.quot_div_nonneg by lia.
  set (d := (bit_length v * 1000001 + 3321928) / 3321929).
  assert (0 <= d) as Hd by (apply Z.div_pos; lia).
  assert (bit_length v * 1000001 <= 3321929 * d) as Hd1
    by (unfold d; Z.to_euclidean_division_equations; lia).
  assert (d < 2147483648) as Hd2 by (apply Z.div_lt_upper_bound; lia).
  rewrite wrap32_id by (unfold int32; lia). split; [done|]. split; [|done].
  by apply digits_enough.
Qed.

(** *** Greatest common divisors *)

Lemma halve_loop_spec k : forall s p v G X, Z.to_nat v = k -> 0 < v -> owns E s ((p, v) :: G) X ->
  wp (fun m => halve_loop m p) s (fun r s' => exists u, odd_part v u /\ owns E s' ((r, u) :: G) X).
Proof.
  induction k as [k IH] using lt_wf_ind. intros s p v G X Hk Hv HO.
  eapply wp_unfold; [intros m; reflexivity|]. cbn beta.
  step is_even_spec. intros e s1 (-> & HO1). rewrite <- Z.negb_odd.
  destruct (Z.odd v) eqn:Ho; cbn [negb].
  - apply wp_ret. exists v. split; [|done]. split; [done|]. split; [lia|].
    exists 0. split; [done|]. by rewrite Z.mul_1_l.
  - step bi_half_spec; [lia|]. intros p' s2 HO2. rewrite Z.quot_div_nonneg in HO2 by lia.
    assert (v = 2 * (v / 2)) as Ev by (apply Z_div_exact_full_2; [done | by rewrite Zmod_odd, Ho]).
    eapply wp_mono; [eapply (IH (Z.to_nat (v / 2))); [| done | |exact HO2]; lia|].
    cbn beta. intros r s3 (u & (Hu & Hb & j & Hj & Ej) & HO3). exists u. split; [|done].
    split; [done|]. split; [lia|]. exists (j + 1). split; [lia|].
    rewrite Z.pow_add_r, Z.pow_1_r by lia. rewrite Ev, Ej. ring.
Qed.

Definition halve_spec s p v G X (Hv : 0 < v) (HO : owns E s ((p, v) :: G) X) :=
  wp_with_fuel (fun m => halve_loop m p) s _ (halve_loop_spec _ s p v G X eq_refl Hv HO).

Lemma gcd_common_loop_spec k : forall s p x q y r w G X, Z.to_nat x = k -> 0 < x -> 0 < y ->
  owns E s ((p, x) :: (q, y) :: (r, w) :: G) X ->
  wp (fun m => gcd_common_loop m p q r) s (fun '(p', q', r') s' => exists x' y' w',
    0 < x' /\ 0 < y' /\ (Z.odd x' = true \/ Z.odd y' = true) /\
    w' * Z.gcd x' y' = w * Z.gcd x y /\
    owns E s' ((p', x') :: (q', y') :: (r', w') :: G) X).
Proof.
  induction k as [k IH] using lt_wf_ind. intros s p x q y r w G X Hk Hx Hy HO.
  eapply wp_unfold; [intros m; reflexivity|]. cbn beta.
  step is_even_spec. intros e s1 (-> & HO1).
  eapply (wp_call _ _ _ (fun e s' => e = Z.even x && Z.even y /\
    owns E s' ((p, x) :: (q, y) :: (r, w) :: G) X)).
  { destruct (Z.even x).
    - step_last is_even_spec. intros e s2 (-> & HO2). split; [done | own].
    - apply wp_ret. split; [done | own]. }
  intros e s2 (-> & HO2). rewrite <- !Z.negb_odd. destruct (Z.odd x) eqn:Ox; cbn [negb andb].
  { apply wp_ret. exists x, y, w. auto 10. }
  destruct (Z.odd y) eqn:Oy; cbn [negb]; [apply wp_ret; exists x, y, w; auto 10|].
  assert (x = 2 * (x / 2)) as Ex by (apply Z_div_exact_full_2; [done | by rewrite Zmod_odd, Ox]).
  assert (y = 2 * (y / 2)) as Ey by (apply Z_div_exact_full_2; [done | by rewrite Zmod_odd, Oy]).
  step bi_half_spec; [lia|]. intros p' s3 HO3. step bi_half_spec; [lia|]. intros q' s4 HO4.
  step bi_double_spec. intros r' s5 HO5. rewrite !Z.quot_div_nonneg in HO5 by lia.
  eapply wp_mono.
  { eapply (IH (Z.to_nat (x / 2)) ltac:(lia) s5 p' (x / 2) q' (y / 2) r' (w * 2)); [done | lia.. | own]. }
  cbn beta. intros [[p'' q''] r''] s6 (x' & y' & w' & Hx' & Hy' & Ho & Hg & HO6).
  exists x', y', w'. split_and!; try done. rewrite Hg. rewrite Ex at 2. rewrite Ey at 2.
  rewrite Z.gcd_mul_mono_l_nonneg by lia. ring.
Qed.

Lemma gcd_loop_spec k : forall s p x q y G X, Z.to_nat (x + y) = k -> 0 <= x -> 0 < y ->
  Z.odd x = true \/ Z.odd y = true -> owns E s ((p, x) :: (q, y) :: G) X ->
  wp (fun m => gcd_loop m p q) s (fun '(p', q') s' =>
    owns E s' ((p', 0) :: (q', Z.gcd x y) :: G) X).
Proof.
  induction k as [k IH] using lt_wf_ind. intros s p x q y G X Hk Hx Hy Ho HO.
  eapply wp_unfold; [intros m; reflexivity|]. cbn beta.
  step is_zero_spec. intros z s1 (-> & HO1). destruct (Z.eqb_spec x 0) as [->|Hx0].
  { apply wp_ret. rewrite Z.gcd_0_l, Z.abs_eq by lia. own. }
  eapply wp_call; [eapply (halve_spec s1 p x); [lia | own]|]. cbn beta. intros p1 s2 (ux & Hux & HO2).
  eapply wp_call; [eapply (halve_spec s2 q y); [lia | own]|]. cbn beta. intros q1 s3 (uy & Huy & HO3).
  rewrite (odd_parts_gcd x ux y uy) by done.
  pose proof Hux as (Hox & Hbx & _). pose proof Huy as (Hoy & Hby & _).
  step bi_copy_spec. intros a s4 (-> & HO4). step bi_copy_spec. intros b s5 (-> & HO5).
  step bi_subtract_spec. intros d s6 HO6. step bi_abs_spec. intros d' s7 HO7.
  step bi_half_spec; [lia|]. intros t s8 HO8. rewrite Z.quot_div_nonneg in HO8 by lia.
  step compare_copies_spec. intros r s9 (-> & HO9).
  pose proof (gcd_half_difference ux uy Hox Hoy) as G1.
  pose proof (gcd_half_difference uy ux Hoy Hox) as G2.
  replace (Z.abs (uy - ux)) with (Z.abs (ux - uy)) in G2 by lia.
  set (h := Z.abs (ux - uy) / 2) in *.
  assert (2 * h = Z.abs (ux - uy)) as Eh.
  { symmetry. apply Z_div_exact_full_2; [done|]. rewrite Zmod_odd.
    assert (Z.odd (Z.abs (ux - uy)) = Z.odd (ux - uy)) as ->
      by (destruct (Z.abs_spec (ux - uy)) as [[_ ->]|[_ ->]]; [done | apply Z.odd_opp]).
    by rewrite Z.odd_sub, Hox, Hoy. }
  clearbody h. destruct (Z.leb_spec 0 (Z.sgn (ux - uy))) as [Hge|Hlt].
  - step bi_free_spec. intros _ s10 HO10. rewrite G1.
    eapply (IH (Z.to_nat (h + uy)) ltac:(lia) s10 t h q1 uy); [done | lia | lia | by right | own].
  - step bi_free_spec. intros _ s10 HO10. rewrite Z.gcd_comm, G2, Z.gcd_comm.
    eapply (IH (Z.to_nat (ux + h)) ltac:(lia) s10 p1 ux t h); [done | lia | lia | by left | own].
Qed.

Lemma bi_gcd_spec s p x q y G X : x <> 0 -> y <> 0 -> owns E s ((p, x) :: (q, y) :: G) X ->
  wp (fun _ => bi_gcd p q) s (fun r s' => owns E s' ((r, Z.gcd x y) :: G) X).
Proof.
  intros Hx Hy HO. unfold bi_gcd. step bi_abs_spec. intros p1 s1 HO1.
  step bi_abs_spec. intros q1 s2 HO2. step compare_copies_spec. intros r s3 (-> & HO3).
  assert (exists p2 q2 x2 y2, (if Z.sgn (Z.abs x - Z.abs y) <? 0 then (q1, p1) else (p1, q1)) = (p2, q2) /\
    0 < x2 /\ 0 < y2 /\ Z.gcd x2 y2 = Z.gcd x y /\ owns E s3 ((p2, x2) :: (q2, y2) :: G) X)
    as (p2 & q2 & x2 & y2 & -> & Hx2 & Hy2 & Hg & HO4).
  { destruct (_ <? _).
    - exists q1, p1, (Z.abs y), (Z.abs x). split_and!; [done | lia | lia | | own].
      by rewrite Z.gcd_abs_l, Z.gcd_abs_r, Z.gcd_comm.
    - exists p1, q1, (Z.abs x), (Z.abs y). split_and!; [done | lia | lia | | own].
      by rewrite Z.gcd_abs_l, Z.gcd_abs_r. }
  clear HO3. step one_spec. intros one s4 HO5.
  eapply wp_call; [apply wp_with_fuel; eapply (gcd_common_loop_spec _ s4 p2 x2 q2 y2 one 1); [done..|own]|].
  cbn beta. intros [[p3 q3] g] s5 (x3 & y3 & w & Hx3 & Hy3 & Ho & Hw & HO6).
  eapply wp_call; [apply wp_with_fuel; eapply (gcd_loop_spec _ s5 p3 x3 q3 y3); [done | lia | done | done | own]|].
  cbn beta. intros [p4 q4] s6 HO7. step bi_free_spec. intros _ s7 HO8.
  step_last bi_multiply_spec. intros r' s8 HO9. rewrite <- Hg, <- (Z.mul_1_l (Z.gcd x2 y2)), <- Hw. exact HO9.
Qed.

(** *** The extended algorithm *)

Lemma egcd_row_spec s q vq p0 v0 p1 v1 G X :
  owns E s ((q, vq) :: (p0, v0) :: (p1, v1) :: G) X ->
  wp (fun _ => egcd_row q p0 p1) s (fun '(p0', p1') s' =>
    owns E s' ((q, vq) :: (p0', v1) :: (p1', v0 - vq * v1) :: G) X).
Proof.
  intros HO. unfold egcd_row. step bi_copy_spec. intros p0' s1 (-> & HO1).
  step bi_copy_spec. intros x s2 (-> & HO2). step bi_multiply_spec. intros x' s3 HO3.
  step bi_subtract_spec. intros p1' s4 HO4. apply wp_ret. own.
Qed.

(** A linear combination of [x] and [y] that is their gcd up to the sign; the
    sign is right when one of them has a single component. *)
Definition bezout (x y g a b : Z) : Prop :=
  a * x + b * y = g /\ Z.abs g = Z.gcd x y /\
  (Z.min (Z.abs x) (Z.abs y) < bi_radix -> g = Z.gcd x y).

Lemma egcd_loop_spec x y k : forall s a0 va0 b0 vb0 c0 vc0 a1 va1 b1 vb1 c1 vc1 G X,
  Z.to_nat (Z.abs vc1) = k ->
  va0 * x + vb0 * y = vc0 -> va1 * x + vb1 * y = vc1 ->
  owns E s ((a0, va0) :: (b0, vb0) :: (c0, vc0) :: (a1, va1) :: (b1, vb1) :: (c1, vc1) :: G) X ->
  wp (fun m => egcd_loop m a0 b0 c0 a1 b1 c1) s (fun '(pa, pb, pc, (p1, p2, p3)) s' =>
    exists a b g w1 w2 w3,
      a * x + b * y = g /\ Z.abs g = Z.gcd vc0 vc1 /\
      (0 <= vc0 -> 0 <= vc1 < bi_radix -> g = Z.gcd vc0 vc1) /\
      owns E s' ((pa, a) :: (pb, b) :: (pc, g) :: (p1, w1) :: (p2, w2) :: (p3, w3) :: G) X).
Proof.
  induction k as [k IH] using lt_wf_ind.
  intros s a0 va0 b0 vb0 c0 vc0 a1 va1 b1 vb1 c1 vc1 G X Hk E0 E1 HO.
  eapply wp_unfold; [intros m; reflexivity|]. cbn beta.
  step is_zero_spec. intros z s1 (-> & HO1). destruct (Z.eqb_spec vc1 0) as [->|Hne].
  { apply wp_ret. exists va0, vb0, vc0, va1, vb1, 0. rewrite Z.gcd_0_r.
    split_and!; [done | done | lia | own]. }
  step bi_copy_spec. intros x' s2 (-> & HO2). step bi_copy_spec. intros y' s3 (-> & HO3).
  eapply wp_call; [eapply (divide_spec E HE s3 c0 vc0 c1 vc1); [done | own]|]. cbn beta.
  intros q s4 (vq & Hq & Hs & HO4). unfold near_quotient in Hq.
  step egcd_row_spec. intros [a0' a1'] s5 HO5. step egcd_row_spec. intros [b0' b1'] s6 HO6.
  step egcd_row_spec. intros [c0' c1'] s7 HO7. step bi_free_spec. intros _ s8 HO8.
  eapply wp_mono.
  { eapply (IH (Z.to_nat (Z.abs (vc0 - vq * vc1))) ltac:(lia)
      s8 a0' va1 b0' vb1 c0' vc1 a1' (va0 - vq * va1) b1' (vb0 - vq * vb1) c1' (vc0 - vq * vc1));
      [done | done | rewrite <- E0, <- E1; ring | own]. }
  cbn beta. intros [[[pa pb] pc] [[p1 p2] p3]] s9 (a & b & g & w1 & w2 & w3 & Hab & Hg & Hsg & HO9).
  rewrite gcd_near in Hg, Hsg. exists a, b, g, w1, w2, w3. split_and!; try done.
  intros H0 H1. apply Hsg; [lia|]. rewrite Hs in * by lia.
  pose proof (Z.quot_rem vc0 vc1 ltac:(lia)). pose proof (Z.rem_bound_pos vc0 vc1 H0 ltac:(lia)). lia.
Qed.

(** [egcd] of the operands in the order of the loop. *)
Definition egcds (egcd : nat -> bigint -> bigint -> M (bigint * (bigint * bigint)))
  (x y : Z) : Prop :=
  forall s p q G X, owns E s ((p, x) :: (q, y) :: G) X ->
    wp (fun m => egcd m p q) s (fun '(pg, (pa, pb)) s' => exists g a b,
      bezout x y g a b /\ owns E s' ((pg, g) :: (pa, a) :: (pb, b) :: G) X).

Lemma egcd_ordered x y : 0 <= y <= x -> egcds egcd_rec x y.
Proof.
  intros Hxy s p q G X HO. eapply wp_unfold; [intros m; reflexivity|]. cbn beta.
  step is_negative_spec. intros n1 s1 (-> & HO1). rewrite (proj2 (Z.ltb_ge _ _)) by lia.
  step is_negative_spec. intros n2 s2 (-> & HO2). rewrite (proj2 (Z.ltb_ge _ _)) by lia.
  step compare_copies_spec. intros r s3 (-> & HO3). rewrite (proj2 (Z.ltb_ge _ _)) by lia.
  step one_spec. intros a0 s4 HO4. step zero_spec. intros b0 s5 HO5.
  step zero_spec. intros a1 s6 HO6. step one_spec. intros b1 s7 HO7.
  eapply wp_call.
  { apply wp_with_fuel. eapply (egcd_loop_spec x y _ s7 a0 1 b0 0 p x a1 0 b1 1 q y);
      [done | ring | ring | own]. }
  cbn beta. intros [[[pa pb] pc] [[p1 p2] p3]] s8 (a & b & g & w1 & w2 & w3 & Hab & Hg & Hsg & HO8).
  step bi_free_spec. intros _ s9 HO9. step bi_free_spec. intros _ s10 HO10.
  step bi_free_spec. intros _ s11 HO11. apply wp_ret. exists g, a, b.
  split; [|own]. split; [done|]. split; [done|]. intros Hm. apply Hsg; lia.
Qed.

Lemma egcd_nonneg x y : 0 <= x -> 0 <= y -> egcds egcd_rec x y.
Proof.
  intros Hx Hy. destruct (Z.le_gt_cases y x) as [Hle|Hlt]; [by apply egcd_ordered|].
  intros s p q G X HO. eapply wp_unfold; [intros m; reflexivity|]. cbn beta.
  step is_negative_spec. intros n1 s1 (-> & HO1). rewrite (proj2 (Z.ltb_ge _ _)) by lia.
  step is_negative_spec. intros n2 s2 (-> & HO2). rewrite (proj2 (Z.ltb_ge _ _)) by lia.
  step compare_copies_spec. intros r s3 (-> & HO3). rewrite (proj2 (Z.ltb_lt _ _)) by lia.
  eapply wp_call; [eapply (egcd_ordered y x); [lia | own]|]. cbn beta.
  intros [pg [pb pa]] s4 (g & b & a & (Hab & Hg & Hsg) & HO4). apply wp_ret. exists g, a, b.
  split; [|own]. unfold bezout. rewrite Z.gcd_comm, Z.min_comm, <- Hab at 1.
  split; [ring|]. split; [done|]. rewrite Z.gcd_comm. done.
Qed.

(** A negative second operand; its coefficient must not be zero, because
    [bi_negate] would make a negative zero of it. *)
Lemma egcd_negative x y : 0 <= x -> y < 0 -> ~ (x | y) -> egcds egcd_rec x y.
Proof.
  intros Hx Hy Hd s p q G X HO. eapply wp_unfold; [intros m; reflexivity|]. cbn beta.
  step is_negative_spec. intros n1 s1 (-> & HO1). rewrite (proj2 (Z.ltb_ge _ _)) by lia.
  step is_negative_spec. intros n2 s2 (-> & HO2). rewrite (proj2 (Z.ltb_lt _ _)) by lia.
  step bi_negate_spec; [lia|]. intros q' s3 HO3.
  eapply wp_call; [eapply (egcd_nonneg x (- y)); [lia | lia | own]|]. cbn beta.
  intros [pg [pa pt]] s4 (g & a & t & (Hab & Hg & Hsg) & HO4).
  assert (t <> 0) as Ht.
  { intros ->. apply Hd. rewrite Z.gcd_opp_r in Hg. apply (Z.divide_trans _ g).
    - exists a. rewrite <- Hab. ring.
    - apply Z.divide_abs_l. rewrite Hg. apply Z.gcd_divide_r. }
  step bi_negate_spec. intros pt' s5 HO5. apply wp_ret. exists g, a, (- t).
  split; [|own]. unfold bezout. rewrite Z.gcd_opp_r, Z.abs_opp in *.
  split; [rewrite <- Hab; ring | done].
Qed.

Lemma bi_egcd_spec s p x q y G X :
  0 <= x -> (0 <= y \/ ~ (x | y)) -> owns E s ((p, x) :: (q, y) :: G) X ->
  wp (fun _ => bi_egcd p q) s (fun '(pg, (pa, pb)) s' => exists g a b,
    bezout x y g a b /\ owns E s' ((pg, g) :: (pa, a) :: (pb, b) :: G) X).
Proof.
  intros Hx Hy HO. apply wp_with_fuel. destruct (Z.le_gt_cases 0 y).
  - by apply egcd_nonneg.
  - apply egcd_negative; [done | lia | | done]. destruct Hy; [lia | done].
Qed.

(** What a modular inverse is. *)
Definition is_inverse (v m w : Z) : Prop := 0 <= w < m /\ (v * w) mod m = 1 mod m.

Lemma inverse_of_bezout v m a b g : 0 < m -> a * m + b * v = g -> g = 1 -> is_inverse v m (b mod m).
Proof.
  intros Hm Hab ->. split; [by apply Z.mod_pos_bound|]. rewrite Z.mul_mod_idemp_r by lia.
  replace (v * b) with (1 + (- a) * m) by lia. by apply Z.mod_add; lia.
Qed.

(** Whenever it returns, the result is the inverse; otherwise it faults. *)
Lemma bi_mod_inverse_sound s p v q m G X :
  0 < m -> (0 <= v \/ ~ (m | v)) -> owns E s ((p, v) :: (q, m) :: G) X ->
  faults (fun _ => bi_mod_inverse p q) s (Sigfpe "bi_mod_inverse: not relatively prime") \/
  (Z.gcd v m = 1 /\
   wp (fun _ => bi_mod_inverse p q) s (fun r s' => exists w,
     is_inverse v m w /\ owns E s' ((r, w) :: G) X)).
Proof.
  intros Hm Hv HO.
  assert (wp (fun _ => x ← bi_copy q; bi_egcd x p) s (fun '(pg, (pa, pb)) s' => exists g a b,
    bezout m v g a b /\ owns E s' ((pg, g) :: (pa, a) :: (pb, b) :: (q, m) :: G) X)) as He.
  { step bi_copy_spec. intros x s1 (-> & HO1).
    eapply wp_mono; [eapply (bi_egcd_spec s1 q m p v); [lia | done | own]|]. cbn beta.
    intros [pg [pa pb]] s2 (g & a & b & Hb & HO2). exists g, a, b. split; [done | own]. }
  set (rest := fun '(gcd, (mul0, mul1)) =>
    one ← bi_is_one gcd; signal_if (negb one) "bi_mod_inverse: not relatively prime";;
    bi_free mul0;; bi_mod mul1 q).
  assert (forall fuel, bi_mod_inverse p q fuel s = ((x ← bi_copy q; bi_egcd x p) ≫= rest) fuel s) as Hassoc.
  { intros fuel. unfold bi_mod_inverse, mbind, prog_bind. by destruct (bi_copy q fuel s). }
  destruct He as (N & [pg [pa pb]] & s2 & Hrun & g & a & b & (Hab & Hg & _) & HO2).
  assert (wp (fun _ => x ← bi_copy q; bi_egcd x p) s (fun r s' => r = (pg, (pa, pb)) /\ s' = s2))
    as He by (by exists N, (pg, (pa, pb)), s2).
  destruct (Z.eq_dec g 1) as [Eg|Eg].
  - right. split; [rewrite Z.gcd_comm; lia|].
    apply (wp_ext _ (fun _ => (x ← bi_copy q; bi_egcd x p) ≫= rest)); [done|].
    eapply wp_call; [exact He|]. cbn beta. intros r s3 [-> ->]. unfold rest. step bi_is_one_spec. intros one s3 (-> & HO3).
    apply wp_bind, wp_signal_if; [by rewrite Eg|].
    step bi_free_spec. intros _ s4 HO4. step_last bi_mod_spec. intros r s5 HO5.
    exists (b mod m). split; [by eapply inverse_of_bezout | done].
  - left. cut (faults (fun _ => (x ← bi_copy q; bi_egcd x p) ≫= rest) s
      (Sigfpe "bi_mod_inverse: not relatively prime")).
    { intros (N' & H). exists N'. intros n fuel Hn Hf. rewrite Hassoc. by apply (H n). }
    eapply faults_after; [exact He|]. cbn beta. intros r s3 [-> ->]. unfold rest.
    fstep bi_is_one_spec. intros one s3 (-> & HO3). rewrite (proj2 (Z.eqb_neq _ _)) by done.
    apply faults_bind, faults_fail.
Qed.

(** A single-component operand or modulus is enough for the inverse to be found. *)
Lemma bi_mod_inverse_spec s p v q m G X :
  0 < m -> 0 <= v -> Z.gcd v m = 1 -> Z.min v m < bi_radix ->
  owns E s ((p, v) :: (q, m) :: G) X ->
  wp (fun _ => bi_mod_inverse p q) s (fun r s' => exists w,
    is_inverse v m w /\ owns E s' ((r, w) :: G) X).
Proof.
  intros Hm Hv Hg Hmin HO. unfold bi_mod_inverse. step bi_copy_spec. intros x s1 (-> & HO1).
  eapply wp_call; [eapply (bi_egcd_spec s1 q m p v); [lia | by left | own]|]. cbn beta.
  intros [pg [pa pb]] s2 (g & a & b & (Hab & _ & Hsg) & HO2).
  rewrite Z.gcd_comm, Hg in Hsg. rewrite Hsg in * by lia.
  step bi_is_one_spec. intros one s3 (-> & HO3). apply wp_bind, wp_signal_if; [done|].
  step bi_free_spec. intros _ s4 HO4. step_last bi_mod_spec. intros r s5 HO5.
  exists (b mod m). split; [by eapply inverse_of_bezout | done].
Qed.

(** *** Modular powers *)

Lemma reduced_mul v m l w : 0 < m -> (reduced_power v m l * w) mod m = (v ^ l * w) mod m.
Proof.
  intros Hm. unfold reduced_power. destruct (Z.eqb_spec l 0) as [->|_]; [by rewrite Z.pow_0_r|].
  by rewrite Z.mul_mod_idemp_l by lia.
Qed.

Lemma mod_power_loop_spec v e x q m k : 0 <= e -> 0 < m -> forall bitnum s p vp r G X,
  1 <= bitnum -> vp mod m = (v ^ 2 ^ (bitnum - 1)) mod m ->
  owns E s ((p, vp) :: (r, reduced_power v m (low_bits e bitnum)) :: (x, e) :: (q, m) :: G) X ->
  wp (fun _ => mod_power_loop k bitnum p r x q) s (fun '(p', r') s' => exists vp',
    owns E s' ((p', vp') :: (r', reduced_power v m (low_bits e (bitnum + Z.of_nat k))) ::
               (x, e) :: (q, m) :: G) X).
Proof.
  intros He Hm. induction k as [|k IH]; intros bitnum s p vp r G X Hb Hvp HO.
  - apply wp_ret. rewrite Z.add_0_r. exists vp. own.
  - cbn [mod_power_loop]. step bi_copy_spec. intros q' s1 (-> & HO1).
    step bi_mod_square_spec. intros p1 s2 HO2.
    rewrite Z.mul_mod, Hvp, <- Z.mul_mod, pow_double in HO2 by lia.
    step bit_spec; [lia|]. intros b s3 (-> & HO3). rewrite Z.abs_eq by done.
    eapply (wp_call _ _ _ (fun r' s' => owns E s' ((p1, v ^ 2 ^ bitnum mod m) ::
      (r', reduced_power v m (low_bits e (bitnum + 1))) :: (x, e) :: (q, m) :: G) X)).
    { rewrite low_bits_succ by lia. pose proof (low_bits_nonneg e bitnum ltac:(lia)).
      pose proof (Z.pow_pos_nonneg 2 bitnum ltac:(lia) ltac:(lia)). destruct (Z.testbit e bitnum).
      - step bi_copy_spec. intros y s4 (-> & HO4). step bi_copy_spec. intros q'' s5 (-> & HO5).
        step_last bi_mod_multiply_spec. intros r' s6 HO6.
        rewrite Z.mul_mod_idemp_r, reduced_mul, <- Z.pow_add_r in HO6 by lia.
        unfold reduced_power at 1. rewrite (proj2 (Z.eqb_neq _ _)) by lia. own.
      - apply wp_ret. rewrite Z.add_0_r. own. }
    intros r' s4 HO4. replace (bitnum + Z.of_nat (S k)) with (bitnum + 1 + Z.of_nat k) by lia.
    apply (IH (bitnum + 1) s4 p1 (v ^ 2 ^ bitnum mod m)); [lia | | exact HO4].
    replace (bitnum + 1 - 1) with bitnum by lia. apply Z.mod_mod. lia.
Qed.

Lemma mod_power_start s p v x e q m G X : 0 < m ->
  owns E s ((p, v) :: (x, e) :: (q, m) :: G) X ->
  wp (fun _ => if Z.testbit e 0 then x ← bi_copy p; y ← bi_copy q; bi_mod x y else constant bi_1) s
    (fun r s' => owns E s' ((p, v) :: (r, reduced_power v m (low_bits e 1)) :: (x, e) :: (q, m) :: G) X).
Proof.
  intros Hm HO. rewrite low_bits_0. destruct (Z.testbit e 0).
  - step bi_copy_spec. intros y s3 (-> & HO3). step bi_copy_spec. intros z s4 (-> & HO4).
    step_last bi_mod_spec. intros r s5 HO5. unfold reduced_power. rewrite Z.pow_1_r. own.
  - step_last one_spec. intros r s3 HO3. own.
Qed.

Lemma bi_mod_power_spec s p v x e q m G X : 0 <= e -> 0 < m ->
  owns E s ((p, v) :: (x, e) :: (q, m) :: G) X ->
  wp (fun _ => bi_mod_power p x q) s (fun r s' => owns E s' ((r, reduced_power v m e) :: G) X).
Proof.
  intros He Hm HO. unfold bi_mod_power. step is_negative_spec. intros neg s1 (-> & HO1).
  rewrite (proj2 (Z.ltb_ge _ _)) by lia.
  eapply (wp_call _ _ _ (fun r s' => r = (x, false) /\ s' = s1)); [by apply wp_ret|].
  intros [? ?] s2 [[= -> ->] ->].
  step bit_spec; [done|]. intros b s2 (-> & HO2). rewrite Z.abs_eq by done.
  eapply wp_call; [eapply (mod_power_start s2 p v x e q m); [done | own]|]. cbn beta. intros r s3 HO3.
  step bits_spec. intros bits s4 (-> & HO4).
  eapply wp_call.
  { eapply (mod_power_loop_spec v e x q m (Z.to_nat (bit_length e - 1)) He Hm 1);
      [lia | | own]. by rewrite Z.sub_diag, Z.pow_0_r, Z.pow_1_r. }
  cbn beta. intros [p' r'] s5 (vp' & HO5). rewrite low_bits_all in HO5 by lia.
  step bi_free_spec. intros _ s6 HO6. step bi_free_spec. intros _ s7 HO7.
  step bi_free_spec. intros _ s8 HO8. by apply wp_ret.
Qed.

(** *** Least common multiples *)

Lemma bi_lcm_spec s p a q b G X : a <> 0 -> b <> 0 -> owns E s ((p, a) :: (q, b) :: G) X ->
  wp (fun _ => bi_lcm p q) s (fun r s' => owns E s' ((r, a * (b / Z.gcd a b)) :: G) X).
Proof.
  intros Ha Hb HO. unfold bi_lcm. step bi_copy_spec. intros x s1 (-> & HO1).
  step bi_copy_spec. intros y s2 (-> & HO2). step bi_multiply_spec. intros z s3 HO3.
  step bi_copy_spec. intros x s4 (-> & HO4). step bi_copy_spec. intros y s5 (-> & HO5).
  step bi_gcd_spec. intros g s6 HO6.
  assert (Z.gcd a b <> 0) as Hg by (intros Hg; by apply Z.gcd_eq_0_l in Hg).
  eapply wp_call; [eapply (divide_spec E HE s6 z (a * b) g (Z.gcd a b)); [done | own]|]. cbn beta.
  intros r s7 (v & Hv & _ & HO7).
  destruct (Z.gcd_divide_r a b) as [k Hk].
  assert (b / Z.gcd a b = k) as Ek by (rewrite Hk at 1; by apply Z.div_mul).
  rewrite Hk in Hv at 1. rewrite Z.mul_assoc in Hv. apply near_quotient_exact in Hv as ->; [|done].
  step bi_free_spec. intros _ s8 HO8. step bi_free_spec. intros _ s9 HO9. apply wp_ret. by rewrite Ek.
Qed.

(** *** The Jacobi symbol *)

Lemma peel_loop_spec j k : is_unit_sign j -> forall s p v c G X,
  Z.to_nat v = k -> 0 < v -> is_unit_sign c -> owns E s ((p, v) :: G) X ->
  wp (fun m => peel_loop m j c p) s (fun '(p', c') s' => exists u e,
    Z.odd u = true /\ 0 < u <= v /\ 0 <= e /\ v = 2 ^ e * u /\ c' = j ^ e * c /\
    is_unit_sign c' /\ owns E s' ((p', u) :: G) X).
Proof.
  intros Hj. induction k as [k IH] using lt_wf_ind. intros s p v c G X Hk Hv Hc HO.
  eapply wp_unfold; [intros m; reflexivity|]. cbn beta.
  step is_even_spec. intros ev s1 (-> & HO1). rewrite <- Z.negb_odd.
  destruct (Z.odd v) eqn:Ho; cbn [negb].
  - apply wp_ret. exists v, 0. rewrite !Z.pow_0_r, !Z.mul_1_l. split_and!; done || lia.
  - step bi_half_spec; [lia|]. intros p' s2 HO2. rewrite Z.quot_div_nonneg in HO2 by lia.
    assert (v = 2 * (v / 2)) as Ev by (apply Z_div_exact_full_2; [done | by rewrite Zmod_odd, Ho]).
    rewrite wrap32_id by (unfold int32, is_unit_sign in *; nia).
    eapply wp_mono; [eapply (IH (Z.to_nat (v / 2))); [| done | | | exact HO2]; [lia | lia |
      by apply unit_sign_mul]|].
    cbn beta. intros [p2 c2] s3 (u & e & Hu & Hb & He & Ee & Ec & Hc2 & HO3).
    exists u, (e + 1). rewrite !Z.pow_add_r, !Z.pow_1_r by lia. split_and!; done || lia.
Qed.

Definition jacobi_result (a b : Z) (G : list (bigint * Z)) X (r : bigint) (s : state) : Prop :=
  exists j, jacobi a b j /\ is_unit_sign j /\ owns E s ((r, j) :: G) X.

Lemma bi_int_and_mod s p v k m G X : 0 <= v -> 0 <= k -> m = Z.ones k -> 0 <= m < 2147483648 ->
  owns E s ((p, v) :: G) X ->
  wp (fun _ => bi_int_and p m) s (fun r s' => r = v mod 2 ^ k /\ owns E s' G X).
Proof.
  intros Hv Hk Em Hm HO. rewrite <- (land_mod v k), <- Em by done. by apply bi_int_and_spec.
Qed.

Definition jacobi_works (k : nat) : Prop := forall s p a q b G X,
  (jacobi_measure a b <= k)%nat -> 0 <= a -> 1 < b -> Z.odd b = true -> Z.gcd a b = 1 ->
  owns E s ((p, a) :: (q, b) :: G) X ->
  wp (fun m => jacobi_rec m p q) s (jacobi_result a b G X).

Lemma maybe_negate s x j (f : bool) a b G X :
  is_unit_sign j -> jacobi a b (if f then - j else j) -> owns E s ((x, j) :: G) X ->
  wp (fun _ => if f then bi_negate x else mret x) s (jacobi_result a b G X).
Proof.
  intros Hj Hab HO. unfold is_unit_sign in Hj. destruct f.
  - step_last bi_negate_spec; [lia|]. intros r s1 HO1. exists (- j).
    unfold is_unit_sign. split_and!; [done | lia | done].
  - apply wp_ret. exists j. by split_and!.
Qed.

(** The tests before the case analysis of a numerator above 1. *)
Lemma jacobi_head s p a q b G X (k : nat -> M bigint) Q :
  1 < a < b -> Z.odd b = true -> owns E s ((p, a) :: (q, b) :: G) X ->
  (forall s', owns E s' ((p, a) :: (q, b) :: G) X -> wp k s' Q) ->
  wp (fun n =>
    even ← copied bi_is_even q;
    signal_if even "bi_jacobi: don't know how to compute Jacobi(n, even)";;
    r ← compare_copies p q;
    if 0 <=? r then x ← bi_copy q; x ← bi_mod p x; jacobi_rec n x q else
    zero ← copied bi_is_zero p;
    triv ← (if zero : bool then mret true else copied bi_is_one p);
    if triv : bool then bi_free q;; mret p else k n) s Q.
Proof.
  intros Ha Hb HO Hk. step is_even_spec. intros e s1 (-> & HO1).
  apply wp_bind, wp_signal_if; [by rewrite <- Z.negb_odd, Hb|].
  step compare_copies_spec. intros r s2 (-> & HO2). rewrite (proj2 (Z.leb_gt _ _)) by lia.
  step is_zero_spec. intros z s3 (-> & HO3). rewrite (proj2 (Z.eqb_neq a 0)) by lia.
  step is_one_spec. intros o s4 (-> & HO4). rewrite (proj2 (Z.eqb_neq a 1)) by lia.
  apply Hk. own.
Qed.

Lemma jacobi_two_case s p q b G X : 2 < b -> Z.odd b = true ->
  owns E s ((p, 2) :: (q, b) :: G) X ->
  wp (fun m => jacobi_rec m p q) s (fun r s' => owns E s' ((r, two_symbol b) :: G) X).
Proof.
  intros H2 Hb HO. eapply wp_unfold; [intros m; reflexivity|]. cbn beta.
  eapply (jacobi_head s p 2 q b G X); [lia | done | own |]. intros s1 HO1.
  step compare_2_spec. intros r s2 (-> & HO2). cbn [Z.sub Z.add Z.opp Z.pos_sub Z.sgn Z.eqb].
  step bi_free_spec. intros _ s3 HO3.
  step (bi_int_and_mod s3 q b 3 7); [try done; lia.. |]. intros m s4 (-> & HO4).
  change (2 ^ 3) with 8. unfold two_symbol. destruct (_ || _).
  - step_last one_spec. done.
  - step_last m1_spec. done.
Qed.

(** The even numerators above 2. *)
Lemma jacobi_even_case k s p a q b G X :
  jacobi_works k -> (jacobi_measure a b <= S k)%nat -> 2 < a < b -> Z.even a = true ->
  Z.odd b = true -> Z.gcd a b = 1 -> owns E s ((p, a) :: (q, b) :: G) X ->
  wp (fun n => x ← constant bi_2; y ← bi_copy q; j ← jacobi_rec n x y; j2 ← bi_to_int j;
    bia ← bi_half p; '(bia, c) ← with_fuel (fun m => peel_loop m j2 j2 bia);
    x ← jacobi_rec n bia q;
    if c =? -1 then bi_negate x else mret x) s (jacobi_result a b G X).
Proof.
  intros IH Hk Ha Hev Hb Hg HO. unfold jacobi_measure in Hk.
  rewrite (proj2 (Z.ltb_lt a b)) in Hk by lia.
  assert (a = 2 * (a / 2)) as Ea
    by (apply Z_div_exact_full_2; [done|]; rewrite Zmod_even, Hev; done).
  step two_spec. intros x s1 HO1. step bi_copy_spec. intros y s2 (-> & HO2).
  step jacobi_two_case; [lia|]. intros j s3 HO3. pose proof (two_symbol_unit b) as Huj.
  set (vj := two_symbol b) in *.
  step bi_to_int_spec; [unfold int32, is_unit_sign in *; lia|]. intros j2 s4 (-> & HO4).
  step bi_half_spec; [lia|]. intros p1 s5 HO5. rewrite Z.quot_div_nonneg in HO5 by lia.
  eapply wp_call; [apply wp_with_fuel; eapply (peel_loop_spec vj _ Huj s5 p1 (a / 2) vj);
    [done | lia | done | own]|]. cbn beta.
  intros [p2 c] s6 (u & e & Hu & Hub & He & Ee & Ec & Hc & HO6).
  assert (a = 2 ^ (e + 1) * u) as Eau by (rewrite Z.pow_add_r, Z.pow_1_r by lia; lia).
  assert (Z.gcd u b = 1) as Hgu by (rewrite <- (gcd_pow2 (e + 1) u b), <- Eau by (done || lia); done).
  eapply wp_call.
  { eapply (IH s6 p2 u q b); [unfold jacobi_measure; rewrite (proj2 (Z.ltb_lt u b)) by lia; lia | lia | lia |
      done | done | own]. }
  cbn beta. intros r s7 (ju & Hju & Huju & HO7).
  apply (maybe_negate s7 r ju); [done | | own].
  replace (if c =? -1 then - ju else ju) with (vj ^ (e + 1) * ju).
  - rewrite Eau. apply jacobi_pow2; [lia | done].
  - rewrite Z.pow_add_r, Z.pow_1_r, <- Ec by lia. destruct Hc as [-> | ->]; simpl; lia.
Qed.

Lemma jacobi_all k : jacobi_works k.
Proof.
  induction k as [|k IH]; intros s p a q b G X Hk Ha Hb Hob Hg HO.
  { unfold jacobi_measure in Hk. destruct (a <? b); lia. }
  eapply wp_unfold; [intros m; reflexivity|]. cbn beta.
  destruct (Z.le_gt_cases b a) as [Hba|Hab].
  { step is_even_spec. intros e s1 (-> & HO1).
    apply wp_bind, wp_signal_if; [by rewrite <- Z.negb_odd, Hob|].
    step compare_copies_spec. intros r s2 (-> & HO2). rewrite (proj2 (Z.leb_le _ _)) by lia.
    step bi_copy_spec. intros x s3 (-> & HO3). step bi_mod_spec; [lia|]. intros x s4 HO4.
    pose proof (Z.mod_pos_bound a b ltac:(lia)) as Hm. unfold jacobi_measure in Hk.
    rewrite (proj2 (Z.ltb_ge a b)) in Hk by lia.
    eapply wp_mono.
    { eapply (IH s4 x (a mod b) q b); [unfold jacobi_measure; rewrite (proj2 (Z.ltb_lt (a mod b) b)) by lia; lia |
        lia | done | done | | own].
      by rewrite Z.gcd_mod, Z.gcd_comm by lia. }
    intros r' s5 (j & Hj & Hu & HO5). exists j. split; [by apply jacobi_mod | done]. }
  destruct (Z.le_gt_cases a 1) as [Ha1|Ha1].
  { assert (a = 1) as -> by (destruct (Z.eq_dec a 0) as [->|]; [rewrite Z.gcd_0_l in Hg|]; lia).
    step is_even_spec. intros e s1 (-> & HO1).
    apply wp_bind, wp_signal_if; [by rewrite <- Z.negb_odd, Hob|].
    step compare_copies_spec. intros r s2 (-> & HO2). rewrite (proj2 (Z.leb_gt _ _)) by lia.
    step is_zero_spec. intros z s3 (-> & HO3). cbn [Z.eqb].
    step is_one_spec. intros o s4 (-> & HO4). cbn [Z.eqb Pos.eqb].
    step bi_free_spec. intros _ s5 HO5. apply wp_ret. exists 1.
    split; [apply jacobi_one|]. split; [by left | done]. }
  eapply (jacobi_head s p a q b G X); [lia | done | own |]. intros s1 HO1.
  step compare_2_spec. intros r s2 (-> & HO2).
  destruct (Z.eq_dec a 2) as [->|Hne].
  { cbn [Z.sub Z.add Z.opp Z.pos_sub Z.sgn Z.eqb].
    step bi_free_spec. intros _ s3 HO3.
    step (bi_int_and_mod s3 q b 3 7); [try done; lia.. |]. intros m s4 (-> & HO4).
    change (2 ^ 3) with 8.
    eapply (wp_mono _ _ (fun r s' => owns E s' ((r, two_symbol b) :: G) X)).
    - unfold two_symbol. destruct (_ || _); [step_last one_spec | step_last m1_spec]; done.
    - intros r s' HO'. exists (two_symbol b).
      split; [apply jacobi_two|]. split; [apply two_symbol_unit | done]. }
  rewrite (proj2 (Z.eqb_neq _ _)) by lia.
  step is_even_spec. intros e s3 (-> & HO3). destruct (Z.even a) eqn:Hev.
  { apply (jacobi_even_case k s3 p a q b G X); [done | done | lia | done | done | done | own]. }
  assert (Z.odd a = true) as Hoa by (by rewrite <- Z.negb_even, Hev).
  eapply wp_call.
  { apply copied_spec. intros s4 HO4. eapply (bi_int_and_mod s4 p a 2 3); [lia | done | done | done | own]. own. }
  cbn beta. intros m s4 (-> & HO4). change (2 ^ 2) with 4.
  eapply (wp_call _ _ _ (fun f s' => f = (a mod 4 =? 3) && (b mod 4 =? 3) /\
    owns E s' ((p, a) :: (q, b) :: G) X)).
  { destruct (a mod 4 =? 3); [|apply wp_ret; split; [done | own]].
    eapply wp_call.
    { apply copied_spec. intros s5 HO5. eapply (bi_int_and_mod s5 q b 2 3); [lia | done | done | done | own]. own. }
    cbn beta. intros m s5 (-> & HO5). change (2 ^ 2) with 4. apply wp_ret. split; [done | own]. }
  intros f s5 (-> & HO5). unfold jacobi_measure in Hk. rewrite (proj2 (Z.ltb_lt a b)) in Hk by lia.
  eapply wp_call.
  { eapply (IH s5 q b p a); [unfold jacobi_measure; rewrite (proj2 (Z.ltb_ge b a)) by lia; lia | lia | lia |
      done | by rewrite Z.gcd_comm | own]. }
  intros x s6 (j & Hj & Hu & HO6).
  eapply (maybe_negate s6 x j); [done | by apply jacobi_flip | own].
Qed.

Lemma bi_jacobi_spec s p a q b G X :
  0 <= a -> 1 < b -> Z.odd b = true -> Z.gcd a b = 1 -> owns E s ((p, a) :: (q, b) :: G) X ->
  wp (fun _ => bi_jacobi p q) s (jacobi_result a b G X).
Proof.
  intros Ha Hb Hob Hg HO. apply wp_with_fuel. by apply (jacobi_all (jacobi_measure a b)).
Qed.

Lemma bi_jacobi_even s p a q b G X : Z.even b = true -> owns E s ((p, a) :: (q, b) :: G) X ->
  faults (fun _ => bi_jacobi p q) s (Sigfpe "bi_jacobi: don't know how to compute Jacobi(n, even)").
Proof.
  intros Hb HO. apply faults_with_fuel.
  assert (faults (fun _ => even ← copied bi_is_even q;
    signal_if even "bi_jacobi: don't know how to compute Jacobi(n, even)") s
    (Sigfpe "bi_jacobi: don't know how to compute Jacobi(n, even)")) as (N & H).
  { fstep is_even_spec. intros e s1 (-> & HO1). rewrite Hb. apply faults_fail. }
  exists (S N). intros n fuel Hn Hf. destruct n as [|n]; [lia|]. cbn [jacobi_rec].
  specialize (H n fuel ltac:(lia) ltac:(lia)). unfold mbind, prog_bind in *.
  destruct (copied bi_is_even q fuel s); [|congruence].
  by rewrite H.
Qed.
End specs.
