(* ===== verification/BigRoot.v ===== *)
(** * Binary division, square roots and random numbers (bigint_int.c)

    [bi_binary_divide] is exact.  [bi_sqrt] iterates Newton's method with
    [bi_divide]; it terminates, and because [bi_divide] may round up its result
    is the integer square root or one more ([near_sqrt]).  [bi_random] turns the
    values of [random()] into a number below its argument. *)

From Stdlib Require Import ZArith Lia.
From stdpp Require Import base numbers list gmap strings.
From S2P Require Import Prelude BigComps BigCell BigHeap BigInt BigDiv BigNum.

Open Scope Z_scope.

(** ** Code *)

(** The loop of [bi_binary_divide] has [k] turns left. *)
Fixpoint binary_divide_loop (k : nat) (biquotient binumer bidenom : bigint)
  : M (bigint * bigint * bigint) :=
  match k with
  | O => mret (biquotient, binumer, bidenom)
  | S k =>
      biquotient ← bi_double biquotient;
      r ← compare_copies binumer bidenom;
      '(biquotient, binumer) ←
        (if 0 <=? r then
           q ← bi_int_add biquotient 1;
           x ← bi_copy bidenom;
           n ← bi_subtract binumer x;
           mret (q, n)
         else mret (biquotient, binumer));
      bidenom ← bi_half bidenom;
      binary_divide_loop k biquotient binumer bidenom
  end.

Definition binary_divide_full (binumer bidenom : bigint) : M bigint :=
  num_bits ← copied bi_bits binumer;
  den_bits ← copied bi_bits bidenom;
  two ← constant bi_2;
  x ← int_to_bi (num_bits - den_bits);
  x ← bi_power two x;
  bidenom ← bi_multiply bidenom x;
  biquotient ← constant bi_0;
  '(biquotient, binumer, bidenom) ←
    binary_divide_loop (Z.to_nat (num_bits + 1 - den_bits)) biquotient binumer bidenom;
  bi_free binumer;;
  bi_free bidenom;;
  mret biquotient.

Definition bi_binary_divide : bigint -> bigint -> M bigint := divide_by binary_divide_full.

Fixpoint sqrt_loop (n : nat) (bi biR : bigint) : M bigint :=
  match n with
  | O => fail Out_of_fuel
  | S n =>
      x ← bi_copy bi;
      y ← bi_copy biR;
      biR2 ← bi_divide x y;
      x ← bi_copy biR;
      y ← bi_copy biR2;
      bidiff ← bi_subtract x y;
      zero ← copied bi_is_zero bidiff;
      stop ← (if zero : bool then mret true else r ← compare_const bidiff bi_m1; mret (r =? 0));
      if stop : bool then
        bi_free bi;; bi_free bidiff;; bi_free biR2;; mret biR
      else
      one ← copied bi_is_one bidiff;
      if one : bool then
        bi_free bi;; bi_free bidiff;; bi_free biR;; mret biR2
      else
      bi_free bidiff;;
      x ← bi_add biR biR2;
      biR ← bi_half x;
      sqrt_loop n bi biR
  end.

Definition bi_sqrt (bi : bigint) : M bigint :=
  r ← compare_const bi bi_0;
  signal_if (r =? -1) "bi_sqrt: imaginary result";;
  if r =? 0 then mret bi else
  one ← copied bi_is_one bi;
  if one : bool then mret bi else
  c ← deref bi;
  x ← int_to_bi bi_radix_sqrt;
  y ← int_to_bi (Z.of_nat (num_comps c) - 1);
  x ← bi_power x y;
  t ← ecsqrt (top (comps c));
  biR ← bi_int_multiply x t;
  with_fuel (fun n => sqrt_loop n bi biR).

(** [random()]. *)
Definition random : M Z :=
  s ← get_state;
  let w := the_world s in
  set_state (with_world (World (random_values w) (S (random_next w)) (input w) (output w)) s);;
  mret (random_values w (random_next w)).

Fixpoint random_comps (k : nat) : M (list Z) :=
  match k with
  | O => mret []
  | S k => x ← random; l ← random_comps k; mret (x :: l)
  end.

Definition bi_random (bi : bigint) : M bigint :=
  z ← constant bi_0;
  biR ← clone z;
  c ← deref bi;
  update biR (fun g => more_comps g (num_comps c * 5 / 4));;
  r ← deref biR;
  l ← random_comps (num_comps r);
  update biR (fun _ => set_comps l);;
  update biR normalize;;
  bi_mod biR bi.

(** ** Newton's method *)

(** The integer square root, or one more. *)
Definition near_sqrt (n r : Z) : Prop := 0 < r /\ r * r - r < n <= r * r + 2 * r.

Lemma near_sqrt_sqrt n r : 0 < n -> near_sqrt n r -> r = Z.sqrt n \/ r = Z.sqrt n + 1.
Proof.
  unfold near_sqrt. intros Hn (Hr & Hlo & Hhi). destruct (Z.le_gt_cases (r * r) n).
  - left. symmetry. apply Z.sqrt_unique. lia.
  - right. assert (Z.sqrt n = r - 1); [|lia]. apply Z.sqrt_unique. lia.
Qed.

(** What decreases from one approximation to the next. *)
Definition newton_measure (n R : Z) : nat :=
  let f := Z.sqrt n in
  if R <? f then Z.to_nat (n + 5)
  else if R =? f then (if f * f + f <? n then 1 else 0)
  else if R =? f + 1 then (if n <? f * f + f then 1 else 0)
  else Z.to_nat (R - f + 2).

Lemma newton_stop n R q : 0 < n -> 1 <= R -> near_quotient n R q ->
  (R - q = 0 \/ R - q = -1 -> near_sqrt n R) /\ (R - q = 1 -> near_sqrt n q).
Proof.
  unfold near_quotient, near_sqrt. intros Hn HR Hq. rewrite (Z.abs_eq R) in Hq by lia. apply Z.abs_lt in Hq.
  split; [intros [E|E]|intros E]; (assert (q = R - (R - q)) as Eq by lia; rewrite E in Eq; subst q); nia.
Qed.

Lemma newton_step n R q : 0 < n -> 1 <= R -> near_quotient n R q -> (R - q < -1 \/ 1 < R - q) ->
  1 <= (R + q) / 2 /\ (newton_measure n ((R + q) / 2) < newton_measure n R)%nat.
Proof.
  unfold near_quotient. intros Hn HR Hq Hd. rewrite (Z.abs_eq R) in Hq by lia. apply Z.abs_lt in Hq.
  pose proof (Z.sqrt_spec n ltac:(lia)) as [Hf1 Hf2]. pose proof (Z.sqrt_nonneg n) as Hf0.
  unfold newton_measure. set (f := Z.sqrt n) in *. clearbody f. unfold Z.succ in Hf2.
  assert (1 <= f) as Hf by nia.
  assert (2 * f <= R + q) as Hlow.
  { destruct (Z.le_gt_cases (2 * f) (R + q)) as [|Hlt]; [done|]. exfalso.
    assert (f * f < R * (q + 1)) by lia. assert (0 < q + 1) by nia.
    pose proof (Z.square_nonneg (R - (q + 1))). assert (R + (q + 1) <= 2 * f) by lia.
    assert ((R + (q + 1)) * (R + (q + 1)) <= (2 * f) * (2 * f)) by (apply Z.mul_le_mono_nonneg; lia). lia. }
  pose proof (Z.div_mod (R + q) 2 ltac:(lia)) as E2. pose proof (Z.mod_pos_bound (R + q) 2 ltac:(lia)).
  set (R' := (R + q) / 2) in *. clearbody R'.
  assert (f <= R') as HR' by lia. split; [lia|].
  destruct (Z.ltb_spec R' f); [lia|].
  destruct (Z.ltb_spec R f).
  { assert (q <= n) by nia. assert (R <= n) by nia.
    destruct (Z.eqb_spec R' f); [destruct (_ <? _); lia|].
    destruct (Z.eqb_spec R' (f + 1)); [destruct (_ <? _); lia|]. lia. }
  destruct (Z.eqb_spec R f) as [->|].
  { assert (f + 2 <= q) by nia. assert (q <= f + 2) by nia. assert (q = f + 2) as -> by lia.
    assert (f * f + f < n) by nia. assert (R' = f + 1) as -> by lia.
    destruct (Z.eqb_spec (f + 1) f); [lia|]. rewrite Z.eqb_refl.
    destruct (Z.ltb_spec n (f * f + f)); [lia|]. destruct (Z.ltb_spec (f * f + f) n); lia. }
  destruct (Z.eqb_spec R (f + 1)) as [->|].
  { assert (q <= f + 1) by nia. assert (n < f * f + f) by nia. assert (R' = f) as -> by nia.
    rewrite Z.eqb_refl. destruct (Z.ltb_spec (f * f + f) n); [lia|].
    destruct (Z.ltb_spec n (f * f + f)); lia. }
  assert (q <= f) by nia.
  destruct (Z.eqb_spec R' f); [destruct (_ <? _); lia|].
  destruct (Z.eqb_spec R' (f + 1)); [destruct (_ <? _); lia|]. lia.
Qed.

Lemma floor_near n d : 0 < d -> near_quotient n d (n / d).
Proof. intros Hd. apply near_quotient_floor_ceil; [done | by left]. Qed.

Lemma newton_stop_floor n R : 0 < n -> 1 <= R ->
  (R - n / R = 0 \/ R - n / R = -1 -> R = Z.sqrt n) /\ (R - n / R = 1 -> n / R = Z.sqrt n).
Proof.
  intros Hn HR. pose proof (Z.div_mod n R ltac:(lia)) as E. pose proof (Z.mod_pos_bound n R ltac:(lia)).
  set (q := n / R) in *. clearbody q.
  split; [intros [Ed|Ed]|intros Ed]; symmetry; apply Z.sqrt_unique; unfold Z.succ;
    (assert (q = R - (R - q)) as Eq by lia; rewrite Ed in Eq; subst q); nia.
Qed.

(** ** Specifications *)

Section specs.
Context (E : env) (HE : env_ok E).

Lemma ecsqrt_loop_spec c k : 0 < c <= 2147483648 -> forall R s,
  newton_measure c R = k -> 1 <= R <= c ->
  wp (fun n => ecsqrt_loop n c R) s (fun r s' => r = Z.sqrt c /\ s' = s).
Proof.
  intros Hc. induction k as [k IH] using lt_wf_ind. intros R s Hk HR.
  eapply wp_unfold; [intros m; reflexivity|]. cbn [ecsqrt_loop].
  rewrite (proj2 (Z.eqb_neq R 0)), Z.quot_div_nonneg by lia. cbn zeta.
  assert (0 <= c / R <= c) as Hq by (split; [apply Z.div_pos | apply Z.div_le_upper_bound]; nia).
  rewrite sub64_id by (unfold int64; lia).
  pose proof (newton_stop_floor c R ltac:(lia) ltac:(lia)) as [Hs1 Hs2].
  destruct ((R - c / R =? 0) || (R - c / R =? -1)) eqn:E1.
  { apply wp_ret. rewrite wrap32_id by (unfold int32; destruct (Z.eq_dec R 2147483648); [|lia];
      subst R; apply orb_true_iff in E1 as [E1%Z.eqb_eq|E1%Z.eqb_eq];
      pose proof (Hs1 ltac:(auto)); pose proof (Z.sqrt_le_mono c 2147483648 ltac:(lia));
      change (Z.sqrt 2147483648) with 46340 in *; lia).
    split; [|done]. apply Hs1. apply orb_true_iff in E1 as [?%Z.eqb_eq|?%Z.eqb_eq]; auto. }
  destruct (Z.eqb_spec (R - c / R) 1) as [E2|E2].
  { apply wp_ret. rewrite wrap32_id by (unfold int32; lia). split; [by apply Hs2 | done]. }
  apply orb_false_iff in E1 as [E3%Z.eqb_neq E4%Z.eqb_neq].
  rewrite add64_id, Z.quot_div_nonneg by (unfold int64; lia).
  destruct (newton_step c R (c / R)) as [Hn1 Hn2]; [lia | lia | apply floor_near; lia | lia |].
  eapply (IH (newton_measure c ((R + c / R) / 2))); [lia | done |].
  split; [done|]. apply Z.div_le_upper_bound; lia.
Qed.

(** [ecsqrt] of what a component can be; 0 and 1 divide by zero. *)
Lemma ecsqrt_spec c s : 2 <= c <= 2147483648 ->
  wp (fun _ => ecsqrt c) s (fun r s' => r = Z.sqrt c /\ s' = s).
Proof.
  intros Hc. unfold ecsqrt. apply wp_bind, wp_signal_if; [apply Z.ltb_ge; lia|].
  rewrite Z.quot_div_nonneg by lia. apply wp_with_fuel.
  eapply ecsqrt_loop_spec; [lia | done |].
  split; [apply Z.div_le_lower_bound | apply Z.div_le_upper_bound]; lia.
Qed.

Lemma ecsqrt_one s : faults (fun _ => ecsqrt 1) s Div_by_zero.
Proof. exists 1%nat. intros n [|fuel] _ Hf; [lia | reflexivity]. Qed.

Lemma sqrt_loop_spec n k : 0 < n -> forall s p q R G X,
  newton_measure n R = k -> 1 <= R -> owns E s ((p, n) :: (q, R) :: G) X ->
  wp (fun m => sqrt_loop m p q) s (fun r s' => exists v,
    near_sqrt n v /\ owns E s' ((r, v) :: G) X).
Proof.
  intros Hn. induction k as [k IH] using lt_wf_ind. intros s p q R G X Hk HR HO.
  eapply wp_unfold; [intros m; reflexivity|]. cbn beta.
  step bi_copy_spec. intros x s1 (-> & HO1). step bi_copy_spec. intros y s2 (-> & HO2).
  eapply wp_call; [eapply (divide_spec E HE s2 p n q R); [lia | own]|]. cbn beta.
  intros q2 s3 (v & Hv & _ & HO3). destruct (newton_stop n R v Hn HR Hv) as [Hs1 Hs2].
  step bi_copy_spec. intros x s4 (-> & HO4). step bi_copy_spec. intros y s5 (-> & HO5).
  step bi_subtract_spec. intros d s6 HO6. clear HO HO1 HO2 HO3 HO4 HO5.
  step is_zero_spec. intros z s7 (-> & HO7).
  eapply (wp_call _ _ _ (fun z s' => z = ((R - v =? 0) || (R - v =? -1)) /\
    owns E s' ((p, n) :: (q, R) :: (q2, v) :: (d, R - v) :: G) X)).
  { destruct (R - v =? 0); [apply wp_ret; split; [done | own]|].
    step compare_m1_spec. intros r s8 (-> & HO8). apply wp_ret. split; [|own].
    cbn [orb]. destruct (Z.eqb_spec (Z.sgn (R - v - -1)) 0), (Z.eqb_spec (R - v) (-1)); lia || done. }
  intros z s8 (-> & HO8). destruct ((R - v =? 0) || (R - v =? -1)) eqn:E1.
  { step bi_free_spec. intros _ s9 HO9. step bi_free_spec. intros _ s10 HO10.
    step bi_free_spec. intros _ s11 HO11. apply wp_ret. exists R. split; [|own].
    apply Hs1. apply orb_true_iff in E1 as [?%Z.eqb_eq|?%Z.eqb_eq]; auto. }
  step is_one_spec. intros o s9 (-> & HO9). destruct (Z.eqb_spec (R - v) 1) as [E2|E2].
  { step bi_free_spec. intros _ s10 HO10. step bi_free_spec. intros _ s11 HO11.
    step bi_free_spec. intros _ s12 HO12. apply wp_ret. exists v. split; [by apply Hs2 | own]. }
  apply orb_false_iff in E1 as [E3%Z.eqb_neq E4%Z.eqb_neq].
  destruct (newton_step n R v) as [Hn1 Hn2]; [lia | lia | done | lia |].
  assert (0 <= R + v) as Hpos.
  { destruct (Z.le_gt_cases 0 (R + v)); [done|]. pose proof (Z.div_mod (R + v) 2 ltac:(lia)).
    pose proof (Z.mod_pos_bound (R + v) 2 ltac:(lia)). lia. }
  step bi_free_spec. intros _ s10 HO10. step bi_add_spec. intros x s11 HO11.
  step bi_half_spec; [lia|]. intros q3 s12 HO12.
  rewrite Z.quot_div_nonneg in HO12 by lia.
  eapply (IH (newton_measure n ((R + v) / 2)) ltac:(lia) s12 p q3 ((R + v) / 2)); [done | done | own].
Qed.

(** The first guess: the square root of the top component times the square root
    of the radix part.  It divides by zero when the top component is 1. *)
Lemma top_bounds c : normal_form c -> 1 < cell_val c ->
  1 <= top (comps c) < bi_radix /\ Z.of_nat (num_comps c) - 1 < bit_length (cell_val c) /\ sign c = 1.
Proof.
  intros Hn Hv. pose proof (nf_abs c Hn) as Ha. rewrite Z.abs_eq in Ha by lia.
  pose proof (digits_top _ (nf_digits _ Hn)) as Ht. unfold digit in Ht.
  assert (sign c = 1) as Hs by (destruct (nf_sign _ Hn) as [|Es]; [done|]; apply (nf_neg _ Hn) in Es; lia).
  destruct (Nat.le_gt_cases (num_comps c) 1) as [Hle|Hgt].
  - assert (num_comps c = 1%nat) as H1
      by (pose proof (nf_nonempty _ Hn); unfold num_comps in *; destruct (comps c); simpl in *; [done | lia]).
    destruct (one_comp c Hn H1) as [H2 H3].
    assert (top (comps c) = hd 0 (comps c)) as ->
      by (unfold num_comps in H1; destruct (comps c) as [|x [|]]; simpl in *; done || lia).
    rewrite H1. unfold bit_length. rewrite (proj2 (Z.eqb_neq _ _)) by lia.
    pose proof (Z.log2_nonneg (Z.abs (cell_val c))). lia.
  - pose proof (nf_top _ Hn Hgt). split; [lia|]. split; [|done].
    pose proof (nf_val_pos c Hn Hgt) as Hp. rewrite <- Ha in Hp.
    unfold bit_length. rewrite (proj2 (Z.eqb_neq _ _)), Z.abs_eq by lia.
    assert (2 ^ (Z.of_nat (num_comps c) - 1) <= cell_val c) as H2.
    { etransitivity; [|exact Hp]. apply Z.pow_le_mono_l. unfold bi_radix. lia. }
    apply Z.log2_le_pow2 in H2; lia.
Qed.

Lemma sqrt_guess s p n c G X :
  normal_form c -> cell_val c = n -> 1 < n -> bit_length n < 2147483648 -> top (comps c) <> 1 ->
  owns E s ((p, n) :: G) X ->
  wp (fun _ => x ← int_to_bi bi_radix_sqrt; y ← int_to_bi (Z.of_nat (num_comps c) - 1);
    x ← bi_power x y; t ← ecsqrt (top (comps c)); bi_int_multiply x t) s (fun r s' => exists R,
    1 <= R /\ owns E s' ((r, R) :: (p, n) :: G) X).
Proof.
  intros Hnf Hv Hn Hb Ht HO. subst n. destruct (top_bounds c Hnf Hn) as (Ht1 & Ht2 & _).
  pose proof (nf_nonempty _ Hnf) as Hne.
  assert (0 < num_comps c)%nat as Hnc by (unfold num_comps; destruct (comps c); [done | simpl; lia]).
  step int_to_bi_spec; [by unfold int32, bi_radix_sqrt|]. intros x s1 HO1.
  step int_to_bi_spec; [unfold int32; lia|]. intros y s2 HO2.
  step bi_power_spec; [lia|]. intros x' s3 HO3.
  eapply wp_call; [apply (ecsqrt_spec (top (comps c)) s3); unfold bi_radix in *; lia|].
  intros t s4 [-> ->].
  assert (1 <= Z.sqrt (top (comps c)) <= 46340) as Hs.
  { split; [apply Z.sqrt_le_square; lia|]. change 46340 with (Z.sqrt 2147483648).
    apply Z.sqrt_le_mono. unfold bi_radix in *. lia. }
  step_last bi_int_multiply_spec; [unfold int32; lia | lia |]. intros r s5 HO5. eexists. split; [|exact HO5].
  pose proof (Z.pow_pos_nonneg bi_radix_sqrt (Z.of_nat (num_comps c) - 1) ltac:(done) ltac:(lia)). nia.
Qed.

(** A number whose top component is 1. *)
Definition leading_one (n : Z) : Prop :=
  exists k, 0 < k /\ bi_radix ^ k <= n < 2 * bi_radix ^ k.

Lemma top_one c : normal_form c -> 1 < cell_val c -> top (comps c) = 1 <-> leading_one (cell_val c).
Proof.
  intros Hn Hv. pose proof (nf_nonempty _ Hn) as Hne. pose proof (nf_digits _ Hn) as Hd.
  pose proof (digits_top _ Hd) as Ht. pose proof (nf_abs c Hn) as Ha. rewrite Z.abs_eq in Ha by lia.
  pose proof (split_top _ Hne) as Hs. set (r := removelast (comps c)) in *. set (t := top (comps c)) in *.
  rewrite Hs in Ha, Hd. rewrite val_app in Ha. cbn [val] in Ha. apply Forall_app in Hd as [Hr _].
  pose proof (digits_bound r Hr) as Hvr.
  replace (t + bi_radix * 0) with t in Ha by ring.
  set (P := bi_radix ^ Z.of_nat (length r)) in *.
  assert (0 < P) as HP by (apply Z.pow_pos_nonneg; [done | lia]).
  unfold digit in Ht. split.
  - intros E1. exists (Z.of_nat (length r)). fold P. split; [|nia].
    destruct r as [|x r']; [|simpl; lia]. exfalso. unfold P in *. simpl in *. lia.
  - intros (k & Hk & Hlo & Hhi).
    assert (k = Z.of_nat (length r)) as ->.
    { destruct (Z.lt_trichotomy k (Z.of_nat (length r))) as [H|[H|H]]; [exfalso|done|exfalso].
      - assert (t <> 0) as Ht0.
        { apply (nf_top c Hn). unfold num_comps. rewrite Hs, length_app. simpl. lia. }
        assert (bi_radix ^ (k + 1) <= P) as Hp by (apply Z.pow_le_mono_r; [done | lia]).
        rewrite Z.pow_add_r in Hp by lia. change (bi_radix ^ 1) with bi_radix in Hp.
        pose proof (Z.pow_pos_nonneg bi_radix k ltac:(done) ltac:(lia)). unfold bi_radix in *. nia.
      - assert (bi_radix ^ (Z.of_nat (length r) + 1) <= bi_radix ^ k) as Hp
          by (apply Z.pow_le_mono_r; [done | lia]).
        rewrite Z.pow_add_r in Hp by lia. change (bi_radix ^ 1) with bi_radix in Hp. fold P in Hp. nia. }
    fold P in Hlo, Hhi. nia.
Qed.

Lemma bi_sqrt_spec s p n G X :
  0 <= n -> ~ leading_one n -> bit_length n < 2147483648 -> owns E s ((p, n) :: G) X ->
  wp (fun _ => bi_sqrt p) s (fun r s' => exists v,
    (if n =? 0 then v = 0 else near_sqrt n v) /\ owns E s' ((r, v) :: G) X).
Proof.
  intros Hn Hl Hb HO. unfold bi_sqrt. step compare_0_spec. intros r s1 (-> & HO1).
  rewrite Z.sub_0_r. apply wp_bind, wp_signal_if; [apply Z.eqb_neq; lia|].
  destruct (Z.eqb_spec (Z.sgn n) 0) as [E0|E0].
  { apply wp_ret. exists n. rewrite (proj2 (Z.eqb_eq _ _)) by lia. split; [lia | done]. }
  rewrite (proj2 (Z.eqb_neq n 0)) by lia.
  step is_one_spec. intros o s2 (-> & HO2). destruct (Z.eqb_spec n 1) as [->|E1].
  { apply wp_ret. exists 1. split; [unfold near_sqrt; lia | done]. }
  step deref_own. intros c s3 (-> & _ & Hnf & Hv).
  assert (top (comps c) <> 1) as Htop by (rewrite top_one, Hv by (done || lia); done).
  pose proof (sqrt_guess s2 p n c G X Hnf Hv ltac:(lia) Hb Htop HO2) as Hg.
  apply (wp_ext _ (fun _ => (x ← int_to_bi bi_radix_sqrt; y ← int_to_bi (Z.of_nat (num_comps c) - 1);
    x ← bi_power x y; t ← ecsqrt (top (comps c)); bi_int_multiply x t) ≫= fun biR =>
    with_fuel (fun n => sqrt_loop n p biR))).
  { intros m fuel. unfold mbind, prog_bind. repeat case_match; congruence. }
  eapply wp_call; [exact Hg|]. cbn beta. intros biR s4 (R & HR & HO4). apply wp_with_fuel.
  apply (sqrt_loop_spec n (newton_measure n R) ltac:(lia) s4 p biR R); [done | done | own].
Qed.

Lemma bi_sqrt_negative s p n G X : n < 0 -> owns E s ((p, n) :: G) X ->
  faults (fun _ => bi_sqrt p) s (Sigfpe "bi_sqrt: imaginary result").
Proof.
  intros Hn HO. unfold bi_sqrt. fstep compare_0_spec. intros r s1 (-> & HO1).
  rewrite (proj2 (Z.eqb_eq (Z.sgn (n - 0)) (-1))) by lia. apply faults_bind, faults_fail.
Qed.

(** The first guess of [ecsqrt( 1 )] is 0. *)
Lemma bi_sqrt_crash s p n G X :
  leading_one n -> bit_length n < 2147483648 -> owns E s ((p, n) :: G) X ->
  faults (fun _ => bi_sqrt p) s Div_by_zero.
Proof.
  intros Hl Hb HO.
  assert (1 < n) as Hn.
  { destruct Hl as (k & Hk & Hlo & _).
    pose proof (Z.pow_le_mono_r bi_radix 1 k ltac:(done) ltac:(lia)). unfold bi_radix in *. lia. }
  unfold bi_sqrt. fstep compare_0_spec. intros r s1 (-> & HO1).
  rewrite (proj2 (Z.eqb_neq (Z.sgn (n - 0)) (-1))), (proj2 (Z.eqb_neq (Z.sgn (n - 0)) 0)) by lia.
  eapply (faults_after _ _ _ (fun _ s' => s' = s1)); [by apply wp_ret|]. intros _ ? ->.
  fstep is_one_spec. intros o s2 (-> & HO2). rewrite (proj2 (Z.eqb_neq n 1)) by lia.
  fstep deref_own. intros c s3 (-> & _ & Hnf & Hv).
  assert (top (comps c) = 1) as -> by (apply top_one; [done | lia | by rewrite Hv]).
  destruct (top_bounds c Hnf ltac:(lia)) as (_ & Ht2 & _). rewrite Hv in Ht2.
  pose proof (nf_nonempty _ Hnf) as Hne.
  assert (0 < num_comps c)%nat as Hnc by (unfold num_comps; destruct (comps c); [done | simpl; lia]).
  fstep int_to_bi_spec; [by unfold int32, bi_radix_sqrt|]. intros x s3 HO3.
  fstep int_to_bi_spec; [unfold int32; lia|]. intros y s4 HO4.
  fstep bi_power_spec; [lia|]. intros x' s5 HO5.
  apply faults_bind, ecsqrt_one.
Qed.

(** *** Binary division *)

Lemma binary_divide_loop_spec N D k : 0 < D -> forall s p q r n d vq G X,
  0 <= n < D * 2 ^ Z.of_nat k -> N = vq * (D * 2 ^ Z.of_nat k) + n -> 0 <= d ->
  ((0 < k)%nat -> d = D * 2 ^ (Z.of_nat k - 1)) ->
  owns E s ((p, vq) :: (q, n) :: (r, d) :: G) X ->
  wp (fun _ => binary_divide_loop k p q r) s (fun '(p', q', r') s' => exists n' d',
    owns E s' ((p', N / D) :: (q', n') :: (r', d') :: G) X).
Proof.
  intros HD. induction k as [|k IH]; intros s p q r n d vq G X Hn HN Hd0 Hd HO.
  - apply wp_ret. exists n, d. change (2 ^ Z.of_nat 0) with 1 in *. rewrite Z.mul_1_r in *.
    replace (N / D) with vq by (apply (Z.div_unique N D vq n); lia). own.
  - cbn [binary_divide_loop]. specialize (Hd ltac:(lia)).
    replace (Z.of_nat (S k) - 1) with (Z.of_nat k) in Hd by lia.
    rewrite Nat2Z.inj_succ, Z.pow_succ_r in Hn, HN by lia.
    pose proof (Z.pow_pos_nonneg 2 (Z.of_nat k) ltac:(lia) ltac:(lia)) as HP.
    set (P := 2 ^ Z.of_nat k) in *.
    step bi_double_spec. intros p1 s1 HO1. step compare_copies_spec. intros c s2 (-> & HO2).
    eapply (wp_call _ _ _ (fun '(p2, q2) s' => exists vq2 n2,
      0 <= n2 < D * P /\ N = vq2 * (D * P) + n2 /\
      owns E s' ((p2, vq2) :: (q2, n2) :: (r, d) :: G) X)).
    { destruct (Z.leb_spec 0 (Z.sgn (n - d))).
      - step bi_int_add_spec; [by unfold int32|]. intros p2 s3 HO3.
        step bi_copy_spec. intros x s4 (-> & HO4). step bi_subtract_spec. intros q2 s5 HO5.
        apply wp_ret. exists (vq * 2 + 1), (n - d). split; [lia|]. split; [lia | own].
      - apply wp_ret. exists (vq * 2), n. split; [lia|]. split; [lia | own]. }
    intros [p2 q2] s3 (vq2 & n2 & Hn2 & HN2 & HO3).
    step bi_half_spec; [lia|]. intros r2 s4 HO4. rewrite Z.quot_div_nonneg in HO4 by lia.
    apply (IH s4 p2 q2 r2 n2 (d / 2) vq2 G X); [done | done | apply Z.div_pos; lia | | own].
    intros Hk. rewrite Hd. unfold P. replace (Z.of_nat k) with (Z.of_nat k - 1 + 1) at 1 by lia.
    rewrite Z.pow_add_r, Z.pow_1_r, Z.mul_assoc by lia. by apply Z.div_mul.
Qed.

Lemma bit_length_bounds v : 0 < v -> 2 ^ (bit_length v - 1) <= v < 2 ^ bit_length v.
Proof.
  intros Hv. unfold bit_length. rewrite (proj2 (Z.eqb_neq _ _)), Z.abs_eq by lia.
  replace (Z.log2 v + 1 - 1) with (Z.log2 v) by lia. by apply Z.log2_spec.
Qed.

Lemma binary_divide_exact :
  full_divides E (fun n _ => bit_length n < 2147483648) (fun n d q => q = n / d) binary_divide_full.
Proof.
  intros s a n b d G X Hb Hd HO. assert (0 < d) as Hpos by (unfold bi_radix in Hd; lia).
  unfold binary_divide_full. step bits_spec. intros nb s1 (-> & HO1).
  step bits_spec. intros db s2 (-> & HO2).
  pose proof (bit_length_bounds n ltac:(lia)) as Bn. pose proof (bit_length_bounds d Hpos) as Bd.
  pose proof (bit_length_nonneg d) as Hdb0.
  assert (bit_length d <= bit_length n) as Hle.
  { unfold bit_length. rewrite !(proj2 (Z.eqb_neq _ _)), !Z.abs_eq by lia.
    pose proof (Z.log2_le_mono d n ltac:(lia)). lia. }
  set (nb := bit_length n) in *. set (db := bit_length d) in *. clearbody nb db.
  assert (1 <= db) as Hdb.
  { destruct (Z.eq_dec db 0) as [E0|]; [|lia]. rewrite E0 in Bd. change (2 ^ 0) with 1 in Bd. lia. }
  step two_spec. intros two s3 HO3. step int_to_bi_spec; [unfold int32; lia|]. intros x s4 HO4.
  step bi_power_spec; [lia|]. intros x2 s5 HO5. step bi_multiply_spec. intros b2 s6 HO6.
  step zero_spec. intros z s7 HO7.
  eapply wp_call.
  { eapply (binary_divide_loop_spec n d (Z.to_nat (nb + 1 - db)) Hpos s7 z a b2 n (d * 2 ^ (nb - db)) 0);
      [| lia | pose proof (Z.pow_nonneg 2 (nb - db)); nia | | own].
    - rewrite Z2Nat.id by lia. split; [lia|].
      apply Z.lt_le_trans with (2 ^ nb); [lia|].
      replace nb with (db - 1 + (nb + 1 - db)) at 1 by lia. rewrite Z.pow_add_r by lia.
      apply Z.mul_le_mono_nonneg_r; [apply Z.pow_nonneg|]; lia.
    - intros _. rewrite Z2Nat.id by lia. do 2 f_equal. lia. }
  cbn beta. intros [[p' q'] r'] s8 (n' & d' & HO8).
  step bi_free_spec. intros _ s9 HO9. step bi_free_spec. intros _ s10 HO10.
  apply wp_ret. exists (n / d). split; [done | own].
Qed.

Lemma bi_binary_divide_spec s a n b d G X :
  d <> 0 -> bit_length n < 2147483648 -> owns E s ((a, n) :: (b, d) :: G) X ->
  wp (fun _ => bi_binary_divide a b) s (fun r s' => owns E s' ((r, Z.quot n d) :: G) X).
Proof.
  intros Hd Hb HO.
  assert (bit_length (Z.abs n) < 2147483648) as Hb'.
  { unfold bit_length in *. rewrite Z.abs_idemp.
    destruct (Z.eqb_spec (Z.abs n) 0), (Z.eqb_spec n 0); lia. }
  eapply wp_mono.
  { apply (divide_by_spec E HE _ _ binary_divide_full s a n b d G X binary_divide_exact Hb'); [|done..].
    intros n' d' u Hnd ->. apply Z.div_str_pos. lia. }
  cbn beta. intros r s' (u & Hu & HO'). rewrite Z.quot_div by done.
  replace (Z.abs n / Z.abs d) with u; [done|]. unfold magnitude_quotient in Hu. by destruct (_ || _).
Qed.
End specs.

(** *** Random numbers *)

(** The environment after some calls of [random()]. *)
Definition drew (E E' : env) : Prop := exists k,
  let w := e_world E in
  E' = Env (e_permanent E) (e_globals E) (e_level E)
    (World (random_values w) (random_next w + k) (input w) (output w)).

(** POSIX: "in the range [0, 2^31 - 1]". *)
Definition random_range (E : env) : Prop := forall i, 0 <= random_values (e_world E) i < 2147483648.

Lemma drew_refl E : drew E E.
Proof. exists 0%nat. destruct E as [? ? ? []]. simpl. by rewrite Nat.add_0_r. Qed.

Lemma drew_trans E1 E2 E3 : drew E1 E2 -> drew E2 E3 -> drew E1 E3.
Proof. intros [j ->] [k ->]. exists (j + k)%nat. simpl. by rewrite Nat.add_assoc. Qed.

Lemma drew_ok E E' : drew E E' -> env_ok E -> env_ok E'.
Proof. intros [k ->] H. by destruct H. Qed.

Lemma drew_range E E' : drew E E' -> random_range E -> random_range E'.
Proof. by intros [k ->] H. Qed.

Lemma random_spec E s G X : random_range E -> owns E s G X ->
  wp (fun _ => random) s (fun r s' => exists E', drew E E' /\ digit r /\ owns E' s' G X).
Proof.
  intros Hr HO. unfold random. apply wp_bind, wp_get_state. apply wp_bind, wp_set_state, wp_ret.
  pose proof HO as [[] H2 H3 H4 H5 H6 H7 H8].
  eexists. split; [by exists 1%nat|]. split.
  - rewrite H8. apply Hr.
  - rewrite Nat.add_1_r, <- H8.
    split; cbn [e_permanent e_globals e_level e_world]; auto. by split.
Qed.

Lemma random_comps_spec k : forall E s G X, random_range E -> owns E s G X ->
  wp (fun _ => random_comps k) s (fun l s' => exists E',
    drew E E' /\ digits l /\ length l = k /\ owns E' s' G X).
Proof.
  induction k as [|k IH]; intros E s G X Hr HO.
  - apply wp_ret. exists E. split; [apply drew_refl|]. by split; [constructor|].
  - cbn [random_comps]. step random_spec. intros x s1 (E1 & HE1 & Hx & HO1).
    eapply wp_call; [eapply (IH E1 s1); [by eapply drew_range | own]|]. cbn beta.
    intros l s2 (E2 & HE2 & Hl & Hlen & HO2). apply wp_ret. exists E2.
    split; [by eapply drew_trans|]. split; [by constructor|]. split; [simpl; lia | done].
Qed.

(** A number in [0, m), whatever [random()] returns. *)
Lemma bi_random_spec E s p m G X : env_ok E -> random_range E -> 0 < m ->
  owns E s ((p, m) :: G) X ->
  wp (fun _ => bi_random p) s (fun r s' => exists E' v,
    drew E E' /\ 0 <= v < m /\ owns E' s' ((r, v) :: G) X).
Proof.
  intros HE Hr Hm HO. unfold bi_random. step zero_spec. intros z s1 HO1.
  step clone_zero. intros r s2 (c0 & Hs0 & Hc0 & HO2). step deref_own. intros cm s3 (-> & _ & _ & _).
  step update_raw; [done|]. intros _ s3 HO3. step deref_raw. intros c1 s4 [-> ->].
  step random_comps_spec. intros l s5 (E2 & HE2 & Hl & Hlen & HO5).
  pose proof (drew_ok _ _ HE2 HE) as HEok.
  step update_raw; [done|]. intros _ s6 HO6. step update_raw; [by refs_tac|]. intros _ s7 HO7.
  set (c2 := set_comps l _) in HO7.
  assert (comps c2 <> []) as Hne.
  { cbn [c2 comps set_comps]. intros ->. simpl in Hlen. unfold num_comps, more_comps in Hlen.
    cbn [comps] in Hlen. rewrite Hc0 in Hlen. simpl in Hlen. lia. }
  destruct (normalize_ok (garbage s6) c2) as [Hn _].
  - cbn [c2 sign set_comps more_comps]. by left.
  - done.
  - left. cbn [c2 comps set_comps]. by apply carriable_digits.
  - apply owns_finish in HO7; [|done]. step_last bi_mod_spec. intros r' s8 HO8.
    eexists E2, _. split; [done|]. split; [|exact HO8]. by apply Z.mod_pos_bound.
Qed.
