(* ===== verification/BigText.v ===== *)
(** * Reading and writing bigints (bigint_ext.c)

    [str_to_bi], [bi_scan], [bi_print] and their variants for any base.  A C
    string is the list of its characters before the terminating NUL; a [FILE] is
    the part of the outside world the functions read or write.  What is printed
    in a base from 2 to 36 reads back as the same number. *)

From Stdlib Require Import ZArith Lia.
From stdpp Require Import base numbers list gmap strings.
From S2P Require Import Prelude BigComps BigCell BigHeap BigInt BigDiv BigNum.

Open Scope Z_scope.

(** ** Code *)

Definition char_to_digit (c : Z) : Z :=
  if (48 <=? c) && (c <=? 57) then c - 48
  else if (97 <=? c) && (c <=? 122) then c - 97 + 10
  else if (65 <=? c) && (c <=? 65) then c - 65 + 10
  else -1.

Definition digit_to_char (d : Z) : Z :=
  if (0 <=? d) && (d <=? 9) then d + 48 else d - 10 + 97.

(** One more digit: [biR = bi_int_add( bi_int_multiply( biR, base ), d )]. *)
Definition push_digit (biR : bigint) (base d : Z) : M bigint :=
  x ← bi_int_multiply biR base; bi_int_add x d.

Fixpoint str_loop (str : list Z) (base : Z) (biR : bigint) : M bigint :=
  match str with
  | [] => mret biR
  | c :: str =>
      let d := char_to_digit c in
      if (d =? -1) || (base <=? d) then mret biR else
      biR ← push_digit biR base d;
      str_loop str base biR
  end.

(** [if ( *str == '-' ) { sign = -1; ++str; }]. *)
Definition split_sign (str : list Z) : Z * list Z :=
  match str with
  | c :: str' => if c =? 45 then (-1, str') else (1, str)
  | [] => (1, [])
  end.

Definition str_to_bi_base (str : list Z) (base : Z) : M bigint :=
  let '(sign, str) := split_sign str in
  z ← constant bi_0;
  biR ← str_loop str base z;
  if sign =? -1 then bi_negate biR else mret biR.

Definition str_to_bi (str : list Z) : M bigint := str_to_bi_base str 10.

Definition EOF : Z := -1.

Definition getc : M Z :=
  s ← get_state;
  let w := the_world s in
  match input w with
  | [] => mret EOF
  | c :: rest =>
      set_state (with_world (World (random_values w) (random_next w) rest (output w)) s);;
      mret c
  end.

Definition ungetc (c : Z) : M unit :=
  s ← get_state;
  let w := the_world s in
  if c =? EOF then mret tt else
  set_state (with_world (World (random_values w) (random_next w) (c :: input w) (output w)) s).

Definition putc (c : Z) : M unit :=
  s ← get_state;
  let w := the_world s in
  set_state (with_world (World (random_values w) (random_next w) (input w) (c :: output w)) s).

Fixpoint scan_loop (n : nat) (base : Z) (biR : bigint) : M bigint :=
  match n with
  | O => fail Out_of_fuel
  | S n =>
      c ← getc;
      let d := char_to_digit c in
      if (d =? -1) || (base <=? d) then mret biR else
      biR ← push_digit biR base d;
      scan_loop n base biR
  end.

Definition bi_scan_base (base : Z) : M bigint :=
  c ← getc;
  sign ← (if c =? 45 then mret (-1) else ungetc c;; mret 1);
  z ← constant bi_0;
  biR ← with_fuel (fun n => scan_loop n base z);
  if sign =? -1 then bi_negate biR else mret biR.

Definition bi_scan : M bigint := bi_scan_base 10.

Fixpoint print_pos (n : nat) (bi : bigint) (base : Z) : M unit :=
  match n with
  | O => fail Out_of_fuel
  | S n =>
      x ← bi_copy bi;
      y ← int_to_bi base;
      r ← bi_compare x y;
      (if 0 <=? r then
         x ← bi_copy bi;
         x ← bi_int_divide x base;
         print_pos n x base
       else mret tt);;
      d ← bi_int_mod bi base;
      putc (digit_to_char d)
  end.

Definition bi_print_base (bi : bigint) (base : Z) : M unit :=
  neg ← copied bi_is_negative bi;
  bi ← (if neg : bool then putc 45;; bi_negate bi else mret bi);
  with_fuel (fun n => print_pos n bi base).

Definition bi_print (bi : bigint) : M unit := bi_print_base bi 10.

(** ** The text of a number *)

Fixpoint pos_text (k : nat) (base v : Z) : list Z :=
  match k with
  | O => []
  | S k =>
      (if base <=? v then pos_text k base (v / base) else []) ++ [digit_to_char (v mod base)]
  end.
Definition text (base v : Z) : list Z :=
  if v <? 0 then 45 :: pos_text (Z.to_nat (bit_length v) + 1) base (- v)
  else pos_text (Z.to_nat (bit_length v) + 1) base v.

(** The value of the digits at the head of a string, appended to [acc], and what follows them. *)
Fixpoint str_value (base acc : Z) (str : list Z) : Z :=
  match str with
  | [] => acc
  | c :: str =>
      let d := char_to_digit c in
      if (d =? -1) || (base <=? d) then acc else str_value base (acc * base + d) str
  end.

(** [getc] consumes the first character that is not a digit as well. *)
Fixpoint str_rest (base : Z) (str : list Z) : list Z :=
  match str with
  | [] => []
  | c :: str =>
      let d := char_to_digit c in
      if (d =? -1) || (base <=? d) then str else str_rest base str
  end.

Lemma digit_to_char_digit d : 0 <= d < 36 -> char_to_digit (digit_to_char d) = d.
Proof.
  intros Hd. unfold digit_to_char.
  destruct (Z.leb_spec 0 d), (Z.leb_spec d 9); cbn [andb]; unfold char_to_digit;
  repeat match goal with |- context [?a <=? ?b] => destruct (Z.leb_spec a b) end; simpl; lia.
Qed.

Lemma char_to_digit_range c : -1 <= char_to_digit c < 36.
Proof.
  unfold char_to_digit.
  repeat match goal with |- context [?a <=? ?b] => destruct (Z.leb_spec a b) end; simpl; lia.
Qed.

Lemma str_value_digits base acc d str : 0 <= d < base -> base <= 36 ->
  str_value base acc (digit_to_char d :: str) = str_value base (acc * base + d) str.
Proof.
  intros Hd Hb. cbn [str_value]. rewrite digit_to_char_digit by lia. cbn zeta.
  rewrite (proj2 (Z.eqb_neq _ _)), (proj2 (Z.leb_gt _ _)) by lia. done.
Qed.

Lemma str_rest_digits base d str : 0 <= d < base -> base <= 36 ->
  str_rest base (digit_to_char d :: str) = str_rest base str.
Proof.
  intros Hd Hb. cbn [str_rest]. rewrite digit_to_char_digit by lia. cbn zeta.
  rewrite (proj2 (Z.eqb_neq _ _)), (proj2 (Z.leb_gt _ _)) by lia. done.
Qed.

(** Reading the text of a number, whatever follows it. *)
Lemma pos_text_value base k : 2 <= base <= 36 -> forall v tail, 0 <= v < 2 ^ Z.of_nat k ->
  str_value base 0 (pos_text (k + 1) base v ++ tail) = str_value base v tail /\
  str_rest base (pos_text (k + 1) base v ++ tail) = str_rest base tail.
Proof.
  intros Hb. induction k as [|k IH]; intros v tail Hv; cbn [Nat.add pos_text].
  - change (2 ^ Z.of_nat 0) with 1 in Hv. assert (v = 0) as -> by lia.
    rewrite (proj2 (Z.leb_gt _ _)), Z.mod_0_l by lia. cbn [app].
    rewrite str_value_digits, str_rest_digits by lia. done.
  - rewrite <- app_assoc. pose proof (Z.mod_pos_bound v base ltac:(lia)) as Hm.
    pose proof (Z.div_mod v base ltac:(lia)) as E. destruct (Z.leb_spec base v) as [Hle|Hlt].
    + assert (0 <= v / base < 2 ^ Z.of_nat k) as Hq.
      { rewrite Nat2Z.inj_succ, Z.pow_succ_r in Hv by lia. split; [apply Z.div_pos; lia|].
        apply Z.div_lt_upper_bound; nia. }
      destruct (IH (v / base) ([digit_to_char (v mod base)] ++ tail) Hq) as [-> ->]. cbn [app].
      rewrite str_value_digits, str_rest_digits by lia. split; [f_equal; lia | done].
    + cbn [app]. rewrite str_value_digits, str_rest_digits by lia.
      split; [f_equal; rewrite Z.mod_small; lia | done].
Qed.

Lemma bit_length_upper v : Z.abs v < 2 ^ bit_length v.
Proof.
  unfold bit_length. destruct (Z.eqb_spec v 0) as [->|Hne]; [done|].
  pose proof (Z.log2_spec (Z.abs v) ltac:(lia)) as [_ Hl]. by rewrite Z.add_1_r.
Qed.

(** ** Specifications *)

(** The same package, other contents of the files. *)
Definition with_io (i o : list Z) (E : env) : env :=
  let w := e_world E in
  Env (e_permanent E) (e_globals E) (e_level E) (World (random_values w) (random_next w) i o).

Lemma with_io_ok i o E : env_ok E -> env_ok (with_io i o E).
Proof. intros H. by destruct H. Qed.

Lemma with_io_id E : with_io (input (e_world E)) (output (e_world E)) E = E.
Proof. by destruct E as [? ? ? []]. Qed.

Lemma owns_io E s G X i o : owns E s G X ->
  let w := the_world s in
  owns (with_io i o E) (with_world (World (random_values w) (random_next w) i o) s) G X.
Proof.
  intros [[] H2 H3 H4 H5 H6 H7 H8]. cbn zeta. unfold with_io. rewrite H8.
  split; cbn [e_permanent e_globals e_level e_world]; auto. by split.
Qed.

Lemma getc_spec E s G X : owns E s G X ->
  wp (fun _ => getc) s (fun c s' =>
    c = hd EOF (input (e_world E)) /\
    owns (with_io (tl (input (e_world E))) (output (e_world E)) E) s' G X).
Proof.
  intros HO. unfold getc. apply wp_bind, wp_get_state. pose proof (o_world _ _ _ _ HO) as Hw.
  rewrite Hw. destruct (input (e_world E)) as [|c rest] eqn:Ei.
  - apply wp_ret. split; [done|]. cbn [tl]. rewrite <- Ei. by rewrite with_io_id.
  - apply wp_bind, wp_set_state, wp_ret. split; [done|].
    pose proof (owns_io E s G X rest (output (e_world E)) HO) as H. cbn zeta in H. by rewrite Hw in H.
Qed.

Lemma putc_spec E s G X c : owns E s G X ->
  wp (fun _ => putc c) s (fun _ s' =>
    owns (with_io (input (e_world E)) (c :: output (e_world E)) E) s' G X).
Proof.
  intros HO. unfold putc. apply wp_bind, wp_get_state, wp_set_state.
  pose proof (owns_io E s G X (input (e_world E)) (c :: output (e_world E)) HO) as H. cbn zeta in H.
  by rewrite (o_world _ _ _ _ HO) in *.
Qed.

Section specs.
Context (base : Z) (Hbase : 2 <= base <= 36).

Lemma push_digit_spec E s p v d G X : -1 <= d < 36 -> owns E s ((p, v) :: G) X ->
  wp (fun _ => push_digit p base d) s (fun r s' => owns E s' ((r, v * base + d) :: G) X).
Proof.
  intros Hd HO. unfold push_digit. step bi_int_multiply_spec; [unfold int32; lia | lia |].
  intros x s1 HO1. by step_last bi_int_add_spec; [unfold int32; lia|].
Qed.

Lemma str_loop_spec E str : forall s p v G X, owns E s ((p, v) :: G) X ->
  wp (fun _ => str_loop str base p) s (fun r s' => owns E s' ((r, str_value base v str) :: G) X).
Proof.
  induction str as [|c str IH]; intros s p v G X HO; [by apply wp_ret|].
  cbn [str_loop str_value]. cbn zeta. destruct (_ || _) eqn:Eb; [by apply wp_ret|].
  step push_digit_spec; [apply char_to_digit_range|]. intros p' s1 HO1. by apply IH.
Qed.

(** What a numeral stands for. *)
Definition numeral (str : list Z) : Z :=
  let '(sign, str) := split_sign str in sign * str_value base 0 str.

(** A minus sign before a zero is excluded: [bi_negate] makes a negative zero of it. *)
Definition no_minus_zero (str : list Z) : Prop :=
  fst (split_sign str) = -1 -> str_value base 0 (snd (split_sign str)) <> 0.

Lemma split_sign_cases str : fst (split_sign str) = -1 \/ fst (split_sign str) = 1.
Proof. unfold split_sign. destruct str as [|c str]; [by right|]. destruct (c =? 45); auto. Qed.

Lemma str_to_bi_base_spec E s str G X :
  env_ok E -> no_minus_zero str -> owns E s G X ->
  wp (fun _ => str_to_bi_base str base) s (fun r s' => owns E s' ((r, numeral str) :: G) X).
Proof.
  intros HE Hneg HO. unfold str_to_bi_base, numeral, no_minus_zero in *.
  pose proof (split_sign_cases str) as Hs. destruct (split_sign str) as [sg rest]. cbn [fst snd] in *.
  step zero_spec. intros z s1 HO1. step str_loop_spec. intros r s2 HO2.
  destruct Hs as [-> | ->]; cbn [Z.eqb Pos.eqb].
  - step_last bi_negate_spec; [by apply Hneg|]. intros r' s3 HO3.
    by replace (-1 * str_value base 0 rest) with (- str_value base 0 rest) by lia.
  - apply wp_ret. by rewrite Z.mul_1_l.
Qed.

Lemma scan_loop_spec str : forall E s p v G X, input (e_world E) = str -> owns E s ((p, v) :: G) X ->
  wp (fun n => scan_loop n base p) s (fun r s' =>
    owns (with_io (str_rest base str) (output (e_world E)) E) s' ((r, str_value base v str) :: G) X).
Proof.
  induction str as [|c str IH]; intros E s p v G X Hi HO;
    (eapply wp_unfold; [intros m; reflexivity|]); cbn [scan_loop];
    step getc_spec; intros c' s1 (-> & HO1); rewrite Hi in *; cbn [hd tl] in *.
  - apply wp_ret. exact HO1.
  - cbn [str_value str_rest]. cbn zeta. destruct (_ || _) eqn:Eb; [by apply wp_ret|].
    step push_digit_spec; [apply char_to_digit_range|]. intros p' s2 HO2.
    eapply wp_mono; [by eapply IH, HO2|]. intros r s3 HO3. exact HO3.
Qed.

(** [bi_scan_base] also consumes the character after the number. *)
Lemma bi_scan_base_spec E s str G X :
  env_ok E -> input (e_world E) = str -> no_minus_zero str -> hd 0 str <> EOF -> owns E s G X ->
  wp (fun _ => bi_scan_base base) s (fun r s' =>
    owns (with_io (str_rest base (snd (split_sign str))) (output (e_world E)) E) s'
      ((r, numeral str) :: G) X).
Proof.
  intros HE Hi Hneg Heof HO. unfold bi_scan_base, numeral, no_minus_zero in *.
  step getc_spec. intros c s1 (-> & HO1). rewrite Hi in *.
  eapply (wp_call _ _ _ (fun sg s' => sg = fst (split_sign str) /\
    owns (with_io (snd (split_sign str)) (output (e_world E)) E) s' G X)).
  { destruct str as [|c str]; cbn [hd tl split_sign] in *.
    - eapply (wp_call _ _ _ (fun _ s' => s' = s1)); [|intros _ s' ->; apply wp_ret; by split].
      unfold ungetc. apply wp_bind, wp_get_state. by apply wp_ret.
    - destruct (Z.eqb_spec c 45) as [->|Hne]; [apply wp_ret; by split|].
      eapply (wp_call _ _ _ (fun _ s' => owns (with_io (c :: str) (output (e_world E)) E) s' G X));
        [|intros _ s' HO'; apply wp_ret; by split].
      unfold ungetc. apply wp_bind, wp_get_state. rewrite (proj2 (Z.eqb_neq _ _)) by done.
      apply wp_set_state. rewrite (o_world _ _ _ _ HO1).
      pose proof (owns_io _ s1 G X (c :: str) (output (e_world E)) HO1) as H. cbn zeta in H.
      by rewrite (o_world _ _ _ _ HO1) in H. }
  intros sg s2 (-> & HO2). pose proof (split_sign_cases str) as Hs.
  destruct (split_sign str) as [sg rest]. cbn [fst snd] in *.
  pose proof (with_io_ok rest (output (e_world E)) E HE) as HE2.
  step zero_spec. intros z s3 HO3.
  eapply wp_call; [apply wp_with_fuel; eapply (scan_loop_spec rest (with_io rest (output (e_world E)) E) s3 z 0); [done | own]|].
  cbn beta. intros r s4 HO4. destruct Hs as [-> | ->]; cbn [Z.eqb Pos.eqb].
  - step_last bi_negate_spec; [by apply Hneg|]. intros r' s5 HO5.
    replace (-1 * str_value base 0 rest) with (- str_value base 0 rest) by lia. exact HO5.
  - apply wp_ret. rewrite Z.mul_1_l. exact HO4.
Qed.

(** *** Printing *)

Definition printed (t : list Z) (E : env) : env :=
  with_io (input (e_world E)) (rev t ++ output (e_world E)) E.

Lemma print_pos_spec k : forall E s p v G X, 0 <= v < 2 ^ Z.of_nat k -> owns E s ((p, v) :: G) X ->
  wp (fun m => print_pos m p base) s (fun _ s' => owns (printed (pos_text (k + 1) base v) E) s' G X).
Proof.
  induction k as [|k IH]; intros E s p v G X Hv HO;
    (eapply wp_unfold; [intros m; reflexivity|]); cbn [print_pos Nat.add pos_text];
    step bi_copy_spec; intros x s1 (-> & HO1);
    (step int_to_bi_spec; [unfold int32; lia|]); intros y s2 HO2;
    step bi_compare_spec; intros r s3 (-> & HO3).
  - change (2 ^ Z.of_nat 0) with 1 in Hv. assert (v = 0) as -> by lia.
    rewrite (proj2 (Z.leb_gt 0 _)), (proj2 (Z.leb_gt base _)) by lia.
    eapply (wp_call _ _ _ (fun _ s' => s' = s3)); [by apply wp_ret|]. intros _ s4 ->.
    step bi_int_mod_spec; [lia|]. intros d s5 (-> & HO5). step_last putc_spec. done.
  - destruct (Z.leb_spec base v) as [Hle|Hlt].
    + rewrite (proj2 (Z.leb_le 0 _)) by lia.
      eapply (wp_call _ _ _ (fun _ s' =>
        owns (printed (pos_text (k + 1) base (v / base)) E) s' ((p, v) :: G) X)).
      { step bi_copy_spec. intros x s4 (-> & HO4).
        step bi_int_divide_spec; [unfold int32; lia | lia | lia |]. intros x' s5 HO5.
        rewrite Z.quot_div_nonneg in HO5 by lia. eapply IH; [|own].
        rewrite Nat2Z.inj_succ, Z.pow_succ_r in Hv by lia. split; [apply Z.div_pos; lia|].
        apply Z.div_lt_upper_bound; nia. }
      intros _ s4 HO4. step bi_int_mod_spec; [lia|]. intros d s5 (-> & HO5).
      step_last putc_spec. intros _ s6 HO6. unfold printed. rewrite rev_app_distr. exact HO6.
    + rewrite (proj2 (Z.leb_gt 0 _)) by lia.
      eapply (wp_call _ _ _ (fun _ s' => s' = s3)); [by apply wp_ret|]. intros _ s4 ->.
      step bi_int_mod_spec; [lia|]. intros d s5 (-> & HO5). step_last putc_spec. done.
Qed.

Lemma bi_print_base_spec E s p v G X : owns E s ((p, v) :: G) X ->
  wp (fun _ => bi_print_base p base) s (fun _ s' => owns (printed (text base v) E) s' G X).
Proof.
  intros HO. unfold bi_print_base, text. step is_negative_spec. intros neg s1 (-> & HO1).
  pose proof (bit_length_upper v) as Hb. pose proof (bit_length_nonneg v) as Hb0.
  destruct (Z.ltb_spec v 0) as [Hneg|Hpos].
  - eapply (wp_call _ _ _ (fun q s' => owns (printed [45] E) s' ((q, - v) :: G) X)).
    { step putc_spec. intros _ s2 HO2. by step_last bi_negate_spec; [lia|]. }
    intros q s2 HO2. apply wp_with_fuel.
    eapply wp_mono; [eapply (print_pos_spec (Z.to_nat (bit_length v))); [|exact HO2]; rewrite Z2Nat.id; lia|].
    cbn beta. intros _ s3 HO3. unfold printed in *. cbn [rev app with_io e_world input output] in *.
    rewrite <- app_assoc. exact HO3.
  - eapply (wp_call _ _ _ (fun q s' => q = p /\ s' = s1)); [by apply wp_ret|]. intros q s2 [-> ->].
    apply wp_with_fuel.
    eapply (print_pos_spec (Z.to_nat (bit_length v))); [|exact HO1]. rewrite Z2Nat.id; lia.
Qed.

(** ** Round trips *)

Lemma digit_char_neq d c : 0 <= d < 36 -> c < 48 -> digit_to_char d <> c.
Proof. unfold digit_to_char. intros Hd Hc. destruct (_ && _) eqn:E; [lia|]. apply andb_false_iff in E. lia. Qed.

Lemma pos_text_head k v : 0 <= v -> exists d t, pos_text (S k) base v = digit_to_char d :: t /\ 0 <= d < base.
Proof.
  revert v. induction k as [|k IH]; intros v Hv; pose proof (Z.mod_pos_bound v base ltac:(lia)) as Hm.
  - cbn [pos_text]. exists (v mod base), []. destruct (base <=? v); auto.
  - cbn [pos_text] in *. destruct (Z.leb_spec base v); [|by exists (v mod base), []].
    destruct (IH (v / base)) as (d & t & E1 & Hd); [apply Z.div_pos; lia|].
    rewrite E1. by exists d, (t ++ [digit_to_char (v mod base)]).
Qed.

(** The text of [v], followed by a character that is not a digit. *)
Lemma text_numeral v tail : (forall a, str_value base a tail = a) ->
  numeral (text base v ++ tail) = v /\ no_minus_zero (text base v ++ tail) /\
  (exists c t, text base v = c :: t /\ c <> EOF) /\
  str_rest base (snd (split_sign (text base v ++ tail))) = str_rest base tail.
Proof.
  intros Ht. unfold numeral, no_minus_zero, text.
  pose proof (bit_length_upper v) as Hb. pose proof (bit_length_nonneg v) as Hb0.
  rewrite <- (Z2Nat.id (bit_length v)) in Hb by done. set (k := Z.to_nat (bit_length v)) in *.
  destruct (Z.ltb_spec v 0) as [Hneg|Hpos].
  - cbn [app split_sign Z.eqb Pos.eqb fst snd].
    destruct (pos_text_value base k Hbase (- v) tail) as [-> ->]; [lia|]. rewrite Ht.
    split; [lia|]. split; [lia|]. split; [|done]. eexists _, _. split; [done | done].
  - destruct (pos_text_head k v Hpos) as (d & t & E1 & Hd). rewrite Nat.add_1_r in *.
    assert (split_sign (pos_text (S k) base v ++ tail) = (1, pos_text (S k) base v ++ tail)) as ->.
    { rewrite E1. cbn [app split_sign]. rewrite (proj2 (Z.eqb_neq _ _)); [done|].
      apply digit_char_neq; lia. }
    cbn [fst snd]. rewrite <- Nat.add_1_r.
    destruct (pos_text_value base k Hbase v tail) as [-> ->]; [lia|]. rewrite Ht.
    split; [lia|]. split; [done|]. split; [|done]. rewrite Nat.add_1_r, E1.
    eexists _, _. split; [done|]. apply digit_char_neq; unfold EOF; lia.
Qed.
End specs.
