(* ===== verification/BigPrime.v ===== *)
(** * Primality (bigint_ext.c)

    Trial division by the table of small primes and the probabilistic tests of
    Fermat, Solovay-Strassen and Miller-Rabin, with [bi_generate_prime].  A
    prime passes the Fermat and Miller-Rabin tests whatever [random()] returns;
    below 10^10 [bi_is_probable_prime] is exact. *)

From Stdlib Require Import ZArith Lia Sorted Zdivisibility ZmodInv.
From stdpp Require Import base numbers list gmap strings.
From S2P Require Import Prelude BigComps BigCell BigHeap BigInt BigDiv BigNum BigRoot LowPrimes.

Open Scope Z_scope.

(** ** Code *)

(** The trial division loop; [None] when no prime of the table decides. *)
Fixpoint trial_division (primes : list Z) (bi : bigint) : M (option bool) :=
  match primes with
  | [] => mret None
  | p :: primes =>
      x ← int_to_bi (wrap32 p);
      y ← bi_copy bi;
      r ← bi_compare x y;
      if r =? 0 then bi_free bi;; mret (Some true)
      else if r =? 1 then bi_free bi;; mret (Some false)
      else
      m ← copied (fun x => bi_int_mod x (wrap32 p)) bi;
      if m =? 0 then bi_free bi;; mret (Some false)
      else trial_division primes bi
  end.

Definition bi_is_probable_prime_td (bi : bigint) : M bool :=
  r ← trial_division low_primes bi;
  match r with
  | Some b => mret b
  | None => bi_free bi;; mret true
  end.

(** "Pick random test number." *)
Definition random_base (bim1 : bigint) : M bigint :=
  x ← bi_copy bim1;
  x ← bi_random x;
  bi_int_add x 1.

Definition null_test (bi bim1 : bigint) : M bool :=
  a ← random_base bim1;
  bi_free a;;
  bi_free bim1;;
  bi_free bi;;
  mret true.

Definition fermat_test (bi bim1 : bigint) : M bool :=
  a ← random_base bim1;
  x ← bi_mod_power a bim1 bi;
  bi_is_one x.

Definition fermat2_test (bi bim1 : bigint) : M bool :=
  a ← constant bi_2;
  x ← bi_mod_power a bim1 bi;
  bi_is_one x.

Definition fermat3_test (bi bim1 : bigint) : M bool :=
  a ← constant bi_3;
  x ← bi_mod_power a bim1 bi;
  bi_is_one x.

Definition solovay_strassen_test (bi bim1 bim1o2 : bigint) : M bool :=
  a ← random_base bim1;
  x ← bi_copy a;
  y ← bi_copy bi;
  j ← bi_mod_power x bim1o2 y;
  x ← bi_copy j;
  r ← bi_compare x bim1;
  j ← (if r =? 0 then bi_free j;; constant bi_m1 else mret j);
  jac ← bi_jacobi a bi;
  r ← bi_compare j jac;
  mret (r =? 0).

(** The loop [for ( j = 1; j < r; ++j )] has [k] turns left. *)
Fixpoint miller_rabin_loop (k : nat) (p bi bim1 : bigint) : M (bool * bigint) :=
  match k with
  | O => mret (false, p)
  | S k =>
      x ← bi_copy bi;
      p ← bi_mod_square p x;
      r ← compare_copies p bim1;
      if r =? 0 then mret (true, p) else miller_rabin_loop k p bi bim1
  end.

Definition miller_rabin_test (bi bim1 s : bigint) (r : Z) : M bool :=
  a ← random_base bim1;
  x ← bi_copy bi;
  p ← bi_mod_power a s x;
  one ← copied bi_is_one p;
  c ← (if one : bool then mret true else c ← compare_copies p bim1; mret (c =? 0));
  '(result, p) ← (if c : bool then mret (true, p)
                  else miller_rabin_loop (Z.to_nat (r - 1)) p bi bim1);
  bi_free p;;
  bi_free bi;;
  bi_free bim1;;
  mret result.

(** [for ( i = 0; i < certainty; ++i ) if ( ! test ) ... return 0;]. *)
Fixpoint repeat_test (k : nat) (test : M bool) : M bool :=
  match k with
  | O => mret true
  | S k => ok ← test; if ok : bool then repeat_test k test else mret false
  end.

(** Remove the factors of 2 from [s], counting them in [r]. *)
Fixpoint twos_loop (n : nat) (s : bigint) (r : Z) : M (bigint * Z) :=
  match n with
  | O => fail Out_of_fuel
  | S n =>
      even ← copied bi_is_even s;
      if even : bool then s ← bi_half s; twos_loop n s (r + 1) else mret (s, r)
  end.

Definition bi_is_probable_prime_mr (bi : bigint) (certainty : Z) : M bool :=
  x ← bi_copy bi;
  bim1 ← bi_int_subtract x 1;
  s ← bi_copy bim1;
  '(s, r) ← with_fuel (fun n => twos_loop n s 0);
  ok ← repeat_test (Z.to_nat certainty)
    (x ← bi_copy bi; y ← bi_copy bim1; z ← bi_copy s; miller_rabin_test x y z r);
  bi_free bi;;
  bi_free bim1;;
  bi_free s;;
  mret ok.

(** [bi_is_probable_prime]: the trial division, then the body of the function above. *)
Definition bi_is_probable_prime (bi : bigint) (certainty : Z) : M bool :=
  r ← trial_division low_primes bi;
  match r with
  | Some b => mret b
  | None => bi_is_probable_prime_mr bi certainty
  end.

Definition bi_is_probable_prime_ss (bi : bigint) (certainty : Z) : M bool :=
  x ← bi_copy bi;
  bim1 ← bi_int_subtract x 1;
  x ← bi_copy bim1;
  bim1o2 ← bi_half x;
  ok ← repeat_test (Z.to_nat certainty)
    (x ← bi_copy bi; y ← bi_copy bim1; z ← bi_copy bim1o2; solovay_strassen_test x y z);
  bi_free bi;;
  bi_free bim1;;
  bi_free bim1o2;;
  mret ok.

(** The shape of [bi_is_probable_prime_f], [_f2], [_f3] and [_n]. *)
Definition probable_prime_by (test : bigint -> bigint -> M bool) (bi : bigint) (certainty : Z) : M bool :=
  x ← bi_copy bi;
  bim1 ← bi_int_subtract x 1;
  ok ← repeat_test (Z.to_nat certainty) (x ← bi_copy bi; y ← bi_copy bim1; test x y);
  bi_free bi;;
  bi_free bim1;;
  mret ok.

Definition bi_is_probable_prime_f : bigint -> Z -> M bool := probable_prime_by fermat_test.
Definition bi_is_probable_prime_f2 : bigint -> Z -> M bool := probable_prime_by fermat2_test.
Definition bi_is_probable_prime_f3 : bigint -> Z -> M bool := probable_prime_by fermat3_test.
Definition bi_is_probable_prime_n : bigint -> Z -> M bool := probable_prime_by null_test.

Fixpoint generate_loop (n : nat) (mo2 mo4 : bigint) (certainty : Z) : M bigint :=
  match n with
  | O => fail Out_of_fuel
  | S n =>
      x ← bi_copy mo4;
      x ← bi_random x;
      y ← bi_copy mo2;
      x ← bi_add x y;
      y ← bi_copy mo4;
      p ← bi_add x y;
      x ← bi_copy p;
      ok ← bi_is_probable_prime x certainty;
      if ok : bool then
        bi_free mo2;; bi_free mo4;; mret p
      else
        bi_free p;; generate_loop n mo2 mo4 certainty
  end.

Definition bi_generate_prime (bits certainty : Z) : M bigint :=
  two ← constant bi_2;
  x ← int_to_bi (wrap32 (bits - 2));
  mo4 ← bi_power two x;
  x ← bi_copy mo4;
  mo2 ← bi_double x;
  with_fuel (fun n => generate_loop n mo2 mo4 certainty).

(** ** The arithmetic of the tests *)

Lemma prime_divides_mul p a b : Z.prime p -> (p | a * b) -> (p | a) \/ (p | b).
Proof.
  intros Hp H. destruct (decide (a mod p = 0)) as [E|E].
  - left. apply Z.mod_divide; [pose proof (Z.prime_ge_2 _ Hp); lia | done].
  - right. apply (Z.gauss p a b H). pose proof (Z.prime_ge_2 _ Hp).
    destruct (Z.eq_dec (Z.gcd p a) 1) as [|Hne]; [done|]. exfalso.
    pose proof (Z.gcd_nonneg p a). pose proof (Z.gcd_divide_l p a) as Hl. pose proof (Z.gcd_divide_r p a) as Hr.
    assert (Z.gcd p a <> 0) by (intros E0; apply Z.gcd_eq_0_l in E0; lia).
    destruct (Z.eq_dec (Z.gcd p a) p) as [Ep|Ep].
    + rewrite Ep in Hr. apply E. apply Z.mod_divide; [lia | done].
    + assert (Z.gcd p a <= p) by (apply Z.divide_pos_le; [lia | done]). destruct Hp as [_ Hp].
      apply (Hp (Z.gcd p a)); [lia | done].
Qed.

(** Modulo a prime, 1 has only the square roots 1 and -1. *)
Lemma square_root_of_one p x : Z.prime p -> 0 <= x < p -> (x * x) mod p = 1 -> x = 1 \/ x = p - 1.
Proof.
  intros Hp Hx Hsq. pose proof (Z.prime_ge_2 _ Hp).
  assert (p | (x - 1) * (x + 1)) as Hd.
  { apply Z.mod_divide; [lia|]. replace ((x - 1) * (x + 1)) with (x * x - 1) by ring.
    rewrite Zminus_mod, Hsq, (Z.mod_small 1 p) by lia. by rewrite Z.sub_diag, Z.mod_0_l by lia. }
  apply prime_divides_mul in Hd as [[k Hk]|[k Hk]]; [| |done].
  - left. assert (k = 0) by nia. lia.
  - right. assert (k = 1) by nia. lia.
Qed.

Lemma fermat_little p a : Z.prime p -> 0 < a < p -> a ^ (p - 1) mod p = 1.
Proof. intros Hp Ha. apply Z.fermat_nz; [done|]. rewrite Z.mod_small by lia. lia. Qed.

Lemma reduced_power_mod v m l : 1 < m -> reduced_power v m l = v ^ l mod m.
Proof.
  intros Hm. unfold reduced_power. destruct (Z.eqb_spec l 0) as [->|]; [|done].
  rewrite Z.pow_0_r. symmetry. apply Z.mod_small. lia.
Qed.

Lemma pow_mod_idemp a k m : 0 < m -> 0 <= k -> ((a mod m) ^ k) mod m = a ^ k mod m.
Proof. intros Hm Hk. apply Z.mod_pow_l. Qed.

(** ** Trial division *)

Fixpoint trial (primes : list Z) (v : Z) : option bool :=
  match primes with
  | [] => None
  | p :: primes =>
      if p =? v then Some true
      else if v <? p then Some false
      else if v mod p =? 0 then Some false
      else trial primes v
  end.

Lemma trial_true l v : trial l v = Some true -> v ∈ l.
Proof.
  induction l as [|p l IH]; simpl; [done|]. destruct (Z.eqb_spec p v) as [->|]; [by left|].
  destruct (_ <? _); [done|]. destruct (_ =? _); [done|]. intros H. right. by apply IH.
Qed.

Lemma trial_none l v : (forall p, p ∈ l -> 1 < p) -> trial l v = None ->
  forall p, p ∈ l -> p < v /\ ~ (p | v).
Proof.
  intros Hl. induction l as [|q l IH]; simpl; [intros _ p H; by apply elem_of_nil in H|].
  assert (1 < q) by (apply Hl; by left).
  destruct (Z.eqb_spec q v) as [->|]; [done|]. destruct (Z.ltb_spec v q); [done|].
  destruct (Z.eqb_spec (v mod q) 0); [done|]. intros H' p [->|Hp]%elem_of_cons.
  - split; [lia|]. intros Hd. apply Z.mod_divide in Hd; [done | lia].
  - apply IH; [|done..]. intros r Hr. apply Hl. by right.
Qed.

(** A prime is never refused. *)
Lemma trial_prime l v : Z.prime v -> (forall p, p ∈ l -> 1 < p) -> StronglySorted Z.lt l ->
  (v ∈ l \/ forall p, p ∈ l -> p < v) -> trial l v <> Some false.
Proof.
  intros Hv Hl Hs. induction Hs as [|q l Hs IH Hq]; intros Hc; simpl; [done|].
  assert (1 < q) by (apply Hl; by left).
  destruct (Z.eqb_spec q v) as [->|Hne]; [done|]. rewrite Forall_forall in Hq.
  destruct (Z.ltb_spec v q).
  { destruct Hc as [[->|Hc]%elem_of_cons|Hc]; [done | | ].
    - specialize (Hq v Hc). lia.
    - specialize (Hc q ltac:(by left)). lia. }
  destruct (Z.eqb_spec (v mod q) 0) as [E0|].
  { destruct Hv as [_ Hv]. exfalso. apply (Hv q); [lia|]. apply Z.mod_divide; [lia | done]. }
  apply IH; [intros p Hp; apply Hl; by right|].
  destruct Hc as [[->|Hc]%elem_of_cons|Hc]; [done | by left | right; intros p Hp; apply Hc; by right].
Qed.

Lemma low_primes_gt_1 p : p ∈ low_primes -> 1 < p.
Proof. intros H. apply low_primes_elem in H as [H _]. pose proof (Z.prime_ge_2 _ H). lia. Qed.

Lemma trial_low_prime v : Z.prime v -> trial low_primes v <> Some false.
Proof.
  intros Hv. apply trial_prime; [done | apply low_primes_gt_1 | apply low_primes_sorted |].
  destruct (Z.lt_ge_cases v 100000) as [Hlt|Hge].
  - left. by apply low_primes_elem.
  - right. intros p Hp. apply low_primes_elem in Hp. lia.
Qed.

(** Below 10^10 the trial division is exact. *)
Lemma trial_low_exact v : 0 <= v < 10000000000 -> Z.prime v <-> trial low_primes v <> Some false.
Proof.
  intros Hv. split; [apply trial_low_prime|]. destruct (trial low_primes v) as [[|]|] eqn:Et; intros H.
  - apply trial_true, low_primes_elem in Et. apply Et.
  - done.
  - pose proof (trial_none _ _ low_primes_gt_1 Et) as Hn.
    assert (2 ∈ low_primes) as H2 by (apply low_primes_elem; split; [apply Z.prime_2 | done]).
    pose proof (proj1 (Hn 2 H2)). apply low_primes_decide; [lia|]. intros p Hp _. by apply Hn.
Qed.

(** ** Specifications *)

Lemma trial_division_spec E l : env_ok E -> forall s p v G X,
  (forall q, q ∈ l -> 1 < q < 2147483648) -> 0 <= v -> owns E s ((p, v) :: G) X ->
  wp (fun _ => trial_division l p) s (fun r s' => r = trial l v /\
    owns E s' (match r with None => (p, v) :: G | Some _ => G end) X).
Proof.
  intros HE. induction l as [|q l IH]; intros s p v G X Hl Hv HO; [by apply wp_ret|].
  cbn [trial_division trial]. assert (1 < q < 2147483648) as Hq by (apply Hl; by left).
  rewrite wrap32_id by (unfold int32; lia).
  step int_to_bi_spec; [unfold int32; lia|]. intros x s1 HO1. step bi_copy_spec. intros y s2 (-> & HO2).
  step bi_compare_spec. intros r s3 (-> & HO3).
  destruct (Z.eqb_spec (Z.sgn (q - v)) 0), (Z.eqb_spec q v); try lia.
  { step bi_free_spec. intros _ s4 HO4. by apply wp_ret. }
  destruct (Z.eqb_spec (Z.sgn (q - v)) 1), (Z.ltb_spec v q); try lia.
  { step bi_free_spec. intros _ s4 HO4. by apply wp_ret. }
  eapply wp_call.
  { apply (copied_spec E (fun x => bi_int_mod x q) (v mod q)); [|exact HO3].
    intros s' HO'. eapply bi_int_mod_spec; [lia | own]. }
  cbn beta. intros m s4 (-> & HO4). destruct (v mod q =? 0).
  - step bi_free_spec. intros _ s5 HO5. by apply wp_ret.
  - apply IH; [|done | done]. intros q' Hq'. apply Hl. by right.
Qed.

Lemma low_primes_range q : q ∈ low_primes -> 1 < q < 2147483648.
Proof. intros H. pose proof (low_primes_gt_1 q H). apply low_primes_elem in H. lia. Qed.

(** The value [trial division] alone gives: exact below 10^10. *)
Lemma bi_is_probable_prime_td_spec E s p v G X :
  env_ok E -> 0 <= v < 10000000000 -> owns E s ((p, v) :: G) X ->
  wp (fun _ => bi_is_probable_prime_td p) s (fun r s' => (r = true <-> Z.prime v) /\ owns E s' G X).
Proof.
  intros HE Hv HO. unfold bi_is_probable_prime_td.
  eapply wp_call; [apply (trial_division_spec E low_primes HE s p v G X low_primes_range ltac:(lia) HO)|].
  cbn beta. intros r s1 (Hr & HO1). pose proof (trial_low_exact v Hv) as Hx. rewrite <- Hr in Hx.
  destruct r as [b|].
  - apply wp_ret. split; [|done]. rewrite Hx. destruct b; split; congruence || done.
  - step bi_free_spec. intros _ s2 HO2. apply wp_ret. split; [by rewrite Hx | done].
Qed.

(** A random base is in [1, v - 1]. *)
Lemma random_base_spec E s p v G X : env_ok E -> random_range E -> 1 < v ->
  owns E s ((p, v - 1) :: G) X ->
  wp (fun _ => random_base p) s (fun r s' => exists E' a,
    drew E E' /\ 1 <= a < v /\ owns E' s' ((r, a) :: (p, v - 1) :: G) X).
Proof.
  intros HE Hr Hv HO. unfold random_base. step bi_copy_spec. intros x s1 (-> & HO1).
  eapply wp_call; [eapply (bi_random_spec E s1 p (v - 1)); [done | done | lia | own]|].
  cbn beta. intros y s2 (E' & a & HE' & Ha & HO2). pose proof (drew_ok _ _ HE' HE).
  step_last bi_int_add_spec; [by unfold int32|]. intros r s3 HO3.
  exists E', (a + 1). split; [done|]. split; [lia | own].
Qed.

(** A test that a prime always passes, and that always returns. *)
Definition sound_test (v : Z) (b : bool) : Prop := Z.prime v -> b = true.

Lemma fermat_by E s p v q a r G X : env_ok E -> 1 < v -> 0 < a < v ->
  owns E s ((r, a) :: (q, v - 1) :: (p, v) :: G) X ->
  wp (fun _ => x ← bi_mod_power r q p; bi_is_one x) s (fun b s' =>
    b = (a ^ (v - 1) mod v =? 1) /\ sound_test v b /\ owns E s' G X).
Proof.
  intros HE Hv Ha HO. step bi_mod_power_spec; [lia | lia |]. intros x s1 HO1.
  rewrite reduced_power_mod in HO1 by lia. step_last bi_is_one_spec. intros b s2 (-> & HO2).
  split; [done|]. split; [|done]. intros Hp. apply Z.eqb_eq. by apply fermat_little.
Qed.

Lemma fermat_test_spec E s p v q G X : env_ok E -> random_range E -> 1 < v ->
  owns E s ((p, v) :: (q, v - 1) :: G) X ->
  wp (fun _ => fermat_test p q) s (fun b s' => exists E',
    drew E E' /\ sound_test v b /\ owns E' s' G X).
Proof.
  intros HE Hr Hv HO. unfold fermat_test.
  eapply wp_call; [eapply (random_base_spec E s q v); [done | done | done | own]|].
  cbn beta. intros r s1 (E' & a & HE' & Ha & HO1).
  eapply wp_mono; [eapply (fermat_by E' s1 p v q a r); [by eapply drew_ok | done | lia | own]|].
  cbn beta. intros b s2 (_ & Hb & HO2). by exists E'.
Qed.

Lemma twos_loop_spec E k : env_ok E -> forall s p v r G X,
  Z.to_nat v = k -> 0 < v -> owns E s ((p, v) :: G) X ->
  wp (fun m => twos_loop m p r) s (fun '(p', r') s' => exists u,
    Z.odd u = true /\ 0 < u /\ r <= r' /\ v = 2 ^ (r' - r) * u /\ owns E s' ((p', u) :: G) X).
Proof.
  intros HE. induction k as [k IH] using lt_wf_ind. intros s p v r G X Hk Hv HO.
  eapply wp_unfold; [intros m; reflexivity|]. cbn [twos_loop].
  step is_even_spec. intros e s1 (-> & HO1). rewrite <- Z.negb_odd.
  destruct (Z.odd v) eqn:Ho; cbn [negb].
  - apply wp_ret. exists v. rewrite Z.sub_diag, Z.pow_0_r, Z.mul_1_l. split_and!; done || lia.
  - step bi_half_spec; [lia|]. intros p' s2 HO2. rewrite Z.quot_div_nonneg in HO2 by lia.
    assert (v = 2 * (v / 2)) as Ev by (apply Z_div_exact_full_2; [done | by rewrite Zmod_odd, Ho]).
    eapply wp_mono; [eapply (IH (Z.to_nat (v / 2)) ltac:(lia) s2 p' (v / 2) (r + 1)); [done | lia | exact HO2]|].
    cbn beta. intros [p2 r2] s3 (u & Hu & Hu0 & Hr & E2 & HO3). exists u. split_and!; try done; [lia|].
    replace (r2 - r) with (r2 - (r + 1) + 1) by lia. rewrite Z.pow_add_r, Z.pow_1_r by lia. lia.
Qed.

Lemma miller_rabin_loop_spec E k : env_ok E -> forall s q x p v m G X, 1 < v -> 0 <= x < v ->
  owns E s ((q, x) :: (p, v) :: (m, v - 1) :: G) X ->
  wp (fun _ => miller_rabin_loop k q p m) s (fun '(b, q') s' => exists x',
    (Z.prime v -> x <> 1 -> x <> v - 1 -> x ^ (2 ^ (Z.of_nat k + 1)) mod v = 1 -> b = true) /\
    owns E s' ((q', x') :: (p, v) :: (m, v - 1) :: G) X).
Proof.
  intros HE. induction k as [|k IH]; intros s q x p v m G X Hv Hx HO; cbn [miller_rabin_loop].
  - apply wp_ret. exists x. split; [|own]. intros Hp H1 H2 H. exfalso.
    change (2 ^ (Z.of_nat 0 + 1)) with 2 in H. rewrite Z.pow_2_r in H.
    by destruct (square_root_of_one v x Hp Hx H).
  - step bi_copy_spec. intros y s1 (-> & HO1). step bi_mod_square_spec; [lia|]. intros q1 s2 HO2.
    step compare_copies_spec. intros r s3 (-> & HO3).
    pose proof (Z.mod_pos_bound (x * x) v ltac:(lia)) as Hx2.
    destruct (Z.eqb_spec (Z.sgn ((x * x) mod v - (v - 1))) 0).
    { apply wp_ret. exists ((x * x) mod v). split; [done | own]. }
    eapply wp_mono; [eapply (IH s3 q1 ((x * x) mod v)); [done | done | own]|].
    cbn beta. intros [b q'] s4 (x' & Hb & HO4). exists x'. split; [|done].
    intros Hp H1 H2 H. apply Hb; [done | | lia |].
    + intros E1. by destruct (square_root_of_one v x Hp Hx E1).
    + rewrite pow_mod_idemp by (try apply Z.pow_nonneg; lia).
      replace (x * x) with (x ^ 2) by apply Z.pow_2_r.
      rewrite <- Z.pow_mul_r by (try apply Z.pow_nonneg; lia).
      replace (2 * 2 ^ (Z.of_nat k + 1)) with (2 ^ (Z.of_nat (S k) + 1)); [done|].
      rewrite <- Z.pow_succ_r by lia. f_equal. lia.
Qed.

Lemma miller_rabin_test_spec E s p v m q u r G X : env_ok E -> random_range E -> 1 < v ->
  Z.odd u = true -> 0 < u -> 0 <= r -> v - 1 = 2 ^ r * u ->
  owns E s ((p, v) :: (m, v - 1) :: (q, u) :: G) X ->
  wp (fun _ => miller_rabin_test p m q r) s (fun b s' => exists E',
    drew E E' /\ sound_test v b /\ owns E' s' G X).
Proof.
  intros HE Hrr Hv Ho Hu Hr Ev HO. unfold miller_rabin_test.
  eapply wp_call; [eapply (random_base_spec E s m v); [done | done | done | own]|].
  cbn beta. intros a s1 (E' & va & HE' & Ha & HO1). pose proof (drew_ok _ _ HE' HE) as HEok.
  step bi_copy_spec. intros x s2 (-> & HO2). step bi_mod_power_spec; [lia | lia |]. intros y s3 HO3.
  rewrite reduced_power_mod in HO3 by lia. set (x0 := va ^ u mod v) in *.
  assert (0 <= x0 < v) as Hx0 by (apply Z.mod_pos_bound; lia).
  step is_one_spec. intros o s4 (-> & HO4).
  eapply (wp_call _ _ _ (fun c s' => c = ((x0 =? 1) || (x0 =? v - 1)) /\
    owns E' s' ((y, x0) :: (p, v) :: (m, v - 1) :: G) X)).
  { destruct (x0 =? 1); [apply wp_ret; split; [done | own]|].
    step compare_copies_spec. intros c s5 (-> & HO5). apply wp_ret. split; [|own]. cbn [orb].
    destruct (Z.eqb_spec (Z.sgn (x0 - (v - 1))) 0), (Z.eqb_spec x0 (v - 1)); lia || done. }
  intros c s5 (-> & HO5).
  eapply (wp_call _ _ _ (fun '(b, y') s' => exists x', sound_test v b /\
    owns E' s' ((y', x') :: (p, v) :: (m, v - 1) :: G) X)).
  { destruct ((x0 =? 1) || (x0 =? v - 1)) eqn:Ec; [apply wp_ret; exists x0; by split|].
    apply orb_false_iff in Ec as [E1%Z.eqb_neq E2%Z.eqb_neq].
    eapply wp_mono; [eapply (miller_rabin_loop_spec E' (Z.to_nat (r - 1)) HEok s5 y x0); [done | done | own]|].
    cbn beta. intros [b y'] s6 (x' & Hb & HO6). exists x'. split; [|done]. intros Hp. apply Hb; [done..|].
    destruct (Z.eq_dec r 0) as [->|Hr0].
    { exfalso. apply E1. unfold x0. rewrite Z.pow_0_r, Z.mul_1_l in Ev. rewrite <- Ev. apply fermat_little; [done | lia]. }
    unfold x0. rewrite pow_mod_idemp by (try apply Z.pow_nonneg; lia).
    rewrite <- Z.pow_mul_r by (try apply Z.pow_nonneg; lia).
    replace (u * 2 ^ (Z.of_nat (Z.to_nat (r - 1)) + 1)) with (v - 1); [apply fermat_little; [done | lia]|].
    rewrite Ev, Z.mul_comm. do 2 f_equal. lia. }
  intros [b y'] s6 (x' & Hb & HO6). step bi_free_spec. intros _ s7 HO7.
  step bi_free_spec. intros _ s8 HO8. step bi_free_spec. intros _ s9 HO9.
  apply wp_ret. by exists E'.
Qed.

(** Repetition of a test in which the operands are copied. *)
Lemma repeat_test_spec v (test : M bool) G X k : forall E s, env_ok E -> random_range E ->
  (forall E' s', env_ok E' -> random_range E' -> owns E' s' G X ->
    wp (fun _ => test) s' (fun b s'' => exists E'', drew E' E'' /\ sound_test v b /\ owns E'' s'' G X)) ->
  owns E s G X ->
  wp (fun _ => repeat_test k test) s (fun b s' => exists E', drew E E' /\ sound_test v b /\ owns E' s' G X).
Proof.
  induction k as [|k IH]; intros E s HE Hr Ht HO; cbn [repeat_test].
  - apply wp_ret. exists E. split; [apply drew_refl | done].
  - eapply wp_call; [by apply (Ht E s)|]. cbn beta. intros b s1 (E1 & HE1 & Hb & HO1).
    destruct b; [|apply wp_ret; by exists E1].
    eapply wp_mono; [eapply (IH E1 s1); [by eapply drew_ok | by eapply drew_range | done | done]|].
    cbn beta. intros b s2 (E2 & HE2 & Hb2 & HO2). exists E2. split; [by eapply drew_trans | done].
Qed.

Lemma probable_prime_by_spec test E s p v c G X : env_ok E -> random_range E -> 1 < v ->
  (forall E' s' q, env_ok E' -> random_range E' ->
    owns E' s' ((p, v) :: (q, v - 1) :: (p, v) :: (q, v - 1) :: G) X ->
    wp (fun _ => test p q) s' (fun b s'' => exists E'', drew E' E'' /\ sound_test v b /\
      owns E'' s'' ((p, v) :: (q, v - 1) :: G) X)) ->
  owns E s ((p, v) :: G) X ->
  wp (fun _ => probable_prime_by test p c) s (fun b s' => exists E',
    drew E E' /\ sound_test v b /\ owns E' s' G X).
Proof.
  intros HE Hr Hv Ht HO. unfold probable_prime_by. step bi_copy_spec. intros x s1 (-> & HO1).
  step bi_int_subtract_spec; [by unfold int32|]. intros q s2 HO2.
  eapply wp_call.
  { eapply (repeat_test_spec v _ ((p, v) :: (q, v - 1) :: G) X (Z.to_nat c) E s2 HE Hr); [|own].
    intros E' s' HE' Hr' HO'. step bi_copy_spec. intros x s3 (-> & HO3).
    step bi_copy_spec. intros y s4 (-> & HO4). apply (Ht E' s4 q HE' Hr'). own. }
  cbn beta. intros b s3 (E' & HE' & Hb & HO3). step bi_free_spec. intros _ s4 HO4.
  step bi_free_spec. intros _ s5 HO5. apply wp_ret. by exists E'.
Qed.

(** The Fermat test with random bases. *)
Lemma bi_is_probable_prime_f_spec E s p v c G X : env_ok E -> random_range E -> 1 < v ->
  owns E s ((p, v) :: G) X ->
  wp (fun _ => bi_is_probable_prime_f p c) s (fun b s' => exists E',
    drew E E' /\ sound_test v b /\ owns E' s' G X).
Proof.
  intros HE Hr Hv. apply probable_prime_by_spec; [done..|].
  intros E' s' q HE' Hr' HO'. eapply (fermat_test_spec E' s' p v q); [done | done | done | own].
Qed.

(** The Miller-Rabin test. *)
Lemma bi_is_probable_prime_mr_spec E s p v c G X : env_ok E -> random_range E -> 1 < v ->
  owns E s ((p, v) :: G) X ->
  wp (fun _ => bi_is_probable_prime_mr p c) s (fun b s' => exists E',
    drew E E' /\ sound_test v b /\ owns E' s' G X).
Proof.
  intros HE Hr Hv HO. unfold bi_is_probable_prime_mr. step bi_copy_spec. intros x s1 (-> & HO1).
  step bi_int_subtract_spec; [by unfold int32|]. intros m s2 HO2.
  step bi_copy_spec. intros y s3 (-> & HO3).
  eapply wp_call; [apply wp_with_fuel; eapply (twos_loop_spec E _ HE s3 m (v - 1) 0); [done | lia | own]|].
  cbn beta. intros [q r] s4 (u & Ho & Hu & Hr0 & Ev & HO4). rewrite Z.sub_0_r in Ev.
  eapply wp_call.
  { eapply (repeat_test_spec v _ ((p, v) :: (m, v - 1) :: (q, u) :: G) X (Z.to_nat c) E s4 HE Hr); [|own].
    intros E' s' HE' Hr' HO'. step bi_copy_spec. intros x s5 (-> & HO5).
    step bi_copy_spec. intros z s6 (-> & HO6). step bi_copy_spec. intros w s7 (-> & HO7).
    eapply (miller_rabin_test_spec E' s7 p v m q u r); try done. own. }
  cbn beta. intros b s5 (E' & HE' & Hb & HO5). step bi_free_spec. intros _ s6 HO6.
  step bi_free_spec. intros _ s7 HO7. step bi_free_spec. intros _ s8 HO8. apply wp_ret. by exists E'.
Qed.

(** The combined test: it returns for every non-negative number, accepts every
    prime, and is exact below 10^10. *)
Lemma bi_is_probable_prime_spec E s p v c G X : env_ok E -> random_range E -> 0 <= v ->
  owns E s ((p, v) :: G) X ->
  wp (fun _ => bi_is_probable_prime p c) s (fun b s' => exists E',
    drew E E' /\ sound_test v b /\ (v < 10000000000 -> (b = true <-> Z.prime v)) /\ owns E' s' G X).
Proof.
  intros HE Hr Hv HO. unfold bi_is_probable_prime.
  eapply wp_call; [apply (trial_division_spec E low_primes HE s p v G X low_primes_range Hv HO)|].
  cbn beta. intros r s1 (Ht & HO1).
  pose proof (trial_low_prime v) as Hp. pose proof (fun H => trial_low_exact v (conj Hv H)) as Hx.
  rewrite <- Ht in *. destruct r as [b|].
  - apply wp_ret. exists E. split; [apply drew_refl|]. split; [|split; [|done]].
    + intros H. specialize (Hp H). by destruct b.
    + intros H. rewrite (Hx H). destruct b; split; congruence || done.
  - symmetry in Ht. pose proof (trial_none _ _ low_primes_gt_1 Ht) as Hn.
    assert (2 ∈ low_primes) as H2 by (apply low_primes_elem; split; [apply Z.prime_2 | done]).
    pose proof (proj1 (Hn 2 H2)).
    eapply wp_mono; [eapply (bi_is_probable_prime_mr_spec E s1 p v c); [done | done | lia | exact HO1]|].
    cbn beta. intros b s2 (E' & HE' & Hb & HO2). exists E'. split; [done|]. split; [done|].
    split; [|done]. intros Hlt. split; [intros _; by apply Hx|]. apply Hb.
Qed.
