(* ===== verification/BigFactor.v ===== *)
(** * Integer factorization (bi_factor.c)

    [print_fact], [test_fact] and [factor].  The line that [factor] writes is
    the factorization of its argument into powers of distinct primes. *)

From Stdlib Require Import ZArith Lia Sorted Zdivisibility.
From stdpp Require Import base numbers list gmap strings sorting.
From S2P Require Import Prelude BigComps BigCell BigHeap BigInt BigDiv BigNum BigText LowPrimes.

Open Scope Z_scope.

(** ** Code *)

(** [printf] of fixed text. *)
Fixpoint puts (t : list Z) : M unit :=
  match t with
  | [] => mret tt
  | c :: t => putc c;; puts t
  end.

Definition print_fact (fact : bigint) (power : Z) : M unit :=
  putc 32;;
  bi_print fact;;
  if negb (power =? 1) then puts (94 :: text 10 power) else mret tt.

(** The [for (;;)] of [test_fact]: the number, the last quotient and the power. *)
Fixpoint divide_out (n : nat) (num : bigint) (fact power : Z) : M (bigint * bigint * Z) :=
  match n with
  | O => fail Out_of_fuel
  | S n =>
      x ← bi_copy num;
      t ← bi_int_divide x fact;
      x ← bi_copy t;
      x ← bi_int_multiply x fact;
      y ← bi_copy num;
      r ← bi_compare x y;
      if negb (r =? 0) then mret (num, t, power) else
      bi_free num;;
      divide_out n t fact (power + 1)
  end.

Definition test_fact (num : bigint) (fact : Z) : M (bigint * bool) :=
  '(num, t, power) ← with_fuel (fun n => divide_out n num fact 0);
  (if negb (power =? 0) then x ← int_to_bi fact; print_fact x power else mret tt);;
  x ← int_to_bi fact;
  r ← bi_compare t x;
  mret (num, 0 <? r).

(** The loop over the table; the flag tells whether it ran to its end. *)
Fixpoint table_loop (primes : list Z) (num : bigint) : M (bigint * bool) :=
  match primes with
  | [] => mret (num, true)
  | p :: primes =>
      '(num, more) ← test_fact num (wrap32 p);
      if more : bool then table_loop primes num else mret (num, false)
  end.

(** The candidates beyond the table: those of the form 6k-1 and 6k+1. *)
Fixpoint wheel_loop (n : nat) (num : bigint) (fact : Z) : M bigint :=
  match n with
  | O => fail Out_of_fuel
  | S n =>
      '(num, more) ← test_fact num fact;
      if negb more then mret num else
      let fact := wrap32 (fact + 2) in
      '(num, more) ← test_fact num fact;
      if negb more then mret num else
      wheel_loop n num (wrap32 (fact + 4))
  end.

Definition factor (num : bigint) : M unit :=
  x ← bi_copy num;
  bi_print x;;
  puts [32; 61];;
  zero ← copied bi_is_zero num;
  trivial ← (if zero : bool then mret true else copied bi_is_one num);
  (if trivial : bool then print_fact num 1
   else
     '(num, more) ← table_loop low_primes num;
     num ← (if more : bool
            then with_fuel (fun n => wheel_loop n num (wrap32 (Z.quot (List.last low_primes 0 + 5) 6 * 6 - 1)))
            else mret num);
     r ← compare_const num bi_1;
     (if negb (r =? 0) then x ← bi_copy num; print_fact x 1 else mret tt);;
     bi_free num);;
  putc 10.

(** ** Factorizations *)

Definition product (fs : list (Z * Z)) : Z := fold_right (fun '(p, k) m => p ^ k * m) 1 fs.

Definition factor_text (f : Z * Z) : list Z :=
  let '(p, k) := f in
  32 :: text 10 p ++ (if negb (k =? 1) then 94 :: text 10 k else []).
Definition factors_text (fs : list (Z * Z)) : list Z := flat_map factor_text fs.

(** Powers of increasing primes. *)
Definition prime_powers (fs : list (Z * Z)) : Prop :=
  StronglySorted Z.lt (map fst fs) /\ Forall (fun '(p, k) => Z.prime p /\ 1 <= k) fs.

(** No divisor up to [b]. *)
Definition rough (b m : Z) : Prop := forall d, 1 < d <= b -> ~ (d | m).

Lemma rough_divisor b m e : rough b m -> (e | m) -> rough b e.
Proof. intros H He d Hd Hde. apply (H d Hd). by eapply Z.divide_trans. Qed.

Lemma rough_le b b' m : b' <= b -> rough b m -> rough b' m.
Proof. intros Hb H d Hd. apply H. lia. Qed.

(** The first divisor of a rough number is prime. *)
Lemma rough_prime p m : 1 < p -> rough (p - 1) m -> (p | m) -> Z.prime p.
Proof.
  intros Hp H Hd. split; [done|]. intros n Hn Hnp. apply (H n); [lia|]. by eapply Z.divide_trans.
Qed.

(** A rough number that is too small for two factors. *)
Lemma rough_small p m : 1 < p -> rough p m -> 1 < m < (p + 1) * (p + 1) -> Z.prime m.
Proof.
  intros Hp H Hm. split; [lia|]. intros n Hn [e He].
  destruct (Z.le_gt_cases n p) as [Hle|Hgt]; [apply (H n); [lia | by exists e]|].
  apply (H e); [|exists n; lia]. nia.
Qed.

(** Between two candidates every number has a smaller divisor. *)
Lemma rough_extend b c m : rough b m ->
  (forall d, b < d <= c -> exists e, 1 < e <= b /\ (e | d)) -> rough c m.
Proof.
  intros H Hc d Hd Hdm. destruct (Z.le_gt_cases d b) as [|Hgt]; [by apply (H d); [lia|]|].
  destruct (Hc d ltac:(lia)) as (e & He & Hed). apply (H e He). by eapply Z.divide_trans.
Qed.

Lemma divisor_or_not d k : 0 <= k ->
  (exists n, 1 < n < k /\ (n | d)) \/ (forall n, 1 < n < k -> ~ (n | d)).
Proof.
  revert k. apply natlike_ind; [right; lia|]. intros k Hk [(n & Hn & Hd)|H].
  - left. exists n. split; [lia | done].
  - destruct (decide (1 < k /\ d mod k = 0)) as [[Hk1 Hm]|Hno].
    + left. exists k. split; [lia|]. apply Z.mod_divide; [lia | done].
    + right. intros n Hn Hd. destruct (Z.eq_dec n k) as [->|]; [|apply (H n); [lia | done]].
      apply Hno. split; [lia|]. apply Z.mod_divide; [lia | done].
Qed.

Lemma prime_divisor d : 1 < d -> exists q, Z.prime q /\ (q | d).
Proof.
  intros Hd. assert (0 <= d) as H0 by lia. revert Hd. pattern d.
  apply Z_lt_induction; [|done]. clear d H0. intros d IH Hd.
  destruct (divisor_or_not d d ltac:(lia)) as [(n & Hn & Hdv)|H].
  - destruct (IH n ltac:(lia) ltac:(lia)) as (q & Hq & Hqn). exists q. split; [done|].
    by eapply Z.divide_trans.
  - exists d. split; [by split | done].
Qed.

(** One candidate: the power of [p] in [m]. *)
Record divided (p m m' k : Z) : Prop := Divided {
  dv_pos : 0 < m';
  dv_power : 0 <= k;
  dv_eq : m = p ^ k * m';
  dv_not : ~ (p | m')
}.

Lemma divided_rough p m m' k : 1 < p -> rough (p - 1) m -> divided p m m' k ->
  rough p m' /\ (k <> 0 -> Z.prime p).
Proof.
  intros Hp H [Hm' Hk E Hn]. split.
  - intros d Hd Hdm. destruct (Z.eq_dec d p) as [->|]; [done|].
    apply (H d); [lia|]. rewrite E. by apply Z.divide_mul_r.
  - intros Hk0. apply (rough_prime p m); [done | done|]. rewrite E.
    apply Z.divide_mul_l. exists (p ^ (k - 1)). rewrite Z.mul_comm, <- Z.pow_succ_r by lia. f_equal. lia.
Qed.

(** ** Specifications *)

Lemma printed_app t u E : printed u (printed t E) = printed (t ++ u) E.
Proof. unfold printed, with_io. cbn. by rewrite rev_app_distr, app_assoc. Qed.

Lemma printed_nil E : printed [] E = E.
Proof. unfold printed. cbn [rev app]. apply with_io_id. Qed.

Lemma printed_ok t E : env_ok E -> env_ok (printed t E).
Proof. apply with_io_ok. Qed.

Lemma puts_spec t : forall E s G X, owns E s G X ->
  wp (fun _ => puts t) s (fun _ s' => owns (printed t E) s' G X).
Proof.
  induction t as [|c t IH]; intros E s G X HO; cbn [puts].
  - apply wp_ret. by rewrite printed_nil.
  - step putc_spec. intros _ s1 HO1. eapply wp_mono; [by eapply IH, HO1|]. cbn beta. intros _ s2 HO2.
    unfold printed in *. cbn [rev with_io e_world input output] in *. rewrite <- app_assoc. exact HO2.
Qed.

Lemma bi_print_spec E s p v G X : owns E s ((p, v) :: G) X ->
  wp (fun _ => bi_print p) s (fun _ s' => owns (printed (text 10 v) E) s' G X).
Proof. apply bi_print_base_spec. lia. Qed.

Lemma print_fact_spec E s p v k G X : owns E s ((p, v) :: G) X ->
  wp (fun _ => print_fact p k) s (fun _ s' => owns (printed (factor_text (v, k)) E) s' G X).
Proof.
  intros HO. unfold print_fact, factor_text. eapply wp_call; [apply (puts_spec [32] E), HO|].
  cbn beta. intros _ s1 HO1. step bi_print_spec. intros _ s2 HO2.
  rewrite printed_app in HO2. destruct (negb (k =? 1)).
  - step_last puts_spec. intros _ s3 HO3. rewrite printed_app in HO3.
    change (32 :: text 10 v ++ 94 :: text 10 k) with ([32] ++ text 10 v ++ 94 :: text 10 k).
    by rewrite app_assoc.
  - apply wp_ret. by rewrite app_nil_r.
Qed.

Lemma divide_out_spec f j : 1 < f < 2147483648 -> forall E s p m w G X, Z.to_nat m = j -> 0 < m ->
  owns E s ((p, m) :: G) X ->
  wp (fun n => divide_out n p f w) s (fun '(p', t, w') s' => exists m' k,
    divided f m m' k /\ w' = w + k /\ owns E s' ((p', m') :: (t, m' / f) :: G) X).
Proof.
  intros Hf. induction j as [j IH] using lt_wf_ind. intros E s p m w G X Hj Hm HO.
  eapply wp_unfold; [intros n; reflexivity|]. cbn [divide_out].
  step bi_copy_spec. intros x s1 (-> & HO1).
  step bi_int_divide_spec; [unfold int32; lia | lia | lia |]. intros t s2 HO2.
  rewrite Z.quot_div_nonneg in HO2 by lia.
  step bi_copy_spec. intros y s3 (-> & HO3). step bi_int_multiply_spec; [unfold int32; lia | lia |].
  intros z s4 HO4. step bi_copy_spec. intros y s5 (-> & HO5). step bi_compare_spec. intros r s6 (-> & HO6).
  destruct (Z.eqb_spec (Z.sgn (m / f * f - m)) 0) as [E0|E0]; cbn [negb].
  - step bi_free_spec. intros _ s7 HO7. assert (m = f * (m / f)) as Em by lia.
    set (q := m / f) in *. assert (0 < q < m) as Hq by nia. clearbody q.
    eapply wp_mono; [eapply (IH (Z.to_nat q) ltac:(lia) E s7 t q (w + 1)); [done | lia | own]|].
    cbn beta. intros [[p' t'] w'] s8 (m' & k & [H1 H2 H3 H4] & -> & HO8).
    exists m', (k + 1). split; [split; [done | lia | | done]|]; [|split; [lia | done]].
    rewrite Z.pow_add_r, Z.pow_1_r, Em, H3 by lia. ring.
  - apply wp_ret. exists m, 0. split; [|split; [lia | own]]. split; [done | lia | by rewrite Z.mul_1_l |].
    intros Hd. apply E0. apply Z.mod_divide in Hd; [|lia]. pose proof (Z.div_mod m f ltac:(lia)). lia.
Qed.

(** The outcome of one candidate. *)
Definition one_factor (f : Z) (fs : list (Z * Z)) : Prop :=
  fs = [] \/ exists k, fs = [(f, k)] /\ Z.prime f /\ 1 <= k.

Lemma test_fact_spec E s p m f G X : env_ok E ->
  1 < f < 2147483648 -> 0 < m -> rough (f - 1) m -> owns E s ((p, m) :: G) X ->
  wp (fun _ => test_fact p f) s (fun '(p', more) s' => exists m' fs,
    0 < m' <= m /\ m = product fs * m' /\ one_factor f fs /\ rough f m' /\
    (if more : bool then f * f < m' else m' = 1 \/ Z.prime m' /\ f < m') /\
    owns (printed (factors_text fs) E) s' ((p', m') :: G) X).
Proof.
  intros HE Hf Hm Hr HO. unfold test_fact.
  eapply wp_call; [apply wp_with_fuel; eapply (divide_out_spec f _ Hf E s p m 0); [done | done | own]|].
  cbn beta. intros [[p' t] w] s1 (m' & k & Hd & -> & HO1). rewrite Z.add_0_l.
  destruct (divided_rough f m m' k ltac:(lia) Hr Hd) as [Hr' Hp]. destruct Hd as [Hm' Hk Em Hn].
  set (fs := if k =? 0 then [] else [(f, k)]).
  assert (m = product fs * m' /\ one_factor f fs) as (Hprod & Hone).
  { unfold fs, one_factor. destruct (Z.eqb_spec k 0) as [->|Hk0]; simpl.
    - split; [by rewrite Em | by left].
    - split; [rewrite Em; ring|]. right. exists k. split; [done|]. split; [by apply Hp | lia]. }
  assert (m' <= m) as Hle by (pose proof (Z.pow_pos_nonneg f k ltac:(lia) Hk); nia).
  eapply (wp_call _ _ _ (fun _ s' => owns (printed (factors_text fs) E) s' ((p', m') :: (t, m' / f) :: G) X)).
  { unfold fs. destruct (Z.eqb_spec k 0) as [->|Hk0]; cbn [negb].
    - apply wp_ret. cbn [factors_text flat_map]. by rewrite printed_nil.
    - step int_to_bi_spec; [unfold int32; lia|]. intros x s2 HO2. step_last print_fact_spec.
      intros _ s3 HO3. cbn [factors_text flat_map]. rewrite app_nil_r. exact HO3. }
  intros _ s2 HO2. step int_to_bi_spec; [unfold int32; lia|]. intros x s3 HO3.
  step bi_compare_spec. intros r s4 (-> & HO4). apply wp_ret. exists m', fs.
  split; [lia|]. split; [done|]. split; [done|]. split; [done|]. split; [|done].
  pose proof (Z.div_mod m' f ltac:(lia)). pose proof (Z.mod_pos_bound m' f ltac:(lia)).
  destruct (Z.ltb_spec 0 (Z.sgn (m' / f - f))); [nia|].
  destruct (Z.eq_dec m' 1); [by left|]. right. split.
  - apply (rough_small f); [lia | done | nia].
  - destruct (Z.le_gt_cases m' f); [|lia]. exfalso. apply (Hr' m'); [lia | done].
Qed.

Lemma one_factor_powers f fs rest b : one_factor f fs -> prime_powers rest -> f < b ->
  (forall q, q ∈ map fst rest -> b <= q) ->
  prime_powers (fs ++ rest) /\ (forall q, q ∈ map fst (fs ++ rest) -> q = f \/ b <= q).
Proof.
  intros Hf Hr Hb Hq. destruct Hf as [->|(k & -> & Hp & Hk)]; simpl; [by auto|].
  destruct Hr as [Hs Ha]. split.
  - split; cbn [map fst app].
    + constructor; [done|]. apply Forall_forall. intros q Hin. specialize (Hq q Hin). lia.
    + by constructor.
  - intros q [->|Hin]%elem_of_cons; [by left | right; by apply Hq].
Qed.

Lemma product_app fs gs : product (fs ++ gs) = product fs * product gs.
Proof. induction fs as [|[p k] fs IH]; simpl; [lia|]. rewrite IH. ring. Qed.

(** The end of a factorization: what is left is 1 or a prime above all factors. *)
Definition finished (fs : list (Z * Z)) (m : Z) : Prop :=
  m = 1 \/ Z.prime m /\ forall q, q ∈ map fst fs -> q < m.

Lemma table_loop_spec l2 : forall l1 E s p m G X, env_ok E -> low_primes = l1 ++ l2 ->
  0 < m -> (forall q, q ∈ l1 -> ~ (q | m)) -> owns E s ((p, m) :: G) X ->
  wp (fun _ => table_loop l2 p) s (fun '(p', more) s' => exists m' fs,
    0 < m' <= m /\ m = product fs * m' /\ prime_powers fs /\
    (forall q, q ∈ map fst fs -> q ∈ l2) /\
    (if more : bool then forall q, q ∈ low_primes -> ~ (q | m') else finished fs m') /\
    owns (printed (factors_text fs) E) s' ((p', m') :: G) X).
Proof.
  induction l2 as [|f l2 IH]; intros l1 E s p m G X HE Hl Hm Hn HO; cbn [table_loop].
  - apply wp_ret. exists m, []. rewrite app_nil_r in Hl. subst l1.
    split; [lia|]. split; [simpl; lia|]. split; [split; constructor|].
    split; [by intros q ?%elem_of_nil|]. split; [done|]. by rewrite printed_nil.
  - assert (f ∈ low_primes) as Hf by (rewrite Hl; apply elem_of_app; right; by left).
    apply low_primes_elem in Hf as [Hfp Hf]. pose proof (Z.prime_ge_2 _ Hfp) as Hf2.
    assert (forall q, q ∈ l1 -> q < f) as Hl1.
    { intros q Hq. pose proof low_primes_sorted as Hs. rewrite Hl in Hs.
      apply StronglySorted_app_1_elem_of with (x1 := q) (x2 := f) in Hs; [done | done | by left]. }
    assert (forall q, q ∈ l2 -> f < q) as Hl2.
    { intros q Hq. pose proof low_primes_sorted as Hs. rewrite Hl in Hs.
      apply StronglySorted_app_1_r in Hs. inversion Hs as [|? ? ? Hall]; subst.
      rewrite Forall_forall in Hall. by apply Hall. }
    assert (rough (f - 1) m) as Hr.
    { intros d Hd Hdm. destruct (prime_divisor d ltac:(lia)) as (q & Hq & Hqd).
      pose proof (Z.divide_pos_le q d ltac:(lia) Hqd).
      assert (q ∈ low_primes) as Hql by (apply low_primes_elem; split; [done | lia]).
      rewrite Hl in Hql. apply elem_of_app in Hql as [Hql|Hql].
      - apply (Hn q Hql). by eapply Z.divide_trans.
      - apply elem_of_cons in Hql as [->|Hql]; [lia|]. specialize (Hl2 q Hql). lia. }
    rewrite wrap32_id by (unfold int32; lia).
    eapply wp_call; [eapply (test_fact_spec E s p m f); [done | lia | done | done | own]|].
    cbn beta. intros [p1 more] s1 (m1 & fs & Hm1 & Em & Hone & Hr1 & Hmore & HO1). destruct more.
    + eapply wp_mono.
      { eapply (IH (l1 ++ [f]) (printed (factors_text fs) E) s1 p1 m1); [by apply printed_ok | | lia | | exact HO1].
        - rewrite <- app_assoc. done.
        - intros q [Hq|Hq]%elem_of_app Hqm.
          + apply (Hn q Hq). rewrite Em. by apply Z.divide_mul_r.
          + apply list_elem_of_singleton in Hq as ->. apply (Hr1 f); [lia | done]. }
      cbn beta. intros [p2 more] s2 (m2 & gs & Hm2 & Em2 & Hpp & Hin & Hend & HO2).
      exists m2, (fs ++ gs).
      destruct (one_factor_powers f fs gs (f + 1) Hone Hpp ltac:(lia)) as [Hpp' Hin'].
      { intros q Hq. specialize (Hl2 q (Hin q Hq)). lia. }
      split; [lia|]. split; [rewrite product_app, Em, Em2; ring|]. split; [done|]. split.
      { intros q. rewrite map_app, elem_of_app. intros [Hq|Hq]; [|right; by apply Hin].
        destruct Hone as [->|(k & -> & _)]; [by apply elem_of_nil in Hq|].
        apply list_elem_of_singleton in Hq as ->. by left. }
      split.
      { destruct more; [done|]. destruct Hend as [|[Hp2 Hlt]]; [by left|]. right. split; [done|].
        intros q. rewrite map_app, elem_of_app. intros [Hq|Hq]; [|by apply Hlt].
        destruct Hone as [->|(k & -> & _)]; [by apply elem_of_nil in Hq|].
        apply list_elem_of_singleton in Hq as ->. cbn [fst].
        destruct (Z.le_gt_cases m2 f); [|lia]. exfalso. pose proof (Z.prime_ge_2 _ Hp2).
        apply (Hr1 m2); [lia|]. rewrite Em2. apply Z.divide_mul_r, Z.divide_refl. }
      rewrite printed_app in HO2. unfold factors_text in *. by rewrite flat_map_app.
    + apply wp_ret. exists m1, fs. split; [done|]. split; [done|].
      assert (prime_powers []) as H0 by (split; constructor).
      destruct (one_factor_powers f fs [] (f + 1) Hone H0 ltac:(lia)) as [Hpp Hin].
      { by intros q ?%elem_of_nil. }
      rewrite app_nil_r in Hpp, Hin. split; [done|].
      assert (forall q, q ∈ map fst fs -> q = f) as Hfs.
      { intros q Hq. destruct Hone as [->|(k & -> & _)]; [by apply elem_of_nil in Hq|].
        by apply list_elem_of_singleton in Hq. }
      split; [intros q Hq; rewrite (Hfs q Hq); by left|]. split; [|done].
      destruct Hmore as [|[Hp1 Hlt]]; [by left|]. right. split; [done|]. intros q Hq. by rewrite (Hfs q Hq).
Qed.

Lemma finished_app f fs gs m m' : one_factor f fs -> 1 < f -> rough f m -> (m' | m) -> 0 < m' ->
  finished gs m' -> finished (fs ++ gs) m'.
Proof.
  intros Hone Hf Hr Hd Hm' [|[Hp Hlt]]; [by left|]. right. split; [done|].
  intros q. rewrite map_app, elem_of_app. intros [Hq|Hq]; [|by apply Hlt].
  destruct Hone as [->|(k & -> & _)]; [by apply elem_of_nil in Hq|].
  apply list_elem_of_singleton in Hq as ->. cbn [fst].
  destruct (Z.le_gt_cases m' f); [|lia]. exfalso. pose proof (Z.prime_ge_2 _ Hp).
  apply (Hr m'); [lia | done].
Qed.

Lemma finished_alone f fs m : one_factor f fs -> (m = 1 \/ Z.prime m /\ f < m) -> finished fs m.
Proof.
  intros Hone [|[Hp Hlt]]; [by left|]. right. split; [done|]. intros q Hq.
  destruct Hone as [->|(k & -> & _)]; [by apply elem_of_nil in Hq|].
  by apply list_elem_of_singleton in Hq as ->.
Qed.

Lemma mod6_divisor r d : d mod 6 = r -> (r = 0 \/ r = 2 \/ r = 4 -> (2 | d)) /\ (r = 3 -> (3 | d)).
Proof.
  intros Hr. pose proof (Z.div_mod d 6 ltac:(lia)) as E. split.
  - intros H. exists (3 * (d / 6) + r / 2). assert (r = 2 * (r / 2)) by (destruct H as [->|[->| ->]]; done). lia.
  - intros ->. exists (2 * (d / 6) + 1). lia.
Qed.

(** The candidates of the wheel leave out only multiples of 2 and 3. *)
Lemma wheel_rough f m : f mod 6 = 5 -> 3 < f -> rough f m -> rough (f + 1) m.
Proof.
  intros H5 Hf Hr. apply (rough_extend f); [done|]. intros d Hd. exists 2. split; [lia|].
  assert (d = f + 1) as -> by lia. apply (mod6_divisor 0); [|by left].
  by rewrite Zplus_mod, H5.
Qed.

Lemma wheel_rough4 f m : f mod 6 = 1 -> 3 < f -> rough f m -> rough (f + 3) m.
Proof.
  intros H1 Hf Hr. apply (rough_extend f); [done|]. intros d Hd.
  assert (d = f + 1 \/ d = f + 2 \/ d = f + 3) as [->|[->| ->]] by lia.
  - exists 2. split; [lia|]. apply (mod6_divisor 2); [|by auto]. by rewrite Zplus_mod, H1.
  - exists 3. split; [lia|]. apply (mod6_divisor 3); [|done]. by rewrite Zplus_mod, H1.
  - exists 2. split; [lia|]. apply (mod6_divisor 4); [|by auto]. by rewrite Zplus_mod, H1.
Qed.

(** Numbers whose factors the [int] candidates reach. *)
Definition factor_bound : Z := 4600000000000000000.

Lemma bound_sqrt f m : 0 < f -> f * f < m -> m < factor_bound -> f < 2144761060.
Proof. unfold factor_bound. nia. Qed.

Lemma wheel_loop_spec j : forall E s p m f G X, env_ok E ->
  Z.to_nat (2147483648 - f) = j -> f mod 6 = 5 -> 3 < f < 2147483640 ->
  0 < m < factor_bound -> rough (f - 1) m -> owns E s ((p, m) :: G) X ->
  wp (fun n => wheel_loop n p f) s (fun p' s' => exists m' fs,
    0 < m' /\ m = product fs * m' /\ prime_powers fs /\
    (forall q, q ∈ map fst fs -> f <= q) /\ finished fs m' /\
    owns (printed (factors_text fs) E) s' ((p', m') :: G) X).
Proof.
  assert (prime_powers []) as H0 by (split; constructor).
  assert (forall b q, q ∈ map fst ([] : list (Z * Z)) -> b <= q) as H00 by (by intros b q ?%elem_of_nil).
  induction j as [j IH] using lt_wf_ind. intros E s p m f G X HE Hj H5 Hf Hm Hr HO.
  eapply wp_unfold; [intros n; reflexivity|]. cbn [wheel_loop].
  eapply wp_call; [eapply (test_fact_spec E s p m f); [done | lia | lia | done | own]|]. cbn beta.
  intros [p1 more] s1 (m1 & f1 & Hm1 & E1 & Hone1 & Hr1 & Hmore1 & HO1).
  destruct more; cbn [negb].
  2: { apply wp_ret. exists m1, f1. destruct (one_factor_powers f f1 [] (f + 1) Hone1 H0 ltac:(lia) (H00 _)) as [Hp Hq].
       rewrite app_nil_r in Hp, Hq. split_and!; try done; [lia | | by eapply finished_alone].
       intros q Hin. specialize (Hq q Hin). lia. }
  pose proof (bound_sqrt f m1 ltac:(lia) Hmore1 ltac:(lia)) as Hb1. cbn zeta.
  rewrite (wrap32_id (f + 2)) by (unfold int32; lia).
    eapply wp_call.
  { eapply (test_fact_spec (printed (factors_text f1) E) s1 p1 m1 (f + 2)); [by apply printed_ok | lia | lia | | own].
    replace (f + 2 - 1) with (f + 1) by lia. apply wheel_rough; [done | lia | done]. }
  cbn beta. intros [p2 more] s2 (m2 & f2 & Hm2 & E2 & Hone2 & Hr2 & Hmore2 & HO2).
  rewrite printed_app in HO2.
  assert (factors_text f1 ++ factors_text f2 = factors_text (f1 ++ f2)) as Ef
    by (unfold factors_text; by rewrite flat_map_app).
  rewrite Ef in HO2.
  assert ((m2 | m1)) as Hd21 by (exists (product f2); done).
  destruct more; cbn [negb].
  2: { apply wp_ret. exists m2, (f1 ++ f2).
       destruct (one_factor_powers (f + 2) f2 [] (f + 3) Hone2 H0 ltac:(lia) (H00 _)) as [Hp Hq].
       rewrite app_nil_r in Hp, Hq.
       destruct (one_factor_powers f f1 f2 (f + 1) Hone1 Hp ltac:(lia)) as [Hp' Hq'].
       { intros q Hin. specialize (Hq q Hin). lia. }
       split_and!; try done; [lia | rewrite product_app, E1, E2; ring | |].
       - intros q Hin. specialize (Hq' q Hin). lia.
       - apply (finished_app f f1 f2 m1 m2); [done | lia | done | done | lia |]. by eapply finished_alone. }
  pose proof (bound_sqrt (f + 2) m2 ltac:(lia) Hmore2 ltac:(lia)) as Hb3.
  replace (f + 2 + 4) with (f + 6) by lia.
  assert ((f + 6) mod 6 = 5) as H5' by (rewrite Zplus_mod, H5; done).
  rewrite (wrap32_id (f + 6)) by (unfold int32; lia).
  eapply wp_mono.
  { eapply (IH (Z.to_nat (2147483648 - (f + 6))) ltac:(lia) (printed (factors_text (f1 ++ f2)) E) s2 p2 m2);
      [by apply printed_ok | done | done | lia | lia | | exact HO2].
    replace (f + 6 - 1) with (f + 2 + 3) by lia. apply wheel_rough4; [rewrite Zplus_mod, H5; done | lia | done]. }
  cbn beta. intros p3 s3 (m3 & fs & Hm3 & E3 & Hpp & Hq & Hfin & HO3).
  exists m3, (f1 ++ f2 ++ fs).
  destruct (one_factor_powers (f + 2) f2 fs (f + 6) Hone2 Hpp ltac:(lia) Hq) as [Hp2 Hq2].
  destruct (one_factor_powers f f1 (f2 ++ fs) (f + 1) Hone1 Hp2 ltac:(lia)) as [Hp1 Hq1].
  { intros q Hin. specialize (Hq2 q Hin). lia. }
  assert ((m3 | m2)) as Hd32 by (exists (product fs); done).
  split_and!; try done; [rewrite !product_app, E1, E2, E3; ring | | |].
  - intros q Hin. specialize (Hq1 q Hin). lia.
  - apply (finished_app f f1 _ m1 m3); [done | lia | done | by eapply Z.divide_trans | done |].
    by apply (finished_app (f + 2) f2 _ m2 m3); [done | lia | done..].
  - rewrite printed_app in HO3. rewrite app_assoc. unfold factors_text in *. by rewrite flat_map_app.
Qed.

Lemma low_primes_last : List.last low_primes 0 = 99991.
Proof. vm_cast_no_check (eq_refl 99991). Qed.

Lemma low_primes_max q : q ∈ low_primes -> q <= 99991.
Proof.
  assert (forallb (fun q => q <=? 99991) low_primes = true) as H by (vm_cast_no_check (eq_refl true)).
  rewrite forallb_forall in H. intros Hq%list_elem_of_In. by apply Z.leb_le, H.
Qed.

Lemma prime_powers_app fs gs : prime_powers fs -> prime_powers gs ->
  (forall p q, p ∈ map fst fs -> q ∈ map fst gs -> p < q) -> prime_powers (fs ++ gs).
Proof.
  intros [Hs Ha] [Hs' Ha'] Hlt. split; [rewrite map_app; by apply StronglySorted_app_2|].
  by apply Forall_app.
Qed.

(** The factors of [m], the last of them perhaps [m'] itself. *)
Lemma finish_factors fs m m' : m = product fs * m' -> prime_powers fs -> finished fs m' ->
  exists gs, prime_powers gs /\ product gs = m /\
    factors_text gs = factors_text fs ++ (if negb (m' =? 1) then factor_text (m', 1) else []).
Proof.
  intros Em Hp [->|[Hm' Hlt]].
  - exists fs. cbn [Z.eqb Pos.eqb negb]. rewrite app_nil_r. split; [done|]. split; [lia | done].
  - pose proof (Z.prime_ge_2 _ Hm'). exists (fs ++ [(m', 1)]).
    rewrite (proj2 (Z.eqb_neq _ _)) by lia. cbn [negb]. split; [|split].
    + apply prime_powers_app; [done | |].
      * split; cbn [map fst]; [by repeat constructor|]. constructor; [by split | constructor].
      * intros p q Hin ->%list_elem_of_singleton. by apply Hlt.
    + rewrite product_app. cbn [product fold_right]. rewrite Z.pow_1_r. lia.
    + unfold factors_text. rewrite flat_map_app. cbn [flat_map]. by rewrite app_nil_r.
Qed.

(** Both stages of the search. *)
Lemma search_spec E s p m G X : env_ok E -> 0 < m < factor_bound -> owns E s ((p, m) :: G) X ->
  wp (fun _ => '(num, more) ← table_loop low_primes p;
     if more : bool
     then with_fuel (fun n => wheel_loop n num (wrap32 (Z.quot (List.last low_primes 0 + 5) 6 * 6 - 1)))
     else mret num) s (fun p' s' => exists m' fs,
    0 < m' /\ m = product fs * m' /\ prime_powers fs /\ finished fs m' /\
    owns (printed (factors_text fs) E) s' ((p', m') :: G) X).
Proof.
  intros HE Hm HO.
  eapply wp_call; [eapply (table_loop_spec low_primes [] E s p m); [done | done | lia | | own]|].
  { by intros q ?%elem_of_nil. }
  cbn beta. intros [p1 more] s1 (m1 & f1 & Hm1 & E1 & Hp1 & Hin & Hmore & HO1).
  destruct more; [|apply wp_ret; exists m1, f1; split_and!; done || lia].
  rewrite low_primes_last. change (wrap32 (Z.quot (99991 + 5) 6 * 6 - 1)) with 99995.
  assert (rough (99995 - 1) m1) as Hr.
  { intros d Hd Hdm. destruct (prime_divisor d ltac:(lia)) as (q & Hq & Hqd).
    pose proof (Z.divide_pos_le q d ltac:(lia) Hqd).
    apply (Hmore q); [apply low_primes_elem; split; [done | lia]|]. by eapply Z.divide_trans. }
  eapply wp_mono.
  { apply wp_with_fuel.
    eapply (wheel_loop_spec _ (printed (factors_text f1) E) s1 p1 m1 99995);
      [by apply printed_ok | done | done | lia | lia | done | exact HO1]. }
  cbn beta. intros p2 s2 (m2 & f2 & Hm2 & E2 & Hp2 & Hq2 & Hfin & HO2).
  exists m2, (f1 ++ f2). rewrite printed_app in HO2.
  split; [done|]. split; [rewrite product_app, E1, E2; ring|]. split; [|split].
  - apply prime_powers_app; [done | done |]. intros a b Ha Hb.
    pose proof (low_primes_max a (Hin a Ha)). specialize (Hq2 b Hb). lia.
  - destruct Hfin as [|[Hpm Hlt]]; [by left|]. right. split; [done|]. intros q.
    rewrite map_app, elem_of_app. intros [Hq|Hq]; [|by apply Hlt].
    pose proof (low_primes_max q (Hin q Hq)). pose proof (Z.prime_ge_2 _ Hpm).
    destruct (Z.le_gt_cases m2 99994); [|lia]. exfalso. apply (Hr m2); [lia|]. by exists (product f2).
  - unfold factors_text in *. by rewrite flat_map_app.
Qed.

(** The line [factor] writes for a number from 2 on. *)
Lemma factor_spec E s p m G X : env_ok E -> 1 < m < factor_bound -> owns E s ((p, m) :: G) X ->
  wp (fun _ => factor p) s (fun _ s' => exists fs,
    prime_powers fs /\ product fs = m /\
    owns (printed (text 10 m ++ [32; 61] ++ factors_text fs ++ [10]) E) s' G X).
Proof.
  intros HE Hm HO. unfold factor. step bi_copy_spec. intros x s1 (-> & HO1).
  step bi_print_spec. intros _ s2 HO2. step puts_spec. intros _ s3 HO3. rewrite printed_app in HO3.
  set (E1 := printed (text 10 m ++ [32; 61]) E) in *. pose proof (printed_ok (text 10 m ++ [32; 61]) E HE) as HE1.
  fold E1 in HE1. step is_zero_spec. intros z s4 (-> & HO4). rewrite (proj2 (Z.eqb_neq m 0)) by lia.
  step is_one_spec. intros o s5 (-> & HO5). rewrite (proj2 (Z.eqb_neq m 1)) by lia.
  eapply (wp_call _ _ _ (fun _ s' => exists fs, prime_powers fs /\ product fs = m /\
    owns (printed (factors_text fs) E1) s' G X)).
  { pose proof (search_spec E1 s5 p m G X HE1 ltac:(lia) HO5) as Hs.
    apply (wp_ext _ (fun _ => ('(num, more) ← table_loop low_primes p;
      if more : bool
      then with_fuel (fun n => wheel_loop n num (wrap32 (Z.quot (List.last low_primes 0 + 5) 6 * 6 - 1)))
      else mret num) ≫= fun num =>
      r ← compare_const num bi_1;
      (if negb (r =? 0) then x ← bi_copy num; print_fact x 1 else mret tt);;
      bi_free num)).
    { intros n fuel. unfold mbind, prog_bind. destruct (table_loop low_primes p fuel s5) as [[q b] t|]; [|done].
      by destruct b. }
    eapply wp_call; [exact Hs|]. cbn beta. intros q s6 (m' & fs & Hm' & Em & Hp & Hfin & HO6).
    destruct (finish_factors fs m m' Em Hp Hfin) as (gs & Hg & Hprod & Htext).
    set (E2 := printed (factors_text fs) E1) in *. pose proof (printed_ok (factors_text fs) E1 HE1) as HE2.
    fold E2 in HE2. step compare_1_spec. intros r s7 (-> & HO7).
    eapply (wp_call _ _ _ (fun _ s' => owns (printed (factors_text gs) E1) s' ((q, m') :: G) X)).
    - rewrite Htext, <- printed_app. fold E2.
      destruct (Z.eqb_spec (Z.sgn (m' - 1)) 0), (Z.eqb_spec m' 1); try lia; cbn [negb].
      + apply wp_ret. by rewrite printed_nil.
      + step bi_copy_spec. intros x s8 (-> & HO8). by step_last print_fact_spec.
    - intros _ s8 HO8. step_last bi_free_spec. intros _ s9 HO9. by exists gs. }
  intros _ s6 (fs & Hp & Hprod & HO6).
  step_last putc_spec. intros _ s7 HO7. exists fs. split; [done|]. split; [done|].
  assert (text 10 m ++ [32; 61] ++ factors_text fs ++ [10] =
    ((text 10 m ++ [32; 61]) ++ factors_text fs) ++ [10]) as -> by (by rewrite <- !app_assoc).
  rewrite <- (printed_app _ [10]), <- (printed_app (text 10 m ++ [32; 61])). exact HO7.
Qed.
