(* ===== verification/BigStart.v ===== *)
(** * The life of the package (bigint_int.c)

    [bi_initialize], [bi_permanent], [bi_depermanent], [bi_no_check] and
    [bi_terminate]: what holds between them, and that a client that consumes
    every number it is given leaves nothing behind. *)

From Stdlib Require Import ZArith Lia.
From stdpp Require Import base numbers list gmap strings.
From S2P Require Import Prelude BigComps BigCell BigHeap BigInt.

Open Scope Z_scope.

Definition add_permanent (p : bigint) (v : Z) (E : env) : env :=
  Env ((p, v) :: e_permanent E) (e_globals E) (e_level E) (e_world E).
Definition with_env_globals (g : constants) (E : env) : env :=
  Env (e_permanent E) g (e_level E) (e_world E).
Definition with_env_level (l : Z) (E : env) : env :=
  Env (e_permanent E) (e_globals E) l (e_world E).

Lemma bi_permanent_spec E s p c G X :
  normal_form c -> refs c = 1 -> owns E s G ((p, c) :: X) ->
  wp (fun _ => bi_permanent p) s (fun _ s' => owns (add_permanent p (cell_val c) E) s' G X).
Proof.
  intros Hn Hr HO. destruct (owns_raw_unique _ _ _ _ _ _ HO) as (Hl & H0 & Hnp & _).
  unfold bi_permanent. step_check. apply wp_bind, wp_get_state.
  apply wp_bind, (wp_deref s p c); [apply Hl|].
  apply wp_bind, wp_signal_if; [rewrite Hr; apply andb_false_r|].
  eapply wp_store; [apply Hl|].
  destruct HO as [H1 H2 H3 H4 H5 H6 H7 H8].
  assert (forall q, q <> p -> refs_in q (handles G ((p, c) :: X)) = refs_in q (handles G X)) as Eh
    by (intros q Hq; rewrite refs_in_handles_raw; destruct (N.eq_dec p q); [congruence | lia]).
  split; auto.
  - eapply wf_store; eauto. simpl. unfold PERMANENT. lia.
  - cbn [e_permanent add_permanent]. intros q v [[= -> ->]|Hq]%elem_of_cons.
    + exists (set_refs PERMANENT c). split; [apply live_store; left; split; [done|]; split; [done | apply Hl]|].
      split; [done|]. split; [by destruct Hn; split | done].
    + destruct (H2 q v Hq) as (d & Hd & ?). exists d. split; [|done]. apply live_store. right.
      split; [|done]. intros ->. by apply (Hnp v).
  - intros q v Hq. destruct (H3 q v Hq) as (d & Hd & ?). exists d. split; [|done]. apply live_store. right.
    split; [|done]. intros ->. pose proof (handle_own _ _ _ X Hq). lia.
  - intros q d Hq. assert (q <> p) as Hne by (intros ->; pose proof (handle_raw _ _ G _ Hq); lia).
    destruct (H4 q d ltac:(by right)) as (Hd & Hdr & Hdn).
    split; [apply live_store; by right|]. split; [by rewrite <- Eh|].
    cbn [e_permanent add_permanent]. intros v [[= -> ->]|Hin]%elem_of_cons; [done | by apply (Hdn v)].
  - intros q d [(-> & -> & _)|[Hne Hd]]%live_store; [by left|].
    rewrite <- Eh by done. by apply H5.
Qed.

Definition with_permanents (ps : list (bigint * Z)) (E : env) : env :=
  Env ps (e_globals E) (e_level E) (e_world E).

(** Back to an ordinary number with one reference. *)
Lemma bi_depermanent_spec E s p v ps :
  e_permanent E = (p, v) :: ps -> (forall w, (p, w) ∉ ps) -> owns E s [] [] ->
  wp (fun _ => bi_depermanent p) s (fun _ s' => exists c,
    live s p c /\ s' = with_heap (<[p := set_refs 1 c]> (heap s)) s /\
    owns (with_permanents ps E) s' [(p, v)] []).
Proof.
  intros Hps Hnp HO. destruct HO as [H1 H2 H3 H4 H5 H6 H7 H8].
  destruct (H2 p v) as (c & Hl & Hr & Hn & Hv); [rewrite Hps; by left|].
  unfold bi_depermanent. apply wp_bind. eapply wp_check; [done | exact Hl |].
  apply wp_bind, wp_get_state. apply wp_bind, (wp_deref s p c); [apply Hl|].
  apply wp_bind, wp_signal_if; [rewrite Hr; apply andb_false_r|].
  eapply wp_store; [apply Hl|]. exists c. split; [done|]. split; [done|]. split; auto.
  - eapply wf_store; eauto. simpl. lia.
  - cbn [e_permanent with_permanents]. intros q w Hq. destruct (H2 q w) as (d & Hd & ?); [rewrite Hps; by right|].
    exists d. split; [|done]. apply live_store. right. split; [|done]. intros ->. by apply (Hnp w).
  - intros q w [= -> ->]%list_elem_of_singleton. exists (set_refs 1 c).
    split; [apply live_store; left; split; [done|]; split; [done | apply Hl]|].
    split; [by destruct Hn; split | done].
  - intros q d Hq. by apply elem_of_nil in Hq.
  - intros q d [(-> & -> & _)|[Hne Hd]]%live_store.
    + right. unfold refs_in, handles. simpl. destruct (N.eq_dec p p); done.
    + destruct (H5 q d Hd) as [?|E0]; [by left|]. right. rewrite E0.
      unfold refs_in, handles. simpl. destruct (N.eq_dec p q); [congruence | done].
Qed.

(** ** Initialization *)

Lemma set_constant_spec E s G X f : owns E s G X ->
  wp (fun _ => set_constant f) s (fun _ s' => owns (with_env_globals (f (e_globals E)) E) s' G X).
Proof.
  intros HO. unfold set_constant. apply wp_bind, wp_get_state, wp_set_state.
  destruct HO as [[] H2 H3 H4 H5 H6 H7 H8]. split; auto; [by split|].
  cbn [globals with_globals e_globals with_env_globals]. by rewrite H6.
Qed.

(** The environment [bi_initialize] sets up. *)
Record initial_env (w : world) (E : env) : Prop := InitialEnv {
  ie_world : e_world E = w;
  ie_level : e_level E = 3;
  ie_permanent : e_permanent E =
    [(bi_minint (e_globals E), -2147483648); (bi_maxint (e_globals E), 2147483647);
     (bi_m1 (e_globals E), -1); (bi_3 (e_globals E), 3); (bi_2 (e_globals E), 2);
     (bi_1 (e_globals E), 1); (bi_0 (e_globals E), 0)];
  ie_nodup : NoDup (map fst (e_permanent E))
}.

Lemma initial_env_ok w E : initial_env w E -> env_ok E.
Proof.
  intros [_ _ Hp _]. split; rewrite Hp; repeat first [by apply list_elem_of_here | apply list_elem_of_further].
Qed.

Lemma empty_owns g w :
  let s := with_check_level 3 (with_lists [] [] 0 0 (initial_state g w)) in
  owns (Env [] null_constants 3 w) s [] [].
Proof.
  cbn zeta. set (s := with_check_level 3 (with_lists [] [] 0 0 (initial_state g w))).
  assert (forall p c, ~ live s p c) as Hl by (by intros p c [Hp _]).
  split; try done; try (intros p v Hp; by apply elem_of_nil in Hp); [|intros p c Hp; by destruct (Hl p c)].
  split; try done; [by right | constructor | intros p Hp; by apply elem_of_nil in Hp |
    intros p c Hp; by destruct (Hl p c) |].
  intros _. split; [constructor|]. split; [done|]. intros p.
  split; [by intros ?%elem_of_nil | intros (c & Hc); by destruct (Hl p c)].
Qed.

(** [bi_x = int_to_bi( i ); bi_permanent( bi_x );]. *)
Lemma permanent_int E s i f (G : list (bigint * Z)) :
  int32 i -> owns E s [] [] ->
  wp (fun _ => p ← int_to_bi i; set_constant (f p);; bi_permanent p) s (fun _ s' => exists p,
    (forall v, (p, v) ∉ e_permanent E) /\
    owns (add_permanent p i (with_env_globals (f p (e_globals E)) E)) s' [] []).
Proof.
  intros Hi HO. step int_to_bi_raw. intros p s1 (c & Hn & Hv & Hr & HO1).
  destruct (owns_raw_unique _ _ _ _ _ _ HO1) as (_ & _ & Hnp & _).
  step set_constant_spec. intros _ s2 HO2. eapply wp_mono; [by eapply bi_permanent_spec, HO2|].
  cbn beta. intros _ s3 HO3. rewrite Hv in HO3. by exists p.
Qed.

Lemma not_in_keys (ps : list (bigint * Z)) p : (forall w, (p, w) ∉ ps) -> p ∉ map fst ps.
Proof.
  intros H Hp. apply list_elem_of_In, in_map_iff in Hp as ([q w] & E & Hin). simpl in E. subst q.
  apply (H w). by apply list_elem_of_In.
Qed.

Lemma not_permanent_ne (ps : list (bigint * Z)) p q v :
  (forall w, (p, w) ∉ (q, v) :: ps) -> p <> q /\ forall w, (p, w) ∉ ps.
Proof.
  intros H. split; [intros ->; apply (H v); by left|]. intros w Hw. apply (H w). by right.
Qed.

(** The seven steps of [bi_initialize] in one. *)
Lemma then_permanent E s i f (k : nat -> M unit) Q :
  int32 i -> owns E s [] [] ->
  (forall p s', (forall v, (p, v) ∉ e_permanent E) ->
    owns (add_permanent p i (with_env_globals (f p (e_globals E)) E)) s' [] [] -> wp k s' Q) ->
  wp (fun n => p ← int_to_bi i; set_constant (f p);; bi_permanent p;; k n) s Q.
Proof.
  intros Hi HO Hk.
  apply (wp_ext _ (fun n => (p ← int_to_bi i; set_constant (f p);; bi_permanent p);; k n)).
  { intros n fuel. unfold mbind, prog_bind. by repeat case_match. }
  eapply wp_call; [by eapply (permanent_int E s i f [])|]. cbn beta.
  intros _ s1 (p & Hp & HO1). by eapply Hk.
Qed.

Ltac simpl_env :=
  match goal with HO : owns _ _ _ _ |- _ =>
    cbn [e_permanent e_globals e_level e_world add_permanent with_env_globals null_constants
      bi_0 bi_1 bi_2 bi_3 bi_m1 bi_maxint bi_minint] in HO
  end.

Lemma bi_initialize_spec g w :
  wp (fun _ => bi_initialize) (initial_state g w) (fun _ s => exists E, initial_env w E /\ owns E s [] []).
Proof.
  unfold bi_initialize. apply wp_bind, wp_get_state. apply wp_bind, wp_set_state.
  pose proof (empty_owns g w) as HO. cbn zeta in HO.
  eapply then_permanent; [done | exact HO |]. clear HO. intros p0 s0 H0 HO. simpl_env.
  eapply then_permanent; [done | exact HO |]. clear HO. intros p1 s1 H1 HO. simpl_env.
  eapply then_permanent; [done | exact HO |]. clear HO. intros p2 s2 H2 HO. simpl_env.
  eapply then_permanent; [done | exact HO |]. clear HO. intros p3 s3 H3 HO. simpl_env.
  eapply then_permanent; [done | exact HO |]. clear HO. intros p4 s4 H4 HO. simpl_env.
  eapply then_permanent; [done | exact HO |]. clear HO. intros p5 s5 H5 HO. simpl_env.
  eapply wp_mono; [eapply (permanent_int _ s5 _ _ []); [done | exact HO]|]. clear HO. cbn beta.
  intros _ s6 (p6 & H6 & HO). simpl_env. eexists. split; [|exact HO].
  split; cbn [e_permanent e_globals e_world e_level add_permanent with_env_globals
    bi_0 bi_1 bi_2 bi_3 bi_m1 bi_maxint bi_minint map fst]; [reflexivity..|].
  clear HO. cbn [e_permanent] in *.
  apply not_in_keys in H1, H2, H3, H4, H5, H6. cbn [map fst] in *.
  repeat (apply NoDup_cons; split; [assumption|]). apply NoDup_singleton.
Qed.

(** ** Termination *)

(** No reference count has reached the mark of the permanent numbers. *)
Definition unsaturated (E : env) (s : state) : Prop :=
  forall p c, live s p c -> refs c = PERMANENT -> exists v, (p, v) ∈ e_permanent E.

Lemma bi_free_last E s p v c G X :
  owns E s ((p, v) :: G) X -> live s p c -> refs c = 1 ->
  wp (fun _ => bi_free p) s (fun _ s' => s' = freed s p c).
Proof.
  intros HO Hl Hr. unfold bi_free. apply wp_bind. eapply wp_check; [apply HO | exact Hl |].
  apply wp_bind, (wp_deref s p c); [apply Hl|]. rewrite Hr. cbn [Z.eqb Pos.eqb PERMANENT].
  apply wp_bind. eapply wp_store; [apply Hl|]. cbn [Z.ltb Z.compare Z.sub Z.add Z.opp Z.pos_sub].
  apply wp_bind, wp_get_state. apply wp_bind, wp_set_state. apply wp_signal_if.
  { cbn [active_count with_heap check_level]. apply andb_false_iff. right. apply Z.ltb_ge.
    pose proof (live_count s p c (o_wf _ _ _ _ HO) Hl). lia. }
  unfold freed. by rewrite Hr.
Qed.

(** [bi_depermanent( bi_x ); bi_free( bi_x );]. *)
Lemma free_one E s f v ps (k : nat -> M bool) Q :
  e_permanent E = (f (e_globals E), v) :: ps -> (forall w, (f (e_globals E), w) ∉ ps) ->
  owns E s [] [] -> unsaturated E s ->
  (forall s', owns (with_permanents ps E) s' [] [] -> unsaturated (with_permanents ps E) s' -> wp k s' Q) ->
  wp (fun n => p ← constant f; bi_depermanent p;; p ← constant f; bi_free p;; k n) s Q.
Proof.
  intros Hps Hnp HO Hu Hk. unfold constant.
  apply wp_bind, wp_bind, wp_get_state, wp_ret. rewrite (o_globals _ _ _ _ HO).
  eapply wp_call; [by eapply bi_depermanent_spec|]. cbn beta. intros _ s1 (c & Hl & Es1 & HO1).
  apply wp_bind, wp_bind, wp_get_state, wp_ret. rewrite (o_globals _ _ _ _ HO1).
  assert (live s1 (f (e_globals E)) (set_refs 1 c)) as Hl1.
  { rewrite Es1. apply live_store. left. split; [done|]. split; [done | apply Hl]. }
  eapply wp_call; [by eapply bi_free_last|]. cbn beta. intros _ s2 ->.
  apply Hk; [by eapply owns_freed|]. intros q d [Hne Hd]%live_freed Hr.
  rewrite Es1 in Hd. apply live_store in Hd as [(? & _)|[_ Hd]]; [done|].
  destruct (Hu q d Hd Hr) as (w & Hw). exists w. cbn [e_permanent with_permanents].
  rewrite Hps in Hw. apply elem_of_cons in Hw as [[= -> _]|?]; done.
Qed.

Lemma owns_permanents E s ps G X :
  ps ≡ₚ e_permanent E -> owns E s G X -> owns (with_permanents ps E) s G X.
Proof.
  intros HP [H1 H2 H3 H4 H5 H6 H7 H8]. split; auto; cbn [e_permanent with_permanents].
  - intros p v Hp. apply H2. by rewrite <- HP.
  - intros p c Hp. destruct (H4 p c Hp) as (? & ? & Hn). do 2 (split; [done|]).
    intros v Hv. apply (Hn v). by rewrite <- HP.
Qed.

(** No permanent numbers and no references: only the free list is left. *)
Lemma owns_nothing E s :
  e_permanent E = [] -> owns E s [] [] -> unsaturated E s ->
  active_count s = 0 /\ (check_level s = 3 -> active_list s = []) /\
  forall p, is_Some (heap s !! p) -> p ∈ free_list s.
Proof.
  intros Hp HO Hu. pose proof (o_wf _ _ _ _ HO) as Hw.
  assert (forall p c, ~ live s p c) as Hl.
  { intros p c Hc. pose proof (wf_live _ Hw p c Hc) as Hr.
    destruct (o_refs _ _ _ _ HO p c Hc) as [E0|E0].
    - destruct (Hu p c Hc E0) as (v & Hv). rewrite Hp in Hv. by apply elem_of_nil in Hv.
    - change (refs_in p (handles [] [])) with 0 in E0. lia. }
  assert (forall p, is_Some (heap s !! p) -> p ∈ free_list s) as Hf.
  { intros p (c & Hc). destruct (decide (p ∈ free_list s)); [done|]. by destruct (Hl p c). }
  split; [|split; [|done]].
  - rewrite (wf_active_count _ Hw).
    assert (dom (heap s) = list_to_set (free_list s)) as Ed.
    { apply set_eq. intros p. rewrite elem_of_dom, elem_of_list_to_set. split; [apply Hf|].
      intros Hq. destruct (wf_free _ Hw p Hq) as (d & Hd & _). by eexists. }
    rewrite <- size_dom, Ed, size_list_to_set by apply Hw. lia.
  - intros E0. destruct (wf_active _ Hw E0) as (_ & _ & Ha).
    destruct (active_list s) as [|p l]; [done|].
    destruct (Ha p) as [Ha1 _]. destruct Ha1 as (c & Hc); [by left|]. by destruct (Hl p c).
Qed.

Lemma foldr_delete_lookup (h : gmap N real_bigint) l p :
  foldr delete h l !! p = if decide (p ∈ l) then None else h !! p.
Proof.
  induction l as [|q l IH]; simpl; [done|].
  destruct (N.eq_dec q p) as [->|Hne].
  - rewrite lookup_delete_eq, decide_True by (by left). done.
  - rewrite lookup_delete_ne, IH by done. repeat case_decide; try done; set_solver.
Qed.

(** One line of [bi_terminate]. *)
Ltac free_one_tac f HO Hu Hnd :=
  let Hx := fresh in let s1 := fresh "s" in
  apply NoDup_cons in Hnd; destruct Hnd as [Hx Hnd];
  eapply (free_one _ _ f); cycle 2; [exact HO | exact Hu | |
    cbn [e_permanent e_globals]; reflexivity |]; cycle 1;
  [cbn [e_globals]; intros ? ?%(list_elem_of_fmap_2 fst); by apply Hx|];
  clear Hx HO Hu; intros s1 HO Hu;
  unfold with_permanents in HO, Hu; cbn [e_globals e_level e_world] in HO, Hu.

(** [bi_terminate] when every number but the seven constants has been consumed:
    all checks pass, no message is printed and every object is given back. *)
Lemma bi_terminate_spec w E s :
  initial_env w E -> owns E s [] [] -> unsaturated E s ->
  wp (fun _ => bi_terminate) s (fun b s' => b = false /\ heap s' = ∅ /\ the_world s' = e_world E).
Proof.
  destruct E as [ps g l w0]. intros [Hw Hlv Hp Hnd] HO Hu. cbn [e_world e_level e_permanent e_globals] in *.
  apply (owns_permanents _ s (rev ps)) in HO; [|symmetry; apply Permutation_rev].
  assert (unsaturated (Env (rev ps) g l w0) s) as Hu'.
  { intros p c Hc Hr. destruct (Hu p c Hc Hr) as (v & Hv). exists v.
    cbn [e_permanent]. by rewrite list_elem_of_In, <- in_rev, <- list_elem_of_In. }
  clear Hu. rewrite (Permutation_rev (map fst ps)), <- map_rev in Hnd.
  rewrite Hp in HO, Hu', Hnd. cbn [rev app map fst] in HO, Hu', Hnd.
  unfold with_permanents in HO. cbn [e_globals e_level e_world] in HO.
  unfold bi_terminate.
  free_one_tac bi_0 HO Hu' Hnd.
  free_one_tac bi_1 HO Hu' Hnd.
  free_one_tac bi_2 HO Hu' Hnd.
  free_one_tac bi_3 HO Hu' Hnd.
  free_one_tac bi_m1 HO Hu' Hnd.
  free_one_tac bi_maxint HO Hu' Hnd.
  free_one_tac bi_minint HO Hu' Hnd.
  destruct (owns_nothing (Env [] g l w0) _ eq_refl HO Hu') as (Ha & Hl & Hf).
  apply wp_bind, wp_get_state. rewrite (o_level _ _ _ _ HO) in *. cbn [e_level] in *. rewrite Hlv in *.
  cbn [Z.leb Z.compare Pos.compare Pos.compare_cont].
  apply wp_bind, wp_double_check; [apply HO|].
  apply wp_bind, wp_bind, wp_triple_check; [apply HO | by rewrite (o_level _ _ _ _ HO) |].
  rewrite Hl by done. unfold free_all at 1. apply wp_bind, wp_get_state, wp_set_state. 
  apply wp_bind. unfold free_all. apply wp_bind, wp_get_state, wp_set_state, wp_ret.
  rewrite Ha. split; [done|]. split; [|apply HO].
  cbn [foldr heap with_heap]. apply map_empty. intros p. rewrite foldr_delete_lookup.
  case_decide as Hd; [done|]. apply eq_None_not_Some. intros Hs. by apply Hd, Hf.
Qed.
