(* ===== verification/BigSpec.v ===== *)
(** * What the bigint package promises its clients

    An operation of the package, seen from outside: it consumes its arguments,
    returns (for all large enough fuel) a number it hands over, and touches
    nothing else the caller owns.  [total1 op P Q] and the like state this for
    operations with one, two or three arguments, against integers; [session]
    runs a client from [bi_initialize] on. *)

From Stdlib Require Import ZArith Lia.
From stdpp Require Import base numbers list gmap strings.
From S2P Require Import Prelude BigComps BigCell BigHeap BigInt BigStart.

Open Scope Z_scope.

(** ** Contracts *)

Definition total1 (op : bigint -> M bigint) (P : Z -> Prop) (Q : Z -> Z -> Prop) : Prop :=
  forall E s G X p v, env_ok E -> owns E s ((p, v) :: G) X -> P v ->
  wp (fun _ => op p) s (fun r s' => exists z, Q v z /\ owns E s' ((r, z) :: G) X).

Definition total2 (op : bigint -> bigint -> M bigint) (P : Z -> Z -> Prop) (Q : Z -> Z -> Z -> Prop) : Prop :=
  forall E s G X p v q w, env_ok E -> owns E s ((p, v) :: (q, w) :: G) X -> P v w ->
  wp (fun _ => op p q) s (fun r s' => exists z, Q v w z /\ owns E s' ((r, z) :: G) X).

Definition total3 (op : bigint -> bigint -> bigint -> M bigint) (P : Z -> Z -> Z -> Prop)
  (Q : Z -> Z -> Z -> Z -> Prop) : Prop :=
  forall E s G X p v q w o u, env_ok E -> owns E s ((p, v) :: (q, w) :: (o, u) :: G) X -> P v w u ->
  wp (fun _ => op p q o) s (fun r s' => exists z, Q v w u z /\ owns E s' ((r, z) :: G) X).

(** Operations that return a C integer, or nothing. *)
Definition query1 {A} (op : bigint -> M A) (P : Z -> Prop) (Q : Z -> A -> Prop) : Prop :=
  forall E s G X p v, env_ok E -> owns E s ((p, v) :: G) X -> P v ->
  wp (fun _ => op p) s (fun r s' => Q v r /\ owns E s' G X).

Definition query2 {A} (op : bigint -> bigint -> M A) (P : Z -> Z -> Prop) (Q : Z -> Z -> A -> Prop) : Prop :=
  forall E s G X p v q w, env_ok E -> owns E s ((p, v) :: (q, w) :: G) X -> P v w ->
  wp (fun _ => op p q) s (fun r s' => Q v w r /\ owns E s' G X).

(** Arguments on which an operation raises a signal. *)
Definition raises1 {A} (op : bigint -> M A) (P : Z -> Prop) (f : fault) : Prop :=
  forall E s G X p v, env_ok E -> owns E s ((p, v) :: G) X -> P v -> faults (fun _ => op p) s f.

Definition raises2 {A} (op : bigint -> bigint -> M A) (P : Z -> Z -> Prop) (f : fault) : Prop :=
  forall E s G X p v q w, env_ok E -> owns E s ((p, v) :: (q, w) :: G) X -> P v w ->
  faults (fun _ => op p q) s f.

Definition always1 (v : Z) : Prop := True.
Definition always2 (v w : Z) : Prop := True.

(** An exact result as a contract. *)
Lemma total1_exact op P f :
  (forall E s G X p v, env_ok E -> P v -> owns E s ((p, v) :: G) X ->
    wp (fun _ => op p) s (fun r s' => owns E s' ((r, f v) :: G) X)) -> total1 op P (fun v z => z = f v).
Proof.
  intros H E s G X p v HE HO HP. eapply wp_mono; [by eapply H|]. cbn beta. intros r s' HO'. by exists (f v).
Qed.

Lemma total2_exact op P f :
  (forall E s G X p v q w, env_ok E -> P v w -> owns E s ((p, v) :: (q, w) :: G) X ->
    wp (fun _ => op p q) s (fun r s' => owns E s' ((r, f v w) :: G) X)) -> total2 op P (fun v w z => z = f v w).
Proof.
  intros H E s G X p v q w HE HO HP. eapply wp_mono; [by eapply H|]. cbn beta. intros r s' HO'. by exists (f v w).
Qed.

(** ** Sessions *)

(** From [bi_initialize] in any fresh process. *)
Definition session {A} (m : M A) (Q : A -> state -> Prop) : Prop :=
  forall g w, wp (fun _ => bi_initialize;; m) (initial_state g w) Q.

Lemma session_intro {A} (m : M A) (Q : A -> state -> Prop) :
  (forall E s, env_ok E -> owns E s [] [] -> wp (fun _ => m) s Q) -> session m Q.
Proof.
  intros H g w. eapply wp_call; [apply bi_initialize_spec|]. cbn beta.
  intros _ s (E & HE & HO). eapply H; [by eapply initial_env_ok | exact HO].
Qed.

(** A session in a process whose libc behaves as [w]. *)
Lemma session_world {A} (m : M A) g w (Q : A -> state -> Prop) :
  (forall E s, env_ok E -> e_world E = w -> owns E s [] [] -> wp (fun _ => m) s Q) ->
  wp (fun _ => bi_initialize;; m) (initial_state g w) Q.
Proof.
  intros H. eapply wp_call; [apply bi_initialize_spec|]. cbn beta.
  intros _ s (E & HE & HO). eapply H; [by eapply initial_env_ok | apply HE | exact HO].
Qed.

Lemma owns_own_value E s p v G X : owns E s ((p, v) :: G) X -> own_value s p v.
Proof. intros HO. apply (o_own _ _ _ _ HO). by left. Qed.

(** [int_to_bi] and an operation: what a client sees. *)
Definition run1 (op : bigint -> M bigint) (v : Z) (Q : Z -> Prop) : Prop :=
  session (p ← int_to_bi v; op p) (fun r s => exists z, Q z /\ own_value s r z).
Definition run2 (op : bigint -> bigint -> M bigint) (v w : Z) (Q : Z -> Prop) : Prop :=
  session (q ← int_to_bi w; p ← int_to_bi v; op p q) (fun r s => exists z, Q z /\ own_value s r z).
Definition run3 (op : bigint -> bigint -> bigint -> M bigint) (v w u : Z) (Q : Z -> Prop) : Prop :=
  session (o ← int_to_bi u; q ← int_to_bi w; p ← int_to_bi v; op p q o)
    (fun r s => exists z, Q z /\ own_value s r z).
Definition ask1 {A} (op : bigint -> M A) (v : Z) (Q : A -> Prop) : Prop :=
  session (p ← int_to_bi v; op p) (fun r _ => Q r).
Definition ask2 {A} (op : bigint -> bigint -> M A) (v w : Z) (Q : A -> Prop) : Prop :=
  session (q ← int_to_bi w; p ← int_to_bi v; op p q) (fun r _ => Q r).

Lemma total1_run op P Q v : total1 op P Q -> int32 v -> P v -> run1 op v (Q v).
Proof.
  intros H Hv HP. apply session_intro. intros E s HE HO.
  step int_to_bi_spec. intros p s1 HO1. eapply wp_mono; [by eapply H|]. cbn beta.
  intros r s2 (z & Hz & HO2). exists z. split; [done | by eapply owns_own_value].
Qed.

Lemma total2_run op P Q v w : total2 op P Q -> int32 v -> int32 w -> P v w -> run2 op v w (Q v w).
Proof.
  intros H Hv Hw HP. apply session_intro. intros E s HE HO.
  step int_to_bi_spec. intros q s1 HO1. step int_to_bi_spec. intros p s2 HO2.
  eapply wp_mono; [by eapply H|]. cbn beta.
  intros r s3 (z & Hz & HO3). exists z. split; [done | by eapply owns_own_value].
Qed.

Lemma total3_run op P Q v w u :
  total3 op P Q -> int32 v -> int32 w -> int32 u -> P v w u -> run3 op v w u (Q v w u).
Proof.
  intros H Hv Hw Hu HP. apply session_intro. intros E s HE HO.
  step int_to_bi_spec. intros o s1 HO1. step int_to_bi_spec. intros q s2 HO2.
  step int_to_bi_spec. intros p s3 HO3. eapply wp_mono; [by eapply H|]. cbn beta.
  intros r s4 (z & Hz & HO4). exists z. split; [done | by eapply owns_own_value].
Qed.

Lemma query1_ask {A} (op : bigint -> M A) P Q v : query1 op P Q -> int32 v -> P v -> ask1 op v (Q v).
Proof.
  intros H Hv HP. apply session_intro. intros E s HE HO.
  step int_to_bi_spec. intros p s1 HO1. eapply wp_mono; [by eapply H|]. cbn beta. by intros r s2 [Hr _].
Qed.

Lemma query2_ask {A} (op : bigint -> bigint -> M A) P Q v w :
  query2 op P Q -> int32 v -> int32 w -> P v w -> ask2 op v w (Q v w).
Proof.
  intros H Hv Hw HP. apply session_intro. intros E s HE HO.
  step int_to_bi_spec. intros q s1 HO1. step int_to_bi_spec. intros p s2 HO2.
  eapply wp_mono; [by eapply H|]. cbn beta. by intros r s3 [Hr _].
Qed.

(** A session that ends in a signal. *)
Definition dies {A} (m : M A) (f : fault) : Prop :=
  forall g w, faults (fun _ => bi_initialize;; m) (initial_state g w) f.

Lemma raises1_dies {A} (op : bigint -> M A) P f v :
  raises1 op P f -> int32 v -> P v -> dies (p ← int_to_bi v; op p) f.
Proof.
  intros H Hv HP g w. eapply faults_after; [apply bi_initialize_spec|]. cbn beta.
  intros _ s (E & HE & HO). apply initial_env_ok in HE.
  fstep int_to_bi_spec. intros p s1 HO1. by eapply H.
Qed.

Lemma raises2_dies {A} (op : bigint -> bigint -> M A) P f v w :
  raises2 op P f -> int32 v -> int32 w -> P v w -> dies (q ← int_to_bi w; p ← int_to_bi v; op p q) f.
Proof.
  intros H Hv Hw HP g w0. eapply faults_after; [apply bi_initialize_spec|]. cbn beta.
  intros _ s (E & HE & HO). apply initial_env_ok in HE.
  fstep int_to_bi_spec. intros q s1 HO1. fstep int_to_bi_spec. intros p s2 HO2. by eapply H.
Qed.
