(* ===== verification/BigClient.v ===== *)
(** * Clients of the bigint package

    The package seen from a caller: a caller is a machine whose stack holds
    bigints, and its abstract counterpart is the same machine on integers.  The
    heap, the reference counts and the free list of the package implement the
    abstract machine: a caller that frees or consumes each bigint once never
    sees a signal and always holds the values it would hold with integers. *)

From Stdlib Require Import ZArith Lia.
From stdpp Require Import base numbers list gmap strings.
From S2P Require Import Prelude BigComps BigCell BigHeap BigInt BigDiv BigNum BigStart BigSpec.

Open Scope Z_scope.

(** ** Requests *)

Inductive request : Type :=
  | Push (i : Z) | Dup | Drop | Swap | Rotate
  | Plus | Minus | Times | Squared | Doubled | Opposite
  | Modulo | Raise | Gcd.

(** What a request does to a stack of integers; [None] where the package
    promises nothing, or raises a signal. *)
Definition perform (r : request) (vs : list Z) : option (list Z) :=
  match r, vs with
  | Push i, vs => if (-2147483648 <=? i) && (i <? 2147483648) then Some (i :: vs) else None
  | Dup, a :: vs => Some (a :: a :: vs)
  | Drop, _ :: vs => Some vs
  | Swap, a :: b :: vs => Some (b :: a :: vs)
  | Rotate, a :: b :: c :: vs => Some (b :: c :: a :: vs)
  | Plus, a :: b :: vs => Some (a + b :: vs)
  | Minus, a :: b :: vs => Some (a - b :: vs)
  | Times, a :: b :: vs => Some (a * b :: vs)
  | Squared, a :: vs => Some (a * a :: vs)
  | Doubled, a :: vs => Some (a * 2 :: vs)
  | Opposite, a :: vs => if a =? 0 then None else Some (- a :: vs)
  | Modulo, a :: m :: vs => if 0 <? m then Some (a mod m :: vs) else None
  | Raise, a :: e :: vs => if 0 <=? e then Some (a ^ e :: vs) else None
  | Gcd, a :: b :: vs => if (a =? 0) || (b =? 0) then None else Some (Z.gcd a b :: vs)
  | _, _ => None
  end.

Fixpoint perform_all (rs : list request) (vs : list Z) : option (list Z) :=
  match rs with
  | [] => Some vs
  | r :: rs => match perform r vs with Some vs => perform_all rs vs | None => None end
  end.

Definition push_result (m : M bigint) (hs : list bigint) : M (list bigint) := r ← m; mret (r :: hs).

(** The calls a request makes on a stack of handles. *)
Definition serve (r : request) (hs : list bigint) : M (list bigint) :=
  match r, hs with
  | Push i, hs => push_result (int_to_bi i) hs
  | Dup, p :: hs => push_result (bi_copy p) (p :: hs)
  | Drop, p :: hs => bi_free p;; mret hs
  | Swap, p :: q :: hs => mret (q :: p :: hs)
  | Rotate, p :: q :: o :: hs => mret (q :: o :: p :: hs)
  | Plus, p :: q :: hs => push_result (bi_add p q) hs
  | Minus, p :: q :: hs => push_result (bi_subtract p q) hs
  | Times, p :: q :: hs => push_result (bi_multiply p q) hs
  | Squared, p :: hs => push_result (bi_square p) hs
  | Doubled, p :: hs => push_result (bi_double p) hs
  | Opposite, p :: hs => push_result (bi_negate p) hs
  | Modulo, p :: q :: hs => push_result (bi_mod p q) hs
  | Raise, p :: q :: hs => push_result (bi_power p q) hs
  | Gcd, p :: q :: hs => push_result (bi_gcd p q) hs
  | _, _ => mret hs
  end.

Fixpoint serve_all (rs : list request) (hs : list bigint) : M (list bigint) :=
  match rs with
  | [] => mret hs
  | r :: rs => hs ← serve r hs; serve_all rs hs
  end.

Fixpoint drop_all (hs : list bigint) : M unit :=
  match hs with
  | [] => mret tt
  | p :: hs => bi_free p;; drop_all hs
  end.

(** ** The refinement *)

(** A stack of handles stands for a stack of integers. *)
Definition stands_for (E : env) (s : state) (hs : list bigint) (vs : list Z) : Prop :=
  length hs = length vs /\ owns E s (zip hs vs) [].

Lemma stands_for_cons E s hs v vs : stands_for E s hs (v :: vs) ->
  exists p hs', hs = p :: hs' /\ length hs' = length vs /\ owns E s ((p, v) :: zip hs' vs) [].
Proof. intros [Hl HO]. destruct hs as [|p hs]; [done|]. exists p, hs. split; [done|]. by split; [injection Hl|]. Qed.

Lemma push_result_spec E s m hs vs v : length hs = length vs ->
  wp (fun _ => m) s (fun r s' => owns E s' ((r, v) :: zip hs vs) []) ->
  wp (fun _ => push_result m hs) s (fun hs' s' => stands_for E s' hs' (v :: vs)).
Proof.
  intros Hl H. unfold push_result. eapply wp_call; [exact H|]. cbn beta. intros r s' HO.
  apply wp_ret. split; [simpl; congruence | exact HO].
Qed.

Lemma stands_for_cons2 E s hs a b vs : stands_for E s hs (a :: b :: vs) ->
  exists p q hs', hs = p :: q :: hs' /\ length hs' = length vs /\ owns E s ((p, a) :: (q, b) :: zip hs' vs) [].
Proof.
  intros [p (hs1 & -> & Hl & HO)]%stands_for_cons. destruct hs1 as [|q hs1]; [done|].
  exists p, q, hs1. split; [done|]. split; [by injection Hl | done].
Qed.

Lemma serve_spec E r s hs vs vs' : env_ok E -> perform r vs = Some vs' -> stands_for E s hs vs ->
  wp (fun _ => serve r hs) s (fun hs' s' => stands_for E s' hs' vs').
Proof.
  intros HE Hp H.
  destruct r; cbn [perform] in Hp;
    repeat match type of Hp with
      | match ?l with [] => _ | _ => _ end = _ => destruct l; try discriminate Hp
      | (if ?b then _ else _) = _ => destruct b eqn:?; try discriminate Hp
      end; injection Hp as <-;
    repeat match goal with
      | Hb : (_ && _) = true |- _ => apply andb_true_iff in Hb as [? ?]
      | Hb : (_ || _) = false |- _ => apply orb_false_iff in Hb as [? ?]
      end;
    try (apply stands_for_cons2 in H as (p & q & hs' & -> & Hl & H));
    try (apply stands_for_cons in H as (p & hs' & -> & Hl & H)).
  - destruct H as [Hl HO]. apply push_result_spec; [done|]. apply int_to_bi_spec; [unfold int32; lia | done].
  - cbn [serve]. apply push_result_spec; [simpl; congruence|]. step_last bi_copy_spec. by intros ? ? (-> & ?).
  - step bi_free_spec. intros _ s' HO. apply wp_ret. by split.
  - apply wp_ret. split; [simpl; congruence|]. simpl. own.
  - destruct hs' as [|o hs']; [done|]. apply wp_ret. split; [injection Hl as Hl; simpl; congruence|]. cbn [zip zip_with] in *. own.
  - apply push_result_spec; [done|]. by apply bi_add_spec.
  - apply push_result_spec; [done|]. by apply bi_subtract_spec.
  - apply push_result_spec; [done|]. by apply bi_multiply_spec.
  - apply push_result_spec; [done|]. by apply bi_square_spec.
  - apply push_result_spec; [done|]. by apply bi_double_spec.
  - apply push_result_spec; [done|]. apply bi_negate_spec; first [assumption | lia].
  - apply push_result_spec; [done|]. apply bi_mod_spec; first [assumption | lia].
  - apply push_result_spec; [done|]. apply bi_power_spec; first [assumption | lia].
  - apply push_result_spec; [done|]. apply bi_gcd_spec; first [assumption | lia].
Qed.

Lemma serve_all_spec E rs : env_ok E -> forall s hs vs vs', perform_all rs vs = Some vs' ->
  stands_for E s hs vs -> wp (fun _ => serve_all rs hs) s (fun hs' s' => stands_for E s' hs' vs').
Proof.
  intros HE. induction rs as [|r rs IH]; intros s hs vs vs' Hp H; cbn [perform_all serve_all] in *.
  - injection Hp as ->. by apply wp_ret.
  - destruct (perform r vs) as [vs1|] eqn:Er; [|done].
    eapply wp_call; [by eapply serve_spec|]. cbn beta. intros hs1 s1 H1. by eapply IH.
Qed.

Lemma drop_all_spec E hs : forall s vs, stands_for E s hs vs ->
  wp (fun _ => drop_all hs) s (fun _ s' => owns E s' [] []).
Proof.
  induction hs as [|p hs IH]; intros s vs H; cbn [drop_all].
  - destruct H as [_ HO]. by apply wp_ret.
  - destruct vs as [|v vs]; [by destruct H|]. destruct H as [Hl HO]. step bi_free_spec. intros _ s' HO'.
    apply (IH _ vs). split; [by injection Hl | done].
Qed.

(** ** Nothing left behind *)

(** [active_count] tells whether a caller has given everything back: only the
    seven permanent numbers are still there. *)
Lemma seven_active w E s : initial_env w E -> owns E s [] [] -> active_count s = 7 -> unsaturated E s.
Proof.
  intros [_ _ Hp Hnd] HO Hac p c Hl _.
  pose (perms := list_to_set (map fst (e_permanent E)) : gset N).
  pose (live_set := dom (heap s) ∖ list_to_set (free_list s) : gset N).
  assert (Hw := o_wf _ _ _ _ HO).
  assert (Hsub : perms ⊆ live_set).
  { intros q Hq. apply elem_of_list_to_set, list_elem_of_In, in_map_iff in Hq as ([q' v] & <- & Hin).
    apply list_elem_of_In in Hin. destruct (o_permanent _ _ _ _ HO _ _ Hin) as (d & [Hd Hf] & _).
    apply elem_of_difference. split; [apply elem_of_dom; by eexists|]. by rewrite elem_of_list_to_set. }
  assert (Hfree : list_to_set (free_list s) ⊆ dom (heap s)).
  { intros q Hq%elem_of_list_to_set. destruct (wf_free _ Hw q Hq) as (d & Hd & _). apply elem_of_dom. by eexists. }
  assert (Hsize : size live_set = size perms).
  { unfold live_set, perms. rewrite size_difference, size_dom, !size_list_to_set by (done || apply Hw).
    rewrite length_map, Hp. cbn [length]. pose proof (wf_active_count _ Hw). lia. }
  assert (p ∈ perms) as Hin.
  { rewrite (set_subseteq_size_eq perms live_set Hsub) by lia.
    apply elem_of_difference. destruct Hl as [Hl Hf].
    split; [apply elem_of_dom; by eexists | by rewrite elem_of_list_to_set]. }
  apply elem_of_list_to_set, list_elem_of_In, in_map_iff in Hin as ([q v] & <- & Hin).
  exists v. by apply list_elem_of_In.
Qed.
