(* ===== verification/BigClaims.v ===== *)
(** * What the bigint package computes

    The properties of the package and of its factoring program, each from the
    caller's side, with a session in which its hypotheses hold; and the inputs
    on which the code does not do what its comments say. *)

From Stdlib Require Import ZArith Lia Sorted.
From stdpp Require Import base numbers list gmap strings.
From S2P Require Import Prelude BigComps BigCell BigHeap BigInt BigDiv BigNum BigRoot BigText.
From S2P Require Import LowPrimes BigPrime BigFactor BigStart BigSpec BigClient.

Open Scope Z_scope.

(** ** Results without a condition on the arguments *)

(** C1 [bi_add], [bi_subtract], [bi_multiply] (the schoolbook and the Karatsuba
    branch) and [bi_square] return exactly the sum, difference, product and
    square of any two numbers, consume their arguments and touch nothing else. *)
Theorem arithmetic_exact :
  total2 bi_add always2 (fun v w z => z = v + w) /\
  total2 bi_subtract always2 (fun v w z => z = v - w) /\
  total2 bi_multiply always2 (fun v w z => z = v * w) /\
  total1 bi_square always1 (fun v z => z = v * v).
Proof.
  split; [|split; [|split]]; [apply total2_exact.. | apply (total1_exact _ _ (fun v => v * v))];
    intros E s G X; intros.
  - by apply bi_add_spec.
  - by apply bi_subtract_spec.
  - by apply bi_multiply_spec.
  - by apply bi_square_spec.
Qed.

Lemma arithmetic_exact_witness : run2 bi_multiply 65536 (-2147483648) (fun z => z = 65536 * -2147483648).
Proof. apply (total2_run _ _ _ 65536 (-2147483648) (proj1 (proj2 (proj2 arithmetic_exact)))); done. Defined.

(** C2 [bi_divide] and [bi_rem]: a zero divisor raises SIGFPE (in [bi_rem] that of [bi_divide]); otherwise the quotient is
    off by less than one divisor, and exactly truncated for a divisor of one
    component; the remainder is congruent to the dividend and smaller than the divisor. *)
Theorem divide_contract :
  total2 bi_divide (fun n d => d <> 0) (fun n d q =>
    Z.abs (n - q * d) < Z.abs d /\ (Z.abs d < bi_radix -> q = Z.quot n d)) /\
  total2 bi_rem (fun n d => d <> 0) (fun n d r =>
    Z.abs r < Z.abs d /\ (d | n - r) /\ (Z.abs d < bi_radix -> r = Z.rem n d)) /\
  raises2 bi_divide (fun n d => d = 0) (Sigfpe "bi_divide: divide by zero") /\
  raises2 bi_rem (fun n d => d = 0) (Sigfpe "bi_divide: divide by zero").
Proof.
  split; [|split; [|split]].
  - intros E s G X p v q w HE HO Hw. step_last (divide_spec E HE s p v q w G X). intros r s' (z & H1 & H2 & HO').
    exists z. by split.
  - intros E s G X p v q w HE HO Hw. step_last (bi_rem_spec E HE s p v q w G X).
    intros r s' (z & H1 & H2 & H3 & HO'). exists z. by split; [|].
  - intros E s G X p v q w HE HO ->. by eapply divide_by_zero.
  - intros E s G X p v q w HE HO ->. by eapply bi_rem_by_zero.
Qed.

Lemma divide_contract_witness :
  run2 bi_divide (-1000000007) 65537 (fun q => Z.abs (-1000000007 - q * 65537) < Z.abs 65537 /\
    (Z.abs 65537 < bi_radix -> q = Z.quot (-1000000007) 65537)) /\
  dies (q ← int_to_bi 0; p ← int_to_bi 7; bi_divide p q) (Sigfpe "bi_divide: divide by zero").
Proof.
  split.
  - apply (total2_run _ _ _ (-1000000007) 65537 (proj1 divide_contract)); done.
  - apply (raises2_dies _ _ _ 7 0 (proj1 (proj2 (proj2 divide_contract)))); done.
Defined.

(** [bi_mod] is the mathematical residue of any number, however large, for a
    positive modulus (the off-by-one of [bi_divide] is corrected), and raises
    SIGFPE for any other; so are the modular sum, difference and product. *)
Lemma residues_exact :
  total2 bi_mod (fun n m => 0 < m) (fun n m z => z = n mod m) /\
  raises2 bi_mod (fun n m => m <= 0) (Sigfpe "bi_mod: zero or negative modulus") /\
  total3 bi_mod_add (fun a b m => 0 < m) (fun a b m z => z = (a + b) mod m) /\
  total3 bi_mod_subtract (fun a b m => 0 < m) (fun a b m z => z = (a - b) mod m) /\
  total3 bi_mod_multiply (fun a b m => 0 < m) (fun a b m z => z = (a * b) mod m).
Proof.
  split; [|split; [|split; [|split]]].
  - apply total2_exact. intros. by apply bi_mod_spec.
  - intros E s G X p v q w HE HO Hw. by eapply bi_mod_fault.
  - intros E s G X p v q w o u HE HO Hu. step_last bi_mod_add_spec. intros r s' HO'. by eexists.
  - intros E s G X p v q w o u HE HO Hu. step_last bi_mod_subtract_spec. intros r s' HO'. by eexists.
  - intros E s G X p v q w o u HE HO Hu. step_last bi_mod_multiply_spec. intros r s' HO'. by eexists.
Qed.

Lemma residues_exact_witness :
  run2 bi_mod (-17) 5 (fun z => z = 3) /\
  dies (q ← int_to_bi (-5); p ← int_to_bi 7; bi_mod p q) (Sigfpe "bi_mod: zero or negative modulus").
Proof.
  split.
  - apply (total2_run _ _ _ (-17) 5 (proj1 residues_exact)); done.
  - apply (raises2_dies _ _ _ 7 (-5) (proj1 (proj2 residues_exact))); done.
Defined.

(** [bi_compare] orders numbers as their values are ordered: its result is the
    sign of the difference, for any signs and lengths. *)
Lemma compare_is_order : query2 bi_compare always2 (fun v w r => r = Z.sgn (v - w)).
Proof. intros E s G X p v q w HE HO _. by apply bi_compare_spec. Qed.

Lemma compare_is_order_witness : ask2 bi_compare (-3) 2 (fun r => r = -1).
Proof. apply (query2_ask _ _ _ (-3) 2 compare_is_order); done. Defined.

(** [bi_to_int] gives back the int a bigint was made from by [int_to_bi],
    and raises SIGFPE on every number that is not an int. *)
Lemma int_round_trip :
  (forall i, int32 i -> ask1 bi_to_int i (fun r => r = i)) /\
  query1 bi_to_int int32 (fun v r => r = v) /\
  raises1 bi_to_int (fun v => ~ int32 v) (Sigfpe "bi_to_int: overflow").
Proof.
  assert (query1 bi_to_int int32 (fun v r => r = v)) as H
    by (intros E s G X p v HE HO Hv; by apply bi_to_int_spec).
  split; [|split; [done|]].
  - intros i Hi. by apply (query1_ask _ _ _ i H).
  - intros E s G X p v HE HO Hv. by eapply bi_to_int_overflow.
Qed.

Lemma int_round_trip_witness : ask1 bi_to_int (-2147483648) (fun r => r = -2147483648).
Proof. apply (proj1 int_round_trip). done. Defined.

(** C40 The operations with a C int are exact, with these exceptions: a divisor 0 and a modulus that is not positive
    raise SIGFPE, and the most negative int has no opposite, so that multiplying, dividing and taking the remainder by it
    overflow. *)
Theorem int_operations i : int32 i ->
  total1 (fun p => bi_int_add p i) always1 (fun v z => z = v + i) /\
  total1 (fun p => bi_int_subtract p i) always1 (fun v z => z = v - i) /\
  (i <> -2147483648 -> total1 (fun p => bi_int_multiply p i) always1 (fun v z => z = v * i)) /\
  (i <> -2147483648 -> i <> 0 -> total1 (fun p => bi_int_divide p i) always1 (fun v z => z = Z.quot v i)) /\
  (i <> -2147483648 -> i <> 0 -> query1 (fun p => bi_int_rem p i) always1 (fun v r => r = Z.rem v i)) /\
  (0 < i -> query1 (fun p => bi_int_mod p i) always1 (fun v r => r = v mod i)) /\
  (i = 0 -> raises1 (fun p => bi_int_divide p i) always1 (Sigfpe "bi_int_divide: divide by zero") /\
            raises1 (fun p => bi_int_rem p i) always1 (Sigfpe "bi_int_rem: divide by zero")) /\
  (i <= 0 -> raises1 (fun p => bi_int_mod p i) always1 (Sigfpe "bi_int_mod: zero or negative modulus")) /\
  (i = -2147483648 -> raises1 (fun p => bi_int_multiply p i) always1 Overflow /\
    raises1 (fun p => bi_int_divide p i) always1 Overflow /\ raises1 (fun p => bi_int_rem p i) always1 Overflow).
Proof.
  intros Hi. split_and!.
  - apply (total1_exact _ _ (fun v => v + i)). intros. by apply bi_int_add_spec.
  - apply (total1_exact _ _ (fun v => v - i)). intros. by apply bi_int_subtract_spec.
  - intros ?. apply (total1_exact _ _ (fun v => v * i)). intros. by apply bi_int_multiply_spec.
  - intros ??. apply (total1_exact _ _ (fun v => Z.quot v i)). intros. by apply bi_int_divide_spec.
  - intros ?? E s G X p v HE HO _. by apply bi_int_rem_spec.
  - intros ? E s G X p v HE HO _. apply bi_int_mod_spec; [unfold int32 in Hi; lia | done].
  - intros ->. split; intros E s G X p v HE HO _; [by eapply bi_int_divide_by_zero | by eapply bi_int_rem_by_zero].
  - intros ? E s G X p v HE HO _. apply faults_bind. unfold signal_if. rewrite (proj2 (Z.leb_le i 0)) by done. apply faults_fail.
  - intros ->. split_and!; intros E s G X p v HE HO _;
      [by eapply bi_int_multiply_overflow | by eapply bi_int_divide_overflow | by eapply bi_int_rem_overflow].
Qed.

Lemma int_operations_witness : run1 (fun p => bi_int_divide p (-7)) 2147483647 (fun z => z = -306783378).
Proof.
  apply (total1_run _ _ _ 2147483647 (proj1 (proj2 (proj2 (proj2 (int_operations (-7) ltac:(done))))) ltac:(done) ltac:(done)));
    done.
Defined.

(** [bi_power] is exponentiation for any exponent that is not negative, and
    raises SIGFPE for a negative one. *)
Lemma power_correct :
  total2 bi_power (fun v e => 0 <= e) (fun v e z => z = v ^ e) /\
  raises2 bi_power (fun v e => e < 0) (Sigfpe "bi_power: negative exponent").
Proof.
  split.
  - apply total2_exact. intros. by apply bi_power_spec.
  - intros E s G X p v q w HE HO Hw. by eapply bi_power_fault.
Qed.

Lemma power_correct_witness :
  run2 bi_power (-3) 41 (fun z => z = (-3) ^ 41) /\
  dies (q ← int_to_bi (-1); p ← int_to_bi 7; bi_power p q) (Sigfpe "bi_power: negative exponent").
Proof.
  split.
  - apply (total2_run _ _ _ (-3) 41 (proj1 power_correct)); done.
  - apply (raises2_dies _ _ _ 7 (-1) (proj2 power_correct)); done.
Defined.

(** ** Number theory *)

(** [bi_gcd] and [bi_lcm] of numbers that are not zero: the greatest common
    divisor and, up to sign, the least common multiple; [bi_factorial] is the factorial. *)
Lemma gcd_lcm_factorial :
  total2 bi_gcd (fun x y => x <> 0 /\ y <> 0) (fun x y z => z = Z.gcd x y) /\
  total2 bi_lcm (fun x y => x <> 0 /\ y <> 0) (fun x y z => Z.abs z = Z.lcm x y) /\
  total1 bi_factorial always1 (fun v z => z = Z.of_nat (fact (Z.to_nat v))).
Proof.
  split; [|split].
  - apply total2_exact. intros E s G X p v q w HE [] HO. by apply bi_gcd_spec.
  - intros E s G X p v q w HE HO [H1 H2]. step_last bi_lcm_spec. intros r s' HO'.
    eexists. split; [|exact HO']. reflexivity.
  - apply (total1_exact _ _ (fun v => Z.of_nat (fact (Z.to_nat v)))). intros. by apply bi_factorial_spec.
Qed.

Lemma gcd_lcm_factorial_witness : run2 bi_gcd (-462) 1071 (fun z => z = 21).
Proof. apply (total2_run _ _ _ (-462) 1071 (proj1 gcd_lcm_factorial)); done. Defined.

(** [bi_egcd] returns coefficients of Bezout's identity for its result, which
    is the gcd up to sign, and the gcd itself when an argument has one component. *)
Lemma egcd_bezout E s G X p x q y : env_ok E -> owns E s ((p, x) :: (q, y) :: G) X -> 0 <= x -> 0 <= y ->
  wp (fun _ => bi_egcd p q) s (fun '(pg, (pa, pb)) s' => exists g a b,
    a * x + b * y = g /\ Z.abs g = Z.gcd x y /\
    (Z.min (Z.abs x) (Z.abs y) < bi_radix -> g = Z.gcd x y) /\
    owns E s' ((pg, g) :: (pa, a) :: (pb, b) :: G) X).
Proof.
  intros HE HO Hx Hy. step_last (bi_egcd_spec E HE s p x q y G X); [auto|].
  intros [pg [pa pb]] s' (g & a & b & (H1 & H2 & H3) & HO'). by exists g, a, b.
Qed.

Lemma egcd_bezout_witness :
  session (q ← int_to_bi 240; p ← int_to_bi 46; bi_egcd p q) (fun '(pg, (pa, pb)) s => exists g a b,
    a * 46 + b * 240 = g /\ g = 2 /\ own_value s pg g /\ own_value s pa a /\ own_value s pb b).
Proof.
  apply session_intro. intros E s HE HO. step int_to_bi_spec; [done|]. intros q s1 HO1.
  step int_to_bi_spec; [done|]. intros p s2 HO2.
  step_last (egcd_bezout E s2 [] [] p 46 q 240); [done|done|].
  intros [pg [pa pb]] s' (g & a & b & H1 & H2 & H3 & HO'). exists g, a, b.
  split; [done|]. split; [by apply H3|].
  split; [apply (o_own _ _ _ _ HO'); by left|].
  split; apply (o_own _ _ _ _ HO'); right; [by left | right; by left].
Defined.

(** [bi_mod_inverse]: either SIGFPE, or the inverse in [0, m); it is the inverse
    whenever the arguments are relatively prime and one of them has one component. *)
Lemma mod_inverse_correct :
  (forall E s G X p v q m, env_ok E -> owns E s ((p, v) :: (q, m) :: G) X -> 0 < m -> 0 <= v ->
    faults (fun _ => bi_mod_inverse p q) s (Sigfpe "bi_mod_inverse: not relatively prime") \/
    Z.gcd v m = 1 /\ wp (fun _ => bi_mod_inverse p q) s (fun r s' => exists w,
      0 <= w < m /\ (v * w) mod m = 1 mod m /\ owns E s' ((r, w) :: G) X)) /\
  total2 bi_mod_inverse (fun v m => 0 < m /\ 0 <= v /\ Z.gcd v m = 1 /\ Z.min v m < bi_radix)
    (fun v m w => 0 <= w < m /\ (v * w) mod m = 1 mod m).
Proof.
  split.
  - intros E s G X p v q m HE HO Hm Hv.
    destruct (bi_mod_inverse_sound E HE s p v q m G X) as [?|[Hg Hw]]; auto. right. split; [done|].
    eapply wp_mono; [exact Hw|]. cbn beta. intros r s' (w & (H1 & H2) & HO'). by exists w.
  - intros E s G X p v q m HE HO (Hm & Hv & Hg & Hr).
    eapply wp_mono; [by apply (bi_mod_inverse_spec E HE s p v q m G X)|]. cbn beta.
    intros r s' (w & (H1 & H2) & HO'). by exists w.
Qed.

Lemma mod_inverse_correct_witness : run2 bi_mod_inverse 3 11 (fun w => 0 <= w < 11 /\ (3 * w) mod 11 = 1 mod 11).
Proof. apply (total2_run _ _ _ 3 11 (proj2 mod_inverse_correct)); done. Defined.

(** [bi_mod_power] is modular exponentiation: the residue of the power for
    every base, every exponent that is not negative and every modulus above 1. *)
Lemma mod_power_correct :
  total3 bi_mod_power (fun v e m => 0 <= e /\ 1 < m) (fun v e m z => z = v ^ e mod m).
Proof.
  intros E s G X p v q e o m HE HO [He Hm]. step_last bi_mod_power_spec; [lia|].
  intros r s' HO'. rewrite reduced_power_mod in HO' by lia. by eexists.
Qed.

Lemma mod_power_correct_witness : run3 bi_mod_power (-5) 1000000 561 (fun z => z = (-5) ^ 1000000 mod 561).
Proof. apply (total3_run _ _ _ (-5) 1000000 561 mod_power_correct); done. Defined.

(** [bi_jacobi] computes the Jacobi symbol, as its laws (periodicity, the even
    numerator, reciprocity) define it, of coprime arguments; an even modulus is a signal. *)
Lemma jacobi_correct :
  total2 bi_jacobi (fun a b => 0 <= a /\ 1 < b /\ Z.odd b = true /\ Z.gcd a b = 1)
    (fun a b j => jacobi a b j /\ (j = 1 \/ j = -1)) /\
  raises2 bi_jacobi (fun a b => Z.even b = true)
    (Sigfpe "bi_jacobi: don't know how to compute Jacobi(n, even)").
Proof.
  split.
  - intros E s G X p v q w HE HO (H1 & H2 & H3 & H4). step_last bi_jacobi_spec.
    intros r s' (j & Hj & Hu & HO'). by exists j.
  - intros E s G X p v q w HE HO Hw. by eapply bi_jacobi_even.
Qed.

Lemma jacobi_correct_witness : run2 bi_jacobi 1001 9907 (fun j => jacobi 1001 9907 j /\ (j = 1 \/ j = -1)).
Proof. apply (total2_run _ _ _ 1001 9907 (proj1 jacobi_correct)); done. Defined.

(** ** Roots, division in binary, random numbers *)

(** [bi_sqrt]: a negative argument raises SIGFPE; a number whose top component
    is 1 divides by zero; of every other one the result is the floor of the square
    root, or one more where the root is nearer to that. *)
Lemma sqrt_correct :
  total1 bi_sqrt (fun n => 0 <= n /\ ~ leading_one n /\ bit_length n < 2147483648)
    (fun n r => r = Z.sqrt n \/ r = Z.sqrt n + 1 /\ r * (r - 1) < n) /\
  raises1 bi_sqrt (fun n => leading_one n /\ bit_length n < 2147483648) Div_by_zero /\
  raises1 bi_sqrt (fun n => n < 0) (Sigfpe "bi_sqrt: imaginary result").
Proof.
  split; [|split].
  - intros E s G X p n HE HO (H1 & H2 & H3).
    eapply wp_mono; [by apply (bi_sqrt_spec E HE s p n G X)|]. cbn beta.
    intros r s' (v & Hv & HO'). exists v. split; [|done].
    destruct (Z.eqb_spec n 0) as [->|Hn]; [by left|].
    destruct (near_sqrt_sqrt n v) as [Hr|Hr]; [lia | done | by left | right].
    split; [done|]. unfold near_sqrt in Hv. lia.
  - intros E s G X p n HE HO [H1 H2]. by eapply bi_sqrt_crash.
  - intros E s G X p n HE HO H. by eapply bi_sqrt_negative.
Qed.

Lemma sqrt_correct_witness :
  run1 bi_sqrt 1000000000 (fun r => r = Z.sqrt 1000000000 \/
    r = Z.sqrt 1000000000 + 1 /\ r * (r - 1) < 1000000000) /\
  dies (p ← int_to_bi (-4); bi_sqrt p) (Sigfpe "bi_sqrt: imaginary result").
Proof.
  split.
  - apply (total1_run _ _ _ 1000000000 (proj1 sqrt_correct)); [done|]. split; [done|]. split; [|done].
    intros (k & Hk & Hlo & _). pose proof (Z.pow_le_mono_r bi_radix 1 k ltac:(done) ltac:(lia)).
    unfold bi_radix in *. lia.
  - apply (raises1_dies _ _ _ (-4) (proj2 (proj2 sqrt_correct))); done.
Defined.

(** [bi_binary_divide], which [bi_divide] is meant to be faster than, is exact:
    the truncated quotient of any two numbers (of less than 2^31 bits), and a
    zero divisor raises SIGFPE; [bi_double] and [bi_half] double and halve. *)
Lemma binary_divide_correct :
  total2 bi_binary_divide (fun n d => d <> 0 /\ bit_length n < 2147483648) (fun n d q => q = Z.quot n d) /\
  raises2 bi_binary_divide (fun n d => d = 0) (Sigfpe "bi_divide: divide by zero") /\
  total1 bi_double always1 (fun v z => z = v * 2) /\
  total1 bi_half (fun v => v <> -1) (fun v z => z = Z.quot v 2).
Proof.
  split; [|split; [|split]].
  - apply total2_exact. intros E s G X p v q w HE [H1 H2] HO. by apply bi_binary_divide_spec.
  - intros E s G X p v q w HE HO ->. by eapply divide_by_zero.
  - apply (total1_exact _ _ (fun v => v * 2)). intros. by apply bi_double_spec.
  - apply (total1_exact _ _ (fun v => Z.quot v 2)). intros. by apply bi_half_spec.
Qed.

Lemma binary_divide_correct_witness : run2 bi_binary_divide (-1000000007) 65537 (fun q => q = -15258).
Proof. apply (total2_run _ _ _ (-1000000007) 65537 (proj1 binary_divide_correct)); done. Defined.

(** [bi_random m] is a number in [0, m) for positive m, whatever random()
    returns within its documented range; it changes nothing but random()'s state. *)
Lemma random_in_range E s G X p m : env_ok E -> random_range E -> 0 < m -> owns E s ((p, m) :: G) X ->
  wp (fun _ => bi_random p) s (fun r s' => exists E' v k, 0 <= v < m /\ owns E' s' ((r, v) :: G) X /\
    e_permanent E' = e_permanent E /\ e_globals E' = e_globals E /\
    random_next (e_world E') = (random_next (e_world E) + k)%nat /\
    input (e_world E') = input (e_world E) /\ output (e_world E') = output (e_world E)).
Proof.
  intros HE HR Hm HO. step_last (bi_random_spec E s p m G X).
  intros r s' (E' & v & (k & ->) & Hv & HO'). eexists _, v, k. split; [done|]. split; [exact HO'|]. by repeat split.
Qed.

Definition world0 : world := World (fun i => Z.of_nat i * 7919 mod 2147483648) 0 [] [].

Lemma random_range0 E : e_world E = world0 -> random_range E.
Proof. intros H i. rewrite H. by apply Z.mod_pos_bound. Qed.

Lemma random_in_range_witness :
  wp (fun _ => bi_initialize;; p ← int_to_bi 1000; bi_random p) (initial_state 0 world0)
    (fun r s => exists v, 0 <= v < 1000 /\ own_value s r v).
Proof.
  apply session_world. intros E s HE Hw HO. step int_to_bi_spec; [done|]. intros p s1 HO1.
  eapply wp_mono; [apply (random_in_range E s1 [] [] p 1000); [done | by apply random_range0 | done | done]|].
  cbn beta. intros r s' (E' & v & k & Hv & HO' & _). exists v. split; [done | by eapply owns_own_value].
Defined.

(** ** Primes and factors *)

(** The table of small primes is exactly the primes below 100000, in increasing order. *)
Lemma low_primes_complete :
  (forall v, v ∈ low_primes <-> Z.prime v /\ v < 100000) /\ StronglySorted Z.lt low_primes.
Proof. split; [exact low_primes_elem | exact low_primes_sorted]. Qed.

(** C32 [bi_is_probable_prime] never rejects a prime, whatever random() returns,
    and decides primality of every number below 10^10. *)
Theorem probable_prime_correct E s G X p v c : env_ok E -> random_range E -> 0 <= v -> owns E s ((p, v) :: G) X ->
  wp (fun _ => bi_is_probable_prime p c) s (fun b s' => exists E',
    (Z.prime v -> b = true) /\ (v < 10000000000 -> (b = true <-> Z.prime v)) /\
    e_permanent E' = e_permanent E /\ owns E' s' G X).
Proof.
  intros HE HR Hv HO. step_last (bi_is_probable_prime_spec E s p v c G X).
  intros b s' (E' & (k & ->) & H1 & H2 & HO'). eexists. split; [done|]. split; [done|]. by split; [|exact HO'].
Qed.

Lemma probable_prime_correct_witness :
  wp (fun _ => bi_initialize;; p ← int_to_bi 1000000007; bi_is_probable_prime p 20) (initial_state 0 world0)
    (fun b _ => b = true <-> Z.prime 1000000007).
Proof.
  apply session_world. intros E s HE Hw HO. step int_to_bi_spec; [done|]. intros p s1 HO1.
  eapply wp_mono; [apply (probable_prime_correct E s1 [] [] p 1000000007 20);
    [done | by apply random_range0 | done | done]|].
  cbn beta. intros b s' (E' & _ & H & _). by apply H.
Defined.

(** C30 [factor] terminates on every number from 2 to 4.6 10^18 and prints its
    factorization: powers of increasing primes whose product is the number. *)
Theorem factor_correct E s G X p m : env_ok E -> 1 < m < factor_bound -> owns E s ((p, m) :: G) X ->
  wp (fun _ => factor p) s (fun _ s' => exists fs,
    StronglySorted Z.lt (map fst fs) /\ Forall (fun '(q, k) => Z.prime q /\ 1 <= k) fs /\ product fs = m /\
    output (the_world s') = rev (text 10 m ++ [32; 61] ++ factors_text fs ++ [10]) ++ output (the_world s)).
Proof.
  intros HE Hm HO. step_last (factor_spec E s p m G X).
  intros _ s' (fs & (H1 & H2) & H3 & HO'). exists fs. split; [done|]. split; [done|]. split; [done|].
  by rewrite (o_world _ _ _ _ HO'), (o_world _ _ _ _ HO).
Qed.

Lemma factor_correct_witness :
  session (p ← int_to_bi 1234567890; factor p) (fun _ s => exists fs,
    product fs = 1234567890 /\ Forall (fun '(q, k) => Z.prime q /\ 1 <= k) fs).
Proof.
  apply session_intro. intros E s HE HO. step int_to_bi_spec; [done|]. intros p s1 HO1.
  step_last (factor_correct E s1 [] [] p 1234567890); [unfold factor_bound; lia|].
  intros _ s' (fs & _ & H2 & H3 & _). by exists fs.
Defined.

(** ** Text *)

(** What [putc] has written is there for [getc] to read. *)
Definition pipe : M unit :=
  s ← get_state;
  let w := the_world s in
  set_state (with_world (World (random_values w) (random_next w) (rev (output w)) []) s).

Lemma pipe_spec E s G X : owns E s G X ->
  wp (fun _ => pipe) s (fun _ s' => owns (with_io (rev (output (e_world E))) [] E) s' G X).
Proof.
  intros HO. unfold pipe. apply wp_bind, wp_get_state, wp_set_state.
  destruct HO as [[] H2 H3 H4 H5 H6 H7 H8]. split; auto; [by split|].
  cbn [the_world with_world e_world with_io]. by rewrite H8.
Qed.

(** C35 In every base from 2 to 36 the number [bi_scan_base] reads back is the one
    [bi_print_base] wrote, and [str_to_bi_base] of the same text gives it too. *)
Theorem print_scan_round_trip base E s G X p v :
  2 <= base <= 36 -> env_ok E -> output (e_world E) = [] -> owns E s ((p, v) :: G) X ->
  wp (fun _ => bi_print_base p base;; pipe;; bi_scan_base base) s (fun r s' =>
    own_value s' r v /\ input (the_world s') = []) /\
  wp (fun _ => str_to_bi_base (text base v) base) s (fun r s' => owns E s' ((r, v) :: (p, v) :: G) X).
Proof.
  intros Hb HE Ho HO.
  destruct (text_numeral base Hb v [] ltac:(done)) as (Hn & Hz & (c & t & Hc & Heof) & Hr).
  rewrite app_nil_r in Hn, Hz, Hr. split.
  - step (bi_print_base_spec base Hb E s p v G X). intros _ s1 HO1. step pipe_spec. intros _ s2 HO2.
    eapply wp_mono; [eapply (bi_scan_base_spec base Hb _ s2 (text base v)); [by apply with_io_ok, with_io_ok| |done| |exact HO2]|].
    + cbn [e_world with_io output input printed]. by rewrite Ho, app_nil_r, rev_involutive.
    + by rewrite Hc.
    + cbn beta. intros r s' HO'. rewrite Hn, Hr in HO'. split; [by eapply owns_own_value|].
      by rewrite (o_world _ _ _ _ HO').
  - eapply wp_mono; [by eapply (str_to_bi_base_spec base Hb E s (text base v))|]. cbn beta.
    intros r s' HO'. by rewrite Hn in HO'.
Qed.

Lemma print_scan_round_trip_witness :
  wp (fun _ => bi_initialize;; p ← int_to_bi (-255); (bi_print_base p 16;; pipe;; bi_scan_base 16))
    (initial_state 0 world0) (fun r s => own_value s r (-255)).
Proof.
  apply session_world. intros E s HE Hw HO. step int_to_bi_spec; [done|]. intros p s1 HO1.
  eapply wp_mono; [apply (print_scan_round_trip 16 E s1 [] [] p (-255)); [lia | done | by rewrite Hw | done]|].
  by intros r s' [H _].
Defined.

(** ** Callers *)

Lemma stands_for_values E s hs vs : stands_for E s hs vs -> Forall2 (own_value s) hs vs.
Proof.
  intros [Hl HO]. apply Forall2_same_length_lookup_2; [done|]. intros i p v Hp Hv.
  apply (o_own _ _ _ _ HO). apply list_elem_of_lookup. exists i.
  rewrite lookup_zip_with, Hp. simpl. by rewrite Hv.
Qed.

(** C3 Any sequence of calls of the package's operations, from [bi_initialize]
    on, runs without a signal and computes on handles, heap and reference counts
    what the abstract machine computes on integers; when the handles left are
    freed, nothing is owned any more. *)
Theorem client_refines rs vs g w : perform_all rs [] = Some vs ->
  wp (fun _ => bi_initialize;; serve_all rs []) (initial_state g w)
    (fun hs s => Forall2 (own_value s) hs vs) /\
  wp (fun _ => bi_initialize;; (hs ← serve_all rs []; drop_all hs)) (initial_state g w)
    (fun _ s => exists E, initial_env w E /\ owns E s [] []).
Proof.
  intros Hp. split; (eapply wp_call; [apply bi_initialize_spec|]); cbn beta; intros _ s (E & HE & HO);
    pose proof (initial_env_ok _ _ HE) as HE'.
  - eapply wp_mono; [by eapply (serve_all_spec E rs HE' s [] [] vs)|]. cbn beta.
    intros hs s' H. by eapply stands_for_values.
  - eapply wp_call; [by eapply (serve_all_spec E rs HE' s [] [] vs)|]. cbn beta. intros hs s1 H1.
    eapply wp_mono; [by eapply drop_all_spec|]. cbn beta. intros _ s2 H2. by exists E.
Qed.

Lemma client_refines_witness :
  wp (fun _ => bi_initialize;; serve_all
    [Push 10; Push 41; Raise; Dup; Push (-3); Plus; Modulo; Dup; Times] []) (initial_state 0 world0)
    (fun hs s => Forall2 (own_value s) hs [(41 ^ 10 - 3) ^ 2]).
Proof. apply client_refines. vm_compute. reflexivity. Defined.

Lemma initialize_active fuel g w :
  match bi_initialize fuel (initial_state g w) with Ok _ s => active_count s = 7 | Fault _ => False end.
Proof. vm_compute. reflexivity. Qed.

(** Once a caller has given back all it owned ([active_count] is that of
    [bi_initialize]), [bi_terminate] finds no leak, returns 0 and has freed all memory. *)
Lemma terminate_correct w E s : initial_env w E -> owns E s [] [] -> active_count s = 7 ->
  wp (fun _ => bi_terminate) s (fun leaked s' => leaked = false /\ heap s' = ∅ /\ the_world s' = w).
Proof.
  intros HE HO Ha. eapply wp_mono; [by eapply bi_terminate_spec, seven_active|]. cbn beta.
  intros b s' (H1 & H2 & H3). rewrite H3. split; [done|]. split; [done|]. apply HE.
Qed.

Lemma terminate_correct_witness :
  wp (fun _ => bi_initialize;; bi_terminate) (initial_state 0 world0)
    (fun leaked s' => leaked = false /\ heap s' = ∅ /\ the_world s' = world0).
Proof.
  apply wp_bind. destruct (bi_initialize_spec 0 world0) as (N & u & s & H & E & HE & HO).
  exists N, u, s. split; [exact H|]. apply (terminate_correct world0 E s HE HO).
  pose proof (initialize_active N 0 world0) as Ha. by rewrite (H N N) in Ha.
Defined.

(** [bi_copy] shares a number, and freeing the copy leaves the original; freeing
    the last handle puts the object on the free list, and using it after that is
    caught by [check] (at the level [bi_initialize] sets). *)
Lemma copies_and_frees E s p v G X : owns E s ((p, v) :: G) X ->
  wp (fun _ => q ← bi_copy p; bi_free q) s (fun _ s' => owns E s' ((p, v) :: G) X) /\
  forall c, live s p c -> refs c = 1 ->
    wp (fun _ => bi_free p) s (fun _ s' => owns E s' G X /\ free_list s' = p :: free_list s /\
      active_count s' = active_count s - 1) /\
    (e_level E = 3 -> faults (fun _ => bi_free p;; bi_copy p) s (Sigfpe "check: zero refs in bigint")).
Proof.
  intros HO. split.
  - step bi_copy_spec. intros r s' (-> & HO'). by step_last bi_free_spec.
  - intros c Hl Hr. pose proof (bi_free_last E s p v c G X HO Hl Hr) as Hf. split.
    + destruct Hf as (N & u & s' & H & ->). destruct (bi_free_spec E s p v G X HO) as (N' & u' & s'' & H' & HO').
      assert (s'' = freed s p c) as ->.
      { pose proof (H (N + N')%nat (N + N')%nat ltac:(lia) ltac:(lia)) as H1.
        rewrite (H' (N + N')%nat (N + N')%nat) in H1 by lia. by injection H1. }
      exists N, u, (freed s p c). by split.
    + intros Hlv. eapply faults_after; [exact Hf|]. cbn beta. intros _ s' ->.
      unfold bi_copy. apply faults_bind. exists 0%nat. intros n fuel _ _.
      assert (heap (freed s p c) !! p = Some (set_refs (refs c - 1) c)) as Hp by apply lookup_insert_eq.
      assert (check_level (freed s p c) = 3) as Hl3 by (rewrite <- Hlv; apply (o_level _ _ _ _ HO)).
      generalize dependent (freed s p c). intros t _ Hp Hl3.
      unfold check, deref, mbind, prog_bind, get_state. rewrite Hl3. cbn [Z.eqb Pos.eqb].
      rewrite Hp. unfold mret, prog_ret. cbn [refs set_refs]. by rewrite Hr.
Qed.

(** The first number a session makes has one reference. *)
Lemma made_once i fuel g w :
  match (bi_initialize;; int_to_bi i) fuel (initial_state g w) with
  | Ok p s => match heap s !! p with Some c => refs c = 1 | None => False end
  | Fault _ => False
  end.
Proof. vm_compute. reflexivity. Qed.

Lemma copies_and_frees_witness : exists E s p c, owns E s [(p, 5)] [] /\ live s p c /\ refs c = 1 /\
  wp (fun _ => bi_free p) s (fun _ s' => owns E s' [] [] /\ free_list s' = p :: free_list s /\
    active_count s' = active_count s - 1) /\
  faults (fun _ => bi_free p;; bi_copy p) s (Sigfpe "check: zero refs in bigint").
Proof.
  destruct (bi_initialize_spec 0 world0) as (N1 & u & s1 & H1 & E & HE & HO1).
  pose proof (initial_env_ok _ _ HE) as HE'.
  destruct (int_to_bi_spec E s1 5 [] [] ltac:(done) HO1) as (N2 & p & s2 & H2 & HO2).
  pose proof (made_once 5 (N1 + N2)%nat 0 world0) as Hm. unfold mbind, prog_bind in Hm.
  rewrite (H1 (N1 + N2)%nat), (H2 (N1 + N2)%nat) in Hm by lia.
  destruct (o_own _ _ _ _ HO2 p 5) as (c & Hl & _); [by left|].
  rewrite (proj1 Hl) in Hm. exists E, s2, p, c. split; [done|]. split; [done|]. split; [done|].
  destruct (proj2 (copies_and_frees E s2 p 5 [] [] HO2) c Hl Hm) as [Ha Hb].
  split; [exact Ha | apply Hb, HE].
Defined.

(** ** Where the code and its comments part *)

(** A session in the process [world0], with numbers read from decimal text. *)
Definition outcome_of {A} (fuel : nat) (m : M A) : outcome state A :=
  (bi_initialize;; m) fuel (initial_state 0 world0).
Definition value_after (fuel : nat) (m : M bigint) : option Z :=
  match outcome_of fuel (r ← m; deref r) with
  | Ok c _ => Some (cell_val c)
  | Fault _ => None
  end.
Definition fault_after {A} (fuel : nat) (m : M A) : option fault :=
  match outcome_of fuel m with
  | Ok _ _ => None
  | Fault f => Some f
  end.
Definition read (v : Z) : M bigint := str_to_bi_base (text 10 v) 10.

(** [bi_divide] is not always exact: of two positive numbers of two components
    it returns one more than the quotient, where [bi_binary_divide] is exact. *)
Lemma divide_off_by_one :
  1449270979778403 / 3585093988 = 404249 /\
  value_after 40 (n ← read 1449270979778403; d ← read 3585093988; bi_divide n d) = Some 404250 /\
  value_after 60 (n ← read 1449270979778403; d ← read 3585093988; bi_binary_divide n d) = Some 404249.
Proof. vm_compute. auto. Qed.

(** Two coprime numbers of two components on which [bi_egcd] returns -1, so
    that [bi_mod_inverse] raises SIGFPE although an inverse exists. *)
Lemma mod_inverse_fails :
  Z.gcd 226485637363298805 3864106174 = 1 /\
  value_after 60 (n ← read 226485637363298805; d ← read 3864106174; '(g, _) ← bi_egcd n d; mret g) = Some (-1) /\
  fault_after 60 (n ← read 226485637363298805; d ← read 3864106174; bi_mod_inverse n d) =
    Some (Sigfpe "bi_mod_inverse: not relatively prime").
Proof. vm_compute. auto. Qed.

(** The square root rounded up, and the crash at 2^31. *)
Lemma sqrt_rounds_up :
  Z.sqrt 20292297356166646962 = 4504697254 /\
  value_after 60 (n ← read 20292297356166646962; bi_sqrt n) = Some 4504697255 /\
  fault_after 40 (n ← read 2147483648; bi_sqrt n) = Some Div_by_zero.
Proof. vm_compute. auto. Qed.

(** [bi_negate] of zero is a zero with a minus sign, which [bi_compare] takes for a
    number below zero. *)
Lemma negative_zero :
  match outcome_of 40 (p ← int_to_bi 0; q ← bi_negate p; o ← int_to_bi 0; bi_compare q o) with
  | Ok r _ => r = -1
  | Fault _ => False
  end.
Proof. vm_compute. reflexivity. Qed.

(** Of the capital digits only A is one. *)
Lemma capitals_rejected c : 66 <= c <= 90 -> char_to_digit c = -1 /\ char_to_digit 65 = 10.
Proof.
  intros Hc. split; [|done]. unfold char_to_digit.
  repeat match goal with |- context [?a <=? ?b] => destruct (Z.leb_spec a b); try lia end; done.
Qed.
