(* ===== verification/BigMain.v ===== *)
(** * The command line of bi_factor (src/math/bigint/bi_factor.c)

    [parse_arg] and [main]: numbers, ranges and wildcards as arguments, lines of
    standard input without arguments.  An argument denotes a list of numbers;
    the program prints one line for each, in order. *)

From Stdlib Require Import ZArith Lia.
From stdpp Require Import base numbers list gmap strings.
From S2P Require Import Prelude BigComps BigCell BigHeap BigInt BigDiv BigNum BigText LowPrimes BigPrime.
From S2P Require Import BigFactor BigStart BigSpec.

Open Scope Z_scope.

(** ** Code *)

(** [strspn]: how many characters at the head satisfy [accept]. *)
Fixpoint strspn (accept : Z -> bool) (str : list Z) : nat :=
  match str with
  | c :: str => if accept c then S (strspn accept str) else O
  | [] => O
  end.
Definition is_digit (c : Z) : bool := (48 <=? c) && (c <=? 57).
Definition is_dot (c : Z) : bool := c =? 46.

(** [for ( ; n <= n2; n = bi_int_add( n, 1 ) ) factor( bi_copy( n ) ); bi_free( n ); bi_free( n2 );] *)
Fixpoint factor_range (fuel : nat) (n n2 : bigint) : M unit :=
  match fuel with
  | O => fail Out_of_fuel
  | S fuel =>
      r ← compare_copies n n2;
      if r <? 1 then
        x ← bi_copy n;
        factor x;;
        n ← bi_int_add n 1;
        factor_range fuel n n2
      else bi_free n;; bi_free n2
  end.

(** [case k]: the numbers with [k] more digits. *)
Definition factor_wild (n : bigint) (ten : Z) : M unit :=
  n ← bi_int_multiply n ten;
  x ← bi_copy n;
  n2 ← bi_int_add x (ten - 1);
  with_fuel (fun fuel => factor_range fuel n n2).

Definition parse_arg (arg : list Z) : M unit :=
  let i := strspn is_digit arg in
  if (i =? length arg)%nat then n ← str_to_bi arg; factor n else
  let c := nth i arg 0 in
  if c =? 45 then
    n ← str_to_bi arg;
    n2 ← str_to_bi (drop (i + 1) arg);
    with_fuel (fun fuel => factor_range fuel n n2)
  else if c =? 46 then
    if negb (strspn is_dot (drop i arg) =? length arg - i)%nat
    then fail (Exit 1 "%s: wildcards must trail number") else
    n ← str_to_bi arg;
    match (length arg - i)%nat with
    | 1%nat => factor_wild n 10
    | 2%nat => factor_wild n 100
    | 3%nat => factor_wild n 1000
    | _ => fail (Exit 1 "%s: too many wildcard chars")
    end
  else fail (Exit 1 "usage:  %s <int> <int>-<int> ...").

(** [fgets]: at most [n] characters, through the first newline. *)
Fixpoint fgets (n : nat) : M (list Z) :=
  match n with
  | O => mret []
  | S n =>
      c ← getc;
      if c =? EOF then mret [] else
      if c =? 10 then mret [c] else
      l ← fgets n; mret (c :: l)
  end.

(** [buf] as a C string: what precedes the first NUL. *)
Fixpoint c_string (buf : list Z) : list Z :=
  match buf with
  | c :: buf => if c =? 0 then [] else c :: c_string buf
  | [] => []
  end.

(** Standard input, one [parse_arg] per [fgets]. *)
Fixpoint stdin_loop (fuel : nat) : M unit :=
  match fuel with
  | O => fail Out_of_fuel
  | S fuel =>
      buf ← fgets 999;
      match buf with
      | [] => mret tt
      | _ => parse_arg (c_string buf);; stdin_loop fuel
      end
  end.

Fixpoint parse_args (args : list (list Z)) : M unit :=
  match args with
  | [] => mret tt
  | arg :: args => parse_arg arg;; parse_args args
  end.

(** [main], with the arguments after [argv[0]]; returning is [exit( 0 )]. *)
Definition main (args : list (list Z)) : M unit :=
  bi_initialize;;
  bi_no_check;;
  match args with
  | [] => with_fuel stdin_loop
  | _ => parse_args args
  end.

(** ** What an argument denotes *)

Definition decimal (str : list Z) : Prop := str <> [] /\ Forall (fun c => is_digit c = true) str.

Inductive denotes : list Z -> list Z -> Prop :=
  | denotes_number a : decimal a -> denotes a [numeral 10 a]
  | denotes_range a b : decimal a -> decimal b ->
      denotes (a ++ 45 :: b) (seqZ (numeral 10 a) (numeral 10 b - numeral 10 a + 1))
  | denotes_wild a k : decimal a -> (1 <= k <= 3)%nat ->
      denotes (a ++ replicate k 46) (seqZ (numeral 10 a * 10 ^ Z.of_nat k) (10 ^ Z.of_nat k)).

(** The line for a number: its factorization. *)
Definition factor_line (m : Z) (line : list Z) : Prop :=
  if m <=? 1 then line = text 10 m ++ [32; 61] ++ (32 :: text 10 m) ++ [10]
  else exists fs, prime_powers fs /\ product fs = m /\
    line = text 10 m ++ [32; 61] ++ factors_text fs ++ [10].

(** Arguments [parse_arg] rejects, with its message. *)
Inductive rejected : list Z -> string -> Prop :=
  | rejected_usage a c t : Forall (fun x => is_digit x = true) a -> is_digit c = false -> c <> 45 -> c <> 46 ->
      rejected (a ++ c :: t) "usage:  %s <int> <int>-<int> ..."
  | rejected_middle a t : Forall (fun x => is_digit x = true) a -> Exists (fun x => is_dot x = false) t ->
      rejected (a ++ 46 :: t) "%s: wildcards must trail number"
  | rejected_many a k : decimal a -> (3 < k)%nat ->
      rejected (a ++ replicate k 46) "%s: too many wildcard chars".

Definition factorable (m : Z) : Prop := 0 <= m < factor_bound.

Lemma strspn_app accept a t : Forall (fun c => accept c = true) a ->
  strspn accept (a ++ t) = (length a + strspn accept t)%nat.
Proof. induction 1 as [|c a Hc _ IH]; [done|]. simpl. by rewrite Hc, IH. Qed.

Lemma strspn_all accept a : Forall (fun c => accept c = true) a -> strspn accept a = length a.
Proof. intros H. rewrite <- (app_nil_r a) at 1. rewrite strspn_app by done. simpl. lia. Qed.

Lemma is_digit_value c : is_digit c = true -> char_to_digit c = c - 48 /\ 0 <= c - 48 < 10.
Proof. unfold is_digit, char_to_digit. intros H. rewrite H. apply andb_true_iff in H as [? ?]. lia. Qed.

Lemma str_value_app a t : Forall (fun c => is_digit c = true) a ->
  (forall acc, str_value 10 acc t = acc) -> forall acc, str_value 10 acc (a ++ t) = str_value 10 acc a.
Proof.
  intros Ha Ht. induction Ha as [|c a Hc _ IH]; intros acc; [apply Ht|]. simpl.
  destruct ((char_to_digit c =? -1) || (10 <=? char_to_digit c)); [done | apply IH].
Qed.

Lemma split_sign_decimal a t : decimal a -> split_sign (a ++ t) = (1, a ++ t).
Proof.
  intros [Hne Ha]. destruct Ha as [|c a Hc Ha]; [done|]. cbn [app split_sign].
  destruct (Z.eqb_spec c 45) as [->|]; [discriminate Hc | done].
Qed.

(** [str_to_bi] of a decimal stops at what is not a digit. *)
Lemma numeral_app a t : decimal a -> (forall acc, str_value 10 acc t = acc) ->
  numeral 10 (a ++ t) = numeral 10 a /\ no_minus_zero 10 (a ++ t).
Proof.
  intros Ha Ht. pose proof (split_sign_decimal a [] Ha) as H. rewrite app_nil_r in H.
  unfold numeral, no_minus_zero. rewrite (split_sign_decimal a t Ha), H. cbn [fst snd].
  rewrite str_value_app by (apply Ha || done). done.
Qed.

Lemma str_value_nonneg a : Forall (fun c => is_digit c = true) a -> forall acc, 0 <= acc -> 0 <= str_value 10 acc a.
Proof.
  induction 1 as [|c a Hc _ IH]; intros acc Hacc; [done|]. simpl.
  destruct (is_digit_value c Hc) as [-> ?]. destruct (_ || _); [done|]. apply IH. lia.
Qed.

Lemma numeral_nonneg a : decimal a -> 0 <= numeral 10 a.
Proof.
  intros Ha. pose proof (split_sign_decimal a [] Ha) as H. rewrite app_nil_r in H.
  unfold numeral. rewrite H. pose proof (str_value_nonneg a (proj2 Ha) 0 ltac:(done)). lia.
Qed.

(** ** The code on such arguments *)

Lemma factor_line_spec E s p m G X : env_ok E -> factorable m -> owns E s ((p, m) :: G) X ->
  wp (fun _ => factor p) s (fun _ s' => exists line, factor_line m line /\ owns (printed line E) s' G X).
Proof.
  intros HE [Hm0 Hm] HO. unfold factor_line. destruct (Z.leb_spec m 1).
  - unfold factor. step bi_copy_spec. intros x s1 (-> & HO1).
    step bi_print_spec. intros _ s2 HO2. step puts_spec. intros _ s3 HO3. rewrite printed_app in HO3.
    pose proof (printed_ok (text 10 m ++ [32; 61]) E HE) as HE1.
    step is_zero_spec. intros z s4 (-> & HO4).
    eapply (wp_call _ _ _ (fun t s' => t = true /\ owns (printed (text 10 m ++ [32; 61]) E) s' ((p, m) :: G) X)).
    { destruct (Z.eqb_spec m 0); [by apply wp_ret|]. step_last is_one_spec. intros t s5 (-> & HO5).
      split; [apply Z.eqb_eq; lia | done]. }
    intros t s5 (-> & HO5). step print_fact_spec. intros _ s6 HO6. rewrite printed_app in HO6.
    step_last putc_spec. intros _ s7 HO7. eexists. split; [reflexivity|].
    cbn [factor_text negb Z.eqb Pos.eqb] in HO6, HO7. rewrite app_nil_r in HO7.
    assert (text 10 m ++ [32; 61] ++ (32 :: text 10 m) ++ [10] =
      ((text 10 m ++ [32; 61]) ++ 32 :: text 10 m) ++ [10]) as -> by (by rewrite <- !app_assoc).
    rewrite <- (printed_app _ [10]). exact HO7.
  - step_last factor_spec; [lia|]. intros _ s' (fs & H1 & H2 & H3). eexists. split; [by exists fs | exact H3].
Qed.

Lemma factor_range_spec k : forall E s p a q b G X, env_ok E -> Z.to_nat (b - a + 1) = k ->
  Forall factorable (seqZ a (b - a + 1)) -> owns E s ((p, a) :: (q, b) :: G) X ->
  wp (fun n => factor_range n p q) s (fun _ s' => exists lines,
    Forall2 factor_line (seqZ a (b - a + 1)) lines /\ owns (printed (concat lines) E) s' G X).
Proof.
  induction k as [|k IH]; intros E s p a q b G X HE Hk Hf HO;
    (eapply wp_unfold; [intros n; reflexivity|]); cbn beta;
    step compare_copies_spec; intros r s1 (-> & HO1).
  - rewrite (proj2 (Z.ltb_ge _ _)) by lia. step bi_free_spec. intros _ s2 HO2.
    step_last bi_free_spec. intros _ s3 HO3. exists []. rewrite seqZ_nil by lia. split; [constructor|].
    cbn [concat]. by rewrite printed_nil.
  - rewrite (proj2 (Z.ltb_lt _ _)) by lia. rewrite seqZ_cons in Hf |- * by lia.
    apply Forall_cons in Hf as [Hfa Hf]. step bi_copy_spec. intros x s2 (-> & HO2).
    eapply wp_call; [eapply (factor_line_spec E s2 p a); [done | done | own]|]. cbn beta.
    intros _ s3 (line & Hline & HO3). pose proof (printed_ok line E HE) as HE1.
    step bi_int_add_spec; [done|]. intros p' s4 HO4.
    replace (Z.pred (b - a + 1)) with (b - (a + 1) + 1) in * by lia. change (Z.succ a) with (a + 1) in *.
    eapply wp_mono; [eapply (IH _ s4 p' (a + 1) q b G X HE1 ltac:(lia) Hf HO4)|]. cbn beta.
    intros _ s5 (lines & Hl & HO5). exists (line :: lines). split; [by constructor|].
    cbn [concat]. by rewrite <- printed_app.
Qed.

Lemma str_to_bi_spec E s str v G X : env_ok E -> numeral 10 str = v /\ no_minus_zero 10 str -> owns E s G X ->
  wp (fun _ => str_to_bi str) s (fun r s' => owns E s' ((r, v) :: G) X).
Proof. intros HE [<- Hz] HO. by apply (str_to_bi_base_spec 10). Qed.

Lemma decimal_self a : decimal a -> numeral 10 a = numeral 10 a /\ no_minus_zero 10 a.
Proof. intros Ha. rewrite <- (app_nil_r a) at 1 3. by apply numeral_app. Qed.

Definition prints_lines (E : env) (code : M unit) (s : state) G X (ms : list Z) : Prop :=
  wp (fun _ => code) s (fun _ s' => exists lines,
    Forall2 factor_line ms lines /\ owns (printed (concat lines) E) s' G X).

Lemma factor_wild_spec E s p v ten G X : env_ok E -> int32 ten -> ten <> -2147483648 -> int32 (ten - 1) ->
  Forall factorable (seqZ (v * ten) ten) -> owns E s ((p, v) :: G) X ->
  prints_lines E (factor_wild p ten) s G X (seqZ (v * ten) ten).
Proof.
  intros HE H1 H2 H3 Hf HO. unfold prints_lines, factor_wild.
  step bi_int_multiply_spec. intros n s1 HO1. step bi_copy_spec. intros x s2 (-> & HO2).
  step bi_int_add_spec. intros n2 s3 HO3. apply wp_with_fuel.
  assert (seqZ (v * ten) ten = seqZ (v * ten) (v * ten + (ten - 1) - v * ten + 1)) as El by (f_equal; lia).
  rewrite El in *. by eapply factor_range_spec; [| |exact Hf|own].
Qed.

Lemma strspn_stop accept a c t : Forall (fun x => accept x = true) a -> accept c = false ->
  strspn accept (a ++ c :: t) = length a.
Proof. intros Ha Hc. rewrite strspn_app by done. simpl. rewrite Hc. lia. Qed.

Lemma parse_arg_spec E s arg ms G X : env_ok E -> denotes arg ms -> Forall factorable ms -> owns E s G X ->
  prints_lines E (parse_arg arg) s G X ms.
Proof.
  intros HE Hd Hf HO. unfold parse_arg. destruct Hd as [a Ha | a b Ha Hb | a k Ha Hk]; unfold prints_lines.
  - rewrite strspn_all, Nat.eqb_refl by apply Ha. eapply wp_call; [eapply str_to_bi_spec; [done | by apply decimal_self | exact HO]|].
    cbn beta. intros n s1 HO1. rewrite Forall_singleton in Hf.
    step_last factor_line_spec. intros _ s2 (line & Hl & HO2). exists [line].
    split; [by repeat constructor|]. simpl. by rewrite app_nil_r.
  - rewrite strspn_stop by (apply Ha || done). rewrite length_app, nth_middle.
    rewrite (proj2 (Nat.eqb_neq _ _)) by (simpl; lia). cbn [Z.eqb Pos.eqb].
    eapply wp_call; [eapply str_to_bi_spec; [done | by apply (numeral_app a) | exact HO]|]. cbn beta.
    intros n s1 HO1. rewrite drop_app_add. change (drop 1 (45 :: b)) with b.
    eapply wp_call; [eapply str_to_bi_spec; [done | by apply decimal_self | exact HO1]|]. cbn beta.
    intros n2 s2 HO2. apply wp_with_fuel. by eapply factor_range_spec; [| |exact Hf|own].
  - destruct k as [|k]; [lia|]. cbn [replicate].
    rewrite strspn_stop by (apply Ha || done). rewrite length_app, nth_middle.
    rewrite (proj2 (Nat.eqb_neq _ _)) by (simpl; lia). cbn [Z.eqb Pos.eqb].
    rewrite drop_app_length. change (46 :: replicate k 46) with (replicate (S k) 46).
    rewrite strspn_all by (apply Forall_replicate; done).
    replace (length a + length (replicate (S k) 46%Z) - length a)%nat with (S k) by (rewrite length_replicate; lia).
    rewrite length_replicate, Nat.eqb_refl. cbn [negb].
    eapply wp_call; [eapply str_to_bi_spec; [done | by apply (numeral_app a) | exact HO]|]. cbn beta.
    intros n s1 HO1. destruct k as [|[|[|k]]]; [..|lia]; by apply factor_wild_spec.
Qed.

(** ** The program *)

Lemma bi_no_check_spec E s G X : owns E s G X ->
  wp (fun _ => bi_no_check) s (fun _ s' => owns (with_env_level 0 E) s' G X).
Proof.
  intros HO. unfold bi_no_check. apply wp_bind, wp_get_state, wp_set_state.
  destruct HO as [[] H2 H3 H4 H5 H6 H7 H8]. split; auto. by split; auto.
Qed.

Lemma parse_args_spec args mss : forall E s G X, env_ok E -> Forall2 denotes args mss ->
  Forall factorable (concat mss) -> owns E s G X ->
  prints_lines E (parse_args args) s G X (concat mss).
Proof.
  intros E s G X HE Hd. revert E s HE. induction Hd as [|arg ms args mss Hd _ IH]; intros E s HE Hf HO; unfold prints_lines.
  - apply wp_ret. exists []. split; [constructor|]. cbn [concat]. by rewrite printed_nil.
  - cbn [concat] in *. apply Forall_app in Hf as [Hf1 Hf2]. cbn [parse_args].
    eapply wp_call; [by eapply (parse_arg_spec E s arg ms)|]. cbn beta. intros _ s1 (l1 & Hl1 & HO1).
    eapply wp_mono; [by eapply (IH (printed (concat l1) E) s1 (printed_ok _ _ HE))|]. cbn beta.
    intros _ s2 (l2 & Hl2 & HO2). exists (l1 ++ l2). split; [by apply Forall2_app|].
    by rewrite concat_app, <- printed_app.
Qed.

(** [bi_initialize] and [bi_no_check], and the rest of [main]. *)
Lemma start_spec {A} g w (code : M A) Q :
  (forall E s, env_ok E -> e_world E = w -> owns E s [] [] -> wp (fun _ => code) s Q) ->
  wp (fun _ => bi_initialize;; bi_no_check;; code) (initial_state g w) Q.
Proof.
  intros H. apply session_world. intros E s HE Hw HO. step bi_no_check_spec. intros _ s1 HO1.
  eapply H, HO1; [by destruct HE | done].
Qed.

Lemma start_faults {A} g w (code : M A) f :
  (forall E s, env_ok E -> e_world E = w -> owns E s [] [] -> faults (fun _ => code) s f) ->
  faults (fun _ => bi_initialize;; bi_no_check;; code) (initial_state g w) f.
Proof.
  intros H. eapply faults_after; [apply bi_initialize_spec|]. cbn beta. intros _ s (E & HE & HO).
  pose proof (initial_env_ok _ _ HE) as HE'. fstep bi_no_check_spec. intros _ s1 HO1.
  eapply H, HO1; [by destruct HE' | apply HE].
Qed.

Lemma parse_arg_usage s a c t : Forall (fun x => is_digit x = true) a ->
  is_digit c = false -> c <> 45 -> c <> 46 ->
  faults (fun _ => parse_arg (a ++ c :: t)) s (Exit 1 "usage:  %s <int> <int>-<int> ...").
Proof.
  intros Ha Hc H1 H2. unfold parse_arg. rewrite strspn_stop, length_app, nth_middle by done.
  rewrite (proj2 (Nat.eqb_neq _ _)) by (simpl; lia).
  rewrite (proj2 (Z.eqb_neq c 45)), (proj2 (Z.eqb_neq c 46)) by done. apply faults_fail.
Qed.

Lemma parse_arg_trailing s a t : Forall (fun x => is_digit x = true) a ->
  Exists (fun x => is_dot x = false) t ->
  faults (fun _ => parse_arg (a ++ 46 :: t)) s (Exit 1 "%s: wildcards must trail number").
Proof.
  intros Ha Ht. unfold parse_arg. rewrite strspn_stop, length_app, nth_middle by done.
  rewrite (proj2 (Nat.eqb_neq _ _)) by (simpl; lia). cbn [Z.eqb Pos.eqb]. rewrite drop_app_length.
  assert (strspn is_dot t < length t)%nat as Hlt.
  { clear Ha. induction t as [|c t IH]; [by apply Exists_nil in Ht|]. simpl.
    destruct (is_dot c) eqn:Ec; [|lia]. apply Exists_cons in Ht as [Ht|Ht]; [congruence|].
    specialize (IH Ht). lia. }
  rewrite (proj2 (Nat.eqb_neq _ _)) by (cbn [strspn is_dot Z.eqb Pos.eqb length]; lia).
  apply faults_fail.
Qed.

Lemma fgets_line n : forall E s a rest G X, (length a < n)%nat ->
  Forall (fun x => is_digit x = true) a -> input (e_world E) = a ++ 10 :: rest -> owns E s G X ->
  wp (fun _ => fgets n) s (fun buf s' => buf = a ++ [10] /\
    owns (with_io rest (output (e_world E)) E) s' G X).
Proof.
  induction n as [|n IH]; intros E s a rest G X Hn Ha Hi HO; [lia|].
  cbn [fgets]. step getc_spec. intros c s1 (-> & HO1). rewrite Hi in *. destruct a as [|c a]; cbn [hd tl app] in *.
  - apply wp_ret. by split.
  - apply Forall_cons in Ha as [Hc Ha]. unfold is_digit in Hc. apply andb_true_iff in Hc as [Hc1 Hc2].
    rewrite (proj2 (Z.eqb_neq c EOF)), (proj2 (Z.eqb_neq c 10)) by (unfold EOF; lia).
    eapply wp_call; [eapply (IH (with_io (a ++ 10 :: rest) (output (e_world E)) E) s1 a rest G X); [simpl in Hn; lia | done | reflexivity | exact HO1]|].
    cbn beta. intros buf s2 (-> & HO2). apply wp_ret. by split.
Qed.

Lemma c_string_digits a t : Forall (fun x => is_digit x = true) a -> c_string (a ++ t) = a ++ c_string t.
Proof.
  induction 1 as [|c a Hc _ IH]; [done|]. simpl. destruct (Z.eqb_spec c 0) as [->|]; [discriminate Hc|].
  by rewrite IH.
Qed.

Lemma parse_arg_many E s a k : env_ok E -> owns E s [] [] -> decimal a -> (3 < k)%nat ->
  faults (fun _ => parse_arg (a ++ replicate k 46)) s (Exit 1 "%s: too many wildcard chars").
Proof.
  intros HE HO Ha Hk. destruct k as [|[|[|[|k]]]]; [lia..|]. unfold parse_arg.
  set (k4 := S (S (S (S k)))).
  assert (strspn is_digit (a ++ replicate k4 46) = length a) as -> by (by apply strspn_stop; [apply Ha|]).
  rewrite length_app, length_replicate. rewrite (proj2 (Nat.eqb_neq _ _)) by (unfold k4; lia).
  assert (nth (length a) (a ++ replicate k4 46) 0 = 46) as -> by apply nth_middle. cbn [Z.eqb Pos.eqb].
  rewrite drop_app_length, strspn_all by (apply Forall_replicate; done).
  replace (length a + k4 - length a)%nat with k4 by lia.
  rewrite length_replicate, Nat.eqb_refl. cbn [negb].
  eapply faults_after; [eapply str_to_bi_spec; [done | by apply (numeral_app a) | exact HO]|].
  intros n s1 _. apply faults_fail.
Qed.

Lemma parse_arg_rejects E s arg msg : env_ok E -> owns E s [] [] -> rejected arg msg ->
  faults (fun _ => parse_arg arg) s (Exit 1 msg).
Proof.
  intros HE HO [a c t Ha Hc H1 H2 | a t Ha Ht | a k Ha Hk];
    [by apply parse_arg_usage | by apply parse_arg_trailing | by eapply parse_arg_many].
Qed.

Lemma parse_args_rejects E s args mss bad rest msg : env_ok E -> owns E s [] [] -> Forall2 denotes args mss ->
  Forall factorable (concat mss) -> rejected bad msg ->
  faults (fun _ => parse_args (args ++ bad :: rest)) s (Exit 1 msg).
Proof.
  intros HE HO Hd. revert E s HE HO. induction Hd as [|arg ms args mss Hd _ IH]; intros E s HE HO Hf Hr; cbn [app parse_args].
  - apply faults_bind. by eapply parse_arg_rejects.
  - cbn [concat] in *. apply Forall_app in Hf as [Hf1 Hf2].
    eapply faults_after; [by eapply (parse_arg_spec E s arg ms)|]. cbn beta. intros _ s1 (l1 & _ & HO1).
    by eapply (IH (printed (concat l1) E)); [apply printed_ok | | |].
Qed.

(** A line of standard input reaches [parse_arg] with its newline. *)
Lemma stdin_line E s a rest : env_ok E -> owns E s [] [] -> (length a < 999)%nat ->
  Forall (fun x => is_digit x = true) a -> input (e_world E) = a ++ 10 :: rest ->
  faults stdin_loop s (Exit 1 "usage:  %s <int> <int>-<int> ...").
Proof.
  intros HE HO Hn Ha Hi. eapply faults_unfold; [intros n; reflexivity|]. cbn beta.
  eapply faults_after; [by eapply fgets_line|]. cbn beta. intros buf s1 (-> & HO1).
  rewrite c_string_digits by done.
  destruct (a ++ [10]) as [|c0 l0] eqn:El; [by destruct a|].
  apply faults_bind. by apply parse_arg_usage.
Qed.

(** ** Properties *)

(** [bi_factor] with arguments: one line for each number they denote, in order, and
    each line is the factorization of its number; an argument that is rejected ends
    the program with status 1 after the lines of those before it. *)
Lemma main_correct args mss g w : Forall2 denotes args mss -> Forall factorable (concat mss) ->
  (args <> [] -> wp (fun _ => main args) (initial_state g w) (fun _ s => exists lines,
    Forall2 factor_line (concat mss) lines /\ output (the_world s) = rev (concat lines) ++ output w)) /\
  (forall bad rest msg, rejected bad msg ->
    faults (fun _ => main (args ++ bad :: rest)) (initial_state g w) (Exit 1 msg)).
Proof.
  intros Hd Hf. split.
  - intros Hne. destruct args as [|arg args]; [done|]. apply start_spec. intros E s HE Hw HO.
    eapply wp_mono; [by eapply (parse_args_spec _ mss E s [] [])|]. cbn beta. intros _ s' (lines & Hl & HO').
    exists lines. split; [done|]. by rewrite (o_world _ _ _ _ HO'), <- Hw.
  - intros bad rest msg Hr.
    assert (main (args ++ bad :: rest) = (bi_initialize;; bi_no_check;; parse_args (args ++ bad :: rest))) as ->
      by (by destruct args).
    apply start_faults. intros E s HE Hw HO. by eapply parse_args_rejects.
Qed.

(** "360" and "21-22". *)
Lemma main_correct_witness :
  wp (fun _ => main [[51; 54; 48]; [50; 49; 45; 50; 50]]) (initial_state 0 (World (fun _ => 0) 0 [] [])) (fun _ s => exists lines,
    Forall2 factor_line [360; 21; 22] lines /\ output (the_world s) = rev (concat lines) ++ []).
Proof.
  apply (main_correct [[51; 54; 48]; [50; 49; 45; 50; 50]] [[360]; [21; 22]]).
  - apply Forall2_cons. split; [|apply Forall2_cons; split; [|apply Forall2_nil; exact I]].
    + apply (denotes_number [51; 54; 48]). split; [done | repeat constructor].
    + apply (denotes_range [50; 49] [50; 50]); (split; [done | repeat constructor]).
  - repeat constructor; unfold factor_bound; lia.
  - done.
Defined.

(** Numbers on standard input, as the comment in [main] wants them, are all rejected. *)
Lemma stdin_rejected a rest g w : (length a < 999)%nat -> Forall (fun x => is_digit x = true) a ->
  input w = a ++ 10 :: rest ->
  faults (fun _ => main []) (initial_state g w) (Exit 1 "usage:  %s <int> <int>-<int> ...").
Proof.
  intros Hn Ha Hi. apply start_faults. intros E s HE Hw HO. apply faults_with_fuel.
  eapply stdin_line; [done | exact HO | exact Hn | exact Ha | by rewrite Hw].
Qed.
