(* ===== verification/FastLZ.v ===== *)
(** * FastLZ (src/archivers/fastlz/fastlz.c)

    The LZ77 compressor and decompressor of both levels.  fastlz.c includes
    itself twice, with FASTLZ_LEVEL 1 and 2; here the level is a parameter.

    Input buffers are lists of bytes, pointers into them are offsets; a read
    outside the list is a [Bad_pointer] fault.  An output buffer is the list of
    the bytes between [output] and [op], with its capacity; a write past the
    capacity, or a read at or after [op], is the same fault.  So a theorem that
    an operation returns says that every access is in bounds.  The model takes
    the byte-at-a-time branches of FASTLZ_STRICT_ALIGN, which every target but
    32-bit x86 compiles. *)

From Stdlib Require Import ZArith Lia.
From stdpp Require Import base numbers list strings.
From S2P Require Import Prelude.

Open Scope Z_scope.

(** ** Code *)

Definition u32 (z : Z) : Z := z mod 4294967296.
Definition u8 (z : Z) : Z := z mod 256.

Definition MAX_COPY : Z := 32.
Definition MAX_LEN : Z := 264.
Definition MAX_DISTANCE (level : Z) : Z := if level =? 1 then 8192 else 8191.
Definition MAX_FARDISTANCE (level : Z) : Z := 65535 + MAX_DISTANCE level - 1.
Definition HASH_LOG : Z := 13.
Definition HASH_SIZE : Z := Z.shiftl 1 HASH_LOG.
Definition HASH_MASK : Z := HASH_SIZE - 1.

(** The local variables of the two functions that live in memory: the output
    written so far and the hash table (of pointers into the input). *)
Record buffers : Type := Buffers { out : list Z; htab : list Z }.
Definition with_out (o : list Z) (s : buffers) : buffers := Buffers o (htab s).
Definition with_htab (h : list Z) (s : buffers) : buffers := Buffers (out s) h.

Abbreviation M := (prog buffers).

Definition byte_at (l : list Z) (i : Z) : option Z :=
  if i <? 0 then None else l !! Z.to_nat i.

(** [*(output + i)], for bytes already written. *)
Definition read_out (i : Z) : M Z :=
  s ← get_state;
  match byte_at (out s) i with Some b => mret b | None => fail Bad_pointer end.

(** [op - output]. *)
Definition position : M Z := s ← get_state; mret (Z.of_nat (length (out s))).

(** [*(output + i) = b]. *)
Definition poke (i b : Z) : M unit :=
  s ← get_state;
  match byte_at (out s) i with
  | Some _ => set_state (with_out (<[Z.to_nat i := u8 b]> (out s)) s)
  | None => fail Bad_pointer
  end.

(** [op--]. *)
Definition retract : M unit :=
  s ← get_state; set_state (with_out (take (length (out s) - 1) (out s)) s).

Definition htab_get (i : Z) : M Z :=
  s ← get_state;
  match byte_at (htab s) i with Some r => mret r | None => fail Bad_pointer end.
Definition htab_set (i p : Z) : M unit :=
  s ← get_state;
  match byte_at (htab s) i with
  | Some _ => set_state (with_htab (<[Z.to_nat i := p]> (htab s)) s)
  | None => fail Bad_pointer
  end.

Section code.
Context (level : Z) (input : list Z) (cap : Z).

(** [input[i]]. *)
Definition read (i : Z) : M Z :=
  match byte_at input i with Some b => mret b | None => fail Bad_pointer end.

(** [*op++ = b]. *)
Definition emit (b : Z) : M unit :=
  s ← get_state;
  if Z.of_nat (length (out s)) <? cap then set_state (with_out (out s ++ [u8 b]) s)
  else fail Bad_pointer.

Definition FASTLZ_READU16 (p : Z) : M Z :=
  a ← read p; b ← read (p + 1); mret (Z.lor a (Z.shiftl b 8)).

Definition HASH_FUNCTION (p : Z) : M Z :=
  v ← FASTLZ_READU16 p;
  w ← FASTLZ_READU16 (p + 1);
  mret (Z.land (Z.lxor v (Z.lxor w (Z.shiftr v (16 - HASH_LOG)))) HASH_MASK).

(** *** Compressor *)

(** The short-circuit comparison of [k] bytes, [*ref++ != *ip++ || ...]. *)
Fixpoint same_bytes (k : nat) (ref ip : Z) : M bool :=
  match k with
  | O => mret true
  | S k => a ← read ref; b ← read ip; if a =? b then same_bytes k (ref + 1) (ip + 1) else mret false
  end.

(** From the top of the main loop to [match:]; [None] is [goto literal],
    [Some (distance, len, ref)] a match of at least [len] bytes. *)
Definition find_match (ip : Z) : M (option (Z * Z * Z)) :=
  let anchor := ip in
  run ← (if level =? 2 then
           a ← read ip; b ← read (ip - 1);
           if a =? b then u ← FASTLZ_READU16 (ip - 1); v ← FASTLZ_READU16 (ip + 1); mret (u =? v)
           else mret false
         else mret false);
  if run : bool then mret (Some (1, 3, anchor - 1 + 3)) else
  hval ← HASH_FUNCTION ip;
  ref ← htab_get hval;
  let distance := u32 (anchor - ref) in
  htab_set hval anchor;;
  if (distance =? 0) || ((if level =? 1 then MAX_DISTANCE level else MAX_FARDISTANCE level) <=? distance)
  then mret None else
  eq3 ← same_bytes 3 ref ip;
  if negb eq3 then mret None else
  if (level =? 2) && (MAX_DISTANCE level <=? distance) then
    eq2 ← same_bytes 2 (ref + 3) (ip + 3);
    mret (if eq2 : bool then Some (distance, 3 + 2, ref + 3 + 2) else None)
  else mret (Some (distance, 3, ref + 3)).

(** The loop of a run: [while(ip < ip_bound) if( *ref++ != x) break; else ip++;]. *)
Fixpoint run_loop (n : nat) (x ip_bound ref ip : Z) : M Z :=
  match n with
  | O => fail Out_of_fuel
  | S n =>
      if ip <? ip_bound then
        a ← read ref;
        if negb (a =? x) then mret ip else run_loop n x ip_bound (ref + 1) (ip + 1)
      else mret ip
  end.

(** [while(ip < ip_bound) if( *ref++ != *ip++) break;]. *)
Fixpoint match_loop (n : nat) (ip_bound ref ip : Z) : M Z :=
  match n with
  | O => fail Out_of_fuel
  | S n =>
      if ip <? ip_bound then
        a ← read ref; b ← read ip;
        if negb (a =? b) then mret (ip + 1) else match_loop n ip_bound (ref + 1) (ip + 1)
      else mret ip
  end.

(** The eight unrolled comparisons before it. *)
Fixpoint match_unrolled (k : nat) (ip_bound ref ip : Z) : M Z :=
  match k with
  | O => with_fuel (fun n => match_loop n ip_bound ref ip)
  | S k =>
      a ← read ref; b ← read ip;
      if negb (a =? b) then mret (ip + 1) else match_unrolled k ip_bound (ref + 1) (ip + 1)
  end.

(** Where the match ends; [distance] is already biased. *)
Definition extend (ip_bound distance ref ip : Z) : M Z :=
  if distance =? 0 then
    x ← read (ip - 1); with_fuel (fun n => run_loop n x ip_bound ref ip)
  else match_unrolled 8 ip_bound ref ip.

(** [for(len-=7; len >= 255; len-= 255) *op++ = 255;], returning [len]. *)
Fixpoint len_bytes (n : nat) (len : Z) : M Z :=
  match n with
  | O => fail Out_of_fuel
  | S n => if 255 <=? len then emit 255;; len_bytes n (u32 (len - 255)) else mret len
  end.

(** [while(len > MAX_LEN-2) {...}] of level 1, returning [len]. *)
Fixpoint long_matches (n : nat) (distance len : Z) : M Z :=
  match n with
  | O => fail Out_of_fuel
  | S n =>
      if MAX_LEN - 2 <? len then
        emit (Z.shiftl 7 5 + Z.shiftr distance 8);;
        emit (MAX_LEN - 2 - 7 - 2);;
        emit (Z.land distance 255);;
        long_matches n distance (u32 (len - (MAX_LEN - 2)))
      else mret len
  end.

Definition encode_match1 (distance len : Z) : M unit :=
  len ← with_fuel (fun n => long_matches n distance len);
  if len <? 7 then
    emit (Z.shiftl len 5 + Z.shiftr distance 8);;
    emit (Z.land distance 255)
  else
    emit (Z.shiftl 7 5 + Z.shiftr distance 8);;
    emit (len - 7);;
    emit (Z.land distance 255).

Definition encode_match2 (distance len : Z) : M unit :=
  if distance <? MAX_DISTANCE level then
    if len <? 7 then
      emit (Z.shiftl len 5 + Z.shiftr distance 8);;
      emit (Z.land distance 255)
    else
      emit (Z.shiftl 7 5 + Z.shiftr distance 8);;
      len ← with_fuel (fun n => len_bytes n (u32 (len - 7)));
      emit len;;
      emit (Z.land distance 255)
  else
    let distance' := u32 (distance - MAX_DISTANCE level) in
    if len <? 7 then
      emit (Z.shiftl len 5 + 31);;
      emit 255;;
      emit (Z.shiftr distance' 8);;
      emit (Z.land distance' 255)
    else
      emit (Z.shiftl 7 5 + 31);;
      len ← with_fuel (fun n => len_bytes n (u32 (len - 7)));
      emit len;;
      emit 255;;
      emit (Z.shiftr distance' 8);;
      emit (Z.land distance' 255).

Definition encode_match (distance len : Z) : M unit :=
  if level =? 2 then encode_match2 distance len else encode_match1 distance len.

(** "if we have copied something, adjust the copy count", else [op--]. *)
Definition adjust_copy (copy : Z) : M unit :=
  if negb (copy =? 0) then op ← position; poke (op - copy - 1) (copy - 1) else retract.

(** [HASH_FUNCTION(hval,ip); htab[hval] = ip++;]. *)
Definition hash_boundary (ip : Z) : M Z :=
  hval ← HASH_FUNCTION ip; htab_set hval ip;; mret (ip + 1).

(** [copy++] and a new literal header when the run is full; returns [copy]. *)
Definition count_copy (copy : Z) : M Z :=
  let copy := u32 (copy + 1) in
  if copy =? MAX_COPY then emit (MAX_COPY - 1);; mret 0 else mret copy.

Fixpoint main_loop (n : nat) (ip_bound ip_limit ip copy : Z) : M (Z * Z) :=
  match n with
  | O => fail Out_of_fuel
  | S n =>
      if ip <? ip_limit then
        let anchor := ip in
        m ← find_match ip;
        match m with
        | Some (distance, len, ref) =>
            let ip := anchor + len in
            let distance := u32 (distance - 1) in
            ip ← extend ip_bound distance ref ip;
            adjust_copy copy;;
            let ip := ip - 3 in
            let len := u32 (ip - anchor) in
            encode_match distance len;;
            ip ← hash_boundary ip;
            ip ← hash_boundary ip;
            emit (MAX_COPY - 1);;
            main_loop n ip_bound ip_limit ip 0
        | None =>
            b ← read anchor; emit b;;
            copy ← count_copy copy;
            main_loop n ip_bound ip_limit (anchor + 1) copy
        end
      else mret (ip, copy)
  end.

(** "left-over as literal copy"; returns [copy]. *)
Fixpoint leftover_loop (n : nat) (ip_bound ip copy : Z) : M Z :=
  match n with
  | O => fail Out_of_fuel
  | S n =>
      if ip <=? ip_bound then
        b ← read ip; emit b;;
        copy ← count_copy copy;
        leftover_loop n ip_bound (ip + 1) copy
      else mret copy
  end.

(** [while(ip <= ip_bound) *op++ = *ip++;]. *)
Fixpoint copy_loop (n : nat) (ip_bound ip : Z) : M unit :=
  match n with
  | O => fail Out_of_fuel
  | S n => if ip <=? ip_bound then b ← read ip; emit b;; copy_loop n ip_bound (ip + 1) else mret tt
  end.

(** FASTLZ_COMPRESSOR. *)
Definition compressor (len : Z) : M Z :=
  let ip_bound := len - 2 in
  let ip_limit := len - 12 in
  if len <? 4 then
    if negb (len =? 0) then
      emit (len - 1);;
      with_fuel (fun n => copy_loop n (ip_bound + 1) 0);;
      mret (len + 1)
    else mret 0
  else
  s ← get_state;
  set_state (with_htab (replicate (Z.to_nat HASH_SIZE) 0) s);;
  emit (MAX_COPY - 1);;
  b ← read 0; emit b;;
  b ← read 1; emit b;;
  r ← with_fuel (fun n => main_loop n ip_bound ip_limit 2 2);
  copy ← with_fuel (fun n => leftover_loop n (ip_bound + 1) (fst r) (snd r));
  adjust_copy copy;;
  (if level =? 2 then c ← read_out 0; poke 0 (Z.lor c (Z.shiftl 1 5)) else mret tt);;
  position.

(** *** Decompressor *)

(** [for(; len; --len) *op++ = b;]. *)
Fixpoint fill (k : nat) (b : Z) : M unit :=
  match k with
  | O => mret tt
  | S k => emit b;; fill k b
  end.

(** [for(; len; --len) *op++ = *ref++;]. *)
Fixpoint copy_ref (k : nat) (ref : Z) : M unit :=
  match k with
  | O => mret tt
  | S k => b ← read_out ref; emit b;; copy_ref k (ref + 1)
  end.

(** [for(--ctrl; ctrl; ctrl--) *op++ = *ip++;]; returns [ip]. *)
Fixpoint copy_literals (k : nat) (ip : Z) : M Z :=
  match k with
  | O => mret ip
  | S k => b ← read ip; emit b;; copy_literals k (ip + 1)
  end.

(** [do { code = *ip++; len += code; } while (code==255);]; returns [(ip, len)]. *)
Fixpoint len_loop (n : nat) (ip len : Z) : M (Z * Z) :=
  match n with
  | O => fail Out_of_fuel
  | S n =>
      code ← read ip;
      if code =? 255 then len_loop n (ip + 1) (u32 (len + code))
      else mret (ip + 1, u32 (len + code))
  end.

(** The length and offset bytes of a match at [op]; returns [(ip, len, ref)]. *)
Definition match_header1 (ip op ofs len : Z) : M (Z * Z * Z) :=
  let ref := op - ofs in
  r ← (if len =? 7 - 1 then a ← read ip; mret (ip + 1, u32 (len + a)) else mret (ip, len));
  a ← read (fst r);
  mret (fst r + 1, snd r, ref - a).

Definition match_header2 (ip op ofs len : Z) : M (Z * Z * Z) :=
  let ref := op - ofs in
  r ← (if len =? 7 - 1 then with_fuel (fun n => len_loop n ip len) else mret (ip, len));
  let (ip, len) := (r : Z * Z) in
  code ← read ip;
  let ip := ip + 1 in
  let ref := ref - code in
  if (code =? 255) && (ofs =? Z.shiftl 31 8) then
    a ← read ip; b ← read (ip + 1);
    mret (ip + 2, len, op - u32 (Z.shiftl a 8 + b) - MAX_DISTANCE level)
  else mret (ip, len, ref).

(** The body of [do ... while(loop)]: [None] is [return 0], [Some None] leaves
    the loop, [Some (Some (ip, ctrl))] goes round. *)
Definition decode_match (len ip ctrl : Z) : M (option (option (Z * Z))) :=
  op ← position;
  let ofs := Z.shiftl (Z.land ctrl 31) 8 in
  let mlen := u32 (Z.shiftr ctrl 5 - 1) in
  r ← (if level =? 1 then match_header1 ip op ofs mlen else match_header2 ip op ofs mlen);
  let '(ip, mlen, ref) := r in
  if cap <? op + mlen + 3 then mret None else
  if ref - 1 <? 0 then mret None else
  next ← (if ip <? len then c ← read ip; mret (Some (ip + 1, c)) else mret None);
  (if ref =? op then
     b ← read_out (ref - 1); fill 3 b;; fill (Z.to_nat mlen) b
   else
     copy_ref 3 (ref - 1);; copy_ref (Z.to_nat mlen) (ref - 1 + 3));;
  mret (Some next).

Definition decode_literals (len ip ctrl : Z) : M (option (option (Z * Z))) :=
  op ← position;
  let ctrl := u32 (ctrl + 1) in
  if cap <? op + ctrl then mret None else
  if len <? ip + ctrl then mret None else
  ip ← copy_literals (Z.to_nat ctrl) ip;
  if ip <? len then c ← read ip; mret (Some (Some (ip + 1, c))) else mret (Some None).

Fixpoint decode_loop (n : nat) (len ip ctrl : Z) : M Z :=
  match n with
  | O => fail Out_of_fuel
  | S n =>
      r ← (if 32 <=? ctrl then decode_match len ip ctrl else decode_literals len ip ctrl);
      match r with
      | None => mret 0
      | Some None => position
      | Some (Some (ip, ctrl)) => decode_loop n len ip ctrl
      end
  end.

(** FASTLZ_DECOMPRESSOR; [cap] is [maxout]. *)
Definition decompressor (len : Z) : M Z :=
  c ← read 0;
  with_fuel (fun n => decode_loop n len 1 (Z.land c 31)).
End code.

(** *** The interface *)

Definition fastlz1_compress := compressor 1.
Definition fastlz2_compress := compressor 2.
Definition fastlz1_decompress := decompressor 1.
Definition fastlz2_decompress := decompressor 2.

Definition fastlz_compress (input : list Z) (cap len : Z) : M Z :=
  if len <? 65536 then fastlz1_compress input cap len else fastlz2_compress input cap len.

Definition fastlz_compress_level (level : Z) (input : list Z) (cap len : Z) : M Z :=
  if level =? 1 then fastlz1_compress input cap len else
  if level =? 2 then fastlz2_compress input cap len else mret 0.

Definition fastlz_decompress (input : list Z) (len maxout : Z) : M Z :=
  c ← read input 0;
  let level := Z.shiftr c 5 + 1 in
  if level =? 1 then fastlz1_decompress input maxout len else
  if level =? 2 then fastlz2_decompress input maxout len else mret 0.

(** A call with fresh buffers. *)
Definition fresh : buffers := Buffers [] [].
Definition result {A} (fuel : nat) (m : M A) : outcome buffers A := m fuel fresh.

(** ** The code of a block: tokens *)

Inductive token : Type :=
  | Lit (l : list Z)            (** the bytes [l] *)
  | Match (d : Z) (m : nat).    (** [m] bytes, each the one [d] before it *)

(** What a match of [m] bytes at distance [d] appends to the output. *)
Fixpoint copy_back (o : list Z) (d m : nat) : list Z :=
  match m with
  | O => o
  | S m => copy_back (o ++ [o !!! (length o - d)%nat]) d m
  end.

Definition expand (o : list Z) (t : token) : list Z :=
  match t with
  | Lit l => o ++ l
  | Match d m => copy_back o (Z.to_nat d) m
  end.
Definition expand_all (o : list Z) (ts : list token) : list Z := foldl expand o ts.

(** The length bytes of level 2: [len] beyond 7, in units of 255. *)
Definition long_len (len : Z) : list Z :=
  replicate (Z.to_nat ((len - 7) / 255)) 255 ++ [(len - 7) mod 255].

(** A match with biased distance [d] and biased length [len]. *)
Definition match_code (level d len : Z) : list Z :=
  if level =? 1 then
    if len <? 7 then [len * 32 + d / 256; d mod 256] else [224 + d / 256; len - 7; d mod 256]
  else if d <? 8191 then
    if len <? 7 then [len * 32 + d / 256; d mod 256]
    else [224 + d / 256] ++ long_len len ++ [d mod 256]
  else
    let d := d - 8191 in
    if len <? 7 then [len * 32 + 31; 255; d / 256; d mod 256]
    else [255] ++ long_len len ++ [255; d / 256; d mod 256].

Definition enc (level : Z) (t : token) : list Z :=
  match t with
  | Lit l => (Z.of_nat (length l) - 1) :: l
  | Match d m => match_code level (d - 1) (Z.of_nat m - 2)
  end.
Definition enc_all (level : Z) (ts : list token) : list Z := concat (map (enc level) ts).

(** The tokens a compressor of this level may use after output [o]. *)
Definition token_ok (level : Z) (o : list Z) (t : token) : Prop :=
  match t with
  | Lit l => (1 <= length l <= 32)%nat
  | Match d m =>
      1 <= d <= Z.of_nat (length o) /\ (3 <= m)%nat /\ Z.of_nat m < 2147483648 /\
      if level =? 1 then d <= 8192 /\ (m <= 264)%nat else d - 1 < 8191 + 65536
  end.
Fixpoint tokens_ok (level : Z) (o : list Z) (ts : list token) : Prop :=
  match ts with
  | [] => True
  | t :: ts => token_ok level o t /\ tokens_ok level (expand o t) ts
  end.

Lemma enc_all_app level ts us : enc_all level (ts ++ us) = enc_all level ts ++ enc_all level us.
Proof. unfold enc_all. by rewrite map_app, concat_app. Qed.

Lemma expand_all_app o ts us : expand_all o (ts ++ us) = expand_all (expand_all o ts) us.
Proof. apply foldl_app. Qed.

Lemma tokens_ok_app level o ts us :
  tokens_ok level o ts -> tokens_ok level (expand_all o ts) us -> tokens_ok level o (ts ++ us).
Proof.
  revert o. induction ts as [|t ts IH]; intros o; simpl; [done|]. intros [Ht Hts] Hus.
  split; [done|]. by apply IH.
Qed.

Lemma copy_back_length o d m : length (copy_back o d m) = (length o + m)%nat.
Proof. revert o. induction m as [|m IH]; intros o; simpl; [lia|]. rewrite IH, length_app. simpl. lia. Qed.

Lemma copy_back_add o d m k : copy_back (copy_back o d m) d k = copy_back o d (m + k).
Proof. revert o. induction m as [|m IH]; intros o; simpl; [done|]. apply IH. Qed.

Lemma take_snoc (l : list Z) i : (i < length l)%nat -> take i l ++ [l !!! i] = take (S i) l.
Proof. intros H. destruct (lookup_lt_is_Some_2 l i H) as (x & Hx).
  by rewrite (take_S_r l i x Hx), (list_lookup_total_correct _ _ _ Hx). Qed.

(** A repetition in the input is a match. *)
Lemma copy_back_take (x : list Z) a d m :
  (1 <= d <= a)%nat -> (a + m <= length x)%nat ->
  (forall i, (a <= i < a + m)%nat -> x !!! i = x !!! (i - d)%nat) ->
  copy_back (take a x) d m = take (a + m) x.
Proof.
  revert a. induction m as [|m IH]; intros a Hd Hm Hx; simpl; [by rewrite Nat.add_0_r|].
  rewrite length_take, Nat.min_l by lia.
  assert (take a x !!! (a - d)%nat = x !!! a) as ->.
  { rewrite lookup_total_take, decide_True by lia. symmetry. apply Hx. lia. }
  rewrite take_snoc by lia. rewrite IH by (try intros; try apply Hx; lia). f_equal. lia.
Qed.

(** Header bytes. *)
Lemma ctrl_len l h : 0 <= h < 32 -> Z.shiftr (l * 32 + h) 5 = l.
Proof.
  intros H. rewrite Z.shiftr_div_pow2 by lia. change (2 ^ 5) with 32.
  rewrite Z.div_add_l by lia. rewrite (Z.div_small h) by lia. lia.
Qed.

Lemma ctrl_ofs l h : 0 <= h < 32 -> Z.land (l * 32 + h) 31 = h.
Proof.
  intros H. change 31 with (Z.ones 5). rewrite Z.land_ones by lia. change (2 ^ 5) with 32.
  rewrite Z.add_comm, Z.mod_add by lia. by apply Z.mod_small.
Qed.

(** ** Accesses *)

Definition bytes (l : list Z) : Prop := Forall (fun b => 0 <= b < 256) l.

(** The byte at offset [i]. *)
Definition at_ (l : list Z) (i : Z) : Z := l !!! Z.to_nat i.

Lemma byte_at_in l i : 0 <= i < Z.of_nat (length l) -> byte_at l i = Some (at_ l i).
Proof.
  intros H. unfold byte_at, at_. destruct (Z.ltb_spec i 0); [lia|].
  apply list_lookup_lookup_total_lt. lia.
Qed.

Lemma at_byte l i : bytes l -> 0 <= i < Z.of_nat (length l) -> 0 <= at_ l i < 256.
Proof.
  intros Hl Hi. unfold at_.
  apply (Forall_lookup_1 (fun b => 0 <= b < 256) l (Z.to_nat i)); [exact Hl|].
  apply list_lookup_lookup_total_lt. lia.
Qed.

Lemma wp_read_out s i (Q : Z -> buffers -> Prop) :
  0 <= i < Z.of_nat (length (out s)) -> Q (at_ (out s) i) s -> wp (fun _ => read_out i) s Q.
Proof.
  intros Hi HQ. unfold read_out. apply wp_bind, wp_get_state. rewrite byte_at_in by done. by apply wp_ret.
Qed.

Lemma wp_position s (Q : Z -> buffers -> Prop) :
  Q (Z.of_nat (length (out s))) s -> wp (fun _ => position) s Q.
Proof. intros HQ. apply wp_bind, wp_get_state, wp_ret, HQ. Qed.

Lemma wp_poke s i b (Q : unit -> buffers -> Prop) :
  0 <= i < Z.of_nat (length (out s)) -> Q tt (with_out (<[Z.to_nat i := u8 b]> (out s)) s) ->
  wp (fun _ => poke i b) s Q.
Proof.
  intros Hi HQ. unfold poke. apply wp_bind, wp_get_state. rewrite byte_at_in by done. by apply wp_set_state.
Qed.

Lemma u8_id b : 0 <= b < 256 -> u8 b = b.
Proof. apply Z.mod_small. Qed.

Lemma u32_id b : 0 <= b < 4294967296 -> u32 b = b.
Proof. apply Z.mod_small. Qed.

Section accesses.
Context (input : list Z) (cap : Z).


Lemma wp_read s i (Q : Z -> buffers -> Prop) :
  0 <= i < Z.of_nat (length input) -> Q (at_ input i) s -> wp (fun _ => read input i) s Q.
Proof. intros Hi HQ. unfold read. rewrite byte_at_in by done. by apply wp_ret. Qed.

(** [p] appends [bs] to the output and returns [r], when there is room. *)
Definition emits {A} (p : nat -> M A) (bs : list Z) (r : A) : Prop :=
  forall s, Z.of_nat (length (out s)) + Z.of_nat (length bs) <= cap ->
    wp p s (fun a s' => a = r /\ s' = with_out (out s ++ bs) s).

Lemma emits_ret {A} (r : A) : emits (fun _ => mret r) [] r.
Proof. intros s _. apply wp_ret. split; [done|]. rewrite app_nil_r. by destruct s. Qed.

Lemma emits_emit b : 0 <= b < 256 -> emits (fun _ => emit cap b) [b] tt.
Proof.
  intros Hb s Hs. simpl in Hs. unfold emit. apply wp_bind, wp_get_state.
  destruct (Z.ltb_spec (Z.of_nat (length (out s))) cap); [|lia].
  apply wp_set_state. by rewrite u8_id.
Qed.

Lemma emits_bind {A B} (p : nat -> M A) (q : nat -> A -> M B) bs cs a b :
  emits p bs a -> emits (fun n => q n a) cs b -> emits (fun n => p n ≫= q n) (bs ++ cs) b.
Proof.
  intros Hp Hq s Hs. rewrite length_app in Hs. eapply wp_call; [apply Hp; lia|]. cbn beta.
  intros _ s1 [-> ->]. eapply wp_mono; [apply Hq|].
  - unfold with_out. cbn [out]. rewrite length_app. lia.
  - cbn beta. intros _ s2 [-> ->]. unfold with_out. cbn [out htab]. by rewrite app_assoc.
Qed.

Lemma emits_cons {A} b (q : nat -> M A) cs r :
  0 <= b < 256 -> emits q cs r -> emits (fun n => emit cap b;; q n) (b :: cs) r.
Proof. intros Hb Hq. eapply (emits_bind _ (fun n _ => q n) [b]); [by apply emits_emit | done]. Qed.

Lemma emits_unfold {A} (p q : nat -> M A) bs r :
  (forall n, p (S n) = q n) -> emits q bs r -> emits p bs r.
Proof. intros E Hq s Hs. eapply wp_unfold; [exact E|]. by apply Hq. Qed.

Lemma emits_with_fuel {A} (p : nat -> M A) bs r : emits p bs r -> emits (fun _ => with_fuel p) bs r.
Proof. intros Hp s Hs. by apply wp_with_fuel, Hp. Qed.
End accesses.

(** ** The code of a match *)

Lemma shiftl5 z : Z.shiftl z 5 = z * 32.
Proof. by rewrite Z.shiftl_mul_pow2. Qed.
Lemma shiftr8 z : Z.shiftr z 8 = z / 256.
Proof. by rewrite Z.shiftr_div_pow2. Qed.
Lemma land255 z : Z.land z 255 = z mod 256.
Proof. change 255 with (Z.ones 8). by rewrite Z.land_ones. Qed.

Lemma div256 d k : 0 <= d < 256 * k -> 0 <= d / 256 < k.
Proof. intros H. split; [apply Z.div_pos; lia | apply Z.div_lt_upper_bound; lia]. Qed.

Section match_emission.
Context (cap : Z).

(** [256*q + r] and its quotient and remainder, for the loops below. *)
Lemma emits_len_bytes q r :
  0 <= r < 255 -> 255 * Z.of_nat q + r < 4294967296 ->
  emits cap (fun n => len_bytes cap n (255 * Z.of_nat q + r)) (replicate q 255) r.
Proof.
  intros Hr. induction q as [|q IH]; intros Hq.
  - eapply emits_unfold; [intros n; cbn [len_bytes]; reflexivity|]. cbv beta. destruct (Z.leb_spec 255 (255 * Z.of_nat 0 + r)); [lia|].
    replace (255 * Z.of_nat 0 + r) with r by lia. apply emits_ret.
  - eapply emits_unfold; [intros n; cbn [len_bytes]; reflexivity|]. cbv beta. destruct (Z.leb_spec 255 (255 * Z.of_nat (S q) + r)); [|lia].
    cbn [replicate]. apply emits_cons; [lia|]. rewrite u32_id by lia.
    replace (255 * Z.of_nat (S q) + r - 255) with (255 * Z.of_nat q + r) by lia. apply IH. lia.
Qed.

Lemma emits_long_len {A} len (q : nat -> Z -> M A) cs r :
  7 <= len < 4294967296 ->
  emits cap (fun n => emit cap ((len - 7) mod 255);; q n ((len - 7) mod 255)) ((len - 7) mod 255 :: cs) r ->
  emits cap (fun n => len ← with_fuel (fun n => len_bytes cap n (u32 (len - 7))); emit cap len;; q n len)
    (long_len len ++ cs) r.
Proof.
  intros Hlen Hq. unfold long_len. rewrite <- app_assoc. rewrite u32_id by lia.
  pose proof (Z.mod_pos_bound (len - 7) 255 ltac:(lia)). pose proof (Z.div_mod (len - 7) 255 ltac:(lia)).
  pose proof (Z.div_pos (len - 7) 255 ltac:(lia) ltac:(lia)).
  eapply (emits_bind cap _ (fun n len => emit cap len;; q n len)); [|exact Hq].
  apply emits_with_fuel.
  pose proof (emits_len_bytes (Z.to_nat ((len - 7) / 255)) ((len - 7) mod 255) ltac:(lia) ltac:(lia)) as E.
  replace (255 * Z.of_nat (Z.to_nat ((len - 7) / 255)) + (len - 7) mod 255) with (len - 7) in E by lia.
  exact E.
Qed.

Lemma emits_long_matches d k r :
  0 <= d < 8192 -> 1 <= r <= 262 -> 262 * Z.of_nat k + r < 4294967296 ->
  emits cap (fun n => long_matches cap n d (262 * Z.of_nat k + r))
    (concat (replicate k (match_code 1 d 260))) r.
Proof.
  intros Hd Hr. pose proof (div256 d 32 ltac:(lia)). pose proof (Z.mod_pos_bound d 256 ltac:(lia)).
  induction k as [|k IH]; intros Hk; (eapply emits_unfold; [intros n; cbn [long_matches]; reflexivity|]); cbv beta; change (MAX_LEN - 2) with 262.
  - destruct (Z.ltb_spec 262 (262 * Z.of_nat 0 + r)); [lia|].
    replace (262 * Z.of_nat 0 + r) with r by lia. apply emits_ret.
  - destruct (Z.ltb_spec 262 (262 * Z.of_nat (S k) + r)); [|lia].
    cbn [replicate concat match_code Z.eqb Z.ltb Pos.eqb Z.compare Pos.compare Pos.compare_cont app].
    rewrite shiftl5, shiftr8, land255.
    apply emits_cons; [lia|]. apply emits_cons; [lia|]. apply emits_cons; [lia|].
    rewrite u32_id by lia. replace (262 * Z.of_nat (S k) + r - 262) with (262 * Z.of_nat k + r) by lia.
    apply IH. lia.
Qed.

Lemma emits_match_code1 d len :
  0 <= d < 8192 -> 1 <= len <= 262 ->
  emits cap (fun _ => if len <? 7 then
      emit cap (Z.shiftl len 5 + Z.shiftr d 8);; emit cap (Z.land d 255)
    else emit cap (Z.shiftl 7 5 + Z.shiftr d 8);; emit cap (len - 7);; emit cap (Z.land d 255))
    (match_code 1 d len) tt.
Proof.
  intros Hd Hl. pose proof (div256 d 32 ltac:(lia)). pose proof (Z.mod_pos_bound d 256 ltac:(lia)).
  unfold match_code. change (1 =? 1) with true. rewrite !shiftl5, shiftr8, land255.
  destruct (Z.ltb_spec len 7); repeat (apply emits_cons; [lia|]); apply emits_emit; lia.
Qed.

Lemma emits_match_code2 d len :
  0 <= d < 8191 + 65536 -> 1 <= len < 4294967296 ->
  emits cap (fun _ => encode_match2 2 cap d len) (match_code 2 d len) tt.
Proof.
  intros Hd Hl. unfold encode_match2, match_code. change (MAX_DISTANCE 2) with 8191.
  change (2 =? 1) with false. cbn zeta.
  pose proof (Z.mod_pos_bound (len - 7) 255 ltac:(lia)).
  destruct (Z.ltb_spec d 8191).
  - pose proof (div256 d 32 ltac:(lia)). pose proof (Z.mod_pos_bound d 256 ltac:(lia)).
    rewrite !shiftl5, shiftr8, land255.
    destruct (Z.ltb_spec len 7).
    + apply emits_cons; [lia|]. apply emits_emit; lia.
    + apply emits_cons; [lia|].
      apply (emits_long_len len (fun _ _ => emit cap (d mod 256))); [lia|].
      apply emits_cons; [lia|]. apply emits_emit; lia.
  - rewrite u32_id by lia. pose proof (div256 (d - 8191) 256 ltac:(lia)).
    pose proof (Z.mod_pos_bound (d - 8191) 256 ltac:(lia)).
    rewrite !shiftl5, shiftr8, land255.
    destruct (Z.ltb_spec len 7).
    + repeat (apply emits_cons; [lia|]). apply emits_emit; lia.
    + apply emits_cons; [lia|].
      apply (emits_long_len len (fun _ _ => emit cap 255;; emit cap ((d - 8191) / 256);;
        emit cap ((d - 8191) mod 256))); [lia|].
      repeat (apply emits_cons; [lia|]). apply emits_emit; lia.
Qed.

Lemma enc_match level d len :
  0 <= len -> enc level (Match (d + 1) (Z.to_nat (len + 2))) = match_code level d len.
Proof. intros H. unfold enc. replace (d + 1 - 1) with d by lia. f_equal. lia. Qed.

Lemma repeated_matches level o d m k :
  d < Z.of_nat (length o) -> token_ok level o (Match (d + 1) m) ->
  let ts := replicate k (Match (d + 1) m) in
  tokens_ok level o ts /\ expand_all o ts = copy_back o (Z.to_nat (d + 1)) (k * m).
Proof.
  intros Ho Hok. cbn zeta. revert o Ho Hok. induction k as [|k IH]; intros o Ho Hok; [done|].
  cbn [replicate tokens_ok expand_all foldl expand].
  destruct (IH (copy_back o (Z.to_nat (d + 1)) m)) as [H1 H2].
  - rewrite copy_back_length. lia.
  - cbn [token_ok] in *. rewrite copy_back_length. destruct Hok as (? & ? & ? & ?). repeat split; (lia || done).
  - split; [done|]. unfold expand_all in H2. by rewrite H2, copy_back_add.
Qed.

Lemma match_code1_length d len : 1 <= len <= 262 ->
  Z.of_nat (length (match_code 1 d len)) <= 3 /\ Z.of_nat (length (match_code 1 d len)) + 1 <= len + 2.
Proof. intros H. unfold match_code. destruct (Z.ltb_spec len 7); simpl; lia. Qed.

Lemma long_len_length len : 7 <= len -> Z.of_nat (length (long_len len)) <= len - 6.
Proof.
  intros H. unfold long_len. rewrite length_app, length_replicate. simpl.
  pose proof (Z.div_mod (len - 7) 255 ltac:(lia)). pose proof (Z.mod_pos_bound (len - 7) 255 ltac:(lia)).
  pose proof (Z.div_pos (len - 7) 255 ltac:(lia) ltac:(lia)). lia.
Qed.

Lemma match_code2_length d len : 1 <= len -> (8191 <= d -> 3 <= len) ->
  Z.of_nat (length (match_code 2 d len)) + 1 <= len + 2.
Proof.
  intros H Hf. unfold match_code. pose proof (long_len_length len) as Hll.
  change (2 =? 1) with false. cbn zeta.
  destruct (Z.ltb_spec d 8191), (Z.ltb_spec len 7); rewrite ?length_app, ?Nat2Z.inj_add; cbn [length]; lia.
Qed.

Lemma long_chunks d k :
  enc_all 1 (replicate k (Match (d + 1) 262)) = concat (replicate k (match_code 1 d 260)) /\
  Z.of_nat (length (concat (replicate k (match_code 1 d 260)))) = 3 * Z.of_nat k.
Proof.
  split.
  - unfold enc_all. f_equal. induction k as [|k IH]; [done|]. cbn [replicate map]. rewrite IH.
    f_equal. unfold enc. by replace (d + 1 - 1) with d by lia.
  - induction k as [|k IH]; [done|]. cbn [replicate concat]. rewrite length_app, Nat2Z.inj_add, IH.
    simpl length. lia.
Qed.

(** [encode_match] writes the code of matches that together copy [len + 2]
    bytes, and they are shorter than what they copy. *)
Definition encodes_match (level d len : Z) (p : nat -> M unit) : Prop :=
  exists ts, emits cap p (enc_all level ts) tt /\
    Z.of_nat (length (enc_all level ts)) + 1 <= len + 2 /\
    forall o, d < Z.of_nat (length o) -> tokens_ok level o ts /\
      expand_all o ts = copy_back o (Z.to_nat (d + 1)) (Z.to_nat (len + 2)).

Lemma encode_match1_spec d len :
  0 <= d < 8192 -> 1 <= len < 2147483640 -> encodes_match 1 d len (fun _ => encode_match1 cap d len).
Proof.
  intros Hd Hl. pose proof (Z.div_mod (len - 1) 262 ltac:(lia)) as Ek.
  pose proof (Z.mod_pos_bound (len - 1) 262 ltac:(lia)). pose proof (Z.div_pos (len - 1) 262 ltac:(lia) ltac:(lia)).
  set (k := Z.to_nat ((len - 1) / 262)). set (r := (len - 1) mod 262 + 1).
  assert (len = 262 * Z.of_nat k + r) as El by lia. assert (1 <= r <= 262) as Hr by lia. clearbody k r. clear Ek.
  destruct (long_chunks d k) as [Ec Lc]. pose proof (match_code1_length d r Hr) as Lr.
  exists (replicate k (Match (d + 1) 262) ++ [Match (d + 1) (Z.to_nat (r + 2))]).
  assert (enc_all 1 [Match (d + 1) (Z.to_nat (r + 2))] = match_code 1 d r) as E1.
  { unfold enc_all. cbn [map concat]. rewrite app_nil_r, enc_match by lia. done. }
  rewrite enc_all_app, Ec, E1. split; [|split].
  - unfold encode_match1. rewrite El. eapply emits_bind; [|by apply emits_match_code1].
    apply emits_with_fuel, emits_long_matches; lia.
  - rewrite length_app, Nat2Z.inj_add, Lc. lia.
  - intros o Ho. destruct (repeated_matches 1 o d 262 k Ho) as [H1 H2]; [cbn; lia|].
    split.
    + apply tokens_ok_app; [done|]. rewrite H2. cbn. rewrite copy_back_length. lia.
    + rewrite expand_all_app, H2. cbn. rewrite copy_back_add. f_equal. lia.
Qed.

Lemma encode_match2_spec d len :
  0 <= d < 8191 + 65536 -> 1 <= len < 2147483640 -> (8191 <= d -> 3 <= len) ->
  encodes_match 2 d len (fun _ => encode_match2 2 cap d len).
Proof.
  intros Hd Hl Hf. exists [Match (d + 1) (Z.to_nat (len + 2))].
  assert (enc_all 2 [Match (d + 1) (Z.to_nat (len + 2))] = match_code 2 d len) as E1.
  { unfold enc_all. cbn [map concat]. rewrite app_nil_r, enc_match by lia. done. }
  rewrite E1. split; [by apply emits_match_code2; lia|]. split; [by apply match_code2_length; lia|].
  intros o Ho. split; [|done]. cbn. lia.
Qed.

Lemma encode_match_spec level d len :
  level = 1 \/ level = 2 ->
  0 <= d < (if level =? 1 then 8192 else 8191 + 65535) -> 1 <= len < 2147483640 ->
  (level = 2 -> 8191 <= d -> 3 <= len) ->
  encodes_match level d len (fun _ => encode_match level cap d len).
Proof.
  intros [-> | ->] Hd Hl Hf; unfold encode_match.
  - by apply encode_match1_spec.
  - apply encode_match2_spec; [change (2 =? 1) with false in Hd; lia | done | auto].
Qed.
End match_emission.

(** ** Finding matches *)

(** The hash table: of the size allocated, with pointers before [b]. *)
Definition htab_ok (b : Z) (s : buffers) : Prop :=
  Z.of_nat (length (htab s)) = 8192 /\ Forall (fun h => 0 <= h < b) (htab s).

Lemma htab_ok_mono a b s : a <= b -> htab_ok a s -> htab_ok b s.
Proof. intros Hab [H1 H2]. split; [done|]. eapply Forall_impl; [exact H2|]. cbn. intros x ?. lia. Qed.

Lemma wp_htab_get b s i (Q : Z -> buffers -> Prop) :
  htab_ok b s -> 0 <= i < 8192 -> (forall r, 0 <= r < b -> Q r s) -> wp (fun _ => htab_get i) s Q.
Proof.
  intros [H1 H2] Hi HQ. unfold htab_get. apply wp_bind, wp_get_state.
  rewrite byte_at_in by lia. apply wp_ret, HQ. unfold at_.
  apply (Forall_lookup_1 (fun h => 0 <= h < b) (htab s) (Z.to_nat i)); [exact H2|].
  apply list_lookup_lookup_total_lt. lia.
Qed.

Lemma wp_htab_set b s i p (Q : unit -> buffers -> Prop) :
  htab_ok b s -> 0 <= i < 8192 -> 0 <= p < b ->
  (forall h, htab_ok b (with_htab h s) -> Q tt (with_htab h s)) -> wp (fun _ => htab_set i p) s Q.
Proof.
  intros [H1 H2] Hi Hp HQ. unfold htab_set. apply wp_bind, wp_get_state.
  rewrite byte_at_in by lia. apply wp_set_state, HQ. split; cbn [htab with_htab].
  - by rewrite length_insert.
  - by apply Forall_insert.
Qed.

(** [m] bytes from [a] on repeat those [d] before them. *)
Definition repeats (input : list Z) (a m d : Z) : Prop :=
  forall i, a <= i < a + m -> at_ input i = at_ input (i - d).

Lemma repeats_snoc input a m d : 0 <= m ->
  repeats input a m d -> at_ input (a + m) = at_ input (a + m - d) -> repeats input a (m + 1) d.
Proof.
  intros Hm Hr He i Hi. destruct (decide (i = a + m)) as [->|]; [done|]. apply Hr. lia.
Qed.

Section finding.
(** [N] is the argument [length]; the buffer may be longer. *)
Context (level : Z) (input : list Z) (N : Z) (HNi : N <= Z.of_nat (length input)).

Lemma wp_readu16 {s} p (Q : Z -> buffers -> Prop) :
  0 <= p -> p + 1 < N ->
  Q (Z.lor (at_ input p) (Z.shiftl (at_ input (p + 1)) 8)) s -> wp (fun _ => FASTLZ_READU16 input p) s Q.
Proof.
  intros Hp HN HQ. unfold FASTLZ_READU16. apply wp_bind, wp_read; [lia|].
  apply wp_bind, wp_read; [lia|]. by apply wp_ret.
Qed.

Lemma wp_hash {s} p (Q : Z -> buffers -> Prop) :
  0 <= p -> p + 2 < N -> (forall h, 0 <= h < 8192 -> Q h s) -> wp (fun _ => HASH_FUNCTION input p) s Q.
Proof.
  intros Hp HN HQ. unfold HASH_FUNCTION. apply wp_bind, wp_readu16; [lia..|].
  apply wp_bind, wp_readu16; [lia..|]. apply wp_ret, HQ.
  change HASH_MASK with (Z.ones 13). rewrite Z.land_ones by lia. apply Z.mod_pos_bound. lia.
Qed.

Lemma wp_same_bytes k s ref ip (Q : bool -> buffers -> Prop) :
  0 <= ref -> ref + Z.of_nat k <= N -> 0 <= ip -> ip + Z.of_nat k <= N ->
  (forall b, (b = true -> repeats input ip (Z.of_nat k) (ip - ref)) -> Q b s) ->
  wp (fun _ => same_bytes input k ref ip) s Q.
Proof.
  revert ref ip Q. induction k as [|k IH]; intros ref ip Q Hr HrN Hi HiN HQ; cbn [same_bytes].
  - apply wp_ret, HQ. intros _ i Hlt. lia.
  - apply wp_bind, wp_read; [lia|]. apply wp_bind, wp_read; [lia|].
    destruct (Z.eqb_spec (at_ input ref) (at_ input ip)) as [E|E]; [|by apply wp_ret, HQ].
    apply IH; [lia..|]. intros b Hb. apply HQ. intros Hbt i Hlt.
    destruct (decide (i = ip)) as [->|]; [by replace (ip - (ip - ref)) with ref by lia|].
    rewrite (Hb Hbt) by lia. f_equal. lia.
Qed.

(** A candidate match of at least [l] bytes at distance [d]. *)
Definition candidate (ip d l ref : Z) : Prop :=
  ref = ip + l - d /\ 1 <= d <= ip /\ (l = 3 \/ l = 5) /\ repeats input ip l d /\
  (if level =? 1 then d < 8192 /\ l = 3 else d < 65535 + 8191 - 1 /\ (8191 <= d -> l = 5)).

Lemma find_match_spec s ip (Hlv : level = 1 \/ level = 2) :
  bytes input -> 1 <= ip -> ip + 12 < N -> N < 2147483648 -> htab_ok ip s ->
  wp (fun _ => find_match level input ip) s (fun r s' =>
    out s' = out s /\ htab_ok (ip + 1) s' /\
    match r with None => True | Some (d, l, ref) => candidate ip d l ref end).
Proof.
  intros Hb Hip HN HN32 Hh. unfold find_match.
  apply wp_bind. eapply wp_mono with (P := fun run s' => s' = s /\ (run = true -> level = 2 /\ repeats input ip 3 1)).
  { destruct (Z.eqb_spec level 2); [|by apply wp_ret].
    apply wp_bind, wp_read; [lia|]. apply wp_bind, wp_read; [lia|].
    destruct (Z.eqb_spec (at_ input ip) (at_ input (ip - 1))) as [E|E]; [|by apply wp_ret].
    apply wp_bind, wp_readu16; [lia..|]. apply wp_bind, wp_readu16; [lia..|]. apply wp_ret.
    split; [done|]. intros Hu%Z.eqb_eq. split; [done|].
    assert (forall i, 0 <= i < N -> 0 <= at_ input i < 256) as Hat by (intros; apply at_byte; [done | lia]).
    rewrite !lor_byte in Hu by (apply Hat; lia).
    pose proof (Hat (ip - 1) ltac:(lia)). pose proof (Hat (ip + 1) ltac:(lia)).
    pose proof (Hat (ip + 1 + 1) ltac:(lia)). replace (ip - 1 + 1) with ip in Hu by lia.
    pose proof (Hat ip ltac:(lia)).
    assert (at_ input (ip - 1) = at_ input (ip + 1) /\ at_ input ip = at_ input (ip + 1 + 1)) as [E1 E2] by lia.
    intros i Hi. assert (i = ip \/ i = ip + 1 \/ i = ip + 1 + 1) as [-> | [-> | ->]] by lia; [done | |].
    - replace (ip + 1 - 1) with ip by lia. congruence.
    - replace (ip + 1 + 1 - 1) with (ip + 1) by lia. congruence. }
  cbn beta. intros run s1 [-> Hrun]. destruct run.
  { destruct (Hrun eq_refl) as [H Hr]. apply wp_ret. split; [done|].
    split; [eapply htab_ok_mono; [|exact Hh]; lia|]. split; [lia|]. split; [lia|]. split; [lia|].
    split; [done|]. rewrite H. cbn [Z.eqb Pos.eqb]. split; lia. }
  apply wp_bind, wp_hash; [lia..|]. intros h Hh1.
  apply wp_bind. eapply wp_htab_get; [exact Hh | done |]. intros ref Href.
  apply wp_bind. eapply (wp_htab_set (ip + 1)); [eapply htab_ok_mono; [|exact Hh]; lia | done | lia |].
  intros t Ht. rewrite u32_id by lia. set (s1 := with_htab t s) in *.
  destruct ((ip - ref =? 0) || _) eqn:Hd; [by apply wp_ret|]. apply orb_false_iff in Hd as [_ Hd].
  apply wp_bind, wp_same_bytes; [lia..|]. intros b3 Hb3. destruct b3; [|by apply wp_ret].
  cbn [negb]. specialize (Hb3 eq_refl). unfold MAX_FARDISTANCE, MAX_DISTANCE in *.
  destruct Hlv as [Hlv | Hlv]; rewrite Hlv in *; cbn [Z.eqb Pos.eqb andb] in *; apply Z.leb_gt in Hd.
  { apply wp_ret. split; [done|]. split; [done|]. unfold candidate. rewrite Hlv. cbn [Z.eqb Pos.eqb].
    split_and!; [lia | lia | lia | by left | exact Hb3 | lia | done]. }
  destruct (Z.leb_spec 8191 (ip - ref)).
  - apply wp_bind, wp_same_bytes; [lia..|]. intros b2 Hb2. apply wp_ret. split; [done|]. split; [done|].
    destruct b2; [|done]. specialize (Hb2 eq_refl). unfold candidate. rewrite Hlv. cbn [Z.eqb Pos.eqb].
    split_and!; try lia.
    intros i Hi. destruct (decide (i < ip + 3)); [by apply Hb3; lia|].
    rewrite Hb2 by lia. f_equal. lia.
  - apply wp_ret. split; [done|]. split; [done|]. unfold candidate. rewrite Hlv. cbn [Z.eqb Pos.eqb].
    split_and!; [lia | lia | lia | by left | exact Hb3 | lia | lia].
Qed.

(** *** How far they go *)

Lemma wp_match_loop s a d ip (Q : Z -> buffers -> Prop) :
  1 <= d <= a -> a <= ip <= N -> repeats input a (ip - a) d ->
  (forall e, ip <= e -> (e <= N - 2 \/ e = ip) -> repeats input a (e - 1 - a) d -> Q e s) ->
  wp (fun n => match_loop input n (N - 2) (ip - d) ip) s Q.
Proof.
  intros Hd. remember (Z.to_nat (N - ip)) as k eqn:Ek. revert ip Ek Q.
  induction k as [k IH] using lt_wf_ind. intros ip -> Q Ha Hr HQ.
  eapply wp_unfold; [intros n; cbn [match_loop]; reflexivity|]. cbv beta.
  destruct (Z.ltb_spec ip (N - 2)).
  - apply wp_bind, wp_read; [lia|]. apply wp_bind, wp_read; [lia|].
    destruct (Z.eqb_spec (at_ input (ip - d)) (at_ input ip)) as [E|E]; cbn [negb].
    + replace (ip - d + 1) with (ip + 1 - d) by lia.
      eapply (IH (Z.to_nat (N - (ip + 1)))); [lia | done | lia | |].
      * replace (ip + 1 - a) with (ip - a + 1) by lia. apply repeats_snoc; [lia | done |].
        replace (a + (ip - a)) with ip by lia. done.
      * intros e He1 He2 He3. apply HQ; [lia | lia | done].
    + apply wp_ret, HQ; [lia | lia |]. by replace (ip + 1 - 1 - a) with (ip - a) by lia.
  - apply wp_ret, HQ; [lia | lia |]. intros i Hi. apply Hr. lia.
Qed.

Lemma wp_match_unrolled k s a d ip (Q : Z -> buffers -> Prop) :
  1 <= d <= a -> a <= ip -> ip + Z.of_nat k <= N -> repeats input a (ip - a) d ->
  (forall e, ip <= e -> ((0 < k)%nat -> ip < e) -> (e <= N - 2 \/ e <= ip + Z.of_nat k) ->
    repeats input a (e - 1 - a) d -> Q e s) ->
  wp (fun _ => match_unrolled input k (N - 2) (ip - d) ip) s Q.
Proof.
  intros Hd. revert ip Q. induction k as [|k IH]; intros ip Q Ha Hk Hr HQ; cbn [match_unrolled].
  - apply wp_with_fuel. apply (wp_match_loop s a); [lia | lia | done |].
    intros e He1 He2 He3. apply HQ; [lia | lia | lia | done].
  - apply wp_bind, wp_read; [lia|]. apply wp_bind, wp_read; [lia|].
    destruct (Z.eqb_spec (at_ input (ip - d)) (at_ input ip)) as [E|E]; cbn [negb].
    + replace (ip - d + 1) with (ip + 1 - d) by lia. apply IH; [lia | lia | |].
      * replace (ip + 1 - a) with (ip - a + 1) by lia. apply repeats_snoc; [lia | done |].
        replace (a + (ip - a)) with ip by lia. done.
      * intros e He1 He2 He3 He4. apply HQ; [lia | lia | lia | done].
    + apply wp_ret, HQ; [lia | lia | lia |]. by replace (ip + 1 - 1 - a) with (ip - a) by lia.
Qed.

(** The run: [x] repeats; [ref] is one behind [ip]. *)
Lemma wp_run_loop s a x ip (Q : Z -> buffers -> Prop) :
  1 <= a -> a < ip <= N - 2 -> (forall i, a - 1 <= i < ip - 1 -> at_ input i = x) ->
  (forall e, ip <= e <= N - 2 -> (at_ input (ip - 1) = x -> ip < N - 2 -> ip < e) ->
    (forall i, a - 1 <= i < e - 1 -> at_ input i = x) -> Q e s) ->
  wp (fun n => run_loop input n x (N - 2) (ip - 1) ip) s Q.
Proof.
  intros H1. remember (Z.to_nat (N - ip)) as k eqn:Ek. revert ip Ek Q.
  induction k as [k IH] using lt_wf_ind. intros ip -> Q Ha Hr HQ.
  eapply wp_unfold; [intros n; cbn [run_loop]; reflexivity|]. cbv beta.
  destruct (Z.ltb_spec ip (N - 2)); [|by apply wp_ret, HQ; [lia | lia |]].
  apply wp_bind, wp_read; [lia|].
  destruct (Z.eqb_spec (at_ input (ip - 1)) x) as [E|E]; cbn [negb].
  - replace (ip - 1 + 1) with (ip + 1 - 1) by lia.
    eapply (IH (Z.to_nat (N - (ip + 1)))); [lia | done | lia | |].
    + intros i Hi. destruct (decide (i = ip - 1)) as [->|]; [done|]. apply Hr. lia.
    + intros e He1 He2 He3. apply HQ; [lia | lia | done].
  - apply wp_ret, HQ; [lia | done | done].
Qed.

(** Where [ip] stands after the comparison, at most one past the first byte that
    differs.  A far match may have been compared up to the end of the buffer. *)
Lemma extend_spec s ip d l ref (Hlv : level = 1 \/ level = 2) :
  ip + 12 < N -> candidate ip d l ref ->
  wp (fun _ => extend input (N - 2) (d - 1) ref (ip + l)) s (fun e s' =>
    s' = s /\ ip + l < e /\ (e <= N - 2 \/ e <= N /\ level = 2) /\ repeats input ip (e - 1 - ip) d).
Proof.
  intros HN (-> & Hd & Hl & Hr & Hc). unfold extend.
  assert (l = 5 -> level = 2) as Hl5.
  { destruct Hlv as [E | E]; rewrite E in Hc; cbn in Hc; lia. }
  destruct (Z.eqb_spec (d - 1) 0) as [E|E].
  - assert (d = 1) as -> by lia. apply wp_bind, wp_read; [lia|]. apply wp_with_fuel.
    set (x := at_ input (ip + l - 1)).
    assert (forall i, ip - 1 <= i < ip + l -> at_ input i = x) as Hx.
    { intros i Hi.
      assert (forall j, 0 <= j <= l -> at_ input (ip - 1 + j) = at_ input (ip - 1)) as Hj.
      { intros j Hj. replace j with (Z.of_nat (Z.to_nat j)) in * by lia. induction (Z.to_nat j) as [|k IH]; [f_equal; lia|].
        rewrite Hr by lia. rewrite <- IH by lia. f_equal. lia. }
      unfold x. replace i with (ip - 1 + (i - ip + 1)) by lia.
      replace (ip + l - 1) with (ip - 1 + l) by lia. rewrite !Hj by lia. done. }
    apply (wp_run_loop s ip); [lia | lia | intros; apply Hx; lia |].
    intros e He1 He2 He3. split; [done|]. split; [apply He2; [done | lia]|]. split; [lia|].
    intros i Hi. rewrite !He3 by lia. done.
  - apply (wp_match_unrolled 8 s ip); [lia | lia | lia | by replace (ip + l - ip) with l by lia |].
    intros e He1 He2 He3 He4. split; [done|]. split; [apply He2; lia|]. split; [|done].
    destruct Hl as [-> | ->]; [left; lia | right; split; [lia | auto]].
Qed.
End finding.

(** ** The compressor *)

Lemma expand_all_length level o ts :
  tokens_ok level o ts -> (length o <= length (expand_all o ts))%nat.
Proof.
  revert o. induction ts as [|t ts IH]; intros o; [done|]. intros [_ H]. cbn [expand_all foldl].
  apply IH in H. unfold expand_all in H. etransitivity; [|exact H].
  destruct t; cbn; rewrite ?length_app, ?copy_back_length; lia.
Qed.

Section compressing.
Context (level : Z) (input : list Z) (N cap : Z).
Context (Hlv : level = 1 \/ level = 2) (Hbytes : bytes input).
Context (HN : 0 <= N < 2147483640) (HNi : N <= Z.of_nat (length input)).
(** Level 2 may read one byte past the input, see [extend_spec]. *)
Context (Hslack : level = 2 -> N < Z.of_nat (length input)).
Context (Hcap : 33 * N + 1 <= 32 * cap).

(** The first token is a literal: its header has room for the level. *)
Definition starts_with_lit (ts : list token) : Prop :=
  match ts with Lit _ :: _ => True | _ => False end.

(** [ts] is the code of the first [n] bytes. *)
Record block (n : Z) (ts : list token) : Prop := Block {
  b_ok : tokens_ok level [] ts;
  b_expand : expand_all [] ts = take (Z.to_nat n) input;
  b_first : starts_with_lit ts;
  b_size : 32 * Z.of_nat (length (enc_all level ts)) <= 33 * n + 32
}.

(** The invariant of the loops: complete tokens, then the header and the bytes of
    a literal of [copy] bytes so far. *)
Definition inv (ip copy : Z) (s : buffers) : Prop :=
  exists ts lits, out s = enc_all level ts ++ 31 :: lits /\
    copy = Z.of_nat (length lits) /\ copy < 32 /\
    tokens_ok level [] ts /\ expand_all [] ts ++ lits = take (Z.to_nat ip) input /\
    (if ts is [] then lits <> [] else starts_with_lit ts) /\
    32 * Z.of_nat (length (enc_all level ts)) <= 33 * Z.of_nat (length (expand_all [] ts)).

Lemma starts_app ts us : starts_with_lit ts -> starts_with_lit (ts ++ us).
Proof. by destruct ts as [|[]]. Qed.

Lemma enc_all_one t : enc_all level [t] = enc level t.
Proof. unfold enc_all. cbn. apply app_nil_r. Qed.

Lemma block_lit ts lits (n : Z) :
  (1 <= length lits <= 32)%nat -> 0 <= n <= N ->
  tokens_ok level [] ts -> expand_all [] ts ++ lits = take (Z.to_nat n) input ->
  (if ts is [] then lits <> [] else starts_with_lit ts) ->
  32 * Z.of_nat (length (enc_all level ts)) <= 33 * Z.of_nat (length (expand_all [] ts)) ->
  block n (ts ++ [Lit lits]).
Proof.
  intros Hl Hn Hok He Hf Hs. split.
  - apply tokens_ok_app; [done|]. by split.
  - by rewrite expand_all_app.
  - destruct ts; [done | by apply starts_app].
  - rewrite enc_all_app, enc_all_one, length_app. cbn [enc length].
    apply (f_equal length) in He. rewrite length_app, length_take in He. lia.
Qed.

Lemma adjust_copy_spec ip copy s :
  0 <= ip <= N -> inv ip copy s ->
  wp (fun _ => adjust_copy copy) s (fun _ s' => exists ts,
    block ip ts /\ out s' = enc_all level ts /\ htab s' = htab s).
Proof.
  intros Hip (ts & lits & Ho & -> & Hc & Hok & He & Hf & Hs). unfold adjust_copy.
  destruct (Z.eqb_spec (Z.of_nat (length lits)) 0) as [E|E]; cbn [negb].
  - apply wp_bind, wp_get_state, wp_set_state. exists ts.
    assert (lits = []) as -> by (destruct lits; [done | simpl in E; lia]).
    rewrite app_nil_r in He. split; [|split; [|done]].
    + split; [done | done | by destruct ts |]. rewrite He, length_take in Hs. lia.
    + cbn [out with_out]. rewrite Ho, length_app. cbn [length].
      replace (length (enc_all level ts) + 1 - 1)%nat with (length (enc_all level ts)) by lia.
      by rewrite take_app_length.
  - apply wp_bind, wp_position. rewrite Ho, length_app. cbn [length].
    replace (Z.of_nat (length (enc_all level ts) + S (length lits)) - Z.of_nat (length lits) - 1)
      with (Z.of_nat (length (enc_all level ts))) by lia.
    apply wp_poke; [rewrite Ho, length_app; cbn [length]; lia|].
    exists (ts ++ [Lit lits]). split; [apply block_lit; auto; lia|]. split; [|done].
    cbn [out with_out]. rewrite Ho, Nat2Z.id, enc_all_app, enc_all_one.
    rewrite insert_app_r_alt, Nat.sub_diag by lia. cbn [enc list_insert].
    by rewrite u8_id by lia.
Qed.

Lemma inv_next ip ts :
  block ip ts -> 32 * Z.of_nat (length (enc_all level ts)) <= 33 * ip -> 0 <= ip <= N ->
  forall s, out s = enc_all level ts ++ [31] -> inv ip 0 s.
Proof.
  intros [H1 H2 H3 H4] Hs Hip s Ho. exists ts, []. split; [done|]. split; [done|]. split; [done|].
  split; [done|]. split; [by rewrite app_nil_r|]. split; [by destruct ts|].
  rewrite H2, length_take. lia.
Qed.

(** One literal byte. *)
Lemma literal_step {A} ip copy s (k : nat -> Z -> M A) Q :
  0 <= ip < N -> inv ip copy s ->
  (forall c s', inv (ip + 1) c s' -> htab s' = htab s -> wp (fun n => k n c) s' Q) ->
  wp (fun n => b ← read input ip; emit cap b;; c ← count_copy cap copy; k n c) s Q.
Proof.
  intros Hip (ts & lits & Ho & -> & Hc & Hok & He & Hf & Hs) Hk.
  assert (length (expand_all [] ts) + length lits = Z.to_nat ip)%nat as El.
  { apply (f_equal length) in He. rewrite length_app, length_take in He. lia. }
  assert (expand_all [] ts ++ lits ++ [at_ input ip] = take (Z.to_nat (ip + 1)) input) as He'.
  { rewrite app_assoc, He. unfold at_. rewrite take_snoc by lia. f_equal. lia. }
  pose proof (at_byte input ip Hbytes ltac:(lia)) as Hb.
  apply wp_bind, wp_read; [lia|]. set (b := at_ input ip) in *.
  eapply wp_call; [apply (emits_emit cap b Hb)|].
  { rewrite Ho, length_app. cbn [length]. lia. }
  cbn beta. intros _ s1 [_ ->]. unfold count_copy. rewrite u32_id by lia.
  destruct (Z.eqb_spec (Z.of_nat (length lits) + 1) MAX_COPY) as [E|E]; unfold MAX_COPY in E.
  - apply wp_bind. eapply wp_call; [apply (emits_emit cap 31 ltac:(lia))|].
    { cbn [out with_out]. rewrite Ho, !length_app. cbn [length]. lia. }
    cbn beta. intros _ s2 [_ ->]. apply wp_ret, Hk; [|done].
    assert (block (ip + 1) (ts ++ [Lit (lits ++ [b])])) as HB.
    { apply block_lit; [rewrite length_app; cbn; lia | lia | done | done | | done].
      destruct ts; [by destruct lits | done]. }
    eapply inv_next; [exact HB | | lia |].
    + rewrite enc_all_app, enc_all_one, length_app. cbn [enc length]. rewrite length_app. cbn [length]. lia.
    + cbn [out with_out]. rewrite Ho, enc_all_app, enc_all_one. cbn [enc].
      rewrite length_app. cbn [length]. replace (Z.of_nat (length lits + 1) - 1) with 31 by lia.
      rewrite <- !app_assoc. cbn [app]. by rewrite <- ?app_assoc.
  - apply wp_bind, wp_ret, Hk; [|done]. exists ts, (lits ++ [b]). cbn [out with_out].
    rewrite Ho, length_app. cbn [length]. split; [by rewrite <- app_assoc|]. split; [lia|]. split; [lia|].
    split; [done|]. split; [done|]. split; [|done]. destruct ts; [by destruct lits | done].
Qed.

Lemma leftover_spec ip copy s :
  0 <= ip <= N -> inv ip copy s ->
  wp (fun n => leftover_loop input cap n (N - 2 + 1) ip copy) s (fun c s' => inv N c s').
Proof.
  remember (Z.to_nat (N - ip)) as k eqn:Ek. revert ip copy s Ek.
  induction k as [|k IH]; intros ip copy s Ek Hip Hinv;
    (eapply wp_unfold; [intros n; cbn [leftover_loop]; reflexivity|]); cbv beta;
    destruct (Z.leb_spec ip (N - 2 + 1)); try lia.
  - apply wp_ret. by replace N with ip by lia.
  - eapply (literal_step ip copy s (fun n c => leftover_loop input cap n (N - 2 + 1) (ip + 1) c));
      [lia | exact Hinv |].
    intros c s1 H1 _. apply IH; [lia | lia | done].
Qed.

Lemma hash_boundary_spec b ip s :
  htab_ok b s -> 0 <= ip < b -> ip + 2 < Z.of_nat (length input) ->
  wp (fun _ => hash_boundary input ip) s (fun r s' => r = ip + 1 /\ out s' = out s /\ htab_ok b s').
Proof.
  intros Hh Hip Hi. unfold hash_boundary. apply wp_bind.
  apply (wp_hash input (Z.of_nat (length input))); [lia | lia | lia |]. intros h Hh1.
  apply wp_bind. eapply wp_htab_set; [exact Hh | done | done |]. intros t Ht. by apply wp_ret.
Qed.

(** One match: from [match:] to [continue]. *)
Lemma match_step {A} ip copy d l ref s (k : nat -> Z -> M A) Q :
  2 <= ip -> ip + 12 < N -> inv ip copy s -> htab_ok (ip + 1) s ->
  candidate level input ip d l ref ->
  (forall ip' s', ip < ip' < N -> inv ip' 0 s' -> htab_ok ip' s' -> wp (fun n => k n ip') s' Q) ->
  wp (fun n =>
    e ← extend input (N - 2) (u32 (d - 1)) ref (ip + l);
    adjust_copy copy;;
    encode_match level cap (u32 (d - 1)) (u32 (e - 3 - ip));;
    ip ← hash_boundary input (e - 3);
    ip ← hash_boundary input ip;
    emit cap (MAX_COPY - 1);; k n ip) s Q.
Proof.
  intros Hip HipN Hinv Hh Hc Hk. pose proof Hc as (_ & Hd & Hl & _ & Hcl).
  rewrite u32_id by lia.
  eapply wp_call; [by apply (extend_spec level input N HNi)|]. cbn beta. intros e s1 (-> & He1 & He2 & Hr).
  eapply wp_call; [by apply (adjust_copy_spec ip); [lia|]|]. cbn beta.
  intros _ s1 (ts & Hb & Ho1 & Hh1). rewrite u32_id by lia.
  destruct (encode_match_spec cap level (d - 1) (e - 3 - ip) Hlv) as (us & Hus & Hul & Hue).
  { destruct Hlv as [E | E]; rewrite E in *; cbn [Z.eqb Pos.eqb] in *; lia. }
  { lia. }
  { intros E ?. rewrite E in Hcl. cbn in Hcl. lia. }
  pose proof (b_size _ _ Hb) as Hs.
  eapply wp_call; [apply Hus; rewrite Ho1; lia|]. cbn beta. intros _ s2 [_ ->].
  assert (htab_ok (e - 1) (with_out (out s1 ++ enc_all level us) s1)) as Hh2.
  { destruct Hh as [Ha Hb']. split; cbn [htab with_out]; rewrite Hh1; [done|].
    eapply Forall_impl; [exact Hb'|]. cbn. intros h ?. lia. }
  eapply wp_call; [eapply (hash_boundary_spec (e - 1)); [exact Hh2 | lia | lia]|].
  cbn beta. intros ip1 s3 (-> & Ho3 & Hh3).
  eapply wp_call; [eapply (hash_boundary_spec (e - 1)); [exact Hh3 | lia | lia]|].
  cbn beta. intros ip2 s4 (-> & Ho4 & Hh4).
  assert (out s4 = enc_all level (ts ++ us)) as Eo.
  { rewrite Ho4, Ho3, enc_all_app. cbn [out with_out]. by rewrite Ho1. }
  assert (32 * Z.of_nat (length (enc_all level (ts ++ us))) <= 33 * (e - 1)) as Hsz.
  { rewrite enc_all_app, length_app. lia. }
  eapply wp_call; [apply (emits_emit cap (MAX_COPY - 1) ltac:(unfold MAX_COPY; lia))|].
  { rewrite Eo. cbn [length]. lia. }
  cbn beta. intros _ s5 [_ ->]. replace (e - 3 + 1 + 1) with (e - 1) by lia. apply Hk; [lia | | done].
  eapply (inv_next (e - 1) (ts ++ us)); [| done | lia | by rewrite <- Eo].
  destruct (Hue (take (Z.to_nat ip) input)) as [Hu1 Hu2]; [rewrite length_take; lia|].
  destruct Hb as [Hb1 Hb2 Hb3 Hb4]. split.
  - apply tokens_ok_app; [done|]. by rewrite Hb2.
  - rewrite expand_all_app, Hb2, Hu2. rewrite copy_back_take.
    + f_equal. lia.
    + lia.
    + lia.
    + intros i Hi. pose proof (Hr (Z.of_nat i) ltac:(lia)) as E. unfold at_ in E.
      rewrite Nat2Z.id in E. rewrite E. f_equal. lia.
  - by apply starts_app.
  - lia.
Qed.

Lemma main_loop_spec ip copy s :
  2 <= ip <= N -> inv ip copy s -> htab_ok ip s ->
  wp (fun n => main_loop level input cap n (N - 2) (N - 12) ip copy) s (fun r s' =>
    0 <= fst r <= N /\ inv (fst r) (snd r) s').
Proof.
  remember (Z.to_nat (N - ip)) as k eqn:Ek. revert ip copy s Ek.
  induction k as [k IH] using lt_wf_ind. intros ip copy s -> Hip Hinv Hh.
  eapply wp_unfold; [intros n; cbn [main_loop]; reflexivity|]. cbv beta.
  destruct (Z.ltb_spec ip (N - 12)); [|apply wp_ret; cbn [fst snd]; split; [lia | done]].
  eapply wp_call; [apply (find_match_spec level input N HNi s ip Hlv Hbytes); (lia || done)|].
  cbn beta. intros m s1 (Ho & Hh1 & Hm).
  assert (inv ip copy s1) as Hinv1.
  { destruct Hinv as (ts & lits & Ho' & Hx). exists ts, lits. by rewrite Ho. }
  destruct m as [[[d l] ref]|].
  - eapply (match_step ip copy d l ref s1 (fun n ip => main_loop level input cap n (N - 2) (N - 12) ip 0));
      [lia | lia | done | done | done |].
    intros ip' s' Hip' Hi Hh'. eapply IH; [|reflexivity | lia | done | done]. lia.
  - eapply (literal_step ip copy s1 (fun n c => main_loop level input cap n (N - 2) (N - 12) (ip + 1) c));
      [lia | done |].
    intros c s' Hi Hh'. eapply IH; [|reflexivity | lia | done |]; [lia|].
    unfold htab_ok in *. by rewrite Hh'.
Qed.
End compressing.

(** The level is in the first header. *)
Definition marked (level : Z) (o : list Z) : list Z :=
  match o with
  | [] => []
  | c :: o => (if level =? 2 then c + 32 else c) :: o
  end.

(** [o] is the block of [x] at this level. *)
Definition encodes (level : Z) (x o : list Z) : Prop :=
  exists ts, tokens_ok level [] ts /\ expand_all [] ts = x /\ starts_with_lit ts /\
    o = marked level (enc_all level ts).

Section compressor.
Context (level : Z) (x pad : list Z) (cap : Z).
Let N := Z.of_nat (length x).
Let input := x ++ pad.
Context (Hlv : level = 1 \/ level = 2) (Hbytes : bytes input).
Context (HN : N < 2147483640) (Hslack : level = 2 -> pad <> []).
Context (Hcap : 33 * N + 1 <= 32 * cap).

Lemma copy_loop_spec ip o s :
  0 <= ip <= N -> o = take (Z.to_nat ip) x -> out s = (N - 1) :: o ->
  wp (fun n => copy_loop input cap n (N - 2 + 1) ip) s (fun _ s' => out s' = (N - 1) :: x).
Proof.
  remember (Z.to_nat (N - ip)) as k eqn:Ek. revert ip o s Ek.
  induction k as [|k IH]; intros ip o s Ek Hip -> Ho;
    (eapply wp_unfold; [intros n; cbn [copy_loop]; reflexivity|]); cbv beta;
    destruct (Z.leb_spec ip (N - 2 + 1)); try lia.
  - apply wp_ret. by rewrite Ho, take_ge by lia.
  - assert (ip < Z.of_nat (length input)) by (unfold input; rewrite length_app; lia).
    apply wp_bind, wp_read; [lia|]. pose proof (at_byte input ip Hbytes ltac:(lia)) as Hb.
    eapply wp_call; [apply emits_emit; [done | rewrite Ho; cbn [length]; rewrite length_take; lia]|].
    cbn beta. intros _ s1 [_ ->]. eapply IH; [lia | lia | reflexivity |]. cbn [out with_out].
    rewrite Ho. cbn [app]. f_equal. unfold at_, input.
    rewrite lookup_total_app_l by lia. rewrite take_snoc by lia. f_equal. lia.
Qed.

Lemma compressor_spec s : out s = [] ->
  wp (fun _ => compressor level input cap N) s (fun r s' =>
    r = Z.of_nat (length (out s')) /\ 32 * r <= 33 * N + 32 /\
    (x = [] /\ r = 0 \/ exists lv, (lv = 1 \/ lv = level) /\ encodes lv x (out s'))).
Proof.
  intros Ho. assert (0 <= N) as HN0 by (unfold N; lia). unfold compressor. destruct (Z.ltb_spec N 4) as [H4|H4].
  { destruct (Z.eqb_spec N 0) as [E|E]; cbn [negb].
    { apply wp_ret. rewrite Ho. split; [done|]. split; [lia|]. left. split; [|done].
      destruct x; [done | simpl in E; unfold N in E; simpl in E; lia]. }
    eapply wp_call; [apply emits_emit; [lia | rewrite Ho; cbn [length]; lia]|].
    cbn beta. intros _ s1 [_ ->]. eapply wp_call; [apply wp_with_fuel, (copy_loop_spec 0 []); [lia | done |]|].
    { cbn [out with_out]. by rewrite Ho. }
    cbn beta. intros _ s2 Ho2. apply wp_ret. rewrite Ho2. cbn [length]. split; [lia|]. split; [lia|].
    right. exists 1. split; [by left|]. exists [Lit x]. split; [cbn; lia|]. split; [done|]. split; [done|].
    unfold enc_all. cbn. by rewrite app_nil_r. }
  apply wp_bind, wp_get_state. apply wp_bind, wp_set_state.
  set (s1 := with_htab _ s).
  assert (N <= Z.of_nat (length input)) as HNi by (unfold input; rewrite length_app; lia).
  assert (level = 2 -> N < Z.of_nat (length input)) as Hsl.
  { intros E. unfold input. rewrite length_app. specialize (Hslack E). destruct pad; [done | cbn; lia]. }
  pose proof (at_byte input 0 Hbytes ltac:(lia)). pose proof (at_byte input 1 Hbytes ltac:(lia)).
  assert (out s1 = []) as Ho1 by done.
  eapply wp_call; [apply emits_emit; [unfold MAX_COPY; lia | rewrite Ho1; cbn [length]; lia]|].
  cbn beta. intros _ s2 [_ ->]. apply wp_bind, wp_read; [lia|].
  eapply wp_call; [apply emits_emit; [lia | cbn [out with_out]; rewrite Ho1; cbn [length app]; lia]|].
  cbn beta. intros _ s2 [_ ->]. apply wp_bind, wp_read; [lia|].
  eapply wp_call; [apply emits_emit; [lia | cbn [out with_out]; rewrite Ho1; cbn [length app]; lia]|].
  cbn beta. intros _ s2 [_ ->]. cbn [out htab with_out]. rewrite Ho1. cbn [app].
  set (s2 := with_out _ _).
  eapply wp_call; [apply wp_with_fuel;
    apply (main_loop_spec level input N cap Hlv Hbytes ltac:(lia) HNi Hsl Hcap); [lia | |]|].
  { exists [], [at_ input 0; at_ input 1]. split; [done|]. split; [done|]. split; [lia|].
    split; [done|]. split; [|split; [done | cbn; lia]].
    destruct input as [|a [|b l]]; [cbn in *; lia.. | done]. }
  { unfold s2, s1. split; cbn [htab with_out with_htab]; [by rewrite length_replicate|].
    apply Forall_replicate. lia. }
  cbn beta. intros r s3 [Hr Hinv].
  eapply wp_call; [apply wp_with_fuel;
    eapply leftover_spec with (N := N); try exact Hinv; (done || lia)|].
  cbn beta. intros c s4 Hinv4.
  eapply wp_call; [eapply adjust_copy_spec with (N := N); try exact Hinv4; (done || lia)|].
  cbn beta. intros _ s5 (ts & [Hok He Hf Hs] & Ho5 & _).
  assert (expand_all [] ts = x) as Hx.
  { rewrite He. unfold input, N. by rewrite Nat2Z.id, take_app_length. }
  destruct ts as [|[l|] ts]; [done | | done].
  assert (exists o, enc_all level (Lit l :: ts) = (Z.of_nat (length l) - 1) :: o) as (o & Eo) by (by eexists).
  assert (1 <= Z.of_nat (length l) <= 32) as Hl by (destruct Hok as [Hok _]; cbn in Hok; lia).
  rewrite Eo in *. cbn [length] in Hs.
  assert (forall s', out s' = marked level (out s5) -> wp (fun _ => position) s' (fun r s' =>
    r = Z.of_nat (length (out s')) /\ 32 * r <= 33 * N + 32 /\
    (x = [] /\ r = 0 \/ exists lv, (lv = 1 \/ lv = level) /\ encodes lv x (out s')))) as Hend.
  { intros s' Hs'. apply wp_position. rewrite Hs', Ho5. split; [done|]. split; [cbn [marked length]; lia|].
    right. exists level. split; [by right|]. exists (Lit l :: ts). by rewrite Eo. }
  destruct (Z.eqb_spec level 2) as [E2|E2].
  - apply wp_bind, wp_bind, wp_read_out; [rewrite Ho5; cbn [length]; lia|].
    apply wp_poke; [rewrite Ho5; cbn [length]; lia|]. apply Hend. rewrite Ho5.
    change (at_ (_ :: o) 0) with (Z.of_nat (length l) - 1). cbn [out with_out marked].
    rewrite E2. change (2 =? 2) with true. rewrite (lor_shiftl 5) by lia. change (2 ^ 5 * 1) with 32. by rewrite u8_id by lia.
  - apply wp_bind, wp_ret, Hend. rewrite Ho5. cbn [marked].
    by destruct (Z.eqb_spec level 2).
Qed.
End compressor.

(** ** The decompressor *)

Section copying.
Context (cap : Z).

Lemma last_byte o b : o <> [] -> at_ o (Z.of_nat (length o) - 1) = b ->
  o !!! (length o - 1)%nat = b.
Proof. intros Ho <-. unfold at_. f_equal. destruct o; [done | simpl; lia]. Qed.

Lemma fill_spec k b s :
  0 <= b < 256 -> out s <> [] -> out s !!! (length (out s) - 1)%nat = b ->
  Z.of_nat (length (out s)) + Z.of_nat k <= cap ->
  wp (fun _ => fill cap k b) s (fun _ s' => out s' = copy_back (out s) 1 k).
Proof.
  intros Hb. revert s. induction k as [|k IH]; intros s Hne Hl Hc; cbn [fill copy_back]; [by apply wp_ret|].
  eapply wp_call; [apply emits_emit; [done | cbn [length]; lia]|]. cbn beta. intros _ s1 [_ ->].
  rewrite Hl. change (out s ++ [b]) with (out (with_out (out s ++ [b]) s)). apply IH; cbn [out with_out].
  - by destruct (out s).
  - rewrite length_app. cbn [length]. replace (length (out s) + 1 - 1)%nat with (length (out s)) by lia.
    by rewrite lookup_total_app_r, Nat.sub_diag by lia.
  - rewrite length_app. cbn [length]. lia.
Qed.

Lemma copy_ref_spec k d s :
  bytes (out s) -> 1 <= d <= Z.of_nat (length (out s)) ->
  Z.of_nat (length (out s)) + Z.of_nat k <= cap ->
  wp (fun _ => copy_ref cap k (Z.of_nat (length (out s)) - d)) s (fun _ s' =>
    out s' = copy_back (out s) (Z.to_nat d) k).
Proof.
  intros Hb Hd. revert s Hb Hd. induction k as [|k IH]; intros s Hb Hd Hc; cbn [copy_ref copy_back]; [by apply wp_ret|].
  apply wp_bind, wp_read_out; [lia|].
  pose proof (at_byte (out s) (Z.of_nat (length (out s)) - d) Hb ltac:(lia)) as Hb0.
  assert (at_ (out s) (Z.of_nat (length (out s)) - d) = out s !!! (length (out s) - Z.to_nat d)%nat) as <-
    by (unfold at_; f_equal; lia).
  set (b := at_ _ _) in *.
  eapply wp_call; [apply emits_emit; [done | cbn [length]; lia]|]. cbn beta. intros _ s1 [_ ->].
  set (s1 := with_out (out s ++ [b]) s).
  assert (Z.of_nat (length (out s)) - d + 1 = Z.of_nat (length (out s1)) - d) as ->
    by (cbn [s1 out with_out]; rewrite length_app; cbn [length]; lia).
  change (out s ++ [b]) with (out s1). apply IH; cbn [s1 out with_out]; rewrite ?length_app; cbn [length]; [|lia..].
  apply Forall_app. split; [done|]. by constructor.
Qed.

Lemma copy_back_bytes o d m : bytes o -> (1 <= d <= length o)%nat -> bytes (copy_back o d m).
Proof.
  revert o. induction m as [|m IH]; intros o Hb Hd; cbn [copy_back]; [done|].
  apply IH; [|rewrite length_app; cbn; lia]. apply Forall_app. split; [done|]. constructor; [|done].
  apply (Forall_lookup_1 (fun b => 0 <= b < 256) o (length o - d)); [done|].
  apply list_lookup_lookup_total_lt. lia.
Qed.

(** Both ways of copying a match. *)
Lemma copy_match_spec mlen d s :
  bytes (out s) -> 1 <= d <= Z.of_nat (length (out s)) -> 0 <= mlen ->
  Z.of_nat (length (out s)) + mlen + 3 <= cap ->
  let op := Z.of_nat (length (out s)) in
  let ref := op - (d - 1) in
  wp (fun _ => if ref =? op then
      b ← read_out (ref - 1); fill cap 3 b;; fill cap (Z.to_nat mlen) b
    else copy_ref cap 3 (ref - 1);; copy_ref cap (Z.to_nat mlen) (ref - 1 + 3)) s (fun _ s' =>
    out s' = copy_back (out s) (Z.to_nat d) (Z.to_nat mlen + 3)).
Proof.
  intros Hb Hd Hm Hc. cbn zeta. replace (Z.to_nat mlen + 3)%nat with (3 + Z.to_nat mlen)%nat by lia.
  rewrite <- copy_back_add. destruct (Z.eqb_spec (Z.of_nat (length (out s)) - (d - 1)) (Z.of_nat (length (out s)))) as [E|E].
  - assert (d = 1) as -> by lia. change (Z.to_nat 1) with 1%nat.
    apply wp_bind, wp_read_out; [lia|].
    pose proof (at_byte (out s) (Z.of_nat (length (out s)) - (1 - 1) - 1) Hb ltac:(lia)) as Hx.
    assert (out s <> []) as Hne by (intros E0; rewrite E0 in Hd; cbn in Hd; lia).
    assert (out s !!! (length (out s) - 1)%nat = at_ (out s) (Z.of_nat (length (out s)) - (1 - 1) - 1)) as El
      by (unfold at_; f_equal; lia).
    eapply wp_call; [apply (fill_spec 3); [done | done | done | lia]|]. cbn beta. intros _ s1 Ho1.
    eapply wp_mono; [apply fill_spec|]; [done | | | |]; rewrite ?Ho1, ?copy_back_length; [| |lia|].
    + intros E0. apply (f_equal length) in E0. rewrite copy_back_length in E0. cbn in E0. lia.
    + rewrite <- El. assert (forall k o, o <> [] ->
        copy_back o 1 k !!! (length o + k - 1)%nat = o !!! (length o - 1)%nat) as Hk.
      { clear. induction k as [|k IH]; intros o Ho; cbn [copy_back]; [by rewrite Nat.add_0_r|].
        pose proof (IH (o ++ [o !!! (length o - 1)%nat]) ltac:(by destruct o)) as H.
        rewrite length_app in H. cbn [length] in H.
        replace (length o + 1 + k - 1)%nat with (length o + S k - 1)%nat in H by lia. rewrite H.
        replace (length o + 1 - 1)%nat with (length o) by lia. by rewrite lookup_total_app_r, Nat.sub_diag by lia. }
      by apply Hk.
    + cbn beta. intros _ s2 H2. by rewrite H2, ?Ho1.
  - replace (Z.of_nat (length (out s)) - (d - 1) - 1) with (Z.of_nat (length (out s)) - d) by lia.
    eapply wp_call; [apply (copy_ref_spec 3 d); [done | done | lia]|]. cbn beta. intros _ s1 Ho1.
    assert (Z.of_nat (length (out s)) - d + 3 = Z.of_nat (length (out s1)) - d) as ->
      by (rewrite Ho1, copy_back_length; lia).
    eapply wp_mono; [apply copy_ref_spec|]; rewrite ?Ho1, ?copy_back_length; [| lia | lia |].
    + apply copy_back_bytes; [done | lia].
    + cbn beta. intros _ s2 H2. by rewrite H2, ?Ho1.
Qed.
End copying.

Section decompressing.
Context (input : list Z).

(** What is still to be read at [ip]. *)
Definition ahead (ip : Z) (l : list Z) : Prop :=
  0 <= ip /\ drop (Z.to_nat ip) input = l.

Lemma ahead_end ip l : ahead ip l -> l <> [] -> ip + Z.of_nat (length l) = Z.of_nat (length input).
Proof.
  intros [H <-] Hl. rewrite length_drop. destruct (decide (Z.to_nat ip < length input)%nat); [lia|].
  rewrite drop_ge in Hl by lia. done.
Qed.

Lemma ahead_app ip l m : ahead ip (l ++ m) -> ahead (ip + Z.of_nat (length l)) m.
Proof.
  intros [H E]. split; [lia|]. rewrite Z2Nat.inj_add, Nat2Z.id, <- drop_drop, E by lia.
  apply drop_app_length.
Qed.

Lemma ahead_next ip b l : ahead ip (b :: l) -> ahead (ip + 1) l.
Proof. intros H. by apply (ahead_app ip [b]). Qed.

Lemma wp_read_next ip b l s (Q : Z -> buffers -> Prop) :
  ahead ip (b :: l) -> Q b s -> wp (fun _ => read input ip) s Q.
Proof.
  intros Ha HQ. pose proof (ahead_end ip (b :: l) Ha ltac:(done)) as E. cbn [length] in E.
  destruct Ha as [H0 Hd]. apply wp_read; [lia|].
  replace (at_ input ip) with b; [done|]. unfold at_. symmetry. apply list_lookup_total_correct.
  rewrite <- (Nat.add_0_r (Z.to_nat ip)), <- lookup_drop, Hd. done.
Qed.

Lemma copy_literals_spec cap ls rest ip s :
  bytes ls -> ahead ip (ls ++ rest) ->
  Z.of_nat (length (out s)) + Z.of_nat (length ls) <= cap ->
  wp (fun _ => copy_literals input cap (length ls) ip) s (fun r s' =>
    r = ip + Z.of_nat (length ls) /\ out s' = out s ++ ls).
Proof.
  revert ip s. induction ls as [|b ls IH]; intros ip s Hb Ha Hc; cbn [length copy_literals].
  - apply wp_ret. split; [cbn; lia | by rewrite app_nil_r].
  - inversion Hb as [|? ? Hb0 Hbs]; subst. cbn [length] in Hc.
    apply wp_bind. eapply wp_read_next; [exact Ha|].
    eapply wp_call; [apply emits_emit; [done | cbn [length]; lia]|]. cbn beta. intros _ s1 [_ ->].
    eapply wp_mono; [apply (IH (ip + 1)); [done | by eapply ahead_next |]|].
    + cbn [out with_out]. rewrite length_app. cbn [length]. lia.
    + cbn beta. intros r s2 [-> ->]. cbn [out with_out]. split; [lia|]. change (b :: ls) with ([b] ++ ls). by rewrite app_assoc.
Qed.

Lemma len_loop_spec q r rest ip len s :
  0 <= len -> 0 <= r < 255 -> len + 255 * Z.of_nat q + r < 4294967296 -> ahead ip (replicate q 255 ++ r :: rest) ->
  wp (fun n => len_loop input n ip len) s (fun p s' => s' = s /\
    p = (ip + Z.of_nat q + 1, len + 255 * Z.of_nat q + r)).
Proof.
  revert ip len. induction q as [|q IH]; intros ip len Hl Hr Hq Ha; cbn [replicate app] in Ha;
    (eapply wp_unfold; [intros n; cbn [len_loop]; reflexivity|]); cbv beta;
    (apply wp_bind; eapply wp_read_next; [exact Ha|]).
  - destruct (Z.eqb_spec r 255); [lia|]. apply wp_ret. split; [done|]. rewrite u32_id by lia. f_equal; lia.
  - change (255 =? 255) with true. rewrite u32_id by lia.
    eapply wp_mono; [apply (IH (ip + 1) (len + 255)); [lia | done | lia | by eapply ahead_next]|].
    cbn beta. intros p s' [-> ->]. split; [done|]. f_equal; lia.
Qed.

(** The header of a match, after its first byte. *)
Lemma match_header1_spec d len rest ip op s :
  0 <= d < 8192 -> 1 <= len <= 262 -> ahead ip (tail (match_code 1 d len) ++ rest) ->
  let ctrl := List.hd 0 (match_code 1 d len) in
  32 <= ctrl < 256 /\
  wp (fun _ => match_header1 input ip op (Z.shiftl (Z.land ctrl 31) 8) (u32 (Z.shiftr ctrl 5 - 1))) s
    (fun p s' => s' = s /\ exists ip', p = (ip', len - 1, op - d) /\ ahead ip' rest).
Proof.
  intros Hd Hl. pose proof (div256 d 32 ltac:(lia)) as Hq. pose proof (Z.div_mod d 256 ltac:(lia)) as Ed.
  cbn zeta. unfold match_code. change (1 =? 1) with true. unfold match_header1.
  destruct (Z.ltb_spec len 7); cbn [List.hd tail app]; intros Ha; (split; [lia|]).
  - rewrite ctrl_len, ctrl_ofs, u32_id, Z.shiftl_mul_pow2 by lia.
    destruct (Z.eqb_spec (len - 1) (7 - 1)); [lia|]. apply wp_bind, wp_ret.
    apply wp_bind. eapply wp_read_next; [exact Ha|]. apply wp_ret. split; [done|].
    cbn [fst snd]. exists (ip + 1). split; [f_equal; lia | by eapply ahead_next].
  - change 224 with (7 * 32). rewrite ctrl_len, ctrl_ofs, Z.shiftl_mul_pow2 by lia.
    change (u32 (7 - 1) =? 7 - 1) with true. apply wp_bind, wp_bind. eapply wp_read_next; [exact Ha|].
    change (u32 (7 - 1)) with 6. rewrite u32_id by lia. apply wp_ret.
    apply wp_bind. eapply wp_read_next; [by eapply ahead_next|]. apply wp_ret. split; [done|].
    cbn [fst snd]. exists (ip + 1 + 1). split; [f_equal; [f_equal|]; lia | do 2 (eapply ahead_next); exact Ha].
Qed.

Lemma long_header {A} len rest ip s (k : nat -> Z * Z -> M A) Q :
  7 <= len < 4294967296 -> ahead ip (long_len len ++ rest) ->
  (forall ip', ahead ip' rest -> wp (fun n => k n (ip', len - 1)) s Q) ->
  wp (fun n => r ← with_fuel (fun n => len_loop input n ip (u32 (7 - 1))); k n r) s Q.
Proof.
  intros Hl Ha Hk. pose proof (Z.div_mod (len - 7) 255 ltac:(lia)) as E.
  pose proof (Z.mod_pos_bound (len - 7) 255 ltac:(lia)). pose proof (Z.div_pos (len - 7) 255 ltac:(lia) ltac:(lia)).
  unfold long_len in Ha. rewrite <- app_assoc in Ha. cbn [app] in Ha. change (u32 (7 - 1)) with 6.
  eapply wp_call; [apply wp_with_fuel; eapply len_loop_spec; [lia | | | exact Ha]; lia|].
  cbn beta. intros p s' [-> ->].
  assert (6 + 255 * Z.of_nat (Z.to_nat ((len - 7) / 255)) + (len - 7) mod 255 = len - 1) as -> by lia.
  apply Hk. apply ahead_app in Ha. rewrite length_replicate in Ha. by eapply ahead_next.
Qed.

Lemma match_header2_spec d len rest ip op s :
  0 <= d < 8191 + 65536 -> 1 <= len < 4294967296 -> ahead ip (tail (match_code 2 d len) ++ rest) ->
  let ctrl := List.hd 0 (match_code 2 d len) in
  32 <= ctrl < 256 /\
  wp (fun _ => match_header2 2 input ip op (Z.shiftl (Z.land ctrl 31) 8) (u32 (Z.shiftr ctrl 5 - 1))) s
    (fun p s' => s' = s /\ exists ip', p = (ip', len - 1, op - d) /\ ahead ip' rest).
Proof.
  intros Hd Hl. cbn zeta. unfold match_code. change (2 =? 1) with false. cbn zeta. unfold match_header2.
  destruct (Z.ltb_spec d 8191).
  - pose proof (div256 d 32 ltac:(lia)) as Hq. pose proof (Z.div_mod d 256 ltac:(lia)) as Ed.
    pose proof (Z.mod_pos_bound d 256 ltac:(lia)).
    assert (forall ip' code, ahead ip' (d mod 256 :: rest) -> code = d mod 256 ->
      wp (fun _ => if (code =? 255) && (Z.shiftl (d / 256) 8 =? Z.shiftl 31 8) then
          a ← read input (ip' + 1); b ← read input (ip' + 1 + 1);
          mret (ip' + 1 + 2, len - 1, op - u32 (Z.shiftl a 8 + b) - MAX_DISTANCE 2)
        else mret (ip' + 1, len - 1, op - Z.shiftl (d / 256) 8 - code)) s
      (fun p s' => s' = s /\ exists ip', p = (ip', len - 1, op - d) /\ ahead ip' rest)) as Hend.
    { intros ip' code Ha ->. rewrite !Z.shiftl_mul_pow2 by lia.
      destruct (Z.eqb_spec (d mod 256) 255), (Z.eqb_spec (d / 256 * 2 ^ 8) (31 * 2 ^ 8)); cbn [andb];
        try lia; (apply wp_ret; split; [done|]; exists (ip' + 1); split; [f_equal; lia | by eapply ahead_next]). }
    destruct (Z.ltb_spec len 7); cbn [List.hd tail app]; intros Ha; (split; [lia|]).
    + rewrite ctrl_len, ctrl_ofs, u32_id by lia.
      destruct (Z.eqb_spec (len - 1) (7 - 1)); [lia|]. apply wp_bind, wp_ret.
      apply wp_bind. eapply wp_read_next; [exact Ha|]. by apply Hend.
    + change 224 with (7 * 32). rewrite ctrl_len, ctrl_ofs by lia.
      change (u32 (7 - 1) =? 7 - 1) with true. cbn iota.
      rewrite <- app_assoc in Ha. eapply long_header; [ | exact Ha | ]; [lia|].
      intros ip' Ha'. cbn beta iota. apply wp_bind. eapply wp_read_next; [exact Ha'|]. by apply Hend.
  - pose proof (div256 (d - 8191) 256 ltac:(lia)) as Hq. pose proof (Z.div_mod (d - 8191) 256 ltac:(lia)) as Ed.
    pose proof (Z.mod_pos_bound (d - 8191) 256 ltac:(lia)).
    set (tl3 := [255; (d - 8191) / 256; (d - 8191) mod 256]).
    assert (forall ip', ahead ip' (tl3 ++ rest) ->
      wp (fun _ => code ← read input ip';
        if (code =? 255) && (Z.shiftl 31 8 =? Z.shiftl 31 8) then
          a ← read input (ip' + 1); b ← read input (ip' + 1 + 1);
          mret (ip' + 1 + 2, len - 1, op - u32 (Z.shiftl a 8 + b) - MAX_DISTANCE 2)
        else mret (ip' + 1, len - 1, op - Z.shiftl 31 8 - code)) s
      (fun p s' => s' = s /\ exists ip', p = (ip', len - 1, op - d) /\ ahead ip' rest)) as Hend.
    { intros ip' Ha. apply wp_bind. eapply wp_read_next; [exact Ha|].
      change ((255 =? 255) && (Z.shiftl 31 8 =? Z.shiftl 31 8)) with true. cbn iota.
      apply ahead_next in Ha. apply wp_bind. eapply wp_read_next; [exact Ha|].
      apply ahead_next in Ha. apply wp_bind. eapply wp_read_next; [exact Ha|]. apply wp_ret. split; [done|].
      apply ahead_next in Ha. exists (ip' + 1 + 2). change (MAX_DISTANCE 2) with 8191.
      rewrite Z.shiftl_mul_pow2, u32_id by lia. split; [f_equal; lia|]. by replace (ip' + 1 + 2) with (ip' + 1 + 1 + 1) by lia. }
    destruct (Z.ltb_spec len 7); cbn [List.hd tail app]; intros Ha; (split; [lia|]).
    + rewrite ctrl_len, ctrl_ofs, u32_id by lia.
      destruct (Z.eqb_spec (len - 1) (7 - 1)); [lia|]. apply wp_bind, wp_ret. by apply Hend.
    + change (Z.shiftr 255 5) with 7. change (Z.land 255 31) with 31.
      change (u32 (7 - 1) =? 7 - 1) with true. cbn iota.
      rewrite <- app_assoc in Ha. eapply long_header; [ | exact Ha | ]; [lia|].
      intros ip' Ha'. cbn beta iota. by apply Hend.
Qed.
End decompressing.

Lemma enc_nonempty level t : exists c l, enc level t = c :: l.
Proof.
  destruct t as [l|d m]; cbn [enc]; [by eauto|]. unfold match_code.
  repeat case_match; cbn [app]; eauto.
Qed.

Lemma expand_bytes level o t :
  bytes o -> token_ok level o t -> (if t is Lit l then bytes l else True) -> bytes (expand o t).
Proof.
  intros Ho Hok Hl. destruct t as [l|d m]; cbn [expand].
  - by apply Forall_app.
  - cbn in Hok. apply copy_back_bytes; [done | lia].
Qed.

Section decoding.
Context (level : Z) (input : list Z) (cap : Z).
Context (Hlv : level = 1 \/ level = 2).
Let N := Z.of_nat (length input).

(** After a token: the next header, or the end. *)
Definition next_of (ip : Z) (rest : list Z) (r : option (Z * Z)) : Prop :=
  match rest with
  | [] => r = None
  | c :: l => exists ip', r = Some (ip', c) /\ ahead input ip' l
  end.

Lemma decode_lits_spec l rest ip s :
  (1 <= length l <= 32)%nat -> bytes l -> ahead input ip (l ++ rest) ->
  Z.of_nat (length (out s)) + Z.of_nat (length l) <= cap ->
  wp (fun _ => decode_literals input cap N ip (Z.of_nat (length l) - 1)) s (fun r s' =>
    out s' = out s ++ l /\ exists r', r = Some r' /\ next_of ip rest r').
Proof.
  intros Hl Hb Ha Hc. unfold decode_literals. apply wp_bind, wp_position. rewrite u32_id by lia.
  replace (Z.of_nat (length l) - 1 + 1) with (Z.of_nat (length l)) by lia.
  pose proof (ahead_end _ _ _ Ha ltac:(destruct l; [cbn in Hl; lia | done])) as HE. rewrite length_app in HE.
  destruct (Z.ltb_spec cap (Z.of_nat (length (out s)) + Z.of_nat (length l))); [lia|].
  destruct (Z.ltb_spec N (ip + Z.of_nat (length l))); [lia|]. rewrite Nat2Z.id.
  eapply wp_call; [by apply (copy_literals_spec input cap l rest)|]. cbn beta. intros _ s1 [-> Ho1].
  apply ahead_app in Ha. destruct rest as [|c rest]; cbn [length] in HE.
  - destruct (Z.ltb_spec (ip + Z.of_nat (length l)) N); [lia|]. apply wp_ret. split; [done|]. by eexists.
  - destruct (Z.ltb_spec (ip + Z.of_nat (length l)) N); [|lia].
    apply wp_bind. eapply wp_read_next; [exact Ha|]. apply wp_ret. split; [done|].
    eexists. split; [done|]. eexists. split; [done|]. eapply ahead_next, Ha.
Qed.

Lemma decode_copy_spec d m rest ip s :
  bytes (out s) -> token_ok level (out s) (Match d m) ->
  ahead input ip (tail (enc level (Match d m)) ++ rest) ->
  Z.of_nat (length (out s)) + Z.of_nat m <= cap ->
  let ctrl := List.hd 0 (enc level (Match d m)) in
  32 <= ctrl < 256 /\
  wp (fun _ => decode_match level input cap N ip ctrl) s (fun r s' =>
    out s' = copy_back (out s) (Z.to_nat d) m /\ exists r', r = Some r' /\ next_of ip rest r').
Proof.
  intros Hb Hok Ha Hc. cbn zeta.
  assert (32 <= List.hd 0 (enc level (Match d m)) < 256 /\
    wp (fun _ => if level =? 1
      then match_header1 input ip (Z.of_nat (length (out s)))
        (Z.shiftl (Z.land (List.hd 0 (enc level (Match d m))) 31) 8)
        (u32 (Z.shiftr (List.hd 0 (enc level (Match d m))) 5 - 1))
      else match_header2 level input ip (Z.of_nat (length (out s)))
        (Z.shiftl (Z.land (List.hd 0 (enc level (Match d m))) 31) 8)
        (u32 (Z.shiftr (List.hd 0 (enc level (Match d m))) 5 - 1))) s
      (fun p s' => s' = s /\ exists ip',
        p = (ip', Z.of_nat m - 3, Z.of_nat (length (out s)) - (d - 1)) /\ ahead input ip' rest)) as [Hh Hw].
  { replace (Z.of_nat m - 3) with (Z.of_nat m - 2 - 1) by lia. cbn [token_ok] in Hok. cbn [enc] in *.
    destruct Hlv as [E | E]; rewrite E in *; cbn [Z.eqb Pos.eqb] in *.
    - eapply match_header1_spec; [lia | lia | exact Ha].
    - eapply match_header2_spec; [lia | lia | exact Ha]. }
  split; [done|]. unfold decode_match. apply wp_bind, wp_position.
  eapply wp_call; [exact Hw|]. cbn beta. intros p s1 (-> & ip' & -> & Ha'). cbn beta iota.
  cbn [token_ok] in Hok.
  destruct (Z.ltb_spec cap (Z.of_nat (length (out s)) + (Z.of_nat m - 3) + 3)); [lia|].
  destruct (Z.ltb_spec (Z.of_nat (length (out s)) - (d - 1) - 1) 0); [lia|].
  apply wp_bind.
  apply (wp_mono _ _ (fun r s' => s' = s /\ next_of ip rest r)).
  { destruct rest as [|c rest].
    - destruct Ha' as [H0' Ha']. assert (N <= ip').
      { apply (f_equal length) in Ha'. rewrite length_drop in Ha'. cbn in Ha'. unfold N. lia. }
      destruct (Z.ltb_spec ip' N); [lia|]. by apply wp_ret.
    - pose proof (ahead_end _ _ _ Ha' ltac:(done)) as HE. cbn [length] in HE.
      destruct (Z.ltb_spec ip' N); [|lia].
      apply wp_bind. eapply wp_read_next; [exact Ha'|]. apply wp_ret. split; [done|].
      eexists. split; [done|]. eapply ahead_next, Ha'. }
  cbn beta. intros nx s1 [-> Hnx].
  eapply wp_call; [apply (copy_match_spec cap (Z.of_nat m - 3) d s Hb); lia|].
  cbn beta. intros _ s2 Ho2. apply wp_ret. split; [|by eexists].
  rewrite Ho2. f_equal. lia.
Qed.

Lemma decode_loop_spec ts ip o s :
  ts <> [] -> tokens_ok level o ts -> bytes o -> bytes (enc_all level ts) -> out s = o ->
  ahead input ip (tail (enc_all level ts)) ->
  Z.of_nat (length (expand_all o ts)) <= cap ->
  wp (fun n => decode_loop level input cap n N ip (List.hd 0 (enc_all level ts))) s (fun r s' =>
    out s' = expand_all o ts /\ r = Z.of_nat (length (expand_all o ts))).
Proof.
  revert ip o s. induction ts as [|t ts IH]; [done|]. intros ip o s _ [Ht Hts] Hb He Ho Ha Hc.
  eapply wp_unfold; [intros n; cbn [decode_loop]; reflexivity|]. cbv beta.
  change (enc_all level (t :: ts)) with (enc level t ++ enc_all level ts) in *.
  change (expand_all o (t :: ts)) with (expand_all (expand o t) ts) in *.
  apply Forall_app in He as [He1 He2].
  pose proof (expand_all_length level (expand o t) ts Hts) as Hlen.
  assert (bytes (expand o t)) as Hb'.
  { eapply expand_bytes; [done | exact Ht |]. destruct t; [|done]. cbn [enc] in He1. by inversion He1. }
  assert (wp (fun _ => if 32 <=? List.hd 0 (enc level t ++ enc_all level ts)
      then decode_match level input cap N ip (List.hd 0 (enc level t ++ enc_all level ts))
      else decode_literals input cap N ip (List.hd 0 (enc level t ++ enc_all level ts))) s (fun r s' =>
    out s' = expand o t /\ exists r', r = Some r' /\ next_of ip (enc_all level ts) r')) as Hw.
  { destruct (enc_nonempty level t) as (c & l & Ec).
    assert (List.hd 0 (enc level t ++ enc_all level ts) = List.hd 0 (enc level t)) as Eh by (by rewrite Ec).
    assert (tail (enc level t ++ enc_all level ts) = tail (enc level t) ++ enc_all level ts) as Et by (by rewrite Ec).
    rewrite Eh. rewrite Et in Ha. clear Eh Et Ec c l.
    destruct t as [l|d m]; subst o; cbn [expand] in *.
    - cbn [enc List.hd tail token_ok] in *. rewrite length_app in Hlen.
      destruct (Z.leb_spec 32 (Z.of_nat (length l) - 1)); [lia|].
      apply decode_lits_spec; [done | by inversion He1 | done | lia].
    - rewrite copy_back_length in Hlen.
      destruct (decode_copy_spec d m (enc_all level ts) ip s) as [Hh Hw]; [done | done | done | lia |].
      destruct (Z.leb_spec 32 (List.hd 0 (enc level (Match d m)))); [exact Hw | lia]. }
  eapply wp_call; [exact Hw|]. cbn beta. intros r s1 (Ho1 & r' & -> & Hn). cbn beta iota.
  destruct ts as [|t' ts].
  - cbn in Hn. subst r'. apply wp_position. by rewrite Ho1.
  - destruct (enc_nonempty level t') as (c & l & Ec).
    change (enc_all level (t' :: ts)) with (enc level t' ++ enc_all level ts) in Hn.
    rewrite Ec in Hn. destruct Hn as (ip' & -> & Ha').
    specialize (IH ip' (expand o t) s1 ltac:(done) Hts Hb' He2 Ho1).
    change (enc_all level (t' :: ts)) with (enc level t' ++ enc_all level ts) in IH.
    rewrite Ec in IH. cbn [app List.hd tail] in IH. by apply IH.
Qed.
End decoding.

(** ** Round trip *)

Lemma expand_all_prefix level o ts : tokens_ok level o ts -> exists z, expand_all o ts = o ++ z.
Proof.
  revert o. induction ts as [|t ts IH]; intros o; [intros _; exists []; by rewrite app_nil_r|].
  intros [_ H]. destruct (IH _ H) as (z & E). change (expand_all o (t :: ts)) with (expand_all (expand o t) ts).
  rewrite E. assert (exists y, expand o t = o ++ y) as (y & ->).
  { destruct t as [l|d m]; cbn [expand]; [by eexists|]. clear. generalize (Z.to_nat d). intros d'.
    revert o. induction m as [|m IH]; intros o; cbn [copy_back]; [exists []; by rewrite app_nil_r|].
    destruct (IH (o ++ [o !!! (length o - d')%nat])) as (y & ->). eexists. by rewrite <- app_assoc. }
  eexists. by rewrite <- app_assoc.
Qed.

Lemma match_code1_bytes d len : 0 <= d < 8192 -> 1 <= len <= 262 -> bytes (match_code 1 d len).
Proof.
  intros Hd Hl. pose proof (div256 d 32 ltac:(lia)). pose proof (Z.mod_pos_bound d 256 ltac:(lia)).
  unfold match_code, bytes. change (1 =? 1) with true.
  destruct (Z.ltb_spec len 7); repeat constructor; lia.
Qed.

Lemma match_code2_bytes d len : 0 <= d < 8191 + 65536 -> 1 <= len -> bytes (match_code 2 d len).
Proof.
  intros Hd Hl. assert (7 <= len -> bytes (long_len len)) as Hlong.
  { intros H. pose proof (Z.mod_pos_bound (len - 7) 255 ltac:(lia)). apply Forall_app. split.
    - apply Forall_replicate. lia.
    - constructor; [lia | constructor]. }
  unfold match_code. change (2 =? 1) with false. cbn zeta.
  destruct (Z.ltb_spec d 8191).
  - pose proof (div256 d 32 ltac:(lia)). pose proof (Z.mod_pos_bound d 256 ltac:(lia)).
    destruct (Z.ltb_spec len 7); [repeat constructor; lia|].
    apply Forall_app. split; [repeat constructor; lia|]. apply Forall_app. split; [by apply Hlong | repeat constructor; lia].
  - pose proof (div256 (d - 8191) 256 ltac:(lia)). pose proof (Z.mod_pos_bound (d - 8191) 256 ltac:(lia)).
    destruct (Z.ltb_spec len 7); [repeat constructor; lia|].
    apply Forall_app. split; [repeat constructor; lia|]. apply Forall_app. split; [by apply Hlong | repeat constructor; lia].
Qed.

Lemma enc_all_bytes level o ts :
  level = 1 \/ level = 2 -> tokens_ok level o ts -> bytes (expand_all o ts) -> bytes (enc_all level ts).
Proof.
  intros Hlv. revert o. induction ts as [|t ts IH]; intros o; [constructor|].
  intros [Ht Hts] Hb. change (expand_all o (t :: ts)) with (expand_all (expand o t) ts) in Hb.
  apply Forall_app. split; [|by eapply IH].
  destruct (expand_all_prefix _ _ _ Hts) as (z & Ez). rewrite Ez in Hb. apply Forall_app in Hb as [Hb _].
  destruct t as [l|d m]; cbn [enc token_ok expand] in *.
  - constructor; [lia|]. by apply Forall_app in Hb as [_ Hb].
  - destruct Hlv as [-> | ->]; cbn [Z.eqb Pos.eqb] in Ht; [apply match_code1_bytes | apply match_code2_bytes]; lia.
Qed.

Lemma encodes_bytes level x o :
  level = 1 \/ level = 2 -> bytes x -> encodes level x o -> bytes o /\ o <> [].
Proof.
  intros Hlv Hx (ts & Hok & He & Hf & ->).
  pose proof (enc_all_bytes level [] ts Hlv Hok ltac:(by rewrite He)) as Hb.
  destruct ts as [|[l|] ts]; [done | | done].
  change (enc_all level (Lit l :: ts)) with ((Z.of_nat (length l) - 1) :: l ++ enc_all level ts) in *.
  cbn [marked]. apply Forall_cons in Hb as [Hc Hb]. destruct Hok as [Hl _]. cbn in Hl.
  split; [|done]. constructor; [|done]. destruct (level =? 2); lia.
Qed.

(** The decompressor at [level] on the block, and the choice of the level. *)
Lemma decompress_spec level x o maxout :
  level = 1 \/ level = 2 -> bytes x -> encodes level x o ->
  Z.of_nat (length x) <= maxout ->
  wp (fun _ => fastlz_decompress o (Z.of_nat (length o)) maxout) fresh (fun r s' =>
    out s' = x /\ r = Z.of_nat (length x)).
Proof.
  intros Hlv Hx (ts & Hok & He & Hf & Ho) Hm.
  pose proof (enc_all_bytes level [] ts Hlv Hok ltac:(by rewrite He)) as Hb.
  destruct ts as [|[l|] ts]; [done | | done].
  assert (exists z, enc_all level (Lit l :: ts) = (Z.of_nat (length l) - 1) :: z) as (z & Ez) by (by eexists).
  rewrite Ez in Ho, Hb. cbn [marked] in Ho.
  assert (1 <= Z.of_nat (length l) <= 32) as Hl by (destruct Hok as [Hok _]; cbn in Hok; lia).
  set (c := Z.of_nat (length l) - 1) in *.
  apply Forall_cons in Hb as [Hc Hb].
  set (c' := if level =? 2 then c + 32 else c) in Ho.
  assert (Z.shiftr c' 5 + 1 = level /\ Z.land c' 31 = c) as [Es Ea].
  { unfold c'. destruct Hlv as [-> | ->]; cbn [Z.eqb Pos.eqb].
    - change c with (0 * 32 + c) at 1 2. rewrite ctrl_len, ctrl_ofs by lia. done.
    - replace (c + 32) with (1 * 32 + c) by lia. rewrite ctrl_len, ctrl_ofs by lia. done. }
  assert (ahead o 0 (c' :: z)) as Ha by (rewrite Ho; split; done).
  assert (wp (fun _ => decompressor level o maxout (Z.of_nat (length o))) fresh (fun r s' =>
    out s' = x /\ r = Z.of_nat (length x))) as Hd.
  { unfold decompressor. apply wp_bind. eapply wp_read_next; [exact Ha|]. rewrite Ea. apply wp_with_fuel.
    pose proof (decode_loop_spec level o maxout Hlv (Lit l :: ts) 1 [] fresh) as Hw.
    rewrite Ez, He in Hw. cbn [List.hd tail] in Hw. apply Hw; [done | done | constructor | | done | | lia].
    - by constructor.
    - exact (ahead_next o 0 c' z Ha). }
  unfold fastlz_decompress. apply wp_bind. eapply wp_read_next; [exact Ha|]. rewrite Es.
  destruct Hlv as [-> | ->]; exact Hd.
Qed.

(** The buffer sizes fastlz.h asks for are enough. *)
Lemma documented_capacity n cap :
  0 <= n -> 66 <= cap -> 105 * n <= 100 * cap -> 33 * n + 1 <= 32 * cap.
Proof. lia. Qed.

Lemma fastlz_compress_spec x pad cap :
  bytes (x ++ pad) -> Z.of_nat (length x) < 2147483640 ->
  (65536 <= Z.of_nat (length x) -> pad <> []) -> 33 * Z.of_nat (length x) + 1 <= 32 * cap ->
  wp (fun _ => fastlz_compress (x ++ pad) cap (Z.of_nat (length x))) fresh (fun r s' =>
    r = Z.of_nat (length (out s')) /\ 32 * r <= 33 * Z.of_nat (length x) + 32 /\
    (x = [] /\ r = 0 \/ exists lv, (lv = 1 \/ lv = 2) /\ encodes lv x (out s'))).
Proof.
  intros Hb Hn Hp Hc. unfold fastlz_compress.
  destruct (Z.ltb_spec (Z.of_nat (length x)) 65536).
  - eapply wp_mono; [apply (compressor_spec 1 x pad cap); [by left | done | done | done | done | done]|].
    cbn beta. intros r s' (H1 & H2 & [H3 | (lv & Hlv & H3)]); split; [done | | done |]; (split; [done|]);
      [by left | right; exists lv; split; [lia | done]].
  - eapply wp_mono; [apply (compressor_spec 2 x pad cap); [by right | done | done | auto | done | done]|].
    cbn beta. intros r s' (H1 & H2 & [H3 | (lv & Hlv & H3)]); split; [done | | done |]; (split; [done|]);
      [by left | right; exists lv; split; [lia | done]].
Qed.

(** ** Memory safety of the decompressor on any input *)

Section safety.
Context (level : Z) (input : list Z) (cap N : Z).
Context (Hlv : level = 1 \/ level = 2) (Hbytes : bytes input) (Hcap : 0 <= cap) (HN : 0 <= N).
(** The two bytes after the block can be read and are zero. *)
Context (Hpad : N + 2 <= Z.of_nat (length input)) (Hz : at_ input N = 0) (Hz1 : at_ input (N + 1) = 0).

Definition in_bounds (s : buffers) : Prop :=
  bytes (out s) /\ Z.of_nat (length (out s)) <= cap.

Lemma len_loop_safe ip len s :
  0 <= ip <= N -> 0 <= len < 4294967296 ->
  wp (fun n => len_loop input n ip len) s (fun p s' =>
    s' = s /\ ip < fst p <= N + 1 /\ 0 <= snd p < 4294967296).
Proof.
  remember (Z.to_nat (N + 1 - ip)) as k eqn:Ek. revert ip len Ek.
  induction k as [|k IH]; intros ip len Ek Hip Hl; [lia|].
  eapply wp_unfold; [intros n; cbn [len_loop]; reflexivity|]. cbv beta.
  apply wp_bind, wp_read; [lia|].
  assert (0 <= u32 (len + at_ input ip) < 4294967296) as Hu by (apply Z.mod_pos_bound; lia).
  destruct (Z.eqb_spec (at_ input ip) 255) as [E|E].
  - assert (ip <> N) by (intros ->; lia).
    eapply wp_mono; [apply (IH (ip + 1)); [lia | lia | done]|].
    cbn beta. intros p s' (-> & H1 & H2). split; [done|]. split; [lia | done].
  - apply wp_ret. cbn [fst snd]. split; [done|]. split; [lia | done].
Qed.

Lemma match_header_safe ip op ctrl s :
  0 <= ip <= N -> 32 <= ctrl < 256 ->
  wp (fun _ => if level =? 1
      then match_header1 input ip op (Z.shiftl (Z.land ctrl 31) 8) (u32 (Z.shiftr ctrl 5 - 1))
      else match_header2 level input ip op (Z.shiftl (Z.land ctrl 31) 8) (u32 (Z.shiftr ctrl 5 - 1))) s
    (fun p s' => s' = s /\ ip < fst (fst p) /\ 0 <= snd (fst p) < 4294967296 /\ snd p <= op).
Proof.
  intros Hip Hctrl.
  assert (0 <= Z.shiftl (Z.land ctrl 31) 8) as Ho.
  { apply Z.shiftl_nonneg, Z.land_nonneg. lia. }
  set (ofs := Z.shiftl (Z.land ctrl 31) 8) in *.
  assert (0 <= u32 (Z.shiftr ctrl 5 - 1) < 4294967296) as Hm by (apply Z.mod_pos_bound; lia).
  set (mlen := u32 (Z.shiftr ctrl 5 - 1)) in *.
  assert (forall i, 0 <= i < N + 2 -> 0 <= at_ input i < 256) as Hat by (intros; apply at_byte; [done | lia]).
  destruct (level =? 1).
  - unfold match_header1. apply wp_bind.
    apply (wp_mono _ _ (fun p s' => s' = s /\ ip <= fst p <= N + 1 /\ 0 <= snd p < 4294967296)).
    { destruct (mlen =? 7 - 1); [|by apply wp_ret; cbn [fst snd]; split_and!; (done || lia)].
      apply wp_bind, wp_read; [lia|]. apply wp_ret. cbn [fst snd]. split; [done|]. split; [lia|].
      apply Z.mod_pos_bound. lia. }
    cbn beta. intros p s1 (-> & Hp1 & Hp2). apply wp_bind, wp_read; [lia|].
    pose proof (Hat (fst p) ltac:(lia)). apply wp_ret. cbn [fst snd]. split_and!; (done || lia).
  - unfold match_header2. apply wp_bind.
    apply (wp_mono _ _ (fun p s' => s' = s /\ ip <= fst p <= N + 1 /\ 0 <= snd p < 4294967296)).
    { destruct (mlen =? 7 - 1); [|by apply wp_ret; cbn [fst snd]; split_and!; (done || lia)].
      apply wp_with_fuel. eapply wp_mono; [apply len_loop_safe; [lia | done]|].
      cbn beta. intros p s' (-> & H1 & H2). split_and!; (done || lia). }
    cbn beta. intros [ip1 len1] s1 (-> & Hp1 & Hp2). cbn [fst snd] in *. apply wp_bind, wp_read; [lia|].
    pose proof (Hat ip1 ltac:(lia)).
    destruct ((at_ input ip1 =? 255) && _) eqn:E.
    + apply andb_true_iff in E as [E _]. apply Z.eqb_eq in E.
      assert (ip1 <> N /\ ip1 <> N + 1) by (split; intros ->; lia).
      apply wp_bind, wp_read; [lia|]. apply wp_bind, wp_read; [lia|]. apply wp_ret. cbn [fst snd].
      assert (0 <= u32 (Z.shiftl (at_ input (ip1 + 1)) 8 + at_ input (ip1 + 1 + 1))) by (apply Z.mod_pos_bound; lia).
      split_and!; try (done || lia). unfold MAX_DISTANCE. destruct (level =? 1); lia.
    + apply wp_ret. cbn [fst snd]. split_and!; (done || lia).
Qed.

(** What the body of the loop guarantees. *)
Definition turn (ip : Z) (r : option (option (Z * Z))) (s : buffers) : Prop :=
  in_bounds s /\
  match r with
  | Some (Some (ip', c)) => ip < ip' <= N /\ 0 <= c < 256
  | _ => True
  end.

Lemma decode_match_safe ip ctrl s :
  0 <= ip <= N -> 32 <= ctrl < 256 -> in_bounds s ->
  wp (fun _ => decode_match level input cap N ip ctrl) s (turn ip).
Proof.
  intros Hip Hctrl [Hb Hl]. unfold decode_match. apply wp_bind, wp_position.
  eapply wp_call; [by apply match_header_safe|]. cbn beta. intros [[ip1 mlen] ref] s1 (-> & H1 & H2 & H3).
  cbn [fst snd] in *. cbn beta iota.
  destruct (Z.ltb_spec cap (Z.of_nat (length (out s)) + mlen + 3)); [by apply wp_ret; split|].
  destruct (Z.ltb_spec (ref - 1) 0); [by apply wp_ret; split|]. apply wp_bind.
  apply (wp_mono _ _ (fun r s' => s' = s /\
    match r with Some (ip', c) => ip < ip' <= N /\ 0 <= c < 256 | None => True end)).
  { destruct (Z.ltb_spec ip1 N); [|by apply wp_ret].
    apply wp_bind, wp_read; [lia|]. apply wp_ret. split; [done|]. split; [lia|]. apply at_byte; [done | lia]. }
  cbn beta. intros nx s1 [-> Hnx].
  pose proof (copy_match_spec cap mlen (Z.of_nat (length (out s)) - ref + 1) s Hb ltac:(lia) ltac:(lia) ltac:(lia)) as Hw.
  cbn zeta in Hw.
  replace (Z.of_nat (length (out s)) - (Z.of_nat (length (out s)) - ref + 1 - 1)) with ref in Hw by lia.
  eapply wp_call; [exact Hw|]. cbn beta. intros _ s2 Ho2. apply wp_ret. split.
  - split; rewrite Ho2; [apply copy_back_bytes; [done | lia] | rewrite copy_back_length; lia].
  - destruct nx as [[ip' c]|]; done.
Qed.

Lemma copy_literals_safe k ip s :
  0 <= ip -> ip + Z.of_nat k <= N -> bytes (out s) ->
  Z.of_nat (length (out s)) + Z.of_nat k <= cap ->
  wp (fun _ => copy_literals input cap k ip) s (fun r s' => r = ip + Z.of_nat k /\ in_bounds s').
Proof.
  intros Hip Hk Hb Hc.
  assert (drop (Z.to_nat ip) input = take k (drop (Z.to_nat ip) input) ++ drop k (drop (Z.to_nat ip) input)) as E
    by (by rewrite take_drop).
  assert (length (take k (drop (Z.to_nat ip) input)) = k) as El by (rewrite length_take, length_drop; lia).
  pose proof (copy_literals_spec input cap (take k (drop (Z.to_nat ip) input))
    (drop k (drop (Z.to_nat ip) input)) ip s) as Hw. rewrite El in Hw.
  assert (bytes (take k (drop (Z.to_nat ip) input))) as Hbt by (by apply Forall_take, Forall_drop).
  eapply wp_mono; [apply Hw; [done | by split | done]|]. cbn beta. intros r s' [-> Ho]. split; [done|].
  split; rewrite Ho; [by apply Forall_app | rewrite length_app, El; lia].
Qed.

Lemma decode_literals_safe ip ctrl s :
  0 <= ip <= N -> 0 <= ctrl < 32 -> in_bounds s ->
  wp (fun _ => decode_literals input cap N ip ctrl) s (turn ip).
Proof.
  intros Hip Hctrl [Hb Hl]. unfold decode_literals. apply wp_bind, wp_position. rewrite u32_id by lia.
  destruct (Z.ltb_spec cap (Z.of_nat (length (out s)) + (ctrl + 1))); [by apply wp_ret; split|].
  destruct (Z.ltb_spec N (ip + (ctrl + 1))); [by apply wp_ret; split|].
  eapply wp_call; [apply copy_literals_safe; [lia | lia | done | lia]|]. cbn beta. intros r s1 [-> Hs1].
  destruct (Z.ltb_spec (ip + Z.of_nat (Z.to_nat (ctrl + 1))) N); [|by apply wp_ret; split].
  apply wp_bind, wp_read; [lia|]. apply wp_ret. split; [done|]. split; [lia|]. apply at_byte; [done | lia].
Qed.

Lemma decode_loop_safe ip ctrl s :
  0 <= ip -> ip <= N \/ N = 0 /\ ip = 1 /\ ctrl < 32 -> 0 <= ctrl < 256 -> in_bounds s ->
  wp (fun n => decode_loop level input cap n N ip ctrl) s (fun r s' =>
    0 <= r <= cap /\ Z.of_nat (length (out s')) <= cap).
Proof.
  remember (Z.to_nat (N + 1 - ip)) as k eqn:Ek. revert ip ctrl s Ek.
  induction k as [k IH] using lt_wf_ind. intros ip ctrl s -> Hip0 Hip Hctrl Hs.
  eapply wp_unfold; [intros n; cbn [decode_loop]; reflexivity|]. cbv beta.
  eapply (wp_call _ _ _ (turn ip)).
  { destruct Hip as [Hip | (-> & -> & Hlt)].
    - destruct (Z.leb_spec 32 ctrl); [apply decode_match_safe; [lia | lia | done]|].
      apply decode_literals_safe; [lia | lia | done].
    - destruct (Z.leb_spec 32 ctrl); [lia|]. destruct Hs as [Hb Hl].
      unfold decode_literals. apply wp_bind, wp_position. rewrite u32_id by lia.
      destruct (Z.ltb_spec cap (Z.of_nat (length (out s)) + (ctrl + 1))); [by apply wp_ret; split|].
      destruct (Z.ltb_spec 0 (1 + (ctrl + 1))); [by apply wp_ret; split | lia]. }
  intros [[[ip' c]|]|] s1 [[Hb1 Hl1] Ht]; cbn beta iota.
  - eapply (IH (Z.to_nat (N + 1 - ip'))); [lia | done | lia | lia | lia | by split].
  - apply wp_position. lia.
  - apply wp_ret. lia.
Qed.
End safety.

(** On any input the decompressor returns, and stays within [maxout], provided two
    zero bytes follow the block: without them a truncated match is read past its end. *)
Lemma decompress_safe b junk maxout :
  bytes (b ++ 0 :: 0 :: junk) -> 0 <= maxout ->
  wp (fun _ => fastlz_decompress (b ++ 0 :: 0 :: junk) (Z.of_nat (length b)) maxout) fresh (fun r s' =>
    0 <= r <= maxout /\ Z.of_nat (length (out s')) <= maxout).
Proof.
  intros Hb Hm. set (input := b ++ 0 :: 0 :: junk) in *. set (N := Z.of_nat (length b)).
  assert (N + 2 <= Z.of_nat (length input)) as Hp by (unfold input; rewrite length_app; cbn [length]; lia).
  assert (at_ input N = 0 /\ at_ input (N + 1) = 0) as [Hz Hz1].
  { unfold at_, input, N. rewrite Z2Nat.inj_add, Nat2Z.id by lia.
    rewrite !lookup_total_app_r by (cbn; lia). rewrite Nat.sub_diag.
    replace (length b + Z.to_nat 1 - length b)%nat with 1%nat by lia. done. }
  pose proof (at_byte input 0 Hb ltac:(lia)) as H0.
  assert (0 <= Z.land (at_ input 0) 31 < 32) as Hc.
  { change 31 with (Z.ones 5). rewrite Z.land_ones by lia. apply Z.mod_pos_bound. lia. }
  assert (forall level, level = 1 \/ level = 2 ->
    wp (fun _ => decompressor level input maxout N) fresh (fun r s' =>
      0 <= r <= maxout /\ Z.of_nat (length (out s')) <= maxout)) as Hd.
  { intros level Hlv. unfold decompressor. apply wp_bind, wp_read; [lia|]. apply wp_with_fuel.
    apply (decode_loop_safe level input maxout N); try (done || lia). split; [constructor | cbn; lia]. }
  unfold fastlz_decompress. apply wp_bind, wp_read; [lia|].
  destruct (Z.eqb_spec (Z.shiftr (at_ input 0) 5 + 1) 1); [apply Hd; by left|].
  destruct (Z.eqb_spec (Z.shiftr (at_ input 0) 5 + 1) 2); [apply Hd; by right|].
  apply wp_ret. cbn. lia.
Qed.

(** A truncated match is read past the end of the block: three bytes, the last of
    which announces a match whose offset byte is missing. *)
Lemma truncated_match_overread fuel :
  (1 < fuel)%nat -> fastlz_decompress [0; 65; 32] 3 66 fuel fresh = Fault Bad_pointer.
Proof. intros H. destruct fuel as [|[|fuel]]; [lia | lia | reflexivity]. Qed.

(** ** Properties *)

(** What a call of a compressor of [x] must do: write what it says it has, at most
    33/32 of the input and one byte, and leave a block that decompresses to [x]
    with any output buffer of at least its size. *)
Definition compresses (code : M Z) (x : list Z) : Prop :=
  wp (fun _ => code) fresh (fun r s' =>
    r = Z.of_nat (length (out s')) /\ 32 * r <= 33 * Z.of_nat (length x) + 32 /\
    (x <> [] -> forall maxout, Z.of_nat (length x) <= maxout ->
      wp (fun _ => fastlz_decompress (out s') r maxout) fresh (fun n s'' =>
        out s'' = x /\ n = Z.of_nat (length x)))).

Lemma encoded_compresses code x : bytes x ->
  wp (fun _ => code) fresh (fun r s' =>
    r = Z.of_nat (length (out s')) /\ 32 * r <= 33 * Z.of_nat (length x) + 32 /\
    (x = [] /\ r = 0 \/ exists lv, (lv = 1 \/ lv = 2) /\ encodes lv x (out s'))) ->
  compresses code x.
Proof.
  intros Hx H. eapply wp_mono; [exact H|]. cbn beta. intros r s' (Hr & Hb & Hc).
  split; [done|]. split; [done|]. intros Hne maxout Hmax.
  destruct Hc as [[-> _]|(lv & Hlv & He)]; [done|]. rewrite Hr. by apply (decompress_spec lv).
Qed.

Lemma bytes_app_l x y : bytes (x ++ y) -> bytes x.
Proof. unfold bytes. intros H. by apply Forall_app in H as [H _]. Qed.

(** C4 Round trip: with the documented output size [cap], [fastlz_compress] of an input below 2^31 - 8 bytes, with a readable byte
    behind it if it has 64K or more (the code reads it), terminates, writes no more than it reports, and [fastlz_decompress] of
    the block into a buffer of at least the input's size gives the input back, if it is not empty (of nothing a block of no bytes is made). *)
Theorem compress_round_trip x pad cap :
  bytes (x ++ pad) -> Z.of_nat (length x) < 2147483640 ->
  (65536 <= Z.of_nat (length x) -> pad <> []) ->
  66 <= cap -> 105 * Z.of_nat (length x) <= 100 * cap ->
  compresses (fastlz_compress (x ++ pad) cap (Z.of_nat (length x))) x.
Proof.
  intros Hb Hn Hp Hc1 Hc2. apply encoded_compresses; [by eapply bytes_app_l|].
  apply fastlz_compress_spec; auto. apply documented_capacity; lia.
Qed.

Lemma compress_round_trip_witness :
  compresses (fastlz_compress ([1; 2; 3; 1; 2; 3; 1; 2; 3; 1; 2; 3; 1; 2; 3; 7; 7] ++ []) 66 17)
    [1; 2; 3; 1; 2; 3; 1; 2; 3; 1; 2; 3; 1; 2; 3; 7; 7].
Proof.
  apply (compress_round_trip [1; 2; 3; 1; 2; 3; 1; 2; 3; 1; 2; 3; 1; 2; 3; 7; 7] []); simpl; try lia.
  unfold bytes. repeat constructor; lia.
Defined.

(** [fastlz_compress_level] at level 1 or 2 has the same round trip, and at any other
    level returns 0 and writes nothing. *)
Lemma compress_level_round_trip level x pad cap :
  bytes (x ++ pad) -> Z.of_nat (length x) < 2147483640 -> (level = 2 -> pad <> []) ->
  66 <= cap -> 105 * Z.of_nat (length x) <= 100 * cap ->
  if (level =? 1) || (level =? 2)
  then compresses (fastlz_compress_level level (x ++ pad) cap (Z.of_nat (length x))) x
  else wp (fun _ => fastlz_compress_level level (x ++ pad) cap (Z.of_nat (length x))) fresh
         (fun r s' => r = 0 /\ s' = fresh).
Proof.
  intros Hb Hn Hp Hc1 Hc2. unfold fastlz_compress_level.
  destruct (Z.eqb_spec level 1) as [->|H1]; [|destruct (Z.eqb_spec level 2) as [->|H2]]; cbn [orb].
  - apply encoded_compresses; [by eapply bytes_app_l|].
    eapply wp_mono; [apply (compressor_spec 1 x pad cap); auto; apply documented_capacity; lia|].
    cbn beta. intros r s' (? & ? & [?|(lv & [->| ->] & ?)]); eauto 10.
  - apply encoded_compresses; [by eapply bytes_app_l|].
    eapply wp_mono; [apply (compressor_spec 2 x pad cap); auto; apply documented_capacity; lia|].
    cbn beta. intros r s' (? & ? & [?|(lv & [->| ->] & ?)]); eauto 10.
  - by apply wp_ret.
Qed.

Lemma compress_level_round_trip_witness :
  compresses (fastlz_compress_level 2 ([5; 5; 5; 5; 5; 5; 5; 5; 5; 5; 5; 5; 5; 5; 5; 5; 9] ++ [0]) 66 17)
    [5; 5; 5; 5; 5; 5; 5; 5; 5; 5; 5; 5; 5; 5; 5; 5; 9].
Proof.
  apply (compress_level_round_trip 2 [5; 5; 5; 5; 5; 5; 5; 5; 5; 5; 5; 5; 5; 5; 5; 5; 9] [0] 66); simpl; try lia; try done.
  unfold bytes. repeat constructor; lia.
Defined.

(** C36 [fastlz_decompress] is safe on arbitrary input bytes, valid block or not, that two
    zero bytes follow: it terminates, reads nothing before or behind, and writes at
    most [maxout] bytes. *)
Theorem decompress_total b junk maxout :
  bytes (b ++ 0 :: 0 :: junk) -> 0 <= maxout ->
  wp (fun _ => fastlz_decompress (b ++ 0 :: 0 :: junk) (Z.of_nat (length b)) maxout) fresh (fun r s' =>
    0 <= r <= maxout /\ Z.of_nat (length (out s')) <= maxout).
Proof. apply decompress_safe. Qed.

Lemma decompress_total_witness :
  wp (fun _ => fastlz_decompress ([255; 3; 200; 31; 255] ++ 0 :: 0 :: []) 5 10) fresh (fun r s' =>
    0 <= r <= 10 /\ Z.of_nat (length (out s')) <= 10).
Proof. apply (decompress_total [255; 3; 200; 31; 255] [] 10); [unfold bytes; repeat constructor; lia | lia]. Defined.

(** Without those bytes it is not: on a block of three bytes that ends in the
    first byte of a match, it reads behind the input, whatever [maxout] bounds. *)
Lemma decompress_overread fuel : (1 < fuel)%nat ->
  result fuel (fastlz_decompress [0; 65; 32] 3 66) = Fault Bad_pointer.
Proof. apply truncated_match_overread. Qed.

Lemma decompress_overread_witness : result 2 (fastlz_decompress [0; 65; 32] 3 66) = Fault Bad_pointer.
Proof. apply decompress_overread. lia. Defined.
