(* ===== verification/FastLZStream.v ===== *)
(** * FastLZ as 6pack and 6unpack call it

    Both programs keep one buffer for all blocks: the block is at its start and older bytes follow.  A
    run of the decompressor that is fine on the block alone does the same there. *)

From Stdlib Require Import ZArith Lia.
From stdpp Require Import base numbers list strings.
From S2P Require Import Prelude FastLZ.

Open Scope Z_scope.

(** ** Programs that do at least what another does *)

(** Wherever [p] returns, [q] returns the same. *)
Definition extends {S A} (p q : prog S A) : Prop :=
  forall fuel s a s', p fuel s = Ok a s' -> q fuel s = Ok a s'.

Section extends.
Context {S : Type}.

Lemma extends_refl {A} (p : prog S A) : extends p p.
Proof. intros fuel s a s' E. exact E. Qed.

Lemma extends_bind {A B} (p q : prog S A) (k l : A -> prog S B) :
  extends p q -> (forall a, extends (k a) (l a)) -> extends (p ≫= k) (q ≫= l).
Proof.
  intros Hp Hk fuel s b s' E. unfold mbind, prog_bind in *.
  destruct (p fuel s) as [a s1|] eqn:Ep; [|done]. rewrite (Hp _ _ _ _ Ep). by apply Hk.
Qed.

Lemma extends_with_fuel {A} (p q : nat -> prog S A) :
  (forall n, extends (p n) (q n)) -> extends (with_fuel p) (with_fuel q).
Proof. intros H fuel s a s' E. by apply H. Qed.

Lemma wp_extends {A} (p q : nat -> prog S A) s (Q : A -> S -> Prop) :
  (forall n, extends (p n) (q n)) -> wp p s Q -> wp q s Q.
Proof. intros H (N & a & s' & Hr & HQ). exists N, a, s'. split; [|done]. intros n fuel Hn Hf. by apply H, Hr. Qed.
End extends.

Create HintDb extends.
#[export] Hint Resolve extends_refl : extends.

(** Walks through two programs of the same shape. *)
Ltac extends :=
  repeat match goal with
  | |- extends _ _ => solve [auto with extends nocore]
  | |- forall _, extends _ _ => intros ?
  | |- extends (_ ≫= _) (_ ≫= _) => apply extends_bind
  | |- extends (with_fuel _) (with_fuel _) => apply extends_with_fuel
  | |- extends (match ?x with _ => _ end) _ => destruct x
  | |- extends (let '_ := ?x in _) _ => destruct x
  end.

(** ** The decompressor with bytes behind the block *)

Section longer.
Context (level : Z) (block junk : list Z) (cap : Z).

Lemma read_longer i : extends (read block i) (read (block ++ junk) i).
Proof.
  intros fuel s a s' E. unfold read, byte_at in *. destruct (i <? 0); [done|].
  destruct (block !! Z.to_nat i) as [b|] eqn:Eb; [|done]. by rewrite (lookup_app_l_Some _ _ _ _ Eb).
Qed.
#[local] Hint Resolve read_longer : extends.

Lemma copy_literals_longer k ip : extends (copy_literals block cap k ip) (copy_literals (block ++ junk) cap k ip).
Proof. revert ip. induction k as [|k IH]; intros ip; cbn [copy_literals]; extends. Qed.

Lemma len_loop_longer n ip len : extends (len_loop block n ip len) (len_loop (block ++ junk) n ip len).
Proof. revert ip len. induction n as [|n IH]; intros ip len; cbn [len_loop]; extends. Qed.
#[local] Hint Resolve copy_literals_longer len_loop_longer : extends.

Lemma match_header1_longer ip op ofs len :
  extends (match_header1 block ip op ofs len) (match_header1 (block ++ junk) ip op ofs len).
Proof. unfold match_header1. extends. Qed.

Lemma match_header2_longer ip op ofs len :
  extends (match_header2 level block ip op ofs len) (match_header2 level (block ++ junk) ip op ofs len).
Proof. unfold match_header2. extends. Qed.
#[local] Hint Resolve match_header1_longer match_header2_longer : extends.

Lemma decode_match_longer len ip ctrl :
  extends (decode_match level block cap len ip ctrl) (decode_match level (block ++ junk) cap len ip ctrl).
Proof. unfold decode_match. extends. Qed.

Lemma decode_literals_longer len ip ctrl :
  extends (decode_literals block cap len ip ctrl) (decode_literals (block ++ junk) cap len ip ctrl).
Proof. unfold decode_literals. extends. Qed.
#[local] Hint Resolve decode_match_longer decode_literals_longer : extends.

Lemma decode_loop_longer n len ip ctrl :
  extends (decode_loop level block cap n len ip ctrl) (decode_loop level (block ++ junk) cap n len ip ctrl).
Proof. revert ip ctrl. induction n as [|n IH]; intros ip ctrl; cbn [decode_loop]; extends. Qed.
#[local] Hint Resolve decode_loop_longer : extends.

Lemma decompressor_longer len :
  extends (decompressor level block cap len) (decompressor level (block ++ junk) cap len).
Proof. unfold decompressor. extends. Qed.
End longer.

Lemma decompress_longer block junk len maxout :
  extends (fastlz_decompress block len maxout) (fastlz_decompress (block ++ junk) len maxout).
Proof.
  unfold fastlz_decompress, fastlz1_decompress, fastlz2_decompress.
  pose proof (read_longer block junk). pose proof (fun level => decompressor_longer level block junk maxout len). extends.
Qed.

(** ** A block and its code *)

(** [z] is a block that decompresses to [x], whatever follows it. *)
Definition packs (x z : list Z) : Prop :=
  bytes z /\ 0 < Z.of_nat (length z) /\ 32 * Z.of_nat (length z) <= 33 * Z.of_nat (length x) + 32 /\
  forall junk maxout, Z.of_nat (length x) <= maxout ->
    wp (fun _ => fastlz_decompress (z ++ junk) (Z.of_nat (length z)) maxout) fresh (fun n s =>
      out s = x /\ n = Z.of_nat (length x)).

Lemma encodes_packs lv x z : lv = 1 \/ lv = 2 -> bytes x -> encodes lv x z ->
  32 * Z.of_nat (length z) <= 33 * Z.of_nat (length x) + 32 -> packs x z.
Proof.
  intros Hlv Hx He Hb. destruct (encodes_bytes lv x z Hlv Hx He) as [Hz Hne].
  assert (length z <> 0%nat) by (by intros ?%nil_length_inv).
  split; [done|]. split; [lia|]. split; [done|]. intros junk maxout Hm.
  eapply wp_extends; [intros ?; apply decompress_longer|]. by apply (decompress_spec lv).
Qed.

(** [fastlz_compress_level], for a block that is not empty. *)
Lemma compress_level_packs level x pad cap :
  level = 1 \/ level = 2 -> x <> [] -> bytes (x ++ pad) -> Z.of_nat (length x) < 2147483640 ->
  (level = 2 -> pad <> []) -> 33 * Z.of_nat (length x) + 1 <= 32 * cap ->
  wp (fun _ => fastlz_compress_level level (x ++ pad) cap (Z.of_nat (length x))) fresh (fun r s =>
    r = Z.of_nat (length (out s)) /\ packs x (out s)).
Proof.
  intros Hlv Hne Hb Hn Hp Hc. pose proof (bytes_app_l _ _ Hb) as Hx.
  assert (wp (fun _ => compressor level (x ++ pad) cap (Z.of_nat (length x))) fresh (fun r s =>
    r = Z.of_nat (length (out s)) /\ packs x (out s))) as Hw.
  { eapply wp_mono; [apply (compressor_spec level x pad cap); auto|]. cbn beta.
    intros r s (Hr & Hb' & [[-> _] | (lv & Hl & He)]); [done|]. split; [done|].
    apply (encodes_packs lv); [lia | done | done | lia]. }
  unfold fastlz_compress_level. destruct Hlv as [-> | ->]; exact Hw.
Qed.

(** ** Termination on any input

    Whatever the block, its length and the size of the output: the decompressor returns or makes an access that
    is out of bounds.  Every turn of its loop moves the input on. *)

Section termination.
Context (level : Z) (input : list Z) (cap : Z).

Lemma halts_input i s (Q : Z -> buffers -> Prop) :
  (forall b, 0 <= i < Z.of_nat (length input) -> Q b s) -> halts (fun _ => read input i) s Q.
Proof.
  intros HQ. unfold read, byte_at. destruct (Z.ltb_spec i 0); [by apply halts_fail|].
  destruct (input !! Z.to_nat i) as [b|] eqn:E; [|by apply halts_fail].
  apply halts_ret, HQ. apply lookup_lt_Some in E. lia.
Qed.

Lemma halts_read_out i s (Q : Z -> buffers -> Prop) : (forall b, Q b s) -> halts (fun _ => read_out i) s Q.
Proof.
  intros HQ. unfold read_out. apply halts_bind, halts_get_state.
  destruct (byte_at (out s) i); [by apply halts_ret | by apply halts_fail].
Qed.

Lemma halts_emit b s (Q : unit -> buffers -> Prop) : (forall s', Q tt s') -> halts (fun _ => emit cap b) s Q.
Proof.
  intros HQ. unfold emit. apply halts_bind, halts_get_state.
  destruct (_ <? cap); [by apply halts_set_state | by apply halts_fail].
Qed.

Lemma halts_position s (Q : Z -> buffers -> Prop) : (forall p, Q p s) -> halts (fun _ => position) s Q.
Proof. intros HQ. apply halts_bind, halts_get_state, halts_ret, HQ. Qed.

Lemma halts_fill k b s (Q : unit -> buffers -> Prop) : (forall s', Q tt s') -> halts (fun _ => fill cap k b) s Q.
Proof.
  revert s. induction k as [|k IH]; intros s HQ; cbn [fill]; [by apply halts_ret|].
  apply halts_bind, halts_emit. auto.
Qed.

Lemma halts_copy_ref k ref s (Q : unit -> buffers -> Prop) : (forall s', Q tt s') -> halts (fun _ => copy_ref cap k ref) s Q.
Proof.
  revert ref s. induction k as [|k IH]; intros ref s HQ; cbn [copy_ref]; [by apply halts_ret|].
  apply halts_bind, halts_read_out. intros b. apply halts_bind, halts_emit. auto.
Qed.

Lemma halts_copy_literals k ip s (Q : Z -> buffers -> Prop) :
  (forall s', Q (ip + Z.of_nat k) s') -> halts (fun _ => copy_literals input cap k ip) s Q.
Proof.
  revert ip s. induction k as [|k IH]; intros ip s HQ; cbn [copy_literals].
  - apply halts_ret. by replace ip with (ip + Z.of_nat 0) by lia.
  - apply halts_bind, halts_input. intros b _. apply halts_bind, halts_emit. intros s'. apply IH. intros s''.
    by replace (ip + 1 + Z.of_nat k) with (ip + Z.of_nat (S k)) by lia.
Qed.

Lemma halts_len_loop ip len s (Q : Z * Z -> buffers -> Prop) :
  (forall ip' len' s', ip < ip' -> Q (ip', len') s') -> halts (fun n => len_loop input n ip len) s Q.
Proof.
  remember (Z.to_nat (Z.of_nat (length input) - ip)) as k eqn:Ek. revert ip len s Ek.
  induction k as [k IH] using lt_wf_ind. intros ip len s -> HQ.
  eapply halts_unfold; [intros n; cbn [len_loop]; reflexivity|]. cbv beta.
  apply halts_bind, halts_input. intros b Hip. destruct (b =? 255).
  - eapply (IH (Z.to_nat (Z.of_nat (length input) - (ip + 1)))); [lia | done |]. intros ip' len' s' Hlt. apply HQ. lia.
  - apply halts_ret, HQ. lia.
Qed.

Lemma halts_header1 ip op ofs len s (Q : Z * Z * Z -> buffers -> Prop) :
  (forall ip' len' ref s', ip < ip' -> Q (ip', len', ref) s') ->
  halts (fun _ => match_header1 input ip op ofs len) s Q.
Proof.
  intros HQ. unfold match_header1. destruct (_ =? _).
  - apply halts_bind, halts_bind, halts_input. intros a _. apply halts_ret. cbn [fst snd].
    apply halts_bind, halts_input. intros b _. apply halts_ret, HQ. lia.
  - apply halts_bind, halts_ret. cbn [fst snd]. apply halts_bind, halts_input. intros b _. apply halts_ret, HQ. lia.
Qed.

Lemma halts_header2 ip op ofs len s (Q : Z * Z * Z -> buffers -> Prop) :
  (forall ip' len' ref s', ip < ip' -> Q (ip', len', ref) s') ->
  halts (fun _ => match_header2 level input ip op ofs len) s Q.
Proof.
  intros HQ. unfold match_header2.
  apply (halts_call _ _ _ (fun r _ => ip <= r.1)).
  { destruct (_ =? _); [|by apply halts_ret; cbn; lia].
    apply halts_with_fuel, halts_len_loop. intros ip' len' s' Hlt. cbn. lia. }
  intros [ip1 len1] s1 Hip. cbn [fst] in Hip. cbn beta iota. apply halts_bind, halts_input. intros c _.
  destruct (_ && _); [|apply halts_ret, HQ; lia].
  apply halts_bind, halts_input. intros a _. apply halts_bind, halts_input. intros b _. apply halts_ret, HQ. lia.
Qed.

(** A turn of the loop moves [ip] on, past the end at most by one. *)
Definition moves_on (len ip : Z) (r : option (option (Z * Z))) (s : buffers) : Prop :=
  match r with Some (Some (ip', _)) => ip < ip' <= len | _ => True end.

Lemma halts_decode_match len ip ctrl s :
  halts (fun _ => decode_match level input cap len ip ctrl) s (moves_on len ip).
Proof.
  unfold decode_match. apply halts_bind, halts_position. intros op.
  apply (halts_call _ _ _ (fun r _ => ip < r.1.1)).
  { destruct (level =? 1); [apply halts_header1 | apply halts_header2]; by intros. }
  intros [[ip1 mlen] ref] s1 Hip. cbn [fst] in Hip. cbn beta iota.
  destruct (cap <? _); [by apply halts_ret|]. destruct (_ <? 0); [by apply halts_ret|].
  apply (halts_call _ _ _ (fun r _ => match r with Some (ip', _) => ip < ip' <= len | None => True end)).
  { destruct (Z.ltb_spec ip1 len); [|by apply halts_ret]. apply halts_bind, halts_input. intros c _. apply halts_ret. lia. }
  intros next s2 Hn. apply (halts_call _ _ _ (fun _ _ => True)).
  { destruct (ref =? op).
    - apply halts_bind, halts_read_out. intros b. apply halts_bind, halts_fill. intros s3. by apply halts_fill.
    - apply halts_bind, halts_copy_ref. intros s3. by apply halts_copy_ref. }
  intros _ s3 _. apply halts_ret. by destruct next as [[]|].
Qed.

Lemma halts_decode_literals len ip ctrl s :
  halts (fun _ => decode_literals input cap len ip ctrl) s (moves_on len ip).
Proof.
  unfold decode_literals. apply halts_bind, halts_position. intros op. cbv zeta.
  destruct (cap <? _); [by apply halts_ret|]. destruct (len <? _); [by apply halts_ret|].
  apply halts_bind, halts_copy_literals. intros s1.
  set (ip1 := ip + _). destruct (Z.ltb_spec ip1 len); [|by apply halts_ret].
  apply halts_bind, halts_input. intros c _. apply halts_ret. cbn. lia.
Qed.

Lemma halts_decode_loop len ip ctrl s :
  halts (fun n => decode_loop level input cap n len ip ctrl) s (fun _ _ => True).
Proof.
  remember (Z.to_nat (len - ip)) as k eqn:Ek. revert ip ctrl s Ek.
  induction k as [k IH] using lt_wf_ind. intros ip ctrl s ->.
  eapply halts_unfold; [intros n; cbn [decode_loop]; reflexivity|]. cbv beta.
  apply (halts_call _ _ _ (moves_on len ip)).
  { destruct (32 <=? ctrl); [apply halts_decode_match | apply halts_decode_literals]. }
  intros [[[ip' c]|]|] s1 Hm; [|by apply halts_position | by apply halts_ret].
  cbn in Hm. eapply (IH (Z.to_nat (len - ip'))); [lia | done].
Qed.
End termination.

(** [fastlz_decompress] ends on any input. *)
Lemma decompress_halts input len maxout s :
  halts (fun _ => fastlz_decompress input len maxout) s (fun _ _ => True).
Proof.
  assert (forall level, halts (fun _ => decompressor level input maxout len) s (fun _ _ => True)) as Hd.
  { intros level. unfold decompressor. apply halts_bind, halts_input. intros c _.
    apply halts_with_fuel, halts_decode_loop. }
  unfold fastlz_decompress. apply halts_bind, halts_input. intros c _. cbv zeta.
  destruct (_ =? 1); [apply Hd|]. destruct (_ =? 2); [apply Hd | by apply halts_ret].
Qed.
