(* ===== verification/SixFile.v ===== *)
(** * The 6pack archive: files, checksum, chunks (src/archivers/fastlz/6pack.c, 6unpack.c)

    What 6pack and 6unpack share: integers of the width of long, stdio streams, the Adler-32
    checksum, the magic of an archive and the header of a chunk.  Both programs have their own copies
    of [update_adler32], [detect_magic] and the magic.

    The disk is a map from paths to the bytes of the files; a path is a C string without its NUL, and two paths are two
    files.  A stream is the pointer of a [FILE]: NULL, closed (dangling), reading, or writing; what is written
    reaches the disk when the stream is closed, and no write fails.  What is printed is a list of messages. *)

From Stdlib Require Import ZArith Lia.
From stdpp Require Import base numbers list strings gmap.
From S2P Require Import Prelude FastLZ.

Open Scope Z_scope.

(** ** The machine *)

(** The width of long, which both 32-bit and 64-bit targets allow. *)
Class data_model := DataModel {
  long_bits : Z;
  long_bits_ok : long_bits = 32 \/ long_bits = 64
}.

Abbreviation path := (list Z).

(** What is outside: which files can be created, which allocations succeed, and what memory
    that was never written contains (so many bytes, read at that position of the archive). *)
Class host := Host {
  can_create : path -> bool;
  malloc_ok : Z -> bool;
  stale : Z -> Z -> list Z;
  stale_length : forall p n, 0 <= n -> Z.of_nat (length (stale p n)) = n;
  stale_bytes : forall p n, bytes (stale p n);
  behind : list Z;          (** the bytes in memory behind [buffer] of pack_file_compressed *)
  behind_bytes : bytes behind
}.

(** ** Data *)

Inductive stream : Type :=
  | Null
  | Closed
  | Reading (data : list Z) (pos : Z)
  | Writing (name : path) (data : list Z).

Inductive message : Type :=
  | Usage
  | Version
  | Cannot_open (p : path)
  | Already_archive (p : path)
  | Already_exists (p : path)
  | Cannot_create (p : path)
  | Reading_failed (p : path)
  | Unknown_option (p : path)
  | No_input
  | No_output
  | Saved (percent tenth : Z)
  | Bar (name : list Z)        (** the name, and the dots of the progress bar *)
  | Hash                       (** one mark of the bar *)
  | Not_archive (p : path)
  | Archive (p : path)
  | Skipped_exists (p : path)
  | Skipped_create (p : path)
  | Entry_mismatch (got want : Z)
  | Stored_mismatch (got want : Z)
  | Packed_mismatch (got want : Z)
  | Decompression_failed
  | Unknown_method (options : Z).

(** [s_in] is the stream [in], [s_f] the stream [f]. *)
Record io : Type := Io {
  files : gmap path (list Z);
  s_in : stream;
  s_f : stream;
  said : list message
}.
Definition with_files (v : gmap path (list Z)) (s : io) : io := Io v (s_in s) (s_f s) (said s).
Definition with_in (v : stream) (s : io) : io := Io (files s) v (s_f s) (said s).
Definition with_f (v : stream) (s : io) : io := Io (files s) (s_in s) v (said s).
Definition with_said (v : list message) (s : io) : io := Io (files s) (s_in s) (s_f s) v.

Abbreviation IO := (prog io).

Definition say (m : message) : IO unit := modify (fun s => with_said (said s ++ [m]) s).

Section code.
Context {DM : data_model} {HO : host}.

(** ** Integers *)

Definition ulong (z : Z) : Z := z mod 2 ^ long_bits.
Definition slong (z : Z) : Z := (z + 2 ^ (long_bits - 1)) mod 2 ^ long_bits - 2 ^ (long_bits - 1).

(** Division of unsigned longs. *)
Definition udiv {S} (a b : Z) : prog S Z := if b =? 0 then fail Div_by_zero else mret (a / b).

(** ** Streams *)

(** [fopen(p, "rb")]. *)
Definition fopen_rb (p : path) : IO stream :=
  s ← get_state;
  mret (match files s !! p with Some data => Reading data 0 | None => Null end).

(** [fopen(p, "wb")]: the file is empty until the stream is closed. *)
Definition fopen_wb (p : path) : IO stream :=
  if can_create p then modify (fun s => with_files (<[p := []]> (files s)) s);; mret (Writing p [])
  else mret Null.

(** [fclose]. *)
Definition fclose (f : stream) : IO unit :=
  match f with
  | Null | Closed => fail Bad_pointer
  | Reading _ _ => mret tt
  | Writing p data => modify (fun s => with_files (<[p := data]> (files s)) s)
  end.

Definition close_in : IO unit := s ← get_state; fclose (s_in s);; modify (with_in Closed).
Definition close_f : IO unit := s ← get_state; fclose (s_f s);; modify (with_f Closed).

(** [fread(buffer, 1, n, in)]: the bytes that are read. *)
Definition fread (n : Z) : IO (list Z) :=
  s ← get_state;
  match s_in s with
  | Reading data pos =>
      let got := take (Z.to_nat n) (drop (Z.to_nat pos) data) in
      set_state (with_in (Reading data (pos + Z.of_nat (length got))) s);; mret got
  | _ => fail Bad_pointer
  end.

(** The bytes read replace the first bytes of the array. *)
Definition into (got buffer : list Z) : list Z := got ++ drop (length got) buffer.

(** [fwrite(data, 1, n, f)]. *)
Definition fwrite (data : list Z) : IO unit :=
  s ← get_state;
  match s_f s with
  | Writing p old => set_state (with_f (Writing p (old ++ data)) s)
  | _ => fail Bad_pointer
  end.

(** [ftell(in)]: -1 for a position that is no long. *)
Definition ftell : IO Z :=
  s ← get_state;
  match s_in s with
  | Reading _ pos => mret (if pos <? 2 ^ (long_bits - 1) then pos else -1)
  | _ => fail Bad_pointer
  end.

(** [fseek(in, offset, SEEK_SET)]: nothing happens when the offset is negative. *)
Definition fseek_set (offset : Z) : IO unit :=
  s ← get_state;
  match s_in s with
  | Reading data _ =>
      if slong offset <? 0 then mret tt else set_state (with_in (Reading data (slong offset)) s)
  | _ => fail Bad_pointer
  end.

(** [fseek(in, 0, SEEK_END)]. *)
Definition fseek_end : IO unit :=
  s ← get_state;
  match s_in s with
  | Reading data _ => set_state (with_in (Reading data (Z.of_nat (length data))) s)
  | _ => fail Bad_pointer
  end.

(** ** The checksum *)

Definition ADLER32_BASE : Z := 65521.

(** [s1 += *ptr++; s2 += s1;] *)
Definition adler_byte (a : list Z * Z * Z) : IO (list Z * Z * Z) :=
  let '(ptr, s1, s2) := a in
  match ptr with
  | b :: ptr => mret (ptr, ulong (s1 + b), ulong (s2 + ulong (s1 + b)))
  | [] => fail Bad_pointer
  end.

Definition adler_8 (a : list Z * Z * Z) : IO (list Z * Z * Z) :=
  a ← adler_byte a; a ← adler_byte a; a ← adler_byte a; a ← adler_byte a;
  a ← adler_byte a; a ← adler_byte a; a ← adler_byte a; adler_byte a.

(** [while(k >= 8)]. *)
Fixpoint eights_loop (n : nat) (k : Z) (a : list Z * Z * Z) : IO (Z * (list Z * Z * Z)) :=
  match n with
  | O => fail Out_of_fuel
  | S n => if 8 <=? k then a ← adler_8 a; eights_loop n (k - 8) a else mret (k, a)
  end.

(** [while(k-- > 0)]. *)
Fixpoint ones_loop (n : nat) (k : Z) (a : list Z * Z * Z) : IO (list Z * Z * Z) :=
  match n with
  | O => fail Out_of_fuel
  | S n => if 0 <? k then a ← adler_byte a; ones_loop n (k - 1) a else mret a
  end.

(** [while(len > 0)]. *)
Fixpoint adler_loop (n : nat) (len : Z) (a : list Z * Z * Z) : IO (list Z * Z * Z) :=
  match n with
  | O => fail Out_of_fuel
  | S n =>
      if 0 <? len then
        let k := if len <? 5552 then len else 5552 in
        ka ← with_fuel (fun n => eights_loop n k a);
        '(ptr, s1, s2) ← with_fuel (fun n => ones_loop n ka.1 ka.2);
        adler_loop n (len - k) (ptr, s1 mod ADLER32_BASE, s2 mod ADLER32_BASE)
      else mret a
  end.

(** The length is an int: a long is cut when it is passed. *)
Definition update_adler32 (checksum : Z) (buf : list Z) (len : Z) : IO Z :=
  let s1 := Z.land checksum 65535 in
  let s2 := Z.land (Z.shiftr checksum 16) 65535 in
  '(_, s1, s2) ← with_fuel (fun n => adler_loop n (wrap32 len) (buf, s1, s2));
  mret (ulong (ulong (Z.shiftl s2 16) + s1)).

(** ** The magic *)

Definition sixpack_magic : list Z := [137; 54; 80; 75; 13; 10; 26; 10].

(** [for(c = 0; c < 8; c++) if(buffer[c] != sixpack_magic[c])]. *)
Fixpoint same_magic (buffer magic : list Z) : bool :=
  match buffer, magic with
  | b :: buffer, m :: magic => if b =? m then same_magic buffer magic else false
  | _, _ => true
  end.

(** [fseek(f, SEEK_SET, 0)] has its last arguments swapped: as SEEK_SET is 0 it is the same. *)
Definition detect_magic : IO bool :=
  fseek_set 0;;
  got ← fread 8;
  fseek_set 0;;
  if Z.of_nat (length got) <? 8 then mret false else mret (same_magic got sixpack_magic).

Definition write_magic : IO unit := fwrite sixpack_magic.

(** ** The header of a chunk *)

Record header : Type := Header {
  h_id : Z; h_options : Z; h_size : Z; h_checksum : Z; h_extra : Z
}.

Definition put16 (v : Z) : list Z := [Z.land v 255; u8 (Z.shiftr v 8)].
Definition put32 (v : Z) : list Z :=
  [Z.land v 255; Z.land (Z.shiftr v 8) 255; Z.land (Z.shiftr v 16) 255; Z.land (Z.shiftr v 24) 255].

Definition write_chunk_header (h : header) : IO unit :=
  fwrite (put16 (h_id h) ++ put16 (h_options h) ++ put32 (h_size h) ++ put32 (h_checksum h) ++ put32 (h_extra h)).

(** [ptr[3] << 24] is an int, negative from 128 on. *)
Definition readU16 (ptr : list Z) : Z := ulong (ptr !!! 0%nat + Z.shiftl (ptr !!! 1%nat) 8).
Definition readU32 (ptr : list Z) : Z :=
  ulong (ptr !!! 0%nat + Z.shiftl (ptr !!! 1%nat) 8 + Z.shiftl (ptr !!! 2%nat) 16
    + wrap32 (Z.shiftl (ptr !!! 3%nat) 24)).

(** What a short read leaves of the 16 bytes is what the stack contains. *)
Definition read_chunk_header : IO header :=
  s ← get_state;
  let pos := match s_in s with Reading _ pos => pos | _ => 0 end in
  got ← fread 16;
  let buffer := into got (stale pos 16) in
  mret (Header (Z.land (readU16 buffer) 65535) (Z.land (readU16 (drop 2 buffer)) 65535)
    (Z.land (readU32 (drop 4 buffer)) 4294967295) (Z.land (readU32 (drop 8 buffer)) 4294967295)
    (Z.land (readU32 (drop 12 buffer)) 4294967295)).

(** ** The progress bar *)

(** [while(last_percent < (int)percent) { printf("#"); last_percent++; }] *)
Fixpoint hash_loop (n : nat) (last percent : Z) : IO unit :=
  match n with
  | O => fail Out_of_fuel
  | S n => if last <? percent then say Hash;; hash_loop n (last + 1) percent else mret tt
  end.

(** The name as the bar shows it: cut to 13 characters and two dots, padded to 16. *)
Definition shown (name : list Z) : list Z :=
  if Z.of_nat (length name) <? 16 then name ++ replicate (16 - length name) 32
  else take 13 name ++ [46; 46; 32].

(** A call of fastlz.c: the value it returns and the output it leaves. *)
Definition call_fastlz (m : prog buffers Z) : IO (Z * list Z) := fun fuel s =>
  match m fuel fresh with Ok r b => Ok (r, out b) s | Fault f => Fault f end.
End code.
