(* ===== verification/SixPack.v ===== *)
(** * 6pack (src/archivers/fastlz/6pack.c)

    The packer: [pack_file_compressed] writes the entry of a file and its blocks, [pack_file] opens the
    archive, [main] reads the command line.  [benchmark_speed] is compiled on Windows only and not
    modelled. *)

From Stdlib Require Import ZArith Lia.
From stdpp Require Import base numbers list strings gmap.
From S2P Require Import Prelude FastLZ SixFile.

Open Scope Z_scope.

Definition BLOCK_SIZE : Z := 131072.
Definition PATH_SEPARATOR : Z := 47.

Section code.
Context {DM : data_model} {HO : host}.

(** [while(shown_name > input_file) if(shown_name[-1] == PATH_SEPARATOR) break; else shown_name--;] *)
Fixpoint name_start (p : path) (i : nat) : nat :=
  match i with
  | O => O
  | S j => if p !!! j =? PATH_SEPARATOR then i else name_start p j
  end.
Definition shown_name (p : path) : list Z := drop (name_start p (length p - 1)) p.

(** The ten bytes before the name in a file entry. *)
Definition entry_head (fsize : Z) (name : list Z) : list Z :=
  put32 fsize ++ [0; 0; 0; 0] ++
  [Z.land (Z.of_nat (length name) + 1) 255; u8 (Z.shiftr (Z.of_nat (length name) + 1) 8)].

(** The percentage of [total] in [fsize], as both programs compute it for the bar. *)
Definition progress_percent (total fsize : Z) : IO Z :=
  q ← (if fsize <? Z.shiftl 1 24 then udiv (ulong (total * 100)) fsize
       else udiv (ulong (total / 256 * 100)) (Z.shiftr fsize 8));
  mret (Z.shiftr q 1).

(** What one block adds to the archive: its bytes are the first [bytes_read] of [buffer]. *)
Definition write_block (method level : Z) (buffer : list Z) (bytes_read : Z) : IO Z :=
  let compress_method := if bytes_read <? 32 then 0 else method in
  if compress_method =? 1 then
    '(chunk_size, result) ← call_fastlz (fastlz_compress_level level (buffer ++ behind) (BLOCK_SIZE * 2) bytes_read);
    checksum ← update_adler32 1 result chunk_size;
    write_chunk_header (Header 17 1 chunk_size checksum bytes_read);;
    fwrite (take (Z.to_nat chunk_size) result);;
    mret (16 + chunk_size)
  else
    checksum ← update_adler32 1 buffer bytes_read;
    write_chunk_header (Header 17 0 bytes_read checksum bytes_read);;
    fwrite (take (Z.to_nat bytes_read) buffer);;
    mret (16 + bytes_read).

(** [for(;;)]: the blocks. *)
Fixpoint blocks_loop (n : nat) (method level fsize : Z) (buffer : list Z) (percent total_read total_compressed : Z) :
    IO (Z * Z) :=
  match n with
  | O => fail Out_of_fuel
  | S n =>
      let last_percent := wrap32 percent in
      got ← fread BLOCK_SIZE;
      let bytes_read := Z.of_nat (length got) in
      if bytes_read =? 0 then mret (total_read, total_compressed) else
      let buffer := into got buffer in
      let total_read := ulong (total_read + bytes_read) in
      percent ← progress_percent total_read fsize;
      with_fuel (fun n => hash_loop n last_percent (wrap32 percent));;
      size ← write_block method level buffer bytes_read;
      blocks_loop n method level fsize buffer percent total_read (ulong (total_compressed + size))
  end.

Definition report_saved (total_compressed fsize : Z) : IO unit :=
  if total_compressed <? fsize then
    q ← (if fsize <? Z.shiftl 1 20 then udiv (ulong (total_compressed * 1000)) fsize
         else udiv (ulong (total_compressed / 256 * 1000)) (Z.shiftr fsize 8));
    let percent := wrap32 (ulong (1000 - q)) in
    say (Saved (Z.quot percent 10) (Z.rem percent 10))
  else mret tt.

Definition pack_file_compressed (input_file : path) (method level : Z) : IO Z :=
  s_in ← fopen_rb input_file;
  if s_in is Null then say (Cannot_open input_file);; mret (-1) else
  modify (with_in s_in);;
  fseek_end;; t ← ftell; let fsize := ulong t in fseek_set 0;;
  already ← detect_magic;
  if already : bool then say (Already_archive input_file);; close_in;; mret (-1) else
  let name := shown_name input_file in
  let buffer := into (entry_head fsize name) (stale 0 BLOCK_SIZE) in
  let name_size := Z.of_nat (length name) + 1 in
  checksum ← update_adler32 1 buffer 10;
  checksum ← update_adler32 checksum (name ++ [0]) name_size;
  write_chunk_header (Header 1 0 (10 + name_size) checksum 0);;
  fwrite (take 10 buffer);;
  fwrite (name ++ [0]);;
  say (Bar (shown name));;
  '(total_read, total_compressed) ←
    with_fuel (fun n => blocks_loop n method level fsize buffer 0 0 (16 + 10 + name_size));
  close_in;;
  if negb (total_read =? fsize) then say (Reading_failed input_file);; mret (-1)
  else report_saved total_compressed fsize;; mret 0.

Definition pack_file (compress_level : Z) (input_file output_file : path) : IO Z :=
  f ← fopen_rb output_file;
  match f with
  | Null =>
      f ← fopen_wb output_file;
      match f with
      | Null => say (Cannot_create output_file);; mret (-1)
      | _ =>
          modify (with_f f);;
          write_magic;;
          result ← pack_file_compressed input_file 1 compress_level;
          close_f;;
          mret result
      end
  | _ => fclose f;; say (Already_exists output_file);; mret (-1)
  end.

(** ** The command line *)

Definition is_option (argument : path) (texts : list (list Z)) : bool := bool_decide (argument ∈ texts).

Definition opt_h : list Z := [45; 104].                                (* -h *)
Definition opt_help : list Z := [45; 45; 104; 101; 108; 112].          (* --help *)
Definition opt_v : list Z := [45; 118].                                (* -v *)
Definition opt_version : list Z := [45; 45; 118; 101; 114; 115; 105; 111; 110].    (* --version *)
Definition opt_mem : list Z := [45; 109; 101; 109].                    (* -mem *)
Definition opt_1 : list Z := [45; 49].                                 (* -1 *)
Definition opt_fastest : list Z := [45; 45; 102; 97; 115; 116; 101; 115; 116].     (* --fastest *)
Definition opt_2 : list Z := [45; 50].                                 (* -2 *)

(** The loop over argv, from the second one to the NULL behind the last. *)
Fixpoint args_loop (argv : list (option path)) (compress_level : Z) (benchmark : bool)
    (input_file output_file : option path) : IO Z :=
  match argv with
  | [] =>
      match input_file with
      | None => say No_input;; mret (-1)
      | Some input_file =>
          match output_file, benchmark with
          | None, false => say No_output;; mret (-1)
          | None, true => fail Bad_pointer       (* fopen of NULL *)
          | Some output_file, _ => pack_file compress_level input_file output_file
          end
      end
  | None :: argv => args_loop argv compress_level benchmark input_file output_file
  | Some argument :: argv =>
      if is_option argument [opt_h; opt_help] then say Usage;; mret 0 else
      if is_option argument [opt_v; opt_version] then say Version;; mret 0 else
      if is_option argument [opt_mem] then args_loop argv compress_level true input_file output_file else
      if is_option argument [opt_1; opt_fastest] then args_loop argv 1 benchmark input_file output_file else
      if is_option argument [opt_2] then args_loop argv 2 benchmark input_file output_file else
      if hd 0 argument =? 45 then say (Unknown_option argument);; mret (-1) else
      match input_file, output_file with
      | None, _ => args_loop argv compress_level benchmark (Some argument) output_file
      | Some _, None => args_loop argv compress_level benchmark input_file (Some argument)
      | Some _, Some _ => say (Unknown_option argument);; mret (-1)
      end
  end.

Definition main (args : list path) : IO Z :=
  if (length args =? 1)%nat then say Usage;; mret 0
  else args_loop (drop 1 (map Some args ++ [None])) 2 false None None.
End code.
