(* ===== verification/SixUnpack.v ===== *)
(** * 6unpack (src/archivers/fastlz/6unpack.c)

    The unpacker.  The local variables of unpack_file that live from chunk to chunk are the record
    [locals]; [in] and [f] are the streams of the state. *)

From Stdlib Require Import ZArith Lia.
From stdpp Require Import base numbers list strings gmap.
From S2P Require Import Prelude FastLZ SixFile SixPack.

Open Scope Z_scope.

Definition BLOCK_SIZE : Z := 65536.

(** A malloc'd buffer is the list of its bytes, NULL is [None]. *)
Record locals : Type := Locals {
  u_buffer : list Z;
  u_output_file : option path;
  u_decompressed_size : Z;
  u_total_extracted : Z;
  u_percent : Z;
  u_compressed_buffer : option (list Z);
  u_compressed_bufsize : Z;
  u_decompressed_buffer : option unit;   (** its content is never read before it is written *)
  u_decompressed_bufsize : Z
}.
Definition with_buffer v l := Locals v (u_output_file l) (u_decompressed_size l) (u_total_extracted l) (u_percent l)
  (u_compressed_buffer l) (u_compressed_bufsize l) (u_decompressed_buffer l) (u_decompressed_bufsize l).
Definition with_output_file v l := Locals (u_buffer l) v (u_decompressed_size l) (u_total_extracted l) (u_percent l)
  (u_compressed_buffer l) (u_compressed_bufsize l) (u_decompressed_buffer l) (u_decompressed_bufsize l).
Definition with_sizes size total percent l := Locals (u_buffer l) (u_output_file l) size total percent
  (u_compressed_buffer l) (u_compressed_bufsize l) (u_decompressed_buffer l) (u_decompressed_bufsize l).
Definition with_total v l := with_sizes (u_decompressed_size l) v (u_percent l) l.
Definition with_percent v l := with_sizes (u_decompressed_size l) (u_total_extracted l) v l.
Definition with_compressed b n l := Locals (u_buffer l) (u_output_file l) (u_decompressed_size l) (u_total_extracted l)
  (u_percent l) b n (u_decompressed_buffer l) (u_decompressed_bufsize l).
Definition with_decompressed b n l := Locals (u_buffer l) (u_output_file l) (u_decompressed_size l) (u_total_extracted l)
  (u_percent l) (u_compressed_buffer l) (u_compressed_bufsize l) b n.

(** Up to the first NUL: what a C string is to fopen and printf. *)
Fixpoint c_str (l : list Z) : list Z :=
  match l with
  | [] => []
  | c :: l => if c =? 0 then [] else c :: c_str l
  end.

Definition is_open (f : stream) : bool := match f with Null => false | _ => true end.

Section code.
Context {DM : data_model} {HO : host}.

(** The file is given up: [fclose(f); f = 0; free(output_file); output_file = 0; printf(...)]. *)
Definition drop_file (why : message) (l : locals) : IO locals :=
  close_f;; modify (with_f Null);; say why;; mret (with_output_file None l).

(** [if(f) fclose(f)]. *)
Definition close_f_if_open : IO unit := s ← get_state; if is_open (s_f s) then close_f else mret tt.

(** [malloc(n)] of a buffer that is read from the position [p] of the archive. *)
Definition malloc (p n : Z) : option (list Z) := if malloc_ok n then Some (stale p n) else None.

(** *** A file entry: [None] is the return of -1

    The result of the malloc of the name is not looked at: without memory memset writes through NULL. *)

Definition file_entry (h : header) (l : locals) : IO (option locals) :=
  close_f_if_open;;
  got ← fread (h_size h);
  let l := with_output_file None (with_buffer (into got (u_buffer l)) l) in
  checksum ← update_adler32 1 (u_buffer l) (h_size h);
  if negb (checksum =? h_checksum h) then
    close_in;; say (Entry_mismatch checksum (h_checksum h));; mret None
  else
  let l := with_sizes (readU32 (u_buffer l)) 0 0 l in
  let name_length := readU16 (drop 8 (u_buffer l)) in
  let name_length := if h_size h - 10 <? name_length then h_size h - 10 else name_length in
  if negb (malloc_ok (name_length + 1)) then fail Bad_pointer else
  let output_file := c_str (take (Z.to_nat name_length) (drop 10 (u_buffer l))) in
  f ← fopen_rb output_file;
  match f with
  | Null =>
      f ← fopen_wb output_file;
      modify (with_f f);;
      match f with
      | Null => say (Skipped_create output_file);; mret (Some l)
      | _ => say (Bar (shown output_file));; mret (Some (with_output_file (Some output_file) l))
      end
  | _ =>
      fclose f;; modify (with_f Null);;
      say (Skipped_exists output_file);; mret (Some l)
  end.

(** *** A stored block *)

Fixpoint stored_loop (n : nat) (remaining checksum : Z) (buffer : list Z) : IO (Z * list Z) :=
  match n with
  | O => fail Out_of_fuel
  | S n =>
      let r := if BLOCK_SIZE <? remaining then BLOCK_SIZE else remaining in
      got ← fread r;
      let bytes_read := Z.of_nat (length got) in
      if bytes_read =? 0 then mret (checksum, buffer) else
      let buffer := into got buffer in
      fwrite (take (length got) buffer);;
      checksum ← update_adler32 checksum buffer bytes_read;
      stored_loop n (ulong (remaining - bytes_read)) checksum buffer
  end.

Definition stored_block (h : header) (l : locals) : IO locals :=
  let l := with_total (ulong (u_total_extracted l + h_size h)) l in
  '(checksum, buffer) ← with_fuel (fun n => stored_loop n (h_size h) 1 (u_buffer l));
  let l := with_buffer buffer l in
  if negb (checksum =? h_checksum h) then drop_file (Stored_mismatch checksum (h_checksum h)) l
  else mret l.

(** *** A compressed block *)

(** [fread(compressed_buffer, 1, n, in)]. *)
Definition fread_buffer (n : Z) (b : option (list Z)) : IO (option (list Z)) :=
  got ← fread n;
  match b, got with
  | Some buffer, _ => mret (Some (into got buffer))
  | None, [] => mret None
  | None, _ :: _ => fail Bad_pointer
  end.

(** The bytes behind a pointer that may be NULL: none. *)
Definition pointed (b : option (list Z)) : list Z := default [] b.

(** [fastlz_decompress] into a buffer that may be NULL, which it must not write to. *)
Definition decompress (b : option (list Z)) (len : Z) (to : option unit) (maxout : Z) : IO (Z * list Z) :=
  '(r, out) ← call_fastlz (fastlz_decompress (pointed b) (wrap32 len) (wrap32 maxout));
  match to, out with
  | None, _ :: _ => fail Bad_pointer
  | _, _ => mret (r, out)
  end.

Definition packed_block (pos : Z) (h : header) (l : locals) : IO locals :=
  let l := if u_compressed_bufsize l <? h_size h
           then with_compressed (malloc pos (h_size h)) (h_size h) l else l in
  let l := if u_decompressed_bufsize l <? h_extra h
           then with_decompressed (if malloc_ok (h_extra h) then Some tt else None) (h_extra h) l else l in
  b ← fread_buffer (h_size h) (u_compressed_buffer l);
  let l := with_compressed b (u_compressed_bufsize l) l in
  checksum ← update_adler32 1 (pointed b) (h_size h);
  let l := with_total (ulong (u_total_extracted l + h_extra h)) l in
  if negb (checksum =? h_checksum h) then drop_file (Packed_mismatch checksum (h_checksum h)) l else
  '(remaining, out) ← decompress b (h_size h) (u_decompressed_buffer l) (h_extra h);
  if negb (ulong remaining =? h_extra h) then drop_file Decompression_failed l
  else fwrite (take (Z.to_nat (h_extra h)) out);; mret l.

(** *** A block *)

Definition show_progress (l : locals) : IO locals :=
  s ← get_state;
  if is_open (s_f s) then
    let last_percent := wrap32 (u_percent l) in
    percent ← progress_percent (u_total_extracted l) (u_decompressed_size l);
    with_fuel (fun n => hash_loop n last_percent (wrap32 percent));;
    mret (with_percent percent l)
  else mret l.

Definition data_block (pos : Z) (h : header) (l : locals) : IO locals :=
  l ← (if h_options h =? 0 then stored_block h l
       else if h_options h =? 1 then packed_block pos h l
       else drop_file (Unknown_method (h_options h)) l);
  show_progress l.

(** [for(;;)]: the chunks.  [None] is the return of -1 from the loop. *)
Fixpoint chunks_loop (n : nat) (fsize : Z) (l : locals) : IO (option locals) :=
  match n with
  | O => fail Out_of_fuel
  | S n =>
      t ← ftell;
      let pos := ulong t in
      if fsize <=? pos then mret (Some l) else
      h ← read_chunk_header;
      r ← (if (h_id h =? 1) && (10 <? h_size h) && (h_size h <? BLOCK_SIZE)
           then file_entry h l else mret (Some l));
      match r with
      | None => mret None
      | Some l =>
          s ← get_state;
          l ← (if (h_id h =? 17) && is_open (s_f s) && bool_decide (is_Some (u_output_file l))
                  && negb (u_decompressed_size l =? 0)
               then data_block pos h l else mret l);
          fseek_set (ulong (pos + 16 + h_size h));;
          chunks_loop n fsize l
      end
  end.

Definition unpack_file (input_file : path) : IO Z :=
  s_in ← fopen_rb input_file;
  if s_in is Null then say (Cannot_open input_file);; mret (-1) else
  modify (with_in s_in);;
  fseek_end;; t ← ftell; let fsize := ulong t in fseek_set 0;;
  archive ← detect_magic;
  if negb archive then close_in;; say (Not_archive input_file);; mret (-1) else
  say (Archive input_file);;
  fseek_set 8;;
  modify (with_f Null);;
  r ← with_fuel (fun n => chunks_loop n fsize (Locals (stale 0 BLOCK_SIZE) None 0 0 0 None 0 None 0));
  match r with
  | None => mret (-1)
  | Some _ => close_f_if_open;; close_in;; mret 0
  end.

(** ** The command line *)

Definition main (args : list path) : IO Z :=
  if (length args =? 1)%nat then say Usage;; mret 0 else
  let argv := map Some args ++ [None] in
  let given texts := existsb (fun a => match a with Some a => is_option a texts | None => false end) (drop 1 argv) in
  if given [opt_h; opt_help] then say Usage;; mret 0 else
  if given [opt_v; opt_version] then say Version;; mret 0 else
  if (length args <=? 1)%nat then say Usage;; mret 0 else
  match argv !! 1%nat with
  | Some (Some archive_file) => unpack_file archive_file
  | _ => fail Bad_pointer
  end.
End code.
