(* ===== verification/SixSpec.v ===== *)
(** * What the parts of 6pack and 6unpack compute

    The rules of the streams, the checksum against its definition in RFC 1950, the header of a
    chunk, and fastlz.c as 6pack calls it. *)

From Stdlib Require Import ZArith Lia.
From stdpp Require Import base numbers list strings gmap.
From S2P Require Import Prelude FastLZ SixFile.

Open Scope Z_scope.

(** ** The Adler-32 checksum of RFC 1950 *)

Definition adler_step (s : Z * Z) (b : Z) : Z * Z :=
  let s1 := (s.1 + b) mod 65521 in (s1, (s.2 + s1) mod 65521).
Definition adler_from (s : Z * Z) (l : list Z) : Z * Z := foldl adler_step s l.
Definition pack_sums (s : Z * Z) : Z := s.2 * 65536 + s.1.
Definition adler32 (l : list Z) : Z := pack_sums (adler_from (1, 0) l).

(** Both sums are residues. *)
Definition reduced (s : Z * Z) : Prop := 0 <= s.1 < 65521 /\ 0 <= s.2 < 65521.

Lemma adler_step_reduced s b : reduced (adler_step s b).
Proof. split; apply Z.mod_pos_bound; lia. Qed.

Lemma adler_from_reduced s l : reduced s -> reduced (adler_from s l).
Proof.
  revert s. induction l as [|b l IH]; intros s Hs; [done|]. apply IH, adler_step_reduced.
Qed.

Lemma adler_from_app s l l' : adler_from s (l ++ l') = adler_from (adler_from s l) l'.
Proof. apply foldl_app. Qed.

Lemma adler32_range l : 0 <= adler32 l < 4294967296.
Proof.
  destruct (adler_from_reduced (1, 0) l ltac:(split; cbn; lia)) as [H1 H2]. unfold adler32, pack_sums. lia.
Qed.

(** *** A changed byte is seen *)

Definition byte_sum (l : list Z) : Z := foldr Z.add 0 l.

Lemma adler_from_sum s l : reduced s -> (adler_from s l).1 = (s.1 + byte_sum l) mod 65521.
Proof.
  revert s. induction l as [|b l IH]; intros s Hs; cbn [byte_sum foldr adler_from foldl].
  - destruct Hs as [H1 _]. by rewrite Z.add_0_r, Z.mod_small.
  - fold (adler_from (adler_step s b) l). rewrite IH by apply adler_step_reduced. cbn [adler_step fst].
    rewrite Zplus_mod_idemp_l. by rewrite <- Z.add_assoc.
Qed.

Lemma byte_sum_app l l' : byte_sum (l ++ l') = byte_sum l + byte_sum l'.
Proof. induction l as [|b l IH]; cbn [app byte_sum foldr] in *; [done|]. fold (byte_sum (l ++ l')). rewrite IH. unfold byte_sum. lia. Qed.

Lemma adler32_one_byte pre b b' post : 0 <= b < 256 -> 0 <= b' < 256 -> b <> b' ->
  adler32 (pre ++ b' :: post) <> adler32 (pre ++ b :: post).
Proof.
  intros Hb Hb' Hne E. unfold adler32, pack_sums in E.
  assert (reduced (1, 0)) as H1 by (split; cbn; lia).
  destruct (adler_from_reduced (1, 0) (pre ++ b :: post) H1) as [Ha _].
  destruct (adler_from_reduced (1, 0) (pre ++ b' :: post) H1) as [Ha' _].
  assert ((adler_from (1, 0) (pre ++ b' :: post)).1 = (adler_from (1, 0) (pre ++ b :: post)).1) as E1 by lia.
  rewrite !adler_from_sum, !byte_sum_app in E1 by done. cbn [byte_sum foldr fst] in E1.
  fold (byte_sum post) in E1. revert E1. generalize (byte_sum pre), (byte_sum post). intros u v E1.
  assert ((b - b') mod 65521 = 0) as E2.
  { replace (b - b') with ((1 + (u + (b + v))) - (1 + (u + (b' + v)))) by lia.
    by rewrite Zminus_mod, E1, Z.sub_diag. }
  apply Z.mod_divide in E2; [|lia]. destruct E2 as (k & Ek). lia.
Qed.

(** The sums without reduction, as the code keeps them within a run of 5552 bytes. *)
Definition sum_step (s : Z * Z) (b : Z) : Z * Z := (s.1 + b, s.2 + (s.1 + b)).
Definition sums (s : Z * Z) (l : list Z) : Z * Z := foldl sum_step s l.
Definition residues (s : Z * Z) : Z * Z := (s.1 mod 65521, s.2 mod 65521).

Lemma sums_app s l l' : sums s (l ++ l') = sums (sums s l) l'.
Proof. apply foldl_app. Qed.

Lemma residues_step s b : adler_step (residues s) b = residues (sum_step s b).
Proof.
  unfold adler_step, residues, sum_step. cbn [fst snd]. f_equal; [by rewrite Zplus_mod_idemp_l|].
  by rewrite (Zplus_mod_idemp_l (s.1)), Zplus_mod_idemp_l, Zplus_mod_idemp_r.
Qed.

Lemma residues_sums s l : adler_from (residues s) l = residues (sums s l).
Proof. revert s. induction l as [|b l IH]; intros s; [done|]. cbn. by rewrite residues_step, IH. Qed.

Lemma residues_id s : reduced s -> residues s = s.
Proof. destruct s as [a b]. intros [H1 H2]. unfold residues. cbn [fst snd] in *. by rewrite !Z.mod_small by lia. Qed.

(** Room for [j] more bytes in 32 bits. *)
Definition room (j : Z) (s : Z * Z) : Prop :=
  0 <= s.1 /\ 0 <= s.2 /\ 2 * s.2 + 2 * (j * s.1) + 255 * (j * (j + 1)) < 8589934592.

Lemma room_step j s b : 0 <= b < 256 -> 1 <= j -> room j s -> room (j - 1) (sum_step s b).
Proof. destruct s as [s1 s2]. unfold room, sum_step. cbn [fst snd]. intros Hb Hj (H1 & H2 & H3). split_and!; nia. Qed.

Lemma room_sums j s l : bytes l -> Z.of_nat (length l) <= j -> room j s -> room (j - Z.of_nat (length l)) (sums s l).
Proof.
  revert j s. induction l as [|b l IH]; intros j s Hb Hj Hr; cbn [length sums foldl] in *; [by rewrite Z.sub_0_r|].
  apply Forall_cons in Hb as [Hb Hl]. replace (j - _) with (j - 1 - Z.of_nat (length l)) by lia.
  apply IH; [done | lia |]. apply room_step; [done | lia | done].
Qed.

Lemma room_step_fits j s b : 0 <= b < 256 -> 1 <= j -> room j s ->
  0 <= s.1 + b < 4294967296 /\ 0 <= s.2 + (s.1 + b) < 4294967296.
Proof. destruct s as [s1 s2]. unfold room. cbn [fst snd]. intros Hb Hj (H1 & H2 & H3). split; nia. Qed.

(** 5552 bytes always have room: this is why the code reduces after so many. *)
Lemma room_5552 s : reduced s -> room 5552 s.
Proof. destruct s as [s1 s2]. unfold room, reduced. cbn [fst snd]. lia. Qed.

Lemma room_mono j k s : 0 <= j <= k -> room k s -> room j s.
Proof. destruct s as [s1 s2]. unfold room. cbn [fst snd]. intros Hj (H1 & H2 & H3). split_and!; [done..|nia]. Qed.

Section specs.
Context {DM : data_model} {HO : host}.

Lemma long_pow : 2 ^ long_bits = 4294967296 \/ 2 ^ long_bits = 18446744073709551616.
Proof. destruct long_bits_ok as [-> | ->]; [by left | by right]. Qed.

Lemma ulong_id z : 0 <= z < 4294967296 -> ulong z = z.
Proof. intros Hz. unfold ulong. destruct long_pow as [-> | ->]; apply Z.mod_small; lia. Qed.

Lemma ulong_mod32 z : ulong z mod 4294967296 = z mod 4294967296.
Proof.
  unfold ulong. destruct long_bits_ok as [-> | ->].
  - change (2 ^ 32) with 4294967296. apply Zmod_mod.
  - apply Z.mod_mod_divide. by exists 4294967296.
Qed.

(** ** The checksum of the code *)

Lemma wp_adler_byte b ptr s1 s2 st (Q : list Z * Z * Z -> io -> Prop) :
  0 <= s1 + b < 4294967296 -> 0 <= s2 + (s1 + b) < 4294967296 ->
  Q (ptr, s1 + b, s2 + (s1 + b)) st -> wp (fun _ => adler_byte (b :: ptr, s1, s2)) st Q.
Proof. intros H1 H2 HQ. cbn [adler_byte]. apply wp_ret. by rewrite !ulong_id by (rewrite ?ulong_id; lia). Qed.

(** The state of the loops: the bytes that remain and the sums. *)
Definition at_sums (ptr : list Z) (s : Z * Z) : list Z * Z * Z := (ptr, s.1, s.2).

Lemma wp_adler_step j b ptr s st (Q : list Z * Z * Z -> io -> Prop) :
  0 <= b < 256 -> 1 <= j -> room j s ->
  Q (at_sums ptr (sum_step s b)) st -> wp (fun _ => adler_byte (at_sums (b :: ptr) s)) st Q.
Proof. intros Hb Hj Hr HQ. destruct (room_step_fits j s b Hb Hj Hr). by apply wp_adler_byte. Qed.

Lemma wp_adler_8 j x ptr s st (Q : list Z * Z * Z -> io -> Prop) :
  bytes x -> length x = 8%nat -> 8 <= j -> room j s ->
  Q (at_sums ptr (sums s x)) st -> wp (fun _ => adler_8 (at_sums (x ++ ptr) s)) st Q.
Proof.
  intros Hx Hl Hj Hr HQ. do 8 (destruct x as [|? x]; [cbn in Hl; lia|]). destruct x; [|cbn in Hl; lia]. clear Hl.
  unfold bytes in Hx. rewrite !Forall_cons in Hx. cbn beta in Hx.
  destruct Hx as (? & ? & ? & ? & ? & ? & ? & ? & _).
  assert (forall i, 0 <= i <= 7 -> 1 <= j - i) as Hj' by lia.
  unfold adler_8. cbn [app].
  do 7 (apply wp_bind; eapply wp_adler_step; [done | | eassumption |];
    [| match goal with Hr : room ?j ?s, Hz : 0 <= ?b < 256 |- context [sum_step ?s ?b] =>
       apply (room_step j s b Hz) in Hr; [|lia] end]; [lia|]).
  eapply wp_adler_step; [done | | eassumption | exact HQ]. lia.
Qed.

Lemma split_front n (x y : list Z) : x ++ y = take n x ++ drop n x ++ y.
Proof. by rewrite app_assoc, take_drop. Qed.

Lemma bytes_split n x : bytes x -> bytes (take n x) /\ bytes (drop n x).
Proof. rewrite <- (take_drop n x) at 1. by intros Hx%Forall_app. Qed.

Lemma eights_loop_spec j k x ptr s st (Q : Z * (list Z * Z * Z) -> io -> Prop) :
  k = Z.of_nat (length x) -> bytes x -> Z.of_nat (length x) <= j -> room j s ->
  (forall y z, x = y ++ z -> (length z < 8)%nat ->
    Q (Z.of_nat (length z), at_sums (z ++ ptr) (sums s y)) st) ->
  wp (fun n => eights_loop n k (at_sums (x ++ ptr) s)) st Q.
Proof.
  remember (length x) as m eqn:Em. revert k x j s Em Q. induction m as [m IH] using lt_wf_ind.
  intros k x j s -> Q -> Hx Hj Hr HQ.
  eapply wp_unfold; [intros n; cbn [eights_loop]; reflexivity|]. cbv beta.
  destruct (Z.leb_spec 8 (Z.of_nat (length x))) as [H8|H8].
  - rewrite (split_front 8 x ptr). destruct (bytes_split 8 x Hx) as [Hx1 Hx2].
    assert (length (take 8 x) = 8%nat) as Hl by (rewrite length_take; lia).
    apply wp_bind. apply (wp_adler_8 j); [done | done | lia | done |].
    eapply (IH (length (drop 8 x)) ltac:(rewrite length_drop; lia) _ (drop 8 x) (j - 8)); [done | | done | | |].
    + rewrite length_drop. lia.
    + rewrite length_drop. lia.
    + replace 8 with (Z.of_nat (length (take 8 x))) by lia. apply room_sums; [done | lia | done].
    + intros y z E Hz. rewrite <- sums_app. apply HQ; [|done]. by rewrite <- app_assoc, <- E, take_drop.
  - apply wp_ret. apply (HQ [] x); [done | lia].
Qed.

Lemma ones_loop_spec j x ptr s st (Q : list Z * Z * Z -> io -> Prop) :
  bytes x -> Z.of_nat (length x) <= j -> room j s ->
  Q (at_sums ptr (sums s x)) st ->
  wp (fun n => ones_loop n (Z.of_nat (length x)) (at_sums (x ++ ptr) s)) st Q.
Proof.
  revert j s. induction x as [|b x IH]; intros j s Hx Hj Hr HQ; cbn [length app] in *;
    (eapply wp_unfold; [intros n; cbn [ones_loop]; reflexivity|]); cbv beta.
  - by apply wp_ret.
  - apply Forall_cons in Hx as [Hb Hx]. destruct (Z.ltb_spec 0 (Z.of_nat (S (length x)))); [|lia].
    apply wp_bind. apply (wp_adler_step j); [done | lia | done |].
    replace (Z.of_nat (S (length x)) - 1) with (Z.of_nat (length x)) by lia.
    apply (IH (j - 1)); [done | lia | apply room_step; [done | lia | done] | done].
Qed.

Lemma adler_loop_spec x ptr s st (Q : list Z * Z * Z -> io -> Prop) :
  bytes x -> reduced s ->
  Q (at_sums ptr (adler_from s x)) st ->
  wp (fun n => adler_loop n (Z.of_nat (length x)) (at_sums (x ++ ptr) s)) st Q.
Proof.
  remember (length x) as k eqn:Ek. revert x s Ek. induction k as [k IH] using lt_wf_ind. intros x s -> Hx Hs HQ.
  eapply wp_unfold; [intros n; cbn [adler_loop]; reflexivity|]. cbv beta.
  destruct (Z.ltb_spec 0 (Z.of_nat (length x))) as [H0|H0].
  - set (k := if Z.of_nat (length x) <? 5552 then _ else _).
    assert (0 < k <= 5552 /\ k <= Z.of_nat (length x)) as [Hk Hk'].
    { unfold k. destruct (Z.ltb_spec (Z.of_nat (length x)) 5552); lia. }
    assert (Z.of_nat (length (take (Z.to_nat k) x)) = k) as Hl by (rewrite length_take; lia).
    rewrite (split_front (Z.to_nat k) x ptr). destruct (bytes_split (Z.to_nat k) x Hx) as [Hx1 Hx2].
    apply wp_bind, wp_with_fuel. apply (eights_loop_spec 5552); [done | done | lia | by apply room_5552|].
    intros y z E Hz. cbn [fst snd]. apply wp_bind, wp_with_fuel.
    assert (bytes y /\ bytes z) as [Hy Hzb] by (rewrite E in Hx1; by apply Forall_app in Hx1).
    assert (Z.of_nat (length y) + Z.of_nat (length z) = k) as Elen by (rewrite <- Hl, E, length_app; lia).
    apply (ones_loop_spec (5552 - Z.of_nat (length y))); [done | lia | |].
    { apply room_sums; [done | lia | by apply room_5552]. }
    rewrite <- sums_app, <- E. cbn beta iota delta [at_sums].
    change (wp (fun n => adler_loop n (Z.of_nat (length x) - k)
      (at_sums (drop (Z.to_nat k) x ++ ptr) (residues (sums s (take (Z.to_nat k) x))))) st Q).
    rewrite <- residues_sums, residues_id by done.
    replace (Z.of_nat (length x) - k) with (Z.of_nat (length (drop (Z.to_nat k) x))) by (rewrite length_drop; lia).
    apply (IH (length (drop (Z.to_nat k) x)) ltac:(rewrite length_drop; lia)); [done | done | |].
    + by apply adler_from_reduced.
    + by rewrite <- adler_from_app, take_drop.
  - apply wp_ret. by destruct x.
Qed.

Lemma pack_sums_split s : reduced s ->
  Z.land (pack_sums s) 65535 = s.1 /\ Z.land (Z.shiftr (pack_sums s) 16) 65535 = s.2.
Proof.
  destruct s as [a b]. intros [H1 H2]. unfold pack_sums. cbn [fst snd] in *.
  change 65535 with (Z.ones 16). rewrite !Z.land_ones, Z.shiftr_div_pow2 by lia. change (2 ^ 16) with 65536.
  rewrite Z.div_add_l, (Z.div_small a), Z.add_0_r by lia.
  split; [rewrite Z.add_comm, Z_mod_plus_full |]; apply Z.mod_small; lia.
Qed.

(** [update_adler32] goes on from the checksum of what was seen before. *)
Lemma update_adler32_spec s x rest st :
  bytes x -> reduced s -> Z.of_nat (length x) < 2147483648 ->
  wp (fun _ => update_adler32 (pack_sums s) (x ++ rest) (Z.of_nat (length x))) st (fun r st' =>
    r = pack_sums (adler_from s x) /\ st' = st).
Proof.
  intros Hx Hs Hl. unfold update_adler32. destruct (pack_sums_split s Hs) as [-> ->].
  rewrite wrap32_id by (unfold int32; lia). apply wp_bind, wp_with_fuel.
  apply (adler_loop_spec x rest s); [done | done |]. unfold at_sums. cbn beta iota. apply wp_ret.
  destruct (adler_from_reduced s x Hs) as [H1 H2]. split; [|done].
  rewrite Z.shiftl_mul_pow2 by lia. change (2 ^ 16) with 65536.
  rewrite (ulong_id (_ * _)) by lia. rewrite ulong_id by lia. done.
Qed.

Lemma wp_adler x rest n st (Q : Z -> io -> Prop) :
  bytes x -> n = Z.of_nat (length x) -> n < 2147483648 -> Q (adler32 x) st ->
  wp (fun _ => update_adler32 1 (x ++ rest) n) st Q.
Proof.
  intros Hx -> Hl HQ. eapply wp_mono; [apply (update_adler32_spec (1, 0) x rest); [done | split; cbn; lia | done]|].
  by intros r st' [-> ->].
Qed.
(** ** Streams *)

Lemma wp_fread n s data pos (Q : list Z -> io -> Prop) :
  s_in s = Reading data pos ->
  (let got := take (Z.to_nat n) (drop (Z.to_nat pos) data) in
   Q got (with_in (Reading data (pos + Z.of_nat (length got))) s)) ->
  wp (fun _ => fread n) s Q.
Proof. intros E HQ. unfold fread. apply wp_bind, wp_get_state. rewrite E. apply wp_bind, wp_set_state, wp_ret, HQ. Qed.

(** Reading what lies at the position. *)
Lemma wp_fread_exact n s data pos x rest (Q : list Z -> io -> Prop) :
  s_in s = Reading data pos -> drop (Z.to_nat pos) data = x ++ rest -> n = Z.of_nat (length x) ->
  Q x (with_in (Reading data (pos + n)) s) -> wp (fun _ => fread n) s Q.
Proof.
  intros E Ed -> HQ. eapply wp_fread; [exact E|]. cbn zeta. by rewrite Ed, Nat2Z.id, take_app_length.
Qed.

Lemma wp_fwrite x s p old (Q : unit -> io -> Prop) :
  s_f s = Writing p old -> Q tt (with_f (Writing p (old ++ x)) s) -> wp (fun _ => fwrite x) s Q.
Proof. intros E HQ. unfold fwrite. apply wp_bind, wp_get_state. rewrite E. by apply wp_set_state. Qed.

Lemma wp_say m s (Q : unit -> io -> Prop) : Q tt (with_said (said s ++ [m]) s) -> wp (fun _ => say m) s Q.
Proof. intros HQ. by apply wp_modify. Qed.

Lemma wp_close_in s data pos (Q : unit -> io -> Prop) :
  s_in s = Reading data pos -> Q tt (with_in Closed s) -> wp (fun _ => close_in) s Q.
Proof. intros E HQ. unfold close_in. apply wp_bind, wp_get_state. rewrite E. by apply wp_bind, wp_ret, wp_modify. Qed.

Lemma wp_close_f s p data (Q : unit -> io -> Prop) :
  s_f s = Writing p data -> Q tt (Io (<[p := data]> (files s)) (s_in s) Closed (said s)) ->
  wp (fun _ => close_f) s Q.
Proof.
  intros E HQ. unfold close_f. apply wp_bind, wp_get_state. rewrite E. apply wp_bind, wp_modify. by apply wp_modify.
Qed.

Lemma wp_ftell s data pos (Q : Z -> io -> Prop) :
  s_in s = Reading data pos -> pos < 2147483648 -> Q pos s -> wp (fun _ => ftell) s Q.
Proof.
  intros E Hp HQ. unfold ftell. apply wp_bind, wp_get_state. rewrite E. apply wp_ret.
  destruct (Z.ltb_spec pos (2 ^ (long_bits - 1))) as [|Hl]; [done|]. exfalso. revert Hl.
  destruct long_bits_ok as [-> | ->]; [change (2 ^ _) with 2147483648 | change (2 ^ _) with 9223372036854775808]; lia.
Qed.

Lemma slong_id z : 0 <= z < 2147483648 -> slong z = z.
Proof.
  intros Hz. unfold slong. destruct long_bits_ok as [-> | ->]; cbn [Z.sub Z.add Z.opp Z.pos_sub Z.pow Z.pow_pos Pos.iter];
    rewrite Z.mod_small; lia.
Qed.

Lemma wp_fseek_set off s data pos (Q : unit -> io -> Prop) :
  s_in s = Reading data pos -> 0 <= off < 2147483648 -> Q tt (with_in (Reading data off) s) ->
  wp (fun _ => fseek_set off) s Q.
Proof.
  intros E Ho HQ. unfold fseek_set. apply wp_bind, wp_get_state. rewrite E, slong_id by done.
  destruct (Z.ltb_spec off 0); [lia|]. by apply wp_set_state.
Qed.

Lemma wp_fseek_end s data pos (Q : unit -> io -> Prop) :
  s_in s = Reading data pos -> Q tt (with_in (Reading data (Z.of_nat (length data))) s) ->
  wp (fun _ => fseek_end) s Q.
Proof. intros E HQ. unfold fseek_end. apply wp_bind, wp_get_state. rewrite E. by apply wp_set_state. Qed.

Lemma into_app x y : into x y = x ++ drop (length x) y.
Proof. done. Qed.

(** ** The magic *)

Definition magic_at (data : list Z) : bool := bool_decide (take 8 data = sixpack_magic).

Lemma same_magic_eq b m : length b = length m -> same_magic b m = bool_decide (b = m).
Proof.
  revert m. induction b as [|c b IH]; intros [|d m] Hl; cbn [length same_magic] in *; try lia.
  { by rewrite bool_decide_true. }
  destruct (Z.eqb_spec c d) as [->|Hne].
  - rewrite IH by lia. apply bool_decide_ext. split; [by intros -> | by intros [= ->]].
  - rewrite bool_decide_false; [done|]. by intros [= ? ?].
Qed.

(** It looks at the first eight bytes and leaves the stream at the start. *)
Lemma wp_detect_magic s data pos (Q : bool -> io -> Prop) :
  s_in s = Reading data pos -> Q (magic_at data) (with_in (Reading data 0) s) ->
  wp (fun _ => detect_magic) s Q.
Proof.
  intros E HQ. unfold detect_magic. apply wp_bind. eapply wp_fseek_set; [exact E | lia |].
  apply wp_bind. eapply wp_fread; [done|]. cbn zeta.
  apply wp_bind. eapply wp_fseek_set; [done | lia |]. cbn [with_in s_in files s_f said].
  change (Z.to_nat 8) with 8%nat. change (Z.to_nat 0) with 0%nat. rewrite drop_0.
  destruct (Z.ltb_spec (Z.of_nat (length (take 8 data))) 8) as [Hlt|Hge]; apply wp_ret.
  - unfold magic_at in HQ. rewrite bool_decide_false in HQ; [done|]. intros E8. rewrite E8 in Hlt. cbn in Hlt. lia.
  - rewrite same_magic_eq; [done|]. rewrite length_take in *. change (length sixpack_magic) with 8%nat. lia.
Qed.

(** ** The header of a chunk *)

Definition enc_header (h : header) : list Z :=
  put16 (h_id h) ++ put16 (h_options h) ++ put32 (h_size h) ++ put32 (h_checksum h) ++ put32 (h_extra h).

Lemma enc_header_length h : length (enc_header h) = 16%nat.
Proof. done. Qed.

Record header_ok (h : header) : Prop := HeaderOk {
  ok_id : 0 <= h_id h < 65536;
  ok_options : 0 <= h_options h < 65536;
  ok_size : 0 <= h_size h < 4294967296;
  ok_checksum : 0 <= h_checksum h < 4294967296;
  ok_extra : 0 <= h_extra h < 4294967296
}.

Lemma land_byte v : Z.land v 255 = v mod 256.
Proof. change 255 with (Z.ones 8). by rewrite Z.land_ones. Qed.

Lemma put32_digits v : put32 v = [v mod 256; v / 256 mod 256; v / 65536 mod 256; v / 16777216 mod 256].
Proof. unfold put32. by rewrite !land_byte, !Z.shiftr_div_pow2 by lia. Qed.

Lemma put32_bytes v : bytes (put32 v).
Proof. rewrite put32_digits. repeat constructor; apply Z.mod_pos_bound; lia. Qed.

Lemma put16_bytes v : bytes (put16 v).
Proof. unfold put16, u8. rewrite land_byte. repeat constructor; apply Z.mod_pos_bound; lia. Qed.

Lemma readU16_put v rest : 0 <= v < 65536 -> readU16 (put16 v ++ rest) = v.
Proof.
  intros Hv. unfold readU16, put16, u8. cbn [app lookup_total list_lookup_total].
  rewrite land_byte, Z.shiftr_div_pow2, Z.shiftl_mul_pow2 by lia. change (2 ^ 8) with 256.
  rewrite ulong_id; Z.to_euclidean_division_equations; lia.
Qed.

Lemma readU32_sum v rest : readU32 (put32 v ++ rest) =
  ulong (v mod 256 + v / 256 mod 256 * 256 + v / 65536 mod 256 * 65536 + wrap32 (v / 16777216 mod 256 * 16777216)).
Proof.
  unfold readU32. rewrite put32_digits. cbn [app lookup_total list_lookup_total].
  by rewrite !Z.shiftl_mul_pow2 by lia.
Qed.

(** Below 2^31 nothing is lost; above, the upper half of a 64-bit long must be masked. *)
Lemma readU32_put v rest : 0 <= v < 2147483648 -> readU32 (put32 v ++ rest) = v.
Proof.
  intros Hv. rewrite readU32_sum, wrap32_id by (unfold int32; Z.to_euclidean_division_equations; lia).
  rewrite ulong_id; Z.to_euclidean_division_equations; lia.
Qed.

Lemma readU32_masked v rest : 0 <= v < 4294967296 -> Z.land (readU32 (put32 v ++ rest)) 4294967295 = v.
Proof.
  intros Hv. rewrite readU32_sum. change 4294967295 with (Z.ones 32). rewrite Z.land_ones by lia.
  change (2 ^ 32) with 4294967296. rewrite ulong_mod32. unfold wrap32.
  Z.to_euclidean_division_equations. lia.
Qed.

Lemma wp_write_chunk_header h s p old (Q : unit -> io -> Prop) :
  s_f s = Writing p old -> Q tt (with_f (Writing p (old ++ enc_header h)) s) ->
  wp (fun _ => write_chunk_header h) s Q.
Proof. apply wp_fwrite. Qed.

(** What is written is read back. *)
Lemma wp_read_chunk_header h s data pos rest (Q : header -> io -> Prop) :
  header_ok h -> s_in s = Reading data pos -> drop (Z.to_nat pos) data = enc_header h ++ rest ->
  Q h (with_in (Reading data (pos + 16)) s) -> wp (fun _ => read_chunk_header) s Q.
Proof.
  intros [H1 H2 H3 H4 H5] E Ed HQ. unfold read_chunk_header. apply wp_bind, wp_get_state. rewrite E. cbn zeta.
  apply wp_bind. eapply wp_fread_exact; [exact E | exact Ed | done |]. apply wp_ret.
  unfold into. rewrite enc_header_length, drop_ge, app_nil_r.
  2: { pose proof (stale_length pos 16 ltac:(lia)). lia. }
  destruct h as [i o sz ck ex]. unfold enc_header in *. cbn [h_id h_options h_size h_checksum h_extra] in *.
  change (drop 2 _) with (put16 o ++ put32 sz ++ put32 ck ++ put32 ex).
  change (drop 4 _) with (put32 sz ++ put32 ck ++ put32 ex).
  change (drop 8 _) with (put32 ck ++ put32 ex).
  change (drop 12 _) with (put32 ex ++ []).
  rewrite !readU16_put, !readU32_masked by done. change 65535 with (Z.ones 16). rewrite !Z.land_ones by lia.
  by rewrite !Z.mod_small by lia.
Qed.
End specs.
