(* ===== verification/SixArchive.v ===== *)
(** * What 6pack writes

    The format of an archive, and that [pack_file] writes the archive of its input: the entry with the
    name of the file, then its blocks, each stored or compressed. *)

From Stdlib Require Import ZArith Lia.
From stdpp Require Import base numbers list strings gmap.
From S2P Require Import Prelude FastLZ FastLZStream SixFile SixPack SixSpec.

Open Scope Z_scope.

(** ** The format *)

Definition zlen (l : list Z) : Z := Z.of_nat (length l).

Lemma to_nat_zlen l : Z.to_nat (zlen l) = length l.
Proof. apply Nat2Z.id. Qed.
Lemma zlen_app l l' : zlen (l ++ l') = zlen l + zlen l'.
Proof. unfold zlen. rewrite length_app. lia. Qed.

(** The chunk of a block [x]: its header and its data. *)
Inductive chunk_of (x : list Z) : header -> list Z -> Prop :=
  | Stored : chunk_of x (Header 17 0 (zlen x) (adler32 x) (zlen x)) x
  | Packed z : packs x z -> chunk_of x (Header 17 1 (zlen z) (adler32 z) (zlen x)) z.

Definition block_of (x c : list Z) : Prop := exists h data, chunk_of x h data /\ c = enc_header h ++ data.

Inductive blocks : list Z -> list Z -> Prop :=
  | blocks_nil : blocks [] []
  | blocks_cons x xs c cs :
      0 < zlen x <= 131072 -> bytes x -> block_of x c -> blocks xs cs -> blocks (x ++ xs) (c ++ cs).

(** The size of the file that is open: the stream goes to its end and back. *)
Ltac file_size x :=
  apply wp_bind; eapply wp_fseek_end; [done|]; apply wp_bind; eapply wp_ftell; [done | fold (zlen x); lia |];
  fold (zlen x); rewrite (ulong_id (zlen x)) by lia; cbv zeta;
  apply wp_bind; eapply wp_fseek_set; [done | lia |].

Section format.
Context {DM : data_model} {HO : host}.

Definition entry_body (fsize : Z) (name : list Z) : list Z := entry_head fsize name ++ name ++ [0].
Definition entry_header (fsize : Z) (name : list Z) : header :=
  Header 1 0 (11 + zlen name) (adler32 (entry_body fsize name)) 0.

(** The archive of the bytes [x] under a name. *)
Definition archive_of (name x a : list Z) : Prop :=
  exists cs, blocks x cs /\
    a = sixpack_magic ++ enc_header (entry_header (zlen x) name) ++ entry_body (zlen x) name ++ cs.

Lemma entry_head_length fsize name : length (entry_head fsize name) = 10%nat.
Proof. done. Qed.

Lemma entry_head_bytes fsize name : bytes (entry_head fsize name).
Proof.
  unfold entry_head, u8. apply Forall_app. split; [apply put32_bytes|]. rewrite land_byte.
  repeat constructor; try lia; apply Z.mod_pos_bound; lia.
Qed.

Lemma entry_body_bytes fsize name : bytes name -> bytes (entry_body fsize name).
Proof.
  intros Hn. apply Forall_app. split; [apply entry_head_bytes|]. apply Forall_app. split; [done|]. repeat constructor; lia.
Qed.

Lemma entry_body_length fsize name : zlen (entry_body fsize name) = 11 + zlen name.
Proof. unfold zlen, entry_body. rewrite !length_app, entry_head_length. cbn [length]. lia. Qed.

(** ** The name in the archive *)

(** It is what follows the last separator that is not the last character. *)
Lemma name_start_spec p i : (i <= length p)%nat ->
  (name_start p i <= i)%nat /\
  (name_start p i = 0%nat \/ p !! (name_start p i - 1)%nat = Some PATH_SEPARATOR) /\
  forall k, (name_start p i <= k < i)%nat -> p !! k <> Some PATH_SEPARATOR.
Proof.
  induction i as [|i IH]; intros Hi; cbn [name_start]; [split_and!; [lia | by left | lia]|].
  destruct (lookup_lt_is_Some_2 p i ltac:(lia)) as [c Hc]. rewrite (list_lookup_total_correct _ _ _ Hc).
  destruct (Z.eqb_spec c PATH_SEPARATOR) as [->|Hne].
  - split_and!; [lia | right; by rewrite Nat.sub_succ, Nat.sub_0_r | lia].
  - destruct (IH ltac:(lia)) as (H1 & H2 & H3). split_and!; [lia | done |].
    intros k Hk. destruct (decide (k = i)) as [->|]; [rewrite Hc; congruence | apply H3; lia].
Qed.

Lemma shown_name_spec p : exists dir, p = dir ++ shown_name p /\ (dir = [] \/ last dir = Some PATH_SEPARATOR) /\
  (last p <> Some PATH_SEPARATOR -> PATH_SEPARATOR ∉ shown_name p).
Proof.
  destruct (name_start_spec p (length p - 1) ltac:(lia)) as (H1 & H2 & H3).
  unfold shown_name. set (i := name_start p (length p - 1)) in *. exists (take i p). split; [by rewrite take_drop|]. split.
  - destruct (decide (i = 0%nat)) as [->|Hi]; [by left; rewrite take_0|]. right. destruct H2 as [|H2]; [done|].
    rewrite last_lookup, length_take, Nat.min_l, <- Nat.sub_1_r by lia. rewrite lookup_take_lt by lia. exact H2.
  - intros Hl (k & Hk)%list_elem_of_lookup. rewrite lookup_drop in Hk.
    pose proof (lookup_lt_Some _ _ _ Hk). rewrite last_lookup in Hl.
    destruct (decide (i + k < length p - 1)%nat); [by apply (H3 (i + k)%nat); [lia|]|].
    apply Hl. rewrite <- Hk. f_equal. lia.
Qed.
(** ** The progress bar *)

(** Half the percentage, as both programs round it. *)
Definition marks (total fsize : Z) : Z :=
  (if fsize <? 16777216 then total * 100 / fsize else total / 256 * 100 / (fsize / 256)) / 2.

Lemma marks_0 fsize : marks 0 fsize = 0.
Proof. unfold marks. by destruct (fsize <? 16777216). Qed.

Lemma marks_full fsize : 0 < fsize -> marks fsize fsize = 50.
Proof.
  intros Hf. unfold marks. destruct (Z.ltb_spec fsize 16777216).
  - by rewrite Z.mul_comm, Z.div_mul by lia.
  - assert (0 < fsize / 256) by (apply Z.div_str_pos; lia). by rewrite Z.mul_comm, Z.div_mul by lia.
Qed.

Lemma marks_mono a b fsize : 0 < fsize -> 0 <= a <= b -> marks a fsize <= marks b fsize.
Proof.
  intros Hf Hab. unfold marks. apply Z.div_le_mono; [lia|]. destruct (Z.ltb_spec fsize 16777216).
  - apply Z.div_le_mono; lia.
  - assert (0 < fsize / 256) by (apply Z.div_str_pos; lia). apply Z.div_le_mono; [done|].
    apply Z.mul_le_mono_nonneg_r; [lia|]. apply Z.div_le_mono; lia.
Qed.

Lemma marks_range a fsize : 0 < fsize -> 0 <= a <= fsize -> 0 <= marks a fsize <= 50.
Proof.
  intros Hf Ha. pose proof (marks_mono 0 a fsize Hf ltac:(lia)). pose proof (marks_mono a fsize fsize Hf ltac:(lia)).
  rewrite marks_0 in *. rewrite marks_full in * by done. lia.
Qed.

Lemma wp_progress_percent total fsize s (Q : Z -> io -> Prop) :
  0 <= total <= fsize -> 0 < fsize < 2147483648 -> Q (marks total fsize) s ->
  wp (fun _ => progress_percent total fsize) s Q.
Proof.
  intros Ht Hf HQ. unfold progress_percent. unfold marks in HQ. change (Z.shiftl 1 24) with 16777216.
  rewrite (Z.shiftr_div_pow2 fsize) by lia. change (2 ^ 8) with 256. apply wp_bind. unfold udiv.
  destruct (Z.ltb_spec fsize 16777216).
  - destruct (Z.eqb_spec fsize 0); [lia|]. apply wp_ret, wp_ret. rewrite ulong_id, Z.shiftr_div_pow2 by lia. exact HQ.
  - assert (0 < fsize / 256) by (apply Z.div_str_pos; lia).
    assert (0 <= total / 256 < 8388608) by (split; [apply Z.div_pos | apply Z.div_lt_upper_bound]; lia).
    destruct (Z.eqb_spec (fsize / 256) 0); [lia|]. apply wp_ret, wp_ret.
    rewrite ulong_id, Z.shiftr_div_pow2 by lia. exact HQ.
Qed.

Lemma hash_loop_spec last percent s :
  wp (fun n => hash_loop n last percent) s (fun _ s' =>
    s' = with_said (said s ++ replicate (Z.to_nat (percent - last)) Hash) s).
Proof.
  remember (Z.to_nat (percent - last)) as k eqn:Ek. revert last s Ek.
  induction k as [|k IH]; intros last s Ek; (eapply wp_unfold; [intros n; cbn [hash_loop]; reflexivity|]); cbv beta;
    destruct (Z.ltb_spec last percent); try lia.
  - apply wp_ret. rewrite app_nil_r. by destruct s.
  - apply wp_bind, wp_say. eapply wp_mono; [apply IH; lia|]. cbn beta. intros _ s' ->.
    cbn [with_said said files s_in s_f replicate]. by rewrite <- app_assoc.
Qed.

(** ** A block *)

Lemma wp_call_fastlz m s (P : Z -> buffers -> Prop) (Q : Z * list Z -> io -> Prop) :
  wp (fun _ => m) fresh P -> (forall r b, P r b -> Q (r, out b) s) -> wp (fun _ => call_fastlz m) s Q.
Proof.
  intros (N & r & b & Hr & HP) HQ. exists N, (r, out b), s. split; [|by apply HQ].
  intros n fuel Hn Hf. unfold call_fastlz. by rewrite (Hr n fuel Hn Hf).
Qed.

Lemma wp_adler_exact x n st (Q : Z -> io -> Prop) :
  bytes x -> n = zlen x -> n < 2147483648 -> Q (adler32 x) st -> wp (fun _ => update_adler32 1 x n) st Q.
Proof. intros Hx Hn Hl HQ. rewrite <- (app_nil_r x). by apply wp_adler. Qed.

(** The bytes of a block in a buffer with older bytes behind. *)
Lemma write_block_spec level x rest s p old (Q : Z -> io -> Prop) :
  level = 1 \/ level = 2 -> bytes (x ++ rest) -> 0 < zlen x <= 131072 ->
  (level = 2 -> rest ++ behind <> []) -> s_f s = Writing p old ->
  (forall c, block_of x c -> Q (zlen c) (with_f (Writing p (old ++ c)) s)) ->
  wp (fun _ => write_block 1 level (x ++ rest) (zlen x)) s Q.
Proof.
  intros Hlv Hb Hx Hp Hf HQ. unfold write_block. pose proof (bytes_app_l _ _ Hb) as Hxb. cbn zeta.
  destruct (Z.ltb_spec (zlen x) 32) as [H32|H32]; cbn [Z.eqb Pos.eqb].
  - apply wp_bind, wp_adler; [done | done | lia |]. apply wp_bind. eapply wp_write_chunk_header; [exact Hf|].
    apply wp_bind. eapply wp_fwrite; [done|]. apply wp_ret. cbn [with_f s_f files s_in said].
    rewrite to_nat_zlen, take_app_length, <- app_assoc.
    pose proof (HQ _ (ex_intro _ _ (ex_intro _ _ (conj (Stored x) eq_refl)))) as Hq. by rewrite zlen_app in Hq.
  - rewrite <- app_assoc. apply wp_bind. eapply wp_call_fastlz.
    { apply (compress_level_packs level x (rest ++ behind)); [done | by intros -> | | fold (zlen x); lia | done |].
      - rewrite app_assoc. apply Forall_app. split; [done | apply behind_bytes].
      - fold (zlen x). unfold BLOCK_SIZE. lia. }
    cbn beta. intros r b [Hr Hpk]. pose proof Hpk as (Hz & Hz0 & Hzl & _).
    fold (zlen (out b)) in *. fold (zlen x) in *. cbn beta iota.
    apply wp_bind, wp_adler_exact; [done | done | lia |]. apply wp_bind. eapply wp_write_chunk_header; [exact Hf|].
    apply wp_bind. eapply wp_fwrite; [done|]. apply wp_ret. cbn [with_f s_f files s_in said].
    rewrite Hr, to_nat_zlen, firstn_all, <- app_assoc.
    pose proof (HQ _ (ex_intro _ _ (ex_intro _ _ (conj (Packed x _ Hpk) eq_refl)))) as Hq. by rewrite zlen_app in Hq.
Qed.
(** ** The blocks of a file *)

Lemma into_bytes x buffer : bytes x -> bytes buffer -> bytes (into x buffer).
Proof. intros Hx Hb. apply Forall_app. split; [done | by apply Forall_drop]. Qed.

Lemma into_length x buffer : zlen x <= zlen buffer -> zlen (into x buffer) = zlen buffer.
Proof. unfold zlen, into. rewrite length_app, length_drop. lia. Qed.

Lemma ulong_add a b : ulong (ulong a + b) = ulong (a + b).
Proof. apply Zplus_mod_idemp_l. Qed.

(** The size of the buffer as an opaque number. *)
Lemma block_size_nat : exists B : nat, Z.to_nat BLOCK_SIZE = B /\ Z.of_nat B = 131072.
Proof. eexists. split; [reflexivity|]. by apply Z2Nat.id. Qed.

(** What the loop has still to do: the bytes behind the position. *)
Definition after_blocks (s s' : io) (fsize percent : Z) (y cs : list Z) (p : path) (data old : list Z) : Prop :=
  s' = Io (files s) (Reading data fsize) (Writing p (old ++ cs))
    (said s ++ replicate (Z.to_nat (if zlen y =? 0 then 0 else 50 - percent)) Hash).

Lemma blocks_loop_spec level data p (y old buffer : list Z) pos total s :
  level = 1 \/ level = 2 -> bytes data -> zlen data < 2147483648 ->
  (level = 2 -> zlen data < 131072 \/ behind <> []) ->
  bytes buffer -> zlen buffer = 131072 ->
  0 <= pos -> drop (Z.to_nat pos) data = y -> zlen y = zlen data - pos ->
  s_in s = Reading data pos -> s_f s = Writing p old ->
  wp (fun n => blocks_loop n 1 level (zlen data) buffer (marks pos (zlen data)) pos total) s (fun r s' =>
    exists cs, blocks y cs /\ r.1 = zlen data /\ (exists t, r.2 = t /\ (total = ulong total -> t = ulong (total + zlen cs))) /\
      after_blocks s s' (zlen data) (marks pos (zlen data)) y cs p data old).
Proof.
  intros Hlv Hd Hdl Hbh. remember (length y) as k eqn:Ek.
  revert y Ek old buffer pos total s. induction k as [k IH] using lt_wf_ind.
  intros y -> old buffer pos total s Hb Hbl Hpos Hy Hyl Hin Hf.
  eapply wp_unfold; [intros n; cbn [blocks_loop]; reflexivity|]. cbv beta zeta.
  apply wp_bind. eapply wp_fread; [exact Hin|]. cbn zeta. rewrite Hy.
  destruct block_size_nat as (B & EB & HB). rewrite EB. set (x := take B y).
  assert (zlen x = Z.min 131072 (zlen y)) as Hx by (unfold zlen, x; rewrite length_take; lia).
  fold (zlen x). assert (0 <= zlen y) by (unfold zlen; lia).
  destruct (Z.eqb_spec (zlen x) 0) as [E|E].
  { assert (y = []) as E0 by (apply nil_length_inv; unfold zlen in *; lia). apply wp_ret. exists [].
    rewrite E0 in *. cbn [fst snd]. split; [constructor|]. split; [unfold zlen in *; cbn in *; lia|].
    split; [exists total; split; [done|]; intros Ht; change (zlen []) with 0; by rewrite Z.add_0_r|].
    change (zlen []) with 0 in *. assert (pos = zlen data) as -> by lia.
    unfold after_blocks. cbn [Z.eqb Z.to_nat replicate]. rewrite !app_nil_r, <- Hin, <- Hf.
    rewrite E, Z.add_0_r, <- Hin. by destruct s. }
  pose proof (eq_sym (take_drop B y)) as Exy. fold x in Exy.
  set (y' := drop B y) in *.
  assert (bytes y) as Hyb by (rewrite <- Hy; by apply Forall_drop).
  assert (bytes x /\ bytes y') as [Hxb Hy'b] by (by apply bytes_split).
  assert (zlen y = zlen x + zlen y') as Hxy by (rewrite Exy at 1; apply zlen_app).
  set (s1 := with_in _ s). set (total' := pos + zlen x) in *.
  rewrite (ulong_id total') by (unfold total'; lia).
  assert (0 <= pos + zlen x <= zlen data) as Ht by lia.
  apply wp_bind, wp_progress_percent; [exact Ht | lia |].
  assert (0 <= marks pos (zlen data) <= 50) as Hm by (apply marks_range; lia).
  assert (0 <= marks total' (zlen data) <= 50) as Hm' by (apply marks_range; lia).
  assert (marks pos (zlen data) <= marks total' (zlen data)) as Hmm by (apply marks_mono; lia).
  rewrite !wrap32_id by (unfold int32; lia).
  eapply wp_call; [apply wp_with_fuel, hash_loop_spec|]. cbn beta. intros _ s2 ->.
  apply wp_bind. unfold into at 1. eapply (write_block_spec level x _ _ p old); [done | by apply into_bytes | lia | | exact Hf |].
  { intros E2. destruct (Hbh E2) as [Hs|Hne].
    - intros [Hnil _]%app_nil. apply (f_equal length) in Hnil. rewrite length_drop in Hnil. cbn in Hnil. unfold zlen in *. lia.
    - by intros [_ ?]%app_nil. }
  intros c Hc. set (s3 := with_f _ _).
  eapply wp_mono; [apply (IH (length y') ltac:(unfold zlen in *; lia) y' eq_refl (old ++ c) _ total')|].
  - by apply into_bytes.
  - fold (into x buffer). rewrite into_length; lia.
  - lia.
  - unfold total'. rewrite Z2Nat.inj_add, to_nat_zlen, <- drop_drop, Hy by lia. rewrite Exy. apply drop_app_length.
  - unfold total'. lia.
  - done.
  - done.
  - cbn beta. intros r s' (cs & Hcs & Hr1 & (t & Hr2 & Ht2) & Hs'). exists (c ++ cs). rewrite Exy at 1.
    split; [by constructor; [lia|..]|]. split; [done|]. split.
    + exists t. split; [done|]. intros _. rewrite Ht2, ulong_add, zlen_app by (unfold ulong; symmetry; by apply Zmod_mod).
      f_equal. lia.
    + unfold after_blocks in *. rewrite Hs'. unfold s3, s1. cbn [files s_in s_f said with_f with_in with_said].
      rewrite <- !app_assoc. f_equal. rewrite <- replicate_add. do 2 f_equal.
      destruct (Z.eqb_spec (zlen y) 0); [lia|]. destruct (Z.eqb_spec (zlen y') 0) as [Ey|]; [|lia].
      replace (marks total' (zlen data)) with 50; [lia|]. symmetry. replace total' with (zlen data) by (unfold total'; lia). apply marks_full. lia.
Qed.
(** ** The archive *)

Lemma wp_fopen_rb q s (Q : stream -> io -> Prop) :
  Q (match files s !! q with Some data => Reading data 0 | None => Null end) s -> wp (fun _ => fopen_rb q) s Q.
Proof. intros HQ. unfold fopen_rb. by apply wp_bind, wp_get_state, wp_ret. Qed.

Lemma wp_fopen_wb q s (Q : stream -> io -> Prop) :
  can_create q = true -> Q (Writing q []) (with_files (<[q := []]> (files s)) s) -> wp (fun _ => fopen_wb q) s Q.
Proof. intros Hc HQ. unfold fopen_wb. rewrite Hc. by apply wp_bind, wp_modify, wp_ret. Qed.

Lemma report_saved_spec total fsize s : 0 <= total -> 0 <= fsize ->
  wp (fun _ => report_saved total fsize) s (fun _ s' => exists log, s' = with_said (said s ++ log) s).
Proof.
  intros Ht Hf. unfold report_saved. destruct (Z.ltb_spec total fsize).
  - apply (wp_call _ _ _ (fun _ s' => s' = s)).
    + change (Z.shiftl 1 20) with 1048576. rewrite Z.shiftr_div_pow2 by lia. change (2 ^ 8) with 256. unfold udiv.
      destruct (Z.ltb_spec fsize 1048576).
      * destruct (Z.eqb_spec fsize 0); [lia | by apply wp_ret].
      * assert (0 < fsize / 256) by (apply Z.div_str_pos; lia).
        destruct (Z.eqb_spec (fsize / 256) 0); [lia | by apply wp_ret].
    + cbn beta. intros q _ ->. apply wp_say. by eexists.
  - apply wp_ret. exists []. rewrite app_nil_r. by destruct s.
Qed.

(** The head of the entry lies in the buffer of the blocks, the name where it is. *)
Lemma wp_entry_checksum (k : nat -> Z -> IO Z) fsize name rest s (Q : Z -> io -> Prop) :
  bytes name -> zlen name < 65536 ->
  wp (fun n => k n (adler32 (entry_body fsize name))) s Q ->
  wp (fun n => c ← update_adler32 1 (entry_head fsize name ++ rest) 10;
    c ← update_adler32 c (name ++ [0]) (zlen name + 1); k n c) s Q.
Proof.
  intros Hn Hl HQ. pose proof (entry_head_bytes fsize name) as Hb.
  eapply wp_call; [apply (update_adler32_spec (1, 0) (entry_head fsize name) rest); [done | split; cbn; lia | done]|].
  cbn beta. intros r st' [-> ->].
  assert (reduced (adler_from (1, 0) (entry_head fsize name))) as Hr by (apply adler_from_reduced; split; cbn; lia).
  pose proof (update_adler32_spec _ (name ++ [0]) [] s ltac:(apply Forall_app; split; [done | repeat constructor; lia]) Hr) as Hw.
  rewrite app_nil_r, length_app in Hw. replace (Z.of_nat (length name + _)) with (zlen name + 1) in Hw by (unfold zlen; cbn; lia).
  eapply wp_call; [apply Hw; lia|]. cbn beta. intros r st' [-> ->]. rewrite <- adler_from_app. exact HQ.
Qed.

(** What [pack_file_compressed] does to an archive that is open. *)
Lemma pack_compressed_spec level input x p old s :
  files s !! input = Some x -> bytes input -> bytes x -> zlen x < 2147483648 -> magic_at x = false ->
  zlen input < 65525 -> level = 1 \/ level = 2 -> (level = 2 -> zlen x < 131072 \/ behind <> []) ->
  s_f s = Writing p old ->
  wp (fun _ => pack_file_compressed input 1 level) s (fun r s' => r = 0 /\ exists cs log, blocks x cs /\
    s' = Io (files s) Closed (Writing p (old ++ enc_header (entry_header (zlen x) (shown_name input)) ++
           entry_body (zlen x) (shown_name input) ++ cs))
         (said s ++ [Bar (shown (shown_name input))] ++ replicate (if zlen x =? 0 then 0 else 50) Hash ++ log)).
Proof.
  intros Hx Hib Hb Hl Hm Hil Hlv Hbh Hf. unfold pack_file_compressed. apply wp_bind, wp_fopen_rb. rewrite Hx. cbn beta iota.
  destruct (shown_name_spec input) as (dir & Ein & _). set (name := shown_name input) in *.
  assert (bytes name) as Hnb by (rewrite Ein in Hib; by apply Forall_app in Hib as [_ ?]).
  assert (zlen name <= zlen input) as Hnl by (rewrite Ein, zlen_app; unfold zlen; lia).
  assert (0 <= zlen x) by (unfold zlen; lia).
  apply wp_bind, wp_modify. file_size x.
  apply wp_bind. eapply wp_detect_magic; [done|]. rewrite Hm. cbv beta iota zeta.
  change (into (entry_head (zlen x) name) (stale 0 BLOCK_SIZE))
    with (entry_head (zlen x) name ++ drop 10 (stale 0 BLOCK_SIZE)).
  apply wp_entry_checksum; [done | lia|].
  apply wp_bind. eapply wp_write_chunk_header; [exact Hf|].
  apply wp_bind. eapply wp_fwrite; [done|]. apply wp_bind. eapply wp_fwrite; [done|].
  apply wp_bind, wp_say. set (s1 := with_said _ _).
  set (E := enc_header (entry_header (zlen x) name) ++ entry_body (zlen x) name).
  assert (s1 = Io (files s) (Reading x 0) (Writing p (old ++ E)) (said s ++ [Bar (shown name)])) as ->.
  { unfold s1, E, entry_header, entry_body. cbn [with_said with_f with_in files s_in s_f said].
    replace (11 + zlen name) with (10 + (zlen name + 1)) by lia. by rewrite take_app_length', <- !app_assoc by done. }
  set (buffer := entry_head (zlen x) name ++ drop 10 _).
  assert (bytes buffer) as Hbb by (apply Forall_app; split; [apply entry_head_bytes | apply Forall_drop, stale_bytes]).
  assert (zlen buffer = 131072) as Hbl.
  { unfold buffer. rewrite zlen_app. pose proof (stale_length 0 BLOCK_SIZE ltac:(done)) as Hst. unfold zlen.
    rewrite length_drop, entry_head_length. unfold BLOCK_SIZE in *. lia. }
  pose proof (blocks_loop_spec level x p x (old ++ E) buffer 0 (16 + 10 + (zlen name + 1))) as Hw. rewrite marks_0 in Hw.
  eapply wp_call; [apply wp_with_fuel, Hw; (done || lia)|]. clear Hw.
  cbn beta. intros [r1 r2] s2 (cs & Hcs & Hr1 & (t & Hr2 & Ht) & Hs2). cbn [fst snd] in Hr1, Hr2. rewrite Hr1, Hr2. cbn beta iota.
  unfold after_blocks in Hs2. cbn [files s_in s_f said] in Hs2.
  apply wp_bind. eapply wp_close_in; [by rewrite Hs2|]. rewrite Z.eqb_refl. cbn [negb].
  eapply wp_call; [apply report_saved_spec; [|done]|].
  { rewrite Ht by (symmetry; apply ulong_id; unfold zlen in *; lia). apply Z.mod_pos_bound. destruct long_pow as [-> | ->]; lia. }
  cbn beta. intros _ s3 (log & ->). apply wp_ret. split; [done|]. exists cs, log. split; [done|].
  rewrite Hs2. unfold E. cbn [with_said with_in files s_in s_f said]. rewrite <- !app_assoc. do 4 f_equal.
  by destruct (zlen x =? 0).
Qed.
(** The conditions under which a file is packed. *)
Record packable (level : Z) (input : path) (x : list Z) : Prop := Packable {
  pk_path : bytes input;
  pk_path_length : zlen input < 65525;
  pk_bytes : bytes x;
  pk_length : zlen x < 2147483648;
  pk_magic : magic_at x = false;
  pk_level : level = 1 \/ level = 2;
  pk_behind : level = 2 -> zlen x < 131072 \/ behind <> []
}.

Lemma pack_file_spec level input output x s :
  packable level input x -> files s !! input = Some x -> files s !! output = None -> can_create output = true ->
  wp (fun _ => pack_file level input output) s (fun r s' => r = 0 /\ exists a log,
    archive_of (shown_name input) x a /\
    s' = Io (<[output := a]> (files s)) Closed Closed
      (said s ++ [Bar (shown (shown_name input))] ++ replicate (if zlen x =? 0 then 0 else 50) Hash ++ log)).
Proof.
  intros [H1 H2 H3 H4 H5 H6 H7] Hx Ho Hc. unfold pack_file. apply wp_bind, wp_fopen_rb. rewrite Ho.
  apply wp_bind, wp_fopen_wb; [done|]. apply wp_bind, wp_modify. apply wp_bind. eapply wp_fwrite; [done|].
  set (s1 := with_f _ _).
  assert (files s1 !! input = Some x) as Hx1 by (cbn; rewrite lookup_insert_ne; [done | congruence]).
  eapply wp_call; [apply (pack_compressed_spec level input x output sixpack_magic s1); done|].
  cbn beta. intros r s2 (-> & cs & log & Hcs & ->). apply wp_bind. eapply wp_close_f; [done|]. apply wp_ret.
  split; [done|]. exists (sixpack_magic ++ enc_header (entry_header (zlen x) (shown_name input)) ++
    entry_body (zlen x) (shown_name input) ++ cs), log.
  split; [by exists cs|]. cbn [files s_in said s1 with_f with_files]. by rewrite insert_insert_eq.
Qed.

(** *** Errors *)

(** An output file that exists is left alone. *)
Lemma pack_file_exists level input output old s : files s !! output = Some old ->
  wp (fun _ => pack_file level input output) s (fun r s' =>
    r = -1 /\ files s' = files s /\ said s' = said s ++ [Already_exists output]).
Proof.
  intros Ho. unfold pack_file. apply wp_bind, wp_fopen_rb. rewrite Ho. apply wp_bind, wp_ret. apply wp_bind, wp_say. by apply wp_ret.
Qed.

(** When the input cannot be opened the new archive stays, without an entry. *)
Lemma pack_file_no_input level input output s :
  files s !! input = None -> input <> output -> files s !! output = None -> can_create output = true ->
  wp (fun _ => pack_file level input output) s (fun r s' =>
    r = -1 /\ files s' = <[output := sixpack_magic]> (files s) /\ said s' = said s ++ [Cannot_open input]).
Proof.
  intros Hx Hne Ho Hc. unfold pack_file. apply wp_bind, wp_fopen_rb. rewrite Ho.
  apply wp_bind, wp_fopen_wb; [done|]. apply wp_bind, wp_modify. apply wp_bind. eapply wp_fwrite; [done|].
  apply wp_bind. unfold pack_file_compressed. apply wp_bind, wp_fopen_rb. cbn [files with_f with_files].
  rewrite lookup_insert_ne, Hx by done. apply wp_bind, wp_say, wp_ret. apply wp_bind. eapply wp_close_f; [done|].
  apply wp_ret. split; [done|]. split; [|done]. cbn [files said with_said with_f with_files]. by rewrite insert_insert_eq.
Qed.

(** So it does when the input is an archive. *)
Lemma pack_file_archive level input output x s :
  files s !! input = Some x -> zlen x < 2147483648 -> magic_at x = true -> files s !! output = None -> can_create output = true ->
  wp (fun _ => pack_file level input output) s (fun r s' =>
    r = -1 /\ files s' = <[output := sixpack_magic]> (files s) /\ said s' = said s ++ [Already_archive input]).
Proof.
  intros Hx Hl Hm Ho Hc. unfold pack_file. apply wp_bind, wp_fopen_rb. rewrite Ho.
  apply wp_bind, wp_fopen_wb; [done|]. apply wp_bind, wp_modify. apply wp_bind. eapply wp_fwrite; [done|].
  apply wp_bind. unfold pack_file_compressed. apply wp_bind, wp_fopen_rb. cbn [files with_f with_files].
  rewrite lookup_insert_ne, Hx by congruence. assert (0 <= zlen x) by (unfold zlen; lia). apply wp_bind, wp_modify. file_size x.
  apply wp_bind. eapply wp_detect_magic; [done|]. rewrite Hm. apply wp_bind, wp_say. apply wp_bind. eapply wp_close_in; [done|].
  apply wp_ret. apply wp_bind. eapply wp_close_f; [done|].
  apply wp_ret. split; [done|]. split; [|done]. cbn [files said with_said with_in with_f with_files]. by rewrite insert_insert_eq.
Qed.
End format.
