(* ===== verification/SixExtract.v ===== *)
(** * What 6unpack makes of an archive of 6pack

    [unpack_file] of the archive of a file creates the file under its name with its bytes. *)

From Stdlib Require Import ZArith Lia.
From stdpp Require Import base numbers list strings gmap.
From S2P Require Import Prelude FastLZ FastLZStream SixFile SixPack SixUnpack SixSpec SixArchive.

Open Scope Z_scope.

Lemma c_str_no_nul l rest : 0 ∉ l -> c_str (l ++ 0 :: rest) = l.
Proof.
  induction l as [|c l IH]; intros Hl; [done|]. cbn [app c_str]. apply not_elem_of_cons in Hl as [Hc Hl].
  destruct (Z.eqb_spec c 0); [congruence|]. by rewrite IH.
Qed.

Ltac locals_simpl := cbn [u_buffer u_output_file u_decompressed_size u_total_extracted u_percent u_compressed_buffer
  u_compressed_bufsize u_decompressed_buffer u_decompressed_bufsize with_buffer with_output_file with_sizes with_total
  with_percent with_compressed with_decompressed].

Section extract.
Context {DM : data_model} {HO : host}.

(** Enough memory for the blocks of 6pack. *)
Definition memory_for_blocks : Prop := forall n, 0 < n <= 140000 -> malloc_ok n = true.

(** The buffers of the loop have the size it believes them to have. *)
Record buffers_ok (l : locals) : Prop := BuffersOk {
  bo_bytes : bytes (u_buffer l);
  bo_buffer : zlen (u_buffer l) = 65536;
  bo_packed : match u_compressed_buffer l with
              | Some b => zlen b = u_compressed_bufsize l
              | None => u_compressed_bufsize l = 0
              end;
  bo_unpacked : 0 < u_decompressed_bufsize l -> u_decompressed_buffer l = Some tt
}.

(** ** A stored block *)

Lemma stored_loop_spec data p rest y old ck buffer pos s :
  bytes y -> reduced ck -> zlen y < 2147483648 -> bytes buffer -> zlen buffer = 65536 -> 0 <= pos ->
  s_in s = Reading data pos -> drop (Z.to_nat pos) data = y ++ rest -> s_f s = Writing p old ->
  wp (fun n => stored_loop n (zlen y) (pack_sums ck) buffer) s (fun r s' =>
    r.1 = pack_sums (adler_from ck y) /\ bytes r.2 /\ zlen r.2 = 65536 /\
    s' = with_in (Reading data (pos + zlen y)) (with_f (Writing p (old ++ y)) s)).
Proof.
  remember (length y) as k eqn:Ek. revert y Ek old ck buffer pos s. induction k as [k IH] using lt_wf_ind.
  intros y -> old ck buffer pos s Hy Hck Hyl Hb Hbl Hpos Hin Hd Hf.
  eapply wp_unfold; [intros n; cbn [stored_loop]; reflexivity|]. cbv beta zeta.
  assert (exists B : nat, B = Z.to_nat 65536 /\ Z.of_nat B = 65536) as (B & EB & HB) by (eexists; split; [reflexivity | by apply Z2Nat.id]).
  set (x := take B y). set (y' := drop B y).
  pose proof (eq_sym (take_drop B y)) as Exy. fold x in Exy. fold y' in Exy.
  assert (zlen y = zlen x + zlen y') as Hxy by (rewrite Exy at 1; apply zlen_app).
  assert (zlen x = Z.min 65536 (zlen y)) as Hx by (unfold zlen, x; rewrite length_take; lia).
  assert (0 <= zlen y' /\ 0 <= zlen x) as [] by (unfold zlen; lia).
  assert ((if BLOCK_SIZE <? zlen y then BLOCK_SIZE else zlen y) = zlen x) as ->.
  { unfold BLOCK_SIZE. destruct (Z.ltb_spec 65536 (zlen y)); lia. }
  apply wp_bind. apply (wp_fread_exact _ _ data pos x (y' ++ rest)); [exact Hin | by rewrite Hd, Exy, <- app_assoc | done |].
  fold (zlen x). destruct (Z.eqb_spec (zlen x) 0) as [E|E].
  { assert (y = []) as E0 by (apply nil_length_inv; unfold zlen in *; lia). apply wp_ret. rewrite E, E0. cbn [fst snd].
    split; [done|]. split; [done|]. split; [done|]. rewrite app_nil_r, <- Hf. by destruct s. }
  destruct (bytes_split B y Hy) as [Hxb Hy'b]. fold x in Hxb. fold y' in Hy'b.
  apply wp_bind. eapply wp_fwrite; [exact Hf|]. unfold into. rewrite take_app_length.
  eapply wp_call; [apply (update_adler32_spec ck x (drop (length x) buffer)); [done | done | fold (zlen x); lia]|].
  cbn beta. intros r s1 [-> ->]. rewrite ulong_id by lia. replace (zlen y - zlen x) with (zlen y') by lia.
  eapply wp_mono; [apply (IH (length y') ltac:(unfold zlen in *; lia) y' eq_refl (old ++ x) _ _ (pos + zlen x))|].
  - done.
  - by apply adler_from_reduced.
  - lia.
  - by apply into_bytes.
  - fold (into x buffer). rewrite into_length; lia.
  - lia.
  - done.
  - rewrite Z2Nat.inj_add, to_nat_zlen, <- drop_drop, Hd by lia. rewrite Exy, <- app_assoc. apply drop_app_length.
  - done.
  - cbn beta. intros [r1 r2] s' (Hr1 & Hr2 & Hr3 & ->). cbn [fst snd] in *. rewrite Hr1, <- adler_from_app, <- Exy.
    split; [done|]. split; [done|]. split; [done|]. unfold with_in, with_f. cbn [files s_in s_f said].
    rewrite <- app_assoc, <- Exy. by replace (pos + zlen x + zlen y') with (pos + zlen y) by lia.
Qed.

(** What a block does: its bytes go to the file, the buffers stay in order. *)
Definition block_done (x : list Z) (l l' : locals) : Prop :=
  buffers_ok l' /\ u_output_file l' = u_output_file l /\ u_decompressed_size l' = u_decompressed_size l /\
  u_total_extracted l' = u_total_extracted l + zlen x /\ u_percent l' = u_percent l.

Lemma stored_block_spec data p rest x old l pos s :
  bytes x -> zlen x <= 131072 -> buffers_ok l -> 0 <= u_total_extracted l < 2147483648 -> 0 <= pos ->
  s_in s = Reading data pos -> drop (Z.to_nat pos) data = x ++ rest -> s_f s = Writing p old ->
  wp (fun _ => stored_block (Header 17 0 (zlen x) (adler32 x) (zlen x)) l) s (fun l' s' =>
    block_done x l l' /\ s' = with_in (Reading data (pos + zlen x)) (with_f (Writing p (old ++ x)) s)).
Proof.
  intros Hx Hl [B1 B2 B3 B4] Ht Hpos Hin Hd Hf. assert (0 <= zlen x) by (unfold zlen; lia).
  unfold stored_block. cbn [h_size h_checksum]. cbv zeta. rewrite ulong_id by lia.
  eapply wp_call.
  { apply wp_with_fuel. change 1 with (pack_sums (1, 0)).
    apply (stored_loop_spec data p rest x old (1, 0) _ pos s); (done || lia || (split; cbn; lia)). }
  cbn beta. intros [r1 r2] s' (Hr1 & Hr2 & Hr3 & ->). cbn [fst snd] in *. cbn beta iota.
  rewrite Hr1. unfold adler32. rewrite Z.eqb_refl. cbn [negb]. apply wp_ret. by split.
Qed.
(** ** A compressed block *)

(** The enlarged buffers. *)
Lemma enlarge_packed pos n l : memory_for_blocks -> buffers_ok l -> 0 < n <= 140000 ->
  let l' := if u_compressed_bufsize l <? n then with_compressed (malloc pos n) n l else l in
  buffers_ok l' /\ (exists b, u_compressed_buffer l' = Some b /\ n <= zlen b) /\
  with_compressed None 0 l' = with_compressed None 0 l.
Proof.
  intros HM [B1 B2 B3 B4] Hn. cbn zeta. destruct (Z.ltb_spec (u_compressed_bufsize l) n).
  - unfold malloc. rewrite HM by done. pose proof (stale_length pos n ltac:(lia)). split; [by split|].
    split; [|done]. eexists. split; [done|]. unfold zlen. lia.
  - split; [by split|]. split; [|done]. destruct (u_compressed_buffer l) as [b|]; [|lia]. exists b. split; [done | lia].
Qed.

Lemma enlarge_unpacked n l : memory_for_blocks -> buffers_ok l -> 0 < n <= 140000 ->
  let l' := if u_decompressed_bufsize l <? n
            then with_decompressed (if malloc_ok n then Some tt else None) n l else l in
  buffers_ok l' /\ u_decompressed_buffer l' = Some tt /\
  with_decompressed None 0 l' = with_decompressed None 0 l.
Proof.
  intros HM [B1 B2 B3 B4] Hn. cbn zeta. destruct (Z.ltb_spec (u_decompressed_bufsize l) n).
  - rewrite HM by done. by split.
  - split; [by split|]. split; [apply B4; lia | done].
Qed.

Lemma packed_block_spec data p rest x z old l pos at_pos s :
  memory_for_blocks -> packs x z -> bytes x -> 0 < zlen x <= 131072 -> buffers_ok l ->
  0 <= u_total_extracted l < 2147483648 -> 0 <= pos ->
  s_in s = Reading data pos -> drop (Z.to_nat pos) data = z ++ rest -> s_f s = Writing p old ->
  wp (fun _ => packed_block at_pos (Header 17 1 (zlen z) (adler32 z) (zlen x)) l) s (fun l' s' =>
    block_done x l l' /\ s' = with_in (Reading data (pos + zlen z)) (with_f (Writing p (old ++ x)) s)).
Proof.
  intros HM Hp Hx Hl Hok Ht Hpos Hin Hd Hf. pose proof Hp as (Hz & Hz0 & Hzl & Hdec). fold (zlen z) (zlen x) in *.
  unfold packed_block. cbn [h_size h_checksum h_extra].
  pose proof (enlarge_packed at_pos (zlen z) l HM Hok ltac:(lia)) as He. cbn zeta in He.
  set (l1 := if _ <? zlen z then _ else l) in *. destruct He as (Hok1 & (b & Eb & Hb) & E1).
  pose proof (enlarge_unpacked (zlen x) l1 HM Hok1 ltac:(lia)) as He. cbn zeta in He.
  cbv zeta. set (l2 := if _ <? zlen x then _ else l1) in *. destruct He as (Hok2 & Eu & E2).
  assert (u_compressed_buffer l2 = Some b) as Eb2 by (injection E2; congruence). rewrite Eb2.
  assert (u_total_extracted l2 = u_total_extracted l) as Et by (injection E1; injection E2; congruence).
  apply wp_bind. unfold fread_buffer. apply wp_bind.
  apply (wp_fread_exact _ _ data pos z rest); [exact Hin | exact Hd | done |]. cbv beta iota.
  apply wp_ret. unfold into, pointed. cbn [default from_option id].
  apply wp_bind, wp_adler; [done | done | lia |]. cbn [with_compressed with_total with_sizes u_compressed_buffer u_compressed_bufsize].
  rewrite Z.eqb_refl. cbn [negb]. unfold decompress, pointed. cbn [default from_option id u_decompressed_buffer].
  rewrite !wrap32_id by (unfold int32; lia). apply wp_bind.
  apply wp_bind. eapply wp_call_fastlz; [by apply Hdec|]. cbn beta. intros r bs [-> ->]. fold (zlen x). cbn beta iota.
  cbn [u_decompressed_buffer with_decompressed with_sizes with_total with_compressed]. rewrite Eu.
  apply wp_ret. cbn beta iota. rewrite (ulong_id (zlen x)) by lia. rewrite Z.eqb_refl. cbn [negb].
  apply wp_bind. eapply wp_fwrite; [exact Hf|]. apply wp_ret. rewrite to_nat_zlen, firstn_all.
  change (u_total_extracted (with_compressed _ _ l2)) with (u_total_extracted l2). rewrite Et, ulong_id by lia. destruct Hok2 as [C1 C2 C3 C4]. rewrite Eb2 in C3. split; [|done].
  split; [split; cbn; try done; unfold zlen in *; rewrite length_app, length_drop; lia|].
  cbn. injection E1; injection E2. intros; split_and!; congruence.
Qed.
(** ** The blocks of an archive *)

Lemma chunk_header_ok x h body : chunk_of x h body -> 0 < zlen x <= 131072 ->
  header_ok h /\ h_id h = 17 /\ h_size h = zlen body.
Proof.
  intros Hc Hl. pose proof (adler32_range x). destruct Hc as [|z (Hz & Hz0 & Hzl & _)].
  - repeat split; cbn; lia.
  - pose proof (adler32_range z). fold (zlen z) (zlen x) in *. repeat split; cbn; lia.
Qed.

(** What the loop keeps while it extracts: so much of the file is written, the bar shows it. *)
Record extracting (name : path) (size : Z) (done : list Z) (l : locals) : Prop := Extracting {
  ex_buffers : buffers_ok l;
  ex_name : u_output_file l = Some name;
  ex_size : u_decompressed_size l = size;
  ex_total : u_total_extracted l = zlen done;
  ex_percent : u_percent l = marks (zlen done) size
}.

Lemma show_progress_spec name size done x l l' s p old :
  extracting name size done l -> block_done x l l' -> s_f s = Writing p old ->
  0 < size < 2147483648 -> zlen done + zlen x <= size ->
  wp (fun _ => show_progress l') s (fun l'' s' =>
    extracting name size (done ++ x) l'' /\ exists log, s' = with_said (said s ++ log) s).
Proof.
  intros [E1 E2 E3 E4 E5] (D1 & D2 & D3 & D4 & D5) Hf Hs Ht.
  assert (0 <= zlen done /\ 0 <= zlen x) as [] by (unfold zlen; lia).
  unfold show_progress. apply wp_bind, wp_get_state. rewrite Hf. cbn [is_open]. cbv zeta.
  apply wp_bind, wp_progress_percent; [rewrite D3, D4, E3, E4; lia | rewrite D3, E3; lia |].
  rewrite D3, D4, E3, E4, <- zlen_app.
  eapply wp_call; [apply wp_with_fuel, hash_loop_spec|]. cbn beta. intros _ s2 ->. apply wp_ret. split; [|by eexists].
  destruct D1 as [B1 B2 B3 B4]. split; [by split | by rewrite <- E2, <- D2 | by rewrite <- E3, <- D3 | cbn | done].
  rewrite D4, E4. by rewrite zlen_app.
Qed.

Lemma data_block_spec h body data rest name size x done l pos at_pos s p :
  memory_for_blocks -> chunk_of x h body -> bytes x -> 0 < zlen x <= 131072 ->
  extracting name size done l -> 0 < size < 2147483648 -> zlen done + zlen x <= size -> 0 <= pos ->
  s_in s = Reading data pos -> drop (Z.to_nat pos) data = body ++ rest -> s_f s = Writing p done ->
  wp (fun _ => data_block at_pos h l) s (fun l' s' =>
    extracting name size (done ++ x) l' /\ exists log,
    s' = Io (files s) (Reading data (pos + zlen body)) (Writing p (done ++ x)) (said s ++ log)).
Proof.
  intros HM Hc Hx Hl He Hs Ht Hpos Hin Hd Hf. assert (0 <= zlen done) by (unfold zlen; lia).
  pose proof He as [E1 E2 E3 E4 E5]. unfold data_block.
  eapply (wp_call _ _ _ (fun l' s' => block_done x l l' /\
    s' = with_in (Reading data (pos + zlen body)) (with_f (Writing p (done ++ x)) s))).
  - destruct Hc as [|z Hz]; cbn [h_options Z.eqb Pos.eqb].
    + apply (stored_block_spec data p rest); (done || lia).
    + apply (packed_block_spec data p rest); (done || lia).
  - cbn beta. intros l' _ [Hb ->]. by eapply wp_mono; [eapply show_progress_spec; [exact He | exact Hb | done..]|].
Qed.

(** One turn of the loop, at a chunk that is no entry. *)
Lemma chunks_loop_turn h body rest data l pos s (Q : option locals -> io -> Prop) :
  header_ok h -> h_id h = 17 -> h_size h = zlen body -> 0 <= pos -> zlen data < 2147483648 ->
  s_in s = Reading data pos -> drop (Z.to_nat pos) data = enc_header h ++ body ++ rest ->
  let s1 := with_in (Reading data (pos + 16)) s in
  wp (fun _ => if is_open (s_f s) && bool_decide (is_Some (u_output_file l)) && negb (u_decompressed_size l =? 0)
               then data_block pos h l else mret l) s1 (fun l' s' => exists q, s_in s' = Reading data q /\
    wp (fun n => chunks_loop n (zlen data) l') (with_in (Reading data (pos + 16 + zlen body)) s') Q) ->
  wp (fun n => chunks_loop n (zlen data) l) s Q.
Proof.
  intros Hh Hid Hsz Hpos Hdl Hin Hd s1 HQ. eapply wp_unfold; [intros n; cbn [chunks_loop]; reflexivity|]. cbv beta zeta.
  assert (zlen data = pos + (16 + zlen body) + zlen rest) as Hlen.
  { apply (f_equal zlen) in Hd. rewrite !zlen_app in Hd. change (zlen (enc_header h)) with 16 in Hd.
    unfold zlen at 1 in Hd. rewrite length_drop in Hd. unfold zlen in *. lia. }
  assert (0 <= zlen body /\ 0 <= zlen rest) as (? & ?) by (unfold zlen; lia).
  apply wp_bind. eapply wp_ftell; [exact Hin | lia |]. rewrite ulong_id by lia. destruct (Z.leb_spec (zlen data) pos); [lia|].
  apply wp_bind. eapply (wp_read_chunk_header h); [done | exact Hin | exact Hd |].
  rewrite Hid. cbn [Z.eqb Pos.eqb andb]. apply wp_bind, wp_ret. apply wp_bind, wp_get_state.
  eapply wp_call; [exact HQ|]. cbn beta. intros l' s' (q & Hq & HQ'). rewrite Hsz, ulong_id by lia.
  apply wp_bind. eapply wp_fseek_set; [exact Hq | lia | exact HQ'].
Qed.

Lemma chunks_loop_end data l s (Q : option locals -> io -> Prop) :
  zlen data < 2147483648 -> s_in s = Reading data (zlen data) -> Q (Some l) s ->
  wp (fun n => chunks_loop n (zlen data) l) s Q.
Proof.
  intros Hdl Hin HQ. assert (0 <= zlen data) by (unfold zlen; lia).
  eapply wp_unfold; [intros n; cbn [chunks_loop]; reflexivity|]. cbv beta zeta.
  apply wp_bind. eapply wp_ftell; [exact Hin | lia |]. rewrite ulong_id by lia.
  destruct (Z.leb_spec (zlen data) (zlen data)); [|lia]. by apply wp_ret.
Qed.

Lemma drop_next data pos (x rest : list Z) : 0 <= pos -> drop (Z.to_nat pos) data = x ++ rest ->
  drop (Z.to_nat (pos + zlen x)) data = rest.
Proof. intros Hp Hd. rewrite Z2Nat.inj_add, to_nat_zlen, <- drop_drop, Hd by (unfold zlen; lia). apply drop_app_length. Qed.

(** The blocks are extracted one by one; [rest] is what follows them in the archive. *)
Lemma chunks_loop_blocks xs cs rest data name size done l pos s p (Q : option locals -> io -> Prop) :
  memory_for_blocks -> blocks xs cs -> zlen data < 2147483648 ->
  extracting name size done l -> zlen done + zlen xs <= size < 2147483648 ->
  0 <= pos -> s_in s = Reading data pos -> drop (Z.to_nat pos) data = cs ++ rest -> s_f s = Writing p done ->
  (forall l' log, extracting name size (done ++ xs) l' ->
    wp (fun n => chunks_loop n (zlen data) l')
      (Io (files s) (Reading data (pos + zlen cs)) (Writing p (done ++ xs)) (said s ++ log)) Q) ->
  wp (fun n => chunks_loop n (zlen data) l) s Q.
Proof.
  intros HM Hbs Hdl. revert done l pos s. induction Hbs as [|x xs c cs Hx Hxb Hc Hbs IH];
    intros done l pos s He Ht Hpos Hin Hd Hf HQ.
  - specialize (HQ l []). rewrite !app_nil_r, Z.add_0_r, <- Hin, <- Hf in HQ. destruct s. by apply HQ.
  - destruct Hc as (h & body & Hc & ->). destruct (chunk_header_ok x h body Hc Hx) as (Hh & Hid & Hsz).
    rewrite <- !app_assoc in Hd. rewrite zlen_app in Ht. pose proof He as [E1 E2 E3 E4 E5].
    assert (0 <= zlen done /\ 0 <= zlen xs /\ 0 <= zlen body) as (? & ? & ?) by (unfold zlen; lia).
    pose proof (drop_next _ _ _ _ Hpos Hd) as Hd2. change (zlen (enc_header h)) with 16 in Hd2.
    apply (chunks_loop_turn h body (cs ++ rest) data l pos); try done. cbv zeta.
    rewrite Hf. cbn [is_open]. rewrite bool_decide_true by (rewrite E2; by eexists).
    rewrite E3. destruct (Z.eqb_spec size 0); [lia|]. cbn [negb andb].
    eapply wp_mono; [eapply (data_block_spec h body data (cs ++ rest) name size x done l (pos + 16)); (done || lia)|].
    cbn beta. intros l' s' (He' & log & ->). eexists. split; [done|].
    eapply (IH (done ++ x) l' (pos + 16 + zlen body)); [done | rewrite zlen_app; lia | lia | done | | done |].
    + eapply drop_next; [lia | exact Hd2].
    + intros l'' log' He''. specialize (HQ l'' (log ++ log')). rewrite !zlen_app in HQ.
      change (zlen (enc_header h)) with 16 in HQ. cbn [files said s_in s_f with_in].
      rewrite <- app_assoc in He''. rewrite <- !app_assoc. replace (pos + 16 + zlen body + zlen cs) with (pos + (16 + zlen body + zlen cs)) by lia. by apply HQ.
Qed.

(** ** The entry of the file *)

Lemma entry_header_ok size name : zlen name < 65525 -> header_ok (entry_header size name).
Proof.
  intros Hl. pose proof (adler32_range (entry_body size name)). assert (0 <= zlen name) by (unfold zlen; lia).
  split; cbn [entry_header h_id h_options h_size h_checksum h_extra]; lia.
Qed.

(** There is memory for the name. *)
Lemma name_memory size name junk : memory_for_blocks -> zlen name < 65525 ->
  let n := readU16 (drop 8 (entry_body size name ++ junk)) in
  malloc_ok ((if 11 + zlen name - 10 <? n then 11 + zlen name - 10 else n) + 1) = true.
Proof.
  intros HM Hl. cbn zeta. assert (0 <= zlen name) by (unfold zlen; lia).
  change (drop 8 (entry_body size name ++ junk)) with (put16 (zlen name + 1) ++ (name ++ [0]) ++ junk).
  rewrite readU16_put by lia. destruct (Z.ltb_spec (11 + zlen name - 10) (zlen name + 1)); apply HM; lia.
Qed.

(** The name that is read is the one that was written. *)
Lemma entry_name size name junk : 0 ∉ name -> zlen name < 65525 ->
  let buffer := entry_body size name ++ junk in
  let n := readU16 (drop 8 buffer) in
  c_str (take (Z.to_nat (if 11 + zlen name - 10 <? n then 11 + zlen name - 10 else n)) (drop 10 buffer)) = name.
Proof.
  intros H0 Hl. cbn zeta. assert (0 <= zlen name) by (unfold zlen; lia).
  change (drop 8 (entry_body size name ++ junk)) with (put16 (zlen name + 1) ++ (name ++ [0]) ++ junk).
  rewrite readU16_put by lia. destruct (Z.ltb_spec (11 + zlen name - 10) (zlen name + 1)); [lia|].
  change (drop 10 (entry_body size name ++ junk)) with ((name ++ [0]) ++ junk).
  rewrite take_app_length' by (rewrite length_app; unfold zlen; cbn; lia). by apply c_str_no_nul.
Qed.

Lemma file_entry_spec size name data rest pos l s :
  memory_for_blocks -> bytes name -> 0 ∉ name -> zlen name < 65525 -> 0 <= size < 2147483648 -> buffers_ok l ->
  s_in s = Reading data pos -> drop (Z.to_nat pos) data = entry_body size name ++ rest -> s_f s = Null ->
  files s !! name = None -> can_create name = true ->
  wp (fun _ => file_entry (entry_header size name) l) s (fun r s' => exists l', r = Some l' /\
    extracting name size [] l' /\
    s' = Io (<[name := []]> (files s)) (Reading data (pos + (11 + zlen name))) (Writing name []) (said s ++ [Bar (shown name)])).
Proof.
  intros HM Hn H0 Hl Hs [B1 B2 B3 B4] Hin Hd Hf Hx Hc. assert (0 <= zlen name) by (unfold zlen; lia).
  pose proof (entry_body_bytes size name Hn) as Hb. pose proof (entry_body_length size name) as Hbl.
  unfold file_entry, close_f_if_open. apply wp_bind, wp_bind, wp_get_state. rewrite Hf. cbn [is_open]. apply wp_ret.
  cbn [entry_header h_size h_checksum].
  apply wp_bind. apply (wp_fread_exact _ _ data pos (entry_body size name) rest); [exact Hin | exact Hd | by rewrite <- Hbl |].
  cbv zeta. cbn [u_buffer with_output_file with_buffer].
  unfold into. apply wp_bind, wp_adler; [done | by rewrite <- Hbl | lia |].
  rewrite Z.eqb_refl. cbn [negb]. cbn [u_buffer with_sizes with_output_file with_buffer].
  rewrite entry_name, name_memory by done. cbn [negb].
  change (readU32 (entry_body size name ++ _)) with (readU32 (put32 size ++ [0; 0; 0; 0] ++ put16 (zlen name + 1) ++ (name ++ [0]) ++
    drop (length (entry_body size name)) (u_buffer l))).
  rewrite readU32_put by lia.
  apply wp_bind, wp_fopen_rb. cbn [files with_in]. rewrite Hx. apply wp_bind, wp_fopen_wb; [done|].
  apply wp_bind, wp_modify. apply wp_bind, wp_say. apply wp_ret. eexists. split; [reflexivity|]. split; [|done].
  split; locals_simpl; try done; [|by rewrite marks_0].
  split; locals_simpl; try done; fold (into (entry_body size name) (u_buffer l)).
  - by apply into_bytes.
  - rewrite into_length; lia.
Qed.

(** ** The whole archive *)

(** The archive of a file of [size] bytes of which only the blocks of [x] are there, and then [rest]. *)
Definition archive_start (size : Z) (name x rest a : list Z) : Prop :=
  exists cs, blocks x cs /\
    a = sixpack_magic ++ enc_header (entry_header size name) ++ entry_body size name ++ cs ++ rest.

Record unpackable (size : Z) (name x a : list Z) : Prop := Unpackable {
  up_memory : memory_for_blocks;
  up_length : zlen a < 2147483648;
  up_name : bytes name;
  up_no_nul : 0 ∉ name;
  up_name_length : zlen name < 65525;
  up_size : zlen x <= size < 2147483648;
  up_create : can_create name = true
}.

Lemma unpack_file_start size archive name x rest a s (Q : Z -> io -> Prop) :
  archive_start size name x rest a -> unpackable size name x a ->
  files s !! archive = Some a -> files s !! name = None ->
  (forall pos l log, 0 <= pos -> zlen a = pos + zlen rest -> drop (Z.to_nat pos) a = rest -> extracting name size x l ->
    wp (fun n => chunks_loop n (zlen a) l)
      (Io (<[name := []]> (files s)) (Reading a pos) (Writing name x) (said s ++ log)) (fun r s' =>
      r <> None /\ wp (fun _ => close_f_if_open;; close_in;; mret 0) s' Q)) ->
  wp (fun _ => unpack_file archive) s Q.
Proof.
  intros (cs & Hcs & Ea) [HM Hal Hn H0 Hl Hs Hc] Ha Hx HQ.
  assert (0 <= zlen name /\ 0 <= zlen x /\ 0 <= zlen cs /\ 0 <= zlen rest) as (? & ? & ? & ?) by (unfold zlen; lia).
  set (eb := entry_body size name). assert (zlen eb = 11 + zlen name) as Heb by apply entry_body_length.
  assert (zlen a = 8 + 16 + zlen eb + zlen cs + zlen rest) as Hlen.
  { rewrite Ea, !zlen_app. change (zlen sixpack_magic) with 8. change (zlen (enc_header _)) with 16. fold eb. lia. }
  assert (drop (Z.to_nat 8) a = enc_header (entry_header size name) ++ eb ++ cs ++ rest) as Hd0 by (by rewrite Ea).
  assert (drop (Z.to_nat (8 + 16)) a = eb ++ cs ++ rest) as Hd1 by (by rewrite Ea).
  unfold unpack_file. apply wp_bind, wp_fopen_rb. rewrite Ha. cbn beta iota. apply wp_bind, wp_modify. file_size a.
  apply wp_bind. eapply wp_detect_magic; [done|].
  assert (magic_at a = true) as -> by (rewrite Ea; apply bool_decide_true; reflexivity). cbn [negb].
  apply wp_bind, wp_say. apply wp_bind. eapply wp_fseek_set; [done | lia |]. apply wp_bind, wp_modify.
  cbn [with_in with_f with_said files s_in s_f said].
  apply (wp_call _ _ _ (fun r s' => r <> None /\ wp (fun _ => close_f_if_open;; close_in;; mret 0) s' Q)).
  2: { intros [r|] s' [Hr Hw]; [exact Hw | done]. }
  apply wp_with_fuel. eapply wp_unfold; [intros n; cbn [chunks_loop]; reflexivity|]. cbv beta zeta.
  apply wp_bind. eapply wp_ftell; [done | lia |]. rewrite ulong_id by lia. destruct (Z.leb_spec (zlen a) 8); [lia|].
  apply wp_bind. eapply (wp_read_chunk_header (entry_header size name)); [by apply entry_header_ok | done | exact Hd0 |].
  cbn [entry_header h_id h_size]. unfold BLOCK_SIZE. cbn [Z.eqb Pos.eqb andb].
  destruct (Z.ltb_spec 10 (11 + zlen name)); [|lia]. destruct (Z.ltb_spec (11 + zlen name) 65536); [|lia]. cbn [andb].
  eapply wp_call.
  { eapply (file_entry_spec size name a (cs ++ rest) (8 + 16)); try done; [lia|].
    pose proof (stale_length 0 65536 ltac:(lia)). split; cbn; try done; apply stale_bytes. }
  cbn beta. intros r s1 (l' & -> & He & ->). cbn beta iota. apply wp_bind, wp_get_state. apply wp_bind, wp_ret.
  apply wp_bind. rewrite ulong_id by lia. eapply wp_fseek_set; [done | lia |]. rewrite <- Heb.
  assert (drop (Z.to_nat (8 + 16 + zlen eb)) a = cs ++ rest) as Hd2 by (by apply (drop_next _ _ eb)).
  eapply (chunks_loop_blocks x cs rest a name size [] l' (8 + 16 + zlen eb)); try (done || lia).
  intros l'' log He''. cbn [files said with_in with_f with_said app] in *. rewrite <- !app_assoc. apply HQ; [lia | lia | | done].
  by apply (drop_next _ _ cs).
Qed.

(** An archive that ends after some of its blocks: the file has as much, and 0 is returned. *)
Lemma unpack_file_prefix size archive name x a s :
  archive_start size name x [] a -> unpackable size name x a -> files s !! archive = Some a -> files s !! name = None ->
  wp (fun _ => unpack_file archive) s (fun r s' =>
    r = 0 /\ files s' = <[name := x]> (files s) /\ s_in s' = Closed /\ s_f s' = Closed).
Proof.
  intros Hst Hu Ha Hx. eapply unpack_file_start; [exact Hst | exact Hu | done | done |].
  intros pos l log Hp Hlen Hd He. rewrite Z.add_0_r in Hlen. subst pos. apply chunks_loop_end; [by destruct Hu | done |].
  split; [done|]. apply wp_bind. unfold close_f_if_open. apply wp_bind, wp_get_state. eapply wp_close_f; [done|].
  apply wp_bind. eapply wp_close_in; [done|]. apply wp_ret. cbn. by rewrite insert_insert_eq.
Qed.
(** ** Damaged blocks *)

(** With no file open the rest of the archive is passed over. *)
Lemma chunks_loop_skip xs cs data l pos s (Q : option locals -> io -> Prop) :
  blocks xs cs -> zlen data < 2147483648 -> 0 <= pos -> s_in s = Reading data pos -> drop (Z.to_nat pos) data = cs ->
  zlen data = pos + zlen cs -> s_f s = Null -> Q (Some l) (with_in (Reading data (zlen data)) s) ->
  wp (fun n => chunks_loop n (zlen data) l) s Q.
Proof.
  intros Hbs Hdl. revert pos s. induction Hbs as [|x xs c cs Hx Hxb Hc Hbs IH]; intros pos s Hpos Hin Hd Hlen Hf HQ.
  - rewrite Z.add_0_r in Hlen. subst pos. apply chunks_loop_end; [done | done |]. rewrite <- Hin in HQ. by destruct s.
  - destruct Hc as (h & body & Hc & ->). destruct (chunk_header_ok x h body Hc Hx) as (Hh & Hid & Hsz).
    rewrite <- !app_assoc in Hd. rewrite !zlen_app in Hlen. change (zlen (enc_header h)) with 16 in Hlen.
    assert (0 <= zlen body) by (unfold zlen; lia).
    apply (chunks_loop_turn h body cs data l pos); try done. cbv zeta. rewrite Hf. cbn [is_open andb]. apply wp_ret.
    eexists. split; [done|]. apply (IH (pos + 16 + zlen body)); try done; [lia | | lia].
    pose proof (drop_next _ _ _ _ Hpos Hd) as Hd2. change (zlen (enc_header h)) with 16 in Hd2.
    eapply drop_next; [lia | exact Hd2].
Qed.

(** The message, and what of the block is in the file: a stored block is written before it is checked. *)
Definition mismatch (h : header) (got : Z) : message :=
  if h_options h =? 0 then Stored_mismatch got (h_checksum h) else Packed_mismatch got (h_checksum h).
Definition kept (h : header) (body : list Z) : list Z := if h_options h =? 0 then body else [].

Lemma wp_drop_file why l s p old (Q : locals -> io -> Prop) : s_f s = Writing p old ->
  Q (with_output_file None l) (Io (<[p := old]> (files s)) (s_in s) Null (said s ++ [why])) -> wp (fun _ => drop_file why l) s Q.
Proof.
  intros Hf HQ. unfold drop_file. apply wp_bind. eapply wp_close_f; [exact Hf|]. apply wp_bind, wp_modify.
  apply wp_bind, wp_say. by apply wp_ret.
Qed.

Lemma data_block_damaged h body body' data rest name size x done l pos at_pos s p :
  memory_for_blocks -> chunk_of x h body -> bytes body' -> zlen body' = zlen body -> adler32 body' <> adler32 body ->
  0 < zlen x <= 131072 -> extracting name size done l -> zlen done + zlen x <= size < 2147483648 -> 0 <= pos ->
  s_in s = Reading data pos -> drop (Z.to_nat pos) data = body' ++ rest -> s_f s = Writing p done ->
  wp (fun _ => data_block at_pos h l) s (fun l' s' => exists q,
    s' = Io (<[p := done ++ kept h body']> (files s)) (Reading data q) Null (said s ++ [mismatch h (adler32 body')])).
Proof.
  intros HM Hc Hb' Hl' Hne Hl [E1 E2 E3 E4 E5] Hs Hpos Hin Hd Hf.
  assert (0 <= zlen done /\ 0 <= zlen body') as [] by (unfold zlen; lia).
  assert (zlen body < 2147483648) as Hbl.
  { destruct (chunk_header_ok x h body Hc Hl) as ([] & _ & Hsz). destruct Hc as [|z (Hz & Hz0 & Hzl & _)]; [lia|]. fold (zlen z) (zlen x) in *. lia. }
  unfold data_block. eapply (wp_call _ _ _ (fun l' s' => exists q,
    s' = Io (<[p := done ++ kept h body']> (files s)) (Reading data q) Null (said s ++ [mismatch h (adler32 body')]))).
  2: { cbn beta. intros l' _ (q & ->). unfold show_progress. apply wp_bind, wp_get_state, wp_ret. by eexists. }
  destruct Hc as [|z Hz]; unfold kept, mismatch; cbn [h_options Z.eqb Pos.eqb h_checksum]; destruct E1 as [B1 B2 B3 B4].
  - unfold stored_block. cbn [h_size h_checksum]. cbv zeta. rewrite <- Hl'. eapply wp_call.
    { apply wp_with_fuel. change 1 with (pack_sums (1, 0)).
      apply (stored_loop_spec data p rest body' done (1, 0) _ pos s); (done || lia || (split; cbn; lia)). }
    cbn beta. intros [r1 r2] s' (Hr1 & Hr2 & Hr3 & ->). cbn [fst snd] in *. cbn beta iota. rewrite Hr1. fold (adler32 body').
    destruct (Z.eqb_spec (adler32 body') (adler32 x)); [done|]. cbn [negb]. eapply wp_drop_file; [done|]. by eexists.
  - pose proof Hz as (_ & Hz0 & Hzl & _). fold (zlen z) (zlen x) in *.
    unfold packed_block. cbn [h_size h_checksum h_extra].
    pose proof (enlarge_packed at_pos (zlen z) l HM ltac:(by split) ltac:(lia)) as He. cbn zeta in He.
    set (l1 := if _ <? zlen z then _ else l) in *. destruct He as (Hok1 & (b & Eb & Hb) & E1).
    pose proof (enlarge_unpacked (zlen x) l1 HM Hok1 ltac:(lia)) as He. cbn zeta in He.
    cbv zeta. set (l2 := if _ <? zlen x then _ else l1) in *. destruct He as (Hok2 & Eu & E6).
    assert (u_compressed_buffer l2 = Some b) as Eb2 by (injection E6; congruence). rewrite Eb2.
    apply wp_bind. unfold fread_buffer. apply wp_bind.
    apply (wp_fread_exact _ _ data pos body' rest); [exact Hin | exact Hd | by rewrite <- Hl' |]. cbv beta iota.
    apply wp_ret. unfold into, pointed. cbn [default from_option id].
    apply wp_bind, wp_adler; [done | by rewrite <- Hl' | lia |].
    locals_simpl. destruct (Z.eqb_spec (adler32 body') (adler32 z)); [done|]. cbn [negb].
    eapply wp_drop_file; [exact Hf|]. eexists. by rewrite app_nil_r.
Qed.
(** An archive in which the data of one block is damaged. *)
Lemma unpack_file_damaged size archive name x y z h body body' cs a s :
  archive_start size name x (enc_header h ++ body' ++ cs) a -> unpackable size name (x ++ y ++ z) a ->
  chunk_of y h body -> 0 < zlen y <= 131072 -> bytes body' -> zlen body' = zlen body -> adler32 body' <> adler32 body ->
  blocks z cs -> files s !! archive = Some a -> files s !! name = None ->
  wp (fun _ => unpack_file archive) s (fun r s' =>
    r = 0 /\ files s' = <[name := x ++ kept h body']> (files s) /\ mismatch h (adler32 body') ∈ said s').
Proof.
  intros Hst Hu Hc Hy Hb Hl Hne Hz Ha Hx. destruct (chunk_header_ok y h body Hc Hy) as (Hh & Hid & Hsz).
  destruct Hu as [HM U1 U2 U3 U4 [U5 U6] U7]. rewrite !zlen_app in U5.
  assert (0 <= zlen x /\ 0 <= zlen z /\ 0 <= zlen body') as (? & ? & ?) by (unfold zlen; lia).
  eapply unpack_file_start; [exact Hst | split; (done || lia) | done | done |].
  intros pos l log Hp Hlen Hd He. rewrite !zlen_app in Hlen. change (zlen (enc_header h)) with 16 in Hlen.
  pose proof (drop_next _ _ _ _ Hp Hd) as Hd2. change (zlen (enc_header h)) with 16 in Hd2.
  pose proof He as [E1 E2 E3 E4 E5].
  apply (chunks_loop_turn h body' cs a l pos); try done; [congruence|]. cbv zeta. cbn [with_in files s_in s_f said is_open].
  rewrite bool_decide_true by (rewrite E2; by eexists). rewrite E3. destruct (Z.eqb_spec size 0); [lia|]. cbn [negb andb].
  eapply wp_mono; [apply (data_block_damaged h body body' a cs name size y x l (pos + 16)); (done || lia)|].
  cbn beta. intros l' s' (q & ->). cbn [files said]. eexists. split; [done|].
  apply (chunks_loop_skip z cs a l' (pos + 16 + zlen body')); try done; [lia | by eapply drop_next; [lia|] | lia |].
  split; [done|]. unfold close_f_if_open. apply wp_bind, wp_bind, wp_get_state. cbn [with_in files s_in s_f said is_open].
  apply wp_ret. apply wp_bind. eapply wp_close_in; [done|]. apply wp_ret. cbn [with_in files s_in s_f said].
  split; [done|]. split; [by rewrite insert_insert_eq|]. apply elem_of_app. right. by apply list_elem_of_singleton.
Qed.
End extract.
