(* ===== verification/SixTotal.v ===== *)
(** * Does 6unpack end?

    With longs of 64 bits it does, on any archive: every turn of its loop moves on.  With 32 bits the position of the
    next chunk can wrap around, and there are archives on which the loop does not end. *)

From Stdlib Require Import ZArith Lia.
From stdpp Require Import base numbers list strings gmap.
From S2P Require Import Prelude FastLZ FastLZStream SixFile SixPack SixUnpack SixSpec SixArchive SixExtract.

Open Scope Z_scope.

Section total.
Context {DM : data_model} {HO : host}.

(** The archive stays open. *)
Definition reads (data : list Z) (s : io) : Prop := exists pos, s_in s = Reading data pos.

Lemma reads_ext data s s' : s_in s' = s_in s -> reads data s -> reads data s'.
Proof. intros E (pos & Hs). exists pos. congruence. Qed.
Hint Resolve reads_ext : core.

(** ** The checksum *)

Lemma halts_adler_byte a s (Q : list Z * Z * Z -> io -> Prop) : (forall a', Q a' s) -> halts (fun _ => adler_byte a) s Q.
Proof. intros HQ. destruct a as [[[|b ptr] s1] s2]; cbn [adler_byte]; [by apply halts_fail | by apply halts_ret]. Qed.

Lemma halts_adler_8 a s (Q : list Z * Z * Z -> io -> Prop) : (forall a', Q a' s) -> halts (fun _ => adler_8 a) s Q.
Proof. intros HQ. unfold adler_8. do 7 (apply halts_bind, halts_adler_byte; intros ?). by apply halts_adler_byte. Qed.

Lemma halts_eights k a s (Q : Z * (list Z * Z * Z) -> io -> Prop) :
  (forall r, Q r s) -> halts (fun n => eights_loop n k a) s Q.
Proof.
  remember (Z.to_nat k) as m eqn:Em. revert k a Em. induction m as [m IH] using lt_wf_ind. intros k a -> HQ.
  eapply halts_unfold; [intros n; cbn [eights_loop]; reflexivity|]. cbv beta.
  destruct (Z.leb_spec 8 k); [|by apply halts_ret]. apply halts_bind, halts_adler_8. intros a'.
  eapply (IH (Z.to_nat (k - 8))); [lia | done..].
Qed.

Lemma halts_ones k a s (Q : list Z * Z * Z -> io -> Prop) :
  (forall r, Q r s) -> halts (fun n => ones_loop n k a) s Q.
Proof.
  remember (Z.to_nat k) as m eqn:Em. revert k a Em. induction m as [m IH] using lt_wf_ind. intros k a -> HQ.
  eapply halts_unfold; [intros n; cbn [ones_loop]; reflexivity|]. cbv beta.
  destruct (Z.ltb_spec 0 k); [|by apply halts_ret]. apply halts_bind, halts_adler_byte. intros a'.
  eapply (IH (Z.to_nat (k - 1))); [lia | done..].
Qed.

Lemma halts_adler_loop len a s (Q : list Z * Z * Z -> io -> Prop) :
  (forall r, Q r s) -> halts (fun n => adler_loop n len a) s Q.
Proof.
  remember (Z.to_nat len) as m eqn:Em. revert len a Em. induction m as [m IH] using lt_wf_ind. intros len a -> HQ.
  eapply halts_unfold; [intros n; cbn [adler_loop]; reflexivity|]. cbv beta.
  destruct (Z.ltb_spec 0 len); [|by apply halts_ret]. cbv zeta. set (k := if len <? 5552 then len else 5552).
  assert (0 < k) by (unfold k; destruct (Z.ltb_spec len 5552); lia).
  apply halts_bind, halts_with_fuel, halts_eights. intros ka. apply halts_bind, halts_with_fuel, halts_ones.
  intros [[ptr s1] s2]. cbn beta iota. eapply (IH (Z.to_nat (len - k))); [lia | done..].
Qed.

Lemma halts_adler checksum buf len s (Q : Z -> io -> Prop) :
  (forall r, Q r s) -> halts (fun _ => update_adler32 checksum buf len) s Q.
Proof.
  intros HQ. unfold update_adler32. cbv zeta. apply halts_bind, halts_with_fuel, halts_adler_loop.
  intros [[ptr s1] s2]. by apply halts_ret.
Qed.

(** ** Streams *)

Lemma halts_fread n data s (Q : list Z -> io -> Prop) : reads data s ->
  (forall got s', (length got <= Z.to_nat n)%nat -> reads data s' -> s_f s' = s_f s -> Q got s') ->
  halts (fun _ => fread n) s Q.
Proof.
  intros (pos & Hs) HQ. unfold fread. apply halts_bind, halts_get_state. rewrite Hs. cbv zeta.
  apply halts_bind, halts_set_state, halts_ret, HQ; [rewrite length_take; lia | by eexists | done].
Qed.

Lemma halts_fwrite x data s (Q : unit -> io -> Prop) : reads data s ->
  (forall s', reads data s' -> Q tt s') -> halts (fun _ => fwrite x) s Q.
Proof.
  intros Hs HQ. unfold fwrite. apply halts_bind, halts_get_state. destruct (s_f s); try by apply halts_fail.
  apply halts_set_state, HQ. by eapply reads_ext; [|exact Hs].
Qed.

Lemma halts_say m data s (Q : unit -> io -> Prop) : reads data s ->
  (forall s', reads data s' -> Q tt s') -> halts (fun _ => say m) s Q.
Proof. intros Hs HQ. apply halts_modify, HQ. by eapply reads_ext; [|exact Hs]. Qed.

Lemma halts_close_f data s (Q : unit -> io -> Prop) : reads data s ->
  (forall s', reads data s' -> Q tt s') -> halts (fun _ => close_f) s Q.
Proof.
  intros Hs HQ. unfold close_f. apply halts_bind, halts_get_state. unfold fclose.
  destruct (s_f s); try (by apply halts_bind, halts_fail); apply halts_bind; [apply halts_ret | apply halts_modify];
    apply halts_modify, HQ; by eapply reads_ext; [|exact Hs].
Qed.

Lemma halts_fopen_wb p data s (Q : stream -> io -> Prop) : reads data s ->
  (forall f s', reads data s' -> Q f s') -> halts (fun _ => fopen_wb p) s Q.
Proof.
  intros Hs HQ. unfold fopen_wb. destruct (can_create p); [|by apply halts_ret, HQ].
  apply halts_bind, halts_modify, halts_ret, HQ. by eapply reads_ext; [|exact Hs].
Qed.

Lemma halts_hash last percent data s (Q : unit -> io -> Prop) : reads data s ->
  (forall s', reads data s' -> Q tt s') -> halts (fun n => hash_loop n last percent) s Q.
Proof.
  intros Hs HQ. eapply halts_mono; [apply wp_halts, hash_loop_spec|]. cbn beta. intros [] s' ->.
  apply HQ. by eapply reads_ext; [|exact Hs].
Qed.

(** ** The chunks *)

Lemma halts_stored_loop remaining checksum buffer data s (Q : Z * list Z -> io -> Prop) :
  0 <= remaining < 4294967296 -> reads data s ->
  (forall r s', reads data s' -> Q r s') -> halts (fun n => stored_loop n remaining checksum buffer) s Q.
Proof.
  remember (Z.to_nat remaining) as m eqn:Em. revert remaining checksum buffer s Em.
  induction m as [m IH] using lt_wf_ind. intros remaining checksum buffer s -> Hr Hs HQ.
  eapply halts_unfold; [intros n; cbn [stored_loop]; reflexivity|]. cbv beta zeta.
  apply halts_bind. eapply halts_fread; [exact Hs|]. intros got s1 Hg Hs1 _.
  destruct (Z.eqb_spec (Z.of_nat (length got)) 0); [by apply halts_ret, HQ|].
  assert (Z.of_nat (length got) <= remaining) as Hle.
  { unfold BLOCK_SIZE in Hg. destruct (Z.ltb_spec 65536 remaining); lia. }
  apply halts_bind. eapply halts_fwrite; [exact Hs1|]. intros s2 Hs2. apply halts_bind, halts_adler. intros r.
  rewrite ulong_id by lia. eapply (IH (Z.to_nat (remaining - Z.of_nat (length got)))); [lia | done | lia | done | done].
Qed.

Lemma halts_drop_file why l data s (Q : locals -> io -> Prop) : reads data s ->
  (forall l' s', reads data s' -> Q l' s') -> halts (fun _ => drop_file why l) s Q.
Proof.
  intros Hs HQ. unfold drop_file. apply halts_bind. eapply halts_close_f; [exact Hs|]. intros s1 Hs1.
  apply halts_bind, halts_modify, halts_bind. eapply halts_say; [by eapply reads_ext; [|exact Hs1]|].
  intros s2 Hs2. by apply halts_ret, HQ.
Qed.

Lemma halts_stored_block h l data s (Q : locals -> io -> Prop) : 0 <= h_size h < 4294967296 -> reads data s ->
  (forall l' s', reads data s' -> Q l' s') -> halts (fun _ => stored_block h l) s Q.
Proof.
  intros Hh Hs HQ. unfold stored_block. cbv zeta. apply halts_bind, halts_with_fuel.
  eapply halts_stored_loop; [exact Hh | exact Hs|]. intros [ck buffer] s1 Hs1. cbn beta iota.
  destruct (negb _); [by eapply halts_drop_file | by apply halts_ret, HQ].
Qed.

Lemma halts_fastlz (m : prog buffers Z) s (Q : Z * list Z -> io -> Prop) :
  halts (fun _ => m) fresh (fun _ _ => True) -> (forall r, Q r s) -> halts (fun _ => call_fastlz m) s Q.
Proof.
  intros (N & o & H & Ho) HQ. destruct o as [r b|f].
  - exists N, (Ok (r, out b) s). split; [|done]. intros n fuel Hn Hf. unfold call_fastlz. by rewrite (H n).
  - exists N, (Fault f). split; [|done]. intros n fuel Hn Hf. unfold call_fastlz. by rewrite (H n).
Qed.

Lemma halts_packed_block pos h l data s (Q : locals -> io -> Prop) : reads data s ->
  (forall l' s', reads data s' -> Q l' s') -> halts (fun _ => packed_block pos h l) s Q.
Proof.
  intros Hs HQ. unfold packed_block. cbv zeta. set (l1 := if _ <? h_extra h then _ else _).
  apply (halts_call _ _ _ (fun _ => reads data)).
  { unfold fread_buffer. apply halts_bind. eapply halts_fread; [exact Hs|]. intros got s1 _ Hs1 _.
    destruct (u_compressed_buffer l1); [by apply halts_ret|]. destruct got; [by apply halts_ret | by apply halts_fail]. }
  intros b s1 Hs1. apply halts_bind, halts_adler. intros r. destruct (negb _); [by eapply halts_drop_file|].
  apply (halts_call _ _ _ (fun _ => reads data)).
  { unfold decompress. apply halts_bind, halts_fastlz; [apply decompress_halts|]. intros [v bs]. cbn beta iota.
    repeat case_match; (by apply halts_ret) || by apply halts_fail. }
  intros [v bs] s2 Hs2. cbn beta iota. destruct (negb _); [by eapply halts_drop_file|].
  apply halts_bind. eapply halts_fwrite; [exact Hs2|]. intros s3 Hs3. by apply halts_ret, HQ.
Qed.

Lemma halts_udiv {S} a b (s : S) (Q : Z -> S -> Prop) : (forall q, Q q s) -> halts (fun _ => udiv a b) s Q.
Proof. intros HQ. unfold udiv. destruct (b =? 0); [by apply halts_fail | by apply halts_ret]. Qed.

Lemma halts_data_block pos h l data s (Q : locals -> io -> Prop) : 0 <= h_size h < 4294967296 -> reads data s ->
  (forall l' s', reads data s' -> Q l' s') -> halts (fun _ => data_block pos h l) s Q.
Proof.
  intros Hh Hs HQ. unfold data_block. apply (halts_call _ _ _ (fun _ => reads data)).
  { destruct (_ =? 0); [by eapply halts_stored_block|]. destruct (_ =? 1); [by eapply halts_packed_block|].
    by eapply halts_drop_file. }
  intros l1 s1 Hs1. unfold show_progress. apply halts_bind, halts_get_state. destruct (is_open (s_f s1)); [|by apply halts_ret, HQ].
  cbv zeta. apply halts_bind. unfold progress_percent. apply halts_bind.
  apply (halts_mono _ _ (fun _ s' => s' = s1)); [destruct (_ <? _); by apply halts_udiv|].
  intros q _ ->. apply halts_ret. apply halts_bind, halts_with_fuel. eapply halts_hash; [exact Hs1|].
  intros s2 Hs2. by apply halts_ret, HQ.
Qed.

Lemma halts_file_entry h l data s (Q : option locals -> io -> Prop) : reads data s ->
  (forall s', Q None s') -> (forall l' s', reads data s' -> Q (Some l') s') -> halts (fun _ => file_entry h l) s Q.
Proof.
  intros Hs HN HS. unfold file_entry. apply (halts_call _ _ _ (fun _ => reads data)).
  { unfold close_f_if_open. apply halts_bind, halts_get_state. destruct (is_open _); [by eapply halts_close_f | by apply halts_ret]. }
  intros _ s1 Hs1. apply halts_bind. eapply halts_fread; [exact Hs1|]. intros got s2 _ Hs2 _. cbv zeta.
  apply halts_bind, halts_adler. intros r. destruct (negb _).
  { unfold close_in. apply halts_bind, halts_bind, halts_get_state. destruct Hs2 as (pos & E). rewrite E.
    apply halts_bind, halts_ret, halts_modify. apply halts_bind, halts_modify. apply halts_ret, HN. }
  destruct (negb (malloc_ok _)); [by apply halts_fail|].
  apply halts_bind. unfold fopen_rb. apply halts_bind, halts_get_state, halts_ret.
  destruct (files s2 !! _) as [d|]; cbn beta iota.
  - apply halts_bind, halts_ret. apply halts_bind, halts_modify. apply halts_bind. eapply halts_say; [by eapply reads_ext; [|exact Hs2]|].
    intros s3 Hs3. by apply halts_ret, HS.
  - apply halts_bind. eapply halts_fopen_wb; [exact Hs2|]. intros f s3 Hs3. apply halts_bind, halts_modify.
    assert (reads data (with_f f s3)) by (by eapply reads_ext; [|exact Hs3]).
    destruct f; (apply halts_bind; eapply halts_say; [done|]; intros s4 Hs4; by apply halts_ret, HS).
Qed.

Lemma halts_header data s (Q : header -> io -> Prop) : reads data s ->
  (forall h s', reads data s' -> 0 <= h_size h < 4294967296 -> Q h s') -> halts (fun _ => read_chunk_header) s Q.
Proof.
  intros Hs HQ. unfold read_chunk_header. apply halts_bind, halts_get_state. cbv zeta. apply halts_bind.
  eapply halts_fread; [exact Hs|]. intros got s1 _ Hs1 _. apply halts_ret, HQ; [done|]. cbn [h_size].
  change 4294967295 with (Z.ones 32). rewrite Z.land_ones by lia. apply Z.mod_pos_bound. lia.
Qed.

(** Sixteen bytes and the size of the chunk further, every time. *)
Lemma halts_chunks_loop l data pos s : long_bits = 64 -> zlen data < 4611686018427387904 ->
  s_in s = Reading data pos -> 0 <= pos -> pos < 9223372036854775808 ->
  halts (fun n => chunks_loop n (zlen data) l) s (fun r s' => r <> None -> reads data s').
Proof.
  intros W Hd. remember (Z.to_nat (zlen data - pos)) as m eqn:Em. revert pos l s Em.
  induction m as [m IH] using lt_wf_ind. intros pos l s -> Hs Hp0 Hp.
  eapply halts_unfold; [intros n; cbn [chunks_loop]; reflexivity|]. cbv beta.
  apply halts_bind. unfold ftell. apply halts_bind, halts_get_state. rewrite Hs. apply halts_ret.
  destruct (Z.ltb_spec pos (2 ^ (long_bits - 1))) as [_|Hge].
  2: { rewrite W in Hge. change (2 ^ (64 - 1)) with 9223372036854775808 in Hge. lia. }
  assert (ulong pos = pos) as -> by (unfold ulong; rewrite W; apply Z.mod_small; lia). cbv zeta.
  destruct (Z.leb_spec (zlen data) pos); [by apply halts_ret; intros _; exists pos|].
  apply halts_bind. eapply halts_header; [by exists pos|]. intros h s1 Hs1 Hh.
  apply (halts_call _ _ _ (fun r s' => r <> None -> reads data s')).
  { destruct (_ && _); [|by apply halts_ret]. eapply halts_file_entry; [exact Hs1 | done | done]. }
  intros [l1|] s2 Hs2; [|by apply halts_ret]. specialize (Hs2 ltac:(done)). apply halts_bind, halts_get_state.
  apply (halts_call _ _ _ (fun _ => reads data)).
  { destruct (_ && _); [by eapply halts_data_block | by apply halts_ret]. }
  intros l2 s3 (q & Hs3). assert (0 <= pos + 16 + h_size h < 9223372036854775808) as Hn by lia.
  assert (slong (ulong (pos + 16 + h_size h)) = pos + 16 + h_size h) as E.
  { unfold slong, ulong. rewrite W. change (2 ^ (64 - 1)) with 9223372036854775808. change (2 ^ 64) with 18446744073709551616.
    rewrite (Z.mod_small (pos + 16 + h_size h)) by lia. rewrite Z.mod_small; lia. }
  apply halts_bind. unfold fseek_set. apply halts_bind, halts_get_state. rewrite Hs3, E.
  destruct (Z.ltb_spec (pos + 16 + h_size h) 0); [lia|]. apply halts_set_state.
  eapply (IH (Z.to_nat (zlen data - (pos + 16 + h_size h)))); [lia | reflexivity | done | lia | lia].
Qed.
Lemma unpack_file_halts archive s :
  long_bits = 64 -> (forall p d, files s !! p = Some d -> zlen d < 4611686018427387904) ->
  halts (fun _ => unpack_file archive) s (fun _ _ => True).
Proof.
  intros W Hd. unfold unpack_file, fopen_rb. apply halts_bind, halts_bind, halts_get_state, halts_ret.
  destruct (files s !! archive) as [a|] eqn:Ea.
  2: { cbn beta iota. apply halts_bind, halts_modify. by apply halts_ret. }
  cbn beta iota. specialize (Hd _ _ Ea). assert (0 <= zlen a) by (unfold zlen; lia).
  apply halts_bind, halts_modify. unfold fseek_end. apply halts_bind, halts_bind, halts_get_state. cbn [with_in s_in].
  apply halts_set_state. unfold ftell. apply halts_bind, halts_bind, halts_get_state. cbn [with_in s_in]. apply halts_ret.
  fold (zlen a). destruct (Z.ltb_spec (zlen a) (2 ^ (long_bits - 1))) as [_|Hge].
  2: { rewrite W in Hge. change (2 ^ (64 - 1)) with 9223372036854775808 in Hge. lia. }
  assert (ulong (zlen a) = zlen a) as -> by (unfold ulong; rewrite W; apply Z.mod_small; lia). cbv zeta.
  apply halts_bind. eapply wp_halts, wp_fseek_set; [done | lia |].
  apply halts_bind. eapply wp_halts, wp_detect_magic; [done|]. destruct (magic_at a); cbn [negb].
  2: { apply halts_bind. eapply wp_halts, wp_close_in; [done|]. apply halts_bind, halts_modify. by apply halts_ret. }
  apply halts_bind, halts_modify. apply halts_bind. eapply wp_halts, wp_fseek_set; [done | lia |].
  apply halts_bind, halts_modify. set (s1 := with_f Null _).
  eapply halts_call; [apply halts_with_fuel, (halts_chunks_loop _ a 8 s1); (done || lia)|].
  cbn beta. intros [l|] s2 Hs2; [|by apply halts_ret]. specialize (Hs2 ltac:(done)).
  unfold close_f_if_open. apply (halts_call _ _ _ (fun _ => reads a)).
  { apply halts_bind, halts_get_state. destruct (is_open _); [by eapply halts_close_f | by apply halts_ret]. }
  intros _ s3 (q & Hs3). apply halts_bind. eapply wp_halts, wp_close_in; [exact Hs3|]. by apply halts_ret.
Qed.

(** ** Thirty-two bits *)

(** A chunk whose size leads from its end back to its start: the loop comes round to the same position. *)
Definition loop_header : header := Header 2 0 4294967280 0 0.
Definition loop_archive : list Z := sixpack_magic ++ enc_header loop_header.

End total.

Lemma bind_ok {S A B} (m : prog S A) (k : A -> prog S B) fuel s a s' :
  m fuel s = Ok a s' -> (m ≫= k) fuel s = k a fuel s'.
Proof. intros E. unfold mbind, prog_bind. by rewrite E. Qed.

Lemma bind_fault {S A B} (m : prog S A) (k : A -> prog S B) fuel s f :
  m fuel s = Fault f -> (m ≫= k) fuel s = Fault f.
Proof. intros E. unfold mbind, prog_bind. by rewrite E. Qed.

Section stays.
Context (Hw : 32 = 32 \/ 32 = 64) {HO : host}.
#[local] Instance long32 : data_model := DataModel 32 Hw.

Lemma chunks_loop_stays n l fuel s : s_in s = Reading loop_archive 8 ->
  chunks_loop n 24 l fuel s = Fault Out_of_fuel.
Proof.
  destruct s as [fs si sf sd]. cbn [s_in]. intros ->.
  induction n as [|n IH]; [reflexivity|]. etransitivity; [|exact IH]. reflexivity.
Qed.

Lemma unpack_file_stays archive fuel s : files s !! archive = Some loop_archive ->
  unpack_file archive fuel s = Fault Out_of_fuel.
Proof.
  destruct s as [fs si sf sd]. cbn [files]. intros Ha.
  unfold unpack_file. erewrite bind_ok by (unfold fopen_rb, mbind, prog_bind; cbn; rewrite Ha; reflexivity).
  cbn beta iota. do 4 (erewrite bind_ok by reflexivity; cbv beta iota zeta).
  erewrite (bind_ok detect_magic _ _ _ true) by reflexivity. cbn [negb].
  do 3 (erewrite bind_ok by reflexivity; cbv beta iota zeta). apply bind_fault. unfold with_fuel.
  by apply (chunks_loop_stays fuel _ fuel).
Qed.
End stays.
