(* ===== verification/SixClaims.v ===== *)
(** * Properties of 6pack and 6unpack

    The claims, each with an example at which it is applied: a machine on which every allocation succeeds and every file can be
    created, with longs of 32 or 64 bits. *)

From Stdlib Require Import ZArith Lia.
From stdpp Require Import base numbers list strings gmap.
From S2P Require Import Prelude FastLZ FastLZStream SixFile SixPack SixUnpack SixSpec SixArchive SixExtract SixTotal.

Open Scope Z_scope.

(** ** A machine *)

Definition ilp32 : data_model := DataModel 32 (or_introl eq_refl).
Definition lp64 : data_model := DataModel 64 (or_intror eq_refl).

Definition zeros (p n : Z) : list Z := replicate (Z.to_nat n) 0.
Lemma zeros_length p n : 0 <= n -> Z.of_nat (length (zeros p n)) = n.
Proof. intros Hn. unfold zeros. rewrite length_replicate. lia. Qed.
Lemma zeros_bytes p n : bytes (zeros p n).
Proof. apply Forall_replicate. lia. Qed.

Definition demo : host :=
  Host (fun _ => true) (fun _ => true) zeros zeros_length zeros_bytes [0] (zeros_bytes 0 1).

(** A disk with one file, [/a/f]. *)
Definition demo_path : path := [47; 97; 47; 102].
Definition demo_archive : path := [97].
Definition demo_file : list Z := [104; 101; 108; 108; 111].
Definition demo_io (files : gmap path (list Z)) : io := Io files Null Null [].

Lemma demo_memory : memory_for_blocks (HO := demo).
Proof. by intros n Hn. Qed.

Lemma demo_packable : packable (HO := demo) 2 demo_path demo_file.
Proof. split; try done; [unfold bytes; repeat constructor; lia.. | by right | by left]. Qed.

Section claims.
Context {DM : data_model} {HO : host}.

(** ** The archive *)

(** C10 Packing and unpacking give the file back: when [pack_file] finds its input and may create the
    archive, it returns 0 and has written only the archive, and [unpack_file] of the archive, on this disk or any other
    where the name is free, returns 0 and has created only the file, without its directory, with the same bytes. *)
Theorem pack_unpack_round_trip level input output x s :
  packable level input x -> 0 ∉ input -> memory_for_blocks -> can_create output = true ->
  can_create (shown_name input) = true -> files s !! input = Some x -> files s !! output = None ->
  wp (fun _ => pack_file level input output) s (fun r s' => r = 0 /\ exists a,
    files s' = <[output := a]> (files s) /\
    (zlen a < 2147483648 -> forall t archive, files t !! archive = Some a -> files t !! shown_name input = None ->
      wp (fun _ => unpack_file archive) t (fun r t' => r = 0 /\ files t' = <[shown_name input := x]> (files t)))).
Proof.
  intros Hp H0 HM Hc Hcn Hx Ho. pose proof Hp as [H1 H2 H3 H4 _ _ _].
  destruct (shown_name_spec input) as (dir & Ein & _). set (name := shown_name input) in *.
  eapply wp_mono; [by apply pack_file_spec|]. cbn beta. intros r s' (-> & a & log & (cs & Hcs & Ea) & ->).
  split; [done|]. exists a. split; [done|]. intros Ha t archive Hta Htn.
  eapply wp_mono; [apply (unpack_file_prefix (zlen x) archive name x a); try done|].
  - exists cs. split; [done|]. by rewrite app_nil_r.
  - rewrite Ein, zlen_app in H2. assert (0 <= zlen dir) by (unfold zlen; lia). rewrite Ein in H0, H1.
    split; try (done || lia); [by apply Forall_app in H1 as [_ ?] | by intros ?; apply H0, elem_of_app; right].
  - cbn beta. intros r t' (-> & Ht & _). done.
Qed.

(** [pack_file] shows the name and fifty marks, however many blocks the file has. *)
Lemma pack_shows_progress level input output x s :
  packable level input x -> files s !! input = Some x -> files s !! output = None -> can_create output = true -> x <> [] ->
  wp (fun _ => pack_file level input output) s (fun r s' => exists log,
    said s' = said s ++ [Bar (shown (shown_name input))] ++ replicate 50 Hash ++ log).
Proof.
  intros Hp Hx Ho Hc Hne. eapply wp_mono; [by apply pack_file_spec|]. cbn beta. intros r s' (_ & a & log & _ & ->).
  exists log. cbn [said]. destruct (Z.eqb_spec (zlen x) 0) as [E|]; [|done]. destruct Hne. apply nil_length_inv. unfold zlen in E. lia.
Qed.

(** C28 [update_adler32] computes the checksum of RFC 1950, also in pieces: from the checksum of [x] it goes on to that of
    [x ++ y].  It reads only these bytes and nothing overflows in 32 bits, whatever they are. *)
Theorem adler_correct x y rest s :
  bytes x -> bytes y -> zlen y < 2147483648 ->
  wp (fun _ => update_adler32 (adler32 x) (y ++ rest) (zlen y)) s (fun r s' => r = adler32 (x ++ y) /\ s' = s).
Proof.
  intros Hx Hy Hl. eapply wp_mono; [apply (update_adler32_spec _ y rest); [done | | done]|].
  - apply adler_from_reduced. split; cbn; lia.
  - cbn beta. intros r s' [-> ->]. unfold adler32. by rewrite adler_from_app.
Qed.

(** C11 One changed byte in the data of a block is noticed: the blocks before it are in the file, of the block
    nothing (or its bytes as they are, when it was stored), the mismatch is reported and the rest passed over.  The value
    returned is 0 all the same. *)
Theorem damage_detected size archive name x y z h pre b b' post cs a s :
  archive_start size name x (enc_header h ++ (pre ++ b' :: post) ++ cs) a -> unpackable size name (x ++ y ++ z) a ->
  chunk_of y h (pre ++ b :: post) -> 0 < zlen y <= 131072 -> blocks z cs -> bytes (pre ++ b' :: post) ->
  0 <= b < 256 -> b <> b' -> files s !! archive = Some a -> files s !! name = None ->
  wp (fun _ => unpack_file archive) s (fun r s' =>
    r = 0 /\ files s' = <[name := x ++ kept h (pre ++ b' :: post)]> (files s) /\
    mismatch h (adler32 (pre ++ b' :: post)) ∈ said s').
Proof.
  intros Hst Hu Hc Hy Hz Hb Hb0 Hne Ha Hx. eapply (unpack_file_damaged size archive name x y z h (pre ++ b :: post)); try done.
  - by rewrite !zlen_app.
  - apply Forall_app in Hb as [_ Hb]. apply Forall_cons in Hb as [Hb' _]. by apply adler32_one_byte.
Qed.

(** An archive that ends behind some of its blocks is not noticed: 0 is returned and the file is cut short, although the entry
    says how long it is. *)
Lemma truncation_unnoticed size archive name x a s :
  archive_start size name x [] a -> unpackable size name x a -> files s !! archive = Some a -> files s !! name = None ->
  wp (fun _ => unpack_file archive) s (fun r s' => r = 0 /\ files s' = <[name := x]> (files s)).
Proof.
  intros Hst Hu Ha Hx. eapply wp_mono; [by apply (unpack_file_prefix size archive name x a)|].
  cbn beta. intros r s' (-> & Hf & _). done.
Qed.

(** ** Errors *)

(** What [pack_file] does not pack: an archive that exists is left alone; when the input cannot be opened, or is an archive
    itself, the new file stays behind with nothing but the magic. *)
Lemma pack_refuses level input output s :
  (forall old, files s !! output = Some old ->
    wp (fun _ => pack_file level input output) s (fun r s' =>
      r = -1 /\ files s' = files s /\ said s' = said s ++ [Already_exists output])) /\
  (files s !! output = None -> can_create output = true -> input <> output ->
    files s !! input = None ->
    wp (fun _ => pack_file level input output) s (fun r s' =>
      r = -1 /\ files s' = <[output := sixpack_magic]> (files s) /\ said s' = said s ++ [Cannot_open input])) /\
  (forall rest, files s !! output = None -> can_create output = true -> zlen rest < 2147483640 ->
    files s !! input = Some (sixpack_magic ++ rest) ->
    wp (fun _ => pack_file level input output) s (fun r s' =>
      r = -1 /\ files s' = <[output := sixpack_magic]> (files s) /\ said s' = said s ++ [Already_archive input])).
Proof.
  split; [|split].
  - intros old Ho. by eapply pack_file_exists.
  - intros. by apply pack_file_no_input.
  - intros rest Ho Hc Hl Hi. eapply pack_file_archive; try done.
    rewrite zlen_app. change (zlen sixpack_magic) with 8. lia.
Qed.

(** C26 With longs of 64 bits [unpack_file] ends on every archive, valid or not: it returns, or it makes an access that
    is out of bounds. *)
Theorem unpack_terminates archive s :
  long_bits = 64 -> (forall p d, files s !! p = Some d -> zlen d < 4611686018427387904) ->
  halts (fun _ => unpack_file archive) s (fun _ _ => True).
Proof. apply unpack_file_halts. Qed.

(** A compressed block of length 0 before any other makes fastlz.c read from the NULL of a buffer
    that was never allocated. *)
Lemma empty_block_crashes pos l s data q p old :
  u_compressed_buffer l = None -> u_compressed_bufsize l = 0 -> u_decompressed_bufsize l = 0 ->
  s_in s = Reading data q -> s_f s = Writing p old ->
  faults (fun _ => data_block pos (Header 17 1 0 1 0) l) s Bad_pointer.
Proof.
  intros Hb Hn Hd Hin Hf. unfold data_block. apply faults_bind. cbn [h_options Z.eqb Pos.eqb].
  unfold packed_block. cbn [h_size h_extra h_checksum]. rewrite Hn. cbn [Z.ltb Z.compare]. cbv zeta. rewrite Hd. cbn [Z.ltb Z.compare].
  rewrite Hb. apply (faults_after _ _ _ (fun b s' => b = None)).
  { unfold fread_buffer. apply wp_bind. eapply wp_fread; [exact Hin|]. by apply wp_ret. }
  intros b s1 ->. apply (faults_after _ _ _ (fun c s' => c = 1)).
  { apply (wp_adler_exact [] 0); [constructor | done..]. }
  intros c s2 ->. cbn [Z.eqb Pos.eqb negb]. apply faults_bind. unfold decompress. apply faults_bind.
  by exists 0%nat.
Qed.
End claims.

(** C27 With longs of 32 bits there are archives on which [unpack_file] never ends: the size of the chunk leads from its end back to
    its start. *)
Theorem unpack_hangs `{DM : data_model} `{HO : host} archive fuel s :
  long_bits = 32 -> files s !! archive = Some loop_archive -> unpack_file archive fuel s = Fault Out_of_fuel.
Proof. destruct DM as [w Hw]. cbn. intros ->. apply unpack_file_stays. Qed.

(** ** The command line *)

(** What an argument says about the level. *)
Definition level_option (a : path) : option Z :=
  if is_option a [opt_1; opt_fastest] then Some 1 else if is_option a [opt_2] then Some 2 else None.
Definition operand (a : path) : Prop := hd 0 a <> 45.
Instance operand_decision a : Decision (operand a).
Proof. unfold operand. apply _. Defined.

Section command_line.
Context {DM : data_model} {HO : host}.

(** An operand is none of the options, a level option is none of the others. *)
Lemma operand_no_option a texts : operand a -> Forall (fun t => hd 0 t = 45) texts -> is_option a texts = false.
Proof.
  intros Ha Ht. apply bool_decide_false. intros Hin. rewrite Forall_forall in Ht. by apply Ha, Ht.
Qed.

Lemma level_option_cases a lv : level_option a = Some lv -> ~ operand a /\
  forall argv level bench i o, args_loop (Some a :: argv) level bench i o = args_loop argv lv bench i o.
Proof.
  unfold level_option, is_option. destruct (bool_decide_reflect (a ∈ [opt_1; opt_fastest])) as [H1|_].
  - intros [= <-]. set_unfold in H1. destruct H1 as [->|[->|[]]]; (split; [by intros Hn; apply Hn | reflexivity]).
  - destruct (bool_decide_reflect (a ∈ [opt_2])) as [H2|_]; [|done]. intros [= <-]. set_unfold in H2. destruct H2 as [->|[]]; (split; [by intros Hn; apply Hn | reflexivity]).
Qed.

Lemma args_loop_operand a argv level bench i o : operand a ->
  args_loop (Some a :: argv) level bench i o =
  match i, o with
  | None, _ => args_loop argv level bench (Some a) o
  | Some _, None => args_loop argv level bench i (Some a)
  | Some _, Some _ => say (Unknown_option a);; mret (-1)
  end.
Proof.
  intros Ha. cbn [args_loop]. rewrite !(operand_no_option a) by (done || (repeat constructor)).
  destruct (Z.eqb_spec (hd 0 a) 45); [done|]. by destruct i, o.
Qed.

Definition given (o : option path) : list path := match o with Some a => [a] | None => [] end.

Lemma args_loop_packs args level i o input output :
  Forall (fun a => is_Some (level_option a) \/ operand a) args -> (i = None -> o = None) ->
  given i ++ given o ++ filter operand args = [input; output] ->
  args_loop (map Some args ++ [None]) level false i o =
  pack_file (foldl (fun lv a => default lv (level_option a)) level args) input output.
Proof.
  revert level i o. induction args as [|a args IH]; intros level i o Ha Hio Hf.
  - destruct i as [i|]; [|by rewrite (Hio eq_refl) in Hf]. destruct o as [o|]; [|done]. by injection Hf as -> ->.
  - apply Forall_cons in Ha as [Ha Has]. cbn [map app foldl]. destruct Ha as [[lv Hlv]|Ha].
    + destruct (level_option_cases a lv Hlv) as [Hn ->]. rewrite Hlv. apply IH; [done | done |].
      by rewrite filter_cons_False in Hf.
    + rewrite args_loop_operand, filter_cons_True in * by done.
      assert (level_option a = None) as -> by (unfold level_option; by rewrite !(operand_no_option a) by (done || (repeat constructor))).
      destruct i as [i|]; [destruct o as [o|]|].
      * destruct (filter operand args); discriminate Hf.
      * by apply IH.
      * rewrite (Hio eq_refl) in *. by apply IH.
Qed.

(** The command lines.  6pack with two operands and any options for the level among them packs the first operand into the
    second, at the level of the last option, or 2.  6unpack unpacks its first argument when none asks for help or
    the version. *)
Lemma command_lines name args :
  (forall input output,
    Forall (fun a => is_Some (level_option a) \/ operand a) args -> filter operand args = [input; output] ->
    SixPack.main (name :: args) = pack_file (foldl (fun lv a => default lv (level_option a)) 2 args) input output) /\
  (forall archive rest, args = archive :: rest ->
    Forall (fun a => a ∉ [opt_h; opt_help; opt_v; opt_version]) args -> SixUnpack.main (name :: args) = unpack_file archive).
Proof.
  split.
  - intros input output Ha Hf. unfold SixPack.main. destruct args as [|a args]; [done|]. cbn [length Nat.eqb map app drop].
    by apply (args_loop_packs (a :: args)).
  - intros archive rest -> Ha. unfold SixUnpack.main. cbn [length Nat.eqb Nat.leb].
    assert (forall texts, texts ⊆ [opt_h; opt_help; opt_v; opt_version] ->
      existsb (fun a => match a with Some a => is_option a texts | None => false end)
        (drop 1 (map Some (name :: archive :: rest) ++ [None])) = false) as Hno.
    { intros texts Ht. apply not_true_iff_false. intros (o & Ho & Hi)%existsb_exists. cbn [map app drop] in Ho.
      destruct o as [o|]; [|done]. unfold is_option in Hi. apply bool_decide_eq_true in Hi.
      rewrite Forall_forall in Ha. apply (Ha o); [|by apply Ht].
      apply list_elem_of_In. change (In (Some o) (map Some (archive :: rest) ++ [None])) in Ho.
      apply in_app_or in Ho as [(c & [= <-] & Hc)%in_map_iff | [? | []]]; [done | done]. }
    rewrite !Hno by set_solver. done.
Qed.

(** The option -mem is taken everywhere, but only Windows has the benchmark: without an output file fopen gets NULL. *)
Lemma mem_crashes name file fuel s : operand file -> SixPack.main [name; opt_mem; file] fuel s = Fault Bad_pointer.
Proof.
  intros Hf. unfold SixPack.main. cbn [length Nat.eqb map app drop].
  change (args_loop [Some file; None] 2 true None None fuel s = Fault Bad_pointer). by rewrite args_loop_operand.
Qed.
End command_line.

(** ** Examples *)

#[local] Existing Instance lp64.
#[local] Existing Instance demo.

Lemma pack_unpack_round_trip_witness :
  let s := demo_io {[ demo_path := demo_file ]} in
  wp (fun _ => pack_file 2 demo_path demo_archive) s (fun r s' => r = 0 /\ exists a,
    files s' = <[demo_archive := a]> (files s) /\
    (zlen a < 2147483648 -> forall t archive, files t !! archive = Some a -> files t !! shown_name demo_path = None ->
      wp (fun _ => unpack_file archive) t (fun r t' => r = 0 /\ files t' = <[shown_name demo_path := demo_file]> (files t)))).
Proof.
  cbv zeta. apply (pack_unpack_round_trip 2 demo_path demo_archive demo_file).
  - exact demo_packable.
  - unfold demo_path. set_unfold. lia.
  - exact demo_memory.
  - reflexivity.
  - reflexivity.
  - reflexivity.
  - reflexivity.
Defined.

Lemma adler_correct_witness :
  wp (fun _ => update_adler32 (adler32 [104; 101]) ([108; 108; 111] ++ [7]) (zlen [108; 108; 111])) (demo_io ∅)
    (fun r s' => r = adler32 ([104; 101] ++ [108; 108; 111]) /\ s' = demo_io ∅).
Proof. apply (adler_correct [104; 101] [108; 108; 111] [7]); [unfold bytes; repeat constructor; lia.. | reflexivity]. Defined.

(** The archive of [demo_file] under the name [f], whole, cut off behind the entry, and with its first byte changed. *)
Definition demo_head : list Z := sixpack_magic ++ enc_header (entry_header 5 [102]) ++ entry_body 5 [102].
Definition demo_header : header := Header 17 0 5 (adler32 demo_file) 5.
Definition demo_damaged : list Z := demo_head ++ enc_header demo_header ++ 105 :: drop 1 demo_file.

Lemma demo_unpackable x a : zlen x <= 5 -> zlen a < 2147483648 -> unpackable 5 [102] x a.
Proof.
  intros Hx Ha. split; try (done || lia); [repeat constructor; lia | set_unfold; lia].
Qed.

Lemma damage_detected_witness :
  wp (fun _ => unpack_file demo_archive) (demo_io {[ demo_archive := demo_damaged ]}) (fun r s' =>
    r = 0 /\ files s' = <[ [102] := [] ++ kept demo_header ([] ++ 105 :: drop 1 demo_file)]>
      (files (demo_io {[ demo_archive := demo_damaged ]})) /\
    mismatch demo_header (adler32 ([] ++ 105 :: drop 1 demo_file)) ∈ said s').
Proof.
  apply (damage_detected 5 demo_archive [102] [] demo_file [] demo_header [] 104 105 (drop 1 demo_file) [] demo_damaged
    (demo_io {[ demo_archive := demo_damaged ]})).
  - exists []. split; [constructor | reflexivity].
  - apply demo_unpackable; [by apply Z.leb_le | reflexivity].
  - exact (Stored demo_file).
  - split; [reflexivity | by apply Z.leb_le].
  - constructor.
  - unfold bytes. repeat constructor; lia.
  - lia.
  - lia.
  - reflexivity.
  - reflexivity.
Defined.

Lemma truncation_unnoticed_witness :
  wp (fun _ => unpack_file demo_archive) (demo_io {[ demo_archive := demo_head ]}) (fun r s' =>
    r = 0 /\ files s' = <[ [102] := [] ]> (files (demo_io {[ demo_archive := demo_head ]}))).
Proof.
  apply (truncation_unnoticed 5 demo_archive [102] [] demo_head (demo_io {[ demo_archive := demo_head ]})).
  - exists []. split; [constructor | reflexivity].
  - apply demo_unpackable; [by apply Z.leb_le | reflexivity].
  - reflexivity.
  - reflexivity.
Defined.

Lemma pack_refuses_witness :
  wp (fun _ => pack_file 2 demo_path demo_archive) (demo_io ∅) (fun r s' =>
    r = -1 /\ files s' = <[demo_archive := sixpack_magic]> ∅ /\ said s' = [] ++ [Cannot_open demo_path]).
Proof.
  destruct (pack_refuses 2 demo_path demo_archive (demo_io ∅)) as (_ & H & _).
  apply H; [reflexivity | reflexivity | discriminate | reflexivity].
Defined.

Lemma unpack_terminates_witness :
  halts (fun _ => unpack_file demo_archive) (demo_io {[ demo_archive := loop_archive ]}) (fun _ _ => True).
Proof.
  apply (unpack_terminates demo_archive); [reflexivity|].
  intros p d Hp. cbn in Hp. apply lookup_singleton_Some in Hp as [_ <-]. reflexivity.
Defined.

Lemma unpack_hangs_witness :
  unpack_file (DM := ilp32) demo_archive 9%nat (demo_io {[ demo_archive := loop_archive ]}) = Fault Out_of_fuel.
Proof. apply (unpack_hangs (DM := ilp32) demo_archive 9%nat); reflexivity. Defined.

Lemma command_lines_witness :
  SixPack.main [[54]; opt_1; demo_path; opt_2; opt_fastest; demo_archive] = pack_file 1 demo_path demo_archive.
Proof.
  apply (proj1 (command_lines [54] [opt_1; demo_path; opt_2; opt_fastest; demo_archive]) demo_path demo_archive).
  - repeat (apply List.Forall_cons; [first [left; eexists; reflexivity | right; discriminate]|]). apply List.Forall_nil.
  - reflexivity.
Defined.
