(* ===== verification/Blake2.v ===== *)
(** * BLAKE2b and BLAKE2s (src/math/blake2)

    blake2b-ref.c and blake2s-ref.c are one program at two word sizes, with
    different tables; here it is written once over a [Variant], and the two
    files are its two instances.  The specification is the definition of the
    hash of a whole message; the theorems show that the buffered, incremental
    code computes it however the message is cut into updates. *)

From Stdlib Require Import ZArith Lia.
From stdpp Require Import base numbers list.
From S2P Require Import Prelude.

Open Scope Z_scope.

(** ** Words in memory (blake2-impl.h) *)

(** [w = p[0] | p[1] << 8 | ...], [n] bytes. *)
Fixpoint load (n : nat) (p : list Z) : Z :=
  match n, p with
  | S n, b :: p => Z.lor b (Z.shiftl (load n p) 8)
  | _, _ => 0
  end.
(** [*p++ = ( uint8_t )w; w >>= 8; ...], [n] bytes. *)
Fixpoint store (n : nat) (w : Z) : list Z :=
  match n with
  | S n => w mod 256 :: store n (Z.shiftr w 8)
  | O => []
  end.
Definition load32 := load 4.
Definition load48 := load 6.
Definition load64 := load 8.
Definition store32 := store 4.
Definition store48 := store 6.
Definition store64 := store 8.

(** [w]-bit rotations. *)
Definition rotl (bits w c : Z) : Z := Z.lor (Z.shiftl w c mod 2 ^ bits) (Z.shiftr w (bits - c)).
Definition rotr (bits w c : Z) : Z := Z.lor (Z.shiftr w c) (Z.shiftl w (bits - c) mod 2 ^ bits).
Definition rotl32 := rotl 32.
Definition rotl64 := rotl 64.
Definition rotr32 := rotr 32.
Definition rotr64 := rotr 64.

(** [memcpy( dst + off, src, n )]. *)
Definition memcpy (dst : list Z) (off : nat) (src : list Z) (n : nat) : list Z :=
  take off dst ++ take n src ++ drop (off + n) dst.

(** ** The variants *)

(** blake2b_param / blake2s_param. *)
Record param : Type := Param {
  digest_length : Z; key_length : Z; fanout : Z; depth : Z;
  leaf_length : Z; node_offset : Z; node_depth : Z; inner_length : Z;
  salt : list Z; personal : list Z
}.

Class Variant : Type := {
  word_bits : Z;                  (** 64 or 32 *)
  word_bytes : nat;               (** sizeof( S->h[i] ) *)
  IV : list Z;
  sigma : list (list nat);
  rounds : nat;
  rot1 : Z; rot2 : Z; rot3 : Z; rot4 : Z;
  (** the packed bytes of the parameter block *)
  param_bytes : param -> list Z
}.

Section code.
Context `{V : Variant}.

Definition BLOCKBYTES : nat := 16 * word_bytes.
Definition OUTBYTES : nat := 8 * word_bytes.
Definition KEYBYTES : nat := 8 * word_bytes.

(** blake2b_state / blake2s_state; [t] and [f] are pairs. *)
Record state : Type := State {
  h : list Z; t : Z * Z; f : Z * Z; buf : list Z; buflen : nat; last_node : Z
}.

Definition with_h (x : list Z) (S : state) : state := State x (t S) (f S) (buf S) (buflen S) (last_node S).
Definition with_t (x : Z * Z) (S : state) : state := State (h S) x (f S) (buf S) (buflen S) (last_node S).
Definition with_f (x : Z * Z) (S : state) : state := State (h S) (t S) x (buf S) (buflen S) (last_node S).
Definition with_buf (x : list Z) (n : nat) (S : state) : state := State (h S) (t S) (f S) x n (last_node S).
Definition with_last_node (x : Z) (S : state) : state := State (h S) (t S) (f S) (buf S) (buflen S) x.

Definition wadd (a b : Z) : Z := (a + b) mod 2 ^ word_bits.
(** [-1] in a word. *)
Definition ones : Z := 2 ^ word_bits - 1.

Definition set_lastnode (S : state) : state := with_f (fst (f S), ones) S.
Definition clear_lastnode (S : state) : state := with_f (fst (f S), 0) S.
Definition set_lastblock (S : state) : state :=
  let S := if last_node S =? 0 then S else set_lastnode S in with_f (ones, snd (f S)) S.
Definition clear_lastblock (S : state) : state :=
  let S := if last_node S =? 0 then S else clear_lastnode S in with_f (0, snd (f S)) S.
Definition increment_counter (S : state) (inc : Z) : state :=
  let t0 := wadd (fst (t S)) inc in
  with_t (t0, wadd (snd (t S)) (if t0 <? inc then 1 else 0)) S.

Definition init0 : state :=
  State IV (0, 0) (0, 0) (replicate (2 * BLOCKBYTES) 0) 0 0.

(** The [i]th word at [p]. *)
Definition word (p : list Z) (i : nat) : Z := load word_bytes (drop (i * word_bytes) p).

(** "IV XOR ParamBlock". *)
Definition init_param (P : param) : state :=
  with_h (zip_with Z.lxor (h init0) (map (word (param_bytes P)) (seq 0 8))) init0.

Definition sequential_param (outlen keylen : Z) : param :=
  Param outlen keylen 1 1 0 0 0 0 (replicate (2 * word_bytes) 0) (replicate (2 * word_bytes) 0).

(** *** Compression *)

Definition G (m : list Z) (r i a b c d : nat) (v : list Z) : list Z :=
  let s := sigma !!! r in
  let va := v !!! a in let vb := v !!! b in let vc := v !!! c in let vd := v !!! d in
  let va := wadd (wadd va vb) (m !!! (s !!! (2 * i + 0)%nat)) in
  let vd := rotr word_bits (Z.lxor vd va) rot1 in
  let vc := wadd vc vd in
  let vb := rotr word_bits (Z.lxor vb vc) rot2 in
  let va := wadd (wadd va vb) (m !!! (s !!! (2 * i + 1)%nat)) in
  let vd := rotr word_bits (Z.lxor vd va) rot3 in
  let vc := wadd vc vd in
  let vb := rotr word_bits (Z.lxor vb vc) rot4 in
  <[d := vd]> (<[c := vc]> (<[b := vb]> (<[a := va]> v))).

Definition ROUND (m : list Z) (r : nat) (v : list Z) : list Z :=
  let v := G m r 0 0 4 8 12 v in
  let v := G m r 1 1 5 9 13 v in
  let v := G m r 2 2 6 10 14 v in
  let v := G m r 3 3 7 11 15 v in
  let v := G m r 4 0 5 10 15 v in
  let v := G m r 5 1 6 11 12 v in
  let v := G m r 6 2 7 8 13 v in
  G m r 7 3 4 9 14 v.

Definition compress (S : state) (block : list Z) : state :=
  let m := map (word block) (seq 0 16) in
  let v := h S ++ [IV !!! 0%nat; IV !!! 1%nat; IV !!! 2%nat; IV !!! 3%nat;
    Z.lxor (fst (t S)) (IV !!! 4%nat); Z.lxor (snd (t S)) (IV !!! 5%nat);
    Z.lxor (fst (f S)) (IV !!! 6%nat); Z.lxor (snd (f S)) (IV !!! 7%nat)] in
  let v := foldl (fun v r => ROUND m r v) v (seq 0 rounds) in
  with_h (map (fun i => Z.lxor (Z.lxor (h S !!! i) (v !!! i)) (v !!! (i + 8)%nat)) (seq 0 8)) S.

(** *** Absorbing and finishing *)

(** The loop of [update]; [input] is what is left of [in]. *)
Fixpoint update_loop (fuel : nat) (S : state) (input : list Z) : option state :=
  match fuel with
  | O => None
  | Datatypes.S fuel =>
      let inlen := length input in
      if (0 <? inlen)%nat then
        let left := buflen S in
        let fill := (2 * BLOCKBYTES - left)%nat in
        if (fill <? inlen)%nat then
          let S := with_buf (memcpy (buf S) left input fill) (buflen S + fill) S in
          let S := increment_counter S (Z.of_nat BLOCKBYTES) in
          let S := compress S (buf S) in
          let S := with_buf (memcpy (buf S) 0 (drop BLOCKBYTES (buf S)) BLOCKBYTES) (buflen S - BLOCKBYTES) S in
          update_loop fuel S (drop fill input)
        else
          let S := with_buf (memcpy (buf S) left input inlen) (buflen S + inlen) S in
          update_loop fuel S (drop inlen input)
      else Some S
  end.
(** Two turns per byte are more than enough: see [update_spec]. *)
Definition update (S : state) (input : list Z) : option state :=
  update_loop (2 * length input + 2) S input.

(** [if( S->buflen > BLOCKBYTES ) {...}] of [final]. *)
Definition final_full (S : state) : state :=
  if (BLOCKBYTES <? buflen S)%nat then
    let S := increment_counter S (Z.of_nat BLOCKBYTES) in
    let S := compress S (buf S) in
    let n := (buflen S - BLOCKBYTES)%nat in
    with_buf (memcpy (buf S) 0 (drop BLOCKBYTES (buf S)) n) n S
  else S.

(** The counter, the flags, the padding and the last compression. *)
Definition final_last (S : state) : state :=
  let S := increment_counter S (Z.of_nat (buflen S) mod 2 ^ word_bits) in
  let S := set_lastblock S in
  let S := with_buf (memcpy (buf S) (buflen S) (replicate (2 * BLOCKBYTES - buflen S) 0)
    (2 * BLOCKBYTES - buflen S)) (buflen S) S in
  compress S (buf S).

(** [None] is the return value [-1]; [out] is the buffer given, NULL or not. *)
Definition final (S : state) (out : bool) (outlen : Z) : option (list Z) :=
  if negb out || (outlen =? 0) || (Z.of_nat OUTBYTES <? outlen) then None else
  let S := final_last (final_full S) in
  Some (take (Z.to_nat outlen) (concat (map (store word_bytes) (h S)))).

Definition init (outlen : Z) : option state :=
  if (outlen =? 0) || (Z.of_nat OUTBYTES <? outlen) then None else
  Some (init_param (sequential_param outlen 0)).

(** The first [keylen] bytes of [key], padded to a block. *)
Definition key_block (key : list Z) (keylen : Z) : list Z :=
  memcpy (replicate BLOCKBYTES 0) 0 key (Z.to_nat keylen).

Definition init_key (outlen : Z) (key : option (list Z)) (keylen : Z) : option state :=
  if (outlen =? 0) || (Z.of_nat OUTBYTES <? outlen) then None else
  match key with
  | None => None
  | Some key =>
      if (keylen =? 0) || (Z.of_nat KEYBYTES <? keylen) then None else
      update (init_param (sequential_param outlen keylen)) (key_block key keylen)
  end.

(** blake2b() / blake2s(): a pointer is the bytes that can be read from it, or NULL. As the interface asks, [input] has at
    least [inlen] bytes and [key] at least [keylen]: the code cannot see where they end, and what it
    would read behind them is not modelled. *)
Definition blake2 (out : bool) (input key : option (list Z)) (outlen inlen keylen : Z) : option (list Z) :=
  if (match input with None => true | _ => false end) && (0 <? inlen) then None else
  if negb out then None else
  if (match key with None => true | _ => false end) && (0 <? keylen) then None else
  if (outlen =? 0) || (Z.of_nat OUTBYTES <? outlen) then None else
  if Z.of_nat KEYBYTES <? keylen then None else
  S ← (if 0 <? keylen then init_key outlen key keylen else init outlen);
  S ← update S (take (Z.to_nat inlen) (default [] input));
  final S out outlen.
End code.

(** *** blake2b-ref.c *)

Definition blake2b_IV : list Z :=
  [0x6a09e667f3bcc908; 0xbb67ae8584caa73b;
   0x3c6ef372fe94f82b; 0xa54ff53a5f1d36f1;
   0x510e527fade682d1; 0x9b05688c2b3e6c1f;
   0x1f83d9abfb41bd6b; 0x5be0cd19137e2179].

Definition blake2b_sigma : list (list nat) := Eval cbv in
  [[ 0;  1;  2;  3;  4;  5;  6;  7;  8;  9; 10; 11; 12; 13; 14; 15];
   [14; 10;  4;  8;  9; 15; 13;  6;  1; 12;  0;  2; 11;  7;  5;  3];
   [11;  8; 12;  0;  5;  2; 15; 13; 10; 14;  3;  6;  7;  1;  9;  4];
   [ 7;  9;  3;  1; 13; 12; 11; 14;  2;  6;  5; 10;  4;  0; 15;  8];
   [ 9;  0;  5;  7;  2;  4; 10; 15; 14;  1; 11; 12;  6;  8;  3; 13];
   [ 2; 12;  6; 10;  0; 11;  8;  3;  4; 13;  7;  5; 15; 14;  1;  9];
   [12;  5;  1; 15; 14; 13;  4; 10;  0;  7;  6;  3;  9;  2;  8; 11];
   [13; 11;  7; 14; 12;  1;  3;  9;  5;  0; 15;  4;  8;  6;  2; 10];
   [ 6; 15; 14;  9; 11;  3;  0;  8; 12;  2; 13;  7;  1;  4; 10;  5];
   [10;  2;  8;  4;  7;  6;  1;  5; 15; 11;  9; 14;  3; 12; 13;  0];
   [ 0;  1;  2;  3;  4;  5;  6;  7;  8;  9; 10; 11; 12; 13; 14; 15];
   [14; 10;  4;  8;  9; 15; 13;  6;  1; 12;  0;  2; 11;  7;  5;  3]]%nat.

Definition blake2b_param_bytes (P : param) : list Z :=
  [digest_length P; key_length P; fanout P; depth P] ++ store32 (leaf_length P) ++
  store64 (node_offset P) ++ [node_depth P; inner_length P] ++ replicate 14 0 ++ salt P ++ personal P.

#[export] Instance blake2b_variant : Variant := {|
  word_bits := 64; word_bytes := 8; IV := blake2b_IV; sigma := blake2b_sigma; rounds := 12;
  rot1 := 32; rot2 := 24; rot3 := 16; rot4 := 63; param_bytes := blake2b_param_bytes
|}.

(** *** blake2s-ref.c *)

Definition blake2s_IV : list Z :=
  [0x6A09E667; 0xBB67AE85; 0x3C6EF372; 0xA54FF53A;
   0x510E527F; 0x9B05688C; 0x1F83D9AB; 0x5BE0CD19].

Definition blake2s_sigma : list (list nat) := Eval cbv in
  [[ 0;  1;  2;  3;  4;  5;  6;  7;  8;  9; 10; 11; 12; 13; 14; 15];
   [14; 10;  4;  8;  9; 15; 13;  6;  1; 12;  0;  2; 11;  7;  5;  3];
   [11;  8; 12;  0;  5;  2; 15; 13; 10; 14;  3;  6;  7;  1;  9;  4];
   [ 7;  9;  3;  1; 13; 12; 11; 14;  2;  6;  5; 10;  4;  0; 15;  8];
   [ 9;  0;  5;  7;  2;  4; 10; 15; 14;  1; 11; 12;  6;  8;  3; 13];
   [ 2; 12;  6; 10;  0; 11;  8;  3;  4; 13;  7;  5; 15; 14;  1;  9];
   [12;  5;  1; 15; 14; 13;  4; 10;  0;  7;  6;  3;  9;  2;  8; 11];
   [13; 11;  7; 14; 12;  1;  3;  9;  5;  0; 15;  4;  8;  6;  2; 10];
   [ 6; 15; 14;  9; 11;  3;  0;  8; 12;  2; 13;  7;  1;  4; 10;  5];
   [10;  2;  8;  4;  7;  6;  1;  5; 15; 11;  9; 14;  3; 12; 13;  0]]%nat.

Definition blake2s_param_bytes (P : param) : list Z :=
  [digest_length P; key_length P; fanout P; depth P] ++ store32 (leaf_length P) ++
  store48 (node_offset P) ++ [node_depth P; inner_length P] ++ salt P ++ personal P.

#[export] Instance blake2s_variant : Variant := {|
  word_bits := 32; word_bytes := 4; IV := blake2s_IV; sigma := blake2s_sigma; rounds := 10;
  rot1 := 16; rot2 := 12; rot3 := 8; rot4 := 7; param_bytes := blake2s_param_bytes
|}.

Definition blake2b := blake2 (V := blake2b_variant).
Definition blake2s := blake2 (V := blake2s_variant).

(** *** The functions of blake2s-ref.c

    They are those of blake2b-ref.c with the words, tables and sizes of BLAKE2s. *)
Definition blake2s_set_lastnode := set_lastnode (V := blake2s_variant).
Definition blake2s_clear_lastnode := clear_lastnode.
Definition blake2s_set_lastblock := set_lastblock (V := blake2s_variant).
Definition blake2s_clear_lastblock := clear_lastblock.
Definition blake2s_increment_counter := increment_counter (V := blake2s_variant).
Definition blake2s_init0 := init0 (V := blake2s_variant).
Definition blake2s_init_param := init_param (V := blake2s_variant).
Definition blake2s_init := init (V := blake2s_variant).
Definition blake2s_init_key := init_key (V := blake2s_variant).
Definition blake2s_compress := compress (V := blake2s_variant).
Definition blake2s_update := update (V := blake2s_variant).
Definition blake2s_final := final (V := blake2s_variant).

(** ** Words *)

Lemma load_ext n p q : take n p = take n q -> load n p = load n q.
Proof.
  revert p q. induction n as [|n IH]; intros p q E; [done|].
  destruct p as [|a p], q as [|b q]; cbn in E; try done. injection E as -> E. cbn [load].
  by rewrite (IH _ _ E).
Qed.

Lemma lor_shift_byte b x : 0 <= b < 256 -> Z.lor b (Z.shiftl x 8) = b + 256 * x.
Proof.
  intros Hb. rewrite <- (Z.add_0_r (Z.lor _ _)).
  assert (Z.land b (Z.shiftl x 8) = 0) as E.
  { apply Z.bits_inj'. intros m Hm. rewrite Z.land_spec, Z.shiftl_spec, Z.bits_0 by lia.
    destruct (Z.ltb_spec m 8).
    - rewrite (Z.testbit_neg_r x) by lia. apply andb_false_r.
    - replace b with (b mod 2 ^ 8) by (apply Z.mod_small; lia). by rewrite Z.mod_pow2_bits_high by lia. }
  rewrite <- E, Z.add_lor_land, Z.shiftl_mul_pow2 by lia. lia.
Qed.

(** Storing and loading are inverse, on words and on bytes. *)
Lemma load_store n w : load n (store n w) = w mod 256 ^ Z.of_nat n.
Proof.
  revert w. induction n as [|n IH]; intros w; cbn [load store]; [by rewrite Z.mod_1_r|].
  rewrite IH, lor_shift_byte by (apply Z.mod_pos_bound; lia). rewrite Z.shiftr_div_pow2 by lia.
  change (2 ^ 8) with 256. rewrite Nat2Z.inj_succ, Z.pow_succ_r by lia.
  by rewrite Z.rem_mul_r by lia.
Qed.

Lemma store_length n w : length (store n w) = n.
Proof. revert w. induction n as [|n IH]; intros w; cbn; [done | by rewrite IH]. Qed.

Lemma store_load n p : length p = n -> Forall (fun b => 0 <= b < 256) p -> store n (load n p) = p.
Proof.
  intros <-. induction p as [|b p IH]; intros Hp; cbn [length load store]; [done|].
  inversion Hp as [|? ? Hb Hp']; subst. rewrite lor_shift_byte by done. f_equal.
  - rewrite (Z.mul_comm 256), Z.mod_add by lia. by apply Z.mod_small.
  - rewrite Z.shiftr_div_pow2 by lia. change (2 ^ 8) with 256.
    rewrite (Z.mul_comm 256), Z.div_add, (Z.div_small b) by lia. by apply IH.
Qed.

(** Rotations undo each other. *)
Lemma rotl_rotr bits w c : 0 <= c <= bits -> 0 <= w < 2 ^ bits -> rotl bits (rotr bits w c) c = w.
Proof.
  intros Hc Hw. apply Z.bits_inj'. intros n Hn. unfold rotl, rotr.
  assert (forall m, bits <= m -> Z.testbit w m = false) as Hhi.
  { intros m Hm. rewrite <- (Z.mod_small w (2 ^ bits)) by done. apply Z.mod_pow2_bits_high. lia. }
  rewrite Z.lor_spec, Z.shiftr_spec, Z.lor_spec, Z.shiftr_spec by lia.
  destruct (Z.ltb_spec n bits).
  - rewrite Z.mod_pow2_bits_low by lia. rewrite Z.shiftl_spec by lia.
    rewrite (Hhi (n + (bits - c) + c)) by lia. cbn [orb].
    destruct (Z.ltb_spec n c).
    + rewrite (Z.testbit_neg_r _ (n - c)) by lia. cbn [orb].
      rewrite Z.mod_pow2_bits_low, Z.shiftl_spec by lia. f_equal. lia.
    + rewrite Z.lor_spec, Z.shiftr_spec by lia. replace (n - c + c) with n by lia.
      rewrite (Z.mod_pow2_bits_high _ _ (n + (bits - c))) by lia.
      rewrite Z.mod_pow2_bits_low, Z.shiftl_spec by lia.
      rewrite (Z.testbit_neg_r w (n - c - (bits - c))) by lia. by rewrite !orb_false_r.
  - rewrite Z.mod_pow2_bits_high by lia. rewrite !Hhi by lia. cbn [orb].
    apply Z.mod_pow2_bits_high. lia.
Qed.

(** ** The hash of a whole message *)

Class VariantOk (V : Variant) : Prop := {
  bits_bytes : word_bits = 8 * Z.of_nat word_bytes;
  bytes_range : (0 < word_bytes <= 8)%nat;
  IV_length : length IV = 8%nat
}.
#[export] Instance blake2b_ok : VariantOk blake2b_variant.
Proof. split; [done | cbn; lia | done]. Qed.
#[export] Instance blake2s_ok : VariantOk blake2s_variant.
Proof. split; [done | cbn; lia | done]. Qed.

Section spec.
Context {V : Variant} {VO : VariantOk V}.

(** The number of bytes hashed, as the two words of the counter. *)
Definition counter (n : Z) : Z * Z := (n mod 2 ^ word_bits, (n / 2 ^ word_bits) mod 2 ^ word_bits).

(** The compression function of the standard: chaining value, block, counter, flags. *)
Definition F (x : list Z) (block : list Z) (n : Z) (fl : Z * Z) : list Z :=
  h (compress (State x (counter n) fl [] 0 0) block).

Definition block_of (D : list Z) (k : nat) : list Z := take BLOCKBYTES (drop (k * BLOCKBYTES) D).

(** The chaining value after the first [k] blocks of [D], none of them the last. *)
Fixpoint absorbed (x : list Z) (D : list Z) (k : nat) : list Z :=
  match k with
  | O => x
  | S k => F (absorbed x D k) (block_of D k) (Z.of_nat (S k * BLOCKBYTES)) (0, 0)
  end.

Definition pad (b : list Z) : list Z := b ++ replicate (BLOCKBYTES - length b) 0.

(** The blocks before the last; the last is never empty unless it is the only one. *)
Definition full_blocks (D : list Z) : nat := (length D - 1) / BLOCKBYTES.

Definition hash_words (x : list Z) (last : Z) (D : list Z) : list Z :=
  let k := full_blocks D in
  F (absorbed x D k) (pad (drop (k * BLOCKBYTES) D)) (Z.of_nat (length D))
    (ones, if last =? 0 then 0 else ones).

(** The [outlen]-byte hash of [D] from the parameters [P]. *)
Definition hash (P : param) (last outlen : Z) (D : list Z) : list Z :=
  take (Z.to_nat outlen) (concat (map (store word_bytes) (hash_words (h (init_param P)) last D))).

(** ** The buffer *)

Lemma block_pos : (0 < BLOCKBYTES)%nat.
Proof. pose proof bytes_range. unfold BLOCKBYTES. lia. Qed.

Lemma block_small : Z.of_nat (2 * BLOCKBYTES) < 2 ^ word_bits.
Proof.
  rewrite bits_bytes. unfold BLOCKBYTES. pose proof bytes_range.
  assert (forall n, (0 < n <= 8)%nat -> Z.of_nat (2 * (16 * n)) < 2 ^ (8 * Z.of_nat n)) as Hn; [|by apply Hn].
  intros n Hn. do 9 (destruct n as [|n]; [cbn; lia|]). lia.
Qed.

Lemma increment_spec S n inc :
  t S = counter n -> 0 <= n -> 0 <= inc < 2 ^ word_bits ->
  increment_counter S inc = with_t (counter (n + inc)) S.
Proof.
  intros Ht Hn Hi. unfold increment_counter, wadd. rewrite Ht. unfold counter. cbn [fst snd].
  set (M := 2 ^ word_bits) in *. f_equal.
  pose proof (Z.div_mod n M ltac:(lia)) as En. pose proof (Z.mod_pos_bound n M ltac:(lia)).
  set (q := n / M) in *. set (r := n mod M) in *.
  assert (forall c s, n + inc = M * (q + c) + s -> 0 <= s < M ->
    (n + inc) mod M = s /\ (n + inc) / M = q + c) as Hdiv.
  { intros c s E Hs. split; [symmetry; by apply (Z.mod_unique_pos _ _ (q + c)) |
      symmetry; by apply (Z.div_unique_pos _ _ _ s)]. }
  assert ((r + inc) mod M = (n + inc) mod M) as Er.
  { replace (n + inc) with (r + inc + q * M) by lia. by rewrite Z.mod_add by lia. }
  rewrite Er. destruct (Z.ltb_spec (r + inc) M).
  - destruct (Hdiv 0 (r + inc)) as [-> ->]; [lia | lia |].
    destruct (Z.ltb_spec (r + inc) inc); [lia|]. f_equal. rewrite !Z.add_0_r. by rewrite Z.mod_mod by lia.
  - destruct (Hdiv 1 (r + inc - M)) as [-> ->]; [lia | lia |].
    destruct (Z.ltb_spec (r + inc - M) inc); [|lia]. f_equal. by rewrite Z.add_mod_idemp_l by lia.
Qed.

Lemma word_take b i : (i < 16)%nat -> word (take BLOCKBYTES b) i = word b i.
Proof.
  intros Hi. unfold word. apply load_ext. unfold BLOCKBYTES.
  rewrite !take_drop_commute, take_take. do 2 f_equal. nia.
Qed.

(** Compression reads one block, and only the chaining value changes. *)
Lemma compress_F S b n :
  t S = counter n -> compress S b = with_h (F (h S) (take BLOCKBYTES b) n (f S)) S.
Proof.
  intros Ht. unfold F, compress, with_h. cbn [h t f buf buflen last_node].
  rewrite (map_ext_in (word (take BLOCKBYTES b)) (word b)).
  - by rewrite Ht.
  - intros i Hi%in_seq. apply word_take. lia.
Qed.

Lemma F_length x block n fl : length (F x block n fl) = 8%nat.
Proof. done. Qed.

#[local] Opaque compress F.

Lemma block_of_app D X k : ((k + 1) * BLOCKBYTES <= length D)%nat -> block_of (D ++ X) k = block_of D k.
Proof.
  intros Hk. unfold block_of. rewrite drop_app_le, take_app_le; [done | rewrite length_drop; lia | lia].
Qed.

Lemma absorbed_app x D X k : (k * BLOCKBYTES <= length D)%nat -> absorbed x (D ++ X) k = absorbed x D k.
Proof.
  induction k as [|k IH]; intros Hk; cbn [absorbed]; [done|].
  rewrite IH by lia. by rewrite block_of_app by lia.
Qed.

(** What the state holds after absorbing [D]: [k] blocks compressed, the rest in the buffer. *)
Record holds (x : list Z) (ln : Z) (D : list Z) (k : nat) (S : state) : Prop := Holds {
  s_k : (k * BLOCKBYTES <= length D <= k * BLOCKBYTES + 2 * BLOCKBYTES)%nat;
  s_lazy : k = 0%nat \/ (k * BLOCKBYTES < length D)%nat;
  s_buflen : buflen S = (length D - k * BLOCKBYTES)%nat;
  s_size : length (buf S) = (2 * BLOCKBYTES)%nat;
  s_buf : take (buflen S) (buf S) = drop (k * BLOCKBYTES) D;
  s_h : h S = absorbed x D k;
  s_t : t S = counter (Z.of_nat (k * BLOCKBYTES));
  s_f : f S = (0, 0);
  s_last : last_node S = ln
}.

Lemma holds_init P : holds (h (init_param P)) 0 [] 0 (init_param P).
Proof.
  split; try done; try (by left); cbn [length]; try lia.
  cbn [buf init_param with_h init0]. apply length_replicate.
Qed.

Lemma memcpy_length dst off src n :
  (off + n <= length dst)%nat -> (n <= length src)%nat -> length (memcpy dst off src n) = length dst.
Proof. intros H1 H2. unfold memcpy. rewrite !length_app, !length_take, length_drop. lia. Qed.

Lemma memcpy_take dst off src n :
  (off + n <= length dst)%nat -> (n <= length src)%nat ->
  take (off + n) (memcpy dst off src n) = take off dst ++ take n src.
Proof.
  intros H1 H2. unfold memcpy. rewrite app_assoc. apply take_app_length'.
  rewrite length_app, !length_take. lia.
Qed.

(** Appending without compressing. *)
Lemma holds_append x ln D k S X :
  holds x ln D k S -> (buflen S + length X <= 2 * BLOCKBYTES)%nat ->
  holds x ln (D ++ X) k (with_buf (memcpy (buf S) (buflen S) X (length X)) (buflen S + length X) S).
Proof.
  intros [H1 H2 H3 H4 H5 H6 H7 H8 H9] Hl. split; cbn [with_buf buflen buf h t f last_node];
    rewrite ?length_app; try done; try lia.
  - rewrite memcpy_length by lia. done.
  - rewrite memcpy_take by lia. rewrite H5, firstn_all, drop_app_le by lia. done.
  - by rewrite absorbed_app by lia.
Qed.

(** Compressing the first half of a full buffer and moving up the second. *)
Lemma holds_compress x ln D k S :
  holds x ln D k S -> (BLOCKBYTES < buflen S)%nat ->
  let S1 := compress (increment_counter S (Z.of_nat BLOCKBYTES)) (buf S) in
  let n := (buflen S - BLOCKBYTES)%nat in
  holds x ln D (k + 1) (with_buf (memcpy (buf S1) 0 (drop BLOCKBYTES (buf S1)) n) n S1).
Proof.
  intros [H1 H2 H3 H4 H5 H6 H7 H8 H9] Hl. cbn zeta. pose proof block_small as Hs. pose proof block_pos.
  rewrite (increment_spec S (Z.of_nat (k * BLOCKBYTES))) by (done || lia).
  rewrite (compress_F _ _ (Z.of_nat (k * BLOCKBYTES) + Z.of_nat BLOCKBYTES)) by done.
  assert (k * BLOCKBYTES + BLOCKBYTES = Datatypes.S k * BLOCKBYTES)%nat as Hk by (clear Hs; cbn; lia).
  clear Hs. split; cbn [with_buf with_h with_t buflen buf h t f last_node]; try done; try lia.
  - rewrite memcpy_length; [done | lia | rewrite length_drop; lia].
  - pose proof (memcpy_take (buf S) 0 (drop BLOCKBYTES (buf S)) (buflen S - BLOCKBYTES)) as E.
    cbn [Nat.add take app] in E. rewrite E by (rewrite ?length_drop; lia).
    rewrite take_drop_commute. replace (BLOCKBYTES + (buflen S - BLOCKBYTES))%nat with (buflen S) by lia.
    rewrite take_0, H5, drop_drop. cbn [app]. f_equal. lia.
  - rewrite Nat.add_1_r. cbn [absorbed]. rewrite H6, H8, <- Hk, Nat2Z.inj_add.
    assert (take BLOCKBYTES (buf S) = block_of D k) as ->; [|reflexivity].
    unfold block_of. rewrite <- H5, take_take, Nat.min_l by lia. reflexivity.
  - by rewrite Nat.add_1_r, <- Hk, Nat2Z.inj_add.
Qed.

Lemma update_loop_spec x ln fuel S D k X :
  holds x ln D k S -> (2 * length X + (if decide (buflen S = 2 * BLOCKBYTES)%nat then 1 else 0) < fuel)%nat ->
  exists S' k', update_loop fuel S X = Some S' /\ holds x ln (D ++ X) k' S'.
Proof.
  revert S D k X. induction fuel as [|fuel IH]; intros S D k X HS Hf; [lia|].
  pose proof (s_k _ _ _ _ _ HS). pose proof (s_buflen _ _ _ _ _ HS) as Hbl. pose proof block_pos.
  cbn [update_loop]. destruct (Nat.ltb_spec 0 (length X)) as [HX|HX].
  2:{ exists S, k. split; [done|]. destruct X; [by rewrite app_nil_r | cbn in HX; lia]. }
  destruct (Nat.ltb_spec (2 * BLOCKBYTES - buflen S) (length X)) as [Hlt|Hge].
  - set (fill := (2 * BLOCKBYTES - buflen S)%nat) in *.
    assert (length (take fill X) = fill) as El by (rewrite length_take; lia).
    pose proof (holds_append x ln D k S (take fill X) HS ltac:(lia)) as HS1. rewrite El in HS1.
    assert (memcpy (buf S) (buflen S) (take fill X) fill = memcpy (buf S) (buflen S) X fill) as Em
      by (unfold memcpy; by rewrite take_take, Nat.min_id).
    rewrite Em in HS1. set (S1 := with_buf _ _ S) in *.
    assert (buflen S1 = (2 * BLOCKBYTES)%nat) as Hb1 by (cbn [S1 buflen with_buf]; lia).
    pose proof (holds_compress x ln _ k S1 HS1 ltac:(lia)) as HS2. cbn zeta in HS2.
    rewrite Hb1 in HS2. replace (2 * BLOCKBYTES - BLOCKBYTES)%nat with BLOCKBYTES in HS2 by lia.
    set (S2 := compress (increment_counter S1 (Z.of_nat BLOCKBYTES)) (buf S1)) in *.
    assert (buf (increment_counter S1 (Z.of_nat BLOCKBYTES)) = buf S1) as -> by done.
    fold S2. assert (buflen S2 = (2 * BLOCKBYTES)%nat) as -> by done.
    replace (2 * BLOCKBYTES - BLOCKBYTES)%nat with BLOCKBYTES by lia.
    destruct (IH _ _ _ (drop fill X) HS2) as (S' & k' & E & HS').
    { cbn [buflen with_buf]. rewrite length_drop.
      destruct (decide (BLOCKBYTES = 2 * BLOCKBYTES)%nat); [lia|].
      destruct (decide (buflen S = 2 * BLOCKBYTES)%nat); lia. }
    exists S', k'. split; [exact E|]. by rewrite <- app_assoc, take_drop in HS'.
  - pose proof (holds_append x ln D k S X HS ltac:(lia)) as HS1. rewrite drop_ge by lia.
    destruct (IH _ _ _ [] HS1) as (S' & k' & E & HS').
    { cbn [length]. destruct (decide _), (decide _); lia. }
    exists S', k'. split; [exact E|]. by rewrite app_nil_r in HS'.
Qed.

Lemma update_spec x ln S D k X :
  holds x ln D k S -> exists S' k', update S X = Some S' /\ holds x ln (D ++ X) k' S'.
Proof.
  intros HS. apply (update_loop_spec x ln _ S D k X HS). destruct (decide _); lia.
Qed.

(** ** The end of the message *)

Lemma full_blocks_unique D k :
  (k * BLOCKBYTES <= length D <= k * BLOCKBYTES + BLOCKBYTES)%nat ->
  (k = 0%nat \/ (k * BLOCKBYTES < length D)%nat) -> full_blocks D = k.
Proof.
  intros H1 H2. pose proof block_pos. unfold full_blocks. symmetry.
  apply (Nat.div_unique _ _ _ (length D - 1 - k * BLOCKBYTES)).
  - destruct H2 as [-> | H2]; lia.
  - rewrite (Nat.mul_comm BLOCKBYTES). destruct H2 as [-> | H2]; lia.
Qed.

(** After the buffer holds one block at most, the last compression. *)
Lemma final_block x ln D k S :
  holds x ln D k S -> (buflen S <= BLOCKBYTES)%nat ->
  h (final_last S) = hash_words x ln D.
Proof.
  intros [H1 H2 H3 H4 H5 H6 H7 H8 H9] Hl. pose proof block_pos. pose proof block_small as Hs.
  assert (full_blocks D = k) as Hk by (apply full_blocks_unique; lia).
  unfold final_last. rewrite Z.mod_small by lia. rewrite (increment_spec S _ _ H7) by lia.
  assert (Z.of_nat (k * BLOCKBYTES) + Z.of_nat (buflen S) = Z.of_nat (length D)) as En by lia.
  rewrite En. unfold hash_words. rewrite Hk. clear Hs.
  assert (take BLOCKBYTES (memcpy (buf S) (buflen S) (replicate (2 * BLOCKBYTES - buflen S) 0)
    (2 * BLOCKBYTES - buflen S)) = pad (drop (k * BLOCKBYTES) D)) as Ep.
  { unfold memcpy, pad. rewrite H5. rewrite (drop_ge (buf S)) by lia.
    rewrite app_nil_r, (firstn_all2 (replicate _ _)) by (rewrite length_replicate; lia).
    assert (length (drop (k * BLOCKBYTES) D) = buflen S) as Ed by (rewrite length_drop; lia).
    rewrite take_app, Ed, take_ge by lia. f_equal. rewrite take_replicate. f_equal. lia. }
  unfold set_lastblock. cbn [with_t last_node]. rewrite H9.
  destruct (ln =? 0);
    cbn [buf buflen with_f with_t set_lastnode with_buf];
    (rewrite (compress_F _ _ (Z.of_nat (length D))) by reflexivity);
    rewrite Ep; cbn [with_h with_f with_t with_buf set_lastnode h f fst snd]; rewrite H6, ?H8; reflexivity.
Qed.

Lemma final_full_spec x ln D k S :
  holds x ln D k S -> exists k', holds x ln D k' (final_full S) /\ (buflen (final_full S) <= BLOCKBYTES)%nat.
Proof.
  intros HS. unfold final_full. destruct (Nat.ltb_spec BLOCKBYTES (buflen S)) as [Hlt|Hge]; [|by exists k].
  exists (k + 1)%nat. split; [exact (holds_compress x ln D k S HS Hlt)|]. cbn [buflen with_buf].
  pose proof (s_k _ _ _ _ _ HS). pose proof (s_buflen _ _ _ _ _ HS).
  change (buflen S - BLOCKBYTES <= BLOCKBYTES)%nat. lia.
Qed.

Lemma final_spec x ln D k S outlen :
  holds x ln D k S -> 0 < outlen <= Z.of_nat OUTBYTES ->
  final S true outlen = Some (take (Z.to_nat outlen) (concat (map (store word_bytes) (hash_words x ln D)))).
Proof.
  intros HS Ho. unfold final.
  destruct (Z.eqb_spec outlen 0); [lia|]. destruct (Z.ltb_spec (Z.of_nat OUTBYTES) outlen); [lia|].
  cbn [negb orb]. destruct (final_full_spec x ln D k S HS) as (k' & HS' & Hb).
  by rewrite (final_block x ln D k' _ HS' Hb).
Qed.

Lemma final_error S out outlen :
  final S out outlen = None <-> out = false \/ outlen = 0 \/ Z.of_nat OUTBYTES < outlen.
Proof.
  unfold final. destruct out, (Z.eqb_spec outlen 0), (Z.ltb_spec (Z.of_nat OUTBYTES) outlen);
    cbn [negb orb]; (split; [intros E; try discriminate E; auto | intros [?|[?|?]]; (done || lia)]).
Qed.

Lemma hash_length P last outlen D :
  0 <= outlen <= Z.of_nat OUTBYTES -> Z.of_nat (length (hash P last outlen D)) = outlen.
Proof.
  intros Ho. unfold hash. rewrite length_take.
  assert (forall l, length (concat (map (store word_bytes) l)) = (length l * word_bytes)%nat) as Hc.
  { induction l as [|w l IH]; [done|]. cbn [map concat length]. rewrite length_app, store_length, IH. lia. }
  rewrite Hc. unfold hash_words. rewrite F_length. unfold OUTBYTES in Ho. lia.
Qed.

(** ** The interface *)

(** A sequence of calls of [update]. *)
Definition feed (S : state) (chunks : list (list Z)) : option state :=
  foldl (fun o c => S ← o; update S c) (Some S) chunks.

Lemma feed_spec x ln chunks S D k :
  holds x ln D k S -> exists S' k', feed S chunks = Some S' /\ holds x ln (D ++ concat chunks) k' S'.
Proof.
  revert S D k. induction chunks as [|c chunks IH]; intros S D k HS.
  - exists S, k. cbn. by rewrite app_nil_r.
  - destruct (update_spec x ln S D k c HS) as (S1 & k1 & E & HS1).
    destruct (IH S1 _ _ HS1) as (S' & k' & E' & HS'). exists S', k'.
    unfold feed in *. cbn [foldl]. cbn [mbind option_bind]. rewrite E.
    rewrite <- app_assoc in HS'. done.
Qed.

(** However the message is cut, the result is its hash. *)
Lemma streaming_spec P chunks outlen :
  0 < outlen <= Z.of_nat OUTBYTES ->
  (S ← feed (init_param P) chunks; final S true outlen) = Some (hash P 0 outlen (concat chunks)).
Proof.
  intros Ho. destruct (feed_spec _ 0 chunks _ _ _ (holds_init P)) as (S & k & E & HS).
  rewrite E. cbn [mbind option_bind]. by apply (final_spec _ _ _ _ _ _ HS).
Qed.

Lemma init_key_spec outlen key keylen :
  0 < outlen <= Z.of_nat OUTBYTES -> 0 < keylen <= Z.of_nat KEYBYTES ->
  exists S k, init_key outlen (Some key) keylen = Some S /\
    holds (h (init_param (sequential_param outlen keylen))) 0 (key_block key keylen) k S.
Proof.
  intros Ho Hk. unfold init_key.
  destruct (Z.eqb_spec outlen 0); [lia|]. destruct (Z.ltb_spec (Z.of_nat OUTBYTES) outlen); [lia|].
  destruct (Z.eqb_spec keylen 0); [lia|]. destruct (Z.ltb_spec (Z.of_nat KEYBYTES) keylen); [lia|].
  cbn [orb]. destruct (update_spec _ 0 _ _ _ (key_block key keylen)
    (holds_init (sequential_param outlen keylen))) as (S & k & E & HS).
  by exists S, k.
Qed.

(** What [blake2] hashes. *)
Definition message (key : option (list Z)) (keylen : Z) (input : list Z) : list Z :=
  (if 0 <? keylen then key_block (default [] key) keylen else []) ++ input.

Definition bad_arguments (out : bool) (input key : option (list Z)) (outlen inlen keylen : Z) : Prop :=
  (input = None /\ 0 < inlen) \/ out = false \/ (key = None /\ 0 < keylen) \/
  outlen = 0 \/ Z.of_nat OUTBYTES < outlen \/ Z.of_nat KEYBYTES < keylen.

Lemma bad_arguments_error out input key outlen inlen keylen :
  bad_arguments out input key outlen inlen keylen -> blake2 out input key outlen inlen keylen = None.
Proof.
  unfold bad_arguments, blake2.
  destruct input as [input|], out, key as [key|]; cbn [negb andb];
    destruct (Z.ltb_spec 0 inlen), (Z.ltb_spec 0 keylen), (Z.eqb_spec outlen 0),
      (Z.ltb_spec (Z.of_nat OUTBYTES) outlen), (Z.ltb_spec (Z.of_nat KEYBYTES) keylen); cbn [orb];
    intros Hbad; try reflexivity; exfalso;
    (destruct Hbad as [[? ?]|[?|[[? ?]|[?|[?|?]]]]]; (discriminate || lia)).
Qed.

Lemma bad_arguments_dec out input key outlen inlen keylen :
  {bad_arguments out input key outlen inlen keylen} + {~ bad_arguments out input key outlen inlen keylen}.
Proof.
  unfold bad_arguments.
  refine (decide ((input = None /\ 0 < inlen) \/ out = false \/ (key = None /\ 0 < keylen) \/
    outlen = 0 \/ Z.of_nat OUTBYTES < outlen \/ Z.of_nat KEYBYTES < keylen)).
Defined.

Lemma init_error outlen (k : state -> option (list Z)) :
  outlen = 0 \/ Z.of_nat OUTBYTES < outlen -> init outlen ≫= k = None.
Proof.
  intros H. unfold init. destruct (Z.eqb_spec outlen 0), (Z.ltb_spec (Z.of_nat OUTBYTES) outlen);
    try reflexivity; lia.
Qed.

Lemma init_valid outlen :
  0 < outlen <= Z.of_nat OUTBYTES -> init outlen = Some (init_param (sequential_param outlen 0)).
Proof.
  intros H. unfold init. destruct (Z.eqb_spec outlen 0), (Z.ltb_spec (Z.of_nat OUTBYTES) outlen);
    try reflexivity; lia.
Qed.

Lemma init_key_error outlen key keylen :
  outlen = 0 \/ Z.of_nat OUTBYTES < outlen \/ Z.of_nat KEYBYTES < keylen ->
  init_key outlen (Some key) keylen = None.
Proof.
  intros H. unfold init_key. destruct (Z.eqb_spec outlen 0), (Z.ltb_spec (Z.of_nat OUTBYTES) outlen),
    (Z.eqb_spec keylen 0), (Z.ltb_spec (Z.of_nat KEYBYTES) keylen); try reflexivity; lia.
Qed.

Lemma blake2_ok out input key outlen inlen keylen :
  0 <= outlen -> 0 <= inlen -> 0 <= keylen ->
  ~ bad_arguments out input key outlen inlen keylen ->
  blake2 out input key outlen inlen keylen = Some (hash (sequential_param outlen keylen) 0 outlen
    (message key keylen (take (Z.to_nat inlen) (default [] input)))).
Proof.
  intros Ho Hi Hk Hg. unfold bad_arguments in Hg.
  destruct out; [|destruct Hg; auto].
  destruct (decide (outlen = 0)); [destruct Hg; auto|].
  destruct (decide (Z.of_nat OUTBYTES < outlen)); [destruct Hg; auto 6|].
  destruct (decide (Z.of_nat KEYBYTES < keylen)); [destruct Hg; auto 7|].
  assert (match input with None => true | Some _ => false end && (0 <? inlen) = false) as E1.
  { destruct input, (Z.ltb_spec 0 inlen); try reflexivity. destruct Hg; auto. }
  assert (match key with None => true | Some _ => false end && (0 <? keylen) = false) as E2.
  { destruct key, (Z.ltb_spec 0 keylen); try reflexivity. destruct Hg; auto. }
  unfold blake2. rewrite E1, E2. cbn [negb].
  destruct (Z.eqb_spec outlen 0); [lia|]. destruct (Z.ltb_spec (Z.of_nat OUTBYTES) outlen); [lia|].
  destruct (Z.ltb_spec (Z.of_nat KEYBYTES) keylen); [lia|]. cbn [orb].
  set (X := take (Z.to_nat inlen) (default [] input)).
  assert (exists S k D, (if 0 <? keylen then init_key outlen key keylen else init outlen) = Some S /\
    D ++ X = message key keylen X /\
    holds (h (init_param (sequential_param outlen keylen))) 0 D k S) as (S & k & D & ES & ED & HS).
  { unfold message. destruct (Z.ltb_spec 0 keylen).
    - destruct key as [key|]; [|destruct Hg; auto].
      destruct (init_key_spec outlen key keylen) as (S & k & E & HS); [lia | lia |].
      exists S, k, (key_block key keylen). done.
    - assert (keylen = 0) as -> by lia. exists (init_param (sequential_param outlen 0)), 0%nat, [].
      split; [|split; [done | apply holds_init]]. unfold init.
      destruct (Z.eqb_spec outlen 0); [lia|]. by destruct (Z.ltb_spec (Z.of_nat OUTBYTES) outlen); [lia|]. }
  rewrite ES. cbn [mbind option_bind].
  destruct (update_spec _ 0 S D k X HS) as (S' & k' & EU & HS'). rewrite EU. cbn [mbind option_bind].
  rewrite <- ED. apply (final_spec _ _ _ _ _ _ HS'). lia.
Qed.

(** ** Properties *)

(** C5 [blake2] (for both word sizes): it reports an error exactly on bad arguments;
    otherwise the digest has the length asked for and is the hash of the key block and
    the input, as the standard defines it from the compression function. *)
Theorem blake2_correct out input key outlen inlen keylen :
  0 <= outlen -> 0 <= inlen -> 0 <= keylen ->
  (bad_arguments out input key outlen inlen keylen <-> blake2 out input key outlen inlen keylen = None) /\
  (~ bad_arguments out input key outlen inlen keylen -> exists digest,
    blake2 out input key outlen inlen keylen = Some digest /\ Z.of_nat (length digest) = outlen /\
    digest = hash (sequential_param outlen keylen) 0 outlen
      (message key keylen (take (Z.to_nat inlen) (default [] input)))).
Proof.
  intros Ho Hi Hk. pose proof (blake2_ok out input key outlen inlen keylen Ho Hi Hk) as Hok. split.
  - split; [apply bad_arguments_error|]. intros HN. destruct (bad_arguments_dec out input key outlen inlen keylen) as [H|H];
      [done|]. by rewrite (Hok H) in HN.
  - intros Hb. eexists. split; [by apply Hok|]. split; [|done]. apply hash_length. unfold bad_arguments in Hb. lia.
Qed.

(** C29 The incremental interface, with or without a key, computes what the one-shot
    function computes on the concatenation of the chunks, wherever they are cut, errors included. *)
Theorem incremental_correct chunks key outlen keylen : 0 <= outlen -> 0 < keylen ->
  let input := concat chunks in
  (S ← init outlen; S ← feed S chunks; final S true outlen) =
    blake2 true (Some input) None outlen (Z.of_nat (length input)) 0 /\
  (S ← init_key outlen (Some key) keylen; S ← feed S chunks; final S true outlen) =
    blake2 true (Some input) (Some key) outlen (Z.of_nat (length input)) keylen.
Proof.
  intros Ho Hk input. split.
  - destruct (bad_arguments_dec true (Some input) None outlen (Z.of_nat (length input)) 0) as [H|H].
    + rewrite (bad_arguments_error _ _ _ _ _ _ H). apply init_error. unfold bad_arguments in H.
      destruct H as [[? _]|[?|[[_ ?]|[?|[?|?]]]]]; done || lia.
    + rewrite blake2_ok by (done || lia). unfold bad_arguments in H.
      rewrite init_valid by lia. cbn [mbind option_bind default from_option].
      rewrite Nat2Z.id, firstn_all. change (message None 0 (id input)) with input.
      apply (streaming_spec (sequential_param outlen 0)). lia.
  - destruct (bad_arguments_dec true (Some input) (Some key) outlen (Z.of_nat (length input)) keylen) as [H|H].
    + rewrite (bad_arguments_error _ _ _ _ _ _ H). rewrite init_key_error; [done|].
      unfold bad_arguments in H. destruct H as [[? _]|[?|[[? _]|[?|[?|?]]]]]; done || lia.
    + rewrite blake2_ok by (done || lia). unfold bad_arguments in H.
      destruct (init_key_spec outlen key keylen) as (S & k & E & HS); [lia | lia |].
      rewrite E. cbn [mbind option_bind]. destruct (feed_spec _ _ chunks _ _ _ HS) as (S' & k' & EF & HS').
      rewrite EF. cbn [mbind option_bind]. rewrite (final_spec _ _ _ _ _ _ HS') by lia.
      unfold hash, message. rewrite Nat2Z.id. cbn [default from_option]. unfold id. rewrite firstn_all.
      by rewrite (proj2 (Z.ltb_lt 0 keylen)) by lia.
Qed.

(** [blake2_increment_counter] is addition on the double-width counter, the carry
    out of the low word included. *)
Lemma counter_exact S n inc : t S = counter n -> 0 <= n -> 0 <= inc < 2 ^ word_bits ->
  increment_counter S inc = with_t (counter (n + inc)) S /\
  (n + inc < 2 ^ word_bits * 2 ^ word_bits ->
    fst (counter (n + inc)) + 2 ^ word_bits * snd (counter (n + inc)) = n + inc).
Proof.
  intros Ht Hn Hi. split; [by apply increment_spec|]. intros Hsmall. unfold counter. cbn [fst snd].
  assert (0 < 2 ^ word_bits) as Hp by lia.
  rewrite (Z.mod_small ((n + inc) / _)) by (split; [apply Z.div_pos; lia | apply Z.div_lt_upper_bound; lia]).
  pose proof (Z.div_mod (n + inc) (2 ^ word_bits)). lia.
Qed.
End spec.

(** The vectors of blake2-kat.h: no key, and the key 0, 1, 2, ..., on the input 0, 1, 2, ... *)
Definition count_up (n : nat) : list Z := map Z.of_nat (seq 0 n).

Lemma blake2_correct_witness : exists digest,
  blake2b true (Some [1; 2; 3]) (Some [7]) 20 3 1 = Some digest /\ Z.of_nat (length digest) = 20.
Proof.
  destruct (proj2 (blake2_correct (V := blake2b_variant) true (Some [1; 2; 3]) (Some [7]) 20 3 1
    ltac:(lia) ltac:(lia) ltac:(lia))) as (d & H1 & H2 & _).
  - unfold bad_arguments. intros [[? ?]|[?|[[? ?]|[?|[?|?]]]]]; discriminate.
  - by exists d.
Defined.

Lemma incremental_correct_witness :
  (S ← blake2s_init 32; S ← blake2s_update S [1; 2]; S ← blake2s_update S [3]; blake2s_final S true 32) =
    blake2s true (Some [1; 2; 3]) None 32 3 0.
Proof.
  pose proof (proj1 (incremental_correct (V := blake2s_variant) [[1; 2]; [3]] [5] 32 1 ltac:(lia) ltac:(lia))) as H.
  etransitivity; [|exact H]. unfold blake2s_init, blake2s_update, blake2s_final.
  rewrite init_valid by (cbn; lia). cbn [mbind option_bind]. unfold feed. cbn [foldl mbind option_bind].
  destruct (update _ [1; 2]); reflexivity.
Defined.

Lemma counter_exact_witness :
  let S := State [] (4294967232, 0) (0, 0) [] 0 0 in
  increment_counter (V := blake2s_variant) S 64 = with_t (0, 1) S.
Proof.
  intros S. rewrite (proj1 (counter_exact (V := blake2s_variant) S 4294967232 64 eq_refl ltac:(lia) ltac:(cbn; lia))).
  reflexivity.
Defined.

(** The words of the headers: storing and loading are inverse in both directions, for the
    32-, 48- and 64-bit accesses, and so are the left and right rotations of a word. *)
Lemma words_round_trip n p w bits c :
  length p = n -> Forall (fun b => 0 <= b < 256) p -> 0 <= c <= bits -> 0 <= w < 2 ^ bits ->
  store n (load n p) = p /\ load n (store n w) = w mod 256 ^ Z.of_nat n /\
  rotl bits (rotr bits w c) c = w.
Proof.
  intros Hl Hp Hc Hw. split; [by apply store_load|]. split; [apply load_store | by apply rotl_rotr].
Qed.

Lemma words_round_trip_witness :
  store 6 (load 6 [1; 2; 3; 4; 5; 255]) = [1; 2; 3; 4; 5; 255] /\ rotl64 (rotr64 12345678901234567890 24) 24 = 12345678901234567890.
Proof.
  split.
  - apply (words_round_trip 6 [1; 2; 3; 4; 5; 255] 0 64 0); [done | repeat constructor; lia | lia | lia].
  - apply (words_round_trip 0 [] 12345678901234567890 64 24); [done | constructor | lia | lia].
Defined.
