(* ===== verification/Blake2p.v ===== *)
(** * BLAKE2bp and BLAKE2sp (src/math/blake2)

    The four-way and eight-way trees of blake2bp-ref.c and blake2sp-ref.c, over
    the sequential hash of [Blake2].  Without OpenMP the leaves are computed one
    after the other; they share nothing, so the order does not matter. *)

From Stdlib Require Import ZArith Lia.
From stdpp Require Import base numbers list.
From S2P Require Import Prelude Blake2.

Open Scope Z_scope.

(** [PARALLELISM_DEGREE], for each variant. *)
Class Degree : Type := { PARALLELISM_DEGREE : nat }.

Section code.
Context {V : Variant} {Dg : Degree}.

(** The bytes of one round of blocks, [PARALLELISM_DEGREE * BLOCKBYTES]. *)
Definition STRIPE : nat := (PARALLELISM_DEGREE * BLOCKBYTES)%nat.

Definition zeros : list Z := replicate (2 * word_bytes) 0.
Definition leaf_param (outlen keylen offset : Z) : param :=
  Param outlen keylen (Z.of_nat PARALLELISM_DEGREE) 2 0 offset 0 (Z.of_nat OUTBYTES) zeros zeros.
Definition root_param (outlen keylen : Z) : param :=
  Param outlen keylen (Z.of_nat PARALLELISM_DEGREE) 2 0 0 1 (Z.of_nat OUTBYTES) zeros zeros.
Definition init_leaf (outlen keylen offset : Z) : state := init_param (leaf_param outlen keylen offset).
Definition init_root (outlen keylen : Z) : state := init_param (root_param outlen keylen).

(** The leaves [S[0], ..., S[PARALLELISM_DEGREE - 1]], the last marked. *)
Definition init_leaves (outlen keylen : Z) : list state :=
  alter (with_last_node 1) (PARALLELISM_DEGREE - 1)%nat
    (map (fun i => init_leaf outlen keylen (Z.of_nat i)) (seq 0 PARALLELISM_DEGREE)).

(** [for( i = 0; i < PARALLELISM_DEGREE; ++i ) S[i] = f(i, S[i])]. *)
Fixpoint each_leaf {A} (f : nat -> state -> option A) (i : nat) (L : list state) : option (list A) :=
  match L with
  | [] => Some []
  | s :: L => a ← f i s; r ← each_leaf f (i + 1)%nat L; Some (a :: r)
  end.

(** blake2bp_state / blake2sp_state. *)
Record pstate : Type := Pstate { leaves : list state; root : state; pbuf : list Z; pbuflen : nat }.

Definition pinit (outlen : Z) : option pstate :=
  if (outlen =? 0) || (Z.of_nat OUTBYTES <? outlen) then None else
  Some (Pstate (init_leaves outlen 0) (with_last_node 1 (init_root outlen 0)) (replicate STRIPE 0) 0).

Definition pinit_key (outlen : Z) (key : option (list Z)) (keylen : Z) : option pstate :=
  if (outlen =? 0) || (Z.of_nat OUTBYTES <? outlen) then None else
  match key with
  | None => None
  | Some key =>
      if (keylen =? 0) || (Z.of_nat KEYBYTES <? keylen) then None else
      S ← each_leaf (fun _ s => update s (key_block key keylen)) 0 (init_leaves outlen keylen);
      Some (Pstate S (with_last_node 1 (init_root outlen keylen)) (replicate STRIPE 0) 0)
  end.

(** [BLOCKBYTES] bytes at [p + i * BLOCKBYTES]. *)
Definition block_at (p : list Z) (i : nat) : list Z := take BLOCKBYTES (drop (i * BLOCKBYTES) p).

(** [while( inlen__ >= PARALLELISM_DEGREE * BLOCKBYTES ) {...}] for leaf [i];
    [input] is what is left of [in]. *)
Fixpoint stripe_loop (fuel : nat) (i : nat) (S : state) (input : list Z) : option state :=
  match fuel with
  | O => None
  | Datatypes.S fuel =>
      if (STRIPE <=? length input)%nat then
        S ← update S (block_at input i);
        stripe_loop fuel i S (drop STRIPE input)
      else Some S
  end.

(** The first part of [update]: a full buffer goes to the leaves. *)
Definition flush (S : pstate) (input : list Z) : option (pstate * list Z) :=
  let left := pbuflen S in
  let fill := (length (pbuf S) - left)%nat in
  if negb (left =? 0)%nat && (fill <=? length input)%nat then
    let b := memcpy (pbuf S) left input fill in
    L ← each_leaf (fun i s => update s (block_at b i)) 0 (leaves S);
    Some (Pstate L (root S) b 0, drop fill input)
  else Some (S, input).

Definition pupdate (S : pstate) (input : list Z) : option pstate :=
  r ← flush S input;
  let (S, input) := (r : pstate * list Z) in
  let left := pbuflen S in
  L ← each_leaf (fun i s => stripe_loop (length input + 1) i s input) 0 (leaves S);
  let inlen := (length input mod STRIPE)%nat in
  let input := drop (length input - inlen) input in
  Some (Pstate L (root S) (memcpy (pbuf S) left input inlen) (left + inlen)).

(** What leaf [i] still gets of the [n] bytes at [p]. *)
Definition leaf_rest (i : nat) (p : list Z) (n : nat) (S : state) : option state :=
  if (i * BLOCKBYTES <? n)%nat then
    let left := (n - i * BLOCKBYTES)%nat in
    let left := if (BLOCKBYTES <? left)%nat then BLOCKBYTES else left in
    update S (take left (drop (i * BLOCKBYTES) p))
  else Some S.

(** [for( i ) update( R, hash[i], OUTBYTES );]. *)
Definition hash_leaves (R : state) (hashes : list (list Z)) : option state := feed R hashes.

Definition pfinal (S : pstate) (out : bool) (outlen : Z) : option (list Z) :=
  hs ← each_leaf (fun i s => s ← leaf_rest i (pbuf S) (pbuflen S) s; final s true (Z.of_nat OUTBYTES)) 0 (leaves S);
  R ← hash_leaves (root S) hs;
  final R out outlen.

(** blake2bp() / blake2sp(): pointers as in [blake2], with at least [inlen] and [keylen] bytes to read. *)
Definition blake2p (out : bool) (input key : option (list Z)) (outlen inlen keylen : Z) : option (list Z) :=
  if (match input with None => true | _ => false end) && (0 <? inlen) then None else
  if negb out then None else
  if (match key with None => true | _ => false end) && (0 <? keylen) then None else
  if (outlen =? 0) || (Z.of_nat OUTBYTES <? outlen) then None else
  if Z.of_nat KEYBYTES <? keylen then None else
  let input := take (Z.to_nat inlen) (default [] input) in
  S ← (if 0 <? keylen
       then each_leaf (fun _ s => update s (key_block (default [] key) keylen)) 0 (init_leaves outlen keylen)
       else Some (init_leaves outlen keylen));
  hs ← each_leaf (fun i s =>
    s ← stripe_loop (length input + 1) i s input;
    let n := (length input mod STRIPE)%nat in
    s ← leaf_rest i (drop (length input - n) input) n s;
    final s true (Z.of_nat OUTBYTES)) 0 S;
  R ← hash_leaves (with_last_node 1 (init_root outlen keylen)) hs;
  final R out outlen.
End code.

Definition blake2bp_degree : Degree := {| PARALLELISM_DEGREE := 4 |}.
Definition blake2sp_degree : Degree := {| PARALLELISM_DEGREE := 8 |}.
Definition blake2bp := blake2p (V := blake2b_variant) (Dg := blake2bp_degree).
Definition blake2sp := blake2p (V := blake2s_variant) (Dg := blake2sp_degree).

(** *** The functions of blake2sp-ref.c *)
Definition blake2sp_init_leaf := init_leaf (V := blake2s_variant) (Dg := blake2sp_degree).
Definition blake2sp_init_root := init_root (V := blake2s_variant) (Dg := blake2sp_degree).
Definition blake2sp_init := pinit (V := blake2s_variant) (Dg := blake2sp_degree).
Definition blake2sp_init_key := pinit_key (V := blake2s_variant) (Dg := blake2sp_degree).
Definition blake2sp_update := pupdate (V := blake2s_variant) (Dg := blake2sp_degree).
Definition blake2sp_final := pfinal (V := blake2s_variant).

(** ** The tree hash *)

Class DegreeOk (Dg : Degree) : Prop := { degree_pos : (0 < PARALLELISM_DEGREE)%nat }.
#[export] Instance blake2bp_degree_ok : DegreeOk blake2bp_degree.
Proof. split. cbn. lia. Qed.
#[export] Instance blake2sp_degree_ok : DegreeOk blake2sp_degree.
Proof. split. cbn. lia. Qed.

Section tree.
Context {V : Variant} {VO : VariantOk V} {Dg : Degree} {DO : DegreeOk Dg}.

(** Leaf [i] hashes blocks [i], [i + PARALLELISM_DEGREE], ... of the message: [m] of them. *)
Fixpoint stripes (D : list Z) (i m : nat) : list Z :=
  match m with
  | O => []
  | S m => block_at D i ++ stripes (drop STRIPE D) i m
  end.
Definition leaf_data (D : list Z) (i : nat) : list Z := stripes D i (length D / STRIPE + 1).

Definition is_last (i : nat) : Z := if (i =? PARALLELISM_DEGREE - 1)%nat then 1 else 0.

(** The key, padded to a block, goes first to every leaf. *)
Definition key_prefix (key : list Z) (keylen : Z) : list Z := if 0 <? keylen then key_block key keylen else [].

Definition leaf_hash (outlen keylen : Z) (kb D : list Z) (i : nat) : list Z :=
  hash (leaf_param outlen keylen (Z.of_nat i)) (is_last i) (Z.of_nat OUTBYTES) (kb ++ leaf_data D i).

Definition tree_hash (outlen keylen : Z) (kb D : list Z) : list Z :=
  hash (root_param outlen keylen) 1 outlen
    (concat (map (leaf_hash outlen keylen kb D) (seq 0 PARALLELISM_DEGREE))).

(** ** Stripes *)

Lemma stripe_pos : (0 < STRIPE)%nat.
Proof. pose proof degree_pos. pose proof block_pos. unfold STRIPE. nia. Qed.

Lemma block_in_stripe i : (i < PARALLELISM_DEGREE)%nat -> (i * BLOCKBYTES + BLOCKBYTES <= STRIPE)%nat.
Proof. intros Hi. unfold STRIPE. nia. Qed.

Lemma block_at_app D X i :
  (i * BLOCKBYTES + BLOCKBYTES <= length D)%nat -> block_at (D ++ X) i = block_at D i.
Proof.
  intros H. unfold block_at. rewrite drop_app_le by lia. rewrite take_app_le; [done|].
  rewrite length_drop. lia.
Qed.

Lemma stripes_app D X i m n :
  (i < PARALLELISM_DEGREE)%nat -> length D = (m * STRIPE)%nat ->
  stripes (D ++ X) i (m + n) = stripes D i m ++ stripes X i n.
Proof.
  intros Hi. pose proof (block_in_stripe i Hi). revert D. induction m as [|m IH]; intros D HD; cbn [Nat.add stripes].
  - by destruct D.
  - cbn in HD. rewrite block_at_app by lia. rewrite drop_app_le by lia.
    rewrite IH by (rewrite length_drop; lia). by rewrite app_assoc.
Qed.

(** Only whole stripes have been given to the leaves; the rest is less than one. *)
Lemma leaf_data_app D X i m :
  (i < PARALLELISM_DEGREE)%nat -> length D = (m * STRIPE)%nat -> (length X < STRIPE)%nat ->
  leaf_data (D ++ X) i = stripes D i m ++ block_at X i.
Proof.
  intros Hi HD HX. pose proof stripe_pos. unfold leaf_data.
  assert (length (D ++ X) / STRIPE = m)%nat as ->.
  { rewrite length_app, HD. symmetry. apply (Nat.div_unique _ _ _ (length X)); [lia | nia]. }
  rewrite stripes_app by done. cbn [stripes]. by rewrite app_nil_r.
Qed.

(** ** The leaves *)

(** Leaf [i] holds [kb] and the data [f i]. *)
Definition leaves_hold (outlen keylen : Z) (kb : list Z) (f : nat -> list Z) (L : list state) : Prop :=
  length L = PARALLELISM_DEGREE /\
  forall i s, L !! i = Some s -> exists k,
    holds (h (init_leaf outlen keylen (Z.of_nat i))) (is_last i) (kb ++ f i) k s.

Lemma holds_last_node x D k ln s : holds x 0 D k s -> holds x ln D k (with_last_node ln s).
Proof. intros [? ? ? ? ? ? ? ? ?]. by split. Qed.

Lemma init_leaves_hold outlen keylen : leaves_hold outlen keylen [] (fun _ => []) (init_leaves outlen keylen).
Proof.
  pose proof degree_pos. split; [unfold init_leaves; by rewrite length_alter, length_map, length_seq|].
  intros i s Hs. exists 0%nat. unfold init_leaves in Hs. cbn [app]. unfold is_last.
  destruct (Nat.eqb_spec i (PARALLELISM_DEGREE - 1)) as [E|E].
  - rewrite E, list_lookup_alter_eq, list_lookup_fmap in Hs.
    rewrite lookup_seq_lt in Hs by lia. injection Hs as <-. rewrite E.
    apply (holds_last_node _ _ _ 1), holds_init.
  - rewrite list_lookup_alter_ne, list_lookup_fmap in Hs by done.
    destruct (seq 0 PARALLELISM_DEGREE !! i) as [j|] eqn:Ej; [|done].
    apply lookup_seq in Ej as [-> _]. injection Hs as <-. apply holds_init.
Qed.

(** A pass over the leaves that gives leaf [i] the bytes [g i]. *)
Lemma each_leaf_spec {A} (F : nat -> state -> option A) (P : nat -> state -> Prop) (Q : nat -> A -> Prop) L j :
  (forall i s, L !! i = Some s -> P (j + i)%nat s) ->
  (forall i s, (j <= i < j + length L)%nat -> P i s -> exists a, F i s = Some a /\ Q i a) ->
  exists r, each_leaf F j L = Some r /\ length r = length L /\
    forall i a, r !! i = Some a -> Q (j + i)%nat a.
Proof.
  revert j. induction L as [|s L IH]; intros j HP HF; cbn [each_leaf].
  - exists []. done.
  - destruct (HF j s) as (a & Ea & Ha); [cbn; lia | |].
    { rewrite <- (Nat.add_0_r j). by apply HP. }
    destruct (IH (j + 1)%nat) as (r & Er & Hl & Hr).
    { intros i s' Hs'. replace (j + 1 + i)%nat with (j + S i)%nat by lia. by apply HP. }
    { intros i s' Hi. apply HF. cbn. lia. }
    exists (a :: r). rewrite Ea. cbn [mbind option_bind]. rewrite Er. cbn [mbind option_bind length].
    split; [done|]. split; [by rewrite Hl|]. intros [|i] a' Hi.
    + injection Hi as <-. by rewrite Nat.add_0_r.
    + replace (j + S i)%nat with (j + 1 + i)%nat by lia. by apply Hr.
Qed.

Lemma leaves_update outlen keylen kb f g (F : nat -> state -> option state) L :
  leaves_hold outlen keylen kb f L ->
  (forall i s k x ln D, (i < PARALLELISM_DEGREE)%nat -> holds x ln D k s ->
    exists s' k', F i s = Some s' /\ holds x ln (D ++ g i) k' s') ->
  exists L', each_leaf F 0 L = Some L' /\ leaves_hold outlen keylen kb (fun i => f i ++ g i) L'.
Proof.
  intros [HL Hh] HF.
  destruct (each_leaf_spec F
    (fun i s => exists k, holds (h (init_leaf outlen keylen (Z.of_nat i))) (is_last i) (kb ++ f i) k s)
    (fun i s => exists k, holds (h (init_leaf outlen keylen (Z.of_nat i))) (is_last i) (kb ++ f i ++ g i) k s)
    L 0) as (r & Er & Hl & Hr).
  - intros i s Hs. by apply Hh.
  - intros i s Hi (k & Hs). destruct (HF i s k _ _ _ ltac:(lia) Hs) as (s' & k' & E & Hs').
    exists s'. split; [done|]. exists k'. by rewrite app_assoc.
  - exists r. split; [done|]. split; [by rewrite Hl|]. exact Hr.
Qed.

Lemma leaves_hold_ext outlen keylen kb f g L :
  (forall i, (i < PARALLELISM_DEGREE)%nat -> f i = g i) ->
  leaves_hold outlen keylen kb f L -> leaves_hold outlen keylen kb g L.
Proof.
  intros Hfg [HL Hh]. split; [done|]. intros i s Hs. pose proof (lookup_lt_Some _ _ _ Hs).
  rewrite <- Hfg by lia. by apply Hh.
Qed.

Lemma stripe_loop_spec i x ln D k s fuel X :
  holds x ln D k s -> (length X < fuel)%nat ->
  exists s' k', stripe_loop fuel i s X = Some s' /\ holds x ln (D ++ stripes X i (length X / STRIPE)) k' s'.
Proof.
  pose proof stripe_pos. revert D k s X. induction fuel as [|fuel IH]; intros D k s X HS Hf; [lia|].
  cbn [stripe_loop]. destruct (Nat.leb_spec STRIPE (length X)).
  - destruct (update_spec x ln s D k (block_at X i) HS) as (s1 & k1 & E1 & HS1).
    rewrite E1. cbn [mbind option_bind].
    destruct (IH _ _ _ (drop STRIPE X) HS1) as (s' & k' & E' & HS'); [rewrite length_drop; lia|].
    exists s', k'. split; [done|].
    assert (length X / STRIPE = S (length (drop STRIPE X) / STRIPE))%nat as ->.
    { rewrite length_drop. replace (length X) with (length X - STRIPE + 1 * STRIPE)%nat at 1 by lia.
      rewrite Nat.div_add by lia. lia. }
    cbn [stripes]. by rewrite app_assoc.
  - exists s, k. split; [done|]. rewrite Nat.div_small by done. cbn [stripes]. by rewrite app_nil_r.
Qed.

Lemma leaf_rest_spec i x ln D k s p n X :
  holds x ln D k s -> take n p = X -> (n <= length p)%nat -> (i < PARALLELISM_DEGREE)%nat ->
  exists s' k', leaf_rest i p n s = Some s' /\ holds x ln (D ++ block_at X i) k' s'.
Proof.
  intros HS HX Hn Hi. unfold leaf_rest.
  destruct (Nat.ltb_spec (i * BLOCKBYTES) n).
  - assert (take (if (BLOCKBYTES <? n - i * BLOCKBYTES)%nat then BLOCKBYTES else (n - i * BLOCKBYTES)%nat)
      (drop (i * BLOCKBYTES) p) = block_at X i) as ->.
    { unfold block_at. rewrite <- HX.
      assert (drop (i * BLOCKBYTES) (take n p) = take (n - i * BLOCKBYTES) (drop (i * BLOCKBYTES) p)) as ->
        by (rewrite take_drop_commute; do 2 f_equal; lia).
      rewrite take_take. f_equal.
      destruct (Nat.ltb_spec BLOCKBYTES (n - i * BLOCKBYTES)); lia. }
    eapply update_spec, HS.
  - exists s, k. split; [done|]. unfold block_at. rewrite drop_ge by (rewrite <- HX, length_take; lia).
    by rewrite take_nil, app_nil_r.
Qed.

(** ** The streaming interface *)

(** What the state holds after the key [kb] and the data [D]: whole stripes in
    the leaves, less than a stripe in the buffer. *)
Definition pholds (outlen keylen : Z) (kb D : list Z) (S : pstate) : Prop :=
  exists D1 X m k, D = D1 ++ X /\ length D1 = (m * STRIPE)%nat /\ (length X < STRIPE)%nat /\
    leaves_hold outlen keylen kb (fun i => stripes D1 i m) (leaves S) /\
    pbuflen S = length X /\ length (pbuf S) = STRIPE /\ take (pbuflen S) (pbuf S) = X /\
    holds (h (init_root outlen keylen)) 1 [] k (root S).

Lemma pholds_init outlen keylen kb L :
  leaves_hold outlen keylen kb (fun _ => []) L ->
  pholds outlen keylen kb [] (Pstate L (with_last_node 1 (init_root outlen keylen)) (replicate STRIPE 0) 0).
Proof.
  intros HL. exists [], [], 0%nat, 0%nat. pose proof stripe_pos. split_and!; try done.
  - cbn [pbuf]. apply length_replicate.
  - apply holds_last_node, holds_init.
Qed.

Lemma key_leaves outlen keylen key keylen' :
  exists L, each_leaf (fun _ s => update s (key_block key keylen')) 0 (init_leaves outlen keylen) = Some L /\
    leaves_hold outlen keylen (key_block key keylen') (fun _ => []) L.
Proof.
  destruct (leaves_update outlen keylen [] (fun _ => []) (fun _ => key_block key keylen')
    (fun _ s => update s (key_block key keylen')) (init_leaves outlen keylen)) as (L & E & HL).
  - apply init_leaves_hold.
  - intros i s k x ln D _ HS. eapply update_spec, HS.
  - exists L. split; [done|]. destruct HL as [Hl Hh]. split; [done|]. intros i s Hs.
    destruct (Hh i s Hs) as (k & Hk). exists k. by rewrite app_nil_r.
Qed.

Lemma flush_spec outlen keylen kb D S input :
  pholds outlen keylen kb D S ->
  exists S' rest, flush S input = Some (S', rest) /\
    exists D', D' ++ rest = D ++ input /\ pholds outlen keylen kb D' S' /\
      (pbuflen S' = 0%nat \/ (pbuflen S' + length rest < STRIPE)%nat).
Proof.
  intros HS. pose proof HS as (D1 & X & m & k & -> & HD1 & HX & HL & Hbl & Hb & HbX & HR).
  pose proof stripe_pos. unfold flush. rewrite Hb.
  destruct (Nat.eqb_spec (pbuflen S) 0) as [E0|E0]; cbn [negb andb].
  { exists S, input. split; [done|]. exists (D1 ++ X). split; [done|]. split; [exact HS | by left]. }
  destruct (Nat.leb_spec (STRIPE - pbuflen S) (length input)).
  2:{ exists S, input. split; [done|]. exists (D1 ++ X). split; [done|]. split; [exact HS | right; lia]. }
  set (fill := (STRIPE - pbuflen S)%nat) in *.
  assert (memcpy (pbuf S) (pbuflen S) input fill = X ++ take fill input) as Em.
  { unfold memcpy. rewrite HbX. rewrite (drop_ge (pbuf S)) by lia. by rewrite app_nil_r. }
  rewrite Em.
  destruct (leaves_update outlen keylen kb (fun i => stripes D1 i m) (fun i => block_at (X ++ take fill input) i)
    (fun i s => update s (block_at (X ++ take fill input) i)) (leaves S)) as (L & EL & HL'); [done | |].
  { intros i s k' x ln D _ Hs. eapply update_spec, Hs. }
  rewrite EL. cbn [mbind option_bind]. eexists _, _. split; [reflexivity|].
  exists (D1 ++ X ++ take fill input). split; [by rewrite <- !app_assoc, take_drop|]. split; [|by left].
  assert (length (X ++ take fill input) = STRIPE) as El by (rewrite length_app, length_take; lia).
  exists (D1 ++ X ++ take fill input), [], (m + 1)%nat, k. split_and!; cbn [leaves root pbuf pbuflen]; try done.
  - by rewrite app_nil_r.
  - rewrite length_app, El. lia.
  - eapply leaves_hold_ext; [|exact HL']. intros i Hi. cbn beta.
    rewrite (stripes_app D1 _ i m 1) by done. cbn [stripes]. by rewrite app_nil_r.
Qed.

Lemma pupdate_spec outlen keylen kb D S input :
  pholds outlen keylen kb D S ->
  exists S', pupdate S input = Some S' /\ pholds outlen keylen kb (D ++ input) S'.
Proof.
  intros HS. pose proof stripe_pos. unfold pupdate.
  destruct (flush_spec outlen keylen kb D S input HS) as (S1 & rest & Ef & D' & ED & HS1 & Hle).
  rewrite Ef. cbn [mbind option_bind]. rewrite <- ED. clear Ef ED HS S D input.
  pose proof HS1 as (D1 & X & m & k & -> & HD1 & HX & HL & Hbl & Hb & HbX & HR).
  destruct (leaves_update outlen keylen kb (fun i => stripes D1 i m)
    (fun i => stripes rest i (length rest / STRIPE))
    (fun i s => stripe_loop (length rest + 1) i s rest) (leaves S1)) as (L & EL & HL'); [done | |].
  { intros i s k' x ln D Hi Hs. eapply stripe_loop_spec; [exact Hs | lia]. }
  rewrite EL. cbn [mbind option_bind]. eexists. split; [reflexivity|].
  pose proof (Nat.div_mod (length rest) STRIPE ltac:(lia)) as Edm.
  pose proof (Nat.mod_upper_bound (length rest) STRIPE ltac:(lia)) as Hmod.
  set (q := (length rest / STRIPE)%nat) in *. set (r := (length rest mod STRIPE)%nat) in *.
  set (Y := drop (length rest - r) rest).
  assert (length Y = r) as EY by (unfold Y; rewrite length_drop; lia).
  destruct Hle as [Hz|Hlt].
  - assert (X = []) as -> by (destruct X; [done | cbn in Hbl; lia]). rewrite app_nil_r.
    exists (D1 ++ take (length rest - r) rest), Y, (m + q)%nat, k.
    assert (length (take (length rest - r) rest) = (q * STRIPE)%nat) as Eq by (rewrite length_take; lia).
    split_and!; cbn [leaves root pbuf pbuflen]; try done.
    + unfold Y. by rewrite <- app_assoc, take_drop.
    + rewrite length_app, HD1, Eq. lia.
    + lia.
    + eapply leaves_hold_ext; [|exact HL']. intros i Hi. cbn beta.
      rewrite (stripes_app D1 _ i m q) by done. f_equal.
      rewrite <- (take_drop (length rest - r) rest) at 1. rewrite <- (Nat.add_0_r q).
      rewrite (stripes_app _ _ i q 0) by done. cbn [stripes]. by rewrite app_nil_r, Nat.add_0_r.
    + lia.
    + rewrite memcpy_length by lia. done.
    + rewrite Hz. cbn [Nat.add]. pose proof (memcpy_take (pbuf S1) 0 Y r ltac:(lia) ltac:(lia)) as E.
      cbn [Nat.add] in E. rewrite E. cbn [take app]. rewrite take_0. cbn [app]. by rewrite take_ge by lia.
  - assert (q = 0%nat) as Eq by (unfold q; apply Nat.div_small; lia).
    assert (r = length rest) as Er by lia.
    assert (Y = rest) as -> by (unfold Y; rewrite Er, Nat.sub_diag; done).
    exists D1, (X ++ rest), m, k. split_and!; cbn [leaves root pbuf pbuflen]; try done.
    + by rewrite app_assoc.
    + rewrite length_app. lia.
    + eapply leaves_hold_ext; [|exact HL']. intros i Hi. cbn beta. rewrite Eq. cbn [stripes]. by rewrite app_nil_r.
    + rewrite length_app. lia.
    + rewrite memcpy_length by lia. done.
    + rewrite memcpy_take by lia. rewrite HbX, take_ge by lia. done.
Qed.

(** The leaves finished, then the root. *)
Lemma root_final outlen keylen kb D root k hs :
  0 < outlen <= Z.of_nat OUTBYTES ->
  holds (h (init_root outlen keylen)) 1 [] k root ->
  hs = map (leaf_hash outlen keylen kb D) (seq 0 PARALLELISM_DEGREE) ->
  (R ← hash_leaves root hs; final R true outlen) = Some (tree_hash outlen keylen kb D).
Proof.
  intros Ho HR ->. unfold hash_leaves.
  destruct (feed_spec _ 1 (map (leaf_hash outlen keylen kb D) (seq 0 PARALLELISM_DEGREE)) root [] k HR)
    as (R & k' & E & HR').
  rewrite E. cbn [mbind option_bind]. by rewrite (final_spec _ _ _ _ _ outlen HR' Ho).
Qed.

Lemma outbytes_pos : 0 < Z.of_nat OUTBYTES.
Proof. pose proof bytes_range. unfold OUTBYTES. lia. Qed.

Lemma leaves_final outlen keylen kb D f (F : nat -> state -> option state) L :
  leaves_hold outlen keylen kb f L ->
  (forall i s k x ln D', (i < PARALLELISM_DEGREE)%nat -> holds x ln D' k s ->
    exists s' k' Y, F i s = Some s' /\ holds x ln (D' ++ Y) k' s' /\ f i ++ Y = leaf_data D i) ->
  each_leaf (fun i s => s ← F i s; final s true (Z.of_nat OUTBYTES)) 0 L
    = Some (map (leaf_hash outlen keylen kb D) (seq 0 PARALLELISM_DEGREE)).
Proof.
  intros [HL Hh] HF. pose proof outbytes_pos.
  destruct (each_leaf_spec (fun i s => s ← F i s; final s true (Z.of_nat OUTBYTES))
    (fun i s => exists k, holds (h (init_leaf outlen keylen (Z.of_nat i))) (is_last i) (kb ++ f i) k s)
    (fun i a => a = leaf_hash outlen keylen kb D i) L 0) as (r & Er & Hl & Hr).
  - intros i s Hs. by apply Hh.
  - intros i s Hi (k & Hs). destruct (HF i s k _ _ _ ltac:(lia) Hs) as (s' & k' & Y & E & Hs' & EY).
    eexists. rewrite E. cbn [mbind option_bind].
    split; [apply (final_spec _ _ _ _ _ _ Hs'); lia|]. unfold leaf_hash, hash. by rewrite <- app_assoc, EY.
  - rewrite Er. f_equal. apply list_eq. intros i. rewrite list_lookup_fmap.
    destruct (r !! i) as [a|] eqn:Ea.
    + pose proof (lookup_lt_Some _ _ _ Ea). rewrite lookup_seq_lt by lia. cbn.
      f_equal. apply (Hr i a Ea).
    + apply lookup_ge_None in Ea. rewrite lookup_seq_ge by lia. done.
Qed.

Lemma pfinal_spec outlen keylen kb D S :
  0 < outlen <= Z.of_nat OUTBYTES -> pholds outlen keylen kb D S ->
  pfinal S true outlen = Some (tree_hash outlen keylen kb D).
Proof.
  intros Ho (D1 & X & m & k & -> & HD1 & HX & HL & Hbl & Hb & HbX & HR). unfold pfinal.
  rewrite (leaves_final outlen keylen kb (D1 ++ X) (fun i => stripes D1 i m)
    (fun i s => leaf_rest i (pbuf S) (pbuflen S) s) (leaves S) HL).
  - cbn [mbind option_bind]. by eapply root_final.
  - intros i s k' x ln D' Hi Hs.
    destruct (leaf_rest_spec i x ln D' k' s (pbuf S) (pbuflen S) X Hs HbX ltac:(lia) Hi) as (s' & k'' & E & Hs').
    exists s', k'', (block_at X i). split; [done|]. split; [done|]. by rewrite (leaf_data_app D1 X i m).
Qed.

(** ** The interface *)

Definition pfeed (S : pstate) (chunks : list (list Z)) : option pstate :=
  foldl (fun o c => S ← o; pupdate S c) (Some S) chunks.

Lemma pfeed_spec outlen keylen kb chunks D S :
  pholds outlen keylen kb D S ->
  exists S', pfeed S chunks = Some S' /\ pholds outlen keylen kb (D ++ concat chunks) S'.
Proof.
  revert D S. induction chunks as [|c chunks IH]; intros D S HS.
  - exists S. cbn. by rewrite app_nil_r.
  - destruct (pupdate_spec outlen keylen kb D S c HS) as (S1 & E & HS1).
    destruct (IH _ _ HS1) as (S' & E' & HS'). exists S'.
    unfold pfeed in *. cbn [foldl]. cbn [mbind option_bind]. rewrite E.
    rewrite <- app_assoc in HS'. done.
Qed.

Lemma good_outlen outlen :
  0 < outlen <= Z.of_nat OUTBYTES -> (outlen =? 0) || (Z.of_nat OUTBYTES <? outlen) = false.
Proof. intros Ho. destruct (Z.eqb_spec outlen 0), (Z.ltb_spec (Z.of_nat OUTBYTES) outlen); (done || lia). Qed.

Lemma pstreaming_spec outlen chunks :
  0 < outlen <= Z.of_nat OUTBYTES ->
  (S ← pinit outlen; S ← pfeed S chunks; pfinal S true outlen)
    = Some (tree_hash outlen 0 [] (concat chunks)).
Proof.
  intros Ho. unfold pinit. rewrite good_outlen by done. cbn [mbind option_bind].
  destruct (pfeed_spec outlen 0 [] chunks [] _ (pholds_init _ _ _ _ (init_leaves_hold outlen 0)))
    as (S & E & HS).
  rewrite E. cbn [mbind option_bind]. by apply pfinal_spec.
Qed.

Lemma pstreaming_key_spec outlen key keylen chunks :
  0 < outlen <= Z.of_nat OUTBYTES -> 0 < keylen <= Z.of_nat KEYBYTES ->
  (S ← pinit_key outlen (Some key) keylen; S ← pfeed S chunks; pfinal S true outlen)
    = Some (tree_hash outlen keylen (key_block key keylen) (concat chunks)).
Proof.
  intros Ho Hk. unfold pinit_key. rewrite good_outlen by done.
  destruct (Z.eqb_spec keylen 0); [lia|]. destruct (Z.ltb_spec (Z.of_nat KEYBYTES) keylen); [lia|]. cbn [orb].
  destruct (key_leaves outlen keylen key keylen) as (L & EL & HL). rewrite EL. cbn [mbind option_bind].
  destruct (pfeed_spec outlen keylen _ chunks [] _ (pholds_init _ _ _ _ HL)) as (S & E & HS).
  rewrite E. cbn [mbind option_bind]. by apply pfinal_spec.
Qed.

(** One leaf of the one-shot function. *)
Lemma leaf_one_shot i x ln D k s X :
  (i < PARALLELISM_DEGREE)%nat -> holds x ln D k s ->
  exists s' k', (s ← stripe_loop (length X + 1) i s X;
      leaf_rest i (drop (length X - length X mod STRIPE) X) (length X mod STRIPE) s) = Some s' /\
    holds x ln (D ++ leaf_data X i) k' s'.
Proof.
  intros Hi HS. pose proof stripe_pos.
  pose proof (Nat.div_mod (length X) STRIPE ltac:(lia)). pose proof (Nat.mod_upper_bound (length X) STRIPE ltac:(lia)).
  set (q := (length X / STRIPE)%nat) in *. set (r := (length X mod STRIPE)%nat) in *.
  destruct (stripe_loop_spec i x ln D k s (length X + 1) X HS ltac:(lia)) as (s1 & k1 & E1 & HS1).
  rewrite E1. cbn [mbind option_bind]. fold q in HS1.
  set (Y := drop (length X - r) X).
  assert (length Y = r) as EY by (unfold Y; rewrite length_drop; lia).
  destruct (leaf_rest_spec i x ln _ k1 s1 Y r Y HS1 ltac:(rewrite take_ge by lia; done) ltac:(lia) Hi)
    as (s' & k' & E' & HS').
  exists s', k'. split; [done|]. rewrite <- app_assoc in HS'.
  assert (leaf_data X i = stripes X i q ++ block_at Y i) as ->; [|exact HS'].
  assert (length (take (length X - r) X) = (q * STRIPE)%nat) as Eq by (rewrite length_take; lia).
  rewrite <- (take_drop (length X - r) X) at 1. fold Y.
  rewrite (leaf_data_app _ _ i q) by (done || lia). f_equal.
  pose proof (stripes_app (take (length X - r) X) Y i q 0 Hi Eq) as Es. unfold Y in Es.
  rewrite take_drop, Nat.add_0_r in Es. cbn [stripes] in Es. by rewrite app_nil_r in Es.
Qed.

(** The one-shot function computes the same tree. *)
Lemma blake2p_error out input key outlen inlen keylen :
  bad_arguments out input key outlen inlen keylen -> blake2p out input key outlen inlen keylen = None.
Proof.
  unfold bad_arguments, blake2p.
  destruct input as [input|], out, key as [key|]; cbn [negb andb];
    destruct (Z.ltb_spec 0 inlen), (Z.ltb_spec 0 keylen), (Z.eqb_spec outlen 0),
      (Z.ltb_spec (Z.of_nat OUTBYTES) outlen), (Z.ltb_spec (Z.of_nat KEYBYTES) keylen); cbn [orb];
    intros Hbad; try reflexivity; exfalso;
    (destruct Hbad as [[? ?]|[?|[[? ?]|[?|[?|?]]]]]; (discriminate || lia)).
Qed.

Lemma blake2p_ok out input key outlen inlen keylen :
  0 <= outlen -> 0 <= inlen -> 0 <= keylen ->
  ~ bad_arguments out input key outlen inlen keylen ->
  blake2p out input key outlen inlen keylen =
    Some (tree_hash outlen keylen (key_prefix (default [] key) keylen) (take (Z.to_nat inlen) (default [] input))).
Proof.
  intros Ho Hi Hk Hg. unfold bad_arguments in Hg. destruct out; [|destruct Hg; auto]. unfold blake2p.
  assert (match input with None => true | Some _ => false end && (0 <? inlen) = false) as E1.
  { destruct input, (Z.ltb_spec 0 inlen); try reflexivity. destruct Hg; auto. }
  rewrite E1.
  assert (0 < outlen <= Z.of_nat OUTBYTES) as Ho'.
  { destruct (decide (outlen = 0)); [destruct Hg; auto|].
    destruct (decide (Z.of_nat OUTBYTES < outlen)); [destruct Hg; auto 6|]. lia. }
  rewrite good_outlen by done.
  destruct (Z.ltb_spec (Z.of_nat KEYBYTES) keylen); [destruct Hg; auto 7|].
  assert (match key with None => true | Some _ => false end && (0 <? keylen) = false) as E2.
  { destruct key, (Z.ltb_spec 0 keylen); try reflexivity. destruct Hg; auto. }
  rewrite E2. cbn [negb]. cbv zeta.
  set (X := take (Z.to_nat inlen) (default [] input)).
  assert (exists L, (if 0 <? keylen
      then each_leaf (fun _ s => update s (key_block (default [] key) keylen)) 0 (init_leaves outlen keylen)
      else Some (init_leaves outlen keylen)) = Some L /\
    leaves_hold outlen keylen (key_prefix (default [] key) keylen) (fun _ => []) L) as (L & EL & HL).
  { unfold key_prefix. destruct (0 <? keylen); [apply key_leaves|].
    exists (init_leaves outlen keylen). split; [done | apply init_leaves_hold]. }
  rewrite EL. cbn [mbind option_bind id].
  pose proof (leaves_final outlen keylen _ X _
    (fun i s => s ← stripe_loop (length X + 1) i s X;
      leaf_rest i (drop (length X - length X mod STRIPE) X) (length X mod STRIPE) s) L HL) as HF.
  assert (forall (F G : nat -> state -> option (list Z)) j L, (forall i s, F i s = G i s) ->
    each_leaf F j L = each_leaf G j L) as Hext.
  { clear. intros F G j L HFG. revert j. induction L as [|s L IH]; intros j; cbn [each_leaf]; [done|].
    rewrite HFG. destruct (G j s); [|done]. cbn [mbind option_bind]. by rewrite IH. }
  match goal with |- context [each_leaf ?F' 0 L] => rewrite (Hext F' (fun i s =>
    s ← (s ← stripe_loop (length X + 1) i s X;
      leaf_rest i (drop (length X - length X mod STRIPE) X) (length X mod STRIPE) s);
    final s true (Z.of_nat OUTBYTES)) 0%nat L) end.
  - rewrite HF.
    + cbn [mbind option_bind]. eapply root_final; [exact Ho' | eapply holds_last_node, holds_init | reflexivity].
    + intros i s k x ln D Hi' HS. destruct (leaf_one_shot i x ln D k s X Hi' HS) as (s' & k' & E & HS').
      exists s', k', (leaf_data X i). done.
  - intros i s. cbn beta. destruct (stripe_loop (length X + 1) i s X); cbn [mbind option_bind]; reflexivity.
Qed.

(** ** Properties *)

(** C37 [blake2bp] and [blake2sp] report an error exactly on bad arguments (NULL for the output, or for an input or a key that is not empty, and lengths
    that are not allowed); otherwise the digest has the length asked for and is the tree hash: the hash, as last node, of the digests of the leaves, each
    of which hashes the key block and its blocks of every stripe. *)
Theorem blake2p_correct out input key outlen inlen keylen : 0 <= outlen -> 0 <= inlen -> 0 <= keylen ->
  (bad_arguments out input key outlen inlen keylen <-> blake2p out input key outlen inlen keylen = None) /\
  (~ bad_arguments out input key outlen inlen keylen -> exists digest,
    blake2p out input key outlen inlen keylen = Some digest /\ Z.of_nat (length digest) = outlen /\
    digest = tree_hash outlen keylen (key_prefix (default [] key) keylen) (take (Z.to_nat inlen) (default [] input))).
Proof.
  intros Ho Hi Hk. pose proof (blake2p_ok out input key outlen inlen keylen Ho Hi Hk) as Hok. split.
  - split; [apply blake2p_error|]. intros HN. destruct (bad_arguments_dec out input key outlen inlen keylen) as [H|H];
      [done|]. by rewrite (Hok H) in HN.
  - intros Hb. eexists. split; [by apply Hok|]. split; [|done]. apply hash_length. unfold bad_arguments in Hb. lia.
Qed.

(** The incremental interface of the tree hashes computes, wherever the input is
    cut, what the one-shot function computes on the concatenation. *)
Lemma incremental_tree_correct chunks key outlen keylen :
  0 < outlen <= Z.of_nat OUTBYTES -> 0 < keylen <= Z.of_nat KEYBYTES ->
  let input := concat chunks in
  (S ← pinit outlen; S ← pfeed S chunks; pfinal S true outlen) =
    blake2p true (Some input) None outlen (Z.of_nat (length input)) 0 /\
  (S ← pinit_key outlen (Some key) keylen; S ← pfeed S chunks; pfinal S true outlen) =
    blake2p true (Some input) (Some key) outlen (Z.of_nat (length input)) keylen.
Proof.
  intros Ho Hk input. split.
  - rewrite pstreaming_spec, blake2p_ok, Nat2Z.id, firstn_all by (unfold bad_arguments; intuition (discriminate || lia)).
    reflexivity.
  - rewrite pstreaming_key_spec, blake2p_ok, Nat2Z.id, firstn_all by (unfold bad_arguments; intuition (discriminate || lia)).
    unfold key_prefix. rewrite (proj2 (Z.ltb_lt 0 keylen)) by lia. reflexivity.
Qed.
End tree.

Lemma blake2p_correct_witness : blake2bp false (Some [1; 2; 3]) None 64 3 0 = None /\
  exists digest, blake2bp true None (Some [7]) 64 0 1 = Some digest /\ Z.of_nat (length digest) = 64.
Proof.
  split.
  - apply (proj1 (blake2p_correct (V := blake2b_variant) (Dg := blake2bp_degree) false (Some [1; 2; 3]) None 64 3 0
      ltac:(lia) ltac:(lia) ltac:(lia))). by right; left.
  - destruct (proj2 (blake2p_correct (V := blake2b_variant) (Dg := blake2bp_degree) true None (Some [7]) 64 0 1
      ltac:(lia) ltac:(lia) ltac:(lia))) as (d & H1 & H2 & _).
    + unfold bad_arguments. intros [[? ?]|[?|[[? ?]|[?|[?|?]]]]]; discriminate.
    + by exists d.
Defined.

Lemma incremental_tree_correct_witness :
  (S ← pinit (V := blake2s_variant) (Dg := blake2sp_degree) 32; S ← pfeed (V := blake2s_variant) (Dg := blake2sp_degree) S [[1; 2]; []; [3]];
   pfinal (V := blake2s_variant) S true 32) =
    blake2sp true (Some [1; 2; 3]) None 32 3 0.
Proof.
  apply (proj1 (incremental_tree_correct (V := blake2s_variant) (Dg := blake2sp_degree) [[1; 2]; []; [3]] [5] 32 1
    ltac:(cbn; lia) ltac:(cbn; lia))).
Defined.

(** The start of each of the first keyed vectors of blake2-kat.h: the key 0, 1, 2, ... and no input. *)
Definition first_vector (hash : bool -> option (list Z) -> option (list Z) -> Z -> Z -> Z -> option (list Z))
  (outlen keylen : nat) : option (list Z) :=
  d ← hash true (Some []) (Some (count_up keylen)) (Z.of_nat outlen) 0 (Z.of_nat keylen); Some (take 8 d).

(** The four hash functions give the first vectors of the package's own known-answer test. *)
Lemma known_answers :
  first_vector blake2b 64 64 = Some [0x10; 0xEB; 0xB6; 0x77; 0x00; 0xB1; 0x86; 0x8E] /\
  first_vector blake2s 32 32 = Some [0x48; 0xA8; 0x99; 0x7D; 0xA4; 0x07; 0x87; 0x6B] /\
  first_vector blake2bp 64 64 = Some [0x9D; 0x94; 0x61; 0x07; 0x3E; 0x4E; 0xB6; 0x40] /\
  first_vector blake2sp 32 32 = Some [0x71; 0x5C; 0xB1; 0x38; 0x95; 0xAE; 0xB6; 0x78].
Proof. vm_compute. auto. Qed.
