(* ===== verification/Pcg.v ===== *)
(** * PCG random numbers (src/math/pcg-c-basic/pcg_basic.c) *)

From Stdlib Require Import ZArith Lia Znumtheory.
From stdpp Require Import base numbers list.
From S2P Require Import Prelude.

Open Scope Z_scope.

(** ** Code *)

Definition u64 (z : Z) : Z := z mod 18446744073709551616.
Definition w32 (z : Z) : Z := z mod 4294967296.

(** [struct pcg_state_setseq_64]. *)
Record pcg32_random_t : Type := Pcg { state : Z; inc : Z }.

Definition PCG32_INITIALIZER : pcg32_random_t := Pcg 0x853c49e6748fea9b 0xda3e39cb94b95bdb.

Definition multiplier : Z := 6364136223846793005.

(** The generator: the new state and the number returned. *)
Definition pcg32_random_r (rng : pcg32_random_t) : pcg32_random_t * Z :=
  let oldstate := state rng in
  let rng := Pcg (u64 (u64 (oldstate * multiplier) + inc rng)) (inc rng) in
  let xorshifted := w32 (Z.shiftr (Z.lxor (Z.shiftr oldstate 18) oldstate) 27) in
  let rot := w32 (Z.shiftr oldstate 59) in
  (rng, Z.lor (Z.shiftr xorshifted rot) (w32 (Z.shiftl xorshifted (Z.land (w32 (- rot)) 31)))).

Definition pcg32_srandom_r (initstate initseq : Z) : pcg32_random_t :=
  let rng := Pcg 0 (Z.lor (u64 (Z.shiftl initseq 1)) 1) in
  let rng := fst (pcg32_random_r rng) in
  let rng := Pcg (u64 (state rng + initstate)) (inc rng) in
  fst (pcg32_random_r rng).

(** [for (;;) {...}]: draw until a number reaches the threshold. *)
Fixpoint bounded_loop (fuel : nat) (rng : pcg32_random_t) (bound threshold : Z)
  : option (pcg32_random_t * Z) :=
  match fuel with
  | O => None
  | S fuel =>
      let (rng, r) := pcg32_random_r rng in
      if threshold <=? r then Some (rng, r mod bound) else bounded_loop fuel rng bound threshold
  end.

(** [None] when the fuel runs out, or when [bound] is 0: a division by zero. *)
Definition pcg32_boundedrand_r (fuel : nat) (rng : pcg32_random_t) (bound : Z)
  : option (pcg32_random_t * Z) :=
  if bound =? 0 then None else
  let threshold := w32 (- bound) mod bound in
  bounded_loop fuel rng bound threshold.

(** ** The global generator *)

(** [pcg32_global] is the state these functions thread. *)
Definition pcg32_srandom (seed seq : Z) : pcg32_random_t := pcg32_srandom_r seed seq.
Definition pcg32_random (pcg32_global : pcg32_random_t) : pcg32_random_t * Z := pcg32_random_r pcg32_global.
Definition pcg32_boundedrand (fuel : nat) (pcg32_global : pcg32_random_t) (bound : Z)
  : option (pcg32_random_t * Z) := pcg32_boundedrand_r fuel pcg32_global bound.

(** ** The invariant: words in range, and an odd increment *)

Record ok (rng : pcg32_random_t) : Prop := Ok_rng {
  ok_state : 0 <= state rng < 18446744073709551616;
  ok_inc : 0 <= inc rng < 18446744073709551616;
  ok_odd : inc rng mod 2 = 1
}.

Lemma u64_range z : 0 <= u64 z < 18446744073709551616.
Proof. apply Z.mod_pos_bound. lia. Qed.

Lemma initializer_ok : ok PCG32_INITIALIZER.
Proof. by split. Qed.

Lemma random_ok rng : ok rng -> ok (fst (pcg32_random_r rng)).
Proof. intros [H1 H2 H3]. split; cbn; [apply u64_range | done | done]. Qed.

Lemma lor_range n a b : 0 <= n -> 0 <= a < 2 ^ n -> 0 <= b < 2 ^ n -> 0 <= Z.lor a b < 2 ^ n.
Proof.
  intros Hn Ha Hb. split; [apply Z.lor_nonneg; lia|].
  destruct (decide (Z.lor a b = 0)) as [->|]; [apply Z.pow_pos_nonneg; lia|].
  assert (0 <= Z.lor a b) by (apply Z.lor_nonneg; lia).
  apply Z.log2_lt_pow2; [lia|]. rewrite Z.log2_lor by lia.
  assert (forall x, 0 <= x < 2 ^ n -> Z.log2 x < n \/ x = 0) as Hl.
  { intros x Hx. destruct (decide (x = 0)); [by right | left; apply Z.log2_lt_pow2; lia]. }
  destruct (Hl a Ha) as [?| ->], (Hl b Hb) as [?| ->]; try lia.
  - rewrite Z.max_l; [done | apply Z.log2_nonneg].
  - rewrite Z.max_r; [done | apply Z.log2_nonneg].
  - done.
Qed.

(** Every number returned is a 32-bit number. *)
Lemma random_range rng : 0 <= snd (pcg32_random_r rng) < 4294967296.
Proof.
  cbn [snd pcg32_random_r].
  set (x := w32 (Z.shiftr (Z.lxor (Z.shiftr (state rng) 18) (state rng)) 27)).
  set (r := w32 (Z.shiftr (state rng) 59)).
  assert (0 <= x < 4294967296) as Hx by (apply Z.mod_pos_bound; lia).
  assert (0 <= r < 4294967296) as Hr by (apply Z.mod_pos_bound; lia).
  change 4294967296 with (2 ^ 32). apply lor_range; [done | | apply Z.mod_pos_bound; done].
  rewrite Z.shiftr_div_pow2 by lia. pose proof (Z.pow_pos_nonneg 2 r ltac:(lia) ltac:(lia)).
  split; [apply Z.div_pos; lia|]. apply Z.div_lt_upper_bound; nia.
Qed.

Lemma srandom_ok initstate initseq : ok (pcg32_srandom_r initstate initseq).
Proof.
  unfold pcg32_srandom_r. apply random_ok. split; cbn [state inc]; [apply u64_range | |].
  - cbn [inc fst pcg32_random_r]. change 18446744073709551616 with (2 ^ 64).
    apply lor_range; [done | apply u64_range | done].
  - cbn [inc fst pcg32_random_r]. rewrite Zmod_odd, <- Z.bit0_odd, Z.lor_spec. by rewrite orb_true_r.
Qed.

(** ** Bounded numbers *)

(** The comment of the source: the threshold is 2^32 modulo the bound. *)
Lemma threshold_spec bound : 0 < bound < 4294967296 -> w32 (- bound) mod bound = 4294967296 mod bound.
Proof.
  intros Hb. unfold w32. replace (- bound) with (4294967296 - bound + (-1) * 4294967296) by lia.
  rewrite Z.mod_add, (Z.mod_small (4294967296 - bound)) by lia.
  replace (4294967296 - bound) with (4294967296 + (-1) * bound) by lia. by rewrite Z.mod_add by lia.
Qed.

Lemma bounded_loop_range fuel rng bound threshold rng' r :
  0 < bound -> ok rng -> bounded_loop fuel rng bound threshold = Some (rng', r) ->
  ok rng' /\ 0 <= r < bound.
Proof.
  intros Hb. revert rng. induction fuel as [|fuel IH]; intros rng Hok; cbn [bounded_loop]; [done|].
  pose proof (random_ok rng Hok) as Hok'. destruct (pcg32_random_r rng) as [rng1 d]. cbn [fst] in Hok'.
  destruct (Z.leb_spec threshold d); [|by apply IH].
  intros [= -> <-]. split; [done | by apply Z.mod_pos_bound].
Qed.

(** No bias: among the draws that are kept, every result has the same number of
    preimages, one in each of [(2^32 - threshold) / bound] intervals. *)
Lemma unbiased bound v d :
  0 < bound < 4294967296 -> 0 <= v < bound ->
  let threshold := w32 (- bound) mod bound in
  let n := (4294967296 - threshold) / bound in
  (threshold <= d < 4294967296 /\ d mod bound = v) <->
  exists q, 0 <= q < n /\ d = threshold + q * bound + (v - threshold) mod bound.
Proof.
  intros Hb Hv. cbn zeta. rewrite threshold_spec by done. set (t := 4294967296 mod bound).
  pose proof (Z.div_mod 4294967296 bound ltac:(lia)) as E. fold t in E.
  pose proof (Z.mod_pos_bound 4294967296 bound ltac:(lia)) as Ht. fold t in Ht.
  set (n := 4294967296 / bound) in *.
  assert ((4294967296 - t) / bound = n) as ->.
  { replace (4294967296 - t) with (n * bound) by lia. apply Z.div_mul. lia. }
  pose proof (Z.mod_pos_bound (v - t) bound ltac:(lia)) as Hm.
  pose proof (Z.div_mod (v - t) bound ltac:(lia)) as Em.
  set (m := (v - t) mod bound) in *. split.
  - intros [Hd Hdv]. pose proof (Z.div_mod d bound ltac:(lia)) as Ed. rewrite Hdv in Ed.
    exists ((d - t - m) / bound).
    assert (d - t - m = (d / bound + (v - t) / bound) * bound) as Eq by lia.
    rewrite Eq, Z.div_mul by lia. nia.
  - intros (q & Hq & ->). split; [nia|].
    replace (t + q * bound + m) with (v + (q - (v - t) / bound) * bound) by lia.
    rewrite Z.mod_add by lia. by apply Z.mod_small.
Qed.

(** ** Termination: the generator has full period *)

(** [1 + a + ... + a^(n-1)]. *)
Fixpoint geometric (a : Z) (n : nat) : Z :=
  match n with O => 0 | S n => 1 + a * geometric a n end.

Lemma geometric_add a m n : geometric a (m + n) = geometric a m + a ^ Z.of_nat m * geometric a n.
Proof.
  induction m as [|m IH]; cbn [geometric Nat.add]; [rewrite Z.pow_0_r; lia|].
  rewrite IH, Nat2Z.inj_succ, Z.pow_succ_r by lia. lia.
Qed.

Lemma pow_mod4 a n : a mod 4 = 1 -> a ^ Z.of_nat n mod 4 = 1.
Proof.
  intros Ha. induction n as [|n IH]; [done|]. rewrite Nat2Z.inj_succ, Z.pow_succ_r by lia.
  by rewrite Z.mul_mod, Ha, IH by lia.
Qed.

(** The sum of [2^k] terms is [2^k] times an odd number. *)
Lemma geometric_pow2 a k : a mod 4 = 1 -> exists o, geometric a (2 ^ k)%nat = 2 ^ Z.of_nat k * (2 * o + 1).
Proof.
  intros Ha. induction k as [|k (o & IH)].
  - exists 0. cbn. lia.
  - replace (2 ^ S k)%nat with (2 ^ k + 2 ^ k)%nat by (cbn; lia). rewrite geometric_add, IH.
    pose proof (pow_mod4 a (2 ^ k) Ha) as Hp. set (p := a ^ Z.of_nat (2 ^ k)) in *.
    pose proof (Z.div_mod p 4 ltac:(lia)) as Ep. rewrite Hp in Ep.
    set (p' := p / 4) in *. exists (p' * (2 * o + 1) + o). rewrite Nat2Z.inj_succ, Z.pow_succ_r by lia.
    rewrite Ep. ring.
Qed.

(** Odd multiples of the sums reach every residue modulo a power of two. *)
Lemma geometric_reaches a c k y : a mod 4 = 1 -> c mod 2 = 1 ->
  exists n, (c * geometric a n - y) mod 2 ^ Z.of_nat k = 0.
Proof.
  intros Ha Hc. induction k as [|k (n & IH)].
  - exists 0%nat. apply Z.mod_1_r.
  - rewrite Nat2Z.inj_succ, Z.pow_succ_r by lia. pose proof (Z.pow_pos_nonneg 2 (Z.of_nat k) ltac:(lia) ltac:(lia)) as Hp.
    set (P := 2 ^ Z.of_nat k) in *.
    assert (exists q, c * geometric a n - y = P * q) as (q & Eq).
    { exists ((c * geometric a n - y) / P). pose proof (Z.div_mod (c * geometric a n - y) P ltac:(lia)). lia. }
    destruct (decide (q mod 2 = 0)) as [E|E].
    + exists n. rewrite Eq. pose proof (Z.div_mod q 2 ltac:(lia)).
      replace (P * q) with (q / 2 * (2 * P)) by lia. apply Z.mod_mul. lia.
    + exists (n + 2 ^ k)%nat. rewrite geometric_add. destruct (geometric_pow2 a k Ha) as (o & ->). fold P.
      pose proof (pow_mod4 a n Ha) as Hn. set (p := a ^ Z.of_nat n) in *.
      pose proof (Z.div_mod p 4 ltac:(lia)) as Ep. rewrite Hn in Ep.
      pose proof (Z.div_mod c 2 ltac:(lia)) as Ec. rewrite Hc in Ec.
      pose proof (Z.div_mod q 2 ltac:(lia)) as Eq2. pose proof (Z.mod_pos_bound q 2 ltac:(lia)).
      assert (q mod 2 = 1) as E1 by lia. rewrite E1 in Eq2.
      set (c' := c / 2) in *. set (p' := p / 4) in *. set (q' := q / 2) in *.
      replace (c * (geometric a n + p * (P * (2 * o + 1))) - y)
        with ((q' + 1 + 2 * p' * c * (2 * o + 1) + c' * (2 * o + 1) + o) * (2 * P)).
      * apply Z.mod_mul. lia.
      * transitivity (P * q + c * p * (P * (2 * o + 1))); [|rewrite <- Eq; ring].
        rewrite Eq2, Ep, Ec. ring.
Qed.

Definition steps (n : nat) (rng : pcg32_random_t) : pcg32_random_t :=
  Nat.iter n (fun rng => fst (pcg32_random_r rng)) rng.

Lemma steps_inc n rng : inc (steps n rng) = inc rng.
Proof. induction n as [|n IH]; [done | exact IH]. Qed.

Lemma steps_S n rng : steps (S n) rng = fst (pcg32_random_r (steps n rng)).
Proof. reflexivity. Qed.

Lemma steps_state n rng : ok rng ->
  state (steps n rng) =
    u64 (state rng + ((multiplier - 1) * state rng + inc rng) * geometric multiplier n).
Proof.
  intros [H1 H2 H3]. induction n as [|n IH].
  - cbn [steps Nat.iter geometric]. rewrite Z.mul_0_r, Z.add_0_r. symmetry. by apply Z.mod_small.
  - rewrite steps_S. cbn [fst pcg32_random_r state]. rewrite steps_inc, IH.
    unfold u64. rewrite Z.mul_mod_idemp_l, Z.add_mod_idemp_l by lia. f_equal. cbn [geometric].
    generalize multiplier, (geometric multiplier n), (state rng), (inc rng). intros. ring.
Qed.

(** The generator reaches every state. *)
Lemma full_period rng y : ok rng -> 0 <= y < 18446744073709551616 -> exists n, state (steps n rng) = y.
Proof.
  intros Hok Hy. pose proof Hok as [H1 H2 H3].
  destruct (geometric_reaches multiplier ((multiplier - 1) * state rng + inc rng) 64 (y - state rng)) as (n & Hn).
  - reflexivity.
  - rewrite Z.add_mod, Z.mul_mod by lia. change ((multiplier - 1) mod 2) with 0. by rewrite H3.
  - exists n. rewrite steps_state by done. unfold u64.
    change (2 ^ Z.of_nat 64) with 18446744073709551616 in Hn.
    pose proof (Z.div_mod (((multiplier - 1) * state rng + inc rng) * geometric multiplier n - (y - state rng))
      18446744073709551616 ltac:(lia)) as E.
    rewrite Hn in E. set (q := _ / 18446744073709551616) in E.
    replace (state rng + ((multiplier - 1) * state rng + inc rng) * geometric multiplier n)
      with (y + q * 18446744073709551616) by lia.
    rewrite Z.mod_add by lia. by apply Z.mod_small.
Qed.

(** A state from which the number drawn is the largest. *)
Definition best_state : Z := 0x07fffe0000000000.
Lemma best_state_draw rng : state rng = best_state -> snd (pcg32_random_r rng) = 4294967295.
Proof. intros E. cbn [snd pcg32_random_r]. by rewrite E. Qed.

Lemma bounded_loop_stops n rng bound threshold :
  threshold <= snd (pcg32_random_r (steps n rng)) ->
  exists res, bounded_loop (S n) rng bound threshold = Some res.
Proof.
  revert rng. induction n as [|n IH]; intros rng Hd; cbn [bounded_loop].
  - change (steps 0 rng) with rng in Hd. destruct (pcg32_random_r rng) as [rng1 d]. cbn [snd] in Hd.
    destruct (Z.leb_spec threshold d); [by eexists | lia].
  - destruct (pcg32_random_r rng) as [rng1 d] eqn:E. destruct (threshold <=? d); [by eexists|].
    apply IH. unfold steps in Hd. rewrite Nat.iter_succ_r in Hd. by rewrite E in Hd.
Qed.

Lemma boundedrand_returns rng bound : ok rng -> 0 < bound < 4294967296 ->
  exists fuel rng' r, pcg32_boundedrand_r fuel rng bound = Some (rng', r) /\ ok rng' /\ 0 <= r < bound.
Proof.
  intros Hok Hb. destruct (full_period rng best_state Hok ltac:(by unfold best_state)) as (n & Hn).
  pose proof (Z.mod_pos_bound (w32 (- bound)) bound ltac:(lia)) as Ht.
  set (threshold := w32 (- bound) mod bound) in *.
  destruct (bounded_loop_stops n rng bound threshold) as ([rng' r] & E).
  { rewrite (best_state_draw _ Hn). lia. }
  exists (S n), rng', r. unfold pcg32_boundedrand_r. destruct (Z.eqb_spec bound 0); [lia|].
  split; [exact E|]. eapply bounded_loop_range; [|exact Hok | exact E]. lia.
Qed.

(** More fuel gives the same result. *)
Lemma bounded_loop_fuel k fuel : forall rng bound threshold res,
  bounded_loop fuel rng bound threshold = Some res -> bounded_loop (fuel + k) rng bound threshold = Some res.
Proof.
  induction fuel as [|fuel IH]; intros rng bound threshold res H; [done|].
  cbn [bounded_loop Nat.add] in *. destruct (pcg32_random_r rng) as [rng1 r].
  destruct (threshold <=? r); [done | by apply IH].
Qed.

Lemma boundedrand_fuel k fuel rng bound res :
  pcg32_boundedrand_r fuel rng bound = Some res -> pcg32_boundedrand_r (fuel + k) rng bound = Some res.
Proof. unfold pcg32_boundedrand_r. destruct (bound =? 0); [done|]. apply bounded_loop_fuel. Qed.

(** ** Properties *)

(** The state of the generator is well formed in every state it can be in (64-bit,
    with an odd increment): the static initializer, seeding with any values and every
    draw establish or keep this, and every draw is a 32-bit number. *)
Lemma generator_invariant :
  ok PCG32_INITIALIZER /\
  (forall initstate initseq, ok (pcg32_srandom_r initstate initseq)) /\
  (forall rng, ok rng -> ok (fst (pcg32_random_r rng)) /\ 0 <= snd (pcg32_random_r rng) < 4294967296).
Proof.
  split; [exact initializer_ok|]. split; [exact srandom_ok|].
  intros rng H. split; [by apply random_ok | apply random_range].
Qed.

(** [pcg32_boundedrand_r] returns: from every state its rejection loop ends, with a
    number below the bound and a well-formed state. *)
Lemma boundedrand_total rng bound : ok rng -> 0 < bound < 4294967296 ->
  exists fuel rng' r, (forall n, pcg32_boundedrand_r (fuel + n) rng bound = Some (rng', r)) /\
    ok rng' /\ 0 <= r < bound.
Proof.
  intros Hr Hb. destruct (boundedrand_returns rng bound Hr Hb) as (fuel & rng' & r & H & Hok & Hrange).
  exists fuel, rng', r. split; [|done]. intros n. by apply boundedrand_fuel.
Qed.

Lemma boundedrand_total_witness :
  exists fuel rng' r, (forall n, pcg32_boundedrand_r (fuel + n) PCG32_INITIALIZER 6 = Some (rng', r)) /\
    ok rng' /\ 0 <= r < 6.
Proof. apply boundedrand_total; [exact initializer_ok | lia]. Defined.

(** The number drawn after [i] others. *)
Definition draw (rng : pcg32_random_t) (i : nat) : Z := snd (pcg32_random_r (steps i rng)).

Lemma bounded_loop_first k : forall rng bound threshold rng' r, bounded_loop k rng bound threshold = Some (rng', r) ->
  exists i, (i < k)%nat /\ (forall j, (j < i)%nat -> draw rng j < threshold) /\ threshold <= draw rng i /\
    rng' = steps (S i) rng /\ r = draw rng i mod bound.
Proof.
  induction k as [|k IH]; intros rng bound threshold rng' r; cbn [bounded_loop]; [done|].
  assert (forall j, draw rng (S j) = draw (fst (pcg32_random_r rng)) j) as Hd by (intros j; unfold draw, steps; by rewrite Nat.iter_succ_r).
  assert (draw rng 0 = snd (pcg32_random_r rng) /\ forall i, steps (S i) rng = steps i (fst (pcg32_random_r rng))) as [H0 Hs]
    by (split; [done | intros i; unfold steps; by rewrite Nat.iter_succ_r]).
  destruct (pcg32_random_r rng) as [rng1 d]. cbn [fst snd] in *. destruct (Z.leb_spec threshold d) as [Ht|Ht].
  - intros [= <- <-]. exists 0%nat. rewrite H0, Hs. split_and!; (done || lia).
  - intros (i & Hi & Hj & Hti & -> & ->)%IH. exists (S i). rewrite Hd, (Hs (S i)). split_and!; [lia | | done | done | done].
    intros [|j] Hji; [by rewrite H0|]. rewrite Hd. apply Hj. lia.
Qed.

(** C38 [pcg32_boundedrand_r] is unbiased: it gives the remainder of the first of the following draws that is not below 2^32 modulo the bound, the
    state is the one behind this draw; and of the draws that it accepts the same number give each result below the bound. *)
Theorem boundedrand_unbiased rng bound : ok rng -> 0 < bound < 4294967296 ->
  let threshold := 4294967296 mod bound in
  (exists i fuel, (forall j, (j < i)%nat -> draw rng j < threshold) /\ threshold <= draw rng i /\
    forall n, (fuel <= n)%nat -> pcg32_boundedrand_r n rng bound = Some (steps (S i) rng, draw rng i mod bound)) /\
  (forall v, 0 <= v < bound -> exists first, 0 <= first /\
    forall d, (threshold <= d < 4294967296 /\ d mod bound = v) <->
      exists q, 0 <= q < 4294967296 / bound /\ d = first + q * bound).
Proof.
  intros Hr Hb threshold. split.
  - destruct (boundedrand_returns rng bound Hr Hb) as (fuel & rng' & r & H & _). pose proof H as H1. unfold pcg32_boundedrand_r in H1.
    destruct (bound =? 0); [done|]. rewrite threshold_spec in H1 by done. destruct (bounded_loop_first _ _ _ _ _ _ H1) as (i & _ & Hj & Hi & -> & ->).
    exists i, fuel. split_and!; [done | done |]. intros n Hn. replace n with (fuel + (n - fuel))%nat by lia. by apply boundedrand_fuel.
  - intros v Hv. exists (threshold + (v - threshold) mod bound).
    pose proof (Z.mod_pos_bound 4294967296 bound ltac:(lia)) as Ht. fold threshold in Ht.
    split; [pose proof (Z.mod_pos_bound (v - threshold) bound); lia|].
    intros d. pose proof (unbiased bound v d Hb Hv) as H. cbn zeta in H. rewrite (threshold_spec bound Hb) in H. fold threshold in H.
    replace ((4294967296 - threshold) / bound) with (4294967296 / bound) in H.
    + rewrite H. split; intros (q & Hq & ->); exists q; lia.
    + pose proof (Z.div_mod 4294967296 bound ltac:(lia)) as E. fold threshold in E.
      replace (4294967296 - threshold) with (4294967296 / bound * bound) by lia. by rewrite Z.div_mul by lia.
Qed.

Lemma boundedrand_unbiased_witness : exists i fuel, forall n, (fuel <= n)%nat ->
  pcg32_boundedrand_r n PCG32_INITIALIZER 3000000000 = Some (steps (S i) PCG32_INITIALIZER, draw PCG32_INITIALIZER i mod 3000000000).
Proof.
  destruct (boundedrand_unbiased PCG32_INITIALIZER 3000000000 initializer_ok ltac:(lia)) as ((i & fuel & _ & _ & H) & _). by exists i, fuel.
Defined.

(** C39 The generator has full period: from any well-formed state every one of the
    2^64 states is reached. *)
Theorem every_state_reached rng y : ok rng -> 0 <= y < 18446744073709551616 ->
  exists n, state (steps n rng) = y /\ inc (steps n rng) = inc rng.
Proof.
  intros Hr Hy. destruct (full_period rng y Hr Hy) as (n & Hn). exists n. split; [done | apply steps_inc].
Qed.

Lemma every_state_reached_witness :
  exists n, state (steps n PCG32_INITIALIZER) = 0 /\ inc (steps n PCG32_INITIALIZER) = inc PCG32_INITIALIZER.
Proof. apply (every_state_reached PCG32_INITIALIZER 0 initializer_ok). lia. Defined.
