(* ===== verification/Atto.v ===== *)
(** * Atto: the state of the editor (src/editors/atto/header.h, data.c)

    A buffer is a gap buffer: a block of memory with a gap; the text is what
    lies before the gap and what lies after it.  Pointers into the block are
    offsets from [b_buf], [b_ebuf] is the length of the block, and buffers and
    windows are records in a store indexed by their addresses.

    What the code relies on from outside is the class [machine]: the screen
    size of curses, whether malloc succeeds, what fresh memory contains, and what
    is found at [b_ebuf], one byte behind the block, which several functions read. *)

From Stdlib Require Import ZArith Lia.
From stdpp Require Import base numbers list gmap strings.
From S2P Require Import Prelude.

Open Scope Z_scope.

(** ** Constants *)

Definition NULL : Z := 0.
Definition NOMARK : Z := -1.
Definition B_MODIFIED : Z := 1.
Definition B_OVERWRITE : Z := 2.
Definition CHUNK : Z := 8096.
Definition MIN_GAP_EXPAND : Z := 512.
Definition K_BUFFER_LENGTH : Z := 256.
Definition STRBUF_M : Z := 64.
Definition STRBUF_S : Z := 16.
Definition NAME_MAX : Z := 255.

(** ** The machine *)

Class machine := Machine {
  COLS : Z;
  LINES : Z;
  alloc_ok : Z -> bool;     (** malloc or realloc of so many bytes succeeds *)
  junk : Z -> Z;            (** the bytes of fresh memory *)
  behind : option Z;        (** the byte at [b_ebuf]; [None]: reading it is a fault *)
  unctrl : Z -> list Z;     (** curses' name of a character that is not printable *)
  sizeof_buffer_t : Z;
  sizeof_window_t : Z;
  junk_name : list Z;       (** the [b_bname] of a fresh [buffer_t] *)
  junk_numbers : nat -> Z;  (** other fields of fresh structures that are not initialized *)
  can_read : list Z -> bool;     (** [fopen(fn, "r")] of a file that exists *)
  can_write : list Z -> bool;    (** [fopen(fn, "w")] *)
  written : list Z -> nat;       (** how many of the bytes [fwrite] writes *)
  can_close : list Z -> bool
}.

(** ** Data *)

Record undo_t := Undo { u_point : Z; u_gap : Z; u_egap : Z }.

(** [b_mem] is the block from [b_buf] to [b_ebuf]; [] is the NULL block of a new buffer. *)
Record buffer := Buffer {
  b_next : Z;
  b_mark : Z;
  b_point : Z;
  b_cpoint : Z;
  b_page : Z;
  b_epage : Z;
  b_cnt : Z;
  b_size : Z;
  b_psize : Z;
  b_mem : list Z;
  b_gap : Z;
  b_egap : Z;
  b_row : Z;
  b_col : Z;
  b_fname : list Z;
  b_bname : list Z;
  b_flags : Z;
  b_ubuf : undo_t
}.

Record window := Window {
  w_next : Z;
  w_bufp : Z;
  w_point : Z;
  w_mark : Z;
  w_page : Z;
  w_epage : Z;
  w_top : Z;
  w_rows : Z;
  w_row : Z;
  w_col : Z;
  w_update : bool
}.

(** The message line: a format, by its name in data.c where it has one, and its arguments. *)
Inductive msg_arg := Int_arg (n : Z) | Str_arg (s : list Z).
Record message := Message { m_format : string; m_args : list msg_arg }.

(** The globals of data.c, the store, the keyboard (an endless stream of which [nkey]
    characters are read) and the files. *)
Record editor := Editor {
  buffers : gmap Z buffer;
  windows : gmap Z window;
  curbp : Z;
  bheadp : Z;
  curwp : Z;
  wheadp : Z;
  brk : Z;
  win_cnt : Z;
  done : bool;
  scrap : option (list Z);
  nscrap : Z;
  input : Z;
  msgflag : bool;
  msgline : message;
  temp : list Z;
  searchtext : list Z;
  replace_ : list Z;
  keys : nat -> Z;
  nkey : nat;
  files : gmap (list Z) (list Z)
}.

(** *** Field updates *)

Definition with_next (x : Z) (r : buffer) : buffer :=
  Buffer x (b_mark r) (b_point r) (b_cpoint r) (b_page r) (b_epage r) (b_cnt r) (b_size r) (b_psize r) (b_mem r)
    (b_gap r) (b_egap r) (b_row r) (b_col r) (b_fname r) (b_bname r) (b_flags r) (b_ubuf r).
Definition with_mark (x : Z) (r : buffer) : buffer :=
  Buffer (b_next r) x (b_point r) (b_cpoint r) (b_page r) (b_epage r) (b_cnt r) (b_size r) (b_psize r) (b_mem r)
    (b_gap r) (b_egap r) (b_row r) (b_col r) (b_fname r) (b_bname r) (b_flags r) (b_ubuf r).
Definition with_point (x : Z) (r : buffer) : buffer :=
  Buffer (b_next r) (b_mark r) x (b_cpoint r) (b_page r) (b_epage r) (b_cnt r) (b_size r) (b_psize r) (b_mem r)
    (b_gap r) (b_egap r) (b_row r) (b_col r) (b_fname r) (b_bname r) (b_flags r) (b_ubuf r).
Definition with_cpoint (x : Z) (r : buffer) : buffer :=
  Buffer (b_next r) (b_mark r) (b_point r) x (b_page r) (b_epage r) (b_cnt r) (b_size r) (b_psize r) (b_mem r)
    (b_gap r) (b_egap r) (b_row r) (b_col r) (b_fname r) (b_bname r) (b_flags r) (b_ubuf r).
Definition with_page (x : Z) (r : buffer) : buffer :=
  Buffer (b_next r) (b_mark r) (b_point r) (b_cpoint r) x (b_epage r) (b_cnt r) (b_size r) (b_psize r) (b_mem r)
    (b_gap r) (b_egap r) (b_row r) (b_col r) (b_fname r) (b_bname r) (b_flags r) (b_ubuf r).
Definition with_epage (x : Z) (r : buffer) : buffer :=
  Buffer (b_next r) (b_mark r) (b_point r) (b_cpoint r) (b_page r) x (b_cnt r) (b_size r) (b_psize r) (b_mem r)
    (b_gap r) (b_egap r) (b_row r) (b_col r) (b_fname r) (b_bname r) (b_flags r) (b_ubuf r).
Definition with_cnt (x : Z) (r : buffer) : buffer :=
  Buffer (b_next r) (b_mark r) (b_point r) (b_cpoint r) (b_page r) (b_epage r) x (b_size r) (b_psize r)
    (b_mem r) (b_gap r) (b_egap r) (b_row r) (b_col r) (b_fname r) (b_bname r) (b_flags r) (b_ubuf r).
Definition with_size (x : Z) (r : buffer) : buffer :=
  Buffer (b_next r) (b_mark r) (b_point r) (b_cpoint r) (b_page r) (b_epage r) (b_cnt r) x (b_psize r) (b_mem r)
    (b_gap r) (b_egap r) (b_row r) (b_col r) (b_fname r) (b_bname r) (b_flags r) (b_ubuf r).
Definition with_psize (x : Z) (r : buffer) : buffer :=
  Buffer (b_next r) (b_mark r) (b_point r) (b_cpoint r) (b_page r) (b_epage r) (b_cnt r) (b_size r) x (b_mem r)
    (b_gap r) (b_egap r) (b_row r) (b_col r) (b_fname r) (b_bname r) (b_flags r) (b_ubuf r).
Definition with_mem (x : list Z) (r : buffer) : buffer :=
  Buffer (b_next r) (b_mark r) (b_point r) (b_cpoint r) (b_page r) (b_epage r) (b_cnt r) (b_size r) (b_psize r)
    x (b_gap r) (b_egap r) (b_row r) (b_col r) (b_fname r) (b_bname r) (b_flags r) (b_ubuf r).
Definition with_gap (x : Z) (r : buffer) : buffer :=
  Buffer (b_next r) (b_mark r) (b_point r) (b_cpoint r) (b_page r) (b_epage r) (b_cnt r) (b_size r) (b_psize r)
    (b_mem r) x (b_egap r) (b_row r) (b_col r) (b_fname r) (b_bname r) (b_flags r) (b_ubuf r).
Definition with_egap (x : Z) (r : buffer) : buffer :=
  Buffer (b_next r) (b_mark r) (b_point r) (b_cpoint r) (b_page r) (b_epage r) (b_cnt r) (b_size r) (b_psize r)
    (b_mem r) (b_gap r) x (b_row r) (b_col r) (b_fname r) (b_bname r) (b_flags r) (b_ubuf r).
Definition with_row (x : Z) (r : buffer) : buffer :=
  Buffer (b_next r) (b_mark r) (b_point r) (b_cpoint r) (b_page r) (b_epage r) (b_cnt r) (b_size r) (b_psize r)
    (b_mem r) (b_gap r) (b_egap r) x (b_col r) (b_fname r) (b_bname r) (b_flags r) (b_ubuf r).
Definition with_col (x : Z) (r : buffer) : buffer :=
  Buffer (b_next r) (b_mark r) (b_point r) (b_cpoint r) (b_page r) (b_epage r) (b_cnt r) (b_size r) (b_psize r)
    (b_mem r) (b_gap r) (b_egap r) (b_row r) x (b_fname r) (b_bname r) (b_flags r) (b_ubuf r).
Definition with_fname (x : list Z) (r : buffer) : buffer :=
  Buffer (b_next r) (b_mark r) (b_point r) (b_cpoint r) (b_page r) (b_epage r) (b_cnt r) (b_size r) (b_psize r)
    (b_mem r) (b_gap r) (b_egap r) (b_row r) (b_col r) x (b_bname r) (b_flags r) (b_ubuf r).
Definition with_bname (x : list Z) (r : buffer) : buffer :=
  Buffer (b_next r) (b_mark r) (b_point r) (b_cpoint r) (b_page r) (b_epage r) (b_cnt r) (b_size r) (b_psize r)
    (b_mem r) (b_gap r) (b_egap r) (b_row r) (b_col r) (b_fname r) x (b_flags r) (b_ubuf r).
Definition with_flags (x : Z) (r : buffer) : buffer :=
  Buffer (b_next r) (b_mark r) (b_point r) (b_cpoint r) (b_page r) (b_epage r) (b_cnt r) (b_size r) (b_psize r)
    (b_mem r) (b_gap r) (b_egap r) (b_row r) (b_col r) (b_fname r) (b_bname r) x (b_ubuf r).
Definition with_ubuf (x : undo_t) (r : buffer) : buffer :=
  Buffer (b_next r) (b_mark r) (b_point r) (b_cpoint r) (b_page r) (b_epage r) (b_cnt r) (b_size r) (b_psize r)
    (b_mem r) (b_gap r) (b_egap r) (b_row r) (b_col r) (b_fname r) (b_bname r) (b_flags r) x.

Definition with_w_next (x : Z) (r : window) : window :=
  Window x (w_bufp r) (w_point r) (w_mark r) (w_page r) (w_epage r) (w_top r) (w_rows r) (w_row r) (w_col r)
    (w_update r).
Definition with_w_bufp (x : Z) (r : window) : window :=
  Window (w_next r) x (w_point r) (w_mark r) (w_page r) (w_epage r) (w_top r) (w_rows r) (w_row r) (w_col r)
    (w_update r).
Definition with_w_point (x : Z) (r : window) : window :=
  Window (w_next r) (w_bufp r) x (w_mark r) (w_page r) (w_epage r) (w_top r) (w_rows r) (w_row r) (w_col r)
    (w_update r).
Definition with_w_mark (x : Z) (r : window) : window :=
  Window (w_next r) (w_bufp r) (w_point r) x (w_page r) (w_epage r) (w_top r) (w_rows r) (w_row r) (w_col r)
    (w_update r).
Definition with_w_page (x : Z) (r : window) : window :=
  Window (w_next r) (w_bufp r) (w_point r) (w_mark r) x (w_epage r) (w_top r) (w_rows r) (w_row r) (w_col r)
    (w_update r).
Definition with_w_epage (x : Z) (r : window) : window :=
  Window (w_next r) (w_bufp r) (w_point r) (w_mark r) (w_page r) x (w_top r) (w_rows r) (w_row r) (w_col r)
    (w_update r).
Definition with_w_top (x : Z) (r : window) : window :=
  Window (w_next r) (w_bufp r) (w_point r) (w_mark r) (w_page r) (w_epage r) x (w_rows r) (w_row r) (w_col r)
    (w_update r).
Definition with_w_rows (x : Z) (r : window) : window :=
  Window (w_next r) (w_bufp r) (w_point r) (w_mark r) (w_page r) (w_epage r) (w_top r) x (w_row r) (w_col r)
    (w_update r).
Definition with_w_row (x : Z) (r : window) : window :=
  Window (w_next r) (w_bufp r) (w_point r) (w_mark r) (w_page r) (w_epage r) (w_top r) (w_rows r) x (w_col r)
    (w_update r).
Definition with_w_col (x : Z) (r : window) : window :=
  Window (w_next r) (w_bufp r) (w_point r) (w_mark r) (w_page r) (w_epage r) (w_top r) (w_rows r) (w_row r) x
    (w_update r).
Definition with_w_update (x : bool) (r : window) : window :=
  Window (w_next r) (w_bufp r) (w_point r) (w_mark r) (w_page r) (w_epage r) (w_top r) (w_rows r) (w_row r)
    (w_col r) x.

Definition with_buffers (x : gmap Z buffer) (r : editor) : editor :=
  Editor x (windows r) (curbp r) (bheadp r) (curwp r) (wheadp r) (brk r) (win_cnt r) (done r) (scrap r)
    (nscrap r) (input r) (msgflag r) (msgline r) (temp r) (searchtext r) (replace_ r) (keys r) (nkey r)
    (files r).
Definition with_windows (x : gmap Z window) (r : editor) : editor :=
  Editor (buffers r) x (curbp r) (bheadp r) (curwp r) (wheadp r) (brk r) (win_cnt r) (done r) (scrap r)
    (nscrap r) (input r) (msgflag r) (msgline r) (temp r) (searchtext r) (replace_ r) (keys r) (nkey r)
    (files r).
Definition with_curbp (x : Z) (r : editor) : editor :=
  Editor (buffers r) (windows r) x (bheadp r) (curwp r) (wheadp r) (brk r) (win_cnt r) (done r) (scrap r)
    (nscrap r) (input r) (msgflag r) (msgline r) (temp r) (searchtext r) (replace_ r) (keys r) (nkey r)
    (files r).
Definition with_bheadp (x : Z) (r : editor) : editor :=
  Editor (buffers r) (windows r) (curbp r) x (curwp r) (wheadp r) (brk r) (win_cnt r) (done r) (scrap r)
    (nscrap r) (input r) (msgflag r) (msgline r) (temp r) (searchtext r) (replace_ r) (keys r) (nkey r)
    (files r).
Definition with_curwp (x : Z) (r : editor) : editor :=
  Editor (buffers r) (windows r) (curbp r) (bheadp r) x (wheadp r) (brk r) (win_cnt r) (done r) (scrap r)
    (nscrap r) (input r) (msgflag r) (msgline r) (temp r) (searchtext r) (replace_ r) (keys r) (nkey r)
    (files r).
Definition with_wheadp (x : Z) (r : editor) : editor :=
  Editor (buffers r) (windows r) (curbp r) (bheadp r) (curwp r) x (brk r) (win_cnt r) (done r) (scrap r)
    (nscrap r) (input r) (msgflag r) (msgline r) (temp r) (searchtext r) (replace_ r) (keys r) (nkey r)
    (files r).
Definition with_brk (x : Z) (r : editor) : editor :=
  Editor (buffers r) (windows r) (curbp r) (bheadp r) (curwp r) (wheadp r) x (win_cnt r) (done r) (scrap r)
    (nscrap r) (input r) (msgflag r) (msgline r) (temp r) (searchtext r) (replace_ r) (keys r) (nkey r)
    (files r).
Definition with_win_cnt (x : Z) (r : editor) : editor :=
  Editor (buffers r) (windows r) (curbp r) (bheadp r) (curwp r) (wheadp r) (brk r) x (done r) (scrap r)
    (nscrap r) (input r) (msgflag r) (msgline r) (temp r) (searchtext r) (replace_ r) (keys r) (nkey r)
    (files r).
Definition with_done (x : bool) (r : editor) : editor :=
  Editor (buffers r) (windows r) (curbp r) (bheadp r) (curwp r) (wheadp r) (brk r) (win_cnt r) x (scrap r)
    (nscrap r) (input r) (msgflag r) (msgline r) (temp r) (searchtext r) (replace_ r) (keys r) (nkey r)
    (files r).
Definition with_scrap (x : option (list Z)) (r : editor) : editor :=
  Editor (buffers r) (windows r) (curbp r) (bheadp r) (curwp r) (wheadp r) (brk r) (win_cnt r) (done r) x
    (nscrap r) (input r) (msgflag r) (msgline r) (temp r) (searchtext r) (replace_ r) (keys r) (nkey r)
    (files r).
Definition with_nscrap (x : Z) (r : editor) : editor :=
  Editor (buffers r) (windows r) (curbp r) (bheadp r) (curwp r) (wheadp r) (brk r) (win_cnt r) (done r)
    (scrap r) x (input r) (msgflag r) (msgline r) (temp r) (searchtext r) (replace_ r) (keys r) (nkey r)
    (files r).
Definition with_input (x : Z) (r : editor) : editor :=
  Editor (buffers r) (windows r) (curbp r) (bheadp r) (curwp r) (wheadp r) (brk r) (win_cnt r) (done r)
    (scrap r) (nscrap r) x (msgflag r) (msgline r) (temp r) (searchtext r) (replace_ r) (keys r) (nkey r)
    (files r).
Definition with_msgflag (x : bool) (r : editor) : editor :=
  Editor (buffers r) (windows r) (curbp r) (bheadp r) (curwp r) (wheadp r) (brk r) (win_cnt r) (done r)
    (scrap r) (nscrap r) (input r) x (msgline r) (temp r) (searchtext r) (replace_ r) (keys r) (nkey r)
    (files r).
Definition with_msgline (x : message) (r : editor) : editor :=
  Editor (buffers r) (windows r) (curbp r) (bheadp r) (curwp r) (wheadp r) (brk r) (win_cnt r) (done r)
    (scrap r) (nscrap r) (input r) (msgflag r) x (temp r) (searchtext r) (replace_ r) (keys r) (nkey r)
    (files r).
Definition with_temp (x : list Z) (r : editor) : editor :=
  Editor (buffers r) (windows r) (curbp r) (bheadp r) (curwp r) (wheadp r) (brk r) (win_cnt r) (done r)
    (scrap r) (nscrap r) (input r) (msgflag r) (msgline r) x (searchtext r) (replace_ r) (keys r) (nkey r)
    (files r).
Definition with_searchtext (x : list Z) (r : editor) : editor :=
  Editor (buffers r) (windows r) (curbp r) (bheadp r) (curwp r) (wheadp r) (brk r) (win_cnt r) (done r)
    (scrap r) (nscrap r) (input r) (msgflag r) (msgline r) (temp r) x (replace_ r) (keys r) (nkey r) (files r).
Definition with_replace_ (x : list Z) (r : editor) : editor :=
  Editor (buffers r) (windows r) (curbp r) (bheadp r) (curwp r) (wheadp r) (brk r) (win_cnt r) (done r)
    (scrap r) (nscrap r) (input r) (msgflag r) (msgline r) (temp r) (searchtext r) x (keys r) (nkey r)
    (files r).
Definition with_keys (x : nat -> Z) (r : editor) : editor :=
  Editor (buffers r) (windows r) (curbp r) (bheadp r) (curwp r) (wheadp r) (brk r) (win_cnt r) (done r)
    (scrap r) (nscrap r) (input r) (msgflag r) (msgline r) (temp r) (searchtext r) (replace_ r) x (nkey r)
    (files r).
Definition with_nkey (x : nat) (r : editor) : editor :=
  Editor (buffers r) (windows r) (curbp r) (bheadp r) (curwp r) (wheadp r) (brk r) (win_cnt r) (done r)
    (scrap r) (nscrap r) (input r) (msgflag r) (msgline r) (temp r) (searchtext r) (replace_ r) (keys r) x
    (files r).
Definition with_files (x : gmap (list Z) (list Z)) (r : editor) : editor :=
  Editor (buffers r) (windows r) (curbp r) (bheadp r) (curwp r) (wheadp r) (brk r) (win_cnt r) (done r)
    (scrap r) (nscrap r) (input r) (msgflag r) (msgline r) (temp r) (searchtext r) (replace_ r) (keys r)
    (nkey r) x.

(** ** Programs

    A function on one buffer is a program on a [buffer]; [at_buffer] runs it on the
    buffer at an address, [cur] on the current one. *)

Definition B : Type -> Type := prog buffer.
Definition E : Type -> Type := prog editor.

Definition at_buffer {A} (bp : Z) (m : B A) : E A := fun fuel s =>
  match buffers s !! bp with
  | None => Fault Bad_pointer
  | Some b =>
      match m fuel b with
      | Ok a b' => Ok a (with_buffers (<[bp := b']> (buffers s)) s)
      | Fault f => Fault f
      end
  end.

Definition cur {A} (m : B A) : E A := bp ← gets curbp; at_buffer bp m.

Definition at_window {A} (wp : Z) (m : prog window A) : E A := fun fuel s =>
  match windows s !! wp with
  | None => Fault Bad_pointer
  | Some w =>
      match m fuel w with
      | Ok a w' => Ok a (with_windows (<[wp := w']> (windows s)) s)
      | Fault f => Fault f
      end
  end.

(** [msg]: the line is kept unformatted. *)
Definition msg (fmt : string) (args : list msg_arg) : E unit :=
  modify (fun s => with_msgflag true (with_msgline (Message fmt args) s)).

Lemma wp_at_buffer {A} (p : nat -> B A) bp b (s : editor) (Q : A -> editor -> Prop) :
  buffers s !! bp = Some b ->
  wp p b (fun a b' => Q a (with_buffers (<[bp := b']> (buffers s)) s)) ->
  wp (fun n => at_buffer bp (p n)) s Q.
Proof.
  intros Hb (N & a & b' & H & HQ). exists N, a, (with_buffers (<[bp := b']> (buffers s)) s). split; [|done].
  intros n fuel Hn Hf. unfold at_buffer. by rewrite Hb, H.
Qed.

Lemma wp_at_window {A} (p : nat -> prog window A) wp' w (s : editor) (Q : A -> editor -> Prop) :
  windows s !! wp' = Some w ->
  wp p w (fun a w' => Q a (with_windows (<[wp' := w']> (windows s)) s)) ->
  wp (fun n => at_window wp' (p n)) s Q.
Proof.
  intros Hw (N & a & w' & H & HQ). exists N, a, (with_windows (<[wp' := w']> (windows s)) s). split; [|done].
  intros n fuel Hn Hf. unfold at_window. by rewrite Hw, H.
Qed.

(** The current buffer, and the editor with another one in its place. *)
Definition set_cur (b : buffer) (s : editor) : editor := with_buffers (<[curbp s := b]> (buffers s)) s.

Lemma wp_cur {A} (p : nat -> B A) b (s : editor) (Q : A -> editor -> Prop) :
  buffers s !! curbp s = Some b -> wp p b (fun a b' => Q a (set_cur b' s)) ->
  wp (fun n => cur (p n)) s Q.
Proof. intros Hb H. apply wp_bind, wp_gets. by eapply wp_at_buffer. Qed.

Lemma lookup_set_cur b s : buffers (set_cur b s) !! curbp (set_cur b s) = Some b.
Proof. apply lookup_insert_eq. Qed.
Lemma set_cur_twice b b' s : set_cur b (set_cur b' s) = set_cur b s.
Proof. unfold set_cur. simpl. by rewrite insert_insert_eq. Qed.
