(* ===== verification/AttoGap.v ===== *)
(** * Atto: the gap buffer (src/editors/atto/gap.c)

    [text] is the text of a buffer; [buffer_ok] the invariant of its gap.  [movegap] and
    [growgap] change neither; [ptr] and [pos] are inverse; reading through
    [ptr] reads the text. *)

From Stdlib Require Import ZArith Lia.
From stdpp Require Import base numbers list gmap strings.
From S2P Require Import Prelude Atto.

Open Scope Z_scope.

(** ** Code *)

Definition b_ebuf (b : buffer) : Z := Z.of_nat (length (b_mem b)).

Definition ptr (b : buffer) (offset : Z) : Z :=
  if offset <? 0 then 0
  else offset + (if offset <? b_gap b then 0 else b_egap b - b_gap b).

Section code.
Context `{machine}.

(** [*p]: one byte behind the block [behind] is found. *)
Definition load (p : Z) : B Z :=
  b ← get_state;
  match (if p <? 0 then None else b_mem b !! Z.to_nat p) with
  | Some c => mret c
  | None =>
      match b_mem b, behind with
      | _ :: _, Some c => if p =? b_ebuf b then mret c else fail Bad_pointer
      | _, _ => fail Bad_pointer
      end
  end.

(** [*p = c], to a [char_t]. *)
Definition store (p c : Z) : B unit :=
  b ← get_state;
  if (0 <=? p) && (p <? b_ebuf b)
  then set_state (with_mem (<[Z.to_nat p := c mod 256]> (b_mem b)) b)
  else fail Bad_pointer.

(** [*( ptr( bp, offset ) )]. *)
Definition char_at (offset : Z) : B Z := p ← gets (fun b => ptr b offset); load p.

Definition pos (cp : Z) : B Z :=
  b ← get_state;
  assert_that ((0 <=? cp) && (cp <=? b_ebuf b));;
  mret (cp - (if cp <? b_egap b then 0 else b_egap b - b_gap b)).

(** [pos( bp, bp->b_ebuf )]. *)
Definition end_pos : B Z := e ← gets b_ebuf; pos e.

(** [while ( xegap < buflen-- ) *--bp->b_egap = *--bp->b_ebuf;] *)
Fixpoint grow_loop (fuel : nat) (xegap buflen ebuf : Z) : B unit :=
  match fuel with
  | O => fail Out_of_fuel
  | S fuel =>
      if xegap <? buflen then
        c ← load (ebuf - 1);
        modify (fun b => with_egap (b_egap b - 1) b);;
        egap ← gets b_egap;
        store egap c;;
        grow_loop fuel xegap (buflen - 1) (ebuf - 1)
      else mret tt
  end.

(** The block [realloc] returns: the old bytes, then fresh ones. *)
Definition realloc (mem : list Z) (newlen : Z) : list Z :=
  take (Z.to_nat newlen) mem ++
  map (fun i => junk (Z.of_nat i) mod 256) (seq (length mem) (Z.to_nat newlen - length mem)).

(** [growgap] but for its message: [false] is the failure it reports. *)
Definition growgap_body (n : Z) : B bool :=
  b ← get_state;
  assert_that (0 <=? b_gap b);;
  assert_that (b_gap b <=? b_egap b);;
  assert_that (b_egap b <=? b_ebuf b);;
  let xegap := b_egap b in
  let buflen := b_ebuf b in
  let n := if n <? MIN_GAP_EXPAND then MIN_GAP_EXPAND else n in
  let newlen := add64 buflen n in
  if (newlen <? 0) || negb (alloc_ok newlen) then
    if buflen =? 0 then fail (Exit 3 "%s: Failed to allocate required memory.\n") else mret false
  else
    modify (fun b => with_egap newlen (with_mem (realloc (b_mem b) newlen) b));;
    with_fuel (fun fuel => grow_loop fuel xegap buflen buflen);;
    b ← get_state;
    assert_that (0 <? b_ebuf b);;
    assert_that (0 <=? b_gap b);;
    assert_that (b_gap b <? b_egap b);;
    assert_that (b_egap b <=? b_ebuf b);;
    mret true.

Definition growgap (bp n : Z) : E bool :=
  r ← at_buffer bp (growgap_body n);
  if r : bool then mret true else msg "m_alloc" [];; mret false.

(** [while ( p < bp->b_gap ) *--bp->b_egap = *--bp->b_gap;] *)
Fixpoint gap_down (fuel : nat) (p : Z) : B unit :=
  match fuel with
  | O => fail Out_of_fuel
  | S fuel =>
      gap ← gets b_gap;
      if p <? gap then
        modify (fun b => with_egap (b_egap b - 1) (with_gap (b_gap b - 1) b));;
        b ← get_state;
        c ← load (b_gap b);
        store (b_egap b) c;;
        gap_down fuel p
      else mret tt
  end.

(** [while ( bp->b_egap < p ) *bp->b_gap++ = *bp->b_egap++;] *)
Fixpoint gap_up (fuel : nat) (p : Z) : B unit :=
  match fuel with
  | O => fail Out_of_fuel
  | S fuel =>
      egap ← gets b_egap;
      if egap <? p then
        b ← get_state;
        c ← load (b_egap b);
        store (b_gap b) c;;
        modify (fun b => with_egap (b_egap b + 1) (with_gap (b_gap b + 1) b));;
        gap_up fuel p
      else mret tt
  end.

Definition movegap (offset : Z) : B Z :=
  p ← gets (fun b => ptr b offset);
  with_fuel (fun fuel => gap_down fuel p);;
  with_fuel (fun fuel => gap_up fuel p);;
  b ← get_state;
  assert_that (b_gap b <=? b_egap b);;
  assert_that (0 <=? b_gap b);;
  assert_that (b_egap b <=? b_ebuf b);;
  pos (b_egap b).

Definition undoset : B unit :=
  modify (fun b => with_ubuf (Undo (b_point b) (b_gap b) (b_egap b)) b).

Definition undo : B unit :=
  tmp ← gets b_ubuf;
  undoset;;
  modify (fun b => with_flags (Z.lor (b_flags b) B_MODIFIED)
    (with_egap (u_egap tmp) (with_gap (u_gap tmp) (with_point (u_point tmp) b)))).

End code.

(** ** The text *)

Definition text (b : buffer) : list Z :=
  take (Z.to_nat (b_gap b)) (b_mem b) ++ drop (Z.to_nat (b_egap b)) (b_mem b).
Definition size (b : buffer) : Z := Z.of_nat (length (text b)).
Definition room (b : buffer) : Z := b_egap b - b_gap b.

Definition byte (c : Z) : Prop := 0 <= c < 256.

Record buffer_ok (b : buffer) : Prop := {
  ok_gap : 0 <= b_gap b <= b_egap b;
  ok_egap : b_egap b <= b_ebuf b;
  ok_bytes : Forall byte (b_mem b)
}.

Lemma size_eq b : buffer_ok b -> size b = b_ebuf b - room b.
Proof.
  intros [H1 H2 _]. unfold size, text, room, b_ebuf in *. rewrite length_app, length_take, length_drop. lia.
Qed.

Lemma text_lookup b off : buffer_ok b -> 0 <= off < size b ->
  text b !! Z.to_nat off = b_mem b !! Z.to_nat (ptr b off).
Proof.
  intros Hok Ho. rewrite size_eq in Ho by done. destruct Hok as [H1 H2 _]. unfold text, ptr, room, b_ebuf in *.
  rewrite (proj2 (Z.ltb_ge off 0)) by lia. destruct (Z.ltb_spec off (b_gap b)).
  - rewrite Z.add_0_r, lookup_app_l by (rewrite length_take; lia). apply lookup_take_lt. lia.
  - rewrite lookup_app_r by (rewrite length_take; lia). rewrite lookup_drop, length_take. f_equal. lia.
Qed.

Lemma ptr_bounds b off : buffer_ok b -> 0 <= off < size b -> 0 <= ptr b off < b_ebuf b.
Proof.
  intros Hok Ho. rewrite size_eq in Ho by done. destruct Hok as [H1 H2 _]. unfold ptr, room in *.
  rewrite (proj2 (Z.ltb_ge off 0)) by lia. destruct (Z.ltb_spec off (b_gap b)); lia.
Qed.

Lemma ptr_end b off : buffer_ok b -> size b <= off -> b_ebuf b <= ptr b off.
Proof.
  intros Hok Ho. rewrite size_eq in Ho by done. destruct Hok as [H1 H2 _]. unfold ptr, room in *.
  rewrite (proj2 (Z.ltb_ge off 0)) by lia. destruct (Z.ltb_spec off (b_gap b)); lia.
Qed.

Lemma ptr_size b : buffer_ok b -> ptr b (size b) = b_ebuf b.
Proof.
  intros Hok. rewrite size_eq by done. destruct Hok as [H1 H2 _]. unfold ptr, room in *.
  rewrite (proj2 (Z.ltb_ge _ 0)) by lia. destruct (Z.ltb_spec (b_ebuf b - (b_egap b - b_gap b)) (b_gap b)); lia.
Qed.

(** ** Steps *)

(** The straight-line steps of a program. *)
Ltac wstep :=
  first
  [ apply wp_bind, wp_get_state | apply wp_bind, wp_gets | apply wp_bind, wp_modify | apply wp_bind, wp_set_state
  | apply wp_bind, wp_assert; [lia|] | apply wp_bind, wp_ret ]; cbn beta.

Section gap.
Context `{machine}.

Lemma wp_load b p c (Q : Z -> buffer -> Prop) :
  0 <= p -> b_mem b !! Z.to_nat p = Some c -> Q c b -> wp (fun _ => load p) b Q.
Proof.
  intros Hp Hc HQ. unfold load. wstep. rewrite (proj2 (Z.ltb_ge p 0)), Hc by lia. by apply wp_ret.
Qed.

Lemma wp_load_behind b c (Q : Z -> buffer -> Prop) :
  behind = Some c -> 0 < b_ebuf b -> Q c b -> wp (fun _ => load (b_ebuf b)) b Q.
Proof.
  intros Hc Hb HQ. unfold load. wstep. unfold b_ebuf in *. rewrite (proj2 (Z.ltb_ge _ 0)) by lia.
  rewrite Nat2Z.id, (proj2 (lookup_ge_None _ _)) by lia.
  destruct (b_mem b) as [|d mem] eqn:Em; [simpl in Hb; lia|]. rewrite Hc, Z.eqb_refl. by apply wp_ret.
Qed.

Lemma wp_store_byte b p c (Q : unit -> buffer -> Prop) :
  0 <= p < b_ebuf b -> Q tt (with_mem (<[Z.to_nat p := c mod 256]> (b_mem b)) b) -> wp (fun _ => store p c) b Q.
Proof.
  intros Hp HQ. unfold store. wstep. rewrite (proj2 (Z.leb_le 0 p)), (proj2 (Z.ltb_lt p _)) by lia.
  by apply wp_set_state.
Qed.

Lemma wp_pos b cp (Q : Z -> buffer -> Prop) :
  0 <= cp <= b_ebuf b -> Q (cp - (if cp <? b_egap b then 0 else room b)) b -> wp (fun _ => pos cp) b Q.
Proof. intros Hp HQ. unfold pos. wstep. wstep. by apply wp_ret. Qed.

Lemma wp_pos_egap b (Q : Z -> buffer -> Prop) :
  buffer_ok b -> Q (b_gap b) b -> wp (fun _ => pos (b_egap b)) b Q.
Proof.
  intros [H1 H2 _] HQ. apply wp_pos; [lia|]. rewrite Z.ltb_irrefl. unfold room.
  by replace (b_egap b - (b_egap b - b_gap b)) with (b_gap b) by lia.
Qed.

Lemma wp_end_pos b (Q : Z -> buffer -> Prop) :
  buffer_ok b -> Q (size b) b -> wp (fun _ => end_pos) b Q.
Proof.
  intros Hok HQ. unfold end_pos. wstep. rewrite size_eq in HQ by done. destruct Hok as [H1 H2 _]. apply wp_pos; [lia|].
  by rewrite (proj2 (Z.ltb_ge _ _)) by lia.
Qed.

Lemma wp_char_at b off (Q : Z -> buffer -> Prop) c :
  buffer_ok b -> 0 <= off -> text b !! Z.to_nat off = Some c -> Q c b -> wp (fun _ => char_at off) b Q.
Proof.
  intros Hok Ho Hc HQ. assert (off < size b) by (apply lookup_lt_Some in Hc; unfold size; lia).
  unfold char_at. wstep. apply wp_load with c; [by apply ptr_bounds | | done].
  by rewrite <- text_lookup.
Qed.

Lemma text_byte b off c : buffer_ok b -> text b !! off = Some c -> byte c.
Proof.
  intros [_ _ Hb] Hc. eapply Forall_lookup_1; [|exact Hc]. apply Forall_app.
  by split; [apply Forall_take | apply Forall_drop].
Qed.

(** *** Moving the gap *)

(** [b'] is [b] with its gap at [off]. *)
Definition gap_at (off : Z) (b b' : buffer) : Prop :=
  (exists mem, b' = with_mem mem (with_egap (off + room b) (with_gap off b)) /\ length mem = length (b_mem b)) /\
  text b' = text b /\ buffer_ok b'.

Lemma gap_at_refl b : buffer_ok b -> gap_at (b_gap b) b b.
Proof.
  intros Hok. split; [|done]. exists (b_mem b). split; [|done]. unfold room.
  replace (b_gap b + (b_egap b - b_gap b)) with (b_egap b) by lia. by destruct b.
Qed.

Lemma gap_at_trans off off' b b' b'' : gap_at off b b' -> gap_at off' b' b'' -> gap_at off' b b''.
Proof.
  intros ((mem & -> & Hl) & Ht & Hok) ((mem' & -> & Hl') & Ht' & Hok'). split; [|by rewrite Ht'].
  exists mem'. split; [|simpl in Hl'; congruence]. unfold room. simpl.
  by replace (off + (b_egap b - b_gap b) - off) with (b_egap b - b_gap b) by lia.
Qed.

Lemma take_S_lookup {A} (l : list A) n c : l !! n = Some c -> take (S n) l = take n l ++ [c].
Proof. apply take_S_r. Qed.

Lemma gap_down_step b c : buffer_ok b -> 0 < b_gap b -> b_mem b !! Z.to_nat (b_gap b - 1) = Some c ->
  gap_at (b_gap b - 1) b
    (with_mem (<[Z.to_nat (b_egap b - 1) := c]> (b_mem b)) (with_egap (b_egap b - 1) (with_gap (b_gap b - 1) b))).
Proof.
  intros [H1 H2 Hb] Hg Hc. unfold b_ebuf in *. set (g := Z.to_nat (b_gap b - 1)) in *. set (e := Z.to_nat (b_egap b - 1)).
  assert (Z.to_nat (b_gap b) = S g) as Eg by lia. assert (Z.to_nat (b_egap b) = S e) as Ee by lia.
  assert (g <= e < length (b_mem b))%nat by lia. split; [|split].
  - eexists. split; [|apply length_insert]. unfold room. simpl.
    by replace (b_gap b - 1 + (b_egap b - b_gap b)) with (b_egap b - 1) by lia.
  - unfold text. simpl. fold g e. rewrite Eg, Ee, take_insert_ge, (take_S_r _ _ c) by (done || lia).
    rewrite (drop_S _ c e) by (by apply list_lookup_insert_eq; lia).
    rewrite drop_insert_lt by lia. by rewrite <- app_assoc.
  - split; simpl; [lia | unfold b_ebuf; simpl; rewrite length_insert; lia |].
    apply Forall_insert; [done|]. by eapply Forall_lookup_1.
Qed.

Lemma gap_up_step b c : buffer_ok b -> b_egap b < b_ebuf b -> b_mem b !! Z.to_nat (b_egap b) = Some c ->
  gap_at (b_gap b + 1) b
    (with_egap (b_egap b + 1) (with_gap (b_gap b + 1) (with_mem (<[Z.to_nat (b_gap b) := c]> (b_mem b)) b))).
Proof.
  intros [H1 H2 Hb] Hg Hc. unfold b_ebuf in *. set (g := Z.to_nat (b_gap b)) in *. set (e := Z.to_nat (b_egap b)) in *.
  assert (Z.to_nat (b_gap b + 1) = S g) as Eg by lia. assert (Z.to_nat (b_egap b + 1) = S e) as Ee by lia.
  assert (g <= e < length (b_mem b))%nat by lia. split; [|split].
  - eexists. split; [|apply length_insert]. unfold room. simpl.
    by replace (b_gap b + 1 + (b_egap b - b_gap b)) with (b_egap b + 1) by lia.
  - unfold text. simpl. fold g e. rewrite Eg, Ee, drop_insert_lt by lia.
    rewrite (take_S_r _ _ c) by (apply list_lookup_insert_eq; lia). rewrite take_insert_ge by lia.
    rewrite (drop_S _ c e) by done. by rewrite <- app_assoc.
  - split; simpl; [lia | unfold b_ebuf; simpl; rewrite length_insert; lia |].
    apply Forall_insert; [done|]. by eapply Forall_lookup_1.
Qed.

Lemma mod_byte c : byte c -> c mod 256 = c.
Proof. apply Z.mod_small. Qed.

Lemma wp_gap_down b p : forall k b1, gap_at (p + Z.of_nat k) b b1 -> 0 <= p ->
  wp (fun n => gap_down n p) b1 (fun _ b' => gap_at p b b').
Proof.
  induction k as [|k IH]; intros b1 Hb1 Hp; (eapply wp_unfold; [intros n; reflexivity|]); cbn beta; wstep;
    pose proof Hb1 as ((mem & -> & Hl) & Ht & Hok); simpl b_gap.
  - rewrite Z.add_0_r, Z.ltb_irrefl in *. by apply wp_ret.
  - rewrite (proj2 (Z.ltb_lt p _)) by lia. wstep. wstep.
    set (b1 := with_mem _ _) in *. assert (b_gap b1 = p + Z.of_nat (S k)) as Eg by done.
    pose proof Hok as [H1 H2 Hb]. unfold b_ebuf in *.
    destruct (lookup_lt_is_Some_2 (b_mem b1) (Z.to_nat (b_gap b1 - 1))) as [c Hc]; [lia|].
    pose proof (gap_down_step b1 c Hok ltac:(lia) Hc) as Hs.
    apply wp_bind, wp_load with c; [simpl; lia | exact Hc |].
    apply wp_bind, wp_store_byte; [unfold b_ebuf; simpl in *; lia|].
    rewrite mod_byte by (by eapply Forall_lookup_1). apply (IH _); [|done].
    replace (p + Z.of_nat k) with (b_gap b1 - 1) by lia. by eapply gap_at_trans.
Qed.

Lemma wp_gap_up b p : forall k b1, gap_at (p - room b - Z.of_nat k) b b1 -> 0 <= p <= b_ebuf b ->
  wp (fun n => gap_up n p) b1 (fun _ b' => gap_at (p - room b) b b').
Proof.
  induction k as [|k IH]; intros b1 Hb1 Hp; (eapply wp_unfold; [intros n; reflexivity|]); cbn beta; wstep;
    pose proof Hb1 as ((mem & -> & Hl) & Ht & Hok); simpl b_egap.
  - rewrite Z.sub_0_r in *. rewrite (proj2 (Z.ltb_ge _ p)) by lia. by apply wp_ret.
  - rewrite (proj2 (Z.ltb_lt _ p)) by lia. wstep.
    set (b1 := with_mem _ _) in *. assert (b_egap b1 = p - Z.of_nat (S k)) as Eg by (unfold b1; simpl; lia).
    pose proof Hok as [H1 H2 Hb]. assert (b_ebuf b1 = b_ebuf b) as El by (unfold b_ebuf, b1; simpl; congruence).
    destruct (lookup_lt_is_Some_2 (b_mem b1) (Z.to_nat (b_egap b1))) as [c Hc]; [unfold b_ebuf in *; lia|].
    pose proof (gap_up_step b1 c Hok ltac:(lia) Hc) as Hs.
    apply wp_bind, wp_load with c; [lia | exact Hc |].
    apply wp_bind, wp_store_byte; [lia|].
    rewrite mod_byte by (by eapply Forall_lookup_1). wstep. apply (IH _); [|done].
    replace (p - room b - Z.of_nat k) with (b_gap b1 + 1) by (unfold b1; simpl; lia). by eapply gap_at_trans.
Qed.

Lemma wp_movegap b off : buffer_ok b -> 0 <= off <= size b ->
  wp (fun _ => movegap off) b (fun r b' => r = off /\ gap_at off b b').
Proof.
  intros Hok Ho. pose proof (gap_at_refl b Hok) as Hr. rewrite size_eq in Ho by done. pose proof Hok as [H1 H2 _].
  unfold movegap. wstep.
  eapply (wp_call _ _ _ (fun _ b' => gap_at (Z.min off (b_gap b)) b b')).
  { apply wp_with_fuel. unfold ptr. rewrite (proj2 (Z.ltb_ge off 0)) by lia. destruct (Z.ltb_spec off (b_gap b)).
    - rewrite Z.min_l, Z.add_0_r by lia. apply (wp_gap_down b off (Z.to_nat (b_gap b - off))); [|lia].
      by replace (off + _) with (b_gap b) by lia.
    - rewrite Z.min_r by lia. eapply wp_unfold; [intros n; reflexivity|]. cbn beta. wstep.
      rewrite (proj2 (Z.ltb_ge _ _)) by lia. by apply wp_ret. }
  intros _ b1 Hb1. cbn beta. eapply (wp_call _ _ _ (fun _ b' => gap_at off b b')).
  { apply wp_with_fuel. unfold ptr. rewrite (proj2 (Z.ltb_ge off 0)) by lia. destruct (Z.ltb_spec off (b_gap b)).
    - rewrite Z.min_l in Hb1 by lia. eapply wp_unfold; [intros n; reflexivity|]. cbn beta. wstep.
      pose proof Hb1 as ((mem & -> & _) & _ & _). simpl b_egap. unfold room. rewrite (proj2 (Z.ltb_ge _ _)) by lia.
      by apply wp_ret.
    - rewrite Z.min_r in Hb1 by lia.
      assert (off = off + (b_egap b - b_gap b) - room b) as Eo by (unfold room; lia).
      eapply wp_mono; [apply (wp_gap_up b _ (Z.to_nat (off - b_gap b))); [|unfold room in *; lia]|].
      + by replace (_ - _ - _) with (b_gap b) by (unfold room; lia).
      + cbn beta. intros _ b' Hb'. by rewrite Eo. }
  intros _ b2 Hb2. cbn beta. pose proof Hb2 as ((mem & E2 & _) & _ & Hok2). pose proof Hok2 as [H3 H4 _].
  wstep. wstep. wstep. wstep. apply wp_pos_egap; [done|]. split; [|done]. by rewrite E2.
Qed.

(** *** Enlarging the gap *)

(** [b'] is [b] with a gap longer by [n]. *)
Definition grown (n : Z) (b b' : buffer) : Prop :=
  (exists mem, b' = with_mem mem (with_egap (b_egap b + n) b) /\
    Z.of_nat (length mem) = b_ebuf b + n) /\ text b' = text b /\ buffer_ok b'.

(** While the tail of [b] is copied [n] bytes up, from [at_] on it is in its new place. *)
Definition growing (n at_ : Z) (b b1 : buffer) : Prop :=
  (exists mem, b1 = with_mem mem (with_egap (at_ + n) b) /\
    Z.of_nat (length mem) = b_ebuf b + n /\ Forall byte mem /\
    take (Z.to_nat at_) mem = take (Z.to_nat at_) (b_mem b) /\
    drop (Z.to_nat (at_ + n)) mem = drop (Z.to_nat at_) (b_mem b)).

Lemma growing_done n b b1 : buffer_ok b -> 0 < n -> growing n (b_egap b) b b1 -> grown n b b1.
Proof.
  intros [H1 H2 Hb] Hn (mem & -> & Hl & Hb1 & Ht & Hd). unfold b_ebuf in *. split; [|split].
  - exists mem. done.
  - unfold text. simpl. rewrite Hd. f_equal.
    apply (f_equal (take (Z.to_nat (b_gap b)))) in Ht. rewrite !take_take, !Nat.min_l in Ht by lia. exact Ht.
  - split; simpl; [lia | unfold b_ebuf; simpl; lia | done].
Qed.

Lemma growing_step n k b b1 c : 0 <= b_egap b -> 0 < n -> 0 <= k < b_ebuf b ->
  growing n (k + 1) b b1 -> b_mem b !! Z.to_nat k = Some c ->
  b_mem b1 !! Z.to_nat k = Some c /\
  growing n k b (with_mem (<[Z.to_nat (k + n) := c]> (b_mem b1)) (with_egap (k + n) b1)).
Proof.
  intros H1 Hn Hk (mem & -> & Hl & Hb1 & Ht & Hd) Hc. unfold b_ebuf in *. simpl.
  assert (mem !! Z.to_nat k = Some c) as Hc1.
  { rewrite <- (lookup_take_lt mem (Z.to_nat (k + 1))), Ht, lookup_take_lt by lia. exact Hc. }
  split; [done|]. eexists. split; [reflexivity|]. rewrite length_insert. split; [done|]. split; [|split].
  - apply Forall_insert; [done|]. by eapply Forall_lookup_1.
  - rewrite take_insert_ge by lia. apply (f_equal (take (Z.to_nat k))) in Ht.
    rewrite !take_take, !Nat.min_l in Ht by lia. exact Ht.
  - rewrite (drop_S _ c) by (apply list_lookup_insert_eq; lia). rewrite drop_insert_lt by lia.
    rewrite (drop_S (b_mem b) c) by done. f_equal.
    replace (S (Z.to_nat (k + n))) with (Z.to_nat (k + 1 + n)) by lia. rewrite Hd. f_equal. lia.
Qed.

Lemma wp_grow_loop n b : buffer_ok b -> 0 < n -> forall k b1, (Z.of_nat k <= b_ebuf b - b_egap b) ->
  growing n (b_egap b + Z.of_nat k) b b1 ->
  wp (fun fuel => grow_loop fuel (b_egap b) (b_egap b + Z.of_nat k) (b_egap b + Z.of_nat k)) b1
    (fun _ b' => growing n (b_egap b) b b').
Proof.
  intros Hok Hn. pose proof Hok as [H1 H2 Hb].
  induction k as [|k IH]; intros b1 Hk Hb1; (eapply wp_unfold; [intros m; reflexivity|]); cbn [grow_loop].
  - rewrite Z.add_0_r in *. rewrite Z.ltb_irrefl. by apply wp_ret.
  - rewrite (proj2 (Z.ltb_lt _ _)) by lia.
    replace (b_egap b + Z.of_nat (S k) - 1) with (b_egap b + Z.of_nat k) by lia.
    replace (b_egap b + Z.of_nat (S k)) with (b_egap b + Z.of_nat k + 1) in Hb1 by lia.
    set (a := b_egap b + Z.of_nat k) in *.
    destruct (lookup_lt_is_Some_2 (b_mem b) (Z.to_nat a)) as [c Hc]; [unfold b_ebuf in *; lia|].
    destruct (growing_step n a b b1 c) as [Hc1 Hs]; [lia.. | done | done |].
    apply wp_bind, wp_load with c; [lia | exact Hc1 |]. wstep. wstep.
    destruct Hb1 as (mem & E1 & Hl & _). assert (b_egap b1 - 1 = a + n) as Ea by (rewrite E1; simpl; lia).
    simpl. rewrite Ea. apply wp_bind, wp_store_byte; [rewrite E1; unfold b_ebuf in *; simpl; lia|].
    rewrite mod_byte by (by eapply Forall_lookup_1). by apply (IH _ ltac:(lia)).
Qed.

Definition newlen (b : buffer) (n : Z) : Z := b_ebuf b + Z.max MIN_GAP_EXPAND n.

Lemma realloc_longer mem len : Z.of_nat (length mem) <= len -> Forall byte mem ->
  Forall byte (realloc mem len) /\ Z.of_nat (length (realloc mem len)) = len /\
  take (length mem) (realloc mem len) = mem.
Proof.
  intros Hl Hb. unfold realloc. rewrite take_ge by lia. split; [|split].
  - apply Forall_app. split; [done|]. apply Forall_forall. intros c Hc.
    apply list_elem_of_fmap in Hc as (i & -> & _). unfold byte. by apply Z.mod_pos_bound.
  - rewrite length_app, length_map, length_seq. lia.
  - by rewrite take_app_length.
Qed.

Lemma growgap_n n : (if n <? MIN_GAP_EXPAND then MIN_GAP_EXPAND else n) = Z.max MIN_GAP_EXPAND n.
Proof. destruct (Z.ltb_spec n MIN_GAP_EXPAND); lia. Qed.

Lemma wp_growgap_body b n : buffer_ok b -> int64 (newlen b n) -> alloc_ok (newlen b n) = true ->
  wp (fun _ => growgap_body n) b (fun r b' => r = true /\ grown (Z.max MIN_GAP_EXPAND n) b b').
Proof.
  intros Hok Hi Ha. pose proof Hok as [H1 H2 Hb]. unfold growgap_body. wstep. wstep. wstep. wstep.
  rewrite growgap_n, (add64_id _ _ Hi). fold (newlen b n). set (m := Z.max MIN_GAP_EXPAND n) in *.
  assert (0 < m) by (unfold m, MIN_GAP_EXPAND; lia). assert (newlen b n = b_ebuf b + m) as El by done.
  rewrite Ha, (proj2 (Z.ltb_ge (newlen b n) 0)) by lia. cbn [orb negb]. wstep.
  destruct (realloc_longer (b_mem b) (newlen b n)) as (R1 & R2 & R3); [unfold b_ebuf in *; lia | done |].
  set (b0 := with_egap _ _).
  assert (growing m (b_ebuf b) b b0) as Hg.
  { exists (realloc (b_mem b) (newlen b n)). split; [by unfold b0; rewrite El|]. split; [lia|]. split; [done|].
    unfold b_ebuf in *. rewrite Nat2Z.id, R3. split; [by rewrite take_ge by lia|].
    by rewrite !drop_ge by lia. }
  pose proof (wp_grow_loop m b Hok ltac:(lia) (Z.to_nat (b_ebuf b - b_egap b)) b0 ltac:(lia)) as Hw.
  rewrite Z2Nat.id in Hw by lia. replace (b_egap b + (b_ebuf b - b_egap b)) with (b_ebuf b) in Hw by lia.
  eapply wp_call; [apply wp_with_fuel, Hw, Hg|]. cbn beta. intros _ b1 Hg1.
  apply growing_done in Hg1; [|done..]. pose proof Hg1 as ((mem & E1 & Hl) & _ & Hok1). pose proof Hok1 as [H3 H4 _].
  assert (b_ebuf b1 = b_ebuf b + m) by (rewrite E1; exact Hl).
  assert (b_egap b1 = b_egap b + m /\ b_gap b1 = b_gap b) as [??] by (by rewrite E1).
  do 5 wstep. by apply wp_ret.
Qed.

(** A failing allocation, or a length that overflows. *)
Lemma wp_growgap_fails b n : buffer_ok b -> 0 < b_ebuf b -> int64 (b_ebuf b) -> int64 n ->
  (int64 (newlen b n) -> alloc_ok (newlen b n) = false) ->
  wp (fun _ => growgap_body n) b (fun r b' => r = false /\ b' = b).
Proof.
  intros Hok Hp He Hi Ha. pose proof Hok as [H1 H2 Hb]. unfold growgap_body. wstep. wstep. wstep. wstep.
  rewrite growgap_n. change (b_ebuf b + Z.max MIN_GAP_EXPAND n) with (newlen b n) in *. unfold add64.
  change (b_ebuf b + Z.max MIN_GAP_EXPAND n) with (newlen b n).
  assert ((wrap64 (newlen b n) <? 0) || negb (alloc_ok (wrap64 (newlen b n))) = true) as ->.
  { unfold newlen, int64, MIN_GAP_EXPAND, wrap64 in *. destruct (Z.lt_ge_cases (b_ebuf b + Z.max 512 n) 9223372036854775808).
    - rewrite Z.mod_small by lia.
      replace (_ + _ + 9223372036854775808 - 9223372036854775808) with (b_ebuf b + Z.max 512 n) by lia.
      rewrite Ha by lia. apply orb_true_r.
    - replace (b_ebuf b + Z.max 512 n + 9223372036854775808)
        with (b_ebuf b + Z.max 512 n - 9223372036854775808 + 1 * 18446744073709551616) by lia.
      rewrite Z.mod_add, Z.mod_small by lia. by rewrite (proj2 (Z.ltb_lt _ 0)) by lia. }
  rewrite (proj2 (Z.eqb_neq _ _)) by lia. by apply wp_ret.
Qed.

(** *** What stays in the gap *)

Lemma wp_gap_down_stale b p lim : forall k b1, Z.to_nat (b_gap b1 - p) = k -> p <= b_gap b1 ->
  buffer_ok b1 -> 0 <= p -> lim = p + room b1 -> take (Z.to_nat lim) (b_mem b1) = take (Z.to_nat lim) (b_mem b) ->
  wp (fun n => gap_down n p) b1 (fun _ b' => take (Z.to_nat lim) (b_mem b') = take (Z.to_nat lim) (b_mem b)).
Proof.
  induction k as [|k IH]; intros b1 Hk Hle Hok Hp Hlim Hm;
    (eapply wp_unfold; [intros n; reflexivity|]); cbn [gap_down]; wstep.
  - rewrite (proj2 (Z.ltb_ge p _)) by lia. by apply wp_ret.
  - rewrite (proj2 (Z.ltb_lt p _)) by lia. wstep. wstep. pose proof Hok as [H1 H2 Hb]. unfold b_ebuf in *.
    destruct (lookup_lt_is_Some_2 (b_mem b1) (Z.to_nat (b_gap b1 - 1))) as [c Hc]; [lia|].
    destruct (gap_down_step b1 c Hok ltac:(lia) Hc) as (_ & _ & Hok').
    apply wp_bind, wp_load with c; [simpl; lia | exact Hc |].
    apply wp_bind, wp_store_byte; [unfold b_ebuf; simpl in *; lia|]. rewrite mod_byte by (by eapply Forall_lookup_1).
    apply IH; [simpl; lia | simpl; lia | exact Hok' | done | unfold room in *; simpl; lia |].
    unfold room in *. simpl. rewrite take_insert_ge by lia. done.
Qed.

(** Below the end of the gap nothing is written when it moves down. *)
Lemma wp_movegap_stale b off : buffer_ok b -> 0 <= off <= b_gap b ->
  wp (fun _ => movegap off) b (fun _ b' =>
    take (Z.to_nat (off + room b)) (b_mem b') = take (Z.to_nat (off + room b)) (b_mem b)).
Proof.
  intros Hok Ho. pose proof Hok as [H1 H2 _]. unfold movegap. wstep.
  assert (ptr b off = off \/ (off = b_gap b /\ ptr b off = b_egap b)) as Hp.
  { unfold ptr. rewrite (proj2 (Z.ltb_ge off 0)) by lia. destruct (Z.ltb_spec off (b_gap b)); lia. }
  assert (b_egap b = b_gap b + room b) as Ee by (unfold room; lia).
  eapply (wp_call _ _ _ (fun _ b' => gap_at off b b' /\
    take (Z.to_nat (off + room b)) (b_mem b') = take (Z.to_nat (off + room b)) (b_mem b))).
  { apply wp_with_fuel. destruct Hp as [-> | [-> ->]].
    - apply wp_and; [|eapply wp_gap_down_stale; [reflexivity | lia | done | lia | done | done]].
      apply (wp_gap_down b off (Z.to_nat (b_gap b - off))); [|lia].
      replace (off + _) with (b_gap b) by lia. by apply gap_at_refl.
    - eapply wp_unfold; [intros n; reflexivity|]. cbn [gap_down]. wstep.
      rewrite (proj2 (Z.ltb_ge _ _)) by lia. apply wp_ret. split; [by apply gap_at_refl | done]. }
  intros _ b1 (Hg & Hs). cbn beta. pose proof Hg as ((mem & E1 & _) & _ & Hok1). pose proof Hok1 as [H3 H4 _].
  assert (b_egap b1 = off + room b) as Ee1 by (by rewrite E1).
  eapply (wp_call _ _ _ (fun _ b' => b' = b1)).
  { apply wp_with_fuel. eapply wp_unfold; [intros n; reflexivity|]. cbn [gap_up]. wstep.
    rewrite (proj2 (Z.ltb_ge _ _)) by lia. by apply wp_ret. }
  intros _ b2 ->. cbn beta. do 4 wstep. by apply wp_pos_egap.
Qed.
End gap.
