(* ===== verification/AttoLines.v ===== *)
(** * Atto: lines and segments (src/editors/atto/display.c, gap.c)

    A line of the text is shown on one or more lines of the screen, its segments:
    [seg_start] says where they start.  [segstart] and [segnext] find the
    segment an offset is in and the next one, [upup] and [dndn] move by one. *)

From Stdlib Require Import ZArith Lia.
From stdpp Require Import base numbers list gmap strings.
From S2P Require Import Prelude Atto AttoGap.

Open Scope Z_scope.

(** ** Code *)

(** [*p == '\t' ? 8 - (c & 7) : 1]. *)
Definition char_cols (c ch : Z) : Z := if ch =? 9 then 8 - Z.land c 7 else 1.

Section code.
Context `{machine}.

(** [do p = ptr(bp, --off); while (bp->b_buf < p && *p != '\n');] *)
Fixpoint lnstart_loop (fuel : nat) (off : Z) : B Z :=
  match fuel with
  | O => fail Out_of_fuel
  | S fuel =>
      let off := off - 1 in
      p ← gets (fun b => ptr b off);
      if 0 <? p then
        c ← load p;
        if negb (c =? 10) then lnstart_loop fuel off else mret (off + 1)
      else mret 0
  end.

Definition lnstart (off : Z) : B Z := with_fuel (fun fuel => lnstart_loop fuel off).

Fixpoint segstart_loop (fuel : nat) (start scan finish c : Z) : B Z :=
  match fuel with
  | O => fail Out_of_fuel
  | S fuel =>
      if scan <? finish then
        ch ← char_at scan;
        let '(c, start) :=
          if ch =? 10 then (0, scan + 1) else if COLS <=? c then (0, scan) else (c, start) in
        segstart_loop fuel start (scan + 1) finish (c + char_cols c ch)
      else mret (if c <? COLS then start else finish)
  end.

Definition segstart (start finish : Z) : B Z := with_fuel (fun fuel => segstart_loop fuel start start finish 0).

Fixpoint segnext_loop (fuel : nat) (scan c : Z) : B Z :=
  match fuel with
  | O => fail Out_of_fuel
  | S fuel =>
      b ← get_state;
      let p := ptr b scan in
      if b_ebuf b <=? p then end_pos else
      if COLS <=? c then mret scan else
      ch ← load p;
      if ch =? 10 then mret (scan + 1) else segnext_loop fuel (scan + 1) (c + char_cols c ch)
  end.

Definition segnext (start finish : Z) : B Z :=
  scan ← segstart start finish;
  with_fuel (fun fuel => segnext_loop fuel scan 0).

Definition upup (off : Z) : B Z :=
  curr ← lnstart off;
  seg ← segstart curr off;
  if curr <? seg then segstart curr (seg - 1)
  else l ← lnstart (curr - 1); segstart l (curr - 1).

Definition dndn (off : Z) : B Z := l ← lnstart off; segnext l off.

Fixpoint lncolumn_loop (fuel : nat) (offset column c : Z) : B Z :=
  match fuel with
  | O => fail Out_of_fuel
  | S fuel =>
      b ← get_state;
      let p := ptr b offset in
      if p <? b_ebuf b then
        ch ← load p;
        if negb (ch =? 10) && (c <? column)
        then lncolumn_loop fuel (offset + 1) column (c + char_cols c ch)
        else mret offset
      else mret offset
  end.

Definition lncolumn (offset column : Z) : B Z := with_fuel (fun fuel => lncolumn_loop fuel offset column 0).

(** *** Line numbers *)

Fixpoint line_loop (fuel : nat) (ln p start end_p : Z) : B Z :=
  match fuel with
  | O => fail Out_of_fuel
  | S fuel =>
      if p <? end_p then
        ch ← char_at p;
        if ch =? 10 then
          let ln := wrap32 (ln - 1) in
          if ln =? 0 then mret start
          else line_loop fuel ln (p + 1) (if p + 1 <? end_p then p + 1 else start) end_p
        else line_loop fuel ln (p + 1) start end_p
      else mret (-1)
  end.

Definition line_to_point (ln : Z) : B Z :=
  end_p ← end_pos;
  with_fuel (fun fuel => line_loop fuel ln 0 0 end_p).

Fixpoint stats_loop (fuel : nat) (p line curline lastline end_p : Z) : B (Z * Z) :=
  match fuel with
  | O => fail Out_of_fuel
  | S fuel =>
      if p <? end_p then
        ch ← char_at p;
        let line := if ch =? 10 then line + 1 else line in
        point ← gets b_point;
        let curline :=
          if (curline =? -1) && (p =? point) then (if ch =? 10 then line else line + 1) else curline in
        stats_loop fuel (p + 1) line curline line end_p
      else mret (curline, lastline)
  end.

(** [lastline] is what the caller passes in: on an empty buffer it is not assigned before [lastline + 1]. *)
Definition get_line_stats (lastline : Z) : B (Z * Z) :=
  end_p ← end_pos;
  '(curline, lastline) ← with_fuel (fun fuel => stats_loop fuel 0 0 (-1) lastline end_p);
  point ← gets b_point;
  mret (if point =? end_p then lastline + 1 else curline, lastline + 1).

End code.

(** ** Segments *)

Fixpoint cols (c : Z) (l : list Z) : Z :=
  match l with
  | ch :: l => cols (c + char_cols c ch) l
  | [] => c
  end.

Definition slice (t : list Z) (s e : Z) : list Z := take (Z.to_nat (e - s)) (drop (Z.to_nat s) t).

Section segments.
Context `{machine}.

Inductive seg_start (t : list Z) : Z -> Prop :=
  | seg_first : seg_start t 0
  | seg_line s : 0 <= s -> t !! Z.to_nat s = Some 10 -> seg_start t (s + 1)
  | seg_wrap s e : seg_start t s -> s < e -> 10 ∉ slice t s e -> cols 0 (slice t s (e - 1)) < COLS ->
      COLS <= cols 0 (slice t s e) -> seg_start t e.

(** [off] is on the segment that starts at [s]. *)
Record in_seg (t : list Z) (s off : Z) : Prop := {
  seg_le : s <= off;
  seg_is : seg_start t s;
  seg_no_newline : 10 ∉ slice t s off;
  seg_cols : cols 0 (slice t s off) < COLS
}.

Lemma char_cols_pos c ch : 0 < char_cols c ch.
Proof.
  unfold char_cols. destruct (ch =? 9); [|lia]. change 7 with (Z.ones 3). rewrite Z.land_ones by lia.
  pose proof (Z.mod_pos_bound c (2 ^ 3)). lia.
Qed.

Lemma cols_app c l l' : cols c (l ++ l') = cols (cols c l) l'.
Proof. revert c. induction l as [|ch l IH]; intros c; [done|]. apply IH. Qed.

Lemma cols_le c l : c <= cols c l.
Proof.
  revert c. induction l as [|ch l IH]; intros c; [done|]. simpl. pose proof (char_cols_pos c ch).
  specialize (IH (c + char_cols c ch)). lia.
Qed.

Lemma slice_nil t s : slice t s s = [].
Proof. unfold slice. by rewrite Z.sub_diag. Qed.

Lemma slice_snoc t s e ch : 0 <= s <= e -> t !! Z.to_nat e = Some ch -> slice t s (e + 1) = slice t s e ++ [ch].
Proof.
  intros Hs Hc. unfold slice. replace (Z.to_nat (e + 1 - s)) with (S (Z.to_nat (e - s))) by lia.
  apply take_S_r. rewrite lookup_drop. rewrite <- Hc. f_equal. lia.
Qed.

Lemma slice_app t s m e : 0 <= s <= m -> m <= e -> slice t s e = slice t s m ++ slice t m e.
Proof.
  intros H1 H2. unfold slice. rewrite <- (take_drop (Z.to_nat (m - s)) (take (Z.to_nat (e - s)) _)).
  rewrite take_take, Nat.min_l by lia. f_equal. rewrite skipn_firstn_comm, drop_drop. f_equal; [lia|]. f_equal. lia.
Qed.

Lemma slice_elem t s e i : 0 <= s <= i -> i < e -> forall ch, t !! Z.to_nat i = Some ch -> ch ∈ slice t s e.
Proof.
  intros H1 H2 ch Hc. apply list_elem_of_lookup. exists (Z.to_nat (i - s)). unfold slice.
  rewrite lookup_take_lt by lia. rewrite lookup_drop, <- Hc. f_equal. lia.
Qed.

Lemma cols_mono t s m e : 0 <= s <= m -> m <= e -> cols 0 (slice t s m) <= cols 0 (slice t s e).
Proof. intros H1 H2. rewrite (slice_app t s m e), cols_app by done. apply cols_le. Qed.

Lemma seg_nonneg t s : seg_start t s -> 0 <= s.
Proof. induction 1; lia. Qed.

Lemma in_seg_down t s off x : in_seg t s off -> s <= x <= off -> in_seg t s x.
Proof.
  intros [H1 H2 H3 H4] Hx. pose proof (seg_nonneg _ _ H2). split; [lia | done | |].
  - rewrite (slice_app t s x off) in H3 by lia. set_solver.
  - pose proof (cols_mono t s x off). lia.
Qed.

(** The segment of an offset is the last that starts at or before it. *)
Lemma in_seg_greatest t off : 0 <= off -> forall s s', in_seg t s off -> seg_start t s' -> s' <= off -> s' <= s.
Proof.
  intros H0. revert off H0. apply (Zlt_0_ind (fun off => forall s s', in_seg t s off -> seg_start t s' -> s' <= off -> s' <= s)).
  intros off IH H0 s s' Hin Hs' Hle. destruct (Z.le_gt_cases s' s) as [|Hlt]; [done|]. exfalso.
  pose proof Hin as [H1 H2 H3 H4]. pose proof (seg_nonneg _ _ H2).
  destruct Hs' as [|x Hx Hc|s'' s' Hs'' Hlt' Hn Hc1 Hc2]; [lia| |].
  - apply H3. by apply (slice_elem t s off x); [lia..|].
  - pose proof (seg_nonneg _ _ Hs'').
    assert (in_seg t s'' (s' - 1)) as Hin''.
    { split; [lia | done | | done]. rewrite (slice_app t s'' (s' - 1) s') in Hn by lia. set_solver. }
    assert (s <= s'') by (apply (IH (s' - 1) ltac:(lia) s'' s Hin'' H2); lia).
    assert (s'' <= s).
    { destruct (Z.le_gt_cases s'' s); [done|].
      apply (IH s'' ltac:(lia) s s''); [|done..]. apply (in_seg_down t s off); [done | lia]. }
    assert (s'' = s) as -> by lia. pose proof (cols_mono t s s' off). lia.
Qed.
(** Where the text has a first newline on its own, [lnstart] is right only while the gap is before it. *)
Definition first_line_ok (b : buffer) : Prop := text b !! 0%nat <> Some 10 \/ (b_gap b = 0 /\ 0 < room b).

(** [r] starts the line of [off]. *)
Record line_start (t : list Z) (off r : Z) : Prop := {
  line_le : 0 <= r <= off;
  line_after : r = 0 \/ t !! Z.to_nat (r - 1) = Some 10;
  line_no_newline : 10 ∉ slice t r off
}.

Lemma ptr_zero b off : buffer_ok b -> 0 <= off -> ptr b off <= 0 -> off = 0 /\ (0 < b_gap b \/ room b = 0).
Proof.
  intros [H1 H2 _] Ho. unfold ptr, room. rewrite (proj2 (Z.ltb_ge off 0)) by lia. destruct (Z.ltb_spec off (b_gap b)); lia.
Qed.

Lemma text_at b off : 0 <= off < size b -> exists c, text b !! Z.to_nat off = Some c.
Proof. intros Ho. apply lookup_lt_is_Some_2. unfold size in Ho. lia. Qed.

Lemma slice_cons t s e ch : 0 <= s < e -> t !! Z.to_nat s = Some ch -> slice t s e = ch :: slice t (s + 1) e.
Proof.
  intros Hs Hc. unfold slice. rewrite (drop_S _ ch) by done.
  replace (Z.to_nat (e - s)) with (S (Z.to_nat (e - (s + 1)))) by lia. simpl.
  by replace (Z.to_nat (s + 1)) with (S (Z.to_nat s)) by lia.
Qed.

Lemma wp_lnstart_loop b off : buffer_ok b -> first_line_ok b -> off <= size b -> forall k o, Z.to_nat o = k ->
  0 <= o <= off -> 10 ∉ slice (text b) o off ->
  wp (fun n => lnstart_loop n o) b (fun r b' => line_start (text b) off r /\ b' = b).
Proof.
  intros Hok Hfirst Hoff. induction k as [|k IH]; intros o Hk Ho Hn;
    (eapply wp_unfold; [intros n; reflexivity|]); cbn [lnstart_loop]; wstep.
  - assert (ptr b (o - 1) = 0) as -> by (unfold ptr; by rewrite (proj2 (Z.ltb_lt _ _)) by lia).
    assert (o = 0) as -> by lia. apply wp_ret. split; [|done]. split; [lia | by left | done].
  - destruct (text_at b (o - 1)) as [c Hc]; [lia|].
    assert (slice (text b) (o - 1) off = c :: slice (text b) o off) as Es.
    { rewrite (slice_cons _ _ _ c) by (done || lia). by replace (o - 1 + 1) with o by lia. }
    destruct (Z.ltb_spec 0 (ptr b (o - 1))) as [Hp|Hp].
    + apply wp_bind, wp_load with c; [lia | by rewrite <- text_lookup by (done || lia) |].
      destruct (Z.eqb_spec c 10) as [->|Hc10].
      * apply wp_ret. split; [|done]. replace (o - 1 + 1) with o by lia. split; [lia | by right | done].
      * apply IH; [lia.. |]. rewrite Es. set_solver.
    + destruct (ptr_zero b (o - 1)) as [Ho1 Hg]; [done | lia | done |].
      apply wp_ret. split; [|done]. rewrite Ho1 in Hc, Es. split; [lia | by left |]. rewrite Es.
      destruct Hfirst as [Hf|[??]]; [|lia]. assert (c <> 10) by (intros ->; by apply Hf). set_solver.
Qed.

Lemma wp_lnstart b off : buffer_ok b -> first_line_ok b -> 0 <= off <= size b ->
  wp (fun _ => lnstart off) b (fun r b' => line_start (text b) off r /\ b' = b).
Proof.
  intros Hok Hf Ho. apply wp_with_fuel. eapply (wp_lnstart_loop b off); [done | done | lia | done | lia |].
  rewrite slice_nil. set_solver.
Qed.

Lemma line_seg t off r : line_start t off r -> seg_start t r.
Proof.
  intros [H1 [->|Hr] _]; [constructor|]. destruct (Z.eq_dec r 0) as [->|]; [constructor|].
  replace r with (r - 1 + 1) by lia. constructor; [lia | done].
Qed.

(** *** [segstart] *)

Lemma wp_segstart_loop b finish : buffer_ok b -> finish <= size b -> 0 < COLS -> forall k start scan,
  Z.to_nat (finish - scan) = k -> scan <= finish -> seg_start (text b) start -> start <= scan ->
  10 ∉ slice (text b) start finish ->
  (start < scan -> cols 0 (slice (text b) start (scan - 1)) < COLS) ->
  wp (fun n => segstart_loop n start scan finish (cols 0 (slice (text b) start scan))) b
    (fun r b' => in_seg (text b) r finish /\ b' = b).
Proof.
  intros Hok Hfin HC. induction k as [|k IH]; intros start scan Hk Hle Hs Hss Hn Hc;
    (eapply wp_unfold; [intros n; reflexivity|]); cbn [segstart_loop]; pose proof (seg_nonneg _ _ Hs).
  - assert (scan = finish) as -> by lia. rewrite Z.ltb_irrefl. apply wp_ret. split; [|done].
    destruct (Z.ltb_spec (cols 0 (slice (text b) start finish)) COLS); [by split|].
    assert (start <> finish) by (intros ->; rewrite slice_nil in *; simpl in *; lia).
    split; [lia | eapply seg_wrap; [exact Hs | lia | done | apply Hc; lia | done] | |];
      rewrite slice_nil; [set_solver | done].
  - rewrite (proj2 (Z.ltb_lt _ _)) by lia. destruct (text_at b scan) as [ch Hch]; [lia|].
    apply wp_bind, (wp_char_at b scan _ ch); [done | lia | done |].
    assert (ch <> 10) as Hne by (intros ->; apply Hn; by apply (slice_elem _ _ _ scan); [lia..|]).
    rewrite (proj2 (Z.eqb_neq ch 10)) by done. destruct (Z.leb_spec COLS (cols 0 (slice (text b) start scan))).
    + assert (start <> scan) by (intros ->; rewrite slice_nil in *; simpl in *; lia).
      assert (seg_start (text b) scan).
      { eapply seg_wrap; [exact Hs | lia | | apply Hc; lia | done].
        rewrite (slice_app _ start scan finish) in Hn by lia. set_solver. }
      replace (0 + char_cols 0 ch) with (cols 0 (slice (text b) scan (scan + 1)))
        by (rewrite (slice_snoc _ _ _ ch) by (done || lia); by rewrite slice_nil).
      apply IH; [lia.. | done | lia | |].
      * rewrite (slice_app _ start scan finish) in Hn by lia. set_solver.
      * intros _. replace (scan + 1 - 1) with scan by lia. by rewrite slice_nil.
    + replace (cols 0 (slice (text b) start scan) + _) with (cols 0 (slice (text b) start (scan + 1)))
        by (rewrite (slice_snoc _ start scan ch) by (done || lia); by rewrite cols_app).
      apply IH; [lia.. | done | lia | done |]. intros _. by replace (scan + 1 - 1) with scan by lia.
Qed.

Lemma wp_segstart b start finish : buffer_ok b -> finish <= size b -> 0 < COLS -> start <= finish ->
  seg_start (text b) start -> 10 ∉ slice (text b) start finish ->
  wp (fun _ => segstart start finish) b (fun r b' => in_seg (text b) r finish /\ b' = b).
Proof.
  intros Hok Hf HC Hle Hs Hn. apply wp_with_fuel.
  pose proof (wp_segstart_loop b finish Hok Hf HC _ start start eq_refl Hle Hs) as Hw. rewrite slice_nil in Hw.
  apply Hw; [lia | done | lia].
Qed.

(** *** [segnext], [dndn], [upup] *)

Lemma seg_le_len t s : seg_start t s -> s <= Z.of_nat (length t).
Proof.
  induction 1 as [|s Hs Hc|s e Hs IH Hlt Hn Hc1 Hc2]; [lia | apply lookup_lt_Some in Hc; lia |].
  destruct (Z.le_gt_cases e (Z.of_nat (length t))) as [|Hg]; [done|]. exfalso. pose proof (seg_nonneg _ _ Hs).
  unfold slice in *. rewrite take_ge in Hc1, Hc2 by (rewrite length_drop; lia). lia.
Qed.

(** [r] starts the first segment behind [off]; the end of the text when there is none. *)
Record next_start (t : list Z) (off r : Z) : Prop := {
  next_le : off <= r <= Z.of_nat (length t);
  next_is : (off < r /\ seg_start t r) \/ r = Z.of_nat (length t);
  next_least : forall s, seg_start t s -> off < s -> r <= s
}.

Lemma next_start_intro t s off r : in_seg t s off -> (r = s \/ in_seg t s (r - 1)) ->
  r <= Z.of_nat (length t) -> (off < r /\ seg_start t r) \/ r = Z.of_nat (length t) -> off <= r -> next_start t off r.
Proof.
  intros Hin Hr Hl His Hle. split; [lia | done |]. intros s' Hs' Ho. destruct (Z.le_gt_cases r s') as [|Hg]; [done|].
  pose proof Hin as [H1 H2 _ _]. pose proof (seg_nonneg _ _ H2). destruct Hr as [->|Hr]; [lia|].
  assert (s' <= s) by (apply (in_seg_greatest t (r - 1) ltac:(lia) s s' Hr Hs'); lia). lia.
Qed.

Lemma wp_segnext_loop b s off : buffer_ok b -> 0 < COLS -> off <= size b -> in_seg (text b) s off -> forall k scan,
  Z.to_nat (size b - scan) = k -> s <= scan <= size b -> 10 ∉ slice (text b) s scan ->
  (s < scan -> cols 0 (slice (text b) s (scan - 1)) < COLS) ->
  wp (fun n => segnext_loop n scan (cols 0 (slice (text b) s scan))) b
    (fun r b' => next_start (text b) off r /\ b' = b).
Proof.
  intros Hok HC Hoff Hin. pose proof Hin as [Hso Hs Hno Hco]. pose proof (seg_nonneg _ _ Hs).
  induction k as [|k IH]; intros scan Hk Hle Hn Hc; (eapply wp_unfold; [intros n; reflexivity|]);
    cbn [segnext_loop]; wstep.
  - assert (scan = size b) as -> by lia. rewrite ptr_size by done. rewrite Z.leb_refl.
    apply wp_end_pos; [done|]. split; [|done]. apply (next_start_intro _ s); [done | | done | by right | lia].
    destruct (Z.eq_dec (size b) s) as [|]; [by left|]. right. split; [lia | done | | apply Hc; lia].
    rewrite (slice_app _ s (size b - 1)) in Hn by lia. set_solver.
  - pose proof (ptr_bounds b scan Hok ltac:(lia)) as Hp. rewrite (proj2 (Z.leb_gt _ _)) by lia.
    assert (scan = s \/ in_seg (text b) s (scan - 1)) as Hprev.
    { destruct (Z.eq_dec scan s) as [|]; [by left|]. right. split; [lia | done | | apply Hc; lia].
      rewrite (slice_app _ s (scan - 1)) in Hn by lia. set_solver. }
    destruct (Z.leb_spec COLS (cols 0 (slice (text b) s scan))) as [Hw|Hw].
    + assert (off < scan) as Hos.
      { destruct (Z.le_gt_cases scan off); [|lia]. pose proof (cols_mono (text b) s scan off). lia. }
      apply wp_ret. split; [|done]. apply (next_start_intro _ s); [done | done | unfold size in *; lia | left | lia].
      split; [done|]. eapply seg_wrap; [exact Hs | lia | done | apply Hc; lia | done].
    + destruct (text_at b scan) as [ch Hch]; [lia|].
      apply wp_bind, wp_load with ch; [lia | by rewrite <- text_lookup by (done || lia) |].
      assert (in_seg (text b) s scan) as Hscan by (by split; [lia | | |]).
      destruct (Z.eqb_spec ch 10) as [->|Hne].
      * assert (off <= scan) as Hos.
        { destruct (Z.le_gt_cases off scan); [done|]. exfalso. apply Hno. by apply (slice_elem _ _ _ scan); [lia..|]. }
        apply wp_ret. split; [|done]. apply (next_start_intro _ s); [done | | unfold size in *; lia | left | lia].
        -- right. by replace (scan + 1 - 1) with scan by lia.
        -- split; [lia|]. constructor; [lia | done].
      * assert (slice (text b) s (scan + 1) = slice (text b) s scan ++ [ch]) as Es by (apply slice_snoc; [lia | done]).
        replace (cols 0 (slice (text b) s scan) + _) with (cols 0 (slice (text b) s (scan + 1)))
          by (by rewrite Es, cols_app).
        apply IH; [lia.. | rewrite Es; set_solver |]. intros _. by replace (scan + 1 - 1) with scan by lia.
Qed.

Lemma wp_segnext b start off : buffer_ok b -> 0 < COLS -> off <= size b -> start <= off ->
  seg_start (text b) start -> 10 ∉ slice (text b) start off ->
  wp (fun _ => segnext start off) b (fun r b' => next_start (text b) off r /\ b' = b).
Proof.
  intros Hok HC Hoff Hle Hs Hn. unfold segnext.
  eapply wp_call; [by apply wp_segstart|]. cbn beta. intros s b' (Hin & ->). apply wp_with_fuel.
  pose proof Hin as [H1 H2 _ _]. pose proof (wp_segnext_loop b s off Hok HC Hoff Hin _ s eq_refl) as Hw.
  rewrite slice_nil in Hw. apply Hw; [lia | set_solver | lia].
Qed.

Lemma wp_dndn b off : buffer_ok b -> first_line_ok b -> 0 < COLS -> 0 <= off <= size b ->
  wp (fun _ => dndn off) b (fun r b' => next_start (text b) off r /\ b' = b).
Proof.
  intros Hok Hf HC Ho. unfold dndn. eapply wp_call; [by apply wp_lnstart|]. cbn beta. intros l b' (Hl & ->).
  pose proof Hl as [? _ ?]. apply wp_segnext; [done | done | lia | lia | by eapply line_seg | done].
Qed.

Lemma wp_lnstart_first b off : off <= 0 -> wp (fun _ => lnstart off) b (fun r b' => r = 0 /\ b' = b).
Proof.
  intros Ho. apply wp_with_fuel. eapply wp_unfold; [intros n; reflexivity|]. cbn [lnstart_loop]. wstep.
  unfold ptr. rewrite (proj2 (Z.ltb_lt (off - 1) 0)) by lia. by apply wp_ret.
Qed.

Lemma wp_segstart_same b start finish : 0 < COLS -> finish <= start ->
  wp (fun _ => segstart start finish) b (fun r b' => r = start /\ b' = b).
Proof.
  intros HC Hle. apply wp_with_fuel. eapply wp_unfold; [intros n; reflexivity|]. cbn [segstart_loop].
  rewrite (proj2 (Z.ltb_ge _ _)), (proj2 (Z.ltb_lt 0 COLS)) by lia. by apply wp_ret.
Qed.

(** One segment up from the segment [s]. *)
Definition prev_start (t : list Z) (s r : Z) : Prop := (s = 0 -> r = 0) /\ (0 < s -> in_seg t r (s - 1)).

Lemma wp_upup b off : buffer_ok b -> first_line_ok b -> 0 < COLS -> 0 <= off <= size b ->
  wp (fun _ => upup off) b (fun r b' => (exists s, in_seg (text b) s off /\ prev_start (text b) s r) /\ b' = b).
Proof.
  intros Hok Hf HC Ho. unfold upup. eapply wp_call; [by apply wp_lnstart|]. cbn beta. intros curr b' (Hl & ->).
  pose proof Hl as [H1 _ Hn]. pose proof (line_seg _ _ _ Hl) as Hcs.
  eapply wp_call; [apply wp_segstart; [done | lia | done | lia | done | done]|]. cbn beta. intros s b' (Hin & ->).
  pose proof Hin as [H2 H3 _ _].
  assert (curr <= s) as Hle by (apply (in_seg_greatest (text b) off ltac:(lia) s curr Hin Hcs); lia).
  destruct (Z.ltb_spec curr s).
  - eapply wp_mono; [apply wp_segstart; [done | lia | done | lia | done |]|].
    { rewrite (slice_app _ curr (s - 1) off) in Hn by lia. set_solver. }
    cbn beta. intros r b' (Hr & ->). split; [|done]. exists s. split; [done|]. by split; [lia|].
  - assert (s = curr) as -> by lia. destruct (Z.eq_dec curr 0) as [->|].
    + eapply wp_call; [by apply wp_lnstart_first|]. cbn beta. intros l b' (-> & ->).
      eapply wp_mono; [by apply wp_segstart_same|]. cbn beta. intros r b' (-> & ->). split; [|done].
      exists 0. split; [done|]. by split; [|lia].
    + eapply wp_call; [apply wp_lnstart; [done | done | lia]|]. cbn beta. intros l b' (Hl' & ->).
      pose proof Hl' as [? _ ?]. eapply wp_mono; [apply wp_segstart; [done | lia | done | lia | by eapply line_seg | done]|].
      cbn beta. intros r b' (Hr & ->). split; [|done]. exists curr. split; [done|]. by split; [lia|].
Qed.

(** *** [lncolumn] *)

(** [r] is the column's place on the line from [off] on: at most its end. *)
Record column_at (t : list Z) (off column r : Z) : Prop := {
  column_le : off <= r <= Z.of_nat (length t);
  column_line : 10 ∉ slice t off r;
  column_stop : r = Z.of_nat (length t) \/ t !! Z.to_nat r = Some 10 \/ column <= cols 0 (slice t off r);
  column_first : off < r -> cols 0 (slice t off (r - 1)) < column
}.

Lemma wp_lncolumn b off column : buffer_ok b -> 0 <= off <= size b ->
  wp (fun _ => lncolumn off column) b (fun r b' => column_at (text b) off column r /\ b' = b).
Proof.
  intros Hok Ho. apply wp_with_fuel.
  assert (forall k o, Z.to_nat (size b - o) = k -> off <= o <= size b -> 10 ∉ slice (text b) off o ->
    (off < o -> cols 0 (slice (text b) off (o - 1)) < column) ->
    wp (fun n => lncolumn_loop n o column (cols 0 (slice (text b) off o))) b
      (fun r b' => column_at (text b) off column r /\ b' = b)) as Hloop.
  { induction k as [|k IH]; intros o Hk Hle Hn Hc; (eapply wp_unfold; [intros n; reflexivity|]);
      cbn [lncolumn_loop]; wstep.
    - assert (o = size b) as -> by lia. rewrite ptr_size, Z.ltb_irrefl by done. apply wp_ret. split; [|done].
      split; [unfold size in *; lia | done | by left | done].
    - pose proof (ptr_bounds b o Hok ltac:(lia)). rewrite (proj2 (Z.ltb_lt _ _)) by lia.
      destruct (text_at b o) as [ch Hch]; [lia|].
      apply wp_bind, wp_load with ch; [lia | by rewrite <- text_lookup by (done || lia) |].
      assert (slice (text b) off (o + 1) = slice (text b) off o ++ [ch]) as Es by (apply slice_snoc; [lia | done]).
      destruct (Z.eqb_spec ch 10) as [->|Hne]; [|destruct (Z.ltb_spec (cols 0 (slice (text b) off o)) column)];
        cbn [negb andb].
      + apply wp_ret. split; [|done]. split; [unfold size in *; lia | done | by right; left | done].
      + replace (cols 0 (slice (text b) off o) + _) with (cols 0 (slice (text b) off (o + 1)))
          by (by rewrite Es, cols_app).
        apply IH; [lia.. | rewrite Es; set_solver |]. intros _. by replace (o + 1 - 1) with o by lia.
      + apply wp_ret. split; [|done]. split; [unfold size in *; lia | done | by right; right | done]. }
  pose proof (Hloop _ off eq_refl) as Hw. rewrite slice_nil in Hw. apply Hw; [lia | set_solver | lia].
Qed.

(** *** Line numbers *)

Definition newlines (l : list Z) : Z := Z.of_nat (length (filter (fun c => c = 10) l)).

Lemma newlines_snoc t p c : 0 <= p -> t !! Z.to_nat p = Some c ->
  newlines (take (Z.to_nat (p + 1)) t) = newlines (take (Z.to_nat p) t) + (if c =? 10 then 1 else 0).
Proof.
  intros Hp Hc. replace (Z.to_nat (p + 1)) with (S (Z.to_nat p)) by lia. rewrite (take_S_r _ _ c) by done.
  unfold newlines. rewrite filter_app, length_app. cbn [filter list_filter]. destruct (Z.eqb_spec c 10).
  - rewrite decide_True by done. simpl. lia.
  - rewrite decide_False by done. simpl. lia.
Qed.

Lemma line_start_step t p start c : line_start t p start -> t !! Z.to_nat p = Some c ->
  line_start t (p + 1) (if c =? 10 then p + 1 else start).
Proof.
  intros [H1 H2 H3] Hc. destruct (Z.eqb_spec c 10) as [->|].
  - split; [lia | right; by replace (p + 1 - 1) with p by lia | rewrite slice_nil; set_solver].
  - split; [lia | done |]. rewrite (slice_snoc t start p c) by (lia || done). set_solver.
Qed.

(** Line [ln], counted from 1, ends with a newline and starts at [r]. *)
Definition numbered_line (t : list Z) (ln r : Z) : Prop :=
  exists e, t !! Z.to_nat e = Some 10 /\ line_start t e r /\ newlines (take (Z.to_nat e) t) = ln - 1.

Lemma wp_line_loop b ln0 : buffer_ok b -> 1 <= ln0 -> int32 ln0 -> forall k p ln start, Z.to_nat (size b - p) = k ->
  0 <= p <= size b -> newlines (take (Z.to_nat p) (text b)) = ln0 - ln -> 1 <= ln ->
  (p < size b -> line_start (text b) p start) ->
  wp (fun n => line_loop n ln p start (size b)) b (fun r b' =>
    (numbered_line (text b) ln0 r \/ (r = -1 /\ newlines (text b) < ln0)) /\ b' = b).
Proof.
  intros Hok H1 Hi. induction k as [|k IH]; intros p ln start Hk Hp Hn Hln Hs;
    (eapply wp_unfold; [intros n; reflexivity|]); cbn [line_loop].
  - assert (p = size b) as -> by lia. rewrite Z.ltb_irrefl. apply wp_ret. split; [|done]. right. split; [done|].
    rewrite take_ge in Hn by (unfold size; lia). lia.
  - rewrite (proj2 (Z.ltb_lt _ _)) by lia. destruct (text_at b p) as [c Hc]; [lia|]. specialize (Hs ltac:(lia)).
    apply wp_bind, (wp_char_at b p _ c); [done | lia | done |].
    pose proof (newlines_snoc _ p c ltac:(lia) Hc) as Hn'. pose proof (line_start_step _ _ _ _ Hs Hc) as Hs'.
    unfold int32 in Hi. assert (0 <= newlines (take (Z.to_nat p) (text b))) by (unfold newlines; lia).
    destruct (Z.eqb_spec c 10) as [->|Hne].
    + rewrite wrap32_id by (unfold int32; lia). destruct (Z.eqb_spec (ln - 1) 0).
      * apply wp_ret. split; [|done]. left. exists p. split; [done|]. split; [done|]. lia.
      * apply IH; [lia..|]. intros Hlt. by rewrite (proj2 (Z.ltb_lt _ _)).
    + apply IH; [lia..|]. by intros _.
Qed.

Lemma wp_line_to_point b ln : buffer_ok b -> 1 <= ln -> int32 ln ->
  wp (fun _ => line_to_point ln) b (fun r b' =>
    (numbered_line (text b) ln r \/ (r = -1 /\ newlines (text b) < ln)) /\ b' = b).
Proof.
  intros Hok H1 Hi. unfold line_to_point. apply wp_bind, wp_end_pos; [done|]. apply wp_with_fuel.
  apply (wp_line_loop b ln Hok H1 Hi _ 0 ln 0 eq_refl); [unfold size; lia | by rewrite Z.sub_diag | lia |].
  intros _. split; [lia | by left | rewrite slice_nil; set_solver].
Qed.

Lemma wp_stats_loop b : buffer_ok b -> 0 <= b_point b -> forall k p curline last, Z.to_nat (size b - p) = k -> 0 <= p <= size b ->
  (curline = if b_point b <? p then newlines (take (Z.to_nat (b_point b)) (text b)) + 1 else -1) ->
  (0 < p -> last = newlines (take (Z.to_nat p) (text b))) ->
  wp (fun n => stats_loop n p (newlines (take (Z.to_nat p) (text b))) curline last (size b)) b (fun r b' =>
    r = (if b_point b <? size b then newlines (take (Z.to_nat (b_point b)) (text b)) + 1 else -1,
         if 0 <? size b then newlines (text b) else last) /\ b' = b).
Proof.
  intros Hok Hpt. induction k as [|k IH]; intros p curline last Hk Hp Hc Hl;
    (eapply wp_unfold; [intros n; reflexivity|]); cbn [stats_loop].
  - assert (p = size b) as -> by lia. rewrite Z.ltb_irrefl. apply wp_ret. split; [|done]. rewrite Hc. f_equal.
    destruct (Z.ltb_spec 0 (size b)) as [Hs|]; [|done]. rewrite (Hl Hs), take_ge by (unfold size; lia). done.
  - rewrite (proj2 (Z.ltb_lt p _)) by lia. destruct (text_at b p) as [c Hch]; [lia|].
    apply wp_bind, (wp_char_at b p _ c); [done | lia | done |]. cbn beta zeta. wstep.
    pose proof (newlines_snoc _ p c ltac:(lia) Hch) as Hn.
    assert (0 <= newlines (take (Z.to_nat (b_point b)) (text b))) by (unfold newlines; lia).
    assert ((if c =? 10 then newlines (take (Z.to_nat p) (text b)) + 1 else newlines (take (Z.to_nat p) (text b)))
      = newlines (take (Z.to_nat (p + 1)) (text b))) as -> by (rewrite Hn; destruct (c =? 10); lia).
    assert (0 < size b) as Hs by lia. pose proof (IH (p + 1)) as Hw. rewrite (proj2 (Z.ltb_lt 0 (size b)) Hs) in *.
    apply Hw; [lia | lia | | done]. rewrite Hc. destruct (Z.ltb_spec (b_point b) p).
    + rewrite (proj2 (Z.eqb_neq _ (-1))), (proj2 (Z.ltb_lt (b_point b) (p + 1))) by lia. done.
    + cbn [Z.eqb Pos.eqb andb]. destruct (Z.eqb_spec p (b_point b)) as [->|].
      * rewrite (proj2 (Z.ltb_lt _ (b_point b + 1))) by lia. rewrite Hn. destruct (c =? 10); lia.
      * by rewrite (proj2 (Z.ltb_ge (b_point b) (p + 1))) by lia.
Qed.

Lemma wp_get_line_stats b last : buffer_ok b -> 0 <= b_point b <= size b -> 0 < size b ->
  wp (fun _ => get_line_stats last) b (fun r b' =>
    r = (newlines (take (Z.to_nat (b_point b)) (text b)) + 1, newlines (text b) + 1) /\ b' = b).
Proof.
  intros Hok Hp Hs. unfold get_line_stats. apply wp_bind, wp_end_pos; [done|].
  eapply wp_call; [apply wp_with_fuel, (wp_stats_loop b Hok ltac:(lia) _ 0 (-1) last eq_refl)|];
    [lia | by rewrite (proj2 (Z.ltb_ge _ _)) by lia | lia |].
  cbn beta. intros [curline lastline] b' (E & ->). injection E as -> ->. wstep. apply wp_ret. split; [|done].
  rewrite (proj2 (Z.ltb_lt 0 _) Hs). destruct (Z.eqb_spec (b_point b) (size b)) as [E|].
  - rewrite E, take_ge by (unfold size; lia). done.
  - by rewrite (proj2 (Z.ltb_lt _ _)) by lia.
Qed.
End segments.
