(* ===== verification/AttoEdit.v ===== *)
(** * Atto: editing commands (src/editors/atto/command.c, gap.c)

    A command that uses no global but [curbp] is a program on a [buffer]; the others are
    programs on the [editor].  The commands are proved against an
    editor on plain lists ([doc], [astep]). *)

From Stdlib Require Import ZArith Lia.
From stdpp Require Import base numbers list gmap strings.
From S2P Require Import Prelude Atto AttoGap AttoLines.

Open Scope Z_scope.

(** ** Code *)

Definition set_modified (b : buffer) : buffer := with_flags (Z.lor (b_flags b) B_MODIFIED) b.
Definition overwriting (b : buffer) : bool := negb (Z.land (b_flags b) B_OVERWRITE =? 0).

(** [isspace] in the C locale. *)
Definition isspace (c : Z) : bool := (c =? 32) || ((9 <=? c) && (c <=? 13)).

Section code.
Context `{machine}.

(** *** Motion *)

Definition top : E unit :=
  cur (modify (with_point 0));;
  point ← cur (gets b_point);
  wp ← gets curwp;
  at_window wp (modify (with_w_point point)).

Definition bottom : E unit :=
  cur (e ← end_pos; modify (fun b => with_epage e (with_point e b)));;
  point ← cur (gets b_point);
  wp ← gets curwp;
  at_window wp (modify (with_w_point point)).

Definition left_ : B unit :=
  b ← get_state;
  if 0 <? b_point b then modify (with_point (b_point b - 1)) else mret tt.

Definition right_ : B unit :=
  point ← gets b_point;
  e ← end_pos;
  if point <? e then modify (with_point (point + 1)) else mret tt.

Definition up : B unit :=
  b ← get_state;
  off ← upup (b_point b);
  off ← lncolumn off (b_col b);
  modify (with_point off).

Definition down : B unit :=
  b ← get_state;
  off ← dndn (b_point b);
  off ← lncolumn off (b_col b);
  modify (with_point off).

Definition lnbegin : B unit :=
  b ← get_state;
  l ← lnstart (b_point b);
  off ← segstart l (b_point b);
  modify (with_point off).

Definition lnend : B unit :=
  b ← get_state;
  off ← dndn (b_point b);
  modify (with_point off);;
  left_.

(** The two loops of [wleft], over what is no space and over what is. *)
Fixpoint wleft_loop (fuel : nat) (space : bool) : B unit :=
  match fuel with
  | O => fail Out_of_fuel
  | S fuel =>
      b ← get_state;
      let p := ptr b (b_point b) in
      c ← load p;
      if Bool.eqb (isspace c) space && (0 <? p) then
        modify (with_point (b_point b - 1));; wleft_loop fuel space
      else mret tt
  end.

Definition wleft : B unit :=
  with_fuel (fun fuel => wleft_loop fuel false);;
  with_fuel (fun fuel => wleft_loop fuel true).

Fixpoint wright_loop (fuel : nat) (space : bool) : B unit :=
  match fuel with
  | O => fail Out_of_fuel
  | S fuel =>
      b ← get_state;
      let p := ptr b (b_point b) in
      c ← load p;
      if Bool.eqb (isspace c) space && (p <? b_ebuf b) then
        modify (with_point (b_point b + 1));; wright_loop fuel space
      else mret tt
  end.

Definition wright : B unit :=
  with_fuel (fun fuel => wright_loop fuel false);;
  with_fuel (fun fuel => wright_loop fuel true).

(** [while (0 < curbp->b_row--) down();] *)
Fixpoint pgdown_loop (fuel : nat) : B unit :=
  match fuel with
  | O => fail Out_of_fuel
  | S fuel =>
      row ← gets b_row;
      modify (with_row (row - 1));;
      if 0 <? row then down;; pgdown_loop fuel else mret tt
  end.

Definition pgdown : B unit :=
  b ← get_state;
  off ← upup (b_epage b);
  modify (fun b => with_page off (with_point off b));;
  with_fuel pgdown_loop;;
  e ← end_pos;
  modify (with_epage e).

Fixpoint pgup_loop (n : nat) : B unit :=
  match n with
  | O => mret tt
  | S n =>
      page ← gets b_page;
      off ← upup page;
      modify (with_page off);;
      up;;
      pgup_loop n
  end.

Definition pgup : E unit :=
  wp ← gets curwp;
  i ← at_window wp (gets w_rows);
  cur (pgup_loop (Z.to_nat (i - 1))).

(** *** Changes *)

(** The condition of overwriting: mid line, and not a carriage return. *)
Definition overwrites (input : Z) : B bool :=
  b ← get_state;
  if negb (overwriting b) || (input =? 13) then mret false else
  c ← char_at (b_point b);
  if c =? 10 then mret false else
  e ← end_pos;
  mret (b_point b <? e).

(** [insert] behind the growth of the gap. *)
Definition insert_body (input : Z) : B unit :=
  point ← gets b_point;
  r ← movegap point;
  modify (with_point r);;
  over ← overwrites input;
  (if over : bool then
    b ← get_state;
    store (ptr b (b_point b)) input;;
    e ← end_pos;
    if b_point b <? e then modify (with_point (b_point b + 1)) else mret tt
  else
    b ← get_state;
    store (b_gap b) (if input =? 13 then 10 else input);;
    modify (with_gap (b_gap b + 1));;
    b ← get_state;
    r ← pos (b_egap b);
    modify (with_point r));;
  modify set_modified.

Definition insert_ : E unit :=
  b ← cur get_state;
  assert_that (b_gap b <=? b_egap b);;
  bp ← gets curbp;
  ok ← (if b_gap b =? b_egap b then growgap bp CHUNK else mret true);
  if ok : bool then
    c ← gets input;
    cur (insert_body c)
  else mret tt.

Definition backsp : B unit :=
  point ← gets b_point;
  r ← movegap point;
  modify (with_point r);;
  undoset;;
  b ← get_state;
  (if 0 <? b_gap b then modify (fun b => set_modified (with_gap (b_gap b - 1) b)) else mret tt);;
  b ← get_state;
  r ← pos (b_egap b);
  modify (with_point r).

Definition delete_ : B unit :=
  point ← gets b_point;
  r ← movegap point;
  modify (with_point r);;
  undoset;;
  b ← get_state;
  if b_egap b <? b_ebuf b then
    modify (with_egap (b_egap b + 1));;
    b ← get_state;
    r ← pos (b_egap b);
    modify (fun b => set_modified (with_point r b))
  else mret tt.

Definition block : B unit :=
  b ← get_state;
  modify (with_mark (if b_mark b =? NOMARK then b_point b else NOMARK)).

Definition iblock : E unit := cur block;; msg "str_mark" [].

Definition toggle_overwrite_mode : B unit :=
  b ← get_state;
  if overwriting b then modify (with_flags (Z.ldiff (b_flags b) B_OVERWRITE))
  else modify (with_flags (Z.lor (b_flags b) B_OVERWRITE)).

(** [memcpy] out of the block and into it. *)
Fixpoint load_block (n : nat) (p : Z) : B (list Z) :=
  match n with
  | O => mret []
  | S n => c ← load p; l ← load_block n (p + 1); mret (c :: l)
  end.

Fixpoint store_block (p : Z) (l : list Z) : B unit :=
  match l with
  | [] => mret tt
  | c :: l => store p c;; store_block (p + 1) l
  end.

(** [copy_cut] behind its [memcpy]. *)
Definition copy_finish (cut : bool) (nscrap : Z) : B unit :=
  if cut then
    modify (fun b => with_egap (b_egap b + nscrap) b);;
    block;;
    b ← get_state;
    r ← pos (b_egap b);
    modify (fun b => set_modified (with_point r b))
  else block.

Definition copy_cut (cut : bool) : E unit :=
  b ← cur get_state;
  if (b_mark b =? NOMARK) || (b_point b =? b_mark b) then mret tt else
  modify (with_scrap None);;
  p ← (if b_point b <? b_mark b then
         cur (movegap (b_point b));;
         modify (with_nscrap (b_mark b - b_point b));;
         mret (ptr b (b_point b))
       else
         cur (movegap (b_mark b));;
         modify (with_nscrap (b_point b - b_mark b));;
         mret (ptr b (b_mark b)));
  n ← gets nscrap;
  if negb (alloc_ok n) then msg "m_alloc" [] else
  cur undoset;;
  l ← cur (load_block (Z.to_nat n) p);
  modify (with_scrap (Some l));;
  cur (copy_finish cut n).

Definition copy_ : E unit := copy_cut false.
Definition cut : E unit := copy_cut true.

Definition killtoeol : E unit :=
  b ← cur get_state;
  c ← cur (char_at (b_point b));
  if (c =? 10) || (b_point b + 1 =? b_ebuf b - (b_egap b - b_gap b)) then cur delete_
  else
    cur (modify (with_mark (b_point b)));;
    cur lnend;;
    copy_cut true.

(** [paste] behind the growth of the gap; a NULL scrap is a fault of [memcpy]. *)
Definition paste_body (scrap : option (list Z)) (nscrap : Z) : B unit :=
  point ← gets b_point;
  r ← movegap point;
  modify (with_point r);;
  undoset;;
  match scrap with
  | None => fail Bad_pointer
  | Some l =>
      gap ← gets b_gap;
      store_block gap l;;
      modify (fun b => with_gap (b_gap b + nscrap) b);;
      b ← get_state;
      r ← pos (b_egap b);
      modify (fun b => set_modified (with_point r b))
  end.

Definition paste : E unit :=
  b ← cur get_state;
  if overwriting b then mret tt else
  n ← gets nscrap;
  if n <=? 0 then msg "m_scrap" [] else
  bp ← gets curbp;
  ok ← (if n <? b_egap b - b_gap b then mret true else growgap bp n);
  if ok : bool then
    l ← gets scrap;
    cur (paste_body l n)
  else mret tt.

(** [showpos]; [lastln] is the content of its uninitialized local. *)

Definition showpos (lastln : Z) : E unit :=
  end_p ← cur end_pos;
  '(current, lastln) ← cur (get_line_stats lastln);
  b ← cur get_state;
  let total := (b_ebuf b) - (b_egap b - b_gap b) in
  if b_point b =? end_p then
    msg "str_endpos" [Int_arg current; Int_arg lastln; Int_arg (b_point b); Int_arg total]
  else
    c ← cur (char_at (b_point b));
    msg "str_pos" [Int_arg c; Int_arg c; Int_arg current; Int_arg lastln; Int_arg (b_point b); Int_arg total].

Definition version : E unit := msg "m_version" [].

End code.
