(* ===== verification/AttoSpec.v ===== *)
(** * Atto: the editor on plain lists that the commands implement

    [doc] is a text with a point, a mark, flags and the scrap, [held] a [doc] and where the gap is; [astep] says
    what each command does to them.  [shows] and [holds] relate the editor to them; every command
    is simulated, but for the states in [stuck], where the code copies behind the end of the text or from a lost scrap. *)

From Stdlib Require Import ZArith Lia.
From stdpp Require Import base numbers list gmap strings.
From S2P Require Import Prelude Atto AttoGap AttoLines AttoEdit.

Open Scope Z_scope.

(** ** The abstract editor *)

Record doc := Doc {
  d_text : list Z;
  d_point : Z;
  d_mark : Z;
  d_flags : Z;
  d_scrap : option (list Z);
  d_nscrap : Z
}.

Definition d_size (d : doc) : Z := Z.of_nat (length (d_text d)).
Definition d_overwriting (d : doc) : bool := negb (Z.land (d_flags d) B_OVERWRITE =? 0).

(** A change of the text that leaves the point at [p]. *)
Definition changed (t : list Z) (p : Z) (d : doc) : doc :=
  Doc t p (d_mark d) (Z.lor (d_flags d) B_MODIFIED) (d_scrap d) (d_nscrap d).
Definition moved (p : Z) (d : doc) : doc := Doc (d_text d) p (d_mark d) (d_flags d) (d_scrap d) (d_nscrap d).
Definition marked (m : Z) (d : doc) : doc := Doc (d_text d) (d_point d) m (d_flags d) (d_scrap d) (d_nscrap d).
Definition flagged (f : Z) (d : doc) : doc := Doc (d_text d) (d_point d) (d_mark d) f (d_scrap d) (d_nscrap d).
Definition scrapped (l : option (list Z)) (n : Z) (d : doc) : doc :=
  Doc (d_text d) (d_point d) (d_mark d) (d_flags d) l n.

(** The text with [l] at [p], and without what lies from [p] to [q]. *)
Definition put (p : Z) (l t : list Z) : list Z := take (Z.to_nat p) t ++ l ++ drop (Z.to_nat p) t.
Definition remove (p q : Z) (t : list Z) : list Z := take (Z.to_nat p) t ++ drop (Z.to_nat q) t.

Inductive command :=
  | Left | Right | Top | Bottom | Type_ (c : Z) | Backsp | Delete | Block | Toggle | Copy | Cut | Paste.

(** Where typing [c] replaces the character at the point. *)
Definition replaces (c : Z) (d : doc) : bool :=
  d_overwriting d && negb (c =? 13) &&
  match d_text d !! Z.to_nat (d_point d) with Some ch => negb (ch =? 10) | None => false end.

Definition typed (c : Z) (d : doc) : doc :=
  if replaces c d then changed (<[Z.to_nat (d_point d) := c mod 256]> (d_text d)) (d_point d + 1) d
  else changed (put (d_point d) [(if c =? 13 then 10 else c) mod 256] (d_text d)) (d_point d + 1) d.

Definition region (d : doc) : Z * Z := (Z.min (d_point d) (d_mark d), Z.max (d_point d) (d_mark d)).
Definition no_region (d : doc) : bool := (d_mark d =? NOMARK) || (d_point d =? d_mark d).

(** A document, where the gap is in its text, and how many bytes are free in it. *)
Record held := Held { h_doc : doc; h_gap : Z; h_room : Z }.

(** Where the code leaves its buffers: a mark behind the end of the text, a scrap
    that was counted and not allocated. *)
Definition stuck (d : doc) (c : command) : Prop :=
  match c with
  | Copy | Cut => d_size d < d_mark d
  | Paste => d_scrap d = None /\ 0 < d_nscrap d
  | _ => False
  end.

(** ** The commands of the code *)

Section spec.
Context `{machine}.

Definition run (c : command) : E unit :=
  match c with
  | Left => cur left_
  | Right => cur right_
  | Top => top
  | Bottom => bottom
  | Type_ ch => modify (with_input ch);; insert_
  | Backsp => cur backsp
  | Delete => cur delete_
  | Block => iblock
  | Toggle => cur toggle_overwrite_mode
  | Copy => copy_
  | Cut => cut
  | Paste => paste
  end.

(** Whether the gap of a block of [len] bytes can be made longer by [n] bytes, or by the least number that the code asks for. *)
Definition grows (len n : Z) : bool := bool_decide (int64 (len + Z.max MIN_GAP_EXPAND n)) && alloc_ok (len + Z.max MIN_GAP_EXPAND n).

(** A gap that is too short is made longer; [None] if it cannot be. *)
Definition with_room (short : bool) (n : Z) (h : held) : option held :=
  if negb short then Some h else
  if grows (d_size (h_doc h) + h_room h) n then Some (Held (h_doc h) (h_gap h) (h_room h + Z.max MIN_GAP_EXPAND n)) else None.

Definition h_typed (c : Z) (h : held) : held :=
  match with_room (h_room h =? 0) CHUNK h with
  | None => h
  | Some (Held d _ r) => if replaces c d then Held (typed c d) (d_point d) r else Held (typed c d) (d_point d + 1) (r - 1)
  end.

Definition h_pasted (l : list Z) (h : held) : held :=
  match with_room (h_room h <=? d_nscrap (h_doc h)) (d_nscrap (h_doc h)) h with
  | None => h
  | Some (Held d _ r) =>
      Held (changed (put (d_point d) l (d_text d)) (d_point d + d_nscrap d) d) (d_point d + d_nscrap d) (r - d_nscrap d)
  end.

(** What is copied of the text [t] from [p] to [q], from where [p] was before the gap moved there: the region, if the gap was not behind [p]; else
    what is found in the gap, the text up to where it was and its old bytes, and behind the gap the text from [p] on. *)
Definition copies (t : list Z) (g r p q : Z) (l : list Z) : Prop := exists junk, Z.of_nat (length junk) = r /\
  l = take (Z.to_nat (q - p)) ((if g <=? p then [] else take (Z.to_nat r) (slice t p g ++ junk)) ++ drop (Z.to_nat p) t).

Inductive astep : held -> command -> held -> Prop :=
  | a_left d g r : astep (Held d g r) Left (Held (moved (Z.max 0 (d_point d - 1)) d) g r)
  | a_right d g r : astep (Held d g r) Right (Held (moved (Z.min (d_size d) (d_point d + 1)) d) g r)
  | a_top d g r : astep (Held d g r) Top (Held (moved 0 d) g r)
  | a_bottom d g r : astep (Held d g r) Bottom (Held (moved (d_size d) d) g r)
  | a_type h c : astep h (Type_ c) (h_typed c h)
  | a_backsp_first d g r : d_point d = 0 -> astep (Held d g r) Backsp (Held d 0 r)
  | a_backsp d g r : 0 < d_point d -> astep (Held d g r) Backsp
      (Held (changed (remove (d_point d - 1) (d_point d) (d_text d)) (d_point d - 1) d) (d_point d - 1) (r + 1))
  | a_delete_last d g r : d_point d = d_size d -> astep (Held d g r) Delete (Held d (d_size d) r)
  | a_delete d g r : d_point d < d_size d -> astep (Held d g r) Delete
      (Held (changed (remove (d_point d) (d_point d + 1) (d_text d)) (d_point d) d) (d_point d) (r + 1))
  | a_block d g r : astep (Held d g r) Block (Held (marked (if d_mark d =? NOMARK then d_point d else NOMARK) d) g r)
  | a_toggle d g r : astep (Held d g r) Toggle (Held (flagged (Z.lxor (d_flags d) B_OVERWRITE) d) g r)
  | a_nothing h c : c = Copy \/ c = Cut -> no_region (h_doc h) = true -> astep h c h
  | a_copy d g r p q l : no_region d = false -> region d = (p, q) -> alloc_ok (q - p) = true -> copies (d_text d) g r p q l ->
      astep (Held d g r) Copy (Held (scrapped (Some l) (q - p) (marked NOMARK d)) p r)
  | a_cut d g r p q l : no_region d = false -> region d = (p, q) -> alloc_ok (q - p) = true -> copies (d_text d) g r p q l ->
      astep (Held d g r) Cut (Held (scrapped (Some l) (q - p) (changed (remove p q (d_text d)) p (marked NOMARK d))) p (r + (q - p)))
  | a_full d g r c p q : c = Copy \/ c = Cut -> no_region d = false -> region d = (p, q) -> alloc_ok (q - p) = false ->
      astep (Held d g r) c (Held (scrapped None (q - p) d) p r)
  | a_paste_nothing h : d_overwriting (h_doc h) = true \/ d_nscrap (h_doc h) <= 0 -> astep h Paste h
  | a_paste h l : d_overwriting (h_doc h) = false -> 0 < d_nscrap (h_doc h) -> d_scrap (h_doc h) = Some l ->
      astep h Paste (h_pasted l h).

Inductive asteps (h : held) : list command -> held -> Prop :=
  | asteps_nil : asteps h [] h
  | asteps_cons c h' cs h'' : astep h c h' -> asteps h' cs h'' -> asteps h (c :: cs) h''.

Fixpoint run_all (cs : list command) : E unit :=
  match cs with
  | [] => mret tt
  | c :: cs => run c;; run_all cs
  end.

(** ** The invariant and the relation *)

Record edit_ok (b : buffer) : Prop := {
  edit_buffer : buffer_ok b;
  edit_block : 0 < b_ebuf b;
  edit_int : int64 (b_ebuf b);
  edit_point : 0 <= b_point b <= size b;
  edit_mark : b_mark b = NOMARK \/ 0 <= b_mark b
}.

Record scrap_ok (l : option (list Z)) (n : Z) : Prop := {
  scrap_nonneg : 0 <= n;
  scrap_int : int64 n;
  scrap_len : forall k, l = Some k -> n = Z.of_nat (length k) /\ Forall byte k
}.

(** The part of a [doc] that is in the buffer. *)
Definition view (b : buffer) : list Z * Z * Z * Z := (text b, b_point b, b_mark b, b_flags b).
Definition d_view (d : doc) : list Z * Z * Z * Z := (d_text d, d_point d, d_mark d, d_flags d).

Record shows (s : editor) (d : doc) : Prop := {
  shows_buffer : exists b, buffers s !! curbp s = Some b /\ edit_ok b /\ view b = d_view d;
  shows_window : is_Some (windows s !! curwp s);
  shows_scrap : scrap s = d_scrap d /\ nscrap s = d_nscrap d;
  shows_scrap_ok : scrap_ok (d_scrap d) (d_nscrap d)
}.

(** Where the gap is, and its length. *)
Definition placed (b : buffer) : Z * Z := (b_gap b, room b).

Definition holds (s : editor) (h : held) : Prop :=
  shows s (h_doc h) /\ exists b, buffers s !! curbp s = Some b /\ placed b = (h_gap h, h_room h).

(** ** Memory *)

Definition splice (p : nat) (l mem : list Z) : list Z := take p mem ++ l ++ drop (p + length l) mem.

Lemma splice_cons p c l mem : (p < length mem)%nat ->
  splice (S p) l (<[p := c]> mem) = splice p (c :: l) mem.
Proof.
  intros Hp. unfold splice. rewrite (take_S_r _ _ c) by (by apply list_lookup_insert_eq).
  rewrite take_insert_ge, drop_insert_lt by lia. rewrite <- app_assoc. simpl. do 3 f_equal. f_equal. lia.
Qed.

Lemma length_splice p l mem : (p + length l <= length mem)%nat -> length (splice p l mem) = length mem.
Proof. intros Hp. unfold splice. rewrite !length_app, length_take, length_drop. lia. Qed.

Lemma wp_store_block l : forall b p (Q : unit -> buffer -> Prop), 0 <= p -> p + Z.of_nat (length l) <= b_ebuf b ->
  Forall byte l -> Q tt (with_mem (splice (Z.to_nat p) l (b_mem b)) b) -> wp (fun _ => store_block p l) b Q.
Proof.
  induction l as [|c l IH]; intros b p Q Hp Hl Hb HQ; cbn [store_block].
  - apply wp_ret. unfold splice in HQ. simpl in HQ. rewrite Nat.add_0_r, take_drop in HQ. by destruct b.
  - apply Forall_cons in Hb as [Hc Hb]. simpl in Hl. apply wp_bind, wp_store_byte; [lia|]. rewrite mod_byte by done.
    unfold b_ebuf in *. apply IH; [lia | unfold b_ebuf; simpl; rewrite length_insert; lia | done |]. simpl.
    replace (Z.to_nat (p + 1)) with (S (Z.to_nat p)) by lia. rewrite splice_cons by lia. exact HQ.
Qed.

Lemma wp_load_block n : forall b p (Q : list Z -> buffer -> Prop), 0 <= p -> p + Z.of_nat n <= b_ebuf b ->
  Q (take n (drop (Z.to_nat p) (b_mem b))) b -> wp (fun _ => load_block n p) b Q.
Proof.
  induction n as [|n IH]; intros b p Q Hp Hn HQ; cbn [load_block]; [by apply wp_ret|].
  destruct (lookup_lt_is_Some_2 (b_mem b) (Z.to_nat p)) as [c Hc]; [unfold b_ebuf in *; lia|].
  apply wp_bind, wp_load with c; [done..|]. apply wp_bind, IH; [lia..|]. apply wp_ret.
  rewrite (drop_S _ c) in HQ by done. by replace (Z.to_nat (p + 1)) with (S (Z.to_nat p)) by lia.
Qed.

(** What is written into the gap at its start becomes text. *)
Lemma text_put b l : buffer_ok b -> Z.of_nat (length l) <= room b ->
  text (with_gap (b_gap b + Z.of_nat (length l)) (with_mem (splice (Z.to_nat (b_gap b)) l (b_mem b)) b)) =
  put (b_gap b) l (text b).
Proof.
  intros [H1 H2 _] Hl. unfold room, text, put, b_ebuf in *. simpl.
  set (g := Z.to_nat (b_gap b)). set (e := Z.to_nat (b_egap b)).
  replace (Z.to_nat (b_gap b + Z.of_nat (length l))) with (g + length l)%nat by lia.
  assert (length (take g (b_mem b)) = g) as Lg by (rewrite length_take; lia).
  assert (take (g + length l) (splice g l (b_mem b)) = take g (b_mem b) ++ l) as ->.
  { unfold splice. rewrite app_assoc, take_app_length'; [done|]. rewrite length_app. lia. }
  assert (drop e (splice g l (b_mem b)) = drop e (b_mem b)) as ->.
  { unfold splice. rewrite app_assoc, drop_app_ge by (rewrite length_app; lia).
    rewrite drop_drop, length_app, Lg. f_equal. lia. }
  rewrite take_app_length', drop_app_length', <- app_assoc by lia. done.
Qed.

Lemma put_ok b l : buffer_ok b -> Z.of_nat (length l) <= room b -> Forall byte l ->
  buffer_ok (with_gap (b_gap b + Z.of_nat (length l)) (with_mem (splice (Z.to_nat (b_gap b)) l (b_mem b)) b)).
Proof.
  intros [H1 H2 Hb] Hl Hbl. unfold room, b_ebuf in *. split; simpl; [lia | |].
  - unfold b_ebuf. simpl. rewrite length_splice by lia. lia.
  - unfold splice. apply Forall_app. split; [by apply Forall_take|]. apply Forall_app. split; [done | by apply Forall_drop].
Qed.

(** ** Commands on a buffer *)

(** What moving the gap leaves as it is. *)
Lemma gap_at_edit off b b' : edit_ok b -> gap_at off b b' ->
  edit_ok b' /\ view b' = view b /\ b_gap b' = off /\ room b' = room b /\ b_ebuf b' = b_ebuf b.
Proof.
  intros [H1 H2 H3 H4 H5] ((mem & E & Hl) & Ht & Hok).
  assert (b_ebuf b' = b_ebuf b) as El by (rewrite E; unfold b_ebuf; simpl; congruence).
  assert (room b' = room b) as Er by (rewrite E; unfold room; simpl; lia).
  assert (view b' = view b) as Ev by (unfold view; rewrite Ht; by rewrite E).
  split; [|split; [done|split; [by rewrite E | done]]].
  split; [done | lia | by rewrite El | | by rewrite E]. unfold size. rewrite Ht. by rewrite E.
Qed.

Lemma edit_with_point p b : edit_ok b -> 0 <= p <= size b -> edit_ok (with_point p b).
Proof. intros [[G1 G2 G3] H2 H3 H4 H5] Hp. by split. Qed.

(** With a point in the text an unfinished change is complete. *)
Lemma edit_at p b : buffer_ok b -> 0 < b_ebuf b -> int64 (b_ebuf b) -> b_mark b = NOMARK \/ 0 <= b_mark b ->
  0 <= p <= size b -> edit_ok (with_point p b).
Proof. intros [G1 G2 G3] H2 H3 H5 Hp. by split. Qed.

Lemma edit_same_point b : with_point (b_point b) b = b.
Proof. by destruct b. Qed.

Lemma wp_left b : edit_ok b ->
  wp (fun _ => left_) b (fun _ b' => edit_ok b' /\ view b' = (text b, Z.max 0 (b_point b - 1), b_mark b, b_flags b) /\
    placed b' = placed b).
Proof.
  intros Hok. pose proof Hok as [_ _ _ Hp _]. unfold left_. wstep. destruct (Z.ltb_spec 0 (b_point b)).
  - apply wp_modify. split; [apply edit_with_point; [done | lia]|]. split; [|done]. unfold view. simpl. do 3 f_equal. lia.
  - apply wp_ret. split; [done|]. split; [|done]. unfold view. do 3 f_equal. lia.
Qed.

Lemma wp_right b : edit_ok b ->
  wp (fun _ => right_) b (fun _ b' => edit_ok b' /\ view b' = (text b, Z.min (size b) (b_point b + 1), b_mark b, b_flags b) /\
    placed b' = placed b).
Proof.
  intros Hok. pose proof Hok as [Hb _ _ Hp _]. unfold right_. wstep. apply wp_bind, wp_end_pos; [done|].
  destruct (Z.ltb_spec (b_point b) (size b)).
  - apply wp_modify. split; [apply edit_with_point; [done | lia]|]. split; [|done]. unfold view. simpl. do 3 f_equal. lia.
  - apply wp_ret. split; [done|]. split; [|done]. unfold view. do 3 f_equal. lia.
Qed.

(** [curbp->b_point = movegap(curbp, curbp->b_point);]: the buffer is the same but for its memory,
    with the gap at the point. *)
Lemma wp_to_point {A} (k : B A) b (Q : A -> buffer -> Prop) : edit_ok b ->
  (forall b', edit_ok b' -> view b' = view b -> b_gap b' = b_point b' -> room b' = room b ->
    wp (fun _ => k) b' Q) ->
  wp (fun _ => point ← gets b_point; r ← movegap point; modify (with_point r);; k) b Q.
Proof.
  intros Hok Hk. pose proof Hok as [Hb _ _ Hp _]. wstep. eapply wp_call; [by apply wp_movegap|]. cbn beta.
  intros r b' (-> & Hg). destruct (gap_at_edit _ _ _ Hok Hg) as (Hok' & Hv & Hgap & Hr & _).
  assert (b_point b' = b_point b) as Ep by (unfold view in Hv; congruence).
  wstep. rewrite <- Ep, edit_same_point. apply Hk; [done..| congruence | done].
Qed.

(** The tail of a change: the point becomes the gap, the buffer is modified. *)
Lemma text_take b : buffer_ok b -> take (Z.to_nat (b_gap b)) (text b) = take (Z.to_nat (b_gap b)) (b_mem b).
Proof. intros [H1 H2 _]. unfold text, b_ebuf in *. apply take_app_length'. rewrite length_take. lia. Qed.

Lemma text_drop b n : buffer_ok b ->
  drop (Z.to_nat (b_gap b) + n) (text b) = drop (Z.to_nat (b_egap b) + n) (b_mem b).
Proof.
  intros [H1 H2 _]. unfold text, b_ebuf in *. rewrite drop_app_ge by (rewrite length_take; lia).
  rewrite length_take, drop_drop. f_equal. lia.
Qed.

Lemma remove_length p q t : 0 <= p <= q -> q <= Z.of_nat (length t) ->
  Z.of_nat (length (remove p q t)) = Z.of_nat (length t) - (q - p).
Proof. intros H1 H2. unfold remove. rewrite length_app, length_take, length_drop. lia. Qed.

Lemma put_length p l t : 0 <= p <= Z.of_nat (length t) ->
  Z.of_nat (length (put p l t)) = Z.of_nat (length t) + Z.of_nat (length l).
Proof. intros H1. unfold put. rewrite !length_app, length_take, length_drop. lia. Qed.

Lemma view_parts b b' : view b' = view b ->
  text b' = text b /\ b_point b' = b_point b /\ b_mark b' = b_mark b /\ b_flags b' = b_flags b /\ size b' = size b.
Proof.
  unfold view, size. intros E. assert (text b' = text b) as -> by congruence. repeat split; congruence.
Qed.

(** [undo] in [b] gives back the text and the point of [b0]. *)
Definition undoable (b0 b : buffer) : Prop :=
  u_point (b_ubuf b) = b_point b0 /\ 0 <= u_gap (b_ubuf b) <= u_egap (b_ubuf b) /\ u_egap (b_ubuf b) <= b_ebuf b /\
  take (Z.to_nat (u_gap (b_ubuf b))) (b_mem b) ++ drop (Z.to_nat (u_egap (b_ubuf b))) (b_mem b) = text b0.

Lemma and_mid (P Q R : Prop) : Q -> P /\ R -> (P /\ Q) /\ R.
Proof. tauto. Qed.

(** Changes of the memory between the gap's ends, behind [undoset], are undoable. *)
Lemma undoable_mem b0 b1 b : view b1 = view b0 -> buffer_ok b1 -> b_ubuf b = Undo (b_point b1) (b_gap b1) (b_egap b1) ->
  length (b_mem b) = length (b_mem b1) -> take (Z.to_nat (b_gap b1)) (b_mem b) = take (Z.to_nat (b_gap b1)) (b_mem b1) ->
  drop (Z.to_nat (b_egap b1)) (b_mem b) = drop (Z.to_nat (b_egap b1)) (b_mem b1) -> undoable b0 b.
Proof.
  intros Hv [G1 G2 _] Hu Hl Ht Hd. destruct (view_parts _ _ Hv) as (Et & Ep & _). unfold undoable.
  rewrite Hu, <- Et, <- Ep. unfold b_ebuf in *. cbn [u_point u_gap u_egap]. rewrite Hl, Ht, Hd. done.
Qed.

(** A change of the gap alone is undoable. *)
Lemma undoable_gap b0 b1 b : view b1 = view b0 -> buffer_ok b1 -> b_ubuf b = Undo (b_point b1) (b_gap b1) (b_egap b1) ->
  b_mem b = b_mem b1 -> undoable b0 b.
Proof. intros Hv Hok Hu Hm. by apply (undoable_mem b0 b1); rewrite ?Hm. Qed.

Lemma wp_backsp b : edit_ok b -> wp (fun _ => backsp) b (fun _ b' => (edit_ok b' /\ undoable b b') /\
  (view b' = if b_point b =? 0 then view b
            else (remove (b_point b - 1) (b_point b) (text b), b_point b - 1, b_mark b, Z.lor (b_flags b) B_MODIFIED)) /\
  placed b' = if b_point b =? 0 then (0, room b) else (b_point b - 1, room b + 1)).
Proof.
  intros Hok. unfold backsp. apply wp_to_point; [done|]. intros b1 Hok1 Hv Hg Hr. rewrite <- Hv.
  assert (b_point b1 = b_point b /\ text b1 = text b) as [Ep Et] by (unfold view in Hv; split; congruence).
  assert (b_mark b1 = b_mark b /\ b_flags b1 = b_flags b) as [<- <-] by (unfold view in Hv; split; congruence).
  rewrite <- Ep, <- Et, <- Hr. pose proof (undoable_gap b b1) as Hundo. clear Hok Hr Ep Et. destruct Hok1 as [Hb H2 H3 H4 H5]. pose proof Hb as [G1 G2 G3].
  wstep. wstep. simpl b_gap. destruct (Z.ltb_spec 0 (b_gap b1)) as [Hp|Hp].
  - wstep. wstep. set (b2 := set_modified _).
    assert (buffer_ok b2) as Hb2 by (split; [simpl; lia | done..]).
    assert (text b2 = remove (b_point b1 - 1) (b_point b1) (text b1)) as Et.
    { unfold remove. rewrite <- Hg. pose proof (text_drop b1 0 Hb) as Hd. rewrite !Nat.add_0_r in Hd. rewrite Hd.
      pose proof (text_take b1 Hb) as Ht. apply (f_equal (take (Z.to_nat (b_gap b1 - 1)))) in Ht.
      rewrite !take_take, !Nat.min_l in Ht by lia. by rewrite Ht. }
    apply wp_bind, wp_pos_egap; [done|]. apply wp_modify. rewrite (proj2 (Z.eqb_neq _ 0)) by lia. split; [split|].
    + apply edit_at; [done..|]. change (size b2) with (Z.of_nat (length (text b2))).
      rewrite Et, remove_length; unfold size in *; simpl; lia.
    + by apply Hundo.
    + split; [|unfold placed, room; simpl; f_equal; lia].
      unfold view. simpl. unfold text in Et |- *. simpl in *. rewrite Et. do 3 f_equal. by rewrite Hg.
  - wstep. wstep. apply wp_bind, wp_pos_egap; [by split|]. apply wp_modify. rewrite (proj2 (Z.eqb_eq _ 0)) by lia.
    simpl b_gap. rewrite Hg. split; [split; [by split; [split|..] | apply Hundo; [done | exact Hb | simpl; by rewrite Hg | done]]|].
    split; [done|]. unfold placed, room. simpl. f_equal. lia.
Qed.

(** [curbp->b_point = pos(curbp, curbp->b_egap); curbp->b_flags |= B_MODIFIED;] *)
Lemma wp_finish_change b (Q : unit -> buffer -> Prop) : buffer_ok b -> Q tt (set_modified (with_point (b_gap b) b)) ->
  wp (fun _ => b ← get_state; r ← pos (b_egap b); modify (fun b => set_modified (with_point r b))) b Q.
Proof. intros Hb HQ. wstep. apply wp_bind, wp_pos_egap; [done|]. by apply wp_modify. Qed.

Lemma view_d b d : view b = d_view d ->
  text b = d_text d /\ b_point b = d_point d /\ b_mark b = d_mark d /\ b_flags b = d_flags d /\ size b = d_size d.
Proof.
  unfold view, d_view, size, d_size. intros E. assert (text b = d_text d) as -> by congruence. repeat split; congruence.
Qed.

(** A change of the gap that leaves text [t], finished at the gap. *)
Lemma edit_changed b t : buffer_ok b -> 0 < b_ebuf b -> int64 (b_ebuf b) -> b_mark b = NOMARK \/ 0 <= b_mark b ->
  text b = t -> b_gap b <= Z.of_nat (length t) -> edit_ok (set_modified (with_point (b_gap b) b)) /\
  view (set_modified (with_point (b_gap b) b)) = (t, b_gap b, b_mark b, Z.lor (b_flags b) B_MODIFIED).
Proof.
  intros Hb H2 H3 H5 Ht Hl. pose proof Hb as [G1 G2 G3]. split; [|by rewrite <- Ht].
  apply (edit_at (b_gap b) (set_modified b)); [by split | done..|].
  change (size (set_modified b)) with (Z.of_nat (length (text b))). rewrite Ht. lia.
Qed.

Lemma gap_le_size b : buffer_ok b -> b_gap b <= size b.
Proof. intros Hb. rewrite size_eq by done. destruct Hb. unfold room. lia. Qed.

(** Widening the gap at its end removes text. *)
Lemma text_cut b n : buffer_ok b -> 0 <= n -> b_egap b + n <= b_ebuf b ->
  buffer_ok (with_egap (b_egap b + n) b) /\
  text (with_egap (b_egap b + n) b) = remove (b_gap b) (b_gap b + n) (text b).
Proof.
  intros Hb Hn Hle. pose proof Hb as [G1 G2 G3]. split; [split; simpl; [lia | exact Hle | done]|].
  unfold remove. rewrite text_take by done.
  replace (Z.to_nat (b_gap b + n)) with (Z.to_nat (b_gap b) + Z.to_nat n)%nat by lia.
  rewrite text_drop by done. unfold text. simpl. do 2 f_equal. lia.
Qed.

Lemma wp_delete b : edit_ok b -> wp (fun _ => delete_) b (fun _ b' => (edit_ok b' /\ undoable b b') /\
  (view b' = if b_point b =? size b then view b
            else (remove (b_point b) (b_point b + 1) (text b), b_point b, b_mark b, Z.lor (b_flags b) B_MODIFIED)) /\
  placed b' = (b_point b, if b_point b =? size b then room b else room b + 1)).
Proof.
  intros Hok. unfold delete_. apply wp_to_point; [done|]. intros b1 Hok1 Hv Hg Hr. rewrite <- Hv.
  pose proof (undoable_gap b b1) as Hundo. destruct (view_parts _ _ Hv) as (<- & <- & <- & <- & <-). rewrite <- Hr. clear Hok Hr.
  destruct Hok1 as [Hb H2 H3 H4 H5]. pose proof (size_eq b1 Hb) as Es. unfold room in Es. wstep. wstep.
  change (b_ebuf (with_ubuf _ b1)) with (b_ebuf b1). simpl b_egap.
  destruct (Z.ltb_spec (b_egap b1) (b_ebuf b1)) as [Hp|Hp].
  - rewrite (proj2 (Z.eqb_neq _ (size b1))) by lia. wstep.
    destruct (text_cut b1 1 Hb) as [Hb2 Et]; [lia..|]. set (b2 := with_egap _ _).
    apply (wp_finish_change b2); [by destruct Hb2|]. rewrite <- Hg. apply and_mid;
      [apply Hundo; [done | exact Hb | simpl; by rewrite Hg | done]|]. apply and_assoc. split; [|unfold placed, room; simpl; f_equal; lia].
    apply (edit_changed b2); [by destruct Hb2 | exact H2 | exact H3 | exact H5 | exact Et |].
    rewrite remove_length by (unfold size in *; lia). unfold size in *. simpl. lia.
  - rewrite (proj2 (Z.eqb_eq _ (size b1))) by (destruct Hb; lia). apply wp_ret.
    split; [split; [|by apply Hundo] | split; [done | by unfold placed; rewrite <- Hg]]. destruct Hb. by split; [split|..].
Qed.

Lemma wp_block b : edit_ok b -> wp (fun _ => block) b (fun _ b' => edit_ok b' /\
  view b' = (text b, b_point b, if b_mark b =? NOMARK then b_point b else NOMARK, b_flags b) /\ placed b' = placed b).
Proof.
  intros [[G1 G2 G3] H2 H3 H4 H5]. unfold block. wstep. apply wp_modify. split; [|done]. split; [done..|].
  simpl. destruct (b_mark b =? NOMARK); [right; lia | by left].
Qed.

Lemma overwrite_bit n : 0 <= n -> Z.testbit B_OVERWRITE n = (1 =? n).
Proof. intros Hn. change B_OVERWRITE with (2 ^ 1). by apply Z.pow2_bits_eqb. Qed.

Lemma overwrite_and f : Z.land f B_OVERWRITE = if Z.testbit f 1 then B_OVERWRITE else 0.
Proof.
  apply Z.bits_inj'. intros n Hn. rewrite Z.land_spec, overwrite_bit by done.
  destruct (Z.eqb_spec 1 n) as [Hn1|Hn1]; [subst n|]; destruct (Z.testbit f 1) eqn:E;
    rewrite ?Z.bits_0, ?overwrite_bit, ?andb_false_r by done; try done.
  by rewrite (proj2 (Z.eqb_neq 1 n)).
Qed.

Lemma toggle_flag f : (if negb (Z.land f B_OVERWRITE =? 0) then Z.ldiff f B_OVERWRITE else Z.lor f B_OVERWRITE)
  = Z.lxor f B_OVERWRITE.
Proof.
  rewrite overwrite_and. apply Z.bits_inj'. intros n Hn. rewrite Z.lxor_spec, overwrite_bit by done.
  assert (negb ((if Z.testbit f 1 then B_OVERWRITE else 0) =? 0) = Z.testbit f 1) as ->
    by (by destruct (Z.testbit f 1)).
  destruct (Z.testbit f 1) eqn:E; rewrite ?Z.ldiff_spec, ?Z.lor_spec, overwrite_bit by done;
    (destruct (Z.eqb_spec 1 n) as [Hn1|Hn1]; [subst n; by rewrite E | by destruct (Z.testbit f n)]).
Qed.

Lemma wp_toggle b : edit_ok b -> wp (fun _ => toggle_overwrite_mode) b (fun _ b' => edit_ok b' /\
  view b' = (text b, b_point b, b_mark b, Z.lxor (b_flags b) B_OVERWRITE) /\ placed b' = placed b).
Proof.
  intros [[G1 G2 G3] H2 H3 H4 H5]. unfold toggle_overwrite_mode. wstep. rewrite <- toggle_flag. unfold overwriting.
  destruct (negb _); apply wp_modify; (split; [by split | done]).
Qed.

(** *** Typing *)

Definition replaces_at (c : Z) (b : buffer) : bool :=
  overwriting b && negb (c =? 13) &&
  match text b !! Z.to_nat (b_point b) with Some ch => negb (ch =? 10) | None => false end.

Lemma wp_overwrites b c : is_Some behind -> edit_ok b ->
  wp (fun _ => overwrites c) b (fun r b' => r = replaces_at c b /\ b' = b).
Proof.
  intros [bh Hbh] [Hb H2 _ Hp _]. unfold overwrites, replaces_at. wstep.
  destruct (overwriting b) eqn:Eo; [|by apply wp_ret]. cbn [negb andb orb].
  destruct (c =? 13) eqn:Ec; [by apply wp_ret|]. cbn [negb andb orb].
  destruct (Z.eq_dec (b_point b) (size b)) as [E|Hne].
  - rewrite (proj2 (lookup_ge_None (text b) _)) by (unfold size in *; lia). rewrite E. apply wp_bind.
    unfold char_at. wstep. rewrite ptr_size by done. apply (wp_load_behind b bh); [done..|].
    destruct (bh =? 10); [by apply wp_ret|]. apply wp_bind, wp_end_pos; [done|]. apply wp_ret.
    by rewrite Z.ltb_irrefl.
  - destruct (text_at b (b_point b)) as [ch Hch]; [lia|]. rewrite Hch.
    apply wp_bind, (wp_char_at b _ _ ch); [done | lia | done |].
    destruct (ch =? 10); [by apply wp_ret|]. apply wp_bind, wp_end_pos; [done|]. apply wp_ret. split; [|done].
    by apply Z.ltb_lt; lia.
Qed.

Lemma text_replace b c : buffer_ok b -> b_gap b < size b ->
  text (with_mem (<[Z.to_nat (b_egap b) := c]> (b_mem b)) b) = <[Z.to_nat (b_gap b) := c]> (text b).
Proof.
  intros Hb Hs. rewrite size_eq in Hs by done. destruct Hb as [G1 G2 G3]. unfold text, room, b_ebuf in *. simpl.
  rewrite insert_app_r_alt by (rewrite length_take; lia). rewrite take_insert_ge, drop_insert_ge by lia.
  rewrite length_take, Nat.min_l, !Nat.sub_diag by lia. done.
Qed.

Lemma wp_insert_body b c : is_Some behind -> edit_ok b -> 0 < room b ->
  wp (fun _ => insert_body c) b (fun _ b' => edit_ok b' /\
    view b' = (if replaces_at c b then <[Z.to_nat (b_point b) := c mod 256]> (text b)
               else put (b_point b) [(if c =? 13 then 10 else c) mod 256] (text b),
               b_point b + 1, b_mark b, Z.lor (b_flags b) B_MODIFIED) /\
    placed b' = if replaces_at c b then (b_point b, room b) else (b_point b + 1, room b - 1)).
Proof.
  intros Hbh Hok Hroom. unfold insert_body. apply wp_to_point; [done|]. intros b1 Hok1 Hv Hg Hr.
  assert (replaces_at c b1 = replaces_at c b) as <-
    by (unfold replaces_at, overwriting; by destruct (view_parts _ _ Hv) as (-> & -> & _ & -> & _)).
  destruct (view_parts _ _ Hv) as (<- & <- & <- & <- & _). rewrite <- Hr in *. clear b Hok Hv Hr.
  eapply wp_call; [by apply wp_overwrites|]. cbn beta. intros over b' (-> & ->).
  destruct Hok1 as [Hb H2 H3 H4 H5]. pose proof (size_eq b1 Hb) as Es. pose proof Hb as [G1 G2 G3].
  assert (forall x, byte (x mod 256)) as Hbyte by (intros x; unfold byte; by apply Z.mod_pos_bound).
  destruct (replaces_at c b1) eqn:Er; apply wp_bind.
  - assert (b_point b1 < size b1) as Hlt.
    { unfold replaces_at in Er. destruct (text b1 !! _) eqn:E; [|by rewrite andb_false_r in Er].
      apply lookup_lt_Some in E. unfold size. lia. }
    wstep. assert (ptr b1 (b_point b1) = b_egap b1) as ->.
    { unfold ptr. rewrite (proj2 (Z.ltb_ge _ 0)), Hg, Z.ltb_irrefl by lia. lia. }
    unfold room in Es. apply wp_bind, wp_store_byte; [lia|]. set (b2 := with_mem _ b1).
    assert (text b2 = <[Z.to_nat (b_point b1) := c mod 256]> (text b1)) as Et
      by (rewrite <- Hg; apply text_replace; [done | lia]).
    assert (b_ebuf b2 = b_ebuf b1) as Eb by (unfold b_ebuf; simpl; by rewrite length_insert).
    assert (buffer_ok b2) as Hb2 by (split; [done | rewrite Eb; done | by apply Forall_insert]).
    assert (size b2 = size b1) as Es2 by (unfold size; rewrite Et, length_insert; done).
    apply wp_bind, wp_end_pos; [done|]. simpl b_point. rewrite Es2, (proj2 (Z.ltb_lt _ _)) by lia.
    apply wp_modify, wp_modify. split.
    + apply (edit_at (b_point b1 + 1) (set_modified b2)); [by destruct Hb2 | by rewrite <- Eb in H2 | by rewrite <- Eb in H3 | done |].
      change (size (set_modified b2)) with (size b2). lia.
    + split; [unfold view; by rewrite <- Et | unfold placed, room; simpl; f_equal; lia].
  - wstep. apply wp_bind, wp_store_byte; [unfold room in *; lia|]. wstep.
    set (ch := (if c =? 13 then 10 else c) mod 256). set (b2 := with_gap _ _).
    pose proof (text_put b1 [ch] Hb ltac:(simpl; lia)) as Et.
    pose proof (put_ok b1 [ch] Hb ltac:(simpl; lia) ltac:(apply Forall_singleton, Hbyte)) as Hb2.
    rewrite <- (splice_cons _ ch []) in Et, Hb2 by (unfold b_ebuf, room in *; lia).
    assert (forall p m, splice p [] m = m) as Hs by (intros; unfold splice; simpl; by rewrite Nat.add_0_r, take_drop).
    rewrite Hs in Et, Hb2. change (with_gap _ _) with b2 in Et, Hb2.
    assert (b_ebuf b2 = b_ebuf b1) as Eb by (unfold b_ebuf; simpl; by rewrite length_insert).
    wstep. apply wp_bind, wp_pos_egap; [done|]. apply wp_modify, wp_modify. rewrite <- Hg.
    apply and_assoc. split; [|unfold placed, room; simpl; f_equal; lia].
    apply (edit_changed b2); [exact Hb2 | by rewrite Eb | by rewrite Eb | exact H5 | exact Et |].
    rewrite put_length by (unfold size in *; lia). simpl. unfold size in *. lia.
Qed.

Lemma wp_paste_body b l : edit_ok b -> Z.of_nat (length l) <= room b -> Forall byte l ->
  wp (fun _ => paste_body (Some l) (Z.of_nat (length l))) b (fun _ b' => (edit_ok b' /\ undoable b b') /\
    view b' = (put (b_point b) l (text b), b_point b + Z.of_nat (length l), b_mark b, Z.lor (b_flags b) B_MODIFIED) /\
    placed b' = (b_point b + Z.of_nat (length l), room b - Z.of_nat (length l))).
Proof.
  intros Hok Hroom Hl. unfold paste_body. apply wp_to_point; [done|]. intros b1 Hok1 Hv Hg Hr.
  pose proof (undoable_mem b b1) as Hundo. destruct (view_parts _ _ Hv) as (<- & <- & <- & <- & _). rewrite <- Hr in *. clear Hok Hr.
  destruct Hok1 as [Hb H2 H3 H4 H5]. pose proof (size_eq b1 Hb) as Es. pose proof Hb as [G1 G2 G3].
  wstep. wstep. simpl b_gap. apply wp_bind. apply wp_store_block; [simpl; lia | unfold room, b_ebuf in *; simpl; lia | done |]. wstep.
  set (b2 := with_gap _ _). pose proof (text_put b1 l Hb Hroom) as Et. pose proof (put_ok b1 l Hb Hroom Hl) as Hb2.
  assert (b_ebuf b2 = b_ebuf b1) as Eb.
  { unfold b_ebuf. simpl. f_equal. apply length_splice. unfold room, b_ebuf in *. lia. }
  apply (wp_finish_change b2); [by destruct Hb2|]. rewrite <- Hg. apply and_mid.
  { assert (Z.to_nat (b_gap b1) + length l <= Z.to_nat (b_egap b1) <= length (b_mem b1))%nat as Hle by (unfold room, b_ebuf in *; lia).
    apply Hundo; [done | done | done | | |]; change (b_mem (set_modified _)) with (splice (Z.to_nat (b_gap b1)) l (b_mem b1)).
    - apply length_splice. lia.
    - unfold splice. apply take_app_length'. rewrite length_take. lia.
    - unfold splice. rewrite app_assoc, drop_app_ge by (rewrite length_app, length_take; lia).
      rewrite drop_drop, length_app, length_take. f_equal. lia. }
  apply and_assoc. split; [|unfold placed, room; simpl; f_equal; lia].
  apply (edit_changed b2); [by destruct Hb2 | by rewrite Eb | by rewrite Eb | exact H5 | exact Et |].
  rewrite put_length by (unfold size in *; lia). unfold size in *. simpl. lia.
Qed.

(** ** Commands of the editor *)

Lemma shows_set s d b d' : shows s d -> edit_ok b -> view b = d_view d' ->
  d_scrap d' = d_scrap d -> d_nscrap d' = d_nscrap d -> shows (set_cur b s) d'.
Proof.
  intros [_ H2 H3 H4] Hb Hv E1 E2. split; [|done| |].
  - exists b. split; [apply lookup_set_cur | done].
  - by rewrite E1, E2.
  - by rewrite E1, E2.
Qed.

Lemma wp_cur_edit (p : B unit) s d d' : shows s d ->
  (forall b, edit_ok b -> view b = d_view d -> wp (fun _ => p) b (fun _ b' => edit_ok b' /\ view b' = d_view d')) ->
  d_scrap d' = d_scrap d -> d_nscrap d' = d_nscrap d ->
  wp (fun _ => cur p) s (fun _ s' => shows s' d').
Proof.
  intros Hs Hp E1 E2. pose proof Hs as [(b & Hb & Hok & Hv) _ _ _].
  eapply wp_cur; [exact Hb|]. eapply wp_mono; [by apply Hp|]. cbn beta. intros _ b' (Hok' & Hv').
  by eapply shows_set.
Qed.

Lemma set_cur_same s b : buffers s !! curbp s = Some b -> set_cur b s = s.
Proof. intros Hb. unfold set_cur. rewrite insert_id by done. by destruct s. Qed.

Lemma wp_read_cur {A} (k : buffer -> E A) s b Q : buffers s !! curbp s = Some b ->
  wp (fun _ => k b) s Q -> wp (fun _ => b ← cur get_state; k b) s Q.
Proof.
  intros Hb HQ. apply wp_bind. eapply wp_cur; [exact Hb|]. apply wp_get_state. by rewrite set_cur_same.
Qed.

(** A message changes nothing that a [doc] shows. *)
Definition told (m : message) (s : editor) : editor := with_msgflag true (with_msgline m s).

Lemma wp_msg fmt args s (Q : unit -> editor -> Prop) : Q tt (told (Message fmt args) s) -> wp (fun _ => msg fmt args) s Q.
Proof. intros HQ. by apply wp_modify. Qed.

Lemma shows_told m s d : shows s d -> shows (told m s) d.
Proof. by intros [H1 H2 H3 H4]; split. Qed.

Lemma grown_edit n b b' : edit_ok b -> int64 (b_ebuf b + n) -> 0 < n -> grown n b b' ->
  edit_ok b' /\ view b' = view b /\ room b' = room b + n.
Proof.
  intros [H1 H2 H3 H4 H5] Hi Hn ((mem & -> & Hl) & Ht & Hok).
  assert (b_ebuf (with_mem mem (with_egap (b_egap b + n) b)) = b_ebuf b + n) as El by exact Hl.
  split; [|split; [by unfold view; rewrite Ht | unfold room; simpl; lia]].
  split; [done | lia | by rewrite El | unfold size; by rewrite Ht | done].
Qed.

Lemma int64_max b n : int64 (newlen b n) = int64 (b_ebuf b + Z.max MIN_GAP_EXPAND n).
Proof. done. Qed.

Lemma wp_growgap s b n : buffers s !! curbp s = Some b -> edit_ok b -> int64 n ->
  wp (fun _ => growgap (curbp s) n) s (fun r s' =>
    if grows (b_ebuf b) n then r = true /\ exists b', s' = set_cur b' s /\ edit_ok b' /\ view b' = view b /\
      placed b' = (b_gap b, room b + Z.max MIN_GAP_EXPAND n)
    else r = false /\ exists m, s' = told m s).
Proof.
  intros Hb Hok Hn. pose proof Hok as [Hb1 H2 H3 H4 H5]. unfold growgap, grows. fold (newlen b n). apply wp_bind.
  eapply wp_at_buffer; [exact Hb|].
  destruct (decide (int64 (newlen b n) /\ alloc_ok (newlen b n) = true)) as [[Hi Ha]|Hno].
  - rewrite bool_decide_eq_true_2, Ha by done. cbn [andb].
    eapply wp_mono; [by apply wp_growgap_body|]. cbn beta. intros r b' (-> & Hg). apply wp_ret. split; [done|].
    exists b'. split; [done|]. unfold newlen in Hi. assert (0 < Z.max MIN_GAP_EXPAND n) by (unfold MIN_GAP_EXPAND; lia).
    destruct (grown_edit _ _ _ Hok Hi ltac:(done) Hg) as (Hok' & Hv & Hr). split; [done|]. split; [done|].
    destruct Hg as ((mem & E & _) & _). unfold placed. rewrite Hr. by rewrite E.
  - assert (int64 (newlen b n) -> alloc_ok (newlen b n) = false) as Hf by (intros Hi; destruct (alloc_ok _) eqn:E; [by destruct Hno | done]).
    assert (bool_decide (int64 (newlen b n)) && alloc_ok (newlen b n) = false) as ->
      by (destruct (bool_decide_reflect (int64 (newlen b n))); [by rewrite Hf | done]).
    eapply wp_mono; [by apply wp_growgap_fails|].
    cbn beta. intros r b' (-> & ->). change (with_buffers (<[curbp s := b]> (buffers s)) s) with (set_cur b s).
    rewrite (set_cur_same s b Hb). apply wp_bind, wp_msg, wp_ret. split; [done|]. by eexists.
Qed.

(** The gap becomes longer when it is too [short], or it cannot and nothing changes. *)
Lemma wp_make_room s d b (short : bool) n : shows s d -> buffers s !! curbp s = Some b -> edit_ok b -> view b = d_view d -> int64 n ->
  wp (fun _ => if short then growgap (curbp s) n else mret true) s (fun r s' =>
    match with_room short n (Held d (b_gap b) (room b)) with
    | None => r = false /\ shows s' d /\ exists m, s' = told m s
    | Some h => r = true /\ shows s' d /\ input s' = input s /\ exists b', buffers s' !! curbp s' = Some b' /\ edit_ok b' /\ view b' = view b /\
        b_ebuf b <= b_ebuf b' /\ h = Held d (b_gap b') (room b')
    end).
Proof.
  intros Hs Hb Hok Hv Hn. unfold with_room. destruct short; cbn [negb].
  - eapply wp_mono; [by apply (wp_growgap s b n Hb Hok)|]. cbn beta. intros r s'. cbn [h_doc h_gap h_room].
    destruct (view_d _ _ Hv) as (_ & _ & _ & _ & Es). pose proof Hok as [Hbo _ _ _ _]. pose proof (size_eq b Hbo) as Ez.
    replace (d_size d + room b) with (b_ebuf b) by lia. destruct (grows (b_ebuf b) n).
    + intros (-> & b' & -> & Hok' & Hv' & Hp). split; [done|]. split; [eapply shows_set; [exact Hs | done | congruence | done | done]|].
      split; [done|]. exists b'. unfold placed in Hp. injection Hp as -> Hr. split_and!; [apply lookup_set_cur | done | done | | by rewrite Hr].
      destruct (view_parts _ _ Hv') as (_ & _ & _ & _ & Es'). pose proof Hok' as [Hbo' _ _ _ _]. pose proof (size_eq b' Hbo').
      unfold MIN_GAP_EXPAND in *. lia.
    + intros (-> & m & ->). split; [done|]. split; [by apply shows_told | by exists m].
  - apply wp_ret. split; [done|]. split; [done|]. split; [done|]. exists b. done.
Qed.

Lemma overwriting_view b d : view b = d_view d -> overwriting b = d_overwriting d.
Proof. unfold view, d_view, overwriting, d_overwriting. intros E. by injection E as _ _ _ ->. Qed.

Lemma replaces_view c b d : view b = d_view d -> replaces_at c b = replaces c d.
Proof.
  intros E. unfold replaces_at, replaces. rewrite (overwriting_view b d E). unfold view, d_view in E.
  by injection E as -> -> _ _.
Qed.

Lemma holds_set s d b d' g r : shows s d -> edit_ok b -> view b = d_view d' -> placed b = (g, r) ->
  d_scrap d' = d_scrap d -> d_nscrap d' = d_nscrap d -> holds (set_cur b s) (Held d' g r).
Proof. intros Hs Hok Hv Hp E1 E2. split; [by eapply shows_set|]. exists b. split; [apply lookup_set_cur | done]. Qed.

Lemma holds_told m s h : holds s h -> holds (told m s) h.
Proof. intros [Hs Hb]. split; [by apply shows_told | exact Hb]. Qed.

Lemma holds_buffer s d g r : holds s (Held d g r) -> exists b, buffers s !! curbp s = Some b /\ edit_ok b /\ view b = d_view d /\
  b_gap b = g /\ room b = r.
Proof.
  intros [[(b & Hb & Hok & Hv) _ _ _] (b0 & Hb0 & Hp)]. rewrite Hb in Hb0. injection Hb0 as <-. unfold placed in Hp. injection Hp as <- <-. by exists b.
Qed.

Lemma wp_insert s h : is_Some behind -> holds s h -> wp (fun _ => insert_) s (fun _ s' => holds s' (h_typed (input s) h)).
Proof.
  intros Hbh Hh. destruct h as [d g r]. destruct (holds_buffer _ _ _ _ Hh) as (b & Hb & Hok & Hv & <- & <-). destruct Hh as [Hs _].
  pose proof Hok as [[G1 G2 G3] _ _ _ _]. unfold insert_. eapply wp_read_cur; [exact Hb|]. wstep. wstep. unfold h_typed. cbn [h_room].
  assert ((b_gap b =? b_egap b) = (room b =? 0)) as -> by (unfold room; destruct (Z.eqb_spec (b_gap b) (b_egap b)), (Z.eqb_spec (b_egap b - b_gap b) 0); lia || done).
  eapply wp_call; [apply (wp_make_room s d b _ CHUNK Hs Hb Hok Hv); unfold int64, CHUNK; lia|]. cbn beta. intros ok s1.
  destruct (with_room _ _ _) as [h1|] eqn:Ew.
  2: { intros (-> & _ & m & ->). apply wp_ret. apply holds_told. split; [done|]. by exists b. }
  intros (-> & Hs1 & Ei & b1 & Hb1 & Hok1 & Hv1 & _ & ->). cbn iota. wstep. rewrite Ei.
  assert (0 < room b1) as Hr1.
  { unfold with_room in Ew. destruct (Z.eqb_spec (room b) 0); cbn [negb] in Ew.
    - destruct (grows _ _); [|done]. injection Ew as _ Er. unfold MIN_GAP_EXPAND, CHUNK in *. simpl in Er. lia.
    - injection Ew as _ Er. unfold room in *. lia. }
  eapply wp_cur; [exact Hb1|]. eapply wp_mono; [by apply wp_insert_body|]. cbn beta. intros _ b2 (Hok2 & Hv2 & Hp2).
  rewrite Hv in Hv1. rewrite (replaces_view _ _ d Hv1) in Hv2, Hp2. destruct (view_d _ _ Hv1) as (Et & Ep & Em & Ef & _).
  rewrite Et, Ep, Em, Ef in Hv2. rewrite Ep in Hp2.
  destruct (replaces (input s) d) eqn:Er; (eapply holds_set; [exact Hs1 | done | unfold typed; by rewrite Er | done | unfold typed; by rewrite Er..]).
Qed.

Lemma wp_paste s h : holds s h -> ~ stuck (h_doc h) Paste ->
  wp (fun _ => paste) s (fun _ s' => exists h', astep h Paste h' /\ holds s' h').
Proof.
  intros Hh Hns. destruct h as [d g r]. destruct (holds_buffer _ _ _ _ Hh) as (b & Hb & Hok & Hv & Eg & Er).
  pose proof Hh as [Hs _]. pose proof Hs as [_ _ [Esc En] [Hn0 Hni Hsc]]. cbn [h_doc] in *.
  unfold paste. eapply wp_read_cur; [exact Hb|]. rewrite (overwriting_view b d Hv).
  destruct (d_overwriting d) eqn:Eo; [apply wp_ret; eexists; split; [apply a_paste_nothing; by left | done]|]. wstep. rewrite En.
  destruct (Z.leb_spec (d_nscrap d) 0) as [Hz|Hpos].
  { apply wp_msg. eexists. split; [apply a_paste_nothing; by right | by apply holds_told]. }
  destruct (d_scrap d) as [l|] eqn:El; [|by destruct Hns]. destruct (Hsc l eq_refl) as [Hl Hbl]. wstep.
  apply (wp_mono _ _ (fun _ s' => holds s' (h_pasted l (Held d g r)))); [|intros _ s' Hs'; exists (h_pasted l (Held d g r)); split; [by apply a_paste | exact Hs']].
  unfold h_pasted. cbn [h_doc h_room]. subst g r. set (n := d_nscrap d) in *.
  assert ((if n <? b_egap b - b_gap b then mret true else growgap (curbp s) n) = (if room b <=? n then growgap (curbp s) n else mret true)) as ->.
  { change (b_egap b - b_gap b) with (room b). by destruct (Z.ltb_spec n (room b)), (Z.leb_spec (room b) n); try lia. }
  eapply wp_call; [apply (wp_make_room s d b _ n Hs Hb Hok Hv); exact Hni|]. cbn beta. intros ok s1.
  destruct (with_room _ _ _) as [h1|] eqn:Ew.
  2: { intros (-> & _ & m & ->). apply wp_ret. apply holds_told. exact Hh. }
  intros (-> & Hs1 & _ & b1 & Hb1 & Hok1 & Hv1 & _ & ->). wstep. pose proof Hs1 as [_ _ [-> _] _]. rewrite El.
  assert (n <= room b1) as Hr1.
  { pose proof Hok as [[G1 G2 G3] _ _ _ _]. unfold with_room in Ew. destruct (Z.leb_spec (room b) n); cbn [negb] in Ew.
    - destruct (grows _ _); [|done]. injection Ew as _ Er. cbn [h_room] in Er. unfold room in *. lia.
    - injection Ew as _ Er. unfold room in *. lia. }
  rewrite Hl in Hr1 |- *. eapply wp_cur; [exact Hb1|]. eapply wp_mono; [by apply wp_paste_body|]. cbn beta. intros _ b2 ([Hok2 _] & Hv2 & Hp2).
  rewrite Hv in Hv1. destruct (view_d _ _ Hv1) as (Et & Ep & Em & Ef & _). rewrite Et, Ep, Em, Ef in Hv2. rewrite Ep in Hp2.
  rewrite <- Hl in Hv2, Hp2. eapply holds_set; [exact Hs1 | done | exact Hv2 | exact Hp2 | done | done].
Qed.

(** *** Copying and cutting *)

(** The region of [d] is in the text. *)
Lemma region_bounds d p q : 0 <= d_point d <= d_size d -> d_mark d = NOMARK \/ 0 <= d_mark d -> d_mark d <= d_size d ->
  no_region d = false -> region d = (p, q) -> 0 <= p < q /\ q <= d_size d /\ d_mark d <> NOMARK.
Proof.
  unfold no_region, region. intros H1 H2 H3 Hn E. injection E as <- <-.
  apply orb_false_iff in Hn as [Hn1%Z.eqb_neq Hn2%Z.eqb_neq]. lia.
Qed.

(** The region is what is copied, if the gap is not in it or behind it in the way. *)
Lemma copies_slice t g r p q l : copies t g r p q l -> 0 <= p < q -> g <= Z.of_nat (length t) ->
  g <= p \/ (q <= g /\ q - p <= r) -> l = slice t p q.
Proof.
  intros (junk & Hj & ->) Hp Hg Hc. unfold slice. destruct (Z.leb_spec g p); [done|]. destruct Hc as [Hc|[Hc1 Hc2]]; [lia|].
  rewrite take_app_le, take_take, Nat.min_l by (rewrite ?length_take, ?length_app; lia).
  rewrite take_app_le by (rewrite length_take, length_drop; lia). rewrite take_take. f_equal. lia.
Qed.

Definition copied (b : buffer) (p q : Z) (l : list Z) : Prop :=
  Z.of_nat (length l) = q - p /\ Forall byte l /\ copies (text b) (b_gap b) (room b) p q l.

Lemma take_app_take {A} n (a c : list A) : take n (a ++ take n c) = take n (a ++ c).
Proof. rewrite !take_app, take_take. do 2 f_equal. lia. Qed.

Lemma slice_mem_below b p q : buffer_ok b -> 0 <= p <= q -> q <= b_gap b -> slice (text b) p q = slice (b_mem b) p q.
Proof.
  intros Hb Hp Hq. unfold slice. rewrite !firstn_skipn_comm. replace (Z.to_nat p + Z.to_nat (q - p))%nat with (Z.to_nat q) by lia.
  f_equal. pose proof (text_take b Hb) as Ht. apply (f_equal (take (Z.to_nat q))) in Ht.
  by rewrite !take_take, !Nat.min_l in Ht by lia.
Qed.

(** Loading the region from where [ptr] was before the gap moved to its start. *)
Lemma wp_copy_region b p q : edit_ok b -> 0 <= p < q -> q <= size b ->
  wp (fun _ => movegap p) b (fun _ b' => edit_ok b' /\ view b' = view b /\ b_gap b' = p /\ room b' = room b /\
    b_ebuf b' = b_ebuf b /\
    ptr b p + (q - p) <= b_ebuf b /\ 0 <= ptr b p /\
    copied b p q (take (Z.to_nat (q - p)) (drop (Z.to_nat (ptr b p)) (b_mem b')))).
Proof.
  intros Hok Hp Hq. pose proof Hok as [Hb _ _ _ _]. pose proof Hb as [G1 G2 G3]. pose proof (size_eq b Hb) as Es.
  assert (wp (fun _ => movegap p) b (fun _ b' => p <= b_gap b ->
    take (Z.to_nat (p + room b)) (b_mem b') = take (Z.to_nat (p + room b)) (b_mem b))) as Hst.
  { destruct (Z.le_gt_cases p (b_gap b)).
    - eapply wp_mono; [apply wp_movegap_stale; [done | lia]|]. cbn beta. intros _ b' E _. exact E.
    - eapply wp_mono; [apply wp_movegap; [done | lia]|]. cbn beta. intros _ b' _ ?. lia. }
  eapply wp_mono; [apply wp_and; [apply wp_movegap; [done | lia] | exact Hst]|]. cbn beta.
  intros r b' [[-> Hg] Hstale]. destruct (gap_at_edit _ _ _ Hok Hg) as (Hok' & Hv & Hgap & Hr & He).
  pose proof Hok' as [Hb' _ _ _ _]. pose proof Hb' as [G1' G2' G3']. destruct (view_parts _ _ Hv) as (Et & _ & _ & _ & _).
  assert (ptr b p = if p <? b_gap b then p else p + room b) as Ep.
  { unfold ptr, room. rewrite (proj2 (Z.ltb_ge p 0)) by lia. by destruct (p <? b_gap b); [lia|]. }
  assert (0 <= ptr b p /\ ptr b p + (q - p) <= b_ebuf b) as [Hp0 Hp1]
    by (rewrite Ep; unfold room in *; destruct (Z.ltb_spec p (b_gap b)); lia).
  do 5 (split; [done|]). split; [done|]. split; [done|]. split; [|split].
  - rewrite length_take, length_drop. unfold b_ebuf in *. lia.
  - by apply Forall_take, Forall_drop.
  - exists (take (Z.to_nat (room b)) (drop (Z.to_nat (b_gap b)) (b_mem b))).
    split; [rewrite length_take, length_drop; unfold room, b_ebuf in *; lia|]. f_equal.
    pose proof (text_drop b' 0 Hb') as Hd. rewrite !Nat.add_0_r, Hgap, Et in Hd.
    assert (drop (Z.to_nat (p + room b)) (b_mem b') = drop (Z.to_nat p) (text b)) as Hd2 by (rewrite Hd; f_equal; unfold room in *; lia).
    rewrite Ep. destruct (Z.ltb_spec p (b_gap b)) as [Hlt|Hge]; [|by rewrite (proj2 (Z.leb_le _ _)) by lia].
    rewrite (proj2 (Z.leb_gt _ _)) by lia. specialize (Hstale ltac:(lia)).
    rewrite <- (take_drop (Z.to_nat (room b)) (drop (Z.to_nat p) (b_mem b'))), drop_drop.
    replace (Z.to_nat p + Z.to_nat (room b))%nat with (Z.to_nat (p + room b)) by (unfold room in *; lia). rewrite Hd2. f_equal.
    rewrite take_app_take. assert (take (Z.to_nat (room b)) (drop (Z.to_nat p) (b_mem b')) = take (Z.to_nat (room b)) (drop (Z.to_nat p) (b_mem b))) as ->.
    { rewrite !firstn_skipn_comm. replace (Z.to_nat p + Z.to_nat (room b))%nat with (Z.to_nat (p + room b)) by (unfold room in *; lia). by rewrite Hstale. }
    f_equal. rewrite slice_mem_below by (done || lia). unfold slice. rewrite <- (take_drop (Z.to_nat (b_gap b)) (b_mem b)) at 1.
    rewrite drop_app_le by (rewrite length_take; unfold b_ebuf in *; lia). f_equal. rewrite firstn_skipn_comm. do 2 f_equal. lia.
Qed.

(** *** Undo *)

(** Undoing puts the other state in its place, so that [undo] again redoes. *)
Lemma wp_undo b0 b : edit_ok b0 -> edit_ok b -> undoable b0 b ->
  wp (fun _ => undo) b (fun _ b' => edit_ok b' /\
    view b' = (text b0, b_point b0, b_mark b, Z.lor (b_flags b) B_MODIFIED) /\ undoable b b').
Proof.
  intros [_ _ _ Hp0 _] [Hb H2 H3 H4 H5] (Up & Ug & Ue & Ut). destruct Hb as [G1 G2 G3].
  unfold undo, undoset. wstep. wstep. apply wp_modify. set (b' := with_flags _ _).
  assert (text b' = text b0) as Et by exact Ut.
  assert (size b' = size b0) as Es by (unfold size; by rewrite Et). split; [|split].
  - split; [by split | done | done | | done]. rewrite Es. change (b_point b') with (u_point (b_ubuf b)). by rewrite Up.
  - unfold view. rewrite Et. change (b_point b') with (u_point (b_ubuf b)). by rewrite Up.
  - done.
Qed.

(** *** Copying and cutting, the whole *)

Lemma wp_copy_finish is_cut b p q t : edit_ok b -> b_gap b = p -> p <= q -> q <= size b -> text b = t -> b_mark b <> NOMARK ->
  wp (fun _ => copy_finish is_cut (q - p)) b (fun _ b' => edit_ok b' /\ b_ubuf b' = b_ubuf b /\ b_mem b' = b_mem b /\
    view b' = (if is_cut then (remove p q t, p, NOMARK, Z.lor (b_flags b) B_MODIFIED) else (t, b_point b, NOMARK, b_flags b)) /\
    placed b' = (p, if is_cut then room b + (q - p) else room b)).
Proof.
  intros Hok Hg Hpq Hq <- Hm. pose proof Hok as [Hb He Hi Hp _]. pose proof Hb as [G1 G2 G3].
  pose proof (size_eq b Hb) as Es. unfold room in Es. unfold copy_finish, block. destruct is_cut.
  - destruct (text_cut b (q - p) Hb) as [Hb3 Et3]; [lia..|]. wstep. apply wp_bind. wstep. apply wp_modify.
    set (b3 := with_egap _ b) in *. change (b_mark b3) with (b_mark b). rewrite (proj2 (Z.eqb_neq _ _)) by done.
    set (b4 := with_mark NOMARK b3). apply (wp_finish_change b4); [by destruct Hb3|].
    destruct (edit_changed b4 (remove p q (text b))) as [Hok4 Hv4]; [by destruct Hb3 | exact He | exact Hi | by left | | |].
    + change (text b4) with (text b3). rewrite Et3, Hg. f_equal. lia.
    + change (b_gap b4) with (b_gap b). rewrite remove_length by (unfold size in *; lia). unfold size in *. lia.
    + split; [done|]. split; [done|]. split; [done|]. rewrite Hv4. change (b_gap b4) with (b_gap b). rewrite Hg. split; [done|].
      unfold placed, room. simpl. f_equal; lia.
  - wstep. apply wp_modify. rewrite (proj2 (Z.eqb_neq _ _)) by done. split; [|unfold placed, room; by rewrite <- Hg].
    split; [by split | done | done | done | by left].
Qed.

(** What [copy_cut] does to a region from [p] to [q]. *)
Definition copy_result (b : buffer) (is_cut : bool) (d : doc) (p q : Z) (s' : editor) : Prop :=
  if alloc_ok (q - p) then
    (exists l, copied b p q l /\
      holds s' (Held (scrapped (Some l) (q - p)
        (if is_cut then changed (remove p q (d_text d)) p (marked NOMARK d) else marked NOMARK d))
        p (if is_cut then room b + (q - p) else room b))) /\
    (exists b', buffers s' !! curbp s' = Some b' /\ edit_ok b' /\ undoable b b' /\ b_ebuf b' = b_ebuf b)
  else holds s' (Held (scrapped None (q - p) d) p (room b)).

Lemma scrap_none n : 0 <= n -> int64 n -> scrap_ok None n.
Proof. intros H1 H2. by split. Qed.

(** The allocation and what follows it, with the gap at the start [p] of the region. *)
Lemma wp_copy_rest s d b b' is_cut p q : shows s (scrapped None (q - p) d) -> buffers s !! curbp s = Some b' ->
  edit_ok b' -> view b' = view b -> view b = d_view d -> b_gap b' = p -> room b' = room b -> 0 <= p < q -> q <= size b' -> d_mark d <> NOMARK ->
  0 <= ptr b p -> ptr b p + (q - p) <= b_ebuf b' -> b_ebuf b' = b_ebuf b ->
  copied b p q (take (Z.to_nat (q - p)) (drop (Z.to_nat (ptr b p)) (b_mem b'))) ->
  wp (fun _ => if negb (alloc_ok (q - p)) then msg "m_alloc" [] else
    cur undoset;; l ← cur (load_block (Z.to_nat (q - p)) (ptr b p)); modify (with_scrap (Some l));; cur (copy_finish is_cut (q - p)))
    s (fun _ s' => copy_result b is_cut d p q s').
Proof.
  intros Hs Hb' Hok' Hv' Hv Hg Hroom Hpq Hq Hmn Hp0 Hp1 Heb Hc. unfold copy_result.
  destruct (alloc_ok (q - p)) eqn:Ea; cbn [negb].
  2: { apply wp_msg, holds_told. split; [exact Hs|]. exists b'. split; [exact Hb'|]. unfold placed. by rewrite Hg, Hroom. }
  destruct Hs as [_ Hw [_ Hns] [Hn0 Hni _]]. pose proof Hok' as [Hbo' He1 Hi1 Hpt1 Hmk1]. pose proof Hbo' as [G1 G2 G3].
  rewrite Hv in Hv'. destruct (view_d _ _ Hv') as (Et & Ep & Em & Ef & Es).
  apply wp_bind. eapply wp_cur; [exact Hb'|]. apply wp_modify. set (b2 := with_ubuf _ b').
  apply wp_bind. eapply wp_cur; [apply lookup_set_cur|]. apply wp_load_block; [done | change (b_ebuf b2) with (b_ebuf b'); lia|].
  change (b_mem b2) with (b_mem b'). set (l := take _ (drop _ _)) in *. wstep. rewrite set_cur_twice.
  pose proof Hc as (Hl & Hbl & _). assert (edit_ok b2) as Hok2 by (by split; [split|..]).
  eapply wp_cur; [apply lookup_set_cur|].
  eapply wp_mono; [apply (wp_copy_finish is_cut b2 p q (d_text d));
    [exact Hok2 | exact Hg | lia | exact Hq | exact Et | change (b_mark b2) with (b_mark b'); congruence]|].
  cbn beta. intros _ b3 (Hok3 & Hu3 & Hm3 & Hv3 & Hp3). split.
  - exists l. split; [done|]. split.
    2: { exists b3. split; [apply lookup_insert_eq|]. rewrite Hp3. cbn [h_gap h_room]. change (room b2) with (room b'). by rewrite Hroom. }
    split; [|exact Hw | split; [by destruct is_cut | destruct is_cut; exact Hns] |].
    + exists b3. split; [apply lookup_insert_eq|]. split; [done|]. rewrite Hv3.
      change (b_flags b2) with (b_flags b'). change (b_point b2) with (b_point b'). rewrite Ef, Ep. by destruct is_cut.
    + assert (Z.of_nat (length l) = q - p) as Hl' by done. assert (scrap_ok (Some l) (q - p)); [|by destruct is_cut].
      split; [done | done |]. intros k E. by injection E as <-.
  - exists b3. split; [apply lookup_insert_eq|]. split; [done|].
    split; [apply (undoable_gap b b' b3); [congruence | done | by rewrite Hu3 | by rewrite Hm3]|].
    rewrite <- Heb. unfold b_ebuf. by rewrite Hm3.
Qed.

Lemma wp_copy_cut s d b is_cut : shows s d -> buffers s !! curbp s = Some b -> d_mark d <= d_size d ->
  wp (fun _ => copy_cut is_cut) s (fun _ s' =>
    if no_region d then s' = s
    else let '(p, q) := region d in copy_result b is_cut d p q s').
Proof.
  intros Hs Hb Hm. pose proof Hs as [(b0 & Hb0 & Hok & Hv) Hw _ _]. rewrite Hb in Hb0. injection Hb0 as <-.
  unfold copy_cut. eapply wp_read_cur; [exact Hb|]. pose proof Hok as [Hbo He Hi Hpt Hmk].
  destruct (view_d _ _ Hv) as (Et & Ep & Em & Ef & Es).
  rewrite Ep, Em in *. fold (no_region d). destruct (no_region d) eqn:En; [by apply wp_ret|]. wstep.
  destruct (region d) as [p q] eqn:Er.
  destruct (region_bounds d p q) as (Hpq & Hq & Hmn); [lia.. | done | done | done|].
  rewrite <- Es in Hq. set (s1 := with_scrap None s).
  assert (buffers s1 !! curbp s1 = Some b) as Hb1 by exact Hb.
  eapply (wp_call _ _ _ (fun r s' => r = ptr b p /\ exists b', s' = with_nscrap (q - p) (set_cur b' s1) /\
    edit_ok b' /\ view b' = view b /\ b_gap b' = p /\ room b' = room b /\ b_ebuf b' = b_ebuf b /\
    ptr b p + (q - p) <= b_ebuf b /\ 0 <= ptr b p /\
    copied b p q (take (Z.to_nat (q - p)) (drop (Z.to_nat (ptr b p)) (b_mem b'))))).
  { unfold region in Er. destruct (Z.ltb_spec (d_point d) (d_mark d)); apply wp_bind;
      (eapply wp_cur; [exact Hb1|]); [rewrite Z.min_l, Z.max_r in Er by lia | rewrite Z.min_r, Z.max_l in Er by lia];
      injection Er as -> ->; (eapply wp_mono; [by apply (wp_copy_region b p q Hok Hpq Hq)|]); cbn beta;
      intros _ b' Hb'; wstep; apply wp_ret; (split; [done|]); by exists b'. }
  cbn beta. intros r s2 (-> & b' & -> & Hok' & Hv' & Hg & Hr & He' & Hp1 & Hp0 & Hc). wstep. cbn [nscrap with_nscrap].
  destruct (view_parts _ _ Hv') as (_ & _ & _ & _ & Es').
  apply (wp_copy_rest _ _ b b'); [| apply lookup_set_cur | done | done | done | done | done | done | lia | done | done | lia | done | done].
  split; [|exact Hw | done | apply scrap_none; [simpl; lia|]].
  - exists b'. split; [apply lookup_insert_eq|]. split; [done|]. by rewrite Hv'.
  - pose proof Hbo as [G1 G2 _]. pose proof (size_eq b Hbo). unfold int64, room in *. simpl. lia.
Qed.

(** ** Any sequence of commands *)

(** [curwp->w_point = curbp->b_point;]. *)
Lemma wp_point_to_window s h : holds s h ->
  wp (fun _ => point ← cur (gets b_point); wp ← gets curwp; at_window wp (modify (with_w_point point))) s
    (fun _ s' => holds s' h).
Proof.
  intros [Hs Hp]. pose proof Hs as [(b & Hb & Hok & Hv) [w Hw] H3 H4]. apply wp_bind. eapply wp_cur; [exact Hb|].
  apply wp_gets. rewrite (set_cur_same s b Hb). wstep. eapply wp_at_window; [exact Hw|]. apply wp_modify.
  split; [|exact Hp]. split; [by exists b | simpl; rewrite lookup_insert_eq; by eexists | done | done].
Qed.

(** A command of a buffer, from its effect on the buffer. *)
Lemma wp_cur_held (p : B unit) s d g r d' g' r' : holds s (Held d g r) ->
  (forall b, edit_ok b -> view b = d_view d -> b_gap b = g -> room b = r ->
    wp (fun _ => p) b (fun _ b' => edit_ok b' /\ view b' = d_view d' /\ placed b' = (g', r'))) ->
  d_scrap d' = d_scrap d -> d_nscrap d' = d_nscrap d -> wp (fun _ => cur p) s (fun _ s' => holds s' (Held d' g' r')).
Proof.
  intros Hh Hp E1 E2. destruct (holds_buffer _ _ _ _ Hh) as (b & Hb & Hok & Hv & Eg & Er). destruct Hh as [Hs _].
  eapply wp_cur; [exact Hb|]. eapply wp_mono; [by apply Hp|]. cbn beta. intros _ b' (Hok' & Hv' & Hp'). by eapply holds_set.
Qed.

Lemma wp_run_cur (p : B unit) s d g r d' g' r' c : holds s (Held d g r) -> astep (Held d g r) c (Held d' g' r') ->
  (forall b, edit_ok b -> view b = d_view d -> b_gap b = g -> room b = r ->
    wp (fun _ => p) b (fun _ b' => edit_ok b' /\ view b' = d_view d' /\ placed b' = (g', r'))) ->
  d_scrap d' = d_scrap d -> d_nscrap d' = d_nscrap d ->
  wp (fun _ => cur p) s (fun _ s' => exists h', astep (Held d g r) c h' /\ holds s' h').
Proof.
  intros Hs Hst Hp E1 E2. eapply wp_mono; [by eapply (wp_cur_held p s d g r d' g' r')|]. cbn beta. intros _ s' Hs'. by eexists.
Qed.

(** A command of a buffer whose result is known for the parts of the view. *)
Ltac buffer_command spec :=
  let b := fresh "b" in let Hok := fresh "Hok" in let Hv := fresh "Hv" in let Hg := fresh "Hg" in let Hr := fresh "Hr" in let b' := fresh "b'" in
  intros b Hok Hv Hg Hr; eapply wp_mono; [by apply spec|]; cbn beta; intros _ b' (? & Hv' & Hp'); split; [tauto|]; rewrite Hv', Hp', ?Hv;
  let E1 := fresh "Et" in let E2 := fresh "Ep" in let E3 := fresh "Em" in let E4 := fresh "Ef" in let E5 := fresh "Es" in
  destruct (view_d _ _ Hv) as (E1 & E2 & E3 & E4 & E5); unfold placed; rewrite ?E1, ?E2, ?E3, ?E4, ?E5, ?Hg, ?Hr.

Lemma shows_bounds s d : shows s d ->
  0 <= d_point d <= d_size d /\ (d_mark d = NOMARK \/ 0 <= d_mark d).
Proof.
  intros [(b & _ & [_ _ _ Hp Hm] & Hv) _ _ _]. destruct (view_d _ _ Hv) as (_ & <- & <- & _ & <-). done.
Qed.

Lemma wp_run_copy (is_cut : bool) s h : holds s h -> d_mark (h_doc h) <= d_size (h_doc h) ->
  wp (fun _ => copy_cut is_cut) s (fun _ s' => exists h', astep h (if is_cut then Cut else Copy) h' /\ holds s' h').
Proof.
  intros Hh Hm. destruct h as [d g r]. destruct (holds_buffer _ _ _ _ Hh) as (b & Hb & Hok & Hv & Eg & Er).
  assert ((if is_cut then Cut else Copy) = Copy \/ (if is_cut then Cut else Copy) = Cut) as Hc by (destruct is_cut; tauto).
  eapply wp_mono; [by apply (wp_copy_cut s d b is_cut (proj1 Hh) Hb)|]. cbn beta. intros _ s'.
  destruct (no_region d) eqn:En; [intros ->; exists (Held d g r); by split; [apply a_nothing|]|].
  destruct (region d) as [p q] eqn:Ereg. unfold copy_result. destruct (alloc_ok _) eqn:Ea.
  - intros [(l & (_ & _ & Hl) & Hs') _]. eexists. split; [|exact Hs']. destruct (view_d _ _ Hv) as (Et & _). rewrite Et, Eg, Er in Hl. rewrite Er.
    destruct is_cut; [by apply a_cut | by apply a_copy].
  - intros Hs'. eexists. split; [|exact Hs']. rewrite Er. by apply a_full.
Qed.

Lemma wp_run s h c : is_Some behind -> holds s h -> ~ stuck (h_doc h) c ->
  wp (fun _ => run c) s (fun _ s' => exists h', astep h c h' /\ holds s' h').
Proof.
  intros Hbh Hh Hns. destruct (shows_bounds s _ (proj1 Hh)) as [Hp Hm].
  destruct c as [| | | |c| | | | | | |]; cbn [run].
  5: { wstep. eapply wp_mono; [apply (wp_insert (with_input c s) h Hbh)|].
    - destruct Hh as [[H1 H2 H3 H4] Hb]. by split.
    - cbn beta. intros _ s' Hs'. eexists. split; [apply a_type | exact Hs']. }
  9: { apply (wp_run_copy false); [done | simpl in Hns; lia]. }
  9: { apply (wp_run_copy true); [done | simpl in Hns; lia]. }
  9: { by apply wp_paste. }
  all: destruct h as [d g r]; cbn [h_doc] in *.
  - eapply wp_run_cur; [done | apply a_left | buffer_command wp_left; done | done..].
  - eapply wp_run_cur; [done | apply a_right | buffer_command wp_right; done | done..].
  - unfold top. eapply wp_call; [apply (wp_cur_held _ s d g r (moved 0 d) g r Hh); [|done..]|].
    + intros b Hok Hv <- <-. apply wp_modify. split; [apply edit_with_point; [done | unfold size; lia]|]. split; [|done].
      unfold view, d_view. simpl. by destruct (view_d _ _ Hv) as (<- & _ & <- & <- & _).
    + cbn beta. intros _ s' Hs'. eapply wp_mono; [by apply (wp_point_to_window _ (Held (moved 0 d) g r))|]. cbn beta.
      intros _ s'' Hs''. eexists. split; [apply a_top | done].
  - unfold bottom. eapply wp_call; [apply (wp_cur_held _ s d g r (moved (d_size d) d) g r Hh); [|done..]|].
    + intros b Hok Hv <- <-. pose proof Hok as [Hbo ? ? ? ?]. destruct Hbo. apply wp_bind, wp_end_pos; [done|].
      apply wp_modify. destruct (view_d _ _ Hv) as (Et & _ & Em & Ef & Es). split.
      * split; [by split | done | done | change (0 <= size b <= size b); unfold size; lia | done].
      * split; [|done]. unfold view. simpl. unfold d_view. simpl. by rewrite <- Et, <- Em, <- Ef, <- Es.
    + cbn beta. intros _ s' Hs'. eapply wp_mono; [by apply (wp_point_to_window _ (Held (moved (d_size d) d) g r))|]. cbn beta.
      intros _ s'' Hs''. eexists. split; [apply a_bottom | done].
  - destruct (Z.eq_dec (d_point d) 0) as [E|E].
    + eapply wp_run_cur; [done | by apply a_backsp_first | buffer_command wp_backsp; by rewrite E | done..].
    + eapply wp_run_cur; [done | apply a_backsp; lia | buffer_command wp_backsp | done..].
      by rewrite (proj2 (Z.eqb_neq _ 0)).
  - destruct (Z.eq_dec (d_point d) (d_size d)) as [E|E].
    + eapply wp_run_cur; [done | by apply a_delete_last | buffer_command wp_delete | done..].
      rewrite (proj2 (Z.eqb_eq _ _)) by done. by rewrite E.
    + eapply wp_run_cur; [done | apply a_delete; lia | buffer_command wp_delete | done..].
      by rewrite (proj2 (Z.eqb_neq _ _)).
  - unfold iblock. eapply wp_call; [apply (wp_cur_held _ s d g r (marked (if d_mark d =? NOMARK then d_point d else NOMARK) d) g r Hh);
      [buffer_command wp_block; done | done..]|].
    cbn beta. intros _ s' Hs'. apply wp_msg. eexists. split; [apply a_block | by apply holds_told].
  - eapply wp_run_cur; [done | apply a_toggle | buffer_command wp_toggle; done | done..].
Qed.

Definition reaches_stuck (h : held) (cs : list command) : Prop :=
  exists cs1 c cs2 h1, cs = cs1 ++ c :: cs2 /\ asteps h cs1 h1 /\ stuck (h_doc h1) c.

Lemma stuck_dec d c : stuck d c \/ ~ stuck d c.
Proof.
  destruct c; simpl; try tauto; try lia. destruct (d_scrap d); [right; by intros [? _]|].
  destruct (Z.lt_decidable 0 (d_nscrap d)); [by left | right; lia].
Qed.

Lemma wp_run_all cs : forall s h, is_Some behind -> holds s h ->
  wp (fun _ => run_all cs) s (fun _ s' => exists h', asteps h cs h' /\ holds s' h') \/ reaches_stuck h cs.
Proof.
  induction cs as [|c cs IH]; intros s h Hbh Hs.
  - left. apply wp_ret. exists h. split; [constructor | done].
  - destruct (stuck_dec (h_doc h) c) as [Hst|Hns].
    { right. exists [], c, cs, h. split; [done|]. split; [constructor | done]. }
    destruct (wp_run s h c Hbh Hs Hns) as (N & a & s1 & Hrun & h1 & Hh1 & Hs1).
    destruct (IH s1 h1 Hbh Hs1) as [Hgo | (cs1 & c' & cs2 & h2 & -> & Hh2 & Hc')].
    + left. cbn [run_all]. eapply (wp_call _ _ _ (fun _ s' => s' = s1)); [by exists N, a, s1|]. cbn beta.
      intros _ s' ->. eapply wp_mono; [exact Hgo|]. cbn beta. intros _ s' (h' & Hh' & Hs'). exists h'.
      split; [by econstructor | done].
    + right. exists (c :: cs1), c', cs2, h2. split; [done|]. split; [by econstructor | done].
Qed.
End spec.
