(* ===== verification/AttoSearch.v ===== *)
(** * Atto: searching (src/editors/atto/search.c)

    [search_forward] finds the first occurrence from the point on, [search_backwards] the
    last one before it. *)

From Stdlib Require Import ZArith Lia.
From stdpp Require Import base numbers list gmap strings.
From S2P Require Import Prelude Atto AttoGap AttoLines AttoEdit AttoSpec.

Open Scope Z_scope.

(** ** Code *)

(** A [char] of the search text compared with a [char_t]: [char] is signed. *)
Definition schar (c : Z) : Z := if 128 <=? c then c - 256 else c.

Section code.
Context `{machine}.

(** [for (s=stext, pp=p; *s == *ptr && *s !='\0' && pp < end_p; s++, pp++);]: whether [*s] is the end, and [pp]. *)
Fixpoint forward_match (s : list Z) (pp end_p : Z) : B (bool * Z) :=
  ch ← char_at pp;
  match s with
  | [] => mret (true, pp)
  | c :: s => if (schar c =? ch) && (pp <? end_p) then forward_match s (pp + 1) end_p else mret (false, pp)
  end.

Fixpoint forward_loop (fuel : nat) (stext : list Z) (p end_p : Z) : B Z :=
  match fuel with
  | O => fail Out_of_fuel
  | S fuel =>
      if p <? end_p then
        '(found, pp) ← forward_match stext p end_p;
        if found : bool then mret pp else forward_loop fuel stext (p + 1) end_p
      else mret (-1)
  end.

Definition search_forward (stext : list Z) : B Z :=
  end_p ← end_pos;
  point ← gets b_point;
  match stext with
  | [] => mret point
  | _ => with_fuel (fun fuel => forward_loop fuel stext point end_p)
  end.

(** The same with [pp > 0] in place of [pp < end_p]. *)
Fixpoint backward_match (s : list Z) (pp : Z) : B bool :=
  ch ← char_at pp;
  match s with
  | [] => mret true
  | c :: s => if (schar c =? ch) && (0 <? pp) then backward_match s (pp + 1) else mret false
  end.

Fixpoint backward_loop (fuel : nat) (stext : list Z) (p : Z) : B Z :=
  match fuel with
  | O => fail Out_of_fuel
  | S fuel =>
      if 0 <? p then
        found ← backward_match stext p;
        if found : bool then mret (if 0 <? p then p - 1 else p) else backward_loop fuel stext (p - 1)
      else mret (-1)
  end.

Definition search_backwards (stext : list Z) : B Z :=
  point ← gets b_point;
  match stext with
  | [] => mret point
  | _ => with_fuel (fun fuel => backward_loop fuel stext point)
  end.

End code.

(** ** Occurrences *)

(** [s] is in [t] at [p]. *)
Definition occurs (t s : list Z) (p : Z) : Prop := slice t p (p + Z.of_nat (length s)) = s.

(** What can be typed and found: the characters of ASCII. *)
Definition ascii (s : list Z) : Prop := Forall (fun c => 0 < c < 128) s.

Section search.
Context `{machine}.

Lemma occurs_nil t p : occurs t [] p.
Proof. unfold occurs. simpl. rewrite Z.add_0_r. apply slice_nil. Qed.

Lemma occurs_cons t c s p : 0 <= p ->
  occurs t (c :: s) p <-> t !! Z.to_nat p = Some c /\ occurs t s (p + 1).
Proof.
  intros Hp. unfold occurs. simpl length. replace (p + Z.of_nat (S (length s))) with (p + 1 + Z.of_nat (length s)) by lia.
  split.
  - intros E. destruct (t !! Z.to_nat p) as [c'|] eqn:El.
    + rewrite (slice_cons _ _ _ c') in E by (lia || done). injection E as -> E. done.
    + exfalso. unfold slice in E. rewrite drop_ge in E by (by apply lookup_ge_None_1). by rewrite take_nil in E.
  - intros [Hc E]. rewrite (slice_cons _ _ _ c) by (lia || done). by rewrite E.
Qed.

Lemma occurs_len t s p : 0 <= p -> s <> [] -> occurs t s p -> p + Z.of_nat (length s) <= Z.of_nat (length t).
Proof.
  unfold occurs, slice. intros Hp Hs E. apply (f_equal length) in E. rewrite length_take, length_drop in E.
  destruct s as [|c s]; [done|]. simpl in *. lia.
Qed.

Lemma schar_ascii c : 0 < c < 128 -> schar c = c.
Proof. intros Hc. unfold schar. by rewrite (proj2 (Z.leb_gt 128 c)) by lia. Qed.

(** Reading at an offset that may be the end. *)
Lemma wp_char_end b bh off (Q : Z -> buffer -> Prop) : behind = Some bh -> buffer_ok b -> 0 < b_ebuf b -> 0 <= off <= size b ->
  (forall c, (off < size b -> text b !! Z.to_nat off = Some c) -> (off = size b -> c = bh) -> Q c b) ->
  wp (fun _ => char_at off) b Q.
Proof.
  intros Hbh Hb He Ho HQ. destruct (Z.eq_dec off (size b)) as [->|].
  - unfold char_at. wstep. rewrite ptr_size by done. apply (wp_load_behind b bh); [done..|]. apply HQ; [lia | done].
  - destruct (text_at b off) as [c Hc]; [lia|]. apply wp_char_at with c; [done | lia | done |]. apply HQ; [done | lia].
Qed.

Lemma wp_forward_match b s : forall p, is_Some behind -> buffer_ok b -> 0 < b_ebuf b -> ascii s -> 0 <= p <= size b ->
  wp (fun _ => forward_match s p (size b)) b (fun r b' =>
    (occurs (text b) s p /\ r = (true, p + Z.of_nat (length s)) \/ ~ occurs (text b) s p /\ fst r = false) /\ b' = b).
Proof.
  induction s as [|c s IH]; intros p [bh Hbh] Hb He Ha Hp; cbn [forward_match];
    apply wp_bind, (wp_char_end b bh); try done; intros ch Hin Hend.
  - apply wp_ret. split; [|done]. left. split; [apply occurs_nil|]. simpl. by rewrite Z.add_0_r.
  - apply Forall_cons in Ha as [Hc Ha]. rewrite schar_ascii by done.
    destruct (Z.eqb_spec c ch) as [->|Hne]; [destruct (Z.ltb_spec p (size b))|]; cbn [andb].
    + eapply wp_mono; [apply (IH (p + 1)); [by eexists | done.. | lia]|]. cbn beta. intros r b' (Hr & ->). split; [|done].
      rewrite occurs_cons by lia. simpl length. specialize (Hin ltac:(done)).
      destruct Hr as [[Ho ->]|[Ho Hr]]; [left | right; by split; [intros []|]]. split; [done|]. f_equal. lia.
    + apply wp_ret. split; [|done]. right. split; [|done]. intros Ho. apply occurs_len in Ho; [|lia | done].
      unfold size in *. simpl in Ho. lia.
    + apply wp_ret. split; [|done]. right. split; [|done]. intros Ho.
      pose proof (occurs_len (text b) (c :: s) p ltac:(lia) ltac:(done) Ho) as Hl. apply occurs_cons in Ho as [Ho _]; [|lia].
      assert (p < size b) as Hlt by (unfold size; cbn [length] in Hl; lia). rewrite (Hin Hlt) in Ho. congruence.
Qed.

(** The result of a forward search from [p]: the end of the first occurrence, or -1. *)
Definition found_forward (t s : list Z) (p r : Z) : Prop :=
  (exists q, p <= q /\ occurs t s q /\ r = q + Z.of_nat (length s) /\ (forall q', p <= q' < q -> ~ occurs t s q')) \/
  (r = -1 /\ forall q', p <= q' -> ~ occurs t s q').

Lemma wp_forward_loop b s p0 : is_Some behind -> buffer_ok b -> 0 < b_ebuf b -> ascii s -> s <> [] -> 0 <= p0 ->
  forall k p, Z.to_nat (size b - p) = k -> p0 <= p <= size b -> (forall q, p0 <= q < p -> ~ occurs (text b) s q) ->
  wp (fun n => forward_loop n s p (size b)) b (fun r b' => found_forward (text b) s p0 r /\ b' = b).
Proof.
  intros Hbh Hb He Ha Hs Hp0. induction k as [|k IH]; intros p Hk Hp Hno;
    (eapply wp_unfold; [intros n; reflexivity|]); cbn [forward_loop].
  - assert (p = size b) as -> by lia. rewrite Z.ltb_irrefl. apply wp_ret. split; [|done]. right. split; [done|].
    intros q Hq Ho. destruct (Z.lt_ge_cases q (size b)); [by apply (Hno q); [lia|]|].
    apply occurs_len in Ho; [|lia | done]. destruct s; [done|]. unfold size in *. simpl in Ho. lia.
  - rewrite (proj2 (Z.ltb_lt _ _)) by lia. eapply wp_call; [apply wp_forward_match; [done.. | lia]|]. cbn beta.
    intros [found pp] b' (Hr & ->). destruct Hr as [[Ho E]|[Ho E]].
    + injection E as -> ->. apply wp_ret. split; [|done]. left. exists p. split; [lia|]. done.
    + simpl in E. subst found. apply IH; [lia.. |]. intros q Hq. destruct (Z.eq_dec q p) as [->|]; [done | by apply Hno; lia].
Qed.

Lemma wp_search_forward b s : is_Some behind -> edit_ok b -> ascii s -> s <> [] ->
  wp (fun _ => search_forward s) b (fun r b' => found_forward (text b) s (b_point b) r /\ b' = b).
Proof.
  intros Hbh [Hb He _ Hp _] Ha Hs. unfold search_forward. apply wp_bind, wp_end_pos; [done|]. wstep.
  assert (forall (m1 m2 : B Z), match s with [] => m1 | _ => m2 end = m2) as Em by (by destruct s). rewrite Em.
  apply wp_with_fuel. eapply (wp_forward_loop b s (b_point b)); [done.. | lia | reflexivity | lia |]. lia.
Qed.

(** *** Backwards *)

Lemma wp_backward_match b bh s : forall p, behind = Some bh -> buffer_ok b -> 0 < b_ebuf b -> ascii s -> bh ∉ s -> 0 < p <= size b ->
  wp (fun _ => backward_match s p) b (fun r b' => (r = true <-> occurs (text b) s p) /\ b' = b).
Proof.
  induction s as [|c s IH]; intros p Hbh Hb He Ha Hns Hp; cbn [backward_match];
    apply wp_bind, (wp_char_end b bh); try done; try lia; intros ch Hin Hend.
  - apply wp_ret. split; [|done]. split; [intros _; apply occurs_nil | done].
  - apply Forall_cons in Ha as [Hc Ha]. rewrite schar_ascii by done. apply not_elem_of_cons in Hns as [Hnc Hns].
    destruct (Z.eq_dec p (size b)) as [E|].
    + rewrite (Hend E), (proj2 (Z.eqb_neq c bh)) by done. apply wp_ret. split; [|done]. split; [done|]. intros Ho.
      apply occurs_len in Ho; [|lia | done]. unfold size in *. simpl in Ho. lia.
    + specialize (Hin ltac:(lia)). pose proof (occurs_cons (text b) c s p ltac:(lia)) as Hoc. rewrite Hin in Hoc.
      rewrite (proj2 (Z.ltb_lt 0 p)), andb_true_r by lia. destruct (Z.eqb_spec c ch) as [->|Hne].
      * eapply wp_mono; [apply (IH (p + 1)); [done.. | lia]|]. cbn beta. intros r b' (Hr & ->). split; [|done].
        rewrite Hr, Hoc. by split; [|intros []].
      * apply wp_ret. split; [|done]. split; [done|]. intros Ho. apply Hoc in Ho as [E _]. congruence.
Qed.

(** The result of a backward search from [p]: one before the last occurrence that starts
    after the first character and not behind [p], or -1. *)
Definition found_backward (t s : list Z) (p r : Z) : Prop :=
  (exists q, 0 < q <= p /\ occurs t s q /\ r = q - 1 /\ (forall q', q < q' <= p -> ~ occurs t s q')) \/
  (r = -1 /\ forall q', 0 < q' <= p -> ~ occurs t s q').

Lemma wp_search_backwards b bh s : behind = Some bh -> edit_ok b -> ascii s -> bh ∉ s -> s <> [] ->
  wp (fun _ => search_backwards s) b (fun r b' => found_backward (text b) s (b_point b) r /\ b' = b).
Proof.
  intros Hbh [Hb He _ Hp0 _] Ha Hns Hs. unfold search_backwards. wstep.
  assert (forall (m1 m2 : B Z), match s with [] => m1 | _ => m2 end = m2) as Em by (by destruct s). rewrite Em.
  apply wp_with_fuel.
  assert (forall k p, Z.to_nat p = k -> 0 <= p <= b_point b ->
    (forall q, p < q <= b_point b -> ~ occurs (text b) s q) ->
    wp (fun n => backward_loop n s p) b (fun r b' => found_backward (text b) s (b_point b) r /\ b' = b)) as Hloop.
  { induction k as [|k IH]; intros p Hk Hp Hno; (eapply wp_unfold; [intros n; reflexivity|]); cbn [backward_loop].
    - rewrite (proj2 (Z.ltb_ge 0 p)) by lia. apply wp_ret. split; [|done]. right. split; [done|]. intros q Hq. apply Hno. lia.
    - rewrite (proj2 (Z.ltb_lt 0 p)) by lia. eapply wp_call; [apply (wp_backward_match b bh); [done.. | lia]|].
      cbn beta. intros found b' (Hf & ->). destruct found.
      + apply wp_ret. split; [|done]. left. exists p. split; [lia|]. split; [by apply Hf|]. done.
      + apply IH; [lia.. |]. intros q Hq. destruct (Z.eq_dec q p) as [->|]; [|by apply Hno; lia]. intros Ho.
        by apply Hf in Ho. }
  eapply Hloop; [reflexivity | lia..].
Qed.
End search.
