(* ===== verification/AttoDisplay.v ===== *)
(** * Atto: the screen (src/editors/atto/display.c)

    What [display] and [update_display] do to buffers and windows; the
    characters they hand to curses are not modelled. *)

From Stdlib Require Import ZArith Lia.
From stdpp Require Import base numbers list gmap strings.
From S2P Require Import Prelude Atto AttoGap AttoLines AttoEdit.

Open Scope Z_scope.

Section code.
Context `{machine}.

(** [isprint] in the C locale. *)
Definition isprint (c : Z) : bool := (32 <=? c) && (c <=? 126).

(** [while (0 < i--) bp->b_page = upup(bp, bp->b_page);] *)
Fixpoint scroll_up (i : nat) : B unit :=
  match i with
  | O => mret tt
  | S i =>
      page ← gets b_page;
      page ← upup page;
      modify (with_page page);;
      scroll_up i
  end.

(** The start of the page, from the point and the page before. *)
Definition reframe (w_rows : Z) : B unit :=
  b ← get_state;
  (if b_point b <? b_page b then
    l ← lnstart (b_point b);
    page ← segstart l (b_point b);
    modify (with_page page)
  else mret tt);;
  b ← get_state;
  if b_epage b <=? b_point b then
    page ← dndn (b_point b);
    modify (with_page page);;
    end_p ← end_pos;
    if end_p <=? page then
      modify (with_page end_p);; scroll_up (Z.to_nat (w_rows - 1))
    else scroll_up (Z.to_nat w_rows)
  else mret tt.

(** The columns [c] takes on the screen from column [j] on. *)
Definition shown_cols (j c : Z) : Z :=
  if c =? 13 then 0
  else if isprint c || (c =? 9) || (c =? 10) then (if c =? 9 then 8 - Z.land j 7 else 1)
  else Z.of_nat (length (unctrl c)).

Fixpoint paint_loop (fuel : nat) (bottom i j : Z) : B unit :=
  match fuel with
  | O => fail Out_of_fuel
  | S fuel =>
      b ← get_state;
      (if b_point b =? b_epage b then modify (fun b => with_col j (with_row i b)) else mret tt);;
      let p := ptr b (b_epage b) in
      if (bottom <=? i) || (b_ebuf b <=? p) then mret tt else
      c ← load p;
      let j := j + shown_cols j c in
      let '(i, j) := if (c =? 10) || (COLS <=? j) then (i + 1, Z.max 0 (j - COLS)) else (i, j) in
      modify (with_epage (b_epage b + 1));;
      paint_loop fuel bottom i j
  end.

(** [display] on the buffer of a window from row [w_top] on. *)
Definition paint (w_top w_rows : Z) : B unit :=
  reframe w_rows;;
  modify (fun b => with_epage (b_page b) b);;
  with_fuel (fun fuel => paint_loop fuel (w_top + w_rows) w_top 0).

Definition b2w (wp : Z) : E unit :=
  bp ← at_window wp (gets w_bufp);
  b ← at_buffer bp get_state;
  at_window wp (modify (fun w =>
    with_w_col (b_col b) (with_w_row (b_row b) (with_w_epage (b_epage b) (with_w_page (b_page b) (with_w_point (b_point b) w))))));;
  at_buffer bp (modify (fun b => with_size (b_ebuf b - (b_egap b - b_gap b)) b)).

Definition w2b (wp : Z) : E unit :=
  w ← at_window wp get_state;
  at_buffer (w_bufp w) (
    modify (fun b => with_col (w_col w) (with_row (w_row w) (with_epage (w_epage w) (with_page (w_page w) (with_point (w_point w) b)))));;
    modify (fun b =>
      if b_cpoint b <? b_point b then
        let d := b_size b - b_psize b in
        with_epage (b_epage b + d) (with_page (b_page b + d) (with_point (b_point b + d) b))
      else b)).

Definition get_buffer_name (b : buffer) : list Z :=
  match b_fname b with [] => b_bname b | _ => b_fname b end.

(** [modeline] writes its line to [temp]. *)
Definition modeline (wp : Z) : E unit :=
  w ← at_window wp get_state;
  b ← at_buffer (w_bufp w) get_state;
  c ← gets curwp;
  let lch := if wp =? c then 61 else 45 in
  let mch := if Z.land (b_flags b) B_MODIFIED =? 0 then lch else 42 in
  let och := if Z.land (b_flags b) B_OVERWRITE =? 0 then lch else 79 in
  modify (with_temp ([lch; och; mch; 32; 65; 116; 116; 111; 58; 32; lch; lch; 32] ++ get_buffer_name b)).

Definition dispmsg : E unit := modify (fun s => if msgflag s then with_msgflag false s else s).

Definition display (wp : Z) (flag : bool) : E unit :=
  w ← at_window wp get_state;
  at_buffer (w_bufp w) (paint (w_top w) (w_rows w));;
  b2w wp;;
  modeline wp;;
  c ← gets curwp;
  (if (wp =? c) && flag then dispmsg else mret tt);;
  at_window wp (modify (with_w_update false)).

(** The other windows that show the same buffer, or are to be updated. *)
Fixpoint update_others (fuel : nat) (bp wp : Z) : E unit :=
  match fuel with
  | O => fail Out_of_fuel
  | S fuel =>
      if wp =? NULL then mret tt else
      w ← at_window wp get_state;
      c ← gets curwp;
      (if negb (wp =? c) && ((w_bufp w =? bp) || w_update w) then w2b wp;; display wp false else mret tt);;
      update_others fuel bp (w_next w)
  end.

Definition update_display : E unit :=
  wp ← gets curwp;
  bp ← at_window wp (gets w_bufp);
  at_buffer bp (modify (fun b => with_cpoint (b_point b) b));;
  head ← gets wheadp;
  next ← at_window head (gets w_next);
  (if next =? NULL then display wp true
   else
     display wp false;;
     with_fuel (fun fuel => update_others fuel bp head);;
     w2b wp;;
     dispmsg);;
  at_buffer bp (modify (fun b => with_psize (b_size b) b)).

(** [for (wp=wheadp; wp != NULL; wp = wp->w_next) wp->w_update = TRUE;] *)
Fixpoint mark_windows (fuel : nat) (wp : Z) : E unit :=
  match fuel with
  | O => fail Out_of_fuel
  | S fuel =>
      if wp =? NULL then mret tt else
      next ← at_window wp (modify (with_w_update true);; gets w_next);
      mark_windows fuel next
  end.

Definition redraw : E unit :=
  head ← gets wheadp;
  with_fuel (fun fuel => mark_windows fuel head);;
  update_display.

End code.
