(* ===== verification/AttoBuffers.v ===== *)
(** * Atto: buffers and windows (src/editors/atto/buffer.c, window.c)

    Two lists linked by [b_next] and [w_next]; each window shows a buffer, and
    [b_cnt] counts the windows of a buffer. *)

From Stdlib Require Import ZArith Lia.
From stdpp Require Import base numbers list gmap strings.
From S2P Require Import Prelude Atto AttoGap AttoLines AttoEdit AttoDisplay.

Open Scope Z_scope.

(** ** Code *)

(** [strcmp] on strings of bytes. *)
Fixpoint strcmp (a b : list Z) : Z :=
  match a, b with
  | [], [] => 0
  | [], _ :: _ => -1
  | _ :: _, [] => 1
  | x :: a, y :: b => if x =? y then strcmp a b else if x <? y then -1 else 1
  end.

Section code.
Context `{machine}.

(** [malloc] and [buffer_init]: the name, the cursor and the undo record are not initialized. *)
Definition new_buffer : buffer :=
  Buffer NULL 0 0 0 0 0 0 0 0 [] 0 0 (junk_numbers 0) (junk_numbers 1) [] junk_name 0
    (Undo (junk_numbers 2) (junk_numbers 3) (junk_numbers 4)).

(** *** buffer.c *)

Fixpoint find_loop (fuel : nat) (fname : list Z) (bp : Z) : E Z :=
  match fuel with
  | O => fail Out_of_fuel
  | S fuel =>
      if bp =? NULL then mret NULL else
      b ← at_buffer bp get_state;
      if (strcmp fname (b_fname b) =? 0) || (strcmp fname (b_bname b) =? 0) then mret bp
      else find_loop fuel fname (b_next b)
  end.

(** Where a new buffer goes: behind [sb], before the first larger name. *)
Fixpoint place_loop (fuel : nat) (fname : list Z) (sb : Z) : E Z :=
  match fuel with
  | O => fail Out_of_fuel
  | S fuel =>
      next ← at_buffer sb (gets b_next);
      if next =? NULL then mret sb else
      b ← at_buffer next get_state;
      if 0 <? strcmp (b_fname b) fname then mret sb else place_loop fuel fname next
  end.

Definition find_buffer (fname : list Z) (cflag : bool) : E Z :=
  head ← gets bheadp;
  bp ← with_fuel (fun fuel => find_loop fuel fname head);
  if negb (bp =? NULL) then mret bp else
  if negb cflag then mret bp else
  if negb (alloc_ok sizeof_buffer_t) then mret NULL else
  bp ← gets brk;
  modify (fun s => with_brk (bp + 1) (with_buffers (<[bp := new_buffer]> (buffers s)) s));;
  (if head =? NULL then modify (with_bheadp bp)
   else
     first ← at_buffer head (gets b_fname);
     if 0 <? strcmp first fname then
       at_buffer bp (modify (with_next head));; modify (with_bheadp bp)
     else
       sb ← with_fuel (fun fuel => place_loop fuel fname head);
       next ← at_buffer sb (gets b_next);
       at_buffer bp (modify (with_next next));;
       at_buffer sb (modify (with_next bp)));;
  mret bp.

Fixpoint before_loop (fuel : nat) (bp sb : Z) : E Z :=
  match fuel with
  | O => fail Out_of_fuel
  | S fuel =>
      next ← at_buffer sb (gets b_next);
      if (next =? bp) || (next =? NULL) then mret sb else before_loop fuel bp next
  end.

Definition delete_buffer (bp : Z) : E unit :=
  c ← gets curbp;
  assert_that (negb (bp =? c));;
  head ← gets bheadp;
  next ← at_buffer bp (gets b_next);
  (if bp =? head then modify (with_bheadp next)
   else
     sb ← with_fuel (fun fuel => before_loop fuel bp head);
     n ← at_buffer sb (gets b_next);
     assert_that ((n =? bp) || (n =? NULL));;
     at_buffer sb (modify (with_next next)));;
  modify (fun s => with_buffers (base.delete bp (buffers s)) s).

Definition associate_b2w (bp wp : Z) : E unit :=
  assert_that (negb (bp =? NULL));;
  assert_that (negb (wp =? NULL));;
  at_window wp (modify (with_w_bufp bp));;
  at_buffer bp (modify (fun b => with_cnt (b_cnt b + 1) b)).

Definition disassociate_b (wp : Z) : E unit :=
  assert_that (negb (wp =? NULL));;
  bp ← at_window wp (gets w_bufp);
  assert_that (negb (bp =? NULL));;
  at_buffer bp (modify (fun b => with_cnt (b_cnt b - 1) b)).

Definition next_buffer : E unit :=
  c ← gets curbp;
  head ← gets bheadp;
  wp ← gets curwp;
  assert_that (negb (c =? NULL));;
  assert_that (negb (head =? NULL));;
  disassociate_b wp;;
  next ← at_buffer c (gets b_next);
  let bp := if negb (next =? NULL) then next else head in
  modify (with_curbp bp);;
  associate_b2w bp wp.

Fixpoint count_loop (fuel : nat) (bp : Z) : E Z :=
  match fuel with
  | O => fail Out_of_fuel
  | S fuel =>
      if bp =? NULL then mret 0 else
      next ← at_buffer bp (gets b_next);
      n ← count_loop fuel next;
      mret (n + 1)
  end.

Definition count_buffers : E Z := head ← gets bheadp; with_fuel (fun fuel => count_loop fuel head).

Fixpoint modified_loop (fuel : nat) (bp : Z) : E bool :=
  match fuel with
  | O => fail Out_of_fuel
  | S fuel =>
      if bp =? NULL then mret false else
      b ← at_buffer bp get_state;
      if negb (Z.land (b_flags b) B_MODIFIED =? 0) then mret true else modified_loop fuel (b_next b)
  end.

Definition modified_buffers : E bool := head ← gets bheadp; with_fuel (fun fuel => modified_loop fuel head).

(** *** window.c *)

(** The page, the rows and the cursor are not initialized. *)
Definition new_window : E Z :=
  assert_that (alloc_ok sizeof_window_t);;
  wp ← gets brk;
  modify (fun s => with_win_cnt (win_cnt s + 1) (with_brk (wp + 1) (with_windows
    (<[wp := Window NULL NULL 0 NOMARK (junk_numbers 5) (junk_numbers 6) 0 0 (junk_numbers 7) (junk_numbers 8) false]>
      (windows s)) s)));;
  mret wp.

Definition one_window (wp : Z) : E unit :=
  at_window wp (modify (fun w => with_w_next NULL (with_w_rows (LINES - 2) (with_w_top 0 w)))).

Definition split_window : E unit :=
  cw ← gets curwp;
  w ← at_window cw get_state;
  if w_rows w <? 3 then msg "Cannot split a %d line window" [Int_arg (w_rows w)] else
  wp ← new_window;
  associate_b2w (w_bufp w) wp;;
  b2w wp;;
  let ntru := Z.quot (w_rows w - 1) 2 in
  let ntrl := w_rows w - 1 - ntru in
  at_window cw (modify (with_w_rows ntru));;
  at_window wp (modify (fun w' => with_w_rows ntrl (with_w_top (w_top w + ntru + 1) w')));;
  wp2 ← at_window cw (gets w_next);
  at_window cw (modify (with_w_next wp));;
  at_window wp (modify (with_w_next wp2));;
  redraw.

Definition next_window : E unit :=
  cw ← gets curwp;
  next ← at_window cw (modify (with_w_update true);; gets w_next);
  head ← gets wheadp;
  let wp := if next =? NULL then head else next in
  modify (with_curwp wp);;
  bp ← at_window wp (gets w_bufp);
  modify (with_curbp bp);;
  cnt ← at_buffer bp (gets b_cnt);
  if 1 <? cnt then w2b wp else mret tt.

Fixpoint free_loop (fuel : nat) (winp wp : Z) : E unit :=
  match fuel with
  | O => fail Out_of_fuel
  | S fuel =>
      if wp =? NULL then mret tt else
      next ← at_window wp (gets w_next);
      (if negb (wp =? winp) then
         disassociate_b wp;;
         modify (fun s => with_windows (base.delete wp (windows s)) s)
       else mret tt);;
      free_loop fuel winp next
  end.

Definition free_other_windows (winp : Z) : E unit :=
  head ← gets wheadp;
  with_fuel (fun fuel => free_loop fuel winp head);;
  modify (with_curwp winp);;
  modify (with_wheadp winp);;
  one_window winp.

Definition delete_other_windows : E unit :=
  head ← gets wheadp;
  next ← at_window head (gets w_next);
  if next =? NULL then msg "Only 1 window" [] else
  cw ← gets curwp;
  free_other_windows cw.

(** *** command.c: the commands on whole buffers *)

Definition getch : E Z := n ← gets nkey; modify (with_nkey (S n));; gets (fun s => keys s n).

(** [tolower(ch) == str_yes[1]]. *)
Definition yesno (flag : bool) : E bool :=
  ch ← getch;
  if (ch =? 13) || (ch =? 10) then mret flag
  else mret ((if (65 <=? ch) && (ch <=? 90) then ch + 32 else ch) =? 121).

Definition quit : E unit := modify (with_done true).

Definition quit_ask : E unit :=
  m ← modified_buffers;
  ok ← (if m : bool then yesno false else mret true);
  if ok : bool then quit else mret tt.

(** "*scratch*" *)
Definition str_scratch : list Z := [42; 115; 99; 114; 97; 116; 99; 104; 42].

Definition killbuffer : E unit :=
  kill_bp ← gets curbp;
  bcount ← count_buffers;
  b ← at_buffer kill_bp get_state;
  if (bcount =? 1) && (strcmp (get_buffer_name b) str_scratch =? 0) then mret tt else
  ok ← (if negb (Z.land (b_flags b) B_MODIFIED =? 0) then yesno false else mret true);
  if ok : bool then
    (if bcount =? 1 then
       bp ← find_buffer str_scratch true;
       at_buffer bp (modify (with_bname str_scratch))
     else mret tt);;
    next_buffer;;
    c ← gets curbp;
    assert_that (negb (kill_bp =? c));;
    delete_buffer kill_bp
  else mret tt.

End code.
