(* ===== verification/AttoFiles.v ===== *)
(** * Atto: files (src/editors/atto/gap.c, command.c) and input on the message line (key.c)

    A file is the list of its bytes; that opening, writing and closing may fail is part of
    the [machine]. *)

From Stdlib Require Import ZArith Lia.
From stdpp Require Import base numbers list gmap strings.
From S2P Require Import Prelude Atto AttoGap AttoLines AttoEdit AttoDisplay AttoBuffers.

Open Scope Z_scope.

(** ** Code *)

Definition isalnum (c : Z) : bool :=
  ((48 <=? c) && (c <=? 57)) || ((65 <=? c) && (c <=? 90)) || ((97 <=? c) && (c <=? 122)).

(** Letters, digits and [. _ - /], and no underscore in front. *)
Definition posix_file (fn : list Z) : bool :=
  match fn with
  | 95 :: _ => false
  | _ => forallb (fun c => isalnum c || (c =? 46) || (c =? 95) || (c =? 45) || (c =? 47)) fn
  end.

Section code.
Context `{machine}.

(** [fwrite] of the text behind the gap, which is then all of it. *)
Definition save (fn : list Z) : E bool :=
  if negb (posix_file fn) then msg "m_badname" [];; mret false else
  if negb (can_write fn) then msg "m_open" [Str_arg fn];; mret false else
  modify (fun s => with_files (<[fn := []]> (files s)) s);;
  cur (movegap 0);;
  b ← cur get_state;
  let length := b_ebuf b - b_egap b in
  data ← cur (load_block (Z.to_nat length) (b_egap b));
  let out := take (written data) data in
  modify (fun s => with_files (<[fn := out]> (files s)) s);;
  if negb (Z.of_nat (base.length out) =? length) then
    msg "m_write" [Str_arg fn];; mret false else
  if negb (can_close fn) then msg "m_close" [Str_arg fn];; mret false else
  cur (modify (fun b => with_flags (Z.ldiff (b_flags b) B_MODIFIED) b));;
  e ← cur end_pos;
  msg "m_saved" [Str_arg fn; Int_arg e];;
  mret true.

(** [insert_file]: the file goes into the gap, behind which the point then is. *)
Definition insert_file (fn : list Z) (modflag : bool) : E bool :=
  fs ← gets files;
  match fs !! fn with
  | None => msg "m_stat" [Str_arg fn];; mret false
  | Some data =>
      let st_size := Z.of_nat (length data) in
      b ← cur get_state;
      bp ← gets curbp;
      ok ← (if b_egap b - b_gap b <? st_size then growgap bp st_size else mret true);
      if negb ok then mret false else
      if negb (can_read fn) then msg "m_open" [Str_arg fn];; mret false else
      cur (
        point ← gets b_point;
        r ← movegap point;
        modify (with_point r);;
        undoset;;
        gap ← gets b_gap;
        store_block gap data;;
        modify (fun b => with_gap (b_gap b + st_size) b));;
      if negb (can_close fn) then msg "m_close" [Str_arg fn];; mret false else
      cur (modify (fun b => with_flags (if modflag then Z.land (b_flags b) B_MODIFIED
                                        else Z.ldiff (b_flags b) B_MODIFIED) b));;
      msg "m_loaded" [Str_arg fn; Int_arg st_size];;
      mret true
  end.

Definition load_file (fn : list Z) : E bool :=
  cur (modify (fun b => with_egap (b_ebuf b) (with_gap 0 b)));;
  top;;
  insert_file fn false.

(** *** Input on the message line *)

(** [getinput]: [buf] is edited until return or control-g; at most [nbuf - 1] characters. *)
Fixpoint input_loop (fuel : nat) (buf : list Z) (nbuf : Z) : E (bool * list Z) :=
  match fuel with
  | O => fail Out_of_fuel
  | S fuel =>
      c ← getch;
      if (c <? 32) && negb (c =? 7) && negb (c =? 8) && negb (c =? 10) && negb (c =? 13) then input_loop fuel buf nbuf else
      if (c =? 10) || (c =? 13) then mret (match buf with [] => false | _ => true end, buf) else
      if c =? 7 then mret (false, buf) else
      if (c =? 127) || (c =? 8) then input_loop fuel (removelast buf) nbuf else
      if Z.of_nat (length buf) <? nbuf - 1 then input_loop fuel (buf ++ [c mod 256]) nbuf
      else input_loop fuel buf nbuf
  end.

Definition getinput (buf : list Z) (nbuf : Z) : E (bool * list Z) := with_fuel (fun fuel => input_loop fuel buf nbuf).

(** [getinput] into [temp]. *)
Definition getinput_temp (nbuf : Z) : E bool :=
  buf ← gets temp;
  '(r, buf) ← getinput buf nbuf;
  modify (with_temp buf);;
  mret r.

(** [atoi], without its blanks and signs in front: a prefix of digits. *)
Fixpoint atoi_digits (acc : Z) (l : list Z) : Z :=
  match l with
  | c :: l => if (48 <=? c) && (c <=? 57) then atoi_digits (acc * 10 + (c - 48)) l else acc
  | [] => acc
  end.
Fixpoint atoi (l : list Z) : Z :=
  match l with
  | c :: l' =>
      if isspace c then atoi l'
      else if c =? 45 then wrap32 (- atoi_digits 0 l')
      else if c =? 43 then wrap32 (atoi_digits 0 l')
      else wrap32 (atoi_digits 0 l)
  | [] => 0
  end.

Definition gotoline : E unit :=
  modify (with_temp []);;
  result ← getinput_temp STRBUF_S;
  t ← gets temp;
  if result && (0 <? Z.of_nat (length t)) then
    let line := atoi t in
    p ← cur (line_to_point line);
    if negb (p =? -1) then cur (modify (with_point p));; msg "m_line" [Int_arg line]
    else msg "m_lnot_found" [Int_arg line]
  else mret tt.

Definition insertfile : E unit :=
  modify (with_temp []);;
  result ← getinput_temp NAME_MAX;
  t ← gets temp;
  if result && (0 <? Z.of_nat (length t)) then insert_file t true;; mret tt else mret tt.

Definition readfile : E unit :=
  modify (with_temp []);;
  result ← getinput_temp NAME_MAX;
  if result : bool then
    t ← gets temp;
    bp ← find_buffer t true;
    wp ← gets curwp;
    disassociate_b wp;;
    modify (with_curbp bp);;
    associate_b2w bp wp;;
    fname ← at_buffer bp (gets b_fname);
    match fname with
    | [] =>
        ok ← load_file t;
        (if ok : bool then mret tt else msg "m_newfile" [Str_arg t]);;
        cur (modify (with_fname (take (Z.to_nat NAME_MAX) t)))
    | _ => mret tt
    end
  else mret tt.

Definition writefile : E unit :=
  fname ← cur (gets b_fname);
  modify (with_temp (take (Z.to_nat NAME_MAX) fname));;
  result ← getinput_temp NAME_MAX;
  t ← gets temp;
  if result && (0 <? Z.of_nat (length t)) then
    ok ← save t;
    if ok : bool then cur (modify (with_fname (take (Z.to_nat NAME_MAX) t))) else mret tt
  else mret tt.

Definition savebuffer : E unit :=
  fname ← cur (gets b_fname);
  match fname with
  | [] => writefile
  | _ => save fname;; mret tt
  end.

End code.
