(* ===== verification/AttoKeys.v ===== *)
(** * Atto: the keyboard (src/editors/atto/key.c, search.c, replace.c, main.c)

    The commands that read keys themselves, the table of bindings, [getkey] and the
    main loop; which binding [getkey] finds. *)

From Stdlib Require Import ZArith Lia.
From stdpp Require Import base numbers list gmap strings.
From S2P Require Import Prelude Atto AttoGap AttoLines AttoEdit AttoSearch AttoDisplay AttoBuffers AttoFiles.

Open Scope Z_scope.

Section code.
Context `{machine}.

(** *** search.c *)

Definition display_search_result (found : Z) (forward : bool) (search : list Z) : E unit :=
  if negb (found =? -1) then
    cur (modify (with_point found));;
    msg "%s%s" [Str_arg search];;
    wp ← gets curwp;
    display wp true
  else
    msg "Failing %s%s" [Str_arg search];;
    dispmsg;;
    cur (e ← end_pos; modify (with_point (if forward then 0 else e))).

Fixpoint search_loop (fuel : nat) (o_point : Z) : E unit :=
  match fuel with
  | O => fail Out_of_fuel
  | S fuel =>
      c ← getch;
      stext ← gets searchtext;
      if (c <? 32) && negb (c =? 7) && negb (c =? 8) && negb (c =? 19) && negb (c =? 18) && negb (c =? 27)
      then search_loop fuel o_point else
      if c =? 27 then mret tt else
      if c =? 7 then cur (modify (with_point o_point)) else
      if c =? 19 then
        found ← cur (search_forward stext);
        display_search_result found true stext;;
        search_loop fuel o_point
      else if c =? 18 then
        found ← cur (search_backwards stext);
        display_search_result found false stext;;
        search_loop fuel o_point
      else if (c =? 127) || (c =? 8) then
        modify (with_searchtext (removelast stext));;
        search_loop fuel o_point
      else
        (if Z.of_nat (length stext) <? STRBUF_M - 1
         then modify (with_searchtext (stext ++ [c mod 256])) else mret tt);;
        search_loop fuel o_point
  end.

Definition search : E unit :=
  o_point ← cur (gets b_point);
  with_fuel (fun fuel => search_loop fuel o_point).

(** *** replace.c *)

(** One substitution: the found text ends at [found], the point is at its start. *)
Definition substitute (found slen : Z) (replace : list Z) : E unit :=
  let rlen := Z.of_nat (length replace) in
  (if slen <? rlen then
     cur (movegap found);;
     b ← cur get_state;
     bp ← gets curbp;
     (if rlen - slen <? b_egap b - b_gap b then growgap bp (rlen - slen);; mret tt else mret tt);;
     cur (modify (fun b => with_gap (b_gap b + (rlen - slen)) b))
   else if rlen <? slen then
     cur (movegap found);;
     cur (modify (fun b => with_gap (b_gap b - (slen - rlen)) b))
   else mret tt);;
  cur (
    b ← get_state;
    store_block (ptr b (b_point b)) replace;;
    modify set_modified;;
    modify (with_point (found - (slen - rlen)))).

Inductive answer := Substitute | Skip | Stop.

(** [qprompt]: the answer, and whether to go on asking. *)
Fixpoint ask_loop (fuel : nat) : E (answer * bool) :=
  match fuel with
  | O => fail Out_of_fuel
  | S fuel =>
      wp ← gets curwp;
      display wp true;;
      c ← getch;
      if c =? 121 then mret (Substitute, true) else
      if c =? 110 then mret (Skip, true) else
      if c =? 33 then mret (Substitute, false) else
      if (c =? 27) || (c =? 113) then mret (Stop, true) else
      msg "m_rephelp" [];;
      ask_loop fuel
  end.

(** The loop of [query_replace]: [None] when it returns at once, else the number of substitutions. *)
Fixpoint replace_loop (fuel : nat) (stext replace : list Z) (o_point l_point numsub : Z) (ask : bool) : E (option Z) :=
  match fuel with
  | O => fail Out_of_fuel
  | S fuel =>
      found ← cur (search_forward stext);
      if found =? -1 then
        cur (modify (with_point (if l_point =? -1 then o_point else l_point)));;
        mret (Some numsub)
      else
        let slen := Z.of_nat (length stext) in
        cur (modify (with_point (found - slen)));;
        '(ans, ask) ← (if ask : bool then
                         msg "m_qreplace" [Str_arg stext; Str_arg replace];;
                         with_fuel ask_loop
                       else mret (Substitute, ask));
        match ans with
        | Stop => mret None
        | Skip =>
            cur (modify (with_point found));;
            replace_loop fuel stext replace o_point l_point numsub ask
        | Substitute =>
            l_point ← cur (gets b_point);
            substitute found slen replace;;
            replace_loop fuel stext replace o_point l_point (numsub + 1) ask
        end
  end.

Definition query_replace : E unit :=
  o_point ← cur (gets b_point);
  modify (with_searchtext []);;
  modify (with_replace_ []);;
  '(ok, stext) ← getinput [] STRBUF_M;
  modify (with_searchtext stext);;
  if negb ok then mret tt else
  '(ok, replace) ← getinput [] STRBUF_M;
  modify (with_replace_ replace);;
  if negb ok then mret tt else
  r ← with_fuel (fun fuel => replace_loop fuel stext replace o_point (-1) 0 true);
  match r with
  | Some numsub => msg "%d substitutions" [Int_arg numsub]
  | None => mret tt
  end.

(** *** key.c *)

(** [lhs] as in the table; [lastln] of [showpos] is uninitialized. *)
Definition keymap : list (list Z * E unit) := [
  ([27; 91; 65], cur up);
  ([27; 91; 66], cur down);
  ([27; 91; 68], cur left_);
  ([27; 91; 67], cur right_);
  ([1], cur lnbegin);
  ([5], cur lnend);
  ([27; 79; 72], cur lnbegin);
  ([27; 79; 70], cur lnend);
  ([2], cur left_);
  ([6], cur right_);
  ([14], cur down);
  ([16], cur up);
  ([4], cur delete_);
  ([27; 91; 50; 126], cur toggle_overwrite_mode);
  ([27; 91; 51; 126], cur delete_);
  ([127], cur backsp);
  ([8], cur backsp);
  ([12], redraw);
  ([21], cur undo);
  ([27; 118], pgup);
  ([27; 86], pgup);
  ([22], cur pgdown);
  ([27; 91; 53; 126], pgup);
  ([27; 91; 54; 126], cur pgdown);
  ([27; 60], top);
  ([27; 62], bottom);
  ([27; 27; 79; 72], top);
  ([27; 27; 79; 70], bottom);
  ([27; 27; 91; 65], top);
  ([27; 27; 91; 66], bottom);
  ([27; 98], cur wleft);
  ([27; 102], cur wright);
  ([27; 103], gotoline);
  ([27; 114], query_replace);
  ([27; 66], cur wleft);
  ([27; 70], cur wright);
  ([27; 71], gotoline);
  ([27; 82], query_replace);
  ([], iblock);
  ([27; 64], iblock);
  ([23], cut);
  ([25], paste);
  ([27; 119], copy_);
  ([27; 87], copy_);
  ([11], killtoeol);
  ([19], search);
  ([18], search);
  ([24; 49], delete_other_windows);
  ([24; 50], split_window);
  ([24; 111], next_window);
  ([24; 61], showpos (junk_numbers 9));
  ([24; 105], insertfile);
  ([24; 107], killbuffer);
  ([24; 14], next_buffer);
  ([24; 110], next_buffer);
  ([24; 6], readfile);
  ([24; 19], savebuffer);
  ([24; 23], writefile);
  ([24; 3], quit_ask);
  ([27; 27], version)
].

(** The recorded bytes up to the first NUL. *)
Fixpoint recorded (buffer : list Z) : list Z :=
  match buffer with
  | c :: buffer => if c =? 0 then [] else c :: recorded buffer
  | [] => []
  end.

(** The loop over the table: the first exact match, or whether there is a longer one. *)
Fixpoint match_keys {A} (keys : list (list Z * A)) (s : list Z) (submatch : bool) : option A * bool :=
  match keys with
  | [] => (None, submatch)
  | (lhs, f) :: keys =>
      if strcmp s lhs =? 0 then (Some f, submatch)
      else match_keys keys s (submatch || bool_decide (s `prefix_of` lhs))
  end.

(** The record is [buffer], static and of [K_BUFFER_LENGTH] bytes: the NUL behind the bytes read is stored
    before the length is asserted again. *)
Fixpoint getkey_loop {A} (fuel : nat) (keys : list (list Z * A)) (buffer : list Z) : E (option A * Z) :=
  match fuel with
  | O => fail Out_of_fuel
  | S fuel =>
      assert_that (Z.of_nat (length buffer) <? K_BUFFER_LENGTH);;
      c ← getch;
      let buffer := buffer ++ [c mod 256] in
      (if Z.of_nat (length buffer) <? K_BUFFER_LENGTH then mret tt else fail Bad_pointer);;
      match match_keys keys (recorded buffer) false with
      | (Some f, _) => mret (Some f, -1)
      | (None, true) => getkey_loop fuel keys buffer
      | (None, false) => mret (None, hd 0 buffer)
      end
  end.

Definition getkey {A} (keys : list (list Z * A)) : E (option A * Z) := with_fuel (fun fuel => getkey_loop fuel keys []).

(** *** main.c *)

(** One turn of the main loop. *)
Definition turn : E unit :=
  update_display;;
  '(key_return, c) ← getkey keymap;
  modify (with_input c);;
  match key_return with
  | Some func => func
  | None => insert_
  end.

Fixpoint main_loop (fuel : nat) : E unit :=
  match fuel with
  | O => fail Out_of_fuel
  | S fuel =>
      d ← gets done;
      if d : bool then mret tt else turn;; main_loop fuel
  end.

(** Up to the loop; [argv] are the arguments after the name. *)
Definition start (argv : list (list Z)) : E unit :=
  match argv with
  | fname :: _ =>
      bp ← find_buffer fname true;
      modify (with_curbp bp);;
      insert_file fname false;;
      cur (modify (with_fname (take (Z.to_nat NAME_MAX) fname)))
  | [] =>
      bp ← find_buffer str_scratch true;
      modify (with_curbp bp);;
      cur (modify (with_bname str_scratch))
  end;;
  wp ← new_window;
  modify (fun s => with_curwp wp (with_wheadp wp s));;
  one_window wp;;
  bp ← gets curbp;
  associate_b2w bp wp;;
  ok ← growgap bp CHUNK;
  if negb ok then fail (Exit 3 "%s: Failed to allocate required memory.\n") else
  top.

Definition main (argv : list (list Z)) : E unit :=
  start argv;;
  with_fuel main_loop.

(** The globals before [main]. *)
Definition initial_editor (keys : nat -> Z) (files : gmap (list Z) (list Z)) : editor :=
  Editor ∅ ∅ NULL NULL NULL NULL 1 0 false None 0 0 false (Message "" []) [] [] [] keys 0 files.

End code.

(** ** Reading a key

    [getkey] reads until what it has read is the left side of a binding, or begins none. *)

Lemma strcmp_eq a : forall b, strcmp a b = 0 <-> a = b.
Proof.
  induction a as [|x a IH]; intros [|y b]; cbn [strcmp]; try done. destruct (Z.eqb_spec x y) as [->|Hne].
  - rewrite IH. split; [by intros -> | by intros E; injection E].
  - destruct (x <? y); split; try done; intros E; by injection E.
Qed.

(** The first binding of [s]. *)
Fixpoint bound_to {A} (ks : list (list Z * A)) (s : list Z) : option A :=
  match ks with
  | [] => None
  | (lhs, f) :: ks => if bool_decide (lhs = s) then Some f else bound_to ks s
  end.

(** [s] begins a binding. *)
Definition begins {A} (ks : list (list Z * A)) (s : list Z) : Prop := exists lhs f, (lhs, f) ∈ ks /\ s `prefix_of` lhs.

Lemma match_keys_spec {A} (ks : list (list Z * A)) s : forall sub,
  match match_keys ks s sub with
  | (Some f, _) => bound_to ks s = Some f
  | (None, sub') => bound_to ks s = None /\ (sub' = true <-> sub = true \/ begins ks s)
  end.
Proof.
  induction ks as [|[lhs f] ks IH]; intros sub; cbn [match_keys bound_to].
  - split; [done|]. split; [by left | intros [|(l & g & Hin & _)]; [done|]]. by apply elem_of_nil in Hin.
  - destruct (Z.eqb_spec (strcmp s lhs) 0) as [E|E].
    + apply strcmp_eq in E as <-. by rewrite bool_decide_eq_true_2.
    + assert (lhs <> s) as Hne by (intros ->; by apply E, strcmp_eq). rewrite (bool_decide_eq_false_2 (lhs = s)) by done.
      specialize (IH (sub || bool_decide (s `prefix_of` lhs))). destruct (match_keys _ _ _) as [[g|] sub']; [done|].
      destruct IH as [IH1 IH2]. split; [done|]. rewrite IH2, orb_true_iff, bool_decide_eq_true. unfold begins.
      split; [intros [[?|?]|(l & g & Hin & Hp)] | intros [?|(l & g & Hin & Hp)]]; try (by auto).
      * right. exists lhs, f. split; [by left | done].
      * right. exists l, g. split; [by right | done].
      * apply elem_of_cons in Hin as [Hin|Hin]; [injection Hin as -> ->; by auto | right; by exists l, g].
Qed.

Lemma recorded_all l : Forall (fun c => c <> 0) l -> recorded l = l.
Proof.
  induction l as [|c l IH]; intros Hl; [done|]. apply Forall_cons in Hl as [Hc Hl]. cbn [recorded].
  by rewrite (proj2 (Z.eqb_neq c 0)), IH.
Qed.

Section reading.
Context `{machine}.

(** The next [k] bytes of the keyboard. *)
Definition typed (s : editor) (k : nat) : list Z := map (fun i => keys s (nkey s + i)%nat mod 256) (seq 0 k).

Lemma length_typed s k : length (typed s k) = k.
Proof. unfold typed. by rewrite length_map, length_seq. Qed.

Lemma typed_S s k : typed s (S k) = typed s k ++ [keys s (nkey s + k)%nat mod 256].
Proof. unfold typed. by rewrite seq_S, map_app. Qed.

(** What is read while there is a longer binding. *)
Definition pending {A} (ks : list (list Z * A)) (s : list Z) : Prop := bound_to ks s = None /\ begins ks s.

Lemma pending_short {A} (ks : list (list Z * A)) s m : Forall (fun k => Z.of_nat (length k.1) < m) ks -> pending ks s ->
  Z.of_nat (length s) + 1 < m.
Proof.
  intros Hk [Hn (lhs & f & Hin & Hp)]. rewrite Forall_forall in Hk. specialize (Hk _ Hin). simpl in Hk.
  pose proof (prefix_length _ _ Hp). destruct (decide (length s = length lhs)) as [E|]; [|lia].
  exfalso. destruct Hp as [k ->]. rewrite length_app in E. destruct k; [|simpl in E; lia]. rewrite app_nil_r in *.
  revert Hn Hin. induction ks as [|[l g] ks IH]; [by intros _ ?%elem_of_nil|]. cbn [bound_to].
  destruct (bool_decide_reflect (l = s)); [done|]. intros Hn [E'|Hin]%elem_of_cons; [by injection E' as -> _ | by apply IH].
Qed.

(** What [getkey] gives: [typed s k] is a binding, or begins none. *)
Definition key_read {A} (ks : list (list Z * A)) (s : editor) (r : option A * Z) (k : nat) : Prop :=
  (0 < k)%nat /\ (forall j, (0 < j < k)%nat -> pending ks (typed s j)) /\
  match bound_to ks (typed s k) with
  | Some f => r = (Some f, -1)
  | None => ~ begins ks (typed s k) /\ r = (None, keys s (nkey s) mod 256)
  end.

Lemma wp_getkey {A} (ks : list (list Z * A)) s : (forall n, keys s n mod 256 <> 0) ->
  Forall (fun k => Z.of_nat (length k.1) < K_BUFFER_LENGTH) ks ->
  wp (fun _ => getkey ks) s (fun r s' => exists k, key_read ks s r k /\ s' = with_nkey (nkey s + k) s).
Proof.
  intros Hz Hks. apply wp_with_fuel.
  assert (forall j, Forall (fun c => c <> 0) (typed s j)) as Hnz.
  { intros j. unfold typed. apply Forall_forall. intros c Hc. apply list_elem_of_fmap in Hc as (i & -> & _). apply Hz. }
  assert (forall m j, (Z.to_nat K_BUFFER_LENGTH - j <= m)%nat -> (forall i, (0 < i < S j)%nat -> pending ks (typed s i)) ->
    wp (fun n => getkey_loop n ks (typed s j)) (with_nkey (nkey s + j) s)
      (fun r s' => exists k, key_read ks s r k /\ s' = with_nkey (nkey s + k) s)) as Hloop.
  2: { replace s with (with_nkey (nkey s + 0) s) at 1 by (rewrite Nat.add_0_r; by destruct s).
       apply (Hloop (Z.to_nat K_BUFFER_LENGTH) 0%nat); lia. }
  induction m as [|m IH]; intros j Hm Hj; (eapply wp_unfold; [intros n; reflexivity|]); cbn [getkey_loop].
  - destruct j as [|j]; [unfold K_BUFFER_LENGTH in Hm; lia|].
    pose proof (pending_short _ _ _ Hks (Hj (S j) ltac:(lia))) as Hs. rewrite length_typed in Hs. unfold K_BUFFER_LENGTH in *. lia.
  - apply wp_bind, wp_assert.
    { apply Z.ltb_lt. destruct j as [|j]; [done|]. pose proof (pending_short _ _ _ Hks (Hj (S j) ltac:(lia))). lia. }
    unfold getch. apply wp_bind. wstep. wstep. apply wp_gets. cbv zeta. cbn [nkey with_nkey keys].
    change (with_nkey _ (with_nkey _ s)) with (with_nkey (S (nkey s + j)) s). change (keys (with_nkey _ s) _) with (keys s (nkey s + j)%nat).
    rewrite <- typed_S, recorded_all by done. rewrite <- Nat.add_succ_r. rewrite length_typed.
    rewrite (proj2 (Z.ltb_lt _ K_BUFFER_LENGTH)).
    2: { destruct j as [|j]; [done|]. pose proof (pending_short _ _ _ Hks (Hj (S j) ltac:(lia))) as Hs. rewrite length_typed in Hs. lia. }
    apply wp_bind, wp_ret.
    pose proof (match_keys_spec ks (typed s (S j)) false) as Hmk. destruct (match_keys _ _ _) as [[f|] sub].
    + apply wp_ret. exists (S j). split; [|done]. split; [lia|]. split; [done|]. by rewrite Hmk.
    + destruct Hmk as [Hn Hsub]. destruct sub.
      * apply IH; [lia|]. intros i Hi. destruct (decide (i = S j)) as [->|]; [|apply Hj; lia].
        split; [done|]. by destruct (proj1 Hsub eq_refl).
      * apply wp_ret. exists (S j). split; [|done]. split; [lia|]. split; [done|]. rewrite Hn. split.
        -- intros Hb. discriminate (proj2 Hsub (or_intror Hb)).
        -- unfold typed. simpl. by rewrite Nat.add_0_r.
Qed.

End reading.
