(* ===== verification/AttoWorld.v ===== *)
(** * Atto: the lists of buffers and windows

    The invariant of the whole editor: both lists are linked and hold what is allocated, every window
    shows a buffer of the list, the current window shows the current buffer, and
    [b_cnt] counts the windows of a buffer.  Every command keeps it, but
    [killbuffer] when another window shows the buffer. *)

From Stdlib Require Import ZArith Lia.
From stdpp Require Import base numbers list gmap strings.
From S2P Require Import Prelude Atto AttoGap AttoLines AttoEdit AttoSearch AttoDisplay AttoBuffers AttoFiles AttoKeys.

Open Scope Z_scope.

(** ** The links of the state *)

Definition b_links (b : buffer) : Z * Z := (b_next b, b_cnt b).
Definition w_links (w : window) : Z * Z := (w_next w, w_bufp w).

Record skeleton := Skeleton {
  k_buffers : gmap Z (Z * Z);     (** [b_next] and [b_cnt] *)
  k_windows : gmap Z (Z * Z);     (** [w_next] and [w_bufp] *)
  k_curbp : Z;
  k_bheadp : Z;
  k_curwp : Z;
  k_wheadp : Z;
  k_brk : Z
}.

Definition skel (s : editor) : skeleton :=
  Skeleton (b_links <$> buffers s) (w_links <$> windows s) (curbp s) (bheadp s) (curwp s) (wheadp s) (brk s).

Section frames.

Lemma fmap_insert_same {A C} (f : A -> C) (m : gmap Z A) i x y :
  m !! i = Some x -> f y = f x -> f <$> <[i := y]> m = f <$> m.
Proof.
  intros Hx E. rewrite fmap_insert, E. apply insert_id. by rewrite lookup_fmap, Hx.
Qed.

Lemma pres_at_buffer {A} bp (p : B A) : preserves b_links p -> preserves skel (at_buffer bp p).
Proof.
  intros Hp s fuel a s' E. unfold at_buffer in E. destruct (buffers s !! bp) as [b|] eqn:Eb; [|done].
  destruct (p fuel b) as [a1 b1|] eqn:Ep; [|done]. injection E as <- <-. unfold skel. simpl.
  f_equal. eapply fmap_insert_same; [exact Eb | by eapply Hp].
Qed.

Lemma pres_cur {A} (p : B A) : preserves b_links p -> preserves skel (cur p).
Proof. intros Hp. apply pres_bind; [apply pres_gets|]. intros bp. by apply pres_at_buffer. Qed.

Lemma pres_at_window {A} wp (p : prog window A) : preserves w_links p -> preserves skel (at_window wp p).
Proof.
  intros Hp s fuel a s' E. unfold at_window in E. destruct (windows s !! wp) as [w|] eqn:Ew; [|done].
  destruct (p fuel w) as [a1 w1|] eqn:Ep; [|done]. injection E as <- <-. unfold skel. simpl.
  f_equal. eapply fmap_insert_same; [exact Ew | by eapply Hp].
Qed.

Lemma pres_msg fmt args : preserves skel (msg fmt args).
Proof. by apply pres_modify. Qed.

End frames.

#[export] Hint Resolve pres_msg : preserve.
#[export] Hint Extern 1 (preserves skel (at_buffer _ _)) => (apply pres_at_buffer) : preserve.
#[export] Hint Extern 1 (preserves skel (at_window _ _)) => (apply pres_at_window) : preserve.
#[export] Hint Extern 1 (preserves skel (cur _)) => (apply pres_cur) : preserve.

(** [preserve] under the accesses to the store as well. *)
Ltac keep :=
  repeat (preserve; match goal with
  | |- preserves skel (at_buffer _ _) => apply pres_at_buffer
  | |- preserves skel (at_window _ _) => apply pres_at_window
  | |- preserves skel (cur _) => apply pres_cur
  end); preserve.
(** A loop on its fuel. *)
Ltac keep_loop f := intros; match goal with n : nat |- _ => revert n end; intros n; induction n; intros; cbn [f]; keep.

Section kept.
Context `{machine}.

(** ** Programs on a buffer *)

Lemma load_links p : preserves b_links (load p).
Proof. unfold load. keep. Qed.
Lemma store_links p c : preserves b_links (store p c).
Proof.
  intros b. unfold store. apply wlp_bind, wlp_get_state. destruct (_ && _); [|apply wlp_fail]. by apply wlp_set_state.
Qed.
Lemma pos_links cp : preserves b_links (pos cp).
Proof. unfold pos. keep. Qed.
#[local] Hint Resolve load_links store_links pos_links : preserve.
Lemma end_pos_links : preserves b_links end_pos.
Proof. unfold end_pos. keep. Qed.
Lemma char_at_links off : preserves b_links (char_at off).
Proof. unfold char_at. keep. Qed.
#[local] Hint Resolve end_pos_links char_at_links : preserve.

Lemma grow_loop_links n : forall x l e, preserves b_links (grow_loop n x l e).
Proof. induction n; intros; cbn [grow_loop]; keep. Qed.
#[local] Hint Resolve grow_loop_links : preserve.
Lemma growgap_body_links n : preserves b_links (growgap_body n).
Proof. unfold growgap_body. keep. Qed.
Lemma gap_down_links n : forall p, preserves b_links (gap_down n p).
Proof. induction n; intros; cbn [gap_down]; keep. Qed.
Lemma gap_up_links n : forall p, preserves b_links (gap_up n p).
Proof. induction n; intros; cbn [gap_up]; keep. Qed.
#[local] Hint Resolve growgap_body_links gap_down_links gap_up_links : preserve.
Lemma movegap_links off : preserves b_links (movegap off).
Proof. unfold movegap. keep. Qed.
Lemma undoset_links : preserves b_links undoset.
Proof. unfold undoset. keep. Qed.
#[local] Hint Resolve movegap_links undoset_links : preserve.
Lemma undo_links : preserves b_links undo.
Proof. unfold undo. keep. Qed.
Lemma lnstart_links off : preserves b_links (lnstart off).
Proof. unfold lnstart. keep. revert off. induction n; intros; cbn [lnstart_loop]; keep. Qed.
Lemma segstart_loop_links n : forall st sc fi c, preserves b_links (segstart_loop n st sc fi c).
Proof. induction n; intros; cbn [segstart_loop]; keep. Qed.
Lemma segnext_loop_links n : forall sc c, preserves b_links (segnext_loop n sc c).
Proof. induction n; intros; cbn [segnext_loop]; keep. Qed.
Lemma lncolumn_loop_links n : forall off col c, preserves b_links (lncolumn_loop n off col c).
Proof. induction n; intros; cbn [lncolumn_loop]; keep. Qed.
Lemma line_loop_links n : forall ln p st e, preserves b_links (line_loop n ln p st e).
Proof. induction n; intros; cbn [line_loop]; keep. Qed.
Lemma stats_loop_links n : forall p l cl ll e, preserves b_links (stats_loop n p l cl ll e).
Proof. induction n; intros; cbn [stats_loop]; keep. Qed.
#[local] Hint Resolve undo_links lnstart_links segstart_loop_links segnext_loop_links lncolumn_loop_links
  line_loop_links stats_loop_links : preserve.
Lemma segstart_links st fi : preserves b_links (segstart st fi).
Proof. unfold segstart. keep. Qed.
#[local] Hint Resolve segstart_links : preserve.
Lemma upup_links off : preserves b_links (upup off).
Proof. unfold upup. keep. Qed.
Lemma dndn_links off : preserves b_links (dndn off).
Proof. unfold dndn, segnext. keep. Qed.
Lemma lncolumn_links off col : preserves b_links (lncolumn off col).
Proof. unfold lncolumn. keep. Qed.
Lemma line_to_point_links ln : preserves b_links (line_to_point ln).
Proof. unfold line_to_point. keep. Qed.
Lemma get_line_stats_links l : preserves b_links (get_line_stats l).
Proof. unfold get_line_stats. keep. Qed.
#[local] Hint Resolve upup_links dndn_links lncolumn_links line_to_point_links get_line_stats_links : preserve.

Lemma left_links : preserves b_links left_.
Proof. unfold left_. keep. Qed.
Lemma right_links : preserves b_links right_.
Proof. unfold right_. keep. Qed.
Lemma up_links : preserves b_links up.
Proof. unfold up. keep. Qed.
Lemma down_links : preserves b_links down.
Proof. unfold down. keep. Qed.
Lemma lnbegin_links : preserves b_links lnbegin.
Proof. unfold lnbegin. keep. Qed.
#[local] Hint Resolve left_links right_links up_links down_links lnbegin_links : preserve.
Lemma lnend_links : preserves b_links lnend.
Proof. unfold lnend. keep. Qed.
Lemma wleft_loop_links n : forall sp, preserves b_links (wleft_loop n sp).
Proof. induction n; intros; cbn [wleft_loop]; keep. Qed.
Lemma wright_loop_links n : forall sp, preserves b_links (wright_loop n sp).
Proof. induction n; intros; cbn [wright_loop]; keep. Qed.
Lemma pgdown_loop_links n : preserves b_links (pgdown_loop n).
Proof. induction n; cbn [pgdown_loop]; keep. Qed.
Lemma pgup_loop_links n : preserves b_links (pgup_loop n).
Proof. induction n; cbn [pgup_loop]; keep. Qed.
Lemma overwrites_links c : preserves b_links (overwrites c).
Proof. unfold overwrites. keep. Qed.
#[local] Hint Resolve lnend_links wleft_loop_links wright_loop_links pgdown_loop_links pgup_loop_links overwrites_links : preserve.
Lemma wleft_links : preserves b_links wleft.
Proof. unfold wleft. keep. Qed.
Lemma wright_links : preserves b_links wright.
Proof. unfold wright. keep. Qed.
Lemma pgdown_links : preserves b_links pgdown.
Proof. unfold pgdown. keep. Qed.
Lemma insert_body_links c : preserves b_links (insert_body c).
Proof. unfold insert_body. keep. Qed.
Lemma backsp_links : preserves b_links backsp.
Proof. unfold backsp. keep. Qed.
Lemma delete_links : preserves b_links delete_.
Proof. unfold delete_. keep. Qed.
Lemma block_links : preserves b_links block.
Proof. unfold block. keep. Qed.
Lemma toggle_links : preserves b_links toggle_overwrite_mode.
Proof. unfold toggle_overwrite_mode. keep. Qed.
Lemma load_block_links n : forall p, preserves b_links (load_block n p).
Proof. induction n; intros; cbn [load_block]; keep. Qed.
Lemma store_block_links l : forall p, preserves b_links (store_block p l).
Proof. induction l; intros; cbn [store_block]; keep. Qed.
#[local] Hint Resolve wleft_links wright_links pgdown_links insert_body_links backsp_links delete_links block_links
  toggle_links load_block_links store_block_links : preserve.
Lemma copy_finish_links c n : preserves b_links (copy_finish c n).
Proof. unfold copy_finish. keep. Qed.
Lemma paste_body_links l n : preserves b_links (paste_body l n).
Proof. unfold paste_body. keep. Qed.
Lemma forward_match_links s : forall p e, preserves b_links (forward_match s p e).
Proof. induction s; intros; cbn [forward_match]; keep. Qed.
Lemma backward_match_links s : forall p, preserves b_links (backward_match s p).
Proof. induction s; intros; cbn [backward_match]; keep. Qed.
#[local] Hint Resolve copy_finish_links paste_body_links forward_match_links backward_match_links : preserve.
Lemma search_forward_links s : preserves b_links (search_forward s).
Proof.
  unfold search_forward. keep. generalize (z :: s) as t. intros t. revert a0. induction n; intros; cbn [forward_loop]; keep.
Qed.
Lemma search_backwards_links s : preserves b_links (search_backwards s).
Proof.
  unfold search_backwards. keep. generalize (z :: s) as t. intros t. revert a. induction n; intros; cbn [backward_loop]; keep.
Qed.
Lemma scroll_up_links n : preserves b_links (scroll_up n).
Proof. induction n; cbn [scroll_up]; keep. Qed.
Lemma paint_loop_links n : forall bt i j, preserves b_links (paint_loop n bt i j).
Proof. induction n; intros; cbn [paint_loop]; keep. Qed.
#[local] Hint Resolve search_forward_links search_backwards_links scroll_up_links paint_loop_links : preserve.
Lemma reframe_links r : preserves b_links (reframe r).
Proof. unfold reframe. keep. Qed.
#[local] Hint Resolve reframe_links : preserve.
Lemma paint_links t r : preserves b_links (paint t r).
Proof. unfold paint. keep. Qed.
#[local] Hint Resolve paint_links : preserve.

(** ** Commands that leave the links as they are *)

Lemma growgap_skel bp n : preserves skel (growgap bp n).
Proof. unfold growgap. keep. Qed.
Lemma top_skel : preserves skel top.
Proof. unfold top. keep. Qed.
Lemma bottom_skel : preserves skel bottom.
Proof. unfold bottom. keep. Qed.
Lemma pgup_skel : preserves skel pgup.
Proof. unfold pgup. keep. Qed.
Lemma iblock_skel : preserves skel iblock.
Proof. unfold iblock. keep. Qed.
Lemma showpos_skel l : preserves skel (showpos l).
Proof. unfold showpos. keep. Qed.
Lemma version_skel : preserves skel version.
Proof. unfold version. keep. Qed.
Lemma dispmsg_skel : preserves skel dispmsg.
Proof. apply pres_modify. intros s. by destruct (msgflag s). Qed.
Lemma modeline_skel wp : preserves skel (modeline wp).
Proof. unfold modeline. keep. Qed.
#[local] Hint Resolve growgap_skel top_skel bottom_skel pgup_skel iblock_skel showpos_skel version_skel dispmsg_skel
  modeline_skel : preserve.
Lemma insert_skel : preserves skel insert_.
Proof. unfold insert_. keep. Qed.
Lemma copy_cut_skel c : preserves skel (copy_cut c).
Proof. unfold copy_cut. keep. Qed.
#[local] Hint Resolve insert_skel copy_cut_skel : preserve.
Lemma killtoeol_skel : preserves skel killtoeol.
Proof. unfold killtoeol. keep. Qed.
Lemma paste_skel : preserves skel paste.
Proof. unfold paste. keep. Qed.
Lemma b2w_skel wp : preserves skel (b2w wp).
Proof. unfold b2w. keep. Qed.
Lemma w2b_skel wp : preserves skel (w2b wp).
Proof. unfold w2b. keep. apply pres_modify. intros b. by destruct (b_cpoint b <? b_point b). Qed.
#[local] Hint Resolve killtoeol_skel paste_skel b2w_skel w2b_skel : preserve.
Lemma display_skel wp f : preserves skel (display wp f).
Proof. unfold display. keep. Qed.
#[local] Hint Resolve display_skel : preserve.
Lemma update_others_skel n : forall bp wp, preserves skel (update_others n bp wp).
Proof. induction n; intros; cbn [update_others]; keep. Qed.
Lemma mark_windows_skel n : forall wp, preserves skel (mark_windows n wp).
Proof. induction n; intros; cbn [mark_windows]; keep. Qed.
#[local] Hint Resolve update_others_skel mark_windows_skel : preserve.
Lemma update_display_skel : preserves skel update_display.
Proof. unfold update_display. keep. Qed.
#[local] Hint Resolve update_display_skel : preserve.
Lemma redraw_skel : preserves skel redraw.
Proof. unfold redraw. keep. Qed.
Lemma getch_skel : preserves skel getch.
Proof. unfold getch. keep. Qed.
#[local] Hint Resolve redraw_skel getch_skel : preserve.
Lemma yesno_skel f : preserves skel (yesno f).
Proof. unfold yesno. keep. Qed.
Lemma count_loop_skel n : forall bp, preserves skel (count_loop n bp).
Proof. induction n; intros; cbn [count_loop]; keep. Qed.
Lemma modified_loop_skel n : forall bp, preserves skel (modified_loop n bp).
Proof. induction n; intros; cbn [modified_loop]; keep. Qed.
#[local] Hint Resolve yesno_skel count_loop_skel modified_loop_skel : preserve.
Lemma count_buffers_skel : preserves skel count_buffers.
Proof. unfold count_buffers. keep. Qed.
Lemma quit_ask_skel : preserves skel quit_ask.
Proof. unfold quit_ask, modified_buffers, quit. keep. Qed.
Lemma save_skel fn : preserves skel (save fn).
Proof. unfold save. keep. Qed.
Lemma insert_file_skel fn m : preserves skel (insert_file fn m).
Proof. unfold insert_file. keep. Qed.
#[local] Hint Resolve count_buffers_skel quit_ask_skel save_skel insert_file_skel : preserve.
Lemma load_file_skel fn : preserves skel (load_file fn).
Proof. unfold load_file. keep. Qed.
Lemma input_loop_skel n : forall buf k, preserves skel (input_loop n buf k).
Proof. induction n; intros; cbn [input_loop]; keep. Qed.
#[local] Hint Resolve load_file_skel input_loop_skel : preserve.
Lemma getinput_skel buf k : preserves skel (getinput buf k).
Proof. unfold getinput. keep. Qed.
#[local] Hint Resolve getinput_skel : preserve.
Lemma getinput_temp_skel k : preserves skel (getinput_temp k).
Proof. unfold getinput_temp. keep. Qed.
#[local] Hint Resolve getinput_temp_skel : preserve.
Lemma gotoline_skel : preserves skel gotoline.
Proof. unfold gotoline. keep. Qed.
Lemma insertfile_skel : preserves skel insertfile.
Proof. unfold insertfile. keep. Qed.
Lemma writefile_skel : preserves skel writefile.
Proof. unfold writefile. keep. Qed.
#[local] Hint Resolve gotoline_skel insertfile_skel writefile_skel : preserve.
Lemma savebuffer_skel : preserves skel savebuffer.
Proof. unfold savebuffer. keep. Qed.
Lemma display_search_result_skel r f t : preserves skel (display_search_result r f t).
Proof. unfold display_search_result. keep. Qed.
#[local] Hint Resolve savebuffer_skel display_search_result_skel : preserve.
Lemma search_loop_skel n : forall o, preserves skel (search_loop n o).
Proof. induction n; intros; cbn [search_loop]; keep. Qed.
#[local] Hint Resolve search_loop_skel : preserve.
Lemma search_skel : preserves skel search.
Proof. unfold search. keep. Qed.
Lemma substitute_skel f l r : preserves skel (substitute f l r).
Proof. unfold substitute. keep. Qed.
Lemma ask_loop_skel n : preserves skel (ask_loop n).
Proof. induction n; cbn [ask_loop]; keep. Qed.
#[local] Hint Resolve search_skel substitute_skel ask_loop_skel : preserve.
Lemma replace_loop_skel n : forall st r o l k a, preserves skel (replace_loop n st r o l k a).
Proof. induction n; intros; cbn [replace_loop]; keep. Qed.
#[local] Hint Resolve replace_loop_skel : preserve.
Lemma query_replace_skel : preserves skel query_replace.
Proof. unfold query_replace. keep. Qed.

Lemma getkey_skel {A} (ks : list (list Z * A)) : preserves skel (getkey ks).
Proof.
  unfold getkey. keep. generalize ([] : list Z) as buf. induction n; intros; cbn [getkey_loop]; keep.
Qed.
End kept.

#[export] Hint Resolve left_links right_links up_links down_links lnbegin_links lnend_links wleft_links wright_links
  pgdown_links backsp_links delete_links toggle_links undo_links growgap_skel top_skel bottom_skel pgup_skel iblock_skel
  showpos_skel version_skel insert_skel copy_cut_skel killtoeol_skel paste_skel redraw_skel update_display_skel
  yesno_skel count_buffers_skel quit_ask_skel load_file_skel insert_file_skel getinput_temp_skel gotoline_skel
  insertfile_skel writefile_skel savebuffer_skel search_skel query_replace_skel getkey_skel w2b_skel b2w_skel : preserve.
