(* ===== verification/AttoLists.v ===== *)
(** * Atto: linked lists of buffers and windows

    [linked next p l]: the list from [p] through the links is [l]; [tally] counts the
    windows of a buffer; [world] is the invariant of both lists. *)

From Stdlib Require Import ZArith Lia.
From stdpp Require Import base numbers list gmap strings.
From S2P Require Import Prelude Atto AttoWorld.

Open Scope Z_scope.

(** ** Linked lists *)

Fixpoint linked (next : gmap Z (Z * Z)) (p : Z) (l : list Z) : Prop :=
  match l with
  | [] => p = NULL
  | x :: l => p = x /\ exists n c, next !! x = Some (n, c) /\ linked next n l
  end.

Lemma linked_outside m x v l : x ∉ l -> forall p, linked m p l -> linked (<[x := v]> m) p l.
Proof.
  induction l as [|y l IH]; intros Hx p; [done|]. apply not_elem_of_cons in Hx as [Hy Hx].
  simpl. intros (-> & n & c & Hn & Hl). split; [done|]. exists n, c. rewrite lookup_insert_ne by done.
  split; [done | by apply IH].
Qed.

(** Only the links matter. *)
Lemma linked_value m x n c c' l : m !! x = Some (n, c) -> forall p, linked m p l -> linked (<[x := (n, c')]> m) p l.
Proof.
  intros Hx. induction l as [|y l IH]; intros p; [done|]. simpl. intros (-> & n' & c0 & Hn & Hl). split; [done|].
  destruct (decide (x = y)) as [->|Hne].
  - exists n', c'. rewrite lookup_insert_eq. split; [congruence | by apply IH].
  - exists n', c0. rewrite lookup_insert_ne by done. split; [done | by apply IH].
Qed.

Lemma linked_after m sb bp c c' n l1 : forall p l2, linked m p (l1 ++ sb :: l2) -> NoDup (l1 ++ sb :: l2) ->
  bp ∉ l1 ++ sb :: l2 -> m !! sb = Some (n, c) ->
  linked (<[sb := (bp, c)]> (<[bp := (n, c')]> m)) p (l1 ++ sb :: bp :: l2).
Proof.
  induction l1 as [|y l1 IH]; intros p l2 Hl Hnd Hbp Hsb.
  - cbn [app] in Hl, Hnd, Hbp |- *. destruct Hl as (-> & n' & c0 & Hn & Hl). apply not_elem_of_cons in Hbp as [Hne Hbp].
    apply NoDup_cons in Hnd as [Hs Hnd]. split; [done|]. exists bp, c. split; [by rewrite lookup_insert_eq|]. split; [done|].
    exists n, c'. rewrite lookup_insert_ne, lookup_insert_eq by done. split; [done|].
    assert (n' = n) as -> by congruence. by apply linked_outside, linked_outside.
  - cbn [app] in Hl, Hnd, Hbp |- *. destruct Hl as (-> & n' & c0 & Hn & Hl). apply not_elem_of_cons in Hbp as [Hne Hbp].
    apply NoDup_cons in Hnd as [Hs Hnd]. split; [done|]. exists n', c0.
    rewrite !lookup_insert_ne by (by intros ->; apply Hs; set_solver). split; [done | by apply IH].
Qed.

Lemma linked_without m x y n c cy l1 : forall p l2, linked m p (l1 ++ x :: y :: l2) -> NoDup (l1 ++ x :: y :: l2) ->
  m !! y = Some (n, cy) -> linked (<[x := (n, c)]> m) p (l1 ++ x :: l2).
Proof.
  induction l1 as [|z l1 IH]; intros p l2 Hl Hnd Hy.
  - cbn [app] in Hl, Hnd |- *. destruct Hl as (-> & n' & c0 & Hn & -> & n2 & c2 & Hn2 & Hl).
    apply NoDup_cons in Hnd as [Hs Hnd]. apply not_elem_of_cons in Hs as [Hxy Hs]. split; [done|].
    exists n, c. split; [by rewrite lookup_insert_eq|]. assert (n2 = n) as -> by congruence. by apply linked_outside.
  - cbn [app] in Hl, Hnd |- *. destruct Hl as (-> & n' & c0 & Hn & Hl). apply NoDup_cons in Hnd as [Hs Hnd].
    split; [done|]. exists n', c0. rewrite lookup_insert_ne by (by intros ->; apply Hs; set_solver).
    split; [done | by apply IH].
Qed.

Lemma linked_delete m x l : x ∉ l -> forall p, linked m p l -> linked (base.delete x m) p l.
Proof.
  induction l as [|y l IH]; intros Hx p; [done|]. apply not_elem_of_cons in Hx as [Hy Hx].
  simpl. intros (-> & n & c & Hn & Hl). split; [done|]. exists n, c. rewrite lookup_delete_ne by done.
  split; [done | by apply IH].
Qed.

(** The link of an element leads to the next one. *)
Lemma linked_next m p l1 x l2 n c : linked m p (l1 ++ x :: l2) -> m !! x = Some (n, c) -> linked m n l2.
Proof.
  revert p. induction l1 as [|y l1 IH]; intros p; simpl.
  - intros (-> & n' & c0 & Hn & Hl) Hx. congruence.
  - intros (-> & n' & c0 & Hn & Hl). by eapply IH.
Qed.

(** The element whose link is [x]. *)
Lemma linked_before m p l1 y l2 x c : linked m p (l1 ++ y :: l2) -> m !! y = Some (x, c) -> x <> NULL ->
  exists l3, l2 = x :: l3.
Proof.
  intros Hl Hy Hx. pose proof (linked_next _ _ _ _ _ _ _ Hl Hy) as H2. destruct l2 as [|z l3]; simpl in H2; [done|].
  destruct H2 as [-> _]. by exists l3.
Qed.

(** ** Counting the windows of a buffer *)

Definition one_if (b : bool) : Z := if b then 1 else 0.

Definition tells (ws : gmap Z (Z * Z)) (bp x : Z) : bool :=
  match ws !! x with Some (_, b) => b =? bp | None => false end.

Fixpoint tally (ws : gmap Z (Z * Z)) (bp : Z) (l : list Z) : Z :=
  match l with
  | [] => 0
  | x :: l => one_if (tells ws bp x) + tally ws bp l
  end.

Lemma tally_outside ws bp x v l : x ∉ l -> tally (<[x := v]> ws) bp l = tally ws bp l.
Proof.
  induction l as [|y l IH]; intros Hx; [done|]. apply not_elem_of_cons in Hx as [Hy Hx]. simpl. rewrite IH by done.
  unfold tells. by rewrite lookup_insert_ne.
Qed.

Lemma tally_update ws bp x n b v l : x ∈ l -> NoDup l -> ws !! x = Some (n, b) ->
  tally (<[x := v]> ws) bp l = tally ws bp l - one_if (b =? bp) + one_if (snd v =? bp).
Proof.
  intros Hx Hnd Hw. induction l as [|y l IH]; [by apply elem_of_nil in Hx|]. apply NoDup_cons in Hnd as [Hy Hnd]. simpl.
  destruct (decide (x = y)) as [->|Hne].
  - rewrite tally_outside by done. unfold tells. rewrite lookup_insert_eq, Hw. destruct v as [v1 v2]. simpl. lia.
  - rewrite IH; [|set_solver | done]. unfold tells. rewrite lookup_insert_ne by done. lia.
Qed.

Lemma tally_app ws bp l1 l2 : tally ws bp (l1 ++ l2) = tally ws bp l1 + tally ws bp l2.
Proof. induction l1 as [|x l1 IH]; [done|]. simpl. rewrite IH. lia. Qed.

Lemma tally_delete ws bp x l : x ∉ l -> tally (base.delete x ws) bp l = tally ws bp l.
Proof.
  induction l as [|y l IH]; intros Hx; [done|]. apply not_elem_of_cons in Hx as [Hy Hx]. simpl. rewrite IH by done.
  unfold tells. by rewrite lookup_delete_ne.
Qed.

Lemma tally_nonneg ws bp l : 0 <= tally ws bp l.
Proof. induction l as [|x l IH]; simpl; [lia|]. unfold one_if. destruct (tells ws bp x); lia. Qed.

Lemma tally_in ws bp x n l : x ∈ l -> ws !! x = Some (n, bp) -> 1 <= tally ws bp l.
Proof.
  intros Hx Hw. apply list_elem_of_split in Hx as (l1 & l2 & ->). rewrite tally_app. simpl. unfold tells. rewrite Hw, Z.eqb_refl.
  pose proof (tally_nonneg ws bp l1). pose proof (tally_nonneg ws bp l2). simpl. lia.
Qed.

(** ** The invariant *)

(** A list and the store it is in: nothing is allocated that is not in the list. *)
Record listing (m : gmap Z (Z * Z)) (head : Z) (limit : Z) (l : list Z) : Prop := {
  l_linked : linked m head l;
  l_nodup : NoDup l;
  l_dom : forall x, is_Some (m !! x) <-> x ∈ l;
  l_range : forall x, x ∈ l -> 0 < x < limit
}.

Definition counted (kb kw : gmap Z (Z * Z)) (lw : list Z) : Prop :=
  forall bp n c, kb !! bp = Some (n, c) -> c = tally kw bp lw.

Record world (k : skeleton) (lb lw : list Z) : Prop := {
  w_buffers : listing (k_buffers k) (k_bheadp k) (k_brk k) lb;
  w_windows : listing (k_windows k) (k_wheadp k) (k_brk k) lw;
  w_shown : forall x n bp, k_windows k !! x = Some (n, bp) -> bp ∈ lb;
  w_current : exists n, k_windows k !! k_curwp k = Some (n, k_curbp k);
  w_counted : counted (k_buffers k) (k_windows k) lw
}.

Definition world_ok (s : editor) : Prop := exists lb lw, world (skel s) lb lw.

Lemma world_skel s s' : skel s' = skel s -> world_ok s -> world_ok s'.
Proof. intros E (lb & lw & Hw). exists lb, lw. by rewrite E. Qed.

(** The value at an address changes, its link does not. *)
Lemma listing_value m head limit l x n c c' : listing m head limit l -> m !! x = Some (n, c) ->
  listing (<[x := (n, c')]> m) head limit l.
Proof.
  intros [H1 H2 H3 H4] Hx. split; [by eapply linked_value | done | | done].
  intros y. destruct (decide (x = y)) as [->|Hne].
  - rewrite lookup_insert_eq, <- H3, Hx. split; by eexists.
  - by rewrite lookup_insert_ne.
Qed.

Lemma listing_limit m head limit limit' l : listing m head limit l -> limit <= limit' -> listing m head limit' l.
Proof. intros [H1 H2 H3 H4] Hle. split; [done..|]. intros x Hx. specialize (H4 x Hx). lia. Qed.

(** A new element behind [sb]. *)
Lemma listing_after m head limit l sb x n c c' : listing m head limit l -> m !! sb = Some (n, c) -> limit <= x -> 0 < x ->
  exists l', listing (<[sb := (x, c)]> (<[x := (n, c')]> m)) head (x + 1) l' /\ (forall y, y ∈ l' <-> y = x \/ y ∈ l).
Proof.
  intros [H1 H2 H3 H4] Hsb Hx Hx0. assert (sb ∈ l) as Hin by (apply H3; by eexists).
  assert (x ∉ l) as Hxl by (intros Hl; specialize (H4 x Hl); lia).
  apply list_elem_of_split in Hin as (l1 & l2 & ->). exists (l1 ++ sb :: x :: l2).
  assert (forall y, y ∈ l1 ++ sb :: x :: l2 <-> y = x \/ y ∈ l1 ++ sb :: l2) as Hel by (intros y; set_solver).
  split; [|done]. split.
  - by apply linked_after.
  - apply NoDup_app in H2 as (N1 & N2 & N3). apply NoDup_cons in N3 as [N4 N5]. apply NoDup_app. split; [done|].
    split; [|apply NoDup_cons; split; [|apply NoDup_cons; split; [|done]]]; set_solver.
  - intros y. rewrite Hel, <- H3. destruct (decide (sb = y)) as [->|Hne].
    + rewrite lookup_insert_eq. split; [right; by eexists | by eexists].
    + rewrite lookup_insert_ne by done. destruct (decide (x = y)) as [->|Hne'].
      * rewrite lookup_insert_eq. split; [by left | by eexists].
      * rewrite lookup_insert_ne by done. split; [by right | by intros [->|]].
  - intros y Hy. apply Hel in Hy as [->|Hy]; [lia|]. specialize (H4 y Hy). lia.
Qed.

(** A new first element. *)
Lemma listing_first m head limit l x c' : listing m head limit l -> limit <= x -> 0 < x ->
  listing (<[x := (head, c')]> m) x (x + 1) (x :: l).
Proof.
  intros [H1 H2 H3 H4] Hx Hx0. assert (x ∉ l) as Hxl by (intros Hl; specialize (H4 x Hl); lia). split.
  - split; [done|]. exists head, c'. rewrite lookup_insert_eq. split; [done | by apply linked_outside].
  - by apply NoDup_cons.
  - intros y. rewrite elem_of_cons, <- H3. destruct (decide (x = y)) as [->|Hne].
    + rewrite lookup_insert_eq. split; [by left | by eexists].
    + rewrite lookup_insert_ne by done. split; [by right | by intros [->|]].
  - intros y Hy. apply elem_of_cons in Hy as [->|Hy]; [lia|]. specialize (H4 y Hy). lia.
Qed.

Lemma NoDup_mid {A} (l1 : list A) x l2 : NoDup (l1 ++ x :: l2) -> NoDup (l1 ++ l2) /\ x ∉ l1 ++ l2.
Proof. intros Hn. rewrite <- Permutation_middle in Hn. by apply NoDup_cons in Hn as [? ?]. Qed.

(** An element leaves the list: the first, or the one behind [sb]. *)
Lemma listing_drop_first m limit x l n c : listing m x limit (x :: l) -> m !! x = Some (n, c) ->
  listing (base.delete x m) n limit l.
Proof.
  intros [H1 H2 H3 H4] Hx. apply NoDup_cons in H2 as [Hxl H2]. split.
  - apply linked_delete; [done|]. destruct H1 as (_ & n' & c' & Hn & Hl). congruence.
  - done.
  - intros y. destruct (decide (x = y)) as [->|Hne].
    + rewrite lookup_delete_eq. split; [by intros [? ?] | done].
    + rewrite lookup_delete_ne, H3 by done. set_solver.
  - intros y Hy. apply H4. by right.
Qed.

Lemma listing_drop m head limit l sb x n c nx cx : listing m head limit l -> m !! sb = Some (x, c) -> m !! x = Some (nx, cx) ->
  x <> NULL -> n = nx ->
  exists l', listing (base.delete x (<[sb := (n, c)]> m)) head limit l' /\ (forall y, y ∈ l' <-> y ∈ l /\ y <> x).
Proof.
  intros [H1 H2 H3 H4] Hsb Hx Hx0 ->. assert (sb ∈ l) as Hin by (apply H3; by eexists).
  apply list_elem_of_split in Hin as (l1 & l2 & ->).
  destruct (linked_before _ _ _ _ _ _ _ H1 Hsb Hx0) as [l3 ->].
  assert (NoDup (l1 ++ sb :: l3) /\ x ∉ l1 ++ sb :: l3) as [Hnd Hxl].
  { replace (l1 ++ sb :: x :: l3) with ((l1 ++ [sb]) ++ x :: l3) in H2 by (by rewrite <- app_assoc).
    apply NoDup_mid in H2. by rewrite <- app_assoc in H2. }
  assert (sb <> x) as Hne by (intros ->; set_solver).
  exists (l1 ++ sb :: l3). assert (forall y, y ∈ l1 ++ sb :: l3 <-> y ∈ l1 ++ sb :: x :: l3 /\ y <> x) as Hel.
  { intros y. split; [intros Hy; split; [set_solver | by intros ->] | intros [Hy Hyx]; set_solver]. }
  split; [|done]. split.
  - apply linked_delete; [done|]. by eapply linked_without.
  - done.
  - intros y. rewrite Hel, <- H3. destruct (decide (x = y)) as [->|Hxy].
    + rewrite lookup_delete_eq. split; [by intros [? ?] | by intros []].
    + rewrite lookup_delete_ne by done. destruct (decide (sb = y)) as [->|Hsy].
      * rewrite lookup_insert_eq, Hsb. split; [split; [by eexists | done] | by eexists].
      * rewrite lookup_insert_ne by done. split; [by split | by intros []].
  - intros y Hy. apply H4. by apply Hel.
Qed.
