(* ===== verification/AttoInv.v ===== *)
(** * Atto: every command keeps the lists

    The commands that change the links, and the main loop: what [world_ok] says holds in every
    state of the editor until [killbuffer] is called on a buffer that another window shows. *)

From Stdlib Require Import ZArith Lia.
From stdpp Require Import base numbers list gmap strings.
From S2P Require Import Prelude Atto AttoGap AttoLines AttoEdit AttoSearch AttoDisplay AttoBuffers AttoFiles AttoKeys AttoWorld AttoLists.

Open Scope Z_scope.

(** ** Steps on the skeleton *)

Definition on_buffers (f : gmap Z (Z * Z) -> gmap Z (Z * Z)) (k : skeleton) : skeleton :=
  Skeleton (f (k_buffers k)) (k_windows k) (k_curbp k) (k_bheadp k) (k_curwp k) (k_wheadp k) (k_brk k).
Definition on_windows (f : gmap Z (Z * Z) -> gmap Z (Z * Z)) (k : skeleton) : skeleton :=
  Skeleton (k_buffers k) (f (k_windows k)) (k_curbp k) (k_bheadp k) (k_curwp k) (k_wheadp k) (k_brk k).
Definition on_curbp (bp : Z) (k : skeleton) : skeleton :=
  Skeleton (k_buffers k) (k_windows k) bp (k_bheadp k) (k_curwp k) (k_wheadp k) (k_brk k).

Lemma wlp_at_buffer {A} bp (p : B A) s (Q : A -> editor -> Prop) :
  (forall b, buffers s !! bp = Some b -> k_buffers (skel s) !! bp = Some (b_next b, b_cnt b) ->
    wlp p b (fun a b' => Q a (with_buffers (<[bp := b']> (buffers s)) s))) ->
  wlp (at_buffer bp p) s Q.
Proof.
  intros Hp fuel a s' E. unfold at_buffer in E. destruct (buffers s !! bp) as [b|] eqn:Eb; [|done].
  destruct (p fuel b) as [a1 b1|] eqn:Ep; [|done]. injection E as <- <-. eapply (Hp b); [done | | exact Ep].
  unfold skel. simpl. by rewrite lookup_fmap, Eb.
Qed.

Lemma wlp_at_window {A} wp (p : prog window A) s (Q : A -> editor -> Prop) :
  (forall w, windows s !! wp = Some w -> k_windows (skel s) !! wp = Some (w_next w, w_bufp w) ->
    wlp p w (fun a w' => Q a (with_windows (<[wp := w']> (windows s)) s))) ->
  wlp (at_window wp p) s Q.
Proof.
  intros Hp fuel a s' E. unfold at_window in E. destruct (windows s !! wp) as [w|] eqn:Ew; [|done].
  destruct (p fuel w) as [a1 w1|] eqn:Ep; [|done]. injection E as <- <-. eapply (Hp w); [done | | exact Ep].
  unfold skel. simpl. by rewrite lookup_fmap, Ew.
Qed.

Lemma skel_buffer bp b s : skel (with_buffers (<[bp := b]> (buffers s)) s) = on_buffers <[bp := (b_next b, b_cnt b)]> (skel s).
Proof. unfold skel, on_buffers. simpl. by rewrite fmap_insert. Qed.

Lemma skel_window wp w s : skel (with_windows (<[wp := w]> (windows s)) s) = on_windows <[wp := (w_next w, w_bufp w)]> (skel s).
Proof. unfold skel, on_windows. simpl. by rewrite fmap_insert. Qed.

Lemma skel_same_buffer bp b s : buffers s !! bp = Some b -> skel (with_buffers (<[bp := b]> (buffers s)) s) = skel s.
Proof. intros Hb. rewrite insert_id by done. done. Qed.

Lemma skel_same_window wp w s : windows s !! wp = Some w -> skel (with_windows (<[wp := w]> (windows s)) s) = skel s.
Proof. intros Hw. rewrite insert_id by done. done. Qed.

(** What a read of a link gives. *)
Lemma wlp_read_buffer {A} (g : buffer -> A) bp s (Q : A -> editor -> Prop) :
  (forall b, k_buffers (skel s) !! bp = Some (b_next b, b_cnt b) -> forall s', skel s' = skel s -> Q (g b) s') ->
  wlp (at_buffer bp (gets g)) s Q.
Proof.
  intros HQ. apply wlp_at_buffer. intros b Hb Hk. apply wlp_gets. apply HQ; [done|]. by apply skel_same_buffer.
Qed.

Lemma wlp_read_window {A} (g : window -> A) wp s (Q : A -> editor -> Prop) :
  (forall w, k_windows (skel s) !! wp = Some (w_next w, w_bufp w) -> forall s', skel s' = skel s -> Q (g w) s') ->
  wlp (at_window wp (gets g)) s Q.
Proof.
  intros HQ. apply wlp_at_window. intros w Hw Hk. apply wlp_gets. apply HQ; [done|]. by apply skel_same_window.
Qed.

Lemma wlp_same {A} (p : E A) s (Q : A -> editor -> Prop) :
  preserves skel p -> (forall a s', skel s' = skel s -> Q a s') -> wlp p s Q.
Proof. intros Hp HQ. eapply wlp_mono; [apply Hp|]. exact HQ. Qed.

Ltac lstep :=
  first [ apply wlp_bind, wlp_get_state | apply wlp_bind, wlp_gets | apply wlp_bind, wlp_modify ]; cbn beta.

Section invariant.
Context `{machine}.

(** ** Windows and their buffers *)

Lemma associate_spec bp wp s : wlp (associate_b2w bp wp) s (fun _ s' => bp <> NULL /\ exists n c wn wb,
  k_buffers (skel s) !! bp = Some (n, c) /\ k_windows (skel s) !! wp = Some (wn, wb) /\
  skel s' = on_buffers <[bp := (n, c + 1)]> (on_windows <[wp := (wn, bp)]> (skel s))).
Proof.
  unfold associate_b2w. apply wlp_bind, wlp_assert. intros Hbp. apply wlp_bind, wlp_assert. intros _.
  apply wlp_bind, wlp_at_window. intros w Hw Hkw. apply wlp_modify. apply wlp_at_buffer. intros b Hb Hkb. apply wlp_modify.
  split; [by intros ->|]. exists (b_next b), (b_cnt b), (w_next w), (w_bufp w). split; [|split; [done|]].
  - by rewrite skel_window in Hkb.
  - by rewrite skel_buffer, skel_window.
Qed.

Lemma disassociate_spec wp s : wlp (disassociate_b wp) s (fun _ s' => exists n c wn bp,
  k_windows (skel s) !! wp = Some (wn, bp) /\ k_buffers (skel s) !! bp = Some (n, c) /\
  skel s' = on_buffers <[bp := (n, c - 1)]> (skel s)).
Proof.
  unfold disassociate_b. apply wlp_bind, wlp_assert. intros _. apply wlp_bind, wlp_read_window. intros w Hw s1 E1.
  apply wlp_bind, wlp_assert. intros _. apply wlp_at_buffer. intros b Hb Hkb. apply wlp_modify.
  rewrite E1 in Hkb. exists (b_next b), (b_cnt b), (w_next w), (w_bufp w). split; [done|]. split; [done|].
  by rewrite skel_buffer, E1.
Qed.

(** The current window turns to another buffer. *)
Lemma switch_world k lb lw wn n0 c0 bp n c : world k lb lw -> bp ∈ lb ->
  k_windows k !! k_curwp k = Some (wn, k_curbp k) -> k_buffers k !! k_curbp k = Some (n0, c0) ->
  <[k_curbp k := (n0, c0 - 1)]> (k_buffers k) !! bp = Some (n, c) ->
  world (Skeleton (<[bp := (n, c + 1)]> (<[k_curbp k := (n0, c0 - 1)]> (k_buffers k)))
    (<[k_curwp k := (wn, bp)]> (k_windows k)) bp (k_bheadp k) (k_curwp k) (k_wheadp k) (k_brk k)) lb lw.
Proof.
  intros [W1 W2 W3 W4 W5] Hbp Hw Hb Hbp'. split; cbn [k_buffers k_windows k_curbp k_bheadp k_curwp k_wheadp k_brk].
  - eapply listing_value; [|exact Hbp']. by eapply listing_value.
  - by eapply listing_value.
  - intros x n' b'. destruct (decide (k_curwp k = x)) as [<-|Hne].
    + rewrite lookup_insert_eq. intros E. by injection E as _ <-.
    + rewrite lookup_insert_ne by done. apply W3.
  - exists wn. by rewrite lookup_insert_eq.
  - assert (k_curwp k ∈ lw) as Hin by (apply (l_dom _ _ _ _ W2); by eexists).
    intros y n' c' Hy. rewrite (tally_update _ _ _ wn (k_curbp k)) by (done || apply W2). cbn [snd].
    destruct (decide (bp = y)) as [->|Hne].
    + rewrite lookup_insert_eq in Hy. injection Hy as _ <-. rewrite Z.eqb_refl. cbn [one_if].
      destruct (decide (k_curbp k = y)) as [<-|Hne'].
      * rewrite lookup_insert_eq in Hbp'. injection Hbp' as _ <-. rewrite Z.eqb_refl. cbn [one_if].
        rewrite (W5 _ _ _ Hb). lia.
      * rewrite lookup_insert_ne in Hbp' by done. rewrite (proj2 (Z.eqb_neq _ _)) by done. cbn [one_if].
        rewrite (W5 _ _ _ Hbp'). lia.
    + rewrite lookup_insert_ne in Hy by done. rewrite (proj2 (Z.eqb_neq bp y)) by done.
      destruct (decide (k_curbp k = y)) as [<-|Hne'].
      * rewrite lookup_insert_eq in Hy. injection Hy as _ <-. rewrite Z.eqb_refl. cbn [one_if]. rewrite (W5 _ _ _ Hb). lia.
      * rewrite lookup_insert_ne in Hy by done. rewrite (proj2 (Z.eqb_neq _ y)) by done. cbn [one_if].
        rewrite (W5 _ _ _ Hy). lia.
Qed.

(** What [next_buffer] and [readfile] do with the current window. *)
Definition switched (s s' : editor) (bp : Z) : Prop :=
  k_curbp (skel s') = bp /\ exists wn, k_windows (skel s') = <[curwp s := (wn, bp)]> (k_windows (skel s)) /\
  k_windows (skel s) !! curwp s = Some (wn, curbp s).

Lemma wlp_switch s bp lb lw : world (skel s) lb lw -> bp = NULL \/ bp ∈ lb ->
  wlp (disassociate_b (curwp s);; modify (with_curbp bp);; associate_b2w bp (curwp s)) s
    (fun _ s' => world (skel s') lb lw /\ switched s s' bp).
Proof.
  intros Hw Hbp. apply wlp_bind. eapply wlp_mono; [apply disassociate_spec|]. cbn beta.
  intros _ s1 (n0 & c0 & wn & cb & H1 & H2 & E1). lstep. eapply wlp_mono; [apply associate_spec|]. cbn beta.
  intros _ s2 (Hn & n & c & wn' & wb & H3 & H4 & E2). destruct Hbp as [|Hbp]; [done|].
  assert (skel (with_curbp bp s1) = on_curbp bp (skel s1)) as E3 by done. rewrite E3, E1 in *.
  destruct (w_current _ _ _ Hw) as [wn0 Hc]. change (k_curwp (skel s)) with (curwp s) in Hc.
  change (k_windows (on_curbp bp (on_buffers <[cb:=(n0, c0 - 1)]> (skel s)))) with (k_windows (skel s)) in H4.
  assert (cb = curbp s) as -> by (change (curbp s) with (k_curbp (skel s)); congruence).
  assert (wn' = wn) as -> by congruence. unfold switched. rewrite E2. split.
  - by apply (switch_world (skel s) lb lw wn n0 c0 bp n c).
  - split; [done|]. exists wn. split; [done | exact H1].
Qed.

Lemma listing_link m head limit l x n c : listing m head limit l -> m !! x = Some (n, c) -> n <> NULL -> n ∈ l.
Proof.
  intros [L1 L2 L3 L4] Hx Hn. assert (x ∈ l) as Hin by (apply L3; by eexists).
  apply list_elem_of_split in Hin as (l1 & l2 & ->). destruct (linked_before _ _ _ _ _ _ _ L1 Hx Hn) as [l3 ->]. set_solver.
Qed.

Lemma listing_head m head limit l x : listing m head limit l -> x ∈ l -> head ∈ l.
Proof. intros [L1 _ _ _] Hx. destruct l as [|y l]; [by apply elem_of_nil in Hx|]. destruct L1 as [-> _]. by left. Qed.

Lemma listing_not_null m head limit l x : listing m head limit l -> x ∈ l -> x <> NULL.
Proof. intros [_ _ _ L4] Hx. specialize (L4 x Hx). unfold NULL. lia. Qed.

Lemma next_buffer_spec s lb lw : world (skel s) lb lw ->
  wlp next_buffer s (fun _ s' => world (skel s') lb lw /\ exists bp, switched s s' bp).
Proof.
  intros Hw. unfold next_buffer. do 3 lstep. apply wlp_bind, wlp_assert. intros _. apply wlp_bind, wlp_assert. intros _.
  pose proof Hw as [W1 W2 W3 [wn W4] W5].
  assert (curbp s ∈ lb) as Hc by (by apply (W3 (curwp s) wn)).
  (* the link of the current buffer is read behind [disassociate_b], which does not change it *)
  intros fuel a s' Hrun. unfold mbind, prog_bind in Hrun.
  destruct (disassociate_b (curwp s) fuel s) as [u s1|] eqn:Ed; [|done].
  pose proof (disassociate_spec (curwp s) s fuel u s1 Ed) as (n0 & c0 & wn' & cb & H1 & H2 & E1).
  destruct (at_buffer (curbp s) (gets b_next) fuel s1) as [next s2|] eqn:Er; [|done].
  assert (s2 = s1 /\ exists b, buffers s1 !! curbp s = Some b /\ next = b_next b) as [-> (b & Hb & ->)].
  { unfold at_buffer, gets in Er. destruct (buffers s1 !! curbp s) as [b|] eqn:Eb; [|done]. injection Er as <- <-.
    split; [|by exists b]. rewrite insert_id by done. by destruct s1. }
  set (bp := if negb (b_next b =? NULL) then b_next b else bheadp s) in *.
  assert (bp ∈ lb) as Hbp.
  { assert (k_buffers (skel s1) !! curbp s = Some (b_next b, b_cnt b)) as Hk
      by (unfold skel; simpl; by rewrite lookup_fmap, Hb).
    unfold bp. destruct (Z.eqb_spec (b_next b) NULL) as [|Hn]; cbn [negb].
    - by eapply (listing_head (k_buffers (skel s)) (bheadp s)).
    - rewrite E1 in Hk. simpl in Hk. destruct (decide (cb = curbp s)) as [->|Hne].
      + rewrite lookup_insert_eq in Hk. injection Hk as Hk _. rewrite <- Hk in *. by eapply listing_link.
      + rewrite lookup_insert_ne in Hk by done. by eapply listing_link. }
  pose proof (wlp_switch s bp lb lw Hw (or_intror Hbp) fuel a s') as Hsw. unfold mbind, prog_bind in Hsw. rewrite Ed in Hsw.
  destruct (Hsw Hrun) as [Hw' Hs']. split; [done | by exists bp].
Qed.
(** ** New buffers *)

Lemma wlp_set_next bp v s : wlp (at_buffer bp (modify (with_next v))) s (fun _ s' => exists n c,
  k_buffers (skel s) !! bp = Some (n, c) /\ skel s' = on_buffers <[bp := (v, c)]> (skel s)).
Proof.
  apply wlp_at_buffer. intros b Hb Hk. apply wlp_modify. exists (b_next b), (b_cnt b). split; [done|]. by rewrite skel_buffer.
Qed.

Lemma find_loop_spec n fname : forall bp s, wlp (find_loop n fname bp) s (fun r s' =>
  skel s' = skel s /\ (r = NULL \/ is_Some (k_buffers (skel s) !! r))).
Proof.
  induction n as [|n IH]; intros bp s; cbn [find_loop]; [apply wlp_fail|].
  destruct (bp =? NULL); [apply wlp_ret; auto|].
  apply wlp_bind, wlp_at_buffer. intros b Hb Hk. apply wlp_get_state. rewrite insert_id by done.
  assert (with_buffers (buffers s) s = s) as -> by (by destruct s).
  destruct (_ || _); [apply wlp_ret; split; [done | right; by eexists]|]. apply IH.
Qed.

(** [sb] stays in the list that was there before the new buffer. *)
Lemma place_loop_spec fname kb head limit lb : listing kb head limit lb -> forall n sb s,
  (forall x, x ∈ lb -> k_buffers (skel s) !! x = kb !! x) -> sb ∈ lb ->
  wlp (place_loop n fname sb) s (fun r s' => skel s' = skel s /\ r ∈ lb).
Proof.
  intros Hl. induction n as [|n IH]; intros sb s Hsame Hsb; cbn [place_loop]; [apply wlp_fail|].
  apply wlp_bind, wlp_read_buffer. intros b Hk s1 E1. destruct (Z.eqb_spec (b_next b) NULL) as [|Hn]; [by apply wlp_ret|].
  apply wlp_bind, wlp_at_buffer. intros b' Hb' Hk'. apply wlp_get_state. rewrite insert_id by done.
  assert (with_buffers (buffers s1) s1 = s1) as -> by (by destruct s1).
  destruct (0 <? _); [by apply wlp_ret|]. rewrite <- E1. apply IH; [by rewrite E1|].
  rewrite Hsame in Hk by done. by eapply listing_link.
Qed.

(** What [find_buffer] leaves: the same lists, or one buffer more that no window shows. *)
Record found (k k' : skeleton) (lb lb' : list Z) (bp : Z) : Prop := {
  fd_listing : listing (k_buffers k') (k_bheadp k') (k_brk k') lb';
  fd_in : bp = NULL \/ bp ∈ lb';
  fd_old : forall x, x ∈ lb -> x ∈ lb';
  fd_new : forall x n c, k_buffers k' !! x = Some (n, c) ->
    (exists n', k_buffers k !! x = Some (n', c)) \/ ((x ∉ lb) /\ c = 0);
  fd_rest : k_windows k' = k_windows k /\ k_curbp k' = k_curbp k /\ k_curwp k' = k_curwp k /\ k_wheadp k' = k_wheadp k;
  fd_brk : k_brk k <= k_brk k'
}.

Lemma found_first k lb c x : listing (k_buffers k) (k_bheadp k) (k_brk k) lb -> 0 < k_brk k -> c = 0 -> x = k_brk k ->
  found k (Skeleton (<[x := (k_bheadp k, c)]> (k_buffers k)) (k_windows k) (k_curbp k) x (k_curwp k) (k_wheadp k) (x + 1))
    lb (x :: lb) x.
Proof.
  intros Hl H0 -> ->. split; cbn [k_buffers k_windows k_curbp k_bheadp k_curwp k_wheadp k_brk]; try done; [| | | |lia].
  - by apply (listing_first _ _ (k_brk k)).
  - right. by left.
  - intros x Hx. by right.
  - intros x n c. destruct (decide (k_brk k = x)) as [<-|Hne].
    + rewrite lookup_insert_eq. intros E. injection E as _ <-. right. split; [|done].
      intros Hin. pose proof (l_range _ _ _ _ Hl _ Hin). lia.
    + rewrite lookup_insert_ne by done. left. by eexists.
Qed.

Lemma found_after k lb sb n c x : listing (k_buffers k) (k_bheadp k) (k_brk k) lb -> 0 < k_brk k ->
  k_buffers k !! sb = Some (n, c) -> x = k_brk k ->
  exists lb', found k (Skeleton (<[sb := (x, c)]> (<[x := (n, 0)]> (k_buffers k))) (k_windows k) (k_curbp k) (k_bheadp k)
    (k_curwp k) (k_wheadp k) (x + 1)) lb lb' x.
Proof.
  intros Hl H0 Hsb ->. destruct (listing_after _ _ _ _ sb (k_brk k) n c 0 Hl Hsb ltac:(lia) H0) as (lb' & Hl' & Hel).
  exists lb'. split; cbn [k_buffers k_windows k_curbp k_bheadp k_curwp k_wheadp k_brk]; try done; [| | |lia].
  - right. apply Hel. by left.
  - intros x Hx. apply Hel. by right.
  - intros x n' c'. destruct (decide (sb = x)) as [<-|Hs].
    + rewrite lookup_insert_eq. intros E. injection E as _ <-. left. by eexists.
    + rewrite lookup_insert_ne by done. destruct (decide (k_brk k = x)) as [<-|Hne].
      * rewrite lookup_insert_eq. intros E. injection E as _ <-. right. split; [|done].
        intros Hin. pose proof (l_range _ _ _ _ Hl _ Hin). lia.
      * rewrite lookup_insert_ne by done. left. by eexists.
Qed.

Lemma found_same k lb bp : listing (k_buffers k) (k_bheadp k) (k_brk k) lb ->
  bp = NULL \/ is_Some (k_buffers k !! bp) -> found k k lb lb bp.
Proof.
  intros Hl Hbp. split; try done.
  - destruct Hbp as [|Hbp]; [by left | right; by apply (l_dom _ _ _ _ Hl)].
  - intros x n c Hx. left. by eexists.
Qed.

Lemma find_buffer_spec fname s lb : listing (k_buffers (skel s)) (bheadp s) (brk s) lb -> 0 < brk s ->
  wlp (find_buffer fname true) s (fun bp s' => exists lb', found (skel s) (skel s') lb lb' bp).
Proof.
  intros Hl H0. unfold find_buffer. lstep. apply wlp_bind, wlp_with_fuel. intros n.
  eapply wlp_mono; [apply find_loop_spec|]. cbn beta. intros bp s1 [E1 Hbp].
  destruct (Z.eqb_spec bp NULL) as [Hnull|Hn]; cbn [negb];
    [|apply wlp_ret; exists lb; rewrite E1; by apply found_same].
  destruct (alloc_ok _); cbn [negb]; [|apply wlp_ret; exists lb; rewrite E1; apply found_same; auto].
  do 2 lstep.
  assert (brk s1 = brk s) as Eb by (change (k_brk (skel s1) = k_brk (skel s)); by rewrite E1).
  assert (bheadp s1 = bheadp s) as Eh by (change (k_bheadp (skel s1) = k_bheadp (skel s)); by rewrite E1).
  rewrite Eb. set (x := brk s). set (s2 := with_brk _ _).
  assert (skel s2 = Skeleton (<[x := (NULL, 0)]> (k_buffers (skel s))) (k_windows (skel s)) (k_curbp (skel s)) (k_bheadp (skel s))
    (k_curwp (skel s)) (k_wheadp (skel s)) (x + 1)) as E2.
  { change (skel s2) with (Skeleton (b_links <$> <[x := new_buffer]> (buffers s1)) (k_windows (skel s1)) (k_curbp (skel s1))
      (k_bheadp (skel s1)) (k_curwp (skel s1)) (k_wheadp (skel s1)) (x + 1)). rewrite E1. f_equal.
    rewrite fmap_insert. f_equal. change (k_buffers (skel s1) = k_buffers (skel s)). by rewrite E1. }
  clearbody s2.
  assert (forall y, y ∈ lb -> k_buffers (skel s2) !! y = k_buffers (skel s) !! y) as Hsame.
  { intros y Hy. rewrite E2. simpl. rewrite lookup_insert_ne; [done|]. intros <-. pose proof (l_range _ _ _ _ Hl _ Hy). lia. }
  destruct (Z.eqb_spec (bheadp s) NULL) as [Hh|Hh].
  - apply wlp_bind, wlp_modify, wlp_ret. exists (x :: lb).
    change (skel (with_bheadp x s2)) with (Skeleton (k_buffers (skel s2)) (k_windows (skel s2)) (k_curbp (skel s2)) x
      (k_curwp (skel s2)) (k_wheadp (skel s2)) (k_brk (skel s2))). rewrite E2. simpl. rewrite <- Hh.
    by apply (found_first (skel s) lb 0 x).
  - assert (bheadp s ∈ lb) as Hin.
    { destruct Hl as [L1 _ _ _]. destruct lb; simpl in L1; [done|]. destruct L1 as [-> _]. by left. }
    apply wlp_bind. apply wlp_bind, wlp_read_buffer. intros b Hk s3 E3. destruct (0 <? strcmp _ _).
    + apply wlp_bind. eapply wlp_mono; [apply wlp_set_next|]. cbn beta. intros _ s4 (n' & c & Hx & E4). apply wlp_modify, wlp_ret.
      rewrite E3, E2 in Hx. simpl in Hx. rewrite lookup_insert_eq in Hx. injection Hx as <- <-.
      exists (x :: lb). change (skel (with_bheadp x s4)) with (Skeleton (k_buffers (skel s4)) (k_windows (skel s4)) (k_curbp (skel s4)) x
        (k_curwp (skel s4)) (k_wheadp (skel s4)) (k_brk (skel s4))). rewrite E4, E3, E2. simpl. rewrite insert_insert_eq.
      by apply (found_first (skel s) lb 0 x).
    + apply wlp_bind, wlp_with_fuel. intros n2. eapply wlp_mono; [eapply (place_loop_spec fname (k_buffers (skel s))); [exact Hl| |exact Hin]|].
      { intros y Hy. rewrite E3. by apply Hsame. }
      cbn beta. intros sb s4 [E4 Hsb]. assert (sb <> x) as Hsx by (intros ->; pose proof (l_range _ _ _ _ Hl _ Hsb); lia).
      apply wlp_bind, wlp_read_buffer. intros b2 Hk2 s5 E5. rewrite E4, E3 in Hk2.
      apply wlp_bind. eapply wlp_mono; [apply wlp_set_next|]. cbn beta. intros _ s6 (n' & c & Hx & E6).
      eapply wlp_mono; [apply wlp_set_next|]. cbn beta. intros _ s7 (n3 & c3 & Hy & E7). apply wlp_ret.
      rewrite E5, E4, E3, E2 in Hx. cbn [k_buffers] in Hx. rewrite lookup_insert_eq in Hx. injection Hx as <- <-.
      rewrite E6, E5, E4, E3, E2 in Hy. unfold on_buffers in Hy. cbn [k_buffers] in Hy. rewrite !lookup_insert_ne in Hy by done.
      rewrite Hsame in Hk2 by done. rewrite E7, E6, E5, E4, E3, E2. unfold on_buffers. cbn [k_buffers k_windows k_curbp k_bheadp k_curwp k_wheadp k_brk].
      rewrite insert_insert_eq, Hk2 in *. injection Hy as <- <-. by apply found_after.
Qed.

Lemma tally_zero ws bp l : (forall x n, ws !! x = Some (n, bp) -> x ∉ l) -> tally ws bp l = 0.
Proof.
  induction l as [|x l IH]; intros Hx; [done|]. simpl. rewrite IH by (intros y n Hy; specialize (Hx y n Hy); set_solver).
  unfold tells. destruct (ws !! x) as [[n b]|] eqn:E; [|done]. destruct (Z.eqb_spec b bp) as [->|]; [|done].
  exfalso. apply (Hx x n E). by left.
Qed.

Lemma found_world k k' lb lb' lw bp : world k lb lw -> found k k' lb lb' bp -> world k' lb' lw.
Proof.
  intros [W1 W2 W3 W4 W5] [F1 F2 F3 F4 (F5 & F6 & F7 & F8) F9]. split.
  - done.
  - rewrite F5, F8. by eapply listing_limit.
  - intros x n b. rewrite F5. intros Hx. apply F3. by eapply W3.
  - by rewrite F5, F6, F7.
  - intros x n c Hx. rewrite F5. destruct (F4 _ _ _ Hx) as [[n' Hx']|[Hin ->]]; [by eapply W5|].
    symmetry. apply tally_zero. intros y n' Hy _. apply Hin. by eapply W3.
Qed.

Lemma world_brk k lb lw : world k lb lw -> 0 < k_brk k.
Proof.
  intros [W1 W2 W3 [n W4] W5]. assert (k_curwp k ∈ lw) as Hin by (apply (l_dom _ _ _ _ W2); by eexists).
  pose proof (l_range _ _ _ _ W2 _ Hin). lia.
Qed.

Lemma wlp_assoc {A} (p q r : E unit) (k : E A) s Q : wlp ((p;; q;; r);; k) s Q -> wlp (p;; q;; r;; k) s Q.
Proof.
  intros Hw fuel a s' E. apply (Hw fuel). revert E. unfold mbind, prog_bind.
  destruct (p fuel s); [|done]. by destruct (q fuel _).
Qed.

Lemma readfile_spec s : world_ok s -> wlp readfile s (fun _ => world_ok).
Proof.
  intros Hw. unfold readfile. lstep. apply wlp_bind, wlp_same; [keep|]. intros r s1 E1. destruct r.
  2: { apply wlp_ret. by apply (world_skel s). }
  lstep. apply (world_skel _ s1) in Hw; [|done]. destruct Hw as (lb & lw & Hw). pose proof (w_buffers _ _ _ Hw) as Hl.
  apply wlp_bind. eapply wlp_mono; [exact (find_buffer_spec _ s1 lb Hl (world_brk _ _ _ Hw))|]. cbn beta.
  intros bp s2 (lb' & Hf). pose proof (found_world _ _ _ _ _ _ Hw Hf) as Hw2. lstep.
  apply wlp_assoc. apply wlp_bind. eapply wlp_mono; [apply (wlp_switch s2 bp lb' lw Hw2), (fd_in _ _ _ _ _ Hf)|].
  cbn beta. intros _ s3 [Hw3 _]. apply wlp_same; [keep|]. intros a s4 E4. apply (world_skel s3); [done|]. by exists lb', lw.
Qed.

(** ** Windows *)

Lemma new_window_spec s : wlp new_window s (fun wp s' => wp = brk s /\
  skel s' = Skeleton (k_buffers (skel s)) (<[brk s := (NULL, NULL)]> (k_windows (skel s))) (k_curbp (skel s)) (k_bheadp (skel s))
    (k_curwp (skel s)) (k_wheadp (skel s)) (brk s + 1)).
Proof.
  unfold new_window. apply wlp_bind, wlp_assert. intros _. do 2 lstep. apply wlp_ret. split; [done|]. unfold skel. simpl. by rewrite fmap_insert.
Qed.

Lemma wlp_set_w_next wp v s : wlp (at_window wp (modify (with_w_next v))) s (fun _ s' => exists n b,
  k_windows (skel s) !! wp = Some (n, b) /\ skel s' = on_windows <[wp := (v, b)]> (skel s)).
Proof.
  apply wlp_at_window. intros w Hw Hk. apply wlp_modify. exists (w_next w), (w_bufp w). split; [done|]. by rewrite skel_window.
Qed.

Lemma one_window_spec wp s : wlp (one_window wp) s (fun _ s' => exists n b,
  k_windows (skel s) !! wp = Some (n, b) /\ skel s' = on_windows <[wp := (NULL, b)]> (skel s)).
Proof.
  apply wlp_at_window. intros w Hw Hk. apply wlp_modify. exists (w_next w), (w_bufp w). split; [done|]. by rewrite skel_window.
Qed.

Lemma tally_perm ws bp l l' : l ≡ₚ l' -> tally ws bp l = tally ws bp l'.
Proof. induction 1; simpl; lia. Qed.

(** A new window on the buffer of the current one, behind it. *)
Lemma split_world k lb lw wn bp n c : world k lb lw -> k_windows k !! k_curwp k = Some (wn, k_curbp k) -> bp = k_curbp k ->
  k_buffers k !! bp = Some (n, c) ->
  exists lw', world (Skeleton (<[bp := (n, c + 1)]> (k_buffers k))
    (<[k_curwp k := (k_brk k, bp)]> (<[k_brk k := (wn, bp)]> (k_windows k))) bp (k_bheadp k) (k_curwp k) (k_wheadp k) (k_brk k + 1)) lb lw'.
Proof.
  intros Hw Hc -> Hb. pose proof (world_brk _ _ _ Hw) as H0. destruct Hw as [W1 W2 W3 W4 W5].
  destruct (listing_after _ _ _ _ (k_curwp k) (k_brk k) wn (k_curbp k) (k_curbp k) W2 Hc ltac:(lia) H0) as (lw' & Hl & Hel).
  assert (k_curwp k ∈ lw) as Hcl by (apply (l_dom _ _ _ _ W2); by eexists).
  assert (k_brk k ∉ lw) as Hx by (intros Hin; pose proof (l_range _ _ _ _ W2 _ Hin); lia).
  assert (lw' ≡ₚ k_brk k :: lw) as Hp.
  { apply NoDup_Permutation; [apply Hl | apply NoDup_cons; split; [done | apply W2]|]. intros y. rewrite elem_of_cons. apply Hel. }
  exists lw'. split; cbn [k_buffers k_windows k_curbp k_bheadp k_curwp k_wheadp k_brk].
  - eapply listing_limit; [by eapply listing_value | lia].
  - done.
  - assert (k_curbp k ∈ lb) as Hin by (by eapply W3). intros x n' b. destruct (decide (k_curwp k = x)) as [<-|Hne].
    + rewrite lookup_insert_eq. intros E. by injection E as _ <-.
    + rewrite lookup_insert_ne by done. destruct (decide (k_brk k = x)) as [<-|Hne'].
      * rewrite lookup_insert_eq. intros E. by injection E as _ <-.
      * rewrite lookup_insert_ne by done. apply W3.
  - exists (k_brk k). by rewrite lookup_insert_eq.
  - assert (k_brk k <> k_curwp k) as Hne by (intros E; congruence).
    intros y n' c' Hy. rewrite (tally_perm _ _ _ _ Hp). cbn [tally].
    rewrite (tally_update _ _ _ wn (k_curbp k)); [|done | apply W2 | by rewrite lookup_insert_ne]. cbn [snd].
    rewrite tally_outside by done. unfold tells. rewrite lookup_insert_ne, lookup_insert_eq by done.
    destruct (decide (k_curbp k = y)) as [<-|Hny].
    + rewrite lookup_insert_eq in Hy. injection Hy as _ <-. rewrite Z.eqb_refl, (W5 _ _ _ Hb). cbn [one_if]. lia.
    + rewrite lookup_insert_ne in Hy by done. rewrite (proj2 (Z.eqb_neq _ y)) by done. cbn [one_if]. rewrite (W5 _ _ _ Hy). lia.
Qed.

Lemma split_window_spec s : world_ok s -> wlp split_window s (fun _ => world_ok).
Proof.
  intros (lb & lw & Hw). unfold split_window. lstep. apply wlp_bind, wlp_at_window. intros w Hwn Hkw. apply wlp_get_state.
  rewrite insert_id by done. assert (with_windows (windows s) s = s) as -> by (by destruct s).
  destruct (w_rows w <? 3); [apply wlp_same; [keep|]; intros _ s1 E1; apply (world_skel s); [done|]; by exists lb, lw|].
  apply wlp_bind. eapply wlp_mono; [apply new_window_spec|]. cbn beta. intros wp s1 [-> E1].
  apply wlp_bind. eapply wlp_mono; [apply associate_spec|]. cbn beta. intros _ s2 (_ & n & c & wn & wb & H1 & H2 & E2).
  apply wlp_bind, wlp_same; [keep|]. intros _ s3 E3. apply wlp_bind, wlp_same; [keep|]. intros _ s4 E4.
  apply wlp_bind, wlp_same; [keep|]. intros _ s5 E5. rewrite <- E5 in E4. clear s4 E5. rename s5 into s4.
  apply wlp_bind, wlp_read_window. intros w2 Hk2 s5 E5. apply wlp_bind. eapply wlp_mono; [apply wlp_set_w_next|]. cbn beta.
  intros _ s6 (n6 & b6 & H6 & E6). apply wlp_bind. eapply wlp_mono; [apply wlp_set_w_next|]. cbn beta.
  intros _ s7 (n7 & b7 & H7 & E7). apply wlp_same; [keep|]. intros _ s8 E8. apply (world_skel s7); [done|].
  rewrite E7, E6, E5, E4, E3, E2, E1 in *. unfold on_windows, on_buffers in *.
  cbn [k_buffers k_windows k_curbp k_bheadp k_curwp k_wheadp k_brk] in *.
  pose proof (world_brk _ _ _ Hw) as H0. destruct (w_current _ _ _ Hw) as [wn0 Hc].
  change (k_curwp (skel s)) with (curwp s) in Hc. rewrite Hkw in Hc. injection Hc as Hwn0 Hbp.
  assert (brk s <> curwp s) as Hne.
  { intros E. assert (curwp s ∈ lw) as Hin by (apply (l_dom _ _ _ _ (w_windows _ _ _ Hw)); by eexists).
    pose proof (l_range _ _ _ _ (w_windows _ _ _ Hw) _ Hin) as Hr. change (k_brk (skel s)) with (brk s) in Hr. lia. }
  rewrite lookup_insert_eq in H2. injection H2 as <- <-.
  rewrite insert_insert_eq in *. rewrite lookup_insert_ne in Hk2, H6 by done. rewrite Hkw in Hk2, H6.
  injection H6 as <- <-. injection Hk2 as Hn2 Hb2. rewrite lookup_insert_ne, lookup_insert_eq in H7 by done. injection H7 as <- <-.
  change (curbp s) with (k_curbp (skel s)) in Hbp.
  destruct (split_world (skel s) lb lw (w_next w) (w_bufp w) n c Hw) as [lw' Hw']; [by rewrite <- Hbp | done..|].
  exists lb, lw'. rewrite E7, <- Hn2, <- Hbp. rewrite insert_insert_ne, insert_insert_eq by done. done.
Qed.

Lemma next_window_spec s : world_ok s -> wlp next_window s (fun _ => world_ok).
Proof.
  intros (lb & lw & Hw). unfold next_window. lstep. apply wlp_bind.
  apply wlp_at_window. intros w Hwn Hkw. apply wlp_bind, wlp_modify, wlp_gets. cbn beta.
  set (s1 := with_windows _ _). assert (skel s1 = skel s) as E1.
  { unfold s1. rewrite skel_window. unfold on_windows.
    change (w_next (with_w_update true w), w_bufp (with_w_update true w)) with (w_next w, w_bufp w). by rewrite insert_id. }
  clearbody s1. change (w_next (with_w_update true w)) with (w_next w). do 2 lstep.
  assert (wheadp s1 = wheadp s) as -> by (change (k_wheadp (skel s1) = k_wheadp (skel s)); by rewrite E1).
  set (wp := if w_next w =? NULL then wheadp s else w_next w).
  apply wlp_bind, wlp_read_window. intros w2 Hk2 s2 E2. lstep.
  apply wlp_same; [keep|]. intros _ s3 E3. apply (world_skel (with_curbp (w_bufp w2) s2)); [done|].
  exists lb, lw. change (skel (with_curbp (w_bufp w2) s2)) with (on_curbp (w_bufp w2) (skel s2)). rewrite E2.
  change (skel (with_curwp wp s1)) with (Skeleton (k_buffers (skel s1)) (k_windows (skel s1)) (k_curbp (skel s1))
    (k_bheadp (skel s1)) wp (k_wheadp (skel s1)) (k_brk (skel s1))) in *. rewrite E1 in *. destruct Hw as [W1 W2 W3 W4 W5].
  split; try done. by eexists.
Qed.

(** ** The other windows go *)

Lemma wlp_drop_window wp s : wlp (modify (fun s => with_windows (base.delete wp (windows s)) s)) s
  (fun _ s' => skel s' = on_windows (base.delete wp) (skel s)).
Proof. apply wlp_modify. unfold skel, on_windows. simpl. by rewrite fmap_delete. Qed.

(** While [free_loop] is before [l2]: the window that stays, if it is passed already, and [l2]. *)
Record freeing (k : skeleton) (lb : list Z) (winp wp : Z) (pre l2 : list Z) : Prop := {
  fr_buffers : listing (k_buffers k) (k_bheadp k) (k_brk k) lb;
  fr_linked : linked (k_windows k) wp l2;
  fr_nodup : NoDup (pre ++ l2);
  fr_pre : pre = [winp] \/ (pre = [] /\ winp ∈ l2);
  fr_dom : forall x, is_Some (k_windows k !! x) <-> x ∈ pre ++ l2;
  fr_range : forall x, x ∈ pre ++ l2 -> 0 < x < k_brk k;
  fr_shown : forall x n bp, k_windows k !! x = Some (n, bp) -> bp ∈ lb;
  fr_counted : counted (k_buffers k) (k_windows k) (pre ++ l2)
}.

(** What [free_loop] does not touch. *)
Definition same_rest (k k' : skeleton) : Prop :=
  k_curbp k' = k_curbp k /\ k_curwp k' = k_curwp k /\ k_wheadp k' = k_wheadp k /\
  (forall x v, k_windows k' !! x = Some v -> k_windows k !! x = Some v).

Lemma free_loop_spec n lb winp : forall wp pre l2 s, freeing (skel s) lb winp wp pre l2 ->
  wlp (free_loop n winp wp) s (fun _ s' => freeing (skel s') lb winp NULL [winp] [] /\ same_rest (skel s) (skel s')).
Proof.
  induction n as [|n IH]; intros wp pre l2 s F; cbn [free_loop]; [apply wlp_fail|].
  pose proof F as [F1 F2 F3 F4 F5 F6 F7 F8]. destruct l2 as [|x l2].
  { cbn [linked] in F2. subst wp. rewrite Z.eqb_refl. apply wlp_ret. destruct F4 as [->|[-> Hin]]; [done|]. by apply elem_of_nil in Hin. }
  destruct F2 as (-> & nx & bx & Hx & Hl). assert (0 < x < k_brk (skel s)) as Hr by (apply F6; set_solver).
  destruct (Z.eqb_spec x NULL) as [E|_]; [unfold NULL in E; lia|].
  apply wlp_bind, wlp_read_window. intros w Hk s1 E1. rewrite Hk in Hx. injection Hx as <- <-.
  destruct (Z.eqb_spec x winp) as [->|Hne]; cbn [negb].
  - apply wlp_bind, wlp_ret. destruct F4 as [->|[-> Hin]].
    { exfalso. apply NoDup_cons in F3 as [F3 _]. apply F3. by left. }
    rewrite <- E1. apply (IH _ [winp] l2). rewrite E1. split; try done. by left.
  - apply wlp_bind, wlp_bind. eapply wlp_mono; [apply disassociate_spec|]. cbn beta.
    intros _ s2 (n0 & c0 & wn & bp & H1 & H2 & E2). eapply wlp_mono; [apply wlp_drop_window|]. cbn beta. intros _ s3 E3.
    rewrite E2, E1 in *. rewrite Hk in H1. injection H1 as <- <-.
    assert (x ∉ pre ++ l2) as Hxl by (apply NoDup_mid in F3; tauto).
    eapply wlp_mono; [apply (IH _ pre l2)|]; rewrite E3; unfold on_windows, on_buffers;
      cbn [k_buffers k_windows k_curbp k_bheadp k_curwp k_wheadp k_brk].
    + split; cbn [k_buffers k_windows k_curbp k_bheadp k_curwp k_wheadp k_brk].
      * by eapply listing_value.
      * apply linked_delete; [set_solver | done].
      * apply NoDup_mid in F3; tauto.
      * destruct F4 as [->|[-> Hin]]; [by left | right; split; [done|]]. set_solver.
      * intros y. destruct (decide (x = y)) as [<-|Hxy].
        -- rewrite lookup_delete_eq. split; [by intros [? ?] | done].
        -- rewrite lookup_delete_ne, F5 by done. set_solver.
      * intros y Hy. apply F6. set_solver.
      * intros y n' b'. destruct (decide (x = y)) as [<-|Hxy]; [by rewrite lookup_delete_eq|].
        rewrite lookup_delete_ne by done. apply F7.
      * intros y n' c' Hy. rewrite tally_delete by done.
        assert (forall b, tally (k_windows (skel s)) b (pre ++ x :: l2) =
          one_if (w_bufp w =? b) + tally (k_windows (skel s)) b (pre ++ l2)) as Ht.
        { intros b. rewrite !tally_app. cbn [tally]. unfold tells. rewrite Hk. lia. }
        destruct (decide (w_bufp w = y)) as [<-|Hwy].
        -- rewrite lookup_insert_eq in Hy. injection Hy as _ <-. rewrite (F8 _ _ _ H2), Ht, Z.eqb_refl. cbn [one_if]. lia.
        -- rewrite lookup_insert_ne in Hy by done. rewrite (F8 _ _ _ Hy), Ht, (proj2 (Z.eqb_neq _ y)) by done. cbn [one_if]. lia.
    + cbn beta. intros _ s4 [H4 (R1 & R2 & R3 & R4)]. split; [done|]. split; [done|]. split; [done|]. split; [done|].
      intros y v Hy. apply R4 in Hy. cbn [k_windows] in Hy. by apply lookup_delete_Some in Hy as [_ Hy].
Qed.

Lemma freed_world k k' lb lw n b : world k lb lw -> freeing k' lb (k_curwp k) NULL [k_curwp k] [] -> same_rest k k' ->
  k_windows k' !! k_curwp k = Some (n, b) ->
  world (Skeleton (k_buffers k') (<[k_curwp k := (NULL, b)]> (k_windows k')) (k_curbp k') (k_bheadp k') (k_curwp k) (k_curwp k)
    (k_brk k')) lb [k_curwp k].
Proof.
  intros [W1 W2 W3 [n4 W4] W5] [F1 F2 F3 F4 F5 F6 F7 F8] (R1 & R2 & R3 & R4) Hb.
  split; cbn [k_buffers k_windows k_curbp k_bheadp k_curwp k_wheadp k_brk].
  - done.
  - split; [| done | | done].
    + split; [done|]. exists NULL, b. by rewrite lookup_insert_eq.
    + intros x. destruct (decide (k_curwp k = x)) as [<-|Hne].
      * rewrite lookup_insert_eq. split; [intros _; by left | by eexists].
      * rewrite lookup_insert_ne by done. apply F5.
  - intros x n' b'. destruct (decide (k_curwp k = x)) as [<-|Hne].
    + rewrite lookup_insert_eq. intros E. injection E as _ <-. by eapply F7.
    + rewrite lookup_insert_ne by done. apply F7.
  - exists NULL. rewrite lookup_insert_eq, R1. specialize (R4 _ _ Hb). congruence.
  - intros x n' c Hx. rewrite (tally_update _ _ _ n b); [|by left | apply NoDup_singleton | done]. cbn [snd].
    rewrite (F8 _ _ _ Hx). rewrite app_nil_r. lia.
Qed.

Lemma delete_other_windows_spec s : world_ok s -> wlp delete_other_windows s (fun _ => world_ok).
Proof.
  intros (lb & lw & Hw). unfold delete_other_windows. lstep. apply wlp_bind, wlp_read_window. intros w Hk s1 E1.
  destruct (w_next w =? NULL).
  { apply wlp_same; [keep|]. intros _ s2 E2. exists lb, lw. by rewrite E2, E1. }
  lstep. unfold free_other_windows. lstep. rewrite <- E1 in Hw. apply wlp_bind, wlp_with_fuel. intros n.
  eapply wlp_mono; [apply (free_loop_spec n lb (curwp s1) _ [] lw)|].
  { destruct Hw as [W1 W2 W3 [n4 W4] W5]. destruct W2 as [L1 L2 L3 L4]. split; try done. right. split; [done|].
    apply L3. by eexists. }
  cbn beta. intros _ s2 [F R]. do 2 lstep. eapply wlp_mono; [apply one_window_spec|]. cbn beta.
  intros _ s3 (n3 & b3 & H3 & E3). exists lb, [curwp s1]. rewrite E3. exact (freed_world (skel s1) (skel s2) lb lw n3 b3 Hw F R H3).
Qed.

End invariant.
