(* ===== verification/AttoReach.v ===== *)
(** * Atto: the lists in every state of the main loop

    [killbuffer], the start of the program and the states between two keys: [world_ok] holds
    in each of them as long as [killbuffer] is called on a buffer that one window shows. *)

From Stdlib Require Import ZArith Lia.
From stdpp Require Import base numbers list gmap strings.
From S2P Require Import Prelude Atto AttoGap AttoLines AttoEdit AttoSearch AttoDisplay AttoBuffers AttoFiles AttoKeys AttoWorld AttoLists AttoInv.

Open Scope Z_scope.

Section reach.
Context `{machine}.

(** ** The current buffer goes *)

Lemma before_loop_spec n bp : forall sb s l1 l2 head, linked (k_buffers (skel s)) head (l1 ++ sb :: l2) -> bp ∈ l2 ->
  NULL ∉ l1 ++ sb :: l2 ->
  wlp (before_loop n bp sb) s (fun r s' => skel s' = skel s /\ exists c, k_buffers (skel s) !! r = Some (bp, c)).
Proof.
  induction n as [|n IH]; intros sb s l1 l2 head Hl Hbp Hnull; cbn [before_loop]; [apply wlp_fail|].
  apply wlp_bind, wlp_read_buffer. intros b Hk s1 E1.
  destruct (Z.eqb_spec (b_next b) bp) as [<-|Hne]; cbn [orb]; [apply wlp_ret; split; [done | by eexists]|].
  pose proof (linked_next _ _ _ _ _ _ _ Hl Hk) as Hn. destruct l2 as [|y l2]; [by apply elem_of_nil in Hbp|].
  pose proof Hn as [Hy _]. destruct (Z.eqb_spec (b_next b) NULL) as [E|Hnn]; [exfalso; apply Hnull; set_solver|].
  rewrite <- E1, Hy. apply (IH _ _ (l1 ++ [sb]) l2 head); rewrite <- ?app_assoc; [by rewrite E1 | | done].
  apply elem_of_cons in Hbp as [->|Hbp]; [by rewrite Hy in Hne | done].
Qed.

(** The buffer is in the list, no window shows it. *)
Lemma dropped_world k kb head lb lb' lw bp : world k lb lw -> (forall x n c, kb !! x = Some (n, c) -> exists n', k_buffers k !! x = Some (n', c)) ->
  listing kb head (k_brk k) lb' -> (forall y, y ∈ lb' <-> y ∈ lb /\ y <> bp) ->
  (forall x n, k_windows k !! x <> Some (n, bp)) ->
  world (Skeleton kb (k_windows k) (k_curbp k) head (k_curwp k) (k_wheadp k) (k_brk k)) lb' lw.
Proof.
  intros [W1 W2 W3 W4 W5] Hkb Hl Hel Hno. split; try done; cbn [k_buffers k_windows].
  - intros x n b Hx. apply Hel. split; [by eapply W3|]. intros ->. by apply (Hno x n).
  - intros x n c Hx. destruct (Hkb _ _ _ Hx) as [n' Hx']. by eapply W5.
Qed.

Lemma wlp_drop_buffer bp s : wlp (modify (fun s => with_buffers (base.delete bp (buffers s)) s)) s
  (fun _ s' => skel s' = on_buffers (base.delete bp) (skel s)).
Proof. apply wlp_modify. unfold skel, on_buffers. simpl. by rewrite fmap_delete. Qed.

Lemma unshown k lb lw bp n : world k lb lw -> k_buffers k !! bp = Some (n, 0) ->
  forall x m, k_windows k !! x <> Some (m, bp).
Proof.
  intros [W1 W2 W3 W4 W5] Hb x m Hx. specialize (W5 _ _ _ Hb).
  assert (x ∈ lw) as Hin by (apply (l_dom _ _ _ _ W2); by eexists).
  pose proof (tally_in _ _ _ _ _ Hin Hx). lia.
Qed.

Lemma delete_buffer_spec s bp n : world_ok s -> k_buffers (skel s) !! bp = Some (n, 0) ->
  wlp (delete_buffer bp) s (fun _ => world_ok).
Proof.
  intros (lb & lw & Hw) Hb. pose proof (unshown _ _ _ _ _ Hw Hb) as Hno. pose proof (w_buffers _ _ _ Hw) as Hl.
  assert (bp ∈ lb) as Hin by (apply (l_dom _ _ _ _ Hl); by eexists).
  unfold delete_buffer. lstep. apply wlp_bind, wlp_assert. intros _. lstep. apply wlp_bind, wlp_read_buffer. intros b Hk s1 E1.
  rewrite Hk in Hb. injection Hb as <- Hcnt. apply wlp_bind. destruct (Z.eqb_spec bp (bheadp s)) as [Hbp|Hne].
  - apply wlp_modify. eapply wlp_mono; [apply wlp_drop_buffer|]. cbn beta. intros _ s2 E2.
    destruct lb as [|x lb]; [by apply elem_of_nil in Hin|].
    assert (x = bp) as -> by (destruct Hl as [[L1 _] _ _ _]; rewrite Hbp; done).
    exists lb, lw. rewrite E2. change (skel (with_bheadp (b_next b) s1)) with (Skeleton (k_buffers (skel s1)) (k_windows (skel s1))
      (k_curbp (skel s1)) (b_next b) (k_curwp (skel s1)) (k_wheadp (skel s1)) (k_brk (skel s1))). rewrite E1.
    change (k_bheadp (skel s)) with (bheadp s) in Hl. rewrite <- Hbp in Hl.
    apply (dropped_world (skel s) _ _ (bp :: lb) lb lw bp Hw); [ | | |done].
    + cbn [k_buffers]. intros x n c Hx. apply lookup_delete_Some in Hx as [_ Hx]. by eexists.
    + by eapply listing_drop_first.
    + intros y. rewrite elem_of_cons. destruct Hl as [_ L2 _ _]. apply NoDup_cons in L2 as [L2 _].
      split; [intros Hy; split; [by right | by intros ->] | by intros [[->|Hy] Hyb]].
  - apply wlp_bind, wlp_with_fuel. intros n2.
    assert (exists l2, lb = [] ++ bheadp s :: l2 /\ bp ∈ l2) as (l2 & Hlb & Hin2).
    { pose proof Hl as [L1 _ _ _]. destruct lb as [|x lb]; [by apply elem_of_nil in Hin|]. destruct L1 as [<- _].
      exists lb. split; [done|]. apply elem_of_cons in Hin as [->|Hin]; [|done]. done. }
    eapply wlp_mono; [apply (before_loop_spec n2 bp (bheadp s) s1 [] l2 (bheadp s)); [rewrite E1, <- Hlb; apply Hl | done|]|].
    { rewrite <- Hlb. intros Hnu. by apply (listing_not_null _ _ _ _ _ Hl Hnu). }
    cbn beta. intros sb s2 (E2 & c & Hsb). rewrite E1 in Hsb. apply wlp_bind, wlp_read_buffer. intros b2 Hk2 s3 E3.
    apply wlp_bind, wlp_assert. intros _. eapply wlp_mono; [apply wlp_set_next|]. cbn beta. intros _ s4 (n4 & c4 & H4 & E4).
    rewrite E3, E2, E1 in *. rewrite Hsb in H4. injection H4 as <- <-.
    eapply wlp_mono; [apply wlp_drop_buffer|]. cbn beta. intros _ s5 E5. rewrite E4 in E5.
    destruct (listing_drop _ _ _ _ sb bp (b_next b) c (b_next b) (b_cnt b) Hl Hsb Hk) as (lb' & Hl' & Hel);
      [by eapply listing_not_null | done|].
    exists lb', lw. rewrite E5. unfold on_buffers. cbn [k_buffers k_windows k_curbp k_bheadp k_curwp k_wheadp k_brk].
    apply (dropped_world (skel s) _ _ lb lb' lw bp Hw); [ | done | done | done].
    intros x n c' Hx. apply lookup_delete_Some in Hx as [_ Hx]. destruct (decide (sb = x)) as [<-|Hsx].
    + rewrite lookup_insert_eq in Hx. injection Hx as _ <-. by eexists.
    + rewrite lookup_insert_ne in Hx by done. by eexists.
Qed.

(** One window shows the current buffer. *)
Definition shown_once (s : editor) : Prop := exists n, k_buffers (skel s) !! k_curbp (skel s) = Some (n, 1).

(** After [next_buffer] no window shows the buffer that was current. *)
Lemma switched_away s s' lb lw bp n c : world (skel s) lb lw -> world (skel s') lb lw -> switched s s' bp -> bp <> curbp s ->
  k_buffers (skel s) !! curbp s = Some (n, c) -> exists n', k_buffers (skel s') !! curbp s = Some (n', c - 1).
Proof.
  intros [W1 W2 W3 W4 W5] [V1 V2 V3 V4 V5] (_ & wn & Ew & Hc) Hne Hb.
  assert (is_Some (k_buffers (skel s') !! curbp s)) as [[n' c'] Hb'].
  { apply (l_dom _ _ _ _ V1), (l_dom _ _ _ _ W1). by eexists. }
  exists n'. rewrite Hb', (V5 _ _ _ Hb'), Ew, (W5 _ _ _ Hb), (tally_update _ _ _ wn (curbp s));
    [|apply (l_dom _ _ _ _ W2); by eexists | apply W2 | done].
  cbn [snd]. rewrite Z.eqb_refl, (proj2 (Z.eqb_neq _ _)) by done. cbn [one_if]. do 2 f_equal. lia.
Qed.

(** From [next_buffer] on. *)
Lemma kill_rest s n c : world_ok s -> k_buffers (skel s) !! curbp s = Some (n, 1) -> c = curbp s ->
  wlp (next_buffer;; c' ← gets curbp; assert_that (negb (c =? c'));; delete_buffer c) s (fun _ => world_ok).
Proof.
  intros (lb & lw & Hw) Hb ->. apply wlp_bind. eapply wlp_mono; [by apply (next_buffer_spec s lb lw)|]. cbn beta.
  intros _ s1 [Hw1 [bp Hs]]. lstep. apply wlp_bind, wlp_assert. intros Hne.
  assert (curbp s1 = bp) as E by (destruct Hs as [Hs _]; exact Hs). rewrite E in Hne.
  apply negb_true_iff, Z.eqb_neq in Hne.
  destruct (switched_away _ _ _ _ _ _ _ Hw Hw1 Hs (not_eq_sym Hne) Hb) as [n' Hb'].
  apply (delete_buffer_spec s1 (curbp s) n'); [by exists lb, lw | done].
Qed.

Lemma killbuffer_spec s : world_ok s -> shown_once s -> wlp killbuffer s (fun _ => world_ok).
Proof.
  intros Hw [n Hb]. unfold killbuffer. lstep. apply wlp_bind, wlp_same; [keep|]. intros bcount s1 E1.
  apply (world_skel _ _ E1) in Hw. assert (curbp s1 = curbp s) as Ec by (change (k_curbp (skel s1) = k_curbp (skel s)); by rewrite E1).
  rewrite <- E1 in Hb. change (k_curbp (skel s1)) with (curbp s1) in Hb. rewrite <- Ec. clear E1 Ec.
  apply wlp_bind, wlp_same; [keep|]. intros b s2 E2. apply (world_skel _ _ E2) in Hw.
  destruct (_ && _); [by apply wlp_ret|]. rewrite <- E2 in Hb. assert (curbp s2 = curbp s1) as Ec
    by (change (k_curbp (skel s2) = k_curbp (skel s1)); by rewrite E2). rewrite <- Ec in *. clear E2 Ec.
  apply wlp_bind, wlp_same; [destruct (negb _); keep|]. intros ok s3 E3. apply (world_skel _ _ E3) in Hw.
  destruct ok; [|by apply wlp_ret]. rewrite <- E3 in Hb. assert (curbp s3 = curbp s2) as Ec
    by (change (k_curbp (skel s3) = k_curbp (skel s2)); by rewrite E3). rewrite <- Ec in *. clear E3 Ec.
  apply wlp_bind. destruct (bcount =? 1); [|apply wlp_ret; by apply (kill_rest s3 n)].
  destruct Hw as (lb & lw & Hw). pose proof (w_buffers _ _ _ Hw) as Hl.
  apply wlp_bind. eapply wlp_mono; [exact (find_buffer_spec _ s3 lb Hl (world_brk _ _ _ Hw))|]. cbn beta.
  intros bp s4 (lb' & Hf). pose proof (found_world _ _ _ _ _ _ Hw Hf) as Hw4.
  apply wlp_same; [keep|]. intros _ s5 E5. destruct Hf as [F1 F2 F3 F4 (F5 & F6 & F7 & F8) F9].
  assert (curbp s5 = curbp s3) as Ec by (change (k_curbp (skel s5) = k_curbp (skel s3)); by rewrite E5).
  assert (curbp s3 ∈ lb) as Hin by (apply (l_dom _ _ _ _ Hl); by eexists).
  assert (is_Some (k_buffers (skel s4) !! curbp s3)) as [[n' c'] Hb'] by (apply (l_dom _ _ _ _ F1), F3, Hin).
  apply (kill_rest s5 n'); [exists lb', lw; by rewrite E5 | | done].
  rewrite E5, Ec, Hb'. destruct (F4 _ _ _ Hb') as [[n4 H4]|[Hno _]]; [|done]. congruence.
Qed.

(** ** The start of the program *)

Lemma start_world k lb bp wp n c : listing (k_buffers k) (k_bheadp k) (k_brk k) lb -> bp ∈ lb -> k_windows k = ∅ -> 0 < k_brk k ->
  (forall x n c, k_buffers k !! x = Some (n, c) -> c = 0) -> k_buffers k !! bp = Some (n, c) -> wp = k_brk k ->
  world (Skeleton (<[bp := (n, c + 1)]> (k_buffers k)) (<[wp := (NULL, bp)]> (k_windows k)) bp (k_bheadp k) wp wp (wp + 1)) lb [wp].
Proof.
  intros Hl Hbp Hw H0 Hc Hb ->. rewrite Hw. split; cbn [k_buffers k_windows k_curbp k_bheadp k_curwp k_wheadp k_brk].
  - eapply listing_limit; [by eapply listing_value | lia].
  - split; [| apply NoDup_singleton | |].
    + split; [done|]. exists NULL, bp. by rewrite lookup_insert_eq.
    + intros x. rewrite lookup_insert_is_Some, list_elem_of_singleton, lookup_empty. split; [intros [->|[_ [? ?]]]; done | by left].
    + intros x. rewrite list_elem_of_singleton. intros ->. lia.
  - intros x n' b. rewrite lookup_insert_Some, lookup_empty. intros [[_ E]|[_ E]]; [|done]. by injection E as _ <-.
  - exists NULL. by rewrite lookup_insert_eq.
  - intros x n' c'. cbn [tally]. unfold tells. rewrite lookup_insert_eq. rewrite (Hc _ _ _ Hb). destruct (decide (bp = x)) as [<-|Hne].
    + rewrite lookup_insert_eq, Z.eqb_refl. intros E. injection E as _ <-. done.
    + rewrite lookup_insert_ne by done. rewrite (proj2 (Z.eqb_neq _ _)) by done. intros Hx. by rewrite (Hc _ _ _ Hx).
Qed.

Lemma initial_listing keys files : listing (k_buffers (skel (initial_editor keys files))) NULL 1 [].
Proof.
  split; [done | constructor | | by intros x Hx%elem_of_nil].
  intros x. unfold skel. simpl. rewrite fmap_empty, lookup_empty. split; [by intros [? ?] | by intros Hx%elem_of_nil].
Qed.

(** What is left after the first buffer is found. *)
Lemma start_rest s lb : listing (k_buffers (skel s)) (bheadp s) (brk s) lb -> curbp s = NULL \/ curbp s ∈ lb ->
  k_windows (skel s) = ∅ -> 0 < brk s -> (forall x n c, k_buffers (skel s) !! x = Some (n, c) -> c = 0) ->
  wlp (wp ← new_window;
    modify (fun s => with_curwp wp (with_wheadp wp s));;
    one_window wp;;
    bp ← gets curbp;
    associate_b2w bp wp;;
    ok ← growgap bp CHUNK;
    if negb ok then fail (Exit 3 "%s: Failed to allocate required memory.\n") else top) s (fun _ => world_ok).
Proof.
  intros Hl Hbp Hw H0 Hc. apply wlp_bind. eapply wlp_mono; [apply new_window_spec|]. cbn beta. intros wp s1 [-> E1]. lstep.
  apply wlp_bind. eapply wlp_mono; [apply one_window_spec|]. cbn beta. intros _ s2 (n2 & b2 & H2 & E2). lstep.
  apply wlp_bind. eapply wlp_mono; [apply associate_spec|]. cbn beta. intros _ s3 (Hn & n & c & wn & wb & H3 & H4 & E3).
  apply wlp_same; [keep; by destruct (negb _); keep|]. intros _ s4 E4. apply (world_skel s3); [done|].
  change (skel (with_curwp (brk s) (with_wheadp (brk s) s1))) with (Skeleton (k_buffers (skel s1)) (k_windows (skel s1))
    (k_curbp (skel s1)) (k_bheadp (skel s1)) (brk s) (brk s) (k_brk (skel s1))) in *.
  rewrite E3, E2, E1 in *. unfold on_windows, on_buffers in *.
  assert (curbp s2 = curbp s) as Ec by (change (k_curbp (skel s2) = k_curbp (skel s)); by rewrite E2). rewrite Ec in *.
  cbn [k_buffers k_windows k_curbp k_bheadp k_curwp k_wheadp k_brk] in *. rewrite lookup_insert_eq in H4. injection H4 as <- <-.
  destruct Hbp as [|Hbp]; [done|]. rewrite !insert_insert_eq in E3.
  exists lb, [brk s]. rewrite E3. by apply (start_world (skel s)).
Qed.

Lemma start_lists argv keys files : wlp (start argv) (initial_editor keys files) (fun _ => world_ok).
Proof.
  set (s := initial_editor keys files). pose proof (initial_listing keys files : listing (k_buffers (skel s)) (bheadp s) (brk s) []) as Hl.
  assert (forall fname (k : Z -> E unit), (forall bp, preserves skel (k bp)) ->
    wlp ((bp ← find_buffer fname true; modify (with_curbp bp);; k bp);; wp ← new_window;
      modify (fun s => with_curwp wp (with_wheadp wp s));; one_window wp;; bp ← gets curbp; associate_b2w bp wp;;
      ok ← growgap bp CHUNK;
      if negb ok then fail (Exit 3 "%s: Failed to allocate required memory.\n") else top) s (fun _ => world_ok)) as Hstart.
  { intros fname k Hk. apply wlp_bind, wlp_bind. eapply wlp_mono; [exact (find_buffer_spec _ s [] Hl (Z.lt_0_1))|]. cbn beta.
    intros bp s1 (lb & [F1 F2 F3 F4 (F5 & F6 & F7 & F8) F9]). lstep. apply wlp_same; [apply Hk|]. intros _ s2 E2.
    assert (skel s2 = on_curbp bp (skel s1)) as E by done. clear E2. apply (start_rest s2 lb).
    - change (bheadp s2) with (k_bheadp (skel s2)). change (brk s2) with (k_brk (skel s2)). by rewrite E.
    - change (curbp s2) with (k_curbp (skel s2)). by rewrite E.
    - rewrite E. cbn [on_curbp k_windows]. rewrite F5. unfold skel, s. simpl. by rewrite fmap_empty.
    - change (brk s2) with (k_brk (skel s2)). rewrite E. cbn [on_curbp k_brk]. change (k_brk (skel s)) with 1 in F9. lia.
    - rewrite E. cbn [on_curbp k_buffers]. intros x n c Hx. destruct (F4 _ _ _ Hx) as [[n' Hx']|[_ Hc]]; [|done].
      unfold skel, s in Hx'. simpl in Hx'. by rewrite fmap_empty, lookup_empty in Hx'. }
  unfold start. destruct argv as [|fname argv].
  - apply (Hstart str_scratch (fun _ => cur (modify (with_bname str_scratch)))). intros _. keep.
  - apply (Hstart fname (fun _ => insert_file fname false;; cur (modify (with_fname (take (Z.to_nat NAME_MAX) fname))))).
    intros _. keep.
Qed.

(** ** A key *)

Lemma match_keys_in {A} (ks : list (list Z * A)) s f : forall sub sub', match_keys ks s sub = (Some f, sub') ->
  exists lhs, (lhs, f) ∈ ks /\ strcmp s lhs = 0.
Proof.
  induction ks as [|[lhs g] ks IH]; intros sub sub'; cbn [match_keys]; [done|].
  destruct (Z.eqb_spec (strcmp s lhs) 0) as [E|].
  - intros Hf. injection Hf as <- _. exists lhs. split; [by left | done].
  - intros Hf. destruct (IH _ _ Hf) as (l & Hl & Hs). exists l. split; [by right | done].
Qed.

Lemma getkey_in {A} (ks : list (list Z * A)) s :
  wlp (getkey ks) s (fun r _ => match r with (Some f, _) => exists lhs, (lhs, f) ∈ ks | (None, _) => True end).
Proof.
  unfold getkey. apply wlp_with_fuel. intros n. generalize ([] : list Z) as buf. revert s.
  induction n as [|n IH]; intros s buf; cbn [getkey_loop]; [apply wlp_fail|].
  apply wlp_bind, wlp_assert. intros _. apply wlp_bind, wlp_same; [apply getch_skel|]. intros c s1 _. cbn beta zeta.
  apply wlp_bind. destruct (_ <? K_BUFFER_LENGTH); [apply wlp_ret | apply wlp_fail].
  destruct (match_keys _ _ _) as [[f|] sub] eqn:E.
  - apply wlp_ret. destruct (match_keys_in _ _ _ _ _ E) as (lhs & Hl & _). by exists lhs.
  - destruct sub; [apply IH | by apply wlp_ret].
Qed.

(** Every command of the table keeps the lists. *)
Lemma keymap_ok : Forall (fun e => forall s, world_ok s -> (e.2 = killbuffer -> shown_once s) -> wlp e.2 s (fun _ => world_ok)) keymap.
Proof.
  assert (forall p : E unit, preserves skel p -> forall s, world_ok s -> wlp p s (fun _ => world_ok)) as Hkept.
  { intros p Hp s Hw. apply wlp_same; [done|]. intros _ s' E. by apply (world_skel s). }
  assert (forall s, world_ok s -> wlp next_buffer s (fun _ => world_ok)) as Hnext.
  { intros s (lb & lw & Hw). eapply wlp_mono; [by apply (next_buffer_spec s lb lw)|]. cbn beta. intros _ s' [Hw' _]. by exists lb, lw. }
  unfold keymap. repeat (apply Forall_cons; split; [cbn [snd]; intros s Hw Hk|]); [.. | apply Forall_nil; done];
    first [ by apply readfile_spec | by apply split_window_spec | by apply next_window_spec | by apply delete_other_windows_spec
          | by apply Hnext | (apply killbuffer_spec; [done | by apply Hk]) | (apply Hkept; [unfold cut, copy_; keep | done]) ].
Qed.

(** ** The states of the main loop *)

(** The function of the key, or [insert]. *)
Definition chosen (key_return : option (E unit)) : E unit :=
  match key_return with Some func => func | None => insert_ end.

(** A state of the main loop: [killbuffer] is called on a buffer that one window shows. *)
Inductive reaches (argv : list (list Z)) (keys : nat -> Z) (files : gmap (list Z) (list Z)) : editor -> Prop :=
| reaches_start fuel s : start argv fuel (initial_editor keys files) = Ok tt s -> reaches argv keys files s
| reaches_turn fuel s s1 s2 key_return c s3 : reaches argv keys files s -> done s = false ->
    update_display fuel s = Ok tt s1 -> getkey keymap fuel s1 = Ok (key_return, c) s2 ->
    (key_return = Some killbuffer -> shown_once s2) ->
    chosen key_return fuel (with_input c s2) = Ok tt s3 -> reaches argv keys files s3.

Lemma reaches_world_ok argv keys files s : reaches argv keys files s -> world_ok s.
Proof.
  induction 1 as [fuel s Hs | fuel s s1 s2 r c s3 Hr IH Hd H1 H2 Hk H3].
  - exact (start_lists argv keys files _ _ _ Hs).
  - assert (skel s1 = skel s) as E1 by exact (update_display_skel s fuel tt s1 H1).
    assert (skel s2 = skel s1) as E2 by exact (getkey_skel keymap s1 fuel _ s2 H2).
    assert (world_ok (with_input c s2)) as Hw by (apply (world_skel s); [|done]; transitivity (skel s1); done).
    pose proof (getkey_in keymap s1 fuel _ s2 H2) as Hin. destruct r as [f|]; cbn beta iota in Hin; cbn [chosen] in H3.
    + destruct Hin as [lhs Hin]. pose proof keymap_ok as Hok. rewrite Forall_forall in Hok.
      refine (Hok _ Hin (with_input c s2) Hw _ _ _ _ H3). cbn [snd]. intros ->. by apply Hk.
    + apply (world_skel (with_input c s2)); [|done]. exact (insert_skel _ fuel tt s3 H3).
Qed.

End reach.
