(* ===== verification/AttoReplace.v ===== *)
(** * Atto: replacing (src/editors/atto/replace.c)

    [query_replace], once it is told to go on without asking, replaces every
    occurrence behind the point, from left to right; the text it has put in is
    not searched again, so it ends. *)

From Stdlib Require Import ZArith Lia.
From stdpp Require Import base numbers list gmap strings.
From S2P Require Import Prelude Atto AttoGap AttoLines AttoEdit AttoSpec AttoSearch AttoDisplay AttoBuffers AttoFiles AttoKeys.

Open Scope Z_scope.

(** The text with [r] in place of what lies from [p] to [q]. *)
Definition replaced_at (p q : Z) (r t : list Z) : list Z := take (Z.to_nat p) t ++ r ++ drop (Z.to_nat q) t.

Lemma put_remove p q r t : 0 <= p <= q -> q <= Z.of_nat (length t) -> put p r (remove p q t) = replaced_at p q r t.
Proof.
  intros Hp Hq. unfold put, remove, replaced_at.
  by rewrite take_app_length', drop_app_length' by (rewrite length_take; lia).
Qed.

Lemma length_replaced_at p q r t : 0 <= p <= q -> q <= Z.of_nat (length t) ->
  Z.of_nat (length (replaced_at p q r t)) = Z.of_nat (length t) + Z.of_nat (length r) - (q - p).
Proof. intros Hp Hq. unfold replaced_at. rewrite !length_app, length_take, length_drop. lia. Qed.

(** Room for one substitution: a longer text needs a gap that is longer than the difference,
    a text of the same length is written where [ptr] says, which is right if the gap is not behind the point. *)
Definition fits (b : buffer) (slen rlen : Z) : Prop :=
  (slen < rlen -> rlen - slen < room b) /\ (slen = rlen -> b_gap b <= b_point b).

Lemma wp_bind_bind {S A B C} (p : nat -> prog S A) (f : nat -> A -> prog S B) (g : nat -> B -> prog S C) s Q :
  wp (fun n => p n ≫= (fun a => f n a ≫= g n)) s Q -> wp (fun n => (p n ≫= f n) ≫= g n) s Q.
Proof. apply wp_ext. intros n fuel. unfold mbind, prog_bind. by destruct (p n fuel s). Qed.

Section replace.
Context `{machine}.

(** *** One substitution *)

(** The new text is written over the old one, the gap is behind it. *)
Lemma wp_write_gap b p found r : edit_ok b -> b_gap b = found -> b_point b = p -> p <= found -> Forall byte r ->
  Z.of_nat (length r) <= room b + (found - p) ->
  wp (fun _ => b ← get_state; store_block (ptr b (b_point b)) r;; modify set_modified;; modify (with_point (p + Z.of_nat (length r))))
    (with_gap (p + Z.of_nat (length r)) b) (fun _ b' => edit_ok b' /\
      view b' = (replaced_at p found r (text b), p + Z.of_nat (length r), b_mark b, Z.lor (b_flags b) B_MODIFIED) /\
      b_gap b' = p + Z.of_nat (length r) /\ b_egap b' = b_egap b /\ b_ebuf b' = b_ebuf b).
Proof.
  intros [Hb H2 H3 H4 H5] Hg Hpt Hpf Hr Hroom. pose proof Hb as [G1 G2 G3]. pose proof (gap_le_size b Hb) as Hsz.
  set (n := Z.of_nat (length r)) in *. wstep. set (b3 := with_gap (p + n) b). change (b_point b3) with (b_point b). rewrite Hpt.
  set (c := with_gap p b). assert (buffer_ok c) as Hc by (split; [simpl; lia | done | done]).
  assert (text c = remove p found (text b)) as Et.
  { unfold remove. rewrite <- Hg. pose proof (text_drop b 0 Hb) as Hd. rewrite !Nat.add_0_r in Hd. rewrite Hd.
    pose proof (text_take b Hb) as Ht. apply (f_equal (take (Z.to_nat p))) in Ht.
    rewrite !take_take, !Nat.min_l in Ht by lia. by rewrite Ht. }
  assert (Z.of_nat (length r) <= room c) as Hrc by (unfold room in *; simpl; lia).
  pose proof (text_put c r Hc Hrc) as Etp. pose proof (put_ok c r Hc Hrc Hr) as Hok. simpl b_gap in Etp, Hok. fold n in Etp, Hok.
  rewrite Et, put_remove in Etp by (unfold size in *; lia).
  set (d := with_gap (p + n) (with_mem (splice (Z.to_nat p) r (b_mem c)) c)) in *.
  assert (b_ebuf d = b_ebuf b) as Ed.
  { unfold d, b_ebuf. simpl. rewrite length_splice; [done|]. unfold room, b_ebuf in *. simpl in Hrc. lia. }
  apply wp_bind. assert (wp (fun _ => store_block (ptr b3 p) r) b3 (fun _ b' => b' = d)) as Hst.
  { destruct (decide (n = 0)) as [E0|E0].
    - assert (r = []) as -> by (by destruct r). apply wp_ret. unfold d, splice. simpl. rewrite Nat.add_0_r, take_drop. by destruct b.
    - assert (ptr b3 p = p) as ->.
      { unfold ptr. rewrite (proj2 (Z.ltb_ge p 0)) by lia. simpl b_gap. rewrite (proj2 (Z.ltb_lt p (p + n))) by lia. lia. }
      apply wp_store_block; [lia | fold n; unfold room, b_ebuf in *; simpl; lia | done | done]. }
  eapply wp_mono; [exact Hst|]. cbn beta. intros _ b' ->. wstep. apply wp_modify.
  assert (size d = Z.of_nat (length (text d))) as Esz by done. rewrite Etp, length_replaced_at in Esz by (unfold size in *; lia).
  split; [|split; [|done]].
  - apply (edit_at (p + n) (set_modified d)); [by destruct Hok | by rewrite <- Ed in H2 | by rewrite <- Ed in H3 | exact H5 |].
    change (size (set_modified d)) with (size d). unfold size in *. lia.
  - unfold view. change (text (with_point _ (set_modified d))) with (text d). by rewrite Etp.
Qed.

Lemma splice_drop k e r (mem : list Z) : (e + k + length r <= length mem)%nat ->
  drop e (splice (e + k) r mem) = splice k r (drop e mem).
Proof.
  intros Hl. unfold splice. rewrite drop_app_le by (rewrite length_take; lia).
  rewrite skipn_firstn_comm, drop_drop. replace (e + k - e)%nat with k by lia. do 3 f_equal. lia.
Qed.

Lemma splice_app k r (t1 t2 : list Z) : splice (length t1 + k) r (t1 ++ t2) = t1 ++ splice k r t2.
Proof.
  unfold splice. rewrite take_app_add, <- app_assoc, <- Nat.add_assoc, drop_app_add. done.
Qed.

(** The new text is as long as the old one, and the gap is before it. *)
Lemma wp_write_over b r found : edit_ok b -> b_gap b <= b_point b -> found = b_point b + Z.of_nat (length r) -> found <= size b ->
  Forall byte r ->
  wp (fun _ => b ← get_state; store_block (ptr b (b_point b)) r;; modify set_modified;; modify (with_point found)) b
    (fun _ b' => edit_ok b' /\ view b' = (replaced_at (b_point b) found r (text b), found, b_mark b, Z.lor (b_flags b) B_MODIFIED) /\
      b_gap b' = b_gap b /\ b_egap b' = b_egap b /\ b_ebuf b' = b_ebuf b).
Proof.
  intros [Hb H2 H3 H4 H5] Hg -> Hf Hr. pose proof Hb as [G1 G2 G3]. pose proof (size_eq b Hb) as Es. set (p := b_point b) in *.
  wstep. fold p. assert (ptr b p = b_egap b + (p - b_gap b)) as ->.
  { unfold ptr. rewrite (proj2 (Z.ltb_ge p 0)), (proj2 (Z.ltb_ge p (b_gap b))) by lia. lia. }
  unfold room, b_ebuf in *. apply wp_bind, wp_store_block; [lia | unfold b_ebuf; lia | done |]. wstep. apply wp_modify.
  set (q := Z.to_nat (b_egap b + (p - b_gap b))). set (d := with_mem _ b).
  assert (length (splice q r (b_mem b)) = length (b_mem b)) as El by (apply length_splice; lia).
  assert (text d = replaced_at p (p + Z.of_nat (length r)) r (text b)) as Et.
  { assert (replaced_at p (p + Z.of_nat (length r)) r (text b) = splice (Z.to_nat p) r (text b)) as ->
      by (unfold replaced_at, splice; do 3 f_equal; lia).
    unfold d, text. simpl. set (k := Z.to_nat (p - b_gap b)).
    assert (q = Z.to_nat (b_egap b) + k)%nat as Eq by lia. rewrite Eq, splice_drop by lia.
    assert (take (Z.to_nat (b_gap b)) (splice (Z.to_nat (b_egap b) + k) r (b_mem b)) = take (Z.to_nat (b_gap b)) (b_mem b)) as ->.
    { unfold splice. rewrite take_app_le by (rewrite length_take; lia). rewrite take_take. f_equal. lia. }
    rewrite <- splice_app. f_equal. rewrite length_take. lia. }
  assert (buffer_ok d) as Hd.
  { split; [done | unfold b_ebuf; simpl; lia |]. unfold d, splice. simpl. apply Forall_app. split; [by apply Forall_take|].
    apply Forall_app. split; [done | by apply Forall_drop]. }
  assert (b_ebuf d = b_ebuf b) as Ed by (unfold b_ebuf; simpl; lia).
  split; [|split; [|split; [done | split; [done | unfold b_ebuf; simpl; lia]]]].
  - apply (edit_at _ (set_modified d)); [by destruct Hd | change (0 < b_ebuf d); unfold b_ebuf in *; lia
      | change (int64 (b_ebuf d)); rewrite Ed; exact H3 | exact H5 |].
    change (size (set_modified d)) with (Z.of_nat (length (text d))). rewrite Et, length_replaced_at; unfold size in *; lia.
  - unfold view. change (text (with_point _ (set_modified d))) with (text d). by rewrite Et.
Qed.

(** Memory is there. *)
Lemma wp_growgap_ok s b n : buffers s !! curbp s = Some b -> edit_ok b -> (forall m, alloc_ok m = true) -> 0 <= n <= MIN_GAP_EXPAND ->
  int64 (b_ebuf b + MIN_GAP_EXPAND) ->
  wp (fun _ => growgap (curbp s) n) s (fun r s' => r = true /\ exists b', s' = set_cur b' s /\ grown MIN_GAP_EXPAND b b').
Proof.
  intros Hb [Hb1 H2 H3 H4 H5] Ha Hn Hi. unfold growgap. apply wp_bind. eapply wp_at_buffer; [exact Hb|].
  assert (newlen b n = b_ebuf b + MIN_GAP_EXPAND) as En by (unfold newlen, MIN_GAP_EXPAND in *; lia).
  eapply wp_mono; [apply wp_growgap_body; [done | by rewrite En | apply Ha]|]. cbn beta. intros r b' (-> & Hg).
  apply wp_ret. split; [done|]. exists b'. split; [done|]. by rewrite Z.max_l in Hg by lia.
Qed.

(** What [substitute] leaves of the text from the point to [found]. *)
Definition substituted (b : buffer) (found : Z) (r : list Z) (b' : buffer) : Prop :=
  edit_ok b' /\
  view b' = (replaced_at (b_point b) found r (text b), b_point b + Z.of_nat (length r), b_mark b, Z.lor (b_flags b) B_MODIFIED) /\
  b_ebuf b' <= b_ebuf b + MIN_GAP_EXPAND /\ fits b' (found - b_point b) (Z.of_nat (length r)).

Lemma wp_substitute s b found slen r : buffers s !! curbp s = Some b -> edit_ok b -> (forall m, alloc_ok m = true) ->
  found = b_point b + slen -> 0 <= slen -> found <= size b -> Forall byte r -> Z.of_nat (length r) <= MIN_GAP_EXPAND ->
  fits b slen (Z.of_nat (length r)) -> int64 (b_ebuf b + MIN_GAP_EXPAND) ->
  wp (fun _ => substitute found slen r) s (fun _ s' => exists b', s' = set_cur b' s /\ substituted b found r b').
Proof.
  intros Hb Hok Ha Ef Hs0 Hf Hr Hlen [Hf1 Hf2] Hi. pose proof Hok as [Hbo H2 H3 H4 H5]. unfold substitute.
  set (n := Z.of_nat (length r)) in *. set (p := b_point b) in *.
  assert (forall b1 s1, s1 = set_cur (with_gap (p + n) b1) s -> edit_ok b1 -> view b1 = view b -> b_gap b1 = found ->
    n <= room b1 + slen -> b_ebuf b1 <= b_ebuf b + MIN_GAP_EXPAND -> slen <> n -> (slen < n -> n - slen < room b1 + slen - n) ->
    wp (fun _ => cur (b ← get_state; store_block (ptr b (b_point b)) r;; modify set_modified;;
      modify (with_point (found - (slen - n))))) s1 (fun _ s' => exists b', s' = set_cur b' s /\ substituted b found r b')) as Hgap.
  { intros b1 s1 -> Hok1 Hv Hg Hroom Heb Hne Hfit. destruct (view_parts _ _ Hv) as (Et & Ep & Em & Efl & _). fold p in Ep.
    eapply wp_cur; [apply lookup_set_cur|]. replace (found - (slen - n)) with (p + n) by lia.
    eapply wp_mono; [apply (wp_write_gap b1 p found r); [done | done | done | lia | done | fold n; lia]|]. cbn beta.
    intros _ b' (Hok' & Hv' & Hg' & He' & Eb'). rewrite set_cur_twice. exists b'. split; [done|].
    split; [done|]. split; [by rewrite Hv', Et, Em, Efl|]. split; [lia|]. fold p n. replace (found - p) with slen by lia.
    fold n in Hg'. split; [|lia]. intros Hlt. specialize (Hfit Hlt). unfold room in *. lia. }
  pose proof (size_eq b Hbo) as Es. pose proof Hbo as [G1 G2 G3].
  assert (forall k : E unit, (forall b1, edit_ok b1 -> view b1 = view b -> b_gap b1 = found -> room b1 = room b -> b_ebuf b1 = b_ebuf b ->
    wp (fun _ => k) (set_cur b1 s) (fun _ s' => exists b', s' = set_cur b' s /\ substituted b found r b')) ->
    wp (fun _ => cur (movegap found);; k) s (fun _ s' => exists b', s' = set_cur b' s /\ substituted b found r b')) as Hmove.
  { intros k Hk. apply wp_bind. eapply wp_cur; [exact Hb|]. eapply wp_mono; [apply wp_movegap; [done | lia]|]. cbn beta.
    intros _ b1 (_ & Hg). destruct (gap_at_edit _ _ _ Hok Hg) as (Hok1 & Hv1 & Hg1 & Hr1 & He1). by apply Hk. }
  destruct (Z.ltb_spec slen n) as [Hlt|Hge]; [|destruct (Z.ltb_spec n slen) as [Hlt|Hge']].
  - apply wp_bind_bind, Hmove. intros b1 Hok1 Hv1 Hg1 Hr1 He1. specialize (Hf1 Hlt).
    apply wp_bind. eapply wp_read_cur; [apply lookup_set_cur|]. wstep. fold (room b1). rewrite (proj2 (Z.ltb_lt (n - slen) _)) by lia.
    eapply (wp_call _ _ _ (fun _ s2 => exists b2, s2 = set_cur b2 (set_cur b1 s) /\ grown MIN_GAP_EXPAND b1 b2));
      [eapply wp_call; [apply (wp_growgap_ok (set_cur b1 s) b1 (n - slen) (lookup_set_cur _ _) Hok1 Ha);
      [unfold MIN_GAP_EXPAND in *; lia | by rewrite He1]|]|].
    { cbn beta. intros a s2 (-> & H'). apply wp_ret. exact H'. }
    cbn beta. intros _ s2 (b2 & -> & Hgr). rewrite set_cur_twice.
    destruct (grown_edit MIN_GAP_EXPAND b1 b2 Hok1) as (Hok2 & Hv2 & Hr2); [by rewrite He1 | done | done |].
    assert (b_gap b2 = found /\ b_ebuf b2 = b_ebuf b + MIN_GAP_EXPAND) as [Hg2 He2].
    { destruct Hgr as ((mem & -> & Hl) & _). unfold b_ebuf in *. simpl. lia. }
    eapply wp_cur; [apply lookup_set_cur|]. apply wp_modify. rewrite set_cur_twice, Hg2.
    replace (found + (n - slen)) with (p + n) by lia.
    apply (Hgap b2); [done | done | congruence | done | unfold MIN_GAP_EXPAND in *; lia..].
  - apply wp_bind_bind, Hmove. intros b1 Hok1 Hv1 Hg1 Hr1 He1.
    apply wp_bind. eapply wp_cur; [apply lookup_set_cur|]. apply wp_modify. rewrite set_cur_twice, Hg1.
    replace (found - (slen - n)) with (p + n) at 1 by lia. unfold room in *.
    apply (Hgap b1); [done.. | unfold room; lia | unfold MIN_GAP_EXPAND in *; lia | lia | lia].
  - wstep. assert (slen = n) as E by lia. specialize (Hf2 E). eapply wp_cur; [exact Hb|].
    replace (found - (slen - n)) with found by lia.
    eapply wp_mono; [apply (wp_write_over b r found); [done | done | unfold n in *; lia | done | done]|]. cbn beta.
    intros _ b' (Hok' & Hv' & Hg' & He' & Eb'). exists b'. split; [done|]. split; [done|]. fold p n.
    split; [rewrite Hv'; do 3 f_equal; lia|]. split; [unfold MIN_GAP_EXPAND; lia|]. split; [lia|]. intros _.
    assert (b_point b' = found) as -> by (unfold view in Hv'; congruence). lia.
Qed.

(** *** All of them *)

(** From [p] on every occurrence of [st], from left to right, is replaced; [l] is where the last one was
    ([l0] before the first), [n] how many there were. *)
Inductive replaced_all (st r : list Z) : list Z -> Z -> Z -> list Z -> Z -> Z -> Prop :=
| replaced_none t p l0 : (forall q, p <= q -> ~ occurs t st q) -> replaced_all st r t p l0 t l0 0
| replaced_one t p l0 q t' l n : p <= q -> occurs t st q -> (forall q', p <= q' < q -> ~ occurs t st q') ->
    replaced_all st r (replaced_at q (q + Z.of_nat (length st)) r t) (q + Z.of_nat (length r)) q t' l n ->
    replaced_all st r t p l0 t' l (n + 1).

Lemma view_at_point b p : view (with_point p b) = (text b, p, b_mark b, b_flags b).
Proof. done. Qed.

Lemma fits_at_point b p x y : b_point b <= p -> fits b x y -> fits (with_point p b) x y.
Proof. intros Hp [F1 F2]. split; [exact F1|]. intros E. specialize (F2 E). simpl. lia. Qed.

Lemma wp_cur_same {A} (p : B A) b s (P : A -> Prop) : buffers s !! curbp s = Some b ->
  wp (fun _ => p) b (fun a b' => P a /\ b' = b) -> wp (fun _ => cur p) s (fun a s' => P a /\ s' = s).
Proof.
  intros Hb Hp. eapply wp_cur; [exact Hb|]. eapply wp_mono; [exact Hp|]. cbn beta. intros a b' (Ha & ->).
  split; [done | by apply set_cur_same].
Qed.

Lemma wp_replace_loop st r o : is_Some behind -> (forall m, alloc_ok m = true) -> ascii st -> st <> [] -> Forall byte r ->
  Z.of_nat (length r) <= MIN_GAP_EXPAND -> forall k s b l num, (Z.to_nat (size b - b_point b) <= k)%nat ->
  buffers s !! curbp s = Some b -> edit_ok b -> fits b (Z.of_nat (length st)) (Z.of_nat (length r)) ->
  int64 (b_ebuf b + MIN_GAP_EXPAND * (size b - b_point b + 1)) -> 0 <= (if l =? -1 then o else l) <= size b ->
  wp (fun m => replace_loop m st r o l num false) s (fun res s' => exists b' l' n, s' = set_cur b' s /\ edit_ok b' /\
    replaced_all st r (text b) (b_point b) l (text b') l' n /\ res = Some (num + n) /\
    b_point b' = if l' =? -1 then o else l').
Proof.
  intros Hbh Ha Has Hst Hr Hlen. induction k as [k IH] using lt_wf_ind. intros s b l num Hk Hb Hok Hfit Hi Hl.
  pose proof Hok as [Hbo He Hi0 Hp Hm].
  assert (0 < Z.of_nat (length st)) as Hst0 by (destruct st; [done | simpl; lia]).
  eapply wp_unfold; [intros m; reflexivity|]. cbn [replace_loop].
  eapply wp_call; [eapply wp_cur_same; [exact Hb | exact (wp_search_forward b st Hbh Hok Has Hst)]|].
  cbn beta. intros found s1 ([(q & Hq & Ho & -> & Hfirst) | [-> Hno]] & ->).
  - pose proof (occurs_len (text b) st q ltac:(lia) Hst Ho) as Hql. fold (size b) in Hql.
    rewrite (proj2 (Z.eqb_neq _ (-1))) by lia. cbv zeta. apply wp_bind. eapply wp_cur; [exact Hb|]. apply wp_modify.
    replace (q + Z.of_nat (length st) - Z.of_nat (length st)) with q by lia.
    wstep. set (b1 := with_point q b). assert (edit_ok b1) as Hok1 by (apply edit_with_point; [done | lia]).
    apply wp_bind. eapply wp_cur; [apply lookup_set_cur|]. apply wp_gets. rewrite set_cur_twice. cbn beta.
    change (b_point b1) with q.
    eapply wp_call; [apply (wp_substitute (set_cur b1 s) b1 _ _ r (lookup_set_cur _ _) Hok1 Ha eq_refl); [lia | exact Hql | done | done | |]|].
    { by apply fits_at_point. }
    { change (b_ebuf b1) with (b_ebuf b). unfold int64, MIN_GAP_EXPAND in *. lia. }
    cbn beta. intros _ s2 (b2 & -> & Hok2 & Hv2 & He2 & Hfit2). rewrite set_cur_twice.
    unfold view in Hv2. change (b_point b1) with q in *. change (text b1) with (text b) in *. change (b_ebuf b1) with (b_ebuf b) in *.
    injection Hv2 as Et2 Ep2 _ _. replace (q + Z.of_nat (length st) - q) with (Z.of_nat (length st)) in Hfit2 by lia.
    assert (size b2 = size b + Z.of_nat (length r) - Z.of_nat (length st)) as Es2.
    { unfold size in *. rewrite Et2, length_replaced_at; lia. }
    eapply wp_mono; [apply (IH (Z.to_nat (size b2 - b_point b2)) ltac:(lia) (set_cur b2 s) b2 q (num + 1));
      [lia | apply lookup_set_cur | done | done | pose proof (edit_block _ Hok2); unfold int64, MIN_GAP_EXPAND in *; lia | destruct (Z.eqb_spec q (-1)); lia]|].
    cbn beta. intros res s' (b' & l' & n & -> & Hok' & Hall & -> & Hp'). exists b', l', (n + 1). rewrite set_cur_twice.
    split; [done|]. split; [done|]. split; [|split; [f_equal; lia | done]].
    rewrite Et2, Ep2 in Hall. by apply (replaced_one st r (text b) (b_point b) l q).
  - rewrite Z.eqb_refl. apply wp_bind. eapply wp_cur; [exact Hb|]. apply wp_modify, wp_ret.
    set (p' := if l =? -1 then o else l) in *. exists (with_point p' b), l, 0. split; [done|].
    split; [by apply edit_with_point|]. split; [by constructor|]. split; [f_equal; lia | done].
Qed.

End replace.
