(* ===== verification/AttoStore.v ===== *)
(** * Atto: saving and loading (src/editors/atto/gap.c)

    [save] writes the text, [insert_file] puts the bytes of a file behind the point, [load_file] makes
    them the text: what is saved and loaded again is the same text. *)

From Stdlib Require Import ZArith Lia.
From stdpp Require Import base numbers list gmap strings.
From S2P Require Import Prelude Atto AttoGap AttoLines AttoEdit AttoSpec AttoDisplay AttoBuffers AttoFiles.

Open Scope Z_scope.

Section store.
Context `{machine}.

(** What a program may do to the state but for the files and the current buffer: the message line. *)
Definition now (b : buffer) (fs : gmap (list Z) (list Z)) (s s' : editor) : Prop :=
  buffers s' !! curbp s' = Some b /\ files s' = fs /\ curbp s' = curbp s /\ windows s' = windows s /\ curwp s' = curwp s.

Lemma now_set_cur b fs s s' : now b fs s s' -> forall b', now b' fs s (set_cur b' s').
Proof. intros (H1 & H2 & H3 & H4 & H5) b'. split; [apply lookup_set_cur | done]. Qed.

Lemma now_told m b fs s s' : now b fs s s' -> now b fs s (told m s').
Proof. done. Qed.

Lemma load_all b : b_gap b = 0 -> text b = drop (Z.to_nat (b_egap b)) (b_mem b).
Proof. intros E. unfold text. by rewrite E. Qed.

(** *** [save] *)

(** A save that fails changes the text of no buffer; the file may be cut short. *)
Lemma wp_save s b fn : buffers s !! curbp s = Some b -> edit_ok b ->
  wp (fun _ => save fn) s (fun r s' =>
    if posix_file fn && can_write fn then
      exists b', edit_ok b' /\ r = (Z.of_nat (length (take (written (text b)) (text b))) =? size b) && can_close fn /\
        now b' (<[fn := take (written (text b)) (text b)]> (files s)) s s' /\
        view b' = (text b, b_point b, b_mark b, if r then Z.ldiff (b_flags b) B_MODIFIED else b_flags b)
    else r = false /\ now b (files s) s s').
Proof.
  intros Hb Hok. pose proof Hok as [Hbo _ _ Hp _]. unfold save.
  destruct (posix_file fn); cbn [negb andb]; [|apply wp_bind, wp_msg, wp_ret; done].
  destruct (can_write fn); cbn [negb]; [|apply wp_bind, wp_msg, wp_ret; done].
  wstep. set (s1 := with_files _ s). assert (buffers s1 !! curbp s1 = Some b) as Hb1 by done.
  apply wp_bind. eapply wp_cur; [exact Hb1|]. eapply wp_mono; [apply wp_movegap; [done | unfold size; lia]|]. cbn beta.
  intros _ b1 (_ & Hg). destruct (gap_at_edit _ _ _ Hok Hg) as (Hok1 & Hv1 & Hg1 & Hr1 & He1).
  destruct (view_parts _ _ Hv1) as (Et & Ep & Em & Ef & Es). pose proof Hok1 as [Hbo1 Hbl Hi1 Hp1 Hm1]. pose proof Hbo1 as [G1 G2 G3].
  eapply wp_read_cur; [apply lookup_set_cur|]. cbv zeta.
  assert (b_ebuf b1 - b_egap b1 = size b) as El by (rewrite <- Es, size_eq by done; unfold room; lia).
  apply wp_bind. eapply wp_cur; [apply lookup_set_cur|]. apply wp_load_block; [lia | lia|]. rewrite set_cur_twice.
  assert (take (Z.to_nat (b_ebuf b1 - b_egap b1)) (drop (Z.to_nat (b_egap b1)) (b_mem b1)) = text b) as ->.
  { rewrite <- load_all, Et by done. apply take_ge. rewrite El. unfold size. lia. }
  wstep. rewrite El. set (out := take _ _). set (s2 := with_files _ (set_cur b1 s1)).
  assert (now b1 (<[fn := out]> (files s)) s s2) as Hn.
  { unfold s2, s1, now. simpl. rewrite insert_insert_eq. split; [by rewrite lookup_insert_eq | done]. }
  clearbody s2. pose proof Hn as (Hb2 & Hfs & Hcb & Hws & Hcw).
  destruct (Z.of_nat (length out) =? size b); cbn [negb andb].
  2: { apply wp_bind, wp_msg, wp_ret. exists b1. split; [done|]. split; [done|]. split; [done|]. exact Hv1. }
  destruct (can_close fn); cbn [negb].
  2: { apply wp_bind, wp_msg, wp_ret. exists b1. split; [done|]. split; [done|]. split; [done|]. exact Hv1. }
  apply wp_bind. eapply wp_cur; [exact Hb2|]. apply wp_modify. set (b2 := with_flags _ b1).
  assert (buffer_ok b2) as Hbo2 by (by split).
  apply wp_bind. eapply wp_cur; [apply lookup_set_cur|]. apply wp_end_pos; [done|]. rewrite set_cur_twice.
  apply wp_bind, wp_msg, wp_ret. exists b2. split; [by split|]. split; [done|].
  split; [apply now_told; by eapply now_set_cur|]. unfold view. change (text b2) with (text b1). simpl. congruence.
Qed.

(** *** [insert_file] *)

(** The buffers a file can be read into: the block may be NULL still. *)
Record room_ok (b : buffer) : Prop := {
  room_buffer : buffer_ok b;
  room_point : 0 <= b_point b <= size b;
  room_mark : b_mark b = NOMARK \/ 0 <= b_mark b
}.

Lemma wp_growgap_now s b n : buffers s !! curbp s = Some b -> buffer_ok b -> (forall m, alloc_ok m = true) ->
  int64 (b_ebuf b + Z.max MIN_GAP_EXPAND n) ->
  wp (fun _ => growgap (curbp s) n) s (fun r s' => r = true /\ exists b', s' = set_cur b' s /\ grown (Z.max MIN_GAP_EXPAND n) b b').
Proof.
  intros Hb Hok Ha Hi. unfold growgap. apply wp_bind. eapply wp_at_buffer; [exact Hb|].
  eapply wp_mono; [apply wp_growgap_body; [done | exact Hi | apply Ha]|]. cbn beta. intros r b' (-> & Hg).
  apply wp_ret. split; [done|]. by exists b'.
Qed.

(** The bytes go into the gap at the point, which stays before them. *)
Lemma wp_fill b data : room_ok b -> Z.of_nat (length data) <= room b -> Forall byte data ->
  wp (fun _ => point ← gets b_point; r ← movegap point; modify (with_point r);; undoset;; gap ← gets b_gap;
      store_block gap data;; modify (fun b => with_gap (b_gap b + Z.of_nat (length data)) b)) b
    (fun _ b' => room_ok b' /\ view b' = (put (b_point b) data (text b), b_point b, b_mark b, b_flags b) /\ b_ebuf b' = b_ebuf b).
Proof.
  intros [Hb Hp Hm] Hl Hd. wstep. eapply wp_call; [by apply wp_movegap|]. cbn beta. intros r b1 (-> & ((mem & -> & Hlen) & Et & Hb1)).
  set (b1 := with_mem _ _) in *. wstep. unfold undoset. wstep. wstep. set (b2 := with_ubuf _ _).
  assert (buffer_ok b2) as Hb2 by (destruct Hb1; by split).
  assert (room b2 = room b) as Er by (unfold room, b2, b1; simpl; unfold room; lia).
  assert (text b2 = text b) as Et2 by exact Et. assert (b_gap b2 = b_point b) as Eg by done. change (b_gap b2) with (b_point b).
  pose proof Hb2 as [G1 G2 G3]. pose proof (text_put b2 data Hb2 ltac:(lia)) as Ep. pose proof (put_ok b2 data Hb2 ltac:(lia) Hd) as Hok.
  apply wp_bind, wp_store_block; [lia | unfold room, b_ebuf in *; lia | done |]. apply wp_modify.
  change (b_gap (with_mem _ b2)) with (b_point b).
  rewrite Eg, Et2 in Ep. rewrite Eg in Hok. set (b3 := with_gap (b_point b + Z.of_nat (length data)) _) in *.
  assert (size b3 = size b + Z.of_nat (length data)) as Es by (unfold size in *; rewrite Ep, put_length; lia).
  split; [split; [done | change (b_point b3) with (b_point b); lia | done]|]. split; [unfold view; by rewrite Ep|].
  unfold b_ebuf, b3. simpl. rewrite length_splice; [exact (f_equal Z.of_nat Hlen)|]. unfold room, b_ebuf in *. simpl in *. lia.
Qed.

Lemma wp_insert_file s b fn data modflag : buffers s !! curbp s = Some b -> room_ok b -> (forall m, alloc_ok m = true) ->
  files s !! fn = Some data -> Forall byte data -> can_read fn = true ->
  int64 (b_ebuf b + Z.max MIN_GAP_EXPAND (Z.of_nat (length data))) ->
  wp (fun _ => insert_file fn modflag) s (fun r s' => r = can_close fn /\ exists b', room_ok b' /\ now b' (files s) s s' /\
    view b' = (put (b_point b) data (text b), b_point b, b_mark b,
      if r then if modflag then Z.land (b_flags b) B_MODIFIED else Z.ldiff (b_flags b) B_MODIFIED else b_flags b)).
Proof.
  intros Hb [Hbo Hp Hm] Ha Hf Hd Hr Hi. unfold insert_file. wstep. rewrite Hf. cbv zeta. set (n := Z.of_nat (length data)) in *.
  eapply wp_read_cur; [exact Hb|]. wstep.
  eapply (wp_call _ _ _ (fun ok s1 => ok = true /\ exists b1, room_ok b1 /\ s1 = set_cur b1 s /\ view b1 = view b /\ n <= room b1)).
  { destruct (Z.ltb_spec (b_egap b - b_gap b) n).
    - eapply wp_mono; [by apply (wp_growgap_now s b)|]. cbn beta. intros r s1 (-> & b1 & -> & ((mem & -> & Hl) & Et & Hb1)).
      split; [done|]. eexists. split; [|split; [done | split; [unfold view; by rewrite Et | unfold room; destruct Hbo; simpl; lia]]].
      split; [done | unfold size in *; rewrite Et; exact Hp | exact Hm].
    - apply wp_ret. split; [done|]. exists b. split; [done|]. split; [by rewrite set_cur_same|]. split; [done | unfold room; lia]. }
  cbn beta. intros ok s1 (-> & b1 & Hok1 & -> & Hv & Hroom). rewrite Hr. cbn [negb].
  apply wp_bind. eapply wp_cur; [apply lookup_set_cur|]. eapply wp_mono; [by apply (wp_fill b1 data)|]. cbn beta.
  intros _ b2 (Hok2 & Hv2 & _). rewrite set_cur_twice. destruct (view_parts _ _ Hv) as (Et & Ep & Em & Ef & _).
  rewrite Et, Ep, Em, Ef in Hv2. assert (now b2 (files s) s (set_cur b2 s)) as Hn by (split; [apply lookup_set_cur | done]).
  destruct (can_close fn); cbn [negb].
  - apply wp_bind. eapply wp_cur; [apply lookup_set_cur|]. apply wp_modify. rewrite set_cur_twice. apply wp_bind, wp_msg, wp_ret.
    split; [done|]. eexists. split; [|split; [apply now_told; split; [apply lookup_set_cur | done]|]].
    + destruct Hok2 as [[? ? ?] ? ?]. by split.
    + unfold view in *. simpl. injection Hv2 as <- <- <- <-. done.
  - apply wp_bind, wp_msg, wp_ret. split; [done|]. exists b2. done.
Qed.

(** *** [load_file] *)

Lemma wp_load_file s b fn data : buffers s !! curbp s = Some b -> room_ok b -> is_Some (windows s !! curwp s) ->
  (forall m, alloc_ok m = true) -> files s !! fn = Some data -> Forall byte data -> can_read fn = true ->
  int64 (b_ebuf b + Z.max MIN_GAP_EXPAND (Z.of_nat (length data))) ->
  wp (fun _ => load_file fn) s (fun r s' => r = can_close fn /\ exists b', room_ok b' /\ buffers s' !! curbp s' = Some b' /\
    view b' = (data, 0, b_mark b, if r then Z.ldiff (b_flags b) B_MODIFIED else b_flags b)).
Proof.
  intros Hb [Hbo Hp Hm] [w Hw] Ha Hf Hd Hr Hi. unfold load_file, top.
  apply wp_bind. eapply wp_cur; [exact Hb|]. apply wp_modify. set (b1 := with_egap _ _).
  pose proof Hbo as [G1 G2 G3].
  apply wp_bind, wp_bind. eapply wp_cur; [apply lookup_set_cur|]. apply wp_modify. rewrite set_cur_twice. set (b2 := with_point 0 b1).
  assert (text b2 = []) as Et.
  { unfold text, b2, b1. simpl. apply drop_ge. unfold b_ebuf. lia. }
  assert (room_ok b2) as Hok2.
  { split; [split; simpl; [unfold b_ebuf; lia | unfold b_ebuf; simpl; lia | done] | unfold size; rewrite Et; simpl; lia | done]. }
  apply wp_bind. eapply wp_cur; [apply lookup_set_cur|]. apply wp_gets. rewrite set_cur_twice. wstep.
  eapply wp_at_window; [exact Hw|]. apply wp_modify. set (s1 := with_windows _ _).
  assert (buffers s1 !! curbp s1 = Some b2) as Hb2 by apply lookup_set_cur.
  eapply wp_mono; [apply (wp_insert_file s1 b2 fn data false Hb2 Hok2 Ha Hf Hd Hr Hi)|]. cbn beta.
  intros r s' (-> & b' & Hok' & (Hb' & _) & Hv). split; [done|]. exists b'. split; [done|]. split; [done|].
  rewrite Hv, Et. unfold put. simpl. rewrite app_nil_r. by destruct (can_close fn).
Qed.

End store.
