(* ===== verification/AttoClaims.v ===== *)
(** * Atto: what is proved of the editor

    The theorems about Atto, and an editor on which each is applied. *)

From Stdlib Require Import ZArith Lia.
From stdpp Require Import base numbers list gmap strings.
From S2P Require Import Prelude Atto AttoGap AttoLines AttoEdit AttoSpec AttoSearch AttoDisplay AttoBuffers AttoFiles AttoKeys.
From S2P Require Import AttoReplace AttoStore AttoWorld AttoLists AttoInv AttoReach.

Open Scope Z_scope.

(** ** Pasting and undoing at the level of the editor *)

Section more.
Context `{machine}.

Lemma overwriting_modified f : Z.land (Z.lor f B_MODIFIED) B_OVERWRITE = Z.land f B_OVERWRITE.
Proof. rewrite Z.land_lor_distr_l. change (Z.land B_MODIFIED B_OVERWRITE) with 0. apply Z.lor_0_r. Qed.

(** [paste] behind the growth of the gap. *)
Lemma wp_paste_rest s b d l : shows s d -> buffers s !! curbp s = Some b -> edit_ok b -> view b = d_view d ->
  d_scrap d = Some l -> d_nscrap d <= room b ->
  wp (fun _ => l ← gets scrap; cur (paste_body l (d_nscrap d))) s (fun _ s' =>
    shows s' (changed (put (d_point d) l (d_text d)) (d_point d + d_nscrap d) d) /\
    exists b', buffers s' !! curbp s' = Some b' /\ edit_ok b' /\ undoable b b').
Proof.
  intros Hs Hb Hok Hv El Hr. wstep. pose proof Hs as [_ _ [-> _] [_ _ Hsc]]. destruct (Hsc l El) as [Hl Hbl]. rewrite El, Hl. rewrite Hl in Hr.
  eapply wp_cur; [exact Hb|]. eapply wp_mono; [by apply wp_paste_body|]. cbn beta. intros _ b2 ([Hok2 Hu] & Hv2 & _).
  destruct (view_d _ _ Hv) as (Et & Ep & Em & Ef & _). rewrite Et, Ep, Em, Ef in Hv2. split.
  - eapply shows_set; [exact Hs | done | | done | done]. exact Hv2.
  - exists b2. split; [apply lookup_set_cur | done].
Qed.

Lemma wp_paste_ok s b d l : shows s d -> buffers s !! curbp s = Some b -> d_overwriting d = false -> d_scrap d = Some l ->
  0 < d_nscrap d -> (forall m, alloc_ok m = true) -> int64 (b_ebuf b + Z.max MIN_GAP_EXPAND (d_nscrap d)) ->
  wp (fun _ => paste) s (fun _ s' => shows s' (changed (put (d_point d) l (d_text d)) (d_point d + d_nscrap d) d)).
Proof.
  intros Hs Hb Ho El Hn Ha Hi. pose proof Hs as [(b0 & Hb0 & Hok & Hv) Hw [Esc En] Hsc]. rewrite Hb in Hb0. injection Hb0 as <-.
  unfold paste. eapply wp_read_cur; [exact Hb|]. rewrite (overwriting_view b d Hv), Ho. wstep. rewrite En.
  rewrite (proj2 (Z.leb_gt _ 0)) by lia. wstep. destruct (Z.ltb_spec (d_nscrap d) (b_egap b - b_gap b)) as [Hlt|Hge].
  - wstep. eapply wp_mono; [apply (wp_paste_rest s b d l); try done; unfold room; lia|]. by intros _ s' [Hs' _].
  - eapply wp_call; [apply (wp_growgap_now s b _ Hb); [apply Hok | done | done]|]. cbn beta. intros r s1 (-> & b1 & -> & Hg).
    destruct (grown_edit _ b b1 Hok Hi) as (Hok1 & Hv1 & Hr1); [unfold MIN_GAP_EXPAND; lia | done |].
    eapply wp_mono; [apply (wp_paste_rest (set_cur b1 s) b1 d l)|]; try done.
    + eapply shows_set; [exact Hs | done | congruence | done | done].
    + apply lookup_set_cur.
    + congruence.
    + destruct Hok as [[? ? ?] _ _ _ _]. unfold room in *. lia.
    + by intros _ s' [Hs' _].
Qed.

Lemma cut_and_put t p q : 0 <= p <= q -> q <= Z.of_nat (length t) -> put p (slice t p q) (remove p q t) = t.
Proof.
  intros Hp Hq. rewrite put_remove by done. unfold replaced_at, slice. rewrite <- (take_drop (Z.to_nat p) t) at 4. f_equal.
  rewrite <- (take_drop (Z.to_nat (q - p)) (drop (Z.to_nat p) t)) at 2. f_equal. rewrite drop_drop. f_equal. lia.
Qed.

(** [undo] in [s] gives the text [t] with the point at [p]. *)
Definition undoes (s : editor) (t : list Z) (p : Z) (Q : editor -> Prop) : Prop :=
  wp (fun _ => cur undo) s (fun _ s' => (exists b, buffers s' !! curbp s' = Some b /\ text b = t /\ b_point b = p) /\ Q s').

Lemma undo_twice s b0 b : buffers s !! curbp s = Some b -> edit_ok b0 -> edit_ok b -> undoable b0 b ->
  undoes s (text b0) (b_point b0) (fun s' => undoes s' (text b) (b_point b) (fun _ => True)).
Proof.
  intros Hb Hok0 Hok Hu. eapply wp_cur; [exact Hb|]. eapply wp_mono; [by apply (wp_undo b0 b)|]. cbn beta.
  intros _ b1 (Hok1 & Hv1 & Hu1). unfold view in Hv1. split; [exists b1; split; [apply lookup_set_cur | split; congruence]|].
  eapply wp_cur; [apply lookup_set_cur|]. eapply wp_mono; [by apply (wp_undo b b1)|]. cbn beta.
  intros _ b2 (_ & Hv2 & _). unfold view in Hv2. rewrite set_cur_twice. split; [|done].
  exists b2. split; [apply lookup_set_cur | split; congruence].
Qed.

(** After a command: nothing has changed, or [undo] takes it back and [undo] again does it again. *)
Definition undone (d : doc) (s : editor) : Prop := exists b, buffers s !! curbp s = Some b /\ edit_ok b /\
  ((text b = d_text d /\ b_point b = d_point d) \/
   undoes s (d_text d) (d_point d) (fun s' => undoes s' (text b) (b_point b) (fun _ => True))).

Lemma undone_same d s : shows s d -> undone d s.
Proof.
  intros [(b & Hb & Hok & Hv) _ _ _]. exists b. split; [done|]. split; [done|]. left. by destruct (view_d _ _ Hv) as (? & ? & _).
Qed.

Lemma undone_by d b0 b s : buffers s !! curbp s = Some b -> edit_ok b0 -> view b0 = d_view d -> edit_ok b -> undoable b0 b -> undone d s.
Proof.
  intros Hb Hok0 Hv Hok Hu. exists b. split; [done|]. split; [done|]. right. destruct (view_d _ _ Hv) as (<- & <- & _).
  by apply undo_twice.
Qed.

Lemma wp_paste_undo s d : shows s d -> ~ stuck d Paste -> wp (fun _ => paste) s (fun _ s' => undone d s').
Proof.
  intros Hs Hns. pose proof Hs as [(b & Hb & Hok & Hv) Hw [Esc En] Hsc].
  unfold paste. eapply wp_read_cur; [exact Hb|]. rewrite (overwriting_view b d Hv).
  destruct (d_overwriting d) eqn:Eo; [by apply wp_ret, undone_same|]. wstep. rewrite En.
  destruct (Z.leb_spec (d_nscrap d) 0) as [Hz|Hpos]; [by apply wp_msg, undone_same, shows_told|].
  destruct (d_scrap d) as [l|] eqn:El; [|by destruct Hns]. wstep.
  destruct (Z.ltb_spec (d_nscrap d) (b_egap b - b_gap b)) as [Hlt|Hge].
  - wstep. eapply wp_mono; [apply (wp_paste_rest s b d l); try done; unfold room; lia|].
    cbn beta. intros _ s' [_ (b' & Hb' & Hok' & Hu)]. by apply (undone_by d b b').
  - eapply wp_call; [apply (wp_growgap s b _ Hb Hok); apply Hsc|]. cbn beta. intros r s'.
    destruct (grows _ _); [|intros (-> & m & ->); by apply wp_ret, undone_same, shows_told].
    intros (-> & b' & -> & Hok' & Hv' & Hr). injection Hr as _ Hr.
    eapply wp_mono; [apply (wp_paste_rest (set_cur b' s) b' d l)|]; try done.
    + eapply shows_set; [exact Hs | done | congruence | done | done].
    + apply lookup_set_cur.
    + congruence.
    + destruct Hok as [[? ? ?] _ _ _ _]. unfold room in *. lia.
    + cbn beta. intros _ s' [_ (b2 & Hb2 & Hok2 & Hu)]. apply (undone_by d b' b2); try done. congruence.
Qed.

End more.

(** ** Lines *)

Lemma newlines_app l1 l2 : newlines (l1 ++ l2) = newlines l1 + newlines l2.
Proof. unfold newlines. rewrite filter_app, length_app. lia. Qed.

Lemma newlines_none l : 10 ∉ l -> newlines l = 0.
Proof.
  intros Hl. unfold newlines. assert (filter (fun c => c = 10) l = []) as ->; [|done].
  induction l as [|c l IH]; [done|]. apply not_elem_of_cons in Hl as [Hc Hl].
  rewrite filter_cons_False by congruence. by apply IH.
Qed.

Lemma newlines_before t r e : 0 <= r <= e -> 10 ∉ slice t r e -> newlines (take (Z.to_nat r) t) = newlines (take (Z.to_nat e) t).
Proof.
  intros Hr Hn. replace (Z.to_nat e) with (Z.to_nat r + Z.to_nat (e - r))%nat by lia.
  rewrite <- take_take_drop. rewrite newlines_app, (newlines_none (take _ (drop _ _))) by done. lia.
Qed.

(** ** Editing *)

Section claims.
Context `{machine}.

(** C6 The commands on a buffer refine an editor on plain lists that knows where the gap is: from a state that holds a
    document, any sequence of left, right, top, bottom, typing, backspace, delete, mark, overwrite mode, copy, cut and paste
    ends without a fault in a state that holds the document the abstract steps lead to, unless it comes to copy or cut
    a region whose mark is behind the end, or to paste a scrap that could not be allocated. Typing and pasting do nothing
    only if the gap is full and cannot be made longer, copying and cutting only without a region or without memory for
    it; what is copied is the region, unless the gap was behind its start and in the way. *)
Theorem edit_refines s h cs : is_Some behind -> holds s h -> ~ reaches_stuck h cs ->
  wp (fun _ => run_all cs) s (fun _ s' => exists h', asteps h cs h' /\ holds s' h').
Proof. intros Hbh Hs Hns. by destruct (wp_run_all cs s h Hbh Hs). Qed.

(** Cutting a region and pasting at once restores the text, with the point behind the region, if
    the gap does not cut the region off and memory is there. *)
Lemma cut_paste_restores s d b p q : shows s d -> buffers s !! curbp s = Some b -> d_overwriting d = false ->
  d_mark d <= d_size d -> no_region d = false -> region d = (p, q) -> b_gap b <= p \/ (q <= b_gap b /\ q - p <= room b) ->
  (forall m, alloc_ok m = true) -> int64 (b_ebuf b + Z.max MIN_GAP_EXPAND (q - p)) ->
  wp (fun _ => run_all [Cut; Paste]) s (fun _ s' => exists d', shows s' d' /\ d_text d' = d_text d /\ d_point d' = q).
Proof.
  intros Hs Hb Ho Hm Hn Hr Hg Ha Hi. destruct (shows_bounds s d Hs) as [Hp Hmk].
  destruct (region_bounds d p q Hp Hmk Hm Hn Hr) as (Hpq & Hq & _). cbn [run_all run].
  eapply wp_call; [by apply (wp_copy_cut s d b true)|]. cbn beta. intros _ s1. rewrite Hn, Hr. unfold copy_result. rewrite Ha.
  intros [(l & (Hl & _ & Hex) & [Hs1 _]) (b1 & Hb1 & _ & _ & He)]. cbn [h_doc] in Hs1.
  eapply wp_call; [eapply (wp_paste_ok s1 b1 _ l Hs1 Hb1)|]; try done.
  - unfold d_overwriting in *. cbn [scrapped changed marked d_flags]. by rewrite overwriting_modified.
  - cbn [scrapped d_nscrap]. lia.
  - cbn [scrapped d_nscrap]. by rewrite He.
  - cbn beta. intros _ s2 Hs2. apply wp_ret. eexists. split; [exact Hs2|]. cbn [changed scrapped d_text d_point d_nscrap marked].
    pose proof Hs as [(b0 & Hb0 & Hok & Hv) _ _ _]. rewrite Hb in Hb0. injection Hb0 as <-. destruct (view_d _ _ Hv) as (Et & _).
    pose proof Hok as [Hbo _ _ _ _]. rewrite (copies_slice _ _ _ _ _ _ Hex Hpq (gap_le_size b Hbo) Hg), Et. split; [apply cut_and_put; unfold d_size in *; lia | lia].
Qed.

(** C33 Undo takes back what backspace, delete, cut or paste did: it gives the text and the point
    from before, and a second undo those from after; where they did nothing the text and the point are as they were. *)
Theorem undo_restores s d c : is_Some behind -> shows s d -> c ∈ [Backsp; Delete; Cut; Paste] -> ~ stuck d c ->
  wp (fun _ => run c) s (fun _ s' => undone d s').
Proof.
  intros Hbh Hs Hc Hns. pose proof Hs as [(b & Hb & Hok & Hv) _ _ _].
  assert (forall p : B unit, (wp (fun _ => p) b (fun _ b' => edit_ok b' /\ undoable b b')) ->
    wp (fun _ => cur p) s (fun _ s' => undone d s')) as Hcur.
  { intros p Hp. eapply wp_cur; [exact Hb|]. eapply wp_mono; [exact Hp|]. cbn beta. intros _ b' [Hok' Hu].
    apply (undone_by d b b'); [apply lookup_set_cur | done..]. }
  apply elem_of_cons in Hc as [->|Hc]; [|apply elem_of_cons in Hc as [->|Hc]; [|apply elem_of_cons in Hc as [->|Hc]]].
  - apply Hcur. eapply wp_mono; [by apply wp_backsp|]. by intros _ b' [Hb' _].
  - apply Hcur. eapply wp_mono; [by apply wp_delete|]. by intros _ b' [Hb' _].
  - cbn [run]. eapply wp_mono; [apply (wp_copy_cut s d b true Hs Hb); simpl in Hns; lia|]. cbn beta. intros _ s'.
    destruct (no_region d); [intros ->; by apply undone_same|]. destruct (region d) as [p q]. unfold copy_result. destruct (alloc_ok _).
    + intros [_ (b' & Hb' & Hok' & Hu & _)]. by apply (undone_by d b b').
    + intros [Hs' _]. destruct (undone_same _ _ Hs') as (b' & Hb' & Hok' & Hu). exists b'. done.
  - apply list_elem_of_singleton in Hc as ->. by apply wp_paste_undo.
Qed.

(** ** Motion *)

(** The motions by lines: a line is displayed in segments of [COLS] columns; C-a goes to the start of the segment
    of the point, up and down to the column [b_col] of the segment before and behind, C-e one before the start of the next. *)
Lemma line_motion b : edit_ok b -> first_line_ok b -> 0 < COLS ->
  wp (fun _ => lnbegin) b (fun _ b' => exists s, in_seg (text b) s (b_point b) /\ b' = with_point s b) /\
  wp (fun _ => up) b (fun _ b' => exists s r p, in_seg (text b) s (b_point b) /\ prev_start (text b) s r /\
    column_at (text b) r (b_col b) p /\ b' = with_point p b) /\
  wp (fun _ => down) b (fun _ b' => exists r p, next_start (text b) (b_point b) r /\
    column_at (text b) r (b_col b) p /\ b' = with_point p b) /\
  wp (fun _ => lnend) b (fun _ b' => exists r, next_start (text b) (b_point b) r /\ b' = with_point (Z.max 0 (r - 1)) b).
Proof.
  intros Hok Hf HC. pose proof Hok as [Hb _ _ Hp _]. split; [|split; [|split]].
  - unfold lnbegin. wstep. eapply wp_call; [by apply wp_lnstart|]. cbn beta. intros l b' (Hl & ->).
    pose proof Hl as [? _ ?]. eapply wp_call; [apply wp_segstart; [done | lia | done | lia | by eapply line_seg | done]|].
    cbn beta. intros s b' (Hs & ->). apply wp_modify. by exists s.
  - unfold up. wstep. eapply wp_call; [by apply wp_upup|]. cbn beta. intros r b' ((s & Hs & Hr) & ->).
    eapply wp_call; [apply wp_lncolumn; [done|]|].
    + pose proof Hs as [H1 H2 _ _]. pose proof (seg_nonneg _ _ H2). destruct Hr as [Hr1 Hr2]. destruct (decide (s = 0)) as [E|].
      * rewrite (Hr1 E). lia.
      * destruct (Hr2 ltac:(lia)) as [H3 H4 _ _]. pose proof (seg_nonneg _ _ H4). lia.
    + cbn beta. intros p b' (Hp' & ->). apply wp_modify. by exists s, r, p.
  - unfold down. wstep. eapply wp_call; [by apply wp_dndn|]. cbn beta. intros r b' (Hr & ->).
    eapply wp_call; [apply wp_lncolumn; [done | destruct Hr; unfold size; lia]|]. cbn beta. intros p b' (Hp' & ->).
    apply wp_modify. by exists r, p.
  - unfold lnend. wstep. eapply wp_call; [by apply wp_dndn|]. cbn beta. intros r b' (Hr & ->). wstep. unfold left_. wstep.
    destruct Hr as [H1 H2 H3]. simpl b_point. destruct (Z.ltb_spec 0 r).
    + apply wp_modify. exists r. split; [done|]. rewrite Z.max_r by lia. done.
    + apply wp_ret. exists r. split; [done|]. rewrite Z.max_l by lia. by replace r with 0 by lia.
Qed.

(** Going to a line by its number and asking where the point is agree: [line_to_point] gives the start of line [ln] as
    [showpos] counts the lines, or -1 when fewer than [ln] lines end with a newline. *)
Lemma goto_line_shown b ln : edit_ok b -> 1 <= ln -> int32 ln ->
  wp (fun _ => p ← line_to_point ln; if p =? -1 then mret None else
       modify (with_point p);; r ← get_line_stats 0; mret (Some r)) b (fun r b' =>
    match r with
    | None => newlines (text b) < ln
    | Some (current, last) => current = ln /\ last = newlines (text b) + 1 /\ text b' = text b /\
        (b_point b' = 0 \/ text b !! Z.to_nat (b_point b' - 1) = Some 10)
    end).
Proof.
  intros Hok H1 Hi. pose proof Hok as [Hb _ _ _ _]. eapply wp_call; [by apply wp_line_to_point|]. cbn beta.
  intros r b' ([Hr|[-> Hr]] & ->); [|by apply wp_ret]. destruct Hr as (e & He & Hl & Hn). destruct Hl as [L1 L2 L3].
  rewrite (proj2 (Z.eqb_neq r (-1))) by lia. wstep. set (b1 := with_point r b). apply lookup_lt_Some in He as Hlt.
  assert (edit_ok b1) as Hok1 by (apply edit_with_point; [done | unfold size; lia]).
  eapply wp_call; [apply (wp_get_line_stats b1 0); [by destruct Hok1 | change (0 <= r <= size b); unfold size; lia | change (0 < size b); unfold size; lia]|].
  cbn beta. intros res b2 (-> & ->). apply wp_ret. change (text b1) with (text b). change (b_point b1) with r.
  split; [|split; [done | split; [done | exact L2]]]. rewrite <- (newlines_before (text b) r e) in Hn by (done || lia). lia.
Qed.

(** ** Searching and replacing *)

(** [search_forward] terminates and finds the first occurrence of an ASCII text from the point on: it gives
    its end, or -1 if there is none. *)
Lemma search_forward_first b st : is_Some behind -> edit_ok b -> ascii st -> st <> [] ->
  wp (fun _ => search_forward st) b (fun r b' => found_forward (text b) st (b_point b) r /\ b' = b).
Proof. apply wp_search_forward. Qed.

(** [search_backwards] terminates and finds the last occurrence before or at the point among those
    that do not start the buffer: it gives the offset before it, or -1 if there is none. *)
Lemma search_backwards_last b bh st : behind = Some bh -> edit_ok b -> ascii st -> bh ∉ st -> st <> [] ->
  wp (fun _ => search_backwards st) b (fun r b' => found_backward (text b) st (b_point b) r /\ b' = b).
Proof. apply wp_search_backwards. Qed.

(** C8 Once it does not ask any more [query_replace] for an ASCII text ends, with every occurrence from the point on
    replaced from left to right and none of the text put in searched again, the count of them, and the point at the last
    one, if there is room for the first replacement and memory is there. There is room ([fits]) for a shorter text;
    for a longer one if the difference is less than the length of the gap; for one of the same length if the gap is not behind the point. *)
Theorem replace_all_correct s b st r o num : is_Some behind -> (forall m, alloc_ok m = true) -> ascii st -> st <> [] ->
  Forall byte r -> Z.of_nat (length r) <= MIN_GAP_EXPAND -> buffers s !! curbp s = Some b -> edit_ok b ->
  fits b (Z.of_nat (length st)) (Z.of_nat (length r)) -> int64 (b_ebuf b + MIN_GAP_EXPAND * (size b - b_point b + 1)) ->
  0 <= o <= size b ->
  wp (fun m => replace_loop m st r o (-1) num false) s (fun res s' => exists b' l n, s' = set_cur b' s /\ edit_ok b' /\
    replaced_all st r (text b) (b_point b) (-1) (text b') l n /\ res = Some (num + n) /\
    b_point b' = if l =? -1 then o else l).
Proof. intros. eapply (wp_replace_loop st r o); try done. Qed.

(** ** Files *)

(** C34 What is saved and loaded again is the same text: if [save] returns TRUE, [load_file] of the same file
    into any buffer of an editor with these files makes the text that was saved its text. *)
Theorem save_load_round_trip s b fn s2 b2 : buffers s !! curbp s = Some b -> edit_ok b -> can_read fn = true ->
  (forall m, alloc_ok m = true) -> buffers s2 !! curbp s2 = Some b2 -> room_ok b2 -> is_Some (windows s2 !! curwp s2) ->
  int64 (b_ebuf b2 + Z.max MIN_GAP_EXPAND (size b)) ->
  wp (fun _ => save fn) s (fun r s1 => r = true -> forall s3, s3 = with_files (files s1) s2 ->
    wp (fun _ => load_file fn) s3 (fun _ s4 => exists b4, buffers s4 !! curbp s4 = Some b4 /\ text b4 = text b /\ b_point b4 = 0)).
Proof.
  intros Hb Hok Hcr Ha Hb2 Hok2 Hw Hi. eapply wp_mono; [by apply (wp_save s b fn)|]. cbn beta. intros r s1 Hs1 -> s3 ->.
  destruct (posix_file fn && can_write fn); [|by destruct Hs1]. destruct Hs1 as (b1 & Hok1 & Hr & Hn & _).
  symmetry in Hr. apply andb_true_iff in Hr as [Hr Hc]. apply Z.eqb_eq in Hr.
  assert (take (written (text b)) (text b) = text b) as Eo.
  { apply take_ge. unfold size in Hr. rewrite length_take in Hr. lia. }
  rewrite Eo in Hn. destruct Hn as (_ & Hf & _). pose proof Hok as [[_ _ Hby] _ _ _ _].
  eapply wp_mono; [apply (wp_load_file (with_files (files s1) s2) b2 fn (text b)); try done|].
  - cbn [files with_files]. rewrite Hf. apply lookup_insert_eq.
  - apply Forall_app. split; [by apply Forall_take | by apply Forall_drop].
  - cbn beta. intros r4 s4 (_ & b4 & _ & Hb4 & Hv). exists b4. split; [done|]. unfold view in Hv. split; congruence.
Qed.

(** ** The gap *)

(** [movegap] moves the gap to the offset and leaves the text, the length of the gap and the rest of the buffer as they
    are; [growgap] enlarges the gap by at least what is asked for and leaves the text as it is, or reports a failure and changes
    nothing when there is no memory or the length overflows. *)
Lemma gap_keeps_text b off n : buffer_ok b -> 0 < b_ebuf b -> int64 (b_ebuf b) -> int64 n -> 0 <= off <= size b ->
  wp (fun _ => movegap off) b (fun r b' => r = off /\ b_gap b' = off /\ text b' = text b /\ room b' = room b /\
    buffer_ok b' /\ b_point b' = b_point b /\ b_mark b' = b_mark b) /\
  wp (fun _ => growgap_body n) b (fun r b' => (r = true /\ text b' = text b /\ b_gap b' = b_gap b /\ buffer_ok b' /\
      room b + n <= room b' /\ room b < room b' /\ b_point b' = b_point b) \/
    (r = false /\ b' = b /\ (int64 (newlen b n) -> alloc_ok (newlen b n) = false))).
Proof.
  intros Hb He Hi Hn Ho. split.
  { eapply wp_mono; [by apply wp_movegap|]. cbn beta. intros r b' (-> & ((mem & -> & _) & Ht & Hok)).
    do 3 (split; [done|]). split; [unfold room; simpl; lia | done]. }
  destruct (decide (int64 (newlen b n) /\ alloc_ok (newlen b n) = true)) as [[Hl Ha]|Hno].
  - eapply wp_mono; [by apply wp_growgap_body|]. cbn beta. intros r b' (-> & ((mem & -> & Hm) & Ht & Hok)). left.
    do 4 (split; [done|]). unfold room, MIN_GAP_EXPAND in *. simpl. split; [lia|]. split; [lia | done].
  - assert (int64 (newlen b n) -> alloc_ok (newlen b n) = false) as Hf
      by (intros Hl; destruct (alloc_ok _) eqn:E; [by destruct Hno | done]).
    eapply wp_mono; [by apply wp_growgap_fails|]. cbn beta. intros r b' (-> & ->). by right.
Qed.

(** Offsets and pointers: [pos] gives back the offset [ptr] was given, for every offset of the text and its end, and what
    is found through [ptr] is the character of the text. *)
Lemma ptr_pos_round_trip b off : buffer_ok b -> 0 <= off <= size b ->
  wp (fun _ => pos (ptr b off)) b (fun r b' => r = off /\ b' = b) /\
  (off < size b -> text b !! Z.to_nat off = b_mem b !! Z.to_nat (ptr b off)).
Proof.
  intros Hb Ho. split; [|by intros; apply text_lookup; [|lia]]. pose proof Hb as [G1 G2 _].
  rewrite size_eq in Ho by done. unfold room in Ho.
  apply wp_pos; unfold ptr; rewrite (proj2 (Z.ltb_ge off 0)) by lia; destruct (Z.ltb_spec off (b_gap b)); [lia | lia | |].
  - rewrite (proj2 (Z.ltb_lt _ (b_egap b))) by lia. split; [lia | done].
  - unfold room. rewrite (proj2 (Z.ltb_ge _ (b_egap b))) by lia. split; [lia | done].
Qed.

(** ** Keys *)

(** C9 [getkey] terminates: it reads up to the first sequence of the table, and gives its function; or up to where no
    sequence begins with what was read, and gives the first byte. It reads no further, and no shorter sequence is in the table.
    No NUL is among the keys, and the sequences of the table are shorter than the record of 256 bytes. *)
Theorem getkey_reads {A} (ks : list (list Z * A)) s : (forall n, keys s n mod 256 <> 0) ->
  Forall (fun k => Z.of_nat (length k.1) < K_BUFFER_LENGTH) ks ->
  wp (fun _ => getkey ks) s (fun r s' => exists k, key_read ks s r k /\ s' = with_nkey (nkey s + k)%nat s).
Proof. apply wp_getkey. Qed.

(** C7 The lists of buffers and windows: in every state of the main loop both are linked lists of what is allocated, each window
    shows a buffer of the list, the current window the current buffer, and [b_cnt] is the number of windows that show a
    buffer, as long as [killbuffer] is called on buffers that one window shows. *)
Theorem reachable_lists argv keys files s : reaches argv keys files s ->
  exists lb lw, world (skel s) lb lw.
Proof. apply reaches_world_ok. Qed.

End claims.

(** ** An editor to try them on *)

(** 80 columns and 24 lines, memory without end, files that open, write and close. *)
#[local] Instance demo : machine :=
  Machine 80 24 (fun _ => true) (fun _ => 0) (Some 0) (fun _ => [94; 65]) 200 100 [] (fun _ => 0)
    (fun _ => true) (fun _ => true) (fun l => length l) (fun _ => true).

(** "ab", newline, "abc" and a newline, with four free bytes before the first newline and the point at [p]. *)
Definition demo_buffer (p m : Z) : buffer :=
  Buffer NULL m p 0 0 0 1 0 0 [97; 98; 0; 0; 0; 0; 10; 97; 98; 99; 10] 2 6 0 0 [] [] 0 (Undo 0 0 0).
Definition demo_window : window := Window NULL 1 0 NOMARK 0 0 0 22 0 0 false.

Definition demo_editor (p m : Z) : editor :=
  Editor {[1 := demo_buffer p m]} {[2 := demo_window]} 1 1 2 2 3 1 false None 0 0 false (Message "" []) [] [] []
    (fun n => nth n [27; 91; 65] 97) 0 ∅.
Definition demo_doc (p m : Z) : doc := Doc [97; 98; 10; 97; 98; 99; 10] p m 0 None 0.

Lemma demo_edit_ok p m : 0 <= p <= 7 -> m = NOMARK \/ 0 <= m -> edit_ok (demo_buffer p m).
Proof.
  intros Hp Hm. split; [split | | | |]; try done; unfold b_ebuf, int64; simpl; try lia.
  repeat constructor; unfold byte; lia.
Defined.

Lemma demo_shows p m : 0 <= p <= 7 -> m = NOMARK \/ 0 <= m -> shows (demo_editor p m) (demo_doc p m).
Proof.
  intros Hp Hm. split; [|by eexists | done | by split].
  exists (demo_buffer p m). split; [done|]. split; [by apply demo_edit_ok | done].
Defined.

Definition demo_held (p m : Z) : held := Held (demo_doc p m) 2 4.

Lemma demo_holds p m : 0 <= p <= 7 -> m = NOMARK \/ 0 <= m -> holds (demo_editor p m) (demo_held p m).
Proof. intros Hp Hm. split; [by apply demo_shows | by exists (demo_buffer p m)]. Defined.

(** Two windows, 2 and 3, that show buffer 1; and a second buffer, 4. *)
Definition shared_editor : editor :=
  Editor {[1 := with_cnt 2 (with_next 4 (demo_buffer 0 0)); 4 := with_cnt 0 (demo_buffer 0 0)]}
    {[2 := with_w_next 3 demo_window; 3 := demo_window]} 1 1 2 2 5 2 false None 0 0 false (Message "" []) [] [] [] (fun _ => 97) 0 ∅.

(** The editor starts. *)
Lemma demo_starts keys files : wp (fun _ => start []) (initial_editor keys files) (fun _ _ => True).
Proof.
  unfold start, find_buffer. apply wp_bind, wp_bind, wp_bind, wp_gets. apply wp_bind, wp_with_fuel.
  eapply wp_unfold; [intros n; reflexivity|]. apply wp_ret. cbn [negb Z.eqb NULL].
  change (alloc_ok sizeof_buffer_t) with true. cbn [negb]. wstep. wstep. wstep. apply wp_ret. wstep.
  eapply wp_cur; [by simpl; apply lookup_insert_eq|]. apply wp_modify.
  unfold new_window. apply wp_bind, wp_bind, wp_assert; [done|]. wstep. wstep. apply wp_ret. wstep.
  apply wp_bind. eapply wp_at_window; [by simpl; apply lookup_insert_eq|]. apply wp_modify. wstep.
  unfold associate_b2w. apply wp_bind, wp_bind, wp_assert; [done|]. apply wp_bind, wp_assert; [done|].
  apply wp_bind. eapply wp_at_window; [by simpl; apply lookup_insert_eq|]. apply wp_modify.
  eapply wp_at_buffer; [by simpl; apply lookup_insert_eq|]. apply wp_modify.
  set (b := with_cnt _ _) in *. cbv beta. match goal with |- wp _ ?t _ => set (s := t) in * end.
  assert (buffers s !! curbp s = Some b) as Hb by apply lookup_insert_eq.
  assert (buffer_ok b) as Hok by (split; [done | done | constructor]).
  assert (is_Some (windows s !! curwp s)) as [w Hw] by (simpl; rewrite lookup_insert_eq; by eexists).
  match goal with |- context [growgap ?c CHUNK] => change c with (curbp s) end.
  clearbody s. eapply wp_call; [apply (wp_growgap_now s b CHUNK); [done | done | done | unfold int64, b_ebuf, CHUNK, MIN_GAP_EXPAND; simpl; lia]|].
  cbn beta. intros r s' (-> & b' & -> & _). unfold top. apply wp_bind. eapply wp_cur; [apply lookup_set_cur|]. apply wp_modify.
  rewrite set_cur_twice. apply wp_bind. eapply wp_cur; [apply lookup_set_cur|]. apply wp_gets. wstep.
  eapply wp_at_window; [exact Hw|]. by apply wp_modify.
Qed.

(** ** The theorems on it *)

Lemma edit_refines_witness : ~ reaches_stuck (demo_held 2 NOMARK) [Type_ 120; Backsp; Right] /\
  wp (fun _ => run_all [Type_ 120; Backsp; Right]) (demo_editor 2 NOMARK)
    (fun _ s' => exists h', asteps (demo_held 2 NOMARK) [Type_ 120; Backsp; Right] h' /\ holds s' h').
Proof.
  assert (~ reaches_stuck (demo_held 2 NOMARK) [Type_ 120; Backsp; Right]) as Hns.
  { intros (cs1 & c & cs2 & d & E & _ & Hst). assert (c ∈ [Type_ 120; Backsp; Right]) as Hc by (rewrite E; set_solver).
    apply elem_of_cons in Hc as [->|Hc]; [done|]. apply elem_of_cons in Hc as [->|Hc]; [done|].
    by apply list_elem_of_singleton in Hc as ->. }
  split; [exact Hns|]. apply edit_refines; [by eexists | apply demo_holds; [lia | by left] | exact Hns].
Defined.

(** Typing behind "ab" is the one step there is to "abx", with one byte less in the gap. *)
Example typing_types h : astep (demo_held 2 NOMARK) (Type_ 120) h ->
  h = Held (Doc [97; 98; 120; 10; 97; 98; 99; 10] 3 NOMARK B_MODIFIED None 0) 3 3.
Proof. inversion 1; subst; by destruct_or?. Qed.

Lemma cut_paste_restores_witness : region (demo_doc 3 6) = (3, 6) /\
  wp (fun _ => run_all [Cut; Paste]) (demo_editor 3 6)
    (fun _ s' => exists d', shows s' d' /\ d_text d' = [97; 98; 10; 97; 98; 99; 10] /\ d_point d' = 6).
Proof.
  split; [reflexivity|].
  apply (cut_paste_restores (demo_editor 3 6) (demo_doc 3 6) (demo_buffer 3 6) 3 6); try reflexivity; try done.
  - apply demo_shows; [lia | right; lia].
  - left. simpl. lia.
Defined.

Lemma undo_restores_witness : wp (fun _ => run Cut) (demo_editor 3 6) (fun _ s' => undone (demo_doc 3 6) s').
Proof.
  apply undo_restores; [by eexists | apply demo_shows; [lia | right; lia] | set_solver | simpl; unfold d_size; simpl; lia].
Defined.

Lemma line_motion_witness : first_line_ok (demo_buffer 4 NOMARK) /\
  wp (fun _ => lnbegin) (demo_buffer 4 NOMARK) (fun _ b' => exists s,
    in_seg (text (demo_buffer 4 NOMARK)) s 4 /\ b' = with_point s (demo_buffer 4 NOMARK)).
Proof.
  assert (first_line_ok (demo_buffer 4 NOMARK)) as Hf by (left; discriminate). split; [exact Hf|].
  apply (line_motion (demo_buffer 4 NOMARK)); [apply demo_edit_ok; [lia | by left] | exact Hf | done].
Defined.

Lemma goto_line_shown_witness : wp (fun _ => p ← line_to_point 2; if p =? -1 then mret None else
    modify (with_point p);; r ← get_line_stats 0; mret (Some r)) (demo_buffer 0 NOMARK) (fun r b' =>
  match r with
  | None => newlines (text (demo_buffer 0 NOMARK)) < 2
  | Some (current, last) => current = 2 /\ last = newlines (text (demo_buffer 0 NOMARK)) + 1 /\
      text b' = text (demo_buffer 0 NOMARK) /\
      (b_point b' = 0 \/ text (demo_buffer 0 NOMARK) !! Z.to_nat (b_point b' - 1) = Some 10)
  end).
Proof. apply goto_line_shown; [apply demo_edit_ok; [lia | by left] | lia | unfold int32; lia]. Defined.

Lemma demo_ascii : ascii [97; 98].
Proof. repeat constructor. Defined.

Lemma search_forward_first_witness : wp (fun _ => search_forward [97; 98]) (demo_buffer 1 NOMARK) (fun r b' =>
  found_forward [97; 98; 10; 97; 98; 99; 10] [97; 98] 1 r /\ b' = demo_buffer 1 NOMARK).
Proof.
  apply (search_forward_first (demo_buffer 1 NOMARK) [97; 98]);
    [by eexists | apply demo_edit_ok; [lia | by left] | apply demo_ascii | discriminate].
Defined.

Lemma search_backwards_last_witness : wp (fun _ => search_backwards [97; 98]) (demo_buffer 7 NOMARK) (fun r b' =>
  found_backward [97; 98; 10; 97; 98; 99; 10] [97; 98] 7 r /\ b' = demo_buffer 7 NOMARK).
Proof.
  apply (search_backwards_last (demo_buffer 7 NOMARK) 0 [97; 98]);
    [done | apply demo_edit_ok; [lia | by left] | apply demo_ascii | set_solver | discriminate].
Defined.

Lemma replace_all_correct_witness : fits (demo_buffer 0 NOMARK) 2 3 /\
  wp (fun m => replace_loop m [97; 98] [120; 121; 122] 0 (-1) 0 false) (demo_editor 0 NOMARK) (fun res s' => exists b' l n,
    s' = set_cur b' (demo_editor 0 NOMARK) /\ edit_ok b' /\
    replaced_all [97; 98] [120; 121; 122] (text (demo_buffer 0 NOMARK)) 0 (-1) (text b') l n /\ res = Some (0 + n) /\
    b_point b' = if l =? -1 then 0 else l).
Proof.
  assert (fits (demo_buffer 0 NOMARK) 2 3) as Hf by (split; unfold room; simpl; lia). split; [exact Hf|].
  apply (replace_all_correct (demo_editor 0 NOMARK) (demo_buffer 0 NOMARK));
    [by eexists | done | apply demo_ascii | discriminate | | done | done | apply demo_edit_ok; [lia | by left] | exact Hf | | ].
  - repeat constructor; unfold byte; lia.
  - unfold int64, b_ebuf, size, MIN_GAP_EXPAND. simpl. lia.
  - unfold size. simpl. lia.
Defined.

Lemma save_load_round_trip_witness : wp (fun _ => save [102]) (demo_editor 0 NOMARK) (fun r s1 => r = true ->
  forall s3, s3 = with_files (files s1) (demo_editor 3 6) ->
  wp (fun _ => load_file [102]) s3 (fun _ s4 => exists b4, buffers s4 !! curbp s4 = Some b4 /\
    text b4 = [97; 98; 10; 97; 98; 99; 10] /\ b_point b4 = 0)).
Proof.
  apply (save_load_round_trip (demo_editor 0 NOMARK) (demo_buffer 0 NOMARK) [102] (demo_editor 3 6) (demo_buffer 3 6));
    [done | apply demo_edit_ok; [lia | by left] | done | done | done | | by eexists | ].
  - destruct (demo_edit_ok 3 6) as [H1 _ _ H2 H3]; [lia | right; lia|]. by split.
  - unfold int64, b_ebuf, size, MIN_GAP_EXPAND. simpl. lia.
Defined.

Lemma gap_keeps_text_witness : buffer_ok (demo_buffer 0 0) /\
  wp (fun _ => movegap 5) (demo_buffer 0 0) (fun r b' => r = 5 /\ b_gap b' = 5 /\ text b' = [97; 98; 10; 97; 98; 99; 10] /\
    room b' = 4 /\ buffer_ok b' /\ b_point b' = 0 /\ b_mark b' = 0).
Proof.
  assert (edit_ok (demo_buffer 0 0)) as Hok by (apply demo_edit_ok; lia). split; [apply Hok|].
  apply (gap_keeps_text (demo_buffer 0 0) 5 0); [apply Hok | done | unfold int64, b_ebuf; simpl; lia | unfold int64; lia | unfold size; simpl; lia].
Defined.

Lemma getkey_reads_witness : wp (fun _ => getkey keymap) (demo_editor 0 0) (fun r s' => exists k,
  key_read keymap (demo_editor 0 0) r k /\ s' = with_nkey k (demo_editor 0 0)).
Proof.
  apply (getkey_reads keymap (demo_editor 0 0)).
  - intros n. simpl. do 3 (destruct n as [|n]; [done|]). by destruct n.
  - unfold keymap. repeat (apply Forall_cons; split; [done|]). by apply Forall_nil.
Defined.

Lemma reachable_lists_witness : exists s, reaches [] (fun _ => 97) ∅ s /\ exists lb lw, world (skel s) lb lw.
Proof.
  destruct (demo_starts (fun _ => 97) ∅) as (N & [] & s & Hs & _). specialize (Hs N N (le_n N) (le_n N)).
  assert (reaches [] (fun _ => 97) ∅ s) as Hr by exact (reaches_start _ _ _ N s Hs).
  exists s. split; [exact Hr|]. exact (reachable_lists [] (fun _ => 97) ∅ s Hr).
Defined.

(** ** Where the code fails *)

(** [killbuffer] frees a buffer that another window shows: [next_window] then follows the freed pointer. *)
Lemma kill_shared_fails : killbuffer 10%nat shared_editor <> Fault Bad_pointer /\
  (killbuffer;; next_window) 10%nat shared_editor = Fault Bad_pointer.
Proof. split; [by vm_compute | by vm_compute]. Qed.

(** [copy] computes the address of the region before it moves the gap: a region that the gap cuts in two is
    not what is copied. The region here is "b", newline, "a". *)
Lemma copy_across_gap_wrong : exists s, run Copy 20%nat (demo_editor 1 4) = Ok tt s /\
  scrap s = Some [98; 0; 0] /\ slice (d_text (demo_doc 1 4)) 1 4 = [98; 10; 97].
Proof. eexists. split; [vm_compute; reflexivity | done]. Qed.

(** The condition before [growgap] in [query_replace] is the wrong way round: here the gap of four bytes is too short
    for the six that are needed more, it is not enlarged, and its end is before its start. *)
Lemma substitute_overruns : exists s b, substitute 2 1 [120; 120; 120; 120; 120; 120; 120] 50%nat (demo_editor 1 0) = Ok tt s /\
  buffers s !! 1 = Some b /\ b_egap b < b_gap b.
Proof. eexists _, _. split; [vm_compute; reflexivity|]. split; [vm_compute; reflexivity | done]. Qed.

(** Behind escape a NUL, C-space, is recorded as the end of what was read: every key is swallowed from there on, until the
    NUL behind the 256th byte is stored behind the record. *)
Lemma getkey_swallows : getkey keymap 300%nat (with_keys (fun n => nth n [27; 0] 97) (demo_editor 0 0)) = Fault Bad_pointer.
Proof. by vm_compute. Qed.

(** A table with a sequence of 256 bytes, as many as the record has, is enough for that. *)
Lemma getkey_overruns : getkey [(repeat 97 256, tt)] 300%nat (with_keys (fun _ => 97) (demo_editor 0 0)) = Fault Bad_pointer.
Proof. by vm_compute. Qed.

(** With the gap at the start, as [save] leaves it, [wleft] from the first word leaves the point before the text. *)
Lemma wleft_negative : exists b, (movegap 0;; wleft) 50%nat (demo_buffer 1 NOMARK) = Ok tt b /\ b_point b = -1.
Proof. eexists. split; [vm_compute; reflexivity | done]. Qed.

(** A last line without a newline is not found by its number. *)
Lemma last_line_not_found : text (with_egap 7 (demo_buffer 0 NOMARK)) = [97; 98; 97; 98; 99; 10] /\
  exists b, line_to_point 2 50%nat (with_egap 7 (demo_buffer 0 NOMARK)) = Ok (-1) b.
Proof. split; [done|]. eexists. vm_compute. reflexivity. Qed.
