(* ===== verification/Game2048.v ===== *)
(** * The game 2048 (src/games/2048/2048.c)

    The board is a list of four columns of four cells, [board[x][y]]; a cell holds the exponent of its tile, 0 when it is empty.
    An array that a function gets by its address is passed and returned.  The values of rand() come from
    outside, the keys are a list behind which getchar returns EOF, and what is drawn is a list of events.  The terminal
    settings, the signal handler, the 150 ms pause and the colours are left out. *)

From Stdlib Require Import ZArith Lia.
From stdpp Require Import base numbers list strings.
From S2P Require Import Prelude FastLZ.

Open Scope Z_scope.

Definition SIZE : Z := 4.

Inductive event : Type :=
  | Drawn (board : list (list Z)) (score : Z)
  | Game_over
  | Ask_quit
  | Ask_restart
  | Test_failed (t : Z)
  | Tests_passed (tests : Z).

Record game : Type := Game {
  board : list (list Z);
  score : Z;
  keys : list Z;
  draws : nat;          (** how often rand() was called *)
  events : list event
}.
Definition with_board (v : list (list Z)) (s : game) : game := Game v (score s) (keys s) (draws s) (events s).
Definition with_score (v : Z) (s : game) : game := Game (board s) v (keys s) (draws s) (events s).
Definition with_keys (v : list Z) (s : game) : game := Game (board s) (score s) v (draws s) (events s).
Definition with_draws (v : nat) (s : game) : game := Game (board s) (score s) (keys s) v (events s).
Definition with_events (v : list event) (s : game) : game := Game (board s) (score s) (keys s) (draws s) v.

Abbreviation G := (prog game).

(** ** Cells *)

(** [array[i]]. *)
Definition cell (array : list Z) (i : Z) : G Z :=
  match byte_at array i with Some v => mret v | None => fail Bad_pointer end.

(** [array[i] = v]. *)
Definition set_cell (array : list Z) (i v : Z) : G (list Z) :=
  match byte_at array i with Some _ => mret (<[Z.to_nat i := u8 v]> array) | None => fail Bad_pointer end.

(** [board[x]]. *)
Definition column (x : Z) : G (list Z) :=
  s ← get_state;
  if x <? 0 then fail Bad_pointer else
  match board s !! Z.to_nat x with Some c => mret c | None => fail Bad_pointer end.

Definition set_column (x : Z) (c : list Z) : G unit :=
  modify (fun s => with_board (<[Z.to_nat x := c]> (board s)) s).

(** [board[x][y]]. *)
Definition get (x y : Z) : G Z := c ← column x; cell c y.
Definition put (x y v : Z) : G unit := c ← column x; c ← set_cell c y v; set_column x c.

(** [(uint32_t)1 << n]: undefined from 32 on. *)
Definition shift_one (n : Z) : G Z := if n <? 32 then mret (Z.shiftl 1 n) else fail Bad_pointer.

(** ** Sliding *)

(** [for(t=x-1;t>=0;t--)]: [t] is an unsigned byte, so the condition holds always. *)
Fixpoint target_loop (n : nat) (array : list Z) (x stop t : Z) : G Z :=
  match n with
  | O => fail Out_of_fuel
  | S n =>
      a ← cell array t;
      if negb (a =? 0) then
        b ← cell array x;
        if negb (a =? b) then mret (u8 (t + 1)) else mret t
      else if t =? stop then mret t
      else target_loop n array x stop (u8 (t - 1))
  end.

Definition findTarget (array : list Z) (x stop : Z) : G Z :=
  if x =? 0 then mret x else with_fuel (fun n => target_loop n array x stop (u8 (x - 1))).

(** [for (x=0;x<SIZE;x++)] of slideArray. *)
Fixpoint slide_loop (n : nat) (array : list Z) (x stop : Z) (success : bool) : G (list Z * bool) :=
  match n with
  | O => fail Out_of_fuel
  | S n =>
      if SIZE <=? x then mret (array, success) else
      a ← cell array x;
      if negb (a =? 0) then
        t ← findTarget array x stop;
        if negb (t =? x) then
          b ← cell array t;
          '(array, stop) ← (if b =? 0 then array ← set_cell array t a; mret (array, stop)
            else if b =? a then
              array ← set_cell array t (b + 1);
              c ← cell array t;
              points ← shift_one c;
              modify (fun s => with_score (u32 (score s + points)) s);;
              mret (array, u8 (t + 1))
            else mret (array, stop));
          array ← set_cell array x 0;
          slide_loop n array (x + 1) stop true
        else slide_loop n array (x + 1) stop success
      else slide_loop n array (x + 1) stop success
  end.

Definition slideArray (array : list Z) : G (list Z * bool) :=
  with_fuel (fun n => slide_loop n array 0 0 false).

(** ** The board *)

Definition rotate_cells (i j : Z) : G unit :=
  let n := SIZE in
  tmp ← get i j;
  v ← get j (n - i - 1); put i j v;;
  v ← get (n - i - 1) (n - j - 1); put j (n - i - 1) v;;
  v ← get (n - j - 1) i; put (n - i - 1) (n - j - 1) v;;
  put (n - j - 1) i tmp.

Fixpoint rotate_inner (k : nat) (i j : Z) : G unit :=
  match k with
  | O => fail Out_of_fuel
  | S k => if j <? SIZE - i - 1 then rotate_cells i j;; rotate_inner k i (j + 1) else mret tt
  end.
Fixpoint rotate_outer (k : nat) (i : Z) : G unit :=
  match k with
  | O => fail Out_of_fuel
  | S k => if i <? SIZE / 2 then with_fuel (fun n => rotate_inner n i i);; rotate_outer k (i + 1) else mret tt
  end.
Definition rotateBoard : G unit := with_fuel (fun n => rotate_outer n 0).

Fixpoint up_loop (n : nat) (x : Z) (success : bool) : G bool :=
  match n with
  | O => fail Out_of_fuel
  | S n =>
      if SIZE <=? x then mret success else
      c ← column x;
      '(c, moved) ← slideArray c;
      set_column x c;;
      up_loop n (x + 1) (success || moved)
  end.
Definition moveUp : G bool := with_fuel (fun n => up_loop n 0 false).

Definition moveLeft : G bool :=
  rotateBoard;; success ← moveUp; rotateBoard;; rotateBoard;; rotateBoard;; mret success.
Definition moveDown : G bool :=
  rotateBoard;; rotateBoard;; success ← moveUp; rotateBoard;; rotateBoard;; mret success.
Definition moveRight : G bool :=
  rotateBoard;; rotateBoard;; rotateBoard;; success ← moveUp; rotateBoard;; mret success.

(** ** The end of the game *)

(** The nested loops over the cells, with [y] below [bound]: [f] returns [Some] to leave both. *)
Fixpoint cells_loop {A} (n : nat) (bound x y : Z) (a : A) (f : Z -> Z -> A -> G (A * bool)) : G A :=
  match n with
  | O => fail Out_of_fuel
  | S n =>
      if SIZE <=? x then mret a else
      if bound <=? y then cells_loop n bound (x + 1) 0 a f else
      '(a, leave) ← f x y a;
      if leave : bool then mret a else cells_loop n bound x (y + 1) a f
  end.

Definition findPairDown : G bool :=
  with_fuel (fun n => cells_loop n (SIZE - 1) 0 0 false (fun x y found =>
    a ← get x y; b ← get x (y + 1); mret (if a =? b then (true, true) else (found, false)))).

Definition countEmpty : G Z :=
  with_fuel (fun n => cells_loop n SIZE 0 0 0 (fun x y count =>
    a ← get x y; mret (if a =? 0 then u8 (count + 1) else count, false))).

Definition gameEnded : G bool :=
  count ← countEmpty;
  if 0 <? count then mret false else
  pair ← findPairDown;
  if pair : bool then mret false else
  rotateBoard;;
  pair ← findPairDown;
  let ended := negb pair in
  rotateBoard;; rotateBoard;; rotateBoard;;
  mret ended.

(** ** The program's own tests *)

(** [data]: what goes in and what should come out. *)
Definition data : list (list Z * list Z) :=
  [([0; 0; 0; 1], [1; 0; 0; 0]); ([0; 0; 1; 1], [2; 0; 0; 0]); ([0; 1; 0; 1], [2; 0; 0; 0]); ([1; 0; 0; 1], [2; 0; 0; 0]);
   ([1; 0; 1; 0], [2; 0; 0; 0]); ([1; 1; 1; 0], [2; 1; 0; 0]); ([1; 0; 1; 1], [2; 1; 0; 0]); ([1; 1; 0; 1], [2; 1; 0; 0]);
   ([1; 1; 1; 1], [2; 2; 0; 0]); ([2; 2; 1; 1], [3; 2; 0; 0]); ([1; 1; 2; 2], [2; 3; 0; 0]); ([3; 0; 1; 1], [3; 2; 0; 0]);
   ([2; 0; 1; 1], [2; 2; 0; 0])].

Definition say (e : event) : G unit := modify (fun s => with_events (events s ++ [e]) s).

Fixpoint test_loop (rows : list (list Z * list Z)) (t : Z) : G bool :=
  match rows with
  | [] => mret true
  | (inp, out) :: rows =>
      '(array, _) ← slideArray inp;
      if bool_decide (array = out) then test_loop rows (t + 1) else say (Test_failed t);; mret false
  end.

(** The exit status: 0 when all tests pass. *)
Definition test : G Z :=
  success ← test_loop data 0;
  if success : bool then say (Tests_passed (Z.of_nat (length data)));; mret 0 else mret 1.

(** ** Playing *)

Section play.
Context (rands : nat -> Z).

(** [rand()]. *)
Definition rand : G Z := s ← get_state; set_state (with_draws (S (draws s)) s);; mret (rands (draws s)).

Definition drawBoard : G unit := modify (fun s => with_events (events s ++ [Drawn (board s) (score s)]) s).

Definition empty_cells : G (list (Z * Z)) :=
  with_fuel (fun n => cells_loop n SIZE 0 0 [] (fun x y found =>
    a ← get x y; mret (if a =? 0 then found ++ [(x, y)] else found, false))).

Definition addRandom : G unit :=
  found ← empty_cells;
  let len := Z.of_nat (length found) in
  if 0 <? len then
    r ← rand;
    match found !! Z.to_nat (Z.rem r len) with
    | Some (x, y) => k ← rand; put x y (Z.quot (Z.rem k 10) 9 + 1)
    | None => fail Bad_pointer
    end
  else mret tt.

Definition initBoard : G unit :=
  modify (with_board (replicate 4 (replicate 4 0)));;
  addRandom;; addRandom;; drawBoard;; modify (with_score 0).

(** [getchar()] into a char. *)
Definition getchar : G Z :=
  s ← get_state;
  match keys s with
  | c :: l => set_state (with_keys l s);; mret (u8 c)
  | [] => mret 255
  end.

(** The move of a key, if it has one. *)
Definition move_of (c : Z) : G bool :=
  if bool_decide (c ∈ [97; 104; 68]) then moveLeft else
  if bool_decide (c ∈ [100; 108; 67]) then moveRight else
  if bool_decide (c ∈ [119; 107; 65]) then moveUp else
  if bool_decide (c ∈ [115; 106; 66]) then moveDown else mret false.

(** One turn of the loop of main: whether the loop goes on. *)
Definition turn : G bool :=
  c ← getchar;
  success ← move_of c;
  ended ← (if success : bool then drawBoard;; addRandom;; drawBoard;; gameEnded else mret false);
  if ended : bool then say Game_over;; mret false else
  c' ← (if c =? 113 then say Ask_quit;; getchar else mret c);
  if (c =? 113) && (c' =? 121) then mret false else
  (if c =? 113 then drawBoard else mret tt);;
  (if c' =? 114 then
     say Ask_restart;; c'' ← getchar;
     (if c'' =? 121 then initBoard else mret tt);;
     drawBoard
   else mret tt);;
  mret true.

Fixpoint main_loop (n : nat) : G unit :=
  match n with
  | O => fail Out_of_fuel
  | S n => go ← turn; if go : bool then main_loop n else mret tt
  end.

Definition main : G unit := initBoard;; with_fuel main_loop.

(** The program with its argument; the two colour schemes change nothing else. *)
Definition program (arg : option string) : G Z :=
  match arg with
  | Some "test"%string => test
  | _ => main;; mret 0
  end.
End play.
