(* ===== verification/Game2048Spec.v ===== *)
(** * The rules of 2048 and what 2048.c does

    A line of tiles slides to its start: the tiles move together and, from the start on, equal neighbours become one tile,
    each tile once. *)

From Stdlib Require Import ZArith Lia.
From stdpp Require Import base numbers list strings.
From S2P Require Import Prelude FastLZ Game2048.

Open Scope Z_scope.

(** ** The rules *)

Definition tiles (l : list Z) : list Z := filter (fun v => v <> 0) l.

Fixpoint merge (l : list Z) : list Z :=
  match l with
  | a :: ((b :: l') as t) => if a =? b then (a + 1) :: merge l' else a :: merge t
  | _ => l
  end.

(** What the merges of a line are worth. *)
Fixpoint points (l : list Z) : Z :=
  match l with
  | a :: ((b :: l') as t) => if a =? b then 2 ^ (a + 1) + points l' else points t
  | _ => 0
  end.

Definition padded (n : nat) (l : list Z) : list Z := l ++ replicate (n - length l) 0.
Definition slid (l : list Z) : list Z := padded (length l) (merge (tiles l)).

(** A column of the board; no tile is near the end of the exponents. *)
Definition column_ok (l : list Z) : Prop := length l = 4%nat /\ Forall (fun v => 0 <= v < 31) l.

Lemma tiles_app l l' : tiles (l ++ l') = tiles l ++ tiles l'.
Proof. apply filter_app. Qed.

Lemma tiles_cons_0 l : tiles (0 :: l) = tiles l.
Proof. done. Qed.

Lemma tiles_cons v l : v <> 0 -> tiles (v :: l) = v :: tiles l.
Proof. intros Hv. unfold tiles. by rewrite filter_cons_True. Qed.

Lemma merge_equal a l : merge (a :: a :: l) = (a + 1) :: merge l.
Proof. cbn [merge]. by rewrite Z.eqb_refl. Qed.
Lemma merge_other a b l : a <> b -> merge (a :: b :: l) = a :: merge (b :: l).
Proof. intros Hab. cbn [merge]. by destruct (Z.eqb_spec a b). Qed.
Lemma points_equal a l : points (a :: a :: l) = 2 ^ (a + 1) + points l.
Proof. cbn [points]. by rewrite Z.eqb_refl. Qed.
Lemma points_other a b l : a <> b -> points (a :: b :: l) = points (b :: l).
Proof. intros Hab. cbn [points]. by destruct (Z.eqb_spec a b). Qed.

(** The first tile stays first, grown or not. *)
Lemma merge_head v l : exists l', merge (v :: l) = v :: l' \/ merge (v :: l) = (v + 1) :: l'.
Proof. destruct l as [|b l]; cbn [merge]; [by eexists; left|]. destruct (v =? b); eexists; [by right | by left]. Qed.

Lemma points_nonneg l : Forall (fun v => 0 <= v) l -> 0 <= points l.
Proof.
  remember (length l) as k eqn:Ek. revert l Ek. induction k as [k IH] using lt_wf_ind. intros [|a [|b l]] -> Hl; [done..|].
  apply Forall_cons in Hl as [Ha Hl]. destruct (decide (a = b)) as [<-|Hab].
  - rewrite points_equal. apply Forall_cons in Hl as [_ Hl]. assert (0 <= points l) by (eapply IH; [|reflexivity|done]; cbn; lia).
    pose proof (Z.pow_nonneg 2 (a + 1)). lia.
  - rewrite points_other by done. eapply IH; [|reflexivity|done]. cbn. lia.
Qed.

(** ** Cells *)

Lemma wp_cell l i v s (Q : Z -> game -> Prop) : 0 <= i -> l !! Z.to_nat i = Some v -> Q v s -> wp (fun _ => cell l i) s Q.
Proof. intros Hi Hv HQ. unfold cell, byte_at. destruct (Z.ltb_spec i 0); [lia|]. rewrite Hv. by apply wp_ret. Qed.

Lemma wp_set_cell l i v s (Q : list Z -> game -> Prop) :
  0 <= i < Z.of_nat (length l) -> 0 <= v < 256 -> Q (<[Z.to_nat i := v]> l) s -> wp (fun _ => set_cell l i v) s Q.
Proof.
  intros Hi Hv HQ. unfold set_cell, byte_at. destruct (Z.ltb_spec i 0); [lia|].
  destruct (lookup_lt_is_Some_2 l (Z.to_nat i) ltac:(lia)) as [w ->]. apply wp_ret. by rewrite u8_id.
Qed.

(** A list as what is before a place, the place, and what follows. *)
Lemma wp_cell_at l a v b i s (Q : Z -> game -> Prop) :
  l = a ++ v :: b -> i = Z.of_nat (length a) -> Q v s -> wp (fun _ => cell l i) s Q.
Proof. intros -> -> HQ. eapply wp_cell; [lia | | exact HQ]. rewrite Nat2Z.id. by apply list_lookup_middle. Qed.

Lemma wp_set_cell_at l a w b i v s (Q : list Z -> game -> Prop) :
  l = a ++ w :: b -> i = Z.of_nat (length a) -> 0 <= v < 256 -> Q (a ++ v :: b) s -> wp (fun _ => set_cell l i v) s Q.
Proof.
  intros -> -> Hv HQ. apply wp_set_cell; [rewrite length_app; cbn [length]; lia | done |].
  by rewrite Nat2Z.id, insert_app_r_alt, Nat.sub_diag by done.
Qed.

(** ** The target of a tile *)

(** The cells before the tile: tiles [P] and [k] empty ones. *)
Lemma target_loop_spec P k v rest stop j s (Q : Z -> game -> Prop) :
  let array := P ++ replicate k 0 ++ v :: rest in
  let x := Z.of_nat (length P + k) in
  Forall (fun w => w <> 0) P -> v <> 0 -> x < 256 -> (j <= k)%nat ->
  0 <= stop <= Z.of_nat (length P) ->
  (stop = Z.of_nat (length P) -> (0 < j)%nat) -> (stop < Z.of_nat (length P) \/ (0 < j)%nat) ->
  (stop = Z.of_nat (length P) -> Q (Z.of_nat (length P)) s) ->
  (forall P' w, P = P' ++ [w] -> stop < Z.of_nat (length P) ->
    Q (if w =? v then Z.of_nat (length P') else Z.of_nat (length P)) s) ->
  wp (fun n => target_loop n array x stop (Z.of_nat (length P + j) - 1)) s Q.
Proof.
  intros array x HP Hv Hx. subst array x. induction j as [|j IH]; intros Hj Hst Hst1 Hst2 HQ1 HQ2;
    (eapply wp_unfold; [intros n; cbn [target_loop]; reflexivity|]); cbv beta.
  - destruct Hst2 as [Hlt|]; [|lia]. destruct P as [|w P' _] using rev_ind; [cbn in Hlt; lia|].
    rewrite length_app in *. cbn [length] in *. apply wp_bind.
    eapply (wp_cell_at _ P' w (replicate k 0 ++ v :: rest)); [by rewrite <- app_assoc | lia |].
    apply Forall_app in HP as [_ Hw]. apply Forall_cons in Hw as [Hw _].
    destruct (Z.eqb_spec w 0); [done|]. cbn [negb]. apply wp_bind.
    eapply (wp_cell_at _ ((P' ++ [w]) ++ replicate k 0) v rest); [by rewrite <- !app_assoc | |].
    { rewrite !length_app, length_replicate. done. }
    specialize (HQ2 P' w eq_refl ltac:(lia)). destruct (Z.eqb_spec w v); cbn [negb]; apply wp_ret.
    + by replace (Z.of_nat (length P' + 1 + 0) - 1) with (Z.of_nat (length P')) by lia.
    + replace (Z.of_nat (length P' + 1 + 0) - 1 + 1) with (Z.of_nat (length P' + 1)) by lia.
      rewrite u8_id; [exact HQ2 | lia].
  - apply wp_bind. eapply (wp_cell_at _ (P ++ replicate j 0) 0 (replicate (k - S j) 0 ++ v :: rest)).
    { rewrite <- app_assoc. f_equal. replace k with (j + S (k - S j))%nat at 1 by lia.
      rewrite replicate_add, <- app_assoc. done. }
    { rewrite length_app, length_replicate. lia. }
    cbn [Z.eqb negb]. destruct (Z.eqb_spec (Z.of_nat (length P + S j) - 1) stop) as [E|E].
    + apply wp_ret. replace (Z.of_nat (length P + S j) - 1) with (Z.of_nat (length P)) by lia. apply HQ1. lia.
    + rewrite u8_id by lia.
      replace (Z.of_nat (length P + S j) - 1 - 1) with (Z.of_nat (length P + j) - 1) by lia.
      apply IH; [lia | done | lia | lia | done | done].
Qed.

Lemma findTarget_spec P k v rest stop s (Q : Z -> game -> Prop) :
  let x := Z.of_nat (length P + k) in
  Forall (fun w => w <> 0) P -> v <> 0 -> x < 256 -> 0 <= stop <= Z.of_nat (length P) ->
  (stop = Z.of_nat (length P) -> (0 < k)%nat \/ P = []) ->
  (stop = Z.of_nat (length P) -> Q (Z.of_nat (length P)) s) ->
  (forall P' w, P = P' ++ [w] -> stop < Z.of_nat (length P) ->
    Q (if w =? v then Z.of_nat (length P') else Z.of_nat (length P)) s) ->
  wp (fun _ => findTarget (P ++ replicate k 0 ++ v :: rest) x stop) s Q.
Proof.
  intros x HP Hv Hx Hst Hk HQ1 HQ2. unfold findTarget. destruct (Z.eqb_spec x 0) as [E|E].
  - apply wp_ret. unfold x in *. assert (P = []) as -> by (destruct P; [done | cbn in E; lia]).
    cbn in *. replace (Z.of_nat k) with 0 by lia. apply HQ1. lia.
  - apply wp_with_fuel. rewrite u8_id by lia. apply target_loop_spec; [done..|lia|done| |  |done|done].
    + intros E1. destruct (Hk E1) as [?| ->]; [done | unfold x in E; cbn in E; lia].
    + destruct (Z.eq_dec stop (Z.of_nat (length P))) as [E1|]; [right | left; lia].
      destruct (Hk E1) as [?| ->]; [done | unfold x in E; cbn in E; lia].
Qed.

(** ** Sliding a line *)

Lemma replicate_snoc_app (k : nat) (l : list Z) : replicate k 0 ++ 0 :: l = replicate (S k) 0 ++ l.
Proof. by rewrite replicate_S_end, <- app_assoc. Qed.

Lemma u32_add_assoc a b c : u32 (u32 (a + b) + c) = u32 (a + (b + c)).
Proof. unfold u32. rewrite Z.add_mod_idemp_l by lia. f_equal. lia. Qed.

(** What a step of the loop leaves: finished tiles [F], a tile that may still grow ([pend]), [k] empty cells, the rest. *)
Record scan (F pend : list Z) (k : nat) (rest : list Z) (stop : Z) : Prop := Scan {
  scan_length : (length F + length pend + k + length rest = 4)%nat;
  scan_done : Forall (fun v => v <> 0) (F ++ pend);
  scan_range : Forall (fun v => 0 <= v < 31) (pend ++ rest);
  scan_stop : match pend with [] => stop = Z.of_nat (length F) /\ ((0 < k)%nat \/ F = []) | [_] => 0 <= stop <= Z.of_nat (length F) | _ => False end
}.

(** One tile: where it goes. *)
Lemma scan_target F pend k v rest stop s (Q : Z -> game -> Prop) : scan F pend k (v :: rest) stop -> v <> 0 ->
  Q (match pend with
     | [w] => if w =? v then Z.of_nat (length F) else Z.of_nat (S (length F))
     | _ => Z.of_nat (length F)
     end) s ->
  wp (fun _ => findTarget (F ++ pend ++ replicate k 0 ++ v :: rest) (Z.of_nat (length F + length pend + k)) stop) s Q.
Proof.
  intros [Hl Hd Hr Hs] Hv HQ. cbn [length] in Hl. rewrite (app_assoc F pend).
  replace (length F + length pend + k)%nat with (length (F ++ pend) + k)%nat by (rewrite length_app; lia).
  apply findTarget_spec; [done | done | rewrite length_app; lia | | | |].
  - rewrite length_app. destruct pend as [|w [|]]; [lia | lia | done].
  - rewrite length_app. intros E. destruct pend as [|w [|]]; [destruct Hs as [_ [?| ->]]; [by left | by right] | cbn in *; lia | done].
  - rewrite length_app. intros E. destruct pend as [|w [|]]; [by rewrite Nat.add_0_r | cbn in *; lia | done].
  - intros P' w E Hlt. rewrite length_app in *. destruct pend as [|w' [|]]; [cbn in *; lia | | done].
    apply app_inj_tail in E as [-> ->]. cbn [length]. by rewrite Nat.add_1_r.
Qed.

Lemma with_score_id s : 0 <= score s < 4294967296 -> with_score (u32 (score s + 0)) s = s.
Proof. intros H. rewrite Z.add_0_r. unfold u32. rewrite Z.mod_small by done. by destruct s. Qed.

Lemma padded_4 F l : (length F + length l <= 4)%nat -> padded 4 (F ++ l) = F ++ l ++ replicate (4 - length F - length l) 0.
Proof. intros H. unfold padded. rewrite <- app_assoc, length_app. do 3 f_equal. lia. Qed.

Lemma merge_length l : (length (merge l) <= length l)%nat.
Proof.
  remember (length l) as k eqn:Ek. revert l Ek. induction k as [k IH] using lt_wf_ind. intros [|a [|b l]] ->; [done..|].
  destruct (decide (a = b)) as [<-|Hab].
  - rewrite merge_equal. specialize (IH (length l) ltac:(cbn; lia) l eq_refl). cbn [length]. lia.
  - rewrite merge_other by done. specialize (IH (length (b :: l)) ltac:(cbn; lia) (b :: l) eq_refl). cbn [length] in *. lia.
Qed.

Lemma tiles_length l : (length (tiles l) <= length l)%nat.
Proof. apply length_filter. Qed.

(** A line whose first changed cell gets the head of a merge. *)
Lemma changed F a l v t : (length F + length (v :: t) <= 4)%nat -> a <> v -> a <> v + 1 ->
  bool_decide (F ++ a :: l = padded 4 (F ++ merge (v :: t))) = false.
Proof.
  intros Hl H1 H2. apply bool_decide_eq_false_2. pose proof (merge_length (v :: t)). rewrite padded_4 by (cbn [length] in *; lia).
  intros E%app_inv_head. destruct (merge_head v t) as [l' [E'|E']]; rewrite E' in E; cbn [app] in E; congruence.
Qed.

(** The loop is right from [rest] on. *)
Definition slides (rest : list Z) : Prop := forall F pend k stop success s (Q : list Z * bool -> game -> Prop),
  scan F pend k rest stop -> 0 <= score s < 4294967296 ->
  let array := F ++ pend ++ replicate k 0 ++ rest in
  let result := padded 4 (F ++ merge (pend ++ tiles rest)) in
  Q (result, success || negb (bool_decide (array = result))) (with_score (u32 (score s + points (pend ++ tiles rest))) s) ->
  wp (fun n => slide_loop n array (Z.of_nat (length F + length pend + k)) stop success) s Q.

Ltac unfold_slide := eapply wp_unfold; [intros n; cbn [slide_loop]; reflexivity|]; cbv beta; unfold SIZE.

Lemma slides_nil : slides [].
Proof.
  intros F pend k stop success s Q [Hl _ _ Hs] Hsc array result HQ. subst array result. cbn [length] in Hl. unfold_slide.
  destruct (Z.leb_spec 4 (Z.of_nat (length F + length pend + k))); [|lia]. apply wp_ret.
  assert (merge (pend ++ tiles []) = pend /\ points (pend ++ tiles []) = 0) as [E1 E2] by (by destruct pend as [|w [|]]).
  rewrite E1, E2, with_score_id, padded_4 in HQ by (done || lia).
  replace (4 - length F - length pend)%nat with k in HQ by lia. rewrite app_nil_r in *.
  by rewrite bool_decide_eq_true_2, orb_false_r in HQ.
Qed.

Lemma slides_zero rest : slides rest -> slides (0 :: rest).
Proof.
  intros IH F pend k stop success s Q [Hl Hd Hr Hs] Hsc array result HQ. subst array result. cbn [length] in Hl. unfold_slide.
  destruct (Z.leb_spec 4 (Z.of_nat (length F + length pend + k))); [lia|]. apply wp_bind.
  eapply (wp_cell_at _ (F ++ pend ++ replicate k 0) 0 rest).
  { by rewrite <- !app_assoc. }
  { rewrite !length_app, length_replicate. lia. }
  cbn [Z.eqb negb]. rewrite replicate_snoc_app in *.
  replace (Z.of_nat (length F + length pend + k) + 1) with (Z.of_nat (length F + length pend + S k)) by lia.
  apply IH; [|done|done]. split; [lia | done | |].
  - apply Forall_app in Hr as [H1 H2]. apply Forall_cons in H2 as [_ H2]. by apply Forall_app.
  - destruct pend as [|w [|]]; [destruct Hs; split; [done | left; lia] | done | done].
Qed.

(** What the loop does with the tile [v] at [x] whose target is [t]. *)
Definition goes (a : list Z) (v t x stop : Z) : nat -> G (list Z * bool) := fun n =>
  b ← cell a t;
  '(array, stop) ← (if b =? 0 then array ← set_cell a t v; mret (array, stop)
    else if b =? v then
      array ← set_cell a t (b + 1);
      c ← cell array t;
      points ← shift_one c;
      modify (fun s => with_score (u32 (score s + points)) s);;
      mret (array, u8 (t + 1))
    else mret (a, stop));
  array ← set_cell array x 0;
  slide_loop n array (x + 1) stop true.

(** The tile moves to an empty cell. *)
Lemma slides_move v rest F a k stop success s Q : slides rest ->
  (length F + S k + S (length rest) = 4)%nat -> Forall (fun w => w <> 0) F -> Forall (fun w => 0 <= w < 31) (v :: rest) -> v <> 0 ->
  0 <= stop <= Z.of_nat (length F) -> 0 <= score s < 4294967296 ->
  (let result := padded 4 (F ++ merge (v :: tiles rest)) in
   Q (result, success || negb (bool_decide (F ++ replicate (S k) 0 ++ v :: rest = result)))
     (with_score (u32 (score s + points (v :: tiles rest))) s)) ->
  a = F ++ replicate (S k) 0 ++ v :: rest ->
  wp (goes a v (Z.of_nat (length F)) (Z.of_nat (length F + S k)) stop) s Q.
Proof.
  intros IH Hl Hd Hr Hv Hs Hsc HQ ->. apply Forall_cons in Hr as [Hv' Hr]. apply wp_bind.
  eapply (wp_cell_at _ F 0); [done..|]. cbn [Z.eqb]. apply wp_bind, wp_bind.
  eapply (wp_set_cell_at _ F 0); [done | done | lia |]. apply wp_ret. apply wp_bind.
  eapply (wp_set_cell_at _ (F ++ v :: replicate k 0) v rest).
  { by rewrite <- app_assoc. }
  { rewrite length_app. cbn [length]. rewrite length_replicate. lia. }
  { lia. }
  rewrite <- app_assoc. cbn [app]. rewrite replicate_snoc_app.
  replace (Z.of_nat (length F + S k) + 1) with (Z.of_nat (length F + length [v] + S k)) by (cbn [length]; lia).
  apply (IH F [v]); [|done|].
  - split; [cbn [length]; lia | by apply Forall_app; split; [|repeat constructor] | by apply Forall_app; split; [repeat constructor; lia|] | done].
  - cbv zeta in HQ. cbn [replicate app] in HQ. rewrite changed, orb_true_r in HQ; [done | | done | lia].
    pose proof (tiles_length rest). cbn [length]. lia.
Qed.

(** The tile merges with the one before it. *)
Lemma slides_merge v rest F a k stop success s Q : slides rest ->
  (length F + S k + S (length rest) = 4)%nat -> Forall (fun w => w <> 0) F -> Forall (fun w => 0 <= w < 31) (v :: rest) -> v <> 0 ->
  0 <= score s < 4294967296 ->
  (let result := padded 4 (F ++ merge (v :: v :: tiles rest)) in
   Q (result, success || negb (bool_decide (F ++ v :: replicate k 0 ++ v :: rest = result)))
     (with_score (u32 (score s + points (v :: v :: tiles rest))) s)) ->
  a = F ++ v :: replicate k 0 ++ v :: rest ->
  wp (goes a v (Z.of_nat (length F)) (Z.of_nat (length F + S k)) stop) s Q.
Proof.
  intros IH Hl Hd Hr Hv Hsc HQ ->. apply Forall_cons in Hr as [Hv' Hr]. pose proof (tiles_length rest). apply wp_bind.
  eapply (wp_cell_at _ F v); [done..|]. destruct (Z.eqb_spec v 0) as [|_]; [done|]. rewrite Z.eqb_refl. apply wp_bind, wp_bind.
  eapply (wp_set_cell_at _ F v); [done | done | lia |]. apply wp_bind.
  eapply (wp_cell_at _ F (v + 1)); [done..|]. apply wp_bind. unfold shift_one. destruct (Z.ltb_spec (v + 1) 32); [|lia].
  apply wp_ret. apply wp_bind, wp_modify, wp_ret. apply wp_bind.
  eapply (wp_set_cell_at _ (F ++ (v + 1) :: replicate k 0) v rest).
  { by rewrite <- app_assoc. }
  { rewrite length_app. cbn [length]. rewrite length_replicate. lia. }
  { lia. }
  rewrite <- app_assoc. cbn [app]. rewrite replicate_snoc_app, u8_id by lia.
  replace (Z.of_nat (length F + S k) + 1) with (Z.of_nat (length (F ++ [v + 1]) + length (A := Z) [] + S k)) by (rewrite length_app; cbn [length]; lia).
  rewrite (cons_middle (v + 1)), app_assoc. apply (IH (F ++ [v + 1]) []); [| |].
  - split; [rewrite length_app; cbn [length]; lia | | done |].
    + rewrite app_nil_r. apply Forall_app; split; [done | repeat constructor; lia].
    + rewrite length_app. cbn [length]. split; [lia | left; lia].
  - cbn [with_score score]. apply Z.mod_pos_bound. lia.
  - cbv zeta in HQ. cbn [with_score score board keys draws events app]. rewrite u32_add_assoc, Z.shiftl_1_l, <- app_assoc.
    rewrite merge_equal, points_equal in HQ. rewrite bool_decide_eq_false_2, orb_true_r in HQ; [done|].
    pose proof (merge_length (tiles rest)). rewrite padded_4 by (cbn [length]; lia). intros E%app_inv_head.
    injection E as E _. lia.
Qed.

(** A tile that stays where it is. *)
Lemma slides_stay v rest F pend F' k stop success s Q : slides rest -> scan F pend k (v :: rest) stop -> v <> 0 ->
  0 <= score s < 4294967296 -> (k = 0)%nat -> F' = F ++ pend -> pend <> [v] ->
  (let result := padded 4 (F ++ merge (pend ++ tiles (v :: rest))) in
   Q (result, success || negb (bool_decide (F ++ pend ++ replicate k 0 ++ v :: rest = result)))
     (with_score (u32 (score s + points (pend ++ tiles (v :: rest)))) s)) ->
  wp (fun n => slide_loop n (F ++ pend ++ replicate k 0 ++ v :: rest) (Z.of_nat (length F + length pend + k) + 1) stop success) s Q.
Proof.
  intros IH [Hl Hd Hr Hs] Hv Hsc -> -> Hp HQ. cbn [length replicate app] in *. rewrite tiles_cons in HQ by done.
  apply Forall_app in Hr as [_ Hr]. apply Forall_cons in Hr as [Hv' Hr].
  replace (Z.of_nat (length F + length pend + 0) + 1) with (Z.of_nat (length (F ++ pend) + length [v] + 0)) by (rewrite length_app; cbn [length]; lia).
  rewrite (app_assoc F pend). apply (IH (F ++ pend) [v] 0%nat); [| done |].
  - split.
    + rewrite length_app. cbn [length]. lia.
    + apply Forall_app; split; [done | repeat constructor; done].
    + apply Forall_app; split; [repeat constructor; lia | done].
    + rewrite length_app. destruct pend as [|w [|]]; [|lia|done]. destruct Hs as [-> _]. lia.
  - cbn [replicate app]. rewrite <- !app_assoc. destruct pend as [|w [|]]; [done | | done].
    cbn [app] in *. by rewrite merge_other, points_other in HQ by congruence.
Qed.

Lemma slides_tile v rest : v <> 0 -> slides rest -> slides (v :: rest).
Proof.
  intros Hv IH F pend k stop success s Q Hscan Hsc array result HQ. subst array result. unfold_slide.
  pose proof Hscan as [Hl Hd Hr Hs]. cbn [length] in Hl. destruct (Z.leb_spec 4 (Z.of_nat (length F + length pend + k))); [lia|].
  apply wp_bind. eapply (wp_cell_at _ (F ++ pend ++ replicate k 0) v rest).
  { by rewrite <- !app_assoc. }
  { rewrite !length_app, length_replicate. lia. }
  destruct (Z.eqb_spec v 0) as [|_]; [done|]. cbn [negb]. apply wp_bind. apply scan_target; [done | done |].
  pose proof Hr as [Hr1 Hr2]%Forall_app. destruct pend as [|w [|]]; [| |done].
  - destruct Hs as [-> Hs]. destruct k as [|k].
    + rewrite (proj2 (Z.eqb_eq (Z.of_nat (length F) ) (Z.of_nat (length F + length (A := Z) [] + 0)))) by (cbn [length]; lia).
      by eapply slides_stay.
    + replace (length F + length (A := Z) [] + S k)%nat with (length F + S k)%nat in * by (cbn [length]; lia).
      rewrite (proj2 (Z.eqb_neq (Z.of_nat (length F) ) (Z.of_nat (length F + S k)))) by lia. cbn [app negb] in *.
      rewrite tiles_cons in HQ by done. rewrite app_nil_r in Hd. eapply slides_move; try done; lia.
  - destruct (Z.eqb_spec w v) as [->|Hwv].
    + replace (length F + length [v] + k)%nat with (length F + S k)%nat in * by (cbn [length]; lia).
      rewrite (proj2 (Z.eqb_neq (Z.of_nat (length F) ) (Z.of_nat (length F + S k)))) by lia. cbn [app negb] in *.
      rewrite tiles_cons in HQ by done. apply Forall_app in Hd as [Hd _]. eapply slides_merge; try done; lia.
    + destruct k as [|k].
      * rewrite (proj2 (Z.eqb_eq (Z.of_nat (S (length F)) ) (Z.of_nat (length F + length [w] + 0)))) by (cbn [length]; lia).
        eapply slides_stay; try done. congruence.
      * replace (length F + length [w] + S k)%nat with (length (F ++ [w]) + S k)%nat in * by (rewrite length_app; cbn [length]; lia).
        replace (S (length F)) with (length (F ++ [w])) by (rewrite length_app; cbn [length]; lia).
        rewrite (proj2 (Z.eqb_neq (Z.of_nat (length (F ++ [w])) ) (Z.of_nat (length (F ++ [w]) + S k)))) by lia. cbn [app negb] in *.
        rewrite tiles_cons, merge_other, points_other in HQ by done.
        eapply slides_move; try done; [rewrite length_app in *; cbn [length] in *; lia.. | | by rewrite <- app_assoc].
        cbv zeta. by rewrite <- !app_assoc.
Qed.

Lemma slide_loop_spec rest : slides rest.
Proof.
  induction rest as [|v rest IH]; [apply slides_nil|]. destruct (decide (v = 0)) as [->|]; [by apply slides_zero | by apply slides_tile].
Qed.

(** A line slides by the rule; the flag says whether it changed. *)
Lemma slideArray_spec l s (Q : list Z * bool -> game -> Prop) : column_ok l -> 0 <= score s < 4294967296 ->
  Q (slid l, negb (bool_decide (l = slid l))) (with_score (u32 (score s + points (tiles l))) s) ->
  wp (fun _ => slideArray l) s Q.
Proof.
  intros [Hl Hr] Hsc HQ. unfold slideArray. apply wp_with_fuel. unfold slid in HQ. rewrite Hl in HQ.
  apply (slide_loop_spec l [] [] 0%nat); [|done|exact HQ]. split; [cbn [length]; lia | done | done | by split; [|right]].
Qed.

Example slides_1 : slid [1; 0; 1; 1] = [2; 1; 0; 0] /\ slid [1; 1; 2; 2] = [2; 3; 0; 0] /\ slid [2; 1; 1; 2] = [2; 2; 2; 0].
Proof. done. Qed.

(** ** What sliding keeps *)

Lemma slid_length l : length (slid l) = length l.
Proof.
  unfold slid, padded. rewrite length_app, length_replicate. pose proof (merge_length (tiles l)). pose proof (tiles_length l). lia.
Qed.

Lemma merge_range m l : Forall (fun v => 0 <= v < m) l -> Forall (fun v => 0 <= v <= m) (merge l).
Proof.
  remember (length l) as k eqn:Ek. revert l Ek. induction k as [k IH] using lt_wf_ind. intros [|a [|b l]] -> Hl.
  - constructor.
  - apply Forall_cons in Hl as [Ha _]. cbn [merge]. repeat constructor; lia.
  - apply Forall_cons in Hl as [Ha Hl]. destruct (decide (a = b)) as [<-|Hab].
    + rewrite merge_equal. apply Forall_cons in Hl as [_ Hl]. constructor; [lia|]. eapply IH; [|reflexivity|done]. cbn. lia.
    + rewrite merge_other by done. constructor; [lia|]. eapply IH; [|reflexivity|done]. cbn. lia.
Qed.

Lemma tiles_nonzero l : Forall (fun v => v <> 0) (tiles l).
Proof. apply Forall_forall. intros v Hv. by apply list_elem_of_filter in Hv as [Hv _]. Qed.

Lemma tiles_range (P : Z -> Prop) l : Forall P l -> Forall P (tiles l).
Proof. intros H. apply Forall_forall. intros v Hv. apply list_elem_of_filter in Hv as [_ Hv]. by eapply Forall_forall in H. Qed.

Lemma slid_range m l : 0 <= m -> Forall (fun v => 0 <= v < m) l -> Forall (fun v => 0 <= v <= m) (slid l).
Proof.
  intros Hm Hl. unfold slid, padded. apply Forall_app. split; [by apply merge_range, tiles_range|]. by apply Forall_replicate.
Qed.

(** Sums over the cells of a line. *)
Definition sum (f : Z -> Z) (l : list Z) : Z := foldr (fun v n => f v + n) 0 l.

(** The value of a tile on the screen, and what merging two's into it has scored. *)
Definition face (v : Z) : Z := if v =? 0 then 0 else 2 ^ v.
Definition worth (v : Z) : Z := if v =? 0 then 0 else (v - 1) * 2 ^ v.

Section sums.
Context (f : Z -> Z) (f_0 : f 0 = 0).

Lemma sum_app l l' : sum f (l ++ l') = sum f l + sum f l'.
Proof. induction l as [|v l IH]; cbn [sum foldr app] in *; [done|]. fold (sum f (l ++ l')) (sum f l). unfold sum in *. lia. Qed.

Lemma sum_zeros k : sum f (replicate k 0) = 0.
Proof. induction k as [|k IH]; cbn [sum foldr replicate] in *; [done|]. unfold sum in *. lia. Qed.

Lemma sum_tiles l : sum f (tiles l) = sum f l.
Proof.
  induction l as [|v l IH]; [done|]. destruct (decide (v = 0)) as [->|Hv].
  - rewrite tiles_cons_0, IH. cbn [sum foldr]. unfold sum. lia.
  - rewrite tiles_cons by done. cbn [sum foldr] in *. unfold sum in *. by rewrite IH.
Qed.

Lemma sum_slid l : sum f (slid l) = sum f (merge (tiles l)).
Proof. unfold slid, padded. rewrite sum_app, sum_zeros. lia. Qed.

(** A merge changes the sum by as much as it changes the sum of two tiles, [c] times their points. *)
Lemma sum_merge c l : (forall a, 0 < a -> f (a + 1) = f a + f a + c * 2 ^ (a + 1)) -> Forall (fun v => 0 < v) l ->
  sum f (merge l) = sum f l + c * points l.
Proof.
  intros Hf. remember (length l) as k eqn:Ek. revert l Ek. induction k as [k IH] using lt_wf_ind. intros [|a [|b l]] -> Hl.
  - cbn. lia.
  - cbn. lia.
  - apply Forall_cons in Hl as [Ha Hl]. destruct (decide (a = b)) as [<-|Hab].
    + rewrite merge_equal, points_equal. apply Forall_cons in Hl as [_ Hl]. cbn [sum foldr]. fold (sum f (merge l)) (sum f l).
      rewrite (IH (length l) ltac:(cbn; lia) l eq_refl Hl), Hf by done. lia.
    + rewrite merge_other, points_other by done. cbn [sum foldr]. fold (sum f (merge (b :: l))) (sum f l).
      rewrite (IH (length (b :: l)) ltac:(cbn; lia) (b :: l) eq_refl Hl). cbn [sum foldr]. fold (sum f l). lia.
Qed.
End sums.

Lemma tiles_pos l : Forall (fun v => 0 <= v) l -> Forall (fun v => 0 < v) (tiles l).
Proof.
  intros H. pose proof (tiles_nonzero l) as H1. apply (tiles_range _ l) in H as H2.
  eapply Forall_impl; [apply Forall_and; split; [exact H1 | exact H2]|]. cbn beta. lia.
Qed.

(** The faces stay the same in sum; the worth grows by the points. *)
Lemma face_slid l : Forall (fun v => 0 <= v) l -> sum face (slid l) = sum face l.
Proof.
  intros Hl. rewrite sum_slid, (sum_merge face 0), sum_tiles by (done || (by apply tiles_pos) || shelve). lia. Unshelve.
  intros a Ha. unfold face. destruct (Z.eqb_spec (a + 1) 0), (Z.eqb_spec a 0); [lia..|]. rewrite Z.pow_add_r by lia. lia.
Qed.

Lemma worth_slid l : Forall (fun v => 0 <= v) l -> sum worth (slid l) = sum worth l + points (tiles l).
Proof.
  intros Hl. rewrite sum_slid, (sum_merge worth 1), sum_tiles by (done || (by apply tiles_pos) || shelve). lia. Unshelve.
  intros a Ha. unfold worth. destruct (Z.eqb_spec (a + 1) 0), (Z.eqb_spec a 0); [lia..|]. rewrite Z.pow_add_r by lia. lia.
Qed.
