(* ===== verification/Game2048Board.v ===== *)
(** * Moves on the board of 2048.c

    What the four moves do to the board, in terms of the rule for a line, and when the game is over. *)

From Stdlib Require Import ZArith Lia.
From stdpp Require Import base numbers list strings.
From S2P Require Import Prelude FastLZ Game2048 Game2048Spec.

Open Scope Z_scope.

(** ** Boards *)

(** Four columns of four cells below [m]. *)
Definition board_below (m : Z) (b : list (list Z)) : Prop :=
  length b = 4%nat /\ Forall (fun c => length c = 4%nat /\ Forall (fun v => 0 <= v < m) c) b.

(** [b[x][y]]. *)
Definition at_xy (b : list (list Z)) (x y : nat) : Z := nth y (nth x b []) 0.
Definition tabulate (f : nat -> nat -> Z) : list (list Z) := map (fun x => map (f x) (seq 0 4)) (seq 0 4).

Definition transpose (b : list (list Z)) : list (list Z) := tabulate (fun x y => at_xy b y x).
Definition rotated (b : list (list Z)) : list (list Z) := tabulate (fun x y => at_xy b y (3 - x)).

Lemma list_4 {A} (l : list A) : length l = 4%nat -> exists a b c d, l = [a; b; c; d].
Proof. destruct l as [|a [|b [|c [|d [|]]]]]; try done. intros _. by exists a, b, c, d. Qed.

(** A board by its sixteen cells. *)
Lemma board_cells m b : board_below m b ->
  exists a0 a1 a2 a3 b0 b1 b2 b3 c0 c1 c2 c3 d0 d1 d2 d3,
    b = [[a0; a1; a2; a3]; [b0; b1; b2; b3]; [c0; c1; c2; c3]; [d0; d1; d2; d3]] /\
    Forall (fun v => 0 <= v < m) [a0; a1; a2; a3; b0; b1; b2; b3; c0; c1; c2; c3; d0; d1; d2; d3].
Proof.
  intros [Hl Hf]. destruct (list_4 b Hl) as (w & x & y & z & ->). rewrite !Forall_cons in Hf.
  destruct Hf as ([H1 F1] & [H2 F2] & [H3 F3] & [H4 F4] & _).
  destruct (list_4 w H1) as (a0 & a1 & a2 & a3 & ->), (list_4 x H2) as (b0 & b1 & b2 & b3 & ->),
    (list_4 y H3) as (c0 & c1 & c2 & c3 & ->), (list_4 z H4) as (d0 & d1 & d2 & d3 & ->).
  exists a0, a1, a2, a3, b0, b1, b2, b3, c0, c1, c2, c3, d0, d1, d2, d3. split; [done|].
  rewrite !Forall_cons in *. tauto.
Qed.

Ltac board_cells H :=
  let E := fresh "E" in let F := fresh "F" in
  destruct (board_cells _ _ H) as (a0 & a1 & a2 & a3 & b0 & b1 & b2 & b3 & c0 & c1 & c2 & c3 & d0 & d1 & d2 & d3 & E & F).

(** ** A quarter turn *)

Lemma rotateBoard_spec m b s (Q : unit -> game -> Prop) : board_below m b -> m <= 256 -> board s = b ->
  Q tt (with_board (rotated b) s) -> wp (fun _ => rotateBoard) s Q.
Proof.
  intros Hb Hm Es HQ. board_cells Hb. subst b. destruct s as [bo sc ks dr ev]. cbn [board] in E. subst bo.
  exists 4%nat, tt. eexists. split; [|exact HQ]. intros n fuel _ Hf. do 4 (destruct fuel as [|fuel]; [lia|]).
  rewrite !Forall_cons in F.
  assert (rotateBoard (S (S (S (S fuel)))) (Game [[a0; a1; a2; a3]; [b0; b1; b2; b3]; [c0; c1; c2; c3]; [d0; d1; d2; d3]] sc ks dr ev) =
    Ok tt (Game (map (map u8) [[a3; b3; c3; d3]; [a2; b2; c2; d2]; [a1; b1; c1; d1]; [a0; b0; c0; d0]]) sc ks dr ev)) as -> by reflexivity.
  cbn [map]. rewrite !u8_id by lia. reflexivity.
Qed.

(** ** Up: every column slides *)

Definition board_points (b : list (list Z)) : Z := foldr (fun c n => points (tiles c) + n) 0 b.

(** The game with board [b] and [p] more points. *)
Definition scored (b : list (list Z)) (p : Z) (s : game) : game := with_score (u32 (score s + p)) (with_board b s).

Lemma up_loop_spec rest : forall front b s success (Q : bool -> game -> Prop),
  board s = b ++ rest -> length b = length front -> (length front + length rest = 4)%nat -> Forall column_ok rest ->
  0 <= score s < 4294967296 -> b = map slid front ->
  Q (success || negb (bool_decide (rest = map slid rest))) (scored (map slid (front ++ rest)) (board_points rest) s) ->
  wp (fun n => up_loop n (Z.of_nat (length front)) success) s Q.
Proof.
  induction rest as [|c rest IH]; intros front b s success Q Es Hb Hl Hok Hsc -> HQ;
    (eapply wp_unfold; [intros n; cbn [up_loop]; reflexivity|]); cbv beta; unfold SIZE; cbn [length] in Hl.
  - destruct (Z.leb_spec 4 (Z.of_nat (length front))); [|lia]. apply wp_ret.
    rewrite bool_decide_eq_true_2, orb_false_r in HQ by done. unfold scored, u32 in HQ. cbn [board_points foldr] in HQ.
    rewrite Z.add_0_r, Z.mod_small in HQ by done. rewrite app_nil_r in *. rewrite <- Es in HQ. by destruct s.
  - apply Forall_cons in Hok as [Hc Hok]. destruct (Z.leb_spec 4 (Z.of_nat (length front))); [lia|]. apply wp_bind.
    unfold column. apply wp_bind, wp_get_state. destruct (Z.ltb_spec (Z.of_nat (length front)) 0); [lia|].
    rewrite Es, Nat2Z.id, <- Hb, list_lookup_middle by done. apply wp_ret. apply wp_bind, slideArray_spec; [done | done |].
    apply wp_bind, wp_modify. rewrite !Hb.
    replace (Z.of_nat (length front) + 1) with (Z.of_nat (length (front ++ [c]))) by (rewrite length_app; cbn [length]; lia).
    apply (IH (front ++ [c]) (map slid front ++ [slid c])).
    + cbn [with_board with_score board]. rewrite Es, Nat2Z.id, <- Hb, insert_app_r_alt, Nat.sub_diag, <- app_assoc by done. done.
    + rewrite !length_app, Hb. done.
    + rewrite length_app. cbn [length]. lia.
    + done.
    + cbn [with_board with_score score]. apply Z.mod_pos_bound. lia.
    + by rewrite map_app.
    + unfold scored in *. cbn [with_board with_score score board keys draws events board_points foldr] in *.
      rewrite u32_add_assoc, <- app_assoc. cbn [app]. cbn [map] in HQ.
      replace (success || negb (bool_decide (c = slid c)) || negb (bool_decide (rest = map slid rest)))%bool
        with (success || negb (bool_decide (c :: rest = slid c :: map slid rest)))%bool; [done|].
      rewrite <- orb_assoc. f_equal. rewrite <- negb_andb. f_equal. rewrite <- bool_decide_and. apply bool_decide_ext.
      split; [intros E; by injection E | by intros [<- <-]].
Qed.

Lemma column_ok_below b : board_below 31 b -> Forall column_ok b.
Proof. by intros [_ H]. Qed.

Lemma moveUp_spec b s (Q : bool -> game -> Prop) : board_below 31 b -> board s = b -> 0 <= score s < 4294967296 ->
  Q (negb (bool_decide (b = map slid b))) (scored (map slid b) (board_points b) s) -> wp (fun _ => moveUp) s Q.
Proof.
  intros Hb Es Hsc HQ. apply wp_with_fuel. apply (up_loop_spec b [] []); try done; [apply Hb | by apply column_ok_below].
Qed.

(** ** The four directions *)

Inductive direction : Type := Left | Right | Up | Down.

Definition move (d : direction) : G bool :=
  match d with Left => moveLeft | Right => moveRight | Up => moveUp | Down => moveDown end.

(** The four lines of a direction, each from the wall the tiles go to. *)
Definition lines (d : direction) (b : list (list Z)) : list (list Z) :=
  match d with
  | Up => b
  | Down => map reverse b
  | Left => transpose b
  | Right => map reverse (transpose b)
  end.
Definition unlines (d : direction) (l : list (list Z)) : list (list Z) :=
  match d with
  | Up => l
  | Down => map reverse l
  | Left => transpose l
  | Right => transpose (map reverse l)
  end.

(** The rule of the game. *)
Definition moved (d : direction) (b : list (list Z)) : list (list Z) := unlines d (map slid (lines d b)).
Definition move_points (d : direction) (b : list (list Z)) : Z := board_points (lines d b).

Lemma lines_below d m b : board_below m b -> board_below m (lines d b).
Proof. intros H. board_cells H. subst b. rewrite !Forall_cons in F. destruct d; (split; [done|]); cbn; repeat constructor; lia. Qed.
Lemma unlines_below d m b : board_below m b -> board_below m (unlines d b).
Proof. intros H. board_cells H. subst b. rewrite !Forall_cons in F. destruct d; (split; [done|]); cbn; repeat constructor; lia. Qed.
Lemma unlines_lines d m b : board_below m b -> unlines d (lines d b) = b.
Proof. intros H. board_cells H. subst b. by destruct d. Qed.
Lemma lines_unlines d m b : board_below m b -> lines d (unlines d b) = b.
Proof. intros H. board_cells H. subst b. by destruct d. Qed.
Lemma rotated_below m b : board_below m b -> board_below m (rotated b).
Proof. intros H. board_cells H. subst b. rewrite !Forall_cons in F. split; [done|]. cbn. repeat constructor; lia. Qed.
Lemma slid_below m b : 0 <= m -> board_below m b -> board_below (m + 1) (map slid b).
Proof.
  intros Hm [Hl Hf]. split; [by rewrite length_map|]. apply Forall_forall. intros c Hc.
  apply list_elem_of_fmap in Hc as (c' & -> & Hc). rewrite Forall_forall in Hf. destruct (Hf _ Hc) as [H1 H2].
  rewrite slid_length. split; [done|]. eapply Forall_impl; [by apply (slid_range m)|]. cbn beta. lia.
Qed.

(** A full turn. *)
Lemma rotated_4 m b : board_below m b -> rotated (rotated (rotated (rotated b))) = b.
Proof. intros H. board_cells H. by subst b. Qed.

Lemma reverse_below m b : board_below m b -> board_below m (reverse b).
Proof.
  intros [Hl Hf]. split; [by rewrite length_reverse|]. rewrite Forall_forall in *. intros c Hc. apply Hf. by apply elem_of_reverse.
Qed.

(** How the turned boards are the lines. *)
Lemma rotated_1_lines m b : board_below m b -> rotated b = reverse (lines Left b).
Proof. intros H. board_cells H. by subst b. Qed.
Lemma rotated_2_lines m b : board_below m b -> rotated (rotated b) = reverse (lines Down b).
Proof. intros H. board_cells H. by subst b. Qed.
Lemma rotated_3_lines m b : board_below m b -> rotated (rotated (rotated b)) = lines Right b.
Proof. intros H. board_cells H. by subst b. Qed.
Lemma unlines_rotated_1 m b : board_below m b -> rotated b = unlines Right b.
Proof. intros H. board_cells H. by subst b. Qed.
Lemma unlines_rotated_2 m b : board_below m b -> rotated (rotated (reverse b)) = unlines Down b.
Proof. intros H. board_cells H. by subst b. Qed.
Lemma unlines_rotated_3 m b : board_below m b -> rotated (rotated (rotated (reverse b))) = unlines Left b.
Proof. intros H. board_cells H. by subst b. Qed.

Lemma board_points_app b b' : board_points (b ++ b') = board_points b + board_points b'.
Proof. unfold board_points. induction b as [|c b IH]; cbn [app foldr]; lia. Qed.
Lemma board_points_reverse b : board_points (reverse b) = board_points b.
Proof. induction b as [|c b IH]; [done|]. rewrite reverse_cons, board_points_app, IH. unfold board_points. cbn [foldr]. lia. Qed.
Lemma map_reverse {A B} (f : A -> B) l : map f (reverse l) = reverse (map f l).
Proof. induction l as [|a l IH]; [done|]. cbn [map]. by rewrite !reverse_cons, map_app, IH. Qed.
Lemma reverse_fixed (f : list Z -> list Z) l : bool_decide (reverse l = map f (reverse l)) = bool_decide (l = map f l).
Proof.
  apply bool_decide_ext. rewrite map_reverse. split; [|by intros <-]. intros E. by apply (inj reverse) in E.
Qed.

Lemma moved_fixed_iff d m b : 0 <= m -> board_below m b -> lines d b = map slid (lines d b) <-> b = moved d b.
Proof.
  intros Hm Hb. unfold moved. split.
  - intros <-. by rewrite (unlines_lines d m).
  - intros E. rewrite E at 1. apply (lines_unlines d (m + 1)), slid_below; [done|]. by apply lines_below.
Qed.

Lemma moved_fixed d m b : 0 <= m -> board_below m b -> bool_decide (lines d b = map slid (lines d b)) = bool_decide (b = moved d b).
Proof. intros Hm Hb. by apply bool_decide_ext, (moved_fixed_iff d m). Qed.

(** One call of rotateBoard at the head of a program. *)
Ltac turn_board H :=
  apply wp_bind; eapply (rotateBoard_spec _ _ _ _ H); [lia | reflexivity |].

Lemma move_spec d b s (Q : bool -> game -> Prop) : board_below 31 b -> board s = b -> 0 <= score s < 4294967296 ->
  Q (negb (bool_decide (b = moved d b))) (scored (moved d b) (move_points d b) s) -> wp (fun _ => move d) s Q.
Proof.
  intros Hb Es Hsc HQ. rewrite <- (moved_fixed d 31) in HQ by (lia || done).
  pose proof (lines_below d _ _ Hb) as HL. pose proof (slid_below 31 _ ltac:(lia) HL) as HS.
  pose proof (reverse_below _ _ HS) as HR. rewrite <- Es in Hb.
  pose proof (rotated_below _ _ Hb) as H1. pose proof (rotated_below _ _ H1) as H2. pose proof (rotated_below _ _ H2) as H3.
  destruct s as [bo sc ks dr ev]. cbn [board score] in *. subst bo. unfold moved, move_points, scored in HQ. cbn [score] in HQ.
  destruct d; cbn [move].
  - unfold moveLeft. turn_board Hb. apply wp_bind. eapply moveUp_spec; [exact H1 | done | done |].
    rewrite (rotated_1_lines 31), map_reverse, board_points_reverse by done.
    rewrite <- (reverse_fixed slid), map_reverse in HQ.
    turn_board HR. turn_board (rotated_below _ _ HR). turn_board (rotated_below _ _ (rotated_below _ _ HR)).
    apply wp_ret. rewrite (unlines_rotated_3 (31 + 1)) by done. exact HQ.
  - unfold moveRight. turn_board Hb. turn_board H1. turn_board H2. apply wp_bind. eapply moveUp_spec; [exact H3 | done | done |].
    rewrite (rotated_3_lines 31) by done. turn_board HS. apply wp_ret. rewrite (unlines_rotated_1 (31 + 1)) by done. exact HQ.
  - eapply moveUp_spec; [exact Hb | done | done |]. exact HQ.
  - unfold moveDown. turn_board Hb. turn_board H1. apply wp_bind. eapply moveUp_spec; [exact H2 | done | done |].
    rewrite (rotated_2_lines 31), map_reverse, board_points_reverse by done.
    rewrite <- (reverse_fixed slid), map_reverse in HQ.
    turn_board HR. turn_board (rotated_below _ _ HR).
    apply wp_ret. rewrite (unlines_rotated_2 (31 + 1)) by done. exact HQ.
Qed.

(** ** Loops over the cells *)

(** What a loop makes of the places it goes through, when its body is [g]. *)
Fixpoint until {A} (g : Z -> Z -> A -> A * bool) (l : list (Z * Z)) (a : A) : A :=
  match l with
  | [] => a
  | (x, y) :: l => let '(a, leave) := g x y a in if leave : bool then a else until g l a
  end.

Definition rest_of_column (bound x y : Z) : list (Z * Z) := map (pair x) (seqZ y (bound - y)).
Definition places (bound x y : Z) : list (Z * Z) :=
  rest_of_column bound x y ++ mjoin (map (fun x => rest_of_column bound x 0) (seqZ (x + 1) (3 - x))).

Lemma places_step bound x y : y < bound -> places bound x y = (x, y) :: places bound x (y + 1).
Proof.
  intros H. unfold places, rest_of_column. rewrite (seqZ_cons y) by lia. cbn [map app].
  by replace (Z.pred (bound - y)) with (bound - (y + 1)) by lia; rewrite <- Z.add_1_r.
Qed.

Lemma places_column bound x y : bound <= y -> x < 3 -> places bound x y = places bound (x + 1) 0.
Proof.
  intros Hy Hx. unfold places. unfold rest_of_column at 1. rewrite (seqZ_nil y) by lia. cbn [map app].
  rewrite (seqZ_cons (x + 1)) by lia. cbn [map mjoin list_join]. 
  by replace (Z.pred (3 - x)) with (3 - (x + 1)) by lia; rewrite <- Z.add_1_r.
Qed.

Lemma places_end bound x y : bound <= y -> x = 3 -> places bound x y = [].
Proof. intros Hy ->. unfold places, rest_of_column. rewrite (seqZ_nil y) by lia. done. Qed.

Section cells.
Context {A : Type} (bound : Z) (f : Z -> Z -> A -> G (A * bool)) (g : Z -> Z -> A -> A * bool) (s : game) (Hbound : 0 < bound).
Context (f_g : forall x y a (Q : A * bool -> game -> Prop), 0 <= x < 4 -> 0 <= y < bound -> Q (g x y a) s -> wp (fun _ => f x y a) s Q).

Lemma cells_loop_spec k : forall x y a (Q : A -> game -> Prop), 0 <= x < 4 -> 0 <= y <= bound ->
  (Z.to_nat ((3 - x) * (bound + 1) + (bound - y)) <= k)%nat ->
  Q (until g (places bound x y) a) s -> wp (fun n => cells_loop n bound x y a f) s Q.
Proof.
  induction k as [|k IH]; intros x y a Q Hx Hy Hk HQ;
    (eapply wp_unfold; [intros n; cbn [cells_loop]; reflexivity|]); cbv beta; unfold SIZE;
    (destruct (Z.leb_spec 4 x); [lia|]); destruct (Z.leb_spec bound y).
  - assert (x = 3) as -> by nia. rewrite places_end in HQ by done.
    eapply wp_unfold; [intros n; cbn [cells_loop]; reflexivity|]. cbv beta. by apply wp_ret.
  - assert ((3 - x) * (bound + 1) >= 0) by nia. lia.
  - destruct (Z.eq_dec x 3) as [->|].
    + rewrite places_end in HQ by done.
      eapply wp_unfold; [intros n; cbn [cells_loop]; reflexivity|]. cbv beta. by apply wp_ret.
    + rewrite places_column in HQ by lia. apply IH; [lia | lia | nia | done].
  - rewrite places_step in HQ by done. cbn [until] in HQ. apply wp_bind, f_g; [lia | lia |].
    destruct (g x y a) as [a' leave]. destruct leave; [by apply wp_ret|]. apply IH; [lia | lia | nia | done].
Qed.

Lemma cells_spec a (Q : A -> game -> Prop) :
  Q (until g (places bound 0 0) a) s -> wp (fun _ => with_fuel (fun n => cells_loop n bound 0 0 a f)) s Q.
Proof. intros HQ. apply wp_with_fuel. by eapply cells_loop_spec; [lia | lia | reflexivity |]. Qed.
End cells.

(** ** Is the game over? *)

Lemma at_xy_lookup m b x y : board_below m b -> 0 <= x < 4 -> 0 <= y < 4 ->
  exists c, b !! Z.to_nat x = Some c /\ length c = 4%nat /\ c !! Z.to_nat y = Some (at_xy b (Z.to_nat x) (Z.to_nat y)).
Proof.
  intros [Hl Hf] Hx Hy. destruct (lookup_lt_is_Some_2 b (Z.to_nat x) ltac:(lia)) as [c Hc]. exists c. split; [done|].
  rewrite Forall_lookup in Hf. destruct (Hf _ _ Hc) as [Hlc _]. split; [done|].
  unfold at_xy. rewrite (nth_lookup b), Hc. cbn [default]. destruct (lookup_lt_is_Some_2 c (Z.to_nat y) ltac:(lia)) as [v Hv].
  cbn. by rewrite nth_lookup, Hv.
Qed.

Lemma get_spec m b x y s (Q : Z -> game -> Prop) : board_below m b -> board s = b -> 0 <= x < 4 -> 0 <= y < 4 ->
  Q (at_xy b (Z.to_nat x) (Z.to_nat y)) s -> wp (fun _ => get x y) s Q.
Proof.
  intros Hb Es Hx Hy HQ. destruct (at_xy_lookup m b x y) as (c & Hc & _ & Hv); [done..|].
  unfold get, column. apply wp_bind, wp_bind, wp_get_state. destruct (Z.ltb_spec x 0); [lia|]. rewrite Es, Hc. apply wp_ret.
  by eapply wp_cell; [lia | |].
Qed.

Definition has_empty (b : list (list Z)) : bool := existsb (existsb (fun v => v =? 0)) b.
Fixpoint pair_in (c : list Z) : bool :=
  match c with
  | v :: ((w :: _) as c') => (v =? w) || pair_in c'
  | _ => false
  end.
Definition has_pair (b : list (list Z)) : bool := existsb pair_in b.

Lemma findPairDown_spec m b s (Q : bool -> game -> Prop) : board_below m b -> board s = b ->
  Q (has_pair b) s -> wp (fun _ => findPairDown) s Q.
Proof.
  intros Hb Es HQ. unfold findPairDown. apply (cells_spec _ _ (fun x y found =>
    if at_xy b (Z.to_nat x) (Z.to_nat y) =? at_xy b (Z.to_nat x) (Z.to_nat (y + 1)) then (true, true) else (found, false))); [done| |].
  - unfold SIZE. intros x y a P Hx Hy HP. apply wp_bind. eapply get_spec; [done | done | lia | lia |]. apply wp_bind.
    eapply get_spec; [done | done | lia | lia |]. destruct (_ =? _); by apply wp_ret.
  - replace (until _ _ _) with (has_pair b); [done|]. board_cells Hb. rewrite E. clear.
    cbv -[Z.eqb]. repeat (destruct (_ =? _); [done|]). done.
Qed.

(** Counting in a byte. *)
Lemma until_count (e : Z -> Z -> bool) l : forall n, 0 <= n -> n + Z.of_nat (length l) < 256 ->
  (0 <? until (fun x y n => (if e x y then u8 (n + 1) else n, false)) l n) = ((0 <? n) || existsb (fun '(x, y) => e x y) l)%bool.
Proof.
  induction l as [|[x y] l IH]; intros n H0 H; cbn [until existsb length] in *; [by rewrite orb_false_r|].
  destruct (e x y); [|apply IH; lia]. rewrite u8_id by lia. rewrite IH by lia. cbn [orb].
  destruct (Z.ltb_spec 0 (n + 1)); [|lia]. by rewrite orb_true_r.
Qed.

Lemma countEmpty_spec m b s (Q : Z -> game -> Prop) : board_below m b -> board s = b ->
  (forall n, (0 <? n) = has_empty b -> Q n s) -> wp (fun _ => countEmpty) s Q.
Proof.
  intros Hb Es HQ. unfold countEmpty. apply (cells_spec _ _ (fun x y count =>
    (if at_xy b (Z.to_nat x) (Z.to_nat y) =? 0 then u8 (count + 1) else count, false))); [done| |].
  - unfold SIZE. intros x y a P Hx Hy HP. apply wp_bind. eapply get_spec; [done | done | lia | lia |]. by apply wp_ret.
  - apply HQ. rewrite (until_count (fun x y => at_xy b (Z.to_nat x) (Z.to_nat y) =? 0)) by (vm_compute; done).
    board_cells Hb. rewrite E. clear. cbv -[Z.eqb]. repeat (destruct (_ =? _); [done|]). done.
Qed.

Definition over (b : list (list Z)) : bool := negb (has_empty b) && negb (has_pair b) && negb (has_pair (transpose b)).

Lemma has_pair_reverse b : has_pair (reverse b) = has_pair b.
Proof.
  unfold has_pair. induction b as [|c b IH]; [done|]. rewrite reverse_cons, existsb_app, IH. cbn [existsb].
  by rewrite orb_false_r, orb_comm.
Qed.

Lemma gameEnded_spec m b s (Q : bool -> game -> Prop) : board_below m b -> m <= 256 -> board s = b ->
  Q (over b) s -> wp (fun _ => gameEnded) s Q.
Proof.
  intros Hb Hm Es HQ. unfold over in HQ. unfold gameEnded. apply wp_bind. eapply countEmpty_spec; [done | done |]. intros n ->.
  destruct (has_empty b); cbn [negb andb] in HQ; [by apply wp_ret|].
  apply wp_bind. eapply findPairDown_spec; [done | done |].
  destruct (has_pair b); cbn [negb andb] in HQ; [by apply wp_ret|].
  rewrite <- Es in Hb. turn_board Hb. pose proof (rotated_below _ _ Hb) as H1.
  apply wp_bind. eapply findPairDown_spec; [exact H1 | done |].
  pose proof (rotated_below _ _ H1) as H2. pose proof (rotated_below _ _ H2) as H3.
  turn_board H1. turn_board H2. turn_board H3. apply wp_ret. rewrite (rotated_4 m) by done.
  rewrite (rotated_1_lines m), has_pair_reverse by done. cbn [lines]. rewrite Es. destruct s. cbn in Es. by subst.
Qed.

(** ** The game is over when no move changes the board *)

Lemma tiles_full l : existsb (fun v => v =? 0) l = false -> tiles l = l.
Proof.
  induction l as [|v l IH]; [done|]. cbn [existsb]. intros [H1 H2]%orb_false_iff. apply Z.eqb_neq in H1.
  rewrite tiles_cons by done. by rewrite IH.
Qed.

(** A merge of a line without equal neighbours is no change, any other is. *)
Lemma merge_fixed l : merge l = l <-> pair_in l = false.
Proof.
  induction l as [|v [|w l] IH]; [done..|]. destruct (decide (v = w)) as [<-|Hvw].
  - rewrite merge_equal. cbn [pair_in]. rewrite Z.eqb_refl. split; [|done]. intros E%(f_equal (@length Z)).
    pose proof (merge_length l). cbn [length] in E. lia.
  - rewrite merge_other by done. cbn [pair_in] in *. rewrite (proj2 (Z.eqb_neq v w) Hvw). cbn [orb]. rewrite <- IH.
    split; [intros E; by injection E | by intros ->].
Qed.

Lemma slid_full l : existsb (fun v => v =? 0) l = false -> slid l = l <-> pair_in l = false.
Proof.
  intros H. unfold slid, padded. rewrite tiles_full by done. split.
  - destruct (decide (length (merge l) = length l)) as [E|Hne].
    + rewrite E, Nat.sub_diag, app_nil_r. apply merge_fixed.
    + pose proof (merge_length l). intros E. exfalso. rewrite <- E, existsb_app in H.
      replace (length l - length (merge l))%nat with (S (length l - length (merge l) - 1)) in H by lia.
      apply orb_false_iff in H as [_ H]. done.
  - intros E. apply merge_fixed in E. rewrite E, Nat.sub_diag. apply app_nil_r.
Qed.

Lemma merge_pos l : Forall (fun v => 0 < v) l -> Forall (fun v => 0 < v) (merge l).
Proof.
  remember (length l) as k eqn:Ek. revert l Ek. induction k as [k IH] using lt_wf_ind. intros [|a [|b l]] -> Hl; [done..|].
  apply Forall_cons in Hl as [Ha Hl]. destruct (decide (a = b)) as [<-|Hab].
  - rewrite merge_equal. apply Forall_cons in Hl as [_ Hl]. constructor; [lia|]. eapply IH; [|reflexivity|done]. cbn. lia.
  - rewrite merge_other by done. constructor; [lia|]. eapply IH; [|reflexivity|done]. cbn. lia.
Qed.

(** Behind an empty cell of a line at rest all cells are empty. *)
Lemma slid_after l i j v : Forall (fun v => 0 <= v) l -> slid l = l -> l !! i = Some 0 -> (i <= j)%nat -> l !! j = Some v -> v = 0.
Proof.
  intros Hl <- Hi Hij Hj. unfold slid, padded in *. pose proof (merge_pos _ (tiles_pos _ Hl)) as Hp. rewrite Forall_lookup in Hp.
  apply lookup_app_Some in Hi as [Hi|[Hi _]]; [apply Hp in Hi; lia|].
  apply lookup_app_Some in Hj as [Hj|[_ Hj]]; [apply lookup_lt_Some in Hj; lia|].
  by apply lookup_replicate in Hj as [-> _].
Qed.

(** A line that no move along it changes is empty or full. *)
Lemma slid_hole l : Forall (fun v => 0 <= v) l -> slid l = l -> slid (reverse l) = reverse l ->
  existsb (fun v => v =? 0) l = true -> Forall (fun v => v = 0) l.
Proof.
  intros Hl H1 H2 (v & (i & Hi)%list_elem_of_In%list_elem_of_lookup & ->%Z.eqb_eq)%existsb_exists.
  apply Forall_lookup. intros j w Hj. destruct (decide (i <= j)%nat) as [|Hij]; [by eapply (slid_after l)|].
  pose proof (lookup_lt_Some _ _ _ Hi). pose proof (lookup_lt_Some _ _ _ Hj).
  eapply (slid_after (reverse l) (length l - S i) (length l - S j)); [by apply Forall_reverse | done | | lia |].
  - apply reverse_lookup_Some. split; [|lia]. by replace (length l - S (length l - S i))%nat with i by lia.
  - apply reverse_lookup_Some. split; [|lia]. by replace (length l - S (length l - S j))%nat with j by lia.
Qed.

Lemma map_fixed {A} (f : A -> A) l : map f l = l <-> Forall (fun a => f a = a) l.
Proof.
  induction l as [|a l IH]; [done|]. cbn [map]. rewrite Forall_cons, <- IH. split; [intros E; by injection E | by intros [-> ->]].
Qed.

Lemma fixed_lines d m b : 0 <= m -> board_below m b -> moved d b = b <-> Forall (fun l => slid l = l) (lines d b).
Proof.
  intros Hm Hb. rewrite <- map_fixed. pose proof (moved_fixed_iff d m b Hm Hb) as [H1 H2]. split; intros E; symmetry; auto.
Qed.

(** A line without empty cells and equal neighbours. *)
Definition calm (l : list Z) : bool := negb (existsb (fun v => v =? 0) l) && negb (pair_in l).

Lemma calm_slid l : calm l = true -> slid l = l.
Proof. intros [H1%negb_true_iff H2%negb_true_iff]%andb_true_iff. by apply slid_full. Qed.

Lemma slid_calm l : slid l = l -> existsb (fun v => v =? 0) l = false -> calm l = true.
Proof. intros H1 H2. apply slid_full in H1; [|done]. unfold calm. by rewrite H1, H2. Qed.

Lemma calm_reverse l : length l = 4%nat -> calm (reverse l) = calm l.
Proof.
  intros H. destruct (list_4 l H) as (a & b & c & d & ->). unfold calm. cbn.
  rewrite (Z.eqb_sym d c), (Z.eqb_sym c b), (Z.eqb_sym b a).
  destruct (a =? 0), (b =? 0), (c =? 0), (d =? 0), (a =? b), (b =? c), (c =? d); done.
Qed.

Lemma calm_board b : forallb calm b = negb (has_empty b) && negb (has_pair b).
Proof.
  unfold has_empty, has_pair. induction b as [|c b IH]; [done|]. cbn [forallb existsb]. rewrite IH. unfold calm.
  destruct (existsb _ c), (pair_in c), (existsb _ b), (existsb pair_in b); done.
Qed.

Lemma full_transpose m b : board_below m b -> has_empty b = false -> has_empty (transpose b) = false.
Proof.
  intros H. board_cells H. subst b. clear. unfold has_empty. cbn -[Z.eqb]. rewrite !orb_false_iff. intros.
  destruct_and!. repeat match goal with H : (_ =? 0) = false |- _ => rewrite H; clear H end. done.
Qed.

Lemma over_calm m b : board_below m b -> over b = forallb calm b && forallb calm (transpose b).
Proof.
  intros Hb. unfold over. rewrite !calm_board. destruct (has_empty b) eqn:E; [done|].
  rewrite (full_transpose m b) by done. cbn [negb andb]. done.
Qed.

(** Lines at rest whichever way they are pushed, one of them full where [c] is full. *)
Lemma lines_at_rest b : Forall (Forall (fun v => 0 <= v)) b -> Forall (fun l => slid l = l) b -> Forall (fun l => slid l = l) (map reverse b) ->
  Forall (fun l => Exists (fun v => v <> 0) l) b -> has_empty b = false.
Proof.
  intros H1 H2 H3 H4. apply not_true_is_false. intros (l & Hl%list_elem_of_In & He)%existsb_exists.
  rewrite Forall_map in H3. rewrite Forall_forall in *. specialize (H1 l Hl). specialize (H2 l Hl). specialize (H3 l Hl). specialize (H4 l Hl).
  pose proof (slid_hole l H1 H2 H3 He) as H0. rewrite Forall_forall in H0. apply Exists_exists in H4 as (v & Hv & Hn). by apply Hn, H0.
Qed.

Lemma board_nonneg m b : board_below m b -> Forall (Forall (fun v => 0 <= v)) b.
Proof. intros [_ H]. eapply Forall_impl; [exact H|]. intros c [_ Hc]. eapply Forall_impl; [exact Hc|]. cbn beta. lia. Qed.

Lemma at_rest_full m b x y : board_below m b -> (x < 4)%nat -> (y < 4)%nat -> at_xy b x y <> 0 ->
  Forall (fun l => slid l = l) b -> Forall (fun l => slid l = l) (map reverse b) -> forall y', (y' < 4)%nat -> at_xy b x y' <> 0.
Proof.
  intros Hb Hx Hy Hv H1 H2 y' Hy'. pose proof (board_nonneg _ _ Hb) as H0. rewrite Forall_map in H2.
  destruct (at_xy_lookup m b (Z.of_nat x) (Z.of_nat y) Hb ltac:(lia) ltac:(lia)) as (c & Hc & Hl & Hcy).
  destruct (at_xy_lookup m b (Z.of_nat x) (Z.of_nat y') Hb ltac:(lia) ltac:(lia)) as (c' & Hc' & _ & Hcy').
  rewrite !Nat2Z.id in *. simplify_eq. rewrite Forall_lookup in *. specialize (H0 x c Hc). specialize (H1 x c Hc). specialize (H2 x c Hc).
  intros E. rewrite E in Hcy'. assert (existsb (fun v => v =? 0) c = true) as He.
  { apply existsb_exists. exists 0. split; [|done]. by apply list_elem_of_In; eapply list_elem_of_lookup_2. }
  pose proof (slid_hole c H0 H1 H2 He) as Hz. rewrite Forall_lookup in Hz. apply Hv. by eapply Hz.
Qed.

Lemma at_rest_over m b x y : 0 <= m -> board_below m b -> (x < 4)%nat -> (y < 4)%nat -> at_xy b x y <> 0 ->
  (forall d, Forall (fun l => slid l = l) (lines d b)) -> over b = true.
Proof.
  intros Hm Hb Hx Hy Hv H. pose proof (H Left) as HL. pose proof (H Right) as HR. pose proof (H Up) as HU. pose proof (H Down) as HD. cbn [lines] in *.
  pose proof (lines_below Left _ _ Hb) as Ht. cbn [lines] in Ht.
  assert (has_empty (transpose b) = false) as Et.
  { apply lines_at_rest; [by eapply board_nonneg | done | done |]. apply Forall_forall. intros l (y' & -> & Hy'%elem_of_seq)%list_elem_of_fmap.
    apply Exists_exists. exists (at_xy b x y'). split; [|by eapply (at_rest_full m b x y); [..|lia]].
    apply (list_elem_of_fmap_2 (fun x => at_xy b x y')), elem_of_seq. lia. }
  assert (has_empty b = false) as Eb.
  { pose proof (full_transpose m _ Ht Et) as E. by rewrite (lines_unlines Left m b Hb : transpose (transpose b) = b) in E. }
  rewrite (over_calm m) by done.
  assert (forall l, has_empty l = false -> Forall (fun c => slid c = c) l -> forallb calm l = true) as Hcalm.
  { intros l He Hf. apply forallb_forall. intros c Hc. rewrite Forall_forall in Hf. apply slid_calm; [by apply Hf, list_elem_of_In|].
    apply not_true_is_false. intros E. unfold has_empty in He. apply not_true_iff_false in He. apply He, existsb_exists. by exists c. }
  by rewrite !Hcalm.
Qed.

(** The rule: on a board with a tile, the game is over exactly if no move changes the board. *)
Lemma over_spec m b x y : 0 <= m -> board_below m b -> (x < 4)%nat -> (y < 4)%nat -> at_xy b x y <> 0 ->
  over b = true <-> forall d, moved d b = b.
Proof.
  intros Hm Hb Hx Hy Hv. split.
  - intros Ho d. rewrite (over_calm m) in Ho by done. apply andb_true_iff in Ho as [H1 H2]. rewrite forallb_forall in H1, H2.
    apply (fixed_lines d m); [done..|]. apply Forall_forall. intros l Hl.
    assert (forall c, board_below m c -> (forall l, In l c -> calm l = true) -> l ∈ map reverse c -> calm l = true) as Hrev.
    { intros c Hc Hcalm (l' & -> & Hl')%list_elem_of_fmap. destruct Hc as [_ Hc]. rewrite Forall_forall in Hc.
      rewrite calm_reverse by by apply Hc. by apply Hcalm, list_elem_of_In. }
    apply calm_slid. destruct d; cbn [lines] in Hl.
    + by apply H2, list_elem_of_In.
    + apply (Hrev (transpose b)); [by apply (lines_below Left) | done | done].
    + by apply H1, list_elem_of_In.
    + by apply (Hrev b).
  - intros H. apply (at_rest_over m b x y); try done. intros d. by apply (fixed_lines d m).
Qed.
