(* ===== verification/Game2048Play.v ===== *)
(** * A game of 2048

    What holds of the board and the score from the start of a game on, whatever keys are pressed and whatever rand()
    returns; how a run of the program ends. *)

From Stdlib Require Import ZArith Lia.
From stdpp Require Import base numbers list strings.
From S2P Require Import Prelude FastLZ Game2048 Game2048Spec Game2048Board.

Open Scope Z_scope.

(** ** Numbers and their ones

    A number that is the sum of [n] powers of two has at most [n] ones. *)

Fixpoint ones (p : positive) : Z :=
  match p with
  | xH => 1
  | xO p => ones p
  | xI p => 1 + ones p
  end.
Definition ones_of (z : Z) : Z := match z with Zpos p => ones p | _ => 0 end.

Lemma ones_succ p : ones (Pos.succ p) <= 1 + ones p.
Proof.
  induction p as [p IH|p IH|].
  - change (Pos.succ p~1) with (Pos.succ p)~0%positive. cbn [ones]. lia.
  - change (Pos.succ p~0) with p~1%positive. cbn [ones]. lia.
  - done.
Qed.

Lemma ones_of_double a b : 0 <= a -> 0 <= b < 2 -> ones_of (2 * a + b) = ones_of a + b.
Proof.
  intros Ha Hb. assert (b = 0 \/ b = 1) as [-> | ->] by lia; (destruct a as [|p|]; [done | | done]).
  - change (ones p = ones p + 0). lia.
  - change (1 + ones p = ones p + 1). lia.
Qed.

Lemma ones_of_add k : forall a, 0 <= a -> ones_of (a + 2 ^ Z.of_nat k) <= 1 + ones_of a.
Proof.
  induction k as [|k IH]; intros a Ha.
  - cbn [Z.of_nat]. destruct a as [|p|]; [done | | lia]. change (ones (p + 1) <= 1 + ones p). rewrite Pos.add_1_r. apply ones_succ.
  - rewrite (Z.div_mod a 2) by done. pose proof (Z.mod_pos_bound a 2 ltac:(lia)). pose proof (Z.div_pos a 2 Ha ltac:(lia)).
    replace (2 * (a / 2) + a mod 2 + 2 ^ Z.of_nat (S k)) with (2 * (a / 2 + 2 ^ Z.of_nat k) + a mod 2)
      by (rewrite Nat2Z.inj_succ, Z.pow_succ_r by lia; lia).
    rewrite !ones_of_double by (done || lia). specialize (IH (a / 2)). lia.
Qed.

Definition count (v : Z) : Z := if v =? 0 then 0 else 1.

Lemma face_nonneg v : 0 <= face v.
Proof. unfold face. destruct (v =? 0); [lia|]. by apply Z.pow_nonneg. Qed.
Lemma sum_nonneg f l : (forall v, 0 <= f v) -> 0 <= sum f l.
Proof. intros H. induction l as [|v l IH]; cbn [sum foldr]; [lia|]. specialize (H v). fold (sum f l). lia. Qed.

Lemma ones_sum l : Forall (fun v => 0 <= v) l -> ones_of (sum face l) <= sum count l.
Proof.
  induction l as [|v l IH]; [done|]. intros [Hv Hl]%Forall_cons. specialize (IH Hl). cbn [sum foldr]. fold (sum face l) (sum count l).
  unfold face at 1, count at 1. destruct (v =? 0); [done|]. rewrite Z.add_comm.
  pose proof (ones_of_add (Z.to_nat v) (sum face l) (sum_nonneg _ _ face_nonneg)) as H. rewrite Z2Nat.id in H by done. lia.
Qed.

(** ** Sums over the board *)

Definition total (f : Z -> Z) (b : list (list Z)) : Z := sum f (mjoin b).
Definition set_xy (b : list (list Z)) (x y : nat) (v : Z) : list (list Z) := <[x := <[y := v]> (nth x b [])]> b.

Lemma total_unlines f d m b : board_below m b -> total f (unlines d b) = total f b.
Proof. intros H. board_cells H. subst b. destruct d; cbn; lia. Qed.
Lemma total_lines f d m b : board_below m b -> total f (lines d b) = total f b.
Proof. intros H. rewrite <- (unlines_lines d m b H) at 2. symmetry. by apply (total_unlines f d m), lines_below. Qed.

Lemma total_set f m b x y v : f 0 = 0 -> board_below m b -> (x < 4)%nat -> (y < 4)%nat -> at_xy b x y = 0 ->
  total f (set_xy b x y v) = total f b + f v.
Proof.
  intros f0 H Hx Hy. board_cells H. subst b. clear H F.
  destruct x as [|[|[|[|]]]], y as [|[|[|[|]]]]; try lia; cbn; intros ->; rewrite f0; lia.
Qed.

Lemma set_below m b x y v : board_below m b -> (x < 4)%nat -> (y < 4)%nat -> 0 <= v < m -> board_below m (set_xy b x y v).
Proof.
  intros H Hx Hy Hv. board_cells H. subst b. rewrite !Forall_cons in F. split; [unfold set_xy; by rewrite length_insert|].
  destruct x as [|[|[|[|]]]]; try lia; (destruct y as [|[|[|[|]]]]; try lia); cbn; repeat constructor; lia.
Qed.

(** A move keeps the sum of the faces, and its points are the growth of the worth. *)
Lemma total_slid b : Forall (Forall (fun v => 0 <= v)) b ->
  total face (map slid b) = total face b /\ total worth (map slid b) = total worth b + board_points b.
Proof.
  induction b as [|c b IH]; [done|]. intros [Hc [H1 H2]%IH]%Forall_cons. unfold total, board_points in *. cbn [map mjoin list_join foldr] in *.
  rewrite !sum_app, face_slid, worth_slid by done. unfold mjoin, list_join in *. lia.
Qed.

Lemma total_moved d m b : 0 <= m -> board_below m b ->
  total face (moved d b) = total face b /\ total worth (moved d b) = total worth b + move_points d b.
Proof.
  intros Hm Hb. unfold moved, move_points. pose proof (lines_below d _ _ Hb) as HL.
  pose proof (slid_below _ _ Hm HL) as HS. rewrite !(total_unlines _ d (m + 1)) by done.
  destruct (total_slid _ (board_nonneg _ _ HL)) as [-> ->]. by rewrite !(total_lines _ d m).
Qed.

(** The largest tile that fits on sixteen cells. *)
Lemma sum_face_bound l v : v ∈ l -> face v <= sum face l.
Proof.
  induction l as [|w l IH]; intros Hv; [by apply not_elem_of_nil in Hv|]. cbn [sum foldr]. fold (sum face l).
  pose proof (sum_nonneg face l face_nonneg). pose proof (face_nonneg w). apply elem_of_cons in Hv as [->|Hv]; [lia|]. specialize (IH Hv). lia.
Qed.

Lemma total_below b : board_below 32 b -> total face b <= 262140 -> board_below 18 b.
Proof.
  intros [Hl Hf] Ht. split; [done|]. rewrite Forall_forall in *. intros c Hc. destruct (Hf c Hc) as [H1 H2]. split; [done|].
  rewrite Forall_forall in *. intros v Hv. specialize (H2 v Hv).
  assert (face v <= 262140) as H.
  { etrans; [|exact Ht]. apply sum_face_bound. apply list_elem_of_join. by exists c. }
  destruct (decide (v < 18)); [lia|]. unfold face in H. destruct (Z.eqb_spec v 0); [lia|].
  pose proof (Z.pow_le_mono_r 2 18 v ltac:(lia) ltac:(lia)). lia.
Qed.

Lemma sum_count_bound l : sum count l <= Z.of_nat (length l).
Proof. induction l as [|v l IH]; [done|]. cbn [sum foldr length]. fold (sum count l). unfold count at 1. destruct (v =? 0); lia. Qed.

Lemma cells_16 m b : board_below m b -> length (mjoin b) = 16%nat.
Proof. intros H. board_cells H. by subst b. Qed.

Lemma cells_nonneg m b : board_below m b -> Forall (fun v => 0 <= v) (mjoin b).
Proof. intros H. board_cells H. subst b. clear H. rewrite !Forall_cons in F. cbn. repeat constructor; lia. Qed.

(** A new tile never takes the sum beyond 262140 = 4 + 8 + ... + 131072. *)
Lemma total_spawn b x y n : board_below 31 b -> (x < 4)%nat -> (y < 4)%nat -> at_xy b x y = 0 -> n = 1 \/ n = 2 ->
  total face b <= 262140 -> (exists h, total face b = 2 * h) -> total face (set_xy b x y n) <= 262140.
Proof.
  intros Hb Hx Hy H0 Hn Ht [h Hh]. rewrite (total_set face 31) by done.
  pose proof (sum_count_bound (mjoin (set_xy b x y n))) as Hc. rewrite (cells_16 31) in Hc by (apply set_below; [done..|lia]).
  change (sum count (mjoin (set_xy b x y n))) with (total count (set_xy b x y n)) in Hc. rewrite (total_set count 31) in Hc by done.
  assert (count n = 1) as En by (by destruct Hn as [-> | ->]). rewrite En in Hc.
  assert (ones_of (total face b) <= 15) as Ho.
  { etrans; [by apply ones_sum, (cells_nonneg 31)|]. unfold total in Hc. lia. }
  assert (ones_of (total face (set_xy b x y n)) <= 16) as Ho'.
  { etrans; [by apply ones_sum, (cells_nonneg 31), set_below; [..|lia]|]. unfold total in Hc.
    change (sum count (mjoin (set_xy b x y n))) with (total count (set_xy b x y n)). rewrite (total_set count 31), En by done. unfold total. lia. }
  rewrite (total_set face 31) in Ho' by done.
  assert (face n = 2 \/ face n = 4) as Hf by (by destruct Hn as [-> | ->]; [left | right]).
  destruct (decide (total face b = 262140)) as [E|]; [rewrite E in Ho; by vm_compute in Ho|].
  destruct (decide (total face b + face n = 262142)) as [E|]; [rewrite E in Ho'; by vm_compute in Ho'|]. lia.
Qed.

(** ** A new tile *)

Definition is_empty (b : list (list Z)) (p : Z * Z) : bool := at_xy b (Z.to_nat (fst p)) (Z.to_nat (snd p)) =? 0.
Definition empties (b : list (list Z)) : list (Z * Z) := filter (fun p => is_empty b p = true) (places 4 0 0).

(** rand() picks the place and, once in ten times, a four. *)
Definition spawn (r k : Z) (b : list (list Z)) : list (list Z) :=
  match empties b !! Z.to_nat (r mod Z.of_nat (length (empties b))) with
  | Some (x, y) => set_xy b (Z.to_nat x) (Z.to_nat y) (if k mod 10 =? 9 then 2 else 1)
  | None => b
  end.

Lemma until_collect (e : Z * Z -> bool) l : forall found,
  until (fun x y found => (if e (x, y) then found ++ [(x, y)] else found, false)) l found = found ++ filter (fun p => e p = true) l.
Proof.
  induction l as [|[x y] l IH]; intros found; cbn [until]; [by rewrite app_nil_r|].
  rewrite IH. destruct (e (x, y)) eqn:E; [rewrite filter_cons_True by done | rewrite filter_cons_False by congruence; done].
  by rewrite <- app_assoc.
Qed.

Lemma empty_cells_spec m b s (Q : list (Z * Z) -> game -> Prop) : board_below m b -> board s = b ->
  Q (empties b) s -> wp (fun _ => empty_cells) s Q.
Proof.
  intros Hb Es HQ. unfold empty_cells. apply (cells_spec _ _ (fun x y found =>
    (if is_empty b (x, y) then found ++ [(x, y)] else found, false))); [done | | by rewrite (until_collect (is_empty b))].
  unfold SIZE. intros x y a P Hx Hy HP. apply wp_bind. eapply get_spec; [done | done | lia | lia |]. by apply wp_ret.
Qed.

Lemma empties_range b x y : (x, y) ∈ empties b -> 0 <= x < 4 /\ 0 <= y < 4 /\ at_xy b (Z.to_nat x) (Z.to_nat y) = 0.
Proof.
  intros [H1 H2]%list_elem_of_filter. apply Z.eqb_eq in H1. split_and!; try done; revert H2; vm_compute places;
    rewrite !elem_of_cons, elem_of_nil; intros; naive_solver lia.
Qed.

Lemma put_spec m b x y v s (Q : unit -> game -> Prop) : board_below m b -> board s = b -> 0 <= x < 4 -> 0 <= y < 4 -> 0 <= v < 256 ->
  Q tt (with_board (set_xy b (Z.to_nat x) (Z.to_nat y) v) s) -> wp (fun _ => put x y v) s Q.
Proof.
  intros Hb Es Hx Hy Hv HQ. destruct (at_xy_lookup m b x y) as (c & Hc & Hl & _); [done..|].
  unfold put, column. apply wp_bind, wp_bind, wp_get_state. destruct (Z.ltb_spec x 0); [lia|]. rewrite Es, Hc. apply wp_ret.
  apply wp_bind, wp_set_cell; [lia | done |]. apply wp_modify. unfold set_xy in HQ. rewrite nth_lookup, Hc in HQ. by rewrite Es.
Qed.

Section play.
Context (rands : nat -> Z) (rands_nonneg : forall i, 0 <= rands i).

Lemma addRandom_spec m b s (Q : unit -> game -> Prop) : board_below m b -> board s = b ->
  Q tt (if decide (empties b = []) then s
        else with_board (spawn (rands (draws s)) (rands (S (draws s))) b) (with_draws (S (S (draws s))) s)) ->
  wp (fun _ => addRandom rands) s Q.
Proof.
  intros Hb Es HQ. unfold addRandom. apply wp_bind. eapply empty_cells_spec; [done | done |]. cbv zeta.
  destruct (decide (empties b = [])) as [E|E].
  - rewrite E. by apply wp_ret.
  - assert (0 < Z.of_nat (length (empties b))) as Hlen by (destruct (empties b); [done | cbn [length]; lia]).
    destruct (Z.ltb_spec 0 (Z.of_nat (length (empties b)))); [|lia]. unfold rand at 1. apply wp_bind, wp_bind, wp_get_state.
    apply wp_bind, wp_set_state, wp_ret. pose proof (rands_nonneg (draws s)) as Hr. pose proof (rands_nonneg (S (draws s))) as Hr'.
    rewrite Z.rem_mod_nonneg by done. unfold spawn in HQ.
    destruct (lookup_lt_is_Some_2 (empties b) (Z.to_nat (rands (draws s) mod Z.of_nat (length (empties b))))) as [[x y] Hxy].
    { pose proof (Z.mod_pos_bound (rands (draws s)) _ Hlen). lia. }
    rewrite Hxy in *. apply list_elem_of_lookup_2, empties_range in Hxy as (Hx & Hy & _).
    unfold rand. apply wp_bind, wp_bind, wp_get_state. apply wp_bind, wp_set_state, wp_ret. cbn [draws with_draws].
    rewrite Z.rem_mod_nonneg by lia. pose proof (Z.mod_pos_bound (rands (S (draws s))) 10 ltac:(lia)) as Hk.
    set (k := rands (S (draws s)) mod 10) in *. clearbody k. rewrite Z.quot_div_nonneg by lia.
    assert (k / 9 + 1 = if k =? 9 then 2 else 1) as ->.
    { destruct (Z.eqb_spec k 9) as [E9|]; [by rewrite E9|]. by rewrite Z.div_small by lia. }
    eapply put_spec; [exact Hb | exact Es | done | done | destruct (_ =? _); lia |]. exact HQ.
Qed.

(** ** The state of a game

    [twos] and [fours] count the tiles that came. *)

Record playing (twos fours : Z) (s : game) : Prop := Playing {
  pl_board : board_below 18 (board s);
  pl_counts : 0 <= twos /\ 0 <= fours /\ 2 <= twos + fours;
  pl_faces : total face (board s) = 2 * twos + 4 * fours;
  pl_fits : total face (board s) <= 262140;
  pl_score : score s = total worth (board s) - 4 * fours;
  pl_score_nonneg : 0 <= score s
}.

Lemma playing_ext a f s s' : board s' = board s -> score s' = score s -> playing a f s -> playing a f s'.
Proof. intros E1 E2 []. split; by rewrite ?E1, ?E2. Qed.

Lemma sum_worth_bound l : Forall (fun v => 0 <= v < 18) l -> sum worth l <= 16 * sum face l.
Proof.
  induction l as [|v l IH]; [done|]. intros [Hv Hl%IH]%Forall_cons. cbn [sum foldr]. fold (sum worth l) (sum face l).
  unfold worth at 1, face at 1. destruct (Z.eqb_spec v 0); [lia|]. pose proof (Z.pow_nonneg 2 v). nia.
Qed.

Lemma board_below_mono m m' b : m <= m' -> board_below m b -> board_below m' b.
Proof.
  intros Hm [Hl Hf]. split; [done|]. eapply Forall_impl; [exact Hf|]. intros c [H1 H2]. split; [done|].
  eapply Forall_impl; [exact H2|]. cbn beta. lia.
Qed.

(** No score wraps. *)
Lemma worth_small b : board_below 18 b -> total face b <= 262140 -> total worth b <= 4194240.
Proof.
  intros Hb Ht. unfold total in *. enough (sum worth (mjoin b) <= 16 * sum face (mjoin b)) by lia. apply sum_worth_bound.
  board_cells Hb. subst b. exact F.
Qed.

Lemma spawn_cases r k b : empties b <> [] ->
  exists x y n, (x < 4)%nat /\ (y < 4)%nat /\ at_xy b x y = 0 /\ (n = 1 \/ n = 2) /\ spawn r k b = set_xy b x y n.
Proof.
  intros Hb. assert (0 < Z.of_nat (length (empties b))) as Hlen by (destruct (empties b); [done | cbn [length]; lia]).
  pose proof (Z.mod_pos_bound r _ Hlen). unfold spawn.
  destruct (lookup_lt_is_Some_2 (empties b) (Z.to_nat (r mod Z.of_nat (length (empties b))))) as [[x y] Hxy]; [lia|].
  rewrite Hxy. apply list_elem_of_lookup_2, empties_range in Hxy as (Hx & Hy & H0).
  exists (Z.to_nat x), (Z.to_nat y), (if k mod 10 =? 9 then 2 else 1). split_and!; [lia | lia | done | | done].
  destruct (_ =? _); [by right | by left].
Qed.

(** A new tile on a board of a game. *)
Lemma playing_spawn a f r k s : board_below 18 (board s) -> 0 <= a -> 0 <= f -> 1 <= a + f -> total face (board s) = 2 * a + 4 * f ->
  total face (board s) <= 262140 -> 0 <= total worth (board s) - 4 * f -> empties (board s) <> [] ->
  exists a' f', a' + f' = a + f + 1 /\ forall s', board s' = spawn r k (board s) ->
    score s' = total worth (board s) - 4 * f -> playing a' f' s'.
Proof.
  intros Hb Ha Hf Haf Ht Hle Hw He. destruct (spawn_cases r k _ He) as (x & y & n & Hx & Hy & H0 & Hn & ->).
  pose proof (board_below_mono 18 31 _ ltac:(lia) Hb) as Hb'.
  assert (total face (set_xy (board s) x y n) <= 262140) as Hle' by (apply total_spawn; try done; exists (a + 2 * f); lia).
  pose proof (total_set face 18 _ x y n eq_refl Hb Hx Hy H0) as E1. pose proof (total_set worth 18 _ x y n eq_refl Hb Hx Hy H0) as E2.
  pose proof (set_below 18 _ x y n Hb Hx Hy ltac:(lia)) as Hb2.
  destruct Hn as [-> | ->]; [exists (a + 1), f | exists a, (f + 1)]; (split; [lia|]); intros s' Es Esc;
    change (face 1) with 2 in *; change (worth 1) with 0 in *; change (face 2) with 4 in *; change (worth 2) with 4 in *;
    (split; rewrite ?Es, ?Esc; [done | lia..]).
Qed.

(** ** A move that changes the board leaves an empty cell *)

Lemma slid_no_empty l : existsb (fun v => v =? 0) (slid l) = false -> slid l = l.
Proof.
  intros H. pose proof (merge_length (tiles l)) as H1. pose proof (tiles_length l) as H2. unfold slid, padded in *. rewrite existsb_app in H.
  apply orb_false_iff in H as [_ H]. assert (length (merge (tiles l)) = length l) as E.
  { destruct (decide (length (merge (tiles l)) = length l)); [done|].
    by replace (length l - length (merge (tiles l)))%nat with (S (length l - length (merge (tiles l)) - 1)) in H by lia. }
  assert (tiles l = l) as Et.
  { apply tiles_full, not_true_is_false. intros (v & Hv%list_elem_of_In & ->%Z.eqb_eq)%existsb_exists.
    assert (length (tiles l) < length l)%nat; [|lia]. apply (length_filter_lt _ l 0 Hv). lia. }
  rewrite E, Nat.sub_diag, app_nil_r, Et in *. clear H H1 H2 Et.
  apply merge_fixed, not_true_is_false. intros Hp. cut (length (merge l) < length l)%nat; [lia|]. clear E.
  induction l as [|v [|w l] IH]; [done..|]. destruct (decide (v = w)) as [<-|Hvw].
  - rewrite merge_equal. pose proof (merge_length l). cbn [length]. lia.
  - rewrite merge_other by done. cbn [pair_in] in Hp. rewrite (proj2 (Z.eqb_neq v w) Hvw) in Hp. specialize (IH Hp). cbn [length] in *. lia.
Qed.

Lemma has_empty_empties m b : board_below m b -> empties b = [] -> has_empty b = false.
Proof.
  intros Hb He. apply not_true_is_false. intros (c & (i & Hi)%list_elem_of_In%list_elem_of_lookup & Hc)%existsb_exists.
  apply existsb_exists in Hc as (v & (j & Hj)%list_elem_of_In%list_elem_of_lookup & ->%Z.eqb_eq).
  assert ((Z.of_nat i, Z.of_nat j) ∈ empties b) as H; [|by rewrite He in H; apply not_elem_of_nil in H].
  destruct Hb as [Hl Hf]. rewrite Forall_lookup in Hf. destruct (Hf _ _ Hi) as [Hlc _].
  pose proof (lookup_lt_Some _ _ _ Hi). pose proof (lookup_lt_Some _ _ _ Hj). apply list_elem_of_filter. split.
  - unfold is_empty, at_xy. cbn [fst snd]. rewrite !Nat2Z.id, (nth_lookup b), Hi. cbn [default from_option id].
    rewrite nth_lookup, Hj. done.
  - rewrite Hl, Hlc in *. clear -H H0. destruct i as [|[|[|[|]]]]; try lia; destruct j as [|[|[|[|]]]]; try lia; vm_compute places;
      rewrite !elem_of_cons; cbn; tauto.
Qed.

Lemma full_unlines d m b : board_below m b -> has_empty (unlines d b) = false -> has_empty b = false.
Proof.
  intros H. board_cells H. subst b. clear H F. unfold has_empty. destruct d; cbn -[Z.eqb]; rewrite !orb_false_iff; intros; destruct_and!;
    repeat match goal with H : (_ =? 0) = false |- _ => rewrite H; clear H end; done.
Qed.

(** Every move that changes something makes room for a new tile. *)
Lemma moved_empties d m b : 0 <= m -> board_below m b -> moved d b <> b -> empties (moved d b) <> [].
Proof.
  intros Hm Hb Hne He. apply Hne. pose proof (lines_below d _ _ Hb) as HL. pose proof (slid_below _ _ Hm HL) as HS.
  pose proof (unlines_below d _ _ HS) as HU. apply (has_empty_empties (m + 1)) in He; [|done].
  apply (full_unlines d (m + 1)) in He; [|done]. apply (fixed_lines d m); [done..|]. apply Forall_forall. intros l Hl.
  apply slid_no_empty, not_true_is_false. intros E. apply not_true_iff_false in He. apply He, existsb_exists. exists (slid l).
  split; [|done]. by apply list_elem_of_In, (list_elem_of_fmap_2 slid).
Qed.

(** ** Starting, and one turn *)

Definition zero_board : list (list Z) := replicate 4 (replicate 4 0).

Lemma zero_below : board_below 18 zero_board.
Proof. split; [done|]. repeat constructor; lia. Qed.

Lemma spawn_below r k b : board_below 18 b -> board_below 18 (spawn r k b).
Proof.
  intros Hb. destruct (decide (empties b = [])) as [E|E]; [unfold spawn; by rewrite E|].
  destruct (spawn_cases r k b E) as (x & y & n & Hx & Hy & _ & Hn & ->). apply set_below; [done..|lia].
Qed.

Lemma spawn_empties r k b : board_below 18 b -> total count b <= 14 -> empties (spawn r k b) <> [] /\ total count (spawn r k b) <= total count b + 1.
Proof.
  intros Hb Hc. assert (forall b', board_below 18 b' -> total count b' <= 15 -> empties b' <> []) as Hlt.
  { intros b' Hb' Hc' He. apply (has_empty_empties 18) in He; [|done]. board_cells Hb'. subst b'. clear -He Hc'. unfold has_empty in He.
    cbn -[Z.eqb] in He. unfold total, count in Hc'. cbn -[Z.eqb] in Hc'. rewrite !orb_false_iff in He. destruct_and!.
    repeat match goal with H : (_ =? 0) = false |- _ => rewrite H in Hc'; clear H end. lia. }
  assert (total count (spawn r k b) <= total count b + 1) as H1.
  { destruct (spawn_cases r k b) as (x & y & n & Hx & Hy & H0 & Hn & ->); [apply Hlt; [done | lia]|].
    rewrite (total_set count 18) by done. unfold count at 2. destruct (n =? 0); lia. }
  split; [|done]. apply Hlt; [by apply spawn_below | lia].
Qed.

Lemma initBoard_spec s (Q : unit -> game -> Prop) :
  (forall a f s', a + f = 2 -> playing a f s' -> keys s' = keys s -> Q tt s') -> wp (fun _ => initBoard rands) s Q.
Proof.
  intros HQ. unfold initBoard. apply wp_bind, wp_modify. apply wp_bind.
  pose proof zero_below as H0. assert (empties zero_board <> []) as E0 by done.
  eapply (addRandom_spec 18); [exact H0 | done |]. rewrite decide_False by done.
  set (r0 := rands _). set (k0 := rands _). set (b1 := spawn r0 k0 _). pose proof (spawn_below r0 k0 _ H0 : board_below 18 b1) as H1.
  destruct (spawn_empties r0 k0 zero_board) as [E1 _]; [done..|]. apply wp_bind.
  eapply (addRandom_spec 18); [exact H1 | done |]. rewrite decide_False by done.
  set (r1 := rands _). set (k1 := rands _). apply wp_bind, wp_modify, wp_modify.
  assert (exists a f, a + f = 1 /\ 0 <= a /\ 0 <= f /\ total face b1 = 2 * a + 4 * f /\ total worth b1 = 4 * f) as (a & f & Haf & Ha & Hf & F1 & F2).
  { destruct (spawn_cases r0 k0 zero_board E0) as (x & y & n & Hx & Hy & Hz & Hn & Eb).
    pose proof (total_set face 18 _ x y n eq_refl H0 Hx Hy Hz) as F1. pose proof (total_set worth 18 _ x y n eq_refl H0 Hx Hy Hz) as F2.
    rewrite <- Eb in F1, F2. change (total face zero_board) with 0 in F1. change (total worth zero_board) with 0 in F2.
    unfold b1. change (replicate 4 (replicate 4 0)) with zero_board. rewrite F1, F2.
    destruct Hn as [-> | ->]; [by exists 1, 0 | by exists 0, 1]. }
  destruct (playing_spawn a f r1 k1 (Game b1 0 [] 0 [])) as (a' & f' & E & Hp); try done; cbn [board] in *; [lia..|].
  eapply (HQ a' f'); [lia | | done]. apply Hp; [done|]. cbn [board with_score score]. lia.
Qed.

Definition key (l : list Z) : Z := match l with c :: _ => u8 c | [] => 255 end.

Lemma getchar_spec s (Q : Z -> game -> Prop) : Q (key (keys s)) (with_keys (tail (keys s)) s) -> wp (fun _ => getchar) s Q.
Proof.
  intros HQ. unfold getchar. apply wp_bind, wp_get_state. destruct (keys s) as [|c l] eqn:E.
  - apply wp_ret. cbn [key tail] in HQ. by destruct s; cbn in E; subst.
  - by apply wp_bind, wp_set_state, wp_ret.
Qed.

(** The direction of a key. *)
Definition direction_of (c : Z) : option direction :=
  if bool_decide (c ∈ [97; 104; 68]) then Some Left else
  if bool_decide (c ∈ [100; 108; 67]) then Some Right else
  if bool_decide (c ∈ [119; 107; 65]) then Some Up else
  if bool_decide (c ∈ [115; 106; 66]) then Some Down else None.

Lemma move_of_direction c : move_of c = match direction_of c with Some d => move d | None => mret false end.
Proof. unfold move_of, direction_of. repeat case_bool_decide; done. Qed.

Lemma direction_not_menu c d : direction_of c = Some d -> c <> 113 /\ c <> 114.
Proof. intros H. split; intros ->; discriminate H. Qed.

(** The questions after [q] and [r]; whether the program goes on. *)
Definition menu (c : Z) : G bool :=
  c' ← (if c =? 113 then say Ask_quit;; getchar else mret c);
  if (c =? 113) && (c' =? 121) then mret false else
  (if c =? 113 then drawBoard else mret tt);;
  (if c' =? 114 then
     say Ask_restart;; c'' ← getchar;
     (if c'' =? 121 then initBoard rands else mret tt);;
     drawBoard
   else mret tt);;
  mret true.

(** What is left of the keys. *)
Definition menu_keys (c : Z) (l : list Z) : list Z :=
  let c' := if c =? 113 then key l else c in
  let l' := if c =? 113 then tail l else l in
  if c' =? 114 then tail l' else l'.

Lemma restart_spec a f c s (Q : bool -> game -> Prop) : playing a f s ->
  (forall a' f' s', playing a' f' s' -> keys s' = (if c =? 114 then tail (keys s) else keys s) -> Q true s') ->
  wp (fun _ => (if c =? 114 then
     say Ask_restart;; c'' ← getchar;
     (if c'' =? 121 then initBoard rands else mret tt);;
     drawBoard
   else mret tt);; mret true) s Q.
Proof.
  intros Hp HQ. destruct (c =? 114); [|by apply wp_bind, wp_ret, wp_ret, (HQ a f)]. apply wp_bind, wp_bind, wp_modify. apply wp_bind, getchar_spec.
  apply wp_bind. destruct (_ =? 121).
  - apply initBoard_spec. intros a' f' s' _ Hp' Ek. apply wp_modify, wp_ret. apply (HQ a' f'); [|exact Ek].
    by eapply playing_ext; [..|exact Hp'].
  - apply wp_ret, wp_modify, wp_ret. apply (HQ a f); [|done]. by eapply playing_ext; [..|exact Hp].
Qed.

Lemma menu_spec a f c s (Q : bool -> game -> Prop) : playing a f s ->
  (c = 113 -> key (keys s) = 121 -> forall s', playing a f s' -> Q false s') ->
  (forall a' f' s', ~ (c = 113 /\ key (keys s) = 121) -> playing a' f' s' -> keys s' = menu_keys c (keys s) -> Q true s') ->
  wp (fun _ => menu c) s Q.
Proof.
  intros Hp HQ1 HQ2. unfold menu, menu_keys in *. apply wp_bind. destruct (Z.eqb_spec c 113) as [->|Hc]; cbn [andb].
  - apply wp_bind, wp_modify, getchar_spec. cbn [with_events keys].
    destruct (Z.eqb_spec (key (keys s)) 121) as [E|E].
    + apply wp_ret, HQ1; [done..|]. by eapply playing_ext; [..|exact Hp].
    + apply wp_bind, wp_modify. eapply (restart_spec a f); [by eapply playing_ext; [..|exact Hp]|].
      intros a' f' s' Hp' Ek. apply (HQ2 a' f'); [tauto | done | done].
  - apply wp_ret. apply wp_bind, wp_ret. eapply (restart_spec a f); [done|].
    intros a' f' s' Hp' Ek. apply (HQ2 a' f'); [tauto | done | done].
Qed.

(** A move in a game. *)
Lemma playing_move d a f s : playing a f s ->
  wp (fun _ => move d) s (fun success s' => s' = scored (moved d (board s)) (move_points d (board s)) s /\
    success = negb (bool_decide (board s = moved d (board s))) /\
    board_below 18 (board s') /\ total face (board s') = total face (board s) /\
    score s' = total worth (board s') - 4 * f /\ 0 <= score s').
Proof.
  intros [Hb Hc Hf Hfit Hs Hn]. pose proof (worth_small _ Hb Hfit) as Hw.
  eapply (move_spec d (board s)); [by eapply board_below_mono; [|exact Hb] | done | lia |]. split; [done|]. split; [done|].
  destruct (total_moved d 18 (board s) ltac:(lia) Hb) as [E1 E2].
  assert (board_below 18 (moved d (board s))) as Hb'.
  { apply total_below; [|lia]. unfold moved. apply unlines_below. apply (board_below_mono 19); [lia|].
    apply (slid_below 18); [lia|]. by apply lines_below. }
  pose proof (worth_small _ Hb' ltac:(lia)) as Hw'. unfold scored. cbn [board score with_board with_score].
  assert (0 <= move_points d (board s)) as Hpts.
  { unfold move_points, board_points. pose proof (board_nonneg _ _ (lines_below d _ _ Hb)) as HL. induction HL as [|l L Hl _ IH]; cbn [foldr]; [done|].
    pose proof (points_nonneg (tiles l) (tiles_range _ _ Hl)). lia. }
  unfold u32. rewrite Z.mod_small by lia. split_and!; [done | done | lia | lia].
Qed.

(** What a turn makes of a game. *)
Definition turn_result (a f : Z) (s : game) (go : bool) (s' : game) : Prop :=
  let c := key (keys s) in
  let l := tail (keys s) in
  match direction_of c with
  | Some d =>
      if decide (moved d (board s) = board s) then go = true /\ s' = with_keys l s
      else
        board s' = spawn (rands (draws s)) (rands (S (draws s))) (moved d (board s)) /\
        score s' = score s + move_points d (board s) /\ keys s' = l /\ go = negb (over (board s')) /\
        exists a' f', a' + f' = a + f + 1 /\ playing a' f' s'
  | None =>
      (go = false /\ c = 113 /\ key l = 121 /\ playing a f s') \/
      (go = true /\ ~ (c = 113 /\ key l = 121) /\ keys s' = menu_keys c l /\ exists a' f', playing a' f' s')
  end.

Lemma turn_moved a f d s (K : bool -> G bool) (Q : bool -> game -> Prop) : playing a f s -> moved d (board s) <> board s ->
  (forall a' f' s', a' + f' = a + f + 1 -> playing a' f' s' -> keys s' = keys s ->
    board s' = spawn (rands (draws s)) (rands (S (draws s))) (moved d (board s)) -> score s' = score s + move_points d (board s) ->
    wp (fun _ => K (over (board s'))) s' Q) ->
  wp (fun _ => success ← move d; ended ← (if success : bool then drawBoard;; addRandom rands;; drawBoard;; gameEnded else mret false); K ended) s Q.
Proof.
  intros Hp Hne HQ. apply wp_bind. eapply wp_mono; [by eapply playing_move|].
  intros success s1 (Es & -> & Hb & Hf & Hsc & Hn). destruct Hp as [Hb0 (Ha & Hff & Haf) Hf0 Hfit Hs Hn0].
  rewrite bool_decide_eq_false_2 by done. cbn [negb]. apply wp_bind, wp_bind, wp_modify, wp_bind.
  eapply (addRandom_spec 18); [exact Hb | done |]. cbn [with_events draws].
  assert (board s1 = moved d (board s) /\ draws s1 = draws s /\ keys s1 = keys s /\ events s1 = events s) as (Eb & Ed & Ek & Ee) by by rewrite Es.
  pose proof (moved_empties d 18 (board s) ltac:(lia) Hb0 Hne) as He. rewrite <- Eb in He. rewrite decide_False by done.
  rewrite Ed. destruct (total_moved d 18 (board s) ltac:(lia) Hb0) as [_ Ew].
  destruct (playing_spawn a f (rands (draws s)) (rands (S (draws s))) s1) as (a' & f' & E & Hp'); try done; [lia..|].
  apply wp_bind, wp_modify. eapply gameEnded_spec; [|by transitivity 18 | reflexivity |]; cbn [with_events with_draws with_board board].
  { apply spawn_below, Hb. }
  match goal with |- wp _ ?t _ => apply (HQ a' f' t) end; [done | by apply Hp' | exact Ek | by rewrite <- Eb |].
  cbn [with_events with_draws with_board score].
  rewrite Hsc, Eb. lia.
Qed.

(** A key of a direction in which nothing moves. *)
Lemma turn_blocked a f d s (Q : bool -> game -> Prop) : playing a f s -> moved d (board s) = board s -> Q false s ->
  wp (fun _ => move d) s Q.
Proof.
  intros Hp E HQ. eapply wp_mono; [by eapply playing_move|]. intros success s2 (-> & -> & _).
  rewrite bool_decide_eq_true_2 by done. cbn [negb].
  destruct (total_moved d 18 (board s) ltac:(lia) (pl_board _ _ _ Hp)) as [_ Ew]. rewrite E in Ew.
  rewrite E. replace (move_points d (board s)) with 0 by lia. pose proof (worth_small _ (pl_board _ _ _ Hp) (pl_fits _ _ _ Hp)).
  destruct Hp. unfold scored, u32. rewrite Z.add_0_r, Z.mod_small by lia. by destruct s.
Qed.

Lemma turn_spec a f s : playing a f s -> wp (fun _ => turn rands) s (turn_result a f s).
Proof.
  intros Hp. unfold turn. apply wp_bind, getchar_spec. set (s1 := with_keys (tail (keys s)) s).
  assert (playing a f s1) as Hp1 by (by eapply playing_ext; [..|exact Hp]). rewrite move_of_direction. unfold turn_result.
  destruct (direction_of (key (keys s))) as [d|] eqn:Ed.
  - destruct (direction_not_menu _ _ Ed) as [H1 H2]. rewrite (proj2 (Z.eqb_neq _ _) H1). cbn [andb].
    destruct (decide (moved d (board s) = board s)) as [E|E].
    + apply wp_bind. apply (turn_blocked a f d s1); [done | done |]. apply wp_bind, wp_ret, wp_bind, wp_ret, wp_bind, wp_ret.
      rewrite (proj2 (Z.eqb_neq _ _) H2). apply wp_bind, wp_ret. by apply wp_ret.
    + apply (turn_moved a f d s1); [done | done |]. intros a' f' s2 Eaf Hp2 Ek Eb Es. destruct (over (board s2)) eqn:Eo.
      * apply wp_bind, wp_modify, wp_ret. cbn [with_events board score keys]. rewrite Eo. split_and!; try done.
        exists a', f'. split; [done|]. by eapply playing_ext; [..|exact Hp2].
      * apply wp_bind, wp_ret, wp_bind, wp_ret. rewrite (proj2 (Z.eqb_neq _ _) H2). apply wp_bind, wp_ret, wp_ret.
        rewrite Eo. split_and!; try done. by exists a', f'.
  - apply wp_bind, wp_ret, wp_bind, wp_ret. apply (menu_spec a f _ s1); [done | |].
    + intros Hc Hk s' Hs'. left. done.
    + intros a' f' s' Hn Hp' Ek. right. split_and!; [done | done | done |]. by exists a', f'.
Qed.

(** ** Runs *)

(** With enough fuel the program returns [a] in [s']. *)
Definition returns {A} (p : G A) (s : game) (a : A) (s' : game) : Prop := wp (fun _ => p) s (fun b t => b = a /\ t = s').

Lemma returns_wp {A} (p : G A) s a s' Q : returns p s a s' -> wp (fun _ => p) s Q -> Q a s'.
Proof. intros H HQ. destruct (wp_and _ _ _ _ H HQ) as (N & b & t & _ & [-> ->] & Hq). exact Hq. Qed.

(** The states at the start of a turn, and how many moves there were for certain since the game was started. *)
Inductive reachable : nat -> game -> Prop :=
  | reach_start s0 s : returns (initBoard rands) s0 tt s -> reachable 0 s
  | reach_slide n s s' d : reachable n s -> returns (turn rands) s true s' ->
      direction_of (key (keys s)) = Some d -> moved d (board s) <> board s -> reachable (S n) s'
  | reach_idle n s s' : reachable n s -> returns (turn rands) s true s' -> board s' = board s -> reachable n s'
  | reach_restart n s s' : reachable n s -> returns (turn rands) s true s' -> direction_of (key (keys s)) = None -> reachable 0 s'.

Lemma turn_result_playing a f s go s' : playing a f s -> turn_result a f s go s' -> exists a' f', playing a' f' s'.
Proof.
  unfold turn_result. intros Hp. destruct (direction_of _); [destruct (decide _)|].
  - intros [_ ->]. exists a, f. by eapply playing_ext; [..|exact Hp].
  - intros (_ & _ & _ & _ & a' & f' & _ & Hp'). by exists a', f'.
  - intros [(_ & _ & _ & Hp')|(_ & _ & _ & a' & f' & Hp')]; [by exists a, f | by exists a', f'].
Qed.

Lemma reachable_playing n s : reachable n s -> exists a f, playing a f s.
Proof.
  assert (forall s s' go, (exists a f, playing a f s) -> returns (turn rands) s go s' -> exists a f, playing a f s') as Hturn.
  { intros s1 s2 go (a & f & Hp) Ht. eapply turn_result_playing; [exact Hp|]. eapply returns_wp; [exact Ht | by apply turn_spec]. }
  induction 1 as [s0 s H|n s s' d _ IH H _ _|n s s' _ IH H _|n s s' _ IH H _]; [|by eapply Hturn..].
  apply (returns_wp _ _ _ _ (fun _ s => exists a f, playing a f s) H), initBoard_spec. intros a f s' _ Hp _. by exists a, f.
Qed.

Lemma playing_total a f s : playing a f s -> 4 <= total face (board s).
Proof. intros []. lia. Qed.

Lemma reachable_total n s : reachable n s -> 2 * Z.of_nat n + 4 <= total face (board s).
Proof.
  intros H. induction H as [s0 s H|n s s' d Hr IH H Hd Hne|n s s' _ IH H E|n s s' Hr IH H Hd].
  - destruct (reachable_playing 0 s) as (a & f & Hp); [by eapply reach_start|]. by apply playing_total in Hp.
  - destruct (reachable_playing n s Hr) as (a & f & Hp). pose proof (returns_wp _ _ _ _ _ H (turn_spec a f s Hp)) as Ht. unfold turn_result in Ht.
    rewrite Hd, decide_False in Ht by done. destruct Ht as (-> & _). pose proof (pl_board _ _ _ Hp) as Hb.
    destruct (total_moved d 18 (board s) ltac:(lia) Hb) as [Ef _].
    destruct (spawn_cases (rands (draws s)) (rands (S (draws s))) (moved d (board s))) as (x & y & v & Hx & Hy & H0 & Hv & ->);
      [by apply (moved_empties d 18)|].
    assert (board_below 19 (moved d (board s))) as Hb' by (apply unlines_below, (slid_below 18); [lia | by apply lines_below]).
    rewrite (total_set face 19), Ef by done. assert (2 <= face v) by (by destruct Hv as [-> | ->]). lia.
  - by rewrite E.
  - destruct (reachable_playing 0 s') as (a & f & Hp); [by eapply reach_restart | by apply playing_total in Hp].
Qed.

(** *** How the program ends *)

(** At the end of the input the loop waits for ever. *)
Lemma loop_waits n : forall fuel s, keys s = [] -> main_loop rands n fuel s = Fault Out_of_fuel.
Proof.
  induction n as [|n IH]; intros fuel s E; [done|]. cbn [main_loop].
  assert (turn rands fuel s = Ok true s) as Et by (destruct s as [b sc ks d ev]; cbn in E; by subst ks).
  unfold mbind, prog_bind at 1. rewrite Et. by apply IH.
Qed.

Lemma tail_length (l : list Z) : (length (tail l) <= length l - 1)%nat.
Proof. destruct l; cbn [tail length]; lia. Qed.
Lemma menu_keys_length c l : (length (menu_keys c l) <= length l)%nat.
Proof.
  unfold menu_keys. pose proof (tail_length l). pose proof (tail_length (tail l)). destruct (c =? 113), (_ =? 114); lia.
Qed.

Lemma turn_keys a f s go s' : turn_result a f s go s' -> go = true -> (length (keys s') <= length (keys s) - 1)%nat.
Proof.
  unfold turn_result. pose proof (tail_length (keys s)) as Hl. destruct (direction_of _); [destruct (decide _)|].
  - intros [_ ->] _. exact Hl.
  - intros (_ & _ & -> & _) _. exact Hl.
  - intros [(-> & _)|(_ & _ & -> & _)]; [done|]. intros _. pose proof (menu_keys_length (key (keys s)) (tail (keys s))). lia.
Qed.

Lemma loop_step s Q : wp (fun _ => turn rands) s (fun go s' => if go : bool then wp (main_loop rands) s' Q else Q tt s') ->
  wp (main_loop rands) s Q.
Proof.
  intros H. eapply wp_unfold; [intros n; cbn [main_loop]; reflexivity|]. cbv beta. apply wp_bind. eapply wp_mono; [exact H|].
  intros [] s' Hs; [exact Hs | by apply wp_ret].
Qed.

Lemma loop_ends k : forall a f s, playing a f s -> (length (keys s) <= k)%nat ->
  wp (main_loop rands) s (fun _ s' => exists a f, playing a f s') \/ faults (main_loop rands) s Out_of_fuel.
Proof.
  induction k as [|k IH]; intros a f s Hp Hk; pose proof (turn_spec a f s Hp) as Ht.
  - right. exists 0%nat. intros n fuel _ _. apply loop_waits. destruct (keys s); [done | cbn in Hk; lia].
  - destruct Ht as (N & go & s' & Hrun & Hres). destruct (turn_result_playing _ _ _ _ _ Hp Hres) as (a' & f' & Hp').
    destruct go.
    + pose proof (turn_keys _ _ _ _ _ Hres eq_refl). destruct (IH a' f' s' Hp' ltac:(lia)) as [Hw|Hf]; [left | right].
      * apply loop_step. by exists N, true, s'.
      * eapply faults_unfold; [intros n; cbn [main_loop]; reflexivity|]. cbv beta.
        eapply (faults_after _ _ _ (fun go t => go = true /\ t = s')); [by exists N, true, s'|]. by intros go t [-> ->].
    + left. apply loop_step. exists N, false, s'. split; [done|]. by exists a', f'.
Qed.

(** [x], [q] and [y]: the first may answer a question that is open. *)
Definition quit_keys : list Z := [120; 113; 121].

Lemma menu_keys_quit c ks : (exists ks', menu_keys c (ks ++ quit_keys) = ks' ++ quit_keys) \/ menu_keys c (ks ++ quit_keys) = [113; 121].
Proof.
  unfold menu_keys. destruct ks as [|x [|y ks]]; cbn [app key tail].
  - destruct (c =? 113); [by right|]. destruct (c =? 114); [by right | left; by exists []].
  - destruct (c =? 113); [destruct (u8 x =? 114); [by right | left; by exists []]|].
    destruct (c =? 114); left; [by exists [] | by exists [x]].
  - destruct (c =? 113); [destruct (u8 x =? 114); left; [by exists ks | by exists (y :: ks)]|].
    destruct (c =? 114); left; [by exists (y :: ks) | by exists (x :: y :: ks)].
Qed.

Lemma loop_quits k : forall a f s, playing a f s -> (length (keys s) <= k)%nat ->
  (exists ks, keys s = ks ++ quit_keys) \/ keys s = [113; 121] ->
  wp (main_loop rands) s (fun _ s' => exists a f, playing a f s').
Proof.
  induction k as [|k IH]; intros a f s Hp Hk Hkeys.
  { destruct Hkeys as [[ks E]|E]; rewrite E in Hk; [rewrite length_app in Hk|]; cbn [length quit_keys] in Hk; lia. }
  pose proof (turn_spec a f s Hp) as (N & go & s' & Hrun & Hres). apply loop_step. exists N, go, s'. split; [done|].
  destruct (turn_result_playing _ _ _ _ _ Hp Hres) as (a' & f' & Hp'). destruct go; [|by exists a', f'].
  apply (IH a' f' s' Hp'); [pose proof (turn_keys _ _ _ _ _ Hres eq_refl); lia|].
  unfold turn_result in Hres. destruct Hkeys as [[[|c ks] E]|E]; rewrite E in Hres.
  - right. destruct Hres as [(? & _)|(_ & _ & -> & _)]; done.
  - cbn [app key tail] in Hres. destruct (direction_of (u8 c)); [destruct (decide _)|].
    + destruct Hres as [_ ->]. left. by exists ks.
    + destruct Hres as (_ & _ & -> & _). left. by exists ks.
    + destruct Hres as [(? & _)|(_ & _ & -> & _)]; [done|]. apply menu_keys_quit.
  - destruct Hres as [(? & _)|(_ & H & _)]; [done|]. by destruct H.
Qed.
End play.
