(* ===== verification/Game2048Claims.v ===== *)
(** * The properties of 2048.c *)

From Stdlib Require Import ZArith Lia.
From stdpp Require Import base numbers list strings.
From S2P Require Import Prelude FastLZ Game2048 Game2048Spec Game2048Board Game2048Play.

Open Scope Z_scope.

(** C12 A move slides the four lines towards its wall: the tiles close up and, from the wall on, equal neighbours become one, each tile
    once; the score grows by the tiles made, and the move counts exactly if the board changed. *)
Theorem move_by_the_rules d s : board_below 31 (board s) -> 0 <= score s < 4294967296 ->
  wp (fun _ => move d) s (fun success s' => s' = scored (moved d (board s)) (move_points d (board s)) s /\
    success = negb (bool_decide (moved d (board s) = board s))).
Proof.
  intros Hb Hs. eapply move_spec; [exact Hb | done | done |]. split; [done|]. f_equal. apply bool_decide_ext. by split.
Qed.

Definition demo_game : game := Game [[1; 1; 2; 2]; [0; 3; 0; 3]; [1; 2; 1; 2]; [0; 0; 0; 1]] 40 [] 0 [].

Lemma move_by_the_rules_witness :
  moved Down (board demo_game) = [[0; 0; 2; 3]; [0; 0; 0; 4]; [1; 2; 1; 2]; [0; 0; 0; 1]] /\ move_points Down (board demo_game) = 28 /\
  wp (fun _ => move Down) demo_game (fun success s' => s' = scored (moved Down (board demo_game)) (move_points Down (board demo_game)) demo_game /\
    success = negb (bool_decide (moved Down (board demo_game) = board demo_game))).
Proof.
  split; [reflexivity|]. split; [reflexivity|]. apply (move_by_the_rules Down); [|cbn; lia].
  split; [reflexivity|]. repeat constructor; cbn; lia.
Defined.

(** gameEnded leaves the board as it is and returns true exactly if no move changes it. *)
Lemma game_over_right s x y : board_below 256 (board s) -> (x < 4)%nat -> (y < 4)%nat -> at_xy (board s) x y <> 0 ->
  wp (fun _ => gameEnded) s (fun ended s' => s' = s /\ (ended = true <-> forall d, moved d (board s) = board s)).
Proof.
  intros Hb Hx Hy Hv. eapply gameEnded_spec; [exact Hb | done | done |]. split; [done|]. by apply (over_spec 256 _ x y).
Qed.

Definition full_game : game := Game [[1; 2; 1; 2]; [2; 1; 2; 1]; [1; 2; 1; 2]; [2; 1; 2; 3]] 40 [] 0 [].

Lemma game_over_right_witness : at_xy (board full_game) 3 3 = 3 /\
  wp (fun _ => gameEnded) full_game (fun ended s' => s' = full_game /\ (ended = true <-> forall d, moved d (board full_game) = board full_game)).
Proof.
  split; [reflexivity|]. apply (game_over_right full_game 3 3); [|lia | lia | discriminate].
  split; [reflexivity|]. repeat constructor; cbn; lia.
Defined.

(** C13 In every state a game reaches, whatever the keys and the random numbers: sixteen cells with tiles up to 131072, whose sum is that of the tiles that
    came; the score is exactly what the merges are worth; a game has at most 131,068 moves; and the next turn succeeds as [turn_result] says. *)
Theorem game_invariant rands n s : (forall i, 0 <= rands i) -> reachable rands n s ->
  Z.of_nat n <= 131068 /\
  exists twos fours, playing twos fours s /\ wp (fun _ => turn rands) s (turn_result rands twos fours s).
Proof.
  intros Hr Hs. destruct (reachable_playing rands Hr n s Hs) as (a & f & Hp). pose proof (reachable_total rands Hr n s Hs).
  pose proof (pl_fits _ _ _ Hp). split; [lia|]. exists a, f. split; [done|]. by apply turn_spec.
Qed.

Lemma game_invariant_witness : exists s, keys s = [97] /\ reachable (fun _ => 3) 0 s /\
  exists twos fours, playing twos fours s /\ wp (fun _ => turn (fun _ => 3)) s (turn_result (fun _ => 3) twos fours s).
Proof.
  destruct (initBoard_spec (fun _ => 3) (fun _ => ltac:(lia)) (Game [] 0 [97] 0 []) (fun _ s => keys s = [97]) (fun _ _ _ _ _ E => E))
    as (N & u & s & Hrun & Hk).
  assert (reachable (fun _ => 3) 0 s) as Hs.
  { apply (reach_start _ (Game [] 0 [97] 0 [])). exists N, u, s. split; [exact Hrun|]. by destruct u. }
  exists s. split; [exact Hk|]. split; [exact Hs|]. apply (game_invariant (fun _ => 3) 0 s); [intros _; lia | exact Hs].
Defined.

(** A run of the program is safe: it either returns or, when the keys are used up, waits for ever; it returns if the last keys are an
    arbitrary one, [q] and [y]. *)
Lemma game_ends rands s : (forall i, 0 <= rands i) ->
  (wp (fun _ => main rands) s (fun _ s' => exists twos fours, playing twos fours s') \/ faults (fun _ => main rands) s Out_of_fuel) /\
  (forall ks, keys s = ks ++ quit_keys -> wp (fun _ => main rands) s (fun _ s' => exists twos fours, playing twos fours s')).
Proof.
  intros Hr. pose proof (initBoard_spec rands Hr s (fun _ s' => keys s' = keys s /\ exists a f, playing a f s')) as Hi.
  destruct Hi as (N & u & s1 & Hrun & Hk & a & f & Hp); [intros a f s' _ Hp Ek; split; [done|]; by exists a, f|].
  assert (wp (fun _ => initBoard rands) s (fun _ t => t = s1)) as Hw by (by exists N, u, s1).
  split.
  - destruct (loop_ends rands Hr (length (keys s1)) a f s1 Hp (le_n _)) as [H|H]; [left | right].
    + apply wp_bind. eapply wp_mono; [exact Hw|]. intros _ t ->. by apply wp_with_fuel.
    + eapply (faults_after _ _ _ _ _ Hw). intros _ t ->. by apply faults_with_fuel.
  - intros ks E. apply wp_bind. eapply wp_mono; [exact Hw|]. intros _ t ->. apply wp_with_fuel.
    apply (loop_quits rands Hr (length (keys s1)) a f s1 Hp (le_n _)). left. exists ks. by rewrite Hk.
Qed.

Definition demo_start : game := Game [] 0 ([97; 114; 115] ++ quit_keys) 0 [].

Lemma game_ends_witness : (forall i : nat, 0 <= 7) /\ wp (fun _ => main (fun _ => 7)) demo_start (fun _ s' => exists twos fours, playing twos fours s').
Proof. split; [intros _; lia|]. apply (proj2 (game_ends (fun _ => 7) demo_start (fun _ => ltac:(lia))) [97; 114; 115]). reflexivity. Defined.

(** At the end of the input the program does not end. *)
Lemma game_waits rands s : (forall i, 0 <= rands i) -> keys s = [] -> faults (fun _ => main rands) s Out_of_fuel.
Proof.
  intros Hr E. pose proof (initBoard_spec rands Hr s (fun _ s' => keys s' = [])) as Hi.
  eapply faults_after; [apply Hi; intros a f s' _ _ ->; exact E|]. intros u s1 E1. apply faults_with_fuel.
  exists 0%nat. intros n fuel _ _. by apply loop_waits.
Qed.

(** The program's own tests pass. *)
Lemma tests_pass rands s : 0 <= score s < 4294967296 ->
  wp (fun _ => program rands (Some "test"%string)) s (fun status s' => status = 0 /\ events s' = events s ++ [Tests_passed 13]).
Proof.
  intros Hs. unfold program, test. apply wp_bind.
  eapply (wp_mono _ _ (fun ok s' => ok = true /\ events s' = events s)).
  2: { intros b s' [-> E]. apply wp_bind, wp_modify, wp_ret. split; [done|]. cbn [with_events events]. by rewrite E. }
  assert (forall rows t s', events s' = events s -> 0 <= score s' < 4294967296 ->
    Forall (fun '(i, o) => column_ok i /\ slid i = o) rows ->
    wp (fun _ => test_loop rows t) s' (fun ok s' => ok = true /\ events s' = events s)) as H.
  { induction rows as [|[i o] rows IH]; intros t s' Ee Hsc Hrows; cbn [test_loop]; [by apply wp_ret|].
    apply Forall_cons in Hrows as [[Hi <-] Hrows]. apply wp_bind, slideArray_spec; [done | done|]. rewrite bool_decide_eq_true_2 by done.
    apply IH; [exact Ee | cbn [score with_score]; apply Z.mod_pos_bound; lia | exact Hrows]. }
  apply H; [done | done|]. unfold data. repeat constructor; lia.
Qed.
