(* ===== verification/Sudoku.v ===== *)
(** * The sudoku solver (src/games/sudoku/sudoku.c)

    The table is one block of 81 numbers, [sudoku[y][x]] its element [9*y + x]; 0 is an empty field.  The search for a next
    guess reads the element behind the table when the guesses are exhausted: the class [behind_table] says what is there.
    What curses draws is a list of events; the pauses of the animation are left out.  A key is the number getch returns, and behind the last key
    it returns ERR. *)

From Stdlib Require Import ZArith Lia.
From stdpp Require Import base numbers list strings.
From S2P Require Import Prelude.

Open Scope Z_scope.

Inductive status : Type := Guessing | Solving | Unable | Solved.

Record puzzle : Type := Puzzle {
  sudoku : list Z;
  sudoku_copy : list Z;
  guess_y : Z; guess_x : Z; guess_number : Z;
  current_y : Z; current_x : Z;
  input : list Z;
  shown : list (list Z * option status)
}.
Definition with_sudoku v s := Puzzle v (sudoku_copy s) (guess_y s) (guess_x s) (guess_number s) (current_y s) (current_x s) (input s) (shown s).
Definition with_copy v s := Puzzle (sudoku s) v (guess_y s) (guess_x s) (guess_number s) (current_y s) (current_x s) (input s) (shown s).
Definition with_guess y x n s := Puzzle (sudoku s) (sudoku_copy s) y x n (current_y s) (current_x s) (input s) (shown s).
Definition with_cursor y x s := Puzzle (sudoku s) (sudoku_copy s) (guess_y s) (guess_x s) (guess_number s) y x (input s) (shown s).
Definition with_keys_left v s := Puzzle (sudoku s) (sudoku_copy s) (guess_y s) (guess_x s) (guess_number s) (current_y s) (current_x s) v (shown s).
Definition with_shown v s := Puzzle (sudoku s) (sudoku_copy s) (guess_y s) (guess_x s) (guess_number s) (current_y s) (current_x s) (input s) v.

Abbreviation P := (prog puzzle).

(** The number behind the table, if reading it is no fault. *)
Class behind_table : Type := behind_value : option Z.

(** A program without a cell of the array is a fault. *)
Definition index (y x : Z) : Z := 9 * y + x.

Section solver.
Context {BT : behind_table}.

(** [sudoku[y][x]]. *)
Definition field (y x : Z) : P Z :=
  s ← get_state;
  let i := index y x in
  if i <? 0 then fail Bad_pointer else
  match sudoku s !! Z.to_nat i with
  | Some v => mret v
  | None => if i =? 81 then match behind_value with Some v => mret v | None => fail Bad_pointer end else fail Bad_pointer
  end.

(** [sudoku[y][x] = v]. *)
Definition set_field (y x v : Z) : P unit :=
  s ← get_state;
  let i := index y x in
  if (i <? 0) || (81 <=? i) then fail Bad_pointer else set_state (with_sudoku (<[Z.to_nat i := v]> (sudoku s)) s).

Definition display_update (status_msg : option status) : P unit :=
  modify (fun s => with_shown (shown s ++ [(sudoku s, status_msg)]) s).

(** A [for] over the numbers of a list; the body ends the function with [inr]. *)
Fixpoint each {A R} (l : list Z) (a : A) (body : Z -> A -> P (A + R)) : P (A + R) :=
  match l with
  | [] => mret (inl a)
  | i :: l => r ← body i a; match r with inl a => each l a body | inr v => mret (inr v) end
  end.

(** [for (i = 0; i < 9; i++)], and the three lines of a box. *)
Definition nine : list Z := seqZ 0 9.
Definition three (y : Z) : list Z := seqZ (Z.quot y 3 * 3) 3.

(** What a function returns whose loops run to their end. *)
Definition finally {A R} (p : P (A + R)) (k : A -> P R) : P R := r ← p; match r with inl a => k a | inr v => mret v end.

(** ** Guesses *)

Definition guess_is_not_possible : P bool :=
  s ← get_state;
  let y := guess_y s in let x := guess_x s in let n := guess_number s in
  finally (each (three y) tt (fun ny _ => each (three x) tt (fun nx _ =>
    v ← field ny nx; mret (if v =? n then inr true else inl tt)))) (fun _ =>
  finally (each nine tt (fun nx _ => v ← field y nx; mret (if v =? n then inr true else inl tt))) (fun _ =>
  finally (each nine tt (fun ny _ => v ← field ny x; mret (if v =? n then inr true else inl tt))) (fun _ =>
  mret false))).

(** [while (1)]: to the first empty field; whether there is one. *)
Fixpoint empty_loop (k : nat) : P bool :=
  match k with
  | O => fail Out_of_fuel
  | S k =>
      s ← get_state;
      v ← field (guess_y s) (guess_x s);
      if 0 <? v then
        let x := guess_x s + 1 in
        if x =? 9 then
          let y := guess_y s + 1 in
          modify (with_guess y 0 (guess_number s));;
          if y =? 9 then mret false else empty_loop k
        else modify (with_guess (guess_y s) x (guess_number s));; empty_loop k
      else mret true
  end.

(** [do { guess_x++; ... } while (sudoku[guess_y][guess_x] > 0 && guess_y < 9)]. *)
Fixpoint next_loop (k : nat) : P unit :=
  match k with
  | O => fail Out_of_fuel
  | S k =>
      s ← get_state;
      let x := guess_x s + 1 in
      modify (if x =? 9 then with_guess (guess_y s + 1) 0 (guess_number s) else with_guess (guess_y s) x (guess_number s));;
      s ← get_state;
      v ← field (guess_y s) (guess_x s);
      if (0 <? v) && (guess_y s <? 9) then next_loop k else mret tt
  end.

(** [do { guess_number++; ... } while (guess_is_not_possible())]. *)
Fixpoint number_loop (k : nat) : P bool :=
  match k with
  | O => fail Out_of_fuel
  | S k =>
      s ← get_state;
      let n := guess_number s + 1 in
      modify (with_guess (guess_y s) (guess_x s) n);;
      more ← (if n =? 10 then
          modify (with_guess (guess_y s) (guess_x s) 1);;
          with_fuel next_loop;;
          s ← get_state; mret (negb (guess_y s =? 9))
        else mret true);
      if more : bool then
        bad ← guess_is_not_possible;
        if bad : bool then number_loop k else mret true
      else mret false
  end.

Definition apply_next_guess : P bool :=
  modify (fun s => with_sudoku (sudoku_copy s) s);;
  s ← get_state;
  found ← (if guess_number s =? 0 then with_fuel empty_loop else mret true);
  if found : bool then
    more ← with_fuel number_loop;
    if more : bool then
      s ← get_state;
      set_field (guess_y s) (guess_x s) (guess_number s);;
      display_update (Some Guessing);;
      mret true
    else mret false
  else mret false.

(** ** Numbers that fit nowhere else *)

Definition is_blocked_horizontally (target y : Z) : P bool :=
  finally (each nine tt (fun i _ => v ← field y i; mret (if v =? target then inr true else inl tt))) (fun _ => mret false).
Definition is_blocked_vertically (target x : Z) : P bool :=
  finally (each nine tt (fun i _ => v ← field i x; mret (if v =? target then inr true else inl tt))) (fun _ => mret false).

Definition is_blocked_elsewhere (target y x : Z) : P bool :=
  finally (each (three y) tt (fun ny _ => each (three x) tt (fun nx _ =>
    v ← field ny nx; mret (if v =? target then inr false else inl tt)))) (fun _ =>
  finally (each (three y) 0 (fun ny skipped => each (three x) skipped (fun nx skipped =>
    v ← field ny nx;
    if 0 <? v then mret (inl (skipped + 1)) else
    if (ny =? y) && (nx =? x) then mret (inl (skipped + 1)) else
    h ← (if negb (ny =? y) then is_blocked_horizontally target ny else mret false);
    if h : bool then mret (inl skipped) else
    w ← (if negb (nx =? x) then is_blocked_vertically target nx else mret false);
    if w : bool then mret (inl skipped) else mret (inr false)))) (fun skipped =>
  mret (negb (skipped =? 9)))).

(** [for (i = 1; i <= 9; i++)], left at the first number that fits: whether there was one. *)
Definition numbers_loop (y x : Z) : P (unit + unit) :=
  each (seqZ 1 9) tt (fun i _ =>
    blocked ← is_blocked_elsewhere i y x;
    if blocked : bool then set_field y x i;; display_update (Some Solving);; mret (inr tt) else mret (inl tt)).

Definition solve_sudoku_algorithm_2 : P Z :=
  finally (each nine 0 (fun y found => each nine found (fun x found =>
    v ← field y x;
    if 0 <? v then mret (inl found) else
    r ← numbers_loop y x;
    mret (inl (match r with inl _ => found | inr _ => found + 1 end))))) (fun found => mret found).

(** ** Fields with one number left *)

(** [possible[sudoku[y][x] - 1] = 0], unless the field is empty. *)
Definition remove (y x : Z) (possible : list bool) : P (list bool) :=
  v ← field y x;
  if v =? 0 then mret possible else
  if (1 <=? v) && (v <=? 9) then mret (<[Z.to_nat (v - 1) := false]> possible) else fail Bad_pointer.

Definition find_only_solution (y x : Z) : P Z :=
  v ← field y x;
  if negb (v =? 0) then mret (-1) else
  let possible := replicate 9 true in
  finally (each nine possible (fun nx possible => p ← remove y nx possible; mret (inl p))) (fun possible =>
  finally (each nine possible (fun ny possible => p ← remove ny x possible; mret (inl p))) (fun possible =>
  finally (each (three y) possible (fun ny possible => each (three x) possible (fun nx possible =>
    p ← remove ny nx possible; mret (inl p)))) (fun possible =>
  let solution := foldl (fun solution i => if nth (Z.to_nat i) possible false then (if solution =? -1 then i + 1 else 0) else solution) (-1) nine in
  mret (if solution =? -1 then -2 else solution)))).

Definition table_full : P bool :=
  finally (each nine tt (fun y _ => each nine tt (fun x _ =>
    v ← field y x; mret (if v =? 0 then inr false else inl tt)))) (fun _ => mret true).

(** One time through all fields; how many were found. *)
Definition pass : P Z :=
  finally (each nine 0 (fun y found => each nine found (fun x found =>
    v ← field y x;
    if 0 <? v then mret (inl found) else
    solution ← find_only_solution y x;
    if 0 <? solution then set_field y x solution;; display_update (Some Solving);; mret (inl (found + 1)) else mret (inl found)))) (fun found => mret found).

Fixpoint passes (k : nat) : P unit :=
  match k with
  | O => fail Out_of_fuel
  | S k =>
      found ← pass;
      full ← table_full;
      if full : bool then mret tt else if 0 <? found then passes k else mret tt
  end.

(** 0 when the table is full, otherwise -1. *)
Definition solve_sudoku_algorithm_1 : P Z :=
  with_fuel passes;;
  full ← table_full;
  mret (if full : bool then 0 else -1).

(** ** The solver *)

Inductive state : Type :=
  | TRY_ALGO_1 | TRY_ALGO_2 | TRY_NEXT_GUESS | TABLE_COPY | TABLE_DONE | TABLE_FAILED.

(** One turn of the state machine. *)
Definition step_state (st : state) (copied : bool) : P (state * bool) :=
  match st with
  | TRY_ALGO_1 => r ← solve_sudoku_algorithm_1; mret (if r =? 0 then TABLE_DONE else TRY_ALGO_2, copied)
  | TRY_ALGO_2 => n ← solve_sudoku_algorithm_2;
      mret (if 0 <? n then TRY_ALGO_1 else if copied then TRY_NEXT_GUESS else TABLE_COPY, copied)
  | TABLE_COPY => modify (fun s => with_copy (sudoku s) s);; mret (TRY_NEXT_GUESS, true)
  | TRY_NEXT_GUESS => more ← apply_next_guess; mret (if more : bool then TRY_ALGO_1 else TABLE_FAILED, copied)
  | _ => mret (st, copied)
  end.

(** 0 when it is solved, 1 otherwise. *)
Fixpoint solve_loop (k : nat) (st : state) (copied : bool) : P Z :=
  match k with
  | O => fail Out_of_fuel
  | S k =>
      match st with
      | TABLE_DONE => mret 0
      | TABLE_FAILED => modify (fun s => if copied then with_sudoku (sudoku_copy s) s else s);; mret 1
      | _ => '(st, copied) ← step_state st copied; solve_loop k st copied
      end
  end.

Definition solve_sudoku : P Z :=
  modify (with_guess 0 0 0);; with_fuel (fun k => solve_loop k TRY_ALGO_1 false).

(** ** Reading a file *)

(** [fgets(line, 32, fh)]: the line and what is left of the file. *)
Fixpoint fgets (size : nat) (l : list Z) : list Z * list Z :=
  match size, l with
  | S size, c :: l => if c =? 10 then ([c], l) else let '(line, l) := fgets size l in (c :: line, l)
  | _, _ => ([], l)
  end.

(** A string ends at its first NUL. *)
Fixpoint up_to_nul (l : list Z) : list Z :=
  match l with c :: l => if c =? 0 then [] else c :: up_to_nul l | [] => [] end.

Definition is_space (c : Z) : bool := (c =? 32) || ((9 <=? c) && (c <=? 13)).

(** [sscanf(line, "%1d...", ...)] from the conversion for column [x] on: how many conversions were done. *)
Fixpoint scan_digits (line : list Z) (n x : Z) : P Z :=
  match line with
  | [] => mret x
  | c :: line =>
      if x =? 9 then mret x else
      if is_space c then scan_digits line n x else
      if (48 <=? c) && (c <=? 57) then set_field n x (c - 48);; scan_digits line n (x + 1) else mret x
  end.

Fixpoint file_loop (k : nat) (file : list Z) (n : Z) : P unit :=
  match k with
  | O => fail Out_of_fuel
  | S k =>
      match file with
      | [] => mret tt
      | _ =>
          let '(line, file) := fgets 31 file in
          scan ← scan_digits (up_to_nul line) n 0;
          if scan =? 9 then
            if n + 1 =? 9 then mret tt else file_loop k file (n + 1)
          else file_loop k file n
      end
  end.

(** [n] has no initial value in the code: [garbage] is what the variable holds. *)
Definition read_from_file (garbage : Z) (file : option (list Z)) : P Z :=
  match file with
  | None => mret 1
  | Some file => with_fuel (fun k => file_loop k file garbage);; mret 0
  end.

(** ** The screen and the keys *)

Definition KEY_DOWN : Z := 258.
Definition KEY_UP : Z := 259.
Definition KEY_LEFT : Z := 260.
Definition KEY_RIGHT : Z := 261.
Definition KEY_ENTER : Z := 343.

Definition getch : P Z :=
  s ← get_state;
  match input s with
  | c :: l => set_state (with_keys_left l s);; mret c
  | [] => mret (-1)
  end.

(** One turn of the loop of main: the new status, or [None] to leave. *)
Definition key_turn (current_status : option status) : P (option (option status)) :=
  display_update current_status;;
  c ← getch;
  s ← get_state;
  let y := current_y s in let x := current_x s in
  if c =? KEY_LEFT then modify (with_cursor y (if x - 1 <? 0 then 0 else x - 1));; mret (Some current_status) else
  if c =? KEY_RIGHT then modify (with_cursor y (if 9 <=? x + 1 then 8 else x + 1));; mret (Some current_status) else
  if c =? KEY_UP then modify (with_cursor (if y - 1 <? 0 then 0 else y - 1) x);; mret (Some current_status) else
  if c =? KEY_DOWN then modify (with_cursor (if 9 <=? y + 1 then 8 else y + 1) x);; mret (Some current_status) else
  if (49 <=? c) && (c <=? 57) then set_field y x (c - 48);; mret (Some current_status) else
  if (c =? 48) || (c =? 32) then set_field y x 0;; mret (Some current_status) else
  if (c =? KEY_ENTER) || (c =? 10) then
    r ← solve_sudoku; mret (Some (Some (if r =? 0 then Solved else Unable)))
  else
  if (c =? 113) || (c =? 81) || (c =? 27) then mret None else mret (Some current_status).

Fixpoint main_loop (k : nat) (current_status : option status) : P unit :=
  match k with
  | O => fail Out_of_fuel
  | S k => r ← key_turn current_status; match r with Some st => main_loop k st | None => mret tt end
  end.

Definition main (garbage : Z) (file : option (option (list Z))) : P unit :=
  match file with Some f => read_from_file garbage f;; mret tt | None => mret tt end;;
  with_fuel (fun k => main_loop k None).
End solver.
