(* ===== verification/SudokuSpec.v ===== *)
(** * Sudoku: tables, their completions, and what the readers of sudoku.c see

    A completion of a table is a solved grid that agrees with it.  The functions of the solver only deduce: they keep the
    completions of the table. *)

From Stdlib Require Import ZArith Lia.
From stdpp Require Import base numbers list strings.
From S2P Require Import Prelude Sudoku.

Open Scope Z_scope.

(** ** Tables *)

Definition at_ (t : list Z) (y x : Z) : Z := nth (Z.to_nat (index y x)) t 0.
Definition on_table (y x : Z) : Prop := 0 <= y < 9 /\ 0 <= x < 9.
Definition table (t : list Z) : Prop := length t = 81%nat /\ Forall (fun v => 0 <= v <= 9) t.

Definition full (t : list Z) : Prop := forall y x, on_table y x -> at_ t y x <> 0.
(** [t'] has the numbers of [t]. *)
Definition extends (t t' : list Z) : Prop := forall y x, on_table y x -> at_ t y x <> 0 -> at_ t' y x = at_ t y x.

(** In the same row, column or box. *)
Definition peers (y x y' x' : Z) : Prop := y = y' \/ x = x' \/ (y / 3 = y' / 3 /\ x / 3 = x' / 3).

Record solution (S : list Z) : Prop := Solution {
  sol_length : length S = 81%nat;
  sol_range : Forall (fun v => 1 <= v <= 9) S;
  sol_differ : forall y x y' x', on_table y x -> on_table y' x' -> peers y x y' x' -> at_ S y x = at_ S y' x' -> y = y' /\ x = x'
}.
Definition completes (S t : list Z) : Prop := solution S /\ extends t S.
Definition same_completions (t t' : list Z) : Prop := forall S, completes S t <-> completes S t'.

Lemma index_range y x : on_table y x -> (Z.to_nat (index y x) < 81)%nat.
Proof. unfold on_table, index. lia. Qed.

Lemma index_inj y x y' x' : on_table y x -> on_table y' x' -> Z.to_nat (index y x) = Z.to_nat (index y' x') -> y = y' /\ x = x'.
Proof. unfold on_table, index. lia. Qed.

Lemma place_of i : (i < 81)%nat -> exists y x, on_table y x /\ Z.to_nat (index y x) = i.
Proof.
  intros Hi. exists (Z.of_nat i / 9), (Z.of_nat i mod 9). unfold on_table, index. rewrite <- Z.div_mod by lia. split_and!.
  - apply Z.div_pos; lia.
  - apply Z.div_lt_upper_bound; lia.
  - apply Z.mod_pos_bound; lia.
  - apply Z.mod_pos_bound; lia.
  - lia.
Qed.

Lemma at_lookup t y x : length t = 81%nat -> on_table y x -> t !! Z.to_nat (index y x) = Some (at_ t y x).
Proof.
  intros Ht Hyx. unfold at_. destruct (lookup_lt_is_Some_2 t (Z.to_nat (index y x))) as [v Hv]; [by rewrite Ht; apply index_range|].
  by rewrite nth_lookup, Hv.
Qed.

Lemma at_range (P : Z -> Prop) t y x : length t = 81%nat -> Forall P t -> on_table y x -> P (at_ t y x).
Proof. intros Ht Hf Hyx. rewrite Forall_lookup in Hf. by eapply Hf, at_lookup. Qed.

Lemma table_at t y x : table t -> on_table y x -> 0 <= at_ t y x <= 9.
Proof. intros [Ht Hf] Hyx. by apply (at_range (fun v => 0 <= v <= 9)). Qed.

(** [t] with [v] in a field. *)
Definition write (t : list Z) (y x v : Z) : list Z := <[Z.to_nat (index y x) := v]> t.

Lemma at_write t y x v y' x' : length t = 81%nat -> on_table y x -> on_table y' x' ->
  at_ (write t y x v) y' x' = if decide (y = y' /\ x = x') then v else at_ t y' x'.
Proof.
  intros Ht H H'. unfold at_, write. rewrite !nth_lookup. destruct (decide (y = y' /\ x = x')) as [[<- <-]|Hne].
  - by rewrite list_lookup_insert_eq by (rewrite Ht; by apply index_range).
  - rewrite list_lookup_insert_ne; [done|]. intros E. by apply Hne, index_inj.
Qed.

Lemma table_write t y x v : table t -> 0 <= v <= 9 -> table (write t y x v).
Proof. intros [Ht Hf] Hv. split; [by unfold write; rewrite length_insert | by apply Forall_insert]. Qed.

Lemma extends_self t : extends t t.
Proof. done. Qed.
Lemma extends_trans t1 t2 t3 : extends t1 t2 -> extends t2 t3 -> extends t1 t3.
Proof. intros H1 H2 y x Hyx Hv. rewrite <- (H1 y x) by done. apply H2; [done|]. by rewrite H1. Qed.
Lemma extends_write t y x v : table t -> on_table y x -> at_ t y x = 0 -> extends t (write t y x v).
Proof.
  intros [Ht _] H H0 y' x' H' Hv. rewrite at_write by done. destruct (decide (y = y' /\ x = x')) as [[<- <-]|]; [by rewrite H0 in Hv | done].
Qed.

Lemma same_refl t : same_completions t t.
Proof. done. Qed.
Lemma same_trans t1 t2 t3 : same_completions t1 t2 -> same_completions t2 t3 -> same_completions t1 t3.
Proof. intros H1 H2 S. by rewrite (H1 S). Qed.

(** Writing a number that every completion has there. *)
Lemma same_write t y x v : table t -> on_table y x -> at_ t y x = 0 -> (forall S, completes S t -> at_ S y x = v) -> v <> 0 ->
  same_completions t (write t y x v).
Proof.
  intros Ht Hyx H0 Hv Hv0 S. split; intros [HS He].
  - split; [done|]. intros y' x' H' Hne. rewrite at_write in * by (done || apply Ht).
    destruct (decide (y = y' /\ x = x')) as [[<- <-]|]; [by apply Hv | by apply He].
  - split; [done|]. by eapply extends_trans; [apply extends_write|].
Qed.

(** A full table has at most itself as completion. *)
Lemma full_completion t S : table t -> full t -> completes S t -> t = S.
Proof.
  intros [Ht _] Hf [HS He]. apply list_eq_same_length with 81%nat; [apply HS | done |]. intros i a b Hi Ha Hb.
  destruct (place_of i Hi) as (y & x & Hyx & <-).
  pose proof (at_lookup t y x Ht Hyx) as H1. pose proof (at_lookup S y x (sol_length _ HS) Hyx) as H2.
  specialize (He y x Hyx (Hf y x Hyx)). congruence.
Qed.

(** ** Empty fields *)

Definition zeros (t : list Z) : nat := length (filter (fun v => v = 0) t).

Lemma zeros_insert t i v : t !! i = Some 0 -> v <> 0 -> S (zeros (<[i := v]> t)) = zeros t.
Proof.
  unfold zeros. revert i. induction t as [|w t IH]; intros [|i] Hi Hv; [done..| |]; cbn in Hi.
  - injection Hi as ->. cbn [list_insert insert]. by rewrite filter_cons_False, filter_cons_True by done.
  - change (<[S i := v]> (w :: t)) with (w :: <[i := v]> t). destruct (decide (w = 0)).
    + rewrite !filter_cons_True by done. cbn [length]. by rewrite <- (IH i).
    + rewrite !filter_cons_False by done. by apply IH.
Qed.

Lemma zeros_write t y x v : table t -> on_table y x -> at_ t y x = 0 -> v <> 0 -> S (zeros (write t y x v)) = zeros t.
Proof. intros [Ht _] H H0 Hv. apply zeros_insert; [|done]. by rewrite at_lookup, H0. Qed.

Lemma zeros_full t : table t -> zeros t = 0%nat <-> full t.
Proof.
  intros [Ht _]. unfold zeros. split.
  - intros E%nil_length_inv y x Hyx E0. assert (at_ t y x ∈ filter (fun v => v = 0) t) as H; [|by rewrite E in H; apply not_elem_of_nil in H].
    apply list_elem_of_filter. split; [done|]. by eapply list_elem_of_lookup_2, at_lookup.
  - intros Hf. destruct (filter _ t) as [|v l] eqn:E; [done|]. assert (v ∈ filter (fun v => v = 0) t) as H by (rewrite E; by left).
    apply list_elem_of_filter in H as [-> [i Hi]%list_elem_of_lookup]. pose proof (lookup_lt_Some _ _ _ Hi).
    destruct (place_of i ltac:(lia)) as (y & x & Hyx & <-). exfalso.
    apply (Hf y x Hyx). pose proof (at_lookup t y x Ht Hyx). congruence.
Qed.

(** ** Reading *)

Definition row_has (t : list Z) (y v : Z) : bool := existsb (fun x => at_ t y x =? v) nine.
Definition col_has (t : list Z) (x v : Z) : bool := existsb (fun y => at_ t y x =? v) nine.
Definition box_has (t : list Z) (y x v : Z) : bool := existsb (fun ny => existsb (fun nx => at_ t ny nx =? v) (three x)) (three y).
(** A peer of the field has [v]. *)
Definition seen (t : list Z) (y x v : Z) : bool := row_has t y v || col_has t x v || box_has t y x v.

Lemma elem_nine i : i ∈ nine <-> 0 <= i < 9.
Proof. unfold nine. rewrite elem_of_seqZ. lia. Qed.

Lemma elem_three y ny : 0 <= y < 9 -> ny ∈ three y <-> 0 <= ny < 9 /\ ny / 3 = y / 3.
Proof.
  intros Hy. unfold three. rewrite elem_of_seqZ, Z.quot_div_nonneg by lia.
  pose proof (Z.div_mod y 3 ltac:(lia)). pose proof (Z.mod_pos_bound y 3 ltac:(lia)).
  pose proof (Z.div_mod ny 3 ltac:(lia)). pose proof (Z.mod_pos_bound ny 3 ltac:(lia)). lia.
Qed.

Lemma existsb_elem {A} (f : A -> bool) l : existsb f l = true <-> exists a, a ∈ l /\ f a = true.
Proof. rewrite existsb_exists. by setoid_rewrite list_elem_of_In. Qed.

Lemma row_has_true t y v : row_has t y v = true <-> exists x, 0 <= x < 9 /\ at_ t y x = v.
Proof. unfold row_has. rewrite existsb_elem. setoid_rewrite elem_nine. by setoid_rewrite Z.eqb_eq. Qed.
Lemma col_has_true t x v : col_has t x v = true <-> exists y, 0 <= y < 9 /\ at_ t y x = v.
Proof. unfold col_has. rewrite existsb_elem. setoid_rewrite elem_nine. by setoid_rewrite Z.eqb_eq. Qed.
Lemma box_has_true t y x v : on_table y x ->
  box_has t y x v = true <-> exists ny nx, on_table ny nx /\ ny / 3 = y / 3 /\ nx / 3 = x / 3 /\ at_ t ny nx = v.
Proof.
  intros [Hy Hx]. unfold box_has, on_table. rewrite existsb_elem. split.
  - intros (ny & [Hny E1]%(elem_three y _ Hy) & (nx & [Hnx E2]%(elem_three x _ Hx) & E%Z.eqb_eq)%existsb_elem). by exists ny, nx.
  - intros (ny & nx & [Hny Hnx] & E1 & E2 & E). exists ny. rewrite elem_three by done. split; [done|]. apply existsb_elem.
    exists nx. rewrite elem_three by done. split; [done|]. by apply Z.eqb_eq.
Qed.

(** A number seen from an empty field is not there in any completion. *)
Lemma seen_not t y x v S : on_table y x -> completes S t -> at_ t y x = 0 -> v <> 0 -> seen t y x v = true -> at_ S y x <> v.
Proof.
  intros H [HS He] H0 Hv Hseen Hv'. unfold seen in Hseen. rewrite !orb_true_iff, row_has_true, col_has_true, box_has_true in Hseen by done.
  assert (forall ny nx, on_table ny nx -> at_ t ny nx = v -> peers y x ny nx -> False) as Hno.
  { intros ny nx Hn E Hp. assert (at_ S ny nx = v) as ES by (rewrite (He ny nx Hn); congruence).
    destruct (sol_differ S HS y x ny nx H Hn Hp) as [<- <-]; congruence. }
  unfold on_table, peers in *.
  destruct Hseen as [[(nx & Hnx & E)|(ny & Hny & E)]|(ny & nx & Hn & E1 & E2 & E)].
  - apply (Hno y nx); [tauto | done | by left].
  - apply (Hno ny x); [tauto | done | by right; left].
  - apply (Hno ny nx); [done | done | by right; right].
Qed.

(** ** Rules for the loops *)

Section solver.
Context {BT : behind_table}.

Lemma wp_field y x s (Q : Z -> puzzle -> Prop) : length (sudoku s) = 81%nat -> on_table y x -> Q (at_ (sudoku s) y x) s ->
  wp (fun _ => field y x) s Q.
Proof.
  intros Ht Hyx HQ. unfold field. apply wp_bind, wp_get_state. pose proof Hyx as [Hy Hx]. cbv zeta.
  destruct (Z.ltb_spec (index y x) 0); [unfold index in *; lia|]. rewrite at_lookup by done. by apply wp_ret.
Qed.

Lemma wp_set_field y x v s (Q : unit -> puzzle -> Prop) : on_table y x -> Q tt (with_sudoku (write (sudoku s) y x v) s) ->
  wp (fun _ => set_field y x v) s Q.
Proof.
  intros Hyx HQ. unfold set_field. apply wp_bind, wp_get_state. pose proof Hyx as [Hy Hx]. cbv zeta. unfold index in *.
  destruct (Z.ltb_spec (9 * y + x) 0); [lia|]. destruct (Z.leb_spec 81 (9 * y + x)); [lia|]. by apply wp_set_state.
Qed.

Lemma wp_each {A R} (l : list Z) (body : Z -> A -> P (A + R)) (I : list Z -> A -> puzzle -> Prop) (E : R -> puzzle -> Prop) a s :
  (forall front i a s, i ∈ l -> I front a s ->
    wp (fun _ => body i a) s (fun r s' => match r with inl a' => I (front ++ [i]) a' s' | inr v => E v s' end)) ->
  I [] a s -> wp (fun _ => each l a body) s (fun r s' => match r with inl a' => I l a' s' | inr v => E v s' end).
Proof.
  intros Hbody. assert (forall rest front a s, l = front ++ rest -> I front a s ->
    wp (fun _ => each rest a body) s (fun r s' => match r with inl a' => I l a' s' | inr v => E v s' end)) as H; [|by apply (H l [])].
  clear a s. induction rest as [|i rest IH]; intros front a s E1 HI; cbn [each].
  - apply wp_ret. by rewrite E1, app_nil_r.
  - apply wp_bind. eapply wp_mono; [apply (Hbody front i a s)|]; [rewrite E1; apply elem_of_app; right; left | done |].
    intros [a'|v] s' Hs; [|by apply wp_ret]. apply (IH (front ++ [i])); [by rewrite E1, <- app_assoc | done].
Qed.

(** A loop that looks for something. *)
Lemma wp_search {R} (l : list Z) (p : Z -> bool) (body : Z -> unit -> P (unit + R)) v s (Q : unit + R -> puzzle -> Prop) :
  (forall i (Q' : unit + R -> puzzle -> Prop), i ∈ l -> Q' (if p i then inr v else inl tt) s -> wp (fun _ => body i tt) s Q') ->
  Q (if existsb p l then inr v else inl tt) s -> wp (fun _ => each l tt body) s Q.
Proof.
  intros Hbody. induction l as [|i l IH]; cbn [each existsb]; intros HQ; [by apply wp_ret|].
  apply wp_bind, Hbody; [by left|]. destruct (p i); [by apply wp_ret|]. apply IH; [|done].
  intros j Q' Hj. apply Hbody. by right.
Qed.

Lemma wp_finally {A R} (p : P (A + R)) (k : A -> P R) s (Q : R -> puzzle -> Prop) :
  wp (fun _ => p) s (fun r s' => match r with inl a => wp (fun _ => k a) s' Q | inr v => Q v s' end) -> wp (fun _ => finally p k) s Q.
Proof. intros H. apply wp_bind. eapply wp_mono; [exact H|]. intros [a|v] s' Hs; [done | by apply wp_ret]. Qed.

(** Looking for a number in a row, in a column, in a box. *)
Lemma search_row {R} y n (v : R) s (Q : unit + R -> puzzle -> Prop) : length (sudoku s) = 81%nat -> 0 <= y < 9 ->
  Q (if row_has (sudoku s) y n then inr v else inl tt) s ->
  wp (fun _ => each nine tt (fun x _ => w ← field y x; mret (if w =? n then inr v else inl tt))) s Q.
Proof.
  intros Ht Hy HQ. apply (wp_search _ (fun x => at_ (sudoku s) y x =? n) _ v); [|done]. intros x Q' Hx%elem_nine HQ'.
  apply wp_bind, wp_field; [done | done |]. by apply wp_ret.
Qed.
Lemma search_col {R} x n (v : R) s (Q : unit + R -> puzzle -> Prop) : length (sudoku s) = 81%nat -> 0 <= x < 9 ->
  Q (if col_has (sudoku s) x n then inr v else inl tt) s ->
  wp (fun _ => each nine tt (fun y _ => w ← field y x; mret (if w =? n then inr v else inl tt))) s Q.
Proof.
  intros Ht Hx HQ. apply (wp_search _ (fun y => at_ (sudoku s) y x =? n) _ v); [|done]. intros y Q' Hy%elem_nine HQ'.
  apply wp_bind, wp_field; [done | done |]. by apply wp_ret.
Qed.
Lemma search_box {R} y x n (v : R) s (Q : unit + R -> puzzle -> Prop) : length (sudoku s) = 81%nat -> on_table y x ->
  Q (if box_has (sudoku s) y x n then inr v else inl tt) s ->
  wp (fun _ => each (three y) tt (fun ny _ => each (three x) tt (fun nx _ => w ← field ny nx; mret (if w =? n then inr v else inl tt)))) s Q.
Proof.
  intros Ht [Hy Hx] HQ. apply (wp_search _ (fun ny => existsb (fun nx => at_ (sudoku s) ny nx =? n) (three x)) _ v); [|done].
  intros ny Q' [Hny _]%(elem_three y _ Hy) HQ'. apply (wp_search _ (fun nx => at_ (sudoku s) ny nx =? n) _ v); [|done].
  intros nx Q'' [Hnx _]%(elem_three x _ Hx) HQ''. apply wp_bind, wp_field; [done | done |]. by apply wp_ret.
Qed.

Lemma guess_is_not_possible_spec s (Q : bool -> puzzle -> Prop) : length (sudoku s) = 81%nat -> on_table (guess_y s) (guess_x s) ->
  Q (seen (sudoku s) (guess_y s) (guess_x s) (guess_number s)) s -> wp (fun _ => guess_is_not_possible) s Q.
Proof.
  intros Ht [Hy Hx] HQ. unfold guess_is_not_possible. apply wp_bind, wp_get_state. cbv zeta. unfold seen in HQ.
  apply wp_finally, search_box; [done | done |]. destruct (box_has _ _ _ _); [by rewrite orb_true_r in HQ|]. rewrite orb_false_r in HQ.
  apply wp_finally, search_row; [done | done |]. destruct (row_has _ _ _); [done|]. cbn [orb] in HQ.
  apply wp_finally, search_col; [done | done |]. destruct (col_has _ _ _); [done|]. by apply wp_ret.
Qed.

Lemma blocked_horizontally_spec n y s (Q : bool -> puzzle -> Prop) : length (sudoku s) = 81%nat -> 0 <= y < 9 ->
  Q (row_has (sudoku s) y n) s -> wp (fun _ => is_blocked_horizontally n y) s Q.
Proof. intros Ht Hy HQ. apply wp_finally, search_row; [done | done |]. destruct (row_has _ _ _); [done | by apply wp_ret]. Qed.
Lemma blocked_vertically_spec n x s (Q : bool -> puzzle -> Prop) : length (sudoku s) = 81%nat -> 0 <= x < 9 ->
  Q (col_has (sudoku s) x n) s -> wp (fun _ => is_blocked_vertically n x) s Q.
Proof. intros Ht Hx HQ. apply wp_finally, search_col; [done | done |]. destruct (col_has _ _ _); [done | by apply wp_ret]. Qed.

Definition has_zero (t : list Z) : bool := existsb (fun y => row_has t y 0) nine.
Lemma has_zero_true t : has_zero t = true -> ~ full t.
Proof.
  unfold has_zero. rewrite existsb_elem. intros (y & Hy%elem_nine & (x & Hx & E)%row_has_true) Hf. by apply (Hf y x).
Qed.

Lemma table_full_spec s (Q : bool -> puzzle -> Prop) : table (sudoku s) ->
  Q (bool_decide (zeros (sudoku s) = 0%nat)) s -> wp (fun _ => table_full) s Q.
Proof.
  intros Ht HQ. apply wp_finally. apply (wp_search _ (fun y => existsb (fun x => at_ (sudoku s) y x =? 0) nine) _ false).
  - intros y Q' Hy%elem_nine HQ'. apply (search_row y 0 false); [apply Ht | done | exact HQ'].
  - change (existsb _ nine) with (has_zero (sudoku s)). destruct (has_zero (sudoku s)) eqn:E.
    + rewrite bool_decide_eq_false_2 in HQ; [done|]. rewrite zeros_full by done. by apply has_zero_true.
    + rewrite bool_decide_eq_true_2 in HQ; [by apply wp_ret|]. rewrite zeros_full by done. intros y x Hyx E0.
      apply not_true_iff_false in E. apply E. unfold has_zero. apply existsb_elem. exists y. rewrite elem_nine. split; [apply Hyx|].
      apply row_has_true. exists x. split; [apply Hyx | done].
Qed.
End solver.
