(* ===== verification/SudokuDeduce.v ===== *)
(** * Sudoku: the two ways to deduce a number

    find_only_solution finds the one number that no peer has, is_blocked_elsewhere shows that a number fits nowhere else in its box; what they write
    is in every completion. *)

From Stdlib Require Import ZArith Lia.
From stdpp Require Import base numbers list strings.
From S2P Require Import Prelude Sudoku SudokuSpec.

Open Scope Z_scope.

Section solver.
Context {BT : behind_table}.

(** ** One number left *)

(** The marks [possible] when the numbers of [base] were seen. *)
Definition marks (base : Z -> bool) (p : list bool) : Prop :=
  length p = 9%nat /\ forall w, 1 <= w <= 9 -> nth (Z.to_nat (w - 1)) p false = negb (base w).

Lemma marks_ext base base' p : (forall w, 1 <= w <= 9 -> base w = base' w) -> marks base p -> marks base' p.
Proof. intros E [Hl H]. split; [done|]. intros w Hw. by rewrite <- E, H by done. Qed.

Lemma marks_start : marks (fun _ => false) (replicate 9 true).
Proof.
  split; [done|]. intros w Hw. assert (Z.to_nat (w - 1) < 9)%nat as H by lia. destruct (Z.to_nat (w - 1)) as [|[|[|[|[|[|[|[|[|]]]]]]]]]; done || lia.
Qed.

Lemma remove_spec y x base p s (Q : list bool -> puzzle -> Prop) : table (sudoku s) -> on_table y x -> marks base p ->
  (forall p', marks (fun w => base w || (at_ (sudoku s) y x =? w)) p' -> Q p' s) -> wp (fun _ => remove y x p) s Q.
Proof.
  intros Ht Hyx [Hl Hm] HQ. unfold remove. apply wp_bind, wp_field; [apply Ht | done |]. pose proof (table_at _ _ _ Ht Hyx).
  destruct (Z.eqb_spec (at_ (sudoku s) y x) 0) as [E|E].
  - apply wp_ret, HQ. apply (marks_ext base); [|done]. intros w Hw. rewrite E.
    destruct (Z.eqb_spec 0 w); [lia|]. by rewrite orb_false_r.
  - destruct (Z.leb_spec 1 (at_ (sudoku s) y x)); [|lia]. destruct (Z.leb_spec (at_ (sudoku s) y x) 9); [|lia]. cbn [andb].
    apply wp_ret, HQ. split; [by rewrite length_insert|]. intros w Hw. rewrite nth_lookup.
    destruct (Z.eqb_spec (at_ (sudoku s) y x) w) as [Ew|Ew].
    + rewrite Ew, list_lookup_insert_eq by lia. by rewrite orb_true_r.
    + rewrite list_lookup_insert_ne by lia. rewrite orb_false_r, <- Hm, nth_lookup by done. done.
Qed.

(** A loop that marks what it sees. *)
Lemma mark_each {R} (l : list Z) (saw : Z -> Z -> bool) (body : Z -> list bool -> P (list bool + R)) s (Q : list bool + R -> puzzle -> Prop) :
  (forall i base p (Q' : list bool + R -> puzzle -> Prop), i ∈ l -> marks base p ->
    (forall p', marks (fun w => base w || saw i w) p' -> Q' (inl p') s) -> wp (fun _ => body i p) s Q') ->
  forall base p, marks base p -> (forall p', marks (fun w => base w || existsb (fun i => saw i w) l) p' -> Q (inl p') s) ->
  wp (fun _ => each l p body) s Q.
Proof.
  intros Hbody. induction l as [|i l IH]; intros base p Hm HQ; cbn [each].
  - apply wp_ret, HQ. apply (marks_ext base); [|done]. intros w _. cbn [existsb]. by rewrite orb_false_r.
  - apply wp_bind. apply (Hbody i base p); [by left | done |]. intros p1 Hp1. apply (IH (fun j base' p' Q' Hj => Hbody j base' p' Q' ltac:(by right)) _ _ Hp1).
    intros p2 Hp2. apply HQ. eapply marks_ext; [|exact Hp2]. intros w _. cbn [existsb]. by rewrite orb_assoc.
Qed.

(** The number that is left, if it is one; -1 for none, 0 for several. *)
Definition only (p : list bool) (l : list Z) : Z :=
  foldl (fun solution i => if nth (Z.to_nat i) p false then (if solution =? -1 then i + 1 else 0) else solution) (-1) l.

Lemma only_spec p l : NoDup l -> Forall (fun i => 0 <= i) l ->
  (only p l = -1 /\ Forall (fun i => nth (Z.to_nat i) p false = false) l) \/ only p l = 0 \/
  (exists i, only p l = i + 1 /\ i ∈ l /\ nth (Z.to_nat i) p false = true /\ forall j, j ∈ l -> j <> i -> nth (Z.to_nat j) p false = false).
Proof.
  unfold only. induction l as [|i l IH] using rev_ind; intros Hd Hf; [by left|]. rewrite foldl_snoc.
  apply NoDup_app in Hd as (Hd & Hi & _). apply Forall_app in Hf as [Hf Hi0]. apply Forall_singleton in Hi0.
  destruct (IH Hd Hf) as [[-> H]|[->|(k & -> & Hk & Hpk & H)]].
  - destruct (nth (Z.to_nat i) p false) eqn:E.
    + right; right. exists i. split; [done|]. split; [apply elem_of_app; right; by left|]. split; [done|].
      intros j [Hj|Hj%list_elem_of_singleton]%elem_of_app Hne; [|done]. rewrite Forall_forall in H. by apply H.
    + left. split; [done|]. apply Forall_app. split; [done|]. by apply Forall_singleton.
  - right; left. destruct (nth _ _ _); done.
  - rewrite Forall_forall in Hf. specialize (Hf k Hk). destruct (nth (Z.to_nat i) p false) eqn:E.
    + right; left. destruct (Z.eqb_spec (k + 1) (-1)); [lia | done].
    + right; right. exists k. split; [done|]. split; [apply elem_of_app; by left|]. split; [done|].
      intros j [Hj|Hj%list_elem_of_singleton]%elem_of_app Hne; [by apply H | by subst].
Qed.

(** What find_only_solution returns. *)
Definition only_solution (t : list Z) (y x r : Z) : Prop :=
  (at_ t y x <> 0 /\ r = -1) \/
  (at_ t y x = 0 /\ r = -2 /\ forall w, 1 <= w <= 9 -> seen t y x w = true) \/
  (at_ t y x = 0 /\ r = 0) \/
  (at_ t y x = 0 /\ 1 <= r <= 9 /\ seen t y x r = false /\ forall w, 1 <= w <= 9 -> w <> r -> seen t y x w = true).

Lemma only_solution_marks t y x p : at_ t y x = 0 -> marks (seen t y x) p ->
  only_solution t y x (let solution := only p nine in if solution =? -1 then -2 else solution).
Proof.
  intros H0 [_ Hm]. cbv zeta. assert (Forall (fun i => 0 <= i) nine) as Hnine by (apply Forall_forall; intros i Hi%elem_nine; lia).
  assert (NoDup nine) as Hd by apply NoDup_seqZ.
  assert (forall w, 1 <= w <= 9 -> w - 1 ∈ nine) as Hw by (intros w Hw; apply elem_nine; lia).
  destruct (only_spec p nine Hd Hnine) as [[-> H]|[->|(i & -> & Hi%elem_nine & Hpi & H)]]; unfold only_solution.
  - right; left. split; [done|]. split; [done|]. intros w Hw'. rewrite Forall_forall in H. specialize (H (w - 1) (Hw w Hw')). cbn beta in H.
    rewrite Hm in H by done. by apply negb_false_iff in H.
  - right; right; left. done.
  - right; right; right. destruct (Z.eqb_spec (i + 1) (-1)); [lia|]. split; [done|]. split; [lia|]. split.
    + specialize (Hm (i + 1) ltac:(lia)). replace (i + 1 - 1) with i in Hm by lia. rewrite Hpi in Hm. by apply negb_true_iff.
    + intros w Hw' Hne. specialize (H (w - 1) (Hw w Hw') ltac:(lia)). rewrite Hm in H by done. by apply negb_false_iff in H.
Qed.

Lemma find_only_solution_spec y x s : table (sudoku s) -> on_table y x ->
  wp (fun _ => find_only_solution y x) s (fun r s' => s' = s /\ only_solution (sudoku s) y x r).
Proof.
  intros Ht Hyx. pose proof Hyx as [Hy Hx]. unfold find_only_solution. apply wp_bind, wp_field; [apply Ht | done |].
  destruct (Z.eqb_spec (at_ (sudoku s) y x) 0) as [E|E]; cbn [negb]; [|apply wp_ret; split; [done|]; by left]. cbv zeta.
  apply wp_finally. eapply (mark_each _ (fun nx w => at_ (sudoku s) y nx =? w)); [|exact marks_start|].
  { intros nx base p Q' Hnx%elem_nine Hp HQ'. apply wp_bind. eapply remove_spec; [done | done | exact Hp |].
    intros p' Hp'. by apply wp_ret, HQ'. }
  intros p1 Hp1. apply wp_finally. eapply (mark_each _ (fun ny w => at_ (sudoku s) ny x =? w)); [|exact Hp1|].
  { intros ny base p Q' Hny%elem_nine Hp HQ'. apply wp_bind. eapply remove_spec; [done | done | exact Hp |].
    intros p' Hp'. by apply wp_ret, HQ'. }
  intros p2 Hp2. apply wp_finally. eapply (mark_each _ (fun ny w => existsb (fun nx => at_ (sudoku s) ny nx =? w) (three x))); [|exact Hp2|].
  { intros ny base p Q' [Hny _]%(elem_three y _ Hy) Hp HQ'. eapply (mark_each _ (fun nx w => at_ (sudoku s) ny nx =? w)); [|exact Hp|exact HQ'].
    intros nx base' p' Q'' [Hnx _]%(elem_three x _ Hx) Hp' HQ''. apply wp_bind. eapply remove_spec; [done | done | exact Hp' |].
    intros p3 Hp3. by apply wp_ret, HQ''. }
  intros p3 Hp3. apply wp_ret. split; [done|]. apply only_solution_marks; [done|]. eapply marks_ext; [|exact Hp3]. intros w _. done.
Qed.

(** The number find_only_solution writes is the one of every completion. *)
Lemma only_solution_forced t y x r S : on_table y x -> only_solution t y x r -> 0 < r -> completes S t -> at_ S y x = r.
Proof.
  intros Hyx Hr Hpos HS. destruct Hr as [[_ ->]|[(_ & -> & _)|[[_ ->]|(H0 & Hr & _ & H)]]]; [lia..|].
  destruct (decide (at_ S y x = r)) as [|Hne]; [done|]. exfalso.
  assert (1 <= at_ S y x <= 9) as HSr by (apply (at_range (fun v => 1 <= v <= 9)); [apply HS | apply HS | done]).
  by apply (seen_not t y x (at_ S y x) S); [done | done | done | lia | apply H |].
Qed.

(** ** A number that fits nowhere else in its box *)

(** Every solved box has every number. *)
Lemma box_complete S y x n : solution S -> on_table y x -> 1 <= n <= 9 ->
  exists ny nx, on_table ny nx /\ ny / 3 = y / 3 /\ nx / 3 = x / 3 /\ at_ S ny nx = n.
Proof.
  intros HS [Hy Hx] Hn. set (f := fun k => at_ S (Z.quot y 3 * 3 + k / 3) (Z.quot x 3 * 3 + k mod 3)).
  assert (forall k, k ∈ nine -> (Z.quot y 3 * 3 + k / 3) ∈ three y /\ (Z.quot x 3 * 3 + k mod 3) ∈ three x) as Hk.
  { intros k Hk%elem_nine. unfold three. rewrite !elem_of_seqZ. pose proof (Z.mod_pos_bound k 3 ltac:(lia)).
    pose proof (Z.div_pos k 3 ltac:(lia) ltac:(lia)). pose proof (Z.div_lt_upper_bound k 3 3 ltac:(lia) ltac:(lia)). lia. }
  assert (forall k, k ∈ nine -> on_table (Z.quot y 3 * 3 + k / 3) (Z.quot x 3 * 3 + k mod 3) /\
    (Z.quot y 3 * 3 + k / 3) / 3 = y / 3 /\ (Z.quot x 3 * 3 + k mod 3) / 3 = x / 3) as Hon.
  { intros k H. destruct (Hk k H) as [[H1 E1]%(elem_three y _ Hy) [H2 E2]%(elem_three x _ Hx)]. done. }
  assert (NoDup (f <$> nine)) as Hd.
  { apply NoDup_fmap_2_strong; [|apply NoDup_seqZ]. intros k k' H H' E. destruct (Hon k H) as (O & E1 & E2), (Hon k' H') as (O' & E1' & E2').
    destruct (sol_differ S HS _ _ _ _ O O' ltac:(right; right; split; congruence) E) as [D1 D2].
    rewrite (Z.div_mod k 3), (Z.div_mod k' 3) by lia. lia. }
  assert (n ∈ f <$> nine) as (k & E & H)%list_elem_of_fmap.
  { apply list_elem_of_In. apply (Permutation_in n (l := seqZ 1 9)); [|apply list_elem_of_In, elem_of_seqZ; lia].
    symmetry. apply NoDup_Permutation_bis; [by apply NoDup_ListNoDup | by rewrite length_fmap; unfold nine; rewrite !length_seqZ|].
    intros v Hv%list_elem_of_In. apply list_elem_of_fmap in Hv as (k & -> & H). apply list_elem_of_In, elem_of_seqZ.
    assert (1 <= f k <= 9); [|lia]. apply (at_range (fun v => 1 <= v <= 9)); [apply HS | apply HS | by apply Hon]. }
  destruct (Hon k H) as (O & E1 & E2). by eexists _, _.
Qed.

(** Another empty field cannot have [n]: a peer outside the box has it. *)
Definition excluded (t : list Z) (n y x ny nx : Z) : Prop :=
  at_ t ny nx <> 0 \/ (ny = y /\ nx = x) \/ row_has t ny n = true \/ col_has t nx n = true.
Definition elsewhere (t : list Z) (n y x : Z) : Prop :=
  box_has t y x n = false /\ forall ny nx, ny ∈ three y -> nx ∈ three x -> excluded t n y x ny nx.

Lemma is_blocked_elsewhere_spec n y x s : table (sudoku s) -> on_table y x ->
  wp (fun _ => is_blocked_elsewhere n y x) s (fun r s' => s' = s /\ (r = true -> elsewhere (sudoku s) n y x)).
Proof.
  intros Ht [Hy Hx]. pose proof (proj1 Ht) as Hl. unfold is_blocked_elsewhere. apply wp_finally, search_box; [done | done |].
  destruct (box_has (sudoku s) y x n) eqn:Eb; [done|]. apply wp_finally.
  set (J := fun (ny : Z) (front : list Z) (_ : Z) (s' : puzzle) => s' = s /\ forall nx, nx ∈ front -> excluded (sudoku s) n y x ny nx).
  eapply wp_mono; [apply (wp_each (three y) _ (fun front _ s' => s' = s /\ forall ny nx, ny ∈ front -> nx ∈ three x -> excluded (sudoku s) n y x ny nx)
    (fun v s' => s' = s /\ v = false))|].
  - intros front ny a s0 [Hny _]%(elem_three y _ Hy) [-> HI]. eapply wp_mono; [apply (wp_each (three x) _ (J ny) (fun v s' => s' = s /\ v = false))|].
    + intros front' nx a' s0 [Hnx _]%(elem_three x _ Hx) [-> HJ].
      assert (excluded (sudoku s) n y x ny nx -> forall v, J ny (front' ++ [nx]) v s) as Hsnoc.
      { intros He v. split; [done|]. intros nx' [H|H%list_elem_of_singleton]%elem_of_app; [by apply HJ | by subst]. }
      apply wp_bind, wp_field; [done | done |]. destruct (Z.ltb_spec 0 (at_ (sudoku s) ny nx)); [apply wp_ret, Hsnoc; left; lia|].
      destruct (Z.eqb_spec ny y) as [->|]; cbn [andb negb].
      * destruct (Z.eqb_spec nx x) as [->|]; [apply wp_ret, Hsnoc; right; by left|]. apply wp_bind, wp_ret. cbn [negb].
        apply wp_bind, blocked_vertically_spec; [done | done |]. destruct (col_has (sudoku s) nx n) eqn:Ec; [|by apply wp_ret].
        apply wp_ret, Hsnoc. by right; right; right.
      * apply wp_bind, blocked_horizontally_spec; [done | done |].
        destruct (row_has (sudoku s) ny n) eqn:Er; [apply wp_ret, Hsnoc; by right; right; left|].
        apply wp_bind. destruct (Z.eqb_spec nx x); cbn [negb]; [by apply wp_ret, wp_ret|].
        apply blocked_vertically_spec; [done | done |]. destruct (col_has (sudoku s) nx n) eqn:Ec; [|by apply wp_ret].
        apply wp_ret, Hsnoc. by right; right; right.
    + split; [done|]. by intros nx ?%not_elem_of_nil.
    + intros [v|v] s' Hs; [|done]. destruct Hs as [-> Hs]. split; [done|]. intros ny' nx' [H|H%list_elem_of_singleton]%elem_of_app H'; [by apply HI|].
      subst ny'. by apply Hs.
  - split; [done|]. by intros ny nx ?%not_elem_of_nil.
  - intros [skipped|v] s' [-> Hs]; [|by subst v]. apply wp_ret. by split.
Qed.

Lemma elsewhere_forced t n y x S : on_table y x -> elsewhere t n y x -> 1 <= n <= 9 -> completes S t -> at_ S y x = n.
Proof.
  intros Hyx [Hb He] Hn [HS Hext]. destruct (box_complete S y x n HS Hyx Hn) as (ny & nx & Ho & E1 & E2 & E).
  pose proof Hyx as [Hy Hx]. pose proof Ho as [Hny Hnx].
  destruct (He ny nx) as [H|[[-> ->]|[H|H]]]; [by apply elem_three | by apply elem_three | | done | |].
  - exfalso. apply not_true_iff_false in Hb. apply Hb, box_has_true; [done|]. exists ny, nx. split_and!; try done.
    by rewrite <- (Hext ny nx).
  - exfalso. apply row_has_true in H as (x' & Hx' & Ex'). assert (at_ S ny x' = n) as ES by (rewrite (Hext ny x'); [done | done | lia]).
    destruct (sol_differ S HS ny nx ny x' Ho ltac:(done) ltac:(by left)) as [_ <-]; [congruence|].
    apply not_true_iff_false in Hb. apply Hb, box_has_true; [done|]. by exists ny, nx.
  - exfalso. apply col_has_true in H as (y' & Hy' & Ey'). assert (at_ S y' nx = n) as ES by (rewrite (Hext y' nx); [done | done | lia]).
    destruct (sol_differ S HS ny nx y' nx Ho ltac:(done) ltac:(by right; left)) as [<- _]; [congruence|].
    apply not_true_iff_false in Hb. apply Hb, box_has_true; [done|]. by exists ny, nx.
Qed.
End solver.
