(* ===== verification/SudokuSolve.v ===== *)
(** * Sudoku: the solver

    What the two algorithms write keeps the completions of the table; the state machine around them ends. *)

From Stdlib Require Import ZArith Lia.
From stdpp Require Import base numbers list strings.
From S2P Require Import Prelude Sudoku SudokuSpec SudokuDeduce.

Open Scope Z_scope.

(** What the deductions leave alone. *)
Definition frame (s : puzzle) := (sudoku_copy s, guess_y s, guess_x s, guess_number s, current_y s, current_x s, input s).

(** [s'] has numbers of [s] and numbers deduced from them. *)
Record deduced (s s' : puzzle) : Prop := Deduced {
  ded_table : table (sudoku s');
  ded_extends : extends (sudoku s) (sudoku s');
  ded_same : same_completions (sudoku s) (sudoku s');
  ded_frame : frame s' = frame s
}.

Lemma deduced_refl s : table (sudoku s) -> deduced s s.
Proof. by split. Qed.

Lemma deduced_trans s1 s2 s3 : deduced s1 s2 -> deduced s2 s3 -> deduced s1 s3.
Proof.
  intros [_ E1 C1 F1] [T2 E2 C2 F2]. split; [done | by eapply extends_trans | by eapply same_trans | congruence].
Qed.

Lemma deduced_write s y x v l : table (sudoku s) -> on_table y x -> at_ (sudoku s) y x = 0 ->
  (forall S, completes S (sudoku s) -> at_ S y x = v) -> 1 <= v <= 9 ->
  deduced s (with_shown l (with_sudoku (write (sudoku s) y x v) s)) /\ S (zeros (write (sudoku s) y x v)) = zeros (sudoku s).
Proof.
  intros Ht Hyx H0 Hforced Hv. split; [|apply zeros_write; [done..|lia]].
  split; [apply table_write; [done | lia] | by apply extends_write | apply same_write; [done..|lia] | done].
Qed.

Section solver.
Context {BT : behind_table}.

(** [n] fields were filled in. *)
Definition filled (s : puzzle) (n : Z) (s' : puzzle) : Prop :=
  deduced s s' /\ 0 <= n /\ Z.of_nat (zeros (sudoku s')) + n = Z.of_nat (zeros (sudoku s)).

Lemma filled_start s : table (sudoku s) -> filled s 0 s.
Proof. intros Ht. split; [by apply deduced_refl | lia]. Qed.

Lemma filled_write s n s1 y x v l : filled s n s1 -> on_table y x -> at_ (sudoku s1) y x = 0 ->
  (forall S, completes S (sudoku s1) -> at_ S y x = v) -> 1 <= v <= 9 ->
  filled s (n + 1) (with_shown l (with_sudoku (write (sudoku s1) y x v) s1)).
Proof.
  intros (Hd & Hn & Hz) Hyx H0 Hf Hv. destruct (deduced_write s1 y x v l (ded_table _ _ Hd) Hyx H0 Hf Hv) as [Hd' Hz'].
  split; [exact (deduced_trans _ _ _ Hd Hd')|]. cbn [with_shown with_sudoku sudoku]. lia.
Qed.

(** A loop over all fields that fills some in. *)
Lemma wp_fields (body : Z -> Z -> Z -> P (Z + Z)) s : table (sudoku s) ->
  (forall y x n s1, on_table y x -> filled s n s1 ->
    wp (fun _ => body y x n) s1 (fun r s' => match r with inl n' => filled s n' s' | inr _ => False end)) ->
  wp (fun _ => finally (each nine 0 (fun y found => each nine found (fun x found => body y x found))) (fun found => mret found)) s (filled s).
Proof.
  intros Ht Hbody. apply wp_finally.
  eapply wp_mono; [apply (wp_each nine _ (fun _ n s' => filled s n s') (fun _ _ => False))|].
  - intros _ y n s1 Hy%elem_nine Hf. eapply wp_mono; [apply (wp_each nine _ (fun _ n s' => filled s n s') (fun _ _ => False))|].
    + intros _ x n' s2 Hx%elem_nine Hf'. by apply Hbody.
    + done.
    + by intros [n'|v] s' Hs.
  - by apply filled_start.
  - intros [n|v] s' Hs; [by apply wp_ret | done].
Qed.

Lemma pass_spec s : table (sudoku s) -> wp (fun _ => pass) s (filled s).
Proof.
  intros Ht. unfold pass, solve_sudoku_algorithm_2. apply wp_fields; [done|]. intros y x n s1 Hyx Hf. pose proof Hf as (Hd & Hn & Hz). pose proof (ded_table _ _ Hd) as Ht1.
  apply wp_bind, wp_field; [apply Ht1 | done |]. pose proof (table_at _ _ _ Ht1 Hyx).
  destruct (Z.ltb_spec 0 (at_ (sudoku s1) y x)); [by apply wp_ret|]. apply wp_bind.
  eapply wp_mono; [by apply find_only_solution_spec|]. intros v s2 [-> Hv]. destruct (Z.ltb_spec 0 v); [|by apply wp_ret].
  apply wp_bind, wp_set_field; [done|]. apply wp_bind, wp_modify, wp_ret. apply filled_write; [done | done | lia | |].
  - intros S HS. by eapply only_solution_forced.
  - destruct Hv as [[_ ->]|[(_ & -> & _)|[[_ ->]|(_ & Hv & _)]]]; [lia..|done].
Qed.

Lemma passes_spec k : forall s, table (sudoku s) -> (zeros (sudoku s) <= k)%nat ->
  wp passes s (fun _ s' => deduced s s' /\ (zeros (sudoku s') <= zeros (sudoku s))%nat).
Proof.
  induction k as [|k IH]; intros s Ht Hk; (eapply wp_unfold; [intros n; cbn [passes]; reflexivity|]); cbv beta;
    apply wp_bind; (eapply wp_mono; [by apply pass_spec|]); intros found s1 (Hd & Hn & Hz); pose proof (ded_table _ _ Hd) as Ht1;
    apply wp_bind, table_full_spec; try done; case_bool_decide as E; try (apply wp_ret; split; [done | lia]).
  - lia.
  - destruct (Z.ltb_spec 0 found); [|apply wp_ret; split; [done | lia]].
    eapply wp_mono; [apply IH; [done | lia]|]. intros _ s2 [Hd2 Hz2]. split; [exact (deduced_trans _ _ _ Hd Hd2) | lia].
Qed.

Lemma algorithm_1_spec s : table (sudoku s) -> wp (fun _ => solve_sudoku_algorithm_1) s (fun r s' =>
  deduced s s' /\ (zeros (sudoku s') <= zeros (sudoku s))%nat /\ r = if decide (zeros (sudoku s') = 0%nat) then 0 else -1).
Proof.
  intros Ht. apply wp_bind. eapply wp_mono; [by eapply wp_with_fuel, passes_spec|]. intros _ s1 [Hd Hz].
  apply wp_bind, table_full_spec; [apply Hd|]. apply wp_ret. split; [done|]. split; [done|].
  case_bool_decide; [by rewrite decide_True | by rewrite decide_False].
Qed.

Lemma numbers_loop_spec s n s1 y x : filled s n s1 -> on_table y x -> at_ (sudoku s1) y x = 0 ->
  wp (fun _ => numbers_loop y x) s1 (fun r s' => match r with inl _ => s' = s1 | inr _ => filled s (n + 1) s' end).
Proof.
  intros Hf Hyx H0. pose proof Hf as (Hd & _). apply (wp_each _ _ (fun _ _ s' => s' = s1) (fun _ s' => filled s (n + 1) s')); [|done].
  intros _ i _ s2 Hi%elem_of_seqZ ->. apply wp_bind. eapply wp_mono; [apply is_blocked_elsewhere_spec; [apply Hd | done]|].
  intros [] s2 [-> He]; [|by apply wp_ret]. apply wp_bind, wp_set_field; [done|]. apply wp_bind, wp_modify, wp_ret.
  apply filled_write; [done | done | done | | lia]. intros S HS. eapply elsewhere_forced; [done | by apply He | lia | done].
Qed.

Lemma algorithm_2_spec s : table (sudoku s) -> wp (fun _ => solve_sudoku_algorithm_2) s (filled s).
Proof.
  intros Ht. unfold pass, solve_sudoku_algorithm_2. apply wp_fields; [done|]. intros y x n s1 Hyx Hf. pose proof Hf as (Hd & Hn & Hz). pose proof (ded_table _ _ Hd) as Ht1.
  apply wp_bind, wp_field; [apply Ht1 | done |]. pose proof (table_at _ _ _ Ht1 Hyx).
  destruct (Z.ltb_spec 0 (at_ (sudoku s1) y x)); [by apply wp_ret|]. apply wp_bind.
  eapply wp_mono; [apply (numbers_loop_spec s n); [done | done | lia]|]. intros [[]|[]] s2 Hs; apply wp_ret; [by subst | done].
Qed.

(** ** Guesses

    Guesses are tried in the order of fields and numbers. *)

Definition place (s : puzzle) : Z := 9 * guess_y s + guess_x s.
Definition rank (s : puzzle) : Z := 10 * place s + guess_number s.

Section behind.
Context (b : Z) (Hbehind : behind_value = Some b).

Lemma wp_field_behind s (Q : Z -> puzzle -> Prop) : length (sudoku s) = 81%nat -> Q b s -> wp (fun _ => field 9 0) s Q.
Proof.
  intros Ht HQ. unfold field. apply wp_bind, wp_get_state. change (index 9 0) with 81. cbn [Z.ltb Z.compare].
  rewrite lookup_ge_None_2 by (rewrite Ht; done). rewrite Hbehind. by apply wp_ret.
Qed.

(** The next field, row by row. *)
Lemma next_field s : on_table (guess_y s) (guess_x s) -> exists y x,
  (if guess_x s + 1 =? 9 then with_guess (guess_y s + 1) 0 (guess_number s) else with_guess (guess_y s) (guess_x s + 1) (guess_number s)) s
    = with_guess y x (guess_number s) s /\ 9 * y + x = place s + 1 /\ (on_table y x \/ (y = 9 /\ x = 0)).
Proof.
  intros [Hy Hx]. unfold place, on_table. destruct (Z.eqb_spec (guess_x s + 1) 9);
    [exists (guess_y s + 1), 0 | exists (guess_y s), (guess_x s + 1)]; (split; [done|]); lia.
Qed.

(** The next empty field, or the end. *)
Definition next_empty (s : puzzle) (y x : Z) : Prop :=
  place s < 9 * y + x /\ ((on_table y x /\ at_ (sudoku s) y x = 0) \/ (y = 9 /\ x = 0)).

Lemma next_loop_spec k : forall s (Q : unit -> puzzle -> Prop), length (sudoku s) = 81%nat -> on_table (guess_y s) (guess_x s) ->
  (Z.to_nat (80 - place s) <= k)%nat -> Forall (fun v => 0 <= v) (sudoku s) ->
  (forall y x, next_empty s y x -> Q tt (with_guess y x (guess_number s) s)) -> wp next_loop s Q.
Proof.
  induction k as [|k IH]; intros s Q Ht Hyx Hk Hnn HQ; (eapply wp_unfold; [intros n; cbn [next_loop]; reflexivity|]); cbv beta;
    apply wp_bind, wp_get_state; cbv zeta; apply wp_bind, wp_modify, wp_bind, wp_get_state;
    destruct (next_field s Hyx) as (y & x & -> & Ep & [Hn|[-> ->]]);
    try (apply wp_bind, wp_field_behind; [done|]; cbn [with_guess guess_y]; rewrite andb_false_r; apply wp_ret, HQ;
      split; [lia | by right]).
  - unfold place, on_table in *. lia.
  - apply wp_bind, wp_field; [done | done |]. cbn [with_guess guess_y guess_x sudoku].
    destruct (Z.ltb_spec 0 (at_ (sudoku s) y x)) as [Hlt|Hge]; cbn [andb].
    + destruct (Z.ltb_spec y 9); [|unfold on_table in Hn; lia]. apply IH; [done | done | unfold place in *; cbn [with_guess guess_y guess_x]; lia | done |].
      intros y' x' [H1 H2]. apply HQ. split; [unfold place in *; cbn [with_guess guess_y guess_x] in H1; lia | exact H2].
    + apply wp_ret, HQ. split; [lia|]. left. split; [done|]. assert (0 <= at_ (sudoku s) y x); [|lia].
      by apply (at_range (fun v => 0 <= v)).
Qed.

Lemma with_guess_id s : with_guess (guess_y s) (guess_x s) (guess_number s) s = s.
Proof. by destruct s. Qed.

(** The first empty field from the place on. *)
Lemma empty_loop_spec k : forall s (Q : bool -> puzzle -> Prop), table (sudoku s) -> on_table (guess_y s) (guess_x s) ->
  (Z.to_nat (80 - place s) <= k)%nat ->
  (forall y x, place s <= 9 * y + x -> on_table y x -> at_ (sudoku s) y x = 0 -> Q true (with_guess y x (guess_number s) s)) ->
  Q false (with_guess 9 0 (guess_number s) s) -> wp empty_loop s Q.
Proof.
  induction k as [|k IH]; intros s Q Ht Hyx Hk HQ1 HQ2; (eapply wp_unfold; [intros n; cbn [empty_loop]; reflexivity|]); cbv beta;
    apply wp_bind, wp_get_state, wp_bind, wp_field; try done; try apply Ht; pose proof (table_at _ _ _ Ht Hyx); pose proof Hyx as [Hy Hx];
    (destruct (Z.ltb_spec 0 (at_ (sudoku s) (guess_y s) (guess_x s)));
      [|apply wp_ret; rewrite <- (with_guess_id s); apply HQ1; [done | done | lia]]); cbv zeta;
    (destruct (Z.eqb_spec (guess_x s + 1) 9); [apply wp_bind, wp_modify; destruct (Z.eqb_spec (guess_y s + 1) 9) as [E9|];
      [apply wp_ret; by rewrite E9|]|apply wp_bind, wp_modify]); try (unfold place in Hk; lia);
    (apply IH; [done | split; cbn [with_guess guess_y guess_x]; lia | unfold place in *; cbn [with_guess guess_y guess_x] in *; lia | | exact HQ2]);
    intros y x Hp; apply HQ1; unfold place in *; cbn [with_guess guess_y guess_x] in *; lia.
Qed.

(** The next guess: a number no peer of the empty field has. *)
Definition guess_ok (t : list Z) (y x n : Z) : Prop := on_table y x /\ at_ t y x = 0 /\ 1 <= n <= 9 /\ seen t y x n = false.

Lemma number_loop_spec k : forall s (Q : bool -> puzzle -> Prop), table (sudoku s) -> on_table (guess_y s) (guess_x s) ->
  at_ (sudoku s) (guess_y s) (guess_x s) = 0 -> 0 <= guess_number s <= 9 -> (Z.to_nat (810 - rank s) <= k)%nat ->
  (forall y x n, rank s < 10 * (9 * y + x) + n -> guess_ok (sudoku s) y x n -> Q true (with_guess y x n s)) ->
  (forall y x n, Q false (with_guess y x n s)) -> wp number_loop s Q.
Proof.
  induction k as [|k IH]; intros s Q Ht Hyx H0 Hn Hk HQ1 HQ2; [unfold rank, place, on_table in *; lia|].
  (eapply wp_unfold; [intros n; cbn [number_loop]; reflexivity|]); cbv beta. apply wp_bind, wp_get_state. cbv zeta.
  assert (forall y x n, rank s < 10 * (9 * y + x) + n -> on_table y x -> at_ (sudoku s) y x = 0 -> 1 <= n <= 9 ->
    wp (fun k => bad ← guess_is_not_possible; if bad : bool then number_loop k else mret true) (with_guess y x n s) Q) as Hnext.
  { intros y x n Hr Hyx' H0' Hn'. apply wp_bind, guess_is_not_possible_spec; [apply Ht | done |].
    cbn [with_guess sudoku guess_y guess_x guess_number]. destruct (seen (sudoku s) y x n) eqn:E; [|by apply wp_ret, HQ1].
    apply IH; try done.
    - cbn [with_guess guess_number]. lia.
    - unfold rank, place in *. cbn [with_guess guess_y guess_x guess_number] in *. lia.
    - intros y2 x2 n2 Hr2 Hok2. apply HQ1; [|done]. unfold rank, place in *. cbn [with_guess guess_y guess_x guess_number] in *. lia. }
  apply wp_bind, wp_modify. destruct (Z.eqb_spec (guess_number s + 1) 10) as [E|E].
  - apply wp_bind, wp_bind, wp_modify, wp_bind, wp_with_fuel. eapply next_loop_spec; [apply Ht | done | reflexivity | |].
    + eapply Forall_impl; [apply Ht|]. cbn beta. lia.
    + intros y x [Hp [[Hyx' H0']|[-> ->]]]; apply wp_bind, wp_get_state, wp_ret; cbn [with_guess guess_y]; [|apply wp_ret, HQ2].
      destruct (Z.eqb_spec y 9); [unfold on_table in *; lia|]. cbn [negb].
      apply Hnext; [|done | done | cbn; lia]. unfold rank, place in *. cbn [with_guess guess_y guess_x guess_number] in *. lia.
  - apply wp_bind, wp_ret. apply Hnext; [unfold rank, place; lia | done | done | lia].
Qed.

(** A state from which guesses go on. *)
Definition guessing (C : list Z) (s : puzzle) : Prop :=
  sudoku_copy s = C /\ on_table (guess_y s) (guess_x s) /\ 0 <= guess_number s <= 9 /\
  (guess_number s <> 0 -> at_ C (guess_y s) (guess_x s) = 0).

Lemma apply_next_guess_spec C s (Q : bool -> puzzle -> Prop) : table C -> guessing C s ->
  (forall y x n l, rank s < 10 * (9 * y + x) + n -> guess_ok C y x n ->
    Q true (with_shown l (with_sudoku (write C y x n) (with_guess y x n s)))) ->
  (forall y x n, Q false (with_guess y x n (with_sudoku C s))) -> wp (fun _ => apply_next_guess) s Q.
Proof.
  intros Ht (Ec & Hyx & Hn & H0) HQ1 HQ2. unfold apply_next_guess. apply wp_bind, wp_modify, wp_bind, wp_get_state. rewrite Ec.
  set (s1 := with_sudoku C s).
  assert (forall y x, place s <= 9 * y + x -> on_table y x -> at_ C y x = 0 -> wp (fun _ => more ← with_fuel number_loop;
    if more : bool then s ← get_state; set_field (guess_y s) (guess_x s) (guess_number s);; display_update (Some Guessing);; mret true
    else mret false) (with_guess y x (guess_number s) s1) Q) as Hnum.
  { intros y x Hp Hyx' H0'. apply wp_bind, wp_with_fuel. eapply number_loop_spec; [done | done | done | done | reflexivity | |].
    - intros y2 x2 n2 Hr Hok. apply wp_bind, wp_get_state, wp_bind, wp_set_field; [apply Hok|]. apply wp_bind, wp_modify, wp_ret.
      apply HQ1; [|done]. unfold rank, place in *. cbn [s1 with_sudoku with_guess guess_y guess_x guess_number] in *. lia.
    - intros y2 x2 n2. apply wp_ret, HQ2. }
  cbn [s1 with_sudoku guess_number]. apply wp_bind. destruct (Z.eqb_spec (guess_number s) 0) as [E|E].
  - apply wp_with_fuel. eapply empty_loop_spec; [done | done | reflexivity | intros y x Hp Hyx' H0'; by apply Hnum | apply wp_ret, HQ2].
  - apply wp_ret. rewrite <- (with_guess_id s1). apply (Hnum (guess_y s) (guess_x s)); [unfold place; lia | done | by apply H0].
Qed.

(** ** The state machine *)

Ltac unfold_solve := eapply wp_unfold; [let k := fresh "k" in intros k; cbn [solve_loop step_state]; reflexivity|]; cbv beta.

(** It deduces until the table is full or nothing more is found. *)
Lemma deduce_phase copied k : forall s (Q : Z -> puzzle -> Prop), table (sudoku s) -> (zeros (sudoku s) <= k)%nat ->
  (forall s', deduced s s' -> zeros (sudoku s') = 0%nat -> Q 0 s') ->
  (forall s', deduced s s' -> zeros (sudoku s') <> 0%nat ->
    wp (fun k => solve_loop k (if copied : bool then TRY_NEXT_GUESS else TABLE_COPY) copied) s' Q) ->
  wp (fun k => solve_loop k TRY_ALGO_1 copied) s Q.
Proof.
  induction k as [|k IH]; intros s Q Ht Hk HQ1 HQ2; unfold_solve; apply wp_bind, wp_bind;
    (eapply wp_mono; [by apply algorithm_1_spec|]); intros r s1 (Hd & Hz & ->); apply wp_ret;
    (destruct (decide (zeros (sudoku s1) = 0%nat)) as [E|E]; [cbn [Z.eqb]; unfold_solve; by apply wp_ret, HQ1|]); cbn [Z.eqb]; [lia|].
  pose proof (ded_table _ _ Hd) as Ht1. unfold_solve. apply wp_bind, wp_bind.
  eapply wp_mono; [by apply algorithm_2_spec|]. intros n s2 (Hd2 & Hn & Hz2). apply wp_ret.
  pose proof (deduced_trans _ _ _ Hd Hd2) as Hd3. pose proof (ded_table _ _ Hd2) as Ht2. destruct (Z.ltb_spec 0 n).
  - apply IH; [done | lia | |]; intros s' Hd' Hz'; [apply HQ1 | apply HQ2]; try done; exact (deduced_trans _ _ _ Hd3 Hd').
  - apply HQ2; [done | lia].
Qed.

(** What the solver makes of one guess. *)
Record guessed (C : list Z) (s : puzzle) : Prop := Guessed {
  gs_table : table (sudoku s);
  gs_ok : guess_ok C (guess_y s) (guess_x s) (guess_number s);
  gs_extends : extends (write C (guess_y s) (guess_x s) (guess_number s)) (sudoku s);
  gs_same : same_completions (write C (guess_y s) (guess_x s) (guess_number s)) (sudoku s)
}.

Lemma guess_phase C k : table C -> forall s (Q : Z -> puzzle -> Prop), guessing C s -> (Z.to_nat (810 - rank s) <= k)%nat ->
  (forall s', guessed C s' -> zeros (sudoku s') = 0%nat -> (current_y s', current_x s', input s') = (current_y s, current_x s, input s) -> Q 0 s') ->
  (forall s', sudoku s' = C -> (current_y s', current_x s', input s') = (current_y s, current_x s, input s) -> Q 1 s') ->
  wp (fun k => solve_loop k TRY_NEXT_GUESS true) s Q.
Proof.
  intros Ht. induction k as [|k IH]; intros s Q Hg Hk HQ1 HQ2; pose proof Hg as (Ec & Hyx & Hn & H0).
  { unfold rank, place, on_table in *. lia. }
  unfold_solve. apply wp_bind, wp_bind. eapply apply_next_guess_spec; [done | done | |].
  - intros y x n l Hr Hok. apply wp_ret. set (s1 := with_shown _ _). pose proof Hok as (Hyx' & H0' & Hn' & Hs').
    apply (deduce_phase true (zeros (sudoku s1))); [apply table_write; [done | lia] | done | |]; intros s' Hd Hz; pose proof (ded_frame _ _ Hd) as Hf;
      unfold frame in Hf; cbn [s1 with_shown with_sudoku with_guess sudoku_copy guess_y guess_x guess_number current_y current_x input] in Hf; injection Hf as F1 F2 F3 F4 F5 F6 F7.
    + apply HQ1; [|done|congruence]. split; rewrite ?F2, ?F3, ?F4; [apply Hd | done | apply (ded_extends _ _ Hd) | apply (ded_same _ _ Hd)].
    + apply IH; [| unfold rank, place in *; rewrite F2, F3, F4; lia | |].
      * split; [congruence|]. rewrite F2, F3, F4. split; [done|]. split; [lia | by intros _].
      * intros s2 Hg2 Hz2 E. apply HQ1; [done | done |]. congruence.
      * intros s2 Es2 E. apply HQ2; [done | congruence].
  - intros y x n. apply wp_ret. unfold_solve. apply wp_bind, wp_modify, wp_ret. apply HQ2; [done|]. done.
Qed.

(** What solve_sudoku promises. *)
Record solved (t : list Z) (r : Z) (s : puzzle) : Prop := Solved_to {
  sv_table : table (sudoku s);
  sv_extends : extends t (sudoku s);
  sv_result : (r = 0 /\ full (sudoku s)) \/ (r = 1 /\ ~ full (sudoku s) /\ same_completions t (sudoku s));
  sv_deduced : guess_number s = 0 -> same_completions t (sudoku s);
  sv_guessed : r = 0 -> guess_number s <> 0 -> exists C, table C /\ extends t C /\ same_completions t C /\ guessed C s
}.

Lemma solve_sudoku_spec s : table (sudoku s) -> wp (fun _ => solve_sudoku) s (fun r s' => solved (sudoku s) r s' /\
  (current_y s', current_x s', input s') = (current_y s, current_x s, input s)).
Proof.
  intros Ht. unfold solve_sudoku. apply wp_bind, wp_modify, wp_with_fuel. set (s0 := with_guess 0 0 0 s).
  apply (deduce_phase false (zeros (sudoku s))); [done | done | |]; intros s1 Hd Hz; pose proof (ded_frame _ _ Hd) as Hf;
    unfold frame in Hf; cbn [s0 with_guess sudoku_copy guess_y guess_x guess_number current_y current_x input] in Hf; injection Hf as F1 F2 F3 F4 F5 F6 F7.
  - split; [|congruence]. split; [apply Hd | apply Hd | | intros _; apply (ded_same _ _ Hd) | congruence].
    left. split; [done|]. apply zeros_full; [apply Hd | done].
  - unfold_solve. apply wp_bind, wp_bind, wp_modify, wp_ret. set (C := sudoku s1). pose proof (ded_table _ _ Hd : table C) as HC.
    assert (~ full C) as Hnf by (rewrite <- zeros_full by done; exact Hz).
    eapply (guess_phase C _ HC); [| reflexivity | |].
    + split; [done|]. cbn [with_copy guess_y guess_x guess_number]. rewrite F2, F3, F4. done.
    + intros s2 Hg Hz2 E. split; [|cbn in E; congruence].
      assert (extends C (sudoku s2)) as HE by (eapply extends_trans; [|apply Hg]; apply extends_write; [done | apply Hg..]).
      split; [apply Hg | exact (extends_trans _ _ _ (ded_extends _ _ Hd) HE) | | |].
      * left. split; [done|]. apply zeros_full; [apply Hg | done].
      * destruct (gs_ok _ _ Hg) as (_ & _ & Hn & _). lia.
      * intros _ _. exists C. split_and!; [done | apply (ded_extends _ _ Hd) | apply (ded_same _ _ Hd) | done].
    + intros s2 E2 E. split; [|cbn in E; congruence]. split; rewrite ?E2; [done | apply (ded_extends _ _ Hd) | | intros _; apply (ded_same _ _ Hd) | done].
      right. split; [done|]. split; [done | apply (ded_same _ _ Hd)].
Qed.
End behind.
End solver.
