(* ===== verification/SudokuClaims.v ===== *)
(** * The properties of the sudoku solver *)

From Stdlib Require Import ZArith Lia.
From stdpp Require Import base numbers list strings.
From S2P Require Import Prelude Sudoku SudokuSpec SudokuDeduce SudokuSolve.

Open Scope Z_scope.

(** C31 solve_sudoku ends with every table. It keeps the numbers that are there; 0 means a full table, 1 one that is not full and has still all completions.
    Without a guess what it writes is in every completion, and with a guess in every completion that agrees with the guess: a full table is then the
    one completion. *)
Theorem solver_correct {BT : behind_table} b s : behind_value = Some b -> table (sudoku s) ->
  wp (fun _ => solve_sudoku) s (fun r s' => solved (sudoku s) r s' /\
    forall S, completes S (sudoku s) -> r = 0 -> guess_number s' = 0 \/ at_ S (guess_y s') (guess_x s') = guess_number s' -> sudoku s' = S).
Proof.
  intros Hb Ht. eapply wp_mono; [by apply (solve_sudoku_spec b)|]. intros r s' [Hs _]. split; [done|]. intros S HS -> Hg.
  assert (full (sudoku s')) as Hfull by (destruct (sv_result _ _ _ Hs) as [[_ H]|[H _]]; done).
  apply full_completion; [apply Hs | done |]. destruct (decide (guess_number s' = 0)) as [E|E]; [by apply (sv_deduced _ _ _ Hs E)|].
  destruct Hg as [|Hg]; [done|]. destruct (sv_guessed _ _ _ Hs eq_refl E) as (C & HC & _ & Hsame & HG).
  apply (gs_same _ _ HG). apply Hsame in HS as [Hsol Hext]. split; [done|]. destruct (gs_ok _ _ HG) as (Hyx & H0 & _).
  intros y x H' Hne. rewrite at_write in * by (done || apply HC). destruct (decide _) as [[<- <-]|]; [done | by apply Hext].
Qed.

(** A check of solved grids and of completions. *)
Definition solution_check (S : list Z) : bool :=
  (length S =? 81)%nat && forallb (fun v => (1 <=? v) && (v <=? 9)) S &&
  forallb (fun y => forallb (fun x => forallb (fun y' => forallb (fun x' =>
    negb ((y =? y') || (x =? x') || ((y / 3 =? y' / 3) && (x / 3 =? x' / 3))) || negb (at_ S y x =? at_ S y' x') || ((y =? y') && (x =? x')))
    nine) nine) nine) nine.

Definition completes_check (S t : list Z) : bool :=
  forallb (fun y => forallb (fun x => (at_ t y x =? 0) || (at_ S y x =? at_ t y x)) nine) nine.

Lemma forallb_nine (f : Z -> bool) i : forallb f nine = true -> 0 <= i < 9 -> f i = true.
Proof. intros H Hi. rewrite forallb_forall in H. by apply H, list_elem_of_In, elem_nine. Qed.

Lemma solution_check_sound S : solution_check S = true -> solution S.
Proof.
  unfold solution_check. rewrite !andb_true_iff. intros [[Hl Hr] Hd]. split; [by apply Nat.eqb_eq| |].
  - rewrite forallb_forall in Hr. apply Forall_forall. intros v Hv%list_elem_of_In%Hr. apply andb_true_iff in Hv as [?%Z.leb_le ?%Z.leb_le]. lia.
  - intros y x y' x' [Hy Hx] [Hy' Hx'] Hp E.
    pose proof (forallb_nine _ x' (forallb_nine _ y' (forallb_nine _ x (forallb_nine _ y Hd Hy) Hx) Hy') Hx') as H. cbn beta in H.
    rewrite !orb_true_iff, !negb_true_iff, !orb_false_iff, andb_false_iff, andb_true_iff, !Z.eqb_neq, !Z.eqb_eq in H. unfold peers in Hp. tauto.
Qed.

Lemma completes_check_sound S t : solution_check S = true -> completes_check S t = true -> completes S t.
Proof.
  intros HS H. split; [by apply solution_check_sound|]. intros y x [Hy Hx] Hne.
  pose proof (forallb_nine _ x (forallb_nine _ y H Hy) Hx) as E. cbn beta in E. apply orb_true_iff in E as [E%Z.eqb_eq|E%Z.eqb_eq]; done.
Qed.

Lemma table_check t : length t = 81%nat -> forallb (fun v => (0 <=? v) && (v <=? 9)) t = true -> table t.
Proof.
  intros Hl H. split; [done|]. rewrite forallb_forall in H. apply Forall_forall. intros v Hv%list_elem_of_In%H.
  apply andb_true_iff in Hv as [?%Z.leb_le ?%Z.leb_le]. lia.
Qed.

Definition new_puzzle (t keys : list Z) : puzzle := Puzzle t (replicate 81 0) 0 0 0 0 0 keys [].

(** A puzzle that is solved by deduction. *)
Definition easy : list Z :=
  [5; 3; 0; 0; 7; 0; 0; 0; 0;
   6; 0; 0; 1; 9; 5; 0; 0; 0;
   0; 9; 8; 0; 0; 0; 0; 6; 0;
   8; 0; 0; 0; 6; 0; 0; 0; 3;
   4; 0; 0; 8; 0; 3; 0; 0; 1;
   7; 0; 0; 0; 2; 0; 0; 0; 6;
   0; 6; 0; 0; 0; 0; 2; 8; 0;
   0; 0; 0; 4; 1; 9; 0; 0; 5;
   0; 0; 0; 0; 8; 0; 0; 7; 9].
Definition easy_solution : list Z :=
  [5; 3; 4; 6; 7; 8; 9; 1; 2;
   6; 7; 2; 1; 9; 5; 3; 4; 8;
   1; 9; 8; 3; 4; 2; 5; 6; 7;
   8; 5; 9; 7; 6; 1; 4; 2; 3;
   4; 2; 6; 8; 5; 3; 7; 9; 1;
   7; 1; 3; 9; 2; 4; 8; 5; 6;
   9; 6; 1; 5; 3; 7; 2; 8; 4;
   2; 8; 7; 4; 1; 9; 6; 3; 5;
   3; 4; 5; 2; 8; 6; 1; 7; 9].

Lemma solver_correct_witness : completes easy_solution easy /\
  wp (fun _ => solve_sudoku (BT := Some 0)) (new_puzzle easy []) (fun r s' => solved easy r s' /\
    forall S, completes S easy -> r = 0 -> guess_number s' = 0 \/ at_ S (guess_y s') (guess_x s') = guess_number s' -> sudoku s' = S).
Proof.
  split; [by apply completes_check_sound; vm_compute|].
  apply (solver_correct (BT := Some 0) 0 (new_puzzle easy [])); [reflexivity | by apply table_check; vm_compute].
Defined.

(** A closed run: with that much fuel, and so with more. *)
Ltac run_closed k :=
  exists k; eexists _, _; split;
    [let fuel := fresh "fuel" in let H := fresh "H" in intros ? fuel _ H;
     replace fuel with (k + (fuel - k))%nat by lia; generalize (fuel - k)%nat; clear; intros fuel; vm_compute; reflexivity
    |].

(** Where the guess is wrong the table can be full and wrong: the solver says "Solved!" of a grid with equal numbers in a column, for a puzzle that has a
    solution. *)
Definition hard : list Z :=
  [7; 0; 0; 0; 0; 4; 0; 0; 0;
   1; 0; 5; 0; 3; 0; 0; 2; 0;
   0; 0; 9; 6; 0; 0; 0; 0; 0;
   0; 0; 4; 0; 6; 0; 0; 7; 0;
   0; 3; 0; 2; 0; 7; 0; 0; 9;
   5; 0; 0; 0; 0; 0; 0; 0; 6;
   0; 0; 0; 3; 0; 0; 7; 0; 0;
   0; 0; 0; 0; 4; 5; 0; 9; 8;
   0; 0; 7; 0; 8; 9; 0; 0; 0].
Definition hard_solution : list Z :=
  [7; 2; 6; 5; 1; 4; 9; 8; 3;
   1; 4; 5; 9; 3; 8; 6; 2; 7;
   3; 8; 9; 6; 7; 2; 5; 4; 1;
   9; 1; 4; 8; 6; 3; 2; 7; 5;
   6; 3; 8; 2; 5; 7; 4; 1; 9;
   5; 7; 2; 4; 9; 1; 8; 3; 6;
   8; 9; 1; 3; 2; 6; 7; 5; 4;
   2; 6; 3; 7; 4; 5; 1; 9; 8;
   4; 5; 7; 1; 8; 9; 3; 6; 2].

Lemma wrong_solution : completes hard_solution hard /\
  wp (fun _ => solve_sudoku (BT := Some 0)) (new_puzzle hard []) (fun r s' => r = 0 /\ full (sudoku s') /\ ~ solution (sudoku s')).
Proof.
  split; [by apply completes_check_sound; vm_compute|]. run_closed 100%nat. split; [done|]. split.
  - apply zeros_full; [by apply table_check; vm_compute | reflexivity].
  - intros H. by destruct (sol_differ _ H 3 6 8 6 ltac:(split; lia) ltac:(split; lia) ltac:(by right; left) ltac:(reflexivity)).
Qed.

(** A full table is "Solved!", whatever is in it. *)
Lemma full_is_solved : wp (fun _ => solve_sudoku (BT := None)) (new_puzzle (replicate 81 5) []) (fun r s' => r = 0).
Proof. run_closed 10%nat. done. Qed.

(** When the guesses are used up the element behind the table is read. *)
Definition stuck : list Z :=
  mjoin (map (fun k => replicate 8 1 ++ [k]) [1; 2; 3; 4; 5; 6; 7; 8]) ++ replicate 8 9 ++ [0].
Lemma exhausted_reads_behind : faults (fun _ => solve_sudoku (BT := None)) (new_puzzle stuck []) Bad_pointer.
Proof.
  exists 100%nat. intros _ fuel _ H. replace fuel with (100 + (fuel - 100))%nat by lia. generalize (fuel - 100)%nat. clear. intros fuel. vm_compute. reflexivity.
Qed.

(** ** Reading a puzzle *)

(** The file is nine lines of nine digits. *)
Definition digits (row : list Z) : list Z := map (fun d => d + 48) row ++ [10].

(** With the row counter at 0, which the code leaves to chance, the table is what is in the file. *)
Lemma read_file_example : wp (fun _ => read_from_file 0 (Some (mjoin (map (fun y => digits (take 9 (drop (9 * y) easy))) (seq 0 9)))))
  (new_puzzle (replicate 81 0) []) (fun r s' => r = 0 /\ sudoku s' = easy).
Proof. run_closed 20%nat. done. Qed.

(** The row counter has no initial value: with any that is no row the first digit is written outside the table. *)
Lemma read_file_uninitialized garbage d l s : 9 <= garbage \/ garbage < 0 -> 48 <= d <= 57 ->
  faults (fun _ => read_from_file garbage (Some (d :: l))) s Bad_pointer.
Proof.
  intros Hg Hd. unfold read_from_file. apply faults_bind, faults_with_fuel. eapply faults_unfold; [intros k; cbn [file_loop]; reflexivity|]. cbv beta.
  change (fgets 31 (d :: l)) with (if d =? 10 then ([d], l) else let '(line, l) := fgets 30 l in (d :: line, l)).
  destruct (Z.eqb_spec d 10); [lia|]. destruct (fgets 30 l) as [line rest]. apply faults_bind. cbn [up_to_nul].
  destruct (Z.eqb_spec d 0); [lia|]. cbn [scan_digits]. unfold is_space. replace (0 =? 9) with false by done.
  destruct (Z.eqb_spec d 32), (Z.leb_spec 9 d), (Z.leb_spec d 13), (Z.leb_spec 48 d), (Z.leb_spec d 57); try lia. cbn [orb andb].
  apply faults_bind. exists 0%nat. intros k fuel _ _. unfold set_field, mbind, prog_bind. cbn [get_state]. unfold index.
  destruct (Z.ltb_spec (9 * garbage + 0) 0), (Z.leb_spec 81 (9 * garbage + 0)); try lia; reflexivity.
Qed.

(** ** The program *)

Section main.
Context {BT : behind_table} (b : Z) (Hbehind : behind_value = Some b).

(** The table is one, the cursor is on it. *)
Definition screen_ok (s : puzzle) : Prop := table (sudoku s) /\ on_table (current_y s) (current_x s).

(** The keys that leave the program. *)
Definition quits (c : Z) : Prop := c = 113 \/ c = 81 \/ c = 27.

(** What a turn makes of the keys. *)
Definition turned (s : puzzle) (r : option (option status)) (s' : puzzle) : Prop :=
  screen_ok s' /\ input s' = tail (input s) /\
  match input s with c :: _ => r = None <-> quits c | [] => r <> None end.

Lemma getch_spec s : wp (fun _ => getch) s (fun c s' => c = hd (-1) (input s) /\ s' = with_keys_left (tail (input s)) s).
Proof.
  unfold getch. apply wp_bind, wp_get_state. destruct (input s) as [|c l] eqn:E; [|by apply wp_bind, wp_set_state, wp_ret].
  apply wp_ret. split; [done|]. destruct s. cbn in E. by subst.
Qed.

Lemma key_turn_spec st s : screen_ok s -> wp (fun _ => key_turn st) s (turned s).
Proof.
  intros [Ht [Hy Hx]]. unfold key_turn. apply wp_bind, wp_modify, wp_bind. eapply wp_mono; [apply getch_spec|]. intros c s1 [-> ->].
  apply wp_bind, wp_get_state. cbn [with_shown with_keys_left input current_y current_x sudoku]. cbv zeta.
  set (c := hd (-1) (input s)). set (s1 := with_keys_left _ _).
  assert (forall s', sudoku s' = sudoku s -> on_table (current_y s') (current_x s') -> input s' = tail (input s) -> ~ quits c ->
    turned s (Some st) s') as Hgo.
  { intros s' E1 E2 E3 Hc. unfold turned, screen_ok. rewrite E1. split; [done|]. split; [done|].
    unfold c in Hc. destruct (input s); [done|]. by split. }
  assert (forall v, 0 <= v <= 9 -> ~ quits c -> wp (fun _ => set_field (current_y s) (current_x s) v;; mret (Some st)) s1 (turned s)) as Hset.
  { intros v Hv Hc. apply wp_bind, wp_set_field; [done|]. apply wp_ret. split; [split; [apply table_write; [exact Ht | done] | done]|].
    split; [done|]. unfold c in Hc. destruct (input s); [done|]. by split. }
  unfold KEY_LEFT, KEY_RIGHT, KEY_UP, KEY_DOWN, KEY_ENTER, quits in *.
  destruct (Z.eqb_spec c 260). { apply wp_bind, wp_modify, wp_ret, Hgo; [done | | done | lia]. destruct (Z.ltb_spec (current_x s - 1) 0); split; cbn; lia. }
  destruct (Z.eqb_spec c 261). { apply wp_bind, wp_modify, wp_ret, Hgo; [done | | done | lia]. destruct (Z.leb_spec 9 (current_x s + 1)); split; cbn; lia. }
  destruct (Z.eqb_spec c 259). { apply wp_bind, wp_modify, wp_ret, Hgo; [done | | done | lia]. destruct (Z.ltb_spec (current_y s - 1) 0); split; cbn; lia. }
  destruct (Z.eqb_spec c 258). { apply wp_bind, wp_modify, wp_ret, Hgo; [done | | done | lia]. destruct (Z.leb_spec 9 (current_y s + 1)); split; cbn; lia. }
  destruct ((49 <=? c) && (c <=? 57)) eqn:E1. { apply andb_true_iff in E1 as [?%Z.leb_le ?%Z.leb_le]. apply Hset; lia. }
  destruct ((c =? 48) || (c =? 32)) eqn:E2. { apply orb_true_iff in E2 as [?%Z.eqb_eq|?%Z.eqb_eq]; apply Hset; lia. }
  destruct ((c =? 343) || (c =? 10)) eqn:E3.
  - apply wp_bind. eapply wp_mono; [by eapply solve_sudoku_spec|]. intros r s2 [Hs E]. injection E as F1 F2 F3. apply wp_ret.
    split; [split; [apply Hs | by rewrite F1, F2]|]. split; [done|]. apply orb_true_iff in E3. unfold c in E3.
    destruct (input s) as [|k l]; [done|]. cbn [hd] in E3. rewrite !Z.eqb_eq in E3. split; [done | unfold quits; lia].
  - destruct ((c =? 113) || (c =? 81) || (c =? 27)) eqn:E4; apply wp_ret.
    + split; [done|]. split; [done|]. unfold c in E4. rewrite !orb_true_iff, !Z.eqb_eq in E4. destruct (input s) as [|k l]; [cbn in E4; lia|].
      split; [|done]. intros _. unfold quits. cbn in E4. tauto.
    + apply Hgo; [done | done | done|]. rewrite !orb_false_iff, !Z.eqb_neq in E4. lia.
Qed.

Lemma keys_waits n : forall fuel st s, input s = [] -> main_loop n st fuel s = Fault Out_of_fuel.
Proof.
  induction n as [|n IH]; intros fuel st s E; [done|]. cbn [main_loop].
  assert (key_turn st fuel s = Ok (Some st) (with_shown (shown s ++ [(sudoku s, st)]) s)) as Et by (destruct s; cbn in E; by subst).
  unfold mbind, prog_bind. rewrite Et. by apply IH.
Qed.

(** The loop ends at the first key that quits; behind the last key it waits for ever. *)
Lemma loop_spec l : forall st s, screen_ok s -> input s = l ->
  (Exists quits l -> wp (fun k => main_loop k st) s (fun _ s' => table (sudoku s'))) /\
  (~ Exists quits l -> faults (fun k => main_loop k st) s Out_of_fuel).
Proof.
  induction l as [|c l IH]; intros st s Hs E.
  - split; [by intros ?%Exists_nil|]. intros _. exists 0%nat. intros n fuel _ _. by apply keys_waits.
  - destruct (key_turn_spec st s Hs) as (N & r & s' & Hrun & Hs' & Ei & Hr). rewrite E in Ei, Hr. cbn [tail] in Ei.
    assert (wp (fun _ => key_turn st) s (fun r' t => r' = r /\ t = s')) as Hw by (by exists N, r, s'). rewrite Exists_cons.
    split; intros Hq.
    + eapply wp_unfold; [intros k; cbn [main_loop]; reflexivity|]. cbv beta. apply wp_bind. eapply wp_mono; [exact Hw|]. intros _ _ [-> ->].
      destruct r as [st'|]; [|by apply wp_ret; apply Hs']. apply (IH st' s' Hs' Ei). destruct Hq as [Hq|Hq]; [by apply Hr in Hq | done].
    + eapply faults_unfold; [intros k; cbn [main_loop]; reflexivity|]. cbv beta. eapply (faults_after _ _ _ _ _ Hw). intros _ _ [-> ->].
      destruct r as [st'|]; [apply (IH st' s' Hs' Ei); tauto|]. exfalso. apply Hq. left. by apply Hr.
Qed.

(** With any keys the program ends at the first q, Q or escape, and only there; until then every turn succeeds, and what is on the screen is a table. *)
Lemma sudoku_ends s : table (sudoku s) -> on_table (current_y s) (current_x s) ->
  (Exists quits (input s) -> wp (fun _ => main 0 None) s (fun _ s' => table (sudoku s'))) /\
  (~ Exists quits (input s) -> faults (fun _ => main 0 None) s Out_of_fuel).
Proof.
  intros Ht Hc. destruct (loop_spec (input s) None s (conj Ht Hc) eq_refl) as [H1 H2]. unfold main. split; intros H.
  - apply wp_bind, wp_ret. by apply wp_with_fuel, H1.
  - eapply (faults_after _ _ _ (fun _ t => t = s)); [by apply wp_ret|]. intros u t ->. by apply faults_with_fuel, H2.
Qed.
End main.

Lemma sudoku_ends_witness : wp (fun _ => main (BT := Some 0) 0 None) (new_puzzle (replicate 81 0) [KEY_RIGHT; 53; KEY_ENTER; 113]) (fun _ s' => table (sudoku s')).
Proof.
  apply (sudoku_ends (BT := Some 0) 0 eq_refl (new_puzzle (replicate 81 0) [KEY_RIGHT; 53; KEY_ENTER; 113])).
  - by apply table_check; vm_compute.
  - split; cbn; lia.
  - right; right; right; left. by left.
Defined.
