(* ===== verification/SokGame.v ===== *)
(** * Csokoban: the game (src/games/cgames/csokoban: csokoban.h, movelist.c, play.c)

    A map is one block of 1024 cells, each a byte of flags; a position is an offset into it.  The puzzles that are loaded are a list, and the pointer
    [state.game] an index of it, since saved states share the puzzle they point to; the pointer [macro] is an index of the array of macros.
    A move list has the slots of its block, the used ones first; what is in fresh memory is arbitrary (the class [memory]).
    Counters and positions are integers here; the theorems bound the shorts, and a list of moves that does not fit the memory comes before
    a counter overflows. *)

From Stdlib Require Import ZArith Lia.
From stdpp Require Import base numbers list strings.
From S2P Require Import Prelude.

Open Scope Z_scope.

(** ** csokoban.h *)

Definition MAXWIDTH : Z := 32.
Definition MAXHEIGHT : Z := 32.
Definition XSIZE : Z := 32.
Definition EMPTY : Z := 0.
Definition GOAL : Z := 1.
Definition PLAYER : Z := 2.
Definition BOX : Z := 4.
Definition WALL : Z := 8.
Definition EXTENDNORTH : Z := 16.
Definition EXTENDSOUTH : Z := 32.
Definition EXTENDWEST : Z := 64.
Definition EXTENDEAST : Z := 128.
Definition FLOOR : Z := 32.

(** ** Data *)

(** [struct dyx]: a step and whether it pushed a box. *)
Record dyx : Type := Dyx { yx : Z; box : bool }.

(** [struct dyxlist]; a null [list] has no slots. *)
Record dyxlist : Type := Dyxlist { allocated : Z; count : Z; slots : list dyx }.

(** The content of fresh memory. *)
Class memory : Type := fresh_move : nat -> dyx.

Record gamesetup : Type := Gamesetup {
  ysize : Z; xsize : Z;
  boxcount : Z; goalcount : Z; setup_storecount : Z;
  start : Z;
  movebestcount : Z; pushbestcount : Z; movebestpushcount : Z; pushbestmovecount : Z;
  moveanswer : dyxlist; pushanswer : dyxlist;
  game_name : list Z;
  setup_map : list Z
}.

Record gamestate : Type := Gamestate {
  game : nat; level : Z;
  player : Z; storecount : Z; movecount : Z; pushcount : Z;
  undo : dyxlist; redo : dyxlist;
  map_ : list Z
}.

(** What is shown or written. *)
Inductive event : Type :=
  | Shown (map : list Z) (recording macro saved : bool) (index storecount movecount pushcount movebest pushbest : Z)
  | Ding
  | Help
  | End_message (endofsession : bool)
  | Move_number (n : Z)
  | Printed (line : list Z)
  | Saved (text : list Z).

(** The static variables of play.c and csokoban.c, the puzzles, the keyboard and the screen. *)
Record world : Type := World {
  games : list gamesetup;
  stack : list gamestate;
  macros : list dyxlist;
  macro : nat;
  recording : bool;
  macroplay : Z;
  state : gamestate;
  keys : list Z;
  events : list event;
  currentseries : Z;
  currentgame : Z;
  usemoves : bool
}.
Definition with_games v w := World v (stack w) (macros w) (macro w) (recording w) (macroplay w) (state w) (keys w) (events w) (currentseries w) (currentgame w) (usemoves w).
Definition with_stack v w := World (games w) v (macros w) (macro w) (recording w) (macroplay w) (state w) (keys w) (events w) (currentseries w) (currentgame w) (usemoves w).
Definition with_macros v w := World (games w) (stack w) v (macro w) (recording w) (macroplay w) (state w) (keys w) (events w) (currentseries w) (currentgame w) (usemoves w).
Definition with_macro v w := World (games w) (stack w) (macros w) v (recording w) (macroplay w) (state w) (keys w) (events w) (currentseries w) (currentgame w) (usemoves w).
Definition with_recording v w := World (games w) (stack w) (macros w) (macro w) v (macroplay w) (state w) (keys w) (events w) (currentseries w) (currentgame w) (usemoves w).
Definition with_macroplay v w := World (games w) (stack w) (macros w) (macro w) (recording w) v (state w) (keys w) (events w) (currentseries w) (currentgame w) (usemoves w).
Definition with_state v w := World (games w) (stack w) (macros w) (macro w) (recording w) (macroplay w) v (keys w) (events w) (currentseries w) (currentgame w) (usemoves w).
Definition with_keys v w := World (games w) (stack w) (macros w) (macro w) (recording w) (macroplay w) (state w) v (events w) (currentseries w) (currentgame w) (usemoves w).
Definition with_events v w := World (games w) (stack w) (macros w) (macro w) (recording w) (macroplay w) (state w) (keys w) v (currentseries w) (currentgame w) (usemoves w).
Definition with_currentseries v w := World (games w) (stack w) (macros w) (macro w) (recording w) (macroplay w) (state w) (keys w) (events w) v (currentgame w) (usemoves w).
Definition with_currentgame v w := World (games w) (stack w) (macros w) (macro w) (recording w) (macroplay w) (state w) (keys w) (events w) (currentseries w) v (usemoves w).
Definition with_usemoves v w := World (games w) (stack w) (macros w) (macro w) (recording w) (macroplay w) (state w) (keys w) (events w) (currentseries w) (currentgame w) v.

Definition with_game v s := Gamestate v (level s) (player s) (storecount s) (movecount s) (pushcount s) (undo s) (redo s) (map_ s).
Definition with_level v s := Gamestate (game s) v (player s) (storecount s) (movecount s) (pushcount s) (undo s) (redo s) (map_ s).
Definition with_player v s := Gamestate (game s) (level s) v (storecount s) (movecount s) (pushcount s) (undo s) (redo s) (map_ s).
Definition with_storecount v s := Gamestate (game s) (level s) (player s) v (movecount s) (pushcount s) (undo s) (redo s) (map_ s).
Definition with_movecount v s := Gamestate (game s) (level s) (player s) (storecount s) v (pushcount s) (undo s) (redo s) (map_ s).
Definition with_pushcount v s := Gamestate (game s) (level s) (player s) (storecount s) (movecount s) v (undo s) (redo s) (map_ s).
Definition with_undo v s := Gamestate (game s) (level s) (player s) (storecount s) (movecount s) (pushcount s) v (redo s) (map_ s).
Definition with_redo v s := Gamestate (game s) (level s) (player s) (storecount s) (movecount s) (pushcount s) (undo s) v (map_ s).
Definition with_map v s := Gamestate (game s) (level s) (player s) (storecount s) (movecount s) (pushcount s) (undo s) (redo s) v.

(** What is outside: whether displaygame finds the screen large enough; how many puzzles the files have, which have all been read; whether there
    is a directory to save solutions in, the part of the file of solutions that has not been read; and what an automatic variable is that is not set. *)
Class terminal : Type := Terminal {
  fits : bool;
  counts : list Z;
  savedir : bool;
  unread : list Z;
  garbage : Z
}.

Abbreviation K := (prog world).

Section play.
Context {MEM : memory}.

(** ** movelist.c *)

(** [realloc] to [n] slots. *)
Definition resized (n : Z) (l : list dyx) : list dyx :=
  let n := Z.to_nat n in take n l ++ map fresh_move (seq (length l) (n - length l)).

Definition no_block (l : dyxlist) : bool := (allocated l =? 0) || (length (slots l) =? 0)%nat.

Definition initmovelist (l : dyxlist) : dyxlist :=
  if no_block l then Dyxlist 16 0 (resized 16 []) else Dyxlist (allocated l) 0 (slots l).

(** [while (list->allocated < size) list->allocated *= 2]. *)
Fixpoint grow_loop (k : nat) (a size : Z) : option Z :=
  match k with
  | O => None
  | S k => if a <? size then grow_loop k (a * 2) size else Some a
  end.

Definition setmovelist {S} (l : dyxlist) (size : Z) : prog S dyxlist :=
  let a := if no_block l then 16 else allocated l in
  fun fuel w =>
    match grow_loop fuel a size with
    | Some a => Ok (Dyxlist a size (resized a (slots l))) w
    | None => Fault Out_of_fuel
    end.

(** [list->list[i]] and [list->list[i] = move]. *)
Definition slot {S} (l : dyxlist) (i : Z) : prog S dyx :=
  if i <? 0 then fail Bad_pointer else
  match slots l !! Z.to_nat i with Some m => mret m | None => fail Bad_pointer end.
Definition set_slot {S} (l : dyxlist) (i : Z) (m : dyx) : prog S dyxlist :=
  if (0 <=? i) && (i <? Z.of_nat (length (slots l))) then mret (Dyxlist (allocated l) (count l) (<[Z.to_nat i := m]> (slots l)))
  else fail Bad_pointer.

Definition addtomovelist {S} (l : dyxlist) (move : dyx) : prog S dyxlist :=
  let l := if allocated l <=? count l then Dyxlist (allocated l * 2) (count l) (resized (allocated l * 2) (slots l)) else l in
  l' ← set_slot l (count l) move;
  mret (Dyxlist (allocated l') (count l' + 1) (slots l')).

(** [to] is only looked at for its number of slots. *)
Definition copymovelist {S} (to from : dyxlist) : prog S dyxlist :=
  let to := initmovelist (Dyxlist (allocated to) (count to) []) in
  to ← setmovelist to (count from);
  let n := Z.to_nat (count from) in
  if (length (slots from) <? n)%nat || (length (slots to) <? n)%nat then fail Bad_pointer
  else mret (Dyxlist (allocated to) (count to) (take n (slots from) ++ drop n (slots to))).

Definition destroymovelist (l : dyxlist) : dyxlist := Dyxlist 0 (count l) [].
Definition no_list : dyxlist := Dyxlist 0 0 [].

(** ** Access *)

Definition get_game : K gamestate := w ← get_state; mret (state w).
Definition put_game (s : gamestate) : K unit := modify (with_state s).
Definition change (f : gamestate -> gamestate) : K unit := modify (fun w => with_state (f (state w)) w).

(** [state.game->...]. *)
Definition get_setup : K gamesetup :=
  w ← get_state; match games w !! game (state w) with Some g => mret g | None => fail Bad_pointer end.
Definition put_setup (g : gamesetup) : K unit := modify (fun w => with_games (<[game (state w) := g]> (games w)) w).

(** [state.map[i]]. *)
Definition cell (i : Z) : K Z :=
  s ← get_game;
  if i <? 0 then fail Bad_pointer else match map_ s !! Z.to_nat i with Some c => mret c | None => fail Bad_pointer end.
Definition set_cell (i v : Z) : K unit :=
  s ← get_game;
  if (0 <=? i) && (i <? Z.of_nat (length (map_ s))) then put_game (with_map (<[Z.to_nat i := v]> (map_ s)) s) else fail Bad_pointer.
(** [state.map[i] |= f] and [state.map[i] &= ~f]. *)
Definition set_flag (i f : Z) : K unit := c ← cell i; set_cell i (Z.lor c f).
Definition clear_flag (i f : Z) : K unit := c ← cell i; set_cell i (Z.ldiff c f).
Definition has (c f : Z) : bool := negb (Z.land c f =? 0).

(** [macros[i]]. *)
Definition get_macro (i : nat) : K dyxlist :=
  w ← get_state; match macros w !! i with Some l => mret l | None => fail Bad_pointer end.
Definition put_macro (i : nat) (l : dyxlist) : K unit := modify (fun w => with_macros (<[i := l]> (macros w)) w).
Definition macro_at (i : Z) : K dyxlist := if i <? 0 then fail Bad_pointer else get_macro (Z.to_nat i).

(** ** play.c: game states *)

(** The two states share no memory: what is copied are values. *)
Definition copygamestate (from : gamestate) : K gamestate :=
  u ← copymovelist (undo from) (undo from);
  r ← copymovelist (redo from) (redo from);
  mret (with_redo r (with_undo u from)).

Definition initgamestate (usemoves : bool) : K unit :=
  g ← get_setup;
  change (fun s => with_player (start g) (with_map (setup_map g) s));;
  change (fun s => with_undo (initmovelist (undo s)) s);;
  s ← get_game;
  r ← copymovelist (redo s) (if count (moveanswer g) =? 0 then pushanswer g
    else if (count (pushanswer g) =? 0) || usemoves then moveanswer g else pushanswer g);
  change (with_redo r);;
  change (fun s => with_storecount (setup_storecount g) (with_pushcount 0 (with_movecount 0 s)));;
  modify (with_recording false);;
  modify (fun w => with_macros (map (fun l => if count l =? 0 then l else Dyxlist (allocated l) 0 (slots l)) (macros w)) w).

Definition selectgame (game level : nat) : K unit := change (fun s => with_level (Z.of_nat level) (with_game game s)).

(** ** play.c: moves *)

Definition domove (move : dyx) : K unit :=
  s ← get_game;
  clear_flag (player s) PLAYER;;
  let p := player s + yx move in
  change (with_player p);;
  set_flag p PLAYER;;
  change (fun s => with_movecount (movecount s + 1) s);;
  (if box move then
     let j := p + yx move in
     clear_flag p BOX;;
     set_flag j BOX;;
     c ← cell p;
     (if has c GOAL then change (fun s => with_storecount (storecount s - 1) s) else mret tt);;
     c ← cell j;
     (if has c GOAL then change (fun s => with_storecount (storecount s + 1) s) else mret tt);;
     change (fun s => with_pushcount (pushcount s + 1) s)
   else mret tt);;
  s ← get_game;
  u ← addtomovelist (undo s) move;
  change (with_undo u);;
  w ← get_state;
  if recording w then l ← get_macro (macro w); l ← addtomovelist l move; put_macro (macro w) l else mret tt.

Definition undomove : K bool :=
  s ← get_game;
  if count (undo s) =? 0 then mret false else
  let u := undo s in
  let u := Dyxlist (allocated u) (count u - 1) (slots u) in
  change (with_undo u);;
  move ← slot u (count u);
  r ← addtomovelist (redo s) move;
  change (with_redo r);;
  (if box move then
     let j := player s + yx move in
     clear_flag j BOX;;
     set_flag (player s) BOX;;
     c ← cell j;
     (if has c GOAL then change (fun s => with_storecount (storecount s - 1) s) else mret tt);;
     c ← cell (player s);
     (if has c GOAL then change (fun s => with_storecount (storecount s + 1) s) else mret tt);;
     change (fun s => with_pushcount (pushcount s - 1) s)
   else mret tt);;
  clear_flag (player s) PLAYER;;
  let p := player s - yx move in
  change (with_player p);;
  set_flag p PLAYER;;
  change (fun s => with_movecount (movecount s - 1) s);;
  w ← get_state;
  (if recording w then
     l ← get_macro (macro w);
     if count l =? 0 then mret tt else
     put_macro (macro w) (Dyxlist (allocated l) (count l - 1) (slots l));;
     if count l - 1 =? 0 then modify (with_recording false) else mret tt
   else mret tt);;
  mret true.

(** [while (n-- && undomove())]. *)
Fixpoint undo_times (n : nat) : K unit :=
  match n with
  | O => mret tt
  | S n => b ← undomove; if b : bool then undo_times n else mret tt
  end.
Definition undomoves (n : nat) : K bool :=
  s ← get_game;
  if count (undo s) =? 0 then mret false else undo_times n;; mret true.

Definition redomove : K bool :=
  s ← get_game;
  if count (redo s) =? 0 then mret false else
  let r := redo s in
  let r := Dyxlist (allocated r) (count r - 1) (slots r) in
  change (with_redo r);;
  move ← slot r (count r);
  domove move;;
  mret true.

Fixpoint redo_times (n : nat) : K unit :=
  match n with
  | O => mret tt
  | S n => b ← redomove; if b : bool then redo_times n else mret tt
  end.
Definition redomoves (n : nat) : K bool :=
  s ← get_game;
  if count (redo s) =? 0 then mret false else redo_times n;; mret true.

Definition newmove (delta : Z) : K bool :=
  s ← get_game;
  let j := player s + delta in
  c ← cell j;
  if has c WALL then mret false else
  back ← (if count (undo s) =? 0 then mret false else
    move ← slot (undo s) (count (undo s) - 1); mret (negb (box move) && (yx move =? - delta)));
  if back : bool then undomove else
  c ← cell j;
  let b := has c BOX in
  blocked ← (if b then c ← cell (j + delta); mret (has c (Z.lor BOX WALL)) else mret false);
  if blocked : bool then mret false else
  again ← (if count (redo s) =? 0 then mret false else
    move ← slot (redo s) (count (redo s) - 1); mret (Bool.eqb (box move) b && (yx move =? delta)));
  if again : bool then redomove else
  domove (Dyx delta b);;
  change (fun s => with_redo (Dyxlist (allocated (redo s)) 0 (slots (redo s))) s);;
  mret true.

Definition checkfinished : K bool :=
  s ← get_game; g ← get_setup;
  mret ((storecount s =? boxcount g) || (storecount s =? goalcount g)).

(** ** play.c: macros *)

Definition setmacro : K unit :=
  w ← get_state;
  if recording w then modify (with_recording false) else
  l ← macro_at (player (state w));
  modify (with_macro (Z.to_nat (player (state w))));;
  put_macro (Z.to_nat (player (state w))) (initmovelist l);;
  modify (with_recording true).

Definition startmacro : K bool :=
  w ← get_state;
  l ← macro_at (player (state w));
  if count l =? 0 then mret false else
  (if recording w then modify (with_recording false) else mret tt);;
  modify (with_macro (Z.to_nat (player (state w))));;
  modify (with_macroplay 0);;
  mret true.

Definition macromove : K bool :=
  w ← get_state;
  (if 0 <=? macroplay w then
     l ← get_macro (macro w);
     move ← slot l (macroplay w);
     ok ← newmove (yx move);
     stop ← (if ok : bool then
         modify (fun w => with_macroplay (macroplay w + 1) w);;
         w ← get_state; l ← get_macro (macro w); mret (count l <=? macroplay w)
       else mret true);
     if stop : bool then modify (with_macroplay (-1)) else mret tt
   else mret tt);;
  w ← get_state; mret (0 <=? macroplay w).

Definition isplaying : K bool := w ← get_state; mret (0 <=? macroplay w).

(** ** play.c: saved states *)

Definition savestate : K unit :=
  s ← get_game;
  save ← copygamestate s;
  modify (fun w => with_stack (save :: stack w) w).

Definition restorestate : K bool :=
  w ← get_state;
  match stack w with
  | [] => mret false
  | s :: rest => put_game s;; modify (with_stack rest);; mret true
  end.

Definition freesavedstates : K unit := modify (with_stack []).

(** ** play.c: solutions *)

(** [while (i--) addtomovelist(answer, undo.list[i])]. *)
Fixpoint reversed_loop (i : nat) (answer l : dyxlist) : K dyxlist :=
  match i with
  | O => mret answer
  | S i => m ← slot l (Z.of_nat i); answer ← addtomovelist answer m; reversed_loop i answer l
  end.

Definition replace_moves (saveinc : bool) (s : gamestate) (g : gamesetup) : K gamesetup :=
  a ← reversed_loop (Z.to_nat (count (undo s))) (initmovelist (moveanswer g)) (undo s);
  mret (Gamesetup (ysize g) (xsize g) (boxcount g) (goalcount g) (setup_storecount g) (start g)
    (if saveinc then movebestcount g else movecount s) (pushbestcount g) (pushcount s) (pushbestmovecount g)
    a (pushanswer g) (game_name g) (setup_map g)).
Definition replace_pushes (saveinc : bool) (s : gamestate) (g : gamesetup) : K gamesetup :=
  a ← reversed_loop (Z.to_nat (count (undo s))) (initmovelist (pushanswer g)) (undo s);
  mret (Gamesetup (ysize g) (xsize g) (boxcount g) (goalcount g) (setup_storecount g) (start g)
    (movebestcount g) (pushcount s) (movebestpushcount g) (if saveinc then pushbestmovecount g else movecount s)
    (moveanswer g) a (game_name g) (setup_map g)).

Definition replaceanswers (saveinc : bool) : K bool :=
  s ← get_game; g ← get_setup;
  if saveinc && (negb (movebestcount g =? 0) || negb (pushbestcount g =? 0)) then mret false else
  let m := (movebestcount g =? 0) || (movecount s <? movebestcount g)
    || ((movecount s =? movebestcount g) && (pushcount s <? movebestpushcount g)) in
  g ← (if m then replace_moves saveinc s g else mret g);
  let p := (pushbestcount g =? 0) || (pushcount s <? pushbestcount g)
    || ((pushcount s =? pushbestcount g) && (movecount s <? pushbestmovecount g)) in
  g ← (if p then replace_pushes saveinc s g else mret g);
  put_setup g;;
  mret (m || p).

(** ** play.c: output *)

Definition say (e : event) : K unit := modify (fun w => with_events (events w ++ [e]) w).

(** The character of a cell; blank cells have none. *)
Definition object (c : Z) : option Z :=
  if has c PLAYER then Some (if has c GOAL then 43 else 64) else
  if has c BOX then Some (if has c GOAL then 42 else 36) else
  if has c WALL then Some 35 else
  if has c GOAL then Some 46 else None.

(** One line of the map: blanks are printed before what follows them only. *)
Fixpoint row_loop (k : nat) (y x xs spaces : Z) : K (list Z) :=
  match k with
  | O => fail Out_of_fuel
  | S k =>
      if x <? xs - 1 then
        c ← cell (y * XSIZE + x);
        match object c with
        | Some ch => l ← row_loop k y (x + 1) xs 0; mret (replicate (Z.to_nat spaces) 32 ++ ch :: l)
        | None => row_loop k y (x + 1) xs (spaces + 1)
        end
      else mret []
  end.

Fixpoint rows_loop (k : nat) (y ys xs : Z) : K unit :=
  match k with
  | O => fail Out_of_fuel
  | S k =>
      if y <? ys - 1 then
        line ← with_fuel (fun k => row_loop k y 1 xs 0);
        say (Printed line);;
        rows_loop k (y + 1) ys xs
      else mret tt
  end.

Definition outputmapstate : K unit :=
  s ← get_game; g ← get_setup;
  (if movecount s =? 0 then mret tt else say (Move_number (movecount s)));;
  with_fuel (fun k => rows_loop k 1 (ysize g) (xsize g)).

(** The redo list from its last used slot on. *)
Fixpoint solution_loop (i : nat) (last : dyx) : K unit :=
  match i with
  | O => mret tt
  | S i =>
      s ← get_game;
      move ← slot (redo s) (Z.of_nat i);
      (if (yx move =? yx last) && Bool.eqb (box move) (box last) then mret tt else outputmapstate);;
      domove move;;
      solution_loop i move
  end.

Definition displaygamesolution : K bool :=
  s ← get_game;
  if count (redo s) =? 0 then mret false else
  solution_loop (Z.to_nat (count (redo s))) (Dyx 0 false);;
  outputmapstate;;
  mret true.

Context {TERM : terminal}.

Definition drawscreen (index : Z) : K bool :=
  w ← get_state; g ← get_setup;
  l ← macro_at (player (state w));
  let s := state w in
  say (Shown (map_ s) (recording w) (0 <? count l) (match stack w with [] => false | _ => true end) (index + 1)
    (storecount s) (movecount s) (pushcount s) (movebestcount g) (pushbestcount g));;
  mret fits.
End play.
