(* ===== verification/SokRule.v ===== *)
(** * The rules of SokGame, and maps that show a position

    A position is where the player is and where the boxes are. *)

From Stdlib Require Import ZArith Lia.
From stdpp Require Import base numbers list gmap sets fin_sets.
From S2P Require Import Prelude SokGame.

Open Scope Z_scope.

(** ** The rules *)

Record pos : Type := Pos { who : Z; boxes : gset Z }.

Definition dirs : list Z := [1; -1; 32; -32].

Section rule.
Context (wall : Z -> bool).

(** A step: not into a wall, and a box in the way must have a free cell behind it. *)
Definition pushes (s : pos) (d : Z) : bool := bool_decide (who s + d ∈ boxes s).
Definition legal (s : pos) (d : Z) : bool :=
  negb (wall (who s + d)) && (negb (pushes s d) || (negb (wall (who s + d + d)) && bool_decide (who s + d + d ∉ boxes s))).
Definition moved (s : pos) (d : Z) : pos :=
  Pos (who s + d) (if pushes s d then {[who s + d + d]} ∪ boxes s ∖ {[who s + d]} else boxes s).

(** [plays s l s']: the steps [l], which say whether they push, lead from [s] to [s']. *)
Inductive plays : pos -> list dyx -> pos -> Prop :=
  | plays_nil s : plays s [] s
  | plays_cons s d l s' : d ∈ dirs -> legal s d = true -> plays (moved s d) l s' -> plays s (Dyx d (pushes s d) :: l) s'.

Lemma plays_app s1 l1 s2 l2 s3 : plays s1 l1 s2 -> plays s2 l2 s3 -> plays s1 (l1 ++ l2) s3.
Proof. induction 1; [done|]. intros H2. cbn [app]. constructor; auto. Qed.

Lemma plays_snoc s1 l s2 d : plays s1 l s2 -> d ∈ dirs -> legal s2 d = true -> plays s1 (l ++ [Dyx d (pushes s2 d)]) (moved s2 d).
Proof. intros H Hd Hl. eapply plays_app; [exact H|]. constructor; [done | done | constructor]. Qed.

Lemma plays_snoc_inv s1 l m s3 : plays s1 (l ++ [m]) s3 ->
  exists s2, plays s1 l s2 /\ yx m ∈ dirs /\ legal s2 (yx m) = true /\ box m = pushes s2 (yx m) /\ s3 = moved s2 (yx m).
Proof.
  revert s1. induction l as [|a l IH]; intros s1 H; cbn [app] in H; inversion H as [|? ? ? ? Hd Hl Hp]; subst.
  - inversion Hp; subst. exists s1. split; [constructor | done].
  - destruct (IH _ Hp) as (s2 & H2 & Hrest). exists s2. split; [by constructor | done].
Qed.

Lemma plays_cons_inv s m l s' : plays s (m :: l) s' ->
  yx m ∈ dirs /\ legal s (yx m) = true /\ box m = pushes s (yx m) /\ plays (moved s (yx m)) l s'.
Proof. intros H. by inversion H; subst. Qed.

(** ** Rooms

    A room is [xs] wide and [ys] high, with walls around it. *)

Definition inside (xs ys i : Z) : Prop := 1 <= i / 32 <= ys - 2 /\ 1 <= i mod 32 <= xs - 2.
Definition framed (xs ys : Z) : Prop :=
  xs <= 32 /\ ys <= 32 /\ forall i, 0 <= i / 32 <= ys - 1 -> 0 <= i mod 32 <= xs - 1 -> ~ inside xs ys i -> wall i = true.

(** Nothing is in a wall, and the player not in a box. *)
Record pos_ok (xs ys : Z) (s : pos) : Prop := Pos_ok {
  po_who : inside xs ys (who s) /\ wall (who s) = false;
  po_free : who s ∉ boxes s;
  po_boxes : forall i, i ∈ boxes s -> inside xs ys i /\ wall i = false
}.

Lemma inside_range xs ys i : xs <= 32 -> ys <= 32 -> inside xs ys i -> 32 < i < 991.
Proof using Type. clear wall. unfold inside. intros. Z.to_euclidean_division_equations. lia. Qed.

Lemma inside_step xs ys i d : framed xs ys -> d ∈ dirs -> inside xs ys i -> wall (i + d) = false -> inside xs ys (i + d).
Proof.
  intros (Hx & Hy & Hf) Hd Hi Hw.
  assert (0 <= (i + d) / 32 <= ys - 1 /\ 0 <= (i + d) mod 32 <= xs - 1) as [H1 H2].
  { unfold inside, dirs in *. rewrite !elem_of_cons, elem_of_nil in Hd. Z.to_euclidean_division_equations. lia. }
  assert ({inside xs ys (i + d)} + {~ inside xs ys (i + d)}) as [|Hn].
  { unfold inside. destruct (Z_le_dec 1 ((i + d) / 32)), (Z_le_dec ((i + d) / 32) (ys - 2)), (Z_le_dec 1 ((i + d) mod 32)), (Z_le_dec ((i + d) mod 32) (xs - 2));
      (left; lia) || (right; lia). }
  - done.
  - rewrite (Hf _ H1 H2 Hn) in Hw. done.
Qed.

Lemma legal_spec s d : legal s d = true <->
  wall (who s + d) = false /\ (who s + d ∈ boxes s -> wall (who s + d + d) = false /\ who s + d + d ∉ boxes s).
Proof.
  unfold legal, pushes. rewrite andb_true_iff, orb_true_iff, andb_true_iff, !negb_true_iff, bool_decide_eq_false, bool_decide_eq_true.
  destruct (decide (who s + d ∈ boxes s)); tauto.
Qed.

Lemma moved_ok xs ys s d : framed xs ys -> d ∈ dirs -> pos_ok xs ys s -> legal s d = true -> pos_ok xs ys (moved s d).
Proof.
  intros Hf Hd [[Hi Hw] Hfree Hb] [H1 H2]%legal_spec. pose proof (inside_step _ _ _ _ Hf Hd Hi H1) as Hi'.
  assert (d <> 0) as Hd0 by (intros ->; unfold dirs in Hd; rewrite !elem_of_cons, elem_of_nil in Hd; lia).
  unfold moved, pushes. case_bool_decide as Hp; [destruct (H2 Hp) as [H3 H4]|]; split; cbn [who boxes]; try done.
  - rewrite elem_of_union, elem_of_difference, !elem_of_singleton. intros [E|[_ E]]; [lia | by apply E].
  - intros i. rewrite elem_of_union, elem_of_difference, !elem_of_singleton. intros [->|[Hi2 _]]; [|by apply Hb].
    split; [|done]. by apply inside_step.
Qed.

Lemma plays_ok xs ys s l s' : framed xs ys -> pos_ok xs ys s -> plays s l s' -> pos_ok xs ys s'.
Proof. intros Hf Hs H. induction H as [|s d l s' Hd Hl H IH]; [done|]. apply IH. by apply moved_ok. Qed.

(** The number of boxes stays the same. *)
Lemma moved_size s d : legal s d = true -> size (boxes (moved s d)) = size (boxes s).
Proof.
  intros [_ H2]%legal_spec. unfold moved, pushes. case_bool_decide as Hp; cbn [boxes]; [|done].
  destruct (H2 Hp) as [_ H3]. rewrite size_union by set_solver. rewrite size_difference by set_solver. rewrite !size_singleton.
  assert (size (boxes s) <> 0%nat); [|lia]. intros E%size_empty_inv. set_solver.
Qed.

(** ** Taking a step back *)

Definition unmoved (s : pos) (m : dyx) : pos :=
  Pos (who s - yx m) (if box m then {[who s]} ∪ boxes s ∖ {[who s + yx m]} else boxes s).

Lemma unmoved_moved s d : legal s d = true -> unmoved (moved s d) (Dyx d (pushes s d)) = s.
Proof.
  intros [_ H2]%legal_spec. destruct s as [w b]. unfold unmoved, moved, pushes in *. cbn [yx box who boxes] in *. f_equal; [lia|].
  case_bool_decide as Hp; [|done]. destruct (H2 Hp) as [_ H3].
  apply set_eq. intros i. rewrite !elem_of_union, !elem_of_difference, elem_of_union, elem_of_difference, !elem_of_singleton.
  destruct (decide (i = w + d)) as [E1|E1], (decide (i = w + d + d)) as [E2|E2]; subst; naive_solver.
Qed.

Lemma moved_inj s1 s2 d : legal s1 d = true -> legal s2 d = true -> pushes s1 d = pushes s2 d -> moved s1 d = moved s2 d -> s1 = s2.
Proof. intros H1 H2 Hp E. rewrite <- (unmoved_moved _ _ H1), <- (unmoved_moved _ _ H2). by rewrite E, Hp. Qed.

Lemma moved_back xs ys s d : pos_ok xs ys s -> legal s d = true -> pushes s d = false ->
  legal (moved s d) (- d) = true /\ pushes (moved s d) (- d) = false /\ moved (moved s d) (- d) = s.
Proof.
  intros [[Hi Hw] Hfree Hb] [H1 _]%legal_spec Hp.
  assert (moved s d = Pos (who s + d) (boxes s)) as E by (unfold moved; by rewrite Hp).
  assert (pushes (moved s d) (- d) = false) as Hp'.
  { rewrite E. unfold pushes. apply bool_decide_eq_false. cbn [who boxes]. by replace (who s + d + - d) with (who s) by lia. }
  split_and!; [|done|].
  - apply legal_spec. rewrite E. cbn [who boxes]. replace (who s + d + - d) with (who s) by lia. done.
  - unfold moved at 1. rewrite Hp', E. cbn [who boxes]. destruct s as [w b]. cbn. f_equal. lia.
Qed.
End rule.
