(* ===== verification/SokShow.v ===== *)
(** * Csokoban: lists of moves, and maps that show a position *)

From Stdlib Require Import ZArith Lia Btauto.
From stdpp Require Import base numbers list gmap sets fin_sets.
From S2P Require Import Prelude SokGame SokRule.

Open Scope Z_scope.

(** [p] reads nothing that it changes: its value is [v]. *)
Definition yields {S A} (p : prog S A) (s : S) (v : A) : Prop := forall fuel, p fuel s = Ok v s.

Lemma wp_yields {S A B} (p : prog S A) (k : nat -> A -> prog S B) (s : S) v Q :
  yields p s v -> wp (fun n => k n v) s Q -> wp (fun n => p ≫= k n) s Q.
Proof.
  intros H (N & b & s' & Hk & HQ). exists N, b, s'. split; [|done]. intros n fuel Hn Hf.
  unfold mbind, prog_bind. rewrite H. by apply Hk.
Qed.

(** ** Lists of moves *)

Definition used (l : dyxlist) : list dyx := take (Z.to_nat (count l)) (slots l).

Record list_ok (l : dyxlist) : Prop := List_ok {
  lo_some : 0 < allocated l;
  lo_count : 0 <= count l <= allocated l;
  lo_slots : Z.of_nat (length (slots l)) = allocated l
}.

(** A list without a block is empty. *)
Definition null_list (l : dyxlist) : Prop := allocated l = 0 /\ count l = 0 /\ slots l = [].
Definition list_ok0 (l : dyxlist) : Prop := list_ok l \/ null_list l.

Section lists.
Context {MEM : memory}.

Lemma used_length l : list_ok l -> Z.of_nat (length (used l)) = count l.
Proof. intros [H1 H2 H3]. unfold used. rewrite length_take. lia. Qed.

Lemma used_nil l : list_ok l -> count l = 0 <-> used l = [].
Proof. intros H. pose proof (used_length _ H) as E. split; intros H2; [|rewrite H2 in E; cbn in E; lia]. destruct (used l); [done|cbn in E; lia]. Qed.

Lemma count_cases l : list_ok l -> (count l =? 0) = false -> exists l0 m, used l = l0 ++ [m].
Proof.
  intros H Hc. apply Z.eqb_neq in Hc. rewrite (used_nil _ H) in Hc.
  destruct (used l) as [|x l0 _] using rev_ind; [done | by eauto].
Qed.

Lemma slot_yields {w : world} l l0 m : list_ok l -> used l = l0 ++ [m] -> yields (slot l (count l - 1)) w m.
Proof.
  intros H E fuel. pose proof (used_length _ H) as Hl. rewrite E, length_app in Hl. cbn in Hl.
  unfold slot. destruct (Z.ltb_spec (count l - 1) 0); [lia|].
  assert (slots l !! Z.to_nat (count l - 1) = Some m) as ->; [|done].
  assert (used l !! Z.to_nat (count l - 1) = Some m) as E2.
  { rewrite E, lookup_app_r by lia. replace (Z.to_nat (count l - 1) - length l0)%nat with 0%nat by lia. done. }
  unfold used in E2. rewrite lookup_take in E2. case_decide; done.
Qed.

(** [slot] anywhere. *)
Lemma slot_at {w : world} l i m : 0 <= i -> slots l !! Z.to_nat i = Some m -> yields (slot l i) w m.
Proof. intros Hi E fuel. unfold slot. destruct (Z.ltb_spec i 0); [lia|]. by rewrite E. Qed.

Lemma shorter_ok l l0 m : list_ok l -> used l = l0 ++ [m] ->
  list_ok (Dyxlist (allocated l) (count l - 1) (slots l)) /\ used (Dyxlist (allocated l) (count l - 1) (slots l)) = l0.
Proof.
  intros H E. pose proof (used_length _ H) as Hl. rewrite E, length_app in Hl. cbn in Hl. destruct H as [H1 H2 H3].
  split; [split; cbn; lia|]. unfold used in *. cbn.
  rewrite <- (take_app_length l0 [m]), <- E, take_take. f_equal. lia.
Qed.

Lemma empty_ok l : list_ok l -> list_ok (Dyxlist (allocated l) 0 (slots l)) /\ used (Dyxlist (allocated l) 0 (slots l)) = [].
Proof. intros [H1 H2 H3]. split; [split; cbn; lia | done]. Qed.

Lemma resized_length n l : 0 <= n -> Z.of_nat (length (resized n l)) = n.
Proof. intros H. unfold resized. rewrite length_app, length_take, length_map, length_seq. lia. Qed.

Lemma resized_take n l : Z.of_nat (length l) <= n -> take (length l) (resized n l) = l.
Proof. intros H. unfold resized. rewrite (take_ge l) by lia. apply take_app_length. Qed.

Lemma init_ok l : list_ok0 l -> list_ok (initmovelist l) /\ used (initmovelist l) = [].
Proof.
  intros [H|(H1 & H2 & H3)].
  - unfold initmovelist, no_block. destruct (H) as [H1 H2 H3]. destruct (Z.eqb_spec (allocated l) 0); [lia|].
    destruct (Nat.eqb_spec (length (slots l)) 0); [lia|]. by apply empty_ok.
  - unfold initmovelist, no_block. rewrite H1. cbn [Z.eqb orb]. split; [split; cbn [allocated count slots]; rewrite ?resized_length; lia | done].
Qed.

Lemma insert_snoc {A} (l : list A) n x : (n < length l)%nat -> take (S n) (<[n := x]> l) = take n l ++ [x].
Proof.
  intros H. rewrite (take_S_r _ _ x) by (apply list_lookup_insert_eq; lia). f_equal. apply take_insert_ge. lia.
Qed.

Lemma add_run l m : list_ok l -> exists l', (forall fuel (w : world), addtomovelist l m fuel w = Ok l' w) /\ list_ok l' /\ used l' = used l ++ [m].
Proof.
  intros [H1 H2 H3]. unfold addtomovelist.
  set (l1 := if allocated l <=? count l then _ else l).
  assert (list_ok l1 /\ count l1 = count l /\ count l < allocated l1 /\ used l1 = used l) as ([G1 G2 G3] & G4 & G5 & G6).
  { subst l1. destruct (Z.leb_spec (allocated l) (count l)).
    - split_and!; cbn; [split; cbn; [lia | lia | rewrite resized_length; lia] | done | lia |].
      unfold used. cbn. assert (count l = Z.of_nat (length (slots l))) as E by lia. rewrite E, Nat2Z.id.
      rewrite resized_take by lia. by rewrite take_ge.
    - split; [by split|]. done. }
  clearbody l1. exists (Dyxlist (allocated l1) (count l1 + 1) (<[Z.to_nat (count l1) := m]> (slots l1))).
  split_and!.
  - intros fuel w. unfold mbind, prog_bind, set_slot. destruct (Z.leb_spec 0 (count l1)); [|lia].
    destruct (Z.ltb_spec (count l1) (Z.of_nat (length (slots l1)))); [done | lia].
  - split; cbn; rewrite ?length_insert; lia.
  - unfold used in *. cbn. replace (Z.to_nat (count l1 + 1)) with (S (Z.to_nat (count l1))) by lia.
    rewrite insert_snoc by lia. by rewrite <- G6.
Qed.
Lemma grow_ok size : forall a, 0 < a -> exists N a', (forall k, (N <= k)%nat -> grow_loop k a size = Some a') /\ a <= a' /\ size <= a'.
Proof using Type.
  clear MEM. intros a. remember (Z.to_nat (size - a)) as n. revert a Heqn. induction n as [n IH] using lt_wf_ind. intros a Hn Ha.
  destruct (Z.ltb_spec a size) as [Hlt|Hge].
  - destruct (IH (Z.to_nat (size - a * 2)) ltac:(lia) (a * 2) eq_refl ltac:(lia)) as (N & a' & H1 & H2 & H3).
    exists (S N), a'. split; [|lia]. intros [|k] Hk; [lia|]. cbn. destruct (Z.ltb_spec a size); [|lia]. apply H1. lia.
  - exists 1%nat, a. split; [|lia]. intros [|k] Hk; [lia|]. cbn. destruct (Z.ltb_spec a size); [lia | done].
Qed.

Lemma list_ok0_length l : list_ok0 l -> 0 <= count l <= Z.of_nat (length (slots l)).
Proof using Type. clear MEM. intros [[H1 H2 H3]|(H1 & H2 & H3)]; [lia|]. rewrite H2, H3. cbn. lia. Qed.

Lemma used_length0 l : list_ok0 l -> Z.of_nat (length (used l)) = count l.
Proof using Type. intros H%list_ok0_length. unfold used. rewrite length_take. lia. Qed.

Lemma copy_spec {S} to from (w : S) : list_ok0 from -> wp (fun _ => copymovelist to from) w (fun l w' => w' = w /\ list_ok l /\ used l = used from /\ count l = count from).
Proof using Type.
  intros H%list_ok0_length. unfold copymovelist.
  assert (initmovelist (Dyxlist (allocated to) (count to) []) = Dyxlist 16 0 (resized 16 [])) as -> by (unfold initmovelist, no_block; by rewrite orb_true_r).
  destruct (grow_ok (count from) 16 ltac:(lia)) as (N & a & Ha & Hge & Hsz).
  eapply wp_call with (P := fun l w' => w' = w /\ l = Dyxlist a (count from) (resized a (resized 16 []))).
  - exists N. eexists _, _. split; [|done]. intros n fuel Hn Hf. unfold setmovelist. cbn [no_block allocated slots]. by rewrite Ha.
  - cbv beta. intros l w' [-> ->]. cbn [slots count allocated]. set (n := Z.to_nat (count from)).
    pose proof (resized_length a (resized 16 []) ltac:(lia)) as Hlen.
    destruct (Nat.ltb_spec (length (slots from)) n); [subst n; lia|]. destruct (Nat.ltb_spec (length (resized a (resized 16 []))) n); [subst n; lia|].
    apply wp_ret. split; [done|]. split; [|split].
    + split; cbn [allocated count slots]; rewrite ?length_app, ?length_take, ?length_drop; subst n; lia.
    + unfold used. cbn [slots count]. fold n. rewrite <- (take_app_length (take n (slots from)) (drop n (resized a (resized 16 [])))) at 2.
      f_equal. rewrite length_take. lia.
    + done.
Qed.
End lists.

(** ** Cells *)

(** The flags of the puzzle's cell [b], with a box or the player as said. *)
Definition cell_of (b : Z) (x y : bool) : Z := Z.lor (Z.ldiff b 6) (Z.lor (if x then BOX else 0) (if y then PLAYER else 0)).

Lemma cell_of_bit b x y n : 0 <= n ->
  Z.testbit (cell_of b x y) n = if n =? 2 then x else if n =? 1 then y else Z.testbit b n.
Proof.
  intros Hn. unfold cell_of, BOX, PLAYER. rewrite !Z.lor_spec, Z.ldiff_spec.
  assert (n = 0 \/ n = 1 \/ n = 2 \/ 3 <= n) as [->|[->|[->|H]]] by lia.
  - cbn. destruct x, y; cbn; rewrite ?andb_true_r, ?orb_false_r; done.
  - cbn. destruct x, y; cbn; rewrite ?andb_false_r; done.
  - cbn. destruct x, y; cbn; rewrite ?andb_false_r; done.
  - destruct (Z.eqb_spec n 2), (Z.eqb_spec n 1); try lia.
    assert (forall k, 0 <= k < 8 -> Z.testbit k n = false) as E.
    { intros k Hk. apply Z.bits_above_log2; [lia|]. destruct (Z.eq_dec k 0) as [->|]; [cbn; lia|]. apply Z.log2_lt_pow2; [lia|].
      apply Z.lt_le_trans with (2 ^ 3); [lia|]. apply Z.pow_le_mono_r; lia. }
    rewrite (E 6) by lia. destruct x, y; rewrite ?(E 4), ?(E 2), ?(E 0) by lia; cbn; by rewrite andb_true_r, orb_false_r.
Qed.

Lemma has_bit c n : 0 <= n -> has c (2 ^ n) = Z.testbit c n.
Proof.
  intros Hn. unfold has. destruct (Z.testbit c n) eqn:E.
  - destruct (Z.eqb_spec (Z.land c (2 ^ n)) 0) as [E2|]; [|done].
    assert (Z.testbit (Z.land c (2 ^ n)) n = true) as E3 by (rewrite Z.land_spec, E, Z.pow2_bits_true; done).
    by rewrite E2, Z.bits_0 in E3.
  - assert (Z.land c (2 ^ n) = 0) as ->; [|done]. apply Z.bits_inj_0. intros k. rewrite Z.land_spec.
    destruct (Z.eq_dec k n) as [->|]; [by rewrite E|]. rewrite Z.pow2_bits_false by lia. by rewrite andb_false_r.
Qed.

Lemma has_wall b x y : has (cell_of b x y) WALL = Z.testbit b 3.
Proof. change WALL with (2 ^ 3). by rewrite has_bit, cell_of_bit by lia. Qed.
Lemma has_goal b x y : has (cell_of b x y) GOAL = Z.testbit b 0.
Proof. change GOAL with (2 ^ 0). by rewrite has_bit, cell_of_bit by lia. Qed.
Lemma has_box b x y : has (cell_of b x y) BOX = x.
Proof. change BOX with (2 ^ 2). by rewrite has_bit, cell_of_bit by lia. Qed.
Lemma has_player b x y : has (cell_of b x y) PLAYER = y.
Proof. change PLAYER with (2 ^ 1). by rewrite has_bit, cell_of_bit by lia. Qed.
Lemma has_lor c e f : has c (Z.lor e f) = has c e || has c f.
Proof.
  unfold has. rewrite Z.land_lor_distr_r. destruct (Z.eqb_spec (Z.land c e) 0) as [->|H]; [done|].
  destruct (Z.eqb_spec (Z.lor (Z.land c e) (Z.land c f)) 0) as [E|]; [|done]. by apply Z.lor_eq_0_iff in E as [E _].
Qed.
Lemma has_block b x y : has (cell_of b x y) (Z.lor BOX WALL) = x || Z.testbit b 3.
Proof. by rewrite has_lor, has_box, has_wall. Qed.

Lemma lor_box b x y : Z.lor (cell_of b x y) BOX = cell_of b true y.
Proof. unfold cell_of. rewrite <- !Z.lor_assoc. f_equal. by destruct x, y. Qed.
Lemma lor_player b x y : Z.lor (cell_of b x y) PLAYER = cell_of b x true.
Proof. unfold cell_of. rewrite <- !Z.lor_assoc. f_equal. by destruct x, y. Qed.
Lemma ldiff_lor a b c : Z.ldiff (Z.lor a b) c = Z.lor (Z.ldiff a c) (Z.ldiff b c).
Proof. apply Z.bits_inj. intros n. rewrite !Z.ldiff_spec, !Z.lor_spec, !Z.ldiff_spec. btauto. Qed.
Lemma ldiff_twice a b c : Z.lor b c = b -> Z.ldiff (Z.ldiff a b) c = Z.ldiff a b.
Proof.
  intros E. rewrite <- E. apply Z.bits_inj. intros n. rewrite !Z.ldiff_spec, !Z.lor_spec. btauto.
Qed.
Lemma ldiff_box b x y : Z.ldiff (cell_of b x y) BOX = cell_of b false y.
Proof. unfold cell_of. rewrite ldiff_lor, ldiff_twice by done. f_equal. by destruct x, y. Qed.
Lemma ldiff_player b x y : Z.ldiff (cell_of b x y) PLAYER = cell_of b x false.
Proof. unfold cell_of. rewrite ldiff_lor, ldiff_twice by done. f_equal. by destruct x, y. Qed.

(** ** Puzzles *)

Definition base (g : gamesetup) (i : Z) : Z := default 0 (setup_map g !! Z.to_nat i).
Definition wall (g : gamesetup) (i : Z) : bool := Z.testbit (base g i) 3.
Definition goal (g : gamesetup) (i : Z) : bool := Z.testbit (base g i) 0.
Definition room_cells : list Z := seqZ 0 1024.

Definition start_pos (g : gamesetup) : pos := Pos (start g) (list_to_set (filter (fun i => Z.testbit (base g i) 2 = true) room_cells)).

(** The boxes on goals. *)
Definition stored (g : gamesetup) (s : pos) : Z := Z.of_nat (size (filter (fun i => goal g i = true) (boxes s))).

(** A puzzle that can be played: a room with walls around, a player in it, and the right counts. *)
Record setup_ok (g : gamesetup) : Prop := Setup_ok {
  su_map : length (setup_map g) = 1024%nat;
  su_framed : framed (wall g) (xsize g) (ysize g);
  su_start : pos_ok (wall g) (xsize g) (ysize g) (start_pos g);
  su_player : forall i, 0 <= i < 1024 -> Z.testbit (base g i) 1 = bool_decide (i = start g);
  su_stored : setup_storecount g = stored g (start_pos g);
  su_boxes : boxcount g = Z.of_nat (size (boxes (start_pos g)));
  su_goals : goalcount g = Z.of_nat (length (filter (fun i => goal g i = true) room_cells))
}.

Lemma setup_range g i : setup_ok g -> inside (xsize g) (ysize g) i -> 32 < i < 991.
Proof. intros [_ (Hx & Hy & _) _ _ _ _ _] Hi. eapply inside_range; [exact Hx | exact Hy | exact Hi]. Qed.

(** [m] is the map [f]. *)
Definition is_map (m : list Z) (f : Z -> Z) : Prop := length m = 1024%nat /\ forall i, 0 <= i < 1024 -> m !! Z.to_nat i = Some (f i).
Definition fupd (f : Z -> Z) (i v : Z) : Z -> Z := fun j => if j =? i then v else f j.

Lemma is_map_upd m f i v : is_map m f -> 0 <= i < 1024 -> is_map (<[Z.to_nat i := v]> m) (fupd f i v).
Proof.
  intros [Hl H] Hi. split; [by rewrite length_insert|]. intros j Hj. unfold fupd. destruct (Z.eqb_spec j i) as [->|].
  - apply list_lookup_insert_eq. lia.
  - rewrite list_lookup_insert_ne by lia. by apply H.
Qed.

Lemma is_map_ext m f f' : is_map m f -> (forall i, 0 <= i < 1024 -> f i = f' i) -> is_map m f'.
Proof. intros [Hl H] E. split; [done|]. intros i Hi. rewrite H by done. by rewrite E. Qed.

(** The map that shows a position. *)
Definition cells (g : gamesetup) (s : pos) (i : Z) : Z := cell_of (base g i) (bool_decide (i ∈ boxes s)) (bool_decide (i = who s)).
Definition shows_map (g : gamesetup) (m : list Z) (s : pos) : Prop := is_map m (cells g s).

Lemma start_boxes g i : 0 <= i < 1024 -> Z.testbit (base g i) 2 = bool_decide (i ∈ boxes (start_pos g)).
Proof.
  intros Hi. cbn [boxes start_pos]. destruct (Z.testbit (base g i) 2) eqn:E.
  - symmetry; apply bool_decide_eq_true. rewrite elem_of_list_to_set, list_elem_of_filter. split; [done|]. by apply elem_of_seqZ.
  - symmetry; apply bool_decide_eq_false. rewrite elem_of_list_to_set, list_elem_of_filter. intros [E2 _]. by rewrite E in E2.
Qed.

(** The map of the puzzle shows the start. *)
Lemma setup_shows g : setup_ok g -> shows_map g (setup_map g) (start_pos g).
Proof.
  intros [Hl _ _ Hp _ _ _]. split; [done|]. intros i Hi.
  destruct (lookup_lt_is_Some_2 (setup_map g) (Z.to_nat i)) as [c Hc]; [lia|]. rewrite Hc. f_equal.
  unfold cells. assert (base g i = c) as E by (unfold base; by rewrite Hc). rewrite E.
  apply Z.bits_inj'. intros n Hn. rewrite cell_of_bit by done. rewrite <- start_boxes by done. cbn [who start_pos]. rewrite <- Hp, E by done.
  destruct (Z.eqb_spec n 2) as [->|]; [done|]. destruct (Z.eqb_spec n 1) as [->|]; done.
Qed.

Lemma stored_moved g s d : legal (wall g) s d = true -> pushes s d = true ->
  stored g (moved s d) = stored g s - (if goal g (who s + d) then 1 else 0) + (if goal g (who s + d + d) then 1 else 0).
Proof.
  intros [_ H2]%legal_spec Hp. unfold stored, moved. rewrite Hp. cbn [boxes]. unfold pushes in Hp. apply bool_decide_eq_true in Hp.
  destruct (H2 Hp) as [_ H3]. set (P := fun i => goal g i = true) in *.
  assert (filter P ({[who s + d + d]} ∪ boxes s ∖ {[who s + d]}) = filter P {[who s + d + d]} ∪ filter P (boxes s) ∖ filter P {[who s + d]}) as ->.
  { apply set_eq. intros i. rewrite elem_of_filter, !elem_of_union, !elem_of_difference, !elem_of_filter, !elem_of_singleton. naive_solver. }
  assert (filter P {[who s + d]} ⊆ filter P (boxes s)) as Hsub by (intros i; rewrite !elem_of_filter, elem_of_singleton; naive_solver).
  rewrite size_union by (intros i; rewrite elem_of_difference, !elem_of_filter, elem_of_singleton; naive_solver). rewrite size_difference by done.
  assert (forall i, size (filter P ({[i]} : gset Z)) = if goal g i then 1%nat else 0%nat) as E.
  { intros i. rewrite filter_singleton_L by apply _. unfold P. destruct (decide (goal g i = true)) as [->|Hn]; [apply size_singleton|].
    destruct (goal g i); [done|]. by rewrite size_empty. }
  rewrite !E. assert (size (filter P ({[(who s + d)%Z]} : gset Z)) <= size (filter P (boxes s)))%nat as Hle by (by apply subseteq_size).
  rewrite E in Hle. destruct (goal g (who s + d)), (goal g (who s + d + d)); lia.
Qed.
