(* ===== verification/SokPlay.v ===== *)
(** * Csokoban: what a move does, and that moving, undoing and redoing follow the rules

    [played] says that a state shows a position that its undo list reaches from the start, and that its redo list leads on from there. *)

From Stdlib Require Import ZArith Lia.
From stdpp Require Import base numbers list gmap sets fin_sets.
From S2P Require Import Prelude SokGame SokRule SokShow.

Open Scope Z_scope.

Record at_pos (g : gamesetup) (st : gamestate) (s : pos) : Prop := At_pos {
  ap_who : player st = who s;
  ap_map : shows_map g (map_ st) s;
  ap_stored : storecount st = stored g s;
  ap_ok : pos_ok (wall g) (xsize g) (ysize g) s
}.

Definition pushes_in (l : list dyx) : Z := Z.of_nat (length (filter (fun m => box m = true) l)).

Record played (g : gamesetup) (st : gamestate) (s : pos) : Prop := Played {
  pl_at : at_pos g st s;
  pl_undo : list_ok (undo st);
  pl_redo : list_ok (redo st);
  pl_from : plays (wall g) (start_pos g) (used (undo st)) s;
  pl_to : exists s', plays (wall g) s (rev (used (redo st))) s';
  pl_moves : movecount st = Z.of_nat (length (used (undo st)));
  pl_pushes : pushcount st = pushes_in (used (undo st))
}.

Lemma pushes_in_snoc l m : pushes_in (l ++ [m]) = pushes_in l + (if box m then 1 else 0).
Proof. unfold pushes_in. rewrite filter_app, length_app, filter_cons. destruct (box m); case_decide; cbn; try done; lia. Qed.

(** While recording there is a list to record in. *)
Definition recorder_ok (w : world) : Prop := recording w = true -> exists l, macros w !! macro w = Some l /\ list_ok l.

(** [ms] are the macros after the move [m]. *)
Definition recorded (w : world) (m : dyx) (ms : list dyxlist) : Prop :=
  if recording w then exists l l', macros w !! macro w = Some l /\ list_ok l' /\ used l' = used l ++ [m] /\ ms = <[macro w := l']> (macros w)
  else ms = macros w.

Lemma dirs_ne d : d ∈ dirs -> d <> 0.
Proof. unfold dirs. rewrite !elem_of_cons, elem_of_nil. lia. Qed.

Lemma dirs_range d i : d ∈ dirs -> 32 < i < 991 -> 0 <= i + d < 1024.
Proof. unfold dirs. rewrite !elem_of_cons, elem_of_nil. lia. Qed.

Lemma wp_running {S A} (p : prog S A) (s s' : S) a (Q : A -> S -> Prop) : (forall fuel, p fuel s = Ok a s') -> Q a s' -> wp (fun _ => p) s Q.
Proof. intros H HQ. exists 0%nat, a, s'. split; [|done]. intros. apply H. Qed.

Lemma wp_then {S A B} (p : prog S A) (k : nat -> A -> prog S B) (s s' : S) a Q :
  (forall fuel, p fuel s = Ok a s') -> wp (fun n => k n a) s' Q -> wp (fun n => p ≫= k n) s Q.
Proof. intros H HQ. apply wp_bind. by eapply wp_running. Qed.

(** One statement of a straight program, whose run is known by [H]. *)
Tactic Notation "run" uconstr(H) := eapply wp_then; [intros; eapply H|]; cbv beta zeta.
Tactic Notation "run" := eapply wp_then; [intros; reflexivity|]; cbv beta zeta.

Ltac tidy := cbv [with_games with_stack with_macros with_macro with_recording with_macroplay with_state with_keys with_events with_currentseries with_currentgame with_usemoves
    with_game with_level with_player with_storecount with_movecount with_pushcount with_undo with_redo with_map];
  cbn [games stack macros macro recording macroplay state keys events currentseries currentgame usemoves
    game level player storecount movecount pushcount undo redo map_ yx box who boxes].

Section play.
Context {MEM : memory}.

(** ** Cells *)

Lemma cell_run w f i : is_map (map_ (state w)) f -> 0 <= i < 1024 -> forall fuel, cell i fuel w = Ok (f i) w.
Proof.
  intros [_ H] Hi fuel. unfold cell, get_game, mbind, prog_bind, get_state. cbn. destruct (Z.ltb_spec i 0); [lia|]. by rewrite H.
Qed.

Lemma set_cell_run w f i v : is_map (map_ (state w)) f -> 0 <= i < 1024 ->
  exists m, (forall fuel, set_cell i v fuel w = Ok tt (with_state (with_map m (state w)) w)) /\ is_map m (fupd f i v).
Proof.
  intros H Hi. exists (<[Z.to_nat i := v]> (map_ (state w))). split; [|by apply is_map_upd]. destruct H as [Hl _].
  intros fuel. unfold set_cell, get_game, mbind, prog_bind, get_state. cbn. rewrite Hl. destruct (Z.leb_spec 0 i), (Z.ltb_spec i (Z.of_nat 1024)); [done | lia..].
Qed.

Lemma set_flag_run w f i v : is_map (map_ (state w)) f -> 0 <= i < 1024 ->
  exists m, (forall fuel, set_flag i v fuel w = Ok tt (with_state (with_map m (state w)) w)) /\ is_map m (fupd f i (Z.lor (f i) v)).
Proof.
  intros H Hi. destruct (set_cell_run w f i (Z.lor (f i) v) H Hi) as (m & Hm & Hf). exists m. split; [|done].
  intros fuel. unfold set_flag, mbind, prog_bind. rewrite (cell_run _ f) by done. apply Hm.
Qed.

Lemma clear_flag_run w f i v : is_map (map_ (state w)) f -> 0 <= i < 1024 ->
  exists m, (forall fuel, clear_flag i v fuel w = Ok tt (with_state (with_map m (state w)) w)) /\ is_map m (fupd f i (Z.ldiff (f i) v)).
Proof.
  intros H Hi. destruct (set_cell_run w f i (Z.ldiff (f i) v) H Hi) as (m & Hm & Hf). exists m. split; [|done].
  intros fuel. unfold clear_flag, mbind, prog_bind. rewrite (cell_run _ f) by done. apply Hm.
Qed.

(** [state.map[player] &= ~PLAYER; state.map[p] |= PLAYER]. *)
Lemma walk_cells g w b p i : w <> p ->
  let f := fupd (cells g (Pos w b)) w (Z.ldiff (cells g (Pos w b) w) PLAYER) in
  fupd f p (Z.lor (f p) PLAYER) i = cells g (Pos p b) i.
Proof.
  intros Hne f. unfold f, fupd, cells. cbn [who boxes]. destruct (Z.eqb_spec i p) as [->|Hp].
  - destruct (Z.eqb_spec p w); [congruence|]. rewrite lor_player. by rewrite (bool_decide_true (p = p)).
  - destruct (Z.eqb_spec i w) as [->|Hw].
    + rewrite ldiff_player. by rewrite (bool_decide_false (w = p)).
    + by rewrite (bool_decide_false (i = w)), (bool_decide_false (i = p)).
Qed.

(** [state.map[p] &= ~BOX; state.map[j] |= BOX]. *)
Lemma push_cells g w b p j f : p <> j -> (forall i, 0 <= i < 1024 -> f i = cells g (Pos w b) i) -> 0 <= p < 1024 -> 0 <= j < 1024 ->
  let f' := fupd f p (Z.ldiff (f p) BOX) in
  forall i, 0 <= i < 1024 -> fupd f' j (Z.lor (f' j) BOX) i = cells g (Pos w ({[j]} ∪ b ∖ {[p]})) i.
Proof.
  intros Hne E Hp Hj f' i Hi. unfold f', fupd. destruct (Z.eqb_spec i j) as [->|Hij].
  - destruct (Z.eqb_spec j p); [congruence|]. rewrite E by done. unfold cells. cbn [who boxes]. rewrite lor_box. f_equal.
    symmetry. apply bool_decide_eq_true. set_solver.
  - destruct (Z.eqb_spec i p) as [->|Hip]; rewrite E by done; unfold cells; cbn [who boxes].
    + rewrite ldiff_box. f_equal. symmetry. apply bool_decide_eq_false. set_solver.
    + f_equal. apply bool_decide_ext. set_solver.
Qed.

(** [if (state.map[i] & GOAL) state.storecount += n]. *)
Lemma goal_run w g s i n fuel : (if has (cells g s i) GOAL then change (fun s => with_storecount (storecount s + n) s) else mret tt) fuel w =
  Ok tt (with_state (with_storecount (storecount (state w) + (if goal g i then n else 0)) (state w)) w).
Proof.
  unfold cells. rewrite has_goal. unfold goal.
  destruct (Z.testbit (base g i) 0); [done|]. destruct w as [gs sk ms mc rc mp st ks ev cs cg um], st. cbn. by rewrite Z.add_0_r.
Qed.

(** ** A move *)

(** The world after the move [m] that was legal. *)
Definition after_move (g : gamesetup) (w : world) (s : pos) (d : Z) (w' : world) : Prop :=
  let st := state w in let m := Dyx d (pushes s d) in
  exists u m' ms, list_ok u /\ used u = used (undo st) ++ [m] /\ shows_map g m' (moved s d) /\ recorded w m ms /\
  w' = World (games w) (stack w) ms (macro w) (recording w) (macroplay w)
    (Gamestate (game st) (level st) (who (moved s d)) (stored g (moved s d)) (movecount st + 1) (pushcount st + if pushes s d then 1 else 0)
      u (redo st) m') (keys w) (events w) (currentseries w) (currentgame w) (usemoves w).

Lemma domove_run g w s d : setup_ok g -> at_pos g (state w) s -> list_ok (undo (state w)) -> recorder_ok w ->
  d ∈ dirs -> legal (wall g) s d = true ->
  wp (fun _ => domove (Dyx d (pushes s d))) w (fun _ w' => after_move g w s d w').
Proof.
  intros Hg [Hw Hm Hst Hok] Hu Hrec Hd Hl. pose proof (dirs_ne _ Hd) as Hd0.
  pose proof (setup_range _ _ Hg (proj1 (po_who _ _ _ _ Hok))) as Hr.
  pose proof (moved_ok _ _ _ _ _ (su_framed _ Hg) Hd Hok Hl) as Hok'.
  destruct w as [gs sk ms mc rc mp [gm lv pl sc mv ps u r mp0] ks ev cs cg um], s as [i b]. cbn in *. subst pl sc.
  pose proof (dirs_range _ _ Hd Hr) as Hp.
  unfold domove. run. cbn [player state yx box].
  destruct (clear_flag_run (World gs sk ms mc rc mp (Gamestate gm lv i (stored g (Pos i b)) mv ps u r mp0) ks ev cs cg um) _ i PLAYER Hm ltac:(lia)) as (m1 & E1 & F1).
  run E1. clear E1. run. tidy.
  destruct (set_flag_run (World gs sk ms mc rc mp (Gamestate gm lv (i + d) (stored g (Pos i b)) mv ps u r m1) ks ev cs cg um) _ (i + d) PLAYER F1 Hp) as (m2 & E2 & F2).
  run E2. clear E2. run. tidy.
  apply (is_map_ext _ _ (cells g (Pos (i + d) b))) in F2; [|intros j _; apply walk_cells; lia].
  eapply wp_call with (P := fun _ w' => exists m', shows_map g m' (moved (Pos i b) d) /\
    w' = World gs sk ms mc rc mp (Gamestate gm lv (i + d) (stored g (moved (Pos i b) d)) (mv + 1) (ps + if pushes (Pos i b) d then 1 else 0) u r m') ks ev cs cg um).
  - destruct (pushes (Pos i b) d) eqn:Hpush.
    + pose proof (inside_step _ _ _ _ _ (su_framed _ Hg) Hd (proj1 (po_who _ _ _ _ Hok)) (proj1 (proj1 (legal_spec _ _ _) Hl))) as Hin.
      pose proof (dirs_range _ _ Hd (setup_range _ _ Hg Hin)) as Hj. cbn [who] in Hj.
      destruct (clear_flag_run (World gs sk ms mc rc mp (Gamestate gm lv (i + d) (stored g (Pos i b)) (mv + 1) ps u r m2) ks ev cs cg um) _ (i + d) BOX F2 Hp) as (m3 & E3 & F3).
      cbv iota. run E3. clear E3. tidy.
      destruct (set_flag_run (World gs sk ms mc rc mp (Gamestate gm lv (i + d) (stored g (Pos i b)) (mv + 1) ps u r m3) ks ev cs cg um) _ (i + d + d) BOX F3 Hj) as (m4 & E4 & F4).
      run E4. clear E4. tidy.
      apply (is_map_ext _ _ (cells g (moved (Pos i b) d))) in F4.
      2:{ unfold moved. rewrite Hpush. cbn [who boxes]. apply push_cells; try done; lia. }
      set (s' := moved (Pos i b) d) in *.
      eapply wp_then; [intros; eapply cell_run; [exact F4 | exact Hp]|]. eapply wp_then; [intros; apply (goal_run _ g s' (i + d) (-1))|].
      cbv beta. eapply wp_then; [intros; eapply cell_run; [exact F4 | exact Hj]|]. eapply wp_then; [intros; apply (goal_run _ g s' (i + d + d) 1)|].
      eapply wp_running; [reflexivity|]. exists m4. split; [done|]. subst s'. tidy. do 2 f_equal. rewrite (stored_moved g (Pos i b) d Hl Hpush). cbn [who].
      destruct (goal g (i + d)), (goal g (i + d + d)); lia.
    + apply wp_ret. exists m2. unfold moved. rewrite Hpush. cbn [who boxes]. split; [done|]. by rewrite Z.add_0_r.
  - intros [] w' (m' & Hm' & ->). run. tidy. destruct (add_run u (Dyx d (pushes (Pos i b) d)) Hu) as (u' & Eu & Hu' & Hused).
    run Eu. run. tidy. run. tidy. destruct rc.
    + destruct (Hrec eq_refl) as (l & Hlk & Hlok). cbn in Hlk.
      destruct (add_run l (Dyx d (pushes (Pos i b) d)) Hlok) as (l' & El & Hl' & Husedl).
      eapply wp_then with (a := l); [intros fuel; unfold get_macro, mbind, prog_bind, get_state; cbn; by rewrite Hlk|].
      run El. eapply wp_running; [reflexivity|]. exists u', m', (<[mc := l']> ms). split_and!; try done. exists l, l'. done.
    + apply wp_ret. exists u', m', ms. done.
Qed.

(** ** A step back *)

(** [ms] are the macros, and [rc] says whether one is recorded, after a step back. *)
Definition unrecorded (w : world) (ms : list dyxlist) (rc : bool) : Prop :=
  if recording w then exists l l', macros w !! macro w = Some l /\ list_ok l' /\ ms = <[macro w := l']> (macros w) /\
    (used l = [] /\ used l' = [] /\ rc = true \/ exists m, used l = used l' ++ [m] /\ rc = bool_decide (used l' <> []))
  else ms = macros w /\ rc = false.

(** The end of [undomove]. *)
Lemma unrecord_run w : recorder_ok w -> wp (fun _ =>
  w ← get_state;
  (if recording w then
     l ← get_macro (macro w);
     if count l =? 0 then mret tt else
     put_macro (macro w) (Dyxlist (allocated l) (count l - 1) (slots l));;
     if count l - 1 =? 0 then modify (with_recording false) else mret tt
   else mret tt);;
  mret true) w (fun r w' => r = true /\ exists ms rc, unrecorded w ms rc /\
    w' = World (games w) (stack w) ms (macro w) rc (macroplay w) (state w) (keys w) (events w) (currentseries w) (currentgame w) (usemoves w)).
Proof.
  intros Hrec. destruct w as [gs sk ms mc rc mp st ks ev cs cg um]. run. tidy. destruct rc; cbv iota.
  - destruct (Hrec eq_refl) as (l & Hlk & Hlok). cbn in Hlk.
    eapply wp_call with (P := fun _ w' => exists ms' rc', unrecorded (World gs sk ms mc true mp st ks ev cs cg um) ms' rc' /\ w' = World gs sk ms' mc rc' mp st ks ev cs cg um).
    2:{ intros [] w' (ms' & rc' & H1 & ->). apply wp_ret. split; [done|]. by exists ms', rc'. }
    eapply wp_then with (a := l); [intros fuel; unfold get_macro, mbind, prog_bind, get_state; cbn; by rewrite Hlk|].
    destruct (count l =? 0) eqn:E.
    + apply wp_ret. exists ms, true. split; [|done]. exists l, l. cbn. rewrite list_insert_id by done. apply Z.eqb_eq, (used_nil _ Hlok) in E. auto 10.
    + destruct (count_cases _ Hlok E) as (l0 & m & E2). destruct (shorter_ok _ _ _ Hlok E2) as [H1 H2]. run. tidy.
      set (l' := Dyxlist (allocated l) (count l - 1) (slots l)) in *.
      exists 0%nat, tt. exists (World gs sk (<[mc := l']> ms) mc (negb (count l - 1 =? 0)) mp st ks ev cs cg um).
      split; [intros; by destruct (count l - 1 =? 0)|]. eexists _, _. split; [|done]. exists l, l'. cbn [macros macro]. split_and!; try done.
      right. exists m. rewrite H2. split; [done|]. change (count l - 1) with (count l'). destruct (Z.eqb_spec (count l') 0) as [E3|E3].
      * apply (used_nil _ H1) in E3. symmetry. apply bool_decide_eq_false. rewrite <- H2. tauto.
      * symmetry. apply bool_decide_eq_true. rewrite <- H2. by rewrite <- (used_nil _ H1).
  - run. apply wp_ret. split; [done|]. by exists ms, false.
Qed.

(** The world after [undomove] has taken back the move [d] from [s]. *)
Definition after_undo (g : gamesetup) (w : world) (s : pos) (d : Z) (w' : world) : Prop :=
  let st := state w in let m := Dyx d (pushes s d) in
  exists u r m' ms rc, list_ok u /\ used (undo st) = used u ++ [m] /\ list_ok r /\ used r = used (redo st) ++ [m] /\
  shows_map g m' s /\ unrecorded w ms rc /\
  w' = World (games w) (stack w) ms (macro w) rc (macroplay w)
    (Gamestate (game st) (level st) (who s) (stored g s) (movecount st - 1) (pushcount st - if pushes s d then 1 else 0)
      u r m') (keys w) (events w) (currentseries w) (currentgame w) (usemoves w).

Lemma undomove_none w fuel : count (undo (state w)) = 0 -> undomove fuel w = Ok false w.
Proof. intros H. unfold undomove, get_game, mbind, prog_bind, get_state. cbn. by rewrite H. Qed.

Lemma undomove_run g w s d l0 : setup_ok g -> at_pos g (state w) (moved s d) -> pos_ok (wall g) (xsize g) (ysize g) s ->
  list_ok (undo (state w)) -> list_ok (redo (state w)) -> recorder_ok w ->
  d ∈ dirs -> legal (wall g) s d = true -> used (undo (state w)) = l0 ++ [Dyx d (pushes s d)] ->
  wp (fun _ => undomove) w (fun r w' => r = true /\ after_undo g w s d w').
Proof.
  intros Hg [Hw Hm Hst Hok'] Hok Hu Hr Hrec Hd Hl Hused. pose proof (dirs_ne _ Hd) as Hd0.
  pose proof (setup_range _ _ Hg (proj1 (po_who _ _ _ _ Hok))) as Hrg.
  pose proof (unmoved_moved _ _ _ Hl) as Hun.
  destruct w as [gs sk ms mc rc mp [gm lv pl sc mv ps u r mp0] ks ev cs cg um], s as [i b]. cbn in Hw, Hm, Hst, Hu, Hr, Hrec, Hused, Hrg. subst pl sc.
  pose proof (dirs_range _ _ Hd Hrg) as Hp.
  destruct (shorter_ok _ _ _ Hu Hused) as [Hu' Hused'].
  unfold undomove. run. tidy. assert ((count u =? 0) = false) as ->.
  { apply Z.eqb_neq. intros E%(used_nil _ Hu). rewrite E in Hused. by destruct l0. }
  run. tidy. eapply wp_yields.
  { intros fuel. apply (slot_yields (w := World gs sk ms mc rc mp (Gamestate gm lv (i + d) (stored g (moved (Pos i b) d)) mv ps _ r mp0) ks ev cs cg um) u l0 _ Hu Hused fuel). }
  destruct (add_run r (Dyx d (pushes (Pos i b) d)) Hr) as (r' & Er & Hr' & Husedr). run Er. run. tidy.
  set (u1 := Dyxlist (allocated u) (count u - 1) (slots u)) in *.
  eapply wp_call with (P := fun _ w' => exists m', shows_map g m' (Pos (i + d) b) /\
    w' = World gs sk ms mc rc mp (Gamestate gm lv (i + d) (stored g (Pos i b)) mv (ps - if pushes (Pos i b) d then 1 else 0) u1 r' m') ks ev cs cg um).
  - destruct (pushes (Pos i b) d) eqn:Hpush; cbv iota.
    + pose proof (inside_step _ _ _ _ _ (su_framed _ Hg) Hd (proj1 (po_who _ _ _ _ Hok)) (proj1 (proj1 (legal_spec _ _ _) Hl))) as Hin.
      pose proof (dirs_range _ _ Hd (setup_range _ _ Hg Hin)) as Hj. cbn [who] in Hj.
      destruct (clear_flag_run (World gs sk ms mc rc mp (Gamestate gm lv (i + d) (stored g (moved (Pos i b) d)) mv ps u1 r' mp0) ks ev cs cg um) _ (i + d + d) BOX Hm Hj) as (m3 & E3 & F3).
      run E3. clear E3. tidy.
      destruct (set_flag_run (World gs sk ms mc rc mp (Gamestate gm lv (i + d) (stored g (moved (Pos i b) d)) mv ps u1 r' m3) ks ev cs cg um) _ (i + d) BOX F3 Hp) as (m4 & E4 & F4).
      run E4. clear E4. tidy.
      set (s' := Pos (i + d) b) in *.
      apply (is_map_ext _ _ (cells g s')) in F4.
      2:{ unfold unmoved, moved in *. rewrite Hpush in *. cbn [who boxes yx box] in *. injection Hun as _ Hun. subst s'. intros k Hk. etrans; [apply (push_cells g (i + d) ({[i + d + d]} ∪ b ∖ {[i + d]})); try done; lia|]. by rewrite Hun. }
      eapply wp_then; [intros; eapply cell_run; [exact F4 | exact Hj]|]. eapply wp_then; [intros; apply (goal_run _ g s' (i + d + d) (-1))|].
      cbv beta. eapply wp_then; [intros; eapply cell_run; [exact F4 | exact Hp]|]. eapply wp_then; [intros; apply (goal_run _ g s' (i + d) 1)|].
      eapply wp_running; [reflexivity|]. exists m4. split; [done|]. subst s'. tidy. do 2 f_equal. rewrite (stored_moved g (Pos i b) d Hl Hpush). cbn [who].
      destruct (goal g (i + d)), (goal g (i + d + d)); lia.
    + apply wp_ret. exists mp0. unfold moved in *. rewrite Hpush in *. cbn [who boxes] in *. split; [done|]. by rewrite Z.sub_0_r.
  - intros [] w' (m' & Hm' & ->). tidy.
    destruct (clear_flag_run (World gs sk ms mc rc mp (Gamestate gm lv (i + d) (stored g (Pos i b)) mv (ps - if pushes (Pos i b) d then 1 else 0) u1 r' m') ks ev cs cg um) _ (i + d) PLAYER Hm' Hp) as (m1 & E1 & F1).
    run E1. clear E1. run. tidy. replace (i + d - d) with i by lia.
    destruct (set_flag_run (World gs sk ms mc rc mp (Gamestate gm lv i (stored g (Pos i b)) mv (ps - if pushes (Pos i b) d then 1 else 0) u1 r' m1) ks ev cs cg um) _ i PLAYER F1 ltac:(lia)) as (m2 & E2 & F2).
    run E2. clear E2. run. tidy.
    apply (is_map_ext _ _ (cells g (Pos i b))) in F2; [|intros j _; apply walk_cells; lia].
    eapply wp_mono; [apply unrecord_run; done|]. intros rr w' (-> & ms' & rc' & Hms & ->). split; [done|].
    exists u1, r', m2, ms', rc'. rewrite Hused'. done.
Qed.
End play.

(** ** Moving, undoing and redoing follow the rules *)

(** ** What moves leave alone *)

Definition macro_ok (l : dyxlist) : Prop := list_ok0 l /\ forall m, m ∈ used l -> yx m ∈ dirs.
Definition macros_ok (ms : list dyxlist) : Prop := length ms = 1024%nat /\ Forall macro_ok ms.

(** The parts of the world that moves do not touch, and the macros. *)
Record keeps (w w' : world) : Prop := Keeps {
  ke_games : games w' = games w;
  ke_stack : stack w' = stack w;
  ke_macro : macro w' = macro w;
  ke_macroplay : macroplay w' = macroplay w;
  ke_keys : keys w' = keys w;
  ke_events : events w' = events w;
  ke_series : currentseries w' = currentseries w;
  ke_current : currentgame w' = currentgame w;
  ke_usemoves : usemoves w' = usemoves w;
  ke_game : game (state w') = game (state w);
  ke_level : level (state w') = level (state w);
  ke_macros : macros_ok (macros w) -> macros_ok (macros w');
  ke_recorder : recorder_ok w -> recorder_ok w';
  ke_idle : recording w = false -> recording w' = false /\ macros w' = macros w
}.

#[export] Instance keeps_refl : Reflexive keeps.
Proof. by intros w. Qed.
#[export] Instance keeps_trans : Transitive keeps.
Proof.
  intros w1 w2 w3 [] []. split; try congruence; auto. intros H. destruct (ke_idle0 H) as [H1 H2]. destruct (ke_idle1 H1) as [H3 H4]. by rewrite H4.
Qed.

Lemma macro_ok_list l : macro_ok l -> list_ok0 l.
Proof. by intros []. Qed.

Lemma macros_insert ms i l l' : macros_ok ms -> ms !! i = Some l -> macro_ok l' -> macros_ok (<[i := l']> ms).
Proof. intros [H1 H2] Hi Hl. split; [by rewrite length_insert|]. by apply Forall_insert. Qed.

Lemma macros_lookup ms i l : macros_ok ms -> ms !! i = Some l -> macro_ok l.
Proof. intros [_ H] Hi. by eapply Forall_lookup. Qed.

Lemma recorded_keeps g w s d w' : d ∈ dirs -> after_move g w s d w' -> keeps w w'.
Proof.
  intros Hd (u & m' & ms & Hu & Hused & Hm & Hms & ->). unfold recorded in Hms. split; try done.
  - cbn. intros Hok. destruct (recording w); [|by subst]. destruct Hms as (l & l' & Hlk & Hl' & Hused' & ->). eapply macros_insert; [done | done |].
    split; [by left|]. rewrite Hused'. intros m. rewrite elem_of_app, list_elem_of_singleton. intros [Hin| ->]; [|done].
    by apply (macros_lookup _ _ _ Hok Hlk).
  - intros Hrec Hr. cbn in *. rewrite Hr in Hms. destruct Hms as (l & l' & Hlk & Hl' & _ & ->). exists l'. split; [|done].
    apply list_lookup_insert_eq. by eapply lookup_lt_Some.
  - intros Hr. rewrite Hr in *. by subst.
Qed.

Lemma unrecorded_keeps g w s d w' : after_undo g w s d w' -> keeps w w'.
Proof.
  intros (u & r & m' & ms & rc & Hu & Hused & Hr & Husedr & Hm & Hms & ->). unfold unrecorded in Hms. split; try done.
  - cbn. intros Hok. destruct (recording w); [|by destruct Hms; subst]. destruct Hms as (l & l' & Hlk & Hl' & -> & Hc). eapply macros_insert; [done | done |].
    split; [by left|]. intros m Hin. destruct Hc as [(E1 & E2 & _)|(m0 & E & _)]; [by rewrite E2, elem_of_nil in Hin|].
    apply (macros_lookup _ _ _ Hok Hlk). rewrite E, elem_of_app. by left.
  - intros Hrec Hr'. cbn in *. subst rc. destruct (recording w); [|by destruct Hms]. destruct Hms as (l & l' & Hlk & Hl' & -> & _). exists l'. split; [|done].
    apply list_lookup_insert_eq. by eapply lookup_lt_Some.
  - intros Hr'. rewrite Hr' in *. by destruct Hms; subst.
Qed.

Lemma with_redo_id st : with_redo (redo st) st = st.
Proof. by destruct st. Qed.

Section move.
Context {MEM : memory} (g : gamesetup) (Hg : setup_ok g).

(** The state after a move, if the redo list [r] leads on from there. *)
Lemma played_move w r0 s d w' : played g (with_redo r0 (state w)) s -> d ∈ dirs -> legal (wall g) s d = true -> after_move g w s d w' ->
  forall r, list_ok r -> (exists s', plays (wall g) (moved s d) (rev (used r)) s') ->
  played g (with_redo r (state w')) (moved s d).
Proof.
  intros [[_ _ _ Hok] Hu Hr Hfrom _ Hmv Hps] Hd Hl (u & m' & ms & Hu' & Hused & Hm & _ & ->) r Hr' Hto. cbn in Hu, Hfrom, Hmv, Hps |- *.
  split; cbn; try done.
  - split; cbn; try done. by apply (moved_ok _ _ _ _ _ (su_framed _ Hg)).
  - rewrite Hused. by eapply plays_snoc.
  - rewrite Hused, length_app, Hmv. cbn. lia.
  - rewrite Hused, pushes_in_snoc, Hps. done.
Qed.

(** [undomove] goes back to the position before the last move. *)
Lemma undomove_spec w s : played g (state w) s -> recorder_ok w ->
  wp (fun _ => undomove) w (fun r w' => keeps w w' /\
    ((used (undo (state w)) = [] /\ r = false /\ w' = w) \/
     exists s0 m, r = true /\ played g (state w') s0 /\ legal (wall g) s0 (yx m) = true /\ box m = pushes s0 (yx m) /\ moved s0 (yx m) = s /\
       used (undo (state w)) = used (undo (state w')) ++ [m] /\ used (redo (state w')) = used (redo (state w)) ++ [m])).
Proof using Hg.
  intros Hpl Hrec. destruct (Hpl) as [Hat Hu Hr Hfrom [s2 Hto] Hmv Hps].
  destruct (count (undo (state w)) =? 0) eqn:E.
  - apply Z.eqb_eq in E. eapply wp_running; [intros; by apply undomove_none|]. split; [done|]. left. by rewrite <- (used_nil _ Hu).
  - destruct (count_cases _ Hu E) as (l0 & m & E2). rewrite E2 in Hfrom.
    destruct (plays_snoc_inv _ _ _ _ _ Hfrom) as (s0 & Hs0 & Hd & Hl & Hb & ->). destruct m as [d b]. cbn in *. subst b.
    pose proof (plays_ok _ _ _ _ _ _ (su_framed _ Hg) (su_start _ Hg) Hs0) as Hok0.
    eapply wp_mono; [by eapply undomove_run|]. intros r w' [-> Hafter]. split; [by eapply unrecorded_keeps|]. right. exists s0, (Dyx d (pushes s0 d)).
    destruct Hafter as (u & r' & m' & ms & rc & Hu' & Hused & Hr' & Husedr & Hm & _ & ->). cbn. split_and!; try done.
    assert (used u = l0) as E3 by (by rewrite Hused in E2; apply app_inj_tail in E2 as [-> _]).
    split; cbn; try done.
    + by rewrite E3.
    + exists s2. rewrite Husedr, rev_app_distr. cbn. by constructor.
    + rewrite Hmv, Hused, length_app. cbn. lia.
    + rewrite Hps, Hused, pushes_in_snoc. cbn. lia.
Qed.

(** [redomove] takes back what [undomove] did last. *)
Lemma redomove_spec w s : played g (state w) s -> recorder_ok w ->
  wp (fun _ => redomove) w (fun r w' => keeps w w' /\
    ((used (redo (state w)) = [] /\ r = false /\ w' = w) \/
     exists m, r = true /\ yx m ∈ dirs /\ legal (wall g) s (yx m) = true /\ box m = pushes s (yx m) /\ played g (state w') (moved s (yx m)) /\
       used (redo (state w)) = used (redo (state w')) ++ [m] /\ used (undo (state w')) = used (undo (state w)) ++ [m])).
Proof using Hg.
  intros Hpl Hrec. destruct (Hpl) as [Hat Hu Hr Hfrom [s2 Hto] Hmv Hps]. unfold redomove. run. cbv beta.
  destruct (count (redo (state w)) =? 0) eqn:E.
  - apply wp_ret. split; [done|]. left. apply Z.eqb_eq in E. by rewrite <- (used_nil _ Hr).
  - destruct (count_cases _ Hr E) as (l0 & m & E2). rewrite E2, rev_app_distr in Hto. cbn in Hto.
    destruct (plays_cons_inv _ _ _ _ _ Hto) as (Hd & Hl & Hb & Hto'). destruct m as [d b]. cbn in Hd, Hl, Hb, Hto'. subst b.
    destruct (shorter_ok _ _ _ Hr E2) as [Hr' Husedr]. set (r' := Dyxlist (allocated (redo (state w))) (count (redo (state w)) - 1) (slots (redo (state w)))) in *.
    run. cbv beta. eapply wp_yields; [intros fuel; apply (slot_yields _ _ _ Hr E2)|].
    set (w1 := with_state _ w).
    assert (at_pos g (state w1) s) as Hat1 by (destruct Hat; by split).
    eapply wp_call; [by eapply (domove_run g w1 s d)|]. cbv beta. intros [] w' Hafter. apply wp_ret.
    split; [etrans; [|by eapply recorded_keeps]; by split|]. right. exists (Dyx d (pushes s d)). cbn [yx box].
    assert (redo (state w') = r' /\ used (undo (state w')) = used (undo (state w)) ++ [Dyx d (pushes s d)]) as [E3 E4]
      by (destruct Hafter as (u & m' & ms & Hu' & Hused & _ & _ & ->); done).
    split_and!; try done; [|by rewrite E3, Husedr].
    rewrite <- (with_redo_id (state w')), E3. eapply (played_move _ (redo (state w))); try done.
    + destruct w as [? ? ? ? ? ? [] ? ? ? ? ?]. done.
    + exists s2. by rewrite Husedr.
Qed.

(** ** newmove *)

(** The step back is the same as a step into the other direction, when nothing was pushed. *)
Lemma back_step w s m : played g (state w) s -> forall l0, used (undo (state w)) = l0 ++ [m] -> box m = false ->
  exists s0, moved s0 (yx m) = s /\ legal (wall g) s0 (yx m) = true /\ pushes s0 (yx m) = false /\ legal (wall g) s (- yx m) = true /\ moved s (- yx m) = s0.
Proof using Hg.
  intros [_ _ _ Hfrom _ _ _] l0 E Hb. rewrite E in Hfrom. destruct (plays_snoc_inv _ _ _ _ _ Hfrom) as (s0 & Hs0 & Hd & Hl & Hb' & ->).
  pose proof (plays_ok _ _ _ _ _ _ (su_framed _ Hg) (su_start _ Hg) Hs0) as Hok0. rewrite Hb in Hb'.
  destruct (moved_back _ _ _ _ _ Hok0 Hl (eq_sym Hb')) as (H1 & H2 & H3). by exists s0.
Qed.

Lemma cell_at w s i : at_pos g (state w) s -> 0 <= i < 1024 -> forall fuel, cell i fuel w = Ok (cells g s i) w.
Proof. intros [_ Hm _ _] Hi. by apply cell_run. Qed.

(** A new step: it is made when the rules allow it, whatever the lists of moves are. *)
Lemma newmove_spec w s d : played g (state w) s -> recorder_ok w -> d ∈ dirs ->
  wp (fun _ => newmove d) w (fun r w' => r = legal (wall g) s d /\ keeps w w' /\
    if r then played g (state w') (moved s d) else w' = w).
Proof using Hg.
  intros Hpl Hrec Hd. destruct (Hpl) as [Hat Hu Hr Hfrom [s2 Hto] Hmv Hps]. pose proof (ap_who _ _ _ Hat) as Hwho. pose proof (ap_ok _ _ _ Hat) as Hok.
  pose proof (dirs_range _ _ Hd (setup_range _ _ Hg (proj1 (po_who _ _ _ _ Hok)))) as Hj.
  unfold newmove. run. cbv beta. rewrite Hwho. eapply wp_then; [intros; by apply (cell_at w s)|]. unfold cells at 1. rewrite has_wall.
  destruct (Z.testbit (base g (who s + d)) 3) eqn:Hwall.
  { apply wp_ret. split; [|done]. unfold legal, wall. by rewrite Hwall. }
  pose proof (inside_step _ _ _ _ _ (su_framed _ Hg) Hd (proj1 (po_who _ _ _ _ Hok)) Hwall) as Hin.
  pose proof (dirs_range _ _ Hd (setup_range _ _ Hg Hin)) as Hj2.
  set (back := match rev (used (undo (state w))) with m :: _ => negb (box m) && (yx m =? - d) | [] => false end).
  eapply wp_yields with (v := back).
  { intros fuel. subst back. destruct (count (undo (state w)) =? 0) eqn:E.
    - apply Z.eqb_eq, (used_nil _ Hu) in E. by rewrite E.
    - destruct (count_cases _ Hu E) as (l0 & m & E2). rewrite E2, rev_app_distr. cbn [rev app]. unfold mbind, prog_bind. by rewrite (slot_yields _ _ _ Hu E2). }
  destruct back eqn:Hback.
  { subst back. destruct (used (undo (state w))) as [|m l0 _] eqn:E using rev_ind; [done|]. rewrite rev_app_distr in Hback. cbn in Hback.
    apply andb_true_iff in Hback as [Hb Hyx]. apply negb_true_iff in Hb. apply Z.eqb_eq in Hyx.
    destruct (back_step w s m Hpl l0 E Hb) as (s0 & H1 & H2 & H5 & H3 & H4). rewrite Hyx, Z.opp_involutive in H3, H4.
    eapply wp_mono; [by apply (undomove_spec w s)|]. intros r w' [Hk [(E2 & _)|(s0' & m' & -> & Hpl' & Hl' & Hb' & Hs' & Hused & _)]]; [by rewrite E in E2; destruct l0|].
    split; [done|]. split; [done|]. rewrite E in Hused. apply app_inj_tail in Hused as [_ <-].
    assert (s0' = s0) as ->; [|by rewrite H4].
    apply (moved_inj (wall g) _ _ (yx m)); congruence. }
  assert (has (cells g s (who s + d)) BOX = pushes s d) as Hbox by apply has_box.
  eapply wp_then; [intros; by apply (cell_at w s)|].
  set (blocked := pushes s d && (bool_decide (who s + d + d ∈ boxes s) || wall g (who s + d + d))).
  eapply wp_yields with (v := blocked).
  { intros fuel. rewrite Hbox. subst blocked. destruct (pushes s d); [|done]. unfold mbind, prog_bind. rewrite (cell_at w s) by done. unfold cells. by rewrite has_block. }
  assert (legal (wall g) s d = negb blocked) as Hlegal.
  { unfold legal. replace (wall g (who s + d)) with false by done. subst blocked. destruct (pushes s d); [|done].
    destruct (wall g (who s + d + d)); rewrite ?orb_true_r, ?orb_false_r; [done|]. cbn. by rewrite bool_decide_not. }
  destruct blocked; [by apply wp_ret|]. cbn [negb] in Hlegal. rewrite Hlegal.
  set (again := match rev (used (redo (state w))) with m :: _ => Bool.eqb (box m) (pushes s d) && (yx m =? d) | [] => false end).
  eapply wp_yields with (v := again).
  { intros fuel. rewrite Hbox. subst again. destruct (count (redo (state w)) =? 0) eqn:E.
    - apply Z.eqb_eq, (used_nil _ Hr) in E. by rewrite E.
    - destruct (count_cases _ Hr E) as (l0 & m & E2). rewrite E2, rev_app_distr. cbn [rev app]. unfold mbind, prog_bind. by rewrite (slot_yields _ _ _ Hr E2). }
  destruct again eqn:Hagain.
  - subst again. destruct (used (redo (state w))) as [|m l0 _] eqn:E using rev_ind; [done|]. rewrite rev_app_distr in Hagain. cbn in Hagain.
    apply andb_true_iff in Hagain as [Hb Hyx]. apply Z.eqb_eq in Hyx.
    eapply wp_mono; [by apply (redomove_spec w s)|]. intros r w' [Hk [(E2 & _)|(m' & -> & _ & _ & _ & Hpl' & Hused & _)]]; [by rewrite E in E2; destruct l0|].
    split; [done|]. split; [done|]. rewrite E in Hused. apply app_inj_tail in Hused as [_ <-]. by rewrite <- Hyx.
  - rewrite Hbox. eapply wp_call; [by eapply (domove_run g w s d)|]. cbv beta. intros [] w' Hafter. run. apply wp_ret. split; [done|].
    assert (redo (state w') = redo (state w)) as Hredo by (by destruct Hafter as (u & m' & ms & _ & _ & _ & _ & ->)).
    destruct (empty_ok _ Hr) as [He Hused0]. split.
    + etrans; [by eapply recorded_keeps|]. by split.
    + cbn [state with_state]. rewrite Hredo. eapply (played_move w (redo (state w))); try done; [by rewrite with_redo_id|].
      exists (moved s d). rewrite Hused0. constructor.
Qed.
End move.
