(* ===== verification/SokAnswers.v ===== *)
(** * Csokoban: files of solutions (answers.c, and getnline of fileread.c)

    A stream that is read is the bytes from the current position on, and whether its end was met. *)

From Stdlib Require Import ZArith Lia.
From stdpp Require Import base numbers list strings.
From S2P Require Import Prelude SokGame.

Open Scope Z_scope.

Record stream : Type := Stream { bytes : list Z; at_eof : bool }.

Abbreviation R := (prog stream).

Definition EOF : Z := -1.
Definition newline : Z := 10.

(** ** The C library *)

Definition fgetc : R Z :=
  f ← get_state;
  match bytes f with [] => set_state (Stream [] true);; mret EOF | c :: l => set_state (Stream l (at_eof f));; mret c end.

(** [fgets] of at most [n] bytes, through the first newline; and [strlen]. *)
Fixpoint fgets (n : nat) : R (list Z) :=
  match n with
  | O => mret []
  | S n =>
      c ← fgetc;
      if c =? EOF then mret [] else if c =? newline then mret [c] else l ← fgets n; mret (c :: l)
  end.
Fixpoint strlen (l : list Z) : Z := match l with [] => 0 | c :: l => if c =? 0 then 0 else 1 + strlen l end.

Definition isspace (c : Z) : bool := (c =? 32) || ((9 <=? c) && (c <=? 13)).
Definition isdigit (c : Z) : bool := (48 <=? c) && (c <=? 57).

Fixpoint skip_space (l : list Z) : list Z := match l with c :: l' => if isspace c then skip_space l' else l | [] => [] end.
Fixpoint scan_digits (acc : Z) (l : list Z) : Z * list Z :=
  match l with c :: l' => if isdigit c then scan_digits (acc * 10 + (c - 48)) l' else (acc, l) | [] => (acc, []) end.

(** [%d]: blanks, a sign, digits; a long that is too large is clamped, and cut to an int. *)
Definition scan_int (l : list Z) : option (Z * list Z) :=
  let l := skip_space l in
  let '(sg, l) := match l with c :: l' => if c =? 45 then (-1, l') else if c =? 43 then (1, l') else (1, l) | [] => (1, []) end in
  match l with
  | c :: _ => if isdigit c then let '(n, l) := scan_digits 0 l in
      Some (wrap32 (Z.max (-9223372036854775808) (Z.min (sg * n) 9223372036854775807)), l) else None
  | [] => None
  end.

(** Text that has to be there. *)
Fixpoint scan_text (t l : list Z) : option (list Z) :=
  match t, l with
  | [], _ => Some l
  | a :: t, b :: l => if a =? b then scan_text t l else None
  | _, [] => None
  end.

Definition moves_text : list Z := [109; 111; 118; 101; 115; 44].
Definition pushes_text : list Z := [112; 117; 115; 104; 101; 115].

(** [sscanf(buf, "%d moves, %d pushes", &n, &m)], when it gives 2. *)
Definition scan_counts (buf : list Z) : option (Z * Z) :=
  n ← scan_int buf;
  l ← scan_text moves_text (skip_space n.2);
  m ← scan_int (skip_space l);
  Some (n.1, m.1).

(** [%d] of printf. *)
Fixpoint digits_of (k : nat) (n : Z) (l : list Z) : list Z :=
  match k with
  | O => l
  | S k => if n <? 10 then (48 + n) :: l else digits_of k (n / 10) ((48 + n mod 10) :: l)
  end.
Definition print_int (n : Z) : list Z :=
  if n <? 0 then 45 :: digits_of (Z.to_nat (- n)) (- n) [] else digits_of (S (Z.to_nat n)) n [].

(** ** getnline *)

Fixpoint rest_of_line (k : nat) : R unit :=
  match k with
  | O => fail Out_of_fuel
  | S k => ch ← fgetc; if (ch =? EOF) || (ch =? newline) then mret tt else rest_of_line k
  end.

(** The buffer, whose byte [n] is the terminating zero of [fgets], and what is returned. *)
Definition getnline (len : Z) : R (list Z * Z) :=
  f ← get_state;
  match bytes f with
  | [] => fgetc;; mret ([], -1)
  | _ =>
      buf ← fgets (Z.to_nat (len - 1));
      let n := strlen buf in
      if (n =? len - 1) && negb (nth (Z.to_nat n) buf 0 =? newline) then with_fuel rest_of_line;; mret (buf, n)
      else mret (buf, n - 1)
  end.

(** ** Reading *)

Section answers.
Context {MEM : memory}.

(** The move that a character stands for; another character stands for the move before. *)
Definition letter (ch : Z) (move : dyx) : dyx :=
  if ch =? 104 then Dyx (-1) false else if ch =? 106 then Dyx XSIZE false
  else if ch =? 107 then Dyx (- XSIZE) false else if ch =? 108 then Dyx 1 false
  else if ch =? 72 then Dyx (-1) true else if ch =? 74 then Dyx XSIZE true
  else if ch =? 75 then Dyx (- XSIZE) true else if ch =? 76 then Dyx 1 true else move.

(** The first loop: the moves, how many are missing, and the last character. *)
Fixpoint letters_loop (k : nat) (moves : dyxlist) (movecount ch : Z) (move : dyx) : R (dyxlist * Z * Z) :=
  match k with
  | O => fail Out_of_fuel
  | S k =>
      if movecount =? 0 then mret (moves, movecount, ch) else
      ch ← fgetc;
      if ch =? EOF then mret (moves, movecount, ch) else
      if isspace ch then letters_loop k moves movecount ch move else
      let move := letter ch move in
      moves ← set_slot moves (movecount - 1) move;
      letters_loop k moves (movecount - 1) ch move
  end.

(** The rest of the line: whether it has no dot. *)
Fixpoint dots_loop (k : nat) (ch : Z) (r : bool) : R bool :=
  match k with
  | O => fail Out_of_fuel
  | S k =>
      if (ch =? EOF) || (ch =? newline) then mret r else
      let r := if ch =? 46 then false else r in
      ch ← fgetc; dots_loop k ch r
  end.

Definition readanswer (moves : dyxlist) (movecount : Z) : R (bool * dyxlist) :=
  moves ← setmovelist moves movecount;
  x ← with_fuel (fun k => letters_loop k moves movecount EOF (Dyx 0 false));
  let '(moves, movecount, ch) := x in
  r ← with_fuel (fun k => dots_loop k ch true);
  if negb (movecount =? 0) then mret (false, initmovelist moves) else mret (r, moves).

(** The first line that is no comment and not blank. *)
Fixpoint header_loop (k : nat) : R (option (list Z)) :=
  match k with
  | O => fail Out_of_fuel
  | S k =>
      x ← getnline 256;
      let '(buf, n) := x in
      if n <? 0 then mret None
      else let c := nth 0 buf 0 in if negb (c =? newline) && negb (c =? 59) then mret (Some buf) else header_loop k
  end.

Definition with_answers (mb mbp pb pbm : Z) (m p : dyxlist) (g : gamesetup) : gamesetup :=
  Gamesetup (ysize g) (xsize g) (boxcount g) (goalcount g) (setup_storecount g) (start g) mb pb mbp pbm m p (game_name g) (setup_map g).

(** A null [fp] is [None]: [readanswers] is then only the two calls of initmovelist. *)
Definition no_answers (g : gamesetup) : gamesetup :=
  with_answers (movebestcount g) (movebestpushcount g) (pushbestcount g) (pushbestmovecount g) (initmovelist (moveanswer g)) (initmovelist (pushanswer g)) g.

Definition readanswers (g : gamesetup) : R (bool * gamesetup) :=
  let g := no_answers g in
  b ← with_fuel header_loop;
  match b with
  | None => mret (false, g)
  | Some buf =>
      if nth 0 buf 0 =? 45 then mret (true, g) else
      match scan_counts buf with
      | None => mret (false, with_answers 0 0 (pushbestcount g) (pushbestmovecount g) (moveanswer g) (pushanswer g) g)
      | Some (n, m) =>
          x ← readanswer (moveanswer g) n;
          let '(ok, a) := x in
          if negb ok then mret (false, with_answers 0 0 (pushbestcount g) (pushbestmovecount g) a (pushanswer g) g) else
          y ← getnline 256;
          let '(buf, k) := y in
          z ← (if k <=? 0 then mret (None, pushanswer g) else
            match scan_counts buf with
            | None => mret (None, pushanswer g)
            | Some (n', m') => z ← readanswer (pushanswer g) n'; let '(ok, p) := z in mret (if ok : bool then Some (n', m') else None, p)
            end);
          match z with
          | (Some (n', m'), p) => mret (true, with_answers n m m' n' a p g)
          | (None, p) => p ← copymovelist p a; mret (true, with_answers n m m n a p g)
          end
      end
  end.

(** ** Writing *)

Definition upper (ch : Z) : Z := if (97 <=? ch) && (ch <=? 122) then ch - 32 else ch.

Definition move_letter (move : dyx) : Z :=
  let ch := if yx move <? 0 then (if yx move =? -1 then 104 else 107) else (if yx move =? 1 then 108 else 106) in
  if box move then upper ch else ch.

(** The moves from slot [j] - 1 down, of which [i] come before. *)
Fixpoint saveanswer_loop {S} (j : nat) (i : Z) (moves : dyxlist) : prog S (list Z) :=
  match j with
  | O => mret []
  | S j =>
      move ← slot moves (Z.of_nat j);
      l ← saveanswer_loop j (i + 1) moves;
      mret ((if negb (i =? 0) && (Z.land i 63 =? 0) then [newline] else []) ++ move_letter move :: l)
  end.

Definition saveanswer {S} (moves : dyxlist) (inc : bool) : prog S (list Z) :=
  l ← saveanswer_loop (Z.to_nat (count moves)) 0 moves;
  mret (l ++ (if inc then [32; 46; 46; 46] else []) ++ [newline]).

Definition level_line (i : Z) : list Z := [59; 76; 101; 118; 101; 108; 32] ++ print_int i ++ [newline].
Definition counts_line (n m : Z) : list Z := print_int n ++ [32] ++ moves_text ++ [32] ++ print_int m ++ [32] ++ pushes_text ++ [newline].

(** What is written for one puzzle. *)
Definition saveanswers_game {S} (i : Z) (g : gamesetup) : prog S (list Z) :=
  if count (moveanswer g) =? 0 then mret (level_line (i + 1) ++ [45; 45; 45; newline]) else
  let head := level_line (i + 1) ++ counts_line (count (moveanswer g)) (movebestpushcount g) in
  if movebestcount g =? 0 then l ← saveanswer (moveanswer g) true; mret (head ++ l) else
  l ← saveanswer (moveanswer g) false;
  if negb (pushbestcount g =? movebestpushcount g) && negb (pushbestmovecount g =? movebestcount g) then
    l' ← saveanswer (pushanswer g) false;
    mret (head ++ l ++ counts_line (count (pushanswer g)) (pushbestcount g) ++ l')
  else mret (head ++ l).

Fixpoint saveanswers_loop {S} (i : Z) (gs : list gamesetup) : prog S (list Z) :=
  match gs with
  | [] => mret []
  | g :: gs => l ← saveanswers_game i g; l' ← saveanswers_loop (i + 1) gs; mret (l ++ l')
  end.

(** The puzzles of a file, [serieslist[i].games]. *)
Context {TERM : terminal}.

Definition before (i : Z) : Z := foldr Z.add 0 (take (Z.to_nat i) counts).
Definition count_of (i : Z) : Z := nth (Z.to_nat i) counts 0.
Definition games_of (i : Z) (gs : list gamesetup) : list gamesetup := take (Z.to_nat (count_of i)) (drop (Z.to_nat (before i)) gs).

(** The file can be opened and written. *)
Definition saveanswers (series : Z) : K bool :=
  if negb savedir then mret true else
  w ← get_state;
  let gs := games_of series (games w) in
  l ← saveanswers_loop 0 gs;
  let rest := match unread with
    | [] => []
    | c :: _ => (if negb (c =? 59) && negb (c =? newline) then level_line (Z.of_nat (length gs) + 1) else []) ++ unread
    end in
  say (Saved (l ++ rest));;
  mret true.
End answers.
