(* ===== verification/SokText.v ===== *)
(** * Csokoban: solutions on disk (answers.c)

    What [saveanswers] writes for a puzzle [readanswers] reads back. *)

From Stdlib Require Import ZArith Lia.
From stdpp Require Import base numbers list gmap sets fin_sets.
From S2P Require Import Prelude SokGame SokRule SokShow SokPlay SokAnswers.

Open Scope Z_scope.

(** ** Numbers *)

Definition digit (c : Z) : Prop := 48 <= c <= 57.
Definition value (ds : list Z) : Z := foldl (fun acc c => acc * 10 + (c - 48)) 0 ds.

Lemma isdigit_spec c : isdigit c = true <-> digit c.
Proof. unfold isdigit, digit. rewrite andb_true_iff, !Z.leb_le. lia. Qed.

Lemma scan_digits_app ds r : Forall digit ds -> (forall c r', r = c :: r' -> isdigit c = false) -> forall acc,
  scan_digits acc (ds ++ r) = (foldl (fun acc c => acc * 10 + (c - 48)) acc ds, r).
Proof.
  intros Hd Hr. induction Hd as [|c ds Hc Hd IH]; intros acc; cbn.
  - destruct r as [|c r']; [done|]. cbn. by rewrite (Hr c r').
  - apply isdigit_spec in Hc. rewrite Hc. apply IH.
Qed.

Lemma digits_of_spec k : forall n l, 0 <= n < Z.of_nat k -> exists ds, digits_of k n l = ds ++ l /\ Forall digit ds /\ value ds = n /\ ds <> [].
Proof.
  induction k as [|k IH]; intros n l Hn; [lia|]. cbn [digits_of]. destruct (Z.ltb_spec n 10) as [Hlt|Hge].
  - exists [48 + n]. split_and!; [done | | cbn; lia | done]. constructor; [unfold digit; lia | done].
  - destruct (IH (n / 10) ((48 + n mod 10) :: l)) as (ds & E & H1 & H2 & H3); [Z.to_euclidean_division_equations; lia|].
    exists (ds ++ [48 + n mod 10]). rewrite E, <- app_assoc. split_and!; [done | | | by destruct ds].
    + apply Forall_app. split; [done|]. constructor; [unfold digit; Z.to_euclidean_division_equations; lia | done].
    + unfold value in *. rewrite foldl_app. cbn. rewrite H2. Z.to_euclidean_division_equations. lia.
Qed.

Lemma print_int_spec n : 0 <= n -> exists ds, print_int n = ds /\ Forall digit ds /\ value ds = n /\ ds <> [].
Proof.
  intros Hn. unfold print_int. destruct (Z.ltb_spec n 0); [lia|]. destruct (digits_of_spec (S (Z.to_nat n)) n []) as (ds & E & Hds); [lia|].
  rewrite app_nil_r in E. exists ds. by split.
Qed.

Definition small (n : Z) : Prop := 0 <= n < 2147483648.

Lemma scan_print n r : small n -> (forall c r', r = c :: r' -> isdigit c = false) -> scan_int (print_int n ++ r) = Some (n, r).
Proof.
  intros [H0 H1] Hr. destruct (print_int_spec n H0) as (ds & -> & Hd & Hv & Hne). unfold scan_int.
  destruct ds as [|c ds]; [done|]. inversion Hd as [|? ? Hc Hd']; subst.
  assert (isspace c = false) as Hsp by (unfold isspace, digit in *; rewrite orb_false_iff, andb_false_iff, Z.eqb_neq, !Z.leb_gt; lia).
  cbn [skip_space app]. rewrite Hsp. destruct (Z.eqb_spec c 45); [unfold digit in Hc; lia|]. destruct (Z.eqb_spec c 43); [unfold digit in Hc; lia|].
  rewrite (proj2 (isdigit_spec c) Hc). change (c :: ds ++ r) with ((c :: ds) ++ r). rewrite scan_digits_app by done. fold (value (c :: ds)).
  rewrite Z.mul_1_l, Z.min_l, Z.max_r by lia. by rewrite wrap32_id by (unfold int32; lia).
Qed.

Lemma scan_counts_line n m : small n -> small m -> scan_counts (counts_line n m) = Some (n, m).
Proof.
  intros Hn Hm. unfold scan_counts, counts_line. rewrite scan_print by (try done; intros c r' [= <- _]; done). cbn -[scan_int print_int].
  destruct Hm as [Hm0 Hm1]. destruct (print_int_spec m Hm0) as (ds & E & Hd & Hv & Hne).
  assert (forall r, skip_space (print_int m ++ r) = print_int m ++ r) as Hskip.
  { intros r. rewrite E. destruct ds as [|c ds]; [done|]. inversion Hd as [|? ? Hc _]; subst. cbn.
    assert (isspace c = false) as -> by (unfold isspace, digit in *; rewrite orb_false_iff, andb_false_iff, Z.eqb_neq, !Z.leb_gt; lia). done. }
  rewrite Hskip. by rewrite scan_print by (try done; intros c r' [= <- _]; done).
Qed.

(** ** Moves *)

(** The text of moves in the order in which they are made, [i] have been written before. *)
Fixpoint letters (i : Z) (l : list dyx) : list Z :=
  match l with
  | [] => []
  | m :: l => (if negb (i =? 0) && (Z.land i 63 =? 0) then [newline] else []) ++ move_letter m :: letters (i + 1) l
  end.

Definition answer_text (l : list dyx) (inc : bool) : list Z := letters 0 l ++ (if inc then [32; 46; 46; 46] else []) ++ [newline].

Definition step (m : dyx) : Prop := yx m ∈ dirs.

Lemma step_cases m : step m -> yx m = 1 \/ yx m = -1 \/ yx m = 32 \/ yx m = -32.
Proof. unfold step, dirs. rewrite !elem_of_cons, elem_of_nil. lia. Qed.

Lemma letter_spec m mv : step m -> letter (move_letter m) mv = m /\ isspace (move_letter m) = false /\ 65 <= move_letter m <= 122.
Proof. intros H%step_cases. destruct m as [d b]. cbn in H. destruct H as [->|[->|[->| ->]]], b; done. Qed.

Section text.
Context {MEM : memory}.

Lemma saveanswer_loop_yields {S} (w : S) l j : list_ok l -> (j <= length (used l))%nat -> forall i, 
  yields (saveanswer_loop j i l) w (letters i (rev (take j (used l)))).
Proof.
  intros Hl. induction j as [|j IH]; intros Hj i fuel; [done|].
  destruct (lookup_lt_is_Some_2 (used l) j ltac:(lia)) as [m Hm].
  assert (slots l !! j = Some m) as Hsl by (unfold used in Hm; rewrite lookup_take in Hm; by case_decide).
  cbn [saveanswer_loop]. unfold mbind, prog_bind, slot. destruct (Z.ltb_spec (Z.of_nat j) 0); [lia|]. rewrite Nat2Z.id, Hsl.
  rewrite (take_S_r _ _ m Hm), rev_app_distr. cbn [rev app letters]. unfold mret, prog_ret. rewrite (IH ltac:(lia) (i + 1) fuel). done.
Qed.

Lemma saveanswer_yields {S} (w : S) l inc : list_ok l -> yields (saveanswer l inc) w (answer_text (rev (used l)) inc).
Proof.
  intros Hl fuel. unfold saveanswer, mbind, prog_bind. pose proof (used_length _ Hl) as Hlen.
  rewrite (saveanswer_loop_yields w l (Z.to_nat (count l)) Hl ltac:(lia)). rewrite take_ge by lia. done.
Qed.

Lemma fgetc_run c l e : forall fuel, fgetc fuel (Stream (c :: l) e) = Ok c (Stream l e).
Proof using Type. done. Qed.

Lemma set_slot_run {S} (w : S) l i m : 0 <= i < Z.of_nat (length (slots l)) ->
  yields (set_slot l i m) w (Dyxlist (allocated l) (count l) (<[Z.to_nat i := m]> (slots l))).
Proof using Type. intros Hi fuel. unfold set_slot. destruct (Z.leb_spec 0 i), (Z.ltb_spec i (Z.of_nat (length (slots l)))); [done | lia..]. Qed.

(** The first loop of [readanswer] reads the moves. *)
Lemma letters_read ms e : Forall step ms -> forall i moves ch0 mv0 rest, (length ms <= length (slots moves))%nat -> (ms = [] -> ch0 <> 0) ->
  wp (fun k => letters_loop k moves (Z.of_nat (length ms)) ch0 mv0) (Stream (letters i ms ++ rest) e) (fun x s' => s' = Stream rest e /\
    exists ch, x = (Dyxlist (allocated moves) (count moves) (rev ms ++ drop (length ms) (slots moves)), 0, ch) /\ (ms = [] -> ch = ch0) /\ (ms <> [] -> 65 <= ch <= 122)).
Proof using Type.
  intros Hms. induction Hms as [|m ms Hm Hms IH]; intros i moves ch0 mv0 rest Hlen Hch.
  - eapply wp_unfold; [intros k; reflexivity|]. apply wp_ret. split; [done|]. exists ch0. split; [by destruct moves|]. done.
  - destruct (letter_spec m mv0 Hm) as (E1 & E2 & E3). cbn [length] in *.
    assert (forall mv' ch', wp (fun k => letters_loop k moves (Z.of_nat (S (length ms))) ch' mv') (Stream (move_letter m :: letters (i + 1) ms ++ rest) e) (fun x s' => s' = Stream rest e /\
      exists ch, x = (Dyxlist (allocated moves) (count moves) (rev (m :: ms) ++ drop (S (length ms)) (slots moves)), 0, ch) /\ 65 <= ch <= 122)) as Hone.
    { intros mv' ch'. destruct (letter_spec m mv' Hm) as (E1' & _ & _). eapply wp_unfold; [intros k; reflexivity|].
      destruct (Z.eqb_spec (Z.of_nat (S (length ms))) 0); [lia|]. eapply wp_then; [intros; apply fgetc_run|]. cbv beta.
      unfold EOF. destruct (Z.eqb_spec (move_letter m) (-1)); [lia|]. rewrite E2, E1'. cbv zeta.
      eapply wp_yields; [apply set_slot_run; lia|]. replace (Z.of_nat (S (length ms)) - 1) with (Z.of_nat (length ms)) by lia. rewrite Nat2Z.id.
      set (moves' := Dyxlist _ _ _).
      eapply wp_mono; [apply (IH (i + 1) moves' (move_letter m) m rest)|].
      + subst moves'. cbn. rewrite length_insert. lia.
      + intros _. lia.
      + cbv beta. intros x s' (-> & ch & -> & H1 & H2). split; [done|]. exists ch. split.
        * subst moves'. cbn [allocated count slots]. do 3 f_equal. rewrite drop_insert_ge by lia. rewrite Nat.sub_diag.
          destruct (lookup_lt_is_Some_2 (slots moves) (length ms) ltac:(lia)) as [y Hy]. rewrite (drop_S _ y) by done. cbn. by rewrite <- app_assoc.
        * destruct ms; [by rewrite H1 | by apply H2]. }
    cbn [letters]. rewrite <- app_assoc. destruct (negb (i =? 0) && (Z.land i 63 =? 0)); cbn [app].
    + eapply wp_unfold; [intros k; reflexivity|]. destruct (Z.eqb_spec (Z.of_nat (S (length ms))) 0); [lia|].
      eapply wp_then; [intros; apply fgetc_run|]. cbv beta. cbn [newline EOF Z.eqb isspace]. 
      eapply wp_mono; [apply Hone|]. cbv beta. intros x s' (-> & ch & -> & H). split; [done|]. by exists ch.
    + eapply wp_mono; [apply Hone|]. cbv beta. intros x s' (-> & ch & -> & H). split; [done|]. by exists ch.
Qed.

(** The rest of the line. *)
Lemma dots_read ch (inc : bool) rest e : 65 <= ch <= 122 ->
  wp (fun k => dots_loop k ch true) (Stream ((if inc then [32; 46; 46; 46] else []) ++ newline :: rest) e) (fun r s' => r = negb inc /\ s' = Stream rest e).
Proof using Type.
  intros Hch. exists 6%nat, (negb inc), (Stream rest e). split; [|done]. intros [|n] fuel Hn Hf; [lia|]. cbn [dots_loop]. unfold EOF, newline.
  destruct (Z.eqb_spec ch (-1)), (Z.eqb_spec ch 10), (Z.eqb_spec ch 46); try lia. cbn [orb].
  destruct inc, n as [|[|[|[|[|n]]]]]; try lia; reflexivity.
Qed.

Lemma setmovelist_spec {S} (w : S) l n : list_ok0 l -> 0 <= n ->
  wp (fun _ => setmovelist l n) w (fun l' w' => w' = w /\ list_ok l' /\ count l' = n).
Proof using Type.
  intros Hl Hn. assert (exists N a, (forall k, (N <= k)%nat -> grow_loop k (if no_block l then 16 else allocated l) n = Some a) /\ 0 < a /\ n <= a) as (N & a & Ha & Ha0 & Hna).
  { assert (0 < if no_block l then 16 else allocated l) as H0.
    { unfold no_block. destruct Hl as [[H1 H2 H3]|(H1 & _ & _)]; [|rewrite H1; cbn; lia].
      destruct (Z.eqb_spec (allocated l) 0); [lia|]. destruct (Nat.eqb_spec (length (slots l)) 0); cbn [orb]; lia. }
    destruct (grow_ok n _ H0) as (N & a & H1 & H2 & H3). exists N, a. split; [done|]. lia. }
  exists N. eexists _, _. split; [intros k fuel Hk Hf; unfold setmovelist; by rewrite Ha|]. split_and!; try done.
  split; cbn; [done | lia|]. apply resized_length. lia.
Qed.

(** A solution is read back as it was written. *)
Lemma readanswer_spec l ms n inc rest e : n = Z.of_nat (length ms) -> list_ok0 l -> ms <> [] -> Forall step ms ->
  wp (fun _ => readanswer l n) (Stream (answer_text ms inc ++ rest) e) (fun x s' => s' = Stream rest e /\
    exists l', x = (negb inc, l') /\ list_ok l' /\ used l' = rev ms).
Proof using Type.
  intros -> Hl Hne Hms. unfold readanswer. eapply wp_call; [apply (setmovelist_spec _ l (Z.of_nat (length ms)) Hl); lia|]. cbv beta.
  intros l1 s1 (-> & [H1 H2 H3] & Hc). unfold answer_text. rewrite <- app_assoc.
  eapply wp_call; [apply wp_with_fuel, (letters_read ms e Hms 0 l1 EOF (Dyx 0 false)); [lia | done]|]. cbv beta.
  intros x s2 (-> & ch & -> & _ & Hch). rewrite <- app_assoc.
  eapply wp_call; [apply wp_with_fuel, dots_read; auto|]. cbv beta. intros r s3 [-> ->]. cbn [negb Z.eqb]. apply wp_ret. split; [done|].
  eexists. split; [reflexivity|]. split.
  - split; cbn [allocated count slots]; rewrite ?length_app, ?length_rev, ?length_drop; lia.
  - unfold used. cbn [count slots]. rewrite Hc, Nat2Z.id. rewrite <- (length_rev ms). apply take_app_length.
Qed.

(** ** Lines *)

Lemma fgets_next_line n : forall a rest, Forall (fun c => c <> EOF /\ c <> newline) a -> (length a < n)%nat ->
  forall e fuel, fgets n fuel (Stream (a ++ newline :: rest) e) = Ok (a ++ [newline]) (Stream rest e).
Proof using Type.
  induction n as [|n IH]; intros a rest Ha Hn e fuel; [lia|]. cbn [fgets]. destruct a as [|c a]; cbn [app].
  - done.
  - inversion Ha as [|? ? [H1 H2] Ha']; subst. unfold mbind, prog_bind. change (fgetc fuel (Stream (c :: a ++ newline :: rest) e)) with (Ok c (Stream (a ++ newline :: rest) e)).
    cbv beta iota. apply Z.eqb_neq in H1, H2. rewrite H1, H2. cbv beta iota. rewrite (IH a rest) by (try done; cbn in Hn; lia). done.
Qed.

Lemma strlen_line a : Forall (fun c => c <> 0) a -> strlen (a ++ [newline]) = Z.of_nat (length a) + 1.
Proof using Type. induction 1 as [|c a Hc Ha IH]; [done|]. cbn [app strlen length]. destruct (Z.eqb_spec c 0); [done|]. rewrite IH. lia. Qed.

(** A line that fits, with its newline, into all but one byte of the buffer. *)
Lemma getnline_line a rest : Forall (fun c => c <> EOF /\ c <> newline) a -> Forall (fun c => c <> 0) a -> Z.of_nat (length a) < 254 ->
  forall e fuel, getnline 256 fuel (Stream (a ++ newline :: rest) e) = Ok (a ++ [newline], Z.of_nat (length a)) (Stream rest e).
Proof using Type.
  intros H1 H2 H3 e fuel. unfold getnline, get_state, mbind, prog_bind. cbn [bytes]. destruct (a ++ newline :: rest) as [|c l] eqn:E; [by destruct a|]. rewrite <- E.
  rewrite fgets_next_line by (try done; lia). cbv zeta. rewrite strlen_line by done. destruct (Z.eqb_spec (Z.of_nat (length a) + 1) (256 - 1)); [lia|]. cbn [andb].
  unfold mret, prog_ret. do 2 f_equal. lia.
Qed.

Lemma print_int_length n : small n -> Z.of_nat (length (print_int n)) <= 10.
Proof using Type.
  intros [H0 H1]. unfold print_int. destruct (Z.ltb_spec n 0); [lia|].
  assert (forall k j n l, 0 <= n < 10 ^ Z.of_nat (S j) -> Z.of_nat (length (digits_of k n l)) <= Z.of_nat (S j) + Z.of_nat (length l)) as Hlen.
  { clear. induction k as [|k IH]; intros j n l Hn; cbn [digits_of]; [lia|]. destruct (Z.ltb_spec n 10); [cbn; lia|].
    destruct j as [|j]; [cbn in Hn; lia|]. etrans; [apply (IH j)|cbn [length]; lia].
    rewrite (Nat2Z.inj_succ (S j)), Z.pow_succ_r in Hn by lia. set (P := 10 ^ Z.of_nat (S j)) in *. Z.to_euclidean_division_equations. lia. }
  specialize (Hlen (S (Z.to_nat n)) 9%nat n []). cbn [length] in Hlen. lia.
Qed.

Lemma print_int_chars n : small n -> Forall (fun c => 32 < c < 123) (print_int n).
Proof using Type.
  intros [H0 H1]. destruct (print_int_spec n H0) as (ds & -> & Hd & _). eapply Forall_impl; [done|]. unfold digit. intros; cbn; lia.
Qed.

(** The line of the counts is read by [getnline] as it is. *)
Lemma counts_line_read n m rest : small n -> small m ->
  exists k, 0 < k /\ forall e fuel, getnline 256 fuel (Stream (counts_line n m ++ rest) e) = Ok (counts_line n m, k) (Stream rest e).
Proof using Type.
  intros Hn Hm. set (a := print_int n ++ [32] ++ moves_text ++ [32] ++ print_int m ++ [32] ++ pushes_text).
  assert (counts_line n m = a ++ [newline]) as E by (subst a; unfold counts_line; by rewrite <- !app_assoc).
  assert (Forall (fun c => 31 < c < 123) a) as Ha.
  { pose proof (print_int_chars n Hn) as H1. pose proof (print_int_chars m Hm) as H2. subst a. rewrite !Forall_app.
    split_and!; try (repeat constructor; cbn; lia); (eapply Forall_impl; [done|]; intros; cbn in *; lia). }
  pose proof (print_int_length n Hn) as L1. pose proof (print_int_length m Hm) as L2.
  assert (0 < Z.of_nat (length a) < 254) as Hlen by (subst a; rewrite !length_app; cbn [length moves_text pushes_text]; lia).
  exists (Z.of_nat (length a)). split; [lia|]. rewrite E, <- app_assoc. cbn [app].
  apply getnline_line; [| |lia]; (eapply Forall_impl; [exact Ha|]); intros c Hc; cbn in Hc; unfold EOF, newline; lia.
Qed.

(** ** Puzzles *)

(** The solution in pushes is another one than that in moves, as the code sees it: both counts differ. *)
Definition apart (g : gamesetup) : bool := negb (pushbestcount g =? movebestpushcount g) && negb (pushbestmovecount g =? movebestcount g).

(** What a session makes of a puzzle: no solution, an incomplete one, one in moves, or one in moves and another in pushes, which may have been remembered as
    incomplete ([pushbestmovecount] is then 0). *)
Inductive saveable (g : gamesetup) : Prop :=
  | no_solution : count (moveanswer g) = 0 -> saveable g
  | incomplete : list_ok (moveanswer g) -> count (moveanswer g) <> 0 -> small (count (moveanswer g)) -> small (movebestpushcount g) ->
      Forall step (used (moveanswer g)) -> movebestcount g = 0 -> saveable g
  | one_solution : list_ok (moveanswer g) -> count (moveanswer g) <> 0 -> small (count (moveanswer g)) -> small (movebestpushcount g) ->
      Forall step (used (moveanswer g)) -> movebestcount g = count (moveanswer g) -> apart g = false -> saveable g
  | two_solutions : list_ok (moveanswer g) -> count (moveanswer g) <> 0 -> small (count (moveanswer g)) -> small (movebestpushcount g) ->
      Forall step (used (moveanswer g)) -> movebestcount g = count (moveanswer g) ->
      list_ok (pushanswer g) -> count (pushanswer g) <> 0 -> small (count (pushanswer g)) -> small (pushbestcount g) ->
      Forall step (used (pushanswer g)) -> apart g = true -> saveable g.

(** A puzzle has this solution in moves, and this one in pushes. *)
Definition has_moves (g : gamesetup) (moves pushes : Z) (l : list dyx) : Prop :=
  movebestcount g = moves /\ movebestpushcount g = pushes /\ used (moveanswer g) = l.
Definition has_pushes (g : gamesetup) (moves pushes : Z) (l : list dyx) : Prop :=
  pushbestmovecount g = moves /\ pushbestcount g = pushes /\ used (pushanswer g) = l.

(** [g'] was read with the result [r] where [g] had been written: of an incomplete solution the moves alone; a solution in pushes with its number
    of moves if it is apart, else the solution in moves stands for it. *)
Definition read_back (g : gamesetup) (r : bool) (g' : gamesetup) : Prop :=
  if count (moveanswer g) =? 0 then r = true /\ has_moves g' 0 0 [] /\ has_pushes g' 0 0 [] else
  if movebestcount g =? 0 then r = false /\ has_moves g' 0 0 (used (moveanswer g)) /\ has_pushes g' 0 0 [] else
  r = true /\ has_moves g' (movebestcount g) (movebestpushcount g) (used (moveanswer g)) /\
  if apart g then has_pushes g' (count (pushanswer g)) (pushbestcount g) (used (pushanswer g))
  else has_pushes g' (movebestcount g) (movebestpushcount g) (used (moveanswer g)).

(** Both solutions are complete, and are the same unless they are apart. *)
Definition settled (g : gamesetup) : Prop := count (moveanswer g) <> 0 /\ movebestcount g <> 0 /\
  if apart g then pushbestmovecount g = count (pushanswer g)
  else has_pushes g (movebestcount g) (movebestpushcount g) (used (moveanswer g)).

(** Then what is read is what was written. *)
Lemma settled_back g r g' : settled g -> read_back g r g' -> r = true /\
  has_moves g' (movebestcount g) (movebestpushcount g) (used (moveanswer g)) /\
  has_pushes g' (pushbestmovecount g) (pushbestcount g) (used (pushanswer g)).
Proof.
  unfold settled, read_back. intros (H1 & H2 & H3). rewrite (proj2 (Z.eqb_neq _ _) H1), (proj2 (Z.eqb_neq _ _) H2).
  intros (-> & Hm & Hp). split_and!; try done; try apply Hm. destruct (apart g); [by rewrite H3|]. destruct H3 as (-> & -> & ->). exact Hp.
Qed.

Definition game_text (g : gamesetup) : list Z :=
  if count (moveanswer g) =? 0 then [45; 45; 45; newline] else
  counts_line (count (moveanswer g)) (movebestpushcount g) ++
  answer_text (rev (used (moveanswer g))) (movebestcount g =? 0) ++
  (if negb (movebestcount g =? 0) && apart g then
     counts_line (count (pushanswer g)) (pushbestcount g) ++ answer_text (rev (used (pushanswer g))) false else []).

Lemma saveanswers_game_yields {S} (w : S) i g : saveable g -> yields (saveanswers_game i g) w (level_line (i + 1) ++ game_text g).
Proof.
  intros Hg fuel. unfold saveanswers_game, game_text. fold (apart g). destruct Hg as [Hc|Ha Hc _ _ _ Hmb|Ha Hc _ _ _ Hmb Hp|Ha Hc _ _ _ Hmb Hb _ _ _ _ Hp].
  - by rewrite Hc.
  - rewrite Hmb. destruct (Z.eqb_spec (count (moveanswer g)) 0); [done|]. cbn [Z.eqb negb andb]. unfold mbind, prog_bind. rewrite saveanswer_yields by done.
    unfold mret, prog_ret. by rewrite <- !app_assoc, app_nil_r.
  - destruct (Z.eqb_spec (count (moveanswer g)) 0); [done|]. destruct (Z.eqb_spec (movebestcount g) 0); [lia|]. unfold mbind, prog_bind. rewrite saveanswer_yields by done.
    rewrite Hp. cbn [negb andb]. unfold mret, prog_ret. by rewrite <- !app_assoc, app_nil_r.
  - destruct (Z.eqb_spec (count (moveanswer g)) 0); [done|]. destruct (Z.eqb_spec (movebestcount g) 0); [lia|].
    rewrite Hp. cbn [negb andb]. unfold mbind, prog_bind. rewrite !saveanswer_yields by done. unfold mret, prog_ret. by rewrite <- !app_assoc.
Qed.

(** ** Reading a puzzle *)

(** The file goes on with the line of the next puzzle, or ends. *)
Definition next_line (l rest : list Z) : Prop := l = [] /\ rest = [] \/ exists j, small j /\ l = level_line j ++ rest.

Lemma level_line_read j rest : small j -> exists k, 0 < k /\ forall e fuel, getnline 256 fuel (Stream (level_line j ++ rest) e) = Ok (level_line j, k) (Stream rest e).
Proof using Type.
  intros Hj. set (a := [59; 76; 101; 118; 101; 108; 32] ++ print_int j).
  assert (level_line j = a ++ [newline]) as E by (subst a; unfold level_line; by rewrite <- app_assoc).
  pose proof (print_int_length j Hj) as L.
  assert (Forall (fun c => 31 < c < 123) a) as Ha.
  { subst a. apply Forall_app. split; [repeat constructor; lia|]. eapply Forall_impl; [by apply print_int_chars|]. intros; cbn in *; lia. }
  exists (Z.of_nat (length a)). split; [subst a; rewrite length_app; cbn; lia|]. rewrite E, <- app_assoc. cbn [app].
  apply getnline_line; [| |subst a; rewrite length_app; cbn [length]; lia]; (eapply Forall_impl; [exact Ha|]); intros c Hc; cbn in Hc; unfold EOF, newline; lia.
Qed.

Lemma counts_line_head n m : small n -> exists c l, counts_line n m = c :: l /\ 48 <= c <= 57.
Proof using Type.
  intros [H0 H1]. destruct (print_int_spec n H0) as (ds & E & Hd & _ & Hne). destruct ds as [|c ds]; [done|]. inversion Hd; subst.
  unfold counts_line. rewrite E. by exists c, (ds ++ [32] ++ moves_text ++ [32] ++ print_int m ++ [32] ++ pushes_text ++ [newline]).
Qed.

(** [header_loop] finds the line [a], with or without the line of the level before it. *)
Lemma header_read i a rest l e : small i -> (l = a ++ rest \/ l = level_line i ++ a ++ rest) ->
  (exists k, 0 < k /\ forall e fuel, getnline 256 fuel (Stream (a ++ rest) e) = Ok (a, k) (Stream rest e)) -> nth 0 a 0 <> newline -> nth 0 a 0 <> 59 ->
  wp header_loop (Stream l e) (fun r s' => r = Some a /\ s' = Stream rest e).
Proof using Type.
  intros Hi Hl (k & Hk & Ha) H1 H2. apply Z.eqb_neq in H1, H2.
  assert (wp header_loop (Stream (a ++ rest) e) (fun r s' => r = Some a /\ s' = Stream rest e)) as Hone.
  { exists 1%nat, (Some a), (Stream rest e). split; [|done]. intros [|n] fuel Hn Hf; [lia|]. cbn [header_loop]. unfold mbind, prog_bind.
    rewrite Ha. destruct (Z.ltb_spec k 0); [lia|]. cbv zeta. by rewrite H1, H2. }
  destruct Hl as [-> | ->]; [done|]. destruct Hone as (N & r & s' & H & HQ). exists (S N), r, s'. split; [|done]. intros [|n] fuel Hn Hf; [lia|].
  cbn [header_loop]. unfold mbind, prog_bind. destruct (level_line_read i (a ++ rest) Hi) as (k' & Hk' & ->). destruct (Z.ltb_spec k' 0); [lia|].
  cbv zeta. unfold level_line at 1 2. cbn [app nth]. cbn [newline Z.eqb Pos.eqb negb andb]. apply H; lia.
Qed.

(** A puzzle as it was loaded. *)
Record fresh (g : gamesetup) : Prop := Fresh {
  fr_moves : list_ok0 (moveanswer g); fr_pushes : list_ok0 (pushanswer g);
  fr_counts : movebestcount g = 0 /\ movebestpushcount g = 0 /\ pushbestcount g = 0 /\ pushbestmovecount g = 0
}.

(** The line after a single solution is no line of counts. *)
Lemma no_counts nl rest : next_line nl rest -> exists buf k, (forall e, exists e', forall fuel, getnline 256 fuel (Stream nl e) = Ok (buf, k) (Stream rest e')) /\ (k <= 0 \/ scan_counts buf = None).
Proof using Type.
  intros [[-> ->]|(j & Hj & ->)]; [exists [], (-1); split; [intros e; by exists true | by left]|].
  destruct (level_line_read j rest Hj) as (k & Hk & E). exists (level_line j), k. split; [intros e; by exists e|]. by right.
Qed.

Lemma rev_not_nil l : list_ok l -> count l <> 0 -> rev (used l) <> [] /\ Z.of_nat (length (rev (used l))) = count l.
Proof using Type.
  intros H Hc. pose proof (used_length _ H) as E. split; [|by rewrite length_rev]. destruct (used l); [cbn in E; lia|]. cbn. by destruct (rev _).
Qed.

Lemma readanswers_spec g g0 i l nl rest e : saveable g -> fresh g0 -> small i -> next_line nl rest ->
  (l = game_text g ++ nl \/ l = level_line i ++ game_text g ++ nl) ->
  wp (fun _ => readanswers g0) (Stream l e) (fun x s' => read_back g x.1 x.2 /\ (bytes s' = nl \/ bytes s' = rest)).
Proof.
  intros Hg [Ha0 Hp0 (Z1 & Z2 & Z3 & Z4)] Hi Hnl Hl. destruct (init_ok _ Ha0) as [Hia Hua]. destruct (init_ok _ Hp0) as [Hip Hup].
  unfold readanswers. destruct (decide (count (moveanswer g) = 0)) as [Hc|Hc].
  { unfold game_text in Hl. rewrite (proj2 (Z.eqb_eq _ 0) Hc) in Hl.
    eapply wp_call; [apply wp_with_fuel; eapply (header_read i _ nl l e Hi Hl); [|done|done]|].
    { exists 3. split; [done|]. intros ??. by apply (getnline_line [45; 45; 45] nl); repeat constructor. }
    cbv beta. intros b s1 (-> & ->). cbn [nth Z.eqb Pos.eqb]. apply wp_ret. split; [|by left]. unfold read_back. rewrite (proj2 (Z.eqb_eq _ 0) Hc).
    unfold has_moves, has_pushes. cbn. by rewrite Z1, Z2, Z3, Z4. }
  assert (list_ok (moveanswer g) /\ small (count (moveanswer g)) /\ small (movebestpushcount g) /\ Forall step (used (moveanswer g))) as (Ha & Hs1 & Hs2 & Hst)
    by (by destruct Hg).
  destruct (rev_not_nil _ Ha Hc) as [Hne Hlen]. unfold game_text in Hl. rewrite (proj2 (Z.eqb_neq _ 0) Hc), <- !app_assoc in Hl.
  set (more := if negb (movebestcount g =? 0) && _ then _ else _) in Hl.
  destruct (counts_line_head (count (moveanswer g)) (movebestpushcount g) Hs1) as (c & cl & Ecl & Hcr).
  eapply wp_call; [apply wp_with_fuel; eapply (header_read i _ _ l e Hi Hl); [by apply counts_line_read|rewrite Ecl; cbn; unfold newline; lia..]|].
  cbv beta. intros b s1 (-> & ->). replace (nth 0 (counts_line (count (moveanswer g)) (movebestpushcount g)) 0 =? 45) with false
    by (rewrite Ecl; cbn; destruct c as [|p|p]; try done; symmetry; apply Z.eqb_neq; lia).
  rewrite scan_counts_line by done.
  eapply wp_call; [apply readanswer_spec; [symmetry; first [exact Hlen | exact Hlen2] | by left | done | by apply Forall_rev]|]. cbv beta. intros x s2 (-> & a & -> & Hoa & Hu). rewrite rev_involutive in Hu.
  unfold read_back. rewrite (proj2 (Z.eqb_neq _ 0) Hc). destruct (movebestcount g =? 0) eqn:Emb; cbn [negb andb] in *.
  { apply wp_ret. subst more. split; [|by left]. unfold has_moves, has_pushes. cbn. rewrite Hu. by destruct g0; cbn in *; subst. }
  assert (movebestcount g = count (moveanswer g)) as Hmb by (apply Z.eqb_neq in Emb; by destruct Hg).
  destruct Hg as [|? ? ? ? ? Hmb'|_ _ _ _ _ _ Hap|_ _ _ _ _ _ Hb Hbc Hs3 Hs4 Hst2 Hap]; [done | lia| |]; subst more; rewrite Hap.
  - cbn [app]. destruct (no_counts _ _ Hnl) as (buf & k & Ek & Hk). destruct (Ek e) as [e' Ek']. eapply wp_then; [intros; apply Ek'|]. cbv beta iota.
    eapply wp_yields with (v := (None, pushanswer (no_answers g0))).
    { intros fuel. destruct (Z.leb_spec k 0); [done|]. destruct Hk as [Hk|Hk]; [lia|]. by rewrite Hk. }
    cbv iota. eapply wp_call; [apply copy_spec; by left|]. cbv beta. intros p s3 (-> & Hop & Hup2 & _). apply wp_ret. split; [|by right].
    unfold has_moves, has_pushes. cbn. by rewrite Hup2, Hu, Hmb.
  - rewrite <- app_assoc.
    destruct (counts_line_read (count (pushanswer g)) (pushbestcount g) (answer_text (rev (used (pushanswer g))) false ++ nl) Hs3 Hs4) as (k & Hk & Ek).
    eapply wp_then; [intros; apply Ek|]. cbv beta iota. destruct (Z.leb_spec k 0); [lia|]. rewrite scan_counts_line by done.
    destruct (rev_not_nil _ Hb Hbc) as [Hne2 Hlen2].
    eapply wp_call with (P := fun z s' => s' = Stream nl e /\ exists p, z = (Some (count (pushanswer g), pushbestcount g), p) /\ used p = used (pushanswer g)).
    { eapply wp_call; [apply readanswer_spec; [symmetry; first [exact Hlen | exact Hlen2] | by left | done | by apply Forall_rev]|]. cbv beta. intros x s3 (-> & p & -> & Hop & Hup2). rewrite rev_involutive in Hup2.
      apply wp_ret. split; [done|]. by exists p. }
    cbv beta. intros z s3 (-> & p & -> & Hup2). apply wp_ret. split; [|by left]. unfold has_moves, has_pushes. cbn. by rewrite Hu, Hup2, Hmb.
Qed.

(** ** The file *)

Fixpoint file_text (i : Z) (gs : list gamesetup) : list Z :=
  match gs with
  | [] => []
  | g :: gs => level_line (i + 1) ++ game_text g ++ file_text (i + 1) gs
  end.

Lemma saveanswers_yields {S} (w : S) gs : Forall saveable gs -> forall i, yields (saveanswers_loop i gs) w (file_text i gs).
Proof.
  induction 1 as [|g gs Hg Hgs IH]; intros i fuel; [done|]. cbn [saveanswers_loop file_text]. unfold mbind, prog_bind.
  rewrite (saveanswers_game_yields w i g Hg). rewrite IH. unfold mret, prog_ret. by rewrite <- app_assoc.
Qed.

(** The puzzles [gs] read their solutions one after the other. *)
Fixpoint read_all (gs : list gamesetup) : R (list (bool * gamesetup)) :=
  match gs with
  | [] => mret []
  | g :: gs => x ← readanswers g; l ← read_all gs; mret (x :: l)
  end.

(** The file from puzzle [i] on, with or without the first line. *)
Definition from_line (i : Z) (gs : list gamesetup) (l : list Z) : Prop :=
  l = file_text i gs \/ exists g gs', gs = g :: gs' /\ l = game_text g ++ file_text (i + 1) gs'.

Lemma read_all_spec gs g0s : Forall saveable gs -> Forall fresh g0s -> length g0s = length gs -> forall i l e, 0 <= i -> i + Z.of_nat (length gs) < 2147483648 ->
  from_line i gs l -> wp (fun _ => read_all g0s) (Stream l e) (fun xs _ => Forall2 (fun g x => read_back g x.1 x.2) gs xs).
Proof.
  intros Hgs. revert g0s. induction Hgs as [|g gs Hg Hgs IH]; intros [|g0 g0s] Hf Hlen i l e Hi Hb Hl; try done.
  { apply wp_ret. constructor. }
  inversion Hf as [|? ? Hf0 Hfs]; subst. cbn [read_all length] in *.
  set (rest := match gs with [] => [] | g' :: gs' => game_text g' ++ file_text (i + 1 + 1) gs' end).
  eapply wp_call; [apply (readanswers_spec g g0 (i + 1) l (file_text (i + 1) gs) rest e Hg Hf0)|].
  - unfold small. lia.
  - subst rest. destruct gs as [|g' gs]; [by left|]. right. exists (i + 1 + 1). split; [unfold small; cbn [length] in Hb; lia|]. done.
  - destruct Hl as [-> |(g' & gs' & [= <- <-] & ->)]; [by right | by left].
  - cbv beta. intros x [l' e'] [Hx Hs']. cbn [bytes] in Hs'. eapply wp_call; [apply (IH g0s Hfs ltac:(lia) (i + 1)); [lia | lia|]|].
    + destruct Hs' as [-> | ->]; [by left|]. subst rest. destruct gs as [|g' gs']; [by left|]. right. by exists g', gs'.
    + cbv beta. intros xs s2 Hxs. apply wp_ret. by constructor.
Qed.
End text.
