(* ===== verification/SokTurn.v ===== *)
(** * Csokoban: keys and puzzles (csokoban.c)

    All puzzles of all files have been read: [games] is their concatenation, and [counts] says how many each file has. *)

From Stdlib Require Import ZArith Lia.
From stdpp Require Import base numbers list strings.
From S2P Require Import Prelude SokGame SokAnswers.

Open Scope Z_scope.

Section turn.
Context {MEM : memory} {TERM : terminal}.

(** A key; without one the program waits. *)
Definition input : K Z :=
  w ← get_state; match keys w with [] => fail Out_of_fuel | k :: l => modify (with_keys l);; mret k end.
Definition ding : K unit := say Ding.

(** What readlevelinseries gives when all puzzles of the file have been read ([read_already_right]). *)
Definition read_already (series level : Z) : bool := (0 <=? level) && (level <? count_of series).

(** [while (level < 0)]: the level, or [None] for [return FALSE]. *)
Fixpoint back_loop (k : nat) (level : Z) : K (option Z) :=
  match k with
  | O => fail Out_of_fuel
  | S k =>
      if level <? 0 then
        w ← get_state;
        if currentseries w =? 0 then mret None else
        modify (with_currentseries (currentseries w - 1));;
        back_loop k (level + count_of (currentseries w - 1))
      else mret (Some level)
  end.

(** [while (level >= serieslist[currentseries].count)]. *)
Fixpoint forward_loop (k : nat) (level : Z) : K (option Z) :=
  match k with
  | O => fail Out_of_fuel
  | S k =>
      w ← get_state;
      let cs := currentseries w in
      if count_of cs <=? level then
        if read_already cs level then forward_loop k level else
        if level <? count_of cs then mret None else
        if Z.of_nat (length counts) <=? cs + 1 then mret None else
        modify (with_currentseries (cs + 1));;
        forward_loop k (level - count_of cs)
      else mret (Some level)
  end.

Definition readlevel : K bool :=
  w ← get_state;
  l ← with_fuel (fun k => back_loop k (currentgame w));
  match l with
  | None => mret false
  | Some level =>
      l ← with_fuel (fun k => forward_loop k level);
      match l with
      | None => mret false
      | Some level => modify (with_currentgame level);; mret true
      end
  end.

Definition partialsave : K bool :=
  b ← replaceanswers true;
  if b : bool then w ← get_state; saveanswers (currentseries w) else mret false.

Definition drawhelpscreen : K unit := say Help;; input;; mret tt.

(** [while (newmove(delta)) ;]. *)
Fixpoint run_loop (k : nat) (delta : Z) : K unit :=
  match k with
  | O => fail Out_of_fuel
  | S k => b ← newmove delta; if b : bool then run_loop k delta else mret tt
  end.

Definition or_ding (p : K bool) : K unit := b ← p; if b : bool then mret tt else ding.
Definition ignore (p : K bool) : K unit := p;; mret tt.

(** The commands that do not leave the puzzle. *)
Definition command (k : Z) : K unit :=
  if k =? 107 then ignore (newmove (- XSIZE)) else
  if k =? 108 then ignore (newmove 1) else
  if k =? 106 then ignore (newmove XSIZE) else
  if k =? 104 then ignore (newmove (-1)) else
  if k =? 75 then with_fuel (fun n => run_loop n (- XSIZE)) else
  if k =? 76 then with_fuel (fun n => run_loop n 1) else
  if k =? 74 then with_fuel (fun n => run_loop n XSIZE) else
  if k =? 72 then with_fuel (fun n => run_loop n (-1)) else
  if k =? 120 then or_ding undomove else
  if k =? 122 then or_ding redomove else
  if k =? 88 then or_ding (undomoves 8) else
  if k =? 90 then or_ding (redomoves 8) else
  if k =? 82 then initgamestate true else
  if k =? 18 then initgamestate false else
  if k =? 115 then savestate else
  if k =? 114 then or_ding restorestate else
  if k =? 83 then or_ding partialsave else
  if k =? 109 then setmacro else
  if k =? 112 then or_ding startmacro else
  if k =? 63 then drawhelpscreen else
  mret tt.

Definition doturn : K Z :=
  p ← isplaying;
  if p : bool then macromove;; mret 0 else
  k ← input;
  if k =? 80 then mret (-1) else
  if k =? 78 then mret 1 else
  if (k =? 113) || (k =? 81) then fail (Exit 0 "") else
  command k;;
  mret 0.

Fixpoint endinput_loop (k : nat) : K Z :=
  match k with
  | O => fail Out_of_fuel
  | S k =>
      c ← input;
      if (c =? 10) || (c =? 78) then modify (with_usemoves true);; mret 0 else
      if c =? 82 then modify (with_usemoves true);; mret (-1) else
      if c =? 80 then modify (with_usemoves true);; mret (-2) else
      if c =? 14 then modify (with_usemoves false);; mret 0 else
      if c =? 18 then modify (with_usemoves false);; mret (-1) else
      if c =? 16 then modify (with_usemoves false);; mret (-2) else
      if (c =? 113) || (c =? 81) then fail (Exit 0 "") else
      endinput_loop k
  end.
Definition endinput (endofsession : bool) : K Z :=
  say (End_message endofsession);;
  with_fuel endinput_loop.

(** The loop of [playgame] gives the last value of [n]. *)
Fixpoint play_loop (k : nat) (index : Z) : K Z :=
  match k with
  | O => fail Out_of_fuel
  | S k =>
      n ← doturn;
      left ← (if n =? 0 then mret false else
        modify (fun w => with_currentgame (currentgame w + n) w);;
        b ← readlevel;
        if b : bool then mret true else
        modify (fun w => with_currentgame (currentgame w - n) w);; ding;; mret false);
      if left : bool then mret n else
      drawscreen index;;
      f ← checkfinished;
      if f : bool then mret n else play_loop k index
  end.

(** [n] is not set when the screen is too small. *)
Definition playgame : K unit :=
  w ← get_state;
  let index := before (currentseries w) + currentgame w in
  b ← drawscreen index;
  n ← (if b : bool then
      n ← with_fuel (fun k => play_loop k index);
      freesavedstates;;
      f ← checkfinished;
      b ← (if f : bool then replaceanswers false else mret false);
      (if b : bool then w ← get_state; ignore (saveanswers (currentseries w)) else mret tt);;
      mret n
    else mret garbage);
  if n =? 0 then
    modify (fun w => with_currentgame (currentgame w + 1) w);;
    b ← readlevel;
    n ← endinput (negb b);
    modify (fun w => with_currentgame (currentgame w + n) w)
  else mret tt.

(** The loop of [main]: the puzzles, one after the other. *)
Definition select_current : K unit :=
  w ← get_state;
  if (currentgame w <? 0) || (count_of (currentseries w) <=? currentgame w) then fail Bad_pointer else
  selectgame (Z.to_nat (before (currentseries w) + currentgame w)) (Z.to_nat (currentgame w));;
  initgamestate (usemoves w).

Fixpoint main_loop (k : nat) : K unit :=
  match k with
  | O => fail Out_of_fuel
  | S k =>
      select_current;;
      playgame;;
      b ← readlevel;
      if b : bool then main_loop k else mret tt
  end.
End turn.
