(* ===== verification/SokWorld.v ===== *)
(** * Csokoban: the invariant of a session

    [world_ok] says that what is shown is a position that the moves made lead to by the rules, and the same of the saved positions and solutions. *)

From Stdlib Require Import ZArith Lia.
From stdpp Require Import base numbers list gmap sets fin_sets.
From S2P Require Import Prelude SokGame SokRule SokShow SokPlay SokAnswers SokTurn.

Open Scope Z_scope.

(** A solution: moves that can be made from the start, the last one first. *)
Definition answer_ok (g : gamesetup) (l : dyxlist) : Prop := list_ok0 l /\ exists s, plays (wall g) (start_pos g) (rev (used l)) s.

Record puzzle_ok (g : gamesetup) : Prop := Puzzle_ok {
  pu_setup : setup_ok g;
  pu_moves : answer_ok g (moveanswer g);
  pu_pushes : answer_ok g (pushanswer g)
}.

(** The state [st] plays one of the puzzles. *)
Definition state_ok (gs : list gamesetup) (st : gamestate) : Prop := exists g s, gs !! game st = Some g /\ played g st s.

(** A macro that is played back has a move where it is played. *)
Definition playing_ok (w : world) : Prop := -1 <= macroplay w /\
  (0 <= macroplay w -> recording w = false /\ exists l m, macros w !! macro w = Some l /\ slots l !! Z.to_nat (macroplay w) = Some m /\ yx m ∈ dirs).

Record world_ok (w : world) : Prop := World_ok {
  wo_games : Forall puzzle_ok (games w);
  wo_state : state_ok (games w) (state w);
  wo_stack : Forall (state_ok (games w)) (stack w);
  wo_macros : macros_ok (macros w);
  wo_recorder : recorder_ok w;
  wo_playing : playing_ok w
}.

Section world.
Context {MEM : memory}.

(** ** Lists *)

Lemma reversed_run (w : world) l n : list_ok l -> (n <= length (used l))%nat -> forall a, list_ok a ->
  exists a', (forall fuel, reversed_loop n a l fuel w = Ok a' w) /\ list_ok a' /\ used a' = used a ++ rev (take n (used l)).
Proof.
  intros Hl. induction n as [|n IH]; intros Hn a Ha.
  - exists a. cbn. by rewrite app_nil_r.
  - destruct (lookup_lt_is_Some_2 (used l) n ltac:(lia)) as [m Hm].
    assert (slots l !! Z.to_nat (Z.of_nat n) = Some m) as Hsl.
    { rewrite Nat2Z.id. unfold used in Hm. rewrite lookup_take in Hm. case_decide; done. }
    destruct (add_run a m Ha) as (a1 & E1 & H1 & U1). destruct (IH ltac:(lia) a1 H1) as (a' & E & H & U).
    exists a'. split; [|split; [done|]].
    + intros fuel. cbn [reversed_loop]. unfold mbind, prog_bind. rewrite (slot_at l (Z.of_nat n) m ltac:(lia) Hsl), E1. apply E.
    + rewrite U, U1, (take_S_r _ _ m Hm), rev_app_distr, <- app_assoc. done.
Qed.

(** ** Many moves *)

Lemma undo_times_spec g n : setup_ok g -> forall w s, played g (state w) s -> recorder_ok w ->
  wp (fun _ => undo_times n) w (fun _ w' => keeps w w' /\ exists s', played g (state w') s').
Proof.
  intros Hg. induction n as [|n IH]; intros w s Hpl Hrec; [apply wp_ret; split; [done | by eauto]|]. cbn [undo_times].
  eapply wp_call; [by eapply undomove_spec|]. cbv beta. intros b w1 [Hk [(_ & -> & ->)|(s0 & m & -> & Hpl0 & _)]]; [apply wp_ret; split; [done | by eauto]|].
  eapply wp_mono; [eapply IH; [done | by apply Hk]|]. intros _ w' [Hk' Hs']. split; [|done]. by etrans.
Qed.

Lemma redo_times_spec g n : setup_ok g -> forall w s, played g (state w) s -> recorder_ok w ->
  wp (fun _ => redo_times n) w (fun _ w' => keeps w w' /\ exists s', played g (state w') s').
Proof.
  intros Hg. induction n as [|n IH]; intros w s Hpl Hrec; [apply wp_ret; split; [done | by eauto]|]. cbn [redo_times].
  eapply wp_call; [by eapply redomove_spec|]. cbv beta. intros b w1 [Hk [(_ & -> & ->)|(m & -> & _ & _ & _ & Hpl0 & _)]]; [apply wp_ret; split; [done | by eauto]|].
  eapply wp_mono; [eapply IH; [done | by apply Hk]|]. intros _ w' [Hk' Hs']. split; [|done]. by etrans.
Qed.

(** How far the player can go in a direction. *)
Definition way (s : pos) (d : Z) : nat := Z.to_nat (if 0 <? d then 991 - who s else who s - 32).

Lemma run_spec g d : setup_ok g -> d ∈ dirs -> forall w s, played g (state w) s -> recorder_ok w ->
  wp (fun k => run_loop k d) w (fun _ w' => keeps w w' /\ exists s', played g (state w') s' /\ legal (wall g) s' d = false).
Proof.
  intros Hg Hd w s. remember (way s d) as n. revert w s Heqn. induction n as [n IH] using lt_wf_ind. intros w s Hn Hpl Hrec.
  eapply wp_unfold; [intros k; reflexivity|]. eapply wp_call; [by apply (newmove_spec g Hg w s d)|]. cbv beta. intros r w1 (-> & Hk & H1).
  destruct (legal (wall g) s d) eqn:Hl; [|subst; apply wp_ret; split; [done | by eauto]].
  pose proof (setup_range _ _ Hg (proj1 (po_who _ _ _ _ (ap_ok _ _ _ (pl_at _ _ _ Hpl))))) as R1.
  pose proof (setup_range _ _ Hg (proj1 (po_who _ _ _ _ (ap_ok _ _ _ (pl_at _ _ _ H1))))) as R2. cbn in R2.
  pose proof (dirs_ne _ Hd) as Hd0.
  assert (way (moved s d) d < n)%nat as Hlt by (subst n; unfold way; cbn [who moved]; destruct (Z.ltb_spec 0 d); lia).
  eapply wp_mono; [eapply (IH _ Hlt); [done | done | by apply Hk]|]. intros _ w' [Hk' Hs']. split; [|done]. by etrans.
Qed.

(** ** Keeping the invariant *)

Lemma keeps_playing w w' : keeps w w' -> playing_ok w -> playing_ok w'.
Proof.
  intros Hk [H1 H2]. split; rewrite ?(ke_macroplay _ _ Hk); [done|]. intros H. destruct (H2 H) as (Hr & l & m & Hlk & Hsl & Hm).
  destruct (ke_idle _ _ Hk Hr) as [E1 E2]. split; [done|]. exists l, m. by rewrite E2, (ke_macro _ _ Hk).
Qed.

Lemma keeps_world w w' : world_ok w -> keeps w w' -> (forall g s, games w !! game (state w) = Some g -> puzzle_ok g -> played g (state w) s ->
  exists s', played g (state w') s') -> world_ok w'.
Proof.
  intros [Hgs (g & s & Hg & Hpl) Hst Hms Hrec Hp] Hk Hs'. split.
  - by rewrite (ke_games _ _ Hk).
  - destruct (Hs' g s Hg) as [s' H']; [by eapply Forall_lookup | done|]. exists g, s'. by rewrite (ke_games _ _ Hk), (ke_game _ _ Hk).
  - by rewrite (ke_stack _ _ Hk), (ke_games _ _ Hk).
  - by apply (ke_macros _ _ Hk).
  - by apply (ke_recorder _ _ Hk).
  - by eapply keeps_playing.
Qed.

(** A program that only moves. *)
Lemma moves_world {A} (p : nat -> K A) w : world_ok w ->
  (forall g s, games w !! game (state w) = Some g -> puzzle_ok g -> played g (state w) s ->
    wp p w (fun _ w' => keeps w w' /\ exists s', played g (state w') s')) -> wp p w (fun _ w' => world_ok w' /\ keeps w w').
Proof.
  intros Hw H. destruct (wo_state _ Hw) as (g & s & Hg & Hpl). pose proof (Forall_lookup_1 _ _ _ _ (wo_games _ Hw) Hg) as Hpu.
  eapply wp_mono; [by eapply H|]. cbv beta. intros a w' [Hk Hs]. split; [|done]. eapply keeps_world; [done | done|].
  intros g' s' Hg' _ _. rewrite Hg in Hg'. by injection Hg' as <-.
Qed.

(** Only the keys and what is shown or set aside changed. *)
Definition aside (w w' : world) : Prop :=
  games w' = games w /\ stack w' = stack w /\ macros w' = macros w /\ macro w' = macro w /\ recording w' = recording w /\ macroplay w' = macroplay w /\
  state w' = state w.

Lemma aside_world w w' : world_ok w -> aside w w' -> world_ok w'.
Proof.
  intros [H1 H2 H3 H4 H5 H6] (E1 & E2 & E3 & E4 & E5 & E6 & E7). split; unfold recorder_ok, playing_ok in *; rewrite ?E1, ?E2, ?E3, ?E4, ?E5, ?E6, ?E7; done.
Qed.

Lemma say_world e w : world_ok w -> world_ok (with_events (events w ++ [e]) w).
Proof. intros H. by eapply aside_world. Qed.

Definition emptied (l : dyxlist) : dyxlist := if count l =? 0 then l else Dyxlist (allocated l) 0 (slots l).

Lemma emptied_ok l : macro_ok l -> macro_ok (emptied l).
Proof.
  unfold emptied. intros [H1 H2]. destruct (Z.eqb_spec (count l) 0) as [E|E]; [by split|]. split; [|by intros m ?%elem_of_nil].
  destruct H1 as [H1|(_ & H1 & _)]; [left; by apply empty_ok | lia].
Qed.

Lemma playing_emptied w : macros_ok (macros w) -> playing_ok w -> forall st, playing_ok
  (World (games w) (stack w) (map emptied (macros w)) (macro w) false (macroplay w) st (keys w) (events w) (currentseries w) (currentgame w) (usemoves w)).
Proof.
  intros _ [H1 H2] st. split; [done|]. cbn. intros H. destruct (H2 H) as (_ & l & m & Hlk & Hsl & Hm). split; [done|].
  exists (emptied l), m. rewrite list_lookup_fmap, Hlk. cbn. split; [done|]. split; [|done]. unfold emptied. by destruct (count l =? 0).
Qed.

(** The solution that [initgamestate] puts into the redo list. *)
Definition chosen (usemoves : bool) (g : gamesetup) : dyxlist :=
  if count (moveanswer g) =? 0 then pushanswer g
  else if (count (pushanswer g) =? 0) || usemoves then moveanswer g else pushanswer g.

Lemma init_spec w g b : games w !! game (state w) = Some g -> puzzle_ok g -> list_ok0 (undo (state w)) ->
  wp (fun _ => initgamestate b) w (fun _ w' => exists st, played g st (start_pos g) /\ used (undo st) = [] /\ used (redo st) = used (chosen b g) /\
    game st = game (state w) /\ level st = level (state w) /\
    w' = World (games w) (stack w) (map emptied (macros w)) (macro w) false (macroplay w) st (keys w) (events w) (currentseries w) (currentgame w) (usemoves w)).
Proof.
  intros Hlk [Hg [Ha1 [p1 Hp1]] [Ha2 [p2 Hp2]]] Hu. destruct w as [gs sk ms mc rc mp [gm lv pl sc mv ps u r mp0] ks ev cs cg um]. cbn in Hlk, Hu.
  unfold initgamestate. eapply wp_then with (a := g); [intros fuel; unfold get_setup, mbind, prog_bind, get_state; cbn; by rewrite Hlk|].
  run. run. run. tidy. fold (chosen b g).
  assert (list_ok0 (chosen b g) /\ exists s', plays (wall g) (start_pos g) (rev (used (chosen b g))) s') as [Hc Hp].
  { unfold chosen. destruct (_ =? _); [by eauto|]. destruct (_ || _); by eauto. }
  eapply wp_call; [by apply copy_spec|]. cbv beta. intros r' w1 (-> & Hr & Hur & _). run. run. run. tidy.
  eapply wp_running; [reflexivity|]. destruct (init_ok _ Hu) as [Hu' Hused]. tidy.
  exists (Gamestate gm lv (start g) (setup_storecount g) 0 0 (initmovelist u) r' (setup_map g)). split_and!; try done.
  split; cbn; try done.
  - split; cbn; [done | by apply setup_shows | by apply su_stored | by apply su_start].
  - rewrite Hused. constructor.
  - by rewrite Hur.
  - by rewrite Hused.
  - by rewrite Hused.
Qed.

Lemma state_undo_ok gs st : state_ok gs st -> list_ok0 (undo st).
Proof. intros (g & s & _ & [_ H _ _ _ _ _]). by left. Qed.

Lemma init_world w b : world_ok w -> wp (fun _ => initgamestate b) w (fun _ w' => world_ok w').
Proof.
  intros Hw. destruct (wo_state _ Hw) as (g & s & Hg & Hpl). pose proof (Forall_lookup_1 _ _ _ _ (wo_games _ Hw) Hg) as Hpu.
  eapply wp_mono; [by eapply init_spec; try eapply state_undo_ok, Hw|]. cbv beta. intros _ w' (st & Hst & _ & _ & Eg & _ & ->). destruct Hw as [H1 H2 H3 [H4 H4'] H5 H6]. split; try done.
  - exists g, (start_pos g). cbn. by rewrite Eg.
  - split; [by rewrite <- H4; apply length_map|]. cbn. apply Forall_map. eapply Forall_impl; [done|]. intros l. apply emptied_ok.
  - by apply playing_emptied.
Qed.

(** ** Saved positions *)

Lemma copygame_spec g st s (w : world) : played g st s -> wp (fun _ => copygamestate st) w (fun st' w' => w' = w /\
  exists u r, st' = with_redo r (with_undo u st) /\ list_ok u /\ list_ok r /\ used u = used (undo st) /\ used r = used (redo st)).
Proof.
  intros [Hat Hu Hr Hf Ht Hmv Hps]. unfold copygamestate.
  eapply wp_call; [apply copy_spec; by left|]. cbv beta. intros u w1 (-> & Hu' & Uu & _).
  eapply wp_call; [apply copy_spec; by left|]. cbv beta. intros r w1 (-> & Hr' & Ur & _). apply wp_ret. split; [done|]. by exists u, r.
Qed.

Lemma copied_played g st s u r : played g st s -> list_ok u -> list_ok r -> used u = used (undo st) -> used r = used (redo st) ->
  played g (with_redo r (with_undo u st)) s.
Proof. intros [[] Hu Hr Hf Ht Hmv Hps] Hu' Hr' Uu Ur. split; cbn; rewrite ?Uu, ?Ur; try done. Qed.

Lemma save_world w : world_ok w -> wp (fun _ => savestate) w (fun _ w' => world_ok w' /\ exists st, stack w' = st :: stack w /\
  forall g s, played g (state w) s -> played g st s /\ used (undo st) = used (undo (state w)) /\ used (redo st) = used (redo (state w)) /\ game st = game (state w)).
Proof.
  intros Hw. destruct (wo_state _ Hw) as (g & s & Hg & Hpl). unfold savestate. run.
  eapply wp_call; [by eapply copygame_spec|]. cbv beta. intros st w1 (-> & u & r & -> & Hu & Hr & Uu & Ur). eapply wp_running; [reflexivity|].
  split.
  - destruct Hw as [H1 H2 H3 H4 H5 H6]. split; try done. cbn. constructor; [|done]. exists g, s. split; [done|]. by apply copied_played.
  - eexists. split; [reflexivity|]. intros g' s' Hpl'. split; [by apply copied_played|]. done.
Qed.

Lemma restore_world w : world_ok w -> wp (fun _ => restorestate) w (fun b w' => world_ok w' /\
  match stack w with [] => b = false /\ w' = w | st :: l => b = true /\ state w' = st /\ stack w' = l end).
Proof.
  intros Hw. unfold restorestate. run. destruct (stack w) as [|st l] eqn:E; [by apply wp_ret|]. run. run. apply wp_ret. split; [|done].
  destruct Hw as [H1 H2 H3 H4 H5 H6]. rewrite E in H3. apply Forall_cons in H3 as [H3 H3']. by split.
Qed.

(** ** Macros *)

Lemma macro_at_ok w : world_ok w -> exists l, (forall fuel, macro_at (player (state w)) fuel w = Ok l w) /\ macro_ok l /\ macros w !! Z.to_nat (player (state w)) = Some l.
Proof.
  intros Hw. destruct (wo_state _ Hw) as (g & s & Hg & Hpl). pose proof (Forall_lookup_1 _ _ _ _ (wo_games _ Hw) Hg) as Hpu.
  pose proof (pl_at _ _ _ Hpl) as Hat. pose proof (setup_range _ _ (pu_setup _ Hpu) (proj1 (po_who _ _ _ _ (ap_ok _ _ _ Hat)))) as Hr.
  rewrite <- (ap_who _ _ _ Hat) in Hr. destruct (wo_macros _ Hw) as [Hlen Hall].
  destruct (lookup_lt_is_Some_2 (macros w) (Z.to_nat (player (state w))) ltac:(lia)) as [l Hl]. exists l. split_and!; [|by eapply Forall_lookup|done].
  intros fuel. unfold macro_at, get_macro, mbind, prog_bind, get_state. destruct (Z.ltb_spec (player (state w)) 0); [lia|]. by rewrite Hl.
Qed.

Lemma setmacro_world w : world_ok w -> macroplay w = -1 -> wp (fun _ => setmacro) w (fun _ w' => world_ok w').
Proof.
  intros Hw Hmp. destruct (macro_at_ok _ Hw) as (l & E & Hl & Hlk). unfold setmacro. run. destruct (recording w) eqn:Hrec.
  - eapply wp_running; [reflexivity|]. destruct Hw as [H1 H2 H3 H4 H5 [H6 H6']]. split; try done. split; cbn; [done|]. lia.
  - run E. run. run. eapply wp_running; [reflexivity|]. destruct (init_ok l (proj1 Hl)) as [Hi Hui].
    destruct Hw as [H1 H2 H3 H4 H5 [H6 H6']]. split; try done; cbn.
    + eapply macros_insert; [done | done|]. split; [by left|]. rewrite Hui. by intros m ?%elem_of_nil.
    + intros _. exists (initmovelist l). split; [|done]. cbn. apply list_lookup_insert_eq. by eapply lookup_lt_Some.
    + split; cbn; [done|]. lia.
Qed.

Lemma startmacro_world w : world_ok w -> wp (fun _ => startmacro) w (fun _ w' => world_ok w').
Proof.
  intros Hw. destruct (macro_at_ok _ Hw) as (l & E & Hl & Hlk). unfold startmacro. run. run E. destruct (Z.eqb_spec (count l) 0) as [Hc|Hc]; [by apply wp_ret|].
  assert (exists m, slots l !! 0%nat = Some m /\ yx m ∈ dirs) as (m & Hm & Hmd).
  { pose proof (used_length0 _ (proj1 Hl)) as Hlen. pose proof (list_ok0_length _ (proj1 Hl)) as Hc0.
    destruct (used l) as [|m l0] eqn:E2; [cbn in Hlen; lia|]. exists m. split; [|apply Hl; rewrite E2; by left].
    unfold used in E2. destruct (slots l); [by rewrite take_nil in E2|]. destruct (Z.to_nat (count l)); [done|]. cbn in E2. by injection E2 as -> _. }
  eapply wp_running with (s' := with_macroplay 0 (with_macro (Z.to_nat (player (state w))) (with_recording false w))) (a := true).
  { intros fuel. unfold mbind, prog_bind, modify. destruct w as [gs sk ms mc rc mp st ks ev cs cg um], rc; done. }
  destruct Hw as [H1 H2 H3 H4 H5 [H6 H6']]. split; try done. split; cbn; [lia|]. intros _. split; [done|]. by exists l, m.
Qed.

Lemma macromove_world w : world_ok w -> wp (fun _ => macromove) w (fun _ w' => world_ok w').
Proof.
  intros Hw. destruct (wo_state _ Hw) as (g & s & Hg & Hpl). pose proof (Forall_lookup_1 _ _ _ _ (wo_games _ Hw) Hg) as Hpu.
  unfold macromove. run. destruct (Z.leb_spec 0 (macroplay w)) as [Hp|Hp]; [|run; by apply wp_ret].
  destruct (proj2 (wo_playing _ Hw) Hp) as (Hr & l & m & Hlk & Hsl & Hm). pose proof (macros_lookup _ _ _ (wo_macros _ Hw) Hlk) as Hlok.
  eapply wp_call with (P := fun _ w' => world_ok w'); [|cbv beta; intros [] w' Hw'; run; by apply wp_ret].
  eapply wp_then with (a := l); [intros fuel; unfold get_macro, mbind, prog_bind, get_state; by rewrite Hlk|].
  eapply wp_yields; [intros fuel; by apply slot_at|].
  eapply wp_call; [apply (moves_world (fun _ => newmove (yx m)) w Hw)|].
  { intros g' s' Hg' Hpu' Hpl'. eapply wp_mono; [apply (newmove_spec g'); try done; apply Hpu' || apply Hw|]. cbv beta. intros r w' (-> & Hk & H1). split; [done|].
    destruct (legal _ _ _); [by eauto | subst; by eauto]. }
  cbv beta. intros ok w1 [Hw1 Hk]. destruct (ke_idle _ _ Hk Hr) as [Er Ems].
  set (next := macroplay w1 + 1).
  eapply wp_call with (P := fun stop w' => match stop : bool with
    | true => exists mp, w' = with_macroplay mp w1
    | false => w' = with_macroplay next w1 /\ next < count l end).
  - destruct ok; [|apply wp_ret; exists (macroplay w1); by destruct w1].
    run. run. eapply wp_then with (a := l); [intros fuel; unfold get_macro, mbind, prog_bind, get_state; cbn; by rewrite Ems, (ke_macro _ _ Hk), Hlk|].
    apply wp_ret. cbn. fold next. destruct (Z.leb_spec (count l) next); [by exists next | done].
  - cbv beta. intros stop w2 Hs. destruct Hw1 as [H1 H2 H3 H4 H5 [H6 H6']]. destruct stop.
    + destruct Hs as [mp ->]. eapply wp_running; [reflexivity|]. split; try done.
    + destruct Hs as [-> Hlt]. apply wp_ret. split; try done. unfold playing_ok. cbn.
      assert (0 <= next) as Hn by (subst next; rewrite (ke_macroplay _ _ Hk); lia). split; [lia|]. intros _. split; [done|]. exists l.
      pose proof (list_ok0_length _ (proj1 Hlok)) as Hc0. pose proof (used_length0 _ (proj1 Hlok)) as Hlen.
      destruct (lookup_lt_is_Some_2 (used l) (Z.to_nat next) ltac:(lia)) as [m' Hm'].
      exists m'. rewrite Ems, (ke_macro _ _ Hk). split; [done|]. split; [|apply Hlok; by eapply list_elem_of_lookup_2].
      unfold used in Hm'. rewrite lookup_take in Hm'. by case_decide.
Qed.

(** ** Solutions *)

(** What [replaceanswers] makes of a puzzle. *)
Definition beats_moves (st : gamestate) (g : gamesetup) : bool :=
  (movebestcount g =? 0) || (movecount st <? movebestcount g) || ((movecount st =? movebestcount g) && (pushcount st <? movebestpushcount g)).
Definition beats_pushes (st : gamestate) (g : gamesetup) : bool :=
  (pushbestcount g =? 0) || (pushcount st <? pushbestcount g) || ((pushcount st =? pushbestcount g) && (movecount st <? pushbestmovecount g)).

Definition replaced (inc : bool) (st : gamestate) (g g' : gamesetup) (r : bool) : Prop :=
  if inc && (negb (movebestcount g =? 0) || negb (pushbestcount g =? 0)) then r = false /\ g' = g else
  let m := beats_moves st g in let p := beats_pushes st g in
  exists a b, list_ok a /\ list_ok b /\ used a = rev (used (undo st)) /\ used b = rev (used (undo st)) /\ r = m || p /\
  g' = with_answers (if m && negb inc then movecount st else movebestcount g) (if m then pushcount st else movebestpushcount g)
    (if p then pushcount st else pushbestcount g) (if p && negb inc then movecount st else pushbestmovecount g)
    (if m then a else moveanswer g) (if p then b else pushanswer g) g.

Lemma reversed_not_nil l : list_ok l -> count l <> 0 -> rev (used l) <> [].
Proof.
  intros Hl Hc E. apply (f_equal (length (A := dyx))) in E. rewrite length_rev in E. pose proof (used_length _ Hl). cbn in E. lia.
Qed.

(** A complete solution that is remembered is the one that a restart takes, with its counts. *)
Lemma replaced_chosen st g g' r (by_moves : bool) {s} : replaced false st g g' r -> count (undo st) <> 0 -> played g st s ->
  (if by_moves then beats_moves st g else beats_pushes st g) = true ->
  used (chosen by_moves g') = rev (used (undo st)) /\
  if by_moves then movebestcount g' = movecount st /\ movebestpushcount g' = pushcount st
  else pushbestcount g' = pushcount st /\ pushbestmovecount g' = movecount st.
Proof.
  unfold replaced. cbn [andb]. intros (a & b & Ha & Hb & Ua & Ub & _ & ->) Hc Hpl Hm.
  pose proof (reversed_not_nil _ (pl_undo _ _ _ Hpl) Hc) as Hne.
  assert (forall l, list_ok l -> used l = rev (used (undo st)) -> (count l =? 0) = false) as Hz.
  { intros l Hl El. apply Z.eqb_neq. intros E%(used_nil _ Hl). by rewrite El in E. }
  unfold chosen. destruct by_moves; rewrite Hm; cbn [with_answers moveanswer pushanswer movebestcount movebestpushcount pushbestcount pushbestmovecount andb negb].
  - by rewrite (Hz a), orb_true_r.
  - rewrite (Hz b) by done. cbn [orb]. by destruct (count _ =? 0).
Qed.

Lemma replaceanswers_spec w g s inc : games w !! game (state w) = Some g -> puzzle_ok g -> played g (state w) s ->
  wp (fun _ => replaceanswers inc) w (fun r w' => exists g', replaced inc (state w) g g' r /\ w' = with_games (<[game (state w) := g']> (games w)) w).
Proof.
  intros Hlk [Hg [Ha1 _] [Ha2 _]] [_ Hu _ _ _ _ _]. unfold replaceanswers, replaced. run.
  eapply wp_then with (a := g); [intros fuel; unfold get_setup, mbind, prog_bind, get_state; by rewrite Hlk|]. fold (beats_moves (state w) g).
  destruct (inc && _); [apply wp_ret; exists g; split; [done|]; rewrite list_insert_id by done; by destruct w|].
  assert (forall w1 l, list_ok0 l -> exists a, (forall fuel, reversed_loop (Z.to_nat (count (undo (state w)))) (initmovelist l) (undo (state w)) fuel w1 = Ok a w1) /\
    list_ok a /\ used a = rev (used (undo (state w)))) as Hrev.
  { intros w1 l Hl. destruct (init_ok _ Hl) as [Hi Hui]. pose proof (used_length _ Hu) as Hlen.
    destruct (reversed_run w1 _ (Z.to_nat (count (undo (state w)))) Hu ltac:(lia) _ Hi) as (a & E & H1 & H2). exists a. split; [done|]. split; [done|].
    rewrite H2, Hui, take_ge by lia. done. }
  destruct (Hrev w _ Ha1) as (a & Ea & Hoa & Hua). destruct (Hrev w _ Ha2) as (b & Eb & Hob & Hub).
  set (m := beats_moves (state w) g). set (p := beats_pushes (state w) g).
  set (g1 := if m then with_answers (if inc then movebestcount g else movecount (state w)) (pushcount (state w)) (pushbestcount g) (pushbestmovecount g) a (pushanswer g) g else g).
  eapply wp_yields with (v := g1).
  { intros fuel. subst g1. destruct m; [|done]. unfold replace_moves, mbind, prog_bind. by rewrite Ea. }
  assert ((pushbestcount g1 =? 0) || (pushcount (state w) <? pushbestcount g1) || ((pushcount (state w) =? pushbestcount g1) && (movecount (state w) <? pushbestmovecount g1)) = p) as ->
    by (subst g1; by destruct m).
  assert (pushanswer g1 = pushanswer g) as Epa by (subst g1; by destruct m).
  set (g2 := if p then with_answers (movebestcount g1) (movebestpushcount g1) (pushcount (state w)) (if inc then pushbestmovecount g1 else movecount (state w)) (moveanswer g1) b g1 else g1).
  eapply wp_yields with (v := g2).
  { intros fuel. subst g2. destruct p; [|done]. unfold replace_pushes, mbind, prog_bind. rewrite Epa, Eb. done. }
  eapply wp_then; [intros fuel; reflexivity|]. apply wp_ret. exists g2. split; [|done]. exists a, b. split_and!; try done.
  subst g2 g1. destruct g. by destruct m, p, inc.
Qed.

(** Puzzles with the same map and room; solutions may differ. *)
Definition same_puzzle (g g' : gamesetup) : Prop := exists mb mbp pb pbm a b, g' = with_answers mb mbp pb pbm a b g.

Lemma replaced_same inc st g g' r : replaced inc st g g' r -> same_puzzle g g'.
Proof.
  unfold replaced. destruct (inc && _); [intros [_ ->]|intros (a & b & _ & _ & _ & _ & _ & ->); by repeat eexists].
  exists (movebestcount g), (movebestpushcount g), (pushbestcount g), (pushbestmovecount g), (moveanswer g), (pushanswer g). by destruct g.
Qed.

Lemma played_same g g' st s : same_puzzle g g' -> played g st s -> played g' st s.
Proof. intros (mb & mbp & pb & pbm & a & b & ->) [[] Hu Hr Hf Ht Hmv Hps]. split; try done. Qed.

Lemma setup_same g g' : same_puzzle g g' -> setup_ok g -> setup_ok g'.
Proof. intros (mb & mbp & pb & pbm & a & b & ->) [H1 H2 [] H4 H5 H6 H7]. by split. Qed.

Lemma answer_same g g' l : same_puzzle g g' -> answer_ok g l -> answer_ok g' l.
Proof. intros (mb & mbp & pb & pbm & a & b & ->) [H1 [s H2]]. split; [done|]. by exists s. Qed.

Lemma replaced_puzzle inc st g g' r s : puzzle_ok g -> played g st s -> replaced inc st g g' r -> puzzle_ok g'.
Proof.
  intros [H1 H2 H3] [_ _ _ Hf _ _ _] Hr. pose proof (replaced_same _ _ _ _ _ Hr) as Hs. unfold replaced in Hr. destruct (inc && _); [by destruct Hr as [_ ->]|].
  destruct Hr as (a & b & Ha & Hb & Ua & Ub & _ & ->).
  split; [by eapply setup_same|..]; (eapply answer_same; [done|]); cbn; [destruct (beats_moves _ _) | destruct (beats_pushes _ _)]; try done.
  - split; [by left|]. exists s. by rewrite Ua, rev_involutive.
  - split; [by left|]. exists s. by rewrite Ub, rev_involutive.
Qed.

Lemma state_insert gs i g g' st : gs !! i = Some g -> same_puzzle g g' -> state_ok gs st -> state_ok (<[i := g']> gs) st.
Proof.
  intros Hi Hs (g0 & s & Hg & Hpl). destruct (decide (game st = i)) as [<-|Hne].
  - rewrite Hi in Hg. injection Hg as <-. exists g', s. split; [apply list_lookup_insert_eq; by eapply lookup_lt_Some|]. by eapply played_same.
  - exists g0, s. by rewrite list_lookup_insert_ne.
Qed.

Lemma replace_world w inc : world_ok w -> wp (fun _ => replaceanswers inc) w (fun _ w' => world_ok w').
Proof.
  intros Hw. destruct (wo_state _ Hw) as (g & s & Hg & Hpl). pose proof (Forall_lookup_1 _ _ _ _ (wo_games _ Hw) Hg) as Hpu.
  eapply wp_mono; [by eapply replaceanswers_spec|]. cbv beta. intros r w' (g' & Hr & ->). pose proof (replaced_same _ _ _ _ _ Hr) as Hs.
  destruct Hw as [H1 H2 H3 H4 H5 H6]. split; try done; cbn.
  - apply Forall_insert; [done|]. by eapply replaced_puzzle.
  - by eapply state_insert.
  - eapply Forall_impl; [done|]. intros st. by eapply state_insert.
Qed.
End world.
