(* ===== verification/SokLevel.v ===== *)
(** * Csokoban: reading a puzzle (fileread.c)

    The buffer of [readlevelmap] is a block of 256 bytes; a byte that is not in a block cannot be read. *)

From Stdlib Require Import ZArith Lia.
From stdpp Require Import base numbers list strings.
From S2P Require Import Prelude SokGame SokAnswers.

Open Scope Z_scope.

(** The file from the current position on, the buffer, the puzzle that is read, and the messages. *)
Record loader : Type := Loader { file : stream; buf : list Z; puzzle : gamesetup; messages : list string }.
Definition with_file v l := Loader v (buf l) (puzzle l) (messages l).
Definition with_buf v l := Loader (file l) v (puzzle l) (messages l).
Definition with_puzzle v l := Loader (file l) (buf l) v (messages l).
Definition with_messages v l := Loader (file l) (buf l) (puzzle l) v.

Abbreviation L := (prog loader).

Definition set_xsize v g := Gamesetup (ysize g) v (boxcount g) (goalcount g) (setup_storecount g) (start g)
  (movebestcount g) (pushbestcount g) (movebestpushcount g) (pushbestmovecount g) (moveanswer g) (pushanswer g) (game_name g) (setup_map g).
Definition set_ysize v g := Gamesetup v (xsize g) (boxcount g) (goalcount g) (setup_storecount g) (start g)
  (movebestcount g) (pushbestcount g) (movebestpushcount g) (pushbestmovecount g) (moveanswer g) (pushanswer g) (game_name g) (setup_map g).
Definition set_counts b go st s g := Gamesetup (ysize g) (xsize g) b go st s
  (movebestcount g) (pushbestcount g) (movebestpushcount g) (pushbestmovecount g) (moveanswer g) (pushanswer g) (game_name g) (setup_map g).
Definition set_name v g := Gamesetup (ysize g) (xsize g) (boxcount g) (goalcount g) (setup_storecount g) (start g)
  (movebestcount g) (pushbestcount g) (movebestpushcount g) (pushbestmovecount g) (moveanswer g) (pushanswer g) v (setup_map g).
Definition set_map v g := Gamesetup (ysize g) (xsize g) (boxcount g) (goalcount g) (setup_storecount g) (start g)
  (movebestcount g) (pushbestcount g) (movebestpushcount g) (pushbestmovecount g) (moveanswer g) (pushanswer g) (game_name g) v.

Definition change_puzzle (f : gamesetup -> gamesetup) : L unit := modify (fun l => with_puzzle (f (puzzle l)) l).
Definition get_puzzle : L gamesetup := l ← get_state; mret (puzzle l).

(** [map[i]]. *)
Definition get_cell (i : Z) : L Z :=
  g ← get_puzzle;
  if i <? 0 then fail Bad_pointer else match setup_map g !! Z.to_nat i with Some c => mret c | None => fail Bad_pointer end.
Definition put_cell (i v : Z) : L unit :=
  g ← get_puzzle;
  if (0 <=? i) && (i <? Z.of_nat (length (setup_map g))) then change_puzzle (set_map (<[Z.to_nat i := v]> (setup_map g))) else fail Bad_pointer.
Definition add_flag (i f : Z) : L unit := c ← get_cell i; put_cell i (Z.lor c f).

Definition fileerr (msg : string) : L bool := modify (fun l => with_messages (messages l ++ [msg]) l);; mret false.

(** ** pullflooring *)

Section fill.
Context (pullflooring : Z -> L unit).

(** [if (guard && (map[i] & (WALL | FLOOR)) == FLOOR) pullflooring(map, i)]. *)
Definition pull_next (guard : bool) (i : Z) : L unit :=
  if guard then c ← get_cell i; if Z.land c (Z.lor WALL FLOOR) =? FLOOR then pullflooring i else mret tt else mret tt.
End fill.

Fixpoint pullflooring (k : nat) (pos : Z) : L unit :=
  match k with
  | O => fail Out_of_fuel
  | S k =>
      c ← get_cell pos;
      if has c WALL then mret tt else
      put_cell pos (Z.ldiff c FLOOR);;
      pull_next (pullflooring k) (XSIZE <=? pos) (pos - XSIZE);;
      pull_next (pullflooring k) (pos <=? MAXHEIGHT * MAXWIDTH - XSIZE) (pos + XSIZE);;
      pull_next (pullflooring k) (0 <? pos mod XSIZE) (pos - 1);;
      pull_next (pullflooring k) (pos mod XSIZE <? MAXWIDTH - 1) (pos + 1)
  end.

(** ** improvemap *)

(** The cells from [i] on, [n] of them: [initpos], or [None] for a second player. *)
Fixpoint floor_row (n : nat) (i initpos : Z) : L (option Z) :=
  match n with
  | O => mret (Some initpos)
  | S n =>
      c ← get_cell i;
      if has c WALL then floor_row n (i + 1) initpos else
      put_cell i (Z.lor c FLOOR);;
      c ← get_cell i;
      if has c PLAYER then
        if negb (initpos =? 0) then fileerr "multiple players in map";; mret None else floor_row n (i + 1) i
      else floor_row n (i + 1) initpos
  end.

Fixpoint floor_rows (n : nat) (y xs initpos : Z) : L (option Z) :=
  match n with
  | O => mret (Some initpos)
  | S n =>
      r ← floor_row (Z.to_nat xs) (y * XSIZE) initpos;
      match r with None => mret None | Some initpos => floor_rows n (y + 1) xs initpos end
  end.

(** [if (map[j] & WALL) map[j] |= f]. *)
Definition extend (j f : Z) : L unit := c ← get_cell j; if has c WALL then add_flag j f else mret tt.

Fixpoint join_row (n : nat) (i : Z) : L unit :=
  match n with
  | O => mret tt
  | S n =>
      c ← get_cell i;
      (if has c WALL then
         extend (i + XSIZE) EXTENDNORTH;;
         extend (i - XSIZE) EXTENDSOUTH;;
         extend (i + 1) EXTENDWEST;;
         extend (i - 1) EXTENDEAST
       else mret tt);;
      join_row n (i + 1)
  end.

Fixpoint join_rows (n : nat) (y xs : Z) : L unit :=
  match n with
  | O => mret tt
  | S n => join_row (Z.to_nat (xs - 2)) (y * XSIZE + 1);; join_rows n (y + 1) xs
  end.

(** [memset(map + i, WALL, n)]. *)
Fixpoint wall_row (n : nat) (i : Z) : L unit :=
  match n with
  | O => mret tt
  | S n => put_cell i WALL;; wall_row n (i + 1)
  end.

Fixpoint wall_rows (n : nat) (y xs : Z) : L unit :=
  match n with
  | O => mret tt
  | S n => put_cell (y * XSIZE + (xs - 1)) WALL;; put_cell (y * XSIZE) WALL;; wall_rows n (y + 1) xs
  end.

Definition improvemap : L bool :=
  g ← get_puzzle;
  let ys := ysize g in let xs := xsize g in
  r ← floor_rows (Z.to_nat ys) 0 xs 0;
  match r with
  | None => mret false
  | Some initpos =>
      if initpos =? 0 then fileerr "no player in map" else
      with_fuel (fun k => pullflooring k 0);;
      join_rows (Z.to_nat (ys - 2)) 1 xs;;
      wall_row (Z.to_nat xs) 0;;
      wall_rows (Z.to_nat (ys - 2)) 1 xs;;
      wall_row (Z.to_nat xs) ((1 + Z.max 0 (ys - 2)) * XSIZE);;
      mret true
  end.

(** ** readlevelmap *)

(** [buf[i]]. *)
Definition byte (i : Z) : L Z :=
  l ← get_state;
  if i <? 0 then fail Bad_pointer else match buf l !! Z.to_nat i with Some c => mret c | None => fail Bad_pointer end.

(** Bytes written from [off] on. *)
Definition written (off : nat) (s b : list Z) : list Z := take off b ++ s ++ drop (off + length s) b.

Definition next_char : L Z := fun fuel l => match fgetc fuel (file l) with Ok c f => Ok c (with_file f l) | Fault e => Fault e end.
Definition unget (ch : Z) : L unit := modify (fun l => with_file (Stream (ch :: bytes (file l)) false) l).

(** [getnline(fp, buf + off, len)]: what [fgets] reads is put into the buffer with a zero behind; at the end of the file nothing is. *)
Definition read_line (off : nat) (len : Z) : L Z := fun fuel l =>
  match getnline len fuel (file l) with
  | Ok (s, n) f => Ok n (with_file f (if n =? -1 then match bytes (file l) with [] => l | _ => with_buf (written off (s ++ [0]) (buf l)) l end
      else with_buf (written off (s ++ [0]) (buf l)) l))
  | Fault e => Fault e
  end.

(** The value of a character of the file. *)
Definition filecell (c : Z) : option Z :=
  if c =? 32 then Some 0 else if c =? 46 then Some 1 else if c =? 64 then Some 2 else if c =? 43 then Some 3
  else if c =? 36 then Some 4 else if c =? 42 then Some 5 else if c =? 35 then Some 8 else None.

(** One line of the map: [x] behind it, and whether a character is not known. *)
Fixpoint row_loop (k : nat) (y x i : Z) : L (Z * bool) :=
  match k with
  | O => fail Out_of_fuel
  | S k =>
      if negb (x <? MAXWIDTH) then mret (x, false) else
      c ← byte i;
      if (c =? 0) || (c =? 10) || (c =? 59) then mret (x, false) else
      if c =? 9 then row_loop k y (Z.lor x 7 + 1) (i + 1) else
      match filecell c with
      | None => fileerr "unrecognized character in level";; mret (x, true)
      | Some v => put_cell (y * XSIZE + x) v;; row_loop k y (x + 1) (i + 1)
      end
  end.

(** [for (x = 1 ; isspace(buf[x]) ; ++x)]. *)
Fixpoint blanks_loop (k : nat) (x : Z) : L Z :=
  match k with
  | O => fail Out_of_fuel
  | S k => c ← byte x; if isspace c then blanks_loop k (x + 1) else mret x
  end.

(** [for (--n ; isspace(name[n]) ; --n)] on the text that was copied: what is left of it. *)
Fixpoint trimmed (r : list Z) : option (list Z) :=
  match r with
  | [] => None
  | c :: r => if isspace c then trimmed r else Some (rev (c :: r))
  end.

(** A title line. *)
Definition read_title (n : Z) : L unit :=
  x ← with_fuel (fun k => blanks_loop k 1);
  let n := n - x in
  let n := if 64 <=? n then 63 else n in
  if n <? 0 then fail Bad_pointer else
  l ← get_state;
  match trimmed (rev (take (Z.to_nat n) (drop (Z.to_nat x) (buf l)))) with
  | None => fail Bad_pointer
  | Some name => change_puzzle (set_name name)
  end.

(** The lines: [y] where the loop ends, or [None] for [return FALSE]. *)
Fixpoint lines_loop (k : nat) (y : Z) (badmap : bool) : L (option Z) :=
  match k with
  | O => fail Out_of_fuel
  | S k =>
      if negb (y <? MAXHEIGHT) then mret (Some y) else
      ch ← next_char;
      if ch =? EOF then mret (if 1 <? y then Some y else None) else
      if (ch =? 10) || (ch =? 59) || (ch =? 61) || (ch =? 39) then
        if 1 <? y then unget ch;; mret (Some y) else
        if ch =? 10 then lines_loop k y badmap else
        n ← read_line 0 256;
        if n <? 0 then mret None else
        c ← byte 0;
        (if (ch =? 59) && (c =? 59) then read_title n else mret tt);;
        lines_loop k y badmap
      else
        modify (fun l => with_buf (<[0%nat := ch]> (buf l)) l);;
        read_line 1 255;;
        if badmap then lines_loop k (y + 1) badmap else
        r ← with_fuel (fun k => row_loop k y 1 0);
        let '(x, bad) := r in
        g ← get_puzzle;
        if xsize g <=? x then
          change_puzzle (set_xsize (x + 1));;
          if MAXWIDTH <? x + 1 then mret (Some y) else lines_loop k (y + 1) bad
        else lines_loop k (y + 1) bad
  end.

(** The counts over the cells from [i] on: boxes, goals, boxes on goals, and the player. *)
Fixpoint count_loop (n : nat) (i b go st s : Z) : L (Z * Z * Z * Z) :=
  match n with
  | O => mret (b, go, st, s)
  | S n =>
      c ← get_cell i;
      let isp := has c PLAYER in
      let isb := negb isp && has c BOX in
      let isg := has c GOAL in
      count_loop n (i + 1) (if isb then b + 1 else b) (if isg then go + 1 else go) (if isb && isg then st + 1 else st) (if isp then i else s)
  end.

Definition readlevelmap : L bool :=
  change_puzzle (fun g => set_xsize 1 (set_map (replicate 1024 EMPTY) (set_name [] g)));;
  r ← with_fuel (fun k => lines_loop k 1 false);
  match r with
  | None => mret false
  | Some y =>
      change_puzzle (set_ysize (y + 1));;
      g ← get_puzzle;
      if (MAXHEIGHT <? y + 1) || (MAXWIDTH <? xsize g) then fileerr "ignoring map which exceeds maximum dimensions" else
      ok ← improvemap;
      if negb ok then mret false else
      x ← count_loop (Z.to_nat (ysize g * XSIZE)) 0 0 0 0 (start g);
      let '(b, go, st, s) := x in
      change_puzzle (set_counts b go st s);;
      mret true
  end.
