(* ===== verification/SokSession.v ===== *)
(** * Csokoban: sessions

    Every turn keeps the invariant; what runs of turns reach; the solutions that are kept can be replayed. *)

From Stdlib Require Import ZArith Lia.
From stdpp Require Import base numbers list gmap sets fin_sets.
From S2P Require Import Prelude SokGame SokRule SokShow SokPlay SokAnswers SokText SokTurn SokWorld.

Open Scope Z_scope.

Section session.
Context {MEM : memory} {TERM : terminal}.

(** ** Saving to disk *)

Lemma saveanswer_text {S} (w : S) l inc : list_ok0 l -> exists t, yields (saveanswer l inc) w t.
Proof.
  intros [H|(H1 & H2 & H3)]; [eexists; by apply saveanswer_yields|]. eexists. intros fuel. unfold saveanswer. by rewrite H2.
Qed.

Lemma saveanswers_game_text {S} (w : S) i g : list_ok0 (moveanswer g) -> list_ok0 (pushanswer g) -> exists t, yields (saveanswers_game i g) w t.
Proof.
  intros Ha Hb. destruct (saveanswer_text w _ true Ha) as [t1 E1]. destruct (saveanswer_text w _ false Ha) as [t2 E2]. destruct (saveanswer_text w _ false Hb) as [t3 E3].
  unfold saveanswers_game. destruct (count (moveanswer g) =? 0); [by eexists|]. destruct (movebestcount g =? 0).
  - eexists. intros fuel. unfold mbind, prog_bind. by rewrite E1.
  - destruct (negb _ && negb _); eexists; intros fuel; unfold mbind, prog_bind; rewrite E2; [by rewrite E3 | done].
Qed.

Lemma saveanswers_text {S} (w : S) gs : Forall puzzle_ok gs -> forall i, exists t, yields (saveanswers_loop i gs) w t.
Proof.
  induction 1 as [|g gs [_ [Ha _] [Hb _]] Hgs IH]; intros i; [by eexists|]. destruct (saveanswers_game_text w i g Ha Hb) as [t1 E1]. destruct (IH (i + 1)) as [t2 E2].
  exists (t1 ++ t2). intros fuel. cbn. unfold mbind, prog_bind. by rewrite E1, E2.
Qed.

Lemma save_aside w series : Forall puzzle_ok (games w) -> wp (fun _ => saveanswers series) w (fun r w' => r = true /\ aside w w').
Proof.
  intros Hgs. unfold saveanswers. destruct savedir; [|by apply wp_ret]. cbn [negb]. run.
  destruct (saveanswers_text w (games_of series (games w)) ltac:(by apply Forall_take, Forall_drop) 0) as [t E]. eapply wp_yields; [exact E|].
  run. by apply wp_ret.
Qed.

(** ** Turns *)

Lemma ding_world w : world_ok w -> wp (fun _ => ding) w (fun _ w' => world_ok w').
Proof. intros H. eapply wp_running; [reflexivity|]. by apply say_world. Qed.

Lemma or_ding_world (p : K bool) w : wp (fun _ => p) w (fun _ w' => world_ok w') -> wp (fun _ => or_ding p) w (fun _ w' => world_ok w').
Proof. intros H. eapply wp_call; [exact H|]. cbv beta. intros [] w' Hw; [by apply wp_ret | by apply ding_world]. Qed.

Lemma ignore_world {A} (Q : A -> world -> Prop) (p : K bool) w : wp (fun _ => p) w (fun _ w' => world_ok w') -> wp (fun _ => ignore p) w (fun _ w' => world_ok w').
Proof. intros H. eapply wp_call; [exact H|]. cbv beta. intros _ w' Hw. by apply wp_ret. Qed.

Lemma newmove_world w d : world_ok w -> d ∈ dirs -> wp (fun _ => newmove d) w (fun _ w' => world_ok w').
Proof.
  intros Hw Hd. eapply wp_mono; [apply (moves_world (fun _ => newmove d) w Hw)|by intros ? ? []].
  intros g s Hg Hpu Hpl. eapply wp_mono; [apply (newmove_spec g); try done; apply Hpu || apply Hw|]. cbv beta. intros r w' (-> & Hk & H1). split; [done|].
  destruct (legal _ _ _); [by eauto | subst; by eauto].
Qed.

Lemma run_world w d : world_ok w -> d ∈ dirs -> wp (fun _ => with_fuel (fun n => run_loop n d)) w (fun _ w' => world_ok w').
Proof.
  intros Hw Hd. apply wp_with_fuel. eapply wp_mono; [apply (moves_world (fun n => run_loop n d) w Hw)|by intros ? ? []].
  intros g s Hg Hpu Hpl. eapply wp_mono; [apply (run_spec g d (pu_setup _ Hpu) Hd w s Hpl); apply Hw|]. cbv beta. intros _ w' (Hk & s' & Hs' & _). by eauto.
Qed.

Lemma undo_world w : world_ok w -> wp (fun _ => undomove) w (fun _ w' => world_ok w').
Proof.
  intros Hw. eapply wp_mono; [apply (moves_world (fun _ => undomove) w Hw)|by intros ? ? []].
  intros g s Hg Hpu Hpl. eapply wp_mono; [apply (undomove_spec g (pu_setup _ Hpu) w s Hpl); apply Hw|]. cbv beta.
  intros r w' (Hk & [(_ & _ & ->)|(s0 & m & _ & H & _)]); by eauto.
Qed.

Lemma redo_world w : world_ok w -> wp (fun _ => redomove) w (fun _ w' => world_ok w').
Proof.
  intros Hw. eapply wp_mono; [apply (moves_world (fun _ => redomove) w Hw)|by intros ? ? []].
  intros g s Hg Hpu Hpl. eapply wp_mono; [apply (redomove_spec g (pu_setup _ Hpu) w s Hpl); apply Hw|]. cbv beta.
  intros r w' (Hk & [(_ & _ & ->)|(m & _ & _ & _ & _ & H & _)]); by eauto.
Qed.

Lemma undos_world w n : world_ok w -> wp (fun _ => undomoves n) w (fun _ w' => world_ok w').
Proof.
  intros Hw. unfold undomoves. run. destruct (_ =? 0); [by apply wp_ret|].
  eapply wp_call; [apply (moves_world (fun _ => undo_times n) w Hw)|]; [|cbv beta; intros _ w' [Hw' _]; by apply wp_ret].
  intros g s Hg Hpu Hpl. apply (undo_times_spec g n (pu_setup _ Hpu) w s Hpl), Hw.
Qed.

Lemma redos_world w n : world_ok w -> wp (fun _ => redomoves n) w (fun _ w' => world_ok w').
Proof.
  intros Hw. unfold redomoves. run. destruct (_ =? 0); [by apply wp_ret|].
  eapply wp_call; [apply (moves_world (fun _ => redo_times n) w Hw)|]; [|cbv beta; intros _ w' [Hw' _]; by apply wp_ret].
  intros g s Hg Hpu Hpl. apply (redo_times_spec g n (pu_setup _ Hpu) w s Hpl), Hw.
Qed.

Lemma partialsave_world w : world_ok w -> wp (fun _ => partialsave) w (fun _ w' => world_ok w').
Proof.
  intros Hw. unfold partialsave. eapply wp_call; [by apply replace_world|]. cbv beta. intros [] w1 Hw1; [|by apply wp_ret].
  run. eapply wp_mono; [apply save_aside, Hw1|]. cbv beta. intros _ w' [_ H]. by eapply aside_world.
Qed.

(** A command that the user gives: [?] waits for another key. *)
Lemma command_world k w : world_ok w -> macroplay w = -1 -> (k = 63 -> keys w <> []) -> wp (fun _ => command k) w (fun _ w' => world_ok w').
Proof.
  intros Hw Hmp Hk. unfold command.
  assert (forall d, d ∈ dirs -> wp (fun _ => ignore (newmove d)) w (fun _ w' => world_ok w')) as Hmove by (intros d Hd; eapply (ignore_world (A := bool) (fun _ _ => True)); by apply newmove_world).
  repeat case_match; try (by apply Hmove; unfold dirs, XSIZE, MAXWIDTH; rewrite !elem_of_cons; auto); try (by apply run_world; [done | unfold dirs, XSIZE, MAXWIDTH; rewrite !elem_of_cons; auto]).
  - by apply or_ding_world, undo_world.
  - by apply or_ding_world, redo_world.
  - by apply or_ding_world, undos_world.
  - by apply or_ding_world, redos_world.
  - by apply init_world.
  - by apply init_world.
  - eapply wp_mono; [by apply save_world|]. by intros ? ? [].
  - apply or_ding_world. eapply wp_mono; [by apply restore_world|]. by intros ? ? [].
  - by apply or_ding_world, partialsave_world.
  - by apply setmacro_world.
  - by apply or_ding_world, startmacro_world.
  - match goal with E : (k =? 63) = true |- _ => apply Z.eqb_eq, Hk in E as Hkeys end. unfold drawhelpscreen, input. run.
    destruct (keys w) as [|k' l] eqn:E; [done|]. eapply wp_then with (a := k') (s' := with_keys l (with_events (events w ++ [Help]) w)).
    { intros fuel. unfold mbind, prog_bind, get_state. cbn. by rewrite E. }
    apply wp_ret. by eapply aside_world.
  - by apply wp_ret.
Qed.

(** There is a key for the turn, and it is not the one to quit. *)
Definition has_key (w : world) : Prop := 0 <= macroplay w \/
  exists k l, keys w = k :: l /\ k <> 113 /\ k <> 81 /\ (k = 63 -> l <> []).

Lemma doturn_world w : world_ok w -> has_key w -> wp (fun _ => doturn) w (fun _ w' => world_ok w').
Proof.
  intros Hw Hkey. unfold doturn, isplaying. run. destruct (Z.leb_spec 0 (macroplay w)) as [Hp|Hp].
  - eapply wp_call; [by apply macromove_world|]. cbv beta. intros _ w' Hw'. by apply wp_ret.
  - destruct Hkey as [?|(k & l & E & H1 & H2 & H3)]; [lia|]. assert (macroplay w = -1) as Hmp by (pose proof (proj1 (wo_playing _ Hw)); lia).
    eapply wp_then with (a := k) (s' := with_keys l w); [intros fuel; unfold input, mbind, prog_bind, get_state; by rewrite E|].
    assert (world_ok (with_keys l w)) as Hw' by (by eapply aside_world).
    destruct (Z.eqb_spec k 80); [by apply wp_ret|]. destruct (Z.eqb_spec k 78); [by apply wp_ret|]. destruct (Z.eqb_spec k 113); [done|]. destruct (Z.eqb_spec k 81); [done|].
    cbn [orb]. eapply wp_call; [by apply command_world|]. cbv beta. intros _ w2 Hw2. by apply wp_ret.
Qed.

(** ** What is reached *)

(** With enough fuel [p] returns, and always the same. *)
Definition returns {A} (p : K A) (w : world) (a : A) (w' : world) : Prop := exists N, forall fuel, (N <= fuel)%nat -> p fuel w = Ok a w'.

Lemma returning_wp {A} (p : K A) w a w' (Q : A -> world -> Prop) : returns p w a w' -> wp (fun _ => p) w Q -> Q a w'.
Proof using Type.
  intros [N1 H1] (N2 & b & w2 & H2 & HQ). specialize (H1 (N1 `max` N2)%nat ltac:(lia)). rewrite (H2 (N1 `max` N2)%nat) in H1 by lia. by injection H1 as <- <-.
Qed.

Lemma doturn_key w n w' : returns doturn w n w' -> -1 <= macroplay w -> has_key w.
Proof using Type.
  intros [N H] Hmp. specialize (H N ltac:(lia)). unfold has_key. destruct (Z.leb_spec 0 (macroplay w)) as [Hp|Hp]; [by left|]. right.
  unfold doturn, isplaying, input, mbind, prog_bind, get_state in H. apply Z.leb_gt in Hp. cbn in H. rewrite Hp in H.
  destruct (keys w) as [|k l] eqn:E; [done|]. exists k, l. cbn in H. split; [done|].
  destruct (Z.eqb_spec k 113) as [->|H1]; [done|]. destruct (Z.eqb_spec k 81) as [->|H2]; [done|]. split; [done|]. split; [done|]. intros -> ->. done.
Qed.

(** A new puzzle. *)
Definition new_puzzle (i lv : nat) (b : bool) : K unit := selectgame i lv;; initgamestate b.

(** The world when the program starts. *)
Record blank (w : world) : Prop := Blank {
  bl_games : Forall puzzle_ok (games w);
  bl_stack : stack w = [];
  bl_macros : macros_ok (macros w);
  bl_recording : recording w = false;
  bl_macroplay : macroplay w = -1;
  bl_undo : list_ok0 (undo (state w))
}.

(** What happens between two turns: the screen is drawn, a solved puzzle is remembered, the saved positions are dropped, another puzzle is chosen. *)
Inductive next : world -> world -> Prop :=
  | next_turn w n w' : returns doturn w n w' -> next w w'
  | next_draw w i b w' : returns (drawscreen i) w b w' -> next w w'
  | next_solved w b w' : returns (replaceanswers false) w b w' -> next w w'
  | next_free w w' : returns freesavedstates w tt w' -> next w w'
  | next_puzzle w i lv b w' : (i < length (games w))%nat -> returns (new_puzzle i lv b) w tt w' -> next w w'.

Inductive session : world -> Prop :=
  | session_start w i lv b w' : blank w -> (i < length (games w))%nat -> returns (new_puzzle i lv b) w tt w' -> session w'
  | session_next w w' : session w -> next w w' -> session w'.

Lemma new_puzzle_spec w i lv b : (i < length (games w))%nat -> Forall puzzle_ok (games w) -> list_ok0 (undo (state w)) ->
  wp (fun _ => new_puzzle i lv b) w (fun _ w' => exists st, state_ok (games w) st /\
    w' = World (games w) (stack w) (map emptied (macros w)) (macro w) false (macroplay w) st (keys w) (events w) (currentseries w) (currentgame w) (usemoves w)).
Proof using Type.
  intros Hi Hgs Hu. destruct (lookup_lt_is_Some_2 _ _ Hi) as [g Hg]. pose proof (Forall_lookup_1 _ _ _ _ Hgs Hg) as Hpu.
  unfold new_puzzle, selectgame. eapply wp_then; [intros; reflexivity|]. cbv beta.
  eapply wp_mono; [apply (init_spec _ g b); [exact Hg | done | exact Hu]|]. cbv beta. intros _ w' (st & Hst & _ & _ & Eg & _ & ->).
  exists st. split; [|done]. exists g, (start_pos g). split; [by rewrite Eg | done].
Qed.

Lemma emptied_macros ms : macros_ok ms -> macros_ok (map emptied ms).
Proof using Type.
  intros [H1 H2]. split; [by rewrite <- H1; apply length_map|]. apply Forall_map. eapply Forall_impl; [done|]. intros l. apply emptied_ok.
Qed.

Lemma next_world w w' : world_ok w -> next w w' -> world_ok w'.
Proof.
  intros Hw Hn. destruct Hn as [w n w' H|w i b w' H|w b w' H|w w' H|w i lv b w' Hi H].
  - refine (returning_wp _ _ _ _ _ H (doturn_world w Hw _)). eapply doturn_key; [done | apply Hw].
  - refine (returning_wp _ _ _ _ (fun _ w' => world_ok w') H _). destruct (macro_at_ok _ Hw) as (l & E & _). destruct (wo_state _ Hw) as (g & s & Hg & _). unfold drawscreen.
    eapply wp_then; [intros; reflexivity|]. eapply wp_then with (a := g); [intros fuel; unfold get_setup, mbind, prog_bind, get_state; by rewrite Hg|].
    eapply wp_then; [exact E|]. eapply wp_then; [intros; reflexivity|]. apply wp_ret. by apply say_world.
  - refine (returning_wp _ _ _ _ _ H (replace_world w false Hw)).
  - refine (returning_wp _ _ _ _ (fun _ w' => world_ok w') H _). eapply wp_running; [reflexivity|]. destruct Hw as [H1 H2 H3 H4 H5 H6]. by split.
  - refine (returning_wp _ _ _ _ (fun _ w' => world_ok w') H _). destruct Hw as [H1 H2 H3 H4 H5 H6].
    eapply wp_mono; [apply new_puzzle_spec; [done | done | by eapply state_undo_ok]|]. cbv beta. intros _ w2 (st & Hst & ->). split; try done; [by apply emptied_macros | by apply playing_emptied].
Qed.

Lemma session_world_ok w : session w -> world_ok w.
Proof.
  induction 1 as [w i lv b w' [B1 B2 B3 B4 B5 B6] Hi H|w w' _ IH Hn]; [|by eapply next_world].
  refine (returning_wp _ _ _ _ (fun _ w' => world_ok w') H _). eapply wp_mono; [by apply new_puzzle_spec|]. cbv beta. intros _ w2 (st & Hst & ->). split; try done.
  - cbn. by rewrite B2.
  - by apply emptied_macros.
  - split; cbn; rewrite B5; lia.
Qed.

(** ** Finished puzzles *)

Definition solved (g : gamesetup) (s : pos) : Prop :=
  (forall i, i ∈ boxes s -> goal g i = true) \/ (forall i, 0 <= i < 1024 -> goal g i = true -> i ∈ boxes s).

Lemma plays_size w0 s l s' : plays w0 s l s' -> size (boxes s') = size (boxes s).
Proof using Type. induction 1 as [|s d l s' Hd Hl H IH]; [done|]. rewrite IH. by eapply moved_size. Qed.

Lemma finished_spec g st s : setup_ok g -> played g st s -> ((storecount st =? boxcount g) || (storecount st =? goalcount g)) = true <-> solved g s.
Proof using Type.
  intros Hg Hpl. destruct (pl_at _ _ _ Hpl) as [_ _ Hst Hok]. rewrite Hst, (su_boxes _ Hg), (su_goals _ Hg), <- (plays_size _ _ _ _ (pl_from _ _ _ Hpl)). unfold stored, solved.
  set (P := fun i => goal g i = true). rewrite orb_true_iff, !Z.eqb_eq.
  assert (NoDup room_cells) as Hnd by apply NoDup_seqZ.
  assert (length (filter P room_cells) = size (list_to_set (filter P room_cells) : gset Z)) as -> by (rewrite size_list_to_set; [done | by apply NoDup_filter]).
  set (G := list_to_set (filter P room_cells) : gset Z).
  assert (forall i, i ∈ G <-> 0 <= i < 1024 /\ P i) as HG by (intros i; unfold G; rewrite elem_of_list_to_set, list_elem_of_filter; unfold room_cells; rewrite elem_of_seqZ; split; [intros []; split; [lia|done] | intros []; split; [done|lia]]).
  assert (filter P (boxes s) ⊆ boxes s) as Hsub1 by (intros i [_ ?]%elem_of_filter; done).
  assert (filter P (boxes s) ⊆ G) as Hsub2.
  { intros i [Hi Hb]%elem_of_filter. apply HG. split; [|done]. pose proof (setup_range _ _ Hg (proj1 (po_boxes _ _ _ _ Hok i Hb))). lia. }
  assert (forall X Y : gset Z, X ⊆ Y -> size X = size Y -> Y ⊆ X) as Heq.
  { intros X Y Hs E. destruct (decide (Y ⊆ X)) as [|Hn]; [done|]. assert (X ⊂ Y) as Hp by done. apply subset_size in Hp. lia. }
  split; (intros [H|H]; [left|right]).
  - intros i Hi. apply Nat2Z.inj in H. by apply (Heq _ _ Hsub1) in H; apply H, elem_of_filter in Hi as [? _].
  - intros i Hi Hgi. apply Nat2Z.inj in H. apply (Heq _ _ Hsub2) in H. assert (i ∈ G) as HiG by (by apply HG). by apply H, elem_of_filter in HiG as [_ ?].
  - f_equal. replace (filter P (boxes s)) with (boxes s); [done|]. apply set_eq. intros i. rewrite elem_of_filter. unfold P. naive_solver.
  - f_equal. replace (filter P (boxes s)) with G; [done|]. apply set_eq. intros i. rewrite elem_of_filter. split; [intros Hi; pose proof Hi as [Hr HP]%HG; auto | intros [HP Hi]; apply Hsub2, elem_of_filter; done].
Qed.

(** ** Replaying a solution *)

(** Redoing as often as there are moves to redo leads to the end. *)
Lemma redo_all_spec g n : setup_ok g -> forall w s s', played g (state w) s -> recorder_ok w -> length (used (redo (state w))) = n ->
  plays (wall g) s (rev (used (redo (state w)))) s' ->
  wp (fun _ => redo_times n) w (fun _ w' => keeps w w' /\ played g (state w') s' /\ used (undo (state w')) = used (undo (state w)) ++ rev (used (redo (state w))) /\
    used (redo (state w')) = []).
Proof using Type.
  intros Hg. induction n as [|n IH]; intros w s s' Hpl Hrec Hlen Hto.
  - apply nil_length_inv in Hlen. rewrite Hlen in *. cbn in Hto. inversion Hto; subst. apply wp_ret. split; [done|]. split; [done|]. by rewrite app_nil_r.
  - cbn [redo_times]. eapply wp_call; [by apply (redomove_spec g Hg w s)|]. cbv beta. intros b w1 [Hk [(E & _ & _)|(m & -> & Hd & Hl & Hb & Hpl1 & Hused & Hun)]]; [by rewrite E in Hlen|].
    rewrite Hused, rev_app_distr in Hto. cbn in Hto. apply plays_cons_inv in Hto as (_ & _ & _ & Hto). rewrite Hused, length_app in Hlen. cbn in Hlen.
    eapply wp_mono; [apply (IH w1 (moved s (yx m)) s' Hpl1); [by apply Hk | lia | done]|]. cbv beta. intros _ w' (Hk' & Hpl' & Hun' & Hre'). split; [by etrans|]. split; [done|]. split; [|done].
    rewrite Hun', Hun, Hused, rev_app_distr, <- app_assoc. done.
Qed.
End session.
