(* ===== verification/SokFill.v ===== *)
(** * Csokoban: the flood fill of pullflooring and the lines of a puzzle (fileread.c)

    Exactly the cells that FLOOR cells connect with the first one lose their FLOOR; a puzzle that is accepted is a room. *)

From Stdlib Require Import ZArith Lia.
From stdpp Require Import base numbers list gmap sets fin_sets strings.
From S2P Require Import Prelude SokGame SokRule SokShow SokPlay SokAnswers SokLevel.

Open Scope Z_scope.

(** ** Runs that may fail

    [safe ok p s Q]: for all large enough fuel the run ends in the same way, with a result that satisfies [Q], or, if [ok], with a fault of the code. *)

Definition safe {S A} (ok : Prop) (p : nat -> prog S A) (s : S) (Q : A -> S -> Prop) : Prop :=
  exists N o, (forall n fuel, (N <= n)%nat -> (N <= fuel)%nat -> p n fuel s = o) /\
    match o with Ok a s' => Q a s' | Fault f => ok /\ f <> Out_of_fuel end.

Section safe_rules.
Context {S : Type} (ok : Prop).

Lemma safe_halts {A} (p : nat -> prog S A) (s : S) Q : safe ok p s Q -> halts p s Q.
Proof. intros (N & o & H & Ho). exists N, o. split; [done|]. destruct o; [done | apply Ho]. Qed.

Lemma safe_wp {A} (p : nat -> prog S A) (s : S) Q : ~ ok -> safe ok p s Q -> wp p s Q.
Proof. intros Hok (N & o & H & Ho). destruct o as [a s'|f]; [by exists N, a, s' | tauto]. Qed.

Lemma wp_safe {A} (p : nat -> prog S A) (s : S) Q : wp p s Q -> safe ok p s Q.
Proof. intros (N & a & s' & H & HQ). by exists N, (Ok a s'). Qed.

Lemma safe_ret {A} (a : A) (s : S) (Q : A -> S -> Prop) : Q a s -> safe ok (fun _ => mret a) s Q.
Proof. intros H. by exists 0%nat, (Ok a s). Qed.

Lemma safe_fail {A} f (s : S) (Q : A -> S -> Prop) : ok -> f <> Out_of_fuel -> safe ok (fun _ => fail f) s Q.
Proof. intros H Hf. by exists 0%nat, (Fault f). Qed.

Lemma safe_mono {A} (p : nat -> prog S A) (s : S) (P Q : A -> S -> Prop) : safe ok p s P -> (forall a s', P a s' -> Q a s') -> safe ok p s Q.
Proof. intros (N & o & H & HP) HPQ. exists N, o. split; [done|]. destruct o; auto. Qed.

Lemma safe_call {A B} (p : nat -> prog S A) (k : nat -> A -> prog S B) (s : S) P Q :
  safe ok p s P -> (forall a s', P a s' -> safe ok (fun n => k n a) s' Q) -> safe ok (fun n => p n ≫= k n) s Q.
Proof.
  intros (N1 & o & H1 & Ho) Hk. destruct o as [a s1|f].
  - destruct (Hk _ _ Ho) as (N2 & o & H2 & HQ). exists (N1 `max` N2)%nat, o. split; [|done]. intros n fuel Hn Hf.
    unfold mbind, prog_bind. rewrite H1 by lia. apply H2; lia.
  - exists N1, (Fault f). split; [|done]. intros n fuel Hn Hf. unfold mbind, prog_bind. by rewrite H1 by lia.
Qed.

Lemma safe_run {A} (p : prog S A) (s s' : S) a (Q : A -> S -> Prop) : (forall fuel, p fuel s = Ok a s') -> Q a s' -> safe ok (fun _ => p) s Q.
Proof. intros H HQ. exists 0%nat, (Ok a s'). split; [|done]. intros. apply H. Qed.

Lemma safe_then {A B} (p : prog S A) (k : nat -> A -> prog S B) (s s' : S) a Q :
  (forall fuel, p fuel s = Ok a s') -> safe ok (fun n => k n a) s' Q -> safe ok (fun n => p ≫= k n) s Q.
Proof. intros H HQ. eapply safe_call with (P := fun b s2 => b = a /\ s2 = s'); [by eapply safe_run | by intros ? ? [-> ->]]. Qed.

Lemma safe_with_fuel {A} (loop : nat -> prog S A) (s : S) Q : safe ok loop s Q -> safe ok (fun _ => with_fuel loop) s Q.
Proof. intros (N & o & H & HQ). exists N, o. split; [|done]. intros n fuel _ Hf. by apply H. Qed.

Lemma safe_unfold {A} (p q : nat -> prog S A) (s : S) Q : (forall n, p (Datatypes.S n) = q n) -> safe ok q s Q -> safe ok p s Q.
Proof.
  intros E (N & o & H & HQ). exists (Datatypes.S N), o. split; [|done]. intros n fuel Hn Hf. destruct n as [|n]; [lia|]. rewrite E. apply H; lia.
Qed.
End safe_rules.

(** ** Cells of a map *)

Definition at_ (m : list Z) (i : Z) : Z := default 0 (m !! Z.to_nat i).
Definition map_of (l : loader) : list Z := setup_map (puzzle l).
Definition with_cells (m : list Z) (l : loader) : loader := with_puzzle (set_map m (puzzle l)) l.

Lemma with_cells_map m l : map_of (with_cells m l) = m.
Proof. done. Qed.
Lemma with_cells_twice m m' l : with_cells m' (with_cells m l) = with_cells m' l.
Proof. done. Qed.
Lemma with_cells_same l : with_cells (map_of l) l = l.
Proof. destruct l as [f b [] ms]. done. Qed.

Lemma get_cell_run l i : length (map_of l) = 1024%nat -> 0 <= i < 1024 -> forall fuel, get_cell i fuel l = Ok (at_ (map_of l) i) l.
Proof.
  intros Hl Hi fuel. unfold get_cell, get_puzzle, mbind, prog_bind, get_state. cbn. destruct (Z.ltb_spec i 0); [lia|]. unfold at_, map_of in *.
  destruct (lookup_lt_is_Some_2 (setup_map (puzzle l)) (Z.to_nat i)) as [c Hc]; [lia|]. by rewrite Hc.
Qed.

Lemma put_cell_run l i v : length (map_of l) = 1024%nat -> 0 <= i < 1024 -> forall fuel,
  put_cell i v fuel l = Ok tt (with_cells (<[Z.to_nat i := v]> (map_of l)) l).
Proof.
  intros Hl Hi fuel. unfold put_cell, get_puzzle, mbind, prog_bind, get_state. cbn. unfold map_of in *. rewrite Hl.
  destruct (Z.leb_spec 0 i), (Z.ltb_spec i (Z.of_nat 1024)); [done | lia..].
Qed.

Lemma at_insert m i v j : length m = 1024%nat -> 0 <= i < 1024 -> 0 <= j -> at_ (<[Z.to_nat i := v]> m) j = if decide (j = i) then v else at_ m j.
Proof.
  intros Hl Hi Hj. unfold at_. destruct (decide (j = i)) as [->|Hne]; [by rewrite list_lookup_insert_eq by lia|]. by rewrite list_lookup_insert_ne by lia.
Qed.

(** ** The fill *)

Definition is_floor (c : Z) : bool := Z.land c (Z.lor WALL FLOOR) =? FLOOR.
Definition floors (m : list Z) : gset Z := list_to_set (filter (fun i => is_floor (at_ m i) = true) (seqZ 0 1024)).

Lemma elem_of_floors m i : i ∈ floors m <-> 0 <= i < 1024 /\ is_floor (at_ m i) = true.
Proof. unfold floors. rewrite elem_of_list_to_set, list_elem_of_filter, elem_of_seqZ. split; [intros []; split; [lia|done] | intros []; split; [done|lia]]. Qed.

(** The neighbours that the code looks at. *)
Definition next_to (c n : Z) : Prop :=
  (n = c - 32 /\ 32 <= c) \/ (n = c + 32 /\ c <= 992) \/ (n = c - 1 /\ 0 < c mod 32) \/ (n = c + 1 /\ c mod 32 < 31).

(** [connected F a c]: a path from [a] to [c] whose cells behind the first one are in [F]. *)
Inductive connected (F : gset Z) (a : Z) : Z -> Prop :=
  | connected_refl : connected F a a
  | connected_step c n : connected F a c -> next_to c n -> n ∈ F -> connected F a n.

Lemma connected_mono F F' a c : F ⊆ F' -> connected F a c -> connected F' a c.
Proof. intros H. induction 1; [constructor|]. econstructor; [done | done | by apply H]. Qed.

Lemma connected_trans F a b c : connected F a b -> connected F b c -> connected F a c.
Proof. intros H. induction 1; [done|]. by econstructor. Qed.

(** The map without the FLOOR of the cells [R]. *)
Definition cleared (R : gset Z) (m : list Z) : list Z := imap (fun i c => if bool_decide (Z.of_nat i ∈ R) then Z.ldiff c FLOOR else c) m.

Lemma cleared_length R m : length (cleared R m) = length m.
Proof. apply length_imap. Qed.

Lemma cleared_at R m i : 0 <= i -> (Z.to_nat i < length m)%nat -> at_ (cleared R m) i = if bool_decide (i ∈ R) then Z.ldiff (at_ m i) FLOOR else at_ m i.
Proof.
  intros Hi Hl. unfold at_, cleared. rewrite list_lookup_imap. destruct (lookup_lt_is_Some_2 m (Z.to_nat i) Hl) as [c Hc]. rewrite Hc. cbn. by rewrite Z2Nat.id.
Qed.

Lemma is_floor_bits c : is_floor c = Z.testbit c 5 && negb (Z.testbit c 3).
Proof.
  unfold is_floor. destruct (Z.testbit c 5) eqn:E5, (Z.testbit c 3) eqn:E3; cbn [andb negb].
  - apply Z.eqb_neq. intros E. assert (Z.testbit (Z.land c (Z.lor WALL FLOOR)) 3 = false) as H by (by rewrite E). rewrite Z.land_spec, E3 in H. done.
  - apply Z.eqb_eq. apply Z.bits_inj'. intros n Hn. rewrite Z.land_spec. destruct (decide (n = 5)) as [->|H5]; [by rewrite E5|]. destruct (decide (n = 3)) as [->|H3]; [by rewrite E3|].
    assert (Z.lor WALL FLOOR = 2 ^ 3 + 2 ^ 5) as E by done. change (Z.lor WALL FLOOR) with (Z.lor (2 ^ 3) (2 ^ 5)). change FLOOR with (2 ^ 5).
    rewrite Z.lor_spec, !Z.pow2_bits_false by lia. by rewrite andb_false_r.
  - apply Z.eqb_neq. intros E. assert (Z.testbit (Z.land c (Z.lor WALL FLOOR)) 5 = true) as H by (by rewrite E). rewrite Z.land_spec, E5 in H. done.
  - apply Z.eqb_neq. intros E. assert (Z.testbit (Z.land c (Z.lor WALL FLOOR)) 5 = true) as H by (by rewrite E). rewrite Z.land_spec, E5 in H. done.
Qed.

Lemma not_floor c : is_floor (Z.ldiff c FLOOR) = false.
Proof. rewrite is_floor_bits, Z.ldiff_spec. change (Z.testbit FLOOR 5) with true. cbn. by rewrite andb_false_r. Qed.

Lemma floors_cleared R m : length m = 1024%nat -> floors (cleared R m) = floors m ∖ R.
Proof.
  intros Hl. apply set_eq. intros i. rewrite elem_of_difference, !elem_of_floors. split.
  - intros [Hi H]. rewrite cleared_at in H by lia. case_bool_decide as HR; [by rewrite not_floor in H|]. done.
  - intros [[Hi H] HR]. split; [done|]. rewrite cleared_at by lia. by rewrite bool_decide_false.
Qed.

Lemma cleared_cleared R1 R2 m : cleared R2 (cleared R1 m) = cleared (R1 ∪ R2) m.
Proof.
  apply list_eq. intros i. unfold cleared. rewrite !list_lookup_imap. destruct (m !! i) as [c|]; [|done]. cbn. f_equal.
  destruct (decide (Z.of_nat i ∈ R1)) as [H1|H1], (decide (Z.of_nat i ∈ R2)) as [H2|H2];
    rewrite ?(bool_decide_true (Z.of_nat i ∈ R1)), ?(bool_decide_false (Z.of_nat i ∈ R1)), ?(bool_decide_true (Z.of_nat i ∈ R2)), ?(bool_decide_false (Z.of_nat i ∈ R2)) by done.
  - rewrite bool_decide_true by set_solver. by rewrite ldiff_twice.
  - by rewrite bool_decide_true by set_solver.
  - by rewrite bool_decide_true by set_solver.
  - by rewrite bool_decide_false by set_solver.
Qed.

Lemma cleared_one i m : length m = 1024%nat -> 0 <= i < 1024 -> <[Z.to_nat i := Z.ldiff (at_ m i) FLOOR]> m = cleared {[i]} m.
Proof.
  intros Hl Hi. apply list_eq. intros j. unfold cleared. rewrite list_lookup_imap. destruct (decide (j = Z.to_nat i)) as [->|Hne].
  - rewrite list_lookup_insert_eq by lia. unfold at_. destruct (lookup_lt_is_Some_2 m (Z.to_nat i) ltac:(lia)) as [c Hc]. rewrite Hc. cbn.
    rewrite Z2Nat.id by lia. by rewrite bool_decide_true by set_solver.
  - rewrite list_lookup_insert_ne by done. destruct (m !! j) as [c|]; [|done]. cbn. by rewrite bool_decide_false by (rewrite elem_of_singleton; lia).
Qed.

(** [R] was cleared from [pos] on; with [full], nothing next to it is left. *)
Record filled (full : Prop) (F : gset Z) (pos : Z) (R : gset Z) : Prop := Filled {
  fi_pos : pos ∈ R;
  fi_in : forall c, c ∈ R -> c = pos \/ c ∈ F;
  fi_conn : forall c, c ∈ R -> connected F pos c;
  fi_closed : forall c n, c ∈ R -> c <> pos \/ full -> next_to c n -> n ∈ F -> n ∈ R
}.

Lemma next_range c n : 0 <= c < 1024 -> next_to c n -> 0 <= n < 1024 \/ c = 992 /\ n = 1024.
Proof. unfold next_to. intros. Z.to_euclidean_division_equations. lia. Qed.

Lemma floor_no_wall c : is_floor c = true -> has c WALL = false.
Proof. rewrite is_floor_bits, andb_true_iff, negb_true_iff. intros [_ H]. change WALL with (2 ^ 3). by rewrite has_bit. Qed.

(** What [pullflooring] does. *)
Definition pulls (ok : Prop) (p : nat -> L unit) (pos : Z) (l : loader) : Prop :=
  safe ok p l (fun _ l' => exists R, l' = with_cells (cleared R (map_of l)) l /\ filled True (floors (map_of l)) pos R).

Lemma pull_next_spec ok m l0 pos R guard j : length m = 1024%nat -> 0 <= pos < 1024 -> (~ ok -> pos <> 992) ->
  (guard = true -> next_to pos j) -> filled False (floors m) pos R -> 
  (0 <= j < 1024 -> is_floor (at_ (cleared R m) j) = true -> pulls ok (fun k => pullflooring k j) j (with_cells (cleared R m) l0)) -> Decision ok ->
  safe ok (fun k => pull_next (pullflooring k) guard j) (with_cells (cleared R m) l0) (fun _ l' => exists R', l' = with_cells (cleared R' m) l0 /\
    filled False (floors m) pos R' /\ R ⊆ R' /\ (guard = true -> j ∈ floors m -> j ∈ R')).
Proof.
  intros Hl Hpos Hok Hg HR Hrec Hdec. unfold pull_next. destruct guard; [|by apply safe_ret; exists R].
  pose proof (next_range _ _ Hpos (Hg eq_refl)) as [Hj|[H1 H2]].
  - eapply safe_then; [intros; apply get_cell_run; [by rewrite with_cells_map, cleared_length | done]|]. rewrite with_cells_map.
    fold (is_floor (at_ (cleared R m) j)). destruct (is_floor (at_ (cleared R m) j)) eqn:Ef.
    + eapply safe_mono; [by apply Hrec|]. cbv beta. intros _ l' (R2 & -> & H2). rewrite with_cells_map in *. rewrite with_cells_twice, cleared_cleared.
      rewrite floors_cleared in H2 by done. destruct HR as [P1 P2 P3 P4], H2 as [Q1 Q2 Q3 Q4].
      assert (j ∈ floors m) as HjF by (rewrite elem_of_floors; split; [done|]; rewrite cleared_at in Ef by lia; case_bool_decide; [by rewrite not_floor in Ef | done]).
      assert (connected (floors m) pos j) as Hc by (econstructor; [constructor | by apply Hg | done]).
      exists (R ∪ R2). split; [done|]. split_and!; [|set_solver|set_solver]. split.
      * set_solver.
      * intros c [H|H]%elem_of_union; [by apply P2|]. destruct (Q2 c H) as [->|H']; [by right|]. set_solver.
      * intros c [H|H]%elem_of_union; [by apply P3|]. eapply connected_trans; [exact Hc|]. eapply connected_mono; [|by apply Q3]. set_solver.
      * intros c n [H|H]%elem_of_union Hcp Hn HnF.
        -- apply elem_of_union. left. destruct Hcp as [Hcp|[]]. eapply P4; [exact H | by left | done | done].
        -- destruct (decide (n ∈ R)); [set_solver|]. apply elem_of_union. right. eapply Q4; [exact H | by right | done | set_solver].
    + apply safe_ret. exists R. split_and!; try done. intros _ HjF. rewrite elem_of_floors in HjF. rewrite cleared_at in Ef by lia.
      case_bool_decide; [done|]. destruct HjF as [_ HjF]. by rewrite HjF in Ef.
  - subst pos j. destruct Hdec as [Hok'|Hn]; [|by destruct (Hok Hn)].
    exists 0%nat, (Fault Bad_pointer). split; [|done]. intros n fuel _ _. unfold get_cell, get_puzzle, mbind, prog_bind, get_state. cbn.
    rewrite lookup_ge_None_2; [done|]. rewrite cleared_length. lia.
Qed.

(** The number of cells that can still be cleared is enough fuel. *)
Lemma pullflooring_spec ok : Decision ok -> forall n l pos, size (floors (map_of l) ∖ {[pos]}) = n -> length (map_of l) = 1024%nat -> 0 <= pos < 1024 ->
  has (at_ (map_of l) pos) WALL = false -> (~ ok -> pos <> 992 /\ 992 ∉ floors (map_of l)) -> pulls ok (fun k => pullflooring k pos) pos l.
Proof.
  intros Hdec n. induction n as [n IH] using lt_wf_ind. intros l pos Hsz Hl Hpos Hw Hok. set (m := map_of l) in *.
  unfold pulls. eapply safe_unfold; [intros k; reflexivity|]. eapply safe_then; [intros; by apply get_cell_run|]. fold m. rewrite Hw.
  eapply safe_then; [intros; by apply put_cell_run|]. fold m. rewrite cleared_one by done. fold m.
  assert (filled False (floors m) pos {[pos]}) as H0 by (split; [set_solver | set_solver | intros c ->%elem_of_singleton; constructor | intros c n' ->%elem_of_singleton [?|[]]; done]).
  assert (forall R j, pos ∈ R -> 0 <= j < 1024 -> is_floor (at_ (cleared R m) j) = true -> pulls ok (fun k => pullflooring k j) j (with_cells (cleared R m) l)) as Hrec.
  { intros R j HpR Hj Hf. assert (j ∈ floors m ∖ R) as HjF by (rewrite <- floors_cleared by done; rewrite elem_of_floors; done).
    eapply IH; rewrite ?with_cells_map, ?cleared_length; [|reflexivity|done|done|by apply floor_no_wall|].
    - subst n. rewrite floors_cleared by done. apply subset_size. split; [set_solver|]. intros Hs. specialize (Hs j ltac:(set_solver)). set_solver.
    - intros Hn. destruct (Hok Hn) as [H1 H2]. rewrite floors_cleared by done. split; [intros ->; set_solver | set_solver]. }
  assert (~ ok -> pos <> 992) as Hok1 by (intros; by apply Hok).
  unfold XSIZE, MAXHEIGHT, MAXWIDTH.
  eapply safe_call; [apply (pull_next_spec ok m l pos {[pos]}); try done; [|by apply Hrec, elem_of_singleton]|].
  { intros Hg%Z.leb_le. by left. }
  cbv beta. intros _ l1 (R1 & -> & HR1 & S1 & N1).
  eapply safe_call; [apply (pull_next_spec ok m l pos R1); try done; [|apply Hrec; by apply S1, elem_of_singleton]|].
  { intros Hg%Z.leb_le. right. left. cbn in Hg. split; [done | lia]. }
  cbv beta. intros _ l2 (R2 & -> & HR2 & S2 & N2).
  eapply safe_call; [apply (pull_next_spec ok m l pos R2); try done; [|apply Hrec; by apply S2, S1, elem_of_singleton]|].
  { intros Hg%Z.ltb_lt. do 2 right. by left. }
  cbv beta. intros _ l3 (R3 & -> & HR3 & S3 & N3).
  eapply safe_mono; [apply (pull_next_spec ok m l pos R3); try done; [|apply Hrec; by apply S3, S2, S1, elem_of_singleton]|].
  { intros Hg%Z.ltb_lt. by do 3 right. }
  cbv beta. intros _ l4 (R4 & -> & [P1 P2 P3 P4] & S4 & N4). exists R4. split; [done|]. split; try done.
  intros c n' Hc _ Hn HnF. destruct (decide (c = pos)) as [->|Hne]; [|by eapply P4; eauto].
  destruct Hn as [[-> Hg]|[[-> Hg]|[[-> Hg]|[-> Hg]]]].
  - apply S4, S3, S2, N1; [by apply Z.leb_le | done].
  - apply S4, S3, N2; [apply Z.leb_le; lia | done].
  - apply S4, N3; [by apply Z.ltb_lt | done].
  - apply N4; [by apply Z.ltb_lt | done].
Qed.

Lemma filled_exact F pos R : filled True F pos R -> forall c, c ∈ R <-> connected F pos c.
Proof.
  intros [P1 P2 P3 P4] c. split; [by apply P3|]. induction 1 as [|c n Hc IH Hn HnF]; [done|]. eapply P4; [exact IH | by right | done | done].
Qed.

(** ** A puzzle that is accepted is a room

    Reading a puzzle ends with any file; when it succeeds the player is in a room with walls around and the counts are right. *)

(** ** Reading lines *)

(** Reading ends, and at least [n] bytes are used up. *)
(** [f'] is left of [f]; no more than the end was met. *)
Definition later (f f' : stream) : Prop := (length (bytes f') <= length (bytes f))%nat.

Lemma fgetc_step f : exists c f', (forall fuel, fgetc fuel f = Ok c f') /\ later f f' /\ (c <> EOF -> (length (bytes f') < length (bytes f))%nat).
Proof. destruct f as [[|c l] e]; [exists EOF, (Stream [] true) | exists c, (Stream l e)]; (split; [done|]); unfold later; cbn; split; [lia | done | lia | lia]. Qed.

Lemma fgets_spec n : forall f, exists s f', (forall fuel, fgets n fuel f = Ok s f') /\ (length s <= n)%nat /\ later f f'.
Proof.
  induction n as [|n IH]; intros f; cbn [fgets]; [exists [], f; unfold later; by split_and!|].
  destruct (fgetc_step f) as (c & f1 & E1 & L1 & _). unfold mbind, prog_bind.
  destruct (decide (c = EOF)) as [->|H1]; [exists [], f1; split_and!; [intros fuel; by rewrite E1 | cbn; lia | done]|].
  destruct (decide (c = newline)) as [->|H2]; [exists [newline], f1; split_and!; [intros fuel; by rewrite E1 | cbn; lia | done]|].
  destruct (IH f1) as (s & f' & E & H3 & H4). exists (c :: s), f'. unfold later in *. split_and!; cbn [length]; [|lia|lia].
  intros fuel. rewrite E1. apply Z.eqb_neq in H1, H2. rewrite H1, H2. cbv beta iota. by rewrite E.
Qed.

Lemma rest_of_line_spec n : forall f, length (bytes f) = n -> wp rest_of_line f (fun _ f' => later f f').
Proof.
  induction n as [n IH] using lt_wf_ind. intros f Hn. destruct (fgetc_step f) as (c & f1 & E1 & L1 & Hlt).
  eapply wp_unfold; [intros k; reflexivity|]. eapply wp_then; [exact E1|]. cbv beta.
  destruct (Z.eqb_spec c EOF) as [?|Hc]; [by apply wp_ret|]. destruct (c =? newline); [by apply wp_ret|]. cbn [orb].
  eapply wp_mono; [apply (IH (length (bytes f1))); [specialize (Hlt Hc); lia | done]|]. cbv beta. unfold later in *. intros; lia.
Qed.

Lemma getnline_spec len f : 0 < len -> wp (fun _ => getnline len) f (fun x f' => later f f' /\ (Z.of_nat (length x.1) <= len - 1) /\ -1 <= x.2).
Proof.
  intros Hlen. destruct (fgets_spec (Z.to_nat (len - 1)) f) as (s & f' & E & H1 & H2).
  unfold getnline. eapply wp_then; [intros; reflexivity|]. cbv beta. destruct (bytes f) as [|c f0] eqn:Ef.
  { destruct (fgetc_step f) as (c & f1 & E1 & L1 & _). eapply wp_then; [exact E1|]. apply wp_ret. cbn. split; [done | lia]. }
  eapply wp_then; [intros; apply E|]. cbv beta zeta.
  assert (0 <= strlen s) as Hs by (clear; induction s as [|c s IH]; cbn; [lia|]; destruct (c =? 0); lia).
  destruct (_ && _).
  - eapply wp_call; [by eapply wp_with_fuel, rest_of_line_spec|]. cbv beta. intros _ f2 H3. apply wp_ret. unfold later in *. cbn [fst snd]. lia.
  - apply wp_ret. cbn [fst snd]. split; [done | lia].
Qed.

(** ** The loops of readlevelmap *)

(** What is read stays in rows [1] to [y - 1] of the map, with a free column at the right. *)
Definition kind (c : Z) : Prop := c = 0 \/ c = 1 \/ c = 2 \/ c = 3 \/ c = 4 \/ c = 5 \/ c = 8.

Record drawn (y xs : Z) (m : list Z) : Prop := Drawn {
  dr_length : length m = 1024%nat;
  dr_kind : forall i, 0 <= i < 1024 -> kind (at_ m i);
  dr_where : forall i, 0 <= i < 1024 -> at_ m i <> 0 -> 1 <= i / 32 < y /\ 1 <= i mod 32 <= xs - 2
}.

Lemma drawn_mono y xs y' xs' m : drawn y xs m -> y <= y' -> xs <= xs' -> drawn y' xs' m.
Proof. intros [H1 H2 H3] Hy Hx. split; [done | done|]. intros i Hi Hn. specialize (H3 i Hi Hn). lia. Qed.

Lemma filecell_kind c v : filecell c = Some v -> kind v.
Proof. unfold filecell, kind. repeat case_match; intros [= <-]; tauto. Qed.

Record reading (y : Z) (l : loader) : Prop := Reading {
  rd_buf : length (buf l) = 256%nat;
  rd_xsize : 1 <= xsize (puzzle l);
  rd_map : drawn y (xsize (puzzle l)) (map_of l)
}.

Lemma reading_same y l l' : reading y l -> puzzle l' = puzzle l -> length (buf l') = 256%nat -> reading y l'.
Proof. intros [H1 H2 H3] E Hb. split; unfold map_of; rewrite ?E; done. Qed.

Lemma byte_run l i : length (buf l) = 256%nat -> 0 <= i < 256 -> exists c, forall fuel, byte i fuel l = Ok c l.
Proof.
  intros Hl Hi. destruct (lookup_lt_is_Some_2 (buf l) (Z.to_nat i) ltac:(lia)) as [c Hc]. exists c. intros fuel.
  unfold byte, mbind, prog_bind, get_state. destruct (Z.ltb_spec i 0); [lia|]. by rewrite Hc.
Qed.

(** A line of the map: the cells from column [x] on. *)
Lemma row_loop_spec y xs : 1 <= y < 32 -> forall n x i l, Z.to_nat (32 - x) = n -> 1 <= x -> 0 <= i < x -> length (buf l) = 256%nat ->
  drawn (y + 1) (Z.max xs (x + 1)) (map_of l) ->
  wp (fun k => row_loop k y x i) l (fun r l' => buf l' = buf l /\ file l' = file l /\ (exists m, puzzle l' = set_map m (puzzle l)) /\ x <= r.1 /\
    drawn (y + 1) (Z.max xs (r.1 + 1)) (map_of l')).
Proof.
  intros Hy n. induction n as [n IH] using lt_wf_ind. intros x i l Hn Hx Hi Hb Hd.
  assert (exists m, puzzle l = set_map m (puzzle l)) as Hsame by (exists (map_of l); unfold map_of; by destruct (puzzle l)).
  destruct (Z.ltb_spec x 32) as [Hlt|Hge].
  2:{ exists 1%nat, (x, false), l. split; [|cbn [fst]; split_and!; try done; lia]. intros [|k] fuel Hk Hf; [lia|]. cbn [row_loop]. unfold MAXWIDTH. by destruct (Z.ltb_spec x 32); [lia|]. }
  destruct (byte_run l i Hb ltac:(lia)) as [c Hc].
  eapply wp_unfold; [intros k; reflexivity|]. cbn [row_loop]. unfold MAXWIDTH. destruct (Z.ltb_spec x 32); [|lia]. cbn [negb].
  eapply wp_then; [exact Hc|]. cbv beta. destruct (_ || _); [apply wp_ret; cbn [fst]; split_and!; try done; lia|].
  destruct (c =? 9).
  - assert (x <= Z.lor x 7) as Hor.
    { pose proof (Z.add_lor_land x 7) as E. assert (Z.land x 7 <= 7); [|lia].
      change 7 with (Z.ones 3). rewrite Z.land_ones by lia. change (2 ^ 3) with 8. change (Z.ones 3) with 7. pose proof (Z.mod_pos_bound x 8). lia. }
    eapply wp_mono; [apply (IH (Z.to_nat (32 - (Z.lor x 7 + 1)))); [lia | done | lia | lia | done | eapply drawn_mono; [done | lia | lia]]|].
    cbv beta. intros r l' (H1 & H2 & H3 & H4 & H5). split_and!; try done. lia.
  - destruct (filecell c) as [v|] eqn:Ev.
    2:{ eapply wp_call with (P := fun _ l' => buf l' = buf l /\ file l' = file l /\ puzzle l' = puzzle l); [by eapply wp_running; [reflexivity|]|].
      cbv beta. intros _ l' (H1 & H2 & H3). apply wp_ret. cbn [fst]. unfold map_of in *. rewrite H3. by split_and!; try lia. }
    eapply wp_then; [intros; apply put_cell_run; [apply Hd | unfold XSIZE, MAXWIDTH; lia]|]. unfold XSIZE, MAXWIDTH.
    set (l1 := with_cells _ l).
    eapply wp_mono; [apply (IH (Z.to_nat (32 - (x + 1))) ltac:(lia) (x + 1) (i + 1) l1); [done | lia | lia | done|]|].
    + subst l1. rewrite with_cells_map. destruct Hd as [D1 D2 D3]. split.
      * by rewrite length_insert.
      * intros j Hj. rewrite at_insert by lia. destruct (decide _); [by eapply filecell_kind | by apply D2].
      * intros j Hj. rewrite at_insert by lia. destruct (decide (j = y * 32 + x)) as [->|Hne]; [intros _; Z.to_euclidean_division_equations; lia|].
        intros Hz. specialize (D3 j Hj Hz). lia.
    + cbv beta. intros r l' (H1 & H2 & [m H3] & H4 & H5). split_and!; try done; [|lia]. exists m. by rewrite H3.
Qed.

Lemma blanks_spec n : forall x l, Z.to_nat (256 - x) = n -> length (buf l) = 256%nat -> 0 <= x -> halts (fun k => blanks_loop k x) l (fun r l' => l' = l /\ x <= r).
Proof.
  induction n as [n IH] using lt_wf_ind. intros x l Hn Hb Hx. eapply halts_unfold; [intros k; reflexivity|]. cbn [blanks_loop].
  destruct (Z.ltb_spec x 256) as [Hlt|Hge].
  - destruct (byte_run l x Hb ltac:(lia)) as [c Hc]. eapply halts_call; [apply wp_halts; eapply wp_running; [exact Hc|]; by instantiate (1 := fun c' l' => c' = c /\ l' = l)|].
    cbv beta. intros c' l' [-> ->]. destruct (isspace c); [|apply halts_ret; by split; [|lia]].
    eapply halts_mono; [apply (IH (Z.to_nat (256 - (x + 1)))); [lia | done | done | lia]|]. cbv beta. intros r l' [-> H]. split; [done|lia].
  - exists 0%nat, (Fault Bad_pointer). split; [|done]. intros n' fuel _ _. unfold byte, mbind, prog_bind, get_state. destruct (Z.ltb_spec x 0); [lia|].
    rewrite lookup_ge_None_2; [done | lia].
Qed.

Lemma title_spec n l : length (buf l) = 256%nat -> halts (fun _ => read_title n) l (fun _ l' => exists name, l' = with_puzzle (set_name name (puzzle l)) l).
Proof.
  intros Hb. unfold read_title. eapply halts_call; [by apply halts_with_fuel, (blanks_spec _ 1 l eq_refl)|]. cbv beta. intros x l' [-> Hx]. cbv zeta.
  destruct (_ <? 0); [by apply halts_fail|]. eapply halts_call; [apply wp_halts, wp_get_state; by instantiate (1 := fun a l' => a = l /\ l' = l)|].
  cbv beta. intros ? ? [-> ->]. destruct (trimmed _) as [name|]; [|by apply halts_fail]. apply halts_modify. by exists name.
Qed.

Lemma written_length off s b : (off + length s <= length b)%nat -> length (written off s b) = length b.
Proof. intros H. unfold written. rewrite !length_app, length_take, length_drop. lia. Qed.

Lemma read_line_spec off len l : length (buf l) = 256%nat -> 0 < len -> (Z.of_nat off + len <= 256) ->
  wp (fun _ => read_line off len) l (fun n l' => puzzle l' = puzzle l /\ length (buf l') = 256%nat /\ later (file l) (file l') /\ -1 <= n).
Proof.
  intros Hb Hlen Hoff. destruct (getnline_spec len (file l) Hlen) as (N & [s n] & f & E & H1 & H2 & H3). cbn [fst snd] in *.
  exists N. eexists _, _. split; [intros k fuel Hk Hf; unfold read_line; by rewrite (E k fuel Hk Hf)|]. split_and!.
  - cbn. destruct (n =? -1); [destruct (bytes (file l))|]; done.
  - cbn. destruct (n =? -1); [destruct (bytes (file l)); [done|]|]; cbn; rewrite written_length; rewrite ?length_app; cbn; lia.
  - cbn. done.
  - done.
Qed.

(** The file is read to the end of the puzzle. *)
Lemma next_char_run l : exists c f, (forall fuel, next_char fuel l = Ok c (with_file f l)) /\ (c <> EOF -> (length (bytes f) < length (bytes (file l)))%nat).
Proof. destruct (fgetc_step (file l)) as (c & f & E & _ & H). exists c, f. split; [|done]. intros fuel. unfold next_char. by rewrite E. Qed.

Lemma lines_loop_spec n : forall y bad l, length (bytes (file l)) = n -> 1 <= y <= 32 -> reading y l ->
  halts (fun k => lines_loop k y bad) l (fun r l' => match r with
    | Some y' => 1 <= y' <= 32 /\ 1 <= xsize (puzzle l') /\ (32 < xsize (puzzle l') \/ drawn y' (xsize (puzzle l')) (map_of l'))
    | None => True end).
Proof.
  induction n as [n IH] using lt_wf_ind. intros y bad l Hn Hy Hr. destruct (Hr) as [Hb Hx Hd].
  destruct (Z.ltb_spec y 32) as [Hlt|Hge].
  2:{ eapply halts_unfold; [intros k; reflexivity|]. cbn [lines_loop]. unfold MAXHEIGHT. destruct (Z.ltb_spec y 32); [lia|]. apply halts_ret. auto. }
  eapply halts_unfold; [intros k; reflexivity|]. cbn [lines_loop]. unfold MAXHEIGHT. destruct (Z.ltb_spec y 32); [|lia]. cbn [negb].
  destruct (next_char_run l) as (c & f & Ec & Hc). eapply halts_call with (P := fun c' l' => c' = c /\ l' = with_file f l); [apply wp_halts; by eapply wp_running|].
  cbv beta. intros c' l1 [-> ->]. set (l1 := with_file f l) in *.
  destruct (Z.eqb_spec c EOF) as [He|He]; [apply halts_ret; destruct (1 <? y); [|done]; auto|]. specialize (Hc He).
  assert (reading y l1) as Hr1 by (by eapply reading_same). assert (length (bytes (file l1)) < n)%nat as Hlen1 by (rewrite <- Hn; exact Hc).
  destruct (_ || (c =? 39)).
  - destruct (1 <? y).
    { eapply halts_call with (P := fun _ l' => puzzle l' = puzzle l); [by apply halts_modify|]. cbv beta. intros _ l' E. apply halts_ret. unfold map_of. rewrite E. auto. }
    destruct (c =? 10); [by eapply (IH _ Hlen1)|].
    eapply halts_call; [apply wp_halts, (read_line_spec 0 256 l1); [done | lia | lia]|]. cbv beta. intros k l2 (E1 & E2 & E3 & E4).
    assert (reading y l2) as Hr2 by (by eapply reading_same). assert (length (bytes (file l2)) < n)%nat as Hlen2 by (unfold later in E3; lia).
    destruct (k <? 0); [by apply halts_ret|]. destruct (byte_run l2 0 E2 ltac:(lia)) as [c2 Hc2].
    eapply halts_call with (P := fun c' l' => c' = c2 /\ l' = l2); [apply wp_halts; by eapply wp_running|]. cbv beta. intros c' l' [-> ->].
    eapply halts_call with (P := fun _ l' => file l' = file l2 /\ reading y l').
    { destruct (_ && _); [|by apply halts_ret]. eapply halts_mono; [by apply title_spec|]. cbv beta. intros _ l' [name ->]. split; [done|]. destruct Hr2 as [R1 R2 R3]. by split. }
    cbv beta. intros _ l3 [E5 Hr3]. eapply (IH (length (bytes (file l3)))); [rewrite E5; lia | done | done | done].
  - set (l2 := with_buf (<[0%nat := c]> (buf l1)) l1).
    eapply halts_call with (P := fun _ l' => l' = l2); [by apply halts_modify|]. cbv beta. intros _ ? ->.
    eapply halts_call; [apply wp_halts, (read_line_spec 1 255 l2); [subst l2; cbn; by rewrite length_insert | lia | lia]|]. cbv beta. intros k l3 (E1 & E2 & E3 & E4).
    assert (length (bytes (file l3)) < n)%nat as Hlen3 by (unfold later in E3; change (file l2) with (file l1) in E3; lia).
    assert (reading (y + 1) l3) as Hr3.
    { split; [done | by rewrite E1|]. unfold map_of. rewrite E1. eapply drawn_mono; [exact Hd | lia | cbn; lia]. }
    destruct bad; [eapply (IH _ Hlen3); [done | lia | done]|].
    set (xs := xsize (puzzle l3)).
    eapply halts_call; [apply wp_halts, wp_with_fuel; apply (row_loop_spec y xs ltac:(lia) (Z.to_nat (32 - 1)) 1 0 l3); [done | lia | lia | done |]|].
    { eapply drawn_mono; [apply Hr3 | lia | lia]. }
    cbv beta. intros [x b] l4 (F1 & F2 & [m F3] & F4 & F5). cbn [fst] in *.
    assert (xsize (puzzle l4) = xs) as Exs by (by rewrite F3).
    eapply halts_call with (P := fun g l' => g = puzzle l4 /\ l' = l4); [apply wp_halts; by eapply wp_running|]. cbv beta. intros ? ? [-> ->]. rewrite Exs.
    assert (1 <= xs) as Hxs by apply Hr3.
    destruct (Z.leb_spec xs x) as [Hle|Hgt].
    + set (l5 := with_puzzle (set_xsize (x + 1) (puzzle l4)) l4).
      eapply halts_call with (P := fun _ l' => l' = l5); [by apply halts_modify|]. cbv beta. intros _ ? ->. unfold MAXWIDTH.
      destruct (Z.ltb_spec 32 (x + 1)); [apply halts_ret; subst l5; cbn; split_and!; try lia; auto|].
      eapply (IH (length (bytes (file l5)))); [subst l5; cbn; rewrite F2; lia | done | lia|]. split; cbn; [by rewrite F1 | lia|]. by rewrite Z.max_r in F5 by lia.
    + eapply (IH (length (bytes (file l4)))); [rewrite F2; lia | done | lia|]. split; [by rewrite F1 | lia|]. rewrite Z.max_l in F5 by lia. by rewrite Exs.
Qed.
