(* ===== verification/SokImprove.v ===== *)
(** * Csokoban: improvemap and the counts

    The bits that say what is in a cell stay; the outer edge becomes WALL. *)

From Stdlib Require Import ZArith Lia.
From stdpp Require Import base numbers list gmap sets fin_sets strings.
From S2P Require Import Prelude SokGame SokRule SokShow SokPlay SokAnswers SokLevel SokFill.

Open Scope Z_scope.

(** ** Bits that stay *)

Definition samelow (m m' : list Z) : Prop := length m' = length m /\
  forall i n, 0 <= i < 1024 -> 0 <= n < 4 -> Z.testbit (at_ m' i) n = Z.testbit (at_ m i) n.

#[export] Instance samelow_refl : Reflexive samelow.
Proof. by intros m. Qed.
#[export] Instance samelow_trans : Transitive samelow.
Proof. intros m1 m2 m3 [H1 H2] [H3 H4]. split; [congruence|]. intros i n Hi Hn. by rewrite H4, H2. Qed.

(** A flag above the low bits. *)
Definition high (f : Z) : Prop := forall n, 0 <= n < 4 -> Z.testbit f n = false.

Lemma samelow_lor m i f : length m = 1024%nat -> 0 <= i < 1024 -> high f -> samelow m (<[Z.to_nat i := Z.lor (at_ m i) f]> m).
Proof.
  intros Hl Hi Hf. split; [by rewrite length_insert|]. intros j n Hj Hn. rewrite at_insert by lia. destruct (decide (j = i)) as [->|]; [|done].
  by rewrite Z.lor_spec, Hf, orb_false_r.
Qed.

Lemma samelow_cleared R m : length m = 1024%nat -> samelow m (cleared R m).
Proof.
  intros Hl. split; [by rewrite cleared_length|]. intros i n Hi Hn. rewrite cleared_at by lia. case_bool_decide; [|done].
  rewrite Z.ldiff_spec. assert (Z.testbit FLOOR n = false) as -> by (assert (n = 0 \/ n = 1 \/ n = 2 \/ n = 3) as [->|[->|[->| ->]]] by lia; done).
  by rewrite andb_true_r.
Qed.

Ltac is_high := intros n Hn; assert (n = 0 \/ n = 1 \/ n = 2 \/ n = 3) as [->|[->|[->| ->]]] by lia; reflexivity.
Lemma high_FLOOR : high FLOOR. Proof. is_high. Qed.
Lemma high_NORTH : high EXTENDNORTH. Proof. is_high. Qed.
Lemma high_SOUTH : high EXTENDSOUTH. Proof. is_high. Qed.
Lemma high_WEST : high EXTENDWEST. Proof. is_high. Qed.
Lemma high_EAST : high EXTENDEAST. Proof. is_high. Qed.
#[export] Hint Resolve high_FLOOR high_NORTH high_SOUTH high_WEST high_EAST : core.

(** [l'] is [l] with another map. *)
Definition remapped (rel : list Z -> list Z -> Prop) (l l' : loader) : Prop := exists m, l' = with_cells m l /\ rel (map_of l) m.

Lemma remapped_refl (rel : list Z -> list Z -> Prop) l : rel (map_of l) (map_of l) -> remapped rel l l.
Proof. intros H. exists (map_of l). by rewrite with_cells_same. Qed.

Lemma remapped_trans rel `{!Transitive rel} l1 l2 l3 : remapped rel l1 l2 -> remapped rel l2 l3 -> remapped rel l1 l3.
Proof. intros (m2 & -> & H2) (m3 & -> & H3). exists m3. rewrite with_cells_twice. split; [done|]. by etrans. Qed.

Lemma has_wall_bit c : has c WALL = Z.testbit c 3.
Proof. change WALL with (2 ^ 3). by apply has_bit. Qed.
Lemma has_player_bit c : has c PLAYER = Z.testbit c 1.
Proof. change PLAYER with (2 ^ 1). by apply has_bit. Qed.
Lemma has_box_bit c : has c BOX = Z.testbit c 2.
Proof. change BOX with (2 ^ 2). by apply has_bit. Qed.
Lemma has_goal_bit c : has c GOAL = Z.testbit c 0.
Proof. change GOAL with (2 ^ 0). by apply has_bit. Qed.

(** ** The player *)

Definition is_player (m : list Z) (i : Z) : Prop := Z.testbit (at_ m i) 3 = false /\ Z.testbit (at_ m i) 1 = true.

Lemma is_player_low m m' i : samelow m m' -> 0 <= i < 1024 -> is_player m' i <-> is_player m i.
Proof. intros [_ H] Hi. unfold is_player. by rewrite !H by lia. Qed.

(** Looking through the cells [P], with [p] found before ([0] for nothing), finds [p']. *)
Definition found (m : list Z) (P : Z -> Prop) (p p' : Z) : Prop :=
  (p' = p /\ forall i, P i -> ~ is_player m i) \/ (p = 0 /\ P p' /\ is_player m p' /\ forall i, P i -> is_player m i -> i = p').

Lemma found_union m P1 P2 P p p1 p2 : (forall i, is_player m i -> i <> 0) -> (forall i, P i <-> P1 i \/ P2 i) -> found m P1 p p1 -> found m P2 p1 p2 -> found m P p p2.
Proof.
  intros H0 HP [[-> N1]|(-> & I1 & I2 & I3)] [[-> N2]|(-> & J1 & J2 & J3)].
  - left. split; [done|]. intros i [H|H]%HP; auto.
  - right. split; [done|]. split; [apply HP; auto|]. split; [done|]. intros i [H|H]%HP Hi; [by destruct (N1 i H)|auto].
  - right. split; [done|]. split; [apply HP; auto|]. split; [done|]. intros i [H|H]%HP Hi; [auto | by destruct (N2 i H)].
  - by destruct (H0 0).
Qed.

Lemma found_low m m' P p p' : samelow m m' -> (forall i, P i -> 0 <= i < 1024) -> found m' P p p' -> found m P p p'.
Proof.
  intros Hs HP [[-> N]|(-> & I1 & I2 & I3)]; [left|right].
  - split; [done|]. intros i Hi. rewrite <- (is_player_low _ _ _ Hs) by auto. auto.
  - split; [done|]. split; [done|]. split; [by apply (is_player_low _ _ _ Hs); auto|]. intros i Hi Hp. apply I3; [done|]. by apply (is_player_low _ _ _ Hs); auto.
Qed.

Lemma found_one m i p : found m (fun j => j = i) p (if Z.testbit (at_ m i) 3 then p else if Z.testbit (at_ m i) 1 then (if p =? 0 then i else p) else p) \/ p <> 0 /\ is_player m i.
Proof.
  unfold found, is_player. destruct (Z.testbit (at_ m i) 3) eqn:E3; [left; left; split; [done|]; intros j ->; rewrite E3; by intros []|].
  destruct (Z.testbit (at_ m i) 1) eqn:E1; [|left; left; split; [done|]; intros j ->; rewrite E1; by intros []].
  destruct (Z.eqb_spec p 0) as [->|Hp]; [|by right]. left. right. split_and!; try done.
Qed.

Lemma floor_row_spec n : forall i p l, 0 <= i -> i + Z.of_nat n <= 1024 -> length (map_of l) = 1024%nat -> (forall j, is_player (map_of l) j -> j <> 0) ->
  wp (fun _ => floor_row n i p) l (fun r l' => match r with
    | Some p' => remapped samelow l l' /\ found (map_of l) (fun j => i <= j < i + Z.of_nat n) p p'
    | None => True end).
Proof.
  induction n as [|n IH]; intros i p l Hi Hn Hl H0.
  { apply wp_ret. split; [by apply remapped_refl|]. left. split; [done|]. lia. }
  cbn [floor_row]. set (m := map_of l) in *. eapply wp_then; [intros; apply get_cell_run; [done | lia]|]. fold m. cbv beta. rewrite has_wall_bit.
  assert (forall p1 l1, remapped samelow l l1 -> found m (fun j => j = i) p p1 -> wp (fun _ => floor_row n (i + 1) p1) l1 (fun r l' => match r with
    | Some p' => remapped samelow l l' /\ found m (fun j => i <= j < i + Z.of_nat (S n)) p p'
    | None => True end)) as Hnext.
  { intros p1 l1 (m1 & -> & Hs) Hf. eapply wp_mono; [apply (IH (i + 1) p1); rewrite ?with_cells_map; [lia | lia | by rewrite (proj1 Hs) | ]|].
    - intros j Hj. destruct (decide (0 <= j < 1024)); [apply H0; by apply (is_player_low _ _ _ Hs) | lia].
    - cbv beta. intros [p'|] l' H; [|done]. destruct H as [Hm Hf2]. split; [eapply remapped_trans; [apply _ | by exists m1 | done]|].
      rewrite with_cells_map in Hf2. eapply found_union; [done | | exact Hf | eapply (found_low m m1); [done | | exact Hf2]]; [intros j; cbn; lia | intros j; cbn; lia]. }
  destruct (found_one m i p) as [Hf|[Hp Hpl]].
  - destruct (Z.testbit (at_ m i) 3) eqn:E3; [apply Hnext; [by apply remapped_refl | done]|].
    eapply wp_then; [intros; apply put_cell_run; [done | lia]|]. fold m. set (m1 := <[Z.to_nat i := _]> m).
    assert (samelow m m1) as Hs by (apply samelow_lor; [done | lia | done]).
    eapply wp_then; [intros; apply get_cell_run; [by rewrite with_cells_map, (proj1 Hs) | lia]|]. rewrite with_cells_map. cbv beta. rewrite has_player_bit, (proj2 Hs) by lia.
    destruct (Z.testbit (at_ m i) 1); [|apply Hnext; [by exists m1 | done]].
    destruct (p =? 0) eqn:Ep; cbn [negb]; [apply Hnext; [by exists m1 | done]|].
    eapply wp_call with (P := fun _ _ => True); [by eapply wp_running; [reflexivity|]|]. intros _ l' _. by apply wp_ret.
  - destruct Hpl as [E3 E1]. rewrite E3. eapply wp_then; [intros; apply put_cell_run; [done | lia]|]. fold m. set (m1 := <[Z.to_nat i := _]> m).
    assert (samelow m m1) as Hs by (apply samelow_lor; [done | lia | done]).
    eapply wp_then; [intros; apply get_cell_run; [by rewrite with_cells_map, (proj1 Hs) | lia]|]. rewrite with_cells_map. cbv beta. rewrite has_player_bit, (proj2 Hs), E1 by lia.
    apply Z.eqb_neq in Hp. rewrite Hp. cbn [negb]. eapply wp_call with (P := fun _ _ => True); [by eapply wp_running; [reflexivity|]|]. intros _ l' _. by apply wp_ret.
Qed.

Lemma floor_rows_spec xs n : 0 <= xs <= 32 -> forall y p l, 0 <= y -> y + Z.of_nat n <= 32 -> length (map_of l) = 1024%nat -> (forall j, is_player (map_of l) j -> j <> 0) ->
  wp (fun _ => floor_rows n y xs p) l (fun r l' => match r with
    | Some p' => remapped samelow l l' /\ found (map_of l) (fun j => y <= j / 32 < y + Z.of_nat n /\ 0 <= j mod 32 < xs) p p'
    | None => True end).
Proof.
  intros Hxs. induction n as [|n IH]; intros y p l Hy Hn Hl H0.
  { apply wp_ret. split; [by apply remapped_refl|]. left. split; [done|]. lia. }
  cbn [floor_rows]. unfold XSIZE, MAXWIDTH. eapply wp_call; [apply (floor_row_spec (Z.to_nat xs) (y * 32) p l); try done; lia|].
  cbv beta. intros [p1|] l1; [|intros _; by apply wp_ret]. intros [(m1 & -> & Hs) Hf].
  eapply wp_mono; [apply (IH (y + 1) p1); rewrite ?with_cells_map; [lia | lia | by rewrite (proj1 Hs) | ]|].
  - intros j Hj. destruct (decide (0 <= j < 1024)); [apply H0; by apply (is_player_low _ _ _ Hs) | lia].
  - cbv beta. intros [p'|] l' H; [|done]. destruct H as [Hm Hf2]. split; [eapply remapped_trans; [apply _ | by exists m1 | done]|].
    rewrite with_cells_map in Hf2. eapply found_union; [done | | exact Hf | eapply (found_low _ m1); [done | | exact Hf2]].
    + intros j. cbn. Z.to_euclidean_division_equations. lia.
    + intros j. cbn. Z.to_euclidean_division_equations. lia.
Qed.

(** ** Walls *)

Definition keeps_low (p : nat -> L unit) (l : loader) : Prop := wp p l (fun _ l' => remapped samelow l l').

Lemma keeps_low_bind (p : nat -> L unit) (k : nat -> unit -> L unit) l : keeps_low p l ->
  (forall l', remapped samelow l l' -> keeps_low (fun n => k n tt) l') -> keeps_low (fun n => p n ≫= k n) l.
Proof.
  intros H Hk. eapply wp_call; [exact H|]. cbv beta. intros [] l' Hl'. eapply wp_mono; [by apply Hk|]. cbv beta. intros _ l2 H2. by eapply remapped_trans; [apply _|..].
Qed.

Lemma remapped_length l l' : remapped samelow l l' -> length (map_of l) = 1024%nat -> length (map_of l') = 1024%nat.
Proof. intros (m & -> & [H _]) Hl. by rewrite with_cells_map, H. Qed.

Lemma extend_flag_spec l j f : length (map_of l) = 1024%nat -> 0 <= j < 1024 -> high f -> keeps_low (fun _ => extend j f) l.
Proof.
  intros Hl Hj Hf. unfold keeps_low, extend. eapply wp_then; [intros; by apply get_cell_run|]. destruct (has _ WALL); [|by apply wp_ret, remapped_refl].
  unfold add_flag. eapply wp_then; [intros; by apply get_cell_run|]. eapply wp_running; [intros; by apply put_cell_run|]. eexists. split; [reflexivity|]. by apply samelow_lor.
Qed.

Lemma join_row_spec n : forall i l, length (map_of l) = 1024%nat -> 32 <= i -> i + Z.of_nat n <= 992 -> keeps_low (fun _ => join_row n i) l.
Proof.
  induction n as [|n IH]; intros i l Hl Hi Hn; [by apply wp_ret, remapped_refl|]. cbn [join_row]. unfold XSIZE, MAXWIDTH.
  unfold keeps_low. eapply wp_then; [intros; apply get_cell_run; [done | lia]|]. cbv beta.
  apply (keeps_low_bind (fun _ => if has (at_ (map_of l) i) WALL then _ else _)).
  - destruct (has _ WALL); [|by apply wp_ret, remapped_refl].
    apply (keeps_low_bind (fun _ => extend (i + 32) EXTENDNORTH)); [apply extend_flag_spec; [done | lia | done]|]. intros l1 H1%remapped_length; [|done].
    apply (keeps_low_bind (fun _ => extend (i - 32) EXTENDSOUTH)); [apply extend_flag_spec; [done | lia | done]|]. intros l2 H2%remapped_length; [|done].
    apply (keeps_low_bind (fun _ => extend (i + 1) EXTENDWEST)); [apply extend_flag_spec; [done | lia | done]|]. intros l3 H3%remapped_length; [|done].
    apply extend_flag_spec; [done | lia | done].
  - intros l' H'%remapped_length; [|done]. apply IH; [done | lia | lia].
Qed.

Lemma join_rows_spec xs n : xs <= 32 -> forall y l, length (map_of l) = 1024%nat -> 1 <= y -> y + Z.of_nat n <= 31 -> keeps_low (fun _ => join_rows n y xs) l.
Proof.
  intros Hxs. induction n as [|n IH]; intros y l Hl Hy Hn; [by apply wp_ret, remapped_refl|]. cbn [join_rows]. unfold XSIZE, MAXWIDTH.
  apply (keeps_low_bind (fun _ => join_row (Z.to_nat (xs - 2)) (y * 32 + 1))); [apply join_row_spec; [done | lia | lia]|].
  intros l' H'%remapped_length; [|done]. apply IH; [done | lia | lia].
Qed.

(** [walled P m m']: the cells [P] have become WALL. *)
Definition walled (P : Z -> Prop) (m m' : list Z) : Prop := length m' = length m /\
  forall i, 0 <= i < 1024 -> (P i -> at_ m' i = WALL) /\ (~ P i -> at_ m' i = at_ m i).

Lemma walled_union P1 P2 P m1 m2 m3 : walled P1 m1 m2 -> walled P2 m2 m3 -> (forall i, P i <-> P1 i \/ P2 i) -> (forall i, Decision (P2 i)) -> walled P m1 m3.
Proof.
  intros [L1 W1] [L2 W2] HP Hdec. split; [congruence|]. intros i Hi. destruct (W1 i Hi) as [A1 B1], (W2 i Hi) as [A2 B2].
  rewrite HP. destruct (Hdec i) as [H|H]; [split; [by auto | tauto]|]. rewrite B2 by done. tauto.
Qed.

Lemma wall_row_spec n : forall i l, length (map_of l) = 1024%nat -> 0 <= i -> i + Z.of_nat n <= 1024 ->
  wp (fun _ => wall_row n i) l (fun _ l' => remapped (walled (fun j => i <= j < i + Z.of_nat n)) l l').
Proof.
  induction n as [|n IH]; intros i l Hl Hi Hn.
  { apply wp_ret, remapped_refl. split; [done|]. intros j Hj. split; [lia | done]. }
  cbn [wall_row]. eapply wp_then; [intros; apply put_cell_run; [done | lia]|]. set (m1 := <[Z.to_nat i := WALL]> (map_of l)).
  eapply wp_mono; [apply (IH (i + 1)); rewrite ?with_cells_map; subst m1; rewrite ?length_insert; [done | lia | lia]|]. cbv beta.
  intros _ l' (m & -> & Hm). rewrite with_cells_map in Hm. exists m. split; [done|].
  eapply (walled_union (fun j => j = i) (fun j => i + 1 <= j < i + 1 + Z.of_nat n)); [|exact Hm | intros j; lia | intros j; apply _].
  subst m1. split; [by rewrite length_insert|]. intros j Hj. rewrite at_insert by lia. destruct (decide (j = i)); [|tauto]. tauto.
Qed.

Lemma wall_rows_spec xs n : 1 <= xs <= 32 -> forall y l, length (map_of l) = 1024%nat -> 0 <= y -> y + Z.of_nat n <= 32 ->
  wp (fun _ => wall_rows n y xs) l (fun _ l' => remapped (walled (fun j => y <= j / 32 < y + Z.of_nat n /\ (j mod 32 = 0 \/ j mod 32 = xs - 1))) l l').
Proof.
  intros Hxs. induction n as [|n IH]; intros y l Hl Hy Hn.
  { apply wp_ret, remapped_refl. split; [done|]. intros j Hj. split; [lia | done]. }
  cbn [wall_rows]. unfold XSIZE, MAXWIDTH. eapply wp_then; [intros; apply put_cell_run; [done | lia]|]. set (m1 := <[_ := WALL]> (map_of l)).
  assert (length m1 = 1024%nat) as L1 by (subst m1; by rewrite length_insert).
  eapply wp_then; [intros; apply put_cell_run; [by rewrite with_cells_map | lia]|]. rewrite with_cells_map, with_cells_twice. set (m2 := <[_ := WALL]> m1).
  assert (length m2 = 1024%nat) as L2 by (subst m2; by rewrite length_insert).
  eapply wp_mono; [apply (IH (y + 1)); rewrite ?with_cells_map; [done | lia | lia]|]. cbv beta.
  intros _ l' (m & -> & Hm). rewrite with_cells_map in Hm. exists m. split; [done|].
  eapply (walled_union (fun j => j = y * 32 + (xs - 1) \/ j = y * 32)); [|exact Hm | intros j; cbn; Z.to_euclidean_division_equations; lia | intros j; apply _].
  split; [by rewrite L2|]. intros j Hj. subst m2 m1. rewrite !at_insert by (rewrite ?length_insert; lia).
  destruct (decide (j = y * 32)), (decide (j = y * 32 + (xs - 1))); tauto.
Qed.

(** ** improvemap *)

(** The edge of the room. *)
Definition edge (xs ys i : Z) : Prop := 0 <= i / 32 <= ys - 1 /\ 0 <= i mod 32 <= xs - 1 /\ ~ inside xs ys i.

#[export] Instance edge_dec xs ys i : Decision (edge xs ys i).
Proof. unfold edge, inside. apply _. Defined.

Lemma improvemap_spec l : length (map_of l) = 1024%nat -> 2 <= ysize (puzzle l) <= 32 -> 1 <= xsize (puzzle l) <= 32 ->
  (forall j, is_player (map_of l) j -> j <> 0) -> has (at_ (map_of l) 0) WALL = false ->
  halts (fun _ => improvemap) l (fun r l' => r = true -> exists m m', l' = with_cells m' l /\ samelow (map_of l) m /\ walled (edge (xsize (puzzle l)) (ysize (puzzle l))) m m' /\
    exists p, p <> 0 /\ 0 <= p / 32 < ysize (puzzle l) /\ 0 <= p mod 32 < xsize (puzzle l) /\ is_player (map_of l) p /\
      forall i, 0 <= i / 32 < ysize (puzzle l) /\ 0 <= i mod 32 < xsize (puzzle l) -> is_player (map_of l) i -> i = p).
Proof.
  intros Hl Hys Hxs H0 Hw. unfold improvemap. set (ys := ysize (puzzle l)) in *. set (xs := xsize (puzzle l)) in *.
  eapply halts_call with (P := fun g l' => g = puzzle l /\ l' = l); [apply wp_halts; by eapply wp_running|]. cbv beta. intros ? ? [-> ->]. fold ys xs. cbv zeta.
  eapply halts_call; [apply wp_halts, (floor_rows_spec xs (Z.to_nat ys) ltac:(lia) 0 0 l); [lia | lia | done | done]|].
  cbv beta. intros [p|] l1; [|intros _; by apply halts_ret]. intros [(m1 & -> & Hs1) Hf]. pose proof (proj1 Hs1) as L1. rewrite Hl in L1.
  destruct (Z.eqb_spec p 0) as [Hp|Hp]; [eapply halts_mono; [apply wp_halts; by eapply wp_running; [reflexivity|]; instantiate (1 := fun r _ => r = false)|]; by intros ? ? -> |].
  eapply halts_call.
  { eapply halts_with_fuel, safe_halts. apply (pullflooring_spec True _ _ (with_cells m1 l) 0 eq_refl L1 ltac:(lia)); [|by intros []].
    rewrite with_cells_map, has_wall_bit, (proj2 Hs1) by lia. by rewrite <- has_wall_bit. }
  cbv beta. intros _ l2 (R & -> & _). rewrite with_cells_map, with_cells_twice. set (m2 := cleared R m1).
  assert (samelow (map_of l) m2) as Hs2 by (etrans; [done|]; by apply samelow_cleared). pose proof (proj1 Hs2) as L2. rewrite Hl in L2.
  eapply halts_call; [apply wp_halts, (join_rows_spec xs (Z.to_nat (ys - 2)) ltac:(lia) 1 (with_cells m2 l)); [done | lia | lia]|].
  cbv beta. intros _ l3 (m3 & -> & Hs3). rewrite with_cells_map in Hs3. rewrite with_cells_twice.
  assert (samelow (map_of l) m3) as Hs by (by etrans). pose proof (proj1 Hs) as L3. rewrite Hl in L3.
  eapply halts_call; [apply wp_halts, (wall_row_spec (Z.to_nat xs) 0 (with_cells m3 l)); [done | lia | lia]|].
  cbv beta. intros _ l4 (m4 & -> & W4). rewrite with_cells_map in W4. rewrite with_cells_twice. pose proof (proj1 W4) as L4. rewrite L3 in L4.
  eapply halts_call; [apply wp_halts, (wall_rows_spec xs (Z.to_nat (ys - 2)) ltac:(lia) 1 (with_cells m4 l)); [done | lia | lia]|].
  cbv beta. intros _ l5 (m5 & -> & W5). rewrite with_cells_map in W5. rewrite with_cells_twice. pose proof (proj1 W5) as L5. rewrite L4 in L5.
  eapply halts_call; [apply wp_halts, (wall_row_spec (Z.to_nat xs) ((1 + Z.max 0 (ys - 2)) * XSIZE) (with_cells m5 l)); [done | unfold XSIZE, MAXWIDTH; lia | unfold XSIZE, MAXWIDTH; lia]|].
  cbv beta. intros _ l6 (m6 & -> & W6). rewrite with_cells_map in W6. rewrite with_cells_twice. apply halts_ret. intros _. exists m3, m6. split_and!; [done | done | |].
  - eapply (walled_union (fun i => 0 <= i < xs \/ 1 <= i / 32 < ys - 1 /\ (i mod 32 = 0 \/ i mod 32 = xs - 1))); [|exact W6 | |intros i; apply _].
    + eapply walled_union; [exact W4 | exact W5 | | intros i; apply _]. intros i. cbn. lia.
    + intros i. unfold edge, inside, XSIZE, MAXWIDTH. Z.to_euclidean_division_equations. lia.
  - destruct Hf as [[-> _]|(_ & I1 & I2 & I3)]; [done|]. exists p. rewrite Z2Nat.id in * by lia. split_and!; try done; lia.
Qed.

(** ** Counts *)

Definition is_box (m : list Z) (i : Z) : bool := negb (Z.testbit (at_ m i) 1) && Z.testbit (at_ m i) 2.
Definition is_goal (m : list Z) (i : Z) : bool := Z.testbit (at_ m i) 0.

Definition number (P : Z -> bool) (l : list Z) : Z := Z.of_nat (length (filter (fun i => P i = true) l)).

Lemma number_cons P i l : number P (i :: l) = (if P i then 1 else 0) + number P l.
Proof. unfold number. rewrite filter_cons. destruct (P i); case_decide; cbn [length]; try done; lia. Qed.

Lemma count_loop_spec n : forall i b go st s l, length (map_of l) = 1024%nat -> 0 <= i -> i + Z.of_nat n <= 1024 ->
  wp (fun _ => count_loop n i b go st s) l (fun r l' => l' = l /\ exists s', r = (b + number (is_box (map_of l)) (seqZ i (Z.of_nat n)),
    go + number (is_goal (map_of l)) (seqZ i (Z.of_nat n)), st + number (fun j => is_box (map_of l) j && is_goal (map_of l) j) (seqZ i (Z.of_nat n)), s') /\
    ((forall j, i <= j < i + Z.of_nat n -> Z.testbit (at_ (map_of l) j) 1 = false) -> s' = s) /\
    (forall p, i <= p < i + Z.of_nat n -> Z.testbit (at_ (map_of l) p) 1 = true ->
      (forall j, i <= j < i + Z.of_nat n -> Z.testbit (at_ (map_of l) j) 1 = true -> j = p) -> s' = p)).
Proof.
  induction n as [|n IH]; intros i b go st s l Hl Hi Hn.
  { apply wp_ret. split; [done|]. exists s. unfold number. cbn. rewrite !Z.add_0_r. split; [done|]. split; [done | lia]. }
  cbn [count_loop]. eapply wp_then; [intros; apply get_cell_run; [done | lia]|]. cbv beta zeta. rewrite has_player_bit, has_box_bit, has_goal_bit.
  fold (is_box (map_of l) i). fold (is_goal (map_of l) i).
  eapply wp_mono; [apply IH; [done | lia | lia]|]. cbv beta. intros r l' (-> & s' & -> & Hs). split; [done|]. exists s'. split.
  - rewrite (seqZ_cons i (Z.of_nat (S n))) by lia. replace (Z.pred (Z.of_nat (S n))) with (Z.of_nat n) by lia. replace (Z.succ i) with (i + 1) by lia. rewrite !number_cons.
    f_equal. f_equal; [f_equal|]; repeat case_match; try lia; done.
  - destruct Hs as [Hs1 Hs2]. split.
    + intros Hno. rewrite Hs1 by (intros j Hj; apply Hno; lia). by rewrite Hno by lia.
    + intros p Hp Hb Hu. destruct (decide (p = i)) as [->|Hne].
      * rewrite Hs1, Hb; [done|]. intros j Hj. destruct (Z.testbit (at_ (map_of l) j) 1) eqn:E; [|done]. assert (j = i) by (apply Hu; [lia | done]). lia.
      * apply Hs2; [lia | done|]. intros j Hj. apply Hu. lia.
Qed.

(** ** The room *)

(** The low bits of the cells at the end. *)
Record finished (xs ys : Z) (m m' : list Z) : Prop := Finished {
  fn_length : length m' = 1024%nat;
  fn_bit : forall i n, 0 <= i < 1024 -> 0 <= n < 4 -> Z.testbit (at_ m' i) n = if decide (edge xs ys i) then n =? 3 else Z.testbit (at_ m i) n
}.

Lemma improved_bits xs ys m m1 m' : length m = 1024%nat -> samelow m m1 -> walled (edge xs ys) m1 m' -> finished xs ys m m'.
Proof.
  intros Hl [L1 H1] [L2 H2]. split; [congruence|]. intros i n Hi Hn. destruct (H2 i Hi) as [A B]. destruct (decide (edge xs ys i)) as [He|He].
  - rewrite A by done. assert (n = 0 \/ n = 1 \/ n = 2 \/ n = 3) as [->|[->|[->| ->]]] by lia; done.
  - rewrite B by done. by apply H1.
Qed.

Lemma kind_bits c : kind c -> (Z.testbit c 1 = true -> Z.testbit c 2 = false /\ Z.testbit c 3 = false) /\ (Z.testbit c 2 = true -> Z.testbit c 3 = false).
Proof. intros [->|[->|[->|[->|[->|[->| ->]]]]]]; done. Qed.

Section room.
Context (xs ys p : Z) (m m' : list Z).
Context (Hxs : 1 <= xs <= 32) (Hys : 2 <= ys <= 32) (Hd : drawn (ys - 1) xs m) (Hf : finished xs ys m m').
Context (Hp : 0 <= p / 32 < ys /\ 0 <= p mod 32 < xs) (Hpl : is_player m p).
Context (Hu : forall i, 0 <= i / 32 < ys /\ 0 <= i mod 32 < xs -> is_player m i -> i = p).

(** A cell with something in it is inside, and as it was read. *)
Lemma bit_inside i n : 0 <= i < 1024 -> 0 <= n < 3 -> Z.testbit (at_ m' i) n = true -> inside xs ys i /\ Z.testbit (at_ m i) n = true.
Proof using All.
  intros Hi Hn H. rewrite (fn_bit _ _ _ _ Hf) in H by lia. destruct (decide (edge xs ys i)) as [He|He]; [apply Z.eqb_eq in H; lia|]. split; [|done].
  destruct (decide (at_ m i = 0)) as [E|E]; [by rewrite E, Z.bits_0 in H|]. pose proof (dr_where _ _ _ Hd i Hi E). unfold inside. lia.
Qed.

Lemma inside_bit i n : 0 <= i < 1024 -> 0 <= n < 4 -> inside xs ys i -> Z.testbit (at_ m' i) n = Z.testbit (at_ m i) n.
Proof using All. intros Hi Hn Hin. rewrite (fn_bit _ _ _ _ Hf) by lia. rewrite decide_False; [done|]. unfold edge. tauto. Qed.

Lemma room_range i : 0 <= i / 32 < ys -> 0 <= i < 1024.
Proof using All. intros. Z.to_euclidean_division_equations. lia. Qed.

Lemma p_facts : 0 <= p < 1024 /\ inside xs ys p /\ Z.testbit (at_ m' p) 1 = true /\ Z.testbit (at_ m' p) 2 = false /\ Z.testbit (at_ m' p) 3 = false.
Proof using All.
  pose proof (room_range p (proj1 Hp)) as Hr. destruct Hpl as [B3 B1].
  assert (at_ m p <> 0) as Hne by (intros E; by rewrite E in B1). pose proof (dr_where _ _ _ Hd p Hr Hne) as Hw.
  assert (inside xs ys p) as Hin by (unfold inside; lia). destruct (kind_bits _ (dr_kind _ _ _ Hd p Hr)) as [K1 _]. destruct (K1 B1) as [K2 K3].
  rewrite !inside_bit by (done || lia). done.
Qed.

Lemma player_is_p i : 0 <= i < 1024 -> Z.testbit (at_ m' i) 1 = true -> i = p.
Proof using All.
  intros Hi H. destruct (bit_inside i 1 Hi ltac:(lia) H) as [Hin Hb]. apply Hu; [unfold inside in Hin; lia|].
  split; [|done]. by destruct (proj1 (kind_bits _ (dr_kind _ _ _ Hd i Hi)) Hb).
Qed.

Lemma box_facts i : 0 <= i < 1024 -> Z.testbit (at_ m' i) 2 = true -> inside xs ys i /\ Z.testbit (at_ m' i) 3 = false /\ Z.testbit (at_ m' i) 1 = false.
Proof using All.
  intros Hi H. destruct (bit_inside i 2 Hi ltac:(lia) H) as [Hin Hb]. rewrite !inside_bit by (done || lia).
  destruct (kind_bits _ (dr_kind _ _ _ Hd i Hi)) as [K1 K2]. split; [done|]. split; [by apply K2|]. destruct (Z.testbit (at_ m i) 1); [|done]. by destruct (K1 eq_refl) as [K _]; rewrite K in Hb.
Qed.

Lemma is_box_bit i : 0 <= i < 1024 -> is_box m' i = Z.testbit (at_ m' i) 2.
Proof using All.
  intros Hi. unfold is_box. destruct (Z.testbit (at_ m' i) 2) eqn:E; [|by rewrite andb_false_r]. by rewrite (proj2 (proj2 (box_facts i Hi E))).
Qed.

(** Nothing that is counted is below the room. *)
Lemma number_room P : (forall i, 0 <= i < 1024 -> P i = true -> i < ys * 32) -> number P (seqZ 0 (ys * 32)) = number P room_cells.
Proof using All.
  intros H. unfold room_cells. replace 1024 with (ys * 32 + (1024 - ys * 32)) by lia. rewrite seqZ_app by lia. unfold number. rewrite filter_app, length_app.
  assert (filter (fun i => P i = true) (seqZ (0 + ys * 32) (1024 - ys * 32)) = []) as ->; [|cbn [length]; lia].
  apply elem_of_nil_inv. intros i. rewrite list_elem_of_filter, elem_of_seqZ. intros [HP Hi]. specialize (H i ltac:(lia) HP). lia.
Qed.

Lemma inside_low i : inside xs ys i -> i < ys * 32.
Proof using All. unfold inside. intros. Z.to_euclidean_division_equations. lia. Qed.
End room.

Lemma size_filter_set (P Q : Z -> bool) (l : list Z) : NoDup l ->
  size (filter (fun i => P i = true) (list_to_set (filter (fun i => Q i = true) l) : gset Z)) = length (filter (fun i => Q i && P i = true) l).
Proof.
  intros Hl. rewrite <- (size_list_to_set (C := gset Z)) by (by apply NoDup_filter).
  f_equal. apply set_eq. intros i. rewrite elem_of_filter, !elem_of_list_to_set, !list_elem_of_filter, andb_true_iff. tauto.
Qed.

Lemma filter_all {A} (l : list A) (P Q : A -> bool) : (forall x, x ∈ l -> P x = Q x) -> filter (fun x => P x = true) l = filter (fun x => Q x = true) l.
Proof.
  induction l as [|x l IH]; intros H; [done|]. rewrite !filter_cons. rewrite (H x) by left. rewrite IH by (intros y Hy; apply H; by right). done.
Qed.

(** The puzzle that is accepted. *)
Lemma room_setup xs ys p m m' g : 1 <= xs <= 32 -> 2 <= ys <= 32 -> drawn (ys - 1) xs m -> finished xs ys m m' ->
  0 <= p / 32 < ys /\ 0 <= p mod 32 < xs -> is_player m p -> (forall i, 0 <= i / 32 < ys /\ 0 <= i mod 32 < xs -> is_player m i -> i = p) ->
  setup_map g = m' -> xsize g = xs -> ysize g = ys -> start g = p ->
  boxcount g = number (is_box m') (seqZ 0 (ys * 32)) -> goalcount g = number (is_goal m') (seqZ 0 (ys * 32)) ->
  setup_storecount g = number (fun j => is_box m' j && is_goal m' j) (seqZ 0 (ys * 32)) -> setup_ok g.
Proof.
  intros Hxs Hys Hd Hf Hp Hpl Hu Em Ex Ey Es Eb Eg Est.
  pose proof (p_facts xs ys p m m' Hxs Hys Hd Hf Hp Hpl Hu) as (P0 & P1 & P2 & P3 & P4).
  pose proof (player_is_p xs ys p m m' Hxs Hys Hd Hf Hp Hpl Hu) as Hplayer.
  pose proof (box_facts xs ys p m m' Hxs Hys Hd Hf Hp Hpl Hu) as Hbox.
  pose proof (is_box_bit xs ys p m m' Hxs Hys Hd Hf Hp Hpl Hu) as Hisbox.
  pose proof (number_room xs ys p m m' Hxs Hys Hd Hf Hp Hpl Hu) as Hnum.
  pose proof (inside_low xs ys p m m' Hxs Hys Hd Hf Hp Hpl Hu) as Hlow.
  pose proof (bit_inside xs ys p m m' Hxs Hys Hd Hf Hp Hpl Hu) as Hbit.
  assert (forall i, base g i = at_ m' i) as Ebase by (intros i; unfold base, at_; by rewrite Em).
  assert (NoDup room_cells) as Hnd by apply NoDup_seqZ.
  assert (forall i, i ∈ room_cells <-> 0 <= i < 1024) as Hrc by (intros i; unfold room_cells; rewrite elem_of_seqZ; lia).
  split.
  - rewrite Em. apply Hf.
  - rewrite Ex, Ey. split; [lia|]. split; [lia|]. intros i H1 H2 H3. unfold wall. rewrite Ebase. assert (0 <= i < 1024) as Hi by (Z.to_euclidean_division_equations; lia).
    rewrite (fn_bit _ _ _ _ Hf) by lia. rewrite decide_True; [done|]. exact (conj H1 (conj H2 H3)).
  - rewrite Ex, Ey. split; cbn [who boxes start_pos].
    + rewrite Es. split; [done|]. unfold wall. by rewrite Ebase.
    + rewrite elem_of_list_to_set, list_elem_of_filter, Ebase, Es, P3. by intros [].
    + intros i. rewrite elem_of_list_to_set, list_elem_of_filter, Ebase. intros [H Hi%Hrc]. destruct (Hbox i Hi H) as (B1 & B2 & _). split; [done|]. unfold wall. by rewrite Ebase.
  - intros i Hi. rewrite Ebase, Es. destruct (decide (i = p)) as [->|Hne]; [by rewrite bool_decide_true|]. rewrite bool_decide_false by done.
    destruct (Z.testbit (at_ m' i) 1) eqn:E; [|done]. by destruct Hne; apply Hplayer.
  - rewrite Est, Hnum.
    + unfold stored, start_pos, number. cbn [boxes]. rewrite (size_filter_set (goal g) (fun i => Z.testbit (base g i) 2)) by done. do 2 f_equal.
      apply filter_all. intros i Hi%Hrc. unfold goal, is_goal. rewrite Hisbox, !Ebase by done. done.
    + intros i Hi H. apply andb_true_iff in H as [H _]. rewrite Hisbox in H by done. apply Hlow. by apply Hbox.
  - rewrite Eb, Hnum.
    + unfold start_pos, number. cbn [boxes]. rewrite size_list_to_set by (by apply NoDup_filter). do 2 f_equal. apply filter_all. intros i Hi%Hrc. rewrite Hisbox, Ebase by done. done.
    + intros i Hi H. rewrite Hisbox in H by done. apply Hlow. by apply Hbox.
  - rewrite Eg, Hnum.
    + unfold number. do 2 f_equal. apply filter_all. intros i Hi. unfold goal, is_goal. by rewrite Ebase.
    + intros i Hi H. apply Hlow. by apply (Hbit i 0 Hi ltac:(lia)).
Qed.

Lemma drawn_start : drawn 1 1 (replicate 1024 EMPTY).
Proof.
  assert (forall i, 0 <= i < 1024 -> at_ (replicate 1024 EMPTY) i = 0) as E.
  { intros i Hi. unfold at_. rewrite lookup_replicate_2; [done|]. lia. }
  split; [by rewrite length_replicate | |]; intros i Hi; rewrite E by done; [by left | done].
Qed.

Lemma drawn_player y xs m i : drawn y xs m -> is_player m i -> i <> 0.
Proof.
  intros Hd [_ H] ->. destruct (decide (at_ m 0 = 0)) as [E|E]; [by rewrite E, Z.bits_0 in H|]. pose proof (dr_where _ _ _ Hd 0 ltac:(lia) E) as Hw.
  change (0 / 32) with 0 in Hw. lia.
Qed.

Lemma readlevelmap_spec l : length (buf l) = 256%nat -> halts (fun _ => readlevelmap) l (fun r l' => r = true -> setup_ok (puzzle l')).
Proof.
  intros Hb. unfold readlevelmap. set (l0 := with_puzzle (set_xsize 1 (set_map (replicate 1024 EMPTY) (set_name [] (puzzle l)))) l).
  eapply halts_call with (P := fun _ l' => l' = l0); [by apply halts_modify|]. cbv beta. intros _ ? ->.
  eapply halts_call; [apply halts_with_fuel; apply (lines_loop_spec _ 1 false l0 eq_refl ltac:(lia)); split; [done | cbn; lia | apply drawn_start]|].
  cbv beta. intros [y|] l1; [|intros _; by apply halts_ret]. intros (Hy & Hx & Hd).
  set (l2 := with_puzzle (set_ysize (y + 1) (puzzle l1)) l1).
  eapply halts_call with (P := fun _ l' => l' = l2); [by apply halts_modify|]. cbv beta. intros _ ? ->.
  eapply halts_call with (P := fun g l' => g = puzzle l2 /\ l' = l2); [apply wp_halts; by eapply wp_running|]. cbv beta. intros ? ? [-> ->].
  unfold MAXHEIGHT, MAXWIDTH. change (xsize (puzzle l2)) with (xsize (puzzle l1)). set (xs := xsize (puzzle l1)) in *.
  destruct (Z.ltb_spec 32 (y + 1)) as [?|Hy2]; cbn [orb]; [eapply halts_mono; [apply wp_halts; by eapply wp_running; [reflexivity|]; instantiate (1 := fun r _ => r = false)|]; by intros ? ? ->|].
  destruct (Z.ltb_spec 32 xs) as [?|Hx2]; [eapply halts_mono; [apply wp_halts; by eapply wp_running; [reflexivity|]; instantiate (1 := fun r _ => r = false)|]; by intros ? ? ->|].
  destruct Hd as [?|Hd]; [lia|]. set (ys := y + 1) in *.
  assert (drawn (ys - 1) xs (map_of l2)) as Hd' by (by replace (ys - 1) with y by lia).
  eapply halts_call; [apply (improvemap_spec l2); [apply Hd' | cbn; lia | cbn; fold xs; lia | |]|].
  { intros j. by eapply drawn_player. }
  { rewrite has_wall_bit. destruct (decide (at_ (map_of l2) 0 = 0)) as [->|E]; [done|]. pose proof (dr_where _ _ _ Hd' 0 ltac:(lia) E) as Hw. change (0 / 32) with 0 in Hw. lia. }
  cbv beta. intros [] l3; [|intros _; by apply halts_ret]. intros H. destruct (H eq_refl) as (m & m' & -> & Hlow & Hwall & p & _ & Hp1 & Hp2 & Hpl & Hu). clear H. cbn [negb].
  change (xsize (puzzle l2)) with xs in *. change (ysize (puzzle l2)) with ys in *.
  pose proof (improved_bits xs ys _ _ _ (dr_length _ _ _ Hd') Hlow Hwall) as Hf.
  change (ysize (puzzle l2)) with ys. unfold XSIZE, MAXWIDTH.
  eapply halts_call; [apply wp_halts, (count_loop_spec (Z.to_nat (ys * 32)) 0 0 0 0 (start (puzzle l2)) (with_cells m' l2)); [apply Hf | lia | lia]|].
  cbv beta. intros r l4 (-> & s' & -> & _ & Hs). rewrite with_cells_map in *. rewrite Z2Nat.id in * by lia. rewrite !Z.add_0_l in *.
  eapply halts_call with (P := fun _ l' => puzzle l' = set_counts (number (is_box m') (seqZ 0 (ys * 32))) (number (is_goal m') (seqZ 0 (ys * 32)))
    (number (fun j => is_box m' j && is_goal m' j) (seqZ 0 (ys * 32))) s' (puzzle (with_cells m' l2))); [by apply halts_modify|].
  cbv beta. intros _ l5 E5. apply halts_ret. intros _. rewrite E5.
  pose proof (p_facts xs ys p _ m' ltac:(lia) ltac:(lia) Hd' Hf (conj Hp1 Hp2) Hpl Hu) as (P0 & P1 & P2 & P3 & P4).
  pose proof (player_is_p xs ys p _ m' ltac:(lia) ltac:(lia) Hd' Hf (conj Hp1 Hp2) Hpl Hu) as Hplayer.
  apply (room_setup xs ys p (map_of l2) m'); try done; try lia.
  cbn. apply Hs; [|done|].
  - split; [lia|]. unfold inside in P1. Z.to_euclidean_division_equations. lia.
  - intros j Hj. apply Hplayer. lia.
Qed.
