(* ===== verification/SokSeries.v ===== *)
(** * Csokoban: reading a file of puzzles (fileread.c)

    A file of puzzles and the file with its solutions are read as far as they are needed. *)

From Stdlib Require Import ZArith Lia.
From stdpp Require Import base numbers list strings.
From S2P Require Import Prelude SokGame SokAnswers SokLevel.

Open Scope Z_scope.

(** What the files are that openfileindir opens, and what automatic variables and memory from realloc are that nothing was written to. *)
Class disk : Type := Disk {
  map_file : option (list Z);
  answer_file : option (list Z);
  stack_block : list Z;
  stale_flag : bool
}.

(** [gameseries]; the elements that are allocated are the length of [series_games]. *)
Record series : Type := Series {
  series_count : Z;
  series_games : list gamesetup;
  mapfp : option stream;
  answerfp : option stream;
  allmapsread : bool;
  allanswersread : bool;
  answersreadonly : bool;
  series_name : list Z;
  errors : list string
}.
Definition with_count v s := Series v (series_games s) (mapfp s) (answerfp s) (allmapsread s) (allanswersread s) (answersreadonly s) (series_name s) (errors s).
Definition with_series_games v s := Series (series_count s) v (mapfp s) (answerfp s) (allmapsread s) (allanswersread s) (answersreadonly s) (series_name s) (errors s).
Definition with_mapfp v s := Series (series_count s) (series_games s) v (answerfp s) (allmapsread s) (allanswersread s) (answersreadonly s) (series_name s) (errors s).
Definition with_answerfp v s := Series (series_count s) (series_games s) (mapfp s) v (allmapsread s) (allanswersread s) (answersreadonly s) (series_name s) (errors s).
Definition with_allmapsread v s := Series (series_count s) (series_games s) (mapfp s) (answerfp s) v (allanswersread s) (answersreadonly s) (series_name s) (errors s).
Definition with_allanswersread v s := Series (series_count s) (series_games s) (mapfp s) (answerfp s) (allmapsread s) v (answersreadonly s) (series_name s) (errors s).
Definition with_answersreadonly v s := Series (series_count s) (series_games s) (mapfp s) (answerfp s) (allmapsread s) (allanswersread s) v (series_name s) (errors s).
Definition with_series_name v s := Series (series_count s) (series_games s) (mapfp s) (answerfp s) (allmapsread s) (allanswersread s) (answersreadonly s) v (errors s).
Definition with_errors v s := Series (series_count s) (series_games s) (mapfp s) (answerfp s) (allmapsread s) (allanswersread s) (answersreadonly s) (series_name s) v.

Abbreviation S_ := (prog series).

Section series.
Context {MEM : memory} {TERM : terminal} {DISK : disk}.

(** [memset(game, 0, sizeof game)]. *)
Definition zero_setup : gamesetup := Gamesetup 0 0 0 0 0 0 0 0 0 0 no_list no_list [] (replicate 1024 0).

(** What getseriesfile makes of a file name. *)
Definition getseriesfile : series := Series 0 [] None None false false stale_flag [] [].

Definition complain (msg : string) : S_ bool := modify (fun s => with_errors (errors s ++ [msg]) s);; mret false.

(** Reading from [mapfp], with a buffer on the stack and the puzzle [g]: the result and the puzzle. *)
Definition from_maps {A} (g : gamesetup) (p : L A) : S_ (A * gamesetup) := fun fuel s =>
  match mapfp s with
  | None => Fault Bad_pointer
  | Some f =>
      match p fuel (Loader f stack_block g []) with
      | Ok a l => Ok (a, puzzle l) (with_errors (errors s ++ messages l) (with_mapfp (Some (file l)) s))
      | Fault e => Fault e
      end
  end.

(** Reading from [answerfp]. *)
Definition from_answers {A} (p : R A) : S_ A := fun fuel s =>
  match answerfp s with
  | None => Fault Bad_pointer
  | Some f => match p fuel f with Ok a f => Ok a (with_answerfp (Some f) s) | Fault e => Fault e end
  end.

(** ** readseriesheader *)

(** [strncpy(series->name, buf + n, 63)] and the blanks at the end. *)
Definition header_name (n : Z) : L (list Z) :=
  l ← get_state;
  let text := drop (Z.to_nat n) (buf l) in
  let name := take (Z.to_nat (strlen text)) text in
  if (length text <=? Z.to_nat (strlen text))%nat && (length name <? 63)%nat then fail Bad_pointer else
  match trimmed (rev (take 63 name)) with
  | None => fail Bad_pointer
  | Some name => mret name
  end.

(** The loop: the name, or the character that ends it. *)
Fixpoint header_lines (k : nat) : L (list Z + Z) :=
  match k with
  | O => fail Out_of_fuel
  | S k =>
      ch ← next_char;
      if ch =? 59 then
        read_line 0 256;;
        c ← byte 0;
        if c =? 59 then
          n ← with_fuel (fun k => blanks_loop k 1);
          name ← header_name n;
          mret (inl name)
        else header_lines k
      else if negb (ch =? newline) then mret (inr ch) else header_lines k
  end.

Definition readseriesheader : S_ bool :=
  x ← from_maps zero_setup (with_fuel header_lines);
  match x.1 with
  | inl name => modify (with_series_name name);; mret true
  | inr ch =>
      if ch =? EOF then modify (fun s => with_allmapsread true (with_mapfp None s));; mret false
      else from_maps zero_setup (unget ch);; mret true
  end.

(** ** readlevelinseries *)

(** [while (series->count >= series->allocated)]. *)
Fixpoint enlarge_loop (k : nat) : S_ unit :=
  match k with
  | O => fail Out_of_fuel
  | S k =>
      s ← get_state;
      let allocated := Z.of_nat (length (series_games s)) in
      if allocated <=? series_count s then
        let n := if allocated =? 0 then 16 else allocated * 2 in
        modify (with_series_games (series_games s ++ replicate (Z.to_nat (n - allocated)) zero_setup));;
        enlarge_loop k
      else mret tt
  end.

(** [series->games + series->count]. *)
Definition next_slot : S_ gamesetup :=
  s ← get_state;
  if series_count s <? 0 then fail Bad_pointer else
  match series_games s !! Z.to_nat (series_count s) with Some g => mret g | None => fail Bad_pointer end.
Definition set_slot_game (g : gamesetup) : S_ unit :=
  modify (fun s => with_series_games (<[Z.to_nat (series_count s) := g]> (series_games s)) s).

(** The solutions of the puzzle that was read. *)
Definition read_solutions (g : gamesetup) : S_ unit :=
  s ← get_state;
  match answerfp s with
  | None => set_slot_game (no_answers g)
  | Some _ => x ← from_answers (readanswers g); set_slot_game x.2
  end.

(** One turn of the loop. *)
Definition load_next : S_ unit :=
  with_fuel enlarge_loop;;
  g ← next_slot;
  x ← from_maps g readlevelmap;
  set_slot_game x.2;;
  (if x.1 : bool then
     s ← get_state;
     (if negb (allanswersread s) then read_solutions x.2 else mret tt);;
     modify (fun s => with_count (series_count s + 1) s)
   else mret tt);;
  s ← get_state;
  (match mapfp s with
   | Some f => if at_eof f then modify (fun s => with_allmapsread true (with_mapfp None s)) else mret tt
   | None => mret tt
   end);;
  s ← get_state;
  match answerfp s with
  | Some f => if at_eof f then modify (with_allanswersread true) else mret tt
  | None => mret tt
  end.

Fixpoint load_loop (k : nat) (level : Z) : S_ unit :=
  match k with
  | O => fail Out_of_fuel
  | S k =>
      s ← get_state;
      if negb (allmapsread s) && (series_count s <=? level) then load_next;; load_loop k level else mret tt
  end.

(** The files are opened. *)
Definition open_series : S_ bool :=
  s ← get_state;
  match mapfp s with
  | Some _ => mret true
  | None =>
      match map_file with
      | None => complain "cannot be opened"
      | Some f =>
          modify (with_mapfp (Some (Stream f false)));;
          ok ← readseriesheader;
          if negb ok then complain "file contains no maps" else
          (if savedir then
             match answer_file with
             | Some f => modify (fun s => with_answersreadonly true (with_answerfp (Some (Stream f false)) s))
             | None => modify (with_answerfp None)
             end
           else modify (with_answerfp None));;
          mret true
      end
  end.

Definition readlevelinseries (level : Z) : S_ bool :=
  if level <? 0 then mret false else
  s ← get_state;
  if level <? series_count s then mret true else
  ok ← (if negb (allmapsread s) then
      ok ← open_series;
      if ok : bool then with_fuel (fun k => load_loop k level);; mret true else mret false
    else mret true);
  if ok : bool then s ← get_state; mret (level <? series_count s) else mret false.
End series.
