(* ===== verification/SokLoad.v ===== *)
(** * Csokoban: reading files of puzzles ends

    However far the files are read, the puzzles that were read are rooms; a puzzle that cannot be used is passed over. *)

From Stdlib Require Import ZArith Lia.
From stdpp Require Import base numbers list gmap sets fin_sets strings.
From S2P Require Import Prelude SokGame SokRule SokShow SokPlay SokAnswers SokTurn SokWorld SokLevel SokFill SokImprove SokSeries.

Open Scope Z_scope.

(** ** What is read of the file of puzzles *)

#[local] Instance later_refl : Reflexive later.
Proof. intros f. unfold later. lia. Qed.
#[local] Instance later_trans : Transitive later.
Proof. unfold later. intros f1 f2 f3 H1 H2. lia. Qed.

(** Something was read, or the end was met. *)
Definition went (f f' : stream) : Prop := at_eof f' = true \/ (length (bytes f') < length (bytes f))%nat.

Lemma fgetc_went f : exists c f', (forall fuel, fgetc fuel f = Ok c f') /\ later f f' /\ went f f' /\ (c <> EOF -> (length (bytes f') < length (bytes f))%nat).
Proof.
  destruct f as [[|c l] e]; [exists EOF, (Stream [] true) | exists c, (Stream l e)]; unfold later, went; cbn; (split; [done|]); (split; [lia|]).
  - by split; [left|].
  - split; [right|]; lia.
Qed.

(** What does not read leaves the file as it is. *)
Lemma pres_get_cell {T} (f : loader -> T) i : preserves f (get_cell i).
Proof. unfold get_cell, get_puzzle. preserve. Qed.

Section kept.
Context {T} (f : loader -> T) (Hcells : forall m l, f (with_cells m l) = f l) (Hmsg : forall v l, f (with_messages v l) = f l).
#[local] Hint Resolve pres_get_cell : preserve.

Lemma pres_put_cell i v : preserves f (put_cell i v).
Proof using Hcells.
  unfold put_cell, get_puzzle. apply pres_bind; [preserve|]. intros g. destruct (_ && _); [|preserve].
  intros l. apply wlp_modify. apply (Hcells (<[Z.to_nat i := v]> (setup_map g)) l).
Qed.
#[local] Hint Resolve pres_put_cell : preserve.

Lemma pres_fileerr msg : preserves f (fileerr msg).
Proof using Hmsg. unfold fileerr. apply pres_bind; [|intros; preserve]. intros l. apply wlp_modify. apply Hmsg. Qed.
#[local] Hint Resolve pres_fileerr : preserve.

Lemma pres_byte i : preserves f (byte i).
Proof using. unfold byte. preserve. Qed.
#[local] Hint Resolve pres_byte : preserve.

Lemma pres_row_loop k y : forall x i, preserves f (row_loop k y x i).
Proof using Hcells Hmsg. induction k as [|k IH]; intros x i; cbn [row_loop]; preserve. Qed.

Lemma pres_pullflooring k : forall pos, preserves f (pullflooring k pos).
Proof using Hcells. induction k as [|k IH]; intros pos; cbn [pullflooring]; unfold pull_next; preserve. Qed.

Lemma pres_floor_row n : forall i p, preserves f (floor_row n i p).
Proof using Hcells Hmsg. induction n as [|n IH]; intros i p; cbn [floor_row]; preserve. Qed.

Lemma pres_floor_rows n : forall y xs p, preserves f (floor_rows n y xs p).
Proof using Hcells Hmsg. induction n as [|n IH]; intros y xs p; cbn [floor_rows]; preserve; apply pres_floor_row. Qed.

Lemma pres_join_row n : forall i, preserves f (join_row n i).
Proof using Hcells. induction n as [|n IH]; intros i; cbn [join_row]; unfold extend, add_flag; preserve. Qed.

Lemma pres_join_rows n : forall y xs, preserves f (join_rows n y xs).
Proof using Hcells. induction n as [|n IH]; intros y xs; cbn [join_rows]; preserve; apply pres_join_row. Qed.

Lemma pres_wall_row n : forall i, preserves f (wall_row n i).
Proof using Hcells. induction n as [|n IH]; intros i; cbn [wall_row]; preserve. Qed.

Lemma pres_wall_rows n : forall y xs, preserves f (wall_rows n y xs).
Proof using Hcells. induction n as [|n IH]; intros y xs; cbn [wall_rows]; preserve. Qed.

Lemma pres_improvemap : preserves f improvemap.
Proof using Hcells Hmsg.
  unfold improvemap, get_puzzle. preserve; auto using pres_floor_rows, pres_pullflooring, pres_join_rows, pres_wall_row, pres_wall_rows.
Qed.

Lemma pres_count_loop n : forall i b go st s, preserves f (count_loop n i b go st s).
Proof using. induction n as [|n IH]; intros; cbn [count_loop]; preserve. Qed.

Lemma pres_blanks_loop k : forall x, preserves f (blanks_loop k x).
Proof using. induction k as [|k IH]; intros x; cbn [blanks_loop]; preserve. Qed.
End kept.

(** *** The solutions of the slot *)

Definition solutions (g : gamesetup) : dyxlist * dyxlist := (moveanswer g, pushanswer g).
Definition old_solutions (l : loader) : dyxlist * dyxlist := solutions (puzzle l).

Lemma pres_next_char : preserves old_solutions next_char.
Proof. intros l fuel c l'. unfold next_char. destruct (fgetc fuel (file l)); [|done]. by intros [= <- <-]. Qed.

Lemma pres_read_line off len : preserves old_solutions (read_line off len).
Proof.
  intros l fuel n l'. unfold read_line. destruct (getnline len fuel (file l)) as [[s m] f|]; [|done]. intros [= <- <-].
  destruct (m =? -1); [by destruct (bytes (file l))|done].
Qed.

Lemma pres_change_puzzle {T} (f : loader -> T) h : (forall l, f (with_puzzle (h (puzzle l)) l) = f l) -> preserves f (change_puzzle h).
Proof. intros H l. by apply wlp_modify. Qed.

Lemma pres_read_title n : preserves old_solutions (read_title n).
Proof. unfold read_title. preserve; [by apply pres_blanks_loop | by apply pres_change_puzzle]. Qed.

Lemma pres_lines_loop k : forall y bad, preserves old_solutions (lines_loop k y bad).
Proof.
  induction k as [|k IH]; intros y bad; cbn [lines_loop]; unfold get_puzzle, unget; preserve;
    auto using pres_next_char, pres_read_line, pres_byte, pres_read_title, pres_row_loop; by apply pres_change_puzzle.
Qed.

Lemma pres_readlevelmap : preserves old_solutions readlevelmap.
Proof.
  unfold readlevelmap, get_puzzle. preserve; auto using pres_lines_loop, pres_fileerr, pres_improvemap, pres_count_loop; by apply pres_change_puzzle.
Qed.

(** *** The file *)

Lemma pres_title_file n : preserves file (read_title n).
Proof. unfold read_title. preserve; [by apply pres_blanks_loop | by apply pres_change_puzzle]. Qed.

Lemma rest_later k : forall f, wlp (rest_of_line k) f (fun _ f' => later f f').
Proof.
  induction k as [|k IH]; intros f; cbn [rest_of_line]; [apply wlp_fail|]. destruct (fgetc_went f) as (c & f1 & E & L & _).
  apply wlp_bind. intros fuel c' f' E'. rewrite E in E'. injection E' as <- <-. destruct (_ || _); [by apply wlp_ret|].
  eapply wlp_mono; [apply IH|]. cbv beta. intros _ f2 H. by etrans.
Qed.

Lemma getnline_later len f : wlp (getnline len) f (fun _ f' => later f f').
Proof.
  unfold getnline. apply wlp_bind, wlp_get_state. destruct (bytes f).
  - destruct (fgetc_went f) as (c & f1 & E & L & _). apply wlp_bind. intros fuel c' f' E'. rewrite E in E'. injection E' as <- <-. by apply wlp_ret.
  - apply wlp_bind. destruct (fgets_spec (Z.to_nat (len - 1)) f) as (s & f1 & E & _ & L). intros fuel s' f' E'. rewrite E in E'. injection E' as <- <-.
    cbv zeta. destruct (_ && _); [|by apply wlp_ret]. apply wlp_bind, wlp_with_fuel. intros k. eapply wlp_mono; [apply rest_later|]. cbv beta. intros _ f2 H. apply wlp_ret. by etrans.
Qed.

Lemma read_line_later off len l : wlp (read_line off len) l (fun _ l' => later (file l) (file l')).
Proof.
  intros fuel n l'. unfold read_line. destruct (getnline len fuel (file l)) as [[s m] f|] eqn:E; [|done]. intros [= <- <-]. cbn [file with_file].
  by apply getnline_later in E.
Qed.

Lemma next_char_went l : exists c f, (forall fuel, next_char fuel l = Ok c (with_file f l)) /\ later (file l) f /\ went (file l) f /\
  (c <> EOF -> (length (bytes f) < length (bytes (file l)))%nat).
Proof. destruct (fgetc_went (file l)) as (c & f & E & H). exists c, f. split; [|done]. intros fuel. unfold next_char. by rewrite E. Qed.

Lemma went_later f1 f2 f3 : later f1 f2 -> went f2 f3 -> went f1 f3.
Proof. unfold later, went. intros H [H1|H1]; [by left | right; lia]. Qed.

Lemma wlp_kept {S T A} (f : S -> T) (p : prog S A) s : preserves f p -> wlp p s (fun _ s' => f s' = f s).
Proof. intros H. apply H. Qed.

(** Reading a puzzle goes on in the file: [n] is what is left of it. *)
Lemma lines_loop_went k : forall y bad l, wlp (lines_loop k y bad) l (fun _ l' => later (file l) (file l') /\ (y <= 1 -> went (file l) (file l'))).
Proof.
  induction k as [|k IH]; intros y bad l; cbn [lines_loop]; [apply wlp_fail|].
  destruct (Z.ltb_spec y MAXHEIGHT) as [Hy|Hy]; cbn [negb]; [|apply wlp_ret; split; [done | unfold MAXHEIGHT in Hy; lia]].
  destruct (next_char_went l) as (c & f & E & L & W & Hc). apply wlp_bind. intros fuel c' l' E'. rewrite E in E'. injection E' as <- <-. clear fuel.
  set (l1 := with_file f l). destruct (Z.eqb_spec c EOF) as [|Hne]; [by apply wlp_ret|]. specialize (Hc Hne).
  assert (forall l2, later f (file l2) -> later (file l) (file l2) /\ (y <= 1 -> went (file l) (file l2))) as Hok.
  { intros l2 H. unfold later, went in *. split; [lia|]. right. lia. }
  assert (forall y' b l2, later f (file l2) -> wlp (lines_loop k y' b) l2 (fun _ l' => later (file l) (file l') /\ (y <= 1 -> went (file l) (file l')))) as Hloop.
  { intros y' b l2 H. eapply wlp_mono; [apply IH|]. cbv beta. intros _ l3 [H3 _]. apply Hok. by etrans. }
  destruct (_ || (c =? 39)).
  - destruct (Z.ltb_spec 1 y) as [H1|H1].
    { apply wlp_bind, wlp_modify, wlp_ret. split; [unfold later; cbn; lia | lia]. }
    destruct (c =? 10); [by apply Hloop|]. apply wlp_bind. eapply wlp_mono; [apply read_line_later|]. cbv beta. intros n l2 H2. cbn [l1 file with_file] in H2.
    destruct (n <? 0); [apply wlp_ret; by apply Hok|]. apply wlp_bind. eapply wlp_mono; [by apply (wlp_kept file), pres_byte|]. cbv beta. intros b l3 E3.
    apply wlp_bind. eapply wlp_mono; [apply (wlp_kept file); destruct (_ && _); [apply pres_title_file | preserve]|]. cbv beta. intros _ l4 E4.
    apply Hloop. by rewrite E4, E3.
  - apply wlp_bind, wlp_modify, wlp_bind. eapply wlp_mono; [apply read_line_later|]. cbv beta. intros n l2 H2. cbn [l1 file with_file with_buf] in H2.
    destruct bad; [by apply Hloop|]. apply wlp_bind. eapply wlp_mono; [apply (wlp_kept file), pres_with_fuel; intros; by apply pres_row_loop|]. cbv beta. intros [x b] l3 E3.
    apply wlp_bind. eapply wlp_mono; [apply (wlp_kept file); unfold get_puzzle; preserve|]. cbv beta. intros g l4 E4.
    destruct (_ <=? x); [|apply Hloop; by rewrite E4, E3]. apply wlp_bind, wlp_modify. destruct (_ <? _); [apply wlp_ret, Hok | apply Hloop]; cbn; by rewrite E4, E3.
Qed.

Lemma readlevelmap_went l : wlp readlevelmap l (fun _ l' => went (file l) (file l')).
Proof.
  unfold readlevelmap. apply wlp_bind, wlp_modify, wlp_bind, wlp_with_fuel. intros k. eapply wlp_mono; [apply lines_loop_went|]. cbv beta. intros r l1 [_ H]. specialize (H ltac:(lia)).
  destruct r as [y|]; [|by apply wlp_ret]. apply (wlp_mono _ _ (fun _ l' => file l' = file l1)); [|intros _ l' ->; exact H].
  apply (wlp_kept file). unfold get_puzzle. preserve; auto using pres_fileerr, pres_improvemap, pres_count_loop; by apply pres_change_puzzle.
Qed.

(** ** Reading solutions ends *)

Lemma halts_also {S A} (p : nat -> prog S A) s P Q : halts p s P -> (forall n, wlp (p n) s Q) -> halts p s (fun a s' => P a s' /\ Q a s').
Proof.
  intros (N & o & H & Ho) HQ. exists N, o. split; [done|]. destruct o as [a s'|e]; [|done]. split; [done|]. apply (HQ N N). by apply H.
Qed.

Definition growable (l : dyxlist) : Prop := 0 <= allocated l.

Section answers.
Context {MEM : memory}.

Lemma setmovelist_halts {S} (s : S) l n : growable l -> halts (fun _ => setmovelist l n) s (fun l' s' => s' = s /\ growable l').
Proof using Type.
  intros Hl. unfold growable in Hl. destruct (grow_ok n (if no_block l then 16 else allocated l)) as (N & a & H & Ha & _).
  { unfold no_block. destruct (Z.eqb_spec (allocated l) 0); cbn [orb]; [lia|]. destruct (_ =? 0)%nat; lia. }
  exists N, (Ok (Dyxlist a n (resized a (slots l))) s). split; [intros m fuel Hm Hf; unfold setmovelist; by rewrite H|].
  split; [done|]. unfold growable. cbn. unfold no_block in Ha. destruct (_ || _); lia.
Qed.

Lemma set_slot_halts {S} (s : S) l i m : halts (fun _ => set_slot l i m) s (fun l' s' => s' = s /\ allocated l' = allocated l).
Proof using Type. unfold set_slot. destruct (_ && _); [by apply halts_ret | by apply halts_fail]. Qed.

Lemma fgetc_halts {B} (k : nat -> Z -> R B) f Q :
  (forall c f', later f f' -> (c <> EOF -> (length (bytes f') < length (bytes f))%nat) -> halts (fun n => k n c) f' Q) -> halts (fun n => fgetc ≫= k n) f Q.
Proof using Type.
  intros H. destruct (fgetc_went f) as (c & f' & E & L & _ & Hc). apply (halts_call _ _ _ (fun c' s => c' = c /\ s = f')).
  - exists 0%nat, (Ok c f'). by split; [intros; apply E|].
  - cbv beta. intros ? ? [-> ->]. by apply H.
Qed.

Lemma letters_halts n : forall f moves movecount ch move, length (bytes f) = n -> growable moves ->
  halts (fun k => letters_loop k moves movecount ch move) f (fun x f' => growable x.1.1).
Proof using Type.
  induction n as [n IH] using lt_wf_ind. intros f moves movecount ch move Hn Hm. eapply halts_unfold; [intros k; reflexivity|]. cbn [letters_loop].
  destruct (movecount =? 0); [by apply halts_ret|]. apply fgetc_halts. intros c f' _ Hc. destruct (Z.eqb_spec c EOF) as [|Hne]; [by apply halts_ret|]. specialize (Hc Hne).
  destruct (isspace c); [apply (IH (length (bytes f'))); [lia | done | done]|]. cbv zeta. eapply halts_call; [apply set_slot_halts|]. cbv beta. intros l' f2 [-> E].
  apply (IH (length (bytes f'))); [lia | done | unfold growable in *; lia].
Qed.

Lemma dots_halts n : forall f ch r, length (bytes f) = n -> halts (fun k => dots_loop k ch r) f (fun _ _ => True).
Proof using Type.
  assert (forall f r, halts (fun k => dots_loop k EOF r) f (fun _ _ => True)) as Hend.
  { intros f r. eapply halts_unfold; [intros k; reflexivity|]. by apply halts_ret. }
  induction n as [n IH] using lt_wf_ind. intros f ch r Hn. eapply halts_unfold; [intros k; reflexivity|]. cbn [dots_loop].
  destruct (_ || _); [by apply halts_ret|]. apply fgetc_halts. intros c f' _ Hc. destruct (Z.eqb_spec c EOF) as [->|Hne]; [apply Hend|]. specialize (Hc Hne).
  apply (IH (length (bytes f'))); [lia | done].
Qed.

Lemma growable_init l : growable l -> growable (initmovelist l).
Proof using Type. unfold growable, initmovelist. destruct (no_block l); cbn; lia. Qed.

Lemma readanswer_halts l n f : growable l -> halts (fun _ => readanswer l n) f (fun x _ => growable x.2).
Proof using Type.
  intros Hl. unfold readanswer. eapply halts_call; [by apply setmovelist_halts|]. cbv beta. intros l1 ? [-> H1].
  eapply halts_call; [by eapply halts_with_fuel, letters_halts|]. cbv beta. intros [[l2 mc] ch] f2 H2.
  eapply halts_call; [by eapply halts_with_fuel, dots_halts|]. cbv beta. intros r f3 _. destruct (negb _); apply halts_ret; [by apply growable_init | done].
Qed.

(** A line was read, or none. *)
Lemma getnline_smaller len f : 1 < len -> wlp (getnline len) f (fun x f' => x.2 < 0 \/ (length (bytes f') < length (bytes f))%nat).
Proof using Type.
  intros Hlen. unfold getnline. apply wlp_bind, wlp_get_state. destruct f as [[|c0 l] e]; cbn [bytes].
  { intros fuel x f' E. unfold mbind, prog_bind in E. destruct (fgetc fuel _); [|done]. injection E as <- <-. by left. }
  destruct (Z.to_nat (len - 1)) as [|m] eqn:Em; [lia|].
  apply wlp_bind. apply (wlp_mono _ _ (fun _ f' => (length (bytes f') < S (length l))%nat)).
  - cbn [fgets]. apply wlp_bind. intros fuel c f1 E. injection E as <- <-.
    destruct (c0 =? EOF); [apply wlp_ret; cbn; lia|]. destruct (c0 =? newline); [apply wlp_ret; cbn; lia|].
    apply wlp_bind. destruct (fgets_spec m (Stream l e)) as (s & f1 & E & _ & L). intros fuel' s' f2 E'. rewrite E in E'. injection E' as <- <-. apply wlp_ret. unfold later in L. cbn in *. lia.
  - cbv beta. intros b f1 H. cbv zeta. destruct (_ && _); [|apply wlp_ret; by right]. apply wlp_bind, wlp_with_fuel. intros k. eapply wlp_mono; [apply rest_later|].
    cbv beta. intros _ f2 L. apply wlp_ret. right. unfold later in L. cbn in *. lia.
Qed.

Lemma getnline_halts f : halts (fun _ => getnline 256) f (fun x f' => x.2 < 0 \/ (length (bytes f') < length (bytes f))%nat).
Proof using Type.
  eapply halts_mono; [apply (halts_also _ _ (fun _ _ => True)); [|intros _; by apply getnline_smaller]|by intros x f' [_ H]].
  apply wp_halts. eapply wp_mono; [by apply getnline_spec|]. done.
Qed.

Lemma header_halts n : forall f, length (bytes f) = n -> halts header_loop f (fun _ _ => True).
Proof using Type.
  induction n as [n IH] using lt_wf_ind. intros f Hn. eapply halts_unfold; [intros k; reflexivity|]. cbn [header_loop].
  eapply halts_call; [apply getnline_halts|]. cbv beta. intros [b k] f' H. cbn [snd] in H. destruct (Z.ltb_spec k 0) as [|Hk]; [by apply halts_ret|]. cbv zeta.
  destruct (_ && _); [by apply halts_ret|]. apply (IH (length (bytes f'))); [lia | done].
Qed.

Lemma copy_halts {S} (s : S) to from : halts (fun _ => copymovelist to from) s (fun _ s' => s' = s).
Proof using Type.
  unfold copymovelist. cbv zeta. eapply halts_call; [apply setmovelist_halts; unfold growable, initmovelist, no_block; cbn; by rewrite orb_true_r|].
  cbv beta. intros l s' [-> _]. destruct (_ || _); [by apply halts_fail | by apply halts_ret].
Qed.

(** Reading solutions ends, whatever the file; the puzzle is otherwise as before. *)
Lemma readanswers_halts g f : growable (moveanswer g) -> growable (pushanswer g) -> halts (fun _ => readanswers g) f (fun x _ => same_puzzle g x.2).
Proof using Type.
  intros Hm Hp. apply growable_init in Hm, Hp. assert (forall mb mbp pb pbm a b, same_puzzle g (with_answers mb mbp pb pbm a b (no_answers g))) as Hsame
    by (intros; by repeat eexists).
  unfold readanswers. eapply halts_call; [by eapply halts_with_fuel, header_halts|]. cbv beta. intros [b|] f1 _; [|apply halts_ret; by repeat eexists].
  destruct (nth 0 b 0 =? 45); [apply halts_ret; by repeat eexists|]. destruct (scan_counts b) as [[n m]|]; [|apply halts_ret, Hsame].
  eapply halts_call; [by apply readanswer_halts|]. cbv beta. intros [ok a] f2 Ha. destruct (negb ok); [apply halts_ret, Hsame|].
  eapply halts_call; [apply getnline_halts|]. cbv beta. intros [b2 k] f3 _.
  apply (halts_call _ _ _ (fun _ _ => True)).
  - destruct (k <=? 0); [by apply halts_ret|]. destruct (scan_counts b2) as [[n' m']|]; [|by apply halts_ret].
    eapply halts_call; [by apply readanswer_halts|]. cbv beta. intros [ok' p] f4 _. by apply halts_ret.
  - cbv beta. intros [[[n' m']|] p] f4 _; [apply halts_ret, Hsame|]. eapply halts_call; [apply copy_halts|]. cbv beta. intros p' ? ->. apply halts_ret, Hsame.
Qed.
End answers.

(** ** Files of puzzles *)

Section files.
Context {MEM : memory} {TERM : terminal} {DISK : disk}.
Context (Hblock : length stack_block = 256%nat).

(** The puzzles that were read are rooms, the other elements have no solutions yet; without a file of solutions every puzzle can be played. *)
Record loaded (s : series) : Prop := Loaded {
  ld_count : 0 <= series_count s <= Z.of_nat (length (series_games s));
  ld_rooms : Forall setup_ok (take (Z.to_nat (series_count s)) (series_games s));
  ld_rest : Forall (fun g => null_list (moveanswer g) /\ null_list (pushanswer g)) (drop (Z.to_nat (series_count s)) (series_games s));
  ld_start : mapfp s = None -> allmapsread s = false -> series_count s = 0;
  ld_plain : answerfp s = None -> Forall puzzle_ok (take (Z.to_nat (series_count s)) (series_games s))
}.

(** [s'] has the puzzles of [s], and perhaps more. *)
Record more (s s' : series) : Prop := More {
  mo_count : series_count s <= series_count s';
  mo_games : take (Z.to_nat (series_count s)) (series_games s') = take (Z.to_nat (series_count s)) (series_games s)
}.

#[local] Instance more_refl : Reflexive more.
Proof. intros s. by split. Qed.
Lemma more_trans s1 s2 s3 : more s1 s2 -> more s2 s3 -> more s1 s3.
Proof.
  intros [A1 B1] [A2 B2]. split; [lia|]. rewrite <- B1.
  assert (Z.to_nat (series_count s1) = Nat.min (Z.to_nat (series_count s1)) (Z.to_nat (series_count s2))) as -> by lia.
  by rewrite <- !take_take, B2.
Qed.

Lemma start_loaded : loaded getseriesfile.
Proof. split; cbn; try done; constructor. Qed.

(** *** The parts *)

Lemma halts_from_maps {A} g (p : L A) s f Q : mapfp s = Some f -> halts (fun _ => p) (Loader f stack_block g []) Q ->
  halts (fun _ => from_maps g p) s (fun x s' => exists l, Q x.1 l /\ x.2 = puzzle l /\ s' = with_errors (errors s ++ messages l) (with_mapfp (Some (file l)) s)).
Proof.
  intros Hf (N & o & H & Ho). destruct o as [a l|e].
  - exists N. eexists. split; [intros n fuel Hn Hfu; unfold from_maps; by rewrite Hf, (H n fuel Hn Hfu)|]. cbv beta iota. by exists l.
  - exists N. eexists. split; [intros n fuel Hn Hfu; unfold from_maps; by rewrite Hf, (H n fuel Hn Hfu)|]. done.
Qed.

Lemma halts_from_answers {A} (p : R A) s f Q : answerfp s = Some f -> halts (fun _ => p) f Q ->
  halts (fun _ => from_answers p) s (fun x s' => exists f', Q x f' /\ s' = with_answerfp (Some f') s).
Proof.
  intros Hf (N & o & H & Ho). destruct o as [a f'|e].
  - exists N. eexists. split; [intros n fuel Hn Hfu; unfold from_answers; by rewrite Hf, (H n fuel Hn Hfu)|]. cbv beta iota. by exists f'.
  - exists N. eexists. split; [intros n fuel Hn Hfu; unfold from_answers; by rewrite Hf, (H n fuel Hn Hfu)|]. done.
Qed.

Lemma halts_get {S A} (s : S) (k : nat -> S -> prog S A) Q : halts (fun n => k n s) s Q -> halts (fun n => get_state ≫= k n) s Q.
Proof. intros H. eapply halts_call with (P := fun a s' => a = s /\ s' = s); [by apply halts_get_state|]. by intros ? ? [-> ->]. Qed.

Lemma halts_set {S A} (s : S) h (k : nat -> unit -> prog S A) Q : halts (fun n => k n tt) (h s) Q -> halts (fun n => modify h ≫= k n) s Q.
Proof. intros H. eapply halts_call with (P := fun _ s' => s' = h s); [by apply halts_modify|]. by intros [] ? ->. Qed.

Definition enlarged (s s' : series) : Prop := exists k, s' = with_series_games (series_games s ++ replicate k zero_setup) s.

Lemma enlarge_spec s : 0 <= series_count s <= Z.of_nat (length (series_games s)) ->
  halts enlarge_loop s (fun _ s' => enlarged s s' /\ series_count s < Z.of_nat (length (series_games s'))).
Proof.
  intros Hc. eapply halts_unfold; [intros k; reflexivity|]. cbn [enlarge_loop]. apply halts_get. cbv zeta.
  destruct (Z.leb_spec (Z.of_nat (length (series_games s))) (series_count s)) as [Hle|Hgt].
  2:{ apply halts_ret. split; [|lia]. exists 0%nat. cbn. rewrite app_nil_r. by destruct s. }
  apply halts_set. set (n := if _ =? 0 then _ else _). set (s1 := with_series_games _ s).
  assert (series_count s < Z.of_nat (length (series_games s1))) as H1.
  { subst s1 n. cbn. rewrite length_app, length_replicate. destruct (Z.eqb_spec (Z.of_nat (length (series_games s))) 0); lia. }
  eapply halts_unfold; [intros k; reflexivity|]. cbn [enlarge_loop]. apply halts_get. cbv zeta. change (series_count s1) with (series_count s).
  destruct (Z.leb_spec (Z.of_nat (length (series_games s1))) (series_count s)); [lia|]. apply halts_ret. split; [|done]. by eexists.
Qed.

Lemma enlarged_loaded s s' : loaded s -> enlarged s s' -> loaded s' /\ more s s'.
Proof.
  intros [H1 H2 H3 H4 H5] [k ->]. assert ((Z.to_nat (series_count s) - length (series_games s) = 0)%nat) as E by lia. split; [split; cbn|split; cbn].
  - rewrite length_app. lia.
  - by rewrite take_app, E, app_nil_r.
  - rewrite drop_app, E. apply Forall_app. split; [done|]. by apply Forall_replicate.
  - done.
  - by rewrite take_app, E, app_nil_r.
  - lia.
  - by rewrite take_app, E, app_nil_r.
Qed.

(** *** One puzzle *)

Definition no_solutions (g : gamesetup) : Prop := null_list (moveanswer g) /\ null_list (pushanswer g).

Lemma null_growable l : null_list l -> growable l.
Proof. intros (H & _ & _). unfold growable. lia. Qed.

Lemma unsolved_ok g : setup_ok g -> no_solutions g -> puzzle_ok g /\ puzzle_ok (no_answers g).
Proof.
  intros Hg [H1 H2]. assert (forall l, null_list l -> used l = []) as Hn by (intros l (_ & _ & H); unfold used; by rewrite H, take_nil).
  assert (forall g' l, list_ok0 l -> used l = [] -> answer_ok g' l) as Ha by (intros g' l H E; split; [done | rewrite E; eexists; constructor]).
  split; split; try (by apply Ha; [right | apply Hn]); [done | by eapply setup_same; [by repeat eexists|]|..];
    (apply Ha; [left|]; cbn; by apply init_ok; right).
Qed.

(** The next element of the array. *)
Lemma slot_null s g : loaded s -> series_games s !! Z.to_nat (series_count s) = Some g -> no_solutions g.
Proof. intros Hs Hg. eapply (Forall_lookup_1 _ _ 0%nat); [apply (ld_rest _ Hs)|]. by rewrite lookup_drop, Nat.add_0_r. Qed.

Lemma slot_loaded s g : loaded s -> series_count s < Z.of_nat (length (series_games s)) -> no_solutions g ->
  loaded (with_series_games (<[Z.to_nat (series_count s) := g]> (series_games s)) s) /\ more s (with_series_games (<[Z.to_nat (series_count s) := g]> (series_games s)) s).
Proof.
  intros [H1 H2 H3 H4 H5] Hc Hg. split; [split; cbn|split; cbn]; rewrite ?length_insert, ?take_insert_ge by lia; try done.
  rewrite drop_insert_ge by lia. rewrite Nat.sub_diag. by apply Forall_insert.
Qed.

Definition added (g : gamesetup) (s : series) : series :=
  with_count (series_count s + 1) (with_series_games (<[Z.to_nat (series_count s) := g]> (series_games s)) s).

Lemma added_loaded s g : loaded s -> series_count s < Z.of_nat (length (series_games s)) -> mapfp s <> None -> setup_ok g -> (answerfp s = None -> puzzle_ok g) ->
  loaded (added g s) /\ more s (added g s).
Proof.
  intros [H1 H2 H3 H4 H5] Hc Hm Hg Hp. assert (Z.to_nat (series_count s + 1) = S (Z.to_nat (series_count s))) as E by lia.
  assert (forall P : gamesetup -> Prop, Forall P (take (Z.to_nat (series_count s)) (series_games s)) -> P g ->
    Forall P (take (Z.to_nat (series_count s + 1)) (<[Z.to_nat (series_count s) := g]> (series_games s)))) as Htake.
  { intros P HP Hpg. rewrite E. erewrite take_S_r by (apply list_lookup_insert_eq; lia). rewrite take_insert_ge by lia. apply Forall_app. by repeat constructor. }
  split; [split; cbn|split; cbn].
  - rewrite length_insert. lia.
  - by apply Htake.
  - rewrite E, drop_insert_lt by lia. replace (S (Z.to_nat (series_count s))) with (Z.to_nat (series_count s) + 1)%nat by lia. rewrite <- drop_drop. by apply Forall_drop.
  - done.
  - intros Ha. apply Htake; auto.
  - lia.
  - by rewrite take_insert_ge by lia.
Qed.

(** Fields that the puzzles do not depend on. *)
Lemma loaded_same s s' : loaded s -> series_count s' = series_count s -> series_games s' = series_games s ->
  (mapfp s' = None -> allmapsread s' = false -> series_count s = 0) -> (answerfp s' = None -> answerfp s = None) -> loaded s' /\ more s s'.
Proof.
  intros [H1 H2 H3 H4 H5] E1 E2 Hm Ha. split; [split|split]; rewrite ?E1, ?E2; auto. lia.
Qed.

Lemma read_solutions_spec g s : mapfp s <> None -> loaded s -> series_count s < Z.of_nat (length (series_games s)) -> setup_ok g -> no_solutions g ->
  halts (fun _ => read_solutions g) s (fun _ s' => exists g' a, s' = with_answerfp a (with_series_games (<[Z.to_nat (series_count s) := g']> (series_games s)) s) /\
    same_puzzle g g' /\ (a = None -> answerfp s = None /\ puzzle_ok g')).
Proof.
  intros Hm Hs Hc Hg Hn. unfold read_solutions. apply halts_get. destruct (answerfp s) as [f|] eqn:Ea.
  - eapply halts_call; [apply (halts_from_answers _ s f); [done|]; apply readanswers_halts; by apply null_growable, Hn|].
    cbv beta. intros x ? (f' & Hx & ->). apply halts_modify. exists x.2, (Some f'). by destruct s.
  - apply halts_modify. exists (no_answers g), None. split; [by destruct s; cbn in Ea; subst|]. split; [by repeat eexists|]. intros _. split; [done|]. by apply unsolved_ok.
Qed.

(** Reading goes on in the file of puzzles, or its end was met. *)
Definition goes_on (f : stream) (s : series) : Prop :=
  allmapsread s = true \/ exists f', mapfp s = Some f' /\ (length (bytes f') < length (bytes f))%nat.

Lemma next_slot_run s g : 0 <= series_count s -> series_games s !! Z.to_nat (series_count s) = Some g -> forall fuel, next_slot fuel s = Ok g s.
Proof. intros H0 Hg fuel. unfold next_slot, get_state, mbind, prog_bind. destruct (Z.ltb_spec (series_count s) 0); [lia|]. by rewrite Hg. Qed.

Lemma read_puzzle_spec s f g : mapfp s = Some f -> no_solutions g ->
  halts (fun _ => from_maps g readlevelmap) s (fun x s' => exists f' ms, s' = with_errors ms (with_mapfp (Some f') s) /\ went f f' /\
    no_solutions x.2 /\ (x.1 = true -> setup_ok x.2)).
Proof.
  intros Hf Hg. eapply halts_mono; [apply (halts_from_maps g readlevelmap s f (fun r l => (r = true -> setup_ok (puzzle l)) /\ went f (file l) /\ old_solutions l = solutions g) Hf)|].
  - apply halts_also; [by apply readlevelmap_spec|].
    intros _ fuel r l E. exact (conj (readlevelmap_went _ _ _ _ E) (pres_readlevelmap _ _ _ _ E)).
  - cbv beta. intros [r g'] s' (l & (H1 & H2 & H3) & -> & ->). cbn [fst snd] in *. exists (file l), (errors s ++ messages l). split_and!; try done.
    unfold old_solutions, solutions in H3. cbn in H3. injection H3 as E1 E2. unfold no_solutions. rewrite E1, E2. exact Hg.
Qed.

(** The end of the loop's body. *)
Lemma ends_spec s f : loaded s -> mapfp s = Some f ->
  halts (fun _ => s0 ← get_state;
    (match mapfp s0 with Some f => if at_eof f then modify (fun s => with_allmapsread true (with_mapfp None s)) else mret tt | None => mret tt end);;
    s1 ← get_state;
    match answerfp s1 with Some f => if at_eof f then modify (with_allanswersread true) else mret tt | None => mret tt end) s
    (fun _ s' => loaded s' /\ more s s' /\ if at_eof f then allmapsread s' = true else mapfp s' = Some f).
Proof.
  intros Hs Hf. apply halts_get. rewrite Hf. set (s1 := if at_eof f then with_allmapsread true (with_mapfp None s) else s).
  assert (loaded s1 /\ more s s1) as [H1 M1] by (subst s1; destruct (at_eof f); [by apply loaded_same | done]).
  eapply halts_call with (P := fun _ s' => s' = s1); [subst s1; destruct (at_eof f); [by apply halts_modify | by apply halts_ret]|].
  cbv beta. intros _ ? ->. apply halts_get.
  assert (forall s', loaded s' /\ more s1 s' -> allmapsread s' = allmapsread s1 -> mapfp s' = mapfp s1 -> loaded s' /\ more s s' /\ if at_eof f then allmapsread s' = true else mapfp s' = Some f) as Hdone.
  { intros s' [H2 M2] E1 E2. split; [done|]. split; [by eapply more_trans|]. rewrite E1, E2. subst s1. by destruct (at_eof f). }
  destruct (answerfp s1) as [a|]; [destruct (at_eof a)|].
  - apply halts_modify, Hdone; [|done|done]. apply loaded_same; try done. apply H1.
  - by apply halts_ret, Hdone.
  - by apply halts_ret, Hdone.
Qed.

Lemma load_next_spec s f : loaded s -> mapfp s = Some f -> halts (fun _ => load_next) s (fun _ s' => loaded s' /\ more s s' /\ goes_on f s').
Proof.
  intros Hs Hf. unfold load_next. eapply halts_call; [apply halts_with_fuel, enlarge_spec, Hs|]. cbv beta. intros _ s1 [He Hc].
  assert (series_count s1 = series_count s /\ mapfp s1 = Some f) as [Ec1 Ef1] by (by destruct He as [k ->]).
  destruct (enlarged_loaded _ _ Hs He) as [H1 M1]. rewrite <- Ec1 in Hc.
  destruct (lookup_lt_is_Some_2 (series_games s1) (Z.to_nat (series_count s1))) as [g Hg]; [pose proof (ld_count _ H1); lia|].
  eapply halts_call with (P := fun g' s' => g' = g /\ s' = s1).
  { exists 0%nat, (Ok g s1). split; [|done]. intros. apply next_slot_run; [apply H1 | done]. }
  cbv beta. intros ? ? [-> ->]. pose proof (slot_null _ _ H1 Hg) as Hnull.
  eapply halts_call; [by apply (read_puzzle_spec s1 f g)|]. cbv beta. intros [r g1] s2 (f2 & ms & -> & W & Hn1 & Hr). cbn [fst snd] in *.
  set (s2 := with_errors ms (with_mapfp (Some f2) s1)).
  assert (loaded s2 /\ more s1 s2) as [H2 M2] by (by apply loaded_same).
  destruct (slot_loaded s2 g1 H2 Hc Hn1) as [H3 M3]. apply halts_set. set (s3 := with_series_games _ s2) in *.
  assert (series_count s3 < Z.of_nat (length (series_games s3))) as Hc3 by (subst s3; cbn; by rewrite length_insert).
  apply (halts_call _ _ _ (fun _ s' => loaded s' /\ more s3 s' /\ mapfp s' = Some f2)).
  - destruct r; [|by apply halts_ret]. apply halts_get. specialize (Hr eq_refl).
    apply (halts_call _ _ _ (fun _ s' => exists g' a b, s' = with_answerfp a (with_series_games (<[Z.to_nat (series_count s3) := g']> (series_games s3)) s3) /\ b = true /\
      setup_ok g' /\ (a = None -> answerfp s3 = None /\ puzzle_ok g'))).
    + destruct (negb (allanswersread s3)).
      * eapply halts_mono; [by apply read_solutions_spec|]. cbv beta. intros _ s' (g' & a & -> & Hsame & Ha). exists g', a, true. split_and!; try done. by eapply setup_same.
      * apply halts_ret. exists g1, (answerfp s3), true. split; [|split_and!; [done | done | intros Ea; split; [done | by apply unsolved_ok]]].
        subst s3. cbn. by rewrite list_insert_insert_eq.
    + cbv beta. intros _ ? (g' & a & b & -> & _ & Hg' & Ha). apply halts_modify.
      assert (loaded (with_answerfp a s3)) as H4.
      { apply (loaded_same s3 (with_answerfp a s3) H3); try done. intros E. by apply Ha. }
      destruct (added_loaded (with_answerfp a s3) g' H4 Hc3 ltac:(done) Hg' (fun E => proj2 (Ha E))) as [H5 M5]. split; [exact H5|]. split; [split; apply M5 | done].
  - cbv beta. intros _ s4 (H4 & M4 & Ef4). eapply halts_mono; [by apply ends_spec|]. cbv beta. intros _ s5 (H5 & M5 & E5). split; [done|].
    split; [eapply more_trans; [exact M1|]; eapply more_trans; [exact M2|]; eapply more_trans; [exact M3|]; by eapply more_trans|].
    unfold goes_on. destruct W as [W|W]; [rewrite W in E5; by left|]. destruct (at_eof f2); [by left|]. right. by exists f2.
Qed.

Lemma load_loop_spec level n : forall s, loaded s -> (allmapsread s = false -> exists f, mapfp s = Some f /\ length (bytes f) = n) ->
  halts (fun k => load_loop k level) s (fun _ s' => loaded s' /\ more s s' /\ (allmapsread s' = true \/ level < series_count s')).
Proof.
  induction n as [n IH] using lt_wf_ind. intros s Hs Hf. eapply halts_unfold; [intros k; reflexivity|]. cbn [load_loop]. apply halts_get.
  destruct (allmapsread s) eqn:Em; cbn [negb andb]; [apply halts_ret; split_and!; [done | reflexivity | by left]|].
  destruct (Z.leb_spec (series_count s) level) as [Hle|Hlt]; [|apply halts_ret; split_and!; [done | reflexivity | right; lia]].
  destruct (Hf eq_refl) as (f & Ef & Hn). eapply halts_call; [by apply (load_next_spec s f)|]. cbv beta. intros _ s1 (H1 & M1 & G).
  assert (exists n', (allmapsread s1 = true \/ n' < n)%nat /\ (allmapsread s1 = false -> exists f, mapfp s1 = Some f /\ length (bytes f) = n')) as (n' & Hn' & Hf').
  { destruct G as [G|(f' & G1 & G2)]; [exists 0%nat; rewrite G; by split; [left|]|]. exists (length (bytes f')). split; [right; lia|]. intros _. by exists f'. }
  destruct Hn' as [Hall|Hlt].
  - eapply halts_unfold; [intros k; reflexivity|]. cbn [load_loop]. apply halts_get. rewrite Hall. cbn [negb andb]. apply halts_ret. split_and!; [done | done | by left].
  - eapply halts_mono; [apply (IH n' Hlt s1 H1 Hf')|]. cbv beta. intros _ s2 (H2 & M2 & E2). split_and!; [done | by eapply more_trans | done].
Qed.

(** *** Opening the files *)

Lemma header_name_halts n l : halts (fun _ => header_name n) l (fun _ _ => True).
Proof.
  unfold header_name. apply halts_get. cbv zeta. destruct (_ && _); [by apply halts_fail|]. destruct (trimmed _); [by apply halts_ret | by apply halts_fail].
Qed.

Lemma header_lines_halts n : forall l, length (bytes (file l)) = n -> length (buf l) = 256%nat -> halts header_lines l (fun _ _ => True).
Proof.
  induction n as [n IH] using lt_wf_ind. intros l Hn Hb. eapply halts_unfold; [intros k; reflexivity|]. cbn [header_lines].
  destruct (next_char_run l) as (c & f & E & Hc). eapply halts_call with (P := fun c' l' => c' = c /\ l' = with_file f l).
  { exists 0%nat, (Ok c (with_file f l)). by split; [intros; apply E|]. }
  cbv beta. intros ? ? [-> ->]. destruct (Z.eqb_spec c 59) as [->|Hne].
  - specialize (Hc ltac:(done)). eapply halts_call; [apply wp_halts, (read_line_spec 0 256 (with_file f l)); [done | lia | lia]|]. cbv beta. intros k l2 (_ & B2 & L2 & _). cbn in L2.
    destruct (byte_run l2 0 B2 ltac:(lia)) as [b Eb]. eapply halts_call with (P := fun c' l' => c' = b /\ l' = l2).
    { exists 0%nat, (Ok b l2). by split; [intros; apply Eb|]. }
    cbv beta. intros ? ? [-> ->]. destruct (b =? 59); [|apply (IH (length (bytes (file l2)))); [unfold later in L2; lia | done | done]].
    eapply halts_call; [by apply halts_with_fuel, (blanks_spec _ 1 l2 eq_refl)|]. cbv beta. intros x l3 [-> _].
    eapply halts_call; [apply header_name_halts|]. cbv beta. intros. by apply halts_ret.
  - destruct (Z.eqb_spec c newline) as [->|Hnl]; cbn [negb]; [|by apply halts_ret]. specialize (Hc ltac:(done)). apply (IH (length (bytes f))); [lia | done | done].
Qed.

Definition same_answers (s s' : series) : Prop := answerfp s' = answerfp s /\ series_count s' = series_count s.

Lemma header_spec s f : loaded s -> series_count s = 0 -> mapfp s = Some f ->
  halts (fun _ => readseriesheader) s (fun r s' => loaded s' /\ more s s' /\ same_answers s s' /\ if r then exists f', mapfp s' = Some f' else allmapsread s' = true).
Proof.
  intros Hs Hc Hf. unfold readseriesheader.
  eapply halts_call; [apply (halts_from_maps zero_setup _ s f (fun _ _ => True) Hf); by eapply halts_with_fuel, header_lines_halts|].
  cbv beta. intros [x g] s1 (l & _ & _ & ->). cbn [fst]. set (s1 := with_errors _ _).
  assert (loaded s1 /\ more s s1) as [H1 M1] by (by apply loaded_same).
  destruct x as [name|ch].
  - apply halts_set, halts_ret. destruct (loaded_same s1 (with_series_name name s1) H1) as [H2 M2]; try done.
    split_and!; [done | by eapply more_trans | done | by exists (file l)].
  - destruct (ch =? EOF).
    + apply halts_set, halts_ret. destruct (loaded_same s1 (with_allmapsread true (with_mapfp None s1)) H1) as [H2 M2]; try done;
        (split_and!; [done | by eapply more_trans | done | done]).
    + eapply halts_call; [apply (halts_from_maps zero_setup (unget ch) s1 (file l) (fun _ _ => True)); [done | by apply halts_modify]|].
      cbv beta. intros x s2 (l2 & _ & _ & ->). apply halts_ret. set (s2 := with_errors _ _). destruct (loaded_same s1 s2 H1) as [H2 M2]; try done.
      split_and!; [done | by eapply more_trans | done | by exists (file l2)].
Qed.

Lemma loaded_answers s a : loaded s -> series_count s = 0 -> loaded (with_answerfp a s) /\ more s (with_answerfp a s).
Proof. intros [H1 H2 H3 H4 H5] Hc. split; [split; cbn; try done; rewrite Hc; constructor | by split]. Qed.

Lemma complain_halts msg s (Q : bool -> series -> Prop) : Q false (with_errors (errors s ++ [msg]) s) -> halts (fun _ => complain msg) s Q.
Proof. intros H. unfold complain. apply halts_set. by apply halts_ret. Qed.

Lemma open_spec s : loaded s -> allmapsread s = false ->
  halts (fun _ => open_series) s (fun r s' => loaded s' /\ more s s' /\ if r then allmapsread s' = false -> mapfp s' <> None
    else (allmapsread s' = true \/ map_file = None) /\ series_count s' = series_count s).
Proof.
  intros Hs Hm. unfold open_series. apply halts_get. destruct (mapfp s) as [f|] eqn:Ef; [apply halts_ret; split_and!; [done | reflexivity | by rewrite Ef]|].
  assert (series_count s = 0) as Hc by (by apply Hs). destruct map_file as [f|].
  2:{ apply complain_halts. destruct (loaded_same s (with_errors (errors s ++ ["cannot be opened"%string]) s) Hs) as [H1 M1]; try done. split_and!; [done | done | by right | done]. }
  apply halts_set. set (s1 := with_mapfp _ s). assert (loaded s1 /\ more s s1) as [H1 M1] by (by apply loaded_same).
  eapply halts_call; [by apply (header_spec s1 (Stream f false))|]. cbv beta. intros [] s2 (H2 & M2 & [A2 C2] & F2); cbn [negb].
  - destruct F2 as [f' F2]. assert (series_count s2 = 0) as Hc2 by (by rewrite C2).
    apply (halts_call _ _ _ (fun _ s' => loaded s' /\ more s2 s' /\ mapfp s' <> None)).
    + assert (forall a, loaded (with_answerfp a s2) /\ more s2 (with_answerfp a s2) /\ mapfp (with_answerfp a s2) <> None) as Hdone.
      { intros a. destruct (loaded_answers s2 a H2 Hc2). split_and!; try done. cbn. by rewrite F2. }
      destruct savedir; [destruct answer_file as [a|]|]; apply halts_modify; [|by apply Hdone..].
      destruct (Hdone (Some (Stream a false))) as (H3 & M3 & F3). destruct (loaded_same _ (with_answersreadonly true (with_answerfp (Some (Stream a false)) s2)) H3) as [H4 M4]; try done;
        (split_and!; [done | by eapply more_trans | done]).
    + cbv beta. intros _ s3 (H3 & M3 & F3). apply halts_ret. split_and!; [done | eapply more_trans; [exact M1|]; by eapply more_trans | done].
  - apply complain_halts. destruct (loaded_same s2 (with_errors (errors s2 ++ ["file contains no maps"%string]) s2) H2) as [H3 M3]; [done | done | cbn; intros _ E; by rewrite F2 in E | done|].
    split_and!; [done | eapply more_trans; [exact M1|]; by eapply more_trans | by left | done].
Qed.

Lemma readlevelinseries_spec s level : loaded s -> halts (fun _ => readlevelinseries level) s (fun r s' => loaded s' /\ more s s' /\
  (r = true <-> 0 <= level < series_count s') /\ (r = false -> level < 0 \/ allmapsread s' = true \/ map_file = None)).
Proof.
  intros Hs. unfold readlevelinseries. destruct (Z.ltb_spec level 0) as [Hneg|H0]; [apply halts_ret; split_and!; [done | reflexivity | lia | by left]|].
  apply halts_get. destruct (Z.ltb_spec level (series_count s)) as [Hlt|Hge]; [apply halts_ret; split_and!; [done | reflexivity | lia | done]|].
  apply (halts_call _ _ _ (fun (r : bool) s' => loaded s' /\ more s s' /\
    if r then allmapsread s' = true \/ level < series_count s' else series_count s' <= level /\ (allmapsread s' = true \/ map_file = None))).
  - destruct (allmapsread s) eqn:Em; cbn [negb]; [apply halts_ret; split_and!; [done | reflexivity | by left]|].
    eapply halts_call; [by apply open_spec|]. cbv beta. intros [] s1 (H1 & M1 & F1).
    + eapply halts_call; [apply halts_with_fuel; eapply (load_loop_spec level (match mapfp s1 with Some f => length (bytes f) | None => 0%nat end) s1 H1)|].
      { intros E. specialize (F1 E). destruct (mapfp s1) as [f|]; [by exists f | done]. }
      cbv beta. intros _ s2 (H2 & M2 & E2). apply halts_ret. split_and!; [done | by eapply more_trans | done].
    + destruct F1 as [F1 C1]. apply halts_ret. split_and!; [done | done | lia | done].
  - cbv beta. intros [] s1 (H1 & M1 & F1).
    + apply halts_get, halts_ret. split_and!; [done | done | rewrite Z.ltb_lt; lia|]. intros E%Z.ltb_ge. right; left. destruct F1; [done | lia].
    + destruct F1 as [C1 F1]. apply halts_ret. split_and!; [done | done | | by right]. split; [done | lia].
Qed.

(** When everything has been read, the files are left alone. *)
Lemma all_read level s fuel : allmapsread s = true -> readlevelinseries level fuel s = Ok ((0 <=? level) && (level <? series_count s)) s.
Proof using Type.
  clear Hblock. intros Hm. unfold readlevelinseries. destruct (Z.ltb_spec level 0), (Z.leb_spec 0 level); try lia; [done|]. unfold mbind, prog_bind, get_state.
  destruct (level <? series_count s) eqn:E; [done|]. rewrite Hm. cbn. by rewrite E.
Qed.

(** What is read by any calls of readlevelinseries. *)
Inductive read_so_far : series -> Prop :=
  | read_start : read_so_far getseriesfile
  | read_next s level r s' : read_so_far s -> (exists N, forall fuel, (N <= fuel)%nat -> readlevelinseries level fuel s = Ok r s') -> read_so_far s'.

Lemma read_loaded s : read_so_far s -> loaded s.
Proof.
  induction 1 as [|s level r s' _ IH [N HN]]; [apply start_loaded|]. destruct (readlevelinseries_spec s level IH) as (N' & o & H & Ho).
  specialize (HN (N `max` N')%nat ltac:(lia)). rewrite (H N' (N `max` N')%nat) in HN by lia. subst o. apply Ho.
Qed.

(** The game asks [read_already] instead. *)
Lemma read_already_right i level s fuel : allmapsread s = true -> series_count s = count_of i -> readlevelinseries level fuel s = Ok (read_already i level) s.
Proof. clear Hblock. intros Hm Hc. rewrite all_read by done. by rewrite Hc. Qed.
End files.
