(* ===== verification/SokClaims.v ===== *)
(** * Csokoban: properties

    The properties of the game and its files, a small puzzle on which each is applied, and runs in which the code fails. *)

From Stdlib Require Import ZArith Lia String Ascii.
From stdpp Require Import base numbers list gmap sets fin_sets strings.
From S2P Require Import Prelude SokGame SokRule SokShow SokPlay SokAnswers SokText SokTurn SokWorld SokSession SokLevel SokFill SokImprove SokSeries SokLoad.

Open Scope Z_scope.

Section claims.
Context {MEM : memory} {TERM : terminal} {DISK : disk}.

(** C14 One step follows the rules of the game: newmove returns TRUE just when the rules allow the step from the position
    that the map shows, the map then shows the position after it, and the lists of moves lead there; whether the step was made as a new move, as an undo or as
    a redo makes no difference.  A step that is not allowed changes nothing. *)
Theorem step_by_the_rules g w s d : setup_ok g -> played g (state w) s -> recorder_ok w -> d ∈ dirs ->
  wp (fun _ => newmove d) w (fun r w' => r = legal (wall g) s d /\ if r then played g (state w') (moved s d) else w' = w).
Proof.
  intros Hg Hpl Hrec Hd. eapply wp_mono; [by apply (newmove_spec g Hg w s d)|]. cbv beta. intros r w' (H1 & _ & H2). by split.
Qed.

(** C15 In a session, whatever is pressed, what is shown is a position of the puzzle that its undo list leads to from the start by the rules;
    moves, pushes and stored boxes are counted right, no box is lost, and the test for the end is right. *)
Theorem session_sound w : session w -> exists g s, games w !! game (state w) = Some g /\
  plays (wall g) (start_pos g) (used (undo (state w))) s /\ shows_map g (map_ (state w)) s /\ player (state w) = who s /\
  movecount (state w) = Z.of_nat (length (used (undo (state w)))) /\ pushcount (state w) = pushes_in (used (undo (state w))) /\
  boxcount g = Z.of_nat (size (boxes s)) /\
  wp (fun _ => checkfinished) w (fun r w' => w' = w /\ (r = true <-> solved g s)).
Proof.
  intros Hw%session_world_ok. destruct (wo_state _ Hw) as (g & s & Hg & Hpl). pose proof (Forall_lookup_1 _ _ _ _ (wo_games _ Hw) Hg) as Hpu.
  pose proof (pl_at _ _ _ Hpl) as Hat. exists g, s. split_and!; try apply Hpl; try apply Hat; [done | |].
  - rewrite (su_boxes _ (pu_setup _ Hpu)). by rewrite <- (plays_size _ _ _ _ (pl_from _ _ _ Hpl)).
  - unfold checkfinished. eapply wp_then; [intros; reflexivity|]. eapply wp_then with (a := g); [intros fuel; unfold get_setup, mbind, prog_bind, get_state; by rewrite Hg|].
    apply wp_ret. split; [done|]. by apply finished_spec; [apply Hpu|].
Qed.

(** C17 A solution that is remembered can be replayed: when it is the best in moves, or in pushes, restarting the puzzle with the solution in moves, or in
    pushes, and redoing as many moves as were made leads to the same position, with the same moves; its counts are kept. *)
Theorem solution_replays by_moves w g s : world_ok w -> games w !! game (state w) = Some g -> played g (state w) s ->
  count (undo (state w)) <> 0 -> (if by_moves : bool then beats_moves (state w) g else beats_pushes (state w) g) = true ->
  wp (fun _ => replaceanswers false;; initgamestate by_moves;; redomoves (length (used (undo (state w))))) w (fun r w' => r = true /\ exists g',
    games w' !! game (state w') = Some g' /\ same_puzzle g g' /\ played g' (state w') s /\ used (undo (state w')) = used (undo (state w)) /\
    if by_moves then movebestcount g' = movecount (state w) /\ movebestpushcount g' = pushcount (state w)
    else pushbestcount g' = pushcount (state w) /\ pushbestmovecount g' = movecount (state w)).
Proof.
  intros Hw Hg Hpl Hc Hm. pose proof (Forall_lookup_1 _ _ _ _ (wo_games _ Hw) Hg) as Hpu.
  eapply wp_call; [by eapply replaceanswers_spec|]. cbv beta. intros r w1 (g' & Hr & ->).
  pose proof (replaced_same _ _ _ _ _ Hr) as Hs. pose proof (replaced_puzzle _ _ _ _ _ _ Hpu Hpl Hr) as Hpu'.
  pose proof (played_same _ _ _ _ Hs Hpl) as Hpl'. destruct (replaced_chosen _ _ _ _ _ Hr Hc Hpl Hm) as [Ech Ecounts].
  set (w1 := with_games _ w).
  assert (games w1 !! game (state w1) = Some g') as Hg' by (apply list_lookup_insert_eq; by eapply lookup_lt_Some).
  eapply wp_call; [apply (init_spec w1 g' by_moves Hg' Hpu'); left; apply Hpl|]. cbv beta. intros _ w2 (st & Hst & U1 & U2 & Egm & _ & ->). rewrite Ech in U2.
  set (w2 := World _ _ _ _ _ _ _ _ _ _ _ _).
  assert (plays (wall g') (start_pos g') (rev (used (redo (state w2)))) s) as Hto by (cbn; rewrite U2, rev_involutive; apply Hpl').
  unfold redomoves. eapply wp_then; [intros; reflexivity|]. cbn [state w2].
  destruct (Z.eqb_spec (count (redo st)) 0) as [E|_].
  { apply (used_nil _ (pl_redo _ _ _ Hst)) in E. rewrite U2 in E. by destruct (reversed_not_nil _ (pl_undo _ _ _ Hpl) Hc). }
  eapply wp_call; [apply (redo_all_spec g' _ (pu_setup _ Hpu') w2 (start_pos g') s Hst); [done | cbn; by rewrite U2, length_rev | exact Hto]|].
  cbv beta. intros _ w3 (Hk & Hpl3 & U3 & _). apply wp_ret. split; [done|]. exists g'. split_and!; try done.
  - rewrite (ke_games _ _ Hk), (ke_game _ _ Hk). cbn. by rewrite Egm.
  - rewrite U3. cbn. by rewrite U1, U2, rev_involutive.
Qed.

(** C18 The file of solutions that saveanswers writes is read back by readanswers, puzzle by puzzle ([read_back]): no solution; the moves of an incomplete
    one, without its counts; or the solution in moves with its counts, and that in pushes if both counts differ (with the number of its moves), else the
    one in moves again.  Of a puzzle whose solutions are complete, and the same if they do not differ in both counts, everything is read as it was. *)
Theorem solutions_read_back {S} (w : S) gs g0s : Forall saveable gs -> Forall fresh g0s -> length g0s = length gs -> Z.of_nat (length gs) < 2147483648 ->
  exists text, (forall fuel, saveanswers_loop 0 gs fuel w = Ok text w) /\
    wp (fun _ => read_all g0s) (Stream text false) (fun xs _ => Forall2 (fun g x => read_back g x.1 x.2 /\
      (settled g -> x.1 = true /\ has_moves x.2 (movebestcount g) (movebestpushcount g) (used (moveanswer g)) /\
                    has_pushes x.2 (pushbestmovecount g) (pushbestcount g) (used (pushanswer g)))) gs xs).
Proof.
  intros Hgs Hf Hlen Hb. exists (file_text 0 gs). split; [by apply saveanswers_yields|].
  eapply wp_mono; [apply (read_all_spec gs g0s Hgs Hf Hlen 0 _ false); [done | lia | by left]|]. cbv beta. intros xs _ H.
  eapply Forall2_impl; [exact H|]. cbv beta. intros g x Hx. split; [exact Hx|]. intros Hg. by apply settled_back.
Qed.

(** Reading a puzzle from any file ends, and a puzzle that is accepted is one that can be played: WALL all around, one
    player and boxes inside and apart, and right counts of boxes, goals and stored boxes. *)
Lemma accepted_is_room l : length (buf l) = 256%nat -> halts (fun _ => readlevelmap) l (fun r l' => r = true -> setup_ok (puzzle l')).
Proof. apply readlevelmap_spec. Qed.

(** C16 Reading puzzles and solutions ends with any files, if only in a bad access: readlevelinseries returns TRUE just when the puzzle is there, and FALSE
    when the files have no more.  The puzzles read before stay; each is a room, with WALL all around, one player and boxes inside and apart, and right
    counts; without a file of solutions each is ready for a session. *)
Theorem puzzles_read s level : length stack_block = 256%nat -> read_so_far s -> halts (fun _ => readlevelinseries level) s (fun r s' =>
  (r = true <-> 0 <= level < series_count s') /\ (r = false -> level < 0 \/ allmapsread s' = true \/ map_file = None) /\
  take (Z.to_nat (series_count s)) (series_games s') = take (Z.to_nat (series_count s)) (series_games s) /\
  Forall setup_ok (take (Z.to_nat (series_count s')) (series_games s')) /\
  (answerfp s' = None -> Forall puzzle_ok (take (Z.to_nat (series_count s')) (series_games s')))).
Proof.
  intros Hb Hs. pose proof (read_loaded Hb s Hs) as Hl0. eapply halts_mono; [by apply readlevelinseries_spec|]. cbv beta. intros r s' (Hl & Hm & H1 & H2).
  exact (conj H1 (conj H2 (conj (mo_games _ _ Hm) (conj (ld_rooms _ Hl) (ld_plain _ Hl))))).
Qed.

(** pullflooring takes FLOOR from exactly those cells that FLOOR cells connect with the corner; nothing else changes.
    (The cell at the start of the last row must have none: the code would look behind the map.) *)
Lemma fill_exact l : length (map_of l) = 1024%nat -> has (at_ (map_of l) 0) WALL = false -> 992 ∉ floors (map_of l) ->
  wp (fun _ => with_fuel (fun k => pullflooring k 0)) l (fun _ l' => exists m, l' = with_cells m l /\ length m = 1024%nat /\
    forall i, 0 <= i < 1024 -> (connected (floors (map_of l)) 0 i -> at_ m i = Z.ldiff (at_ (map_of l) i) FLOOR) /\
      (~ connected (floors (map_of l)) 0 i -> at_ m i = at_ (map_of l) i)).
Proof.
  intros Hl Hw Hno. apply wp_with_fuel. eapply wp_mono.
  - apply (safe_wp False); [tauto|]. by apply (pullflooring_spec False _ _ l 0 eq_refl Hl ltac:(lia) Hw).
  - cbv beta. intros _ l' (R & -> & HR). exists (cleared R (map_of l)). split; [done|]. split; [by rewrite cleared_length|].
    intros i Hi. rewrite cleared_at by lia. split; intros H; rewrite <- (filled_exact _ _ _ HR) in H; [by rewrite bool_decide_true | by rewrite bool_decide_false].
Qed.
End claims.

(** ** A small puzzle *)

#[local] Instance demo_memory : memory := fun _ => Dyx 0 false.
#[local] Instance demo_terminal : terminal := Terminal true [1; 0] true [] 0.

Definition codes (s : string) : list Z := map (fun c => Z.of_N (N_of_ascii c)) (String.list_ascii_of_string s).
Definition lines (l : list string) : list Z := concat (map (fun s => codes s ++ [newline]) l).

Definition no_setup : gamesetup := Gamesetup 0 0 0 0 0 0 0 0 0 0 no_list no_list [] (replicate 1024 0).
Definition loading (f : list Z) : loader := Loader (Stream f false) (replicate 256 0) no_setup [].
Definition load (f : list Z) : option (bool * gamesetup * list string) :=
  match readlevelmap 5000%nat (loading f) with Ok r l => Some (r, puzzle l, messages l) | Fault _ => None end.

Definition demo_lines : list string := ["#####"; "#@$.#"; "#####"].
Definition demo_puzzle : gamesetup := Eval vm_compute in match load (lines demo_lines) with Some (_, g, _) => g | None => no_setup end.

Lemma demo_boxes : boxes (start_pos demo_puzzle) = {[67]}.
Proof.
  unfold start_pos. cbn [boxes]. assert (filter (fun i => Z.testbit (base demo_puzzle i) 2 = true) room_cells = [67]) as -> by (vm_compute; reflexivity).
  apply set_eq. intros i. cbn. set_solver.
Qed.

Lemma demo_setup : setup_ok demo_puzzle.
Proof.
  assert (Forall (fun i => edge 7 5 i -> wall demo_puzzle i = true) room_cells) as He by (refine (bool_decide_unpack _ _); vm_compute; exact I).
  rewrite Forall_forall in He.
  split; try (vm_compute; reflexivity).
  - split; [vm_compute; discriminate|]. split; [vm_compute; discriminate|]. intros i H1 H2 H3. change (xsize demo_puzzle) with 7 in *. change (ysize demo_puzzle) with 5 in *.
    apply He; [|exact (conj H1 (conj H2 H3))]. unfold room_cells. rewrite elem_of_seqZ. Z.to_euclidean_division_equations. lia.
  - split; rewrite ?demo_boxes; change (who (start_pos demo_puzzle)) with 66; change (xsize demo_puzzle) with 7; change (ysize demo_puzzle) with 5.
    + split; [split; vm_compute; split; discriminate | vm_compute; reflexivity].
    + set_solver.
    + intros i ->%elem_of_singleton. split; [split; vm_compute; split; discriminate | vm_compute; reflexivity].
  - assert (Forall (fun i => Z.testbit (base demo_puzzle i) 1 = bool_decide (i = start demo_puzzle)) room_cells) as Hp by (refine (bool_decide_unpack _ _); vm_compute; exact I).
    rewrite Forall_forall in Hp. intros i Hi. apply Hp. unfold room_cells. rewrite elem_of_seqZ. lia.
Qed.

Lemma no_answer g : answer_ok g no_list.
Proof. split; [by right | eexists; constructor]. Qed.

Definition demo_start (k : list Z) : world :=
  World [demo_puzzle; demo_puzzle] [] (replicate 1024 no_list) 0 false (-1) (Gamestate 0 0 0 0 0 0 no_list no_list (replicate 1024 0)) k [] 0 0 true.

(** The puzzle is chosen, and one step made by the key. *)
Definition demo_world (k : list Z) : world := match new_puzzle 0 0 true 1%nat (demo_start k) with Ok _ w => w | Fault _ => demo_start k end.
Definition demo_turn (k : list Z) : world := match doturn 1%nat (demo_world k) with Ok _ w => w | Fault _ => demo_start k end.

Lemma demo_puzzle_ok : puzzle_ok demo_puzzle.
Proof. split; [apply demo_setup | apply no_answer | apply no_answer]. Qed.

Lemma demo_session k : session (demo_world k).
Proof.
  apply (session_start (demo_start k) 0 0 true); [|cbn; lia|].
  - split; try done; [constructor; [apply demo_puzzle_ok | constructor; [apply demo_puzzle_ok | constructor]] | | by right].
    split; [done|]. apply Forall_replicate. split; [by right | by intros m ?%elem_of_nil].
  - exists 1%nat. intros [|fuel] Hf; [lia|]. vm_compute. reflexivity.
Qed.

Lemma demo_played k : played demo_puzzle (state (demo_world k)) (start_pos demo_puzzle).
Proof.
  split; try (vm_compute; reflexivity).
  - split; [vm_compute; reflexivity | exact (setup_shows _ demo_setup) | vm_compute; reflexivity | apply demo_setup].
  - split; vm_compute; try split; try reflexivity; discriminate.
  - split; vm_compute; try split; try reflexivity; discriminate.
  - replace (used (undo (state (demo_world k)))) with (@nil dyx) by (vm_compute; reflexivity). constructor.
  - exists (start_pos demo_puzzle). replace (used (redo (state (demo_world k)))) with (@nil dyx) by (vm_compute; reflexivity). constructor.
Qed.

Lemma demo_pushed : session (demo_turn [108]).
Proof.
  eapply (session_next (demo_world [108])); [apply demo_session|]. apply (next_turn _ 0). exists 1%nat. intros [|fuel] Hf; [lia|]. vm_compute. reflexivity.
Qed.

(** The step to the right pushes the box onto the goal. *)
Lemma step_by_the_rules_witness : exists w, wp (fun _ => newmove 1) (demo_world []) (fun r w' => r = legal (wall demo_puzzle) (start_pos demo_puzzle) 1 /\
  if r then played demo_puzzle (state w') (moved (start_pos demo_puzzle) 1) else w' = w).
Proof.
  exists (demo_world []). apply (step_by_the_rules demo_puzzle); [apply demo_setup | apply demo_played | by vm_compute | unfold dirs; by left].
Defined.

Lemma session_sound_witness : exists g s, games (demo_turn [108]) !! 0%nat = Some g /\ plays (wall g) (start_pos g) (used (undo (state (demo_turn [108])))) s /\
  wp (fun _ => checkfinished) (demo_turn [108]) (fun r w' => w' = demo_turn [108] /\ (r = true <-> solved g s)).
Proof.
  destruct (session_sound (demo_turn [108]) demo_pushed) as (g & s & H1 & H2 & _ & _ & _ & _ & _ & H3). exists g, s. exact (conj H1 (conj H2 H3)).
Defined.

Lemma solution_replays_witness : exists g s, wp (fun _ => replaceanswers false;; initgamestate false;; redomoves 1) (demo_turn [108]) (fun r w' => r = true /\ exists g',
    games w' !! game (state w') = Some g' /\ same_puzzle g g' /\ played g' (state w') s /\
    used (undo (state w')) = [Dyx 1 true] /\ pushbestcount g' = 1 /\ pushbestmovecount g' = 1).
Proof.
  pose proof (session_world_ok _ demo_pushed) as Hw. destruct (wo_state _ Hw) as (g & s & Hg & Hpl). exists g, s.
  assert (g = demo_puzzle) as Eg by (assert (Some demo_puzzle = Some g) as E by (rewrite <- Hg; vm_compute; reflexivity); by injection E).
  apply (solution_replays false (demo_turn [108]) g s Hw Hg Hpl); [vm_compute; discriminate | subst g; vm_compute; reflexivity].
Defined.

(** A solved puzzle and one without a solution. *)
Definition demo_solution : dyxlist := Dyxlist 16 1 (Dyx 1 true :: replicate 15 (Dyx 0 false)).
Definition demo_solved : gamesetup := with_answers 1 1 1 1 demo_solution demo_solution demo_puzzle.

Lemma demo_saveable : Forall saveable [demo_solved; demo_puzzle].
Proof.
  constructor; [|constructor; [by apply no_solution | constructor]].
  apply one_solution; try (vm_compute; reflexivity); try (vm_compute; discriminate); try (split; vm_compute; [discriminate | reflexivity]).
  - split; vm_compute; try split; try reflexivity; discriminate.
  - constructor; [|constructor]. unfold step, dirs. by left.
Qed.

Lemma solutions_read_back_witness : settled demo_solved /\ exists text, (forall fuel, saveanswers_loop 0 [demo_solved; demo_puzzle] fuel tt = Ok text tt) /\
  wp (fun _ => read_all [demo_puzzle; demo_puzzle]) (Stream text false) (fun xs _ => Forall2 (fun g x => read_back g x.1 x.2) [demo_solved; demo_puzzle] xs).
Proof.
  split; [by split_and!|]. destruct (solutions_read_back tt [demo_solved; demo_puzzle] [demo_puzzle; demo_puzzle] demo_saveable) as (text & H1 & H2);
    [repeat constructor; by right | done | cbn; lia|].
  exists text. split; [exact H1|]. eapply wp_mono; [exact H2|]. cbv beta. intros xs _ H. eapply Forall2_impl; [exact H|]. cbv beta. by intros g x [Hx _].
Defined.

Lemma accepted_is_room_witness : halts (fun _ => readlevelmap) (loading (lines demo_lines)) (fun r l' => r = true -> setup_ok (puzzle l')).
Proof. apply accepted_is_room. vm_compute. reflexivity. Defined.

(** The puzzle twice, with a solution of the first. *)
#[local] Instance demo_disk : disk :=
  Disk (Some (lines (";; Demo" :: ";" :: demo_lines ++ "; second" :: demo_lines))) (Some (lines [";Level 1"; "1 moves, 1 pushes"; "L"; ";Level 2"; "---"])) (replicate 256 0) false.

Lemma puzzles_read_witness : halts (fun _ => readlevelinseries 1) getseriesfile (fun r s' => (r = true <-> 0 <= 1 < series_count s') /\
  Forall setup_ok (take (Z.to_nat (series_count s')) (series_games s'))).
Proof.
  eapply halts_mono; [apply (puzzles_read getseriesfile 1); [vm_compute; reflexivity | apply read_start]|]. cbv beta. intros r s' (H1 & _ & _ & H4 & _). exact (conj H1 H4).
Defined.

Example puzzles_read_example : match readlevelinseries 1 5000%nat getseriesfile with
  | Ok r s => r = true /\ series_count s = 2 /\ map movebestcount (take 2 (series_games s)) = [1; 0] /\ errors s = [] /\ series_name s = codes "Demo"
  | Fault _ => False end.
Proof. vm_compute. done. Qed.

(** A map that is all floor but for the last row. *)
Definition demo_floor : loader := with_cells (replicate 992 FLOOR ++ replicate 32 EMPTY) (loading []).

Lemma fill_exact_witness : wp (fun _ => with_fuel (fun k => pullflooring k 0)) demo_floor (fun _ l' => exists m, l' = with_cells m demo_floor /\ length m = 1024%nat /\
    forall i, 0 <= i < 1024 -> (connected (floors (map_of demo_floor)) 0 i -> at_ m i = Z.ldiff (at_ (map_of demo_floor) i) FLOOR) /\
      (~ connected (floors (map_of demo_floor)) 0 i -> at_ m i = at_ (map_of demo_floor) i)).
Proof. apply fill_exact; [vm_compute; reflexivity | vm_compute; reflexivity |]. rewrite elem_of_floors. intros [_ H]. vm_compute in H. discriminate. Defined.

(** ** Where the code fails *)

(** A title line with nothing but blanks: memcpy is called with a negative length. *)
Example blank_title_fails : readlevelmap 5000%nat (loading (lines (";;" :: demo_lines))) = Fault Bad_pointer.
Proof. vm_compute. reflexivity. Qed.

(** So does the first line of a file: the byte before the name is read. *)
Example blank_header_fails : let d := Disk (Some (lines (";;" :: demo_lines))) None (replicate 256 0) false in
  readlevelinseries (DISK := d) 0 5000%nat (getseriesfile (DISK := d)) = Fault Bad_pointer.
Proof. vm_compute. reflexivity. Qed.

(** A puzzle of 30 lines: pullflooring reads the byte behind the map, since it compares with [<=]. *)
Example thirty_lines_fail : readlevelmap 5000%nat (loading (lines (demo_lines ++ replicate 27%nat "#"))) = Fault Bad_pointer.
Proof. vm_compute. reflexivity. Qed.

(** An unknown character is reported, and the puzzle is accepted with what was read before. *)
Example bad_line_accepted : match load (lines ["#####"; "#@$.#"; "#x###"]) with
  | Some (r, g, ms) => r = true /\ ms = ["unrecognized character in level"] /\ at_ (setup_map g) 99 = EMPTY
  | None => False end.
Proof. vm_compute. done. Qed.

(** A last line of one character without a newline: the rest of the line before is read again. *)
Example last_line_stale : match load (lines ["#####"; "#@$.#"] ++ codes "#") with
  | Some (r, _, ms) => r = false /\ ms = ["multiple players in map"]
  | None => False end.
Proof. vm_compute. done. Qed.

(** A line that fits exactly swallows the next one. *)
Example full_line_swallows : match getnline 256 500%nat (Stream (replicate 254%nat 65 ++ [newline] ++ codes "next" ++ [newline]) false) with
  | Ok (_, n) f => n = 255 /\ bytes f = []
  | Fault _ => False end.
Proof. vm_compute. done. Qed.

(** A negative number of moves, behind a blank: the first move is written in front of the list. *)
Example negative_count_fails : readanswers no_setup 500%nat (Stream (lines [" -1 moves, 0 pushes"; "h"]) false) = Fault Bad_pointer.
Proof. vm_compute. reflexivity. Qed.

(** The moves of a file are not looked at: redoing walks into a wall. *)
Example bad_solution_walks : match readanswers demo_puzzle 500%nat (Stream (lines ["1 moves, 0 pushes"; "h"]) false) with
  | Ok (_, g) _ =>
      match (initgamestate true;; redomove) 1%nat (with_games [g] (demo_start [])) with
      | Ok r w => r = true /\ player (state w) = 65 /\ wall g 65 = true
      | Fault _ => False end
  | Fault _ => False end.
Proof. vm_compute. done. Qed.

(** The last file has no puzzle: going on from the last puzzle fails, and leaves the wrong file behind. *)
Example readlevel_moves_on : match readlevel 10%nat (with_currentgame 1 (demo_start [])) with
  | Ok r w => r = false /\ currentseries w = 1
  | Fault _ => False end.
Proof. vm_compute. done. Qed.

(** An incomplete solution with few pushes stays as the best in pushes. *)
Definition moves_made (n p : Z) : gamestate :=
  Gamestate 0 0 66 0 n p (Dyxlist 16 n (replicate 16 (Dyx 1 false))) no_list (setup_map demo_puzzle).

Example incomplete_is_best : match (put_game (moves_made 2 1);; replaceanswers true;; put_game (moves_made 5 3);; replaceanswers false) 1%nat (demo_start []) with
  | Ok r w => match games w with
      | g :: _ => r = true /\ movebestcount g = 5 /\ pushbestcount g = 1 /\ count (pushanswer g) = 2
      | [] => False end
  | Fault _ => False end.
Proof. vm_compute. done. Qed.

(** A macro that is being played when the puzzle ends makes a step in the next one. *)
Example macro_goes_on :
  let w := with_macroplay 1 (with_macro 66 (with_macros (<[66%nat := Dyxlist 16 2 (replicate 16 (Dyx 1 false))]> (macros (demo_start []))) (demo_start []))) in
  match (new_puzzle 1 1 true;; doturn) 1%nat w with
  | Ok n w' => n = 0 /\ movecount (state w') = 1
  | Fault _ => False end.
Proof. vm_compute. done. Qed.

(** Starting again keeps the saved positions. *)
Example restart_keeps_saved : match (savestate;; initgamestate true) 1%nat (demo_world []) with
  | Ok _ w => length (stack w) = 1%nat
  | Fault _ => False end.
Proof. vm_compute. done. Qed.
