(* ===== verification/NineCall.v ===== *)
(** * 9P messages of lib9: the encoder and the decoder (fcall.h, convS2M.c, convM2S.c)

    The state of a program is the block that its pointer [ap] (or [buf]) points to; a pointer into the block is its offset. *)

From Stdlib Require Import ZArith Lia.
From stdpp Require Import base numbers list strings.
From S2P Require Import Prelude.

Open Scope Z_scope.

(** ** fcall.h *)

Definition MAXWELEM : Z := 16.
Definition BIT8SZ : Z := 1.
Definition BIT16SZ : Z := 2.
Definition BIT32SZ : Z := 4.
Definition BIT64SZ : Z := 8.
Definition QIDSZ : Z := BIT8SZ + BIT32SZ + BIT64SZ.

Definition Tversion : Z := 100.
Definition Rversion : Z := 101.
Definition Tauth : Z := 102.
Definition Rauth : Z := 103.
Definition Tattach : Z := 104.
Definition Rattach : Z := 105.
Definition Rerror : Z := 107.
Definition Tflush : Z := 108.
Definition Rflush : Z := 109.
Definition Twalk : Z := 110.
Definition Rwalk : Z := 111.
Definition Topen : Z := 112.
Definition Ropen : Z := 113.
Definition Tcreate : Z := 114.
Definition Rcreate : Z := 115.
Definition Tread : Z := 116.
Definition Rread : Z := 117.
Definition Twrite : Z := 118.
Definition Rwrite : Z := 119.
Definition Tclunk : Z := 120.
Definition Rclunk : Z := 121.
Definition Tremove : Z := 122.
Definition Rremove : Z := 123.
Definition Tstat : Z := 124.
Definition Rstat : Z := 125.
Definition Twstat : Z := 126.
Definition Rwstat : Z := 127.

Record Qid : Type := Mkqid { qtype : Z; vers : Z; path : Z }.

(** [Fcall]; a pointer is a [P], for the encoder what it points to (the bytes up to the end of their block), for the decoder an offset. *)
Section call.
Context {P : Type}.

Record Fcall : Type := Call {
  ftype : Z;
  fid : Z;
  tag : Z;
  msize : Z;
  version : option P;
  oldtag : Z;
  ename : option P;
  qid : Qid;
  iounit : Z;
  aqid : Qid;
  afid : Z;
  uname : option P;
  aname : option P;
  perm : Z;
  name : option P;
  mode : Z;
  newfid : Z;
  nwname : Z;
  wname : list (option P);
  nwqid : Z;
  wqid : list Qid;
  offset : Z;
  count : Z;
  data : option P;
  nstat : Z;
  stat : option P
}.

Definition with_ftype v (f : Fcall) : Fcall := Call v (fid f) (tag f) (msize f) (version f) (oldtag f) (ename f) (qid f) (iounit f) (aqid f) (afid f) (uname f) (aname f) (perm f) (name f) (mode f) (newfid f) (nwname f) (wname f) (nwqid f) (wqid f) (offset f) (count f) (data f) (nstat f) (stat f).
Definition with_fid v (f : Fcall) : Fcall := Call (ftype f) v (tag f) (msize f) (version f) (oldtag f) (ename f) (qid f) (iounit f) (aqid f) (afid f) (uname f) (aname f) (perm f) (name f) (mode f) (newfid f) (nwname f) (wname f) (nwqid f) (wqid f) (offset f) (count f) (data f) (nstat f) (stat f).
Definition with_tag v (f : Fcall) : Fcall := Call (ftype f) (fid f) v (msize f) (version f) (oldtag f) (ename f) (qid f) (iounit f) (aqid f) (afid f) (uname f) (aname f) (perm f) (name f) (mode f) (newfid f) (nwname f) (wname f) (nwqid f) (wqid f) (offset f) (count f) (data f) (nstat f) (stat f).
Definition with_msize v (f : Fcall) : Fcall := Call (ftype f) (fid f) (tag f) v (version f) (oldtag f) (ename f) (qid f) (iounit f) (aqid f) (afid f) (uname f) (aname f) (perm f) (name f) (mode f) (newfid f) (nwname f) (wname f) (nwqid f) (wqid f) (offset f) (count f) (data f) (nstat f) (stat f).
Definition with_version v (f : Fcall) : Fcall := Call (ftype f) (fid f) (tag f) (msize f) v (oldtag f) (ename f) (qid f) (iounit f) (aqid f) (afid f) (uname f) (aname f) (perm f) (name f) (mode f) (newfid f) (nwname f) (wname f) (nwqid f) (wqid f) (offset f) (count f) (data f) (nstat f) (stat f).
Definition with_oldtag v (f : Fcall) : Fcall := Call (ftype f) (fid f) (tag f) (msize f) (version f) v (ename f) (qid f) (iounit f) (aqid f) (afid f) (uname f) (aname f) (perm f) (name f) (mode f) (newfid f) (nwname f) (wname f) (nwqid f) (wqid f) (offset f) (count f) (data f) (nstat f) (stat f).
Definition with_ename v (f : Fcall) : Fcall := Call (ftype f) (fid f) (tag f) (msize f) (version f) (oldtag f) v (qid f) (iounit f) (aqid f) (afid f) (uname f) (aname f) (perm f) (name f) (mode f) (newfid f) (nwname f) (wname f) (nwqid f) (wqid f) (offset f) (count f) (data f) (nstat f) (stat f).
Definition with_qid v (f : Fcall) : Fcall := Call (ftype f) (fid f) (tag f) (msize f) (version f) (oldtag f) (ename f) v (iounit f) (aqid f) (afid f) (uname f) (aname f) (perm f) (name f) (mode f) (newfid f) (nwname f) (wname f) (nwqid f) (wqid f) (offset f) (count f) (data f) (nstat f) (stat f).
Definition with_iounit v (f : Fcall) : Fcall := Call (ftype f) (fid f) (tag f) (msize f) (version f) (oldtag f) (ename f) (qid f) v (aqid f) (afid f) (uname f) (aname f) (perm f) (name f) (mode f) (newfid f) (nwname f) (wname f) (nwqid f) (wqid f) (offset f) (count f) (data f) (nstat f) (stat f).
Definition with_aqid v (f : Fcall) : Fcall := Call (ftype f) (fid f) (tag f) (msize f) (version f) (oldtag f) (ename f) (qid f) (iounit f) v (afid f) (uname f) (aname f) (perm f) (name f) (mode f) (newfid f) (nwname f) (wname f) (nwqid f) (wqid f) (offset f) (count f) (data f) (nstat f) (stat f).
Definition with_afid v (f : Fcall) : Fcall := Call (ftype f) (fid f) (tag f) (msize f) (version f) (oldtag f) (ename f) (qid f) (iounit f) (aqid f) v (uname f) (aname f) (perm f) (name f) (mode f) (newfid f) (nwname f) (wname f) (nwqid f) (wqid f) (offset f) (count f) (data f) (nstat f) (stat f).
Definition with_uname v (f : Fcall) : Fcall := Call (ftype f) (fid f) (tag f) (msize f) (version f) (oldtag f) (ename f) (qid f) (iounit f) (aqid f) (afid f) v (aname f) (perm f) (name f) (mode f) (newfid f) (nwname f) (wname f) (nwqid f) (wqid f) (offset f) (count f) (data f) (nstat f) (stat f).
Definition with_aname v (f : Fcall) : Fcall := Call (ftype f) (fid f) (tag f) (msize f) (version f) (oldtag f) (ename f) (qid f) (iounit f) (aqid f) (afid f) (uname f) v (perm f) (name f) (mode f) (newfid f) (nwname f) (wname f) (nwqid f) (wqid f) (offset f) (count f) (data f) (nstat f) (stat f).
Definition with_perm v (f : Fcall) : Fcall := Call (ftype f) (fid f) (tag f) (msize f) (version f) (oldtag f) (ename f) (qid f) (iounit f) (aqid f) (afid f) (uname f) (aname f) v (name f) (mode f) (newfid f) (nwname f) (wname f) (nwqid f) (wqid f) (offset f) (count f) (data f) (nstat f) (stat f).
Definition with_name v (f : Fcall) : Fcall := Call (ftype f) (fid f) (tag f) (msize f) (version f) (oldtag f) (ename f) (qid f) (iounit f) (aqid f) (afid f) (uname f) (aname f) (perm f) v (mode f) (newfid f) (nwname f) (wname f) (nwqid f) (wqid f) (offset f) (count f) (data f) (nstat f) (stat f).
Definition with_mode v (f : Fcall) : Fcall := Call (ftype f) (fid f) (tag f) (msize f) (version f) (oldtag f) (ename f) (qid f) (iounit f) (aqid f) (afid f) (uname f) (aname f) (perm f) (name f) v (newfid f) (nwname f) (wname f) (nwqid f) (wqid f) (offset f) (count f) (data f) (nstat f) (stat f).
Definition with_newfid v (f : Fcall) : Fcall := Call (ftype f) (fid f) (tag f) (msize f) (version f) (oldtag f) (ename f) (qid f) (iounit f) (aqid f) (afid f) (uname f) (aname f) (perm f) (name f) (mode f) v (nwname f) (wname f) (nwqid f) (wqid f) (offset f) (count f) (data f) (nstat f) (stat f).
Definition with_nwname v (f : Fcall) : Fcall := Call (ftype f) (fid f) (tag f) (msize f) (version f) (oldtag f) (ename f) (qid f) (iounit f) (aqid f) (afid f) (uname f) (aname f) (perm f) (name f) (mode f) (newfid f) v (wname f) (nwqid f) (wqid f) (offset f) (count f) (data f) (nstat f) (stat f).
Definition with_wname v (f : Fcall) : Fcall := Call (ftype f) (fid f) (tag f) (msize f) (version f) (oldtag f) (ename f) (qid f) (iounit f) (aqid f) (afid f) (uname f) (aname f) (perm f) (name f) (mode f) (newfid f) (nwname f) v (nwqid f) (wqid f) (offset f) (count f) (data f) (nstat f) (stat f).
Definition with_nwqid v (f : Fcall) : Fcall := Call (ftype f) (fid f) (tag f) (msize f) (version f) (oldtag f) (ename f) (qid f) (iounit f) (aqid f) (afid f) (uname f) (aname f) (perm f) (name f) (mode f) (newfid f) (nwname f) (wname f) v (wqid f) (offset f) (count f) (data f) (nstat f) (stat f).
Definition with_wqid v (f : Fcall) : Fcall := Call (ftype f) (fid f) (tag f) (msize f) (version f) (oldtag f) (ename f) (qid f) (iounit f) (aqid f) (afid f) (uname f) (aname f) (perm f) (name f) (mode f) (newfid f) (nwname f) (wname f) (nwqid f) v (offset f) (count f) (data f) (nstat f) (stat f).
Definition with_offset v (f : Fcall) : Fcall := Call (ftype f) (fid f) (tag f) (msize f) (version f) (oldtag f) (ename f) (qid f) (iounit f) (aqid f) (afid f) (uname f) (aname f) (perm f) (name f) (mode f) (newfid f) (nwname f) (wname f) (nwqid f) (wqid f) v (count f) (data f) (nstat f) (stat f).
Definition with_count v (f : Fcall) : Fcall := Call (ftype f) (fid f) (tag f) (msize f) (version f) (oldtag f) (ename f) (qid f) (iounit f) (aqid f) (afid f) (uname f) (aname f) (perm f) (name f) (mode f) (newfid f) (nwname f) (wname f) (nwqid f) (wqid f) (offset f) v (data f) (nstat f) (stat f).
Definition with_data v (f : Fcall) : Fcall := Call (ftype f) (fid f) (tag f) (msize f) (version f) (oldtag f) (ename f) (qid f) (iounit f) (aqid f) (afid f) (uname f) (aname f) (perm f) (name f) (mode f) (newfid f) (nwname f) (wname f) (nwqid f) (wqid f) (offset f) (count f) v (nstat f) (stat f).
Definition with_nstat v (f : Fcall) : Fcall := Call (ftype f) (fid f) (tag f) (msize f) (version f) (oldtag f) (ename f) (qid f) (iounit f) (aqid f) (afid f) (uname f) (aname f) (perm f) (name f) (mode f) (newfid f) (nwname f) (wname f) (nwqid f) (wqid f) (offset f) (count f) (data f) v (stat f).
Definition with_stat v (f : Fcall) : Fcall := Call (ftype f) (fid f) (tag f) (msize f) (version f) (oldtag f) (ename f) (qid f) (iounit f) (aqid f) (afid f) (uname f) (aname f) (perm f) (name f) (mode f) (newfid f) (nwname f) (wname f) (nwqid f) (wqid f) (offset f) (count f) (data f) (nstat f) v.
End call.
Arguments Fcall : clear implicits.

(** ** Pointers

    An address has [width] bits, and the block starts at [base].  Pointers are added and compared as addresses. *)

Class addresses : Type := Addresses { base : Z; width : Z }.

Abbreviation B := (prog (list Z)).

Section block.
Context {ADDR : addresses}.

Definition address (p : Z) : Z := (base + p) mod 2 ^ width.
(** [p + n], and [p > q]. *)
Definition plus (p n : Z) : Z := address (p + n) - base.
Definition above (p q : Z) : bool := address q <? address p.

(** [p[0]]. *)
Definition byte (p : Z) : B Z :=
  b ← get_state;
  if p <? 0 then fail Bad_pointer else match b !! Z.to_nat p with Some c => mret c | None => fail Bad_pointer end.

(** [memmove(p, l, n)], where the [n] bytes at [l] are the list; and [p[0] = v]. *)
Definition splice (p : Z) (l b : list Z) : list Z := take (Z.to_nat p) b ++ l ++ drop (Z.to_nat p + length l) b.
Definition put_bytes (p : Z) (l : list Z) : B unit :=
  b ← get_state;
  if (p <? 0) || (Z.of_nat (length b) <? p + Z.of_nat (length l)) then fail Bad_pointer else set_state (splice p l b).
Definition put_byte (p v : Z) : B unit := put_bytes p [v mod 256].

(** [n] bytes of the block from [p] on. *)
Definition get_bytes (p n : Z) : B (list Z) :=
  b ← get_state;
  if (p <? 0) || (Z.of_nat (length b) <? p + n) then fail Bad_pointer else mret (take (Z.to_nat n) (drop (Z.to_nat p) b)).

(** *** The macros *)

Definition GBIT8 (p : Z) : B Z := byte p.
Definition GBIT16 (p : Z) : B Z :=
  a ← byte p; b ← byte (p + 1); mret (Z.lor a (Z.shiftl b 8)).
(** Four bytes as an int. *)
Definition int_of (p : Z) : B Z :=
  a ← byte p; b ← byte (p + 1); c ← byte (p + 2); d ← byte (p + 3);
  mret (wrap32 (Z.lor (Z.lor (Z.lor a (Z.shiftl b 8)) (Z.shiftl c 16)) (Z.shiftl d 24))).
Definition u32 (z : Z) : Z := z mod 2 ^ 32.
Definition GBIT32 (p : Z) : B Z := n ← int_of p; mret (u32 n).
Definition GBIT64 (p : Z) : B Z :=
  l ← int_of p; h ← int_of (p + 4); mret (Z.lor (u32 l) (wrap64 (Z.shiftl h 32))).

Definition PBIT8 (p v : Z) : B unit := put_byte p v.
Definition PBIT16 (p v : Z) : B unit := put_byte p v;; put_byte (p + 1) (Z.shiftr v 8).
Definition PBIT32 (p v : Z) : B unit :=
  put_byte p v;; put_byte (p + 1) (Z.shiftr v 8);; put_byte (p + 2) (Z.shiftr v 16);; put_byte (p + 3) (Z.shiftr v 24).
Definition PBIT64 (p v : Z) : B unit :=
  put_byte p v;; put_byte (p + 1) (Z.shiftr v 8);; put_byte (p + 2) (Z.shiftr v 16);; put_byte (p + 3) (Z.shiftr v 24);;
  put_byte (p + 4) (Z.shiftr v 32);; put_byte (p + 5) (Z.shiftr v 40);; put_byte (p + 6) (Z.shiftr v 48);; put_byte (p + 7) (Z.shiftr v 56).

(** ** convS2M.c *)

(** [strlen]. *)
Fixpoint c_length (l : list Z) : option Z :=
  match l with [] => None | c :: l => if c =? 0 then Some 0 else n ← c_length l; Some (1 + n) end.
Definition strlen {S} (s : list Z) : prog S Z := match c_length s with Some n => mret n | None => fail Bad_pointer end.

(** [memmove(p, s, n)]. *)
Definition copy_in (p : Z) (s : list Z) (n : Z) : B unit :=
  if Z.of_nat (length s) <? n then fail Bad_pointer else put_bytes p (take (Z.to_nat n) s).
(** The same with a pointer that may be nil. *)
Definition copy_from (p : Z) (s : option (list Z)) (n : Z) : B unit := copy_in p (default [] s) n.

Definition pstring (p : Z) (s : option (list Z)) : B Z :=
  match s with
  | None => PBIT16 p 0;; mret (p + BIT16SZ)
  | Some s =>
      n ← strlen s;
      let n := u32 n in
      PBIT16 p n;;
      let p := p + BIT16SZ in
      copy_in p s n;;
      mret (p + n)
  end.

Definition pqid (p : Z) (q : Qid) : B Z :=
  PBIT8 p (qtype q);;
  let p := p + BIT8SZ in
  PBIT32 p (vers q);;
  let p := p + BIT32SZ in
  PBIT64 p (path q);;
  mret (p + BIT64SZ).

Definition stringsz {S} (s : option (list Z)) : prog S Z :=
  match s with None => mret BIT16SZ | Some s => n ← strlen s; mret (u32 (BIT16SZ + n)) end.

(** [f->wname[i]] and [f->wqid[i]]. *)
Definition element {S A} (l : list A) (i : nat) : prog S A := match l !! i with Some x => mret x | None => fail Bad_pointer end.

(** The names from the [i]-th on, of which [k] are left. *)
Fixpoint names_size {S} (k i : nat) (f : Fcall (list Z)) (n : Z) : prog S Z :=
  match k with
  | O => mret n
  | S k => s ← element (wname f) i; m ← stringsz s; names_size k (Datatypes.S i) f (u32 (n + m))
  end.

(** [n] plus what the type needs, or [None] for an unknown type. *)
Definition sizes {S} (f : Fcall (list Z)) (n : Z) : prog S (option Z) :=
  let t := ftype f in
  let ok (n : Z) : prog S (option Z) := mret (Some (u32 n)) in
  if (t =? Tversion) || (t =? Rversion) then m ← stringsz (version f); ok (n + BIT32SZ + m) else
  if t =? Tflush then ok (n + BIT16SZ) else
  if t =? Tauth then m ← stringsz (uname f); k ← stringsz (aname f); ok (n + BIT32SZ + m + k) else
  if t =? Tattach then m ← stringsz (uname f); k ← stringsz (aname f); ok (n + BIT32SZ + BIT32SZ + m + k) else
  if t =? Twalk then m ← names_size (Z.to_nat (nwname f)) 0 f (n + BIT32SZ + BIT32SZ + BIT16SZ); ok m else
  if t =? Topen then ok (n + BIT32SZ + BIT8SZ) else
  if t =? Tcreate then m ← stringsz (name f); ok (n + BIT32SZ + m + BIT32SZ + BIT8SZ) else
  if t =? Tread then ok (n + BIT32SZ + BIT64SZ + BIT32SZ) else
  if t =? Twrite then ok (n + BIT32SZ + BIT64SZ + BIT32SZ + count f) else
  if (t =? Tclunk) || (t =? Tremove) || (t =? Tstat) then ok (n + BIT32SZ) else
  if t =? Twstat then ok (n + BIT32SZ + BIT16SZ + nstat f) else
  if t =? Rerror then m ← stringsz (ename f); ok (n + m) else
  if (t =? Rflush) || (t =? Rclunk) || (t =? Rremove) || (t =? Rwstat) then ok n else
  if (t =? Rauth) || (t =? Rattach) then ok (n + QIDSZ) else
  if t =? Rwalk then ok (n + BIT16SZ + nwqid f * QIDSZ) else
  if (t =? Ropen) || (t =? Rcreate) then ok (n + QIDSZ + BIT32SZ) else
  if t =? Rread then ok (n + BIT32SZ + count f) else
  if t =? Rwrite then ok (n + BIT32SZ) else
  if t =? Rstat then ok (n + BIT16SZ + nstat f) else
  mret None.

Definition sizeS2M {S} (f : Fcall (list Z)) : prog S Z :=
  n ← sizes f (BIT32SZ + BIT8SZ + BIT16SZ);
  mret (default 0 n).

(** The loops over names and qids. *)
Fixpoint put_names (k i : nat) (f : Fcall (list Z)) (p : Z) : B Z :=
  match k with
  | O => mret p
  | S k => s ← element (wname f) i; p ← pstring p s; put_names k (Datatypes.S i) f p
  end.
Fixpoint put_qids (k i : nat) (f : Fcall (list Z)) (p : Z) : B Z :=
  match k with
  | O => mret p
  | S k => q ← element (wqid f) i; p ← pqid p q; put_qids k (Datatypes.S i) f p
  end.

(** Numbers that are written one after the other: the pointer behind. *)
Definition put16 (p v : Z) : B Z := PBIT16 p v;; mret (p + BIT16SZ).
Definition put8 (p v : Z) : B Z := PBIT8 p v;; mret (p + BIT8SZ).
Definition put32 (p v : Z) : B Z := PBIT32 p v;; mret (p + BIT32SZ).
Definition put64 (p v : Z) : B Z := PBIT64 p v;; mret (p + BIT64SZ).
(** Bytes with their number before them. *)
Definition put_data (p : Z) (s : option (list Z)) (n : Z) : B Z := copy_from p s n;; mret (p + n).

(** The second switch: the pointer behind the message, or [None] for [return 0]. *)
Definition fields (f : Fcall (list Z)) (p : Z) : B (option Z) :=
  let t := ftype f in
  let ok (x : B Z) : B (option Z) := p ← x; mret (Some p) in
  if (t =? Tversion) || (t =? Rversion) then ok (p ← put32 p (msize f); pstring p (version f)) else
  if t =? Tflush then ok (put16 p (oldtag f)) else
  if t =? Tauth then ok (p ← put32 p (afid f); p ← pstring p (uname f); pstring p (aname f)) else
  if t =? Tattach then ok (p ← put32 p (fid f); p ← put32 p (afid f); p ← pstring p (uname f); pstring p (aname f)) else
  if t =? Twalk then
    p ← put32 p (fid f); p ← put32 p (newfid f); p ← put16 p (nwname f);
    if MAXWELEM <? nwname f then mret None else ok (put_names (Z.to_nat (nwname f)) 0 f p) else
  if t =? Topen then ok (p ← put32 p (fid f); put8 p (mode f)) else
  if t =? Tcreate then ok (p ← put32 p (fid f); p ← pstring p (name f); p ← put32 p (perm f); put8 p (mode f)) else
  if t =? Tread then ok (p ← put32 p (fid f); p ← put64 p (offset f); put32 p (count f)) else
  if t =? Twrite then ok (p ← put32 p (fid f); p ← put64 p (offset f); p ← put32 p (count f); put_data p (data f) (count f)) else
  if (t =? Tclunk) || (t =? Tremove) || (t =? Tstat) then ok (put32 p (fid f)) else
  if t =? Twstat then ok (p ← put32 p (fid f); p ← put16 p (nstat f); put_data p (stat f) (nstat f)) else
  if t =? Rerror then ok (pstring p (ename f)) else
  if (t =? Rflush) || (t =? Rclunk) || (t =? Rremove) || (t =? Rwstat) then mret (Some p) else
  if t =? Rauth then ok (pqid p (aqid f)) else
  if t =? Rattach then ok (pqid p (qid f)) else
  if t =? Rwalk then
    p ← put16 p (nwqid f);
    if MAXWELEM <? nwqid f then mret None else ok (put_qids (Z.to_nat (nwqid f)) 0 f p) else
  if (t =? Ropen) || (t =? Rcreate) then ok (p ← pqid p (qid f); put32 p (iounit f)) else
  if t =? Rread then ok (p ← put32 p (count f); put_data p (data f) (count f)) else
  if t =? Rwrite then ok (put32 p (count f)) else
  if t =? Rstat then ok (p ← put16 p (nstat f); put_data p (stat f) (nstat f)) else
  mret None.

Definition convS2M (f : Fcall (list Z)) (nap : Z) : B Z :=
  size ← sizeS2M f;
  if size =? 0 then mret 0 else
  if nap <? size then mret 0 else
  p ← put32 0 size;
  p ← put8 p (ftype f);
  p ← put16 p (tag f);
  r ← fields f p;
  match r with
  | None => mret 0
  | Some p => if negb (size =? p) then mret 0 else mret size
  end.

(** ** convM2S.c

    [ep] is the offset of the end of the message's bytes; a null pointer is [None]. *)

Definition gstring (p ep : Z) : B (option (Z * Z)) :=
  if above (plus p BIT16SZ) ep then mret None else
  n ← GBIT16 p;
  let p := plus p (BIT16SZ - 1) in
  if above (plus (plus p n) 1) ep then mret None else
  l ← get_bytes (plus p 1) n;
  put_bytes p l;;
  put_byte (plus p n) 0;;
  mret (Some (p, plus p (n + 1))).

Definition u64 (z : Z) : Z := z mod 2 ^ 64.
Definition gqid (p ep : Z) : B (option (Qid * Z)) :=
  if above (plus p QIDSZ) ep then mret None else
  t ← GBIT8 p;
  let p := plus p BIT8SZ in
  v ← GBIT32 p;
  let p := plus p BIT32SZ in
  h ← GBIT64 p;
  mret (Some (Mkqid t v (u64 h), plus p BIT64SZ)).

(** What a part of the switch gives: the message so far, and the pointer behind, or [None] for a null pointer and for [return 0]. *)
Definition decoded : Type := Fcall Z * option Z.

(** [if (p + n > ep) return 0]. *)
Definition need (p n ep : Z) (f : Fcall Z) (k : B decoded) : B decoded := if above (plus p n) ep then mret (f, None) else k.
(** A string or a qid is read into a field; the switch is left when there is none. *)
Definition with_string (set : option Z -> Fcall Z -> Fcall Z) (f : Fcall Z) (p ep : Z) (k : Fcall Z -> Z -> B decoded) : B decoded :=
  x ← gstring p ep;
  match x with None => mret (f, None) | Some (s, p) => k (set (Some s) f) p end.
Definition with_gqid (set : Qid -> Fcall Z -> Fcall Z) (f : Fcall Z) (p ep : Z) (k : Fcall Z -> Z -> B decoded) : B decoded :=
  x ← gqid p ep;
  match x with None => mret (f, None) | Some (q, p) => k (set q f) p end.
Definition done_at (f : Fcall Z) (p : Z) : B decoded := mret (f, Some p).

(** Numbers that are read one after the other. *)
Definition get8 (set : Z -> Fcall Z -> Fcall Z) (f : Fcall Z) (p : Z) (k : Fcall Z -> Z -> B decoded) : B decoded :=
  v ← GBIT8 p; k (set v f) (plus p BIT8SZ).
Definition get16 (set : Z -> Fcall Z -> Fcall Z) (f : Fcall Z) (p : Z) (k : Fcall Z -> Z -> B decoded) : B decoded :=
  v ← GBIT16 p; k (set v f) (plus p BIT16SZ).
Definition get32 (set : Z -> Fcall Z -> Fcall Z) (f : Fcall Z) (p : Z) (k : Fcall Z -> Z -> B decoded) : B decoded :=
  v ← GBIT32 p; k (set v f) (plus p BIT32SZ).
Definition get64 (set : Z -> Fcall Z -> Fcall Z) (f : Fcall Z) (p : Z) (k : Fcall Z -> Z -> B decoded) : B decoded :=
  v ← GBIT64 p; k (set v f) (plus p BIT64SZ).
(** [if (p + n > ep) return 0; f->data = p; p += n]. *)
Definition get_data (set : option Z -> Fcall Z -> Fcall Z) (n : Fcall Z -> Z) (ep : Z) (f : Fcall Z) (p : Z) : B decoded :=
  need p (n f) ep f (mret (set (Some p) f, Some (plus p (n f)))).

Definition with_wname_at (i : nat) (s : option Z) (f : Fcall Z) : Fcall Z := with_wname (<[i := s]> (wname f)) f.
Definition with_wqid_at (i : nat) (q : Qid) (f : Fcall Z) : Fcall Z := with_wqid (<[i := q]> (wqid f)) f.
Fixpoint get_names (k i : nat) (ep : Z) (f : Fcall Z) (p : Z) : B decoded :=
  match k with
  | O => done_at f p
  | S k => with_string (with_wname_at i) f p ep (fun f p => get_names k (Datatypes.S i) ep f p)
  end.
Fixpoint get_qids (k i : nat) (ep : Z) (f : Fcall Z) (p : Z) : B decoded :=
  match k with
  | O => done_at f p
  | S k => with_gqid (with_wqid_at i) f p ep (fun f p => get_qids k (Datatypes.S i) ep f p)
  end.

(** The switch. *)
Definition unpack (f : Fcall Z) (p ep : Z) : B decoded :=
  let t := ftype f in
  if (t =? Tversion) || (t =? Rversion) then
    need p BIT32SZ ep f (get32 with_msize f p (fun f p => with_string with_version f p ep done_at)) else
  if t =? Tflush then need p BIT16SZ ep f (get16 with_oldtag f p done_at) else
  if t =? Tauth then
    need p BIT32SZ ep f (get32 with_afid f p (fun f p =>
    with_string with_uname f p ep (fun f p => with_string with_aname f p ep done_at))) else
  if t =? Tattach then
    need p BIT32SZ ep f (get32 with_fid f p (fun f p =>
    need p BIT32SZ ep f (get32 with_afid f p (fun f p =>
    with_string with_uname f p ep (fun f p => with_string with_aname f p ep done_at))))) else
  if t =? Twalk then
    need p (BIT32SZ + BIT32SZ + BIT16SZ) ep f (get32 with_fid f p (fun f p => get32 with_newfid f p (fun f p => get16 with_nwname f p (fun f p =>
    if MAXWELEM <? nwname f then mret (f, None) else get_names (Z.to_nat (nwname f)) 0 ep f p)))) else
  if t =? Topen then need p (BIT32SZ + BIT8SZ) ep f (get32 with_fid f p (fun f p => get8 with_mode f p done_at)) else
  if t =? Tcreate then
    need p BIT32SZ ep f (get32 with_fid f p (fun f p =>
    with_string with_name f p ep (fun f p =>
    need p (BIT32SZ + BIT8SZ) ep f (get32 with_perm f p (fun f p => get8 with_mode f p done_at))))) else
  if t =? Tread then
    need p (BIT32SZ + BIT64SZ + BIT32SZ) ep f (get32 with_fid f p (fun f p => get64 with_offset f p (fun f p => get32 with_count f p done_at))) else
  if t =? Twrite then
    need p (BIT32SZ + BIT64SZ + BIT32SZ) ep f (get32 with_fid f p (fun f p => get64 with_offset f p (fun f p => get32 with_count f p (get_data with_data count ep)))) else
  if (t =? Tclunk) || (t =? Tremove) || (t =? Tstat) then need p BIT32SZ ep f (get32 with_fid f p done_at) else
  if t =? Twstat then
    need p (BIT32SZ + BIT16SZ) ep f (get32 with_fid f p (fun f p => get16 with_nstat f p (get_data with_stat nstat ep))) else
  if t =? Rerror then with_string with_ename f p ep done_at else
  if (t =? Rflush) || (t =? Rclunk) || (t =? Rremove) || (t =? Rwstat) then done_at f p else
  if t =? Rauth then with_gqid with_aqid f p ep done_at else
  if t =? Rattach then with_gqid with_qid f p ep done_at else
  if t =? Rwalk then
    need p BIT16SZ ep f (get16 with_nwqid f p (fun f p =>
    if MAXWELEM <? nwqid f then mret (f, None) else get_qids (Z.to_nat (nwqid f)) 0 ep f p)) else
  if (t =? Ropen) || (t =? Rcreate) then
    with_gqid with_qid f p ep (fun f p => need p BIT32SZ ep f (get32 with_iounit f p done_at)) else
  if t =? Rread then need p BIT32SZ ep f (get32 with_count f p (get_data with_data count ep)) else
  if t =? Rwrite then need p BIT32SZ ep f (get32 with_count f p done_at) else
  if t =? Rstat then need p BIT16SZ ep f (get16 with_nstat f p (get_data with_stat nstat ep)) else
  mret (f, None).

(** What is returned, and the message. *)
Definition convM2S (nap : Z) (f : Fcall Z) : B (Z * Fcall Z) :=
  let ep := plus 0 nap in
  if above (plus 0 (BIT32SZ + BIT8SZ + BIT16SZ)) ep then mret (0, f) else
  size ← GBIT32 0;
  let p := plus 0 BIT32SZ in
  if size <? BIT32SZ + BIT8SZ + BIT16SZ then mret (0, f) else
  t ← GBIT8 p;
  let p := plus p BIT8SZ in
  g ← GBIT16 p;
  let p := plus p BIT16SZ in
  x ← unpack (with_tag g (with_ftype t f)) p ep;
  match x with
  | (f, None) => mret (0, f)
  | (f, Some p) => if above p ep then mret (0, f) else if plus 0 size =? p then mret (size, f) else mret (0, f)
  end.
End block.
