(* ===== verification/NineWire.v ===== *)
(** * 9P messages: the format

    Formats with their laws, and the messages of 9P: how each is laid out, and a parser that accepts just that. *)

From Stdlib Require Import ZArith Lia.
From stdpp Require Import base numbers list strings.
From S2P Require Import Prelude NineCall.

Open Scope Z_scope.

(** ** Formats *)

Definition is_byte (c : Z) : Prop := 0 <= c < 256.
Definition bytes (l : list Z) : Prop := Forall is_byte l.

(** How values are written ([put], those that fit) and read ([get], with the rest). *)
Record format (A : Type) : Type := Format {
  put : A -> list Z;
  get : list Z -> option (A * list Z);
  fits : A -> Prop;
  get_put : forall a r, fits a -> get (put a ++ r) = Some (a, r);
  put_get : forall l a r, bytes l -> get l = Some (a, r) -> fits a /\ l = put a ++ r;
  put_is : forall a, fits a -> bytes (put a)
}.
Arguments put {A}.
Arguments get {A}.
Arguments fits {A}.
Arguments get_put {A}.
Arguments put_get {A}.
Arguments put_is {A}.

(** *** Numbers, the low byte first *)

Fixpoint le (n : nat) (v : Z) : list Z := match n with O => [] | S n => v mod 256 :: le n (v / 256) end.
Fixpoint unle (l : list Z) : Z := match l with [] => 0 | c :: l => c + 256 * unle l end.

Lemma le_length n : forall v, length (le n v) = n.
Proof. induction n as [|n IH]; intros v; cbn; [done | by rewrite IH]. Qed.

Lemma le_bytes n : forall v, bytes (le n v).
Proof. induction n as [|n IH]; intros v; constructor; [unfold is_byte; pose proof (Z.mod_pos_bound v 256); lia | apply IH]. Qed.

Lemma pow_256_S n : 256 ^ Z.of_nat (S n) = 256 * 256 ^ Z.of_nat n.
Proof. rewrite Nat2Z.inj_succ, Z.pow_succ_r by lia. done. Qed.

Lemma unle_le n : forall v, unle (le n v) = v mod 256 ^ Z.of_nat n.
Proof.
  induction n as [|n IH]; intros v; [by rewrite Z.mod_1_r|]. cbn [le unle]. rewrite IH, pow_256_S.
  rewrite Z.rem_mul_r by (try lia; apply Z.pow_pos_nonneg; lia). lia.
Qed.

Lemma unle_range l : bytes l -> 0 <= unle l < 256 ^ Z.of_nat (length l).
Proof. induction 1 as [|c l Hc Hl IH]; [done|]. cbn [unle length]. rewrite pow_256_S. unfold is_byte in Hc. lia. Qed.

Lemma le_unle l : bytes l -> le (length l) (unle l) = l.
Proof.
  induction 1 as [|c l Hc Hl IH]; [done|]. cbn [unle length le]. unfold is_byte in Hc. f_equal.
  - rewrite (Z.mul_comm 256), Z.mod_add by lia. by apply Z.mod_small.
  - rewrite (Z.mul_comm 256), Z.div_add by lia. by rewrite Z.div_small, Z.add_0_l.
Qed.

Lemma le_mod n m v : (n <= m)%nat -> le n (v mod 256 ^ Z.of_nat m) = le n v.
Proof.
  revert m v. induction n as [|n IH]; intros [|m] v H; try done; [lia|]. cbn [le]. rewrite pow_256_S.
  rewrite Z.rem_mul_r by (try lia; apply Z.pow_pos_nonneg; lia). rewrite (Z.mul_comm 256), Z.mod_add, Z.mod_mod, Z.div_add by lia.
  rewrite (Z.div_small (v mod 256)) by (apply Z.mod_pos_bound; lia). rewrite Z.add_0_l, IH by lia. done.
Qed.

(** The first [n] bytes, when there are so many. *)
Definition split_at (n : Z) (l : list Z) : option (list Z * list Z) :=
  if Z.of_nat (length l) <? n then None else Some (take (Z.to_nat n) l, drop (Z.to_nat n) l).

Lemma split_at_app n a r : Z.of_nat (length a) = n -> split_at n (a ++ r) = Some (a, r).
Proof.
  intros <-. unfold split_at. rewrite length_app. destruct (Z.ltb_spec (Z.of_nat (length a + length r)) (Z.of_nat (length a))); [lia|].
  by rewrite Nat2Z.id, take_app_length, drop_app_length.
Qed.

Lemma split_at_some n l a r : 0 <= n -> split_at n l = Some (a, r) -> l = a ++ r /\ Z.of_nat (length a) = n.
Proof.
  intros Hn. unfold split_at. destruct (Z.ltb_spec (Z.of_nat (length l)) n); [done|]. intros [= <- <-]. rewrite take_drop, length_take. split; [done | lia].
Qed.

Lemma bytes_app a b : bytes (a ++ b) <-> bytes a /\ bytes b.
Proof. apply Forall_app. Qed.

Definition unsigned (n : nat) : format Z.
Proof.
  refine (Format _ (le n) (fun l => x ← split_at (Z.of_nat n) l; Some (unle x.1, x.2)) (fun v => 0 <= v < 256 ^ Z.of_nat n) _ _ _).
  - intros v r Hv. rewrite split_at_app by (by rewrite le_length). cbn. by rewrite unle_le, Z.mod_small.
  - intros l a r Hl. destruct (split_at _ l) as [[a' r']|] eqn:E; [|done]. cbn. intros [= <- <-].
    destruct (split_at_some _ _ _ _ (Nat2Z.is_nonneg n) E) as [-> Hn]. apply bytes_app in Hl as [Hl _]. apply Nat2Z.inj in Hn. subst n.
    split; [by apply unle_range | by rewrite le_unle].
  - intros v _. apply le_bytes.
Defined.

(** A vlong. *)
Definition signed64 : format Z.
Proof.
  refine (Format _ (le 8) (fun l => x ← split_at 8 l; Some (wrap64 (unle x.1), x.2)) (fun v => int64 v) _ _ _).
  - intros v r Hv. rewrite split_at_app by (by rewrite le_length). cbn [mbind option_bind fst snd]. rewrite unle_le. do 2 f_equal.
    unfold wrap64, int64 in *. change (256 ^ Z.of_nat 8) with 18446744073709551616. rewrite Zplus_mod_idemp_l, Z.mod_small by lia. lia.
  - intros l a r Hl. destruct (split_at _ l) as [[a' r']|] eqn:E; [|done]. cbn [mbind option_bind fst snd]. intros [= <- <-].
    destruct (split_at_some 8 _ _ _ ltac:(lia) E) as [-> Hn]. apply bytes_app in Hl as [Hl _].
    split; [unfold wrap64, int64; pose proof (Z.mod_pos_bound (unle a' + 9223372036854775808) 18446744073709551616); lia|].
    f_equal. rewrite <- (le_mod 8 8) by lia. rewrite <- (le_unle a' Hl) at 1. replace (length a') with 8%nat by lia.
    rewrite <- (le_mod 8 8 (unle a')) by lia. f_equal. unfold wrap64. change (256 ^ Z.of_nat 8) with 18446744073709551616.
    rewrite Zminus_mod_idemp_l. f_equal. lia.
  - intros v _. apply le_bytes.
Defined.

(** *** Bytes with their number before them *)

Definition counted (n : nat) : format (list Z).
Proof.
  refine (Format _ (fun s => le n (Z.of_nat (length s)) ++ s) (fun l => x ← get (unsigned n) l; split_at x.1 x.2)
    (fun s => bytes s /\ Z.of_nat (length s) < 256 ^ Z.of_nat n) _ _ _).
  - intros s r [_ Hs]. rewrite <- app_assoc. change (le n (Z.of_nat (length s))) with (put (unsigned n) (Z.of_nat (length s))).
    rewrite (get_put (unsigned n)) by (split; [lia | done]). cbn [mbind option_bind fst snd]. by apply split_at_app.
  - intros l s r Hl. destruct (get (unsigned n) l) as [[v l']|] eqn:E; [|done]. cbn [mbind option_bind fst snd]. intros E2.
    destruct (put_get (unsigned n) _ _ _ Hl E) as [Hv ->]. cbn [fits unsigned] in Hv. apply bytes_app in Hl as [_ Hl].
    destruct (split_at_some _ _ _ _ (proj1 Hv) E2) as [-> Hs]. apply bytes_app in Hl as [Hl _]. rewrite Hs. split; [split; [done | lia]|]. cbn [put unsigned]. by rewrite <- app_assoc.
  - intros s [Hs _]. apply bytes_app. split; [apply le_bytes | done].
Defined.

(** *** Pairs, and lists of at most MAXWELEM elements *)

Definition pair {A1 A2} (f1 : format A1) (f2 : format A2) : format (A1 * A2).
Proof.
  refine (Format _ (fun x => put f1 x.1 ++ put f2 x.2) (fun l => x ← get f1 l; y ← get f2 x.2; Some ((x.1, y.1), y.2)) (fun x => fits f1 x.1 /\ fits f2 x.2) _ _ _).
  - intros [a b] r [Ha Hb]. cbn [fst snd] in *. rewrite <- app_assoc, (get_put f1) by done. cbn. by rewrite (get_put f2).
  - intros l [a b] r Hl. destruct (get f1 l) as [[a' l1]|] eqn:E1; [|done]. cbn. destruct (get f2 l1) as [[b' l2]|] eqn:E2; [|done]. cbn. intros [= <- <- <-].
    destruct (put_get f1 _ _ _ Hl E1) as [Ha ->]. apply bytes_app in Hl as [_ Hl]. destruct (put_get f2 _ _ _ Hl E2) as [Hb ->]. by rewrite <- app_assoc.
  - intros [a b] [Ha Hb]. apply bytes_app. cbn in *. split; by apply put_is.
Defined.

Section many.
Context {A : Type} (f : format A).

Definition puts (l : list A) : list Z := concat (map (put f) l).
Fixpoint gets (n : nat) (l : list Z) : option (list A * list Z) :=
  match n with
  | O => Some ([], l)
  | S n => x ← get f l; y ← gets n x.2; Some (x.1 :: y.1, y.2)
  end.

Lemma gets_puts xs r : Forall (fits f) xs -> gets (length xs) (puts xs ++ r) = Some (xs, r).
Proof.
  induction 1 as [|x xs Hx Hxs IH]; [done|]. unfold puts. cbn [map concat length gets]. rewrite <- app_assoc, (get_put f) by done. cbn. fold (puts xs). by rewrite IH.
Qed.

Lemma puts_gets n : forall l xs r, bytes l -> gets n l = Some (xs, r) -> Forall (fits f) xs /\ l = puts xs ++ r /\ length xs = n.
Proof.
  induction n as [|n IH]; intros l xs r Hl; cbn [gets]; [intros [= <- <-]; by split_and!|].
  destruct (get f l) as [[x l1]|] eqn:E1; [|done]. cbn. destruct (gets n l1) as [[ys l2]|] eqn:E2; [|done]. cbn. intros [= <- <-].
  destruct (put_get f _ _ _ Hl E1) as [Hx ->]. apply bytes_app in Hl as [_ Hl]. destruct (IH _ _ _ Hl E2) as (Hys & -> & <-).
  split_and!; [by constructor | unfold puts; cbn; by rewrite <- app_assoc | done].
Qed.

Lemma puts_bytes xs : Forall (fits f) xs -> bytes (puts xs).
Proof. induction 1 as [|x xs Hx Hxs IH]; [constructor|]. apply bytes_app. split; [by apply put_is | done]. Qed.

Definition many : format (list A).
Proof.
  refine (Format _ (fun xs => le 2 (Z.of_nat (length xs)) ++ puts xs)
    (fun l => x ← get (unsigned 2) l; if MAXWELEM <? x.1 then None else gets (Z.to_nat x.1) x.2)
    (fun xs => Forall (fits f) xs /\ Z.of_nat (length xs) <= MAXWELEM) _ _ _).
  - intros xs r [Hxs Hn]. unfold MAXWELEM in *. rewrite <- app_assoc. change (le 2 (Z.of_nat (length xs))) with (put (unsigned 2) (Z.of_nat (length xs))).
    rewrite (get_put (unsigned 2)) by (cbn; lia). cbn [mbind option_bind fst snd]. destruct (Z.ltb_spec 16 (Z.of_nat (length xs))); [lia|].
    rewrite Nat2Z.id. by apply gets_puts.
  - intros l xs r Hl. destruct (get (unsigned 2) l) as [[n l1]|] eqn:E; [|done]. cbn [mbind option_bind fst snd]. unfold MAXWELEM. destruct (Z.ltb_spec 16 n); [done|]. intros E2.
    destruct (put_get (unsigned 2) _ _ _ Hl E) as [Hn ->]. cbn [fits unsigned] in Hn. apply bytes_app in Hl as [_ Hl].
    destruct (puts_gets _ _ _ _ Hl E2) as (Hxs & -> & El). rewrite El, Z2Nat.id by lia. split; [split; [done | lia]|]. cbn [put unsigned]. by rewrite <- app_assoc.
  - intros xs [Hxs _]. apply bytes_app. split; [apply le_bytes | by apply puts_bytes].
Defined.
End many.

(** ** Messages *)

Definition u8f : format Z := unsigned 1.
Definition u16f : format Z := unsigned 2.
Definition u32f : format Z := unsigned 4.
Definition u64f : format Z := unsigned 8.
Definition text : format (list Z) := counted 2.
Definition bulk : format (list Z) := counted 4.

Definition empty : format unit.
Proof. refine (Format _ (fun _ => []) (fun l => Some (tt, l)) (fun _ => True) _ _ _); [by intros [] | by intros l [] r _ [= <-] | constructor]. Defined.

Definition qidf : format Qid.
Proof.
  refine (let f := pair u8f (pair u32f u64f) in
    Format _ (fun q => put f (qtype q, (vers q, path q))) (fun l => x ← get f l; Some (Mkqid x.1.1 x.1.2.1 x.1.2.2, x.2)) (fun q => fits f (qtype q, (vers q, path q))) _ _ _).
  - intros [t v p] r H. by rewrite (get_put f).
  - intros l q r Hl. destruct (get f l) as [[[t [v p]] l']|] eqn:E; [|done]. cbn [mbind option_bind fst snd]. intros [= <- <-]. by apply (put_get f).
  - intros [t v p] H. by apply (put_is f).
Defined.

(** A value with its format. *)
Inductive packed : Type := Pack (A : Type) (f : format A) (a : A).
Arguments Pack {A}.

Inductive message : Type :=
  | T_version (msize : Z) (version : list Z)
  | R_version (msize : Z) (version : list Z)
  | T_auth (afid : Z) (uname : list Z) (aname : list Z)
  | R_auth (aqid : Qid)
  | T_attach (fid : Z) (afid : Z) (uname : list Z) (aname : list Z)
  | R_attach (qid : Qid)
  | R_error (ename : list Z)
  | T_flush (oldtag : Z)
  | R_flush
  | T_walk (fid : Z) (newfid : Z) (wnames : list (list Z))
  | R_walk (wqids : list Qid)
  | T_open (fid : Z) (mode : Z)
  | R_open (qid : Qid) (iounit : Z)
  | T_create (fid : Z) (name : list Z) (perm : Z) (mode : Z)
  | R_create (qid : Qid) (iounit : Z)
  | T_read (fid : Z) (offset : Z) (count : Z)
  | R_read (data : list Z)
  | T_write (fid : Z) (offset : Z) (data : list Z)
  | R_write (count : Z)
  | T_clunk (fid : Z)
  | R_clunk
  | T_remove (fid : Z)
  | R_remove
  | T_stat (fid : Z)
  | R_stat (stat : list Z)
  | T_wstat (fid : Z) (stat : list Z)
  | R_wstat.

Definition code (m : message) : Z :=
  match m with
  | T_version _ _ => Tversion
  | R_version _ _ => Rversion
  | T_auth _ _ _ => Tauth
  | R_auth _ => Rauth
  | T_attach _ _ _ _ => Tattach
  | R_attach _ => Rattach
  | R_error _ => Rerror
  | T_flush _ => Tflush
  | R_flush => Rflush
  | T_walk _ _ _ => Twalk
  | R_walk _ => Rwalk
  | T_open _ _ => Topen
  | R_open _ _ => Ropen
  | T_create _ _ _ _ => Tcreate
  | R_create _ _ => Rcreate
  | T_read _ _ _ => Tread
  | R_read _ => Rread
  | T_write _ _ _ => Twrite
  | R_write _ => Rwrite
  | T_clunk _ => Tclunk
  | R_clunk => Rclunk
  | T_remove _ => Tremove
  | R_remove => Rremove
  | T_stat _ => Tstat
  | R_stat _ => Rstat
  | T_wstat _ _ => Twstat
  | R_wstat => Rwstat
  end.

(** What is behind the tag. *)
Definition layout (m : message) : packed :=
  match m with
  | T_version msize version => Pack (pair u32f text) (msize, version)
  | R_version msize version => Pack (pair u32f text) (msize, version)
  | T_auth afid uname aname => Pack (pair u32f (pair text text)) (afid, (uname, aname))
  | R_auth aqid => Pack qidf aqid
  | T_attach fid afid uname aname => Pack (pair u32f (pair u32f (pair text text))) (fid, (afid, (uname, aname)))
  | R_attach qid => Pack qidf qid
  | R_error ename => Pack text ename
  | T_flush oldtag => Pack u16f oldtag
  | R_flush => Pack empty tt
  | T_walk fid newfid wnames => Pack (pair u32f (pair u32f (many text))) (fid, (newfid, wnames))
  | R_walk wqids => Pack (many qidf) wqids
  | T_open fid mode => Pack (pair u32f u8f) (fid, mode)
  | R_open qid iounit => Pack (pair qidf u32f) (qid, iounit)
  | T_create fid name perm mode => Pack (pair u32f (pair text (pair u32f u8f))) (fid, (name, (perm, mode)))
  | R_create qid iounit => Pack (pair qidf u32f) (qid, iounit)
  | T_read fid offset count => Pack (pair u32f (pair signed64 u32f)) (fid, (offset, count))
  | R_read data => Pack bulk data
  | T_write fid offset data => Pack (pair u32f (pair signed64 bulk)) (fid, (offset, data))
  | R_write count => Pack u32f count
  | T_clunk fid => Pack u32f fid
  | R_clunk => Pack empty tt
  | T_remove fid => Pack u32f fid
  | R_remove => Pack empty tt
  | T_stat fid => Pack u32f fid
  | R_stat stat => Pack text stat
  | T_wstat fid stat => Pack (pair u32f text) (fid, stat)
  | R_wstat => Pack empty tt
  end.

Definition body (m : message) : list Z := match layout m with Pack f a => put f a end.
Definition valid (m : message) : Prop := match layout m with Pack f a => fits f a end.

(** The size, the type, the tag and the body. *)
Definition wire (tag : Z) (m : message) : list Z := le 4 (7 + Z.of_nat (length (body m))) ++ le 1 (code m) ++ le 2 tag ++ body m.

(** *** A parser for bodies *)

Definition reading {A} (f : format A) (make : A -> message) (l : list Z) : option (message * list Z) := x ← get f l; Some (make x.1, x.2).

Definition parse_body (t : Z) (l : list Z) : option (message * list Z) :=
  if t =? Tversion then reading (pair u32f text) (fun '(msize, version) => T_version msize version) l else
  if t =? Rversion then reading (pair u32f text) (fun '(msize, version) => R_version msize version) l else
  if t =? Tauth then reading (pair u32f (pair text text)) (fun '(afid, (uname, aname)) => T_auth afid uname aname) l else
  if t =? Rauth then reading qidf (fun aqid => R_auth aqid) l else
  if t =? Tattach then reading (pair u32f (pair u32f (pair text text))) (fun '(fid, (afid, (uname, aname))) => T_attach fid afid uname aname) l else
  if t =? Rattach then reading qidf (fun qid => R_attach qid) l else
  if t =? Rerror then reading text (fun ename => R_error ename) l else
  if t =? Tflush then reading u16f (fun oldtag => T_flush oldtag) l else
  if t =? Rflush then reading empty (fun _ => R_flush) l else
  if t =? Twalk then reading (pair u32f (pair u32f (many text))) (fun '(fid, (newfid, wnames)) => T_walk fid newfid wnames) l else
  if t =? Rwalk then reading (many qidf) (fun wqids => R_walk wqids) l else
  if t =? Topen then reading (pair u32f u8f) (fun '(fid, mode) => T_open fid mode) l else
  if t =? Ropen then reading (pair qidf u32f) (fun '(qid, iounit) => R_open qid iounit) l else
  if t =? Tcreate then reading (pair u32f (pair text (pair u32f u8f))) (fun '(fid, (name, (perm, mode))) => T_create fid name perm mode) l else
  if t =? Rcreate then reading (pair qidf u32f) (fun '(qid, iounit) => R_create qid iounit) l else
  if t =? Tread then reading (pair u32f (pair signed64 u32f)) (fun '(fid, (offset, count)) => T_read fid offset count) l else
  if t =? Rread then reading bulk (fun data => R_read data) l else
  if t =? Twrite then reading (pair u32f (pair signed64 bulk)) (fun '(fid, (offset, data)) => T_write fid offset data) l else
  if t =? Rwrite then reading u32f (fun count => R_write count) l else
  if t =? Tclunk then reading u32f (fun fid => T_clunk fid) l else
  if t =? Rclunk then reading empty (fun _ => R_clunk) l else
  if t =? Tremove then reading u32f (fun fid => T_remove fid) l else
  if t =? Rremove then reading empty (fun _ => R_remove) l else
  if t =? Tstat then reading u32f (fun fid => T_stat fid) l else
  if t =? Rstat then reading text (fun stat => R_stat stat) l else
  if t =? Twstat then reading (pair u32f text) (fun '(fid, stat) => T_wstat fid stat) l else
  if t =? Rwstat then reading empty (fun _ => R_wstat) l else
  None.

Lemma parse_body_complete m r : valid m -> parse_body (code m) (body m ++ r) = Some (m, r).
Proof. destruct m; intros H; unfold valid, body in *; cbn [layout] in *; unfold parse_body; cbn [code Z.eqb Pos.eqb]; unfold reading; by rewrite (get_put _ _ _ H). Qed.

Lemma reading_some {A} (f : format A) make l m r : bytes l -> reading f make l = Some (m, r) -> exists a, fits f a /\ m = make a /\ l = put f a ++ r.
Proof.
  intros Hl. unfold reading. destruct (get f l) as [[a l']|] eqn:E; [|done]. cbn. intros [= <- <-]. destruct (put_get f _ _ _ Hl E) as [H1 H2]. by exists a.
Qed.

Lemma parse_body_sound t l m r : bytes l -> parse_body t l = Some (m, r) -> valid m /\ code m = t /\ l = body m ++ r.
Proof.
  intros Hl. unfold parse_body.
  repeat match goal with |- context [if t =? ?c then _ else _] =>
    destruct (Z.eqb_spec t c) as [->|_]; [intros H; destruct (reading_some _ _ _ _ _ Hl H) as (a & Ha & -> & ->); repeat match goal with x : _ * _ |- _ => destruct x end; by split_and!|] end.
  done.
Qed.
