(* ===== verification/NineSend.v ===== *)
(** * 9P messages: the encoder writes the format (convS2M.c)

    Behind the bytes [c] that were written the block goes on with [l]; the pointer is at the end of [c]. *)

From Stdlib Require Import ZArith Lia.
From stdpp Require Import base numbers list strings.
From S2P Require Import Prelude NineCall NineWire.

Open Scope Z_scope.

(** The length of a list as an offset. *)
Abbreviation len l := (Z.of_nat (length l)).

Lemma len_app {A} (a b : list A) : len (a ++ b) = len a + len b.
Proof. rewrite length_app. lia. Qed.

Lemma drop_cons {A} (l : list A) i x r : drop i l = x :: r -> l !! i = Some x /\ drop (S i) l = r.
Proof.
  intros E. split; [by rewrite <- (Nat.add_0_r i), <- lookup_drop, E|]. replace (S i) with (i + 1)%nat by lia. by rewrite <- drop_drop, E.
Qed.

(** ** Writing *)

Section writing.
Context {ADDR : addresses}.

Lemma put_bytes_run c l s p fuel : p = len c -> (length s <= length l)%nat -> put_bytes p s fuel (c ++ l) = Ok tt ((c ++ s) ++ drop (length s) l).
Proof using Type.
  intros -> Hl. unfold put_bytes, mbind, prog_bind, get_state. rewrite len_app.
  destruct (Z.ltb_spec (len c) 0), (Z.ltb_spec (len c + len l) (len c + len s)); try lia. cbn [orb]. unfold set_state. f_equal.
  unfold splice. rewrite Nat2Z.id, take_app_length, drop_app_add, app_assoc. done.
Qed.

(** [x] writes [s] at the pointer and gives the pointer behind. *)
Definition writes (x : Z -> B Z) (s : list Z) : Prop :=
  forall c l fuel, (length s <= length l)%nat -> x (len c) fuel (c ++ l) = Ok (len (c ++ s)) ((c ++ s) ++ drop (length s) l).

Lemma writes_nothing : writes (fun p => mret p) [].
Proof using Type. intros c l fuel _. by rewrite !app_nil_r. Qed.

Lemma writes_then x y s t : writes x s -> writes y t -> writes (fun p => x p ≫= y) (s ++ t).
Proof using Type.
  intros Hx Hy c l fuel H. rewrite length_app in H. unfold mbind, prog_bind. rewrite Hx by lia. rewrite Hy by (rewrite length_drop; lia).
  by rewrite drop_drop, !app_assoc, (length_app s t), (length_app (c ++ s) t).
Qed.

Lemma writes_bytes s n : n = len s -> writes (fun p => put_bytes p s;; mret (p + n)) s.
Proof using Type. intros -> c l fuel H. unfold mbind, prog_bind. rewrite put_bytes_run by done. unfold mret, prog_ret. by rewrite len_app. Qed.

Lemma put_byte_run c l v p fuel : p = len c -> (1 <= length l)%nat -> put_byte p v fuel (c ++ l) = Ok tt ((c ++ [v mod 256]) ++ drop 1 l).
Proof using Type. intros Hp Hl. by apply put_bytes_run. Qed.

Lemma shifted v n : (Z.shiftr v (8 * Z.of_nat (S n))) mod 256 = (v / 256 / 256 ^ Z.of_nat n) mod 256.
Proof using Type.
  rewrite Z.shiftr_div_pow2 by lia. f_equal. rewrite Z.div_div by (try lia; apply Z.pow_pos_nonneg; lia). f_equal.
  change 256 with (2 ^ 8). rewrite <- Z.pow_mul_r, <- Z.pow_add_r by lia. f_equal. lia.
Qed.

(** The bytes of a number, one after the other. *)
Fixpoint byte_run (n : nat) (c l : list Z) (v : Z) : list Z :=
  match n with O => c ++ l | S n => byte_run n (c ++ [v mod 256]) (drop 1 l) (v / 256) end.

Lemma byte_run_le n : forall c l v, byte_run n c l v = (c ++ le n v) ++ drop n l.
Proof using Type.
  induction n as [|n IH]; intros c l v; cbn [byte_run le]; [by rewrite app_nil_r|]. rewrite IH, drop_drop, <- !app_assoc. done.
Qed.

Lemma PBIT8_run c l v p fuel : p = len c -> (1 <= length l)%nat -> PBIT8 p v fuel (c ++ l) = Ok tt ((c ++ le 1 v) ++ drop 1 l).
Proof using Type. intros. by apply put_byte_run. Qed.

Lemma shift_div v i k : 0 <= k -> i = 8 + k -> Z.shiftr v i = Z.shiftr (v / 256) k.
Proof using Type. intros Hk ->. rewrite !Z.shiftr_div_pow2 by lia. rewrite Z.pow_add_r by lia. rewrite Z.div_div by lia. done. Qed.

Ltac next_byte := rewrite put_byte_run by (rewrite ?len_app, ?length_drop; cbn [length]; lia); cbv beta iota.

Lemma PBIT16_run c l v p fuel : p = len c -> (2 <= length l)%nat -> PBIT16 p v fuel (c ++ l) = Ok tt ((c ++ le 2 v) ++ drop 2 l).
Proof using Type.
  intros -> Hl. rewrite <- byte_run_le. unfold PBIT16, mbind, prog_bind. do 2 next_byte. cbn [byte_run].
  by rewrite (shift_div v 8 0), Z.shiftr_0_r.
Qed.

Lemma PBIT32_run c l v p fuel : p = len c -> (4 <= length l)%nat -> PBIT32 p v fuel (c ++ l) = Ok tt ((c ++ le 4 v) ++ drop 4 l).
Proof using Type.
  intros -> Hl. rewrite <- byte_run_le. unfold PBIT32, mbind, prog_bind. do 4 next_byte. cbn [byte_run].
  rewrite (shift_div v 24 16), (shift_div v 16 8), (shift_div v 8 0) by lia.
  rewrite (shift_div _ 16 8), (shift_div _ 8 0) by lia. by rewrite (shift_div _ 8 0), !Z.shiftr_0_r.
Qed.

Lemma PBIT64_run c l v p fuel : p = len c -> (8 <= length l)%nat -> PBIT64 p v fuel (c ++ l) = Ok tt ((c ++ le 8 v) ++ drop 8 l).
Proof using Type.
  intros -> Hl. rewrite <- byte_run_le. unfold PBIT64, mbind, prog_bind. do 8 next_byte. cbn [byte_run].
  rewrite (shift_div v 56 48), (shift_div v 48 40), (shift_div v 40 32), (shift_div v 32 24), (shift_div v 24 16), (shift_div v 16 8), (shift_div v 8 0) by lia.
  rewrite (shift_div _ 48 40), (shift_div _ 40 32), (shift_div _ 32 24), (shift_div _ 24 16), (shift_div _ 16 8), (shift_div _ 8 0) by lia.
  rewrite (shift_div _ 40 32), (shift_div _ 32 24), (shift_div _ 24 16), (shift_div _ 16 8), (shift_div _ 8 0) by lia.
  rewrite (shift_div _ 32 24), (shift_div _ 24 16), (shift_div _ 16 8), (shift_div _ 8 0) by lia.
  rewrite (shift_div _ 24 16), (shift_div _ 16 8), (shift_div _ 8 0) by lia.
  rewrite (shift_div _ 16 8), (shift_div _ 8 0) by lia. by rewrite (shift_div _ 8 0), !Z.shiftr_0_r.
Qed.

Lemma writes_put8 v : writes (fun p => put8 p v) (le 1 v).
Proof using Type. intros c l fuel H. cbn [length le] in H. unfold put8, mbind, prog_bind. rewrite PBIT8_run by done. unfold mret, prog_ret. by rewrite len_app. Qed.
Lemma writes_put16 v : writes (fun p => put16 p v) (le 2 v).
Proof using Type. intros c l fuel H. cbn [length le] in H. unfold put16, mbind, prog_bind. rewrite PBIT16_run by done. unfold mret, prog_ret. by rewrite len_app. Qed.
Lemma writes_put32 v : writes (fun p => put32 p v) (le 4 v).
Proof using Type. intros c l fuel H. cbn [length le] in H. unfold put32, mbind, prog_bind. rewrite PBIT32_run by done. unfold mret, prog_ret. by rewrite len_app. Qed.
Lemma writes_put64 v : writes (fun p => put64 p v) (le 8 v).
Proof using Type. intros c l fuel H. cbn [length le] in H. unfold put64, mbind, prog_bind. rewrite PBIT64_run by done. unfold mret, prog_ret. by rewrite len_app. Qed.

(** ** Strings *)

(** What a pointer to characters points to, up to the NUL; nil is the empty string. *)
Fixpoint c_text (l : list Z) : option (list Z) :=
  match l with [] => None | c :: l => if c =? 0 then Some [] else s ← c_text l; Some (c :: s) end.
Definition text_of (s : option (list Z)) : option (list Z) := match s with None => Some [] | Some s => c_text s end.

Lemma c_text_length l s : c_text l = Some s -> c_length l = Some (len s) /\ take (length s) l = s /\ (length s <= length l)%nat.
Proof using Type.
  revert s. induction l as [|c l IH]; intros s; cbn [c_text c_length]; [done|]. destruct (c =? 0); [by intros [= <-]; split_and!; cbn; try lia|].
  destruct (c_text l) as [t|]; [|done]. cbn. intros [= <-]. destruct (IH t eq_refl) as (-> & E & H). cbn [mbind option_bind length]. split_and!; [|cbn; by rewrite E | lia].
  f_equal. lia.
Qed.

Lemma strlen_run {S} (w : S) l s fuel : c_text l = Some s -> strlen l fuel w = Ok (len s) w.
Proof using Type. intros H. unfold strlen. by rewrite (proj1 (c_text_length _ _ H)). Qed.

Lemma copy_in_run l s c b fuel : c_text l = Some s -> (length s <= length b)%nat -> copy_in (len c) l (len s) fuel (c ++ b) = Ok tt ((c ++ s) ++ drop (length s) b).
Proof using Type.
  intros Hs Hb. destruct (c_text_length _ _ Hs) as (_ & E & Hl). unfold copy_in. destruct (Z.ltb_spec (len l) (len s)); [lia|].
  rewrite Nat2Z.id, E. by apply put_bytes_run.
Qed.

Lemma writes_pstring o s : text_of o = Some s -> fits text s -> writes (fun p => pstring p o) (put text s).
Proof using Type.
  intros Hs [_ Hf] c l fuel H. unfold text in Hf. change (256 ^ Z.of_nat 2) with 65536 in Hf. unfold text, counted, put in *. destruct o as [b|].
  - cbn [text_of] in Hs. unfold pstring, mbind, prog_bind. rewrite (strlen_run _ _ _ _ Hs). unfold u32. rewrite Z.mod_small by lia.
    rewrite length_app, le_length in H. rewrite PBIT16_run by (done || lia). unfold BIT16SZ.
    replace (len c + 2) with (len (c ++ le 2 (len s))) by (rewrite len_app, le_length; lia).
    rewrite (copy_in_run _ _ _ _ _ Hs) by (rewrite length_drop; lia). unfold mret, prog_ret. rewrite drop_drop, <- app_assoc. f_equal; [rewrite !len_app; lia|].
    by rewrite (length_app (le 2 (len s))), le_length, <- !app_assoc.
  - injection Hs as <-. cbn [pstring length app] in *. unfold mbind, prog_bind. rewrite PBIT16_run by (done || (cbn in H; lia)). unfold mret, prog_ret, BIT16SZ. rewrite len_app. done.
Qed.

Lemma pqid_steps p q fuel w : pqid p q fuel w = (put8 p (qtype q) ≫= fun p => put32 p (vers q) ≫= fun p => put64 p (path q)) fuel w.
Proof using Type.
  unfold pqid, put8, put32, put64, mbind, prog_bind, mret, prog_ret. destruct (PBIT8 p (qtype q) fuel w) as [[] w1|]; [|done].
  by destruct (PBIT32 (p + BIT8SZ) (vers q) fuel w1) as [[] w2|].
Qed.

Lemma writes_pqid q : writes (fun p => pqid p q) (put qidf q).
Proof using Type.
  intros c l fuel H. rewrite pqid_steps. revert c l fuel H.
  apply (writes_then (fun p => put8 p (qtype q))); [apply writes_put8|]. apply (writes_then (fun p => put32 p (vers q))); [apply writes_put32 | apply writes_put64].
Qed.

(** Data with their number. *)
Lemma writes_data o s n : take (Z.to_nat n) (default [] o) = s -> len s = n -> writes (fun p => put_data p o n) s.
Proof using Type.
  intros Hs Hn c l fuel H. unfold put_data, copy_from, copy_in, mbind, prog_bind.
  assert (length s <= length (default [] o))%nat as Hl by (subst s; rewrite length_take; lia).
  destruct (Z.ltb_spec (len (default [] o)) n); [lia|]. rewrite Hs, put_bytes_run by done. unfold mret, prog_ret. rewrite len_app. by rewrite Hn.
Qed.

(** The elements of an array from [i] on. *)
Lemma writes_names f i ss : Forall2 (fun o s => text_of o = Some s) (take (length ss) (drop i (wname f))) ss -> Forall (fits text) ss ->
  writes (put_names (length ss) i f) (puts text ss).
Proof using Type.
  revert i. induction ss as [|s ss IH]; intros i H Hf; [apply writes_nothing|]. cbn [length put_names]. inversion Hf as [|? ? Hs Hss]; subst.
  destruct (drop i (wname f)) as [|o l] eqn:E; [inversion H|]. cbn [take length] in H. inversion H as [|? ? ? ? Ho Hl]; subst.
  destruct (drop_cons _ _ _ _ E) as [Hi Ed].
  unfold puts. cbn [map concat]. intros c b fuel Hb. unfold mbind at 1, prog_bind at 1. unfold element. rewrite Hi.
  apply (writes_then (fun p => pstring p o) (put_names (length ss) (S i) f)); [by apply writes_pstring | apply IH; by rewrite ?Ed | done].
Qed.

Lemma writes_qids f i qs : take (length qs) (drop i (wqid f)) = qs -> writes (put_qids (length qs) i f) (puts qidf qs).
Proof using Type.
  revert i. induction qs as [|q qs IH]; intros i H; [apply writes_nothing|]. cbn [length put_qids].
  destruct (drop i (wqid f)) as [|o l] eqn:E; [done|]. cbn [take length] in H. injection H as -> Hl.
  destruct (drop_cons _ _ _ _ E) as [Hi Ed].
  unfold puts. cbn [map concat]. intros c b fuel Hb. unfold mbind at 1, prog_bind at 1. unfold element. rewrite Hi.
  apply (writes_then (fun p => pqid p q) (put_qids (length qs) (S i) f)); [apply writes_pqid | apply IH; by rewrite Ed | done].
Qed.
End writing.

(** ** Messages from a struct *)

(** [n] bytes that a pointer points to; the names and qids that count. *)
Definition bytes_of (s : option (list Z)) (n : Z) : option (list Z) :=
  let l := default [] s in if (n <? 0) || (len l <? n) then None else Some (take (Z.to_nat n) l).
Definition names_of (f : Fcall (list Z)) : option (list (list Z)) :=
  if (nwname f <? 0) || (len (wname f) <? nwname f) then None else mapM text_of (take (Z.to_nat (nwname f)) (wname f)).
Definition qids_of (f : Fcall (list Z)) : option (list Qid) :=
  if (nwqid f <? 0) || (len (wqid f) <? nwqid f) then None else Some (take (Z.to_nat (nwqid f)) (wqid f)).

(** The message that the caller of the encoder means: the fields of its type. *)
Definition message_of (f : Fcall (list Z)) : option message :=
  let t := ftype f in
  if t =? Tversion then version ← text_of (version f); Some (T_version (msize f) version) else
  if t =? Rversion then version ← text_of (version f); Some (R_version (msize f) version) else
  if t =? Tauth then uname ← text_of (uname f); aname ← text_of (aname f); Some (T_auth (afid f) uname aname) else
  if t =? Rauth then Some (R_auth (aqid f)) else
  if t =? Tattach then uname ← text_of (uname f); aname ← text_of (aname f); Some (T_attach (fid f) (afid f) uname aname) else
  if t =? Rattach then Some (R_attach (qid f)) else
  if t =? Rerror then ename ← text_of (ename f); Some (R_error ename) else
  if t =? Tflush then Some (T_flush (oldtag f)) else
  if t =? Rflush then Some R_flush else
  if t =? Twalk then wnames ← names_of f; Some (T_walk (fid f) (newfid f) wnames) else
  if t =? Rwalk then wqids ← qids_of f; Some (R_walk wqids) else
  if t =? Topen then Some (T_open (fid f) (mode f)) else
  if t =? Ropen then Some (R_open (qid f) (iounit f)) else
  if t =? Tcreate then name ← text_of (name f); Some (T_create (fid f) name (perm f) (mode f)) else
  if t =? Rcreate then Some (R_create (qid f) (iounit f)) else
  if t =? Tread then Some (T_read (fid f) (offset f) (count f)) else
  if t =? Rread then data ← bytes_of (data f) (count f); Some (R_read data) else
  if t =? Twrite then data ← bytes_of (data f) (count f); Some (T_write (fid f) (offset f) data) else
  if t =? Rwrite then Some (R_write (count f)) else
  if t =? Tclunk then Some (T_clunk (fid f)) else
  if t =? Rclunk then Some R_clunk else
  if t =? Tremove then Some (T_remove (fid f)) else
  if t =? Rremove then Some R_remove else
  if t =? Tstat then Some (T_stat (fid f)) else
  if t =? Rstat then stat ← bytes_of (stat f) (nstat f); Some (R_stat stat) else
  if t =? Twstat then stat ← bytes_of (stat f) (nstat f); Some (T_wstat (fid f) stat) else
  if t =? Rwstat then Some R_wstat else
  None.

Lemma bytes_of_some s n l : bytes_of s n = Some l -> take (Z.to_nat n) (default [] s) = l /\ len l = n.
Proof. unfold bytes_of. destruct (Z.ltb_spec n 0), (Z.ltb_spec (len (default [] s)) n); try done. cbn [orb]. intros [= <-]. split; [done|]. rewrite length_take. lia. Qed.

Lemma names_of_some f ss : names_of f = Some ss -> nwname f = len ss /\ Forall2 (fun o s => text_of o = Some s) (take (length ss) (wname f)) ss.
Proof.
  unfold names_of. destruct (Z.ltb_spec (nwname f) 0), (Z.ltb_spec (len (wname f)) (nwname f)); try done. cbn [orb]. intros H1%mapM_Some.
  pose proof (Forall2_length _ _ _ H1) as E. rewrite length_take in E. assert (nwname f = len ss) as En by lia. split; [done|].
  by rewrite En, Nat2Z.id in H1.
Qed.

Lemma qids_of_some f qs : qids_of f = Some qs -> nwqid f = len qs /\ take (length qs) (wqid f) = qs.
Proof.
  unfold qids_of. destruct (Z.ltb_spec (nwqid f) 0), (Z.ltb_spec (len (wqid f)) (nwqid f)); try done. cbn [orb]. intros [= <-].
  rewrite length_take, Nat.min_l by lia. split; [lia | done].
Qed.

(** Goes to the case of the type. *)
Ltac at_case :=
  match goal with E : ftype _ = _ |- _ => rewrite E end;
  repeat match goal with |- context [Z.eqb ?a ?b] => let v := eval vm_compute in (Z.eqb a b) in change (Z.eqb a b) with v end;
  cbn [orb]; cbv iota beta zeta.

(** ** Sizes *)

Section sending.
Context {ADDR : addresses}.

Lemma put_text_length s : len (put text s) = 2 + len s.
Proof using Type. unfold text, counted, put. rewrite len_app, le_length. done. Qed.

Lemma stringsz_run {S} (w : S) o s fuel : text_of o = Some s -> fits text s -> stringsz o fuel w = Ok (len (put text s)) w.
Proof using Type.
  intros Hs [_ Hf]. change (256 ^ Z.of_nat 2) with 65536 in Hf. rewrite put_text_length. destruct o as [b|]; cbn [stringsz text_of] in *.
  - unfold mbind, prog_bind. rewrite (strlen_run _ _ _ _ Hs). unfold mret, prog_ret, u32, BIT16SZ. by rewrite Z.mod_small by lia.
  - by injection Hs as <-.
Qed.

Lemma u32_twice a b : u32 (u32 a + b) = u32 (a + b).
Proof using Type. unfold u32. by rewrite Zplus_mod_idemp_l. Qed.

Lemma names_size_run {S} (w : S) f fuel : forall ss i n, Forall2 (fun o s => text_of o = Some s) (take (length ss) (drop i (wname f))) ss -> Forall (fits text) ss ->
  exists x, names_size (length ss) i f n fuel w = Ok x w /\ u32 x = u32 (n + len (puts text ss)).
Proof using Type.
  induction ss as [|s ss IH]; intros i n H Hf; [exists n; split; [done | by rewrite Z.add_0_r]|]. cbn [length names_size]. inversion Hf as [|? ? Hs Hss]; subst.
  destruct (drop i (wname f)) as [|o l] eqn:E; [inversion H|]. cbn [take length] in H. inversion H as [|? ? ? ? Ho Hl]; subst.
  destruct (drop_cons _ _ _ _ E) as [Hi Ed].
  unfold mbind, prog_bind, element. rewrite Hi. unfold mret at 1, prog_ret at 1. cbv beta iota. rewrite (stringsz_run _ _ _ _ Ho Hs).
  destruct (IH (Datatypes.S i) (u32 (n + len (put text s))) ltac:(by rewrite Ed) Hss) as (x & -> & E2). exists x. split; [done|].
  rewrite E2, u32_twice. unfold puts. cbn [map concat]. rewrite len_app. f_equal. lia.
Qed.

(** *** The switches *)

(** [x] writes [s] at the pointer and gives the pointer behind, as an option. *)
Definition writes_all (x : Z -> B (option Z)) (s : list Z) : Prop :=
  forall c l fuel, (length s <= length l)%nat -> x (len c) fuel (c ++ l) = Ok (Some (len (c ++ s))) ((c ++ s) ++ drop (length s) l).

Lemma writes_all_ok x s : writes x s -> writes_all (fun p => p ← x p; mret (Some p)) s.
Proof using Type. intros H c l fuel Hl. unfold mbind, prog_bind. by rewrite H. Qed.

Lemma writes_all_then x y s t : writes x s -> writes_all y t -> writes_all (fun p => x p ≫= y) (s ++ t).
Proof using Type.
  intros Hx Hy c l fuel H. rewrite length_app in H. unfold mbind, prog_bind. rewrite Hx by lia. rewrite Hy by (rewrite length_drop; lia).
  by rewrite drop_drop, !app_assoc, (length_app s t), (length_app (c ++ s) t).
Qed.

(** What the two switches do with a message. *)
Record sends (f : Fcall (list Z)) (m : message) : Prop := Sends {
  code_is : ftype f = code m;
  sized : forall S (w : S) n fuel, sizes f n fuel w = Ok (Some (u32 (n + len (body m)))) w;
  written : writes_all (fields f) (body m)
}.

(** The size: the strings, and the rest is arithmetic. *)
Ltac body_size := unfold body; cbn [layout put pair]; unfold u8f, u16f, u32f, u64f, signed64, unsigned, empty; cbn [put fst snd]; rewrite ?length_app, ?length_nil, ?le_length; unfold u32, QIDSZ, BIT8SZ, BIT16SZ, BIT32SZ, BIT64SZ.
Lemma put_bulk_length s : len (put bulk s) = 4 + len s.
Proof using Type. unfold bulk, counted, put. rewrite len_app, le_length. done. Qed.

Lemma put_qid_length q : len (put qidf q) = 13.
Proof using Type. done. Qed.

Ltac sizing :=
  intros ? ? ? ?; unfold sizes; at_case; unfold mbind, prog_bind; erewrite ?stringsz_run by eassumption;
  unfold mret, prog_ret; do 2 f_equal; body_size; apply (f_equal (fun x => x mod 2 ^ 32)); rewrite ?len_app, ?put_text_length, ?put_bulk_length, ?put_qid_length, ?Nat2Z.inj_add, ?put_qid_length, ?put_text_length, ?put_bulk_length; lia.


(** Fields one after the other. *)
Lemma writes_bulk o s n : bytes_of o n = Some s -> writes (fun p => put32 p n ≫= fun p => put_data p o n) (put bulk s).
Proof using Type.
  intros [Hs Hn]%bytes_of_some. unfold bulk, counted, put. rewrite Hn. apply (writes_then (fun p => put32 p n)); [apply writes_put32 | by apply writes_data].
Qed.
Lemma writes_stat o s n : bytes_of o n = Some s -> writes (fun p => put16 p n ≫= fun p => put_data p o n) (put text s).
Proof using Type.
  intros [Hs Hn]%bytes_of_some. unfold text, counted, put. rewrite Hn. apply (writes_then (fun p => put16 p n)); [apply writes_put16 | by apply writes_data].
Qed.
Lemma writes_all_nothing : writes_all (fun p => mret (Some p)) [].
Proof using Type. intros c l fuel _. by rewrite !app_nil_r. Qed.

Ltac write_next :=
  first [ apply writes_put8 | apply writes_put16 | apply writes_put32 | apply writes_put64
        | apply writes_pqid | apply writes_pstring; eassumption | apply writes_bulk; eassumption | apply writes_stat; eassumption
        | match goal with |- writes (fun p => @?x p ≫= ?y) (?s ++ ?t) => apply (writes_then x y s t) end ].
Ltac writing :=
  unfold fields; at_case; unfold body; cbn [layout put pair fst snd];
  first [ apply writes_all_ok; repeat write_next | apply writes_all_nothing ].

Lemma puts_qids_length qs : len (puts qidf qs) = len qs * 13.
Proof using Type. induction qs as [|q qs IH]; [done|]. unfold puts in *. cbn [map concat length]. rewrite len_app, IH. cbn. lia. Qed.

(** The parts of a message from the fields of its type. *)
Ltac parts :=
  repeat match goal with
  | |- context [text_of ?o ≫= _] => destruct (text_of o) eqn:?; [|done]
  | |- context [bytes_of ?o ?n ≫= _] => destruct (bytes_of o n) eqn:?; [|done]
  end;
  cbn [mbind option_bind]; intros [= <-] H; unfold valid in H; cbn [layout fits pair fst snd] in H;
  repeat match goal with H : _ /\ _ |- _ => destruct H end;
  repeat match goal with H : bytes_of _ _ = Some _ |- _ => pose proof (proj2 (bytes_of_some _ _ _ H)); revert H end; intros.

Ltac by_parts := parts; constructor; [done | sizing | writing].

Lemma walk_sends f m : ftype f = Twalk -> (wnames ← names_of f; Some (T_walk (fid f) (newfid f) wnames)) = Some m -> valid m -> sends f m.
Proof using Type.
  intros E. destruct (names_of f) as [ss|] eqn:Hn; [|done]. apply names_of_some in Hn as [Hn Hs]. cbn [mbind option_bind]. intros [= <-] (Hf & Hg & Hss & Hl). cbn [fst snd] in *. constructor; [done| |].
  - intros S w n fuel. unfold sizes. at_case. rewrite Hn, Nat2Z.id. unfold mbind, prog_bind.
    destruct (names_size_run w f fuel ss 0 (n + BIT32SZ + BIT32SZ + BIT16SZ) Hs Hss) as (x & -> & E2). unfold mret, prog_ret. rewrite E2. do 2 f_equal.
    unfold body. cbn [layout put pair many fst snd]. rewrite !len_app, le_length. unfold u32, BIT16SZ, BIT32SZ. apply (f_equal (fun x => x mod 2 ^ 32)). cbn [put u32f unsigned]. rewrite !le_length. lia.
  - unfold fields. at_case. rewrite Hn, Nat2Z.id. destruct (Z.ltb_spec MAXWELEM (len ss)); [lia|]. unfold body. cbn [layout put pair many fst snd].
    apply (writes_all_then (fun p => put32 p (fid f))); [apply writes_put32|]. apply (writes_all_then (fun p => put32 p (newfid f))); [apply writes_put32|].
    apply (writes_all_then (fun p => put16 p (len ss))); [apply writes_put16|]. apply (writes_all_ok (put_names (length ss) 0 f)). by apply writes_names.
Qed.

Lemma walked_sends f m : ftype f = Rwalk -> (wqids ← qids_of f; Some (R_walk wqids)) = Some m -> valid m -> sends f m.
Proof using Type.
  intros E. destruct (qids_of f) as [qs|] eqn:Hq; [|done]. apply qids_of_some in Hq as [Hn Hq]. cbn [mbind option_bind]. intros [= <-] (Hqs & Hl). constructor; [done| |].
  - intros S w n fuel. unfold sizes. at_case. rewrite Hn. unfold mret, prog_ret. do 2 f_equal. unfold body. cbn [layout put many]. rewrite len_app, le_length, puts_qids_length. unfold QIDSZ, BIT8SZ, BIT16SZ, BIT32SZ, BIT64SZ. f_equal. lia.
  - unfold fields. at_case. rewrite Hn, Nat2Z.id. destruct (Z.ltb_spec MAXWELEM (len qs)); [lia|]. unfold body. cbn [layout put many].
    apply (writes_all_then (fun p => put16 p (len qs))); [apply writes_put16|]. apply (writes_all_ok (put_qids (length qs) 0 f)). by apply writes_qids.
Qed.

Lemma message_of_sends f m : message_of f = Some m -> valid m -> sends f m.
Proof using Type.
  unfold message_of.
  repeat match goal with |- context [if ftype f =? ?c then _ else _] =>
    destruct (Z.eqb_spec (ftype f) c) as [E|_]; [first [by apply walk_sends | by apply walked_sends | by_parts]|] end.
  done.
Qed.

(** ** The encoder *)

Lemma convS2M_spec f m nap b fuel : message_of f = Some m -> valid m -> 0 <= tag f < 65536 -> len (wire (tag f) m) < 2 ^ 32 -> nap <= len b ->
  convS2M f nap fuel b =
  if nap <? len (wire (tag f) m) then Ok 0 b else Ok (len (wire (tag f) m)) (wire (tag f) m ++ drop (length (wire (tag f) m)) b).
Proof using Type.
  intros Hm Hv Ht Hw Hb. destruct (message_of_sends _ _ Hm Hv) as [Ec Es Ew].
  assert (len (wire (tag f) m) = 7 + len (body m)) as El by (unfold wire; rewrite !len_app, !le_length; lia). rewrite El in *.
  unfold convS2M, sizeS2M, mbind, prog_bind. rewrite Es. unfold mret, prog_ret. cbn [default from_option]. unfold BIT32SZ, BIT8SZ, BIT16SZ.
  change (4 + 1 + 2) with 7. unfold id, u32. rewrite Z.mod_small by lia. destruct (Z.eqb_spec (7 + len (body m)) 0); [lia|].
  destruct (Z.ltb_spec nap (7 + len (body m))); [done|].
  assert (writes_all (fun p => put32 p (7 + len (body m)) ≫= fun p => put8 p (ftype f) ≫= fun p => put16 p (tag f) ≫= fun p => fields f p) (wire (tag f) m)) as W.
  { rewrite Ec. unfold wire. apply (writes_all_then (fun p => put32 p _)); [apply writes_put32|]. apply (writes_all_then (fun p => put8 p _)); [apply writes_put8|].
    by apply (writes_all_then (fun p => put16 p _)); [apply writes_put16|]. }
  unfold mbind, prog_bind in W. specialize (W [] b fuel ltac:(rewrite Nat2Z.inj_le; lia)). cbn [app length] in W. change (Z.of_nat 0) with 0 in W.
  destruct (put32 0 _ fuel b) as [p1 b1|]; [|done]. destruct (put8 p1 _ fuel b1) as [p2 b2|]; [|done]. destruct (put16 p2 _ fuel b2) as [p3 b3|]; [|done].
  rewrite W, El, Z.eqb_refl. done.
Qed.

Lemma convS2M_unknown f nap b fuel : (forall m, code m <> ftype f) -> convS2M f nap fuel b = Ok 0 b.
Proof using Type.
  intros H. unfold convS2M, sizeS2M, mbind, prog_bind, sizes. let q := constr:(Mkqid 0 0 0) in
  let known m := (pose proof (not_eq_sym (H m)); cbn [code] in *) in
  known (T_version 0 []); known (R_version 0 []); known (T_auth 0 [] []); known (R_auth q); known (T_attach 0 0 [] []); known (R_attach q); known (R_error []);
  known (T_flush 0); known R_flush; known (T_walk 0 0 []); known (R_walk []); known (T_open 0 0); known (R_open q 0); known (T_create 0 [] 0 0); known (R_create q 0);
  known (T_read 0 0 0); known (R_read []); known (T_write 0 0 []); known (R_write 0); known (T_clunk 0); known R_clunk; known (T_remove 0); known R_remove;
  known (T_stat 0); known (R_stat []); known (T_wstat 0 []); known R_wstat.
  repeat match goal with H : ftype f <> ?c |- context [ftype f =? ?c] => rewrite (proj2 (Z.eqb_neq (ftype f) c) H) end. done.
Qed.
End sending.
