(* ===== verification/NineReceive.v ===== *)
(** * 9P messages: the decoder accepts the format (convM2S.c)

    Behind the bytes [c] that were read the block goes on with [l] and then with what is not the message's; the pointer is at the end of [c]. *)

From Stdlib Require Import ZArith Lia.
From stdpp Require Import base numbers list strings.
From S2P Require Import Prelude NineCall NineWire NineSend.

Open Scope Z_scope.

(** ** Numbers *)

Lemma two_bytes a b : is_byte a -> Z.lor a (Z.shiftl b 8) = unle [a; b].
Proof. intros Ha. rewrite lor_byte by done. cbn. lia. Qed.

Lemma four_bytes a b c d : is_byte a -> is_byte b -> is_byte c -> is_byte d ->
  Z.lor (Z.lor (Z.lor a (Z.shiftl b 8)) (Z.shiftl c 16)) (Z.shiftl d 24) = unle [a; b; c; d].
Proof. unfold is_byte. intros Ha Hb Hc Hd. rewrite (lor_shiftl 8) by lia. rewrite (lor_shiftl 16) by lia. rewrite (lor_shiftl 24) by lia. cbn [unle]. lia. Qed.

Lemma unle_app a b : unle (a ++ b) = unle a + 256 ^ len a * unle b.
Proof. induction a as [|c a IH]; [cbn [app unle length]; lia|]. cbn [app unle length]. rewrite IH, pow_256_S. lia. Qed.

Lemma u32_wrap32 z : 0 <= z < 2 ^ 32 -> u32 (wrap32 z) = z.
Proof. intros H. unfold u32, wrap32. rewrite Zminus_mod_idemp_l. rewrite Z.add_simpl_r. by apply Z.mod_small. Qed.

(** Two halves as a vlong. *)
Lemma halves l h : 0 <= l < 2 ^ 32 -> 0 <= h < 2 ^ 32 -> Z.lor l (wrap64 (Z.shiftl (wrap32 h) 32)) = wrap64 (l + 4294967296 * h).
Proof.
  intros Hl Hh. assert (-2147483648 <= wrap32 h < 2147483648) as Hw by (unfold wrap32; pose proof (Z.mod_pos_bound (h + 2147483648) 4294967296); lia).
  rewrite wrap64_id by (rewrite Z.shiftl_mul_pow2 by lia; change (2 ^ 32) with 4294967296; unfold int64; lia). rewrite lor_shiftl by lia.
  change (2 ^ 32) with 4294967296 in *. unfold wrap32, wrap64 in *.
  destruct (Z.ltb_spec h 2147483648).
  - rewrite (Z.mod_small (h + _)) by lia. rewrite Z.mod_small by lia. lia.
  - rewrite <- (Z.mod_unique (h + 2147483648) 4294967296 1 (h - 2147483648)) by lia.
    rewrite <- (Z.mod_unique (l + 4294967296 * h + 9223372036854775808) 18446744073709551616 1 (l + 4294967296 * h - 9223372036854775808)) by lia. lia.
Qed.

Section reading.
Context {ADDR : addresses}.

Lemma byte_run_at c l i v p fuel : p = len c + Z.of_nat i -> l !! i = Some v -> byte p fuel (c ++ l) = Ok v (c ++ l).
Proof using Type.
  intros -> Hl. unfold byte, mbind, prog_bind, get_state. destruct (Z.ltb_spec (len c + Z.of_nat i) 0); [lia|].
  replace (Z.to_nat (len c + Z.of_nat i)) with (length c + i)%nat by lia. rewrite lookup_app_r by lia. replace (length c + i - length c)%nat with i by lia. by rewrite Hl.
Qed.

Ltac read_byte i := match goal with |- context [byte ?p ?fuel (?c ++ ?l)] => rewrite (byte_run_at c l i _ p fuel ltac:(lia) eq_refl) end; cbv beta iota.

Lemma GBIT8_run c a r fuel : length a = 1%nat -> GBIT8 (len c) fuel (c ++ a ++ r) = Ok (unle a) (c ++ a ++ r).
Proof using Type. destruct a as [|x [|]]; try done. intros _. unfold GBIT8. read_byte 0%nat. f_equal. cbn. lia. Qed.

Lemma GBIT16_run c a r fuel : length a = 2%nat -> bytes a -> GBIT16 (len c) fuel (c ++ a ++ r) = Ok (unle a) (c ++ a ++ r).
Proof using Type.
  destruct a as [|x [|y [|]]]; try done. intros _ H. apply Forall_cons in H as [Hx _]. unfold GBIT16, mbind, prog_bind. read_byte 0%nat. read_byte 1%nat.
  unfold mret, prog_ret. by rewrite two_bytes.
Qed.

Lemma int_of_run c a r p fuel : p = len c -> length a = 4%nat -> bytes a -> int_of p fuel (c ++ a ++ r) = Ok (wrap32 (unle a)) (c ++ a ++ r).
Proof using Type.
  intros ->. destruct a as [|x [|y [|z [|v [|]]]]]; try done. intros _ H. apply Forall_cons in H as [Hx H]. apply Forall_cons in H as [Hy H]. apply Forall_cons in H as [Hz H]. apply Forall_cons in H as [Hv _].
  unfold int_of, mbind, prog_bind. read_byte 0%nat. read_byte 1%nat. read_byte 2%nat. read_byte 3%nat. unfold mret, prog_ret. by rewrite four_bytes.
Qed.

Lemma GBIT32_run c a r fuel : length a = 4%nat -> bytes a -> GBIT32 (len c) fuel (c ++ a ++ r) = Ok (unle a) (c ++ a ++ r).
Proof using Type.
  intros Ha Hb. unfold GBIT32, mbind, prog_bind. rewrite int_of_run by done. unfold mret, prog_ret. pose proof (unle_range a Hb) as Hr. rewrite Ha in Hr. by rewrite u32_wrap32.
Qed.

Lemma GBIT64_run c a r fuel : length a = 8%nat -> bytes a -> GBIT64 (len c) fuel (c ++ a ++ r) = Ok (wrap64 (unle a)) (c ++ a ++ r).
Proof using Type.
  intros Ha Hb. rewrite <- (take_drop 4 a) in Hb |- *. apply bytes_app in Hb as [Hb1 Hb2].
  assert (length (take 4 a) = 4%nat) as H1 by (rewrite length_take; lia). assert (length (drop 4 a) = 4%nat) as H2 by (rewrite length_drop; lia).
  pose proof (unle_range _ Hb1) as R1. pose proof (unle_range _ Hb2) as R2. rewrite H1 in R1. rewrite H2 in R2.
  unfold GBIT64, mbind, prog_bind. rewrite <- app_assoc, int_of_run by done. rewrite (app_assoc c), (int_of_run (c ++ take 4 a)) by (rewrite ?len_app; done || lia).
  unfold mret, prog_ret. rewrite u32_wrap32 by done. rewrite halves by done. rewrite unle_app, H1. by rewrite <- app_assoc.
Qed.
(** *** Text that moves down *)

Lemma drop_one_more {A} (x : A) s r : exists z, drop (length s) (x :: s ++ r) = [z] ++ r.
Proof using Type.
  change (x :: s ++ r) with ((x :: s) ++ r). rewrite drop_app_le by (cbn; lia).
  pose proof (length_drop (x :: s) (length s)) as E. destruct (drop (length s) (x :: s)) as [|z [|]]; cbn [length] in E; [lia | by exists z | lia].
Qed.

Lemma get_bytes_run c s r p n fuel : p = len c -> n = len s -> get_bytes p n fuel (c ++ s ++ r) = Ok s (c ++ s ++ r).
Proof using Type.
  intros -> ->. unfold get_bytes, mbind, prog_bind, get_state. rewrite !len_app. destruct (Z.ltb_spec (len c) 0), (Z.ltb_spec (len c + (len s + len r)) (len c + len s)); try lia.
  cbn [orb]. unfold mret, prog_ret. by rewrite !Nat2Z.id, drop_app_length, take_app_length.
Qed.

(** The text moves down by one byte, and a NUL goes behind it. *)
Lemma move_down c x y s r fuel : exists w, put_bytes (len c + 1) s fuel (c ++ [x; y] ++ s ++ r) = Ok tt w /\
  forall p, p = len c + 1 + len s -> put_byte p 0 fuel w = Ok tt ((c ++ [x] ++ s ++ [0]) ++ r).
Proof using Type.
  destruct (drop_one_more y s r) as [z Ez]. eexists. split.
  - change (c ++ [x; y] ++ s ++ r) with (c ++ [x] ++ y :: s ++ r). rewrite app_assoc. apply put_bytes_run; [rewrite len_app; done | cbn [length]; rewrite length_app; lia].
  - intros p ->. rewrite Ez. rewrite put_byte_run by (rewrite ?len_app; cbn [length app]; lia). by rewrite <- !app_assoc.
Qed.

Lemma take_insert_last {A} (w : list A) i o : (i < length w)%nat -> take (Datatypes.S i) (<[i := o]> w) = take i w ++ [o].
Proof using Type. intros H. erewrite take_S_r by (by apply list_lookup_insert_eq). by rewrite take_insert_ge by lia. Qed.

End reading.

(** ** What is held

    A string or data is at an offset; what is written behind does not change it. *)

Definition at_offset (c : list Z) (s : Z) (x : list Z) : Prop := exists a b, c = a ++ x ++ b /\ s = len a.
Definition string_at (c : list Z) (o : option Z) (x : list Z) : Prop := match o with None => False | Some s => at_offset c s (x ++ [0]) end.
Definition bytes_at (c : list Z) (o : option Z) (x : list Z) : Prop := match o with None => False | Some s => at_offset c s x end.

Lemma at_offset_app c d s x : at_offset c s x -> at_offset (c ++ d) s x.
Proof. intros (a & b & -> & ->). exists a, (b ++ d). by rewrite <- !app_assoc. Qed.
Lemma string_at_app c d o x : string_at c o x -> string_at (c ++ d) o x.
Proof. destruct o; [apply at_offset_app | done]. Qed.
Lemma bytes_at_app c d o x : bytes_at c o x -> bytes_at (c ++ d) o x.
Proof. destruct o; [apply at_offset_app | done]. Qed.
Create HintDb nine.
#[export] Hint Resolve string_at_app bytes_at_app : nine.

(** The struct holds the message, with the block before the pointer. *)
Definition holds (c : list Z) (f : Fcall Z) (m : message) : Prop :=
  match m with
  | T_version n v | R_version n v => msize f = n /\ string_at c (version f) v
  | T_auth a u n => afid f = a /\ string_at c (uname f) u /\ string_at c (aname f) n
  | R_auth q => aqid f = q
  | T_attach i a u n => fid f = i /\ afid f = a /\ string_at c (uname f) u /\ string_at c (aname f) n
  | R_attach q => qid f = q
  | R_error e => string_at c (ename f) e
  | T_flush o => oldtag f = o
  | T_walk i n ws => fid f = i /\ newfid f = n /\ nwname f = len ws /\ Forall2 (string_at c) (take (length ws) (wname f)) ws
  | R_walk qs => nwqid f = len qs /\ take (length qs) (wqid f) = qs
  | T_open i o => fid f = i /\ mode f = o
  | R_open q u | R_create q u => qid f = q /\ iounit f = u
  | T_create i n p o => fid f = i /\ string_at c (name f) n /\ perm f = p /\ mode f = o
  | T_read i o n => fid f = i /\ offset f = o /\ count f = n
  | R_read d => count f = len d /\ bytes_at c (data f) d
  | T_write i o d => fid f = i /\ offset f = o /\ count f = len d /\ bytes_at c (data f) d
  | R_write n => count f = n
  | T_clunk i | T_remove i | T_stat i => fid f = i
  | R_stat s => nstat f = len s /\ bytes_at c (stat f) s
  | T_wstat i s => fid f = i /\ nstat f = len s /\ bytes_at c (stat f) s
  | R_flush | R_clunk | R_remove | R_wstat => True
  end.

(** ** Steps *)

Section receiving.
Context {ADDR : addresses}.

(** The message's bytes end at [nap]; behind them is [t].  No pointer that is computed is beyond the address space. *)
Context (nap : Z) (t : list Z) (f0 : Fcall Z).
Context (BASE : 0 <= base) (ROOM : base + nap + 2 ^ 32 <= 2 ^ width).

Lemma address_run p : 0 <= p < nap + 2 ^ 32 -> address p = base + p.
Proof using BASE ROOM. intros H. unfold address. apply Z.mod_small. lia. Qed.
Lemma plus_run p n : 0 <= p + n < nap + 2 ^ 32 -> plus p n = p + n.
Proof using BASE ROOM. intros H. unfold plus. rewrite address_run by done. lia. Qed.
Lemma above_run p q : 0 <= p < nap + 2 ^ 32 -> 0 <= q < nap + 2 ^ 32 -> above p q = (q <? p).
Proof using BASE ROOM. intros Hp Hq. unfold above. rewrite !address_run by done. destruct (Z.ltb_spec (base + q) (base + p)), (Z.ltb_spec q p); lia. Qed.

(** The block where the pointer is behind [c] and [l] is left of the message. *)
Record here (c l : list Z) : Prop := Here { left_of : len c + len l = nap; are_bytes : bytes l }.

Lemma here_next c l d r : here c l -> bytes r -> len d + len r = len l -> here (c ++ d) r.
Proof using BASE ROOM. intros [H1 _] H2 H3. constructor; [rewrite len_app; lia | done]. Qed.

(** The outcome when the parser gives [P]. *)
Definition good (o : outcome (list Z) decoded) (P : option (message * list Z)) : Prop :=
  match P with
  | Some (m, r) => exists f c, o = Ok (f, Some (len c)) (c ++ r ++ t) /\ holds c f m /\ ftype f = ftype f0 /\ tag f = tag f0 /\ len c + len r = nap
  | None => exists f b, o = Ok (f, None) b /\ len b = nap + len t
  end.

Lemma good_none f c l : here c l -> good (Ok (f, None) (c ++ l ++ t)) None.
Proof using BASE ROOM. intros [H _]. exists f, (c ++ l ++ t). split; [done|]. rewrite !len_app. lia. Qed.

Lemma good_done {A} (make : A -> message) f c l a fuel : here c l -> holds c f (make a) -> ftype f = ftype f0 -> tag f = tag f0 ->
  good (done_at f (len c) fuel (c ++ l ++ t)) (Some (make a, l)).
Proof using BASE ROOM. intros [H _] Hh Hf Ht. by exists f, c. Qed.

Lemma reading_pair {A1 A2} (f1 : format A1) (f2 : format A2) make l :
  reading (pair f1 f2) make l = match get f1 l with Some (a, r) => reading f2 (fun b => make (a, b)) r | None => None end.
Proof using BASE ROOM.
  unfold reading. cbn [get pair]. destruct (get f1 l) as [[a r]|]; [|done]. cbn [mbind option_bind fst snd]. by destruct (get f2 r) as [[b r']|].
Qed.

(** A value alone is one with nothing behind it. *)
Lemma reading_last {A} (f : format A) make l : reading f make l = reading (pair f empty) (fun x => make x.1) l.
Proof using BASE ROOM. rewrite reading_pair. unfold reading. by destruct (get f l) as [[a r]|]. Qed.

(** *** A format that is [n] bytes long at least *)

Definition at_least {A} (f : format A) (n : Z) : Prop := forall a, n <= len (put f a).

Lemma at_least_short {A} (f : format A) n make l : at_least f n -> bytes l -> len l < n -> reading f make l = None.
Proof using BASE ROOM.
  intros Hn Hl Hs. destruct (reading f make l) as [[m r]|] eqn:E; [|done]. destruct (reading_some _ _ _ _ _ Hl E) as (a & _ & _ & ->).
  specialize (Hn a). rewrite len_app in Hs. lia.
Qed.
Lemma at_least_unsigned n k : k = Z.of_nat n -> at_least (unsigned n) k.
Proof using BASE ROOM. intros -> a. cbn [put unsigned]. by rewrite le_length. Qed.
Lemma at_least_signed : at_least signed64 8.
Proof using BASE ROOM. intros a. cbn [put signed64]. by rewrite le_length. Qed.
Lemma at_least_counted n k : k = Z.of_nat n -> at_least (counted n) k.
Proof using BASE ROOM. intros -> a. cbn [put counted]. rewrite len_app, le_length. lia. Qed.
Lemma at_least_many {A} (f : format A) : at_least (many f) 2.
Proof using BASE ROOM. intros a. cbn [put many]. rewrite len_app, le_length. lia. Qed.
Lemma at_least_pair {A1 A2} (f1 : format A1) (f2 : format A2) m n k : at_least f1 m -> at_least f2 n -> k <= m + n -> at_least (pair f1 f2) k.
Proof using BASE ROOM. intros H1 H2 Hk [a b]. cbn [put pair fst snd]. rewrite len_app. specialize (H1 a). specialize (H2 b). lia. Qed.
Lemma at_least_any {A} (f : format A) : at_least f 0.
Proof using BASE ROOM. intros a. lia. Qed.

(** *** Strings and qids *)

Lemma gstring_run c l fuel : here c l ->
  match get text l with
  | Some (s, r) => exists d, gstring (len c) nap fuel (c ++ l ++ t) = Ok (Some (len c + 1, len (c ++ d))) ((c ++ d) ++ r ++ t) /\
                   string_at (c ++ d) (Some (len c + 1)) s /\ here (c ++ d) r
  | None => gstring (len c) nap fuel (c ++ l ++ t) = Ok None (c ++ l ++ t)
  end.
Proof using BASE ROOM.
  intros [Hl Hb]. cbn [get text counted]. unfold gstring, BIT16SZ. rewrite plus_run, above_run by lia. cbn [get unsigned]. change (Z.of_nat 2) with 2.
  unfold split_at at 1 2. destruct (Z.ltb_spec nap (len c + 2)), (Z.ltb_spec (len l) 2); try lia; [done|]. cbn [mbind option_bind fst snd].
  change (Z.to_nat 2) with 2%nat. rewrite <- (take_drop 2 l) in Hl, Hb |- *. assert (length (take 2 l) = 2%nat) as Ha by (rewrite length_take; lia).
  revert Ha Hl Hb. generalize (take 2 l) (drop 2 l). intros a l1 Ha Hl Hb. rewrite take_app_length', drop_app_length' by done. apply bytes_app in Hb as [Ba Bl].
  unfold mbind, prog_bind. rewrite <- app_assoc, GBIT16_run by done. pose proof (unle_range a Ba) as Hn. rewrite Ha in Hn. change (256 ^ Z.of_nat 2) with 65536 in Hn. rewrite len_app, Ha in Hl.
  change (2 - 1) with 1. unfold split_at. set (n := unle a) in *.
  rewrite (plus_run (len c) 1), (plus_run (len c + 1) n), (plus_run (len c + 1 + n) 1), (plus_run (len c + 1) 1), (plus_run (len c + 1) (n + 1)) by lia. rewrite above_run by lia.
  destruct (Z.ltb_spec nap (len c + 1 + n + 1)), (Z.ltb_spec (len l1) n); try lia; [done|].
  rewrite <- (take_drop (Z.to_nat n) l1) in Hl, Bl |- *. assert (len (take (Z.to_nat n) l1) = n) as Hs by (rewrite length_take; lia).
  revert Hs Hl Bl. generalize (take (Z.to_nat n) l1) (drop (Z.to_nat n) l1). intros s r Hs Hl Bl. rewrite take_app_length', drop_app_length' by lia. apply bytes_app in Bl as [_ Br].
  destruct a as [|x [|y [|]]]; try done. exists ([x] ++ s ++ [0]). rewrite len_app in Hl. rewrite !len_app. cbn [length].
  replace (c ++ [x; y] ++ (s ++ r) ++ t) with ((c ++ [x; y]) ++ s ++ r ++ t) by (by rewrite <- !app_assoc).
  rewrite get_bytes_run by (rewrite ?len_app; cbn [length]; lia). rewrite <- (app_assoc c). destruct (move_down c x y s (r ++ t) fuel) as (w & -> & ->); [|lia].
  unfold mret, prog_ret. split_and!; [do 3 f_equal; lia | | constructor; [rewrite !len_app; cbn [length]; lia | done]].
  exists (c ++ [x]), []. rewrite app_nil_r, <- !app_assoc, len_app. done.
Qed.

Lemma gqid_run c l fuel : here c l ->
  match get qidf l with
  | Some (q, r) => exists d, gqid (len c) nap fuel (c ++ l ++ t) = Ok (Some (q, len (c ++ d))) ((c ++ d) ++ r ++ t) /\ here (c ++ d) r
  | None => gqid (len c) nap fuel (c ++ l ++ t) = Ok None (c ++ l ++ t)
  end.
Proof using BASE ROOM.
  intros [Hl Hb]. unfold gqid. change QIDSZ with 13. rewrite plus_run, above_run by lia. cbn [get qidf pair u8f u32f u64f unsigned]. change (Z.of_nat 1) with 1. change (Z.of_nat 4) with 4. change (Z.of_nat 8) with 8.
  destruct (Z.ltb_spec nap (len c + 13)).
  - assert (len l < 13) as Hs by lia. unfold split_at. destruct (Z.ltb_spec (len l) 1); [done|]. cbn [mbind option_bind fst snd].
    rewrite length_drop. destruct (Z.ltb_spec (Z.of_nat (length l - Z.to_nat 1)) 4); [done|]. cbn [mbind option_bind fst snd]. rewrite !length_drop.
    destruct (Z.ltb_spec (Z.of_nat (length l - Z.to_nat 1 - Z.to_nat 4)) 8); [done | lia].
  - assert (exists a b d r, l = a ++ b ++ d ++ r /\ length a = 1%nat /\ length b = 4%nat /\ length d = 8%nat) as (a & b & d & r & -> & Ha & Hb4 & Hd).
    { exists (take 1 l), (take 4 (drop 1 l)), (take 8 (drop 4 (drop 1 l))), (drop 8 (drop 4 (drop 1 l))). rewrite !take_drop, !length_take, !length_drop. split_and!; [done | lia..]. }
    rewrite !len_app in Hl. apply bytes_app in Hb as [Ba Hb]. apply bytes_app in Hb as [Bb Hb]. apply bytes_app in Hb as [Bd Br].
    rewrite split_at_app by lia. cbn [mbind option_bind fst snd]. rewrite split_at_app by lia. cbn [mbind option_bind fst snd]. rewrite split_at_app by lia. cbn [mbind option_bind fst snd].
    unfold mbind, prog_bind. rewrite <- !app_assoc, GBIT8_run by done. unfold BIT8SZ, BIT32SZ, BIT64SZ.
    rewrite (plus_run (len c) 1), (plus_run (len c + 1) 4), (plus_run (len c + 1 + 4) 8) by lia.
    replace (len c + 1) with (len (c ++ a)) by (rewrite len_app; lia). rewrite (app_assoc c), GBIT32_run by done.
    replace (len (c ++ a) + 4) with (len ((c ++ a) ++ b)) by (rewrite (len_app (c ++ a)); lia). rewrite (app_assoc (c ++ a)), GBIT64_run by done.
    pose proof (unle_range _ Bd) as R. rewrite Hd in R. unfold mret, prog_ret. exists (a ++ b ++ d). rewrite !len_app, <- !app_assoc. split; [|constructor; [rewrite !len_app; lia | done]].
    do 3 f_equal; [|lia]. f_equal. unfold u64, wrap64. rewrite Zminus_mod_idemp_l, Z.add_simpl_r. by apply Z.mod_small.
Qed.

(** *** What a step does, and what the parser does *)

Lemma good_need {A} (fm : format A) make n f c l k fuel : here c l -> 0 <= n < 2 ^ 32 -> at_least fm n ->
  (n <= len l -> good (k fuel (c ++ l ++ t)) (reading fm make l)) -> good (need (len c) n nap f k fuel (c ++ l ++ t)) (reading fm make l).
Proof using BASE ROOM.
  intros H Hn Ha Hk. pose proof H as [Hl Hb]. unfold need. rewrite plus_run, above_run by lia. destruct (Z.ltb_spec nap (len c + n)); [|apply Hk; lia].
  rewrite (at_least_short _ _ _ _ Ha Hb) by lia. by apply good_none.
Qed.

(** A number of [n] bytes. *)
Section number.
Context (n : nat) (G : Z -> B Z) (fm : format Z) (dec : list Z -> Z).
Context (GET : forall l, get fm l = x ← split_at (Z.of_nat n) l; Some (dec x.1, x.2)).
Context (RUN : forall c a r fuel, length a = n -> bytes a -> G (len c) fuel (c ++ a ++ r) = Ok (dec a) (c ++ a ++ r)).

Lemma number_then (Q : Z -> list Z -> option (message * list Z)) (set : Z -> Fcall Z -> Fcall Z) f c l (k : Fcall Z -> Z -> B decoded) fuel : here c l -> Z.of_nat n <= len l ->
  (forall d a r, fits fm a -> here (c ++ d) r -> len r = len l - Z.of_nat n -> good (k (set a f) (len (c ++ d)) fuel ((c ++ d) ++ r ++ t)) (Q a r)) ->
  good ((v ← G (len c); k (set v f) (plus (len c) (Z.of_nat n))) fuel (c ++ l ++ t)) (x ← get fm l; Q x.1 x.2).
Proof using BASE ROOM GET RUN.
  intros [Hl Hb] Hn Hk. rewrite <- (take_drop n l) in Hl, Hb |- *. assert (length (take n l) = n) as Ha by (rewrite length_take; lia).
  assert (len (drop n l) = len l - Z.of_nat n) as Hr by (rewrite length_drop; lia).
  revert Ha Hr Hl Hb. generalize (take n l) (drop n l). intros a r Ha Hr Hl Hb. rewrite len_app in Hl. pose proof Hb as [Ba Br]%bytes_app.
  pose proof (GET (a ++ r)) as E. rewrite split_at_app in E by lia. cbn [mbind option_bind fst snd] in E. destruct (put_get fm _ _ _ Hb E) as [Hf _]. rewrite E. cbn [mbind option_bind fst snd].
  unfold mbind, prog_bind. rewrite <- app_assoc, RUN by done. rewrite plus_run by lia.
  replace (len c + Z.of_nat n) with (len (c ++ a)) by (rewrite len_app; lia). rewrite app_assoc. apply Hk; [done | constructor; [rewrite len_app; lia | done] | lia].
Qed.

Lemma good_number {A} (fm2 : format A) make (set : Z -> Fcall Z -> Fcall Z) f c l (k : Fcall Z -> Z -> B decoded) fuel : here c l -> Z.of_nat n <= len l ->
  (forall d a r, here (c ++ d) r -> len r = len l - Z.of_nat n -> good (k (set a f) (len (c ++ d)) fuel ((c ++ d) ++ r ++ t)) (reading fm2 (fun b => make (a, b)) r)) ->
  good ((v ← G (len c); k (set v f) (plus (len c) (Z.of_nat n))) fuel (c ++ l ++ t)) (reading (pair fm fm2) make l).
Proof using BASE ROOM GET RUN.
  intros H Hn Hk. rewrite reading_pair. pose proof (number_then (fun a r => reading fm2 (fun b => make (a, b)) r) set f c l k fuel H Hn) as X.
  destruct (get fm l) as [[a r]|]; apply X; intros; by apply Hk.
Qed.
End number.

Definition good_get8 {A} := @good_number 1 GBIT8 u8f unle (fun _ => eq_refl) (fun c a r fuel H _ => GBIT8_run c a r fuel H) A.
Definition good_get16 {A} := @good_number 2 GBIT16 u16f unle (fun _ => eq_refl) GBIT16_run A.
Definition good_get32 {A} := @good_number 4 GBIT32 u32f unle (fun _ => eq_refl) GBIT32_run A.
Definition good_get64 {A} := @good_number 8 GBIT64 signed64 (fun a => wrap64 (unle a)) (fun _ => eq_refl) GBIT64_run A.

Lemma good_string {A} (fm2 : format A) make (set : _ -> Fcall Z -> Fcall Z) f c l (k : Fcall Z -> Z -> B decoded) fuel : here c l ->
  (forall d s o r, here (c ++ d) r -> string_at (c ++ d) o s -> good (k (set o f) (len (c ++ d)) fuel ((c ++ d) ++ r ++ t)) (reading fm2 (fun b => make (s, b)) r)) ->
  good (with_string set f (len c) nap k fuel (c ++ l ++ t)) (reading (pair text fm2) make l).
Proof using BASE ROOM.
  intros H Hk. rewrite reading_pair. unfold with_string, mbind, prog_bind. pose proof (gstring_run c l fuel H) as E.
  destruct (get text l) as [[s r]|]; [|rewrite E; by apply good_none]. destruct E as (d & -> & Hs & Hr). by apply Hk.
Qed.

Lemma good_gqid {A} (fm2 : format A) make (set : _ -> Fcall Z -> Fcall Z) f c l (k : Fcall Z -> Z -> B decoded) fuel : here c l ->
  (forall d q r, here (c ++ d) r -> good (k (set q f) (len (c ++ d)) fuel ((c ++ d) ++ r ++ t)) (reading fm2 (fun b => make (q, b)) r)) ->
  good (with_gqid set f (len c) nap k fuel (c ++ l ++ t)) (reading (pair qidf fm2) make l).
Proof using BASE ROOM.
  intros H Hk. rewrite reading_pair. unfold with_gqid, mbind, prog_bind. pose proof (gqid_run c l fuel H) as E.
  destruct (get qidf l) as [[q r]|]; [|rewrite E; by apply good_none]. destruct E as (d & -> & Hr). by apply Hk.
Qed.

(** Bytes with their number before them, at the end. *)
Lemma good_data (make : list Z -> message) (set : option Z -> Fcall Z -> Fcall Z) (cnt : Fcall Z -> Z) f c l fuel : here c l -> 0 <= cnt f < 2 ^ 32 ->
  (forall c' o s, len s = cnt f -> bytes_at c' o s -> holds c' (set o f) (make s) /\ ftype (set o f) = ftype f0 /\ tag (set o f) = tag f0) ->
  good (get_data set cnt nap f (len c) fuel (c ++ l ++ t)) (x ← split_at (cnt f) l; Some (make x.1, x.2)).
Proof using BASE ROOM.
  intros H Hv Hh. pose proof H as [Hl Hb]. unfold get_data, need, split_at. rewrite plus_run, above_run by lia. set (v := cnt f) in *.
  destruct (Z.ltb_spec nap (len c + v)), (Z.ltb_spec (len l) v); try lia; [by apply good_none|]. cbn [mbind option_bind fst snd].
  rewrite <- (take_drop (Z.to_nat v) l) in Hl |- * at 1. assert (len (take (Z.to_nat v) l) = v) as Hs by (rewrite length_take; lia).
  revert Hs Hl. generalize (take (Z.to_nat v) l) (drop (Z.to_nat v) l). intros s r Hs Hl. rewrite len_app in Hl.
  destruct (Hh (c ++ s) (Some (len c)) s Hs) as (X1 & X2 & X3); [exists c, []; by rewrite app_nil_r|].
  exists (set (Some (len c)) f), (c ++ s). rewrite len_app. split_and!; [|done.. | lia]. unfold mret, prog_ret. rewrite Hs, <- !app_assoc. done.
Qed.

Lemma good_counted n G (make : list Z -> message) (setn : Z -> Fcall Z -> Fcall Z) (set : option Z -> Fcall Z -> Fcall Z) (cnt : Fcall Z -> Z) f c l fuel :
  (forall c a r fuel, length a = n -> bytes a -> G (len c) fuel (c ++ a ++ r) = Ok (unle a) (c ++ a ++ r)) -> (n <= 4)%nat ->
  (forall v, cnt (setn v f) = v) -> here c l -> Z.of_nat n <= len l ->
  (forall c' o s, bytes_at c' o s -> holds c' (set o (setn (len s) f)) (make s) /\ ftype (set o (setn (len s) f)) = ftype f0 /\ tag (set o (setn (len s) f)) = tag f0) ->
  good ((v ← G (len c); get_data set cnt nap (setn v f) (plus (len c) (Z.of_nat n))) fuel (c ++ l ++ t)) (reading (counted n) make l).
Proof using BASE ROOM.
  intros RUN Hn Hcnt H Hlen Hh.
  pose proof (number_then n G (unsigned n) unle (fun _ => eq_refl) RUN (fun v r => x ← split_at v r; Some (make x.1, x.2)) setn f c l (get_data set cnt nap) fuel H Hlen) as X.
  assert (reading (counted n) make l = (x ← get (unsigned n) l; y ← split_at x.1 x.2; Some (make y.1, y.2))) as -> by (unfold reading; cbn [get counted]; by destruct (get (unsigned n) l)).
  apply X. clear X. intros d v r Hv Hr _. cbn [fits unsigned] in Hv. pose proof (Z.pow_le_mono_r 256 (Z.of_nat n) 4 ltac:(lia) ltac:(lia)) as Hp. change (256 ^ 4) with (2 ^ 32) in Hp.
  replace (split_at v r) with (split_at (cnt (setn v f)) r) by (by rewrite Hcnt). apply good_data; rewrite ?Hcnt; [done | lia |]. intros c' o s <- Ho. by apply Hh.
Qed.

(** *** Arrays *)

Lemma good_names k : forall i fi nf f c l done fuel, here c l -> (i + k <= length (wname f))%nat -> length done = i -> Forall2 (string_at c) (take i (wname f)) done ->
  fid f = fi /\ newfid f = nf /\ nwname f = len done + Z.of_nat k /\ ftype f = ftype f0 /\ tag f = tag f0 ->
  good (get_names k i nap f (len c) fuel (c ++ l ++ t)) (x ← gets text k l; Some (T_walk fi nf (done ++ x.1), x.2)).
Proof using BASE ROOM.
  induction k as [|k IH]; intros i fi nf f c l ds fuel H Hk Hd Hs (E1 & E2 & E3 & E4 & E5); cbn [get_names gets mbind option_bind fst snd].
  - rewrite app_nil_r. apply (good_done (fun _ : unit => T_walk fi nf ds) f c l tt fuel H); [|done..]. cbn [holds]. rewrite Hd. split_and!; try done. lia.
  - unfold with_string, mbind at 1, prog_bind at 1. pose proof (gstring_run c l fuel H) as X. destruct (get text l) as [[s r]|]; [|rewrite X; by apply (good_none f)].
    destruct X as (d & -> & Hx & Hr). cbn [mbind option_bind fst snd]. cbv beta iota.
    specialize (IH (Datatypes.S i) fi nf (with_wname_at i (Some (len c + 1)) f) (c ++ d) r (ds ++ [s]) fuel Hr).
    destruct (gets text k r) as [[ss r']|] eqn:Eg; cbn [mbind option_bind fst snd] in IH |- *; [rewrite <- (app_assoc ds) in IH; cbn [app] in IH|]; apply IH; clear IH;
      try (cbn [wname with_wname_at with_wname]; rewrite length_insert; lia); try (rewrite length_app; cbn [length]; lia);
      try (cbn [wname with_wname_at with_wname]; rewrite take_insert_last by lia; apply Forall2_app; [eapply Forall2_impl; [done|]; intros; by apply string_at_app | by repeat constructor]);
      cbn; rewrite length_app; cbn [length]; split_and!; try done; lia.
Qed.

Lemma good_qids k : forall i f c l done fuel, here c l -> (i + k <= length (wqid f))%nat -> length done = i -> take i (wqid f) = done ->
  nwqid f = len done + Z.of_nat k /\ ftype f = ftype f0 /\ tag f = tag f0 ->
  good (get_qids k i nap f (len c) fuel (c ++ l ++ t)) (x ← gets qidf k l; Some (R_walk (done ++ x.1), x.2)).
Proof using BASE ROOM.
  induction k as [|k IH]; intros i f c l ds fuel H Hk Hd Hs (E3 & E4 & E5); cbn [get_qids gets mbind option_bind fst snd].
  - rewrite app_nil_r. apply (good_done (fun _ : unit => R_walk ds) f c l tt fuel H); [|done..]. cbn [holds]. rewrite Hd. split_and!; try done. lia.
  - unfold with_gqid, mbind at 1, prog_bind at 1. pose proof (gqid_run c l fuel H) as X. destruct (get qidf l) as [[s r]|]; [|rewrite X; by apply (good_none f)].
    destruct X as (d & -> & Hr). cbn [mbind option_bind fst snd]. cbv beta iota.
    specialize (IH (Datatypes.S i) (with_wqid_at i s f) (c ++ d) r (ds ++ [s]) fuel Hr).
    destruct (gets qidf k r) as [[ss r']|] eqn:Eg; cbn [mbind option_bind fst snd] in IH |- *; [rewrite <- (app_assoc ds) in IH; cbn [app] in IH|]; apply IH; clear IH;
      try (cbn [wqid with_wqid_at with_wqid]; rewrite length_insert; lia); try (rewrite length_app; cbn [length]; lia);
      try (cbn [wqid with_wqid_at with_wqid]; rewrite take_insert_last by lia; by rewrite Hs);
      cbn; rewrite length_app; cbn [length]; split_and!; try done; lia.
Qed.

(** *** The switch *)

Ltac at_least_tac :=
  first [ apply (at_least_unsigned 1); done | apply (at_least_unsigned 2); done | apply (at_least_unsigned 4); done | apply at_least_signed
        | apply (at_least_counted 2); done | apply (at_least_counted 4); done | apply at_least_many
        | eapply at_least_pair; [at_least_tac | at_least_tac | (done || (unfold BIT8SZ, BIT16SZ, BIT32SZ, BIT64SZ; lia))] ].
Ltac room_for := unfold BIT8SZ, BIT16SZ, BIT32SZ, BIT64SZ in *; cbn [Z.of_nat Pos.of_succ_nat Pos.succ] in *; lia.
Ltac receive_next :=
  lazymatch goal with
  | |- good (done_at ?f _ _ _) (reading empty ?make ?l) => apply (good_done make f _ l tt); [assumption | cbn; intuition eauto with nine | reflexivity..]
  | |- good (need _ _ _ _ _ _ _) _ => eapply good_need; [eassumption | split; done | at_least_tac | intros ?]
  | |- good (get32 with_count _ _ (get_data _ _ _) _ _) _ => apply (good_counted 4 GBIT32 _ with_count with_data count); [apply GBIT32_run | lia | done | assumption | room_for | intros; split_and!; [cbn; intuition eauto with nine | done..]]
  | |- good (get16 with_nstat _ _ (get_data _ _ _) _ _) _ => apply (good_counted 2 GBIT16 _ with_nstat with_stat nstat); [apply GBIT16_run | lia | done | assumption | room_for | intros; split_and!; [cbn; intuition eauto with nine | done..]]
  | |- good _ (reading (pair u8f _) _ _) => apply good_get8; [assumption | room_for | intros ? ? ? ? ?; cbv beta iota]
  | |- good _ (reading (pair u16f _) _ _) => apply good_get16; [assumption | room_for | intros ? ? ? ? ?; cbv beta iota]
  | |- good _ (reading (pair u32f _) _ _) => apply good_get32; [assumption | room_for | intros ? ? ? ? ?; cbv beta iota]
  | |- good _ (reading (pair signed64 _) _ _) => apply good_get64; [assumption | room_for | intros ? ? ? ? ?; cbv beta iota]
  | |- good _ (reading (pair text _) _ _) => apply good_string; [assumption | intros ? ? ? ? ? ?; cbv beta iota]
  | |- good _ (reading (pair qidf _) _ _) => apply good_gqid; [assumption | intros ? ? ? ?; cbv beta iota]
  | |- good _ (reading _ _ _) => rewrite reading_last; cbn [fst]
  end.

(** The names and the qids with their number before them. *)
Lemma good_many {A} (el : format A) (make : list A -> message) (setn : Z -> Fcall Z -> Fcall Z) (cnt : Fcall Z -> Z) (loop : nat -> Fcall Z -> Z -> B decoded) f c l fuel :
  here c l -> 2 <= len l -> (forall v, cnt (setn v f) = v) ->
  (forall d r n, here (c ++ d) r -> (n <= 16)%nat -> good (loop n (setn (Z.of_nat n) f) (len (c ++ d)) fuel ((c ++ d) ++ r ++ t)) (x ← gets el n r; Some (make x.1, x.2))) ->
  good (get16 setn f (len c) (fun f p => if MAXWELEM <? cnt f then mret (f, None) else loop (Z.to_nat (cnt f)) f p) fuel (c ++ l ++ t)) (reading (many el) make l).
Proof using BASE ROOM.
  intros H Hl Hc Hloop.
  assert (reading (many el) make l = (x ← get u16f l; if MAXWELEM <? x.1 then None else y ← gets el (Z.to_nat x.1) x.2; Some (make y.1, y.2))) as ->.
  { unfold reading. cbn [get many]. change (unsigned 2) with u16f. destruct (get u16f l) as [[n r]|]; [|done]. cbn [mbind option_bind fst snd]. by destruct (MAXWELEM <? n). }
  apply (number_then 2 GBIT16 u16f unle (fun _ => eq_refl) GBIT16_run (fun n r => if MAXWELEM <? n then None else y ← gets el (Z.to_nat n) r; Some (make y.1, y.2)) setn f c l
    (fun f p => if MAXWELEM <? cnt f then mret (f, None) else loop (Z.to_nat (cnt f)) f p) fuel H Hl).
  intros d n r Hn Hr _. cbn [fits u16f unsigned] in Hn. rewrite Hc. unfold MAXWELEM. destruct (Z.ltb_spec 16 n); [by apply good_none|].
  rewrite <- (Z2Nat.id n) at 2 by lia. apply Hloop; [done | lia].
Qed.

Lemma walk_good c l fuel : here c l -> ftype f0 = Twalk -> length (wname f0) = 16%nat ->
  good (unpack f0 (len c) nap fuel (c ++ l ++ t)) (parse_body Twalk l).
Proof using BASE ROOM.
  intros H E Hw. unfold unpack, parse_body. at_case. do 3 receive_next.
  apply (good_many text _ with_nwname nwname (fun n => get_names n 0 nap)); [done | room_for | done |]. intros d1 r1 n Hr Hn.
  apply (good_names n 0 a a0 _ _ _ []); [done | cbn; lia | done | constructor | cbn; split_and!; (done || lia)].
Qed.

Lemma walked_good c l fuel : here c l -> ftype f0 = Rwalk -> length (wqid f0) = 16%nat ->
  good (unpack f0 (len c) nap fuel (c ++ l ++ t)) (parse_body Rwalk l).
Proof using BASE ROOM.
  intros H E Hw. unfold unpack, parse_body. at_case. receive_next.
  apply (good_many qidf _ with_nwqid nwqid (fun n => get_qids n 0 nap)); [done | room_for | done |]. intros d1 r1 n Hr Hn.
  apply (good_qids n 0 _ _ _ []); [done | cbn; lia | done | done | cbn; split_and!; (done || lia)].
Qed.

Lemma unpack_good c l fuel : here c l -> length (wname f0) = 16%nat -> length (wqid f0) = 16%nat ->
  good (unpack f0 (len c) nap fuel (c ++ l ++ t)) (parse_body (ftype f0) l).
Proof using BASE ROOM.
  intros H Hw Hq. destruct (Z.eq_dec (ftype f0) Twalk) as [E|N1]; [rewrite E; by apply walk_good|]. destruct (Z.eq_dec (ftype f0) Rwalk) as [E|N2]; [rewrite E; by apply walked_good|].
  unfold parse_body.
  repeat match goal with |- context [if ftype f0 =? ?c then _ else _] =>
    destruct (Z.eqb_spec (ftype f0) c) as [E|?]; [first [by destruct (N1 E) | by destruct (N2 E) | clear -BASE ROOM H E; unfold unpack; at_case; solve [repeat receive_next]]|] end.
  unfold unpack. repeat match goal with H : ftype f0 <> ?c |- context [ftype f0 =? ?c] => rewrite (proj2 (Z.eqb_neq (ftype f0) c) H) end. by apply good_none.
Qed.
End receiving.

(** ** The decoder *)

Lemma holds_app c d f m : holds c f m -> holds (c ++ d) f m.
Proof.
  destruct m; cbn [holds]; try (intuition eauto with nine; fail). intros (H1 & H2 & H3 & H4). split_and!; try done.
  eapply Forall2_impl; [done|]. intros x y. apply string_at_app.
Qed.

Lemma code_byte m : 0 <= code m < 256.
Proof. by destruct m. Qed.

Lemma unle_le_small n v : 0 <= v < 256 ^ Z.of_nat n -> unle (le n v) = v.
Proof. intros H. by rewrite unle_le, Z.mod_small. Qed.

(** What a message of the wire is: its size, its type, its tag and the parser's message. *)
Lemma wire_parts a b d r g m r' : length a = 4%nat -> length b = 1%nat -> length d = 2%nat -> valid m -> 0 <= g < 65536 -> len (wire g m) < 2 ^ 32 ->
  a ++ b ++ d ++ r = wire g m ++ r' -> unle a = len (wire g m) /\ unle b = code m /\ unle d = g /\ parse_body (code m) r = Some (m, r').
Proof.
  intros Ha Hb Hd Hv Hg Hw. assert (len (wire g m) = 7 + len (body m)) as El by (unfold wire; rewrite !len_app, !le_length; lia). rewrite El in Hw |- *.
  unfold wire. rewrite <- !app_assoc. intros E. apply app_inj_1 in E as [-> E]; [|by rewrite le_length]. apply app_inj_1 in E as [-> E]; [|by rewrite le_length].
  apply app_inj_1 in E as [-> ->]; [|by rewrite le_length]. pose proof (code_byte m).
  rewrite !unle_le_small by (change (256 ^ Z.of_nat 4) with (2 ^ 32); change (256 ^ Z.of_nat 1) with 256; change (256 ^ Z.of_nat 2) with 65536; lia).
  split_and!; try done. by apply parse_body_complete.
Qed.

Lemma parts_wire a b d g m : length a = 4%nat -> length b = 1%nat -> length d = 2%nat -> bytes a -> bytes b -> bytes d ->
  unle a = 7 + len (body m) -> unle b = code m -> unle d = g -> a ++ b ++ d ++ body m = wire g m.
Proof. intros Ha Hb Hd Ba Bb Bd Ea Eb <-. unfold wire. rewrite <- Ea, <- Eb, <- Ha, <- Hd, <- Hb. by rewrite !le_unle. Qed.

(** The bytes [l] begin with the message [m] with the tag [g]; [r] is behind. *)
Definition message_at (l : list Z) (g : Z) (m : message) (r : list Z) : Prop :=
  l = wire g m ++ r /\ valid m /\ 0 <= g < 65536 /\ len (wire g m) < 2 ^ 32.

Section decoder.
Context {ADDR : addresses}.
Context (nap : Z) (t : list Z).
Context (BASE : 0 <= base) (ROOM : base + nap + 2 ^ 32 <= 2 ^ width).

(** The first seven bytes are there. *)
Lemma convM2S_head f a b d r fuel : length a = 4%nat -> length b = 1%nat -> length d = 2%nat -> bytes a -> bytes b -> bytes d -> 7 + len r = nap ->
  convM2S nap f fuel (a ++ b ++ d ++ r ++ t) =
  if unle a <? 7 then Ok (0, f) (a ++ b ++ d ++ r ++ t) else
  match unpack (with_tag (unle d) (with_ftype (unle b) f)) 7 nap fuel (a ++ b ++ d ++ r ++ t) with
  | Ok (f, None) w => Ok (0, f) w
  | Ok (f, Some p) w => if above p nap then Ok (0, f) w else if plus 0 (unle a) =? p then Ok (unle a, f) w else Ok (0, f) w
  | Fault x => Fault x
  end.
Proof using BASE ROOM.
  intros Ha Hb Hd Ba Bb Bd Hn. unfold convM2S. change (BIT32SZ + BIT8SZ + BIT16SZ) with 7. unfold BIT32SZ, BIT8SZ, BIT16SZ.
  rewrite (plus_run nap BASE ROOM 0 nap), (plus_run nap BASE ROOM 0 7), (plus_run nap BASE ROOM 0 4) by lia. rewrite (above_run nap BASE ROOM) by lia.
  change (0 + nap) with nap. destruct (Z.ltb_spec nap (0 + 7)); [lia|].
  unfold mbind, prog_bind. pose proof (GBIT32_run [] a (b ++ d ++ r ++ t) fuel Ha Ba) as E. cbn [app length] in E. change (Z.of_nat 0) with 0 in E. rewrite E. clear E.
  destruct (unle a <? 7); [done|]. replace (0 + 4) with (len a) by lia. rewrite GBIT8_run by done.
  rewrite (plus_run nap BASE ROOM (len a) 1), (plus_run nap BASE ROOM (len a + 1) 2) by lia. replace (len a + 1) with (len (a ++ b)) by (rewrite len_app; lia).
  pose proof (GBIT16_run (a ++ b) d (r ++ t) fuel Hd Bd) as E. rewrite <- (app_assoc a) in E. rewrite E. clear E.
  replace (len (a ++ b) + 2) with 7 by (rewrite len_app; lia).
  destruct (unpack _ 7 nap fuel _) as [[f' [p|]] w|]; [|done..]. destruct (above p nap); [done|]. by destruct (plus 0 (unle a) =? p).
Qed.

(** A message is accepted when its bytes are those of the format, and nothing else is. *)
Lemma convM2S_spec f l fuel : len l = nap -> bytes l -> length (wname f) = 16%nat -> length (wqid f) = 16%nat ->
  (exists g m r f' b, message_at l g m r /\ convM2S nap f fuel (l ++ t) = Ok (len (wire g m), f') b /\ len b = nap + len t /\
     holds b f' m /\ ftype f' = code m /\ tag f' = g) \/
  ((forall g m r, ~ message_at l g m r) /\ exists f' b, convM2S nap f fuel (l ++ t) = Ok (0, f') b /\ len b = nap + len t).
Proof using BASE ROOM.
  intros Hl Hb Hw Hq. destruct (Z.ltb_spec nap 7) as [Hs|Hs].
  { right. split.
    - intros g m r (-> & _). unfold wire in Hl. rewrite !len_app, !le_length in Hl. lia.
    - exists f, (l ++ t). rewrite len_app, Hl. split; [|done]. unfold convM2S. change (BIT32SZ + BIT8SZ + BIT16SZ) with 7.
      rewrite (plus_run nap BASE ROOM 0 nap), (plus_run nap BASE ROOM 0 7) by lia. rewrite (above_run nap BASE ROOM) by lia. by destruct (Z.ltb_spec (0 + nap) (0 + 7)); [|lia]. }
  assert (exists a b d r, l = a ++ b ++ d ++ r /\ length a = 4%nat /\ length b = 1%nat /\ length d = 2%nat) as (a & b & d & r & -> & La & Lb & Ld).
  { exists (take 4 l), (take 1 (drop 4 l)), (take 2 (drop 1 (drop 4 l))), (drop 2 (drop 1 (drop 4 l))). rewrite !take_drop, !length_take, !length_drop. split_and!; [done | lia..]. }
  pose proof Hb as [Ba [Bb [Bd Br]%bytes_app]%bytes_app]%bytes_app.
  rewrite !len_app in Hl. rewrite <- !app_assoc, convM2S_head by (done || lia).
  assert (forall g m r', message_at (a ++ b ++ d ++ r) g m r' -> unle a = len (wire g m) /\ unle b = code m /\ unle d = g /\ parse_body (unle b) r = Some (m, r')) as Hwire.
  { intros g m r' (E & H1 & H2 & H3). destruct (wire_parts a b d r g m r' La Lb Ld H1 H2 H3 E) as (? & -> & ? & ?). by split_and!. }
  destruct (Z.ltb_spec (unle a) 7) as [Hsmall|Hsize].
  { right. split; [|exists f, (a ++ b ++ d ++ r ++ t); split; [done | rewrite !len_app; lia]]. intros g m r' [E _]%Hwire. unfold wire in E. rewrite !len_app, !le_length in E. lia. }
  set (f0 := with_tag (unle d) (with_ftype (unle b) f)).
  pose proof (unpack_good nap t f0 BASE ROOM (a ++ b ++ d) r fuel) as X.
  replace (len (a ++ b ++ d)) with 7 in X by (rewrite !len_app; lia). rewrite <- !app_assoc in X. change (ftype f0) with (unle b) in X.
  pose proof (unle_range a Ba) as Ra. rewrite La in Ra. change (256 ^ Z.of_nat 4) with (2 ^ 32) in Ra.
  pose proof (unle_range d Bd) as Rd. rewrite Ld in Rd. change (256 ^ Z.of_nat 2) with 65536 in Rd.
  destruct (parse_body (unle b) r) as [[m r']|] eqn:Ep; cbn [good] in X.
  - destruct X as (f' & c & -> & Hh & Hf & Ht & Hc); [constructor; [rewrite !len_app; lia | done] | done..|].
    destruct (parse_body_sound _ _ _ _ Br Ep) as (Hv & Hcode & ->). rewrite len_app in Hl. rewrite (above_run nap BASE ROOM) by lia. destruct (Z.ltb_spec nap (len c)); [lia|].
    rewrite (plus_run nap BASE ROOM) by lia. destruct (Z.eqb_spec (0 + unle a) (len c)) as [Ec|Ec].
    + left. assert (a ++ b ++ d ++ body m = wire (unle d) m) as Ew by (apply parts_wire; try done; lia).
      exists (unle d), m, r', f', (c ++ r' ++ t). rewrite <- Ew, !len_app. replace (unle a) with (len a + (len b + (len d + len (body m)))) by lia.
      assert (message_at (a ++ b ++ d ++ body m ++ r') (unle d) m r') as Hat by (unfold message_at; rewrite <- Ew, <- !app_assoc, !len_app; split_and!; (done || lia)).
      split; [done|]. split; [done|]. split; [lia|]. split; [by apply holds_app|]. split; [by rewrite Hf, Hcode | done].
    + right. split; [|exists f', (c ++ r' ++ t); split; [done | rewrite !len_app; lia]]. intros g m2 r2 (E1 & _ & _ & [= <- <-])%Hwire.
      unfold wire in E1. rewrite !len_app, !le_length in E1. lia.
  - destruct X as (f' & w & -> & Hlw); [constructor; [rewrite !len_app; lia | done] | done..|].
    right. split; [|exists f', w; by split]. intros g m2 r2 (_ & _ & _ & E)%Hwire. done.
Qed.
End decoder.
