(* ===== verification/NineRune.v ===== *)
(** * UTF-8 in lib9 (rune.c, utflen.c, utfnlen.c, utfrune.c, utfrrune.c, utfecpy.c, runestrlen.c)

    A string is the list of its bytes up to the end of its block; [None] is an access behind it.  The decoder is shown to be the inverse of the encoder. *)

From Stdlib Require Import ZArith Lia.
From stdpp Require Import base numbers list strings.
From S2P Require Import Prelude NineCall NineWire NineSend NineReceive.

Open Scope Z_scope.

(** ** rune.c *)

Definition Runesync : Z := 128.
Definition Runeself : Z := 128.
Definition Runeerror : Z := 128.

Definition Bit1 : Z := 7.
Definition Bitx : Z := 6.
Definition Bit2 : Z := 5.
Definition Bit3 : Z := 4.
Definition Bit4 : Z := 3.
Definition Tx : Z := Z.lxor (Z.shiftl 1 (Bitx + 1) - 1) 255.
Definition T2 : Z := Z.lxor (Z.shiftl 1 (Bit2 + 1) - 1) 255.
Definition T3 : Z := Z.lxor (Z.shiftl 1 (Bit3 + 1) - 1) 255.
Definition T4 : Z := Z.lxor (Z.shiftl 1 (Bit4 + 1) - 1) 255.
Definition Rune1 : Z := Z.shiftl 1 (Bit1 + 0 * Bitx) - 1.
Definition Rune2 : Z := Z.shiftl 1 (Bit2 + 1 * Bitx) - 1.
Definition Rune3 : Z := Z.shiftl 1 (Bit3 + 2 * Bitx) - 1.
Definition Maskx : Z := Z.shiftl 1 Bitx - 1.
Definition Testx : Z := Z.lxor Maskx 255.
Definition Bad : Z := Runeerror.

(** The rune and the number of bytes. *)
Definition chartorune (str : list Z) : option (Z * Z) :=
  let bad := Some (Bad, 1) in
  c ← str !! 0%nat;
  if c <? Tx then Some (c, 1) else
  b1 ← str !! 1%nat;
  let c1 := Z.lxor b1 Tx in
  if negb (Z.land c1 Testx =? 0) then bad else
  if c <? T3 then
    if c <? T2 then bad else
    let l := Z.land (Z.lor (Z.shiftl c Bitx) c1) Rune2 in
    if l <=? Rune1 then bad else Some (l, 2)
  else
  b2 ← str !! 2%nat;
  let c2 := Z.lxor b2 Tx in
  if negb (Z.land c2 Testx =? 0) then bad else
  if c <? T4 then
    let l := Z.land (Z.lor (Z.shiftl (Z.lor (Z.shiftl c Bitx) c1) Bitx) c2) Rune3 in
    if l <=? Rune2 then bad else Some (l, 3)
  else bad.

(** The bytes that are stored; their number is returned. *)
Definition runetochar (c : Z) : list Z :=
  if c <=? Rune1 then [c] else
  if c <=? Rune2 then [Z.lor T2 (Z.shiftr c (1 * Bitx)); Z.lor Tx (Z.land c Maskx)] else
  [Z.lor T3 (Z.shiftr c (2 * Bitx)); Z.lor Tx (Z.land (Z.shiftr c (1 * Bitx)) Maskx); Z.lor Tx (Z.land c Maskx)].

Definition runelen (c : Z) : Z := if c <=? Rune1 then 1 else if c <=? Rune2 then 2 else 3.

(** The runes that count. *)
Fixpoint runenlen (r : list Z) (l : nat) (n : Z) {struct l} : option Z :=
  match l with
  | O => Some n
  | S l => match r with [] => None | c :: r => runenlen r l (n + if c <=? Rune1 then 1 else if c <=? Rune2 then 2 else 3) end
  end.

Definition fullrune (str : list Z) (n : Z) : option bool :=
  if 0 <? n then
    c ← str !! 0%nat;
    Some ((c <? Tx) || (1 <? n) && ((c <? T3) || (2 <? n)))
  else Some false.

(** ** Strings of UTF-8

    Each loop goes on behind what it has read; a string ends, so that as many turns as it has bytes are enough. *)

Fixpoint utflen_loop (turns : nat) (s : list Z) (n : Z) : option Z :=
  match turns with
  | O => None
  | S turns =>
      c ← s !! 0%nat;
      if c <? Runeself then
        if c =? 0 then Some n else utflen_loop turns (drop 1 s) (n + 1)
      else
        x ← chartorune s; utflen_loop turns (drop (Z.to_nat x.2) s) (n + 1)
  end.
Definition utflen (s : list Z) : option Z := utflen_loop (length s) s 0.

(** [left] is [es - s]. *)
Fixpoint utfnlen_loop (turns : nat) (s : list Z) (left n : Z) : option Z :=
  match turns with
  | O => None
  | S turns =>
      if 0 <? left then
        c ← s !! 0%nat;
        if c <? Runeself then
          if c =? 0 then Some n else utfnlen_loop turns (drop 1 s) (left - 1) (n + 1)
        else
          full ← fullrune s left;
          if negb full then Some n else
          x ← chartorune s; utfnlen_loop turns (drop (Z.to_nat x.2) s) (left - x.2) (n + 1)
      else Some n
  end.
Definition utfnlen (s : list Z) (m : Z) : option Z := utfnlen_loop (S (length s)) s m 0.

(** [strchr] and [strrchr]; a pointer that is found is an offset. *)
Fixpoint strchr (s : list Z) (c p : Z) : option (option Z) :=
  match s with
  | [] => None
  | x :: s => if x =? c then Some (Some p) else if x =? 0 then Some None else strchr s c (p + 1)
  end.
Fixpoint strrchr (s : list Z) (c p : Z) (last : option Z) : option (option Z) :=
  match s with
  | [] => None
  | x :: s =>
      let last := if x =? c then Some p else last in
      if x =? 0 then Some last else strrchr s c (p + 1) last
  end.

Fixpoint utfrune_loop (turns : nat) (s : list Z) (c p : Z) : option (option Z) :=
  match turns with
  | O => None
  | S turns =>
      c1 ← s !! 0%nat;
      if c1 <? Runeself then
        if c1 =? 0 then Some None else
        if c1 =? c then Some (Some p) else utfrune_loop turns (drop 1 s) c (p + 1)
      else
        x ← chartorune s;
        if x.1 =? c then Some (Some p) else utfrune_loop turns (drop (Z.to_nat x.2) s) c (p + x.2)
  end.
Definition utfrune (s : list Z) (c : Z) : option (option Z) :=
  if c <? Runesync then strchr s (c mod 256) 0 else utfrune_loop (length s) s c 0.

Fixpoint utfrrune_loop (turns : nat) (s : list Z) (c p : Z) (s1 : option Z) : option (option Z) :=
  match turns with
  | O => None
  | S turns =>
      c1 ← s !! 0%nat;
      if c1 <? Runeself then
        if c1 =? 0 then Some s1 else
        utfrrune_loop turns (drop 1 s) c (p + 1) (if c1 =? c then Some p else s1)
      else
        x ← chartorune s;
        utfrrune_loop turns (drop (Z.to_nat x.2) s) c (p + x.2) (if x.1 =? c then Some p else s1)
  end.
Definition utfrrune (s : list Z) (c : Z) : option (option Z) :=
  if c <? Runesync then strrchr s (c mod 256) 0 None else utfrrune_loop (length s) s c 0 None.

Fixpoint runestrlen (s : list Z) : option Z :=
  match s with [] => None | c :: s => if c =? 0 then Some 0 else i ← runestrlen s; Some (1 + i) end.

(** *** utfecpy.c

    The state is the block that [to] points into. *)

(** [memccpy] up to a NUL: the offset behind the NUL that was copied. *)
Fixpoint memccpy (to : Z) (from : list Z) (n : nat) {struct n} : B (option Z) :=
  match n with
  | O => mret None
  | S n =>
      match from with
      | [] => fail Bad_pointer
      | c :: from => put_byte to c;; if c =? 0 then mret (Some (to + 1)) else memccpy (to + 1) from n
      end
  end.

(** The loop that goes back over bytes in the middle of a character; [k] is [end - to]. *)
Fixpoint back_up (k : nat) (to : Z) : B Z :=
  match k with
  | O => mret to
  | S k => c ← byte (to + Z.of_nat k); if Z.land c 192 =? 128 then back_up k to else mret (to + Z.of_nat k)
  end.

Definition utfecpy (to e : Z) (from : list Z) : B Z :=
  if e <=? to then mret to else
  r ← memccpy to from (Z.to_nat (e - to));
  match r with
  | None => p ← back_up (Z.to_nat (e - to)) to; put_byte p 0;; mret p
  | Some p => mret (p - 1)
  end.

(** ** The decoder is the inverse of the encoder *)

(** ** Bits *)

(** A byte in the middle of a character. *)
Definition middle (b : Z) : bool := (128 <=? b) && (b <? 192).

Lemma every_byte (P : Z -> bool) : forallb P (seqZ 0 256) = true -> forall b, is_byte b -> P b = true.
Proof. intros H b Hb. rewrite forallb_forall in H. apply H. apply list_elem_of_In, elem_of_seqZ. unfold is_byte in Hb. lia. Qed.

Lemma tested b : is_byte b -> negb (Z.land (Z.lxor b Tx) Testx =? 0) = negb (middle b).
Proof. intros Hb. apply (eqb_prop _ _). revert b Hb. apply every_byte. by vm_compute. Qed.
Lemma unmarked b : is_byte b -> middle b = true -> Z.lxor b Tx = b - 128.
Proof.
  intros Hb Hm. assert (negb (middle b) || (Z.lxor b Tx =? b - 128) = true) as H; [|rewrite Hm in H; cbn in H; by apply Z.eqb_eq].
  clear Hm. revert b Hb. apply every_byte. by vm_compute.
Qed.
Lemma middle_mask b : is_byte b -> (Z.land b 192 =? 128) = middle b.
Proof. intros Hb. apply (eqb_prop _ _). revert b Hb. apply every_byte. by vm_compute. Qed.

Lemma high_or n k a : 0 <= n -> 0 <= a < 2 ^ n -> Z.lor (Z.shiftl k n) a = 2 ^ n * k + a.
Proof. intros Hn Ha. rewrite Z.lor_comm, lor_shiftl by lia. lia. Qed.

Lemma land_mask k a : 0 <= k -> Z.land a (Z.shiftl 1 k - 1) = a mod 2 ^ k.
Proof. intros Hk. rewrite <- Z.land_ones by lia. done. Qed.

(** ** Encoding *)

Definition rune (r : Z) : Prop := 0 <= r < 65536.

Lemma runetochar_eq r : rune r -> runetochar r =
  if r <=? 127 then [r] else if r <=? 2047 then [192 + r / 64; 128 + r mod 64] else [224 + r / 4096; 128 + (r / 64) mod 64; 128 + r mod 64].
Proof.
  intros Hr. unfold rune in Hr. unfold runetochar. change Rune1 with 127. change Rune2 with 2047. destruct (Z.leb_spec r 127); [done|].
  unfold Maskx. rewrite !land_mask by done. rewrite !Z.shiftr_div_pow2 by done. change (2 ^ (1 * Bitx)) with 64. change (2 ^ (2 * Bitx)) with 4096. change (2 ^ Bitx) with 64.
  change T2 with (Z.shiftl 6 5). change T3 with (Z.shiftl 14 4). change Tx with (Z.shiftl 2 6).
  pose proof (Z.mod_pos_bound r 64). pose proof (Z.mod_pos_bound (r / 64) 64).
  destruct (Z.leb_spec r 2047).
  - rewrite !high_or by (try lia; change (2 ^ 5) with 32; change (2 ^ 6) with 64; split; try lia; try (apply Z.div_pos; lia); apply Z.div_lt_upper_bound; lia). done.
  - rewrite !high_or by (try lia; change (2 ^ 4) with 16; change (2 ^ 6) with 64; split; try lia; try (apply Z.div_pos; lia); apply Z.div_lt_upper_bound; lia). done.
Qed.

Lemma runelen_eq r : rune r -> runelen r = len (runetochar r).
Proof. intros Hr. rewrite runetochar_eq by done. unfold runelen. change Rune1 with 127. change Rune2 with 2047. destruct (r <=? 127), (r <=? 2047); done. Qed.

(** ** Decoding *)

Definition decode (str : list Z) : option (Z * Z) :=
  c ← str !! 0%nat; if c <? 128 then Some (c, 1) else
  b1 ← str !! 1%nat; if negb (middle b1) then Some (128, 1) else
  if c <? 224 then
    if c <? 192 then Some (128, 1) else if 64 * (c - 192) + (b1 - 128) <=? 127 then Some (128, 1) else Some (64 * (c - 192) + (b1 - 128), 2)
  else
  b2 ← str !! 2%nat; if negb (middle b2) then Some (128, 1) else
  if c <? 240 then
    if 4096 * (c - 224) + 64 * (b1 - 128) + (b2 - 128) <=? 2047 then Some (128, 1) else Some (4096 * (c - 224) + 64 * (b1 - 128) + (b2 - 128), 3)
  else Some (128, 1).

Lemma byte_at_list l i b : bytes l -> l !! i = Some b -> is_byte b.
Proof. intros H. by apply Forall_lookup_1. Qed.

Lemma chartorune_eq str : bytes str -> chartorune str = decode str.
Proof.
  intros Hb. unfold chartorune, decode. destruct (str !! 0%nat) as [c|] eqn:E0; [|done]. cbn [mbind option_bind]. apply (byte_at_list _ _ _ Hb) in E0. unfold is_byte in E0.
  change (c <? Tx) with (c <? 128). change (c <? T2) with (c <? 192). change (c <? T3) with (c <? 224). change (c <? T4) with (c <? 240). destruct (c <? 128); [done|].
  destruct (str !! 1%nat) as [b1|] eqn:E1; [|done]. cbn [mbind option_bind]. apply (byte_at_list _ _ _ Hb) in E1. rewrite (tested b1) by done.
  destruct (middle b1) eqn:M1; [|done]. cbn [negb]. rewrite (unmarked b1) by done. unfold middle in M1. assert (128 <= b1 < 192) as H1 by lia.
  change Rune1 with 127. unfold Rune2, Rune3. rewrite !land_mask by done. change (2 ^ (Bit2 + 1 * Bitx)) with 2048. change (2 ^ (Bit3 + 2 * Bitx)) with 65536.
  change (Z.shiftl 1 (Bit2 + 1 * Bitx) - 1) with 2047. unfold Bitx. rewrite high_or by lia. change (2 ^ 6) with 64.
  destruct (Z.ltb_spec c 224).
  - destruct (Z.ltb_spec c 192); [done|]. rewrite <- (Z.mod_unique (64 * c + (b1 - 128)) 2048 6 (64 * (c - 192) + (b1 - 128))) by lia. done.
  - destruct (str !! 2%nat) as [b2|] eqn:E2; [|done]. cbn [mbind option_bind]. apply (byte_at_list _ _ _ Hb) in E2. rewrite (tested b2) by done.
    destruct (middle b2) eqn:M2; [|done]. cbn [negb]. rewrite (unmarked b2) by done. unfold middle in M2. assert (128 <= b2 < 192) as H2 by lia.
    rewrite land_mask by done. change (2 ^ (Bit3 + 2 * 6)) with 65536. rewrite high_or by lia. change (2 ^ 6) with 64. destruct (Z.ltb_spec c 240); [|done].
    rewrite <- (Z.mod_unique (64 * (64 * c + (b1 - 128)) + (b2 - 128)) 65536 14 (4096 * (c - 224) + 64 * (b1 - 128) + (b2 - 128))) by lia. done.
Qed.

Ltac euclid := Z.to_euclidean_division_equations; lia.

Lemma middle_low x : 0 <= x < 64 -> middle (128 + x) = true.
Proof. intros H. unfold middle. lia. Qed.

(** The bytes of a rune are decoded as it. *)
Lemma decode_rune r s : rune r -> decode (runetochar r ++ s) = Some (r, len (runetochar r)).
Proof.
  intros Hr. rewrite runetochar_eq by done. unfold rune in Hr. unfold decode. destruct (Z.leb_spec r 127); cbn [app lookup list_lookup mbind option_bind length].
  { by destruct (Z.ltb_spec r 128); [|lia]. }
  pose proof (Z.mod_pos_bound r 64). pose proof (Z.mod_pos_bound (r / 64) 64).
  destruct (Z.leb_spec r 2047); cbn [app lookup list_lookup mbind option_bind length].
  - destruct (Z.ltb_spec (192 + r / 64) 128); [euclid|]. rewrite middle_low by lia. cbn [negb]. destruct (Z.ltb_spec (192 + r / 64) 224); [|euclid]. destruct (Z.ltb_spec (192 + r / 64) 192); [euclid|].
    replace (64 * (192 + r / 64 - 192) + (128 + r mod 64 - 128)) with r by euclid. by destruct (Z.leb_spec r 127); [lia|].
  - destruct (Z.ltb_spec (224 + r / 4096) 128); [euclid|]. rewrite !middle_low by lia. cbn [negb]. destruct (Z.ltb_spec (224 + r / 4096) 224); [euclid|]. destruct (Z.ltb_spec (224 + r / 4096) 240); [|euclid].
    replace (4096 * (224 + r / 4096 - 224) + 64 * (128 + (r / 64) mod 64 - 128) + (128 + r mod 64 - 128)) with r by euclid. by destruct (Z.leb_spec r 2047); [lia|].
Qed.

(** What is decoded without an error is the bytes of the rune. *)
Lemma decode_sound str r n : bytes str -> decode str = Some (r, n) -> (r, n) <> (128, 1) ->
  rune r /\ n = len (runetochar r) /\ exists s, str = runetochar r ++ s.
Proof.
  intros Hb. unfold decode. destruct str as [|c str]; [done|]. cbn [lookup list_lookup mbind option_bind].
  apply Forall_cons in Hb as [Hc Hb]. unfold is_byte in Hc. destruct (Z.ltb_spec c 128).
  { intros [= <- <-] _. assert (rune c) as Hr by (unfold rune; lia). rewrite runetochar_eq by done. destruct (Z.leb_spec c 127); [|lia]. split_and!; [unfold rune; lia.. | done | by exists str]. }
  destruct str as [|b1 str]; [done|]. cbn [lookup list_lookup mbind option_bind]. destruct (middle b1) eqn:M1; cbn [negb]; [|by intros [= <- <-]]. unfold middle in M1.
  destruct (Z.ltb_spec c 224).
  - destruct (Z.ltb_spec c 192); [by intros [= <- <-]|]. set (l := 64 * (c - 192) + (b1 - 128)). destruct (Z.leb_spec l 127); [by intros [= <- <-]|]. intros [= <- <-] _.
    assert (rune l) as Hr by (unfold rune; lia). rewrite runetochar_eq by done. destruct (Z.leb_spec l 127); [lia|]. destruct (Z.leb_spec l 2047); [|lia].
    split; [done|]. split; [done|]. exists str. cbn [app]. f_equal; [|f_equal]; unfold l; euclid.
  - destruct str as [|b2 str]; [done|]. cbn [lookup list_lookup mbind option_bind]. destruct (middle b2) eqn:M2; cbn [negb]; [|by intros [= <- <-]]. unfold middle in M2.
    destruct (Z.ltb_spec c 240); [|by intros [= <- <-]]. set (l := 4096 * (c - 224) + 64 * (b1 - 128) + (b2 - 128)). destruct (Z.leb_spec l 2047); [by intros [= <- <-]|]. intros [= <- <-] _.
    assert (rune l) as Hr by (unfold rune; lia). rewrite runetochar_eq by done. destruct (Z.leb_spec l 127); [lia|]. destruct (Z.leb_spec l 2047); [lia|].
    split; [done|]. split; [done|]. exists str. cbn [app]. f_equal; [|f_equal; [|f_equal]]; unfold l; euclid.
Qed.

Lemma runetochar_bytes r : rune r -> bytes (runetochar r).
Proof.
  intros Hr. rewrite runetochar_eq by done. unfold rune in Hr. destruct (Z.leb_spec r 127); [repeat constructor; lia|].
  destruct (Z.leb_spec r 2047); repeat constructor; euclid.
Qed.

Lemma chartorune_rune r s : rune r -> bytes s -> chartorune (runetochar r ++ s) = Some (r, len (runetochar r)).
Proof. intros Hr Hs. rewrite chartorune_eq by (apply bytes_app; split; [by apply runetochar_bytes | done]). by apply decode_rune. Qed.

Lemma runetochar_len r : rune r -> 1 <= len (runetochar r) <= 3.
Proof. intros Hr. rewrite runetochar_eq by done. destruct (r <=? 127); [cbn; lia|]. destruct (r <=? 2047); cbn; lia. Qed.

(** The first byte of a rune, and the others. *)
Lemma runetochar_shape r : rune r -> exists b t, runetochar r = b :: t /\ middle b = false /\ Forall (fun x => middle x = true) t /\
  (b < 128 -> b = r /\ t = []) /\ (r < 128 -> b = r /\ t = []).
Proof.
  intros Hr. rewrite runetochar_eq by done. unfold rune in Hr. destruct (Z.leb_spec r 127).
  { exists r, []. split_and!; try done. unfold middle. lia. }
  destruct (Z.leb_spec r 2047).
  - exists (192 + r / 64), [128 + r mod 64]. split_and!; [done | unfold middle; euclid | repeat constructor; apply middle_low; euclid | intros; euclid | lia].
  - exists (224 + r / 4096), [128 + (r / 64) mod 64; 128 + r mod 64]. split_and!; [done | unfold middle; euclid | repeat constructor; apply middle_low; euclid | intros; euclid | lia].
Qed.

(** ** Strings of runes *)

Definition encs (rs : list Z) : list Z := concat (map runetochar rs).
Definition runes (rs : list Z) : Prop := Forall (fun r => rune r /\ r <> 0) rs.

Lemma encs_cons r rs : encs (r :: rs) = runetochar r ++ encs rs.
Proof. done. Qed.
Lemma encs_app a b : encs (a ++ b) = encs a ++ encs b.
Proof. unfold encs. by rewrite map_app, concat_app. Qed.
Lemma encs_bytes rs : runes rs -> bytes (encs rs).
Proof. induction 1 as [|r rs [Hr _] _ IH]; [constructor|]. rewrite encs_cons. apply bytes_app. split; [by apply runetochar_bytes | done]. Qed.

(** The string in memory. *)
Definition string_of (rs t : list Z) : list Z := encs rs ++ 0 :: t.

Lemma string_of_bytes rs t : runes rs -> bytes t -> bytes (string_of rs t).
Proof. intros H Ht. apply bytes_app. split; [by apply encs_bytes | by constructor]. Qed.

(** What a loop finds: a byte of its own, or a rune of more. *)
Lemma next_rune r rs t : rune r -> r <> 0 -> bytes (string_of rs t) ->
  exists b, string_of (r :: rs) t !! 0%nat = Some b /\
  if b <? 128 then b = r /\ drop 1 (string_of (r :: rs) t) = string_of rs t /\ len (runetochar r) = 1
  else b <> 0 /\ 128 <= r /\ chartorune (string_of (r :: rs) t) = Some (r, len (runetochar r)) /\ drop (Z.to_nat (len (runetochar r))) (string_of (r :: rs) t) = string_of rs t.
Proof.
  intros Hr H0 Hb. destruct (runetochar_shape r Hr) as (b & x & E & _ & _ & Hlow & Hhigh). exists b.
  assert (string_of (r :: rs) t = runetochar r ++ string_of rs t) as -> by (unfold string_of; by rewrite encs_cons, <- app_assoc). split; [by rewrite E|].
  destruct (Z.ltb_spec b 128) as [H|H].
  - destruct (Hlow H) as [-> ->]. by rewrite E.
  - split; [lia|]. split; [destruct (Z.ltb_spec r 128) as [H2|]; [destruct (Hhigh H2); lia | lia]|].
    split; [by apply chartorune_rune | by rewrite Nat2Z.id, drop_app_length].
Qed.

Lemma encs_cons_length r rs : rune r -> (length (encs rs) < length (encs (r :: rs)))%nat.
Proof. intros Hr. rewrite encs_cons, length_app. pose proof (runetochar_len r Hr). lia. Qed.

Lemma utflen_runes rs t : runes rs -> bytes t -> forall turns n, (length (encs rs) < turns)%nat -> utflen_loop turns (string_of rs t) n = Some (n + len rs).
Proof.
  intros H Ht. induction H as [|r rs [Hr H0] Hrs IH]; intros [|turns] n Hn; try lia; cbn [utflen_loop].
  - cbn. f_equal. lia.
  - destruct (next_rune r rs t Hr H0 (string_of_bytes rs t Hrs Ht)) as (b & -> & X). cbn [mbind option_bind]. change Runeself with 128. pose proof (encs_cons_length r rs Hr).
    destruct (b <? 128).
    + destruct X as (-> & -> & _). destruct (Z.eqb_spec r 0); [done|]. rewrite IH by lia. f_equal. cbn [length]. lia.
    + destruct X as (_ & _ & -> & E). cbn [mbind option_bind snd]. rewrite E, IH by lia. f_equal. cbn [length]. lia.
Qed.

(** *** Searching *)

Lemma strchr_skip a s c p : Forall (fun x => x <> c /\ x <> 0) a -> strchr (a ++ s) c p = strchr s c (p + len a).
Proof.
  intros H. revert p. induction H as [|x a [H1 H2] _ IH]; intros p; cbn [strchr app length]; [f_equal; lia|].
  destruct (Z.eqb_spec x c), (Z.eqb_spec x 0); try done. rewrite IH. f_equal. lia.
Qed.
Lemma strrchr_skip a s c p last : Forall (fun x => x <> c /\ x <> 0) a -> strrchr (a ++ s) c p last = strrchr s c (p + len a) last.
Proof.
  intros H. revert p. induction H as [|x a [H1 H2] _ IH]; intros p; cbn [strrchr app length]; [f_equal; lia|].
  destruct (Z.eqb_spec x c), (Z.eqb_spec x 0); try done. rewrite IH. f_equal. lia.
Qed.

(** A rune of more bytes has none below 128. *)
Lemma high_bytes r c : rune r -> 128 <= r -> c < 128 -> Forall (fun x => x <> c /\ x <> 0) (runetochar r).
Proof.
  intros Hr H Hc. unfold rune in Hr. rewrite runetochar_eq by done. destruct (Z.leb_spec r 127); [lia|]. pose proof (Z.mod_pos_bound r 64). pose proof (Z.mod_pos_bound (r / 64) 64).
  destruct (Z.leb_spec r 2047); repeat constructor; euclid.
Qed.

(** Offsets of the first and of the last [c]. *)
Fixpoint first_of (rs : list Z) (c p : Z) : option Z :=
  match rs with [] => None | r :: rs => if r =? c then Some p else first_of rs c (p + len (runetochar r)) end.
Fixpoint last_of (rs : list Z) (c p : Z) (last : option Z) : option Z :=
  match rs with [] => last | r :: rs => last_of rs c (p + len (runetochar r)) (if r =? c then Some p else last) end.

Lemma strchr_runes rs t c : runes rs -> 0 < c < 128 -> forall p, strchr (string_of rs t) c p = Some (first_of rs c p).
Proof.
  intros H Hc. induction H as [|r rs [Hr H0] Hrs IH]; intros p; unfold string_of in *; cbn [first_of].
  - change (encs [] ++ 0 :: t) with (0 :: t). cbn [strchr strrchr]. by destruct (Z.eqb_spec 0 c); [lia|].
  - rewrite encs_cons, <- app_assoc. destruct (Z.ltb_spec r 128).
    + destruct (runetochar_shape r Hr) as (b & x & E & _ & _ & _ & Hhigh). destruct (Hhigh H) as [-> ->]. rewrite E. cbn [app strchr length].
      destruct (Z.eqb_spec r c); [done|]. destruct (Z.eqb_spec r 0); [done|]. apply IH.
    + rewrite strchr_skip by (apply high_bytes; lia || done). destruct (Z.eqb_spec r c); [lia|]. apply IH.
Qed.

Lemma strrchr_runes rs t c : runes rs -> 0 < c < 128 -> forall p last, strrchr (string_of rs t) c p last = Some (last_of rs c p last).
Proof.
  intros H Hc. induction H as [|r rs [Hr H0] Hrs IH]; intros p last; unfold string_of in *; cbn [last_of].
  - change (encs [] ++ 0 :: t) with (0 :: t). cbn [strchr strrchr]. by destruct (Z.eqb_spec 0 c); [lia|].
  - rewrite encs_cons, <- app_assoc. destruct (Z.ltb_spec r 128).
    + destruct (runetochar_shape r Hr) as (b & x & E & _ & _ & _ & Hhigh). destruct (Hhigh H) as [-> ->]. rewrite E. cbn [app strrchr length].
      destruct (Z.eqb_spec r 0); [done|]. apply IH.
    + rewrite strrchr_skip by (apply high_bytes; lia || done). destruct (Z.eqb_spec r c); [lia|]. apply IH.
Qed.

Lemma utfrune_runes rs t c : runes rs -> bytes t -> 0 < c -> forall turns p, (length (encs rs) < turns)%nat -> utfrune_loop turns (string_of rs t) c p = Some (first_of rs c p).
Proof.
  intros H Ht Hc. induction H as [|r rs [Hr H0] Hrs IH]; intros [|turns] p Hn; try lia; cbn [utfrune_loop first_of]; [done|].
  destruct (next_rune r rs t Hr H0 (string_of_bytes rs t Hrs Ht)) as (b & -> & X). cbn [mbind option_bind]. change Runeself with 128. pose proof (encs_cons_length r rs Hr).
  destruct (b <? 128).
  - destruct X as (-> & -> & E1). destruct (Z.eqb_spec r 0); [done|]. rewrite E1. destruct (Z.eqb_spec r c); [done|]. apply IH. lia.
  - destruct X as (_ & _ & -> & E). cbn [mbind option_bind fst snd]. destruct (Z.eqb_spec r c); [done|]. rewrite E. apply IH. lia.
Qed.

Lemma utfrrune_runes rs t c : runes rs -> bytes t -> 0 < c -> forall turns p last, (length (encs rs) < turns)%nat -> utfrrune_loop turns (string_of rs t) c p last = Some (last_of rs c p last).
Proof.
  intros H Ht Hc. induction H as [|r rs [Hr H0] Hrs IH]; intros [|turns] p last Hn; try lia; cbn [utfrrune_loop last_of]; [done|].
  destruct (next_rune r rs t Hr H0 (string_of_bytes rs t Hrs Ht)) as (b & -> & X). cbn [mbind option_bind]. change Runeself with 128. pose proof (encs_cons_length r rs Hr).
  destruct (b <? 128).
  - destruct X as (-> & -> & E1). destruct (Z.eqb_spec r 0); [done|]. rewrite E1. apply IH. lia.
  - destruct X as (_ & _ & -> & E). cbn [mbind option_bind fst snd]. rewrite E. apply IH. lia.
Qed.

Lemma string_of_length rs t : (length (encs rs) < length (string_of rs t))%nat.
Proof. unfold string_of. rewrite length_app. cbn. lia. Qed.

(** *** Whole characters *)

(** The first runes whose bytes are [m] at most. *)
Fixpoint whole (rs : list Z) (m : Z) : list Z :=
  match rs with
  | [] => []
  | r :: rs => if len (runetochar r) <=? m then r :: whole rs (m - len (runetochar r)) else []
  end.

Lemma whole_prefix rs : forall m, exists rest, rs = whole rs m ++ rest.
Proof.
  induction rs as [|r rs IH]; intros m; [by exists []|]. cbn [whole]. destruct (len (runetochar r) <=? m); [|by exists (r :: rs)].
  destruct (IH (m - len (runetochar r))) as [rest E]. exists rest. by rewrite E at 1.
Qed.

Lemma whole_all rs : forall m, len (encs rs) <= m -> whole rs m = rs.
Proof.
  induction rs as [|r rs IH]; intros m H; [done|]. rewrite encs_cons, len_app in H. cbn [whole]. destruct (Z.leb_spec (len (runetochar r)) m); [|lia]. by rewrite IH by lia.
Qed.

Lemma fullrune_rune r rs t left : rune r -> 0 < left -> fullrune (string_of (r :: rs) t) left = Some (len (runetochar r) <=? left).
Proof.
  intros Hr Hl. unfold fullrune, string_of. rewrite encs_cons, <- app_assoc. destruct (Z.ltb_spec 0 left); [|lia].
  rewrite runetochar_eq by done. unfold rune in Hr. destruct (Z.leb_spec r 127); [|destruct (Z.leb_spec r 2047)]; cbn [app lookup list_lookup mbind option_bind length].
  - f_equal. change Tx with 128. destruct (Z.ltb_spec r 128), (Z.leb_spec (Z.of_nat 1) left); lia || done.
  - f_equal. change Tx with 128. change T3 with 224. destruct (Z.ltb_spec (192 + r / 64) 128); [euclid|]. destruct (Z.ltb_spec (192 + r / 64) 224); [|euclid].
    destruct (Z.ltb_spec 1 left), (Z.leb_spec (Z.of_nat 2) left); lia || done.
  - f_equal. change Tx with 128. change T3 with 224. destruct (Z.ltb_spec (224 + r / 4096) 128); [euclid|]. destruct (Z.ltb_spec (224 + r / 4096) 224); [euclid|].
    destruct (Z.ltb_spec 1 left), (Z.ltb_spec 2 left), (Z.leb_spec (Z.of_nat 3) left); lia || done.
Qed.

Lemma utfnlen_runes rs t : runes rs -> bytes t -> forall turns m n, (length (encs rs) < turns)%nat -> utfnlen_loop turns (string_of rs t) m n = Some (n + len (whole rs m)).
Proof.
  intros H Ht. induction H as [|r rs [Hr H0] Hrs IH]; intros [|turns] m n Hn; try lia; cbn [utfnlen_loop].
  - cbn [whole length]. rewrite Z.add_0_r. by destruct (0 <? m).
  - pose proof (encs_cons_length r rs Hr). pose proof (runetochar_len r Hr). cbn [whole]. destruct (Z.ltb_spec 0 m).
    2: { destruct (Z.leb_spec (len (runetochar r)) m); [lia|]. cbn [length]. by rewrite Z.add_0_r. }
    destruct (next_rune r rs t Hr H0 (string_of_bytes rs t Hrs Ht)) as (b & -> & X). cbn [mbind option_bind]. change Runeself with 128. destruct (b <? 128).
    + destruct X as (-> & -> & ->). destruct (Z.eqb_spec r 0); [done|]. rewrite IH by lia. destruct (Z.leb_spec 1 m); [|lia]. f_equal. cbn [length]. lia.
    + destruct X as (_ & _ & E1 & E). rewrite fullrune_rune by done. cbn [mbind option_bind]. destruct (Z.leb_spec (len (runetochar r)) m); cbn [negb length]; [|by rewrite Z.add_0_r].
      rewrite E1. cbn [mbind option_bind snd]. rewrite E, IH by lia. f_equal. lia.
Qed.

(** Where [n] bytes end: in or behind a character [r], of which [p] is there. *)
Lemma cut_at rs : runes rs -> forall n, 1 <= n <= len (encs rs) ->
  exists ks r p q, whole rs (n - 1) = ks /\ rune r /\ runetochar r = p ++ q /\ p <> [] /\ take (Z.to_nat n) (encs rs) = encs ks ++ p.
Proof.
  induction 1 as [|r rs [Hr H0] Hrs IH]; intros n Hn; [cbn in Hn; lia|]. rewrite encs_cons, len_app in *. pose proof (runetochar_len r Hr).
  cbn [whole]. destruct (Z.leb_spec (len (runetochar r)) (n - 1)).
  - destruct (IH (n - len (runetochar r)) ltac:(lia)) as (ks & r2 & p & q & E1 & Hr2 & E2 & Hp & E3). exists (r :: ks), r2, p, q.
    replace (n - 1 - len (runetochar r)) with (n - len (runetochar r) - 1) by lia. rewrite E1. split_and!; try done.
    rewrite encs_cons, <- app_assoc, <- E3. rewrite take_app_ge by lia. do 2 f_equal. lia.
  - exists [], r, (take (Z.to_nat n) (runetochar r)), (drop (Z.to_nat n) (runetochar r)). rewrite take_drop. split_and!; try done.
    + intros E. pose proof (length_take (runetochar r) (Z.to_nat n)) as E2. rewrite E in E2. cbn in E2. lia.
    + cbn [encs map concat app]. by rewrite take_app_le by lia.
Qed.

Lemma memccpy_all c x : Forall (fun b => b <> 0) x -> bytes x -> forall l n fuel t, (length x < n)%nat -> (length x < length l)%nat ->
  memccpy (len c) (x ++ 0 :: t) n fuel (c ++ l) = Ok (Some (len c + len x + 1)) (c ++ x ++ 0 :: drop (S (length x)) l).
Proof.
  intros H. revert c. induction H as [|b x Hb Hx IH]; intros c HB l [|n] fuel t Hn Hl; try lia; cbn [memccpy app length]; unfold mbind, prog_bind.
  - rewrite put_byte_run by (done || (cbn in Hl; lia)). cbn [Z.eqb]. unfold mret, prog_ret. rewrite <- app_assoc. do 2 f_equal. lia.
  - rewrite put_byte_run by (done || (cbn in Hl; lia)). apply Forall_cons in HB as [Hb2 HB]. unfold is_byte in Hb2. destruct (Z.eqb_spec b 0); [done|].
    rewrite Z.mod_small by lia. replace (len c + 1) with (len (c ++ [b])) by (rewrite len_app; done).
    cbn [length] in Hn, Hl. rewrite IH by (done || rewrite ?length_drop; lia). rewrite drop_drop, len_app, <- app_assoc. cbn [app length]. do 2 f_equal. lia.
Qed.

Lemma memccpy_some c x : Forall (fun b => b <> 0) x -> bytes x -> forall l fuel t, (length x <= length l)%nat ->
  memccpy (len c) (x ++ t) (length x) fuel (c ++ l) = Ok None (c ++ x ++ drop (length x) l).
Proof.
  intros H. revert c. induction H as [|b x Hb Hx IH]; intros c HB l fuel t Hl; cbn [memccpy app length]; unfold mbind, prog_bind; [by rewrite drop_0|].
  rewrite put_byte_run by (done || (cbn in Hl; lia)). apply Forall_cons in HB as [Hb2 HB]. unfold is_byte in Hb2. destruct (Z.eqb_spec b 0); [done|].
  rewrite Z.mod_small by lia. replace (len c + 1) with (len (c ++ [b])) by (rewrite len_app; done).
  cbn [length] in Hl. rewrite IH by (done || rewrite ?length_drop; lia). by rewrite drop_drop, <- app_assoc.
Qed.

Lemma encs_nonzero rs : runes rs -> Forall (fun b => b <> 0) (encs rs).
Proof.
  induction 1 as [|r rs [Hr H0] _ IH]; [constructor|]. rewrite encs_cons. apply Forall_app. split; [|done]. destruct (Z.ltb_spec r 128).
  - destruct (runetochar_shape r Hr) as (b & x & E & _ & _ & _ & Hhigh). destruct (Hhigh H) as [-> ->]. rewrite E. by repeat constructor.
  - eapply Forall_impl; [by apply (high_bytes r 1)|]. by intros x [_ Hx].
Qed.

(** Back over the bytes in the middle of a character to its first. *)
Lemma back_up_run c d b p l fuel : middle b = false -> Forall (fun x => middle x = true) p -> bytes (b :: p) ->
  back_up (length (d ++ b :: p)) (len c) fuel (c ++ (d ++ b :: p) ++ l) = Ok (len (c ++ d)) (c ++ (d ++ b :: p) ++ l).
Proof.
  intros Hb. revert l. induction p as [|x p IH] using rev_ind; intros l Hp HB; rewrite length_app; cbn [length].
  - rewrite Nat.add_1_r. cbn [back_up]. unfold mbind, prog_bind. rewrite (byte_run_at c _ (length d) b) by (rewrite ?lookup_app_l by (rewrite length_app; cbn; lia); try rewrite list_lookup_middle; done).
    rewrite middle_mask by (by apply Forall_cons in HB as [HB _]). rewrite Hb. unfold mret, prog_ret. by rewrite len_app.
  - rewrite length_app. cbn [length]. replace (length d + S (length p + 1))%nat with (S (length (d ++ b :: p))) by (rewrite length_app; cbn [length]; lia).
    apply Forall_app in Hp as [Hp [Hx _]%Forall_cons]. assert (bytes (b :: p) /\ is_byte x) as [HB1 HB2].
    { change (b :: p ++ [x]) with ((b :: p) ++ [x]) in HB. apply bytes_app in HB as [H1 H2]. split; [done | by apply Forall_cons in H2 as [H2 _]]. }
    cbn [back_up]. unfold mbind, prog_bind. replace (d ++ b :: p ++ [x]) with ((d ++ b :: p) ++ [x]) by (by rewrite <- app_assoc).
    rewrite (byte_run_at c _ (length (d ++ b :: p)) x) by (try done; rewrite <- app_assoc; by apply list_lookup_middle).
    rewrite middle_mask, Hx by done. rewrite <- (app_assoc (d ++ b :: p) [x]). by apply IH.
Qed.

(** The NUL goes behind the last character that fits. *)
Lemma utfecpy_runes c l n rs t fuel : runes rs -> 1 <= n <= len l ->
  exists junk, utfecpy (len c) (len c + n) (string_of rs t) fuel (c ++ l) =
    Ok (len c + len (encs (whole rs (n - 1)))) (c ++ encs (whole rs (n - 1)) ++ 0 :: junk ++ drop (Z.to_nat n) l) /\
    len (encs (whole rs (n - 1))) + 1 + len junk = n.
Proof.
  intros Hrs Hn. unfold utfecpy, string_of. destruct (Z.leb_spec (len c + n) (len c)); [lia|]. replace (len c + n - len c) with n by lia. unfold mbind at 1, prog_bind at 1.
  pose proof (encs_nonzero rs Hrs) as Hz. pose proof (encs_bytes rs Hrs) as Hb. destruct (Z.ltb_spec (len (encs rs)) n) as [H1|H1].
  - rewrite memccpy_all by (done || lia). rewrite whole_all by lia. exists (take (Z.to_nat n - S (length (encs rs))) (drop (S (length (encs rs))) l)).
    split; [|rewrite length_take, length_drop; lia]. unfold mret, prog_ret. f_equal; [lia|]. do 3 f_equal.
    rewrite <- (take_drop (Z.to_nat n - S (length (encs rs))) (drop (S (length (encs rs))) l)) at 1. f_equal. rewrite drop_drop. f_equal. lia.
  - destruct (cut_at rs Hrs n ltac:(lia)) as (ks & r & p & q & -> & Hr & Er & Hp & Et).
    assert (length (encs ks ++ p) = Z.to_nat n) as Hlen by (rewrite <- Et, length_take; lia).
    rewrite <- (take_drop (Z.to_nat n) (encs rs)), Et, <- (app_assoc (encs ks ++ p)). rewrite <- Hlen.
    assert (Forall (fun b => b <> 0) (encs ks ++ p) /\ bytes (encs ks ++ p)) as [Hz2 Hb2] by (rewrite <- Et; split; by apply Forall_take).
    rewrite memccpy_some by (done || lia). unfold mbind, prog_bind.
    destruct (runetochar_shape r Hr) as (b & x & E & Hb0 & Hx & _). rewrite Er in E. destruct p as [|b' p]; [done|]. injection E as -> E. rewrite <- E in Hx. apply Forall_app in Hx as [Hx _].
    rewrite back_up_run by (try done; by apply bytes_app in Hb2 as [_ Hb2]). exists p.
    replace (c ++ (encs ks ++ b :: p) ++ drop (length (encs ks ++ b :: p)) l) with ((c ++ encs ks) ++ b :: p ++ drop (length (encs ks ++ b :: p)) l) by (by rewrite <- !app_assoc).
    rewrite put_byte_run by (done || (cbn [length]; lia)). rewrite length_app in Hlen. cbn [length] in Hlen. unfold mret, prog_ret. rewrite len_app. split; [|lia].
    f_equal. rewrite <- !app_assoc. done.
Qed.
