(* ===== verification/NineEncode.v ===== *)
(** * Binary data as text in lib9: base 64, 32 and 16 (u64.c, u32.c, u16.c)

    What is written is a list; [None] is an access behind the end of a buffer of [lim] bytes, or behind the input.  Then it is shown what is decoded again. *)

From Stdlib Require Import ZArith Lia.
From stdpp Require Import base numbers list strings.
From S2P Require Import Prelude NineCall NineWire NineRune.

Open Scope Z_scope.

(** The length of a list as an offset. *)
Abbreviation size l := (Z.of_nat (length l)).

(** [*out++ = c], into a buffer of [lim] bytes. *)
Definition store (lim : Z) (out : list Z) (c : Z) : option (list Z) := if size out <? lim then Some (out ++ [c mod 256]) else None.
(** [*out = 0]; [out - start] is returned. *)
Definition finish (lim : Z) (out : list Z) : option (list Z) := if size out <? lim then Some out else None.

Fixpoint stores (lim : Z) (out l : list Z) : option (list Z) :=
  match l with [] => Some out | c :: l => out ← store lim out c; stores lim out l end.

(** ** u64.c *)

Definition INVAL : Z := 255.
Definition ascii_codes (s : string) : list Z := map (fun c => Z.of_N (Ascii.N_of_ascii c)) (String.list_ascii_of_string s).
Definition t64e : list Z := ascii_codes "ABCDEFGHIJKLMNOPQRSTUVWXYZabcdefghijklmnopqrstuvwxyz0123456789+/".
(** The table, by its rows. *)
Definition t64d : list Z :=
  repeat INVAL 32 ++
  repeat INVAL 11 ++ [62] ++ repeat INVAL 3 ++ [63] ++
  seqZ 52 10 ++ repeat INVAL 6 ++
  [INVAL] ++ seqZ 0 15 ++
  seqZ 15 11 ++ repeat INVAL 5 ++
  [INVAL] ++ seqZ 26 15 ++
  seqZ 41 11 ++ repeat INVAL 5 ++
  repeat INVAL 128.

(** A digit of 6 bits. *)
Definition digit64 (b24 k : Z) : Z := nth (Z.to_nat (Z.land (Z.shiftr b24 k) 63)) t64e 0.

(** [dec64]: the state of the loop is [i], [b24] and what was written; [None] for the result means that the buffer is exhausted. *)
Fixpoint dec64_loop (lim : Z) (inp : list Z) (i b24 : Z) (out : list Z) : list Z :=
  match inp with
  | [] =>
      if i =? 2 then
        if lim <? size out + 1 then out else out ++ [Z.shiftr b24 16 mod 256]
      else if i =? 3 then
        if lim <? size out + 2 then out else out ++ [Z.shiftr b24 16 mod 256; Z.shiftr b24 8 mod 256]
      else out
  | x :: inp =>
      let c := nth (Z.to_nat x) t64d 0 in
      if c =? INVAL then dec64_loop lim inp i b24 out else
      if i =? 0 then dec64_loop lim inp 1 (Z.shiftl c 18) out else
      if i =? 1 then dec64_loop lim inp 2 (Z.lor b24 (Z.shiftl c 12)) out else
      if i =? 2 then dec64_loop lim inp 3 (Z.lor b24 (Z.shiftl c 6)) out else
      if lim <? size out + 3 then out else
      let b24 := Z.lor b24 c in
      dec64_loop lim inp 0 b24 (out ++ [Z.shiftr b24 16 mod 256; Z.shiftr b24 8 mod 256; b24 mod 256])
  end.
Definition dec64 (lim : Z) (inp : list Z) : list Z := dec64_loop lim inp 0 0 [].

Fixpoint enc64_loop (lim : Z) (inp out : list Z) {struct inp} : option (list Z) :=
  match inp with
  | x :: y :: z :: inp =>
      let b24 := Z.lor (Z.lor (Z.shiftl x 16) (Z.shiftl y 8)) z in
      if lim <=? size out + 4 then finish lim out else
      out ← stores lim out [nth (Z.to_nat (Z.shiftr b24 18)) t64e 0; digit64 b24 12; digit64 b24 6; digit64 b24 0];
      enc64_loop lim inp out
  | [x; y] =>
      let b24 := Z.lor (Z.shiftl x 16) (Z.shiftl y 8) in
      if lim <=? size out + 4 then finish lim out else
      out ← stores lim out [nth (Z.to_nat (Z.shiftr b24 18)) t64e 0; digit64 b24 12; digit64 b24 6; 61];
      finish lim out
  | [x] =>
      let b24 := Z.shiftl x 16 in
      if lim <=? size out + 4 then finish lim out else
      out ← stores lim out [nth (Z.to_nat (Z.shiftr b24 18)) t64e 0; digit64 b24 12; 61; 61];
      finish lim out
  | [] => finish lim out
  end.
Definition enc64 (lim : Z) (inp : list Z) : option (list Z) := enc64_loop lim inp [].

(** ** u32.c *)

Definition tab : list Z := ascii_codes "23456789abcdefghijkmnpqrstuvwxyz".
Definition digit32 (j : Z) : Z := nth (Z.to_nat j) tab 0.

(** [strchr(tab,(int)src[i])]: the NUL at the end of the table is found, too. *)
Fixpoint index_in (l : list Z) (c p : Z) : option Z :=
  match l with [] => if c =? 0 then Some p else None | x :: l => if x =? c then Some p else index_in l c (p + 1) end.
Definition u_of (c : Z) : Z := default 0 (index_in tab c 0).

Definition byte0 (u0 u1 : Z) : Z := Z.lor (Z.shiftl u0 3) (Z.land 7 (Z.shiftr u1 2)).
Definition byte1 (u1 u2 u3 : Z) : Z := Z.lor (Z.lor (Z.shiftl (Z.land 3 u1) 6) (Z.shiftl u2 1)) (Z.land 1 (Z.shiftr u3 4)).
Definition byte2 (u3 u4 : Z) : Z := Z.lor (Z.shiftl (Z.land 15 u3) 4) (Z.land 15 (Z.shiftr u4 1)).
Definition byte3 (u4 u5 u6 : Z) : Z := Z.lor (Z.lor (Z.shiftl (Z.land 1 u4) 7) (Z.shiftl u5 2)) (Z.land 3 (Z.shiftr u6 3)).
Definition byte4 (u6 u7 : Z) : Z := Z.lor (Z.shiftl (Z.land 7 u6) 5) u7.

(** What is left behind the groups of eight; [None] is -1. *)
Definition dec32_rest (lim : Z) (u out : list Z) : option (option (list Z)) :=
  match u with
  | [] => Some (Some out)
  | [u0; u1] => out ← stores lim out [byte0 u0 u1]; Some (Some out)
  | [u0; u1; u2; u3] => out ← stores lim out [byte0 u0 u1; byte1 u1 u2 u3]; Some (Some out)
  | [u0; u1; u2; u3; u4] => out ← stores lim out [byte0 u0 u1; byte1 u1 u2 u3; byte2 u3 u4]; Some (Some out)
  | [u0; u1; u2; u3; u4; u5; u6] => out ← stores lim out [byte0 u0 u1; byte1 u1 u2 u3; byte2 u3 u4; byte3 u4 u5 u6]; Some (Some out)
  | _ => Some None
  end.
Fixpoint dec32_loop (lim : Z) (src out : list Z) {struct src} : option (option (list Z)) :=
  match src with
  | c0 :: c1 :: c2 :: c3 :: c4 :: c5 :: c6 :: c7 :: src =>
      let u0 := u_of c0 in let u1 := u_of c1 in let u2 := u_of c2 in let u3 := u_of c3 in
      let u4 := u_of c4 in let u5 := u_of c5 in let u6 := u_of c6 in let u7 := u_of c7 in
      out ← stores lim out [byte0 u0 u1; byte1 u1 u2 u3; byte2 u3 u4; byte3 u4 u5 u6; byte4 u6 u7];
      dec32_loop lim src out
  | _ => dec32_rest lim (map u_of src) out
  end.
Definition dec32 (ndest : Z) (src : list Z) : option (option (list Z)) :=
  if ndest + 1 <? Z.quot (5 * size src + 7) 8 then Some None else dec32_loop ndest src [].

(** The digits of five bytes. *)
Definition d0 (a : Z) : Z := Z.land 31 (Z.shiftr a 3).
Definition d1 (a b : Z) : Z := Z.lor (Z.land 28 (Z.shiftl a 2)) (Z.land 3 (Z.shiftr b 6)).
Definition d2 (b : Z) : Z := Z.land 31 (Z.shiftr b 1).
Definition d3 (b c : Z) : Z := Z.lor (Z.land 16 (Z.shiftl b 4)) (Z.land 15 (Z.shiftr c 4)).
Definition d4 (c d : Z) : Z := Z.lor (Z.land 30 (Z.shiftl c 1)) (Z.land 1 (Z.shiftr d 7)).
Definition d5 (d : Z) : Z := Z.land 31 (Z.shiftr d 2).
Definition d6 (d e : Z) : Z := Z.lor (Z.land 24 (Z.shiftl d 3)) (Z.land 7 (Z.shiftr e 5)).
Definition d7 (e : Z) : Z := Z.land 31 e.

Fixpoint enc32_loop (lim : Z) (src out : list Z) {struct src} : option (list Z) :=
  match src with
  | a :: b :: c :: d :: e :: src =>
      out ← stores lim out (map digit32 [d0 a; d1 a b; d2 b; d3 b c; d4 c d; d5 d; d6 d e; d7 e]);
      enc32_loop lim src out
  | [] => finish lim out
  | [a] => out ← stores lim out (map digit32 [d0 a; Z.land 28 (Z.shiftl a 2)]); finish lim out
  | [a; b] => out ← stores lim out (map digit32 [d0 a; d1 a b; d2 b]); finish lim out
  | [a; b; c] => out ← stores lim out (map digit32 [d0 a; d1 a b; d2 b; Z.land 16 (Z.shiftl b 4)]); finish lim out
  | [a; b; c; d] => out ← stores lim out (map digit32 [d0 a; d1 a b; d2 b; d3 b c; Z.land 30 (Z.shiftl c 1)]); finish lim out
  end.
(** [Some None] is -1. *)
Definition enc32 (ndest : Z) (src : list Z) : option (option (list Z)) :=
  if ndest <=? Z.quot (8 * size src + 4) 5 then Some None else out ← enc32_loop ndest src []; Some (Some out).

(** ** u16.c *)

Definition t16e : list Z := ascii_codes "0123456789ABCDEF".

Fixpoint dec16_loop (lim : Z) (inp : list Z) (w i : Z) (out : list Z) : list Z :=
  match inp with
  | [] => out
  | c :: inp =>
      let digit (c : Z) : list Z :=
        let w := Z.shiftl w 4 + c in
        let i := i + 1 in
        if i =? 2 then
          if lim <? size out + 1 then out else dec16_loop lim inp 0 0 (out ++ [w mod 256])
        else dec16_loop lim inp w i out in
      if (48 <=? c) && (c <=? 57) then digit (c - 48) else
      if (97 <=? c) && (c <=? 122) then digit (c - 97 + 10) else
      if (65 <=? c) && (c <=? 90) then digit (c - 65 + 10) else
      dec16_loop lim inp w i out
  end.
Definition dec16 (lim : Z) (inp : list Z) : list Z := dec16_loop lim inp 0 0 [].

Fixpoint enc16_loop (lim : Z) (inp out : list Z) : option (list Z) :=
  match inp with
  | [] => finish lim out
  | c :: inp =>
      if lim <=? size out + 2 then finish lim out else
      out ← stores lim out [nth (Z.to_nat (Z.shiftr c 4)) t16e 0; nth (Z.to_nat (Z.land c 15)) t16e 0];
      enc16_loop lim inp out
  end.
Definition enc16 (lim : Z) (inp : list Z) : option (list Z) := enc16_loop lim inp [].

(** A short run of each. *)
Example encodes_abc : enc64 20 [97; 98; 99; 100] = Some (ascii_codes "YWJjZA==") /\ dec64 4 (ascii_codes "YWJjZA==") = [97; 98; 99; 100] /\
  enc16 20 [171; 12] = Some (ascii_codes "AB0C") /\ dec16 2 (ascii_codes "ab0C") = [171; 12] /\
  enc32 20 [1; 2; 3; 4; 5] = Some (Some (ascii_codes "26328327")) /\ dec32 5 (ascii_codes "26328327") = Some (Some [1; 2; 3; 4; 5]).
Proof. by vm_compute. Qed.

(** ** What is decoded again *)

Lemma size_app (a b : list Z) : size (a ++ b) = size a + size b.
Proof. rewrite length_app. lia. Qed.

Lemma every_below n (P : Z -> bool) : forallb P (seqZ 0 n) = true -> forall b, 0 <= b < n -> P b = true.
Proof. intros H b Hb. rewrite forallb_forall in H. apply H. apply list_elem_of_In, elem_of_seqZ. lia. Qed.

(** Bytes that fit are stored. *)
Lemma stores_run lim l : forall out, bytes l -> size out + size l <= lim -> stores lim out l = Some (out ++ l).
Proof.
  induction l as [|c l IH]; intros out H Hn; cbn [stores length] in *; [by rewrite app_nil_r|]. apply Forall_cons in H as [Hc H]. unfold store.
  destruct (Z.ltb_spec (size out) lim); [|lia]. cbn [mbind option_bind]. unfold is_byte in Hc. rewrite Z.mod_small by lia. rewrite IH by (rewrite ?size_app; cbn [length]; done || lia). by rewrite <- app_assoc.
Qed.

(** ** Base 64 *)

Lemma t64 d : 0 <= d < 64 -> nth (Z.to_nat (nth (Z.to_nat d) t64e 0)) t64d 0 = d /\ is_byte (nth (Z.to_nat d) t64e 0).
Proof.
  intros Hd. assert ((nth (Z.to_nat (nth (Z.to_nat d) t64e 0)) t64d 0 =? d) && (0 <=? nth (Z.to_nat d) t64e 0) && (nth (Z.to_nat d) t64e 0 <? 256) = true) as H.
  { revert d Hd. apply (every_below 64). by vm_compute. }
  unfold is_byte. lia.
Qed.

Definition c64 (d : Z) : Z := nth (Z.to_nat d) t64e 0.

Lemma dec64_digit lim d s i b out : 0 <= d < 64 -> dec64_loop lim (c64 d :: s) i b out =
  if i =? 0 then dec64_loop lim s 1 (Z.shiftl d 18) out else
  if i =? 1 then dec64_loop lim s 2 (Z.lor b (Z.shiftl d 12)) out else
  if i =? 2 then dec64_loop lim s 3 (Z.lor b (Z.shiftl d 6)) out else
  if lim <? size out + 3 then out else
  dec64_loop lim s 0 (Z.lor b d) (out ++ [Z.shiftr (Z.lor b d) 16 mod 256; Z.shiftr (Z.lor b d) 8 mod 256; Z.lor b d mod 256]).
Proof.
  intros Hd. cbn [dec64_loop]. unfold c64. rewrite (proj1 (t64 d Hd)). unfold INVAL. by destruct (Z.eqb_spec d 255); [lia|].
Qed.

Lemma dec64_pad lim s i b out : dec64_loop lim (61 :: s) i b out = dec64_loop lim s i b out.
Proof. done. Qed.

(** A word of 24 bits, its digits and its bytes. *)
Lemma word24 x y z : is_byte x -> is_byte y -> is_byte z -> Z.lor (Z.lor (Z.shiftl x 16) (Z.shiftl y 8)) z = 65536 * x + 256 * y + z.
Proof.
  unfold is_byte. intros Hx Hy Hz. replace (Z.shiftl x 16) with (Z.shiftl (Z.shiftl x 8) 8) by (by rewrite Z.shiftl_shiftl by lia).
  rewrite <- Z.shiftl_lor. rewrite (high_or 8 x y) by lia. rewrite (high_or 8) by lia. lia.
Qed.

Definition digits64 (w : Z) : list Z := [w / 262144; (w / 4096) mod 64; (w / 64) mod 64; w mod 64].

Lemma digit64_eq w k : 0 <= k -> digit64 w k = c64 ((w / 2 ^ k) mod 64).
Proof. intros Hk. unfold digit64, c64. rewrite Z.shiftr_div_pow2 by lia. change 63 with (Z.shiftl 1 6 - 1). by rewrite land_mask by lia. Qed.

Lemma top64_eq w : nth (Z.to_nat (Z.shiftr w 18)) t64e 0 = c64 (w / 262144).
Proof. unfold c64. by rewrite Z.shiftr_div_pow2 by lia. Qed.

(** The digits of a word put together. *)
Lemma joined3 w : 0 <= w < 16777216 -> Z.lor (Z.lor (Z.shiftl (w / 262144) 18) (Z.shiftl ((w / 4096) mod 64) 12)) (Z.shiftl ((w / 64) mod 64) 6) = 64 * (w / 64).
Proof.
  intros Hw. replace (Z.shiftl (w / 262144) 18) with (Z.shiftl (Z.shiftl (w / 262144) 6) 12) by (by rewrite Z.shiftl_shiftl by lia). rewrite <- Z.shiftl_lor.
  rewrite (high_or 6) by (try lia; apply Z.mod_pos_bound; lia). 
  replace (Z.shiftl (2 ^ 6 * (w / 262144) + (w / 4096) mod 64) 12) with (Z.shiftl (Z.shiftl (2 ^ 6 * (w / 262144) + (w / 4096) mod 64) 6) 6) by (by rewrite Z.shiftl_shiftl by lia).
  rewrite <- Z.shiftl_lor. rewrite (high_or 6) by (try lia; apply Z.mod_pos_bound; lia). rewrite Z.shiftl_mul_pow2 by lia. change (2 ^ 6) with 64. euclid.
Qed.
Lemma joined2 w : 0 <= w < 16777216 -> Z.lor (Z.shiftl (w / 262144) 18) (Z.shiftl ((w / 4096) mod 64) 12) = 4096 * (w / 4096).
Proof.
  intros Hw. replace (Z.shiftl (w / 262144) 18) with (Z.shiftl (Z.shiftl (w / 262144) 6) 12) by (by rewrite Z.shiftl_shiftl by lia). rewrite <- Z.shiftl_lor.
  rewrite (high_or 6) by (try lia; apply Z.mod_pos_bound; lia). rewrite Z.shiftl_mul_pow2 by lia. change (2 ^ 6) with 64. change (2 ^ 12) with 4096. euclid.
Qed.
Lemma joined4 w : 0 <= w < 16777216 -> Z.lor (64 * (w / 64)) (w mod 64) = w.
Proof.
  intros Hw. replace (64 * (w / 64)) with (Z.shiftl (w / 64) 6) by (rewrite Z.shiftl_mul_pow2 by lia; lia). rewrite (high_or 6) by (try lia; apply Z.mod_pos_bound; lia).
  change (2 ^ 6) with 64. euclid.
Qed.

Lemma shifts24 w : Z.shiftr w 16 = w / 65536 /\ Z.shiftr w 8 = w / 256.
Proof. rewrite !Z.shiftr_div_pow2 by lia. done. Qed.

(** Four digits are three bytes. *)
Lemma dec64_group lim x y z s b out : is_byte x -> is_byte y -> is_byte z -> size out + 3 <= lim -> let w := 65536 * x + 256 * y + z in
  exists b', dec64_loop lim (map c64 (digits64 w) ++ s) 0 b out = dec64_loop lim s 0 b' (out ++ [x; y; z]).
Proof.
  intros Hx Hy Hz Hl w. unfold is_byte in *. assert (0 <= w < 16777216) as Hw by lia. cbn [digits64 map app]. rewrite dec64_digit by euclid. cbn [Z.eqb]. rewrite dec64_digit by euclid. cbn [Z.eqb Pos.eqb].
  rewrite dec64_digit by euclid. cbn [Z.eqb Pos.eqb]. rewrite dec64_digit by euclid. cbn [Z.eqb Pos.eqb]. destruct (Z.ltb_spec lim (size out + 3)); [lia|].
  rewrite joined3, joined4 by lia. exists w. destruct (shifts24 w) as [-> ->]. do 3 f_equal; [|f_equal; [|f_equal]]; unfold w; euclid.
Qed.

Lemma dec64_two lim x y b out : is_byte x -> is_byte y -> size out + 2 <= lim -> let w := 65536 * x + 256 * y in
  dec64_loop lim [c64 (w / 262144); c64 ((w / 4096) mod 64); c64 ((w / 64) mod 64); 61] 0 b out = out ++ [x; y].
Proof.
  intros Hx Hy Hl w. unfold is_byte in *. assert (0 <= w < 16777216) as Hw by lia. rewrite dec64_digit by euclid. cbn [Z.eqb]. rewrite dec64_digit by euclid. cbn [Z.eqb Pos.eqb].
  rewrite dec64_digit by euclid. cbn [Z.eqb Pos.eqb]. rewrite dec64_pad, joined3 by lia. cbn [dec64_loop Z.eqb Pos.eqb]. destruct (Z.ltb_spec lim (size out + 2)); [lia|].
  destruct (shifts24 (64 * (w / 64))) as [-> ->]. f_equal. unfold w. f_equal; [|f_equal]; euclid.
Qed.
Lemma dec64_one lim x b out : is_byte x -> size out + 1 <= lim -> let w := 65536 * x in
  dec64_loop lim [c64 (w / 262144); c64 ((w / 4096) mod 64); 61; 61] 0 b out = out ++ [x].
Proof.
  intros Hx Hl w. unfold is_byte in *. assert (0 <= w < 16777216) as Hw by lia. rewrite dec64_digit by euclid. cbn [Z.eqb]. rewrite dec64_digit by euclid. cbn [Z.eqb Pos.eqb].
  rewrite !dec64_pad, joined2 by lia. cbn [dec64_loop Z.eqb Pos.eqb]. destruct (Z.ltb_spec lim (size out + 1)); [lia|].
  destruct (shifts24 (4096 * (w / 4096))) as [-> _]. f_equal. unfold w. f_equal. euclid.
Qed.

Lemma c64_bytes l : Forall (fun d => 0 <= d < 64) l -> bytes (map c64 l).
Proof. induction 1 as [|d l Hd _ IH]; constructor; [apply (proj2 (t64 d Hd)) | done]. Qed.

(** Lists in groups of three. *)
Lemma by_threes {A} (P : list A -> Prop) : P [] -> (forall x, P [x]) -> (forall x y, P [x; y]) -> (forall x y z l, P l -> P (x :: y :: z :: l)) -> forall l, P l.
Proof. intros H0 H1 H2 H3. fix IH 1. intros [|x [|y [|z l]]]; [done | apply H1 | apply H2 | apply H3, IH]. Qed.

(** What [t], written for [inp] behind [out], is decoded as: the first [k] bytes. *)
Definition codes64 (lim : Z) (inp out t : list Z) (k : nat) : Prop :=
  enc64_loop lim inp out = Some (out ++ t) /\ size out + size t < lim /\ (k <= length inp)%nat /\
  (forall lim2 b dout, size dout + size inp <= lim2 -> dec64_loop lim2 t 0 b dout = dout ++ take k inp) /\
  (size out + 4 * ((size inp + 2) / 3) < lim -> k = length inp).

(** The buffer is full: nothing more is written. *)
Lemma enc64_full lim inp out : size out < lim -> enc64_loop lim inp out = finish lim out -> ~ size out + 4 * ((size inp + 2) / 3) < lim -> codes64 lim inp out [] 0.
Proof.
  intros H1 H2 H3. unfold codes64. rewrite H2, app_nil_r. unfold finish. destruct (Z.ltb_spec (size out) lim); [|lia]. cbn [length].
  split_and!; [done | lia | lia | intros; cbn; by rewrite app_nil_r | done].
Qed.

(** A last group of two or of one byte. *)
Lemma codes64_last lim inp out t : size inp < 3 -> inp <> [] -> bytes t -> size t = 4 -> size out + 4 < lim ->
  enc64_loop lim inp out = (if lim <=? size out + 4 then finish lim out else o ← stores lim out t; finish lim o) ->
  (forall lim2 b dout, size dout + size inp <= lim2 -> dec64_loop lim2 t 0 b dout = dout ++ inp) -> codes64 lim inp out t (length inp).
Proof.
  intros H1 H2 Ht Hs Hl E Hd. unfold codes64. rewrite E. destruct (Z.leb_spec lim (size out + 4)); [lia|]. rewrite stores_run by (done || lia). cbn [mbind option_bind].
  unfold finish. rewrite size_app. destruct (Z.ltb_spec (size out + size t) lim); [|lia]. split_and!; [done | lia | lia | | done]. intros. rewrite firstn_all. by apply Hd.
Qed.

Lemma c64_byte d : 0 <= d < 64 -> is_byte (c64 d).
Proof. intros Hd. apply (proj2 (t64 d Hd)). Qed.

Lemma enc64_codes lim inp : bytes inp -> forall out, size out < lim -> exists t k, codes64 lim inp out t k.
Proof.
  induction inp as [|x|x y|x y z inp IH] using by_threes; intros H out Hout.
  - exists [], 0%nat. unfold codes64. cbn [enc64_loop length]. unfold finish. destruct (Z.ltb_spec (size out) lim); [|lia]. rewrite app_nil_r. split_and!; [done | lia | lia | intros; cbn; by rewrite app_nil_r | done].
  - apply Forall_cons in H as [Hx _]. destruct (Z.ltb_spec (size out + 4) lim) as [Hl|Hl].
    2: { exists [], 0%nat. apply enc64_full; [done | cbn [enc64_loop]; by destruct (Z.leb_spec lim (size out + 4)); [|lia] | cbn [length]; euclid]. }
    exists [c64 (65536 * x / 262144); c64 ((65536 * x / 4096) mod 64); 61; 61], 1%nat. pose proof Hx as Hx2. unfold is_byte in Hx2.
    apply (codes64_last lim [x]); [cbn; lia | done | repeat constructor; try (apply c64_byte; euclid); lia | done | done | |].
    + cbn [enc64_loop]. by rewrite top64_eq, digit64_eq, (Z.shiftl_mul_pow2 x 16), (Z.mul_comm x) by lia.
    + intros. apply dec64_one; [done | cbn [length] in *; lia].
  - apply Forall_cons in H as [Hx H]. apply Forall_cons in H as [Hy _]. destruct (Z.ltb_spec (size out + 4) lim) as [Hl|Hl].
    2: { exists [], 0%nat. apply enc64_full; [done | cbn [enc64_loop]; by destruct (Z.leb_spec lim (size out + 4)); [|lia] | cbn [length]; euclid]. }
    set (w := 65536 * x + 256 * y). pose proof Hx as Hx2. pose proof Hy as Hy2. unfold is_byte in Hx2, Hy2.
    exists [c64 (w / 262144); c64 ((w / 4096) mod 64); c64 ((w / 64) mod 64); 61], 2%nat.
    apply (codes64_last lim [x; y]); [cbn; lia | done | repeat constructor; try (apply c64_byte; unfold w; euclid); lia | done | done | |].
    + cbn [enc64_loop]. rewrite top64_eq, !digit64_eq by lia. pose proof (word24 x y 0 Hx Hy ltac:(unfold is_byte; lia)) as E. rewrite Z.lor_0_r, Z.add_0_r in E. by rewrite E.
    + intros. apply dec64_two; [done | done | cbn [length] in *; lia].
  - apply Forall_cons in H as [Hx H]. apply Forall_cons in H as [Hy H]. apply Forall_cons in H as [Hz H]. destruct (Z.ltb_spec (size out + 4) lim) as [Hl|Hl].
    2: { exists [], 0%nat. apply enc64_full; [done | cbn [enc64_loop]; by destruct (Z.leb_spec lim (size out + 4)); [|lia] | cbn [length]; euclid]. }
    set (w := 65536 * x + 256 * y + z). pose proof Hx as Hx2. pose proof Hy as Hy2. pose proof Hz as Hz2. unfold is_byte in Hx2, Hy2, Hz2.
    set (g := map c64 (digits64 w)). assert (bytes g) as Hg by (apply c64_bytes; repeat constructor; unfold w; euclid).
    destruct (IH H (out ++ g)) as (t & k & E & Hs & Hk & Hd & Ha); [rewrite size_app; cbn; lia|]. rewrite size_app in Hs, Ha. change (size g) with 4 in Hs, Ha.
    exists (g ++ t), (S (S (S k))). unfold codes64. rewrite size_app. change (size g) with 4. cbn [length]. split_and!.
    + cbn [enc64_loop]. destruct (Z.leb_spec lim (size out + 4)); [lia|]. rewrite top64_eq, !digit64_eq, word24 by (done || lia). fold w.
      change (2 ^ 0) with 1. rewrite Z.div_1_r. change [_; _; _; _] with g. rewrite stores_run by (done || (change (size g) with 4; lia)). cbn [mbind option_bind]. by rewrite E, <- app_assoc.
    + lia.
    + lia.
    + intros lim2 b dout Hlim. destruct (dec64_group lim2 x y z t b dout Hx Hy Hz ltac:(lia)) as [b' Eb]. fold w in Eb. unfold g. rewrite Eb, Hd by (rewrite size_app; cbn [length]; lia). by rewrite <- app_assoc.
    + intros. f_equal. f_equal. f_equal. apply Ha. euclid.
Qed.

(** ** Base 32 *)

Lemma t32 d : 0 <= d < 32 -> u_of (digit32 d) = d /\ is_byte (digit32 d).
Proof.
  intros Hd. assert ((u_of (digit32 d) =? d) && (0 <=? digit32 d) && (digit32 d <? 256) = true) as H; [|unfold is_byte; lia].
  revert d Hd. apply (every_below 32). by vm_compute.
Qed.

Ltac by_table n x Hx := apply Z.eqb_eq; revert x Hx; apply (every_below n); by vm_compute.

(** The digits as numbers. *)
Lemma d0_eq a : is_byte a -> d0 a = a / 8.
Proof. intros Ha. by_table 256 a Ha. Qed.
Lemma d1_low a : is_byte a -> Z.land 28 (Z.shiftl a 2) = Z.shiftl (a mod 8) 2.
Proof. intros Ha. by_table 256 a Ha. Qed.
Lemma d2_eq a : is_byte a -> d2 a = (a / 2) mod 32.
Proof. intros Ha. by_table 256 a Ha. Qed.
Lemma d3_low a : is_byte a -> Z.land 16 (Z.shiftl a 4) = Z.shiftl (a mod 2) 4.
Proof. intros Ha. by_table 256 a Ha. Qed.
Lemma d4_low a : is_byte a -> Z.land 30 (Z.shiftl a 1) = Z.shiftl (a mod 16) 1.
Proof. intros Ha. by_table 256 a Ha. Qed.
Lemma d5_eq a : is_byte a -> d5 a = (a / 4) mod 32.
Proof. intros Ha. by_table 256 a Ha. Qed.
Lemma d6_low a : is_byte a -> Z.land 24 (Z.shiftl a 3) = Z.shiftl (a mod 4) 3.
Proof. intros Ha. by_table 256 a Ha. Qed.
Lemma d7_eq a : is_byte a -> d7 a = a mod 32.
Proof. intros Ha. by_table 256 a Ha. Qed.
Lemma d_high a : is_byte a -> Z.land 3 (Z.shiftr a 6) = a / 64 /\ Z.land 15 (Z.shiftr a 4) = a / 16 /\ Z.land 1 (Z.shiftr a 7) = a / 128 /\ Z.land 7 (Z.shiftr a 5) = a / 32.
Proof. intros Ha. split_and!; by_table 256 a Ha. Qed.

Lemma d1_eq a b : is_byte a -> is_byte b -> d1 a b = 4 * (a mod 8) + b / 64.
Proof. intros Ha Hb. unfold d1. rewrite d1_low by done. destruct (d_high b Hb) as (-> & _). unfold is_byte in *. rewrite high_or by euclid. done. Qed.
Lemma d3_eq a b : is_byte a -> is_byte b -> d3 a b = 16 * (a mod 2) + b / 16.
Proof. intros Ha Hb. unfold d3. rewrite d3_low by done. destruct (d_high b Hb) as (_ & -> & _). unfold is_byte in *. rewrite high_or by euclid. done. Qed.
Lemma d4_eq a b : is_byte a -> is_byte b -> d4 a b = 2 * (a mod 16) + b / 128.
Proof. intros Ha Hb. unfold d4. rewrite d4_low by done. destruct (d_high b Hb) as (_ & _ & -> & _). unfold is_byte in *. rewrite high_or by euclid. done. Qed.
Lemma d6_eq a b : is_byte a -> is_byte b -> d6 a b = 8 * (a mod 4) + b / 32.
Proof. intros Ha Hb. unfold d6. rewrite d6_low by done. destruct (d_high b Hb) as (_ & _ & _ & ->). unfold is_byte in *. rewrite high_or by euclid. done. Qed.

(** The bytes as numbers. *)
Lemma u_parts u : 0 <= u < 32 -> Z.land 7 (Z.shiftr u 2) = u / 4 /\ Z.land 3 u = u mod 4 /\ Z.land 1 (Z.shiftr u 4) = u / 16 /\ Z.land 15 u = u mod 16 /\
  Z.land 15 (Z.shiftr u 1) = u / 2 /\ Z.land 1 u = u mod 2 /\ Z.land 3 (Z.shiftr u 3) = u / 8 /\ Z.land 7 u = u mod 8.
Proof. intros Hu. split_and!; by_table 32 u Hu. Qed.

Lemma byte0_eq u v : 0 <= u < 32 -> 0 <= v < 32 -> byte0 u v = 8 * u + v / 4.
Proof. intros Hu Hv. unfold byte0. destruct (u_parts v Hv) as (-> & _). rewrite high_or by euclid. done. Qed.
Lemma byte1_eq u v x : 0 <= u < 32 -> 0 <= v < 32 -> 0 <= x < 32 -> byte1 u v x = 64 * (u mod 4) + 2 * v + x / 16.
Proof.
  intros Hu Hv Hx. unfold byte1. destruct (u_parts u Hu) as (_ & -> & _). destruct (u_parts x Hx) as (_ & _ & -> & _).
  replace (Z.shiftl (u mod 4) 6) with (Z.shiftl (Z.shiftl (u mod 4) 5) 1) by (by rewrite Z.shiftl_shiftl by lia). rewrite <- Z.shiftl_lor, !high_or by euclid. lia.
Qed.
Lemma byte2_eq u v : 0 <= u < 32 -> 0 <= v < 32 -> byte2 u v = 16 * (u mod 16) + v / 2.
Proof. intros Hu Hv. unfold byte2. destruct (u_parts u Hu) as (_ & _ & _ & -> & _). destruct (u_parts v Hv) as (_ & _ & _ & _ & -> & _). rewrite high_or by euclid. done. Qed.
Lemma byte3_eq u v x : 0 <= u < 32 -> 0 <= v < 32 -> 0 <= x < 32 -> byte3 u v x = 128 * (u mod 2) + 4 * v + x / 8.
Proof.
  intros Hu Hv Hx. unfold byte3. destruct (u_parts u Hu) as (_ & _ & _ & _ & _ & -> & _). destruct (u_parts x Hx) as (_ & _ & _ & _ & _ & _ & -> & _).
  replace (Z.shiftl (u mod 2) 7) with (Z.shiftl (Z.shiftl (u mod 2) 5) 2) by (by rewrite Z.shiftl_shiftl by lia). rewrite <- Z.shiftl_lor, !high_or by euclid. lia.
Qed.
Lemma byte4_eq u v : 0 <= u < 32 -> 0 <= v < 32 -> byte4 u v = 32 * (u mod 8) + v.
Proof. intros Hu Hv. unfold byte4. destruct (u_parts u Hu) as (_ & _ & _ & _ & _ & _ & _ & ->). rewrite high_or by euclid. done. Qed.

(** Five bits of each. *)
Definition five (u : Z) : Prop := 0 <= u < 32.
Lemma digits_five a b : is_byte a -> is_byte b -> five (d0 a) /\ five (d1 a b) /\ five (d2 a) /\ five (d3 a b) /\ five (d4 a b) /\ five (d5 a) /\ five (d6 a b) /\ five (d7 a) /\
  five (Z.land 28 (Z.shiftl a 2)) /\ five (Z.land 16 (Z.shiftl a 4)) /\ five (Z.land 30 (Z.shiftl a 1)).
Proof.
  intros Ha Hb. rewrite d0_eq, d1_eq, d2_eq, d3_eq, d4_eq, d5_eq, d6_eq, d7_eq, d1_low, d3_low, d4_low, !Z.shiftl_mul_pow2 by (done || lia). change (2 ^ 2) with 4. change (2 ^ 4) with 16. change (2 ^ 1) with 2.
  unfold is_byte, five in *. split_and!; euclid.
Qed.

(** Bytes from digits. *)
Lemma byte0_of a b : is_byte a -> is_byte b -> byte0 (d0 a) (d1 a b) = a.
Proof. intros Ha Hb. pose proof (digits_five a b Ha Hb) as (? & ? & _). rewrite byte0_eq, d0_eq, d1_eq by done. unfold is_byte in *. euclid. Qed.
Lemma byte0_last a : is_byte a -> byte0 (d0 a) (Z.land 28 (Z.shiftl a 2)) = a.
Proof.
  intros Ha. pose proof (digits_five a a Ha Ha) as (? & _ & _ & _ & _ & _ & _ & _ & ? & _). rewrite byte0_eq by done. rewrite d0_eq, d1_low, Z.shiftl_mul_pow2 by (done || lia). change (2 ^ 2) with 4. unfold is_byte in *. euclid.
Qed.
Lemma byte1_of a b c : is_byte a -> is_byte b -> is_byte c -> byte1 (d1 a b) (d2 b) (d3 b c) = b.
Proof.
  intros Ha Hb Hc. pose proof (digits_five a b Ha Hb) as (_ & ? & _). pose proof (digits_five b c Hb Hc) as (_ & _ & ? & ? & _).
  rewrite byte1_eq, d1_eq, d2_eq, d3_eq by done. unfold is_byte in *. euclid.
Qed.
Lemma byte1_last a b : is_byte a -> is_byte b -> byte1 (d1 a b) (d2 b) (Z.land 16 (Z.shiftl b 4)) = b.
Proof.
  intros Ha Hb. pose proof (digits_five a b Ha Hb) as (_ & ? & _). pose proof (digits_five b b Hb Hb) as (_ & _ & ? & _ & _ & _ & _ & _ & _ & ? & _).
  rewrite byte1_eq by done. rewrite d1_eq, d2_eq, d3_low, Z.shiftl_mul_pow2 by (done || lia). change (2 ^ 4) with 16. unfold is_byte in *. euclid.
Qed.
Lemma byte2_of b c d : is_byte b -> is_byte c -> is_byte d -> byte2 (d3 b c) (d4 c d) = c.
Proof.
  intros Hb Hc Hd. pose proof (digits_five b c Hb Hc) as (_ & _ & _ & ? & _). pose proof (digits_five c d Hc Hd) as (_ & _ & _ & _ & ? & _).
  rewrite byte2_eq, d3_eq, d4_eq by done. unfold is_byte in *. euclid.
Qed.
Lemma byte2_last b c : is_byte b -> is_byte c -> byte2 (d3 b c) (Z.land 30 (Z.shiftl c 1)) = c.
Proof.
  intros Hb Hc. pose proof (digits_five b c Hb Hc) as (_ & _ & _ & ? & _). pose proof (digits_five c c Hc Hc) as (_ & _ & _ & _ & _ & _ & _ & _ & _ & _ & ?).
  rewrite byte2_eq by done. rewrite d3_eq, d4_low, Z.shiftl_mul_pow2 by (done || lia). change (2 ^ 1) with 2. unfold is_byte in *. euclid.
Qed.
Lemma byte3_of c d e : is_byte c -> is_byte d -> is_byte e -> byte3 (d4 c d) (d5 d) (d6 d e) = d.
Proof.
  intros Hc Hd He. pose proof (digits_five c d Hc Hd) as (_ & _ & _ & _ & ? & _). pose proof (digits_five d e Hd He) as (_ & _ & _ & _ & _ & ? & ? & _).
  rewrite byte3_eq, d4_eq, d5_eq, d6_eq by done. unfold is_byte in *. euclid.
Qed.
Lemma byte4_of d e : is_byte d -> is_byte e -> byte4 (d6 d e) (d7 e) = e.
Proof.
  intros Hd He. pose proof (digits_five d e Hd He) as (_ & _ & _ & _ & _ & _ & ? & _). pose proof (digits_five e e He He) as (_ & _ & _ & _ & _ & _ & _ & ? & _).
  rewrite byte4_eq, d6_eq, d7_eq by done. unfold is_byte in *. euclid.
Qed.

(** The digits, and what they decode to: nothing for two bytes behind the groups of five, and without the last byte for three or four. *)
Fixpoint digits32 (src : list Z) : list Z :=
  match src with
  | a :: b :: c :: d :: e :: src => [d0 a; d1 a b; d2 b; d3 b c; d4 c d; d5 d; d6 d e; d7 e] ++ digits32 src
  | [] => []
  | [a] => [d0 a; Z.land 28 (Z.shiftl a 2)]
  | [a; b] => [d0 a; d1 a b; d2 b]
  | [a; b; c] => [d0 a; d1 a b; d2 b; Z.land 16 (Z.shiftl b 4)]
  | [a; b; c; d] => [d0 a; d1 a b; d2 b; d3 b c; Z.land 30 (Z.shiftl c 1)]
  end.
Fixpoint left32 (src : list Z) : option (list Z) :=
  match src with
  | a :: b :: c :: d :: e :: src => l ← left32 src; Some (a :: b :: c :: d :: e :: l)
  | [] => Some []
  | [a] => Some [a]
  | [a; b] => None
  | [a; b; c] => Some [a; b]
  | [a; b; c; d] => Some [a; b; c]
  end.

Lemma by_fives {A} (P : list A -> Prop) : P [] -> (forall a, P [a]) -> (forall a b, P [a; b]) -> (forall a b c, P [a; b; c]) -> (forall a b c d, P [a; b; c; d]) ->
  (forall a b c d e l, P l -> P (a :: b :: c :: d :: e :: l)) -> forall l, P l.
Proof. intros H0 H1 H2 H3 H4 H5. fix IH 1. intros [|a [|b [|c [|d [|e l]]]]]; [done | apply H1 | apply H2 | apply H3 | apply H4 | apply H5, IH]. Qed.

Lemma digits32_size src : size (digits32 src) <= (8 * size src + 4) / 5 /\ (5 * size (digits32 src) + 7) / 8 <= size src + 1.
Proof. induction src using by_fives; cbn [digits32 app length] in *; euclid. Qed.

Lemma digit32_bytes l : Forall five l -> bytes (map digit32 l).
Proof. induction 1 as [|u l Hu _ IH]; constructor; [apply (proj2 (t32 u Hu)) | done]. Qed.

Lemma digits32_five src : bytes src -> Forall five (digits32 src).
Proof.
  induction src as [|a|a b|a b c|a b c d|a b c d e src IH] using by_fives; intros H; unfold bytes in *; rewrite ?Forall_cons in H; cbn [digits32 app];
    repeat match goal with H : _ /\ _ |- _ => destruct H end; repeat apply Forall_cons_2.
  all: lazymatch goal with
    | |- Forall _ [] => apply Forall_nil_2 | |- Forall _ _ => by apply IH
    | |- five (d0 ?x) => by apply (digits_five x x) | |- five (d1 ?x ?y) => by apply (digits_five x y) | |- five (d2 ?x) => by apply (digits_five x x)
    | |- five (d3 ?x ?y) => by apply (digits_five x y) | |- five (d4 ?x ?y) => by apply (digits_five x y) | |- five (d5 ?x) => by apply (digits_five x x)
    | |- five (d6 ?x ?y) => by apply (digits_five x y) | |- five (d7 ?x) => by apply (digits_five x x)
    | |- five (Z.land _ (Z.shiftl ?x _)) => by apply (digits_five x x)
    end.
Qed.

Lemma finish_run lim out : size out < lim -> finish lim out = Some out.
Proof. intros H. unfold finish. by destruct (Z.ltb_spec (size out) lim); [|lia]. Qed.

Lemma enc32_digits lim src : bytes src -> forall out, size out + size (digits32 src) < lim -> enc32_loop lim src out = Some (out ++ map digit32 (digits32 src)).
Proof.
  intros H. pose proof (digits32_five src H) as Hf. clear H. revert Hf.
  induction src as [|a|a b|a b c|a b c d|a b c d e src IH] using by_fives; intros Hf out Hl; cbn [enc32_loop].
  6: { change (digits32 (a :: b :: c :: d :: e :: src)) with ([d0 a; d1 a b; d2 b; d3 b c; d4 c d; d5 d; d6 d e; d7 e] ++ digits32 src) in *.
    apply Forall_app in Hf as [H1 H2]. rewrite size_app in Hl. rewrite stores_run by ((by apply digit32_bytes) || (rewrite length_map; lia)).
    cbn [mbind option_bind]. rewrite IH by (done || (rewrite size_app, length_map; lia)). by rewrite map_app, <- app_assoc. }
  1: { rewrite app_nil_r. apply finish_run. cbn in Hl. lia. }
  all: cbn [digits32] in *; rewrite stores_run by ((by apply digit32_bytes) || (rewrite length_map; lia)); cbn [mbind option_bind]; apply finish_run; rewrite size_app, length_map; lia.
Qed.

Lemma map_u_of l : Forall five l -> map u_of (map digit32 l) = l.
Proof. induction 1 as [|u l Hu _ IH]; [done|]. cbn [map]. by rewrite IH, (proj1 (t32 u Hu)). Qed.

Ltac storable := first [cbn [length] in *; lia | repeat (apply Forall_cons_2; [assumption|]); apply Forall_nil_2].

Ltac each_byte H := unfold bytes in H; rewrite ?Forall_cons in H; repeat match type of H with _ /\ _ => destruct H as [? H] end.

Lemma dec32_digits src : bytes src -> forall lim out, size out + size src <= lim ->
  dec32_loop lim (map digit32 (digits32 src)) out = Some (l ← left32 src; Some (out ++ l)).
Proof.
  induction src as [|a|a b|a b c|a b c d|a b c d e src IH] using by_fives; intros H lim out Hl.
  6: { pose proof (digits32_five _ H) as Hf. each_byte H. 
    change (digits32 (a :: b :: c :: d :: e :: src)) with ([d0 a; d1 a b; d2 b; d3 b c; d4 c d; d5 d; d6 d e; d7 e] ++ digits32 src) in *.
    apply Forall_app in Hf as [Hf _]. pose proof (map_u_of _ Hf) as Hm. cbn [map] in Hm. injection Hm as E0 E1 E2 E3 E4 E5 E6 E7. rewrite map_app. cbn [map app dec32_loop].
    rewrite E0, E1, E2, E3, E4, E5, E6, E7, byte0_of, byte1_of, byte2_of, byte3_of, byte4_of by done. cbn [length] in Hl.
    rewrite stores_run by storable. cbn [mbind option_bind left32]. rewrite IH by (done || (rewrite size_app; cbn [length]; lia)).
    destruct (left32 src) as [l|]; cbn [mbind option_bind]; [by rewrite <- app_assoc | done]. }
  all: pose proof (digits32_five _ H) as Hf; pose proof (map_u_of _ Hf) as Hm; each_byte H; cbn [digits32 map dec32_loop length] in *.
  1: { cbn [dec32_rest left32 mbind option_bind]. by rewrite app_nil_r. }
  all: rewrite Hm; cbn [dec32_rest left32 mbind option_bind].
  - rewrite byte0_last by done. by rewrite stores_run by storable.
  - done.
  - rewrite byte0_of, byte1_last by done. by rewrite stores_run by storable.
  - rewrite byte0_of, byte1_of, byte2_last by done. by rewrite stores_run by storable.
Qed.

Lemma enc32_dec32 src ndest ndest2 : bytes src -> (8 * size src + 4) / 5 < ndest -> size src <= ndest2 ->
  exists t, enc32 ndest src = Some (Some t) /\ dec32 ndest2 t = Some (left32 src).
Proof.
  intros H H1 H2. exists (map digit32 (digits32 src)). destruct (digits32_size src) as [S1 S2]. unfold enc32, dec32. rewrite !Z.quot_div_nonneg by lia. rewrite length_map.
  destruct (Z.leb_spec ndest ((8 * size src + 4) / 5)); [lia|]. destruct (Z.ltb_spec (ndest2 + 1) ((5 * size (digits32 src) + 7) / 8)); [lia|].
  rewrite enc32_digits by (done || (cbn [length]; lia)). cbn [mbind option_bind app]. split; [done|]. rewrite dec32_digits by (done || (cbn [length]; lia)). by destruct (left32 src).
Qed.

(** ** Base 16 *)

Definition c16 (d : Z) : Z := nth (Z.to_nat d) t16e 0.

Lemma t16 d : 0 <= d < 16 -> is_byte (c16 d) /\
  (if (48 <=? c16 d) && (c16 d <=? 57) then c16 d - 48 = d else negb ((97 <=? c16 d) && (c16 d <=? 122)) && ((65 <=? c16 d) && (c16 d <=? 90)) = true /\ c16 d - 65 + 10 = d).
Proof.
  intros Hd. assert ((0 <=? c16 d) && (c16 d <? 256) && (if (48 <=? c16 d) && (c16 d <=? 57) then c16 d - 48 =? d
    else negb ((97 <=? c16 d) && (c16 d <=? 122)) && ((65 <=? c16 d) && (c16 d <=? 90)) && (c16 d - 65 + 10 =? d)) = true) as H.
  { revert d Hd. apply (every_below 16). by vm_compute. }
  apply andb_true_iff in H as [H1 H2]. split; [unfold is_byte; lia|]. destruct ((48 <=? c16 d) && (c16 d <=? 57)); [lia|]. apply andb_true_iff in H2 as [H2 H3]. split; [done | lia].
Qed.

Lemma dec16_digit lim d s w i out : 0 <= d < 16 -> dec16_loop lim (c16 d :: s) w i out =
  if i + 1 =? 2 then if lim <? size out + 1 then out else dec16_loop lim s 0 0 (out ++ [(Z.shiftl w 4 + d) mod 256]) else dec16_loop lim s (Z.shiftl w 4 + d) (i + 1) out.
Proof.
  intros Hd. cbn [dec16_loop]. destruct (t16 d Hd) as [_ H]. destruct ((48 <=? c16 d) && (c16 d <=? 57)); [by rewrite H|]. destruct H as [H ->].
  apply andb_true_iff in H as [H1 ->]. apply negb_true_iff in H1. by rewrite H1.
Qed.

Lemma enc16_codes lim inp : bytes inp -> forall out, size out < lim -> exists t k, enc16_loop lim inp out = Some (out ++ t) /\ size out + size t < lim /\ (k <= length inp)%nat /\
  (forall lim2 dout, size dout + size inp <= lim2 -> dec16_loop lim2 t 0 0 dout = dout ++ take k inp) /\ (size out + 2 * size inp < lim -> k = length inp).
Proof.
  induction 1 as [|x inp Hx H IH]; intros out Hout; cbn [enc16_loop].
  - exists [], 0%nat. rewrite finish_run by done. rewrite app_nil_r. split_and!; [done | cbn; lia | cbn; lia | intros; cbn; by rewrite app_nil_r | done].
  - destruct (Z.leb_spec lim (size out + 2)).
    { exists [], 0%nat. rewrite finish_run by done. rewrite app_nil_r. split_and!; [done | cbn; lia | cbn; lia | intros; cbn; by rewrite app_nil_r | cbn [length]; lia]. }
    unfold is_byte in Hx. rewrite Z.shiftr_div_pow2 by lia. change 15 with (Z.shiftl 1 4 - 1). rewrite land_mask by lia. change (2 ^ 4) with 16.
    fold (c16 (x / 16)) (c16 (x mod 16)). assert (0 <= x / 16 < 16 /\ 0 <= x mod 16 < 16) as [H1 H2] by euclid.
    set (g := [c16 (x / 16); c16 (x mod 16)]). rewrite stores_run by ((repeat (apply Forall_cons_2; [by apply t16|]); apply Forall_nil_2) || (cbn; lia)). cbn [mbind option_bind].
    destruct (IH (out ++ g)) as (t & k & -> & Hs & Hk & Hd & Ha); [rewrite size_app; cbn; lia|]. rewrite size_app in Hs, Ha. change (size g) with 2 in Hs, Ha.
    exists (g ++ t), (S k). rewrite size_app. change (size g) with 2. cbn [length]. split_and!; [by rewrite app_assoc | lia | lia | | intros; f_equal; apply Ha; lia].
    intros lim2 dout Hl. cbn [length] in Hl. unfold g. cbn [app]. rewrite dec16_digit by done. change (0 + 1 =? 2) with false. change (0 + 1) with 1. cbv iota. rewrite dec16_digit by done. change (1 + 1 =? 2) with true. cbv iota. destruct (Z.ltb_spec lim2 (size dout + 1)); [lia|].
    rewrite Hd by (rewrite size_app; cbn [length]; lia). rewrite <- app_assoc. do 2 f_equal. cbn [app firstn]. f_equal. rewrite Z.shiftl_0_l, Z.shiftl_mul_pow2 by lia. change (2 ^ 4) with 16. euclid.
Qed.
