(* ===== verification/NineClean.v ===== *)
(** * Path names in lib9 (cleanname.c)

    The state is the block that [name] points to; pointers are offsets from it. *)

From Stdlib Require Import ZArith Lia.
From stdpp Require Import base numbers list strings.
From S2P Require Import Prelude NineCall NineWire NineSend NineReceive.

Open Scope Z_scope.

Definition SEP (x : Z) : bool := (x =? 47) || (x =? 0).

(** The way back over the last element: [q] is [dotdot + k]. *)
Fixpoint to_slash (k : nat) (dotdot : Z) : B Z :=
  match k with
  | O => mret dotdot
  | S k =>
      let q := dotdot + Z.of_nat k in
      if dotdot <? q then c ← byte q; if c =? 47 then mret q else to_slash k dotdot else mret q
  end.

(** The copy of an element: the pointers behind it. *)
Fixpoint copy_element (turns : nat) (p q : Z) : B (Z * Z) :=
  match turns with
  | O => fail Out_of_fuel
  | S turns =>
      c ← byte p;
      put_byte q c;;
      if SEP c then mret (p, q) else copy_element turns (p + 1) (q + 1)
  end.

(** [p[0] == '.' && SEP(p[1])], and the same with two dots. *)
Definition is_dot (p : Z) : B bool :=
  c ← byte p; if c =? 46 then d ← byte (p + 1); mret (SEP d) else mret false.
Definition is_dotdot (p : Z) : B bool :=
  c ← byte p; if c =? 46 then d ← byte (p + 1); if d =? 46 then e ← byte (p + 2); mret (SEP e) else mret false else mret false.

(** The loop: where [q] is in the end. *)
Fixpoint clean_loop (turns : nat) (rooted : bool) (p q dotdot : Z) : B Z :=
  match turns with
  | O => fail Out_of_fuel
  | S turns =>
      c ← byte p;
      if c =? 0 then mret q else
      if c =? 47 then clean_loop turns rooted (p + 1) q dotdot else
      one ← is_dot p;
      if one : bool then clean_loop turns rooted (p + 1) q dotdot else
      two ← is_dotdot p;
      if two : bool then
        let p := p + 2 in
        if dotdot <? q then
          q ← to_slash (Z.to_nat (q - dotdot)) dotdot;
          clean_loop turns rooted p q dotdot
        else if negb rooted then
          q ← (if q =? 0 then mret q else put_byte q 47;; mret (q + 1));
          put_byte q 46;;
          put_byte (q + 1) 46;;
          clean_loop turns rooted p (q + 2) (q + 2)
        else clean_loop turns rooted p q dotdot
      else
        q ← (if q =? (if rooted then 1 else 0) then mret q else put_byte q 47;; mret (q + 1));
        x ← with_fuel (fun n => copy_element n p q);
        clean_loop turns rooted x.1 x.2 dotdot
  end.

Definition cleanname : B unit :=
  c ← byte 0;
  let rooted := c =? 47 in
  let start := if rooted then 1 else 0 in
  q ← with_fuel (fun n => clean_loop n rooted start start start);
  q ← (if q =? 0 then put_byte q 46;; mret (q + 1) else mret q);
  put_byte q 0.

(** ** What a name means *)

(** Its elements, between slashes. *)
Fixpoint elements (x : list Z) : list (list Z) :=
  match x with
  | [] => [[]]
  | c :: x => if c =? 47 then [] :: elements x else match elements x with e :: l => (c :: e) :: l | [] => [[c]] end
  end.

(** Where one is: how many directories up, and from there down. *)
Record place : Type := Place { ups : nat; downs : list (list Z) }.

Definition go (rooted : bool) (st : place) (e : list Z) : place :=
  if decide (e = [] \/ e = [46]) then st else
  if decide (e = [46; 46]) then
    match downs st with
    | [] => if rooted then st else Place (S (ups st)) []
    | ds => Place (ups st) (removelast ds)
    end
  else Place (ups st) (downs st ++ [e]).

Fixpoint join (l : list (list Z)) : list Z :=
  match l with [] => [] | [e] => e | e :: l => e ++ 47 :: join l end.

(** The shortest name of a place. *)
Definition name_of (rooted : bool) (st : place) : list Z := (if rooted then [47] else []) ++ join (repeat [46; 46] (ups st) ++ downs st).
Definition is_rooted (x : list Z) : bool := match x with c :: _ => c =? 47 | [] => false end.
Definition clean (x : list Z) : list Z :=
  let rooted := is_rooted x in
  match name_of rooted (foldl (go rooted) (Place 0 []) (elements x)) with [] => [46] | a :: r => a :: r end.

Definition text (s : string) : list Z := map (fun c => Z.of_N (Ascii.N_of_ascii c)) (String.list_ascii_of_string s).
Example clean_names : map (fun s => clean (text s)) ["a//b/./c/.."; "/../x/"; "../../a/.."; "a/.."; "/"; ""; "./..//.b/...";"..a"]%string =
  map text ["a/b"; "/x"; "../.."; "."; "/"; "."; "../.b/...";"..a"]%string.
Proof. by vm_compute. Qed.
Example cleanname_runs : map (fun s => match cleanname 40%nat (text s ++ [0; 9]) with Ok _ b => bool_decide (take (S (length (clean (text s)))) b = clean (text s) ++ [0]) | Fault _ => false end)
  ["a//b/./c/.."; "/../x/"; "../../a/.."; "a/.."; "./..//.b/..."; "/"; ""]%string = repeat true 7.
Proof. by vm_compute. Qed.

(** ** The proof *)

Lemma sep_elements x : (x = [] \/ exists y, x = 47 :: y) -> exists l, elements x = [] :: l.
Proof. intros [->|[y ->]]; [by exists [] | by exists (elements y)]. Qed.

Lemma elements_not_nil x : elements x <> [].
Proof. destruct x as [|c x]; [done|]. cbn. destruct (c =? 47); [done|]. by destruct (elements x). Qed.

(** An element and what is behind it. *)
Lemma elements_app e x : Forall (fun c => c <> 47) e -> (x = [] \/ exists y, x = 47 :: y) -> exists l, elements (e ++ x) = e :: l /\ elements x = [] :: l.
Proof.
  intros He Hx. destruct (sep_elements x Hx) as [l El]. exists l. split; [|done]. induction He as [|c e Hc _ IH]; [done|]. cbn [app elements]. destruct (Z.eqb_spec c 47); [done|]. by rewrite IH.
Qed.

(** The first element of a text. *)
Lemma first_element x : exists e y, x = e ++ y /\ Forall (fun c => c <> 47) e /\ (y = [] \/ exists z, y = 47 :: z).
Proof.
  induction x as [|c x IH]; [exists [], []; split_and!; [done | done | by left]|]. destruct (Z.eq_dec c 47) as [->|Hc].
  - exists [], (47 :: x). split_and!; [done | done | right; by exists x].
  - destruct IH as (e & y & -> & He & Hy). exists (c :: e), y. split_and!; [done | by constructor | done].
Qed.

Lemma go_nothing rooted st : go rooted st [] = st.
Proof. unfold go. by rewrite decide_True by (by left). Qed.

(** *** Names *)

Lemma join_snoc l e : join (l ++ [e]) = match l with [] => e | _ => join l ++ 47 :: e end.
Proof.
  induction l as [|a l IH]; [done|]. destruct l as [|b l]; [done|]. change (join ((a :: b :: l) ++ [e])) with (a ++ 47 :: join ((b :: l) ++ [e])). rewrite IH.
  change (join (a :: b :: l)) with (a ++ 47 :: join (b :: l)). by rewrite <- app_assoc.
Qed.

(** Elements below the start: not empty, without slash. *)
Definition proper (e : list Z) : Prop := e <> [] /\ Forall (fun c => c <> 47) e.
Definition place_ok (rooted : bool) (st : place) : Prop := Forall proper (downs st) /\ (rooted = true -> ups st = 0%nat).

Definition all (st : place) : list (list Z) := repeat [46; 46] (ups st) ++ downs st.
Definition root (rooted : bool) : list Z := if rooted then [47] else [].
Definition slash (st : place) : list Z := match all st with [] => [] | _ => [47] end.

Lemma name_eq rooted st : name_of rooted st = root rooted ++ join (all st).
Proof. done. Qed.

Lemma name_down rooted st e : name_of rooted (Place (ups st) (downs st ++ [e])) = name_of rooted st ++ slash st ++ e.
Proof.
  rewrite !name_eq. unfold all, slash. cbn [ups downs]. fold (all st). rewrite app_assoc. change (repeat [46; 46] (ups st) ++ downs st) with (all st). rewrite join_snoc.
  destruct (all st); [by rewrite <- app_assoc|]. by rewrite <- !app_assoc.
Qed.

Lemma name_up rooted u : name_of rooted (Place (S u) []) = name_of rooted (Place u []) ++ slash (Place u []) ++ [46; 46].
Proof.
  rewrite !name_eq. unfold slash, all. cbn [ups downs]. rewrite !app_nil_r. replace (repeat [46; 46] (S u)) with (repeat [46; 46] u ++ [[46; 46]]) by (by rewrite <- repeat_cons).
  rewrite join_snoc. destruct (repeat [46; 46] u); [by rewrite <- app_assoc|]. by rewrite <- !app_assoc.
Qed.

Lemma join_nonempty e l : e <> [] -> join (e :: l) <> [].
Proof. intros He. destruct l; [done|]. by destruct e. Qed.

Lemma all_proper rooted st : place_ok rooted st -> Forall proper (all st).
Proof. intros [H _]. apply Forall_app. split; [|done]. apply Forall_forall. intros e He. apply list_elem_of_In, repeat_spec in He. subst e. split; [done|]. by repeat constructor. Qed.

Lemma join_nil rooted st : place_ok rooted st -> join (all st) = [] -> all st = [].
Proof. intros H%all_proper. destruct (all st) as [|e l]; [done|]. apply Forall_cons in H as [[He _] _]. intros E. by destruct (join_nonempty e l He). Qed.

(** The name of a place begins with that of the place above all one has gone down. *)
Lemma name_prefix rooted u ds : exists r, name_of rooted (Place u ds) = name_of rooted (Place u []) ++ r.
Proof.
  induction ds as [|e ds [r IH]] using rev_ind; [exists []; by rewrite app_nil_r|].
  exists (r ++ slash (Place u ds) ++ e). pose proof (name_down rooted (Place u ds) e) as E. cbn [ups downs] in E. rewrite E, IH. by rewrite <- app_assoc.
Qed.

(** *** The parts of the loop *)

Section run.
Context (fuel : nat).

Lemma to_slash_back d u e l : Forall (fun c => c <> 47) e -> to_slash (length u + length e) (len d) fuel (d ++ u ++ e ++ l) = to_slash (length u) (len d) fuel (d ++ u ++ e ++ l).
Proof using Type.
  revert l. induction e as [|c e IH] using rev_ind; intros l H; [by rewrite Nat.add_0_r|]. apply Forall_app in H as [H [Hc _]%Forall_cons].
  rewrite length_app. cbn [length]. replace (length u + (length e + 1))%nat with (S (length u + length e)) by lia. rewrite <- (app_assoc e). cbn [app].
  rewrite <- (IH (c :: l) H). cbn [to_slash]. destruct (Z.ltb_spec (len d) (len d + Z.of_nat (length u + length e))).
  - unfold mbind, prog_bind. rewrite (byte_run_at d _ (length u + length e) c) by (try done; rewrite app_assoc; by rewrite lookup_app_r, length_app, Nat.sub_diag by (rewrite length_app; lia)).
    by destruct (Z.eqb_spec c 47).
  - assert (length u + length e = 0)%nat as E by lia. rewrite E. cbn [to_slash]. by rewrite Z.add_0_r.
Qed.

Lemma to_slash_stop d v l : to_slash (S (length v)) (len d) fuel (d ++ v ++ 47 :: l) = Ok (len (d ++ v)) (d ++ v ++ 47 :: l).
Proof using Type.
  cbn [to_slash]. rewrite len_app. destruct (Z.ltb_spec (len d) (len d + len v)); [|done]. unfold mbind, prog_bind.
  rewrite (byte_run_at d _ (length v) 47) by (try done; by apply list_lookup_middle). done.
Qed.

(** Bytes that go down by the length of [g]. *)
Lemma copy_element_run e : forall turns w g x, (length e < turns)%nat -> bytes e -> Forall (fun c => c <> 47 /\ c <> 0) e ->
  (exists c y, x = c :: y /\ is_byte c /\ SEP c = true) ->
  exists g', copy_element turns (len (w ++ g)) (len w) fuel (w ++ g ++ e ++ x) = Ok (len (w ++ g ++ e), len (w ++ e)) (w ++ e ++ g' ++ x) /\ length g' = length g.
Proof using Type.
  induction e as [|c e IH]; intros [|turns] w g x Hn Hb He (s & y & -> & Hs & Hsep); cbn [length] in Hn; try lia; cbn [copy_element]; unfold mbind, prog_bind.
  - cbn [app]. rewrite app_assoc, (byte_run_at (w ++ g) (s :: y) 0 s), <- app_assoc by (try done; lia). unfold is_byte in Hs.
    destruct g as [|a g]; cbn [app]; rewrite put_byte_run by (done || (cbn; lia)); rewrite Hsep, Z.mod_small by lia; unfold mret, prog_ret; rewrite !app_nil_r, <- app_assoc; [by exists []|].
    exists (s :: g). cbn [drop skipn app]. split; [done | done].
  - apply Forall_cons in Hb as [Hc Hb]. apply Forall_cons in He as [[H1 H2] He]. cbn [app].
    rewrite app_assoc, (byte_run_at (w ++ g) (c :: e ++ s :: y) 0 c), <- app_assoc by (try done; lia). unfold is_byte in Hc.
    assert (SEP c = false) as Hc2 by (unfold SEP; destruct (Z.eqb_spec c 47), (Z.eqb_spec c 0); done).
    destruct g as [|a g]; cbn [app]; rewrite put_byte_run by (done || (cbn; lia)); rewrite Hc2, Z.mod_small by lia; cbn [drop skipn].
    + destruct (IH turns (w ++ [c]) [] (s :: y) ltac:(lia) Hb He ltac:(by exists s, y)) as (g' & E & Hg). exists g'. rewrite !app_nil_r in *. cbn [app] in E.
      replace (len w + 1) with (len (w ++ [c])) by (rewrite len_app; done). rewrite drop_0, E. rewrite <- !app_assoc. done.
    + destruct (IH turns (w ++ [c]) (g ++ [c]) (s :: y) ltac:(lia) Hb He ltac:(by exists s, y)) as (g' & E & Hg). exists g'.
      replace (len w + 1) with (len (w ++ [c])) by (rewrite len_app; done).
      replace (len (w ++ a :: g) + 1) with (len ((w ++ [c]) ++ g ++ [c])) by (rewrite !len_app; cbn [length]; rewrite ?length_app; cbn [length]; lia).
      rewrite drop_0. rewrite <- !app_assoc in E. cbn [app] in E. rewrite <- !app_assoc. cbn [app]. rewrite E. rewrite length_app in Hg. cbn [length] in *.
      split; [|lia]. f_equal. repeat (rewrite ?len_app; cbn [length]). f_equal; lia.
Qed.

(** The tests for one dot and for two. *)
Lemma tests w e x : Forall (fun c => c <> 47 /\ c <> 0) e -> e <> [] -> (exists c y, x = c :: y /\ SEP c = true) ->
  is_dot (len w) fuel (w ++ e ++ x) = Ok (bool_decide (e = [46])) (w ++ e ++ x) /\
  is_dotdot (len w) fuel (w ++ e ++ x) = Ok (bool_decide (e = [46; 46])) (w ++ e ++ x).
Proof using Type.
  intros He Hn (s & y & -> & Hs). destruct e as [|a e]; [done|]. apply Forall_cons in He as [_ He].
  unfold is_dot, is_dotdot, mbind, prog_bind, mret, prog_ret. rewrite (byte_run_at w _ 0 a) by (done || lia).
  destruct (Z.eqb_spec a 46) as [->|Ha].
  2: { split; f_equal; symmetry; apply bool_decide_eq_false; congruence. }
  destruct e as [|b e]; cbn [app].
  - rewrite (byte_run_at w _ 1 s) by done. rewrite Hs. split; [done|]. destruct (Z.eqb_spec s 46) as [->|]; done.
  - rewrite (byte_run_at w _ 1 b) by done. apply Forall_cons in He as [[Hb1 Hb2] He].
    assert (SEP b = false) as -> by (unfold SEP; destruct (Z.eqb_spec b 47), (Z.eqb_spec b 0); done). split; [done|].
    destruct (Z.eqb_spec b 46) as [->|Hb]; [|f_equal; symmetry; apply bool_decide_eq_false; congruence].
    destruct e as [|c e]; cbn [app]; [rewrite (byte_run_at w _ 2 s) by done; by rewrite Hs|]. rewrite (byte_run_at w _ 2 c) by done. apply Forall_cons in He as [[Hc1 Hc2] He].
    assert (SEP c = false) as -> by (unfold SEP; destruct (Z.eqb_spec c 47), (Z.eqb_spec c 0); done). done.
Qed.

(** *** The loop *)

Context (rooted : bool) (t : list Z).

Definition start_of : Z := if rooted then 1 else 0.

Lemma at_start st : place_ok rooted st -> (len (name_of rooted st) =? start_of) = bool_decide (all st = []).
Proof using Type.
  intros H. rewrite name_eq, len_app. unfold start_of, root. pose proof (join_nil rooted st H) as Hj. destruct (all st) as [|e l]; [rewrite bool_decide_eq_true_2 by done; by destruct rooted|].
  assert (join (e :: l) <> []) as Hn by (intros E; by specialize (Hj E)). rewrite bool_decide_eq_false_2 by done. apply Z.eqb_neq. destruct (join (e :: l)); [done|]. destruct rooted; cbn [length]; lia.
Qed.

Definition dots (st : place) : list Z := name_of rooted (Place (ups st) []).

Lemma below_dots st : place_ok rooted st -> (len (dots st) <? len (name_of rooted st)) = negb (bool_decide (downs st = [])).
Proof using Type.
  destruct st as [u ds]. intros [Hd Hu]. unfold dots. cbn [ups downs] in *. destruct ds as [|e ds] using rev_ind; [rewrite bool_decide_eq_true_2 by done; apply Z.ltb_irrefl|].
  rewrite bool_decide_eq_false_2 by (by destruct ds). pose proof (name_down rooted (Place u ds) e) as E. cbn [ups downs] in E. rewrite E. destruct (name_prefix rooted u ds) as [r ->].
  apply Forall_app in Hd as [_ [[He _] _]%Forall_cons]. apply Z.ltb_lt. rewrite !len_app. destruct e; [done|]. cbn [length]. lia.
Qed.

(** What the loop promises from a state on. *)
Definition finishes (turns : nat) (p q dotdot : Z) (m : list Z) (st : place) (x : list Z) (k : Z) : Prop :=
  exists g, let w := name_of rooted (foldl (go rooted) st (elements x)) in
    clean_loop turns rooted p q dotdot fuel m = Ok (len w) (w ++ g ++ 0 :: t) /\ len w + len g = k.

(** There is room for a slash before the next element. *)
Definition spaced (st : place) (g x : list Z) : Prop := all st = [] \/ g <> [] \/ x = [] \/ exists y, x = 47 :: y.

Lemma ends_sep y : (y = [] \/ exists z, y = 47 :: z) -> exists c z, y ++ 0 :: t = c :: z /\ is_byte c /\ SEP c = true.
Proof using Type. intros [->|[z ->]]; [exists 0, t; split_and!; [done | split; done | done] | exists 47, (z ++ 0 :: t); split_and!; [done | split; done | done]]. Qed.

Lemma put_bytes_two c l p a b : p = len c -> is_byte a -> is_byte b -> (2 <= length l)%nat ->
  (put_byte p a;; put_byte (p + 1) b) fuel (c ++ l) = Ok tt ((c ++ [a; b]) ++ drop 2 l).
Proof using Type.
  intros -> Ha Hb Hl. unfold is_byte in *. unfold mbind, prog_bind. rewrite put_byte_run by (done || lia). rewrite put_byte_run by (rewrite ?len_app, ?length_drop; cbn [length]; lia).
  rewrite !Z.mod_small by lia. by rewrite drop_drop, <- (app_assoc c).
Qed.

Section step.
Context (turns : nat).
Context (IH : forall x w g st, place_ok rooted st -> w = name_of rooted st -> bytes x -> Forall (fun c => c <> 0) x -> spaced st g x ->
  (length x < turns)%nat -> (length x < fuel)%nat -> finishes turns (len (w ++ g)) (len w) (len (dots st)) (w ++ g ++ x ++ 0 :: t) st x (len w + len g + len x)).

Lemma elements_go e y st : Forall (fun c => c <> 47) e -> (y = [] \/ exists z, y = 47 :: z) -> foldl (go rooted) st (elements (e ++ y)) = foldl (go rooted) (go rooted st e) (elements y).
Proof using Type. intros He Hy. destruct (elements_app e y He Hy) as (l & -> & ->). cbn [foldl]. by rewrite (go_nothing rooted (go rooted st e)). Qed.

(** The rest, with [e] gone behind the pointer. *)
Lemma rest_finishes e y (w g g2 : list Z) st2 p : (y = [] \/ exists z, y = 47 :: z) -> e <> [] -> place_ok rooted st2 -> bytes (e ++ y) -> Forall (fun c => c <> 0) (e ++ y) ->
  (length (e ++ y) <= turns)%nat -> (length (e ++ y) < fuel)%nat -> p = len (name_of rooted st2 ++ g2) -> len (name_of rooted st2) + len g2 = len w + len g + len e ->
  finishes turns p (len (name_of rooted st2)) (len (dots st2)) (name_of rooted st2 ++ g2 ++ y ++ 0 :: t) st2 y (len w + len g + len (e ++ y)).
Proof using IH.
  intros Hy He Hst Hb Hz H1 H2 -> Hlen. apply bytes_app in Hb as [_ Hb]. apply Forall_app in Hz as [_ Hz]. rewrite length_app in H1, H2.
  assert (0 < length e)%nat by (destruct e; [done | cbn; lia]). replace (len w + len g + len (e ++ y)) with (len (name_of rooted st2) + len g2 + len y) by (rewrite (len_app e); lia).
  apply IH; try done; try lia. by right; right.
Qed.
Lemma finishes_by p q dd m p0 q0 dd0 m0 st x st2 y k : finishes turns p q dd m st2 y k -> foldl (go rooted) st (elements x) = foldl (go rooted) st2 (elements y) ->
  clean_loop (S turns) rooted p0 q0 dd0 fuel m0 = clean_loop turns rooted p q dd fuel m -> finishes (S turns) p0 q0 dd0 m0 st x k.
Proof using Type. intros (g & E & H) E1 E2. exists g. cbv zeta. rewrite E1, E2. by split. Qed.

(** The loop at an element. *)
Lemma at_element e y w g q dd : (y = [] \/ exists z, y = 47 :: z) -> e <> [] -> Forall (fun c => c <> 47 /\ c <> 0) e ->
  clean_loop (S turns) rooted (len (w ++ g)) q dd fuel (w ++ g ++ e ++ y ++ 0 :: t) =
  if bool_decide (e = [46]) then clean_loop turns rooted (len (w ++ g) + 1) q dd fuel (w ++ g ++ e ++ y ++ 0 :: t) else
  if bool_decide (e = [46; 46]) then
    (let p := len (w ++ g) + 2 in
        if dd <? q then
          q ← to_slash (Z.to_nat (q - dd)) dd;
          clean_loop turns rooted p q dd
        else if negb rooted then
          q ← (if q =? 0 then mret q else put_byte q 47;; mret (q + 1));
          put_byte q 46;;
          put_byte (q + 1) 46;;
          clean_loop turns rooted p (q + 2) (q + 2)
        else clean_loop turns rooted p q dd) fuel (w ++ g ++ e ++ y ++ 0 :: t)
  else (q ← (if q =? start_of then mret q else put_byte q 47;; mret (q + 1));
        x ← with_fuel (fun n => copy_element n (len (w ++ g)) q);
        clean_loop turns rooted x.1 x.2 dd) fuel (w ++ g ++ e ++ y ++ 0 :: t).
Proof using Type.
  intros Hy He Hc. destruct (tests (w ++ g) e (y ++ 0 :: t) Hc He) as [T1 T2]. { destruct (ends_sep y Hy) as (c & z & -> & _ & Hs). by exists c, z. }
  rewrite <- app_assoc in T1, T2. cbn [clean_loop]. unfold mbind at 1, prog_bind at 1. destruct e as [|a e]; [done|]. apply Forall_cons in Hc as [[Ha1 Ha2] Hc].
  rewrite (app_assoc w g) at 1. rewrite (byte_run_at (w ++ g) _ 0 a) by (done || lia). rewrite <- app_assoc. destruct (Z.eqb_spec a 0); [done|]. destruct (Z.eqb_spec a 47); [done|].
  unfold mbind at 1, prog_bind at 1. rewrite T1. destruct (bool_decide (a :: e = [46])); [done|]. unfold mbind at 1, prog_bind at 1. rewrite T2. by destruct (bool_decide (a :: e = [46; 46])).
Qed.

Definition good_text (x : list Z) : Prop := bytes x /\ Forall (fun c => c <> 0) x /\ (length x <= turns)%nat /\ (length x < fuel)%nat.

Lemma case_dot y w g st : (y = [] \/ exists z, y = 47 :: z) -> place_ok rooted st -> w = name_of rooted st -> good_text ([46] ++ y) ->
  finishes (S turns) (len (w ++ g)) (len w) (len (dots st)) (w ++ g ++ ([46] ++ y) ++ 0 :: t) st ([46] ++ y) (len w + len g + len ([46] ++ y)).
Proof using IH.
  intros Hy Hst -> (Hb & Hz & H1 & H2). eapply finishes_by; [apply (rest_finishes [46] y (name_of rooted st) g (g ++ [46]) st _ Hy); try done; rewrite !len_app; cbn [length]; lia | |].
  - rewrite elements_go by (done || by repeat constructor). done.
  - rewrite <- (app_assoc [46]), at_element by (done || by repeat constructor). rewrite bool_decide_eq_true_2 by done. rewrite <- (app_assoc g). cbn [app]. f_equal. rewrite !len_app. cbn. lia.
Qed.

Lemma go_up st ds e0 : downs st = ds ++ [e0] -> go rooted st [46; 46] = Place (ups st) ds.
Proof using Type.
  intros E. unfold go. rewrite decide_False by (by intros [|]). rewrite decide_True by done. rewrite E. destruct (ds ++ [e0]) as [|a l] eqn:E2; [by destruct ds|]. rewrite <- E2. by rewrite removelast_last.
Qed.

Lemma back_to st ds e0 l : place_ok rooted st -> downs st = ds ++ [e0] ->
  let N := name_of rooted (Place (ups st) ds) in
  name_of rooted st = N ++ slash (Place (ups st) ds) ++ e0 /\
  to_slash (Z.to_nat (len (name_of rooted st) - len (dots st))) (len (dots st)) fuel (name_of rooted st ++ l) = Ok (len N) (name_of rooted st ++ l).
Proof using Type.
  intros [Hd Hu] E N. rewrite E in Hd. apply Forall_app in Hd as [Hd [[He0 Hs] _]%Forall_cons]. pose proof (name_down rooted (Place (ups st) ds) e0) as En. cbn [ups downs] in En. rewrite <- E in En.
  assert (Place (ups st) (downs st) = st) as Eta by (by destruct st). rewrite Eta in En. split; [done|]. rewrite En. fold N. clear En.
  destruct (name_prefix rooted (ups st) ds) as [r Er]. fold N in Er. change (name_of rooted (Place (ups st) [])) with (dots st) in Er. rewrite Er.
  rewrite <- !app_assoc, (app_assoc r (slash (Place (ups st) ds)) (e0 ++ l)), !(len_app (dots st)). replace (Z.to_nat _) with (length (r ++ slash (Place (ups st) ds)) + length e0)%nat by (rewrite !length_app; lia).
  rewrite to_slash_back by done. unfold slash. destruct (all (Place (ups st) ds)) as [|a l0] eqn:Ea.
  - assert (r = []) as ->; [|cbn [app length to_slash]; by rewrite Z.add_0_r].
    assert (N = root rooted) as EN by (unfold N; rewrite name_eq, Ea; by rewrite app_nil_r). assert (dots st = root rooted ++ join (repeat [46; 46] (ups st))) as Ed by (unfold dots; rewrite name_eq; unfold all; cbn [ups downs]; by rewrite app_nil_r).
    rewrite EN, Ed in Er. apply (f_equal length) in Er. rewrite !length_app in Er. destruct r; [done | cbn [length] in Er; lia].
  - rewrite length_app. cbn [length]. rewrite Nat.add_1_r, <- (app_assoc r). cbn [app]. rewrite to_slash_stop. by rewrite len_app.
Qed.

Lemma case_up y w g st ds e0 : (y = [] \/ exists z, y = 47 :: z) -> place_ok rooted st -> w = name_of rooted st -> downs st = ds ++ [e0] -> good_text ([46; 46] ++ y) ->
  finishes (S turns) (len (w ++ g)) (len w) (len (dots st)) (w ++ g ++ ([46; 46] ++ y) ++ 0 :: t) st ([46; 46] ++ y) (len w + len g + len ([46; 46] ++ y)).
Proof using IH.
  intros Hy Hst -> E (Hb & Hz & H1 & H2). destruct (back_to st ds e0 (g ++ [46; 46] ++ y ++ 0 :: t) Hst E) as [En Eb]. set (P := Place (ups st) ds) in *.
  assert (place_ok rooted P) as HP. { destruct Hst as [Hd Hu]. rewrite E in Hd. apply Forall_app in Hd as [Hd _]. by split. }
  eapply finishes_by; [apply (rest_finishes [46; 46] y (name_of rooted st) g (slash P ++ e0 ++ g ++ [46; 46]) P _ Hy); try done; rewrite En, !len_app; cbn [length]; lia | |].
  - rewrite elements_go by (done || by repeat constructor). by rewrite (go_up st ds e0).
  - rewrite <- (app_assoc [46; 46]), at_element by (done || by repeat constructor). rewrite bool_decide_eq_false_2 by done. rewrite bool_decide_eq_true_2 by done.
    cbv zeta. rewrite (below_dots st Hst), bool_decide_eq_false_2 by (rewrite E; by destruct ds). cbn [negb]. unfold mbind, prog_bind. rewrite Eb. change (dots P) with (dots st).
    replace (len (name_of rooted P ++ slash P ++ e0 ++ g ++ [46; 46])) with (len (name_of rooted st ++ g) + 2) by (rewrite En, !len_app; cbn [length]; lia).
    rewrite En at 2. by rewrite <- !app_assoc.
Qed.

Lemma dots_here st : downs st = [] -> dots st = name_of rooted st.
Proof using Type. intros E. unfold dots. destruct st as [u ds]. cbn in *. by rewrite E. Qed.

Lemma case_stay y w g st : (y = [] \/ exists z, y = 47 :: z) -> place_ok rooted st -> w = name_of rooted st -> downs st = [] -> rooted = true -> good_text ([46; 46] ++ y) ->
  finishes (S turns) (len (w ++ g)) (len w) (len (dots st)) (w ++ g ++ ([46; 46] ++ y) ++ 0 :: t) st ([46; 46] ++ y) (len w + len g + len ([46; 46] ++ y)).
Proof using IH.
  intros Hy Hst -> E Er (Hb & Hz & H1 & H2).
  eapply finishes_by; [apply (rest_finishes [46; 46] y (name_of rooted st) g (g ++ [46; 46]) st _ Hy); try done; rewrite !len_app; cbn [length]; lia | |].
  - rewrite elements_go by (done || by repeat constructor). unfold go at 2. rewrite decide_False by (by intros [|]). rewrite decide_True by done. by rewrite E, Er.
  - rewrite <- (app_assoc [46; 46]), at_element by (done || by repeat constructor). rewrite bool_decide_eq_false_2 by done. rewrite bool_decide_eq_true_2 by done.
    cbv zeta. rewrite (below_dots st Hst), bool_decide_eq_true_2 by done. cbn [negb]. rewrite Er. cbn [negb]. rewrite <- (app_assoc g). cbn [app]. f_equal. rewrite !len_app. cbn. lia.
Qed.

(** Writing [slash st] before an element. *)
Lemma write_slash st g y : place_ok rooted st -> spaced st g y -> (forall z, y <> 47 :: z) -> y <> [] ->
  exists g', forall l q, q = len (name_of rooted st) ->
  (if q =? start_of then mret q else put_byte q 47;; mret (q + 1)) fuel (name_of rooted st ++ g ++ l) = Ok (len (name_of rooted st ++ slash st)) (name_of rooted st ++ slash st ++ g' ++ l) /\
  len (slash st) + len g' = len g.
Proof using Type.
  intros Hst Hsp Hy Hn. unfold spaced, slash in *. destruct (all st) as [|a l0] eqn:Ea.
  - exists g. intros l q ->. rewrite (at_start st Hst), Ea, bool_decide_eq_true_2 by done. unfold mret, prog_ret. by rewrite app_nil_r.
  - destruct Hsp as [?|[Hg|[?|[z ?]]]]; [done | | done | by destruct (Hy z)]. destruct g as [|b g]; [done|]. exists g. intros l q ->.
    rewrite (at_start st Hst), Ea, bool_decide_eq_false_2 by done. unfold mbind, prog_bind. cbn [app]. rewrite put_byte_run by (done || (cbn; lia)). unfold mret, prog_ret.
    split; [|cbn; lia]. rewrite <- app_assoc, len_app. done.
Qed.

Lemma case_climb y w g st : (y = [] \/ exists z, y = 47 :: z) -> place_ok rooted st -> w = name_of rooted st -> spaced st g ([46; 46] ++ y) -> downs st = [] -> rooted = false -> good_text ([46; 46] ++ y) ->
  finishes (S turns) (len (w ++ g)) (len w) (len (dots st)) (w ++ g ++ ([46; 46] ++ y) ++ 0 :: t) st ([46; 46] ++ y) (len w + len g + len ([46; 46] ++ y)).
Proof using IH.
  intros Hy Hst -> Hsp E Er (Hb & Hz & H1 & H2). destruct (write_slash st g _ Hst Hsp ltac:(done) ltac:(done)) as [g' Hg'].
  set (P := Place (S (ups st)) []). assert (st = Place (ups st) []) as Eta by (destruct st; cbn in *; by subst).
  assert (name_of rooted P = name_of rooted st ++ slash st ++ [46; 46]) as En by (unfold P; rewrite name_up; by rewrite <- Eta).
  assert (place_ok rooted P) as HP by (split; [done | by rewrite Er]).
  destruct (Hg' ([46; 46] ++ y ++ 0 :: t) _ eq_refl) as [Ew Hlen].
  eapply finishes_by; [apply (rest_finishes [46; 46] y (name_of rooted st) g (drop 2 (g' ++ [46; 46])) P _ Hy); try done; rewrite En, !len_app, length_drop, length_app; cbn [length]; lia | |].
  - rewrite elements_go by (done || by repeat constructor). unfold go at 2. rewrite decide_False by (by intros [|]). rewrite decide_True by done. by rewrite E, Er.
  - rewrite <- (app_assoc [46; 46]), at_element by (done || by repeat constructor). rewrite bool_decide_eq_false_2 by done. rewrite bool_decide_eq_true_2 by done.
    cbv zeta. rewrite (below_dots st Hst), bool_decide_eq_true_2 by done. assert (negb rooted = true) as -> by (by rewrite Er). cbn [negb]. unfold mbind, prog_bind.
    assert (start_of = 0) as Es by (unfold start_of; by rewrite Er). rewrite Es in Ew. unfold mbind, prog_bind in Ew. rewrite Ew.
    pose proof (put_bytes_two (name_of rooted st ++ slash st) (g' ++ [46; 46] ++ y ++ 0 :: t) _ 46 46 eq_refl ltac:(done) ltac:(done) ltac:(rewrite length_app; cbn; lia)) as E2. unfold mbind, prog_bind in E2.
    rewrite <- (app_assoc (name_of rooted st)) in E2. destruct (put_byte _ 46 fuel _) as [[] w1|]; [|done]. rewrite E2.
    rewrite (app_assoc g'), drop_app_le by (rewrite length_app; cbn; lia). change (dots P) with (name_of rooted P). rewrite En.
    replace (len (name_of rooted st ++ slash st) + 2) with (len (name_of rooted st ++ slash st ++ [46; 46])) by (rewrite !len_app; cbn [length]; lia).
    f_equal; [rewrite !len_app, length_drop, length_app; cbn [length]; lia | by rewrite <- !app_assoc].
Qed.

Lemma case_element e y w g st : (y = [] \/ exists z, y = 47 :: z) -> place_ok rooted st -> w = name_of rooted st -> spaced st g (e ++ y) -> e <> [] -> e <> [46] -> e <> [46; 46] ->
  Forall (fun c => c <> 47 /\ c <> 0) e -> good_text (e ++ y) ->
  finishes (S turns) (len (w ++ g)) (len w) (len (dots st)) (w ++ g ++ (e ++ y) ++ 0 :: t) st (e ++ y) (len w + len g + len (e ++ y)).
Proof using IH.
  intros Hy Hst -> Hsp Hn N1 N2 Hc (Hb & Hz & H1 & H2).
  destruct (write_slash st g (e ++ y) Hst Hsp) as [g' Hg']; [intros z E; destruct e as [|a e]; [done|]; injection E as -> _; by apply Forall_cons in Hc as [[? _] _] | by destruct e|].
  destruct (Hg' (e ++ y ++ 0 :: t) _ eq_refl) as [Ew Hlen]. set (P := Place (ups st) (downs st ++ [e])).
  pose proof (name_down rooted st e) as En. fold P in En.
  assert (place_ok rooted P) as HP. { destruct Hst as [Hd Hu]. split; [|done]. apply Forall_app. split; [done|]. constructor; [|done]. split; [done|]. eapply Forall_impl; [exact Hc|]. by intros ? []. }
  pose proof Hb as [Hbe _]%bytes_app. pose proof (ends_sep y Hy) as Hsep. pose proof H2 as H2'. rewrite length_app in H2'.
  destruct (copy_element_run e fuel (name_of rooted st ++ slash st) g' (y ++ 0 :: t)) as (g2 & Ec & Hg2); [lia | done | done | destruct Hsep as (a & z & ? & ? & ?); by exists a, z|].
  eapply finishes_by; [apply (rest_finishes e y (name_of rooted st) g g2 P (len (name_of rooted st ++ g) + len e) Hy); try done; rewrite En, !len_app; lia | |].
  - rewrite elements_go by (done || (eapply Forall_impl; [exact Hc|]; by intros ? [])). unfold go at 2. rewrite decide_False by (by intros [|]). by rewrite decide_False by done.
  - rewrite <- (app_assoc e), at_element by done. rewrite !bool_decide_eq_false_2 by done. unfold mbind, prog_bind in Ew |- *. rewrite Ew. unfold with_fuel.
    rewrite <- !app_assoc in Ec. replace (len (name_of rooted st ++ g)) with (len (name_of rooted st ++ slash st ++ g')) by (rewrite !len_app; lia). rewrite Ec. cbn [fst snd].
    change (dots P) with (dots st). rewrite En. f_equal; [rewrite !len_app; lia | by rewrite <- !app_assoc].
Qed.

Lemma clean_step x w g st : place_ok rooted st -> w = name_of rooted st -> spaced st g x -> good_text x ->
  finishes (S turns) (len (w ++ g)) (len w) (len (dots st)) (w ++ g ++ x ++ 0 :: t) st x (len w + len g + len x).
Proof using IH.
  intros Hst Hw Hsp Hx. destruct x as [|c x].
  { exists g. cbn [elements foldl]. rewrite (go_nothing rooted st). cbn [app clean_loop]. unfold mbind, prog_bind. rewrite app_assoc, (byte_run_at (w ++ g) _ 0 0) by (done || lia). rewrite <- app_assoc.
    cbn [Z.eqb]. rewrite <- Hw. split; [done|]. cbn [length]. lia. }
  destruct (Z.eq_dec c 47) as [->|Hc].
  { destruct Hx as (Hb & Hz & H1 & H2). apply Forall_cons in Hb as [_ Hb]. apply Forall_cons in Hz as [_ Hz]. cbn [length] in H1, H2.
    replace (len w + len g + len (47 :: x)) with (len w + len (g ++ [47]) + len x) by (rewrite len_app; cbn [length]; lia).
    eapply finishes_by; [apply (IH x w (g ++ [47]) st); try done; [right; left; by destruct g | lia] | |].
    - cbn [elements Z.eqb Pos.eqb foldl]. by rewrite (go_nothing rooted st).
    - cbn [clean_loop app]. unfold mbind at 1, prog_bind at 1. rewrite app_assoc at 1. rewrite (byte_run_at (w ++ g) _ 0 47) by (done || lia). rewrite <- app_assoc. cbn [Z.eqb Pos.eqb].
      rewrite <- (app_assoc g). f_equal. rewrite !len_app. cbn. lia. }
  destruct (first_element (c :: x)) as (e & y & E & He & Hy). rewrite E in *.
  assert (e <> []) as Hn by (intros ->; destruct Hy as [->|[z ->]]; [done | injection E as -> _; done]).
  assert (Forall (fun c => c <> 47 /\ c <> 0) e) as Hce.
  { destruct Hx as (_ & Hz & _). apply Forall_app in Hz as [Hz _]. apply Forall_forall. intros b Hb. split; [by eapply Forall_forall in He | by eapply Forall_forall in Hz]. }
  destruct (decide (e = [46])) as [->|N1]; [by apply case_dot|]. destruct (decide (e = [46; 46])) as [->|N2]; [|by apply case_element].
  destruct (downs st) as [|e0 ds] eqn:Ed using rev_ind; [|by eapply case_up].
  destruct (Bool.bool_dec rooted true) as [Er|Er]; [by apply case_stay|]. apply case_climb; try done. by destruct rooted.
Qed.
End step.
End run.

Lemma clean_loop_run fuel rooted t : forall turns x w g st, place_ok rooted st -> w = name_of rooted st -> bytes x -> Forall (fun c => c <> 0) x -> spaced st g x ->
  (length x < turns)%nat -> (length x < fuel)%nat -> finishes fuel rooted t turns (len (w ++ g)) (len w) (len (dots rooted st)) (w ++ g ++ x ++ 0 :: t) st x (len w + len g + len x).
Proof.
  induction turns as [|turns IH]; intros x w g st Hst Hw Hb Hz Hsp H1 H2; [lia|]. apply clean_step; try done. unfold good_text. split_and!; try done; lia.
Qed.

(** The end: a name that is empty is a dot. *)
Lemma clean_end fuel w l : (2 <= length l \/ w <> [] /\ 1 <= length l)%nat ->
  exists g, (q ← (if len w =? 0 then put_byte (len w) 46;; mret (len w + 1) else mret (len w)); put_byte q 0) fuel (w ++ l) = Ok tt (match w with [] => [46] | a :: r => a :: r end ++ 0 :: g) /\
    length (match w with [] => [46] | a :: r => a :: r end ++ 0 :: g) = length (w ++ l).
Proof.
  intros H. unfold mbind, prog_bind, mret, prog_ret. destruct w as [|a w].
  - destruct H as [H|[? _]]; [|done]. exists (drop 2 l). change (len [] =? 0) with true. change (len (@nil Z)) with 0. cbv iota beta. change ([] ++ l) with l.
    pose proof (put_byte_run [] l 46 0 fuel eq_refl ltac:(lia)) as E. cbn [app] in E. rewrite E.
    pose proof (put_byte_run [46] (drop 1 l) 0 (0 + 1) fuel eq_refl ltac:(rewrite length_drop; lia)) as E2. change (46 mod 256 :: drop 1 l) with ([46] ++ drop 1 l). rewrite E2. rewrite drop_drop. split; [done|].
    cbn [app length]. rewrite length_drop. lia.
  - exists (drop 1 l). assert (1 <= length l)%nat by lia. destruct (Z.eqb_spec (len (a :: w)) 0) as [E|_]; [cbn in E; lia|]. rewrite put_byte_run by done. rewrite <- app_assoc. split; [done|].
    rewrite !length_app. cbn [length]. rewrite length_drop. lia.
Qed.

(** [cleanname] puts the cleaned name in the place of the name. *)
Lemma cleanname_run x t fuel : bytes x -> Forall (fun c => c <> 0) x -> (x <> [] \/ t <> []) -> (length x < fuel)%nat ->
  exists g, cleanname fuel (x ++ 0 :: t) = Ok tt (clean x ++ 0 :: g) /\ length (clean x ++ 0 :: g) = length (x ++ 0 :: t).
Proof.
  intros Hb Hz Hn Hf. unfold clean. assert (exists rooted y, is_rooted x = rooted /\ x = root rooted ++ y /\ byte 0 fuel (x ++ 0 :: t) = Ok (if x is c :: _ then c else 0) (x ++ 0 :: t) /\
    foldl (go rooted) (Place 0 []) (elements x) = foldl (go rooted) (Place 0 []) (elements y)) as (rooted & y & Er & Ex & Eb & Ee).
  { destruct x as [|c x]; [by exists false, []|]. cbn [is_rooted]. assert (byte 0 fuel ((c :: x) ++ 0 :: t) = Ok c ((c :: x) ++ 0 :: t)) as Eb by (by apply (byte_run_at [] ((c :: x) ++ 0 :: t) 0 c)).
    destruct (Z.eqb_spec c 47) as [->|]; [exists true, x | exists false, (c :: x)]; by split_and!. }
  assert (((if x is c :: _ then c else 0) =? 47) = rooted) as Ec by (rewrite <- Er; by destruct x).
  rewrite Er, Ee. unfold cleanname, mbind at 1, prog_bind at 1. rewrite Eb, Ec. unfold mbind at 1, prog_bind at 1, with_fuel.
  assert (place_ok rooted (Place 0 [])) as Hst by (by split). assert (length y <= length x)%nat as Hy by (rewrite Ex, length_app; lia).
  rewrite Ex in Hb, Hz. apply bytes_app in Hb as [_ Hb]. apply Forall_app in Hz as [_ Hz].
  destruct (clean_loop_run fuel rooted t fuel y (root rooted) [] (Place 0 []) Hst) as (g & E & Hlen); [unfold name_of, root; cbn; by rewrite app_nil_r | done | done | by left | lia | lia|].
  assert (name_of rooted (Place 0 []) = root rooted) as En by (unfold name_of, root; cbn; by rewrite app_nil_r).
  unfold dots in E. cbn [ups] in E. rewrite En, app_nil_r in E. replace (len (root rooted)) with (if rooted then 1 else 0) in E by (by destruct rooted). cbn [app] in E. rewrite Ex, <- app_assoc, E.
  set (w := name_of rooted (foldl (go rooted) (Place 0 []) (elements y))) in *.
  destruct (clean_end fuel w (g ++ 0 :: t)) as (g2 & E2 & Hl2).
  { rewrite length_app. cbn [length] in *. destruct w as [|a w]; [left | right; split; [done | lia]].
    assert (len (root rooted) + len y = len x) by (rewrite Ex, len_app; lia). cbn [length] in Hlen. destruct x as [|c x]; [destruct t; [naive_solver | cbn; lia] | cbn [length] in *; lia]. }
  exists g2. split; [apply E2|]. rewrite Hl2. rewrite !length_app. cbn [length] in *. lia.
Qed.

(** ** What lies behind the name *)

Section framed.
Context (t : list Z).

(** A run that succeeds in a block is the same in a longer one, and leaves what is behind. *)
Definition framed {A} (p : B A) : Prop := forall fuel l a l', p fuel l = Ok a l' -> p fuel (l ++ t) = Ok a (l' ++ t).

Lemma framed_ret {A} (a : A) : framed (mret a).
Proof. intros fuel l b l' E. by injection E as <- <-. Qed.

Lemma framed_fail {A} f : framed (@fail (list Z) A f).
Proof. done. Qed.

Lemma framed_bind {A C} (p : B A) (k : A -> B C) : framed p -> (forall a, framed (k a)) -> framed (p ≫= k).
Proof.
  intros Hp Hk fuel l c l'. unfold mbind, prog_bind. destruct (p fuel l) as [a l1|] eqn:E; [|done]. rewrite (Hp _ _ _ _ E). apply Hk.
Qed.

Lemma framed_byte p : framed (byte p).
Proof.
  intros fuel l a l'. unfold byte, mbind, prog_bind, get_state. destruct (p <? 0); [done|].
  destruct (l !! Z.to_nat p) as [c|] eqn:E; [|done]. intros [= <- <-]. by rewrite (lookup_app_l_Some _ _ _ _ E).
Qed.

Lemma framed_put p v : framed (put_byte p v).
Proof.
  intros fuel l a l'. unfold put_byte, put_bytes, mbind, prog_bind, get_state. rewrite length_app. cbn [length].
  destruct (Z.ltb_spec p 0); [done|]. destruct (Z.ltb_spec (Z.of_nat (length l)) (p + Z.of_nat 1)); [done|].
  destruct (Z.ltb_spec (Z.of_nat (length l + length t)) (p + Z.of_nat 1)); [lia|]. unfold set_state. intros [= <- <-]. f_equal.
  unfold splice. cbn [length]. rewrite take_app_le, drop_app_le by lia. by rewrite <- !app_assoc.
Qed.

Lemma framed_with_fuel {A} (loop : nat -> B A) : (forall n, framed (loop n)) -> framed (with_fuel loop).
Proof. intros H fuel. apply H. Qed.

Lemma framed_to_slash k d : framed (to_slash k d).
Proof using Type.
  induction k as [|k IH]; [apply framed_ret|]. cbn [to_slash]. destruct (_ <? _); [|apply framed_ret].
  apply framed_bind; [apply framed_byte|]. intros c. destruct (c =? 47); [apply framed_ret | exact IH].
Qed.

Lemma framed_copy n : forall p q, framed (copy_element n p q).
Proof using Type.
  induction n as [|n IH]; intros p q; [apply framed_fail|]. cbn [copy_element]. apply framed_bind; [apply framed_byte|]. intros c.
  apply framed_bind; [apply framed_put|]. intros _. destruct (SEP c); [apply framed_ret | apply IH].
Qed.

Lemma framed_dots p : framed (is_dot p) /\ framed (is_dotdot p).
Proof using Type.
  unfold is_dot, is_dotdot. split; (apply framed_bind; [apply framed_byte|]; intros c; destruct (c =? 46); [|apply framed_ret];
    apply framed_bind; [apply framed_byte|]; intros d); [apply framed_ret|].
  destruct (d =? 46); [|apply framed_ret]. apply framed_bind; [apply framed_byte|]. intros e. apply framed_ret.
Qed.

(** A byte is put before, or not. *)
Lemma framed_maybe (b : bool) q v : framed (if b then mret q else put_byte q v;; mret (q + 1)).
Proof using Type. destruct b; [apply framed_ret|]. apply framed_bind; [apply framed_put|]. intros _. apply framed_ret. Qed.

Lemma framed_clean n rooted : forall p q d, framed (clean_loop n rooted p q d).
Proof using Type.
  induction n as [|n IH]; intros p q d; [apply framed_fail|]. cbn [clean_loop]. apply framed_bind; [apply framed_byte|]. intros c.
  destruct (c =? 0); [apply framed_ret|]. destruct (c =? 47); [apply IH|]. apply framed_bind; [apply framed_dots|]. intros [|]; [apply IH|].
  apply framed_bind; [apply framed_dots|]. intros [|]; cbv zeta.
  - destruct (d <? q).
    + apply framed_bind; [apply framed_to_slash|]. intros x. apply IH.
    + destruct rooted; cbn [negb]; [apply IH|]. apply framed_bind; [apply framed_maybe|]. intros x.
      apply framed_bind; [apply framed_put|]. intros _. apply framed_bind; [apply framed_put|]. intros _. apply IH.
  - apply framed_bind; [apply framed_maybe|]. intros x. apply framed_bind; [apply framed_with_fuel; intros m; apply framed_copy|].
    intros y. apply IH.
Qed.

Lemma framed_cleanname : framed cleanname.
Proof using Type.
  unfold cleanname. apply framed_bind; [apply framed_byte|]. intros c. cbv zeta.
  apply framed_bind; [apply framed_with_fuel; intros n; apply framed_clean|]. intros q.
  apply framed_bind; [|intros x; apply framed_put]. destruct (q =? 0); [|apply framed_ret]. apply framed_bind; [apply framed_put|]. intros _. apply framed_ret.
Qed.
End framed.

(** A name that is not empty is cleaned in its own bytes. *)
Lemma cleanname_stays x t fuel : bytes x -> Forall (fun c => c <> 0) x -> x <> [] -> (length x < fuel)%nat ->
  exists g, cleanname fuel (x ++ 0 :: t) = Ok tt (clean x ++ 0 :: g ++ t) /\ (length (clean x) + length g = length x)%nat.
Proof.
  intros Hb Hz Hx Hf. destruct (cleanname_run x [] fuel Hb Hz ltac:(by left) Hf) as (g & E & Hl). exists g. split.
  - apply (framed_cleanname t) in E. by rewrite <- !app_assoc in E.
  - rewrite !length_app in Hl. cbn [length] in Hl. lia.
Qed.

(** The empty name becomes a dot, whose NUL is behind the NUL. *)
Lemma cleanname_empty c t fuel : (0 < fuel)%nat -> cleanname fuel (0 :: c :: t) = Ok tt (clean [] ++ 0 :: t) /\ cleanname fuel [0] = Fault Bad_pointer.
Proof.
  intros Hf. destruct fuel as [|fuel]; [lia|]. assert (forall b, cleanname (S fuel) [0; b] = Ok tt [46; 0]) as E by done. split; [|done].
  exact (framed_cleanname t _ _ _ _ (E c)).
Qed.
