(* ===== verification/NineClaims.v ===== *)
(** * Lib9: the properties *)

From Stdlib Require Import ZArith Lia.
From stdpp Require Import base numbers list strings.
From S2P Require Import Prelude NineCall NineWire NineSend NineReceive NineRune NineEncode NineClean.

Open Scope Z_scope.

(** ** Helpers *)

Lemma body_bytes m : valid m -> bytes (body m).
Proof. unfold valid, body. destruct (layout m). apply put_is. Qed.

Lemma wire_bytes g m : valid m -> bytes (wire g m).
Proof. intros H. unfold wire. rewrite !bytes_app. split_and!; try apply le_bytes. by apply body_bytes. Qed.

Lemma message_at_unique l g m r g2 m2 r2 : message_at l g m r -> message_at l g2 m2 r2 -> g = g2 /\ m = m2.
Proof.
  intros (E & H1 & H2 & H3) (E2 & H4 & H5 & H6).
  assert (exists a b d x, l = a ++ b ++ d ++ x /\ length a = 4%nat /\ length b = 1%nat /\ length d = 2%nat) as (a & b & d & x & -> & La & Lb & Ld).
  { exists (le 4 (7 + len (body m))), (le 1 (code m)), (le 2 g), (body m ++ r). rewrite E, !le_length. unfold wire. by rewrite <- !app_assoc. }
  destruct (wire_parts _ _ _ _ _ _ _ La Lb Ld H1 H2 H3 E) as (_ & Eb & <- & Em). destruct (wire_parts _ _ _ _ _ _ _ La Lb Ld H4 H5 H6 E2) as (_ & Eb2 & <- & Em2).
  split; [done|]. rewrite <- Eb in Em. rewrite <- Eb2 in Em2. congruence.
Qed.

(** ** The properties *)

Section claims.
Context {ADDR : addresses}.

(** C21 [convS2M] of a message writes its bytes at the beginning of the buffer, and nothing else, and returns their number, when there is room for them;
    otherwise it returns 0 and writes nothing. *)
Theorem convS2M_writes (f : Fcall (list Z)) m nap b fuel :
  message_of f = Some m -> valid m -> 0 <= tag f < 65536 -> Z.of_nat (length (wire (tag f) m)) < 2 ^ 32 -> nap <= Z.of_nat (length b) ->
  convS2M f nap fuel b =
  if nap <? Z.of_nat (length (wire (tag f) m)) then Ok 0 b
  else Ok (Z.of_nat (length (wire (tag f) m))) (wire (tag f) m ++ drop (length (wire (tag f) m)) b).
Proof using Type. apply convS2M_spec. Qed.

(** C19 [convM2S] of any bytes stays inside them; it accepts them just when they begin with a message of the format whose size they hold, returns this size,
    and the struct then holds the message: its numbers, its strings with a NUL behind them, its data. *)
Theorem convM2S_accepts nap l t f fuel :
  0 <= base -> base + nap + 2 ^ 32 <= 2 ^ width -> Z.of_nat (length l) = nap -> bytes l -> length (wname f) = 16%nat -> length (wqid f) = 16%nat ->
  exists n f' b, convM2S nap f fuel (l ++ t) = Ok (n, f') b /\ Z.of_nat (length b) = nap + Z.of_nat (length t) /\
  if n =? 0 then forall g m r, ~ message_at l g m r
  else exists m r, message_at l (tag f') m r /\ n = Z.of_nat (length (wire (tag f') m)) /\ ftype f' = code m /\ holds b f' m.
Proof using Type.
  intros HB HR Hl Hb Hw Hq. destruct (convM2S_spec nap t HB HR f l fuel Hl Hb Hw Hq) as [(g & m & r & f' & b & Hat & E & Hlen & Hh & Hc & <-)|[Hno (f' & b & E & Hlen)]].
  - exists (len (wire (tag f') m)), f', b. split_and!; try done. destruct (Z.eqb_spec (len (wire (tag f') m)) 0) as [E0|_].
    + unfold wire in E0. rewrite !len_app, !le_length in E0. lia.
    + exists m, r. by repeat (split; [done|]).
  - exists 0, f', b. by split_and!.
Qed.

(** C20 What [convS2M] wrote [convM2S] reads back: the message that the caller meant, with its tag. *)
Theorem message_round_trip (f : Fcall (list Z)) (f2 : Fcall Z) m nap b fuel :
  0 <= base -> base + Z.of_nat (length (wire (tag f) m)) + 2 ^ 32 <= 2 ^ width ->
  message_of f = Some m -> valid m -> 0 <= tag f < 65536 -> Z.of_nat (length (wire (tag f) m)) < 2 ^ 32 ->
  Z.of_nat (length (wire (tag f) m)) <= nap <= Z.of_nat (length b) -> length (wname f2) = 16%nat -> length (wqid f2) = 16%nat ->
  exists n w f' b', convS2M f nap fuel b = Ok n w /\ convM2S n f2 fuel w = Ok (n, f') b' /\ holds b' f' m /\ tag f' = tag f.
Proof using Type.
  intros HB HR Hm Hv Ht Hlen [Hn1 Hn2] Hw Hq. set (x := wire (tag f) m) in *. exists (len x), (x ++ drop (length x) b).
  pose proof (convS2M_spec f m nap b fuel Hm Hv Ht Hlen Hn2) as E. fold x in E. destruct (Z.ltb_spec nap (len x)); [lia|].
  assert (message_at x (tag f) m []) as Hat by (split; [by rewrite app_nil_r | exact (conj Hv (conj Ht Hlen))]).
  destruct (convM2S_spec (len x) (drop (length x) b) HB HR f2 x fuel eq_refl (wire_bytes _ _ Hv) Hw Hq) as [(g & m2 & r & f' & b' & Hat2 & E2 & _ & Hh & _ & Hg)|[Hno _]]; [|by destruct (Hno _ _ _ Hat)].
  destruct (message_at_unique _ _ _ _ _ _ _ Hat Hat2) as [<- <-]. by exists f', b'.
Qed.
End claims.

(** ** Concrete messages *)

(** A struct of zeros, and one with the names of a walk. *)
Definition zeros {P} : Fcall P :=
  Call 0 0 0 0 None 0 None (Mkqid 0 0 0) 0 (Mkqid 0 0 0) 0 None None 0 None 0 0 0 (repeat None 16) 0 (repeat (Mkqid 0 0 0) 16) 0 0 None 0 None.
Definition walk : Fcall (list Z) :=
  with_wname (<[1%nat := Some [98; 99; 0]]> (<[0%nat := Some [97; 0; 55]]> (repeat None 16))) (with_nwname 2 (with_newfid 8 (with_fid 7 (with_tag 513 (with_ftype Twalk zeros))))).
Definition walk_bytes : list Z := [24; 0; 0; 0; 110; 1; 2; 7; 0; 0; 0; 8; 0; 0; 0; 2; 0; 1; 0; 97; 2; 0; 98; 99].
Definition wide : addresses := Addresses 4096 64.

Lemma walk_valid : valid (T_walk 7 8 [[97]; [98; 99]]).
Proof. unfold valid. cbn. unfold bytes, is_byte. repeat (first [split | constructor]); done. Qed.

Lemma convS2M_writes_witness : convS2M walk 30 0%nat (repeat 255 30) = Ok 24 (walk_bytes ++ repeat 255 6).
Proof. apply (convS2M_writes walk (T_walk 7 8 [[97]; [98; 99]]) 30 (repeat 255 30) 0%nat); [reflexivity | apply walk_valid | cbn; lia | reflexivity | cbn; lia]. Defined.

Lemma convM2S_accepts_witness : exists n f' b, convM2S (ADDR := wide) 24 zeros 0%nat (walk_bytes ++ [255]) = Ok (n, f') b /\ Z.of_nat (length b) = 24 + 1 /\
  if n =? 0 then forall g m r, ~ message_at walk_bytes g m r
  else exists m r, message_at walk_bytes (tag f') m r /\ n = Z.of_nat (length (wire (tag f') m)) /\ ftype f' = code m /\ holds b f' m.
Proof.
  apply (convM2S_accepts (ADDR := wide) 24 walk_bytes [255] zeros 0%nat); [done | by vm_compute | done | | done | done].
  unfold walk_bytes, bytes, is_byte. repeat (first [split | constructor]); done.
Defined.

Lemma message_round_trip_witness : exists n w f' b', convS2M walk 30 0%nat (repeat 255 30) = Ok n w /\ convM2S (ADDR := wide) n zeros 0%nat w = Ok (n, f') b' /\
  holds b' f' (T_walk 7 8 [[97]; [98; 99]]) /\ tag f' = 513.
Proof.
  apply (message_round_trip (ADDR := wide) walk zeros (T_walk 7 8 [[97]; [98; 99]]) 30 (repeat 255 30) 0%nat);
    [done | by vm_compute | reflexivity | apply walk_valid | cbn; lia | reflexivity | split; by vm_compute | done | done].
Defined.

(** *** What the code does with sizes that do not fit *)

(** With addresses of 32 bits [p + f->count] wraps, and a message of 23 bytes that says it holds 4294967280 bytes of data is accepted as one of 7 bytes. *)
Example count_wraps_pointer :
  let l := [7; 0; 0; 0; 118; 1; 0] ++ le 4 5 ++ le 8 0 ++ le 4 4294967280 in
  match convM2S (ADDR := Addresses 65536 32) 23 zeros 0%nat l with Ok (n, f) _ => n = 7 /\ count f = 4294967280 /\ data f = Some 23 | Fault _ => False end.
Proof. by vm_compute. Qed.

(** The size of an Rread whose count is near 2^32 wraps to 3, and the data are copied far beyond the buffer. *)
Example count_wraps_size :
  sizeS2M (S := unit) (with_count 4294967288 (with_ftype Rread zeros)) 0%nat tt = Ok 3 tt /\
  convS2M (with_count 4294967288 (with_ftype Rread zeros)) 100 0%nat (repeat 0 100) = Fault Bad_pointer.
Proof. by vm_compute. Qed.

(** More than MAXWELEM names are read from the array before their number is checked. *)
Example names_beyond_array : convS2M (with_nwname 17 (with_ftype Twalk zeros)) 100 0%nat (repeat 0 100) = Fault Bad_pointer.
Proof. by vm_compute. Qed.

(** A string of 65536 bytes is sent with the length 0. *)
Definition long_name : Fcall (list Z) := with_ename (Some (repeat 97 (Z.to_nat 65536) ++ [0])) (with_ftype Rerror zeros).
Example long_string_truncated : match convS2M long_name 65545 0%nat (repeat 0 (Z.to_nat 65545)) with Ok n w => n = 65545 /\ take 9 w = [9; 0; 1; 0; 107; 0; 0; 0; 0] | Fault _ => False end.
Proof. by vm_compute. Qed.

(** ** UTF-8, encodings and path names *)

(** C23 [chartorune] reads every rune that [runetochar] writes, with its length; and on any bytes it gives a rune that they begin with, or Runeerror with
    the length 1 when they begin with none. *)
Theorem runes_exact (str : list Z) : bytes str ->
  (forall r, rune r -> chartorune (runetochar r ++ str) = Some (r, runelen r)) /\
  (forall r n, chartorune str = Some (r, n) ->
     (rune r /\ n = runelen r /\ exists s, str = runetochar r ++ s) \/
     (r = Runeerror /\ n = 1 /\ forall r2 s, rune r2 -> str <> runetochar r2 ++ s)).
Proof.
  intros Hb. split; [intros r Hr; by rewrite runelen_eq, chartorune_rune|].
  intros r n E. destruct (decide ((r, n) = (128, 1))) as [[= -> ->]|Hn].
  - right. split_and!; try done. intros r2 s Hr2 ->. apply bytes_app in Hb as [_ Hs]. rewrite chartorune_rune in E by done. injection E as -> E2. by vm_compute in E2.
  - left. rewrite chartorune_eq in E by done. destruct (decode_sound str r n Hb E Hn) as (Hr & -> & Hs). by rewrite runelen_eq.
Qed.

(** C24 On a string of runes [utflen] and [utfnlen] count them, the latter those that end within [m] bytes; [utfrune] and [utfrrune] find the first and the last
    occurrence; and [utfecpy] copies the most whole characters that fit with a NUL, writing only up to its end. *)
Theorem utf_strings (rs t : list Z) : runes rs -> bytes t ->
  utflen (string_of rs t) = Some (Z.of_nat (length rs)) /\
  (forall m, utfnlen (string_of rs t) m = Some (Z.of_nat (length (whole rs m)))) /\
  (forall c, 0 < c -> utfrune (string_of rs t) c = Some (first_of rs c 0) /\ utfrrune (string_of rs t) c = Some (last_of rs c 0 None)) /\
  (forall c l n fuel, 1 <= n <= Z.of_nat (length l) ->
     let copied := encs (whole rs (n - 1)) in
     exists junk, utfecpy (Z.of_nat (length c)) (Z.of_nat (length c) + n) (string_of rs t) fuel (c ++ l) =
       Ok (Z.of_nat (length c) + Z.of_nat (length copied)) (c ++ copied ++ 0 :: junk ++ drop (Z.to_nat n) l) /\
       Z.of_nat (length copied) + 1 + Z.of_nat (length junk) = n).
Proof.
  intros Hr Ht. pose proof (string_of_length rs t) as Hl. split; [|split; [|split]].
  - unfold utflen. by rewrite utflen_runes.
  - intros m. unfold utfnlen. rewrite utfnlen_runes by (done || lia). done.
  - intros c Hc. unfold utfrune, utfrrune, Runesync. destruct (Z.ltb_spec c 128).
    + rewrite Z.mod_small by lia. by rewrite strchr_runes, strrchr_runes by (done || lia).
    + by rewrite utfrune_runes, utfrrune_runes.
  - intros c l n fuel Hn. by apply utfecpy_runes.
Qed.

(** C22 Into a buffer with room [enc64], [enc16] and [enc32] write text that [dec64], [dec16] and [dec32] turn into the bytes again; without room [enc64] and [enc16] write
    text for the first bytes, inside the buffer.  Of base 32 only what [left32] says comes back: not what is behind the groups of five bytes, unless it is one byte. *)
Theorem text_round_trips (inp : list Z) lim lim2 : bytes inp -> 0 < lim -> size inp <= lim2 ->
  (exists t k, enc64 lim inp = Some t /\ size t < lim /\ dec64 lim2 t = take k inp /\ (4 * ((size inp + 2) / 3) < lim -> k = length inp)) /\
  (exists t k, enc16 lim inp = Some t /\ size t < lim /\ dec16 lim2 t = take k inp /\ (2 * size inp < lim -> k = length inp)) /\
  ((8 * size inp + 4) / 5 < lim -> exists t, enc32 lim inp = Some (Some t) /\ dec32 lim2 t = Some (left32 inp)).
Proof.
  intros Hb Hl Hl2. split; [|split].
  - destruct (enc64_codes lim inp Hb []) as (t & k & E & Hs & _ & Hd & Ha); [done|]. exists t, k. split_and!; [done | done | by apply Hd | done].
  - destruct (enc16_codes lim inp Hb []) as (t & k & E & Hs & _ & Hd & Ha); [done|]. exists t, k. split_and!; [done | done | by apply Hd | done].
  - intros H. by apply enc32_dec32.
Qed.

(** C25 [cleanname] ends, and puts in the place of a name the shortest name of the same place: its elements without empty ones and dots, each [..] taken together with the
    element before it.  If the name is not empty it changes nothing behind its NUL; the empty name becomes a dot, whose NUL is written behind, or outside
    of the block when that ends there. *)
Theorem cleanname_correct (x t : list Z) fuel : bytes x -> Forall (fun c => c <> 0) x -> (length x < fuel)%nat ->
  (x <> [] -> exists g, cleanname fuel (x ++ 0 :: t) = Ok tt (clean x ++ 0 :: g ++ t) /\ (length (clean x) + length g = length x)%nat) /\
  (x = [] -> (forall c, cleanname fuel (0 :: c :: t) = Ok tt (clean x ++ 0 :: t)) /\ cleanname fuel [0] = Fault Bad_pointer).
Proof.
  intros Hb Hz Hf. split; [intros Hx; by apply cleanname_stays|]. intros ->. cbn [length] in Hf.
  split; [intros c|]; [by apply cleanname_empty | by apply (cleanname_empty 0 t)].
Qed.

(** ** Witnesses *)

Lemma small_bytes : bytes [195; 169; 0].
Proof. repeat (apply Forall_cons_2; [split; done|]). apply Forall_nil_2. Qed.

Lemma runes_exact_witness :
  (forall r, rune r -> chartorune (runetochar r ++ [195; 169; 0]) = Some (r, runelen r)) /\
  (forall r n, chartorune [195; 169; 0] = Some (r, n) ->
     (rune r /\ n = runelen r /\ exists s, [195; 169; 0] = runetochar r ++ s) \/
     (r = Runeerror /\ n = 1 /\ forall r2 s, rune r2 -> [195; 169; 0] <> runetochar r2 ++ s)).
Proof. apply (runes_exact [195; 169; 0]). apply small_bytes. Defined.

Definition greek : list Z := [97; 945; 8364; 945].
Lemma greek_runes : runes greek.
Proof. repeat (apply Forall_cons_2; [split; [split; done | done]|]). apply Forall_nil_2. Qed.

Lemma one_byte : bytes [1].
Proof. apply Forall_cons_2; [split; done | apply Forall_nil_2]. Qed.

Lemma utf_strings_witness : utflen (string_of greek [1]) = Some 4 /\ utfnlen (string_of greek [1]) 5 = Some 2 /\
  utfrune (string_of greek [1]) 945 = Some (Some 1) /\ utfrrune (string_of greek [1]) 945 = Some (Some 6) /\
  utfecpy 0 5 (string_of greek [1]) 0%nat (repeat 9 7) = Ok 3 [97; 206; 177; 0; 130; 9; 9].
Proof.
  destruct (utf_strings greek [1] greek_runes one_byte) as (H1 & H2 & H3 & _).
  destruct (H3 945 eq_refl) as [H4 H5]. split; [exact H1|]. split; [exact (H2 5)|]. split; [exact H4|]. split; [exact H5|]. reflexivity.
Defined.

Lemma text_round_trips_witness : exists t, enc32 20 [195; 169; 0; 195; 169] = Some (Some t) /\ dec32 5 t = Some (Some [195; 169; 0; 195; 169]).
Proof.
  destruct (text_round_trips ([195; 169; 0] ++ [195; 169]) 20 5) as (_ & _ & H); [|done | done | apply H; done].
  repeat (apply Forall_cons_2; [split; done|]). apply Forall_nil_2.
Defined.

Lemma cleanname_correct_witness : exists g, cleanname 20%nat (NineClean.text "a//./b/../c" ++ 0 :: [7]) = Ok tt (clean (NineClean.text "a//./b/../c") ++ 0 :: g ++ [7]) /\
  (length (clean (NineClean.text "a//./b/../c")) + length g = 11)%nat /\ clean (NineClean.text "a//./b/../c") = NineClean.text "a/c".
Proof.
  destruct (cleanname_correct (NineClean.text "a//./b/../c") [7] 20%nat) as [H _].
  - cbn. repeat (apply Forall_cons_2; [split; done|]). apply Forall_nil_2.
  - cbn. repeat (apply Forall_cons_2; [done|]). apply Forall_nil_2.
  - cbn. lia.
  - destruct (H ltac:(discriminate)) as (g & H1 & H2). exists g. split; [exact H1|]. split; [exact H2 | by vm_compute].
Defined.

(** ** What the code does with some inputs *)

(** Two bytes are written as three digits, which are not accepted; of three bytes two come back. *)
Example base32_tails : enc32 9 [1; 2] = Some (Some (ascii_codes "263")) /\ dec32 9 (ascii_codes "263") = Some None /\
  enc32 9 [1; 2; 255] = Some (Some (ascii_codes "2632")) /\ dec32 9 (ascii_codes "2632") = Some (Some [1; 2]).
Proof. by vm_compute. Qed.

(** Eight digits are five bytes, and a buffer of four is taken to be enough. *)
Example base32_overflow : dec32 4 (ascii_codes "26328327") = None.
Proof. by vm_compute. Qed.

(** A buffer of no bytes gets a NUL. *)
Example no_room_for_nul : enc64 0 [] = None /\ enc16 0 [] = None.
Proof. done. Qed.

(** Letters behind F are digits of base 16. *)
Example beyond_hex : dec16 9 (ascii_codes "zz") = [83].
Proof. by vm_compute. Qed.

(** The empty name needs two bytes. *)
Example empty_name : cleanname 9%nat [0] = Fault Bad_pointer.
Proof. by vm_compute. Qed.
